(* ===== verification/_CoqProject ===== *)
-Q . S2P
Prelude.v
PyValue.v
Sha256.v
Identity.v
Strict.v
IdentityCorrect.v
Graph.v
Provider.v
Apportion.v
Decimal.v
Catalog.v
CatalogResolve.v
CatalogFacts.v
CatalogCorrect.v
FiniteDebt.v
FiniteDebtBalance.v
FiniteDebtPolicy.v
FiniteDebtEpoch.v
FiniteDebtClaims.v
Composition.v
Ledger.v
CompositionFacts.v
CompositionEpoch.v
Stack.v
Release.v
StackFacts.v
ReleaseCorrect.v
StackPlan.v
StackPlanCorrect.v
Settlement.v
SettlementPlan.v
SettlementFacts.v
SettlementCorrect.v
Publication.v
Programs.v
Chain.v
Weights.v
WeightsFacts.v
WeightsCorrect.v
Journal.v
PublicationSystem.v
PublicationCorrect.v
PublicationWitnesses.v
Fingerprint.v
QualificationBatch.v
Arena.v
IntakeData.v
Intake.v
IntakeAdmission.v
IntakeInvariant.v
IntakeLogic.v
IntakeSteps.v
IntakeBatches.v
IntakeQueue.v
IntakeReserving.v
IntakeSystem.v
IntakeCorrect.v
DebtPublication.v
DebtStoreData.v
DebtStore.v
DebtLedger.v
DebtFrame.v
DebtAudit.v
DebtSteps.v
DebtClose.v
DebtIssue.v
DebtSystem.v
DebtStoreCorrect.v
Economics.v
FiniteDebtCorrect.v
CompositionCorrect.v
EconomicsCorrect.v
Scenario.v
StackWitnesses.v
DebtWitnesses.v
CompositionWitnesses.v
EconomicsWitnesses.v
IntakeWitnesses.v
DebtStoreWitnesses.v
