(* ===== verification/Prelude.v ===== *)
(** * Verification of the Optima settlement, incentive and identity core

    Optima rewards miners for faster inference kernels.  This library models the
    pure core that decides what is accepted and who is paid: content identities,
    strict validation, the catalog of contribution targets, stack manifests and
    releases, stack planning, settlement, the finite-debt ledger, its composition
    with discovery debt, and the emissions projection to one integer weight
    vector; the publication of that vector on the chain; and the store that takes
    finalized submissions from their arrival to a qualified pair of runs.

    ** The program's parts and where they are modelled

    - [src/optima/stack_identity.py]: one canonical JSON encoding and
      domain-separated SHA-256 digests.  [Identity] has [_canonical_value],
      [canonical_json_bytes], [canonical_digest] and [require_sha256_hex];
      [Sha256] states what the rest needs of the hash as a class and discharges
      it with an executable FIPS 180-4; [IdentityCorrect] proves that the
      encoding is unambiguous.
    - [src/optima/_strict.py]: the validators every module shares, parameterised
      by the caller's exception class.  [Strict].
    - [src/optima/finite_debt.py]: policies, claims issued for log-scaled
      speedups, claim balances (open, paid, expired, cancelled), the projection
      of one epoch over the open claims and its application.  [FiniteDebt] is
      the model; [Decimal] is the part of Python's [decimal] it uses (parsing,
      division, multiplication and [ln] at 80 digits); [Apportion] is the
      largest-remainder loop that three modules share.
    - [src/optima/incentive_composition.py]: a second class of claims for
      reviewed discoveries, with the same balance rules, and the epoch that pays
      both classes in order.  [Composition] is the model; [Ledger] states what
      the epoch needs of a class of claims ([ClaimLedger]) and proves the
      pro-rata split and its application against it; [CompositionEpoch] gives
      the innovation and discovery instances.
    - [src/optima/economics.py]: standing crown credit with decay, discovery
      bounties, the global projection over all arenas and the single-arena one.
      [Economics].
    - [src/optima/artifact_provider.py]: descriptors of executable artifact
      providers and their registry.  [Provider].
    - [src/optima/target_catalog.py]: the registered targets with their
      displacement, compatibility and requirement relations, composition rules,
      the constructor that validates them all, the queries, the order of active
      targets, and the resolution of a bundle to its target.  [Graph] has the
      searches (depth-first cycle check, closure worklist, Kahn's algorithm)
      with their reference definitions, [Catalog] the data, constructor and
      queries, [CatalogResolve] bundle resolution and the shipped catalog.
    - [src/optima/stack_manifest.py]: contribution references, the evaluation
      stack manifest with its context ([Stack]), integration review records and
      the engine release manifest ([Release], with the evidence references of
      [src/optima/eval/evidence_store.py]).
    - [src/optima/stack_plan.py]: the transition of an incumbent stack by one
      contribution, marginal arms, rollback plans and sealed cohorts.
      [StackPlan].
    - [src/optima/settlement.py]: qualifications and their reproductions
      ([Settlement], with the slot audit policies of
      [src/optima/eval/oci_session_protocol.py]), candidates, evidence, events,
      the hash-chained journal and [plan_settlement] ([SettlementPlan]).
    - [src/optima/chain/weights.py], [src/optima/chain/__init__.py] and
      [SQLiteWeightPublicationJournal] of [src/optima/chain/intake.py]: projections
      and publication records ([Publication]), the calls a reconciler makes as a
      program over an abstract chain and journal ([Programs]), the readers and the
      submission of the chain ([Chain], with the double arithmetic of [Publication]),
      reconciliation, release and resumption ([Weights]), and the journal's tables
      ([Journal]).  [WeightsFacts] reasons about the traces of a program,
      [PublicationSystem] interleaves several clients of one journal.
    - [FinalizedIntakeStore] of [src/optima/chain/intake.py]: [IntakeData] has its
      scope, policy, arrivals, tables and reader; [Intake] the store monad, the
      queries, opening, transport, publication, screening and copies;
      [IntakeAdmission] admission, expiry, archival and holds, evaluation stacks,
      outcomes and batches.  It compares the fingerprints of
      [src/optima/copy_fingerprint.py] ([Fingerprint]), stores the receipts of
      [src/optima/arena_service.py] ([Arena], whose provider is a class) and the
      batches of [src/optima/eval/qualification_intake.py] ([QualificationBatch]).
    - [src/optima/chain/debt_publication.py]: the records that tie an economic
      projection to the published weights and to the row read back, the table of
      confirmations, the journal of the V2 publisher and the schedule of epoch
      boundaries.  [DebtPublication].
    - [FiniteDebtStore] of [src/optima/chain/finite_debt_store.py]: [DebtStoreData]
      has its records and the rows of its seven tables, [DebtStore] the readers
      (the hash chain of events, activations, the settlement a crown rests on, the
      replay of the family clocks, the histories of the claims), [DebtLedger] what
      writes: activation, issuance, reconciliation, invalidation, projection and
      close.  The rest of the database is a [LedgerEnv].

    Every module calls the validators, which call the identities.  The catalog
    reads the provider registry; manifests embed a catalog snapshot; planning
    checks a transition against catalog and context; settlement moves the
    incumbent to the winning planned stack; the emissions projection reads
    stacks and catalogs; the composition calls finite-debt's operations.  The
    intake store retains the qualifications that settlement pairs; the
    publication reads the projected weights; the ledger store reads the crowns of
    the intake database, keeps the finite-debt claims and pays them when the
    publication of their epoch is confirmed.

    ** How the code is modelled

    A Python class is a [Record], its [__post_init__] a function [..._init] from
    dynamically typed values ([pyval]) to [result], its methods functions of the
    same name.  [result] is a value or a raised exception ([Exn], class and
    constant message text), and [let!]/[do!] sequence fallible code in the
    source's order, so which exception is raised first is modelled.  The
    [type(x) is C] checks on arguments of the program's own classes are the
    types of the model.  Python ints are [Z]; the arithmetic has no width to
    overflow.  Dicts that are only looked up or summed are [gmap]s, dicts that
    are serialised are association lists; [sorted] is a stable sort over
    code-point order.  A [str] is a string over code points 0 to 255; an
    integer whose decimal text would exceed the interpreter's conversion limit
    (4300 digits by default) is outside the model.  The loops of the source are
    [fold_left], [mapM], [forM_] and [foldM] over lists, so no fuel is needed
    except in [Graph] (the search is at most one call deeper than the number of
    targets, the worklist pops at most the first successors plus all
    out-degrees, Kahn's loop visits each target once; [relation_search_exact] and
    [active_order_greedy] show that none runs out), in SHA-256 (the number of
    words, one block consuming sixteen) and in [Decimal]: the loops that drop trailing zeros run at most once per digit of
    the coefficient, and the loops of the logarithm (argument reduction, integer
    square root, guard digits) have fixed bounds whose adequacy [Decimal]'s
    header explains; the walk along the publication records has the number of
    records and two as fuel ([load_terminates]).

    A SQLite store is the record of its tables, rows in insertion order, and an
    operation maps a store to the one it leaves and its outcome ([storeM]); a
    transaction puts the store back when its body raises.  A text column that
    holds JSON is the value it decodes to, or none when it is damaged.  What
    runs concurrently is a sequence of calls: the clients of a journal interleave
    call by call; the intake store is held under an exclusive lock, so whole
    operations follow each other ([intake_step]), with settlement, which shares
    the database, as a relation on what it may change.

    ** What the theorems show

    - [CatalogCorrect]: a constructed catalog's closures are the transitive
      closures of acyclic relations; which targets may be active together, and
      that those never share a slot; the order of active targets is a greedy
      reference order; the searches terminate and are exact; intake admits
      exactly the bundles of registered targets; the shipped catalog is valid.
    - [ReleaseCorrect]: manifests and review records are read back exactly; a
      validated release ships exactly what was reviewed.
    - [StackPlanCorrect]: exactly which transitions are planned and what they
      change; an arm can be rolled back to where it started; a sealed cohort is
      complete and independent of the order of its arms.
    - [SettlementCorrect]: which candidate wins; the plan and its journal are the
      reference outcome; every candidate is decided once; the order of the
      candidates does not matter; what makes a reproduction independent.
    - [FiniteDebtCorrect]: an epoch conserves its units and is fair to one unit;
      its projection succeeds exactly under a stated condition and can then
      always be applied; runs of epochs pay the debt off; balances conserve
      principal along every sequence of operations and closed balances are
      final; issuance accepts and returns exactly what is stated, and what it
      issues is payable; the time multiplier is bounded and monotone; policies
      cover their budget; nothing depends on the order of inputs; records are
      read back exactly.
    - [CompositionCorrect]: the same for the two-class epoch and for discovery
      claims, and that the composed epoch without discovery debt is the
      finite-debt epoch.
    - [EconomicsCorrect]: the weight vector is normalized, canonical and names
      metagraph members only; credits decay as stated; pools are apportioned
      exactly; bounties are live or expired; the single-arena projection is the
      global one.
    - [IdentityCorrect]: when digests exist, and that they are the SHA-256 of bytes
      that determine the value, and conversely.
    - [PublicationCorrect]: however the clients interleave, the journal is a
      hash-chained log of the publication state machine and the submissions are
      bounded by the confirmations and releases it records; a submission follows
      its own stored intent; only a row read back confirms; a dry run only reads;
      the journal refines an append-only log and reads projections back.
    - [IntakeCorrect]: every reachable store reads back; operations that raise
      change nothing; a reservation moves along the status graph only, failed and
      expired are final and a publication is written once; the queue is bounded;
      a qualified reservation has two independent passes and the candidate made
      of them; admission is a reference fold and replays change nothing; expiry
      and the reconciliation of copies are exact; what counts as a copy; what a
      screening decides.
    - [DebtStoreCorrect]: what the audit of the ledger store guarantees of every
      claim's history; the event chain is tamper evident; a reconciliation, an
      invalidation, a close and an issuance change exactly the claim states they
      should, and the audit passes after any sequence of operations; which
      boundary schedules exist.  An activation counts as an operation when it is
      at a later block than all events: one at the block of an earlier settlement
      is not refused and makes the audit fail.  Where the digest of an event could be
      the zero digest, which the code reserves, the theorems say so
      ([zero_event], [zero_preimage]).

    [FiniteDebtBalance], [FiniteDebtPolicy], [FiniteDebtClaims],
    [FiniteDebtEpoch], [CompositionEpoch] and the [...Facts] files
    hold the equivalences ([..._Ok]: an operation returns this
    value exactly when these conditions hold) and closed forms that the
    properties are read off from.  For intake, [IntakeInvariant] says what a valid
    row reads as and states the invariant and the relation to a later store,
    [IntakeLogic] has the rules, and [IntakeSteps], [IntakeBatches],
    [IntakeQueue] and [IntakeReserving] apply them to the operations;
    [IntakeSystem] puts these together.  For the ledger, [DebtFrame] says how the
    chain grows and what a reader depends on, [DebtAudit] what the audits accept,
    [DebtSteps] has the invariant [ledger_ok] (the store passes its audit with
    these states) with the rule for a batch of balance revisions and the
    reconciliation; [DebtClose], [DebtIssue] and [DebtSystem] do the other
    operations and the step relation.  [Scenario] and the
    [...Witnesses] files run the operations on concrete records and apply the
    properties that have hypotheses to them; the hash is SHA-256 itself, except
    in [StackWitnesses], [PublicationWitnesses], [IntakeWitnesses] and
    [DebtStoreWitnesses], where [checksum_sha256] keeps the evaluation cheap.

    Three behaviours are stated as they are and look unintended: a composed
    epoch that would leave the reserve nothing raises
    ([composed_zero_reserve_raises]); an open balance with forfeited units can be
    stored but never paid off ([forfeited_open_balance_stuck]); a policy's schema
    version may be [True] or [1.0] ([schema_version_loose]).

    ** What is not modelled

    [_strict.require_driver_integer] (attributes of CUDA driver objects);
    [from_qualification] and [from_resident_speed_witness] of settlement.py, which
    read records of the evaluation runtime; the TOML reader of bundle manifests;
    files of evidence and receipts; the settlement leases and commits of the
    intake store; [incentive_composition_store.py], the store of discovery debt,
    which shares the event chain of the ledger store; the creation and migration
    of SQLite schemas, and foreign keys, which the operations satisfy by
    construction; the computation of fingerprints from source files; and
    everything that runs processes, containers, GPUs or the chain.  What would
    come next: the composition store on top of [DebtLedger], the settlement
    leases, the payload codec and scoring. *)

From Stdlib Require Import ZArith Lia.
From stdpp Require Import base tactics numbers list strings gmap sorting.

Open Scope Z_scope.

(** ** Exceptions and fallible code

    A Python function of the modelled modules either returns a value or raises;
    [result] is that sum.  An exception carries its class and the constant part
    of its message (the text interpolated by an f-string is left out).
    [ForeignError] is an exception of a library; its text is the name of its
    class.  [OutOfFuel] is not an exception of the program: a loop of the model whose
    fuel is spent returns it, and the theorems show that this does not happen. *)

Inductive exn_class :=
  | StackIdentityError
  | OtherValueError
  | FiniteDebtError
  | IncentiveCompositionError
  | EconomicsError
  | StackManifestError
  | TargetCatalogError
  | TargetResolutionError
  | ArtifactProviderPolicyError
  | StackPlanError
  | StaleStackPlanError
  | SettlementError
  | EvidenceStoreError
  | SessionProtocolError
  | WeightPublicationError
  | ChainWeightStateError
  | ChainRevealHistoryError
  | IntakeError
  | ArenaServiceError
  | QualificationIntakeError
  | FiniteDebtStoreError
  | DebtPublicationError
  | ForeignError
  | TypeError
  | KeyError
  | AttributeError
  | IndexError
  | AssertionError
  | OutOfFuel
  | DecimalOverflow
  | DivisionByZero.

#[global] Instance exn_class_eq_dec : EqDecision exn_class.
Proof. solve_decision. Defined.

Record pyexn := Exn { exn_cls : exn_class; exn_msg : string }.

#[global] Instance pyexn_eq_dec : EqDecision pyexn.
Proof. solve_decision. Defined.

Inductive result (A : Type) :=
  | Ok (a : A)
  | Raise (e : pyexn).
Arguments Ok {A} _.
Arguments Raise {A} _.

#[global] Instance result_eq_dec {A} `{EqDecision A} : EqDecision (result A).
Proof. solve_decision. Defined.

Definition bind {A B} (m : result A) (f : A → result B) : result B :=
  match m with Ok a => f a | Raise e => Raise e end.

(** [raise_if b e] is the statement [if b: raise e]. *)
Definition raise_if (b : bool) (e : pyexn) : result unit :=
  if b then Raise e else Ok tt.

Definition is_ok {A} (m : result A) : bool :=
  match m with Ok _ => true | Raise _ => false end.

Definition result_map {A B} (f : A → B) (m : result A) : result B :=
  match m with Ok a => Ok (f a) | Raise e => Raise e end.

(** [try: m except E as e: raise h(e)], where [sel] is the [except] clause's
    class test. *)
Definition reraise {A} (sel : exn_class → bool) (h : pyexn → pyexn) (m : result A) : result A :=
  match m with
  | Ok a => Ok a
  | Raise e => if sel (exn_cls e) then Raise (h e) else Raise e
  end.

Definition mapM {A B} (f : A → result B) : list A → result (list B) :=
  fix go l :=
    match l with
    | [] => Ok []
    | x :: l => bind (f x) (λ y, bind (go l) (λ ys, Ok (y :: ys)))
    end.

(** [for x in l: f(x)], for a body that only checks and raises. *)
Fixpoint forM_ {A} (l : list A) (f : A → result unit) : result unit :=
  match l with
  | [] => Ok tt
  | x :: l => bind (f x) (λ _, forM_ l f)
  end.

(** [for x in l: acc = f(acc, x)], stopping at the first exception. *)
Definition foldM {A B} (f : A → B → result A) : list B → A → result A :=
  fix go l acc :=
    match l with
    | [] => Ok acc
    | x :: l => bind (f acc x) (λ acc, go l acc)
    end.

(** [not l] for a list. *)
Definition is_nil {A} (l : list A) : bool := match l with [] => true | _ => false end.

(** [dict(rows).get(key)] for rows with distinct keys. *)
Definition assoc {A} (rows : list (string * A)) (key : string) : option A :=
  match List.find (λ r, bool_decide (r.1 = key)) rows with Some r => Some r.2 | None => None end.

Declare Scope py_scope.
Delimit Scope py_scope with py.

Notation "'let!' x ':=' m 'in' k" := (bind m (λ x, k))
  (at level 10, x binder, m at level 99, k at level 200) : py_scope.
Notation "'do!' m ';;' k" := (bind m (λ _, k))
  (at level 10, m at level 99, k at level 200) : py_scope.

Open Scope py_scope.

Lemma bind_Ok {A B} (m : result A) (f : A → result B) b :
  bind m f = Ok b ↔ ∃ a, m = Ok a ∧ f a = Ok b.
Proof. destruct m; simpl; split; [by eauto|by intros (? & [= ->] & ?)|done|by intros (? & ? & ?)]. Qed.

Lemma bind_cong {A B} (m m' : result A) (f f' : A → result B) :
  m = m' → (∀ a, m = Ok a → f a = f' a) → bind m f = bind m' f'.
Proof. intros <- Hf. destruct m; simpl; [by apply Hf | done]. Qed.

Lemma bind_step {A B} (m : result A) (f : A → result B) a r : m = Ok a → f a = r → bind m f = r.
Proof. by intros ->. Qed.

Lemma raise_if_Ok b e u : raise_if b e = Ok u ↔ b = false.
Proof. destruct b, u; naive_solver. Qed.

Lemma raise_if_false e : raise_if false e = Ok tt.
Proof. done. Qed.

Lemma reraise_Ok {A} sel h (m : result A) a : reraise sel h m = Ok a ↔ m = Ok a.
Proof. destruct m as [|e]; simpl; [done|]. destruct (sel (exn_cls e)); naive_solver. Qed.

Lemma result_map_Ok {A B} (f : A → B) m b :
  result_map f m = Ok b ↔ ∃ a, m = Ok a ∧ b = f a.
Proof. destruct m; simpl; split; [intros [= <-]; eauto|by intros (? & [= ->] & ->)|done|by intros (? & ? & ?)]. Qed.

Lemma mapM_Ok {A B} (f : A → result B) l k :
  mapM f l = Ok k ↔ Forall2 (λ x y, f x = Ok y) l k.
Proof.
  revert k. induction l as [|x l IH]; intros k; simpl.
  - split; [intros [= <-]; constructor | by inversion 1].
  - rewrite bind_Ok. setoid_rewrite bind_Ok. setoid_rewrite IH. split.
    + intros (y & Hy & ys & Hys & [= <-]). by constructor.
    + inversion 1; subst. eauto 10.
Qed.

Lemma mapM_fmap {A B} (f : A → result B) (g : A → B) l :
  (∀ x, x ∈ l → f x = Ok (g x)) → mapM f l = Ok (g <$> l).
Proof.
  induction l as [|x l IH]; intros Hf; simpl; [done|].
  rewrite Hf by set_solver. simpl. by rewrite IH by set_solver.
Qed.

Lemma forM_Ok {A} (l : list A) f u : forM_ l f = Ok u ↔ Forall (λ x, f x = Ok tt) l.
Proof.
  destruct u. induction l as [|x l IH]; simpl; [split; [by constructor | done]|].
  rewrite bind_Ok, Forall_cons, <- IH. split.
  - by intros ([] & ? & ?).
  - intros [? ?]. by exists tt.
Qed.

Lemma foldM_cons {A B} (f : A → B → result A) x l acc : foldM f (x :: l) acc = bind (f acc x) (foldM f l).
Proof. done. Qed.

Lemma foldM_inv {A B} (f : A → B → result A) (P : A → Prop) l acc acc' :
  (∀ x a a', x ∈ l → P a → f a x = Ok a' → P a') → P acc → foldM f l acc = Ok acc' → P acc'.
Proof.
  revert acc. induction l as [|x l IH]; intros acc Hstep Hacc Hf; cbn [foldM] in Hf; [by injection Hf as <-|].
  apply bind_Ok in Hf as (acc1 & Hs & Hf). eapply IH; [|eapply Hstep, Hs; [left | done]|done].
  intros y a a' Hy. apply Hstep. by right.
Qed.

(** [inv_ok H] turns [H : m = Ok r], for a chain of checks [m], into one
    hypothesis for every check that was passed. *)
Ltac inv_ok H :=
  match type of H with
  | bind _ _ = Ok _ =>
      let x := fresh "v" in let H1 := fresh "Hv" in
      apply bind_Ok in H as (x & H1 & H); simpl in H; inv_ok H1; inv_ok H
  | raise_if _ _ = Ok _ => apply raise_if_Ok in H
  | reraise _ _ _ = Ok _ => apply reraise_Ok in H; inv_ok H
  | forM_ _ _ = Ok _ => apply forM_Ok in H
  | Ok _ = Ok _ => injection H as H
  | Raise _ = Ok _ => discriminate H
  | _ => idtac
  end.

Ltac destruct_exists :=
  repeat match goal with H : ∃ _, _ |- _ => destruct H as [? H] end.

(** Boolean guards become the propositions they decide. *)
Ltac bool_prop :=
  repeat match goal with
  | H : _ && _ = true |- _ => apply andb_true_iff in H as [? H]
  | H : _ || _ = false |- _ => apply orb_false_iff in H as [? H]
  | H : negb _ = true |- _ => apply negb_true_iff in H
  | H : negb _ = false |- _ => apply negb_false_iff in H
  | H : bool_decide _ = true |- _ => apply bool_decide_eq_true in H
  | H : bool_decide _ = false |- _ => apply bool_decide_eq_false in H
  | H : (_ <? _) = true |- _ => apply Z.ltb_lt in H
  | H : (_ <? _) = false |- _ => apply Z.ltb_ge in H
  | H : (_ <=? _) = true |- _ => apply Z.leb_le in H
  | H : (_ <=? _) = false |- _ => apply Z.leb_gt in H
  | H : (_ =? _) = true |- _ => apply Z.eqb_eq in H
  | H : (_ =? _) = false |- _ => apply Z.eqb_neq in H
  end.

(** Proves that a guard built from comparisons does not fire. *)
Ltac bool_goal :=
  repeat match goal with
  | |- _ || _ = false => apply orb_false_iff; split
  | |- _ && _ = true => apply andb_true_iff; split
  | |- negb _ = false => apply negb_false_iff
  | |- negb _ = true => apply negb_true_iff
  | |- bool_decide _ = true => apply bool_decide_eq_true_2
  | |- bool_decide _ = false => apply bool_decide_eq_false_2
  | |- (_ <? _) = false => apply Z.ltb_ge
  | |- (_ <? _) = true => apply Z.ltb_lt
  | |- (_ <=? _) = false => apply Z.leb_gt
  | |- (_ <=? _) = true => apply Z.leb_le
  | |- (_ =? _) = true => apply Z.eqb_eq
  | |- (_ =? _) = false => apply Z.eqb_neq
  end; try done; try lia.

(** Passes the guard at the head of the goal. *)
Ltac pass_guard :=
  match goal with
  | |- context [raise_if ?b ?e] => replace (raise_if b e) with (Ok tt) by (symmetry; apply raise_if_Ok; bool_goal)
  end; cbn [bind].

(** ** Sums *)

Definition Zsum (l : list Z) : Z := foldr Z.add 0 l.
#[global] Arguments Zsum : simpl never.

Lemma Zsum_cons x l : Zsum (x :: l) = x + Zsum l.
Proof. done. Qed.

Lemma Zsum_app l k : Zsum (l ++ k) = Zsum l + Zsum k.
Proof. induction l; simpl; rewrite ?Zsum_cons; [done | lia]. Qed.

#[global] Instance Zsum_perm : Proper ((≡ₚ) ==> (=)) Zsum.
Proof. induction 1; rewrite ?Zsum_cons; lia. Qed.

Lemma Zsum_nonneg l : Forall (Z.le 0) l → 0 ≤ Zsum l.
Proof. induction 1; rewrite ?Zsum_cons; [done | lia]. Qed.

Lemma Zsum_elem l x : Forall (Z.le 0) l → x ∈ l → x ≤ Zsum l.
Proof.
  induction 1 as [|y l Hy Hl IH]; [set_solver|]. pose proof (Zsum_nonneg l Hl).
  rewrite Zsum_cons. intros [->|Hx]%elem_of_cons; [lia | specialize (IH Hx); lia].
Qed.

Lemma Zsum_le {A} (f g : A → Z) l :
  (∀ x, x ∈ l → f x ≤ g x) → Zsum (f <$> l) ≤ Zsum (g <$> l).
Proof.
  induction l as [|x l IH]; intros H; [done|]. csimpl. rewrite !Zsum_cons.
  assert (f x ≤ g x) by (apply H; left). assert (Zsum (f <$> l) ≤ Zsum (g <$> l)).
  { apply IH. intros y Hy. apply H. by right. } lia.
Qed.

Lemma Zsum_fmap_add {A} (f g : A → Z) l :
  Zsum ((λ x, f x + g x) <$> l) = Zsum (f <$> l) + Zsum (g <$> l).
Proof. induction l; csimpl; rewrite ?Zsum_cons; [done | lia]. Qed.

Lemma Zsum_fmap_mul {A} c (f : A → Z) l :
  Zsum ((λ x, c * f x) <$> l) = c * Zsum (f <$> l).
Proof. induction l; csimpl; rewrite ?Zsum_cons; [unfold Zsum; simpl; lia | lia]. Qed.

Lemma Zsum_fmap_ext {A} (f g : A → Z) l :
  (∀ x, x ∈ l → f x = g x) → Zsum (f <$> l) = Zsum (g <$> l).
Proof. intros H. f_equal. by apply list_fmap_ext; intros ? x Hx; apply H, list_elem_of_lookup; eauto. Qed.

(** ** Dictionaries

    A Python [dict[str, int]] whose iteration order is never observed is a
    [gmap string Z]; [sum(d.values())] is [dict_sum]. *)

Definition dict_sum (m : gmap string Z) : Z := map_fold (λ _ v acc, v + acc) 0 m.

(** [d.get(k, 0)] *)
Definition dict_get (m : gmap string Z) (k : string) : Z := default 0 (m !! k).

(** [d[k] = d.get(k, 0) + v] *)
Definition dict_add (m : gmap string Z) (k : string) (v : Z) : gmap string Z :=
  <[k := dict_get m k + v]> m.

Lemma dict_sum_empty : dict_sum ∅ = 0.
Proof. done. Qed.

Lemma dict_sum_insert_fresh m k v :
  m !! k = None → dict_sum (<[k := v]> m) = v + dict_sum m.
Proof. intros Hk. unfold dict_sum. rewrite map_fold_insert_L; [done | intros; lia | done]. Qed.

Lemma dict_sum_insert m k v : dict_sum (<[k := v]> m) = dict_sum m - dict_get m k + v.
Proof.
  unfold dict_get. destruct (m !! k) as [w|] eqn:Hk; simpl.
  - rewrite <- (insert_delete_id m k w Hk) at 2. rewrite <- insert_delete_eq.
    rewrite !dict_sum_insert_fresh by apply lookup_delete_eq. lia.
  - rewrite dict_sum_insert_fresh by done. lia.
Qed.

Lemma dict_sum_add m k v : dict_sum (dict_add m k v) = dict_sum m + v.
Proof. unfold dict_add. rewrite dict_sum_insert. lia. Qed.

Lemma dict_get_insert m k v j :
  dict_get (<[k := v]> m) j = if decide (k = j) then v else dict_get m j.
Proof. unfold dict_get. rewrite lookup_insert. by case_decide. Qed.

Lemma dict_get_add m k v j :
  dict_get (dict_add m k v) j = dict_get m j + (if decide (k = j) then v else 0).
Proof. unfold dict_add. rewrite dict_get_insert. case_decide; subst; lia. Qed.

(** ** Filters and searches with a Boolean test *)

Lemma filterb_elem {A} (f : A → bool) l x : x ∈ List.filter f l ↔ f x = true ∧ x ∈ l.
Proof. rewrite !list_elem_of_In, List.filter_In. naive_solver. Qed.

Lemma filterb_none {A} (f : A → bool) l : Forall (λ x, f x = false) l → List.filter f l = [].
Proof. induction 1 as [|x l Hx _ IH]; cbn; [done|]. by rewrite Hx. Qed.

Lemma existsb_ext_elem {A} (f g : A → bool) l : (∀ x, x ∈ l → f x = g x) → existsb f l = existsb g l.
Proof. induction l as [|x l IH]; intros Hl; cbn; [done|]. rewrite (Hl x), IH; [done | intros; apply Hl; by right | by left]. Qed.

Lemma find_app {A} (f : A → bool) l k :
  List.find f (l ++ k) = match List.find f l with Some x => Some x | None => List.find f k end.
Proof. induction l as [|x l IH]; cbn; [done|]. by destruct (f x). Qed.

(** ** Sorting

    Python's [sorted] is stable: elements that compare equal keep their order.
    [stable_sort] inserts from the right, before the elements it does not exceed. *)

Section stable_sort.
Context {A} (R : relation A) `{∀ x y, Decision (R x y)}.

Fixpoint insert_sorted (x : A) (l : list A) : list A :=
  match l with
  | [] => [x]
  | y :: l' => if decide (R x y) then x :: l else y :: insert_sorted x l'
  end.

Definition stable_sort (l : list A) : list A := foldr insert_sorted [] l.

Lemma stable_sort_cons x l : stable_sort (x :: l) = insert_sorted x (stable_sort l).
Proof. done. Qed.

Lemma insert_sorted_perm x l : insert_sorted x l ≡ₚ x :: l.
Proof.
  induction l as [|y l IH]; cbn [insert_sorted]; [done|]. destruct (decide (R x y)); [done|].
  rewrite IH. apply Permutation_swap.
Qed.

Lemma stable_sort_perm l : stable_sort l ≡ₚ l.
Proof. induction l as [|x l IH]; [done|]. rewrite stable_sort_cons. by rewrite insert_sorted_perm, IH. Qed.

Lemma insert_sorted_first x l : Forall (R x) l → insert_sorted x l = x :: l.
Proof. destruct 1; cbn [insert_sorted]; [done|]. by rewrite decide_True. Qed.

(** A sorted list is left alone, elements that compare equal included. *)
Lemma stable_sort_id l : StronglySorted R l → stable_sort l = l.
Proof.
  induction l as [|x l IH]; intros Hl; [done|]. apply StronglySorted_cons in Hl as [Hx Hl].
  rewrite stable_sort_cons, IH by done. by apply insert_sorted_first.
Qed.

Context `{!Total R, !Transitive R}.

Lemma insert_sorted_sorted x l : StronglySorted R l → StronglySorted R (insert_sorted x l).
Proof.
  induction l as [|y l IH]; cbn [insert_sorted]; intros Hl; [by repeat constructor|].
  pose proof Hl as [Hy Hl']%StronglySorted_cons. destruct (decide (R x y)) as [Hxy|Hxy].
  - apply StronglySorted_cons. split; [|done]. constructor; [done|]. eapply Forall_impl; [exact Hy|]. intros z. by apply transitivity.
  - apply StronglySorted_cons. split; [|by apply IH]. rewrite insert_sorted_perm. constructor; [|done].
    by destruct (total R x y).
Qed.

Lemma stable_sort_sorted l : StronglySorted R (stable_sort l).
Proof. induction l as [|x l IH]; [constructor | by apply insert_sorted_sorted]. Qed.

(** One more element takes its place among the sorted ones. *)
Lemma stable_sort_snoc_insert l x : ∃ k1 k2, stable_sort (l ++ [x]) = k1 ++ x :: k2 ∧ stable_sort l = k1 ++ k2.
Proof.
  induction l as [|y l (k1 & k2 & IHx & IH)]; [by exists [], []|]. cbn [app]. rewrite !stable_sort_cons, IHx, IH.
  assert (StronglySorted R (k1 ++ x :: k2)) as Hs by (rewrite <- IHx; apply stable_sort_sorted). clear IHx IH.
  induction k1 as [|z k1 IHk]; cbn [app insert_sorted] in *.
  - destruct (decide (R y x)); [|by exists [], (insert_sorted y k2)].
    exists [y], k2. split; [done|]. apply StronglySorted_cons in Hs as [Hx _]. apply insert_sorted_first.
    eapply Forall_impl; [exact Hx|]. intros z. by apply transitivity.
  - apply StronglySorted_cons in Hs as [_ Hs]. destruct (decide (R y z)); [by exists (y :: z :: k1), k2|].
    destruct (IHk Hs) as (j1 & j2 & -> & ->). by exists (z :: j1), j2.
Qed.

(** A filter of the sorted list is the filtered list, sorted. *)
Lemma stable_sort_filter (f : A → bool) l : List.filter f (stable_sort l) = stable_sort (List.filter f l).
Proof.
  induction l as [|x l IH]; [done|]. rewrite stable_sort_cons. cbn [List.filter].
  assert (List.filter f (insert_sorted x (stable_sort l)) =
    if f x then insert_sorted x (List.filter f (stable_sort l)) else List.filter f (stable_sort l)) as ->; [|rewrite IH; by destruct (f x)].
  pose proof (stable_sort_sorted l) as Hs. revert Hs. generalize (stable_sort l). clear IH. intros k Hs.
  induction k as [|y k IHk]; cbn [insert_sorted List.filter]; [by destruct (f x)|]. apply StronglySorted_cons in Hs as [Hy Hs].
  destruct (decide (R x y)) as [Hxy|Hxy]; cbn [List.filter].
  - destruct (f x); [|done]. symmetry. apply insert_sorted_first. apply Forall_forall. intros z Hz.
    change (z ∈ List.filter f (y :: k)) in Hz. apply filterb_elem in Hz as [_ Hzk].
    apply elem_of_cons in Hzk as [->|Hzk]; [done|]. rewrite Forall_forall in Hy. etrans; [exact Hxy | by apply Hy].
  - rewrite (IHk Hs). destruct (f x), (f y); cbn [insert_sorted]; try done. by rewrite decide_False.
Qed.

(** Sorting commutes with a filter that drops what was added. *)
Lemma stable_sort_filter_drop (f : A → bool) l new :
  Forall (λ x, f x = false) new → List.filter f (stable_sort (l ++ new)) = List.filter f (stable_sort l).
Proof.
  intros Hn. rewrite !stable_sort_filter, List.filter_app. by rewrite (filterb_none f new Hn), app_nil_r.
Qed.
End stable_sort.

(** An element that nothing exceeds goes last. *)
Lemma stable_sort_snoc {A} (R : relation A) `{∀ x y, Decision (R x y)} l x :
  Forall (λ y, R y x) l → stable_sort R (l ++ [x]) = stable_sort R l ++ [x].
Proof.
  induction 1 as [|y l Hy _ IH]; [done|]. cbn [app]. rewrite !stable_sort_cons, IH. generalize (stable_sort R l). intros k.
  induction k as [|z k IHk]; cbn [app insert_sorted]; [by rewrite decide_True|]. destruct (decide (R y z)); [done|]. cbn. by rewrite IHk.
Qed.


Lemma stable_sort_fmap {A B} (R : relation A) (R' : relation B) `{∀ x y, Decision (R x y), ∀ x y, Decision (R' x y)} (f : A → B) l :
  (∀ x y, R' (f x) (f y) ↔ R x y) → stable_sort R' (f <$> l) = f <$> stable_sort R l.
Proof.
  intros Hf. induction l as [|x l IH]; [done|]. rewrite fmap_cons, !stable_sort_cons, IH. generalize (stable_sort R l). clear IH. intros k.
  induction k as [|y k IH]; cbn [fmap list_fmap insert_sorted]; [done|].
  destruct (decide (R x y)); [rewrite decide_True by (by apply Hf) | rewrite decide_False by (by rewrite Hf)]; [done|].
  cbn [fmap list_fmap]. by rewrite IH.
Qed.

(** [sorted(l, key=...)] for a string key, compared by code point. *)

Definition key_le {A} (key : A → string) (x y : A) : Prop := String.le (key x) (key y).

#[global] Instance key_le_dec {A} (key : A → string) x y : Decision (key_le key x y).
Proof. unfold key_le. apply _. Defined.
#[global] Instance key_le_trans {A} (key : A → string) : Transitive (key_le key).
Proof. intros x y z. unfold key_le. by etrans. Qed.
#[global] Instance key_le_total {A} (key : A → string) : Total (key_le key).
Proof. intros x y. apply (total String.le). Qed.

Definition sorted_by {A} (key : A → string) (l : list A) : list A := stable_sort (key_le key) l.

(** [sorted(l)] for a list of strings. *)
Definition sorted_str (l : list string) : list string := sorted_by id l.

Lemma sorted_by_perm {A} (key : A → string) l : sorted_by key l ≡ₚ l.
Proof. apply stable_sort_perm. Qed.

Lemma sorted_by_sorted {A} (key : A → string) l : StronglySorted (key_le key) (sorted_by key l).
Proof. apply (stable_sort_sorted _). Qed.

(** A sorted list is left alone, repeated keys included. *)
Lemma sorted_by_stable {A} (key : A → string) l : StronglySorted (key_le key) l → sorted_by key l = l.
Proof. apply stable_sort_id. Qed.

(** Sorting commutes with a map that keeps the keys. *)
Lemma sorted_by_fmap {A B} (key : A → string) (key' : B → string) (f : A → B) (Hf : ∀ x, key' (f x) = key x) l :
  sorted_by key' (f <$> l) = f <$> sorted_by key l.
Proof. apply stable_sort_fmap. intros x y. unfold key_le. by rewrite !Hf. Qed.

Lemma NoDup_fmap_inj_elem {A B} (f : A → B) l x y :
  NoDup (f <$> l) → x ∈ l → y ∈ l → f x = f y → x = y.
Proof.
  intros Hnd [i Hi]%list_elem_of_lookup [j Hj]%list_elem_of_lookup Hf.
  assert (i = j) as ->; [|by simplify_eq].
  eapply (NoDup_lookup _ i j (f x)); [done|..]; rewrite list_lookup_fmap.
  - by rewrite Hi.
  - rewrite Hj, Hf. done.
Qed.

(** With distinct keys the sorted list does not depend on the input's order. *)
Lemma sorted_by_unique {A} (key : A → string) l k :
  NoDup (key <$> l) → StronglySorted (key_le key) k → k ≡ₚ l → sorted_by key l = k.
Proof.
  intros Hnd Hk Hp. eapply StronglySorted_unique_strong;
    [| apply sorted_by_sorted | done | by rewrite sorted_by_perm, Hp].
  intros x y Hx Hy H1 H2. rewrite sorted_by_perm in Hx. rewrite Hp in Hy.
  eapply NoDup_fmap_inj_elem; [done..|]. by apply (anti_symm String.le).
Qed.

Lemma sorted_by_perm_eq {A} (key : A → string) l k :
  NoDup (key <$> l) → l ≡ₚ k → sorted_by key l = sorted_by key k.
Proof.
  intros Hnd Hp. apply sorted_by_unique; [done | apply sorted_by_sorted|].
  by rewrite sorted_by_perm, Hp.
Qed.

Lemma sorted_by_id {A} (key : A → string) l :
  NoDup (key <$> l) → StronglySorted (key_le key) l → sorted_by key l = l.
Proof. intros. by apply sorted_by_unique. Qed.

Lemma sorted_by_idemp {A} (key : A → string) l :
  NoDup (key <$> l) → sorted_by key (sorted_by key l) = sorted_by key l.
Proof. intros. apply sorted_by_id; [by rewrite sorted_by_perm | apply sorted_by_sorted]. Qed.

Lemma StronglySorted_key_fmap {A} (key : A → string) l :
  StronglySorted (key_le key) l ↔ StronglySorted (key_le id) (key <$> l).
Proof.
  induction l as [|x l IH]; csimpl; [by split; constructor|].
  rewrite !StronglySorted_cons, IH, Forall_fmap. done.
Qed.

Lemma StronglySorted_sublist {A} (R : relation A) l k :
  sublist k l → StronglySorted R l → StronglySorted R k.
Proof.
  induction 1 as [|x k l Hs IH|x k l Hs IH]; [done|..]; rewrite StronglySorted_cons;
    intros [Hx Hl]; [|by apply IH].
  apply StronglySorted_cons; split; [|by apply IH].
  rewrite Forall_forall in *. intros y Hy. eapply Hx, elem_of_sublist; done.
Qed.

Lemma filter_keeps {A} (P : A → Prop) `{∀ x, Decision (P x)} l : Forall P l → filter P l = l.
Proof. induction 1 as [|x l Hx Hl IH]; [done|]. by rewrite filter_cons, decide_True, IH by done. Qed.

Lemma Forall_filter_sub {A} (P Q : A → Prop) `{∀ x, Decision (Q x)} l : Forall P l → Forall P (filter Q l).
Proof. rewrite !Forall_forall. intros Hl x [_ Hx]%list_elem_of_filter. by apply Hl. Qed.

(** ** Association lists *)

Lemma assoc_Some {A} (rows : list (string * A)) k x : assoc rows k = Some x → (k, x) ∈ rows.
Proof.
  unfold assoc. destruct (List.find _ rows) as [[k' y]|] eqn:E; [|done]. intros [= <-].
  apply List.find_some in E as [Hin He]. cbn in He. apply bool_decide_eq_true in He as ->. by apply list_elem_of_In.
Qed.

Lemma assoc_elem {A} (rows : list (string * A)) k x : NoDup rows.*1 → (k, x) ∈ rows → assoc rows k = Some x.
Proof.
  intros Hnd Hin. unfold assoc. destruct (List.find _ rows) as [[k' y]|] eqn:E.
  - apply List.find_some in E as [Hin' He]. cbn in He. apply bool_decide_eq_true in He as ->.
    apply list_elem_of_In in Hin'. by pose proof (NoDup_fmap_inj_elem fst rows _ _ Hnd Hin Hin' eq_refl) as [= ->].
  - apply list_elem_of_In in Hin. apply (List.find_none _ _ E) in Hin. cbn in Hin. by rewrite bool_decide_eq_true_2 in Hin.
Qed.

Lemma assoc_iff {A} (rows : list (string * A)) k x : NoDup rows.*1 → assoc rows k = Some x ↔ (k, x) ∈ rows.
Proof. split; [apply assoc_Some | by apply assoc_elem]. Qed.

Lemma assoc_None {A} (rows : list (string * A)) k : assoc rows k = None ↔ k ∉ rows.*1.
Proof.
  unfold assoc. destruct (List.find _ rows) as [[k' y]|] eqn:E; split; try done.
  - intros Hn. exfalso. apply Hn. apply List.find_some in E as [Hin He]. cbn in He. apply bool_decide_eq_true in He as ->.
    apply list_elem_of_fmap. exists (k, y). split; [done | by apply list_elem_of_In].
  - intros _ (row & -> & Hin)%list_elem_of_fmap. apply list_elem_of_In in Hin. apply (List.find_none _ _ E) in Hin.
    by rewrite bool_decide_eq_true_2 in Hin.
Qed.

Lemma assoc_perm {A} (l l' : list (string * A)) k : NoDup l.*1 → l ≡ₚ l' → assoc l k = assoc l' k.
Proof.
  intros Hnd Hp. assert (NoDup l'.*1) by (by rewrite <- Hp). destruct (assoc l' k) as [x|] eqn:E.
  - apply assoc_elem; [done|]. rewrite Hp. by apply assoc_Some.
  - apply assoc_None. rewrite Hp. by apply assoc_None.
Qed.

Lemma assoc_sorted {A} (l : list (string * A)) k : NoDup l.*1 → assoc (sorted_by fst l) k = assoc l k.
Proof. intros Hnd. apply assoc_perm; [by rewrite sorted_by_perm | apply sorted_by_perm]. Qed.

(** Sorted rows are determined by what they hold. *)
Lemma sorted_rows_ext {A} (l k : list (string * A)) :
  NoDup l.*1 → NoDup k.*1 → StronglySorted (key_le fst) l → StronglySorted (key_le fst) k →
  (∀ key, assoc l key = assoc k key) → l = k.
Proof.
  intros Hl Hk Sl Sk Heq. rewrite <- (sorted_by_id fst k) by done. symmetry. apply sorted_by_unique; [done..|].
  apply NoDup_Permutation; [by eapply NoDup_fmap_1..|]. intros [key x].
  by rewrite <- !assoc_iff, Heq by done.
Qed.
