(* ===== verification/PyValue.v ===== *)
(** * Python values, JSON and text

    The dynamically typed values that enter the modelled modules ([object] in
    the source's signatures), the tests the code performs on them, and the JSON
    text produced by [json.dumps] with the options [stack_identity.py] passes.

    A [str] is a [string] whose characters are the code points 0 to 255; a
    [float] is its exact dyadic value; [PObject] stands for an instance of any
    class that is not one of the listed types. *)

From Stdlib Require Import ZArith Lia Ascii DecimalString.
From stdpp Require Import base tactics numbers list strings gmap sorting.
From S2P Require Import Prelude.

(** ** Values *)

Inductive pyfloat :=
  | FFinite (m e : Z)
  | FInf (negative : bool)
  | FNaN.

Unset Elimination Schemes.
Inductive pyval :=
  | PNone
  | PBool (b : bool)
  | PInt (z : Z)
  | PFloat (f : pyfloat)
  | PStr (s : string)
  | PList (l : list pyval)
  | PTuple (l : list pyval)
  | PDict (kvs : list (pyval * pyval))
  | PObject (type_name : string).

(** The canonical JSON data of [stack_identity.py]. *)
Inductive json :=
  | JNull
  | JBool (b : bool)
  | JInt (z : Z)
  | JStr (s : string)
  | JArray (l : list json)
  | JObject (kvs : list (string * json)).
Set Elimination Schemes.

Section json_ind.
Context (P : json → Prop).
Context (Hnull : P JNull) (Hbool : ∀ b, P (JBool b)) (Hint : ∀ z, P (JInt z)) (Hstr : ∀ s, P (JStr s)).
Context (Harr : ∀ l, Forall P l → P (JArray l)).
Context (Hobj : ∀ kvs, Forall (λ kv, P kv.2) kvs → P (JObject kvs)).

Fixpoint json_ind (j : json) : P j :=
  match j with
  | JNull => Hnull
  | JBool b => Hbool b
  | JInt z => Hint z
  | JStr s => Hstr s
  | JArray l => Harr l ((fix go l : Forall P l :=
      match l with [] => Forall_nil_2 _ | x :: l => Forall_cons_2 _ _ _ (json_ind x) (go l) end) l)
  | JObject kvs => Hobj kvs ((fix go l : Forall (λ kv, P kv.2) l :=
      match l with [] => Forall_nil_2 _ | x :: l => Forall_cons_2 _ _ _ (json_ind x.2) (go l) end) kvs)
  end.
End json_ind.

#[global] Instance PStr_inj : Inj (=) (=) PStr.
Proof. by intros ? ? [= ->]. Qed.

(** ** Tests on values *)

(** [v == n] for an integer [n]: [bool] and [float] compare numerically. *)
Definition py_eq_int (v : pyval) (n : Z) : bool :=
  match v with
  | PInt z => z =? n
  | PBool b => Z.b2z b =? n
  | PFloat (FFinite m e) => if 0 <=? e then m * 2 ^ e =? n else m =? n * 2 ^ (- e)
  | _ => false
  end.

(** [v == s] for a string [s]. *)
Definition py_eq_str (v : pyval) (s : string) : bool :=
  match v with PStr t => bool_decide (t = s) | _ => false end.

Definition is_none (v : pyval) : bool :=
  match v with PNone => true | _ => false end.

(** [isinstance(v, str)] *)
Definition is_str (v : pyval) : bool :=
  match v with PStr _ => true | _ => false end.

(** [bool(v)] *)
Definition truthy (v : pyval) : bool :=
  match v with
  | PNone => false
  | PBool b => b
  | PInt z => negb (z =? 0)
  | PFloat (FFinite m _) => negb (m =? 0)
  | PFloat _ => true
  | PStr s => negb (bool_decide (s = ""))
  | PList l | PTuple l => negb (bool_decide (length l = 0%nat))
  | PDict kvs => negb (bool_decide (length kvs = 0%nat))
  | PObject _ => true
  end.

Fixpoint hashable (v : pyval) : bool :=
  match v with
  | PList _ | PDict _ => false
  | PTuple l => forallb hashable l
  | _ => true
  end.

(** [v in frozenset({...})] for a set of strings; hashing a list or dict raises. *)
Definition py_in_strs (v : pyval) (set : list string) : result bool :=
  if hashable v then
    Ok (match v with PStr s => bool_decide (s ∈ set) | _ => false end)
  else Raise (Exn TypeError "unhashable type").

(** The value of [json.loads]: arrays are lists, objects are dicts. *)
Fixpoint json_value (j : json) : pyval :=
  match j with
  | JNull => PNone
  | JBool b => PBool b
  | JInt z => PInt z
  | JStr s => PStr s
  | JArray l => PList (map json_value l)
  | JObject kvs => PDict (map (λ '(k, x), (PStr k, json_value x)) kvs)
  end.

(** An object's members in the order [sort_keys=True] writes them, at every level. *)
Fixpoint json_sort (j : json) : json :=
  match j with
  | JArray l => JArray (map json_sort l)
  | JObject kvs => JObject (sorted_by fst (map (λ '(k, x), (k, json_sort x)) kvs))
  | _ => j
  end.

(** [f == g] on floats. *)
Definition float_eq (f g : pyfloat) : bool :=
  match f, g with
  | FFinite m e, FFinite n d => if e <=? d then m =? n * 2 ^ (d - e) else m * 2 ^ (e - d) =? n
  | FInf a, FInf b => Bool.eqb a b
  | _, _ => false
  end.

(** [v == w].  Dictionaries compare as mappings; an instance of another class is
    only known to be equal to nothing here. *)
Fixpoint py_eq (v w : pyval) {struct v} : bool :=
  match v, w with
  | PNone, _ => is_none w
  | PBool b, _ => py_eq_int w (Z.b2z b)
  | PInt z, _ => py_eq_int w z
  | PFloat f, PFloat g => float_eq f g
  | PFloat _, PInt z => py_eq_int v z
  | PFloat _, PBool b => py_eq_int v (Z.b2z b)
  | PStr s, _ => py_eq_str w s
  | PList l, PList l' | PTuple l, PTuple l' =>
      (fix all2 l l' :=
         match l, l' with
         | [], [] => true
         | x :: l, y :: l' => py_eq x y && all2 l l'
         | _, _ => false
         end) l l'
  | PDict kvs, PDict kvs' =>
      (length kvs =? length kvs')%nat
      && forallb (λ '(k, x), existsb (λ '(k', y), py_eq k k' && py_eq x y) kvs') kvs
  | _, _ => false
  end.

(** [value.get(key)] on a dict, with [None] for a missing key. *)
Definition mapping_get (kvs : list (pyval * pyval)) (key : string) : pyval :=
  match List.find (λ kv, py_eq_str kv.1 key) kvs with Some kv => kv.2 | None => PNone end.

(** An optional block number: [None] or the value itself. *)
Definition py_opt_int (o : option Z) : pyval :=
  match o with None => PNone | Some z => PInt z end.

Definition py_strs (l : list string) : pyval := PList (PStr <$> l).

(** A [dict] literal with string keys. *)
Definition py_dict (kvs : list (string * pyval)) : pyval :=
  PDict ((λ kv, (PStr kv.1, kv.2)) <$> kvs).

(** ** Characters and text *)

Definition code (c : ascii) : Z := Z.of_N (N_of_ascii c).

Definition chars (s : string) : list ascii := String.list_ascii_of_string s.

(** [len(s)] *)
Definition str_len (s : string) : Z := Z.of_nat (String.length s).

(** [c in s] for a one-character string [c]. *)
Definition has_char (c : ascii) (s : string) : bool := existsb (Ascii.eqb c) (chars s).

(** [any(char in s for char in "\x00\r\n")] *)
Definition has_control_char (s : string) : bool :=
  has_char "000"%char s || has_char "013"%char s || has_char "010"%char s.

(** The characters below U+0100 matched by the regular expression class [\s]. *)
Definition is_space (c : ascii) : bool :=
  let n := code c in
  ((9 <=? n) && (n <=? 13)) || ((28 <=? n) && (n <=? 32)) || (n =? 133) || (n =? 160).

Definition is_lower_hex (c : ascii) : bool :=
  let n := code c in ((48 <=? n) && (n <=? 57)) || ((97 <=? n) && (n <=? 102)).

(** [str(z)] for an integer. *)
Definition str_of_Z (z : Z) : string := NilZero.string_of_int (Z.to_int z).

(** ** [json.dumps(value, ensure_ascii=False, sort_keys=True, separators=(",", ":"))] *)

Definition hex_digit (n : Z) : ascii := ascii_of_N (Z.to_N (if n <? 10 then 48 + n else 87 + n)).

(** The text of one character inside a JSON string literal. *)
Definition json_escape_char (c : ascii) : string :=
  let n := code c in
  if n =? 34 then String "\"%char (String (ascii_of_nat 34) "")
  else if n =? 92 then "\\"
  else if n =? 10 then "\n"
  else if n =? 13 then "\r"
  else if n =? 9 then "\t"
  else if n =? 8 then "\b"
  else if n =? 12 then "\f"
  else if n <? 32 then
    "\u00" +:+ String (hex_digit (n / 16)) (String (hex_digit (n mod 16)) "")
  else String c "".

Fixpoint json_escape (s : string) : string :=
  match s with
  | EmptyString => ""
  | String c s => json_escape_char c +:+ json_escape s
  end.

Definition quote (s : string) : string := String (ascii_of_nat 34) (s +:+ String (ascii_of_nat 34) "").

Definition json_string (s : string) : string := quote (json_escape s).

Fixpoint join (sep : string) (l : list string) : string :=
  match l with
  | [] => ""
  | [x] => x
  | x :: l => x +:+ sep +:+ join sep l
  end.

Fixpoint json_dumps (j : json) : string :=
  match j with
  | JNull => "null"
  | JBool true => "true"
  | JBool false => "false"
  | JInt z => str_of_Z z
  | JStr s => json_string s
  | JArray l => "[" +:+ join "," (map json_dumps l) +:+ "]"
  | JObject kvs =>
      "{" +:+ join "," (map (λ '(k, t), json_string k +:+ ":" +:+ t)
                         (sorted_by fst (map (λ '(k, v), (k, json_dumps v)) kvs))) +:+ "}"
  end.

(** [s.encode("utf-8")] *)
Definition utf8_char (c : ascii) : list Z :=
  let n := code c in if n <? 128 then [n] else [192 + n / 64; 128 + n mod 64].

Definition encode_utf8 (s : string) : list Z := chars s ≫= utf8_char.

Lemma chars_app s t : chars (s +:+ t) = chars s ++ chars t.
Proof.
  induction s as [|c s IH]; [done|].
  change (c :: chars (s +:+ t) = c :: (chars s ++ chars t)). by rewrite IH.
Qed.

Lemma chars_length s : length (chars s) = String.length s.
Proof. induction s; simpl; [done | by f_equal]. Qed.

Lemma join_nil_sep l : chars (join "" l) = l ≫= chars.
Proof.
  induction l as [|x [|y l] IH]; [done|by simpl; rewrite app_nil_r|].
  change (join "" (x :: y :: l)) with (x +:+ ("" +:+ join "" (y :: l))).
  rewrite chars_app. change ("" +:+ join "" (y :: l)) with (join "" (y :: l)). by rewrite IH.
Qed.
