(* ===== verification/Sha256.v ===== *)
(** * The SHA-256 interface and its implementation

    [stack_identity.sha256_hex] hashes bytes with the standard library's
    SHA-256.  The rest of the development uses only what [Sha256] states: the
    text of a digest is 64 lowercase hexadecimal digits.  [fips_sha256] is the
    algorithm of FIPS 180-4 and discharges the interface. *)

From Stdlib Require Import ZArith Lia Ascii.
From stdpp Require Import base tactics numbers list strings gmap sorting.
From S2P Require Import Prelude PyValue.

(** [^[0-9a-f]{64}$] with [fullmatch]. *)
Definition is_hex64 (s : string) : bool :=
  bool_decide (String.length s = 64%nat) && forallb is_lower_hex (chars s).

(** [sha256_hex data] is [hashlib.sha256(data).hexdigest()]; the type check
    [isinstance(data, bytes)] of the source is the type [list Z] here. *)
Class Sha256 := {
  sha256_hex : list Z → string;
  sha256_hex_is_hex64 : ∀ data, is_hex64 (sha256_hex data) = true
}.

(** ** FIPS 180-4 *)

Definition mask32 (x : Z) : Z := Z.land x 4294967295.
Definition add32 (x y : Z) : Z := mask32 (x + y).
Definition rotr (n x : Z) : Z := Z.lor (Z.shiftr x n) (mask32 (Z.shiftl x (32 - n))).
Definition bsig0 (x : Z) : Z := Z.lxor (Z.lxor (rotr 2 x) (rotr 13 x)) (rotr 22 x).
Definition bsig1 (x : Z) : Z := Z.lxor (Z.lxor (rotr 6 x) (rotr 11 x)) (rotr 25 x).
Definition ssig0 (x : Z) : Z := Z.lxor (Z.lxor (rotr 7 x) (rotr 18 x)) (Z.shiftr x 3).
Definition ssig1 (x : Z) : Z := Z.lxor (Z.lxor (rotr 17 x) (rotr 19 x)) (Z.shiftr x 10).
Definition ch (x y z : Z) : Z := Z.lxor (Z.land x y) (Z.land (Z.lxor x 4294967295) z).
Definition maj (x y z : Z) : Z := Z.lxor (Z.lxor (Z.land x y) (Z.land x z)) (Z.land y z).

Definition round_constants : list Z :=
  [1116352408; 1899447441; 3049323471; 3921009573; 961987163; 1508970993; 2453635748; 2870763221;
   3624381080; 310598401; 607225278; 1426881987; 1925078388; 2162078206; 2614888103; 3248222580;
   3835390401; 4022224774; 264347078; 604807628; 770255983; 1249150122; 1555081692; 1996064986;
   2554220882; 2821834349; 2952996808; 3210313671; 3336571891; 3584528711; 113926993; 338241895;
   666307205; 773529912; 1294757372; 1396182291; 1695183700; 1986661051; 2177026350; 2456956037;
   2730485921; 2820302411; 3259730800; 3345764771; 3516065817; 3600352804; 4094571909; 275423344;
   430227734; 506948616; 659060556; 883997877; 958139571; 1322822218; 1537002063; 1747873779;
   1955562222; 2024104815; 2227730452; 2361852424; 2428436474; 2756734187; 3204031479; 3329325298].

Definition initial_hash : list Z :=
  [1779033703; 3144134277; 1013904242; 2773480762; 1359893119; 2600822924; 528734635; 1541459225].

Fixpoint bytes_be (n : nat) (x : Z) : list Z :=
  match n with
  | O => []
  | S n => Z.land (Z.shiftr x (8 * Z.of_nat n)) 255 :: bytes_be n x
  end.

Definition pad (data : list Z) : list Z :=
  let len := Z.of_nat (length data) in
  data ++ 128 :: replicate (Z.to_nat ((55 - len) mod 64)) 0 ++ bytes_be 8 (8 * len).

Fixpoint words_be (l : list Z) : list Z :=
  match l with
  | a :: b :: c :: d :: l => (((a * 256 + b) * 256 + c) * 256 + d) :: words_be l
  | _ => []
  end.

(** The message schedule, latest word first. *)
Fixpoint schedule (n : nat) (w : list Z) : list Z :=
  match n with
  | O => w
  | S n =>
      let at' i := nth i w 0 in
      schedule n (add32 (add32 (ssig1 (at' 1%nat)) (at' 6%nat))
                        (add32 (ssig0 (at' 14%nat)) (at' 15%nat)) :: w)
  end.

Definition sha_round (st : list Z) (kw : Z * Z) : list Z :=
  match st with
  | [a; b; c; d; e; f; g; h] =>
      let t1 := add32 (add32 (add32 h (bsig1 e)) (ch e f g)) (add32 kw.1 kw.2) in
      let t2 := add32 (bsig0 a) (maj a b c) in
      [add32 t1 t2; a; b; c; add32 d t1; e; f; g]
  | _ => st
  end.

Definition compress (st block : list Z) : list Z :=
  let w := reverse (schedule 48 (reverse block)) in
  zip_with add32 st (fold_left sha_round (zip round_constants w) st).

Fixpoint sha_blocks (fuel : nat) (words st : list Z) : list Z :=
  match fuel, words with
  | S fuel, _ :: _ => sha_blocks fuel (drop 16 words) (compress st (take 16 words))
  | _, _ => st
  end.

(** Eight lowercase hexadecimal digits of a 32-bit word. *)
Definition hex_word (x : Z) : string :=
  String.string_of_list_ascii
    ((λ i, hex_digit (Z.shiftr x (4 * i) mod 16)) <$> [7; 6; 5; 4; 3; 2; 1; 0]).

Definition fips_sha256_hex (data : list Z) : string :=
  let words := words_be (pad data) in
  let st := sha_blocks (length words) words initial_hash in
  join "" (hex_word <$> [nth 0 st 0; nth 1 st 0; nth 2 st 0; nth 3 st 0;
                         nth 4 st 0; nth 5 st 0; nth 6 st 0; nth 7 st 0]).

Lemma hex_digit_lower n : 0 ≤ n < 16 → is_lower_hex (hex_digit n) = true.
Proof.
  intros Hn. assert (n ∈ (Z.of_nat <$> seq 0 16)) as Hin.
  { apply list_elem_of_fmap. exists (Z.to_nat n). split; [lia|]. apply elem_of_seq. lia. }
  revert n Hn Hin. cut (Forall (λ n, is_lower_hex (hex_digit n) = true) (Z.of_nat <$> seq 0 16)).
  { rewrite Forall_forall. auto. }
  repeat constructor.
Qed.

Lemma chars_hex_word x :
  chars (hex_word x) = (λ i, hex_digit (Z.shiftr x (4 * i) mod 16)) <$> [7; 6; 5; 4; 3; 2; 1; 0].
Proof. apply String.list_ascii_of_string_of_list_ascii. Qed.

Lemma hex_word_lower x : forallb is_lower_hex (chars (hex_word x)) = true.
Proof.
  rewrite chars_hex_word. apply forallb_forall. intros c.
  rewrite <- list_elem_of_In, list_elem_of_fmap. intros (i & -> & _).
  apply hex_digit_lower, Z.mod_pos_bound. lia.
Qed.

Lemma hex_words_is_hex64 ws : length ws = 8%nat → is_hex64 (join "" (hex_word <$> ws)) = true.
Proof.
  intros Hlen. unfold is_hex64. rewrite <- chars_length, join_nil_sep.
  assert (length ((hex_word <$> ws) ≫= chars) = (8 * length ws)%nat) as ->.
  { clear Hlen. induction ws as [|w ws IH]; [done|].
    rewrite fmap_cons, bind_cons, length_app, IH, chars_hex_word. simpl. lia. }
  rewrite Hlen. simpl. clear Hlen. induction ws as [|w ws IH]; [done|].
  by rewrite fmap_cons, bind_cons, forallb_app, hex_word_lower.
Qed.

Lemma fips_sha256_is_hex64 data : is_hex64 (fips_sha256_hex data) = true.
Proof. by apply hex_words_is_hex64. Qed.

#[local] Instance fips_sha256 : Sha256 :=
  {| sha256_hex := fips_sha256_hex; sha256_hex_is_hex64 := fips_sha256_is_hex64 |}.

(** The FIPS 180-4 test vector for [abc]. *)
Example fips_sha256_abc :
  sha256_hex (encode_utf8 "abc") = "ba7816bf8f01cfea414140de5dae2223b00361a396177a9cb410ff61f20015ad".
Proof. vm_compute. reflexivity. Qed.

Lemma is_hex64_length s : is_hex64 s = true → String.length s = 64%nat.
Proof. unfold is_hex64. intros. by bool_prop. Qed.

(** ** A cheap hash for examples

    A running checksum written as 64 hexadecimal digits: it has the one law that
    the development asks of SHA-256, and evaluates fast. *)

Fixpoint checksum (data : list Z) (s1 s2 : Z) : Z * Z :=
  match data with
  | [] => (s1, s2)
  | b :: data => checksum data (s1 + b) (s1 + s2)
  end.

Definition checksum_hex (data : list Z) : string :=
  let h := checksum data 1 1 in join "" (hex_word <$> [1; 0; 0; 0; 0; h.1; Z.shiftr h.2 32; h.2]).

Lemma checksum_is_hex64 data : is_hex64 (checksum_hex data) = true.
Proof. by apply hex_words_is_hex64. Qed.

#[local] Instance checksum_sha256 : Sha256 := {| sha256_hex := checksum_hex; sha256_hex_is_hex64 := checksum_is_hex64 |}.
