(* ===== verification/Identity.v ===== *)
(** * Canonical identities (src/optima/stack_identity.py)

    The one canonical JSON encoding and the domain-separated digest that every
    content-addressed record of the program uses. *)

From Stdlib Require Import ZArith Lia Ascii.
From stdpp Require Import base tactics numbers list strings gmap sorting.
From S2P Require Import Prelude PyValue Sha256.

(** ** [_canonical_value] *)

Fixpoint canonical_value (v : pyval) : result json :=
  match v with
  | PNone => Ok JNull
  | PStr s => Ok (JStr s)
  | PBool b => Ok (JBool b)
  | PInt z => Ok (JInt z)
  | PFloat _ => Raise (Exn StackIdentityError "contains a float")
  | PDict kvs =>
      result_map JObject
        (mapM (λ '(k, x),
           match k with
           | PStr k => result_map (pair k) (canonical_value x)
           | _ => Raise (Exn StackIdentityError "contains a non-string object key")
           end) kvs)
  | PList l | PTuple l => result_map JArray (mapM canonical_value l)
  | PObject _ => Raise (Exn StackIdentityError "contains unsupported")
  end.

(** [canonical_json_bytes] *)
Definition canonical_json_bytes (v : pyval) : result (list Z) :=
  let! canonical := canonical_value v in
  Ok (encode_utf8 (json_dumps canonical)).

(** [require_sha256_hex] *)
Definition require_sha256_hex (v : pyval) : result string :=
  match v with
  | PStr s =>
      if is_hex64 s then Ok s
      else Raise (Exn StackIdentityError "must be a lowercase 64-hex SHA-256 digest")
  | _ => Raise (Exn StackIdentityError "must be a lowercase 64-hex SHA-256 digest")
  end.

(** The character classes of [_DOMAIN_RE = ^[a-z0-9][a-z0-9._-]*$]. *)
Definition is_domain_head (c : ascii) : bool :=
  let n := code c in ((97 <=? n) && (n <=? 122)) || ((48 <=? n) && (n <=? 57)).

Definition is_domain_char (c : ascii) : bool :=
  is_domain_head c || (code c =? 46) || (code c =? 95) || (code c =? 45).

Definition is_domain (s : string) : bool :=
  match s with
  | EmptyString => false
  | String c t => is_domain_head c && forallb is_domain_char (chars t)
  end.

Section digest.
Context `{Sha256}.

(** [canonical_digest]; [schema_version] is the keyword argument whose default
    is [1]. *)
Definition canonical_digest (domain : string) (payload schema_version : pyval) : result string :=
  do! raise_if (negb (is_domain domain)) (Exn StackIdentityError "digest domain must match") ;;
  do! raise_if (match schema_version with PInt n => n <? 1 | _ => true end)
        (Exn StackIdentityError "schema_version must be a positive integer") ;;
  let! data := canonical_json_bytes
    (py_dict [("domain", PStr domain); ("payload", payload); ("schema_version", schema_version)]) in
  Ok (sha256_hex data).

(** The digest of a payload known to be canonical; [digest_of_canonical] below
    relates it to [canonical_digest]. *)
Definition digest_of (domain : string) (payload : pyval) : string :=
  match canonical_digest domain payload (PInt 1) with Ok d => d | Raise _ => "" end.
End digest.

(** ** Which values are canonical *)

Fixpoint is_canonical (v : pyval) : bool :=
  match v with
  | PNone | PStr _ | PBool _ | PInt _ => true
  | PFloat _ | PObject _ => false
  | PDict kvs => forallb (λ '(k, x), is_str k && is_canonical x) kvs
  | PList l | PTuple l => forallb is_canonical l
  end.

Section pyval_ind.
Context (P : pyval → Prop).
Context (Hnone : P PNone) (Hbool : ∀ b, P (PBool b)) (Hint : ∀ z, P (PInt z)).
Context (Hfloat : ∀ f, P (PFloat f)) (Hstr : ∀ s, P (PStr s)).
Context (Hlist : ∀ l, Forall P l → P (PList l)) (Htuple : ∀ l, Forall P l → P (PTuple l)).
Context (Hdict : ∀ kvs, Forall (λ kv, P kv.2) kvs → P (PDict kvs)).
Context (Hobj : ∀ t, P (PObject t)).

Fixpoint pyval_ind (v : pyval) : P v :=
  match v with
  | PNone => Hnone
  | PBool b => Hbool b
  | PInt z => Hint z
  | PFloat f => Hfloat f
  | PStr s => Hstr s
  | PList l => Hlist l ((fix go l : Forall P l :=
      match l with [] => Forall_nil_2 _ | x :: l => Forall_cons_2 _ _ _ (pyval_ind x) (go l) end) l)
  | PTuple l => Htuple l ((fix go l : Forall P l :=
      match l with [] => Forall_nil_2 _ | x :: l => Forall_cons_2 _ _ _ (pyval_ind x) (go l) end) l)
  | PDict kvs => Hdict kvs ((fix go l : Forall (λ kv, P kv.2) l :=
      match l with [] => Forall_nil_2 _ | x :: l => Forall_cons_2 _ _ _ (pyval_ind x.2) (go l) end) kvs)
  | PObject t => Hobj t
  end.
End pyval_ind.

Lemma is_ok_result_map {A B} (f : A → B) m : is_ok (result_map f m) = is_ok m.
Proof. by destruct m. Qed.

Lemma is_ok_mapM {A B} (f : A → result B) l : is_ok (mapM f l) = forallb (λ x, is_ok (f x)) l.
Proof.
  induction l as [|x l IH]; simpl; [done|].
  destruct (f x); simpl; [|done]. rewrite <- IH. by destruct (mapM f l).
Qed.

Lemma forallb_ext_Forall {A} (f g : A → bool) l :
  Forall (λ x, f x = g x) l → forallb f l = forallb g l.
Proof. induction 1 as [|x l Hx Hl IH]; simpl; [done | by rewrite Hx, IH]. Qed.

(** A value is accepted exactly when it holds no float, no unsupported object
    and no non-string key. *)
Lemma canonical_value_ok v : is_ok (canonical_value v) = is_canonical v.
Proof.
  induction v as [| | | | |l IH|l IH|kvs IH|] using pyval_ind; simpl; try done.
  - rewrite is_ok_result_map, is_ok_mapM. by apply forallb_ext_Forall.
  - rewrite is_ok_result_map, is_ok_mapM. by apply forallb_ext_Forall.
  - rewrite is_ok_result_map, is_ok_mapM. apply forallb_ext_Forall.
    eapply Forall_impl; [exact IH|]. intros [k x] Hx; simpl in *. rewrite <- Hx.
    destruct k; simpl; try done. by rewrite is_ok_result_map.
Qed.

Lemma is_ok_true {A} (m : result A) : is_ok m = true ↔ ∃ a, m = Ok a.
Proof. destruct m; simpl; split; try done; eauto. by intros [? ?]. Qed.

Section digest_facts.
Context `{Sha256}.

Lemma digest_of_canonical domain payload :
  is_domain domain = true → is_canonical payload = true →
  canonical_digest domain payload (PInt 1) = Ok (digest_of domain payload).
Proof.
  intros Hd Hp. unfold digest_of.
  destruct (canonical_digest domain payload (PInt 1)) as [d|e] eqn:E; [done|exfalso].
  unfold canonical_digest in E. rewrite Hd in E. simpl in E.
  rewrite <- canonical_value_ok in Hp. apply is_ok_true in Hp as [j Hj].
  unfold canonical_json_bytes in E. simpl in E. rewrite Hj in E. done.
Qed.

Lemma canonical_digest_is_hex64 domain payload schema d :
  canonical_digest domain payload schema = Ok d → is_hex64 d = true.
Proof. unfold canonical_digest. intros Hd. inv_ok Hd. subst. apply sha256_hex_is_hex64. Qed.

Lemma digest_of_is_hex64 domain payload :
  is_domain domain = true → is_canonical payload = true → is_hex64 (digest_of domain payload) = true.
Proof. intros Hd Hp. eapply canonical_digest_is_hex64, (digest_of_canonical domain payload Hd Hp). Qed.
End digest_facts.
