(* ===== verification/Strict.v ===== *)
(** * The shared strict-validation kernel (src/optima/_strict.py)

    Every validator takes the caller's exception class, as in the source. *)

From Stdlib Require Import ZArith Lia Ascii.
From stdpp Require Import base tactics numbers list strings gmap sorting.
From S2P Require Import Prelude PyValue Sha256 Identity.

Definition ZERO_DIGEST : string := "0000000000000000000000000000000000000000000000000000000000000000".

(** [require_digest] *)
Definition require_digest (error : exn_class) (allow_zero optional : bool) (v : pyval) : result string :=
  if optional && py_eq_str v "" then Ok ""
  else
    let! digest := reraise (λ _, true) (λ e, Exn error (exn_msg e)) (require_sha256_hex v) in
    do! raise_if (negb allow_zero && bool_decide (digest = ZERO_DIGEST))
          (Exn error "must not be the all-zero digest") ;;
    Ok digest.

(** [require_int] *)
Definition require_int (error : exn_class) (minimum maximum : option Z) (v : pyval) : result Z :=
  match v with
  | PInt z =>
      if (match minimum with None => true | Some m => m <=? z end)
         && (match maximum with None => true | Some m => z <=? m end)
      then Ok z
      else match minimum, maximum with
           | Some _, Some _ => Raise (Exn error "must be an integer in range")
           | Some _, None => Raise (Exn error "must be an integer >=")
           | None, Some _ => Raise (Exn error "must be an integer <=")
           | None, None => Raise (Exn error "must be an integer")
           end
  | _ =>
      match minimum, maximum with
      | Some _, Some _ => Raise (Exn error "must be an integer in range")
      | Some _, None => Raise (Exn error "must be an integer >=")
      | None, Some _ => Raise (Exn error "must be an integer <=")
      | None, None => Raise (Exn error "must be an integer")
      end
  end.

(** [require_identifier]; the grammar is the calling module's. *)
Definition require_identifier (error : exn_class) (fullmatch : string → bool) (v : pyval) : result string :=
  match v with
  | PStr s => if fullmatch s then Ok s else Raise (Exn error "is not a canonical identifier")
  | _ => Raise (Exn error "is not a canonical identifier")
  end.

Definition py_key_str (kv : pyval * pyval) : option (string * pyval) :=
  match kv.1 with PStr k => Some (k, kv.2) | _ => None end.

Fixpoint all_str_keys (kvs : list (pyval * pyval)) : option (list (string * pyval)) :=
  match kvs with
  | [] => Some []
  | kv :: kvs =>
      match py_key_str kv, all_str_keys kvs with
      | Some p, Some ps => Some (p :: ps)
      | _, _ => None
      end
  end.

(** [require_exact_fields] on a JSON object.  [exact_dict] chooses between
    [type(value) is dict] and [isinstance(value, Mapping)]; a [PDict] is both. *)
Definition require_exact_fields (error : exn_class) (fields : list string) (exact_dict : bool)
    (v : pyval) : result (list (string * pyval)) :=
  match v with
  | PDict kvs =>
      match all_str_keys kvs with
      | None => Raise (Exn error "keys must be strings")
      | Some row =>
          do! raise_if (negb (bool_decide ((list_to_set row.*1 : gset string) = list_to_set fields)))
                (Exn error "fields mismatch") ;;
          Ok row
      end
  | _ => Raise (Exn error (if exact_dict then "must be a JSON object" else "must be an object"))
  end.

(** [row[field]] on the dict returned by [require_exact_fields]. *)
Fixpoint row_get (row : list (string * pyval)) (field : string) : result pyval :=
  match row with
  | [] => Raise (Exn KeyError field)
  | (k, v) :: row => if String.eqb k field then Ok v else row_get row field
  end.

(** [duplicate_key_pairs], the [object_pairs_hook] of the strict JSON readers. *)
Fixpoint duplicate_key_pairs_from (error : exn_class) (seen : list (string * pyval))
    (pairs : list (string * pyval)) : result (list (string * pyval)) :=
  match pairs with
  | [] => Ok seen
  | (k, v) :: pairs =>
      do! raise_if (bool_decide (k ∈ seen.*1)) (Exn error "contains duplicate key") ;;
      duplicate_key_pairs_from error (seen ++ [(k, v)]) pairs
  end.

Definition duplicate_key_pairs (error : exn_class) (pairs : list (string * pyval)) :=
  duplicate_key_pairs_from error [] pairs.

(** [s.strip()], [s.lower()] on the characters below U+0080. *)
Fixpoint lstrip (l : list ascii) : list ascii :=
  match l with
  | [] => []
  | c :: l' => if is_space c then lstrip l' else l
  end.

Definition strip (s : string) : string :=
  String.string_of_list_ascii (reverse (lstrip (reverse (lstrip (chars s))))).

Definition lower_char (c : ascii) : ascii :=
  let n := code c in if (65 <=? n) && (n <=? 90) then ascii_of_N (Z.to_N (n + 32)) else c.

Definition lower (s : string) : string := String.string_of_list_ascii (lower_char <$> chars s).

(** [truthy_flag] *)
Definition truthy_flag (v : option string) : bool :=
  bool_decide (lower (strip (default "" v)) ∈ ["1"; "true"; "yes"; "on"]).

(** ** What the validators accept *)

Lemma require_sha256_hex_Ok v s :
  require_sha256_hex v = Ok s ↔ v = PStr s ∧ is_hex64 s = true.
Proof.
  unfold require_sha256_hex. destruct v; try (split; [done|by intros [? ?]]).
  destruct (is_hex64 s0) eqn:E; split.
  - intros [= ->]. done.
  - by intros [[= ->] ?].
  - done.
  - intros [[= ->] ?]. congruence.
Qed.

(** A digest that the strict validators admit. *)
Definition digest_ok (s : string) : Prop := is_hex64 s = true ∧ s ≠ ZERO_DIGEST.

#[global] Instance digest_ok_dec s : Decision (digest_ok s).
Proof. unfold digest_ok. apply _. Defined.

Lemma require_digest_Ok error v s :
  require_digest error false false v = Ok s ↔ v = PStr s ∧ digest_ok s.
Proof.
  unfold require_digest, digest_ok. simpl. rewrite bind_Ok. setoid_rewrite reraise_Ok.
  setoid_rewrite bind_Ok. setoid_rewrite raise_if_Ok. setoid_rewrite require_sha256_hex_Ok.
  setoid_rewrite bool_decide_eq_false. split.
  - intros (a & [-> ?] & u & ? & [= ->]). done.
  - intros (-> & ? & ?). exists s. split; [done|]. exists tt. done.
Qed.

Lemma require_int_Ok error mn mx v z :
  require_int error mn mx v = Ok z ↔
  v = PInt z ∧ (∀ m, mn = Some m → m ≤ z) ∧ (∀ m, mx = Some m → z ≤ m).
Proof.
  unfold require_int. split.
  - destruct v; try by (destruct mn, mx). destruct (_ && _) eqn:E; [|by destruct mn, mx].
    intros [= ->]. bool_prop. split; [done|]. split; intros m ->; bool_prop; lia.
  - intros (-> & Hmn & Hmx).
    assert ((match mn with None => true | Some m => m <=? z end) = true) as ->.
    { destruct mn; [apply Z.leb_le; by apply Hmn | done]. }
    assert ((match mx with None => true | Some m => z <=? m end) = true) as ->; [|done].
    destruct mx; [apply Z.leb_le; by apply Hmx | done].
Qed.

Lemma all_str_keys_py_dict row : all_str_keys ((λ kv, (PStr kv.1, kv.2)) <$> row) = Some row.
Proof. induction row as [|[k v] row IH]; [done|]. rewrite fmap_cons. cbn. by rewrite IH. Qed.

(** A dict literal with the right field names passes, in any field order. *)
Lemma require_exact_fields_py_dict error fields b row :
  (∀ k, k ∈ row.*1 ↔ k ∈ fields) →
  require_exact_fields error fields b (py_dict row) = Ok row.
Proof.
  intros Hk. unfold require_exact_fields, py_dict. rewrite all_str_keys_py_dict.
  rewrite bool_decide_eq_true_2; [done|]. apply set_eq. intros k.
  by rewrite !elem_of_list_to_set.
Qed.

Lemma require_exact_fields_sorted error fields b row :
  sorted_str row.*1 = sorted_str fields → require_exact_fields error fields b (py_dict row) = Ok row.
Proof.
  intros Hs. apply require_exact_fields_py_dict. intros k. unfold sorted_str in Hs.
  by rewrite <- (sorted_by_perm id row.*1), Hs, sorted_by_perm.
Qed.
