(* ===== verification/IdentityCorrect.v ===== *)
(** * What content identities guarantee

    The properties of [stack_identity.py], stated on the operations themselves. *)

From Stdlib Require Import ZArith Lia Ascii DecimalString DecimalZ.
From stdpp Require Import base tactics numbers list strings gmap sorting.
From S2P Require Import Prelude PyValue Sha256 Identity Strict.

(** ** The canonical encoding is unambiguous

    The bytes [stack_identity.canonical_json_bytes] hashes determine the JSON
    value: reading a value off the front of a text is deterministic, at every
    nesting level, whatever follows it. *)

Definition dquote : ascii := ascii_of_nat 34.

(** ** String literals *)

(** Reads one character of a string literal. *)
Definition unescape (l : list ascii) : option (ascii * list ascii) :=
  match l with
  | "\"%char :: c :: l =>
      if bool_decide (c = "n"%char) then Some ("010"%char, l)
      else if bool_decide (c = "r"%char) then Some ("013"%char, l)
      else if bool_decide (c = "t"%char) then Some ("009"%char, l)
      else if bool_decide (c = "b"%char) then Some ("008"%char, l)
      else if bool_decide (c = "f"%char) then Some ("012"%char, l)
      else if bool_decide (c = "u"%char) then
        match l with
        | _ :: _ :: h :: d :: l =>
            let v x := if code x <? 58 then code x - 48 else code x - 87 in
            Some (ascii_of_N (Z.to_N (16 * v h + v d)), l)
        | _ => None
        end
      else Some (c, l)
  | c :: l => Some (c, l)
  | [] => None
  end.

Lemma unescape_escape c l : unescape (chars (json_escape_char c) ++ l) = Some (c, l).
Proof. destruct c as [[] [] [] [] [] [] [] []]; reflexivity. Qed.

Lemma escape_head c l : ∃ h t, chars (json_escape_char c) ++ l = h :: t ∧ h ≠ dquote.
Proof. destruct c as [[] [] [] [] [] [] [] []]; eexists _, _; (split; [reflexivity | done]). Qed.

Lemma escape_inj s1 s2 r1 r2 :
  chars (json_escape s1) ++ dquote :: r1 = chars (json_escape s2) ++ dquote :: r2 → s1 = s2 ∧ r1 = r2.
Proof.
  revert s2. induction s1 as [|c1 s1 IH]; intros [|c2 s2]; cbn [json_escape]; rewrite ?chars_app, <- ?app_assoc; intros E.
  - injection E as ->. done.
  - destruct (escape_head c2 (chars (json_escape s2) ++ dquote :: r2)) as (h & t & Eh & Hh). rewrite Eh in E.
    injection E as E1 _. congruence.
  - destruct (escape_head c1 (chars (json_escape s1) ++ dquote :: r1)) as (h & t & Eh & Hh). rewrite Eh in E.
    injection E as E1 _. congruence.
  - apply (f_equal unescape) in E. rewrite !unescape_escape in E. injection E as -> E.
    apply IH in E as [-> ->]. done.
Qed.

Lemma chars_json_string s : chars (json_string s) = dquote :: chars (json_escape s) ++ [dquote].
Proof. unfold json_string, quote. change (dquote :: chars (json_escape s +:+ String dquote EmptyString) = dquote :: chars (json_escape s) ++ [dquote]). by rewrite chars_app. Qed.

Lemma json_string_inj s1 s2 r1 r2 :
  chars (json_string s1) ++ r1 = chars (json_string s2) ++ r2 → s1 = s2 ∧ r1 = r2.
Proof.
  rewrite !chars_json_string. cbn [app]. rewrite <- !app_assoc. intros [= E]. by apply escape_inj.
Qed.

(** ** Numbers *)

Definition is_number_char (c : ascii) : bool := ((48 <=? code c) && (code c <=? 57)) || (code c =? 45).

Lemma uint_chars d : Forall (λ c, is_number_char c = true) (chars (NilZero.string_of_uint d)).
Proof.
  assert (∀ d, Forall (λ c, is_number_char c = true) (chars (NilEmpty.string_of_uint d))) as Hd.
  { clear. induction d; [by constructor|..]; (apply Forall_cons; split; [reflexivity | exact IHd]). }
  destruct d; try apply Hd. by repeat constructor.
Qed.

Lemma str_of_Z_chars z : Forall (λ c, is_number_char c = true) (chars (str_of_Z z)).
Proof.
  unfold str_of_Z, NilZero.string_of_int. destruct (Z.to_int z); [apply uint_chars|].
  apply Forall_cons. split; [done | apply uint_chars].
Qed.

Lemma str_of_Z_nonempty z : chars (str_of_Z z) ≠ [].
Proof. unfold str_of_Z, NilZero.string_of_int. destruct (Z.to_int z) as [[]|]; done. Qed.

Lemma chars_inj s1 s2 : chars s1 = chars s2 → s1 = s2.
Proof. intros E. rewrite <- (String.string_of_list_ascii_of_string s1), <- (String.string_of_list_ascii_of_string s2). unfold chars in E. by rewrite E. Qed.

Lemma str_of_Z_inj z1 z2 : str_of_Z z1 = str_of_Z z2 → z1 = z2.
Proof.
  unfold str_of_Z. intros E. apply DecimalZ.to_int_inj.
  assert (∀ z, Z.to_int z ≠ Decimal.Pos Decimal.Nil ∧ Z.to_int z ≠ Decimal.Neg Decimal.Nil) as Hn.
  { intros z. split; intros Hz; pose proof (DecimalZ.of_to z) as Ho; rewrite Hz in Ho; subst z; discriminate Hz. }
  destruct (Hn z1), (Hn z2). apply (f_equal NilZero.int_of_string) in E. rewrite !NilZero.isi in E by done.
  by injection E.
Qed.

(** A text ends, or goes on with a separator or a closing bracket. *)
Definition ends (l : list ascii) : Prop :=
  match l with [] => True | c :: _ => c = ","%char ∨ c = "]"%char ∨ c = "}"%char end.

Lemma ends_not_number c l : ends (c :: l) → is_number_char c = false.
Proof. by intros [-> | [-> | ->]]. Qed.

Lemma number_span l1 l2 r1 r2 :
  Forall (λ c, is_number_char c = true) l1 → Forall (λ c, is_number_char c = true) l2 → ends r1 → ends r2 →
  l1 ++ r1 = l2 ++ r2 → l1 = l2 ∧ r1 = r2.
Proof.
  intros H1. revert l2. induction H1 as [|c1 l1 Hc1 H1 IH]; intros l2 H2 E1 E2 E.
  - destruct H2 as [|c2 l2 Hc2 H2]; [done|]. cbn [app] in E. subst r1. apply ends_not_number in E1. congruence.
  - destruct H2 as [|c2 l2 Hc2 H2]; cbn [app] in E.
    + subst r2. apply ends_not_number in E2. congruence.
    + injection E as -> E. destruct (IH l2 H2 E1 E2 E) as [-> ->]. done.
Qed.

(** ** Comma-separated sequences *)

Section sequence.
Context {A : Type} (text : A → string) (R : A → A → Prop) (close : ascii).
Context (Hends : ∀ l, ends (close :: l)) (Hcomma : close ≠ ","%char).
Context (Hhead : ∀ x, ∃ h t, chars (text x) = h :: t ∧ h ≠ close).

(** Reading [x] off the front of a text leaves the same rest. *)
Definition reads (x : A) : Prop :=
  ∀ y r1 r2, ends r1 → ends r2 → chars (text x) ++ r1 = chars (text y) ++ r2 → R x y ∧ r1 = r2.

Definition more (l : list A) : list ascii := l ≫= λ x, ","%char :: chars (text x).

Lemma chars_join x l : chars (join "," (text <$> x :: l)) = chars (text x) ++ more l.
Proof.
  revert x. induction l as [|y l IH]; intros x; [by cbn; rewrite app_nil_r|].
  change (join "," (text <$> x :: y :: l)) with (text x +:+ ("," +:+ join "," (text <$> y :: l))).
  by rewrite !chars_app, IH.
Qed.

Lemma more_ends l r : ends (more l ++ close :: r).
Proof. destruct l; [apply Hends | by left]. Qed.

Lemma more_inj l1 l2 r1 r2 :
  Forall reads l1 → more l1 ++ close :: r1 = more l2 ++ close :: r2 → Forall2 R l1 l2 ∧ r1 = r2.
Proof.
  intros H1. revert l2. induction H1 as [|x l1 Hx H1 IH]; intros [|y l2]; cbn; rewrite <- ?app_assoc; intros E.
  - injection E as ->. by split; [constructor|].
  - injection E as E _. congruence.
  - injection E as E _. congruence.
  - injection E as E. apply Hx in E as [Hr E]; [|apply more_ends..]. apply IH in E as [Hf ->]. split; [by constructor | done].
Qed.

Lemma join_inj l1 l2 r1 r2 :
  Forall reads l1 → chars (join "," (text <$> l1)) ++ close :: r1 = chars (join "," (text <$> l2)) ++ close :: r2 →
  Forall2 R l1 l2 ∧ r1 = r2.
Proof.
  intros H1. destruct H1 as [|x l1 Hx H1], l2 as [|y l2]; rewrite ?chars_join, <- ?app_assoc.
  - intros [= ->]. by split; [constructor|].
  - destruct (Hhead y) as (h & t & -> & Hh). intros [= E _]. congruence.
  - destruct (Hhead x) as (h & t & -> & Hh). intros [= E _]. congruence.
  - intros E. apply Hx in E as [Hr E]; [|apply more_ends..]. apply more_inj in E as [Hf ->]; [|done]. split; [by constructor | done].
Qed.
End sequence.

(** ** Whole values *)

Definition member_text (kv : string * json) : string := json_string kv.1 +:+ ":" +:+ json_dumps kv.2.

Lemma dumps_object kvs : json_dumps (JObject kvs) = "{" +:+ join "," (member_text <$> sorted_by fst kvs) +:+ "}".
Proof.
  cbn [json_dumps]. do 3 f_equal.
  rewrite (sorted_by_fmap fst fst (λ '(k, v), (k, json_dumps v))) by by intros [].
  etrans; [symmetry; apply list_fmap_compose|]. apply list_fmap_ext. by intros ? [] _.
Qed.

Lemma sort_object kvs : json_sort (JObject kvs) = JObject ((λ kv, (kv.1, json_sort kv.2)) <$> sorted_by fst kvs).
Proof.
  cbn [json_sort]. f_equal. rewrite (sorted_by_fmap fst fst (λ '(k, v), (k, json_sort v))) by by intros [].
  apply list_fmap_ext. by intros ? [] _.
Qed.

(** The first character tells the kind of a value. *)
Definition kind_char (j : json) (c : ascii) : Prop :=
  match j with
  | JNull => c = "n"%char
  | JBool b => c = if b then "t"%char else "f"%char
  | JInt _ => is_number_char c = true
  | JStr _ => c = dquote
  | JArray _ => c = "["%char
  | JObject _ => c = "{"%char
  end.

Lemma dumps_head j : ∃ h t, chars (json_dumps j) = h :: t ∧ kind_char j h.
Proof.
  destruct j as [|[]|z|s|l|kvs]; try by eexists _, _.
  cbn [json_dumps kind_char]. pose proof (str_of_Z_chars z) as Hz. pose proof (str_of_Z_nonempty z).
  destruct (chars (str_of_Z z)) as [|c t]; [done|]. exists c, t. split; [done|]. by apply Forall_cons in Hz as [? _].
Qed.

Lemma kind_not_close j c : kind_char j c → c ≠ "]"%char ∧ c ≠ "}"%char.
Proof. destruct j as [|[]| | | |]; cbn [kind_char]; try by intros ->. intros Hc. by split; intros ->. Qed.

Lemma kind_disjoint j1 j2 c : kind_char j1 c → kind_char j2 c →
  match j1, j2 with
  | JNull, JNull | JInt _, JInt _ | JStr _, JStr _ | JArray _, JArray _ | JObject _, JObject _ => True
  | JBool a, JBool b => a = b
  | _, _ => False
  end.
Proof.
  destruct j1 as [|[]| | | |], j2 as [|[]| | | |]; cbn [kind_char]; try done; (intros -> || intros H1); (done || intros ->); done.
Qed.

(** Reading a value is deterministic. *)
Lemma dumps_inj j1 j2 r1 r2 :
  ends r1 → ends r2 → chars (json_dumps j1) ++ r1 = chars (json_dumps j2) ++ r2 → json_sort j1 = json_sort j2 ∧ r1 = r2.
Proof.
  revert j2 r1 r2. induction j1 as [|b|z|s|l IH|kvs IH] using json_ind; intros j2 r1 r2 E1 E2 E;
    destruct (dumps_head j2) as (h2 & t2 & Ej2 & K2);
    match type of E with chars (json_dumps ?j) ++ _ = _ => destruct (dumps_head j) as (h1 & t1 & Ej1 & K1) end;
    (assert (h1 = h2) by (rewrite Ej1, Ej2 in E; by injection E)); subst h2;
    pose proof (kind_disjoint _ _ _ K1 K2) as Hk; destruct j2 as [|b2|z2|s2|l2|kvs2]; try done.
  - injection E as ->. done.
  - subst b2. by destruct b; injection E as ->.
  - cbn [json_dumps] in E. apply number_span in E as [E ->]; try done; try apply str_of_Z_chars.
    apply chars_inj, str_of_Z_inj in E as ->. done.
  - cbn [json_dumps] in E. apply json_string_inj in E as [-> ->]. done.
  - cbn [json_dumps json_sort] in *. rewrite !chars_app, <- !app_assoc in E. cbn in E. injection E as E.
    apply (join_inj json_dumps (λ x y, json_sort x = json_sort y)) in E as [Hf ->];
      [split; [|done]; f_equal; by apply list_eq_Forall2, Forall2_fmap | ..].
    + by right; left.
    + done.
    + intros x. destruct (dumps_head x) as (h & t & -> & Hh%kind_not_close). exists h, t. split; [done | apply Hh].
    + eapply Forall_impl; [exact IH|]. intros x Hx y. apply Hx.
  - rewrite !sort_object. rewrite !dumps_object, !chars_app, <- !app_assoc in E. cbn in E. injection E as E.
    apply (join_inj member_text (λ x y, x.1 = y.1 ∧ json_sort x.2 = json_sort y.2)) in E as [Hf ->].
    + split; [|done]. f_equal. apply list_eq_Forall2, Forall2_fmap. eapply Forall2_impl; [exact Hf|]. intros x y [-> ->]. done.
    + by right; right.
    + done.
    + intros x. unfold member_text. rewrite chars_app, chars_json_string. by eexists _, _.
    + rewrite sorted_by_perm. eapply Forall_impl; [exact IH|]. intros [k x] Hx [k2 y] q1 q2 Q1 Q2. unfold member_text.
      cbn [fst snd] in *. rewrite !chars_app, <- !app_assoc. intros [-> Eq]%json_string_inj. cbn in Eq. injection Eq as Eq.
      by apply Hx in Eq as [-> ->].
Qed.

(** ** Bytes *)

Lemma code_bounds c : 0 ≤ code c < 256.
Proof. unfold code. pose proof (N_ascii_bounded c). lia. Qed.

Lemma code_inj c1 c2 : code c1 = code c2 → c1 = c2.
Proof. unfold code. intros E%N2Z.inj. by rewrite <- (ascii_N_embedding c1), <- (ascii_N_embedding c2), E. Qed.

Lemma utf8_chars_inj l1 l2 : l1 ≫= utf8_char = l2 ≫= utf8_char → l1 = l2.
Proof.
  assert (∀ c l, utf8_char c ++ l ≠ []) as Hne by (intros c l; unfold utf8_char; by destruct (_ <? _)).
  revert l2. induction l1 as [|c1 l1 IH]; intros [|c2 l2]; csimpl; intros E; [done| | |].
  { by destruct (Hne c2 (l2 ≫= utf8_char)). }
  { by destruct (Hne c1 (l1 ≫= utf8_char)). }
  pose proof (code_bounds c1). pose proof (code_bounds c2).
  pose proof (Z.div_mod (code c1) 64). pose proof (Z.div_mod (code c2) 64).
  assert (code c1 = code c2 ∧ l1 ≫= utf8_char = l2 ≫= utf8_char) as [Hc El].
  { unfold utf8_char in E at 1 3. destruct (Z.ltb_spec (code c1) 128), (Z.ltb_spec (code c2) 128);
      cbn [app] in E; injection E; intros; split; try done; Z.div_mod_to_equations; lia. }
  apply code_inj in Hc as ->. by rewrite (IH _ El).
Qed.

Lemma canonical_json_bytes_inj v1 v2 bytes :
  canonical_json_bytes v1 = Ok bytes → canonical_json_bytes v2 = Ok bytes →
  ∃ j1 j2, canonical_value v1 = Ok j1 ∧ canonical_value v2 = Ok j2 ∧ json_sort j1 = json_sort j2.
Proof.
  unfold canonical_json_bytes. intros (j1 & H1 & [= <-])%bind_Ok (j2 & H2 & [= E])%bind_Ok.
  exists j1, j2. split; [done|]. split; [done|]. unfold encode_utf8 in E. apply utf8_chars_inj in E.
  apply (dumps_inj j1 j2 [] []); [done..|]. by rewrite !app_nil_r.
Qed.

(** The text does not depend on the order of members. *)
Lemma dumps_sort j : json_dumps (json_sort j) = json_dumps j.
Proof.
  induction j as [|b|z|s|l IH|kvs IH] using json_ind; try done.
  - cbn [json_sort json_dumps]. do 3 f_equal. etrans; [symmetry; apply list_fmap_compose|]. apply list_fmap_ext.
    intros i x Hx. by apply (Forall_lookup_1 _ _ _ _ IH Hx).
  - rewrite sort_object, !dumps_object. do 3 f_equal. rewrite (sorted_by_fmap fst fst) by done.
    rewrite (sorted_by_stable _ (sorted_by fst kvs)) by apply sorted_by_sorted. etrans; [symmetry; apply list_fmap_compose|]. apply list_fmap_ext.
    intros i [k x] Hx%list_elem_of_lookup_2. rewrite sorted_by_perm in Hx. unfold member_text. cbn. rewrite Forall_forall in IH. pose proof (IH _ Hx) as E. cbn in E. by rewrite E.
Qed.

(** The same JSON value, up to the order of object members and the difference of
    lists and tuples. *)
Definition json_equal (v w : pyval) : Prop :=
  ∃ j k, canonical_value v = Ok j ∧ canonical_value w = Ok k ∧ json_sort j = json_sort k.

(** The bytes of the envelope around a payload. *)
Definition envelope_bytes (domain : string) (payload version : pyval) : result (list Z) :=
  canonical_json_bytes (py_dict [("domain", PStr domain); ("payload", payload); ("schema_version", version)]).

Lemma canonical_envelope domain payload version j :
  canonical_value payload = Ok j →
  canonical_value (py_dict [("domain", PStr domain); ("payload", payload); ("schema_version", version)]) =
  result_map (λ v, JObject [("domain", JStr domain); ("payload", j); ("schema_version", v)]) (canonical_value version).
Proof. intros Hj. cbn. rewrite Hj. cbn. by destruct (canonical_value version). Qed.

Lemma envelope_inj domain1 payload1 n1 domain2 payload2 n2 b1 b2 :
  envelope_bytes domain1 payload1 (PInt n1) = Ok b1 → envelope_bytes domain2 payload2 (PInt n2) = Ok b2 →
  b1 = b2 ↔ domain1 = domain2 ∧ PInt n1 = PInt n2 ∧ json_equal payload1 payload2.
Proof.
  unfold envelope_bytes. intros H1 H2. split.
  - intros <-. destruct (canonical_json_bytes_inj _ _ _ H1 H2) as (j1 & j2 & J1 & J2 & Es).
    cbn in J1, J2. unfold json_equal. destruct (canonical_value payload1) as [p1|]; [|done]. destruct (canonical_value payload2) as [p2|]; [|done].
    cbn in J1, J2. injection J1 as <-. injection J2 as <-.
    cbn [json_sort map] in Es. remember (json_sort p1) as q1 eqn:E1. remember (json_sort p2) as q2 eqn:E2. vm_compute in Es.
    injection Es as -> Eq ->. split; [done|]. split; [done|]. exists p1, p2. split; [done|]. split; [done|]. congruence.
  - intros (<- & [= <-] & j1 & j2 & J1 & J2 & Es). revert H1 H2. unfold canonical_json_bytes.
    rewrite (canonical_envelope _ _ _ _ J1), (canonical_envelope _ _ _ _ J2). cbn [canonical_value result_map bind].
    set (J := λ j, JObject [("domain", JStr domain1); ("payload", j); ("schema_version", JInt n1)]). fold (J j1) (J j2).
    assert (json_dumps (J j1) = json_dumps (J j2)) as -> by (rewrite <- !(dumps_sort (J _)); unfold J; cbn [json_sort map]; by rewrite Es). congruence.
Qed.

Section identity.
Context `{Sha256}.

Lemma canonical_digest_ok domain payload version :
  is_ok (canonical_digest domain payload version) = true ↔
  is_domain domain = true ∧ (∃ n, version = PInt n ∧ 1 ≤ n) ∧ is_canonical payload = true.
Proof.
  unfold canonical_digest. destruct (is_domain domain); cbn [negb raise_if bind is_ok]; [|naive_solver].
  destruct version as [| |n| | | | | |]; cbn [raise_if bind is_ok];
    try (by split; [|intros (_ & (? & [=] & _) & _)]).
  destruct (Z.ltb_spec n 1); cbn [raise_if bind is_ok]; [naive_solver lia|].
  assert (is_canonical payload = is_ok (canonical_value (py_dict [("domain", PStr domain); ("payload", payload);
    ("schema_version", PInt n)]))) as -> by (rewrite canonical_value_ok; cbn; by rewrite andb_true_r).
  unfold canonical_json_bytes. destruct (canonical_value _); naive_solver.
Qed.

(** A digest is computed exactly for a well-formed domain, a positive
    integer version and a payload without floats, foreign objects and
    non-string keys; it is then always accepted as a digest. *)
Theorem canonical_digest_defined domain payload version :
  (∃ d, canonical_digest domain payload version = Ok d ∧ require_sha256_hex (PStr d) = Ok d) ↔
  is_domain domain = true ∧ (∃ n, version = PInt n ∧ 1 ≤ n) ∧ is_canonical payload = true.
Proof.
  rewrite <- canonical_digest_ok, is_ok_true. split; intros (d & Hd); [exists d; apply Hd|].
  exists d. split; [done|]. apply require_sha256_hex_Ok. split; [done | by eapply canonical_digest_is_hex64].
Qed.

Lemma canonical_digest_bytes domain payload version d :
  canonical_digest domain payload version = Ok d → ∃ bytes, envelope_bytes domain payload version = Ok bytes ∧ d = sha256_hex bytes.
Proof.
  unfold canonical_digest. intros (? & _ & (? & _ & (data & Hd & [= <-])%bind_Ok)%bind_Ok)%bind_Ok. eauto.
Qed.

Lemma canonical_digest_version domain payload version d : canonical_digest domain payload version = Ok d → ∃ n, version = PInt n.
Proof. intros Hd. destruct (proj1 (canonical_digest_ok _ _ _) (proj2 (is_ok_true _) (ex_intro _ d Hd))) as (_ & (n & -> & _) & _). by exists n. Qed.

Lemma canonical_digest_envelopes domain1 payload1 version1 d1 domain2 payload2 version2 d2 :
  canonical_digest domain1 payload1 version1 = Ok d1 → canonical_digest domain2 payload2 version2 = Ok d2 →
  ∃ b1 b2, envelope_bytes domain1 payload1 version1 = Ok b1 ∧ envelope_bytes domain2 payload2 version2 = Ok b2 ∧
    d1 = sha256_hex b1 ∧ d2 = sha256_hex b2 ∧ (b1 = b2 ↔ domain1 = domain2 ∧ version1 = version2 ∧ json_equal payload1 payload2).
Proof.
  intros H1 H2. destruct (canonical_digest_version _ _ _ _ H1) as [n1 ->]. destruct (canonical_digest_version _ _ _ _ H2) as [n2 ->].
  apply canonical_digest_bytes in H1 as (b1 & H1 & ->), H2 as (b2 & H2 & ->). exists b1, b2. do 4 (split; [done|]). by apply envelope_inj.
Qed.

(** C39: a digest identifies what was hashed: it is the SHA-256 of the envelope's
    bytes, and the bytes of two envelopes are the same exactly when domain, version
    and JSON payload are the same, up to the order of object members and the
    difference of lists and tuples.  So equal digests of different values are two
    envelopes with one SHA-256. *)
Theorem digest_identifies domain1 payload1 version1 d1 domain2 payload2 version2 d2 :
  canonical_digest domain1 payload1 version1 = Ok d1 → canonical_digest domain2 payload2 version2 = Ok d2 →
  ∃ b1 b2, envelope_bytes domain1 payload1 version1 = Ok b1 ∧ envelope_bytes domain2 payload2 version2 = Ok b2 ∧
    d1 = sha256_hex b1 ∧ d2 = sha256_hex b2 ∧ (b1 = b2 ↔ domain1 = domain2 ∧ version1 = version2 ∧ json_equal payload1 payload2).
Proof. apply canonical_digest_envelopes. Qed.

Lemma mapM_perm {A B} (f : A → result B) l1 l2 k1 :
  l1 ≡ₚ l2 → mapM f l1 = Ok k1 → ∃ k2, mapM f l2 = Ok k2 ∧ k1 ≡ₚ k2.
Proof.
  setoid_rewrite mapM_Ok. intros Hp Hf. destruct (Permutation_Forall2 Hp Hf) as (k2 & Hk & Hf2). eauto.
Qed.

Lemma canonical_dict_keys rows k :
  canonical_value (py_dict rows) = Ok (JObject k) → k.*1 = rows.*1.
Proof.
  unfold py_dict. cbn [canonical_value]. destruct (mapM _ _) as [k'|] eqn:E; [|done]. intros [= <-]. apply mapM_Ok in E.
  apply Forall2_fmap_l in E. apply list_eq_Forall2, Forall2_fmap, Forall2_flip. eapply Forall2_impl; [exact E|].
  intros [k1 x] [k2 j]; cbn. destruct (canonical_value x); [by intros [= <- _] | done].
Qed.

(** The identity of an object does not depend on the order in which its
    members are listed. *)
Theorem digest_member_order domain rows1 rows2 version :
  NoDup rows1.*1 → rows1 ≡ₚ rows2 → is_canonical (py_dict rows1) = true →
  canonical_digest domain (py_dict rows1) version = canonical_digest domain (py_dict rows2) version.
Proof.
  intros Hnd Hp Hc. rewrite <- canonical_value_ok in Hc. apply is_ok_true in Hc as [j1 Hj1]. pose proof Hj1 as Hj1'.
  unfold py_dict in Hj1. cbn [canonical_value] in Hj1.
  destruct (mapM _ ((λ kv, (PStr kv.1, kv.2)) <$> rows1)) as [k1|] eqn:E1; [|done]. injection Hj1 as <-.
  eapply (mapM_perm _ _ ((λ kv, (PStr kv.1, kv.2)) <$> rows2)) in E1 as (k2 & E2 & Hk); [|by rewrite Hp].
  assert (canonical_value (py_dict rows2) = Ok (JObject k2)) as Hj2 by (unfold py_dict; cbn [canonical_value]; by rewrite E2).
  assert (json_dumps (JObject k1) = json_dumps (JObject k2)) as Hd.
  { rewrite !dumps_object. rewrite (sorted_by_perm_eq fst k1 k2); [done| |done]. by rewrite (canonical_dict_keys rows1). }
  unfold canonical_digest. do 2 (apply bind_cong; [done|]; intros _ _). apply bind_cong; [|done].
  unfold canonical_json_bytes. rewrite (canonical_envelope _ _ _ _ Hj1'), (canonical_envelope _ _ _ _ Hj2).
  destruct (canonical_value version) as [v|]; [|done]. cbn [result_map bind]. do 2 f_equal.
  cbn [json_dumps map] in Hd |- *. by rewrite Hd.
Qed.
End identity.
