(* ===== verification/Graph.v ===== *)
(** * The graph searches of src/optima/target_catalog.py

    Cycle detection by depth-first search ([_validate_relation_dag]), the
    worklist closure of a relation ([relation_closure]) and Kahn's topological
    order (the precedence check of [TargetCatalog.__init__] and
    [ordered_active_targets]), over an adjacency function, with what each of
    them computes: acyclicity, the transitive closure, and the order obtained
    by always taking the first node that waits for no other.

    Python iterates over a set in an unspecified order; the model takes the
    order of [elements].  The results are characterised exactly, so they do not
    depend on it. *)

From Stdlib Require Import ZArith Lia.
From stdpp Require Import base tactics numbers list strings gmap sorting relations.
From S2P Require Import Prelude.

Definition cycle_error : pyexn := Exn TargetCatalogError "graph contains a cycle".
Definition out_of_fuel : pyexn := Exn OutOfFuel "".

(** ** Definitions *)

Section search.
Context (related : string → result (gset string)).

(** [visit], over the sets [visiting] and [visited].  The depth of the recursion
    is at most the number of nodes, plus one call that finds the cycle. *)
Fixpoint visit (fuel : nat) (st : gset string * gset string) (target_id : string)
    : result (gset string * gset string) :=
  match fuel with
  | O => Raise out_of_fuel
  | S fuel =>
      if bool_decide (target_id ∈ st.1) then Raise cycle_error
      else if bool_decide (target_id ∈ st.2) then Ok st
      else
        let! children := related target_id in
        let! st' := foldM (visit fuel) (elements children) ({[target_id]} ∪ st.1, st.2) in
        Ok (st'.1 ∖ {[target_id]}, {[target_id]} ∪ st'.2)
  end.

Definition validate_relation_dag (nodes : list string) : result unit :=
  let! _ := foldM (visit (S (length nodes))) nodes (∅, ∅) in Ok tt.

(** The [while pending] loop; the stack's top is the head of the list. *)
Fixpoint closure_loop (fuel : nat) (found : gset string) (pending : list string) : result (gset string) :=
  match fuel with
  | O => Raise out_of_fuel
  | S fuel =>
      match pending with
      | [] => Ok found
      | current :: pending =>
          if bool_decide (current ∈ found) then closure_loop fuel found pending
          else
            let! next := related current in
            closure_loop fuel ({[current]} ∪ found) (reverse (elements next) ++ pending)
      end
  end.

Definition out_degree (node : string) : nat :=
  match related node with Ok s => size s | Raise _ => 0 end.

(** Every iteration pops one entry; each node's successors are pushed once. *)
Definition relation_closure (nodes : list string) (target_id : string) : result (gset string) :=
  let! first := related target_id in
  closure_loop (S (size first + sum_list_with out_degree nodes)) ∅ (reverse (elements first)).
End search.

(** *** Precedence graphs *)

Definition successors (outgoing : gmap string (gset string)) (node : string) : gset string :=
  default ∅ (outgoing !! node).

(** [if later not in outgoing[earlier]: outgoing[earlier].add(later); incoming[later] += 1] *)
Definition add_edge (g : gmap string (gset string) * gmap string Z) (e : string * string)
    : gmap string (gset string) * gmap string Z :=
  if bool_decide (e.2 ∈ successors g.1 e.1) then g
  else (<[e.1 := {[e.2]} ∪ successors g.1 e.1]> g.1, dict_add g.2 e.2 1).

Definition no_edges (nodes : list string) : gmap string (gset string) * gmap string Z :=
  (list_to_map ((λ n, (n, ∅)) <$> nodes), list_to_map ((λ n, (n, 0)) <$> nodes)).

(** The edges of [zip(precedence, precedence[1:])], for every precedence. *)
Definition precedence_edges (chains : list (list string)) : list (string * string) :=
  chains ≫= λ p, zip p (tail p).

Definition precedence_graph (nodes : list string) (chains : list (list string))
    : gmap string (gset string) * gmap string Z :=
  fold_left add_edge (precedence_edges chains) (no_edges nodes).

(** *** Kahn's algorithm

    [children] is the order in which the successors of a node are visited and
    [enqueue] how a released node joins the ready list, whose head is taken
    next: [ready.append] with [ready.pop()], and [ready.append] followed by
    [ready.sort()] with [ready.pop(0)]. *)

Section kahn.
Context (children : string → list string) (enqueue : list string → string → list string).

Definition release (st : list string * gmap string Z) (child : string) : list string * gmap string Z :=
  let count := dict_get st.2 child - 1 in
  (if count =? 0 then enqueue st.1 child else st.1, <[child := count]> st.2).

Fixpoint kahn_loop (fuel : nat) (ready : list string) (incoming : gmap string Z) (ordered : list string)
    : result (list string) :=
  match fuel with
  | O => Raise out_of_fuel
  | S fuel =>
      match ready with
      | [] => Ok ordered
      | current :: ready =>
          let st := fold_left release (children current) (ready, incoming) in
          kahn_loop fuel st.1 st.2 (ordered ++ [current])
      end
  end.
End kahn.

Definition roots (nodes : list string) (incoming : gmap string Z) : list string :=
  filter (λ n, dict_get incoming n = 0) nodes.

(** The visits of the constructor's check: a stack, successors in set order. *)
Definition precedence_visits (nodes : list string) (chains : list (list string)) : result (list string) :=
  let g := precedence_graph nodes chains in
  kahn_loop (λ n, elements (successors g.1 n)) (λ ready n, n :: ready)
    (S (length nodes)) (reverse (roots nodes g.2)) g.2 [].

(** The order of [ordered_active_targets]: smallest ready target first. *)
Definition precedence_order (nodes : list string) (chains : list (list string)) : result (list string) :=
  let g := precedence_graph nodes chains in
  kahn_loop (λ n, sorted_str (elements (successors g.1 n))) (λ ready n, sorted_str (ready ++ [n]))
    (S (length nodes)) (sorted_str (roots nodes g.2)) g.2 [].

(** *** Reference definitions *)

(** The edge relation of an adjacency function. *)
Definition edge (related : string → result (gset string)) (a b : string) : Prop :=
  ∃ s, related a = Ok s ∧ b ∈ s.

Definition acyclic (R : relation string) : Prop := ∀ a, ¬ tc R a a.

(** A node of [remaining] that no other node of [remaining] has to precede. *)
Definition unblocked (edges : list (string * string)) (remaining : list string) (n : string) : bool :=
  forallb (λ m, negb (bool_decide ((m, n) ∈ edges))) remaining.

(** Repeatedly the first unblocked node. *)
Fixpoint greedy_order (edges : list (string * string)) (steps : nat) (remaining : list string) : list string :=
  match steps with
  | O => []
  | S steps =>
      match List.find (unblocked edges remaining) remaining with
      | None => []
      | Some n => n :: greedy_order edges steps (filter (λ m, m ≠ n) remaining)
      end
  end.

(** Every predecessor of a listed node is listed before it. *)
Definition respects (R : relation string) (l : list string) : Prop :=
  ∀ l1 n l2 m, l = l1 ++ n :: l2 → R m n → m ∈ l1.

(** ** Depth-first search decides acyclicity *)

Lemma list_to_set_size_le (l : list string) : (size (list_to_set l : gset string) ≤ length l)%nat.
Proof.
  induction l as [|x l IH]; cbn [list_to_set length]; [by rewrite size_empty|].
  pose proof (size_union_alt {[x]} (list_to_set l : gset string)) as E. rewrite size_singleton in E.
  assert (size (list_to_set l ∖ {[x]} : gset string) ≤ size (list_to_set l : gset string))%nat
    by (apply subseteq_size; set_solver). lia.
Qed.

Section dfs.
Context (related : string → result (gset string)) (nodes : list string).
Context (Hclosed : ∀ n, n ∈ nodes → ∃ s, related n = Ok s ∧ ∀ m, m ∈ s → m ∈ nodes).
Abbreviation R := (edge related).
Abbreviation done_set st := (∀ v, v ∈ st.2 → sn R v).

Lemma edge_closed a b : a ∈ nodes → R a b → b ∈ nodes.
Proof. intros Ha (s & Hs & Hb). destruct (Hclosed a Ha) as (s' & Hs' & Hin). rewrite Hs in Hs'. injection Hs' as <-. by apply Hin. Qed.

Lemma visit_sound fuel st t st' :
  visit related fuel st t = Ok st' → done_set st →
  st'.1 = st.1 ∧ st.2 ⊆ st'.2 ∧ t ∈ st'.2 ∧ done_set st'.
Proof.
  revert st t st'. induction fuel as [|fuel IH]; intros st t st' Hv Hst; [done|]. cbn [visit] in Hv.
  case_bool_decide as Hvis; [done|]. case_bool_decide as Hdone; [by injection Hv as <-|].
  apply bind_Ok in Hv as (s & Hs & Hv). apply bind_Ok in Hv as (st1 & Hf & [= <-]).
  assert (∀ l acc, foldM (visit related fuel) l acc = Ok st1 → done_set acc →
    st1.1 = acc.1 ∧ acc.2 ⊆ st1.2 ∧ (∀ c, c ∈ l → c ∈ st1.2) ∧ done_set st1) as Hfold.
  { clear Hf Hs. intros l. induction l as [|c l IHl]; intros acc Hf Hacc; cbn in Hf.
    { injection Hf as ->. split_and!; [done..|by intros ? ?%elem_of_nil|done]. }
    apply bind_Ok in Hf as (acc1 & Hc & Hf). apply IH in Hc as (E1 & S1 & C1 & D1); [|done].
    apply IHl in Hf as (E2 & S2 & C2 & D2); [|done].
    split_and!; [congruence | by etrans | intros c' [->|?]%elem_of_cons; auto | done]. }
  apply Hfold in Hf as (E & S1 & C1 & D1); [|done]. cbn [fst snd] in *. rewrite E.
  split_and!; [set_solver..|]. intros v [->%elem_of_singleton|Hv]%elem_of_union; [|by apply D1].
  constructor. intros c (s' & Hs' & Hc). rewrite Hs in Hs'. injection Hs' as <-. apply D1, C1. by apply elem_of_elements.
Qed.

(** With enough fuel a visit ends, and only a cycle makes it fail. *)
Lemma visit_total fuel st t :
  t ∈ nodes → (∀ v, v ∈ st.1 → v ∈ nodes ∧ tc R v t) → done_set st →
  (size (list_to_set nodes : gset string) < fuel + size st.1)%nat →
  (∃ st', visit related fuel st t = Ok st') ∨
  (visit related fuel st t = Raise cycle_error ∧ ∃ v, tc R v v).
Proof.
  revert st t. induction fuel as [|fuel IH]; intros st t Ht Hst Hd Hfuel.
  { assert (size st.1 ≤ size (list_to_set nodes : gset string))%nat; [|lia].
    apply subseteq_size. intros v Hv. apply elem_of_list_to_set. by apply Hst. }
  cbn [visit]. case_bool_decide as Hvis; [right; split; [done|]; exists t; by apply Hst|].
  case_bool_decide as Hdone; [eauto|].
  destruct (Hclosed t Ht) as (s & Hs & Hin). rewrite Hs. cbn [bind].
  assert (∀ l acc, (∀ c, c ∈ l → c ∈ s) → acc.1 = {[t]} ∪ st.1 → done_set acc →
    (∃ acc', foldM (visit related fuel) l acc = Ok acc') ∨
    (foldM (visit related fuel) l acc = Raise cycle_error ∧ ∃ v, tc R v v)) as Hfold.
  { intros l. induction l as [|c l IHl]; intros acc Hl Hacc Hdacc; cbn; [eauto|].
    assert (R t c) as Hc by (exists s; split; [done | apply Hl; left]).
    destruct (IH acc c) as [[acc1 Hv]|[Hv Hcyc]].
    - apply Hin, Hl. left.
    - intros v Hv. rewrite Hacc in Hv. apply elem_of_union in Hv as [->%elem_of_singleton|Hv].
      + split; [done | by apply tc_once].
      + destruct (Hst v Hv) as [? Htc]. split; [done|]. eapply tc_r; done.
    - done.
    - rewrite Hacc, size_union by set_solver. rewrite size_singleton. lia.
    - rewrite Hv. cbn [bind]. apply visit_sound in Hv as (E & _ & _ & D); [|done].
      apply IHl; [set_solver | congruence | done].
    - right. rewrite Hv. done. }
  destruct (Hfold (elements s) ({[t]} ∪ st.1, st.2)) as [[acc' ->]|[-> Hcyc]]; [set_solver|done|done|..]; cbn [bind]; eauto.
Qed.

Lemma visits_total l st :
  (∀ n, n ∈ l → n ∈ nodes) → st.1 = ∅ → done_set st →
  (∃ st', foldM (visit related (S (length nodes))) l st = Ok st' ∧
     ∀ v, v ∈ l → sn R v) ∨
  (foldM (visit related (S (length nodes))) l st = Raise cycle_error ∧ ∃ v, tc R v v).
Proof.
  revert st. induction l as [|n l IH]; intros st Hl Hst Hd.
  { left. exists st. split; [done | by intros ? ?%elem_of_nil]. }
  rewrite foldM_cons. destruct (visit_total (S (length nodes)) st n) as [[st1 Hv]|[Hv Hcyc]].
  - apply Hl. left.
  - rewrite Hst. set_solver.
  - done.
  - rewrite Hst, size_empty. pose proof (list_to_set_size_le nodes). lia.
  - rewrite Hv. cbn [bind]. apply visit_sound in Hv as (E & _ & Hn & D); [|done].
    destruct (IH st1) as [(st' & Hf & Hsn)|Hc]; [set_solver|congruence|done|left|by right].
    exists st'. split; [done|]. intros v [->|Hv]%elem_of_cons; [by apply D | by apply Hsn].
  - right. by rewrite Hv.
Qed.

Lemma sn_no_cycle v : sn R v → ¬ tc R v v.
Proof.
  induction 1 as [v _ IH]. intros Hc. assert (∃ w, R v w ∧ tc R w w) as (w & Hw & Hcw); [|by apply (IH w)].
  inversion Hc as [?? Hvv|? w ? Hvw Hwv]; subst; [by eauto|]. exists w. split; [done|]. eapply tc_rtc_r, rtc_once; done.
Qed.

Context (Hdom : ∀ n s, related n = Ok s → n ∈ nodes).

(** The check returns exactly on acyclic graphs, and otherwise reports a cycle. *)
Lemma validate_relation_dag_spec :
  (validate_relation_dag related nodes = Ok tt ∧ acyclic R) ∨
  (validate_relation_dag related nodes = Raise cycle_error ∧ ¬ acyclic R).
Proof.
  unfold validate_relation_dag.
  destruct (visits_total nodes (∅, ∅)) as [(st & -> & Hsn)|[-> [v Hv]]]; [done|done|set_solver|left|right].
  - split; [done|]. intros a Ha. apply (sn_no_cycle a); [|done]. apply Hsn.
    inversion Ha as [?? (s & Hs & _)|??? (s & Hs & _)]; eauto.
  - split; [done|]. intros Hac. by apply (Hac v).
Qed.

(** ** The worklist computes the transitive closure *)

Definition unexplored (found : gset string) : nat :=
  sum_list_with (λ n, if bool_decide (n ∈ found) then 0%nat else out_degree related n) nodes.

Lemma unexplored_add found n :
  n ∈ nodes → n ∉ found → (unexplored ({[n]} ∪ found) + out_degree related n ≤ unexplored found)%nat.
Proof.
  unfold unexplored. clear Hclosed Hdom. intros Hn Hf.
  assert (∀ l, (sum_list_with (λ m, if bool_decide (m ∈ ({[n]} ∪ found : gset string)) then 0 else out_degree related m) l
    ≤ sum_list_with (λ m, if bool_decide (m ∈ found) then 0 else out_degree related m) l)%nat) as Hle.
  { induction l as [|m l IH]; cbn [sum_list_with]; [lia|].
    destruct (bool_decide (m ∈ found)) eqn:E; bool_prop; [rewrite bool_decide_eq_true_2 by set_solver; lia|].
    destruct (bool_decide (m ∈ {[n]} ∪ found)); lia. }
  induction nodes as [|m l IH]; [by apply elem_of_nil in Hn|]. cbn [sum_list_with].
  destruct (decide (m = n)) as [->|Hne].
  - rewrite (bool_decide_eq_true_2 (n ∈ {[n]} ∪ found)) by set_solver. rewrite (bool_decide_eq_false_2 (n ∈ found)) by done.
    specialize (Hle l). lia.
  - apply elem_of_cons in Hn as [->|Hn]; [done|]. specialize (IH Hn).
    assert (bool_decide (m ∈ {[n]} ∪ found) = bool_decide (m ∈ found)) as -> by (apply bool_decide_ext; set_solver). lia.
Qed.

Lemma unexplored_empty : unexplored ∅ = sum_list_with (out_degree related) nodes.
Proof.
  unfold unexplored. clear. induction nodes as [|n l IH]; [done|]. cbn [sum_list_with].
  rewrite bool_decide_eq_false_2 by apply not_elem_of_empty. by f_equal.
Qed.

Lemma closure_loop_spec fuel found pending t :
  (∀ x, x ∈ found ∨ x ∈ pending → tc R t x ∧ x ∈ nodes) →
  (∀ a x, a = t ∨ a ∈ found → R a x → x ∈ found ∨ x ∈ pending) →
  (length pending + unexplored found < fuel)%nat →
  ∃ s, closure_loop related fuel found pending = Ok s ∧ ∀ x, x ∈ s ↔ tc R t x.
Proof.
  revert found pending. induction fuel as [|fuel IH]; intros found pending Hreach Hnext Hfuel; [lia|].
  cbn [closure_loop]. destruct pending as [|c pending].
  { exists found. split; [done|]. intros x. split; [intros Hx; apply Hreach; by left|].
    revert x. apply tc_ind_r; [intros z Hz | intros y z _ Hyz Hy];
      edestruct Hnext as [Hf|Hp]; [by left|done|done|by apply elem_of_nil in Hp|by right|done|done|by apply elem_of_nil in Hp]. }
  case_bool_decide as Hc.
  { apply IH; [| |cbn in Hfuel; lia].
    - intros x [Hx|Hx]; apply Hreach; [by left | right; by right].
    - intros a x Ha Hax. destruct (Hnext a x Ha Hax) as [?|[->|?]%elem_of_cons]; auto. }
  destruct (Hreach c) as [Htc Hn]; [right; left|]. destruct (Hclosed c Hn) as (s & Hs & Hin). rewrite Hs. cbn [bind].
  assert (out_degree related c = length (elements s)) as Hdeg by (unfold out_degree; by rewrite Hs).
  pose proof (unexplored_add found c Hn Hc). apply IH.
  - intros x Hx. destruct (decide (x = c)) as [->|Hxc]; [done|].
    destruct (decide (x ∈ s)) as [Hxs|Hxs].
    + split; [|by apply Hin]. eapply tc_r; [done|]. by exists s.
    + apply Hreach. destruct Hx as [[->%elem_of_singleton|Hx]%elem_of_union|Hx]; [done|by left|]. apply elem_of_app in Hx as [Hx|Hx]; [|right; by right].
      apply elem_of_reverse, elem_of_elements in Hx. done.
  - intros a x Ha Hax. destruct (decide (x = c)) as [->|Hxc]; [left; apply elem_of_union; left; by apply elem_of_singleton|].
    destruct (decide (a = c)) as [->|Hac].
    + destruct Hax as (s' & Hs' & Hx). rewrite Hs in Hs'. injection Hs' as <-. right.
      apply elem_of_app. left. by apply elem_of_reverse, elem_of_elements.
    + assert (a = t ∨ a ∈ found) as Ha' by (destruct Ha as [|[->%elem_of_singleton|]%elem_of_union]; auto; done).
      destruct (Hnext a x Ha' Hax) as [?|[?|?]%elem_of_cons]; [left; apply elem_of_union; by right|done|].
      right. apply elem_of_app. by right.
  - rewrite length_app, length_reverse. cbn in Hfuel. lia.
Qed.

Lemma relation_closure_spec t :
  t ∈ nodes → ∃ s, relation_closure related nodes t = Ok s ∧ ∀ x, x ∈ s ↔ tc R t x.
Proof.
  intros Ht. unfold relation_closure. destruct (Hclosed t Ht) as (first & Hs & Hin). rewrite Hs. cbn [bind].
  apply closure_loop_spec.
  - intros x [Hx|Hx%elem_of_reverse%elem_of_elements]; [by apply elem_of_empty in Hx|]. split; [|by apply Hin]. apply tc_once. by exists first.
  - intros a x [->|Ha] Hax; [|by apply elem_of_empty in Ha]. destruct Hax as (s' & Hs' & Hx). rewrite Hs in Hs'. injection Hs' as <-. right.
    by apply elem_of_reverse, elem_of_elements.
  - rewrite length_reverse, unexplored_empty. change (size first) with (length (elements first)). lia.
Qed.
End dfs.

(** ** Kahn's algorithm *)

Lemma filter_ext_elem {A} (P Q : A → Prop) `{∀ x, Decision (P x), ∀ x, Decision (Q x)} (l : list A) :
  (∀ x, x ∈ l → P x ↔ Q x) → filter P l = filter Q l.
Proof.
  induction l as [|x l IH]; intros Hl; [done|]. rewrite !filter_cons, IH by (intros; apply Hl; by right).
  pose proof (Hl x ltac:(left)). destruct (decide (P x)); [by rewrite decide_True by tauto | by rewrite decide_False by tauto].
Qed.

Lemma filter_none {A} (P : A → Prop) `{∀ x, Decision (P x)} (l : list A) :
  (∀ x, x ∈ l → ¬ P x) → filter P l = [].
Proof.
  induction l as [|x l IH]; intros Hl; [done|]. rewrite filter_cons_False by (apply Hl; left).
  apply IH. intros y Hy. apply Hl. by right.
Qed.

Lemma filter_all {A} (P : A → Prop) `{∀ x, Decision (P x)} (l : list A) :
  (∀ x, x ∈ l → P x) → filter P l = l.
Proof.
  induction l as [|x l IH]; intros Hl; [done|]. rewrite filter_cons_True by (apply Hl; left).
  f_equal. apply IH. intros y Hy. apply Hl. by right.
Qed.

Lemma filter_length_add {A} `{EqDecision A} (P Q : A → Prop) `{∀ x, Decision (P x), ∀ x, Decision (Q x)} (l : list A) n :
  NoDup l → n ∈ l → P n → ¬ Q n → (∀ x, x ≠ n → P x ↔ Q x) →
  length (filter P l) = S (length (filter Q l)).
Proof.
  intros Hnd Hn HP HQ Heq. induction Hnd as [|x l Hx Hnd IH]; [by apply elem_of_nil in Hn|].
  rewrite !filter_cons. destruct (decide (x = n)) as [->|Hne].
  - rewrite decide_True, decide_False by done. cbn. do 2 f_equal. apply filter_ext_elem. intros y Hy. apply Heq. by intros ->.
  - apply elem_of_cons in Hn as [->|Hn]; [done|]. specialize (IH Hn). pose proof (Heq x Hne).
    destruct (decide (P x)); [rewrite decide_True by tauto|rewrite decide_False by tauto]; cbn; auto.
Qed.

Section kahn_facts.
Context (nodes : list string) (edges : list (string * string)).
Context (Hnd : NoDup nodes) (Hin : ∀ u v, (u, v) ∈ edges → u ∈ nodes ∧ v ∈ nodes).
Abbreviation E := (λ u v, (u, v) ∈ edges).

(** The predecessors of [v] that are not done yet. *)
Definition waiting (done : list string) (v : string) : nat :=
  length (filter (λ u, (u, v) ∈ edges ∧ u ∉ done) nodes).

Lemma waiting_0 done v : waiting done v = 0%nat ↔ ∀ u, (u, v) ∈ edges → u ∈ done.
Proof.
  unfold waiting. rewrite length_zero_iff_nil. split.
  - intros Hf u Hu. destruct (decide (u ∈ done)) as [|Hd]; [done|exfalso].
    eapply (filter_nil_not_elem_of _ _ u Hf); [done|]. by apply (Hin u v).
  - intros Hall. destruct (filter _ nodes) as [|u l] eqn:F; [done|exfalso].
    assert (u ∈ u :: l) as Hu by left. rewrite <- F in Hu. apply list_elem_of_filter in Hu as [[? Hn] _]. by apply Hn, Hall.
Qed.

Lemma waiting_snoc done n v :
  n ∈ nodes → n ∉ done →
  waiting done v = (waiting (done ++ [n]) v + if bool_decide ((n, v) ∈ edges) then 1 else 0)%nat.
Proof.
  intros Hn Hd. unfold waiting. case_bool_decide as He.
  - rewrite Nat.add_1_r. apply (filter_length_add _ _ _ n); [done|done|done| |].
    + intros [_ Hnn]. apply Hnn, elem_of_app. right. by apply list_elem_of_singleton.
    + intros x Hx. rewrite elem_of_app, list_elem_of_singleton. tauto.
  - rewrite Nat.add_0_r. f_equal. apply list_filter_iff. intros x.
    rewrite elem_of_app, list_elem_of_singleton. split; [intros [? ?]; split; [done|]; intros [?| ->]; done | tauto].
Qed.

(** What the loop maintains: the finished nodes in an order that respects the
    edges, and exactly the unfinished nodes without unfinished predecessors. *)
Record kahn_inv (done ready : list string) (incoming : gmap string Z) : Prop := {
  ki_nodup : NoDup (done ++ ready);
  ki_ready : ∀ v, v ∈ done ++ ready ↔ v ∈ nodes ∧ waiting done v = 0%nat;
  ki_count : ∀ v, v ∈ nodes → dict_get incoming v = Z.of_nat (waiting done v);
  ki_order : respects E done
}.

Context (children : string → list string) (enqueue : list string → string → list string).
Context (Hchildren : ∀ n v, v ∈ children n ↔ (n, v) ∈ edges) (Hchnd : ∀ n, NoDup (children n)).
Context (Henqueue : ∀ l n, enqueue l n ≡ₚ n :: l).

Lemma release_all cs ready incoming :
  NoDup cs →
  (∀ v, dict_get (fold_left (release enqueue) cs (ready, incoming)).2 v =
        dict_get incoming v - if bool_decide (v ∈ cs) then 1 else 0) ∧
  (fold_left (release enqueue) cs (ready, incoming)).1 ≡ₚ filter (λ c, dict_get incoming c = 1) cs ++ ready.
Proof.
  intros Hcs. revert ready incoming. induction Hcs as [|c cs Hc Hcs IH]; intros ready incoming; cbn [fold_left].
  { split; [|done]. intros v. rewrite bool_decide_eq_false_2 by apply not_elem_of_nil. cbn. lia. }
  unfold release at 2 4. cbn [fst snd]. edestruct IH as [H1 H2]. split.
  - intros v. rewrite H1, dict_get_insert. case_decide as Hv.
    + subst. rewrite (bool_decide_eq_false_2 (v ∈ cs)), (bool_decide_eq_true_2 (v ∈ v :: cs)) by (done || left). lia.
    + assert (bool_decide (v ∈ c :: cs) = bool_decide (v ∈ cs)) as ->; [|done].
      apply bool_decide_ext. rewrite elem_of_cons. naive_solver.
  - rewrite H2. clear H1 H2. rewrite (filter_cons _ c cs).
    assert (filter (λ c', dict_get (<[c := dict_get incoming c - 1]> incoming) c' = 1) cs = filter (λ c', dict_get incoming c' = 1) cs) as ->.
    { apply filter_ext_elem. intros x Hx. rewrite dict_get_insert. case_decide; [by subst|done]. }
    destruct (decide (dict_get incoming c = 1)) as [Hone|Hone].
    + rewrite (proj2 (Z.eqb_eq _ _)) by lia. rewrite Henqueue. by rewrite <- Permutation_middle.
    + by rewrite (proj2 (Z.eqb_neq _ _)) by lia.
Qed.

Lemma kahn_step done n ready incoming :
  kahn_inv done (n :: ready) incoming →
  let st := fold_left (release enqueue) (children n) (ready, incoming) in kahn_inv (done ++ [n]) st.1 st.2.
Proof.
  intros [Hnd' Hready Hcount Hord] st. destruct (release_all (children n) ready incoming (Hchnd n)) as [Hinc Hst].
  fold st in Hinc, Hst. assert (n ∈ nodes ∧ waiting done n = 0%nat) as [Hn Hn0].
  { apply Hready, elem_of_app. right. left. }
  assert (n ∉ done) as Hnd1 by (apply NoDup_app in Hnd' as (_ & Hdisj & _); intros Hd; apply (Hdisj n Hd); left).
  assert (∀ v, v ∈ (done ++ [n]) ++ st.1 ↔ v ∈ done ++ n :: ready ∨ v ∈ filter (λ c, dict_get incoming c = 1) (children n)) as Hmem.
  { intros v. rewrite Hst. rewrite !elem_of_app, list_elem_of_singleton, elem_of_cons. tauto. }
  assert (∀ v, v ∈ filter (λ c, dict_get incoming c = 1) (children n) ↔ (n, v) ∈ edges ∧ waiting done v = 1%nat) as Hnew.
  { intros v. rewrite list_elem_of_filter, Hchildren. split; intros [Ha Hb]; (split; [|]); try done.
    - apply Hin in Hb as [_ Hv]. rewrite Hcount in Ha by done. lia.
    - apply Hin in Ha as [_ Hv]. rewrite Hcount by done. lia. }
  split.
  - rewrite Hst. rewrite (Permutation_app_comm (filter _ _)), app_assoc, <- (app_assoc done). cbn [app].
    apply NoDup_app. split_and!; [done| |by apply NoDup_filter].
    intros v Hv Hf. apply Hready in Hv as [_ Hv]. apply Hnew in Hf as [_ Hf]. lia.
  - intros v. rewrite Hmem, Hready, Hnew. pose proof (waiting_snoc done n v Hn Hnd1) as Hw. case_bool_decide as He.
    + apply Hin in He as Hv. destruct Hv as [_ Hv]. split; [intros [[? ?]|[? ?]]; split; [done|lia|done|lia]|].
      intros [_ H0]. right. split; [done | lia].
    + split; [intros [[? ?]|[? _]]; [split; [done|lia]|done]|]. intros [Hv H0]. left. split; [done | lia].
  - intros v Hv. rewrite Hinc, Hcount by done. pose proof (waiting_snoc done n v Hn Hnd1) as Hw.
    assert (bool_decide (v ∈ children n) = bool_decide ((n, v) ∈ edges)) as -> by (apply bool_decide_ext, Hchildren).
    case_bool_decide; lia.
  - intros l1 x l2 m Hl Hm. destruct l2 as [|y l2 _] using rev_ind.
    + apply app_inj_tail in Hl as [-> ->]. by apply (proj1 (waiting_0 l1 x) Hn0).
    + rewrite app_comm_cons, app_assoc in Hl. apply app_inj_tail in Hl as [-> ->]. by apply (Hord l1 x l2).
Qed.

Lemma kahn_inv_length done ready incoming :
  kahn_inv done ready incoming → (length done + length ready ≤ length nodes)%nat.
Proof.
  intros [Hnd' Hready _ _]. rewrite <- length_app. apply submseteq_length, NoDup_submseteq; [done|].
  intros v Hv. by apply Hready.
Qed.

Lemma kahn_loop_inv fuel done ready incoming :
  kahn_inv done ready incoming → (length nodes < fuel + length done)%nat →
  ∃ ordered incoming', kahn_loop children enqueue fuel ready incoming done = Ok ordered ∧ kahn_inv ordered [] incoming'.
Proof.
  revert done ready incoming. induction fuel as [|fuel IH]; intros done ready incoming Hinv Hfuel.
  { apply kahn_inv_length in Hinv. lia. }
  cbn [kahn_loop]. destruct ready as [|n ready]; [by eauto|]. apply IH; [by apply kahn_step|].
  rewrite length_app. cbn. lia.
Qed.

(** [respects] is transitive: so is the position of every ancestor. *)
Lemma respects_tc l a b l1 l2 : respects E l → tc E a b → l = l1 ++ b :: l2 → a ∈ l1.
Proof.
  intros Hl Hab. revert l1 l2. induction Hab as [a b He|a c b He Hcb IH]; intros l1 l2 Heq; [by eapply Hl|].
  specialize (IH l1 l2 Heq). apply list_elem_of_split in IH as (k1 & k2 & ->).
  apply elem_of_app. left. eapply (Hl k1 c); [|done]. by rewrite <- app_assoc in Heq.
Qed.

Lemma tc_flip {A} (R : relation A) a b : tc (flip R) a b → tc R b a.
Proof. induction 1 as [|? ? ? ? ? IH]; [by apply tc_once|]. by eapply tc_r. Qed.

Lemma kahn_complete ordered incoming :
  kahn_inv ordered [] incoming → (ordered ≡ₚ nodes ∧ acyclic E) ∨ (length ordered < length nodes ∧ ¬ acyclic E)%nat.
Proof.
  intros Hinv. pose proof (kahn_inv_length _ _ _ Hinv) as Hlen. destruct Hinv as [Hnd' Hready _ Hord].
  rewrite app_nil_r in *. cbn in Hlen.
  destruct (decide (Forall (λ v, v ∈ ordered) nodes)) as [Hall|Hall]; rewrite Forall_forall in Hall.
  - left. assert (ordered ≡ₚ nodes) as Hp.
    { apply NoDup_Permutation; [done..|]. intros v. split; [|by apply Hall]. intros Hv. by apply Hready. }
    split; [done|]. intros a Ha. assert (a ∈ ordered) as Hao.
    { rewrite Hp. inversion Ha as [?? He|??? He]; subst; by apply Hin in He as [? _]. }
    apply list_elem_of_split in Hao as (l1 & l2 & ->). pose proof (respects_tc _ a a l1 l2 Hord Ha eq_refl) as Hl1.
    apply NoDup_app in Hnd' as (_ & Hdisj & _). apply (Hdisj a Hl1). left.
  - right. split.
    { assert (ordered ⊆+ nodes) as Hsub by (apply NoDup_submseteq; [done|]; intros v Hv; by apply Hready).
      destruct (decide (length ordered = length nodes)) as [Heq|]; [exfalso|lia]. apply Hall. intros v Hv.
      apply submseteq_length_Permutation in Hsub; [by rewrite Hsub|lia]. }
    intros Hac. apply Hall. clear Hall.
    assert (∀ v, sn (flip E) v) as Hsn.
    { intros v. apply tc_finite_sn.
      - intros x Hx. by apply (Hac x), tc_flip.
      - exists nodes. intros x Hx%tc_flip. inversion Hx as [?? He|??? He]; subst; by apply Hin in He as [? _]. }
    intros v. induction (Hsn v) as [v _ IH]. intros Hv. apply Hready. split; [done|]. apply waiting_0.
    intros u Hu. apply IH; [done|]. by apply Hin in Hu as [? _].
Qed.

(** *** The smallest ready node first is the greedy order *)

Lemma unblocked_waiting done v :
  unblocked edges (filter (λ u, u ∉ done) nodes) v = true ↔ waiting done v = 0%nat.
Proof.
  unfold unblocked. rewrite waiting_0, forallb_forall. split.
  - intros Hall u Hu. destruct (decide (u ∈ done)) as [|Hd]; [done|exfalso].
    specialize (Hall u). rewrite <- list_elem_of_In, list_elem_of_filter in Hall.
    rewrite bool_decide_eq_true_2 in Hall by done. by specialize (Hall (conj Hd (proj1 (Hin u v Hu)))).
  - intros Hall u Hu%list_elem_of_In. apply list_elem_of_filter in Hu as [Hd _].
    rewrite bool_decide_eq_false_2; [done|]. intros He. by apply Hd, Hall.
Qed.

Lemma find_head_filter {A} (p : A → bool) `{∀ x, Decision (p x = true)} l :
  List.find p l = head (filter (λ x, p x = true) l).
Proof.
  induction l as [|x l IH]; [done|]. cbn [List.find]. destruct (p x) eqn:Hp.
  - by rewrite filter_cons_True.
  - by rewrite filter_cons_False by congruence.
Qed.

Context (Hsorted : StronglySorted (key_le id) nodes).
Context (Hkeep : ∀ l n, StronglySorted (key_le id) l → StronglySorted (key_le id) (enqueue l n)).

Lemma release_sorted cs st :
  StronglySorted (key_le id) st.1 → StronglySorted (key_le id) (fold_left (release enqueue) cs st).1.
Proof.
  revert st. induction cs as [|c cs IH]; intros st Hst; [done|]. cbn [fold_left]. apply IH. unfold release.
  cbn [fst]. destruct (_ =? _); [by apply Hkeep | done].
Qed.

Lemma ready_is_unblocked done ready incoming :
  kahn_inv done ready incoming → StronglySorted (key_le id) ready →
  ready = filter (λ v, unblocked edges (filter (λ u, u ∉ done) nodes) v = true) (filter (λ u, u ∉ done) nodes).
Proof.
  intros [Hnd' Hready _ _] Hs. apply NoDup_app in Hnd' as (_ & Hdisj & Hr).
  rewrite <- (sorted_by_id id ready); [|by rewrite list_fmap_id|done]. apply sorted_by_unique.
  - by rewrite list_fmap_id.
  - eapply StronglySorted_sublist; [|exact Hsorted]. etrans; apply sublist_filter.
  - apply NoDup_Permutation; [by do 2 apply NoDup_filter|done|]. intros v.
    rewrite !list_elem_of_filter, unblocked_waiting. pose proof (Hready v) as Hv. rewrite elem_of_app in Hv.
    split; [naive_solver|]. intros Hvr. split_and!; [tauto| |tauto]. intros Hd. by apply (Hdisj v).
Qed.

Lemma kahn_loop_greedy fuel done ready incoming steps :
  kahn_inv done ready incoming → StronglySorted (key_le id) ready → (length nodes < fuel + length done)%nat →
  (length (filter (λ u, u ∉ done) nodes) ≤ steps)%nat →
  kahn_loop children enqueue fuel ready incoming done =
    Ok (done ++ greedy_order edges steps (filter (λ u, u ∉ done) nodes)).
Proof.
  revert done ready incoming steps. induction fuel as [|fuel IH]; intros done ready incoming steps Hinv Hs Hfuel Hsteps.
  { apply kahn_inv_length in Hinv. lia. }
  pose proof (ready_is_unblocked _ _ _ Hinv Hs) as Hr.
  assert (List.find (unblocked edges (filter (λ u, u ∉ done) nodes)) (filter (λ u, u ∉ done) nodes) = head ready) as Hfind.
  { rewrite Hr. apply find_head_filter. }
  cbn [kahn_loop]. destruct ready as [|n ready].
  { destruct steps; cbn [greedy_order]; [by rewrite app_nil_r|]. rewrite Hfind. by rewrite app_nil_r. }
  assert (n ∈ filter (λ u, u ∉ done) nodes) as Hn.
  { apply list_elem_of_In. exact (proj1 (List.find_some _ _ Hfind)). }
  destruct steps as [|steps]; [destruct (filter _ nodes); [by apply elem_of_nil in Hn | cbn in Hsteps; lia]|].
  assert (filter (λ u, u ∉ done ++ [n]) nodes = filter (λ m, m ≠ n) (filter (λ u, u ∉ done) nodes)) as Hrem.
  { rewrite list_filter_filter. apply list_filter_iff. intros x. rewrite elem_of_app, list_elem_of_singleton. tauto. }
  rewrite (IH _ _ _ steps).
  - cbn [greedy_order]. rewrite Hfind. cbn [head]. rewrite <- app_assoc. cbn [app]. by rewrite Hrem.
  - by apply kahn_step.
  - apply release_sorted. cbn [fst]. by apply StronglySorted_cons in Hs as [_ ?].
  - rewrite length_app. cbn. lia.
  - rewrite Hrem. apply list_elem_of_filter in Hn as [Hnd1 Hn].
    rewrite (filter_length_add _ (λ m, m ≠ n ∧ m ∉ done) nodes n) in Hsteps; [|done|done|done|tauto|tauto].
    rewrite list_filter_filter. lia.
Qed.
End kahn_facts.

(** ** The precedence graph and its two traversals *)

Section precedence.
Context (nodes : list string) (chains : list (list string)).
Abbreviation edges := (precedence_edges chains).
Abbreviation E := (λ u v, (u, v) ∈ edges).
Context (Hnd : NoDup nodes) (Hin : ∀ u v, (u, v) ∈ edges → u ∈ nodes ∧ v ∈ nodes).

Lemma successors_insert (m : gmap string (gset string)) u s v :
  successors (<[u := s]> m) v = if decide (u = v) then s else successors m v.
Proof. unfold successors. rewrite lookup_insert. by case_decide. Qed.

Lemma no_edges_empty u v : (v ∉ successors (no_edges nodes).1 u) ∧ dict_get (no_edges nodes).2 v = 0.
Proof.
  unfold no_edges, successors, dict_get; cbn [fst snd]. split.
  - destruct (list_to_map _ !! u) as [s|] eqn:Hl; [|cbn; apply not_elem_of_empty].
    apply elem_of_list_to_map_2, list_elem_of_fmap in Hl as (? & [= -> ->] & _). cbn. apply not_elem_of_empty.
  - destruct (list_to_map _ !! v) as [z|] eqn:Hl; [|done].
    apply elem_of_list_to_map_2, list_elem_of_fmap in Hl as (? & [= -> ->] & _). done.
Qed.

(** After any number of edges: the successors, and the number of predecessors. *)
Lemma add_edges_spec es :
  (∀ u v, (u, v) ∈ es → u ∈ nodes) →
  let g := fold_left add_edge es (no_edges nodes) in
  (∀ u v, v ∈ successors g.1 u ↔ (u, v) ∈ es) ∧
  (∀ v, dict_get (g.2) v = Z.of_nat (length (filter (λ u, (u, v) ∈ es) nodes))).
Proof.
  induction es as [|[a b] es IH] using rev_ind; intros Hes; cbn zeta.
  { cbn [fold_left]. split.
    - intros u v. pose proof (no_edges_empty u v). rewrite elem_of_nil. tauto.
    - intros v. destruct (no_edges_empty v v) as [_ ->]. by rewrite filter_none by (intros; apply not_elem_of_nil). }
  rewrite fold_left_app. cbn [fold_left]. destruct IH as [Hs Hc]; [intros u v ?; apply (Hes u v), elem_of_app; by left|].
  set (g := fold_left add_edge es (no_edges nodes)) in *. unfold add_edge. cbn [fst snd].
  assert (∀ u v, (u, v) ∈ es ++ [(a, b)] ↔ (u, v) ∈ es ∨ (u = a ∧ v = b)) as Hsnoc.
  { intros u v. rewrite elem_of_app, list_elem_of_singleton. naive_solver. }
  case_bool_decide as Hab.
  - apply Hs in Hab. assert (∀ u v, (u, v) ∈ es ++ [(a, b)] ↔ (u, v) ∈ es) as Hsame.
    { intros u v. rewrite Hsnoc. naive_solver. }
    split; [intros u v; by rewrite Hsame|]. intros v. rewrite Hc. do 2 f_equal. apply list_filter_iff. intros u. by rewrite Hsame.
  - cbn [fst snd]. rewrite Hs in Hab. split.
    + intros u v. rewrite successors_insert, Hsnoc. case_decide as Hu.
      * subst. rewrite elem_of_union, elem_of_singleton, Hs. naive_solver.
      * rewrite Hs. naive_solver.
    + intros v. rewrite dict_get_add, Hc. case_decide as Hv.
      * subst v. rewrite (filter_length_add (λ u, (u, b) ∈ es ++ [(a, b)]) (λ u, (u, b) ∈ es) nodes a); [lia|done| |..].
        -- apply (Hes a b), elem_of_app. right. by apply list_elem_of_singleton.
        -- apply Hsnoc. by right.
        -- done.
        -- intros x Hx. rewrite Hsnoc. naive_solver.
      * rewrite Z.add_0_r. do 2 f_equal. apply list_filter_iff. intros u. rewrite Hsnoc. naive_solver.
Qed.

Lemma precedence_graph_spec :
  (∀ u v, v ∈ successors (precedence_graph nodes chains).1 u ↔ (u, v) ∈ edges) ∧
  (∀ v, dict_get (precedence_graph nodes chains).2 v = Z.of_nat (waiting nodes edges [] v)).
Proof.
  destruct (add_edges_spec edges) as [Hs Hc]; [intros u v ?; by apply (Hin u v)|]. split; [done|].
  intros v. unfold precedence_graph. rewrite Hc. unfold waiting. do 2 f_equal. apply list_filter_iff.
  intros u. pose proof (not_elem_of_nil u). tauto.
Qed.

Lemma kahn_start ready :
  ready ≡ₚ roots nodes (precedence_graph nodes chains).2 →
  kahn_inv nodes edges [] ready (precedence_graph nodes chains).2.
Proof.
  intros Hr. destruct precedence_graph_spec as [_ Hc]. split.
  - cbn [app]. rewrite Hr. by apply NoDup_filter.
  - intros v. cbn [app]. rewrite Hr. unfold roots. rewrite list_elem_of_filter, Hc. intuition lia.
  - done.
  - intros l1 n l2 m Hl. by destruct l1.
Qed.

(** Both traversals end.  They order every node exactly when the precedence has
    no cycle; the order of the query is then the greedy one. *)
Lemma precedence_visits_spec :
  ∃ visited, precedence_visits nodes chains = Ok visited ∧
    ((visited ≡ₚ nodes ∧ acyclic E) ∨ (length visited < length nodes ∧ ¬ acyclic E)%nat).
Proof.
  destruct precedence_graph_spec as [Hs _].
  set (children := λ n, elements (successors (precedence_graph nodes chains).1 n)).
  assert (∀ n v, v ∈ children n ↔ (n, v) ∈ edges) as H1 by (intros n v; unfold children; rewrite elem_of_elements; apply Hs).
  assert (kahn_inv nodes edges [] (reverse (roots nodes (precedence_graph nodes chains).2)) (precedence_graph nodes chains).2)
    as Hinv by (apply kahn_start; by rewrite reverse_Permutation).
  destruct (kahn_loop_inv nodes edges Hnd Hin children (λ ready n, n :: ready) H1 (λ n, NoDup_elements _) (λ _ _, reflexivity _)
    (S (length nodes)) [] _ _ Hinv) as (visited & inc & Hk & Hf); [cbn; lia|].
  exists visited. split; [exact Hk|]. by eapply kahn_complete.
Qed.

Context (Hsorted : StronglySorted (key_le id) nodes).

Lemma precedence_order_spec :
  precedence_order nodes chains = Ok (greedy_order edges (length nodes) nodes) ∧
  ((greedy_order edges (length nodes) nodes ≡ₚ nodes ∧ acyclic E) ∨
   (length (greedy_order edges (length nodes) nodes) < length nodes ∧ ¬ acyclic E)%nat) ∧
  respects E (greedy_order edges (length nodes) nodes).
Proof.
  destruct precedence_graph_spec as [Hs _].
  set (children := λ n, sorted_str (elements (successors (precedence_graph nodes chains).1 n))).
  set (enqueue := λ ready n, sorted_str (ready ++ [n])).
  assert (∀ n v, v ∈ children n ↔ (n, v) ∈ edges) as H1.
  { intros n v. unfold children, sorted_str. rewrite sorted_by_perm, elem_of_elements. apply Hs. }
  assert (∀ n, NoDup (children n)) as H2.
  { intros n. unfold children, sorted_str. rewrite sorted_by_perm. apply NoDup_elements. }
  assert (∀ l n, enqueue l n ≡ₚ n :: l) as H3.
  { intros l n. unfold enqueue, sorted_str. rewrite sorted_by_perm. by rewrite Permutation_app_comm. }
  assert (filter (λ u, u ∉ []) nodes = nodes) as Hall.
  { apply filter_all. intros. apply not_elem_of_nil. }
  assert (kahn_inv nodes edges [] (sorted_str (roots nodes (precedence_graph nodes chains).2)) (precedence_graph nodes chains).2)
    as Hinv by apply kahn_start, sorted_by_perm.
  pose proof (kahn_loop_greedy nodes edges Hnd Hin children enqueue H1 H2 H3 Hsorted
    (λ l n _, sorted_by_sorted id (l ++ [n])) (S (length nodes)) [] _ _ (length nodes) Hinv
    (sorted_by_sorted id _)) as Hg. cbn [length app] in Hg. rewrite Hall in Hg.
  destruct (kahn_loop_inv nodes edges Hnd Hin children enqueue H1 H2 H3 (S (length nodes)) [] _ _ Hinv) as (o & inc & Ho & Hf);
    [cbn; lia|].
  assert (o = greedy_order edges (length nodes) nodes) as ->.
  { enough (Ok o = Ok (greedy_order edges (length nodes) nodes)) as Heq by congruence.
    rewrite <- Ho. apply Hg; lia. }
  split_and!; [exact Ho | by eapply kahn_complete | by destruct Hf].
Qed.
End precedence.
