(* ===== verification/Provider.v ===== *)
(** * Artifact providers (src/optima/artifact_provider.py)

    The closed registry of executable artifact providers: the descriptor with
    the checks of its [__post_init__], the registry's construction, its queries
    and the one registered provider.  Descriptors are literals of the validator's
    own code; their [isinstance] checks are the types of the model. *)

From Stdlib Require Import ZArith Lia Ascii.
From stdpp Require Import base tactics numbers list strings gmap sorting.
From S2P Require Import Prelude PyValue Sha256 Identity Strict.

Definition provider_error (msg : string) : pyexn := Exn ArtifactProviderPolicyError msg.

(** ** Grammars *)

Definition is_alnum_lower (c : ascii) : bool :=
  let n := code c in ((97 <=? n) && (n <=? 122)) || ((48 <=? n) && (n <=? 57)).

(** [\[head\]\[tail\]{0,max}] *)
Definition head_tail_matches (head tail : ascii → bool) (max : nat) (s : string) : bool :=
  match s with
  | EmptyString => false
  | String c s => head c && forallb tail (chars s) && (String.length s <=? max)%nat
  end.

(** [_PROVIDER_ID = [a-z0-9][a-z0-9._-]{0,127}\Z] *)
Definition provider_id_matches (s : string) : bool :=
  head_tail_matches is_alnum_lower
    (λ c, is_alnum_lower c || (code c =? 46) || (code c =? 95) || (code c =? 45)) 127 s.

(** [_POLICY_ID = [a-z0-9][a-z0-9._:-]{0,191}\Z] *)
Definition policy_id_matches (s : string) : bool :=
  head_tail_matches is_alnum_lower
    (λ c, is_alnum_lower c || (code c =? 46) || (code c =? 95) || (code c =? 58) || (code c =? 45)) 191 s.

(** [_PROFILE_INPUT]: segments of a letter [a-z] and then [a-z0-9_], separated by
    dots; [start] says that a segment is to begin. *)
Fixpoint profile_input_from (start : bool) (l : list ascii) : bool :=
  match l with
  | [] => negb start
  | c :: l =>
      let n := code c in
      let letter := (97 <=? n) && (n <=? 122) in
      if start then letter && profile_input_from false l
      else if n =? 46 then profile_input_from true l
      else (is_alnum_lower c || (n =? 95)) && profile_input_from false l
  end.

Definition profile_input_matches (s : string) : bool := profile_input_from true (chars s).

(** [text.startswith(prefix)], for a prefix without special cases. *)
Definition starts_with (pre s : string) : bool := String.prefix pre s.

(** ** Descriptors *)

Inductive ArtifactKind := CUDA_CUBIN.
Inductive ArtifactBindingABI := CUDA_DRIVER_PARAMS_V1.
Inductive ArtifactBuildPhase := OCI_PREBUILD_ONLY.
Inductive ArtifactLoadPhase := ISOLATED_ENGINE_WORKER_ONLY.

Definition ArtifactKind_value (k : ArtifactKind) : string := match k with CUDA_CUBIN => "cuda_cubin" end.
Definition ArtifactBindingABI_value (b : ArtifactBindingABI) : string :=
  match b with CUDA_DRIVER_PARAMS_V1 => "cuda_driver_params.v1" end.
Definition ArtifactBuildPhase_value (p : ArtifactBuildPhase) : string :=
  match p with OCI_PREBUILD_ONLY => "oci_prebuild_only" end.
Definition ArtifactLoadPhase_value (p : ArtifactLoadPhase) : string :=
  match p with ISOLATED_ENGINE_WORKER_ONLY => "isolated_engine_worker_only" end.

Record ArtifactProviderDescriptor := {
  ad_provider_id : string;
  ad_artifact_kind : ArtifactKind;
  ad_binding_abi : ArtifactBindingABI;
  ad_authoritative : bool;
  ad_crownable : bool;
  ad_build_phase : ArtifactBuildPhase;
  ad_load_phase : ArtifactLoadPhase;
  ad_build_patcher_id : string;
  ad_rebuild_feature : string;
  ad_required_target_features : gset string;
  ad_provider_capabilities : gset string;
  ad_requires_compile_profile : bool;
  ad_compile_profile_inputs : gset string;
  ad_publication_directory : string;
  ad_supports_static_slots : bool
}.

Definition ArtifactProviderDescriptor_manifest_feature (d : ArtifactProviderDescriptor) : string :=
  "aot:" +:+ ad_provider_id d.

Definition ArtifactProviderDescriptor_bringup_only (d : ArtifactProviderDescriptor) : bool :=
  negb (ad_authoritative d).

(** [binding_abi not in compatible_bindings[artifact_kind]] *)
Definition compatible_binding (k : ArtifactKind) (b : ArtifactBindingABI) : bool :=
  match k, b with CUDA_CUBIN, CUDA_DRIVER_PARAMS_V1 => true end.

Definition all_match (p : string → bool) (s : gset string) : bool := forallb p (elements s).

Definition ArtifactProviderDescriptor_init (d : ArtifactProviderDescriptor) : result ArtifactProviderDescriptor :=
  do! raise_if (negb (provider_id_matches (ad_provider_id d))) (provider_error "artifact provider ID is not canonical") ;;
  do! raise_if (negb (compatible_binding (ad_artifact_kind d) (ad_binding_abi d)))
        (provider_error "artifact binding ABI is incompatible with its artifact kind") ;;
  do! raise_if (ad_crownable d && negb (ad_authoritative d))
        (provider_error "a crownable artifact provider must be authoritative") ;;
  do! raise_if (negb (policy_id_matches (ad_build_patcher_id d))) (provider_error "artifact build patcher ID is malformed") ;;
  do! raise_if (negb (starts_with "rebuild:" (ad_rebuild_feature d)) || negb (policy_id_matches (ad_rebuild_feature d)))
        (provider_error "artifact rebuild feature is malformed") ;;
  do! raise_if (negb (all_match policy_id_matches (ad_required_target_features d)))
        (provider_error "artifact required target features are malformed") ;;
  do! raise_if (negb (bool_decide ({[ArtifactProviderDescriptor_manifest_feature d; ad_rebuild_feature d]}
                                   ⊆ ad_required_target_features d)))
        (provider_error "artifact target features omit provider or rebuild authority") ;;
  do! raise_if (negb (all_match policy_id_matches (ad_provider_capabilities d)))
        (provider_error "artifact provider capabilities are malformed") ;;
  do! raise_if (negb (all_match profile_input_matches (ad_compile_profile_inputs d)))
        (provider_error "artifact compile-profile inputs are malformed") ;;
  do! raise_if (negb (bool_decide (ad_compile_profile_inputs d = ∅)) && negb (ad_requires_compile_profile d))
        (provider_error "artifact profile inputs require compile-profile authority") ;;
  let directory := ad_publication_directory d in
  do! raise_if (bool_decide (directory = "") || has_char "/" directory || bool_decide (directory ∈ ["."; ".."])
                || negb (provider_id_matches directory))
        (provider_error "artifact publication directory is not canonical") ;;
  Ok d.

Definition sorted_set (s : gset string) : list string := sorted_str (elements s).

Definition ArtifactProviderDescriptor_snapshot (d : ArtifactProviderDescriptor) : pyval :=
  py_dict [
    ("artifact_kind", PStr (ArtifactKind_value (ad_artifact_kind d)));
    ("authoritative", PBool (ad_authoritative d));
    ("binding_abi", PStr (ArtifactBindingABI_value (ad_binding_abi d)));
    ("build_patcher_id", PStr (ad_build_patcher_id d));
    ("build_phase", PStr (ArtifactBuildPhase_value (ad_build_phase d)));
    ("compile_profile_inputs", py_strs (sorted_set (ad_compile_profile_inputs d)));
    ("crownable", PBool (ad_crownable d));
    ("load_phase", PStr (ArtifactLoadPhase_value (ad_load_phase d)));
    ("provider_capabilities", py_strs (sorted_set (ad_provider_capabilities d)));
    ("provider_id", PStr (ad_provider_id d));
    ("publication_directory", PStr (ad_publication_directory d));
    ("rebuild_feature", PStr (ad_rebuild_feature d));
    ("required_target_features", py_strs (sorted_set (ad_required_target_features d)));
    ("requires_compile_profile", PBool (ad_requires_compile_profile d));
    ("supports_static_slots", PBool (ad_supports_static_slots d))].

(** ** The registry *)

(** [d.setdefault(key, value)] on a dict kept as rows: the value found, and the
    dict afterwards. *)
Definition setdefault {A} (rows : list (string * A)) (key : string) (x : A) : A * list (string * A) :=
  match assoc rows key with Some y => (y, rows) | None => (x, rows ++ [(key, x)]) end.

(** [d.setdefault(key, set()).add(x)] *)
Fixpoint add_member (rows : list (string * gset string)) (key x : string) : list (string * gset string) :=
  match rows with
  | [] => [(key, {[x]})]
  | (k, s) :: rows => if bool_decide (k = key) then (k, {[x]} ∪ s) :: rows else (k, s) :: add_member rows key x
  end.

(** The dictionaries that the constructor's loop fills. *)
Record registry_tables := {
  rt_by_id : list (string * ArtifactProviderDescriptor);
  rt_patcher_features : list (string * string);
  rt_rebuild_features : list (string * gset string);
  rt_publication_directories : list (string * string)
}.

Definition register_descriptor (t : registry_tables) (d : ArtifactProviderDescriptor) : result registry_tables :=
  do! raise_if (bool_decide (ad_provider_id d ∈ (rt_by_id t).*1)) (provider_error "duplicate artifact provider") ;;
  let '(prior, patcher_features) := setdefault (rt_patcher_features t) (ad_build_patcher_id d) (ad_rebuild_feature d) in
  do! raise_if (negb (bool_decide (prior = ad_rebuild_feature d)))
        (provider_error "one artifact patcher cannot imply multiple rebuild features") ;;
  let rebuild_features := add_member (rt_rebuild_features t) (ad_rebuild_feature d) (ad_provider_id d) in
  let '(prior_provider, publication_directories) :=
    setdefault (rt_publication_directories t) (ad_publication_directory d) (ad_provider_id d) in
  do! raise_if (negb (bool_decide (prior_provider = ad_provider_id d)))
        (provider_error "artifact providers may not share a publication directory") ;;
  Ok {| rt_by_id := rt_by_id t ++ [(ad_provider_id d, d)];
        rt_patcher_features := patcher_features;
        rt_rebuild_features := rebuild_features;
        rt_publication_directories := publication_directories |}.

Record ArtifactProviderRegistry := {
  ar_by_id : list (string * ArtifactProviderDescriptor);
  ar_patcher_features : list (string * string);
  ar_providers_by_rebuild_feature : list (string * gset string)
}.

Definition ArtifactProviderRegistry_init (descriptors : list ArtifactProviderDescriptor) : result ArtifactProviderRegistry :=
  let! t := foldM register_descriptor descriptors
    {| rt_by_id := []; rt_patcher_features := []; rt_rebuild_features := []; rt_publication_directories := [] |} in
  Ok {| ar_by_id := sorted_by fst (rt_by_id t);
        ar_patcher_features := sorted_by fst (rt_patcher_features t);
        ar_providers_by_rebuild_feature := sorted_by fst (rt_rebuild_features t) |}.

Definition ArtifactProviderRegistry_snapshot (r : ArtifactProviderRegistry) : pyval :=
  py_dict [
    ("providers", PList ((λ row, ArtifactProviderDescriptor_snapshot row.2) <$> ar_by_id r));
    ("schema_version", PInt 1)].

Definition ArtifactProviderRegistry_digest `{Sha256} (r : ArtifactProviderRegistry) : string :=
  digest_of "optima.artifact-provider-registry" (ArtifactProviderRegistry_snapshot r).

Definition ArtifactProviderRegistry_descriptors (r : ArtifactProviderRegistry) : list ArtifactProviderDescriptor :=
  (ar_by_id r).*2.

Definition ArtifactProviderRegistry_get (r : ArtifactProviderRegistry) (provider_id : pyval) : option ArtifactProviderDescriptor :=
  match provider_id with PStr s => assoc (ar_by_id r) s | _ => None end.

Definition ArtifactProviderRegistry_require (r : ArtifactProviderRegistry) (provider_id : pyval)
    : result ArtifactProviderDescriptor :=
  match ArtifactProviderRegistry_get r provider_id with
  | Some d => Ok d
  | None => Raise (provider_error "artifact provider is not registered")
  end.

Definition ArtifactProviderRegistry_build_feature_for_patcher (r : ArtifactProviderRegistry) (patcher_id : pyval) : option string :=
  match patcher_id with PStr s => assoc (ar_patcher_features r) s | _ => None end.

Definition ArtifactProviderRegistry_providers_for_rebuild_feature (r : ArtifactProviderRegistry) (rebuild_feature : pyval)
    : gset string :=
  match rebuild_feature with PStr s => default ∅ (assoc (ar_providers_by_rebuild_feature r) s) | _ => ∅ end.

Definition is_provider_id (v : pyval) : bool :=
  match v with PStr s => provider_id_matches s | _ => false end.

(** [tuple(sorted(set(selected)))] for a selection of strings. *)
Definition unique_strs (l : list pyval) : list string :=
  sorted_set (list_to_set (omap (λ v, match v with PStr s => Some s | _ => None end) l)).

Definition ArtifactProviderRegistry_require_crownable (r : ArtifactProviderRegistry) (selected : list pyval)
    : result (list ArtifactProviderDescriptor) :=
  do! raise_if (negb (forallb is_provider_id selected))
        (provider_error "artifact provider selection contains a malformed ID") ;;
  let! descriptors := mapM (λ id, ArtifactProviderRegistry_require r (PStr id)) (unique_strs selected) in
  do! raise_if (existsb (λ d, negb (ad_authoritative d) || negb (ad_crownable d)) descriptors)
        (provider_error "rejects non-authoritative/non-crownable artifact providers") ;;
  Ok descriptors.

(** ** The registered provider *)

Definition CUTE_CUBIN_PROFILE_INPUTS : gset string :=
  list_to_set ((λ n, "max_active_clusters.cluster_size_" +:+ str_of_Z n) <$> [1; 2; 4; 8; 16]).

Definition CUTE_CUBIN_PROVIDER_ID : string := "cutlass.cute.cubin.v1".
Definition CUTE_CUBIN_MANIFEST_FEATURE : string := "aot:" +:+ CUTE_CUBIN_PROVIDER_ID.
Definition CUTE_CUBIN_REBUILD_FEATURE : string := "rebuild:build_cute_cubin".
Definition CUTE_CUBIN_PATCHER_ID : string := "optima.build-cute-cubin.v1".

Definition CUTE_CUBIN_PROVIDER : ArtifactProviderDescriptor :=
  {| ad_provider_id := CUTE_CUBIN_PROVIDER_ID;
     ad_artifact_kind := CUDA_CUBIN;
     ad_binding_abi := CUDA_DRIVER_PARAMS_V1;
     ad_authoritative := true;
     ad_crownable := true;
     ad_build_phase := OCI_PREBUILD_ONLY;
     ad_load_phase := ISOLATED_ENGINE_WORKER_ONLY;
     ad_build_patcher_id := CUTE_CUBIN_PATCHER_ID;
     ad_rebuild_feature := CUTE_CUBIN_REBUILD_FEATURE;
     ad_required_target_features := {[CUTE_CUBIN_MANIFEST_FEATURE; CUTE_CUBIN_REBUILD_FEATURE]};
     ad_provider_capabilities := {["group.native_handle.v1"; "group.peer_ptr_table.v1"]};
     ad_requires_compile_profile := true;
     ad_compile_profile_inputs := CUTE_CUBIN_PROFILE_INPUTS;
     ad_publication_directory := "cute_cubin";
     ad_supports_static_slots := true |}.

(** The registry the module builds at import; [artifact_providers_built] shows
    that its construction succeeds with this value. *)
Definition ARTIFACT_PROVIDERS : ArtifactProviderRegistry :=
  {| ar_by_id := [(CUTE_CUBIN_PROVIDER_ID, CUTE_CUBIN_PROVIDER)];
     ar_patcher_features := [(CUTE_CUBIN_PATCHER_ID, CUTE_CUBIN_REBUILD_FEATURE)];
     ar_providers_by_rebuild_feature := [(CUTE_CUBIN_REBUILD_FEATURE, {[CUTE_CUBIN_PROVIDER_ID]})] |}.

Lemma artifact_providers_built :
  (let! d := ArtifactProviderDescriptor_init CUTE_CUBIN_PROVIDER in ArtifactProviderRegistry_init [d]) = Ok ARTIFACT_PROVIDERS.
Proof. vm_compute. reflexivity. Qed.
