(* ===== verification/Apportion.v ===== *)
(** * Largest-remainder apportionment

    [finite_debt.project_debt_epoch], [incentive_composition._pro_rata] and
    [economics._allocate_pool] divide an integer pool in proportion to integer
    weights with one and the same loop: floor quotients by [divmod], then one
    extra unit for the [missing] largest remainders, ties broken by key.  The
    loop is defined once here, with the facts the three callers need. *)

From Stdlib Require Import ZArith Lia.
From stdpp Require Import base tactics numbers list strings gmap sorting.
From S2P Require Import Prelude.

(** [l[:n]] *)
Definition py_take {A} (n : Z) (l : list A) : list A :=
  if 0 <=? n then take (Z.to_nat n) l else take (Z.to_nat (Z.of_nat (length l) + n)) l.

(** [quotient, remainder = divmod(weight * payout, total); amounts[key] = quotient;
    remainders.append((remainder, key))] *)
Definition quota_step (payout total : Z) (acc : gmap string Z * list (Z * string))
    (row : string * Z) : gmap string Z * list (Z * string) :=
  (<[row.1 := row.2 * payout / total]> acc.1, acc.2 ++ [(row.2 * payout mod total, row.1)]).

(** The order of [sorted(remainders, key=lambda item: (-item[0], item[1]))]. *)
Definition rem_le (x y : Z * string) : Prop :=
  y.1 < x.1 ∨ (x.1 = y.1 ∧ String.le x.2 y.2).

#[global] Instance rem_le_dec x y : Decision (rem_le x y).
Proof. unfold rem_le. apply _. Defined.

(** [amounts[key] += 1] *)
Definition bump (amounts : gmap string Z) (item : Z * string) : gmap string Z :=
  alter Z.succ item.2 amounts.

Definition largest_remainder (rows : list (string * Z)) (payout total : Z) : gmap string Z :=
  let '(amounts, remainders) := fold_left (quota_step payout total) rows (∅, []) in
  let missing := payout - dict_sum amounts in
  fold_left bump (py_take missing (merge_sort rem_le remainders)) amounts.

(** [{key: weight for key, weight in rows}] *)
Definition dict_of_rows (rows : list (string * Z)) : gmap string Z :=
  fold_left (λ m row, <[row.1 := row.2]> m) rows ∅.

(** The [amounts] dict of an epoch: the rows are paid in full when the pool
    covers them, and share it by largest remainder otherwise. *)
Definition pro_rata_amounts (rows : list (string * Z)) (capacity : Z) : gmap string Z :=
  let total := Zsum rows.*2 in
  let payout := Z.min capacity total in
  if payout =? 0 then ∅
  else if total <=? capacity then dict_of_rows rows
  else largest_remainder rows payout total.

(** ** The order on remainders *)

#[global] Instance rem_le_trans : Transitive rem_le.
Proof.
  intros [a s] [b t] [c u] [H1|[H1 H1']] [H2|[H2 H2']]; unfold rem_le; simpl in *.
  1-3: left; lia. right. split; [lia|]. by etrans.
Qed.
#[global] Instance rem_le_total : Total rem_le.
Proof.
  intros [a s] [b t]. unfold rem_le; simpl.
  destruct (Z.lt_trichotomy a b) as [?|[->|?]]; [by auto| |by auto].
  destruct (total String.le s t); auto.
Qed.

Lemma dict_sum_bump m x : is_Some (m !! x.2) → dict_sum (bump m x) = dict_sum m + 1.
Proof.
  intros [v Hv]. unfold bump.
  assert (alter Z.succ x.2 m = <[x.2 := v + 1]> m) as ->.
  { apply map_eq. intros k. rewrite lookup_alter, lookup_insert. case_decide; subst; [|done].
    by rewrite Hv. }
  rewrite dict_sum_insert. unfold dict_get. rewrite Hv. simpl. lia.
Qed.

Lemma bump_is_Some m x k : is_Some (bump m x !! k) ↔ is_Some (m !! k).
Proof. unfold bump. rewrite lookup_alter. case_decide; subst; [by rewrite fmap_is_Some | done]. Qed.

Lemma bump_fold_sum top m :
  (∀ x, x ∈ top → is_Some (m !! x.2)) →
  dict_sum (fold_left bump top m) = dict_sum m + Z.of_nat (length top).
Proof.
  revert m. induction top as [|x top IH]; intros m Hm; simpl; [lia|].
  rewrite IH; [rewrite dict_sum_bump by (apply Hm; left); lia|].
  intros y Hy. apply bump_is_Some, Hm. by right.
Qed.

Lemma bump_fold_lookup top m k :
  NoDup top.*2 →
  fold_left bump top m !! k = (λ v, if decide (k ∈ top.*2) then v + 1 else v) <$> (m !! k).
Proof.
  revert m. induction top as [|[r d] top IH]; intros m; csimpl.
  { intros _. by destruct (m !! k). }
  rewrite NoDup_cons. intros [Hd Hnd]. rewrite IH by done. unfold bump. simpl.
  destruct (decide (d = k)) as [->|Hne].
  - rewrite lookup_alter_eq. destruct (m !! k); simpl; [|done]. rewrite (decide_False (P := k ∈ top.*2)) by done.
    by rewrite (decide_True (P := k ∈ k :: top.*2)) by left.
  - rewrite lookup_alter_ne by done. destruct (m !! k); simpl; [|done]. f_equal.
    destruct (decide (k ∈ top.*2)), (decide (k ∈ d :: top.*2)); set_solver.
Qed.

(** ** The quotient loop *)

Section quota.
Context (payout total : Z).

Definition quotient_of (row : string * Z) : Z := row.2 * payout / total.
Definition remainder_of (row : string * Z) : Z * string := (row.2 * payout mod total, row.1).

Lemma quota_fold rows m rs :
  NoDup rows.*1 → (∀ d, d ∈ rows.*1 → m !! d = None) →
  fold_left (quota_step payout total) rows (m, rs) =
    (list_to_map ((λ row, (row.1, quotient_of row)) <$> rows) ∪ m, rs ++ (remainder_of <$> rows)).
Proof.
  revert m rs. induction rows as [|[d r] rows IH]; intros m rs.
  { intros _ _. simpl. by rewrite app_nil_r, (left_id_L ∅ (∪)). }
  csimpl. rewrite NoDup_cons. intros [Hd Hnd] Hm.
  change (quota_step payout total (m, rs) (d, r))
    with (<[d := quotient_of (d, r)]> m, rs ++ [remainder_of (d, r)]).
  rewrite IH; [|done|].
  - f_equal; [|by rewrite <- app_assoc].
    rewrite <- insert_union_l. apply map_eq. intros k.
    rewrite lookup_union, !lookup_insert. case_decide as Hk; subst.
    + rewrite not_elem_of_list_to_map_1, (left_id_L None _); [done|].
      rewrite <- list_fmap_compose. done.
    + by rewrite lookup_union.
  - intros k Hk. rewrite lookup_insert_ne by (intros ->; done). apply Hm. by right.
Qed.

Lemma quota_sum rows :
  NoDup rows.*1 →
  dict_sum (list_to_map ((λ row, (row.1, quotient_of row)) <$> rows)) = Zsum (quotient_of <$> rows).
Proof.
  induction rows as [|[d r] rows IH]; csimpl; [done|]. rewrite NoDup_cons. intros [Hd Hnd].
  rewrite dict_sum_insert_fresh, IH by
    (done || apply not_elem_of_list_to_map_1; by rewrite <- list_fmap_compose).
  done.
Qed.

Lemma quota_lookup rows d r :
  NoDup rows.*1 → (d, r) ∈ rows →
  (list_to_map ((λ row, (row.1, quotient_of row)) <$> rows) : gmap string Z) !! d = Some (quotient_of (d, r)).
Proof.
  intros Hnd Hin. apply elem_of_list_to_map_1; [by rewrite <- list_fmap_compose|].
  apply list_elem_of_fmap. by exists (d, r).
Qed.

Lemma quota_lookup_Some rows d :
  is_Some ((list_to_map ((λ row, (row.1, quotient_of row)) <$> rows) : gmap string Z) !! d) ↔ d ∈ rows.*1.
Proof.
  rewrite <- not_eq_None_Some, <- not_elem_of_list_to_map, <- list_fmap_compose.
  change ((fst ∘ (λ row : string * Z, (row.1, quotient_of row))) <$> rows) with (rows.*1).
  split; [|tauto]. intros Hn. destruct (decide (d ∈ rows.*1)); tauto.
Qed.
End quota.

(** ** The remainders of a complete apportionment *)

Lemma merge_sort_rem_sorted l : StronglySorted rem_le (merge_sort rem_le l).
Proof. apply Sorted_StronglySorted; [apply _|]. apply (Sorted_merge_sort _). Qed.

Definition positive_rem (y : Z * string) : Prop := 0 < y.1.
#[global] Instance positive_rem_dec y : Decision (positive_rem y).
Proof. unfold positive_rem. apply _. Defined.

(** In a list sorted by decreasing remainder, a prefix no longer than the number
    of positive remainders holds positive remainders only. *)
Lemma rem_prefix_positive s n x :
  StronglySorted rem_le s → (n ≤ length (filter positive_rem s))%nat →
  x ∈ take n s → 0 < x.1.
Proof.
  revert n. induction s as [|y s IH]; intros [|n]; simpl; [set_solver..|].
  rewrite StronglySorted_cons, Forall_forall. intros [Hy Hs].
  destruct (decide (positive_rem y)) as [Hpos|Hpos].
  - rewrite filter_cons_True by done. simpl. intros Hn [->|Hx]%elem_of_cons; [done|].
    apply (IH n); [done | lia | done].
  - rewrite filter_cons_False by done. intros Hn _. exfalso.
    assert (filter positive_rem s = []) as E; [|by rewrite E in Hn; simpl in Hn; lia].
    destruct (filter _ s) as [|z l] eqn:E; [done|exfalso].
    assert (z ∈ filter positive_rem s) as Hz by (rewrite E; left).
    apply list_elem_of_filter in Hz as [Hz Hin]. unfold positive_rem in *. destruct (Hy z Hin) as [?|[? ?]]; lia.
Qed.

(** Each remainder is below [total], so [missing] units need at least [missing]
    positive remainders. *)
Lemma rems_bound total (rs : list (Z * string)) :
  0 < total → Forall (λ x, 0 ≤ x.1 < total) rs →
  Zsum rs.*1 ≤ (total - 1) * Z.of_nat (length (filter positive_rem rs)).
Proof.
  intros Ht. induction 1 as [|x rs Hx Hrs IH]; [unfold Zsum; simpl; lia|].
  rewrite fmap_cons, Zsum_cons. destruct (decide (positive_rem x)) as [Hp|Hp]; unfold positive_rem in Hp.
  - rewrite filter_cons_True by done. simpl. lia.
  - rewrite filter_cons_False by done. lia.
Qed.

Section apportion.
Context (rows : list (string * Z)) (payout total : Z).
Context (Hkeys : NoDup rows.*1) (Hnonneg : Forall (λ row, 0 ≤ row.2) rows).
Context (Htotal : total = Zsum rows.*2) (Hpos : 0 < total) (Hpayout : 0 ≤ payout).

Definition missing_of : Z := payout - Zsum (quotient_of payout total <$> rows).
Definition top_of : list (Z * string) :=
  take (Z.to_nat missing_of) (merge_sort rem_le (remainder_of payout total <$> rows)).

Lemma missing_total : total * missing_of = Zsum (remainder_of payout total <$> rows).*1.
Proof.
  unfold missing_of. rewrite Z.mul_sub_distr_l, <- Zsum_fmap_mul.
  assert (total * payout = Zsum ((λ row, row.2 * payout) <$> rows)) as ->.
  { rewrite Htotal, (Zsum_fmap_ext (λ row, row.2 * payout) (λ row, payout * row.2)) by (intros; lia).
    rewrite Zsum_fmap_mul. lia. }
  rewrite <- list_fmap_compose. unfold compose, remainder_of, quotient_of; simpl.
  rewrite (Zsum_fmap_ext (λ row, row.2 * payout)
    (λ row, total * (row.2 * payout / total) + row.2 * payout mod total))
    by (intros row _; pose proof (Z.div_mod (row.2 * payout) total); lia).
  rewrite Zsum_fmap_add. lia.
Qed.

Lemma rems_range : Forall (λ x, 0 ≤ x.1 < total) (remainder_of payout total <$> rows).
Proof.
  apply Forall_fmap, Forall_forall. intros row _. unfold remainder_of; simpl.
  by apply Z.mod_pos_bound.
Qed.

Lemma missing_nonneg : 0 ≤ missing_of.
Proof.
  assert (0 ≤ total * missing_of); [|nia]. rewrite missing_total. apply Zsum_nonneg.
  apply Forall_fmap. eapply Forall_impl; [apply rems_range|]. simpl. lia.
Qed.

Lemma missing_bound :
  missing_of ≤ Z.of_nat (length (filter positive_rem (remainder_of payout total <$> rows))).
Proof.
  pose proof (rems_bound total _ Hpos rems_range) as Hb. rewrite <- missing_total in Hb. nia.
Qed.

Lemma missing_le_length : (Z.to_nat missing_of ≤ length rows)%nat.
Proof.
  pose proof missing_bound. pose proof missing_nonneg.
  pose proof (length_filter positive_rem (remainder_of payout total <$> rows)) as Hl.
  rewrite length_fmap in Hl. lia.
Qed.

Lemma top_length : Z.of_nat (length top_of) = missing_of.
Proof.
  unfold top_of. rewrite length_take, merge_sort_Permutation, length_fmap.
  pose proof missing_le_length. pose proof missing_nonneg. lia.
Qed.

Lemma top_positive x : x ∈ top_of → 0 < x.1.
Proof.
  apply rem_prefix_positive; [apply merge_sort_rem_sorted|].
  rewrite merge_sort_Permutation. pose proof missing_bound. pose proof missing_nonneg. lia.
Qed.

Lemma top_elem x : x ∈ top_of → x ∈ remainder_of payout total <$> rows.
Proof.
  intros Hx. rewrite <- (merge_sort_Permutation rem_le).
  eapply elem_of_sublist; [done|]. apply sublist_take.
Qed.

Lemma top_NoDup : NoDup top_of.*2.
Proof.
  unfold top_of. rewrite fmap_take. eapply sublist_NoDup; [|apply sublist_take].
  rewrite merge_sort_Permutation, <- list_fmap_compose. done.
Qed.

Lemma largest_remainder_eq :
  largest_remainder rows payout total =
    fold_left bump top_of (list_to_map ((λ row, (row.1, quotient_of payout total row)) <$> rows)).
Proof.
  unfold largest_remainder. rewrite quota_fold by (done || set_solver).
  rewrite (right_id_L ∅ (∪)), app_nil_l, quota_sum by done. unfold py_take.
  fold missing_of. by rewrite (proj2 (Z.leb_le 0 missing_of) missing_nonneg).
Qed.

(** The whole pool is handed out. *)
Lemma largest_remainder_sum : dict_sum (largest_remainder rows payout total) = payout.
Proof.
  rewrite largest_remainder_eq, bump_fold_sum.
  - rewrite quota_sum, top_length by done. unfold missing_of. lia.
  - intros x Hx%top_elem. apply list_elem_of_fmap in Hx as (row & -> & Hrow).
    apply quota_lookup_Some. simpl. by apply list_elem_of_fmap_2.
Qed.

Lemma largest_remainder_lookup d r :
  (d, r) ∈ rows →
  largest_remainder rows payout total !! d =
    Some (r * payout / total + (if decide (d ∈ top_of.*2) then 1 else 0)).
Proof.
  intros Hin. rewrite largest_remainder_eq, bump_fold_lookup by apply top_NoDup.
  erewrite quota_lookup by done. simpl. f_equal. unfold quotient_of; simpl. case_decide; lia.
Qed.

Lemma largest_remainder_dom d :
  is_Some (largest_remainder rows payout total !! d) ↔ d ∈ rows.*1.
Proof.
  rewrite largest_remainder_eq, bump_fold_lookup by apply top_NoDup.
  by rewrite fmap_is_Some, quota_lookup_Some.
Qed.

Lemma top_remainder d r : (d, r) ∈ rows → d ∈ top_of.*2 → (r * payout mod total, d) ∈ top_of.
Proof.
  intros Hin [x [-> Hx]]%list_elem_of_fmap. pose proof (top_elem x Hx) as Hrow.
  apply list_elem_of_fmap in Hrow as ([d' r'] & -> & Hrow). simpl in *.
  assert (r = r') as ->; [|done]. eapply (NoDup_fmap_inj_elem fst) in Hrow; [|done|exact Hin|done].
  by injection Hrow.
Qed.

(** Every share is the exact proportional share rounded down or up. *)
Lemma largest_remainder_quota d r :
  (d, r) ∈ rows →
  ∃ a, largest_remainder rows payout total !! d = Some a ∧
    r * payout - total < a * total < r * payout + total ∧ 0 ≤ a.
Proof.
  intros Hin. rewrite (largest_remainder_lookup d r Hin). eexists; split; [done|].
  assert (0 ≤ r) by (rewrite Forall_forall in Hnonneg; by apply (Hnonneg (d, r))).
  pose proof (Z.div_mod (r * payout) total). pose proof (Z.mod_pos_bound (r * payout) total Hpos).
  assert (0 ≤ r * payout / total) by (apply Z.div_pos; nia).
  case_decide as Hd; [|nia]. apply (top_remainder d r Hin), top_positive in Hd. simpl in Hd. nia.
Qed.

(** No share exceeds its weight when the pool does not exceed the total. *)
Lemma largest_remainder_le d r a :
  payout ≤ total → (d, r) ∈ rows → largest_remainder rows payout total !! d = Some a → a ≤ r.
Proof.
  intros Hle Hin Ha. destruct (largest_remainder_quota d r Hin) as (a' & Ha' & Hq & _).
  assert (0 ≤ r) by (rewrite Forall_forall in Hnonneg; by apply (Hnonneg (d, r))).
  assert (a' = a) as -> by congruence. nia.
Qed.

(** A larger weight never receives a smaller share. *)
Lemma largest_remainder_mono d1 r1 a1 d2 r2 a2 :
  (d1, r1) ∈ rows → (d2, r2) ∈ rows → r1 < r2 →
  largest_remainder rows payout total !! d1 = Some a1 →
  largest_remainder rows payout total !! d2 = Some a2 → a1 ≤ a2.
Proof.
  intros H1 H2 Hlt. rewrite (largest_remainder_lookup _ _ H1), (largest_remainder_lookup _ _ H2).
  intros [= <-] [= <-].
  assert (r1 * payout / total ≤ r2 * payout / total) by (apply Z.div_le_mono; nia).
  case_decide as Hd1; case_decide as Hd2; [lia| |lia..].
  assert (¬ r1 * payout / total = r2 * payout / total); [|lia]. intros Heq.
  assert (payout ≠ 0).
  { intros Hp0. apply (top_remainder _ _ H1), top_positive in Hd1. cbn [fst] in Hd1.
    rewrite Hp0, Z.mul_0_r, Z.mod_0_l in Hd1; lia. }
  assert (r1 * payout mod total < r2 * payout mod total) by (rewrite !Z.mod_eq by lia; nia).
  apply Hd2. apply (top_remainder _ _ H1) in Hd1.
  assert ((r2 * payout mod total, d2) ∈ top_of) as Ht; [|apply list_elem_of_fmap; by exists (r2 * payout mod total, d2)].
  assert ((r2 * payout mod total, d2) ∈ merge_sort rem_le (remainder_of payout total <$> rows)) as Hs.
  { rewrite merge_sort_Permutation. apply list_elem_of_fmap. by exists (d2, r2). }
  pose proof (merge_sort_rem_sorted (remainder_of payout total <$> rows)) as Hsort.
  rewrite <- (take_drop (Z.to_nat missing_of) (merge_sort _ _)) in Hs, Hsort.
  apply elem_of_app in Hs as [Hs|Hs]; [done|exfalso].
  eapply StronglySorted_app_1_elem_of in Hsort; [|exact Hd1|exact Hs].
  destruct Hsort as [?|[? ?]]; simpl in *; lia.
Qed.
End apportion.

(** ** Dictionaries built from rows *)

Lemma dict_of_rows_lookup rows d r :
  NoDup rows.*1 → (d, r) ∈ rows → dict_of_rows rows !! d = Some r.
Proof.
  unfold dict_of_rows. generalize (∅ : gmap string Z).
  induction rows as [|[k v] rows IH]; csimpl; [set_solver|]. intros m. rewrite NoDup_cons.
  intros [Hk Hnd] [Heq|Hin]%elem_of_cons; [|by apply IH]. simplify_eq.
  assert (∀ l (m : gmap string Z), k ∉ l.*1 →
    fold_left (λ m row, <[row.1:=row.2]> m) l m !! k = m !! k) as Hfold.
  { clear. induction l as [|[k' v'] l IH]; csimpl; [done|]. intros m Hk.
    rewrite IH by set_solver. apply lookup_insert_ne. set_solver. }
  rewrite Hfold by done. apply lookup_insert_eq.
Qed.

Lemma dict_of_rows_dom rows d : is_Some (dict_of_rows rows !! d) ↔ d ∈ rows.*1.
Proof.
  unfold dict_of_rows.
  assert (∀ m : gmap string Z, is_Some (fold_left (λ m row, <[row.1:=row.2]> m) rows m !! d) ↔
    d ∈ rows.*1 ∨ is_Some (m !! d)) as ->.
  { induction rows as [|[k v] rows IH]; csimpl; intros m; [set_solver|].
    rewrite IH, elem_of_cons, lookup_insert. case_decide; subst; [|naive_solver].
    split; [tauto|]. intros _. right. eauto. }
  rewrite lookup_empty. split; [intros [?|[? ?]]; done | auto].
Qed.

(** The sum of a dictionary over a list of distinct keys that covers it. *)
Lemma dict_sum_keys (m : gmap string Z) keys :
  NoDup keys → (∀ d, is_Some (m !! d) → d ∈ keys) → Zsum (dict_get m <$> keys) = dict_sum m.
Proof.
  revert m. induction keys as [|k keys IH]; intros m Hnd Hdom.
  - assert (m = ∅) as ->; [|done]. apply map_empty. intros d.
    destruct (m !! d) eqn:E; [|done]. exfalso. assert (d ∈ []) by (apply Hdom; eauto). set_solver.
  - rewrite NoDup_cons in Hnd. destruct Hnd as [Hk Hnd]. csimpl. rewrite Zsum_cons.
    rewrite (Zsum_fmap_ext (dict_get m) (dict_get (delete k m))).
    + rewrite IH; [|done|].
      * destruct (m !! k) as [v|] eqn:E.
        -- rewrite <- (insert_delete_id m k v E) at 3.
           rewrite dict_sum_insert_fresh by apply lookup_delete_eq.
           unfold dict_get. by rewrite E.
        -- unfold dict_get. rewrite E, delete_id by done. done.
      * intros d Hd. rewrite lookup_delete in Hd. case_decide; [by destruct Hd|].
        apply Hdom in Hd. set_solver.
    + intros x Hx. unfold dict_get. rewrite lookup_delete_ne; [done|]. intros ->. done.
Qed.

Lemma dict_sum_of_rows rows : NoDup rows.*1 → dict_sum (dict_of_rows rows) = Zsum rows.*2.
Proof.
  intros Hnd. rewrite <- (dict_sum_keys _ rows.*1); [|done|by intros; apply dict_of_rows_dom].
  rewrite <- list_fmap_compose. apply Zsum_fmap_ext. intros [d r] Hin. simpl.
  unfold dict_get. by rewrite (dict_of_rows_lookup rows d r).
Qed.

(** ** The pro-rata rule *)

Section pro_rata.
Context (rows : list (string * Z)) (capacity : Z).
Context (Hkeys : NoDup rows.*1) (Hweights : Forall (λ row, 0 < row.2) rows) (Hcap : 0 ≤ capacity).

Lemma weights_nonneg : Forall (Z.le 0) rows.*2.
Proof. apply Forall_fmap. eapply Forall_impl; [exact Hweights|]. simpl. lia. Qed.

Lemma pro_rata_dom d : is_Some (pro_rata_amounts rows capacity !! d) → d ∈ rows.*1.
Proof.
  unfold pro_rata_amounts. destruct (_ =? 0) eqn:E0; [by rewrite lookup_empty; intros []|].
  destruct (_ <=? capacity) eqn:E1; [by rewrite dict_of_rows_dom|].
  pose proof (Zsum_nonneg _ weights_nonneg). bool_prop.
  by apply largest_remainder_dom; try lia.
Qed.

Lemma pro_rata_sum : dict_sum (pro_rata_amounts rows capacity) = Z.min capacity (Zsum rows.*2).
Proof.
  unfold pro_rata_amounts. destruct (_ =? 0) eqn:E0; bool_prop; [by rewrite E0|].
  destruct (_ <=? capacity) eqn:E1; bool_prop.
  - rewrite dict_sum_of_rows by done. lia.
  - pose proof (Zsum_nonneg _ weights_nonneg). by apply largest_remainder_sum; try lia.
Qed.

(** Every row receives at most its weight, and the exact proportional share
    rounded down or up. *)
Lemma pro_rata_share d r :
  (d, r) ∈ rows →
  let a := dict_get (pro_rata_amounts rows capacity) d in
  let total := Zsum rows.*2 in
  let payout := Z.min capacity total in
  0 ≤ a ≤ r ∧ r * payout - total < a * total < r * payout + total.
Proof.
  intros Hin. simpl. pose proof (Zsum_nonneg _ weights_nonneg).
  assert (0 < r) by (rewrite Forall_forall in Hweights; by apply (Hweights (d, r))).
  assert (r ≤ Zsum rows.*2).
  { apply Zsum_elem; [apply weights_nonneg|]. by apply (list_elem_of_fmap_2 snd _ (d, r)). }
  unfold pro_rata_amounts, dict_get. destruct (_ =? 0) eqn:E0; bool_prop.
  { rewrite lookup_empty, E0. simpl. lia. }
  destruct (_ <=? capacity) eqn:E1; bool_prop.
  { rewrite (dict_of_rows_lookup rows d r) by done. simpl. nia. }
  assert (Forall (λ row, 0 ≤ row.2) rows) as Hnn.
  { eapply Forall_impl; [exact Hweights|]. simpl. lia. }
  destruct (largest_remainder_quota rows (Z.min capacity (Zsum rows.*2)) (Zsum rows.*2)) with (d := d) (r := r)
    as (a & Ha & Hq & Ha0); try done; try lia.
  rewrite Ha. simpl. split; [split; [lia|]|lia]. apply (largest_remainder_le rows (Z.min capacity (Zsum rows.*2)) (Zsum rows.*2)) with (d := d); done || lia.
Qed.

Lemma pro_rata_sum_rows :
  Zsum ((λ row, dict_get (pro_rata_amounts rows capacity) row.1) <$> rows) = Z.min capacity (Zsum rows.*2).
Proof.
  rewrite <- pro_rata_sum, <- (dict_sum_keys _ rows.*1 Hkeys pro_rata_dom).
  by rewrite <- list_fmap_compose.
Qed.
End pro_rata.
