(* ===== verification/Decimal.v ===== *)
(** * Decimal arithmetic

    What [finite_debt.py] uses of Python's [decimal] module: reading a decimal
    string, [normalize] in the default context (28 digits, half-even, exponent
    limit 999999), [format(_, "f")], exact comparison, and, at the 80 digits
    and floor rounding of [localcontext], division, multiplication,
    [to_integral_value] and the correctly rounded natural logarithm.

    The logarithm follows the reference implementation [_pydecimal]; its loops
    carry fuel.  [_ilog] halves its argument until it is below 1/256, at most a
    dozen times for arguments between 1/10 and 10, and Newton's iteration for
    the square root starts at a relative distance of at most [sqrt 10] from the
    root and doubles the number of correct digits; both are given 200 steps.
    The precision loop of [ln] stops as soon as the approximation is not within
    one unit of a rounding boundary; it is given 20 increments of 3 digits. *)

From Stdlib Require Import ZArith Lia Ascii.
From stdpp Require Import base tactics numbers list strings gmap sorting.
From S2P Require Import Prelude PyValue Strict.

(** A [Decimal]; [DNaN] is either kind of NaN. *)
Inductive decimal :=
  | DFinite (negative : bool) (coef exp : Z)
  | DInf (negative : bool)
  | DNaN.

(** [len(str(n))] for a non-negative [n]. *)
Definition ndigits (n : Z) : Z := str_len (str_of_Z n).

(** ** Reading *)

Definition digit_of (c : ascii) : option Z :=
  let n := code c in if (48 <=? n) && (n <=? 57) then Some (n - 48) else None.

Fixpoint take_digits (acc count : Z) (l : list ascii) : Z * Z * list ascii :=
  match l with
  | c :: l' =>
      match digit_of c with
      | Some d => take_digits (acc * 10 + d) (count + 1) l'
      | None => (acc, count, l)
      end
  | [] => (acc, count, l)
  end.

Definition take_sign (l : list ascii) : bool * list ascii :=
  match l with
  | "-"%char :: l' => (true, l')
  | "+"%char :: l' => (false, l')
  | _ => (false, l)
  end.

(** [E(?P<exp>[-+]?\d+)] at the end of the text, or nothing. *)
Definition take_exponent (l : list ascii) : option Z :=
  match l with
  | [] => Some 0
  | c :: l' =>
      if Ascii.eqb (lower_char c) "e" then
        let '(neg, l1) := take_sign l' in
        match take_digits 0 0 l1 with
        | (e, n, []) => if n =? 0 then None else Some (if neg then - e else e)
        | _ => None
        end
      else None
  end.

(** The exponent range of the exact conversion from a string. *)
Definition MAX_EMAX : Z := 999999999999999999.
Definition MIN_ETINY : Z := - 1999999999999999997.

Definition in_exact_range (coef exp : Z) : bool :=
  (MIN_ETINY <=? exp) && (exp + ndigits coef - 1 <=? MAX_EMAX).

Definition read_number (neg : bool) (l : list ascii) : option decimal :=
  let '(ipart, ni, l1) := take_digits 0 0 l in
  let '(coef, nf, l2) :=
    match l1 with
    | "."%char :: l' => let '(c, n, l2) := take_digits ipart 0 l' in (c, n, l2)
    | _ => (ipart, 0, l1)
    end in
  if ni + nf =? 0 then None
  else
    e ← take_exponent l2;
    if in_exact_range coef (e - nf) then Some (DFinite neg coef (e - nf)) else None.

(** [Decimal(text)]; [None] is [InvalidOperation]. *)
Definition read_decimal (text : string) : option decimal :=
  let l := filter (λ c, negb (Ascii.eqb c "_"%char) = true) (chars (strip text)) in
  let '(neg, l1) := take_sign l in
  let word := String.string_of_list_ascii (lower_char <$> l1) in
  if bool_decide (word = "inf") || bool_decide (word = "infinity") then Some (DInf neg)
  else
    let diag := match chars word with
                | "n"%char :: "a"%char :: "n"%char :: d => Some d
                | "s"%char :: "n"%char :: "a"%char :: "n"%char :: d => Some d
                | _ => None
                end in
    match diag with
    | Some d => if forallb (λ c, match digit_of c with Some _ => true | None => false end) d
                then Some DNaN else None
    | None => read_number neg l1
    end.

(** ** Comparison of finite decimals *)

Definition signed (negative : bool) (coef : Z) : Z := if negative then - coef else coef.

(** [c1 * 10^e1 ?= c2 * 10^e2] *)
Definition dec_compare (c1 e1 c2 e2 : Z) : comparison :=
  let e := Z.min e1 e2 in (c1 * 10 ^ (e1 - e) ?= c2 * 10 ^ (e2 - e)).

Definition dec_ltb (c1 e1 c2 e2 : Z) : bool :=
  match dec_compare c1 e1 c2 e2 with Lt => true | _ => false end.

Definition dec_leb (c1 e1 c2 e2 : Z) : bool :=
  match dec_compare c1 e1 c2 e2 with Gt => false | _ => true end.

(** ** [normalize] in the default context *)

Definition DEFAULT_PREC : Z := 28.
Definition DEFAULT_EMAX : Z := 999999.

(** Dropping the last [k] digits of [c], ties to the even quotient. *)
Definition round_half_even (c k : Z) : Z :=
  let q := c / 10 ^ k in
  let r := c mod 10 ^ k in
  if (10 ^ k <? 2 * r) || ((2 * r =? 10 ^ k) && Z.odd q) then q + 1 else q.

(** [_fix] for a positive value that is not subnormal. *)
Definition dec_fix (prec c e : Z) (round : Z → Z → Z) : result (Z * Z) :=
  do! raise_if (DEFAULT_EMAX <? e + ndigits c - 1) (Exn DecimalOverflow "above Emax") ;;
  let k := ndigits c - prec in
  if k <=? 0 then Ok (c, e)
  else
    let q := round c k in
    let '(q, e') := if prec <? ndigits q then (q / 10, e + k + 1) else (q, e + k) in
    do! raise_if (DEFAULT_EMAX <? e' + ndigits q - 1) (Exn DecimalOverflow "above Emax") ;;
    Ok (q, e').

Definition dec_floor (c k : Z) : Z := c / 10 ^ k.

(** Dropping trailing zeros of a coefficient of at most [fuel] digits, while
    the exponent is below the limit. *)
Fixpoint strip_zeros (fuel : nat) (c e : Z) : Z * Z :=
  match fuel with
  | S fuel => if (c mod 10 =? 0) && (e <? DEFAULT_EMAX) then strip_zeros fuel (c / 10) (e + 1) else (c, e)
  | O => (c, e)
  end.

Definition dec_normalize (c e : Z) : result (Z * Z) :=
  let! ce := dec_fix DEFAULT_PREC c e round_half_even in
  Ok (strip_zeros (Z.to_nat DEFAULT_PREC) ce.1 ce.2).

(** ** [format(d, "f")] for a positive value *)

Fixpoint zeros (n : nat) : string :=
  match n with O => "" | S n => String "0" (zeros n) end.

Definition format_f (c e : Z) : string :=
  if 0 <=? e then str_of_Z c +:+ zeros (Z.to_nat e)
  else
    let digits := str_of_Z c in
    let places := Z.to_nat (- e) in
    let padded := zeros (S places - String.length digits) +:+ digits in
    let point := (String.length padded - places)%nat in
    String.substring 0 point padded +:+ "." +:+ String.substring point places padded.

Fixpoint drop_char (c : ascii) (l : list ascii) : list ascii :=
  match l with
  | [] => []
  | d :: l' => if Ascii.eqb c d then drop_char c l' else l
  end.

(** [s.rstrip(c)] *)
Definition rstrip (c : ascii) (s : string) : string :=
  String.string_of_list_ascii (reverse (drop_char c (reverse (chars s)))).

(** ** Arithmetic of positive values at [prec] digits, rounding down *)

Definition dec_div (prec : Z) (a b : Z * Z) : result (Z * Z) :=
  let '(c1, e1) := a in
  let '(c2, e2) := b in
  let shift := ndigits c2 - ndigits c1 + prec + 1 in
  let exp := e1 - e2 - shift in
  let num := if 0 <=? shift then c1 * 10 ^ shift else c1 in
  let den := if 0 <=? shift then c2 else c2 * 10 ^ (- shift) in
  let coeff := num / den in
  if num mod den =? 0 then
    let '(c, e) := (fix go (fuel : nat) c e :=
      match fuel with
      | S fuel => if (e <? e1 - e2) && (c mod 10 =? 0) then go fuel (c / 10) (e + 1) else (c, e)
      | O => (c, e)
      end) (Z.to_nat (ndigits coeff)) coeff exp in
    dec_fix prec c e dec_floor
  else dec_fix prec (if coeff mod 5 =? 0 then coeff + 1 else coeff) exp dec_floor.

Definition dec_mul (prec : Z) (a b : Z * Z) : result (Z * Z) :=
  dec_fix prec (a.1 * b.1) (a.2 + b.2) dec_floor.

(** [int(d.to_integral_value(rounding=ROUND_FLOOR))] for a positive value. *)
Definition dec_to_int (a : Z * Z) : Z :=
  if 0 <=? a.2 then a.1 * 10 ^ a.2 else a.1 / 10 ^ (- a.2).

(** ** The natural logarithm *)

Definition div_nearest (a b : Z) : Z :=
  let q := a / b in let r := a mod b in q + Z.b2z (b <? 2 * r + Z.land q 1).

Definition rshift_nearest (x shift : Z) : Z :=
  let b := Z.shiftl 1 shift in let q := Z.shiftr x shift in
  q + Z.b2z (b <? 2 * Z.land x (b - 1) + Z.land q 1).

(** [b, a = a, a--n//a>>1] until [a == b] *)
Fixpoint sqrt_nearest (fuel : nat) (n a b : Z) : Z :=
  match fuel with
  | S fuel => if a =? b then a else sqrt_nearest fuel n (Z.shiftr (a - (- n) / a) 1) a
  | O => a
  end.

Fixpoint ilog_reduce (fuel : nat) (M y R : Z) : Z * Z :=
  match fuel with
  | S fuel =>
      if (if R <=? 8 then M <=? Z.shiftl (Z.abs y) (8 - R) else M <=? Z.shiftr (Z.abs y) (R - 8))
      then ilog_reduce fuel M
             (div_nearest (Z.shiftl (M * y) 1)
                (M + sqrt_nearest 200 (M * (M + rshift_nearest y R)) M 0))
             (R + 1)
      else (y, R)
  | O => (y, R)
  end.

Fixpoint ilog_taylor (k : nat) (M yshift w : Z) : Z :=
  match k with
  | O => w
  | S k' => ilog_taylor k' M yshift (div_nearest M (Z.of_nat k) - div_nearest (yshift * w) M)
  end.

Definition ilog (x M : Z) : Z :=
  let '(y, R) := ilog_reduce 200 M (x - M) 0 in
  let T := - (- (10 * ndigits M) / 24) in
  let yshift := rshift_nearest y R in
  let w := ilog_taylor (Z.to_nat (T - 1)) M yshift (div_nearest M T) in
  div_nearest (w * y) M.

(** [floor(10**p * log(10))] *)
Fixpoint log10_digits (fuel : nat) (p extra : Z) : Z :=
  let M := 10 ^ (p + extra + 2) in
  let digits := div_nearest (ilog (10 * M) M) 100 in
  match fuel with
  | S fuel => if digits mod 10 ^ extra =? 0 then log10_digits fuel p (extra + 3) else digits / 10 ^ extra
  | O => digits / 10 ^ extra
  end.

Definition dlog (c e p : Z) : Z :=
  let p := p + 2 in
  let l := ndigits c in
  let f := e + l - Z.b2z (1 <=? e + l) in
  let log_d :=
    if 0 <? p then
      let k := e + p - f in
      ilog (if 0 <=? k then c * 10 ^ k else div_nearest c (10 ^ (- k))) (10 ^ p)
    else 0 in
  let f_log_ten :=
    if f =? 0 then 0
    else
      let extra := ndigits (Z.abs f) - 1 in
      if 0 <=? p + extra then div_nearest (f * log10_digits 20 (p + extra) 3) (10 ^ extra) else 0 in
  div_nearest (f_log_ten + log_d) 100.

(** A lower bound on the exponent of the logarithm of a value above 1. *)
Definition ln_exp_bound (c e : Z) : Z :=
  let adj := e + ndigits c - 1 in
  if 1 <=? adj then ndigits (adj * 23 / 10) - 1
  else
    let num := str_of_Z (c - 10 ^ (- e)) in
    let den := str_of_Z c in
    str_len num - str_len den - Z.b2z (String.ltb num den).

Fixpoint ln_places (fuel : nat) (prec c e places : Z) : Z * Z :=
  let coeff := dlog c e places in
  match fuel with
  | S fuel =>
      if coeff mod (5 * 10 ^ (ndigits (Z.abs coeff) - prec - 1)) =? 0
      then ln_places fuel prec c e (places + 3) else (coeff, places)
  | O => (coeff, places)
  end.

(** [context.ln(c * 10^e)] for a value above 1. *)
Definition dec_ln (prec : Z) (a : Z * Z) : result (Z * Z) :=
  let '(coeff, places) := ln_places 20 prec a.1 a.2 (prec - ln_exp_bound a.1 a.2 + 2) in
  dec_fix prec coeff (- places) round_half_even.
