(* ===== verification/Catalog.v ===== *)
(** * The target catalog (src/optima/target_catalog.py)

    Validator-owned contribution targets: contract references, composition
    rules, target specifications, the construction of a catalog with all its
    consistency checks, its queries, the resolution of a bundle's manifest and
    the default catalog.

    Specifications and rules are literals of the validator's code; the
    [isinstance] checks on them are the types of the model, and a [frozenset] of
    identifiers is a [gset string].  Where the source iterates over such a set,
    the model takes the order of [elements]. *)

From Stdlib Require Import ZArith Lia Ascii.
From stdpp Require Import base tactics numbers list strings gmap sorting.
From S2P Require Import Prelude PyValue Sha256 Identity Strict Decimal Graph Provider.

Definition catalog_error (msg : string) : pyexn := Exn TargetCatalogError msg.
Definition resolution_error (msg : string) : pyexn := Exn TargetResolutionError msg.

Inductive TargetKind := SLOT | ATOMIC.

#[global] Instance TargetKind_eq_dec : EqDecision TargetKind.
Proof. solve_decision. Defined.

Definition TargetKind_value (k : TargetKind) : string := match k with SLOT => "slot" | ATOMIC => "atomic" end.

(** ** Feature vocabulary *)

Definition FEATURE_ENTRY : string := "entry".
Definition FEATURE_VARIANTS : string := "variants".
Definition FEATURE_PREPARE : string := "prepare".
Definition FEATURE_SETUP : string := "setup".
Definition FEATURE_OVERRIDE : string := "override".
Definition FEATURE_CUDA_SOURCES : string := "cuda_sources".
Definition FEATURE_REBUILD_BUILD_CUDA_EXT : string := "rebuild:build_cuda_ext".
Definition FEATURE_REBUILD_APPLY_DEP_PATCH : string := "rebuild:apply_dep_patch".
Definition FEATURE_DEP_PATCH_FLASHINFER : string := "dep_patch:flashinfer".

Definition _ARTIFACT_PROVIDER_TARGET_FEATURES : gset string :=
  ⋃ (ad_required_target_features <$> ArtifactProviderRegistry_descriptors ARTIFACT_PROVIDERS).

Definition KNOWN_CONTRIBUTION_FEATURES : gset string :=
  {[FEATURE_ENTRY; FEATURE_VARIANTS; FEATURE_PREPARE; FEATURE_SETUP; FEATURE_OVERRIDE; FEATURE_CUDA_SOURCES;
    FEATURE_REBUILD_BUILD_CUDA_EXT; FEATURE_REBUILD_APPLY_DEP_PATCH; FEATURE_DEP_PATCH_FLASHINFER]}
  ∪ _ARTIFACT_PROVIDER_TARGET_FEATURES.

Definition _STANDARD_COMPONENT_FEATURES : gset string :=
  {[FEATURE_ENTRY; FEATURE_VARIANTS; FEATURE_PREPARE; FEATURE_OVERRIDE; FEATURE_CUDA_SOURCES;
    FEATURE_REBUILD_BUILD_CUDA_EXT]} ∪ _ARTIFACT_PROVIDER_TARGET_FEATURES.

Definition _FLASHINFER_FEATURES : gset string := {[FEATURE_DEP_PATCH_FLASHINFER; FEATURE_REBUILD_APPLY_DEP_PATCH]}.

Definition _CATALOG_SCHEMA_VERSION : Z := 1.
Definition _CATALOG_POLICY_VERSION : string := "target-catalog.v1".

(** ** Grammars *)

(** The class of [_ID_RE = ^[0-9A-Za-z._\-]+$]. *)
Definition is_id_char (c : ascii) : bool :=
  let n := code c in
  ((48 <=? n) && (n <=? 57)) || ((65 <=? n) && (n <=? 90)) || ((97 <=? n) && (n <=? 122))
  || (n =? 46) || (n =? 95) || (n =? 45).

Definition id_matches (s : string) : bool := negb (bool_decide (s = "")) && forallb is_id_char (chars s).

Definition _simple_id (v : pyval) : result string :=
  match v with
  | PStr s =>
      do! raise_if (bool_decide (s = "") || negb (bool_decide (strip s = s)))
            (catalog_error "must be a non-empty canonical string") ;;
      do! raise_if (negb (id_matches s)) (catalog_error "has illegal characters") ;;
      Ok s
  | _ => Raise (catalog_error "must be a non-empty canonical string")
  end.

(** [_decimal_string] of a text. *)
Definition _decimal_string (value : string) : result string :=
  match read_decimal value with
  | Some (DFinite negative coef exp) =>
      if coef =? 0 then Ok "0"
      else
        let text := (if negative then "-" else "") +:+ format_f coef exp in
        Ok (if has_char "."%char text then rstrip "."%char (rstrip "0"%char text) else text)
  | _ => Raise (catalog_error "must be a finite decimal")
  end.

(** [s.isidentifier()], for the characters below U+0100. *)
Definition is_xid_start (c : ascii) : bool :=
  let n := code c in
  ((65 <=? n) && (n <=? 90)) || ((97 <=? n) && (n <=? 122)) || (n =? 95) || (n =? 170) || (n =? 181) || (n =? 186)
  || ((192 <=? n) && (n <=? 255) && negb (n =? 215) && negb (n =? 247)).

Definition isidentifier (s : string) : bool :=
  match s with
  | EmptyString => false
  | String c s => is_xid_start c
      && forallb (λ c, is_xid_start c || ((48 <=? code c) && (code c <=? 57)) || (code c =? 183)) (chars s)
  end.

(** ** Contracts *)

Record CorrectnessContractRef := {
  cc_mode : string;
  cc_top_k : Z;
  cc_min_ratio : string;
  cc_min_cosine : string;
  cc_max_rel_norm_err : string;
  cc_min_overlap : string
}.

Definition CorrectnessContractRef_init (mode : string) (top_k : Z) (min_ratio min_cosine max_rel_norm_err min_overlap : string)
    : result CorrectnessContractRef :=
  do! raise_if (negb (bool_decide (mode ∈ ["allclose"; "matched_ratio"; "cosine"; "topk_overlap"])))
        (catalog_error "correctness mode is not registered") ;;
  do! raise_if (top_k <? 0) (catalog_error "correctness top_k must be a non-negative integer") ;;
  let! min_ratio := _decimal_string min_ratio in
  let! min_cosine := _decimal_string min_cosine in
  let! max_rel_norm_err := _decimal_string max_rel_norm_err in
  let! min_overlap := _decimal_string min_overlap in
  Ok {| cc_mode := mode; cc_top_k := top_k; cc_min_ratio := min_ratio; cc_min_cosine := min_cosine;
        cc_max_rel_norm_err := max_rel_norm_err; cc_min_overlap := min_overlap |}.

Definition CorrectnessContractRef_snapshot (c : CorrectnessContractRef) : pyval :=
  py_dict [
    ("mode", PStr (cc_mode c));
    ("top_k", PInt (cc_top_k c));
    ("min_ratio", PStr (cc_min_ratio c));
    ("min_cosine", PStr (cc_min_cosine c));
    ("max_rel_norm_err", PStr (cc_max_rel_norm_err c));
    ("min_overlap", PStr (cc_min_overlap c))].

Record ToleranceContractRef := { tr_dtype : string; tr_atol : string; tr_rtol : string }.

Definition ToleranceContractRef_init (dtype atol rtol : string) : result ToleranceContractRef :=
  let! dtype := _simple_id (PStr dtype) in
  let! atol := _decimal_string atol in
  let! rtol := _decimal_string rtol in
  Ok {| tr_dtype := dtype; tr_atol := atol; tr_rtol := rtol |}.

Definition ToleranceContractRef_snapshot (t : ToleranceContractRef) : pyval :=
  py_dict [("dtype", PStr (tr_dtype t)); ("atol", PStr (tr_atol t)); ("rtol", PStr (tr_rtol t))].

Record TargetContractRef := {
  ct_schema_version : Z;
  ct_slot_id : string;
  ct_kind : string;
  ct_entry : string;
  ct_prepare : option string;
  ct_graph_dynamic_inputs : list string;
  ct_input_abi_id : string;
  ct_output_abi_id : string;
  ct_reference_id : string;
  ct_verification_profile_id : string;
  ct_binding_family_id : string;
  ct_correctness : CorrectnessContractRef;
  ct_tolerances : list ToleranceContractRef;
  ct_kl_threshold : option string
}.

Definition py_opt_str (o : option string) : pyval := match o with None => PNone | Some s => PStr s end.

(** [TargetContractRef.__post_init__]: the checked record, with its decimal
    normalised. *)
Definition TargetContractRef_init (c : TargetContractRef) : result TargetContractRef :=
  do! raise_if (negb (ct_schema_version c =? 1)) (catalog_error "target contract schema_version must be 1") ;;
  do! _simple_id (PStr (ct_slot_id c)) ;;
  do! raise_if (negb (bool_decide (ct_kind c ∈ ["op"; "block"; "collective"]))) (catalog_error "contract has invalid kind") ;;
  do! raise_if (negb (isidentifier (ct_entry c))) (catalog_error "contract entry is invalid") ;;
  do! raise_if (match ct_prepare c with Some p => negb (isidentifier p) | None => false end)
        (catalog_error "contract prepare is invalid") ;;
  do! raise_if (negb (bool_decide (NoDup (ct_graph_dynamic_inputs c)))
                || negb (forallb isidentifier (ct_graph_dynamic_inputs c)))
        (catalog_error "contract graph_dynamic_inputs are invalid") ;;
  do! _simple_id (PStr (ct_input_abi_id c)) ;;
  do! _simple_id (PStr (ct_output_abi_id c)) ;;
  do! _simple_id (PStr (ct_reference_id c)) ;;
  do! _simple_id (PStr (ct_verification_profile_id c)) ;;
  do! _simple_id (PStr (ct_binding_family_id c)) ;;
  let dtype_names := tr_dtype <$> ct_tolerances c in
  do! raise_if (negb (bool_decide (dtype_names = sorted_str dtype_names)) || negb (bool_decide (NoDup dtype_names)))
        (catalog_error "contract tolerances must be dtype-sorted and unique") ;;
  let! kl_threshold := match ct_kl_threshold c with
                       | Some t => result_map Some (_decimal_string t)
                       | None => Ok None
                       end in
  Ok {| ct_schema_version := ct_schema_version c; ct_slot_id := ct_slot_id c; ct_kind := ct_kind c;
        ct_entry := ct_entry c; ct_prepare := ct_prepare c; ct_graph_dynamic_inputs := ct_graph_dynamic_inputs c;
        ct_input_abi_id := ct_input_abi_id c; ct_output_abi_id := ct_output_abi_id c; ct_reference_id := ct_reference_id c;
        ct_verification_profile_id := ct_verification_profile_id c; ct_binding_family_id := ct_binding_family_id c;
        ct_correctness := ct_correctness c; ct_tolerances := ct_tolerances c; ct_kl_threshold := kl_threshold |}.

Definition TargetContractRef_snapshot (c : TargetContractRef) : pyval :=
  py_dict [
    ("schema_version", PInt (ct_schema_version c));
    ("slot_id", PStr (ct_slot_id c));
    ("kind", PStr (ct_kind c));
    ("entry", PStr (ct_entry c));
    ("prepare", py_opt_str (ct_prepare c));
    ("graph_dynamic_inputs", py_strs (ct_graph_dynamic_inputs c));
    ("input_abi_id", PStr (ct_input_abi_id c));
    ("output_abi_id", PStr (ct_output_abi_id c));
    ("reference_id", PStr (ct_reference_id c));
    ("verification_profile_id", PStr (ct_verification_profile_id c));
    ("binding_family_id", PStr (ct_binding_family_id c));
    ("correctness", CorrectnessContractRef_snapshot (ct_correctness c));
    ("tolerances", PList (ToleranceContractRef_snapshot <$> ct_tolerances c));
    ("kl_threshold", py_opt_str (ct_kl_threshold c))].

Definition TargetContractRef_digest `{Sha256} (c : TargetContractRef) : string :=
  digest_of "optima.target-contract" (TargetContractRef_snapshot c).

(** ** Composition rules *)

Record CompositionRule := {
  cr_schema_version : Z;
  cr_rule_id : string;
  cr_target_ids : list string;
  cr_precedence : list string;
  cr_mode : string;
  cr_binding_family_id : string;
  cr_binding_contract_digest : string
}.

Definition CompositionRule_init (r : CompositionRule) : result CompositionRule :=
  do! raise_if (negb (cr_schema_version r =? 1)) (catalog_error "composition rule schema_version must be 1") ;;
  do! _simple_id (PStr (cr_rule_id r)) ;;
  let targets := cr_target_ids r in
  let precedence := cr_precedence r in
  do! raise_if (negb (length targets =? 2)%nat || negb (bool_decide (targets = sorted_str targets)))
        (catalog_error "composition rule target_ids must contain exactly two sorted IDs") ;;
  do! raise_if (negb (bool_decide (NoDup targets))) (catalog_error "composition rule target_ids contain duplicates") ;;
  do! forM_ targets (λ t, do! _simple_id (PStr t) ;; Ok tt) ;;
  do! raise_if (negb (length precedence =? length targets)%nat
                || negb (bool_decide ((list_to_set precedence : gset string) = list_to_set targets)))
        (catalog_error "composition rule precedence must order the exact target_ids") ;;
  do! raise_if (negb (bool_decide (cr_mode r = "first_applicable")))
        (catalog_error "first_applicable is the only composition mode") ;;
  do! _simple_id (PStr (cr_binding_family_id r)) ;;
  do! raise_if (negb (is_hex64 (cr_binding_contract_digest r)))
        (catalog_error "composition binding_contract_digest must be lowercase SHA-256") ;;
  Ok r.

Definition CompositionRule_snapshot (r : CompositionRule) : pyval :=
  py_dict [
    ("schema_version", PInt (cr_schema_version r));
    ("rule_id", PStr (cr_rule_id r));
    ("target_ids", py_strs (cr_target_ids r));
    ("precedence", py_strs (cr_precedence r));
    ("mode", PStr (cr_mode r));
    ("binding_family_id", PStr (cr_binding_family_id r));
    ("binding_contract_digest", PStr (cr_binding_contract_digest r))].

(** ** Target specifications *)

Record TargetSpec := {
  ts_target_id : string;
  ts_kind : TargetKind;
  ts_members : list string;
  ts_displaces : gset string;
  ts_compatible_with : gset string;
  ts_requires : gset string;
  ts_allowed_features : gset string;
  ts_contract_ref : option TargetContractRef;
  ts_atomic_semantics_id : option string
}.

(** ** The catalog *)

Record TargetCatalog := {
  tc_by_id : list (string * TargetSpec);
  tc_by_members : list (gset string * TargetSpec);
  tc_composition_by_id : list (string * CompositionRule);
  tc_composition_by_pair : gmap (string * string) CompositionRule;
  tc_displacement_closures : gmap string (gset string);
  tc_requirement_closures : gmap string (gset string);
  tc_target_snapshots : list (string * pyval);
  tc_snapshot : pyval;
  tc_digest : string
}.

Definition member_set (members : list string) : gset string := list_to_set members.

(** The checks of a slot target and of an atomic target. *)
Definition check_kind (spec : TargetSpec) (members : list string) : result unit :=
  match ts_kind spec with
  | SLOT =>
      do! raise_if (negb (bool_decide (members = [ts_target_id spec])))
            (catalog_error "slot target must have itself as its sole member") ;;
      match ts_contract_ref spec with
      | None => Raise (catalog_error "slot target requires a TargetContractRef")
      | Some c =>
          do! raise_if (negb (bool_decide (ct_slot_id c = ts_target_id spec)))
                (catalog_error "slot target contract_ref names another slot") ;;
          raise_if (bool_decide (is_Some (ts_atomic_semantics_id spec)))
            (catalog_error "slot target may not declare atomic_semantics_id")
      end
  | ATOMIC =>
      do! raise_if (length members <? 2)%nat (catalog_error "atomic target requires at least two members") ;;
      do! raise_if (match ts_contract_ref spec with Some _ => true | None => false end)
            (catalog_error "atomic target may not declare contract_ref") ;;
      do! _simple_id (py_opt_str (ts_atomic_semantics_id spec)) ;;
      Ok tt
  end.

(** One iteration of the first loop, over the dicts [by_id] and [member_sets]. *)
Definition register_spec (st : list (string * TargetSpec) * list (gset string * string)) (spec : TargetSpec)
    : result (list (string * TargetSpec) * list (gset string * string)) :=
  let! target_id := _simple_id (PStr (ts_target_id spec)) in
  do! raise_if (bool_decide (target_id ∈ st.1.*1)) (catalog_error "duplicate target ID") ;;
  do! raise_if (is_nil (ts_members spec)) (catalog_error "target members must be a non-empty sequence") ;;
  let! members := mapM (λ m, _simple_id (PStr m)) (ts_members spec) in
  do! raise_if (negb (bool_decide (NoDup members))) (catalog_error "target has duplicate members") ;;
  do! check_kind spec members ;;
  do! raise_if (bool_decide (member_set members ∈ st.2.*1))
        (catalog_error "multiple targets register the same exact member set") ;;
  do! raise_if (negb (bool_decide (ts_allowed_features spec ⊆ KNOWN_CONTRIBUTION_FEATURES)))
        (catalog_error "target allows unknown features") ;;
  do! raise_if (negb (bool_decide (FEATURE_ENTRY ∈ ts_allowed_features spec)))
        (catalog_error "target must allow the entry feature") ;;
  do! raise_if (bool_decide (FEATURE_SETUP ∈ ts_allowed_features spec))
        (catalog_error "target may not allow engine-wide setup") ;;
  Ok (st.1 ++ [(target_id, spec)], st.2 ++ [(member_set members, target_id)]).

Section construction.
Context (by_id : list (string * TargetSpec)).

Definition known_ids : gset string := list_to_set by_id.*1.

(** [by_id[target_id]] *)
Definition spec_of (target_id : string) : result TargetSpec :=
  match assoc by_id target_id with Some s => Ok s | None => Raise (Exn KeyError target_id) end.

(** [getattr(by_id[target_id], relation)] *)
Definition related (relation : TargetSpec → gset string) (target_id : string) : result (gset string) :=
  result_map relation (spec_of target_id).

Definition check_relation (spec : TargetSpec) (set : gset string) : result unit :=
  do! raise_if (bool_decide (ts_target_id spec ∈ set)) (catalog_error "target may not relate to itself") ;;
  raise_if (negb (bool_decide (set ⊆ known_ids))) (catalog_error "relation names unknown targets").

Definition is_singleton (member : string) : bool :=
  match assoc by_id member with
  | Some s => bool_decide (ts_kind s = SLOT) && bool_decide (ts_members s = [member])
  | None => false
  end.

(** The second loop. *)
Definition check_relations (spec : TargetSpec) : result unit :=
  do! check_relation spec (ts_displaces spec) ;;
  do! check_relation spec (ts_compatible_with spec) ;;
  do! check_relation spec (ts_requires spec) ;;
  do! raise_if (negb (bool_decide (ts_displaces spec ∩ ts_compatible_with spec = ∅)))
        (catalog_error "target both displaces and is compatible with another") ;;
  do! raise_if (negb (bool_decide (ts_requires spec ∩ ts_displaces spec = ∅)))
        (catalog_error "target requires targets it displaces") ;;
  match ts_kind spec with
  | SLOT => Ok tt
  | ATOMIC =>
      do! raise_if (negb (forallb is_singleton (ts_members spec)))
            (catalog_error "atomic target has members without registered singletons") ;;
      raise_if (negb (bool_decide (member_set (ts_members spec) ⊆ ts_displaces spec)))
        (catalog_error "atomic target must explicitly displace member targets")
  end.

(** The third loop: compatibility is symmetric and excludes displacement. *)
Definition check_compatible (spec : TargetSpec) : result unit :=
  forM_ (elements (ts_compatible_with spec)) (λ other_id,
    let! other := spec_of other_id in
    do! raise_if (negb (bool_decide (ts_target_id spec ∈ ts_compatible_with other)))
          (catalog_error "compatible overlap must be symmetric") ;;
    raise_if (bool_decide (other_id ∈ ts_displaces spec) || bool_decide (ts_target_id spec ∈ ts_displaces other))
      (catalog_error "targets cannot be both compatible and displaced")).

(** [itertools.combinations(l, 2)] *)
Fixpoint combinations2 {A} (l : list A) : list (A * A) :=
  match l with
  | [] => []
  | x :: l => (pair x <$> l) ++ combinations2 l
  end.

(** The fourth loop: targets that share a member displace each other. *)
Definition check_shared (pair : TargetSpec * TargetSpec) : result unit :=
  let lhs := pair.1 in
  let rhs := pair.2 in
  if bool_decide (member_set (ts_members lhs) ∩ member_set (ts_members rhs) = ∅) then Ok tt
  else
    do! raise_if (bool_decide (ts_target_id rhs ∈ ts_compatible_with lhs))
          (catalog_error "targets share members but first_applicable rules do not define member ownership") ;;
    raise_if (negb (bool_decide (ts_target_id rhs ∈ ts_displaces lhs)
                    || bool_decide (ts_target_id lhs ∈ ts_displaces rhs)))
      (catalog_error "targets share members without explicit displacement or compatible overlap").

Definition closures (relation : TargetSpec → gset string) : result (gmap string (gset string)) :=
  let! rows := mapM (λ t, result_map (pair t) (relation_closure (related relation) by_id.*1 t)) by_id.*1 in
  Ok (list_to_map rows).

Definition closure_of (m : gmap string (gset string)) (target_id : string) : result (gset string) :=
  match m !! target_id with Some s => Ok s | None => Raise (Exn KeyError target_id) end.

(** The fifth loop: what a target requires is neither displaced by it nor
    displaces it. *)
Definition check_contradiction (displacement requirement : gmap string (gset string)) (spec : TargetSpec) : result unit :=
  let! displaced := closure_of displacement (ts_target_id spec) in
  let! required := closure_of requirement (ts_target_id spec) in
  do! raise_if (negb (bool_decide (displaced ∩ required = ∅))) (catalog_error "target requires its displacement closure") ;;
  let! reverse := mapM (λ dependency, let! s := closure_of displacement dependency in
                                      Ok (bool_decide (ts_target_id spec ∈ s))) (elements required) in
  raise_if (existsb id reverse) (catalog_error "target requires targets that displace it").

(** *** Composition rules of a catalog *)

Record rule_tables := {
  ru_by_id : list (string * CompositionRule);
  ru_by_targets : list (list string * CompositionRule);
  ru_by_pair : gmap (string * string) CompositionRule
}.

(** The pairs of one rule. *)
Definition register_pair (rule : CompositionRule) (by_pair : gmap (string * string) CompositionRule)
    (pair : string * string) : result (gmap (string * string) CompositionRule) :=
  let! lhs := spec_of pair.1 in
  let! rhs := spec_of pair.2 in
  do! raise_if (negb (bool_decide (pair.2 ∈ ts_compatible_with lhs)) || negb (bool_decide (pair.1 ∈ ts_compatible_with rhs)))
        (catalog_error "composition rule targets must be explicitly compatible") ;;
  match by_pair !! pair with
  | Some _ => Raise (catalog_error "compatible target pair is covered by multiple composition rules")
  | None => Ok (<[pair := rule]> by_pair)
  end.

Definition register_rule (t : rule_tables) (rule : CompositionRule) : result rule_tables :=
  do! raise_if (bool_decide (cr_rule_id rule ∈ (ru_by_id t).*1)) (catalog_error "duplicate composition rule ID") ;;
  do! raise_if (bool_decide (cr_target_ids rule ∈ (ru_by_targets t).*1)) (catalog_error "duplicate composition rule targets") ;;
  do! raise_if (negb (bool_decide (member_set (cr_target_ids rule) ⊆ known_ids)))
        (catalog_error "composition rule names unknown targets") ;;
  let! by_pair := foldM (register_pair rule) (combinations2 (cr_target_ids rule)) (ru_by_pair t) in
  do! forM_ (cr_target_ids rule) (λ target_id,
    let! spec := spec_of target_id in
    raise_if (match ts_contract_ref spec with
              | Some c => negb (bool_decide (ct_binding_family_id c = cr_binding_family_id rule))
              | None => false
              end) (catalog_error "composition rule binding family does not match target")) ;;
  Ok {| ru_by_id := ru_by_id t ++ [(cr_rule_id rule, rule)];
        ru_by_targets := ru_by_targets t ++ [(cr_target_ids rule, rule)];
        ru_by_pair := by_pair |}.

(** Every compatible pair has a rule and every rule a compatible pair. *)
Definition check_coverage (by_pair : gmap (string * string) CompositionRule) (pair : string * string) : result unit :=
  let! lhs := spec_of pair.1 in
  let compatible := bool_decide (pair.2 ∈ ts_compatible_with lhs) in
  let has_rule := match by_pair !! pair with Some _ => true | None => false end in
  do! raise_if (compatible && negb has_rule) (catalog_error "compatible targets require a CompositionRule") ;;
  raise_if (negb compatible && has_rule) (catalog_error "composition rule has no compatible target pair").

(** *** Snapshots *)

Context `{Sha256}.

(** [self._by_id[member].contract_ref.digest] *)
Definition member_contract_digest (member : string) : result string :=
  let! spec := spec_of member in
  match ts_contract_ref spec with
  | Some c => Ok (TargetContractRef_digest c)
  | None => Raise (Exn AttributeError "digest")
  end.

Definition _build_target_snapshot (spec : TargetSpec) : result pyval :=
  let common := [
    ("target_id", PStr (ts_target_id spec));
    ("kind", PStr (TargetKind_value (ts_kind spec)));
    ("members", py_strs (ts_members spec));
    ("displaces", py_strs (sorted_set (ts_displaces spec)));
    ("compatible_with", py_strs (sorted_set (ts_compatible_with spec)));
    ("requires", py_strs (sorted_set (ts_requires spec)));
    ("allowed_features", py_strs (sorted_set (ts_allowed_features spec)))] in
  match ts_kind spec with
  | SLOT =>
      match ts_contract_ref spec with
      | Some c => Ok (py_dict (common ++ [("contract_ref", TargetContractRef_snapshot c);
                                          ("contract_digest", PStr (TargetContractRef_digest c))]))
      | None => Raise (Exn AssertionError "")
      end
  | ATOMIC =>
      match ts_atomic_semantics_id spec with
      | None => Raise (Exn AssertionError "")
      | Some semantics =>
          let! member_digests := mapM member_contract_digest (ts_members spec) in
          let contract_payload := py_dict [
            ("schema_version", PInt 1);
            ("target_id", PStr (ts_target_id spec));
            ("atomic_semantics_id", PStr semantics);
            ("member_contract_digests", py_strs member_digests)] in
          Ok (py_dict (common ++ [
            ("atomic_semantics_id", PStr semantics);
            ("member_contract_digests", py_strs member_digests);
            ("contract_digest", PStr (digest_of "optima.atomic-target-contract" contract_payload))]))
      end
  end.
End construction.

Definition TargetCatalog_init `{Sha256} (specs : list TargetSpec) (rules : list CompositionRule) : result TargetCatalog :=
  do! raise_if (is_nil specs) (catalog_error "target catalog must not be empty") ;;
  let! st := foldM register_spec specs ([], []) in
  let by_id := st.1 in
  do! forM_ by_id.*2 (check_relations by_id) ;;
  do! forM_ by_id.*2 (check_compatible by_id) ;;
  do! forM_ (combinations2 by_id.*2) check_shared ;;
  do! validate_relation_dag (related by_id ts_displaces) by_id.*1 ;;
  do! validate_relation_dag (related by_id ts_requires) by_id.*1 ;;
  let! displacement_closures := closures by_id ts_displaces in
  let! requirement_closures := closures by_id ts_requires in
  do! forM_ by_id.*2 (check_contradiction displacement_closures requirement_closures) ;;
  let! t := foldM (register_rule by_id) rules {| ru_by_id := []; ru_by_targets := []; ru_by_pair := ∅ |} in
  do! forM_ (combinations2 (sorted_str by_id.*1)) (check_coverage by_id (ru_by_pair t)) ;;
  let! visited := precedence_visits by_id.*1 (cr_precedence <$> rules) in
  do! raise_if (negb (length visited =? length by_id)%nat) (catalog_error "composition precedence contains a cycle") ;;
  let ordered := sorted_by fst by_id in
  let! by_members := mapM (λ row, result_map (pair row.1) (spec_of ordered row.2)) st.2 in
  let composition_by_id := sorted_by fst (ru_by_id t) in
  let! target_snapshots := mapM (λ row, result_map (pair row.1) (_build_target_snapshot ordered row.2)) ordered in
  let snapshot := py_dict [
    ("schema_version", PInt _CATALOG_SCHEMA_VERSION);
    ("policy_version", PStr _CATALOG_POLICY_VERSION);
    ("artifact_provider_registry", ArtifactProviderRegistry_snapshot ARTIFACT_PROVIDERS);
    ("artifact_provider_registry_digest", PStr (ArtifactProviderRegistry_digest ARTIFACT_PROVIDERS));
    ("targets", PList target_snapshots.*2);
    ("composition_rules", PList ((λ row, CompositionRule_snapshot row.2) <$> composition_by_id))] in
  let! digest := canonical_digest "optima.target-catalog" snapshot (PInt 1) in
  Ok {| tc_by_id := ordered;
        tc_by_members := by_members;
        tc_composition_by_id := composition_by_id;
        tc_composition_by_pair := ru_by_pair t;
        tc_displacement_closures := displacement_closures;
        tc_requirement_closures := requirement_closures;
        tc_target_snapshots := target_snapshots;
        tc_snapshot := snapshot;
        tc_digest := digest |}.

(** *** Queries *)

Definition require (c : TargetCatalog) (target_id : string) : result TargetSpec :=
  match assoc (tc_by_id c) target_id with
  | Some spec => Ok spec
  | None => Raise (resolution_error "unknown contribution target")
  end.

(** [self._target_snapshots[target_id]] *)
Definition target_snapshot (c : TargetCatalog) (target_id : string) : result pyval :=
  match assoc (tc_target_snapshots c) target_id with
  | Some snapshot => Ok snapshot
  | None => Raise (Exn KeyError target_id)
  end.

Definition target_spec_digest `{Sha256} (c : TargetCatalog) (target_id : string) : result string :=
  do! require c target_id ;;
  let! snapshot := target_snapshot c target_id in
  canonical_digest "optima.target-spec" snapshot (PInt 1).

Definition contract_digest (c : TargetCatalog) (target_id : string) : result string :=
  do! require c target_id ;;
  let! snapshot := target_snapshot c target_id in
  match snapshot with
  | PDict kvs => match mapping_get kvs "contract_digest" with
                 | PStr s => Ok s
                 | _ => Raise (Exn AssertionError "")
                 end
  | _ => Raise (Exn AssertionError "")
  end.

Definition displacement_closure (c : TargetCatalog) (target_id : string) : result (gset string) :=
  do! require c target_id ;;
  closure_of (tc_displacement_closures c) target_id.

Definition requires_closure (c : TargetCatalog) (target_id : string) : result (gset string) :=
  do! require c target_id ;;
  closure_of (tc_requirement_closures c) target_id.

(** [tuple(sorted((lhs, rhs)))] *)
Definition sorted_pair (lhs rhs : string) : string * string :=
  if bool_decide (String.le lhs rhs) then (lhs, rhs) else (rhs, lhs).

Definition composition_rule (c : TargetCatalog) (lhs rhs : string) : result CompositionRule :=
  do! raise_if (bool_decide (lhs = rhs)) (resolution_error "composition requires two distinct target IDs") ;;
  do! require c lhs ;;
  do! require c rhs ;;
  match tc_composition_by_pair c !! sorted_pair lhs rhs with
  | Some rule => Ok rule
  | None => Raise (resolution_error "targets have no registered composition rule")
  end.

(** The second loop of [validate_active_targets]. *)
Definition check_active_target (c : TargetCatalog) (active : list string) (target_id : string) : result unit :=
  let active_set : gset string := list_to_set active in
  let! displaced := displacement_closure c target_id in
  do! raise_if (negb (bool_decide (displaced ∩ active_set = ∅))) (resolution_error "active target displaces") ;;
  let! required := requires_closure c target_id in
  raise_if (negb (bool_decide (required ∖ active_set = ∅))) (resolution_error "active target requires active contributions").

Definition validate_active_targets (c : TargetCatalog) (active : list string) : result (list string) :=
  do! raise_if (negb (bool_decide (NoDup active))) (resolution_error "active target IDs contain duplicates") ;;
  do! forM_ active (λ t, do! require c t ;; Ok tt) ;;
  do! forM_ active (check_active_target c active) ;;
  Ok (sorted_str active).

(** The precedences restricted to the active targets; a restriction of fewer
    than two targets has no edges. *)
Definition active_precedences (c : TargetCatalog) (active : list string) : list (list string) :=
  (λ row, filter (λ t, t ∈ active) (cr_precedence row.2)) <$> tc_composition_by_id c.

Definition ordered_active_targets (c : TargetCatalog) (target_ids : list string) : result (list string) :=
  let! active := validate_active_targets c target_ids in
  let! ordered := precedence_order active (active_precedences c active) in
  do! raise_if (negb (length ordered =? length active)%nat)
        (resolution_error "active composition precedence contains a cycle") ;;
  Ok ordered.
