(* ===== verification/CatalogResolve.v ===== *)
(** * Resolving bundles against the catalog, and the default catalog
      (src/optima/target_catalog.py)

    The contribution features of a parsed bundle manifest, the evidence rules
    for complete features, [resolve_manifest] and [resolve_intake], and the
    catalog the validator ships.

    Of a [Manifest] (src/optima/manifest.py) the model keeps the fields that
    resolution reads.  The [reason] of an unregistered result is, like the text
    of an exception, kept without its interpolated parts. *)

From Stdlib Require Import ZArith Lia Ascii.
From stdpp Require Import base tactics numbers list strings gmap sorting.
From S2P Require Import Prelude PyValue Sha256 Identity Strict Provider Catalog.

Definition DEFAULT_VARIANT : string := "default".

Record AOTExport := { ae_provider : string }.

Record OpEntry := {
  op_slot : string;
  op_variant : string;
  op_prepare : option string;
  op_setup : option string;
  op_base_kernel : option string;
  op_override_point : option string;
  op_cuda_sources : list string;
  op_extra : list (string * pyval);
  op_aot_exports : list AOTExport
}.

Record DepPatchEntry := { dp_target : string }.
Record CompetitionEntry := { ce_target : string; ce_mode : string }.

Record Manifest := {
  mf_bundle_id : string;
  mf_ops : list OpEntry;
  mf_dep_patches : list DepPatchEntry;
  mf_competition : option CompetitionEntry
}.

Record ResolvedTarget := {
  rt_target_id : option string;
  rt_kind : option TargetKind;
  rt_members : list string;
  rt_registered : bool;
  rt_implicit : bool;
  rt_observed_features : gset string;
  rt_features_complete : bool;
  rt_reason : option string;
  rt_contract_digest : option string
}.

Definition require_registered (r : ResolvedTarget) : result ResolvedTarget :=
  do! raise_if (negb (rt_registered r)) (resolution_error "proposal has no registered contribution target") ;;
  Ok r.

Definition require_complete_features (r : ResolvedTarget) : result ResolvedTarget :=
  do! raise_if (negb (rt_features_complete r))
        (resolution_error "target identity lacks complete trusted bundle-feature evidence") ;;
  Ok r.

(** ** Features of a manifest *)

(** [tuple(dict.fromkeys(...))]: the first occurrences, in order. *)
Fixpoint distinct (seen : list string) (l : list string) : list string :=
  match l with
  | [] => []
  | x :: l => if bool_decide (x ∈ seen) then distinct seen l else x :: distinct (x :: seen) l
  end.

Definition _semantic_members (m : Manifest) : list string := distinct [] (op_slot <$> mf_ops m).

Definition feature_if (b : bool) (feature : string) : gset string := if b then {[feature]} else ∅.
Definition present {A} (o : option A) : bool := match o with Some _ => true | None => false end.

(** What one row adds to [features]. *)
Definition op_features (op : OpEntry) : gset string :=
  feature_if (negb (bool_decide (op_variant op = DEFAULT_VARIANT))) FEATURE_VARIANTS
  ∪ feature_if (present (op_prepare op)) FEATURE_PREPARE
  ∪ feature_if (present (op_setup op)) FEATURE_SETUP
  ∪ feature_if (present (op_base_kernel op) || present (op_override_point op)) FEATURE_OVERRIDE
  ∪ feature_if (negb (is_nil (op_cuda_sources op))) FEATURE_CUDA_SOURCES
  ∪ list_to_set ((λ e, "aot:" +:+ ae_provider e) <$> op_aot_exports op)
  ∪ list_to_set ((λ kv, "op_extra:" +:+ kv.1) <$> op_extra op).

(** [counts[op.slot]] after the loop. *)
Definition slot_count (m : Manifest) (slot : string) : nat := length (filter (λ s, s = slot) (op_slot <$> mf_ops m)).

Definition manifest_declared_features (m : Manifest) : gset string :=
  {[FEATURE_ENTRY]}
  ∪ ⋃ (op_features <$> mf_ops m)
  ∪ feature_if (existsb (λ slot, (1 <? slot_count m slot)%nat) (op_slot <$> mf_ops m)) FEATURE_VARIANTS
  ∪ list_to_set ((λ p, "dep_patch:" +:+ dp_target p) <$> mf_dep_patches m).

(** [text.endswith(suffix)] *)
Definition ends_with (suffix s : string) : bool :=
  bool_decide (String.substring (String.length s - String.length suffix) (String.length suffix) s = suffix)
  && (String.length suffix <=? String.length s)%nat.

(** The ids of [{export.provider for op in manifest.ops for export in op.aot_exports}], sorted. *)
Definition declared_provider_ids (m : Manifest) : list string :=
  sorted_set (list_to_set (mf_ops m ≫= λ op, ae_provider <$> op_aot_exports op)).

(** The last loop: a provider's rebuild feature needs a declared export. *)
Definition check_rebuild_declared (features : gset string) (declared : list ArtifactProviderDescriptor)
    (descriptor : ArtifactProviderDescriptor) : result unit :=
  raise_if (bool_decide (ad_rebuild_feature descriptor ∈ features)
            && negb (existsb (λ row, bool_decide (ad_rebuild_feature row = ad_rebuild_feature descriptor)) declared))
    (resolution_error "complete feature evidence selects a rebuild without declared artifact-provider AOT exports").

Definition _validate_complete_feature_evidence (m : Manifest) (features : gset string) : result unit :=
  let patches := existsb (starts_with "dep_patch:") (elements features) in
  let applies_patch := bool_decide (FEATURE_REBUILD_APPLY_DEP_PATCH ∈ features) in
  do! raise_if (patches && negb applies_patch)
        (resolution_error "complete feature evidence has a dependency patch without rebuild:apply_dep_patch") ;;
  do! raise_if (applies_patch && negb patches)
        (resolution_error "complete feature evidence selects rebuild:apply_dep_patch without a declared dependency patch") ;;
  let has_cuda := bool_decide (FEATURE_CUDA_SOURCES ∈ features) in
  let builds_cuda := bool_decide (FEATURE_REBUILD_BUILD_CUDA_EXT ∈ features) in
  do! raise_if (has_cuda && negb builds_cuda)
        (resolution_error "complete feature evidence has CUDA sources without rebuild:build_cuda_ext") ;;
  do! raise_if (builds_cuda && negb has_cuda)
        (resolution_error "complete feature evidence selects rebuild:build_cuda_ext without declared CUDA sources") ;;
  do! raise_if (builds_cuda && negb (existsb (ends_with ".cu") (mf_ops m ≫= op_cuda_sources)))
        (resolution_error "rebuild:build_cuda_ext requires a declared .cu compilation unit") ;;
  let! declared := reraise (λ c, bool_decide (c = ArtifactProviderPolicyError)) (λ e, resolution_error (exn_msg e))
    (mapM (λ id, ArtifactProviderRegistry_require ARTIFACT_PROVIDERS (PStr id)) (declared_provider_ids m)) in
  do! forM_ declared (λ d,
        raise_if (negb (bool_decide (ad_required_target_features d ⊆ features)))
          (resolution_error "complete feature evidence has artifact-provider AOT exports without required features")) ;;
  forM_ (ArtifactProviderRegistry_descriptors ARTIFACT_PROVIDERS) (check_rebuild_declared features declared).

(** ** Resolution *)

Definition unregistered (members : gset string) (implicit : bool) (features : gset string) (complete : bool) (reason : string)
    : ResolvedTarget :=
  {| rt_target_id := None; rt_kind := None; rt_members := sorted_set members; rt_registered := false;
     rt_implicit := implicit; rt_observed_features := features; rt_features_complete := complete;
     rt_reason := Some reason; rt_contract_digest := None |}.

(** The checks shared by implicit and explicit requests. *)
Definition resolve_spec (m : Manifest) (spec : TargetSpec) (implicit : bool) (features : gset string) (complete : bool)
    : result ResolvedTarget :=
  do! raise_if (negb (bool_decide (member_set (_semantic_members m) = member_set (ts_members spec))))
        (resolution_error "target requires exact members") ;;
  do! raise_if (negb (bool_decide (features ⊆ ts_allowed_features spec)))
        (resolution_error "target rejects observed features") ;;
  do! (if complete then _validate_complete_feature_evidence m features else Ok tt) ;;
  Ok {| rt_target_id := Some (ts_target_id spec); rt_kind := Some (ts_kind spec); rt_members := ts_members spec;
        rt_registered := true; rt_implicit := implicit; rt_observed_features := features;
        rt_features_complete := complete; rt_reason := None; rt_contract_digest := None |}.

(** [self._by_members.get(members)] *)
Definition by_members (c : TargetCatalog) (members : gset string) : option TargetSpec :=
  match List.find (λ row, bool_decide (row.1 = members)) (tc_by_members c) with Some row => Some row.2 | None => None end.

Definition resolve_manifest (c : TargetCatalog) (m : Manifest) (observed_features : option (list string))
    : result ResolvedTarget :=
  let features_complete := present observed_features in
  let extra_features := match observed_features with Some l => l | None => [] end in
  do! raise_if (existsb (λ f, bool_decide (f = "")) extra_features)
        (resolution_error "observed_features must contain non-empty strings") ;;
  let features := manifest_declared_features m ∪ list_to_set extra_features in
  let members := member_set (_semantic_members m) in
  match mf_competition m with
  | None =>
      match by_members c members with
      | None => Ok (unregistered members true features features_complete "proposal has no registered exact target")
      | Some spec => resolve_spec m spec true features features_complete
      end
  | Some request =>
      do! raise_if (negb (id_matches (ce_target request)))
            (resolution_error "manifest competition target/mode are malformed") ;;
      if bool_decide (ce_mode request = "system")
      then Ok (unregistered members false features features_complete "legacy competition mode 'system' is unregistered")
      else
        do! raise_if (negb (bool_decide (ce_mode request ∈ [TargetKind_value SLOT; TargetKind_value ATOMIC])))
              (resolution_error "unknown competition mode") ;;
        let! spec := require c (ce_target request) in
        do! raise_if (negb (bool_decide (ce_mode request = TargetKind_value (ts_kind spec))))
              (resolution_error "target is of another catalog kind") ;;
        resolve_spec m spec false features features_complete
  end.

Definition resolve_intake (c : TargetCatalog) (m : Manifest) (observed_features : list string) : result ResolvedTarget :=
  let! r := resolve_manifest c m (Some observed_features) in
  let! r := require_registered r in
  require_complete_features r.

(** ** The default catalog *)

Definition SINGLETON_TARGET_IDS : list string := [
  "activation.silu_and_mul"; "attention.decode"; "attention.msa_block_score"; "attention.msa_prefill_block_score";
  "attention.sdpa"; "collective.all_reduce"; "collective.ar_residual_rmsnorm"; "collective.moe_finalize_ar_rmsnorm";
  "moe.fused_experts"; "moe.fused_experts_reduce"; "norm.rmsnorm"].

Definition MOE_EPILOGUE_ATOMIC_TARGET : string := "collective.moe_epilogue.v1".
Definition MOE_EPILOGUE_MEMBERS : list string := ["collective.ar_residual_rmsnorm"; "collective.moe_finalize_ar_rmsnorm"].

Definition _STANDARD_TOLERANCES : result (list ToleranceContractRef) :=
  mapM (λ t, ToleranceContractRef_init t.1.1 t.1.2 t.2)
    [("bfloat16", "0.02", "0.02"); ("float16", "0.01", "0.01"); ("float32", "0.00001", "0.00001")].

(** [CorrectnessContractRef(mode=..., ...)] with the class's defaults. *)
Definition correctness (mode : string) (top_k : Z) (min_ratio min_overlap : string) : result CorrectnessContractRef :=
  CorrectnessContractRef_init mode top_k min_ratio "0" "0" min_overlap.

Definition _contract_ref (slot_id kind entry : string) (prepare : option string) (graph_dynamic_inputs : list string)
    (input_abi_id output_abi_id reference_id verification_profile_id binding_family_id : string)
    (correctness : result CorrectnessContractRef) (kl_threshold : option string) : result TargetContractRef :=
  let! correctness := correctness in
  let! tolerances := _STANDARD_TOLERANCES in
  TargetContractRef_init {|
    ct_schema_version := 1; ct_slot_id := slot_id; ct_kind := kind; ct_entry := entry; ct_prepare := prepare;
    ct_graph_dynamic_inputs := graph_dynamic_inputs; ct_input_abi_id := input_abi_id; ct_output_abi_id := output_abi_id;
    ct_reference_id := reference_id; ct_verification_profile_id := verification_profile_id;
    ct_binding_family_id := binding_family_id; ct_correctness := correctness; ct_tolerances := tolerances;
    ct_kl_threshold := kl_threshold |}.

Definition _SINGLETON_CONTRACTS : list (string * result TargetContractRef) := [
  ("activation.silu_and_mul", _contract_ref "activation.silu_and_mul" "op" "silu_and_mul" None ["x"]
     "activation.silu_and_mul.input.v1" "activation.silu_and_mul.output.v1" "activation.silu_and_mul.reference.v1"
     "activation.silu_and_mul.verify.v1" "sglang.activation.silu_and_mul.v1" (correctness "allclose" 0 "1" "0") None);
  ("attention.decode", _contract_ref "attention.decode" "block" "attention_decode" None ["q"; "k"; "v"; "seq_lens"]
     "attention.decode.input.v1" "attention.decode.output.v1" "attention.decode.reference.v1"
     "attention.decode.verify.v1" "sglang.attention.decode.v1" (correctness "matched_ratio" 0 "0.99" "0") (Some "0.03"));
  ("attention.msa_block_score", _contract_ref "attention.msa_block_score" "block" "msa_block_score" None ["q"; "index_k"; "seq_lens"]
     "attention.msa_block_score.input.v1" "attention.msa_block_score.output.v1" "attention.msa_block_score.reference.v1"
     "attention.msa_block_score.verify.v1" "sglang.attention.msa.decode-score.v1" (correctness "topk_overlap" 8 "1" "0.875")
     (Some "0.03"));
  ("attention.msa_prefill_block_score", _contract_ref "attention.msa_prefill_block_score" "block" "msa_prefill_block_score" None
     ["q"; "index_k"] "attention.msa_prefill_block_score.input.v1" "attention.msa_prefill_block_score.output.v1"
     "attention.msa_prefill_block_score.reference.v1" "attention.msa_prefill_block_score.verify.v1"
     "sglang.attention.msa.prefill-score.v1" (correctness "topk_overlap" 8 "1" "0.9") (Some "0.03"));
  ("attention.sdpa", _contract_ref "attention.sdpa" "block" "attention" None ["q"; "k"; "v"]
     "attention.sdpa.input.v1" "attention.sdpa.output.v1" "attention.sdpa.reference.v1" "attention.sdpa.verify.v1"
     "sglang.attention.radix.v1" (correctness "matched_ratio" 0 "0.99" "0") (Some "0.03"));
  ("collective.all_reduce", _contract_ref "collective.all_reduce" "collective" "all_reduce" None ["x"]
     "collective.all_reduce.input.v1" "collective.all_reduce.output.v1" "collective.all_reduce.reference.v1"
     "collective.all_reduce.verify.v1" "sglang.collective.all_reduce.v1" (correctness "matched_ratio" 0 "0.99" "0") None);
  ("collective.ar_residual_rmsnorm", _contract_ref "collective.ar_residual_rmsnorm" "collective" "ar_residual_rmsnorm" None
     ["x"; "residual"] "collective.ar_residual_rmsnorm.input.v1" "collective.ar_residual_rmsnorm.output.v1"
     "collective.ar_residual_rmsnorm.reference.v1" "collective.ar_residual_rmsnorm.verify.v1"
     "sglang.collective.ar-fusion.v1" (correctness "matched_ratio" 0 "0.99" "0") None);
  ("collective.moe_finalize_ar_rmsnorm", _contract_ref "collective.moe_finalize_ar_rmsnorm" "collective" "moe_finalize_ar_rmsnorm" None
     ["gemm_out"; "row_map"; "scales"; "residual"] "collective.moe_finalize_ar_rmsnorm.input.v1"
     "collective.moe_finalize_ar_rmsnorm.output.v1" "collective.moe_finalize_ar_rmsnorm.reference.v1"
     "collective.moe_finalize_ar_rmsnorm.verify.v1" "sglang.collective.moe-finalize.v1"
     (correctness "matched_ratio" 0 "0.99" "0") None);
  ("moe.fused_experts", _contract_ref "moe.fused_experts" "block" "fused_experts" (Some "prepare") ["x"; "topk_ids"; "topk_weights"]
     "moe.fused_experts.input.v1" "moe.fused_experts.output.v1" "moe.fused_experts.reference.v1"
     "moe.fused_experts.verify.v1" "sglang.moe.fused-experts.dispatch.v1" (correctness "matched_ratio" 0 "0.97" "0") None);
  ("moe.fused_experts_reduce", _contract_ref "moe.fused_experts_reduce" "collective" "fused_experts_reduce" (Some "prepare")
     ["x"; "topk_ids"; "topk_weights"] "moe.fused_experts_reduce.input.v1" "moe.fused_experts_reduce.output.v1"
     "moe.fused_experts_reduce.reference.v1" "moe.fused_experts_reduce.verify.v1"
     "sglang.moe.fused-experts.dispatch.v1" (correctness "matched_ratio" 0 "0.97" "0") None);
  ("norm.rmsnorm", _contract_ref "norm.rmsnorm" "op" "rmsnorm" None ["x"]
     "norm.rmsnorm.input.v1" "norm.rmsnorm.output.v1" "norm.rmsnorm.reference.v1" "norm.rmsnorm.verify.v1"
     "sglang.norm.rmsnorm.v1" (correctness "allclose" 0 "1" "0") None)].

Definition moe_pair : gset string := {["moe.fused_experts"; "moe.fused_experts_reduce"]}.

(** One iteration of the loop over [SINGLETON_TARGET_IDS]. *)
Definition singleton_spec (target_id : string) : result TargetSpec :=
  let! contract := match assoc _SINGLETON_CONTRACTS target_id with
                   | Some c => c
                   | None => Raise (Exn KeyError target_id)
                   end in
  Ok {| ts_target_id := target_id; ts_kind := SLOT; ts_members := [target_id]; ts_displaces := ∅;
        ts_compatible_with := if bool_decide (target_id ∈ moe_pair) then moe_pair ∖ {[target_id]} else ∅;
        ts_requires := ∅;
        ts_allowed_features := if bool_decide (target_id = "collective.moe_finalize_ar_rmsnorm")
                               then _STANDARD_COMPONENT_FEATURES ∪ _FLASHINFER_FEATURES
                               else _STANDARD_COMPONENT_FEATURES;
        ts_contract_ref := Some contract; ts_atomic_semantics_id := None |}.

Definition moe_epilogue_spec : TargetSpec :=
  {| ts_target_id := MOE_EPILOGUE_ATOMIC_TARGET; ts_kind := ATOMIC; ts_members := MOE_EPILOGUE_MEMBERS;
     ts_displaces := list_to_set MOE_EPILOGUE_MEMBERS; ts_compatible_with := ∅; ts_requires := ∅;
     ts_allowed_features := _STANDARD_COMPONENT_FEATURES ∪ _FLASHINFER_FEATURES;
     ts_contract_ref := None; ts_atomic_semantics_id := Some "collective.moe_epilogue.v1.atomic-semantics.v1" |}.

Section default_catalog.
Context `{Sha256}.

Definition moe_rule : CompositionRule :=
  {| cr_schema_version := 1; cr_rule_id := "sglang.moe.reduce-first.v1"; cr_target_ids := sorted_set moe_pair;
     cr_precedence := ["moe.fused_experts_reduce"; "moe.fused_experts"]; cr_mode := "first_applicable";
     cr_binding_family_id := "sglang.moe.fused-experts.dispatch.v1";
     cr_binding_contract_digest := digest_of "optima.binding-contract" (py_dict [
       ("schema_version", PInt 1);
       ("binding_family_id", PStr "sglang.moe.fused-experts.dispatch.v1");
       ("precedence", py_strs ["moe.fused_experts_reduce"; "moe.fused_experts"]);
       ("mode", PStr "first_applicable")]) |}.

Definition default_target_catalog : result TargetCatalog :=
  let! singletons := mapM singleton_spec SINGLETON_TARGET_IDS in
  let! rule := CompositionRule_init moe_rule in
  TargetCatalog_init (singletons ++ [moe_epilogue_spec]) [rule].
End default_catalog.

(** [resolve_target], with the catalog made explicit. *)
Definition resolve_target (c : TargetCatalog) (m : Manifest) : result ResolvedTarget := resolve_manifest c m None.

Definition resolve_intake_target (c : TargetCatalog) (m : Manifest) (observed_features : list string) : result ResolvedTarget :=
  resolve_intake c m observed_features.
