(* ===== verification/CatalogFacts.v ===== *)
(** * What the construction of a catalog establishes

    [catalog_wf] is what the rest of the program may rely on of a constructed
    catalog; [TargetCatalog_init_wf] discharges it from the checks of the
    constructor and the graph searches of [Graph]. *)

From Stdlib Require Import ZArith Lia Ascii.
From stdpp Require Import base tactics numbers list strings gmap sorting relations.
From S2P Require Import Prelude PyValue Sha256 Identity Strict Graph Provider Catalog.

(** ** Specifications *)

Lemma _simple_id_Ok v s : _simple_id v = Ok s → v = PStr s ∧ id_matches s = true.
Proof. unfold _simple_id. destruct v; try done. intros Hs. inv_ok Hs. bool_prop. by subst. Qed.

Lemma simple_ids_Ok l l' : mapM (λ m, _simple_id (PStr m)) l = Ok l' → l' = l.
Proof.
  intros Hl%mapM_Ok. induction Hl as [|x y l l' Hx Hl IH]; [done|]. apply _simple_id_Ok in Hx as [[= ->] _]. by subst.
Qed.

(** ** The first loop *)

Definition spec_row (s : TargetSpec) : string * TargetSpec := (ts_target_id s, s).

(** What the first loop checks of one specification. *)
Record spec_wf (s : TargetSpec) : Prop := {
  sw_id : id_matches (ts_target_id s) = true;
  sw_members : ts_members s ≠ [] ∧ NoDup (ts_members s);
  sw_slot : ts_kind s = SLOT → ts_members s = [ts_target_id s] ∧
    ∃ contract, ts_contract_ref s = Some contract ∧ ct_slot_id contract = ts_target_id s;
  sw_atomic : ts_kind s = ATOMIC → (2 ≤ length (ts_members s))%nat ∧ ts_contract_ref s = None ∧
    ∃ semantics, ts_atomic_semantics_id s = Some semantics;
  sw_features : ts_allowed_features s ⊆ KNOWN_CONTRIBUTION_FEATURES ∧ FEATURE_ENTRY ∈ ts_allowed_features s ∧
    FEATURE_SETUP ∉ ts_allowed_features s
}.

Lemma check_kind_Ok s u : check_kind s (ts_members s) = Ok u →
  (ts_kind s = SLOT → ts_members s = [ts_target_id s] ∧
    ∃ contract, ts_contract_ref s = Some contract ∧ ct_slot_id contract = ts_target_id s) ∧
  (ts_kind s = ATOMIC → (2 ≤ length (ts_members s))%nat ∧ ts_contract_ref s = None ∧
    ∃ semantics, ts_atomic_semantics_id s = Some semantics).
Proof.
  unfold check_kind. destruct (ts_kind s).
  - intros Hk. inv_ok Hk. bool_prop. split; [|done]. intros _. split; [done|].
    destruct (ts_contract_ref s) as [c|]; [|done]. exists c. inv_ok Hk. bool_prop. done.
  - intros Hk. inv_ok Hk. split; [done|]. intros _. apply Nat.ltb_ge in Hv. split; [done|].
    destruct (ts_contract_ref s); [done|]. split; [done|].
    destruct (ts_atomic_semantics_id s) as [a|]; [by exists a|]. by apply _simple_id_Ok in Hv1 as [? _].
Qed.

Lemma register_spec_Ok st s st' :
  register_spec st s = Ok st' →
  st' = (st.1 ++ [spec_row s], st.2 ++ [(member_set (ts_members s), ts_target_id s)]) ∧
  (ts_target_id s ∉ st.1.*1) ∧ (member_set (ts_members s) ∉ st.2.*1) ∧ spec_wf s.
Proof.
  unfold register_spec. intros Hr. inv_ok Hr. apply _simple_id_Ok in Hv as [[= <-] Hid]. apply simple_ids_Ok in Hv2 as ->.
  apply check_kind_Ok in Hv4 as [Hslot Hatomic]. bool_prop. split_and!; [done|done|done|].
  split; [done| |done|done|done]. split; [|done]. by destruct (ts_members s).
Qed.

Lemma register_specs_Ok specs st st' :
  foldM register_spec specs st = Ok st' → NoDup st.1.*1 → NoDup st.2.*1 →
  st' = (st.1 ++ (spec_row <$> specs), st.2 ++ ((λ s, (member_set (ts_members s), ts_target_id s)) <$> specs)) ∧
  NoDup st'.1.*1 ∧ NoDup st'.2.*1 ∧ Forall spec_wf specs.
Proof.
  revert st. induction specs as [|s specs IH]; intros st Hf H1 H2.
  { injection Hf as <-. rewrite !fmap_nil, !app_nil_r. by destruct st. }
  rewrite foldM_cons in Hf. apply bind_Ok in Hf as (st1 & Hs & Hf). apply register_spec_Ok in Hs as (-> & Hid & Hms & Hwf).
  apply IH in Hf as (-> & H3 & H4 & H5); cbn [fst snd] in *.
  - rewrite !fmap_cons. rewrite <- !app_assoc in *. split_and!; [done|done|done|]. by constructor.
  - rewrite fmap_app. apply NoDup_app. split_and!; [done| |apply NoDup_singleton].
    intros x Hx. cbn. rewrite list_elem_of_singleton. by intros ->.
  - rewrite fmap_app. apply NoDup_app. split_and!; [done| |apply NoDup_singleton].
    intros x Hx. cbn. rewrite list_elem_of_singleton. by intros ->.
Qed.

Lemma spec_rows_fst specs : (spec_row <$> specs).*1 = ts_target_id <$> specs.
Proof. by rewrite <- list_fmap_compose. Qed.

Lemma spec_rows_snd specs : (spec_row <$> specs).*2 = specs.
Proof. rewrite <- list_fmap_compose. apply list_fmap_id. Qed.

(** ** The relations *)

Section relations.
Context (specs : list TargetSpec) (Hnd : NoDup (ts_target_id <$> specs)).
Abbreviation by_id := (spec_row <$> specs).

Lemma spec_of_Ok t s : spec_of by_id t = Ok s ↔ s ∈ specs ∧ ts_target_id s = t.
Proof.
  unfold spec_of. destruct (assoc by_id t) as [s'|] eqn:E.
  - apply assoc_iff in E; [|by rewrite spec_rows_fst]. apply list_elem_of_fmap in E as (s0 & [= -> ->] & Hin).
    split; [intros [= <-]; done|]. intros [Hs Ht]. f_equal. symmetry. by eapply (NoDup_fmap_inj_elem ts_target_id).
  - split; [done|]. intros [Hs <-]. exfalso. apply assoc_None in E. apply E. rewrite spec_rows_fst. apply list_elem_of_fmap. eauto.
Qed.

Lemma known_ids_elem t : t ∈ known_ids by_id ↔ ∃ s, s ∈ specs ∧ ts_target_id s = t.
Proof. unfold known_ids. rewrite elem_of_list_to_set, spec_rows_fst, list_elem_of_fmap. naive_solver. Qed.

(** The relation a field declares between target IDs. *)
Definition declared (relation : TargetSpec → gset string) (a b : string) : Prop :=
  ∃ s, s ∈ specs ∧ ts_target_id s = a ∧ b ∈ relation s.

Lemma edge_declared relation a b : edge (related by_id relation) a b ↔ declared relation a b.
Proof.
  unfold edge, related. split.
  - intros (set & Hset & Hb). apply result_map_Ok in Hset as (s & Hs & ->). apply spec_of_Ok in Hs as [? ?]. by exists s.
  - intros (s & Hs & Ha & Hb). exists (relation s). split; [|done]. apply result_map_Ok. exists s.
    split; [by apply spec_of_Ok | done].
Qed.

Lemma tc_declared relation a b : tc (edge (related by_id relation)) a b ↔ tc (declared relation) a b.
Proof.
  split; intros Htc; (induction Htc as [? ? He|? ? ? He _ IH]; [apply tc_once; by apply edge_declared|]);
    (eapply tc_l; [by apply edge_declared | done]).
Qed.

Context (relation : TargetSpec → gset string) (Hknown : ∀ s, s ∈ specs → relation s ⊆ known_ids by_id).

Lemma related_closed t :
  t ∈ by_id.*1 → ∃ s, related by_id relation t = Ok s ∧ ∀ m, m ∈ s → m ∈ by_id.*1.
Proof.
  rewrite spec_rows_fst. intros (s & -> & Hs)%list_elem_of_fmap. exists (relation s). split.
  - apply result_map_Ok. exists s. split; [by apply spec_of_Ok | done].
  - intros m Hm. apply (Hknown s Hs) in Hm. apply elem_of_list_to_set in Hm. by rewrite spec_rows_fst in Hm.
Qed.

Lemma related_dom t s : related by_id relation t = Ok s → t ∈ by_id.*1.
Proof.
  intros (x & Hx & _)%result_map_Ok. apply spec_of_Ok in Hx as [Hx <-]. rewrite spec_rows_fst. apply list_elem_of_fmap. eauto.
Qed.

Lemma dag_checked :
  (validate_relation_dag (related by_id relation) by_id.*1 = Ok tt ∧ acyclic (declared relation)) ∨
  (validate_relation_dag (related by_id relation) by_id.*1 = Raise cycle_error ∧ ¬ acyclic (declared relation)).
Proof.
  assert (acyclic (edge (related by_id relation)) ↔ acyclic (declared relation)) as <-.
  { split; intros Hac a Ha; apply (Hac a); by apply tc_declared. }
  apply validate_relation_dag_spec; [apply related_closed | apply related_dom].
Qed.

(** The computed closures are the transitive closure of the declared relation. *)
Lemma closures_Ok :
  ∃ m, closures by_id relation = Ok m ∧
    (∀ t, t ∈ ts_target_id <$> specs → ∃ set, m !! t = Some set ∧ ∀ x, x ∈ set ↔ tc (declared relation) t x) ∧
    (∀ t, t ∉ ts_target_id <$> specs → m !! t = None).
Proof.
  pose proof (relation_closure_spec (related by_id relation) by_id.*1 related_closed) as Hcl.
  unfold closures. rewrite spec_rows_fst in *.
  assert (∃ rows, mapM (λ t, result_map (pair t) (relation_closure (related by_id relation) (ts_target_id <$> specs) t)) (ts_target_id <$> specs)
      = Ok rows ∧ rows.*1 = ts_target_id <$> specs ∧ Forall (λ row, ∀ x, x ∈ row.2 ↔ tc (declared relation) row.1 x) rows)
    as (rows & -> & Hfst & Hall).
  { assert (∀ l, (∀ t, t ∈ l → t ∈ ts_target_id <$> specs) → ∃ rows,
      mapM (λ t, result_map (pair t) (relation_closure (related by_id relation) (ts_target_id <$> specs) t)) l = Ok rows ∧
      rows.*1 = l ∧ Forall (λ row, ∀ x, x ∈ row.2 ↔ tc (declared relation) row.1 x) rows) as Hl; [|by apply Hl].
    induction l as [|t l IH]; intros Hin; [by exists []|]. destruct IH as (rows & Hrows & Hf & Hfa); [intros; apply Hin; by right|].
    destruct (Hcl t) as (set & Hset & Hel); [apply Hin; left|]. exists ((t, set) :: rows). cbn [mapM].
    rewrite Hset. cbn [result_map bind]. cbn [mapM] in Hrows. rewrite Hrows. cbn. split_and!; [done|by rewrite Hf|].
    constructor; [|done]. intros x. cbn. by rewrite Hel, tc_declared. }
  cbn [bind]. exists (list_to_map rows). split; [done|]. rewrite Forall_forall in Hall. split.
  - intros t Ht. rewrite <- Hfst in Ht. apply list_elem_of_fmap in Ht as ([t' set] & -> & Hin). exists set. split.
    + apply elem_of_list_to_map; [by rewrite Hfst | done].
    + exact (Hall _ Hin).
  - intros t Ht. apply not_elem_of_list_to_map. by rewrite Hfst.
Qed.
End relations.

(** ** Composition rules *)

(** What [CompositionRule.__post_init__] checks. *)
Record rule_wf (r : CompositionRule) : Prop := {
  rw_targets : ∃ a b, cr_target_ids r = [a; b] ∧ a ≠ b ∧ String.le a b;
  rw_precedence : cr_precedence r ≡ₚ cr_target_ids r
}.

Lemma rule_wf_precedence r : rule_wf r → ∃ p q, cr_precedence r = [p; q] ∧ p ≠ q.
Proof.
  intros [(a & b & Ht & Hab & _) Hp]. rewrite Ht in Hp. destruct (cr_precedence r) as [|p [|q [|x l]]] eqn:E;
    apply Permutation_length in Hp as Hl; cbn in Hl; try lia.
  exists p, q. split; [done|]. intros ->. assert (NoDup [q; q]) as Hnd.
  { rewrite Hp. apply NoDup_cons. split; [|apply NoDup_singleton]. by rewrite list_elem_of_singleton. }
  apply NoDup_cons in Hnd as [Hn _]. apply Hn. left.
Qed.

Lemma same_elements_perm (l k : list string) :
  NoDup k → length l = length k → (list_to_set l : gset string) = list_to_set k → l ≡ₚ k.
Proof.
  intros Hk Hlen Heq. symmetry. apply submseteq_length_Permutation; [|lia]. apply NoDup_submseteq; [done|].
  intros x Hx. apply (elem_of_list_to_set (C := gset string)). rewrite Heq. by apply elem_of_list_to_set.
Qed.

Lemma CompositionRule_init_wf r r' : CompositionRule_init r = Ok r' → r' = r ∧ rule_wf r.
Proof.
  unfold CompositionRule_init. intros Hr.
  apply bind_Ok in Hr as (? & _ & Hr). apply bind_Ok in Hr as (? & _ & Hr).
  apply bind_Ok in Hr as (? & Ht%raise_if_Ok & Hr). apply bind_Ok in Hr as (? & Hnd%raise_if_Ok & Hr).
  apply bind_Ok in Hr as (? & _ & Hr). apply bind_Ok in Hr as (? & Hp%raise_if_Ok & Hr).
  inv_ok Hr. split; [done|]. apply negb_false_iff, bool_decide_eq_true in Hnd. apply orb_false_iff in Ht as [H2%negb_false_iff%Nat.eqb_eq Hs%negb_false_iff%bool_decide_eq_true].
  apply orb_false_iff in Hp as [Hlen%negb_false_iff%Nat.eqb_eq Hset%negb_false_iff%bool_decide_eq_true].
  split; [|by apply same_elements_perm].
  destruct (cr_target_ids r) as [|a [|b [|? ?]]]; try done. exists a, b. split; [done|].
  apply NoDup_cons in Hnd as [Hab _]. split; [intros ->; apply Hab; left|].
  pose proof (sorted_by_sorted id [a; b]) as Hsort. change (sorted_by id [a; b]) with (sorted_str [a; b]) in Hsort.
  rewrite <- Hs in Hsort. apply StronglySorted_cons in Hsort as [Hle _]. by apply Forall_cons in Hle as [? _].
Qed.

Lemma tc_mono {A} (R R' : relation A) a b : (∀ x y, R x y → R' x y) → tc R a b → tc R' a b.
Proof. intros Hsub. by apply (tc_congruence id). Qed.

Section rules.
Context (specs : list TargetSpec) (Hnd : NoDup (ts_target_id <$> specs)).
Abbreviation by_id := (spec_row <$> specs).

Definition rule_row (r : CompositionRule) : string * CompositionRule := (cr_rule_id r, r).

(** A rule names two targets that are compatible with each other. *)
Definition rule_applies (r : CompositionRule) : Prop :=
  ∃ a b, cr_target_ids r = [a; b] ∧ declared specs ts_compatible_with a b ∧ declared specs ts_compatible_with b a.

(** The table of pairs holds exactly the registered rules. *)
Definition pairs_of (rules : list CompositionRule) (m : gmap (string * string) CompositionRule) : Prop :=
  ∀ a b r, m !! (a, b) = Some r ↔ r ∈ rules ∧ cr_target_ids r = [a; b].

Lemma register_rule_Ok t r t' rules :
  rule_wf r → register_rule by_id t r = Ok t' → pairs_of rules (ru_by_pair t) →
  ru_by_id t' = ru_by_id t ++ [rule_row r] ∧ (cr_rule_id r ∉ (ru_by_id t).*1) ∧ pairs_of (rules ++ [r]) (ru_by_pair t') ∧ rule_applies r.
Proof.
  intros [(a & b & Ht & Hab & Hle) _]. unfold register_rule. rewrite Ht. cbn [combinations2 fmap list_fmap app]. intros Hr Hpairs.
  apply bind_Ok in Hr as (? & Hid%raise_if_Ok%bool_decide_eq_false & Hr). apply bind_Ok in Hr as (? & _ & Hr).
  apply bind_Ok in Hr as (? & _ & Hr). apply bind_Ok in Hr as (m & Hm & Hr). apply bind_Ok in Hr as (? & _ & [= <-]).
  cbn [ru_by_id ru_by_pair]. rewrite foldM_cons in Hm. apply bind_Ok in Hm as (m' & Hm & [= <-]).
  unfold register_pair in Hm. cbn [fst snd] in Hm. apply bind_Ok in Hm as (sa & Hsa & Hm). apply bind_Ok in Hm as (sb & Hsb & Hm).
  apply bind_Ok in Hm as (? & Hc%raise_if_Ok & Hm). apply spec_of_Ok in Hsa as [Hsa1 Hsa2], Hsb as [Hsb1 Hsb2]; [|done..].
  apply orb_false_iff in Hc as [Hc1%negb_false_iff%bool_decide_eq_true Hc2%negb_false_iff%bool_decide_eq_true].
  destruct (ru_by_pair t !! (a, b)) as [r0|] eqn:E; [done|]. injection Hm as <-. split_and!; [done|done| |].
  - intros u v r'. rewrite lookup_insert_Some. setoid_rewrite elem_of_app. setoid_rewrite list_elem_of_singleton. split.
    + intros [[[= <- <-] <-]|[Hne Hl]]; [split; [by right|done]|]. apply Hpairs in Hl as [? ?]. split; [by left | done].
    + intros [[Hin|Hin] Ht']; [|subst; left; rewrite Ht in Ht'; injection Ht' as <- <-; done].
      right. assert (ru_by_pair t !! (u, v) = Some r') as Hl by by apply Hpairs. split; [|done]. intros [= <- <-]. by rewrite E in Hl.
  - exists a, b. split; [done|]. split; [by exists sa | by exists sb].
Qed.

Lemma register_rules_Ok rules t t' done :
  Forall rule_wf rules → foldM (register_rule by_id) rules t = Ok t' → pairs_of done (ru_by_pair t) → NoDup (ru_by_id t).*1 →
  ru_by_id t' = ru_by_id t ++ (rule_row <$> rules) ∧ NoDup (ru_by_id t').*1 ∧
  pairs_of (done ++ rules) (ru_by_pair t') ∧ Forall rule_applies rules.
Proof.
  intros Hwf. revert t done. induction Hwf as [|r rules Hr Hwf IH]; intros t done Hf Hp Hn.
  { injection Hf as <-. by rewrite fmap_nil, !app_nil_r. }
  rewrite foldM_cons in Hf. apply bind_Ok in Hf as (t1 & H1 & Hf).
  apply (register_rule_Ok _ _ _ done) in H1 as (E1 & Hid & Hp1 & Ha); [|done|done].
  apply (IH t1 (done ++ [r])) in Hf as (E2 & Hn2 & Hp2 & Ha2); [|done|].
  - rewrite E2, E1, fmap_cons, <- !app_assoc in *. split_and!; [done|done|done|by constructor].
  - rewrite E1, fmap_app. apply NoDup_app. split_and!; [done| |apply NoDup_singleton].
    intros x Hx. cbn. rewrite list_elem_of_singleton. by intros ->.
Qed.
End rules.

Lemma combinations2_elem {A} (l : list A) x y :
  (x, y) ∈ combinations2 l ↔ ∃ l1 l2 l3, l = l1 ++ x :: l2 ++ y :: l3.
Proof.
  induction l as [|z l IH]; cbn [combinations2].
  { rewrite elem_of_nil. split; [done|]. intros (l1 & ? & ? & Hl). by destruct l1. }
  rewrite elem_of_app, list_elem_of_fmap, IH. split.
  - intros [(w & [= -> ->] & Hw)|(l1 & l2 & l3 & ->)].
    + apply list_elem_of_split in Hw as (l2 & l3 & ->). by exists [], l2, l3.
    + by exists (z :: l1), l2, l3.
  - intros ([|w l1] & l2 & l3 & [= -> ->]).
    + left. exists y. split; [done|]. apply elem_of_app. right. left.
    + right. by exists l1, l2, l3.
Qed.

(** Of two different elements, one comes first. *)
Lemma combinations2_either {A} (l : list A) x y :
  x ∈ l → y ∈ l → x ≠ y → (x, y) ∈ combinations2 l ∨ (y, x) ∈ combinations2 l.
Proof.
  intros Hx Hy Hne. rewrite !combinations2_elem. apply list_elem_of_split in Hx as (l1 & l2 & ->).
  apply elem_of_app in Hy as [Hy|[->|Hy]%elem_of_cons]; [|done|].
  - right. apply list_elem_of_split in Hy as (k1 & k2 & ->). exists k1, k2, l2. by rewrite <- app_assoc.
  - left. apply list_elem_of_split in Hy as (k1 & k2 & ->). by exists l1, k1, k2.
Qed.

(** ** Constructed catalogs *)

Definition compatible (specs : list TargetSpec) : relation string := declared specs ts_compatible_with.
Definition displaces (specs : list TargetSpec) : relation string := declared specs ts_displaces.
Definition requires (specs : list TargetSpec) : relation string := declared specs ts_requires.

(** [a] precedes [b] in some composition rule. *)
Definition precedes (rules : list CompositionRule) : relation string :=
  λ a b, (a, b) ∈ precedence_edges (cr_precedence <$> rules).

(** The closure a catalog stores for every target is the transitive closure. *)
Definition closes (specs : list TargetSpec) (R : relation string) (m : gmap string (gset string)) : Prop :=
  ∀ t, t ∈ ts_target_id <$> specs → ∃ set, m !! t = Some set ∧ ∀ x, x ∈ set ↔ tc R t x.

Record catalog_wf (specs : list TargetSpec) (rules : list CompositionRule) (c : TargetCatalog) : Prop := {
  cw_ids : NoDup (ts_target_id <$> specs);
  cw_by_id : tc_by_id c = sorted_by fst (spec_row <$> specs);
  cw_by_members : tc_by_members c = (λ s, (member_set (ts_members s), s)) <$> specs;
  cw_specs : Forall spec_wf specs;
  cw_member_sets : NoDup ((λ s, member_set (ts_members s)) <$> specs);
  cw_displaces_acyclic : acyclic (displaces specs);
  cw_requires_acyclic : acyclic (requires specs);
  cw_displacement : closes specs (displaces specs) (tc_displacement_closures c);
  cw_requirement : closes specs (requires specs) (tc_requirement_closures c);
  cw_consistent : ∀ a b, tc (requires specs) a b → ¬ tc (displaces specs) a b ∧ ¬ tc (displaces specs) b a;
  cw_shared : ∀ s1 s2 m, s1 ∈ specs → s2 ∈ specs → s1 ≠ s2 → m ∈ ts_members s1 → m ∈ ts_members s2 →
    displaces specs (ts_target_id s1) (ts_target_id s2) ∨ displaces specs (ts_target_id s2) (ts_target_id s1);
  cw_compatible : ∀ a b, compatible specs a b → compatible specs b a ∧ ¬ displaces specs a b;
  cw_atomic : ∀ s m, s ∈ specs → ts_kind s = ATOMIC → m ∈ ts_members s →
    m ∈ ts_displaces s ∧ ∃ s', s' ∈ specs ∧ ts_kind s' = SLOT ∧ ts_members s' = [m];
  cw_rule_ids : NoDup (cr_rule_id <$> rules);
  cw_composition : tc_composition_by_id c = sorted_by fst (rule_row <$> rules);
  cw_pairs : pairs_of rules (tc_composition_by_pair c);
  cw_applies : Forall (rule_applies specs) rules;
  cw_coverage : ∀ a b, compatible specs a b → ∃ r, r ∈ rules ∧ (cr_target_ids r = [a; b] ∨ cr_target_ids r = [b; a]);
  cw_precedence : acyclic (precedes rules)
}.

Lemma check_relations_Ok by_id s :
  check_relations by_id s = Ok tt →
  (ts_displaces s ⊆ known_ids by_id ∧ ts_compatible_with s ⊆ known_ids by_id ∧ ts_requires s ⊆ known_ids by_id) ∧
  (ts_kind s = ATOMIC → forallb (is_singleton by_id) (ts_members s) = true ∧ member_set (ts_members s) ⊆ ts_displaces s).
Proof.
  unfold check_relations, check_relation. intros Hs. inv_ok Hs. bool_prop. split; [done|]. intros Hk. rewrite Hk in Hs.
  inv_ok Hs. by bool_prop.
Qed.

Lemma check_contradiction_Ok dm rm s :
  check_contradiction dm rm s = Ok tt → ∃ D Q, dm !! ts_target_id s = Some D ∧ rm !! ts_target_id s = Some Q ∧ D ∩ Q = ∅ ∧
    ∀ x, x ∈ Q → ∀ Dx, dm !! x = Some Dx → ts_target_id s ∉ Dx.
Proof.
  unfold check_contradiction, closure_of. intros Hs. apply bind_Ok in Hs as (D & HD & Hs). apply bind_Ok in Hs as (Q & HQ & Hs).
  destruct (dm !! ts_target_id s) as [D'|] eqn:E1; [|done]. destruct (rm !! ts_target_id s) as [Q'|] eqn:E2; [|done].
  injection HD as ->. injection HQ as ->. apply bind_Ok in Hs as (? & Hdis%raise_if_Ok & Hs).
  apply bind_Ok in Hs as (rev & Hrev%mapM_Ok & Hex%raise_if_Ok). bool_prop. exists D, Q. split_and!; [done..|].
  intros y Hx Dx HDx Hin. apply elem_of_elements, list_elem_of_lookup in Hx as [i Hi].
  destruct (Forall2_lookup_l _ _ _ _ _ Hrev Hi) as (b & Hb & Hval). rewrite HDx in Hval. cbn in Hval.
  rewrite bool_decide_eq_true_2 in Hval by done. injection Hval as <-.
  rewrite <- not_true_iff_false in Hex. apply Hex. apply existsb_exists. exists true. split; [|done].
  apply list_elem_of_In. eapply list_elem_of_lookup_2; done.
Qed.

Lemma precedes_rule rules a b :
  Forall rule_wf rules → precedes rules a b ↔ ∃ r, r ∈ rules ∧ cr_precedence r = [a; b].
Proof.
  intros Hwf. unfold precedes, precedence_edges. rewrite list_elem_of_bind. rewrite Forall_forall in Hwf. split.
  - intros (p & Hin & (r & -> & Hr)%list_elem_of_fmap). exists r. split; [done|].
    destruct (rule_wf_precedence r (Hwf r Hr)) as (x & y & Hp & _). rewrite Hp in *. cbn in Hin.
    apply list_elem_of_singleton in Hin as [= -> ->]. done.
  - intros (r & Hr & Hp). exists (cr_precedence r). split; [rewrite Hp; cbn; left|]. apply list_elem_of_fmap. eauto.
Qed.

Section constructed.
Context (specs : list TargetSpec) (rules : list CompositionRule).
Context (Hnd : NoDup (ts_target_id <$> specs)) (Hrules : Forall rule_wf rules).
Abbreviation by_id := (spec_row <$> specs).

Lemma spec_unique s1 s2 : s1 ∈ specs → s2 ∈ specs → ts_target_id s1 = ts_target_id s2 → s1 = s2.
Proof. apply NoDup_fmap_inj_elem, Hnd. Qed.

Lemma declared_spec (rel : TargetSpec → gset string) s b :
  s ∈ specs → declared specs rel (ts_target_id s) b ↔ b ∈ rel s.
Proof.
  intros Hs. split; [|by exists s]. intros (s' & Hs' & Ht & Hb). by rewrite (spec_unique s s').
Qed.

Lemma consistent_checked dm rm :
  closes specs (displaces specs) dm → closes specs (requires specs) rm →
  (∀ s, s ∈ specs → ts_requires s ⊆ known_ids by_id) →
  Forall (λ s, check_contradiction dm rm s = Ok tt) specs →
  ∀ a b, tc (requires specs) a b → ¬ tc (displaces specs) a b ∧ ¬ tc (displaces specs) b a.
Proof.
  intros Hd Hr Hknown Hall a b Hab. rewrite Forall_forall in Hall.
  assert (∃ s, s ∈ specs ∧ ts_target_id s = a) as (s & Hs & <-).
  { inversion Hab as [?? (s & ? & ? & _)|??? (s & ? & ? & _)]; eauto. }
  assert (b ∈ ts_target_id <$> specs) as Hb.
  { assert (∃ c, requires specs c b) as (c & s' & Hs' & _ & Hb).
    { clear -Hab. induction Hab as [|? ? ? ? ? IH]; eauto. }
    apply (Hknown s' Hs'), known_ids_elem in Hb as (s2 & ? & <-). apply list_elem_of_fmap. eauto. }
  destruct (check_contradiction_Ok _ _ _ (Hall s Hs)) as (D & Q & HD & HQ & Hdis & Hrev).
  destruct (Hd (ts_target_id s)) as (D' & HD' & HDel); [apply list_elem_of_fmap; eauto|].
  destruct (Hr (ts_target_id s)) as (Q' & HQ' & HQel); [apply list_elem_of_fmap; eauto|].
  rewrite HD in HD'. injection HD' as <-. rewrite HQ in HQ'. injection HQ' as <-.
  assert (b ∈ Q) as HbQ by by apply HQel. destruct (Hd b Hb) as (Db & HDb & HDbel). split.
  - intros Hc. apply HDel in Hc. set_solver.
  - intros Hc. apply HDbel in Hc. by apply (Hrev b HbQ Db).
Qed.

Lemma shared_checked :
  Forall (λ p, check_shared p = Ok tt) (combinations2 specs) →
  ∀ s1 s2 m, s1 ∈ specs → s2 ∈ specs → s1 ≠ s2 → m ∈ ts_members s1 → m ∈ ts_members s2 →
    displaces specs (ts_target_id s1) (ts_target_id s2) ∨ displaces specs (ts_target_id s2) (ts_target_id s1).
Proof.
  rewrite Forall_forall. intros Hall.
  assert (∀ s1 s2 m, (s1, s2) ∈ combinations2 specs → m ∈ ts_members s1 → m ∈ ts_members s2 →
    s1 ∈ specs → s2 ∈ specs →
    displaces specs (ts_target_id s1) (ts_target_id s2) ∨ displaces specs (ts_target_id s2) (ts_target_id s1)) as Hone.
  { intros s1 s2 m Hc Hm1 Hm2 Hs1 Hs2. specialize (Hall _ Hc). unfold check_shared in Hall. cbn [fst snd] in Hall.
    rewrite bool_decide_eq_false_2 in Hall.
    - inv_ok Hall. apply negb_false_iff, orb_true_iff in Hall as [Hd|Hd]; bool_prop; [left|right]; by apply declared_spec.
    - intros He. assert (m ∈ member_set (ts_members s1) ∩ member_set (ts_members s2)) as Hin; [|by rewrite He in Hin; apply elem_of_empty in Hin].
      unfold member_set. by rewrite elem_of_intersection, !elem_of_list_to_set. }
  intros s1 s2 m Hs1 Hs2 Hne Hm1 Hm2. destruct (combinations2_either specs s1 s2 Hs1 Hs2 Hne) as [Hc|Hc].
  - by eapply Hone.
  - apply or_comm. by eapply Hone.
Qed.

Lemma compatible_checked :
  Forall (λ s, check_compatible by_id s = Ok tt) specs →
  ∀ a b, compatible specs a b → compatible specs b a ∧ ¬ displaces specs a b.
Proof.
  rewrite Forall_forall. intros Hall a b (s & Hs & <- & Hb). specialize (Hall s Hs). unfold check_compatible in Hall.
  apply forM_Ok in Hall. rewrite Forall_forall in Hall. specialize (Hall b (proj2 (elem_of_elements _ _) Hb)).
  apply bind_Ok in Hall as (o & Ho & Hall). inv_ok Hall. bool_prop. apply spec_of_Ok in Ho as [Ho <-]; [|done].
  split; [by apply declared_spec|]. intros Hd%declared_spec; [done|done].
Qed.

Lemma coverage_checked m :
  pairs_of rules m → Forall (λ p, check_coverage by_id m p = Ok tt) (combinations2 (sorted_str by_id.*1)) →
  (∀ a b, compatible specs a b → compatible specs b a) →
  (∀ s, s ∈ specs → ts_compatible_with s ⊆ known_ids by_id) →
  (∀ s, s ∈ specs → ts_target_id s ∉ ts_compatible_with s) →
  ∀ a b, compatible specs a b → ∃ r, r ∈ rules ∧ (cr_target_ids r = [a; b] ∨ cr_target_ids r = [b; a]).
Proof.
  rewrite Forall_forall. intros Hp Hall Hsym Hknown Hself.
  assert (∀ a b, (a, b) ∈ combinations2 (sorted_str by_id.*1) → compatible specs a b → ∃ r, r ∈ rules ∧ cr_target_ids r = [a; b]) as Hone.
  { intros a b Hab (s & Hs & <- & Hb). specialize (Hall _ Hab). unfold check_coverage in Hall. cbn [fst snd] in Hall.
    apply bind_Ok in Hall as (s' & Hs' & Hall). apply spec_of_Ok in Hs' as [Hs' Ht]; [|done].
    rewrite (spec_unique s' s Hs' Hs Ht) in Hall. rewrite bool_decide_eq_true_2 in Hall by done.
    destruct (m !! (ts_target_id s, b)) as [r|] eqn:Hl; [|done]. exists r. by apply Hp. }
  intros a b Hab. assert (a ∈ sorted_str by_id.*1 ∧ b ∈ sorted_str by_id.*1 ∧ a ≠ b) as (Ha & Hb & Hne).
  { unfold sorted_str. rewrite !sorted_by_perm, !spec_rows_fst. destruct Hab as (s & Hs & <- & Hb). split_and!.
    - apply list_elem_of_fmap. eauto.
    - apply (Hknown s Hs), known_ids_elem in Hb as (s2 & ? & <-). apply list_elem_of_fmap. eauto.
    - intros <-. by apply (Hself s Hs). }
  destruct (combinations2_either _ a b Ha Hb Hne) as [Hc|Hc].
  - destruct (Hone a b Hc Hab) as (r & ? & ?); eauto.
  - destruct (Hone b a Hc (Hsym _ _ Hab)) as (r & ? & ?); eauto.
Qed.

Lemma precedence_checked visited :
  precedence_visits (ts_target_id <$> specs) (cr_precedence <$> rules) = Ok visited →
  Forall (rule_applies specs) rules →
  (length visited = length specs ↔ acyclic (precedes rules)).
Proof.
  intros Hv Happ. rewrite Forall_forall in Happ.
  destruct (precedence_visits_spec (ts_target_id <$> specs) (cr_precedence <$> rules) Hnd) as (v' & Hv' & Hspec).
  - intros u v Huv. apply precedes_rule in Huv as (r & Hr & Hp); [|done]. destruct (Happ r Hr) as (a & b & Ht & Ha & Hb).
    pose proof (proj1 (Forall_forall _ _) Hrules r Hr) as [_ Hperm]. rewrite Hp, Ht in Hperm.
    assert (∀ x, x ∈ [a; b] → x ∈ ts_target_id <$> specs) as Hin.
    { intros x [->|[->|[]%elem_of_nil]%elem_of_cons]%elem_of_cons;
        [destruct Ha as (s & ? & <- & _)|destruct Hb as (s & ? & <- & _)]; apply list_elem_of_fmap; eauto. }
    split; apply Hin; rewrite <- Hperm; [left | right; left].
  - rewrite Hv in Hv'. injection Hv' as <-. unfold precedes. destruct Hspec as [[Hp Hac]|[Hl Hac]].
    + apply Permutation_length in Hp. rewrite length_fmap in Hp. split; [done|]. by intros _.
    + rewrite length_fmap in Hl. split; [lia|]. intros Hac'. by destruct (Hac Hac').
Qed.
End constructed.

Lemma spec_of_sorted specs t :
  NoDup (ts_target_id <$> specs) → spec_of (sorted_by fst (spec_row <$> specs)) t = spec_of (spec_row <$> specs) t.
Proof. intros Hnd. unfold spec_of. by rewrite assoc_sorted by (by rewrite spec_rows_fst). Qed.

Lemma by_members_rows specs rows :
  NoDup (ts_target_id <$> specs) →
  mapM (λ row, result_map (pair row.1) (spec_of (sorted_by fst (spec_row <$> specs)) row.2))
    ((λ s, (member_set (ts_members s), ts_target_id s)) <$> specs) = Ok rows →
  rows = (λ s, (member_set (ts_members s), s)) <$> specs.
Proof.
  intros Hnd Hm%mapM_Ok. apply Forall2_fmap_l in Hm. revert rows Hm.
  assert (∀ l, (∀ s, s ∈ l → s ∈ specs) → ∀ rows, Forall2 (λ s y,
    result_map (pair (member_set (ts_members s))) (spec_of (sorted_by fst (spec_row <$> specs)) (ts_target_id s)) = Ok y) l rows →
    rows = (λ s, (member_set (ts_members s), s)) <$> l) as Hl; [|by intros rows; apply Hl].
  intros l Hin rows Hm. induction Hm as [|s y l rows Hy Hm IH]; [done|]. rewrite fmap_cons, <- IH by (intros; apply Hin; by right).
  f_equal. apply result_map_Ok in Hy as (s' & Hs' & ->). f_equal. rewrite spec_of_sorted in Hs' by done.
  apply spec_of_Ok in Hs' as [Hs' Ht]; [|done]. eapply spec_unique; [done|done|apply Hin; left|done].
Qed.

(** A catalog that its constructor returned is well-formed, for rules that
    [CompositionRule] accepted. *)
Lemma TargetCatalog_init_wf `{Sha256} specs rules c :
  Forall rule_wf rules → TargetCatalog_init specs rules = Ok c → catalog_wf specs rules c.
Proof.
  intros Hrules Hc. unfold TargetCatalog_init in Hc. apply bind_Ok in Hc as (? & _ & Hc).
  apply bind_Ok in Hc as (st & Hst & Hc). apply register_specs_Ok in Hst as (-> & Hn1 & Hn2 & Hspecs); [|by constructor..].
  cbn [fst snd app] in *. rewrite spec_rows_fst in Hn1. rewrite <- list_fmap_compose in Hn2. rewrite !spec_rows_snd, !spec_rows_fst in Hc.
  apply bind_Ok in Hc as (? & Hrel%forM_Ok & Hc). apply bind_Ok in Hc as (? & Hcompat%forM_Ok & Hc).
  apply bind_Ok in Hc as (? & Hshared%forM_Ok & Hc). apply bind_Ok in Hc as ([] & Hdd & Hc). apply bind_Ok in Hc as ([] & Hdr & Hc).
  apply bind_Ok in Hc as (dm & Hdm & Hc). apply bind_Ok in Hc as (rm & Hrm & Hc). apply bind_Ok in Hc as (? & Hcon%forM_Ok & Hc).
  apply bind_Ok in Hc as (t & Ht & Hc). apply bind_Ok in Hc as (? & Hcov%forM_Ok & Hc). apply bind_Ok in Hc as (visited & Hvis & Hc).
  apply bind_Ok in Hc as (? & Hlen%raise_if_Ok & Hc). apply bind_Ok in Hc as (bm & Hbm & Hc). apply bind_Ok in Hc as (snaps & _ & Hc).
  apply bind_Ok in Hc as (digest & _ & [= <-]).
  assert (∀ s, s ∈ specs → check_relations (spec_row <$> specs) s = Ok tt) as Hrel' by (by apply Forall_forall).
  assert (∀ s, s ∈ specs → ts_displaces s ⊆ known_ids (spec_row <$> specs)) as Hk1 by (intros s Hs; by apply check_relations_Ok, Hrel').
  assert (∀ s, s ∈ specs → ts_requires s ⊆ known_ids (spec_row <$> specs)) as Hk2 by (intros s Hs; by apply check_relations_Ok, Hrel').
  assert (∀ s, s ∈ specs → ts_compatible_with s ⊆ known_ids (spec_row <$> specs)) as Hk3 by (intros s Hs; by apply check_relations_Ok, Hrel').
  pose proof (dag_checked specs Hn1 ts_displaces Hk1) as Hd1. pose proof (dag_checked specs Hn1 ts_requires Hk2) as Hd2.
  rewrite spec_rows_fst in Hd1, Hd2. rewrite Hdd in Hd1. rewrite Hdr in Hd2.
  destruct Hd1 as [[_ Hd1]|[? _]]; [|done]. destruct Hd2 as [[_ Hd2]|[? _]]; [|done].
  destruct (closures_Ok specs Hn1 ts_displaces Hk1) as (dm' & Hdm' & Hclose1 & _). rewrite Hdm in Hdm'. injection Hdm' as <-.
  destruct (closures_Ok specs Hn1 ts_requires Hk2) as (rm' & Hrm' & Hclose2 & _). rewrite Hrm in Hrm'. injection Hrm' as <-.
  apply (register_rules_Ok specs Hn1 rules _ t []) in Ht as (Hby & Hrid & Hpairs & Happ);
    [|done|intros a b r; cbn; rewrite lookup_empty; split; [done | by intros [?%elem_of_nil _]]|by constructor].
  cbn [ru_by_id app] in *. rewrite Hby in *. rewrite <- list_fmap_compose in Hrid.
  assert (∀ a b, compatible specs a b → compatible specs b a ∧ ¬ displaces specs a b) as Hcomp by by eapply compatible_checked.
  apply by_members_rows in Hbm; [|done]. split; cbn; try done.
  - by eapply consistent_checked.
  - by eapply shared_checked.
  - intros s m Hs Hk Hm. destruct (check_relations_Ok _ _ (Hrel' s Hs)) as [_ Ha]. destruct (Ha Hk) as [Hsing Hsub]. split.
    + apply Hsub. by apply elem_of_list_to_set.
    + rewrite forallb_forall in Hsing. apply list_elem_of_In, Hsing in Hm. unfold is_singleton in Hm.
      destruct (assoc (spec_row <$> specs) m) as [s'|] eqn:Hs'; [|done]. bool_prop. exists s'. split; [|done].
      apply assoc_Some, list_elem_of_fmap in Hs' as (s2 & [= _ ->] & ?). done.
  - eapply coverage_checked; try done; [by rewrite spec_rows_fst|intros a b Hab; by apply Hcomp|].
    intros s Hs. pose proof (Hrel' s Hs) as Hr. unfold check_relations, check_relation in Hr.
    apply bind_Ok in Hr as (? & _ & Hr). apply bind_Ok in Hr as (? & Hr & _). inv_ok Hr. by bool_prop.
  - apply negb_false_iff, Nat.eqb_eq in Hlen. rewrite length_fmap in Hlen. by eapply precedence_checked.
Qed.

(** ** Queries of a well-formed catalog *)

Section queries.
Context (specs : list TargetSpec) (rules : list CompositionRule) (c : TargetCatalog) (Hwf : catalog_wf specs rules c).

Lemma require_Ok t s : require c t = Ok s ↔ s ∈ specs ∧ ts_target_id s = t.
Proof.
  rewrite <- (spec_of_Ok specs (cw_ids _ _ _ Hwf)). unfold require, spec_of.
  rewrite (cw_by_id _ _ _ Hwf), assoc_sorted by (rewrite spec_rows_fst; apply Hwf). by destruct (assoc _ t).
Qed.

Lemma require_known t : t ∈ ts_target_id <$> specs ↔ ∃ s, require c t = Ok s.
Proof.
  rewrite list_elem_of_fmap. split.
  - intros (s & -> & Hs). exists s. by apply require_Ok.
  - intros (s & [Hs <-]%require_Ok). by exists s.
Qed.

Lemma displacement_closure_Ok t :
  t ∈ ts_target_id <$> specs → ∃ set, displacement_closure c t = Ok set ∧ ∀ x, x ∈ set ↔ tc (displaces specs) t x.
Proof.
  intros Ht. destruct (proj1 (require_known t) Ht) as [s Hs]. destruct (cw_displacement _ _ _ Hwf t Ht) as (set & Hset & Hel).
  exists set. unfold displacement_closure, closure_of. by rewrite Hs, Hset.
Qed.

Lemma requires_closure_Ok t :
  t ∈ ts_target_id <$> specs → ∃ set, requires_closure c t = Ok set ∧ ∀ x, x ∈ set ↔ tc (requires specs) t x.
Proof.
  intros Ht. destruct (proj1 (require_known t) Ht) as [s Hs]. destruct (cw_requirement _ _ _ Hwf t Ht) as (set & Hset & Hel).
  exists set. unfold requires_closure, closure_of. by rewrite Hs, Hset.
Qed.

(** A set of targets that may be active together. *)
Definition admissible (active : list string) : Prop :=
  NoDup active ∧ (∀ t, t ∈ active → t ∈ ts_target_id <$> specs) ∧
  (∀ a b, a ∈ active → b ∈ active → ¬ tc (displaces specs) a b) ∧
  (∀ a b, a ∈ active → tc (requires specs) a b → b ∈ active).

Lemma check_active_target_Ok active t :
  t ∈ ts_target_id <$> specs →
  check_active_target c active t = Ok tt ↔
    (∀ b, b ∈ active → ¬ tc (displaces specs) t b) ∧ (∀ b, tc (requires specs) t b → b ∈ active).
Proof.
  intros Ht. destruct (displacement_closure_Ok t Ht) as (D & HD & HDel). destruct (requires_closure_Ok t Ht) as (Q & HQ & HQel).
  unfold check_active_target. rewrite HD, HQ. cbn [bind].
  assert (D ∩ list_to_set active = (∅ : gset string) ↔ ∀ b, b ∈ active → ¬ tc (displaces specs) t b) as H1.
  { split.
    - intros He b Hb Hd. apply HDel in Hd. assert (b ∈ D ∩ list_to_set active) as Hin; [|rewrite He in Hin; by apply elem_of_empty in Hin].
      by rewrite elem_of_intersection, elem_of_list_to_set.
    - intros Hall. apply set_eq. intros b. rewrite elem_of_intersection, elem_of_list_to_set, HDel. split; [|by intros ?%elem_of_empty].
      intros [? ?]. by destruct (Hall b). }
  assert (Q ∖ list_to_set active = (∅ : gset string) ↔ ∀ b, tc (requires specs) t b → b ∈ active) as H2.
  { split.
    - intros He b Hb%HQel. destruct (decide (b ∈ active)) as [|Hn]; [done|exfalso].
      assert (b ∈ Q ∖ list_to_set active) as Hin; [|rewrite He in Hin; by apply elem_of_empty in Hin].
      by rewrite elem_of_difference, elem_of_list_to_set.
    - intros Hall. apply set_eq. intros b. rewrite elem_of_difference, elem_of_list_to_set, HQel. split; [|by intros ?%elem_of_empty].
      intros [? Hn]. by destruct (Hn (Hall b ltac:(done))). }
  rewrite <- H1, <- H2, bind_Ok. setoid_rewrite raise_if_Ok. setoid_rewrite negb_false_iff. setoid_rewrite bool_decide_eq_true. split.
  - by intros ([] & ? & ?).
  - intros [? ?]. by exists tt.
Qed.

(** Exactly the admissible sets are accepted, and returned sorted. *)
Lemma validate_active_Ok active r :
  validate_active_targets c active = Ok r ↔ r = sorted_str active ∧ admissible active.
Proof.
  unfold validate_active_targets, admissible. split.
  - intros Hv. apply bind_Ok in Hv as (? & Hnd%raise_if_Ok & Hv). apply bind_Ok in Hv as (? & Hk%forM_Ok & Hv).
    apply bind_Ok in Hv as (? & Ha%forM_Ok & [= <-]). bool_prop. rewrite Forall_forall in Hk, Ha.
    assert (∀ t, t ∈ active → t ∈ ts_target_id <$> specs) as Hin.
    { intros t Ht. apply require_known. specialize (Hk t Ht). apply bind_Ok in Hk as (s & Hs & _). eauto. }
    split_and!; [done..| |].
    + intros a b Hia Hib. pose proof (Ha a Hia) as Hca. apply check_active_target_Ok in Hca as [Hd _]; [|by apply Hin]. by apply Hd.
    + intros a b Hia. pose proof (Ha a Hia) as Hca. apply check_active_target_Ok in Hca as [_ Hq]; [|by apply Hin]. by apply Hq.
  - intros (-> & Hnd & Hin & Hd & Hq). rewrite bool_decide_eq_true_2 by done. cbn [raise_if negb bind].
    apply bind_Ok. exists tt. split.
    { apply forM_Ok, Forall_forall. intros t Ht. apply Hin, require_known in Ht as [s ->]. done. }
    apply bind_Ok. exists tt. split; [|done]. apply forM_Ok, Forall_forall. intros t Ht.
    apply check_active_target_Ok; [by apply Hin|]. split; [intros b Hb; by apply Hd | intros b; by apply Hq].
Qed.

(** *** The active order *)

Context (Hrules : Forall rule_wf rules).

Lemma catalog_rules_elem r : r ∈ (tc_composition_by_id c).*2 ↔ r ∈ rules.
Proof.
  rewrite (cw_composition _ _ _ Hwf), sorted_by_perm, <- list_fmap_compose, list_elem_of_fmap.
  split; [by intros (? & -> & ?) | by exists r].
Qed.

Lemma active_edges active a b :
  (a, b) ∈ precedence_edges (active_precedences c active) ↔ precedes rules a b ∧ a ∈ active ∧ b ∈ active.
Proof.
  unfold precedence_edges at 1, active_precedences. rewrite list_elem_of_bind. setoid_rewrite list_elem_of_fmap.
  rewrite precedes_rule by done. rewrite Forall_forall in Hrules. split.
  - intros (p & Hp & (row & -> & Hrow)). assert (row.2 ∈ rules) as Hr by (apply catalog_rules_elem, list_elem_of_fmap; eauto).
    destruct (rule_wf_precedence _ (Hrules _ Hr)) as (x & y & Hxy & _). rewrite Hxy, filter_cons, filter_cons, filter_nil in Hp.
    destruct (decide (x ∈ active)), (decide (y ∈ active)); cbn in Hp; try by apply elem_of_nil in Hp.
    apply list_elem_of_singleton in Hp as [= -> ->]. split; [by exists row.2 | done].
  - intros ((r & Hr & Hp) & Ha & Hb). exists [a; b]. split; [left|].
    apply catalog_rules_elem, list_elem_of_fmap in Hr as (row & -> & Hrow). exists row. split; [|done].
    by rewrite Hp, filter_cons, filter_cons, filter_nil, !decide_True.
Qed.

Lemma precedence_order_active active :
  admissible active →
  let sorted := sorted_str active in
  let order := greedy_order (precedence_edges (active_precedences c sorted)) (length active) sorted in
  precedence_order sorted (active_precedences c sorted) = Ok order ∧ order ≡ₚ active ∧
  ∀ l1 b l2 a, order = l1 ++ b :: l2 → precedes rules a b → a ∈ active → a ∈ l1.
Proof.
  intros (Hnd & _) sorted order. assert (sorted ≡ₚ active) as Hperm by apply sorted_by_perm.
  assert (NoDup sorted) as Hnds by by rewrite Hperm.
  pose proof (precedence_order_spec sorted (active_precedences c sorted) Hnds) as Hspec.
  assert (length sorted = length active) as Hlen by (by apply Permutation_length).
  destruct Hspec as (Ho & Hcase & Hresp).
  { intros u v Huv. apply active_edges in Huv. tauto. }
  { apply sorted_by_sorted. }
  rewrite Hlen in *. fold order in Ho, Hcase, Hresp. assert (order ≡ₚ sorted) as Hop.
  { destruct Hcase as [[? _]|[_ Hcyc]]; [done|]. exfalso. apply Hcyc. intros x Hx. apply (cw_precedence _ _ _ Hwf x).
    eapply tc_mono; [|exact Hx]. intros u v Huv. by apply active_edges in Huv as (? & _ & _). }
  split_and!; [done|by rewrite Hop|]. intros l1 b l2 a Heq Hab Ha. eapply Hresp; [done|]. apply active_edges.
  rewrite !Hperm. split_and!; [done|done|]. rewrite <- Hperm, <- Hop, Heq. apply elem_of_app. right. left.
Qed.
End queries.
