(* ===== verification/CatalogCorrect.v ===== *)
(** * Correctness of the target catalog

    The relations of a constructed catalog, the sets of targets that may be
    active together and their order, cycle detection, and the resolution of
    bundles. *)

From Stdlib Require Import ZArith Lia Ascii.
From stdpp Require Import base tactics numbers list strings gmap sorting relations.
From S2P Require Import Prelude PyValue Sha256 Identity Strict Graph Provider Catalog CatalogResolve CatalogFacts.

(** [c] is what [TargetCatalog] returns for these specifications and rules. *)
Definition constructed `{Sha256} (specs : list TargetSpec) (rules : list CompositionRule) (c : TargetCatalog) : Prop :=
  Forall (λ r, CompositionRule_init r = Ok r) rules ∧ TargetCatalog_init specs rules = Ok c.

Lemma constructed_rules `{Sha256} specs rules c : constructed specs rules c → Forall rule_wf rules.
Proof. intros [Hr _]. eapply Forall_impl; [exact Hr|]. intros r Hi. by apply CompositionRule_init_wf in Hi as [_ ?]. Qed.

Lemma constructed_wf `{Sha256} specs rules c : constructed specs rules c → catalog_wf specs rules c.
Proof. intros Hc. eapply TargetCatalog_init_wf; [by eapply constructed_rules | apply Hc]. Qed.

(** C30: relation closures.  In a constructed catalog the two queries return, for
    every registered target, exactly the targets reached by one or more declared
    steps; both declared relations are acyclic; and nothing that a target
    (transitively) requires is displaced by it or displaces it. *)
Theorem closures_transitive `{Sha256} specs rules c :
  constructed specs rules c →
  (∀ t, t ∈ ts_target_id <$> specs →
     (∃ D, displacement_closure c t = Ok D ∧ ∀ x, x ∈ D ↔ tc (displaces specs) t x) ∧
     (∃ Q, requires_closure c t = Ok Q ∧ ∀ x, x ∈ Q ↔ tc (requires specs) t x)) ∧
  acyclic (displaces specs) ∧ acyclic (requires specs) ∧
  (∀ a b, tc (requires specs) a b → ¬ tc (displaces specs) a b ∧ ¬ tc (displaces specs) b a).
Proof.
  intros Hwf%constructed_wf. split_and!; [|by destruct Hwf..]. intros t Ht.
  split; [by eapply displacement_closure_Ok | by eapply requires_closure_Ok].
Qed.

(** Which targets may be active together.  [validate_active_targets] accepts
    exactly the lists without repetition whose targets are registered, of which
    none (transitively) displaces another and which hold everything they
    (transitively) require; it returns them sorted. *)
Theorem active_targets_admissible `{Sha256} specs rules c active r :
  constructed specs rules c →
  validate_active_targets c active = Ok r ↔ r = sorted_str active ∧ admissible specs active.
Proof. intros Hwf%constructed_wf. by eapply validate_active_Ok. Qed.

(** Exclusive ownership.  Two different targets that are active together
    never have a semantic slot in common, whatever specifications the catalog
    was built from. *)
Theorem active_members_disjoint `{Sha256} specs rules c active r s1 s2 m :
  constructed specs rules c → validate_active_targets c active = Ok r →
  s1 ∈ specs → s2 ∈ specs → ts_target_id s1 ∈ active → ts_target_id s2 ∈ active →
  m ∈ ts_members s1 → m ∈ ts_members s2 → s1 = s2.
Proof.
  intros Hwf%constructed_wf Hv Hs1 Hs2 Ha1 Ha2 Hm1 Hm2. eapply validate_active_Ok in Hv as (_ & _ & _ & Hd & _); [|done].
  assert (s1 = s2 ∨ s1 ≠ s2) as [|Hne]; [|done|].
  { destruct (decide (ts_target_id s1 = ts_target_id s2)) as [He|Hn]; [left; by eapply spec_unique, He; [apply Hwf|..]|].
    right. by intros ->. }
  exfalso. destruct (cw_shared _ _ _ Hwf s1 s2 m) as [Hdis|Hdis]; [done..| |];
    [by apply (Hd (ts_target_id s1) (ts_target_id s2)), tc_once | by apply (Hd (ts_target_id s2) (ts_target_id s1)), tc_once].
Qed.

(** The order of the active targets.  For a constructed catalog
    [ordered_active_targets] fails exactly as [validate_active_targets] does (its
    own cycle error is never raised); otherwise it returns the reference order
    that repeatedly takes the smallest target no remaining target has to precede.
    That order lists every active target once and puts the earlier target of
    every composition rule first. *)
Theorem active_order_greedy `{Sha256} specs rules c active :
  constructed specs rules c →
  ordered_active_targets c active =
    result_map (λ sorted, greedy_order (precedence_edges (active_precedences c sorted)) (length active) sorted)
      (validate_active_targets c active) ∧
  ∀ ordered, ordered_active_targets c active = Ok ordered →
    ordered ≡ₚ active ∧
    ∀ rule a b, rule ∈ rules → cr_precedence rule = [a; b] → a ∈ active → b ∈ active →
      ∃ l1 l2 l3, ordered = l1 ++ a :: l2 ++ b :: l3.
Proof.
  intros Hc. pose proof (constructed_wf _ _ _ Hc) as Hwf. pose proof (constructed_rules _ _ _ Hc) as Hr.
  unfold ordered_active_targets. destruct (validate_active_targets c active) as [r|e] eqn:Hv; [|done]. cbn [bind result_map].
  eapply validate_active_Ok in Hv as (-> & Had); [|done].
  destruct (precedence_order_active specs rules c Hwf Hr active Had) as (Ho & Hp & Hresp). rewrite Ho. cbn [bind].
  assert (length (sorted_str active) = length active) as Hlen by (apply Permutation_length, sorted_by_perm).
  rewrite (Permutation_length Hp), Hlen, Nat.eqb_refl. cbn. split; [done|]. intros ordered [= <-]. split; [done|].
  intros rule a b Hrule Hprec Ha Hb. rewrite <- Hp in Hb. apply list_elem_of_split in Hb as (k & l3 & Heq).
  assert (a ∈ k) as Hak.
  { eapply Hresp; [done| |done]. apply precedes_rule; [done|]. by exists rule. }
  apply list_elem_of_split in Hak as (l1 & l2 & ->). exists l1, l2, l3. rewrite Heq. by rewrite <- app_assoc.
Qed.

(** C35: cycle detection terminates and is exact.  Over specifications with
    distinct IDs whose relation names registered targets only, the depth-first
    search returns exactly when the relation is acyclic and otherwise raises the
    cycle error; the closure of every target is computed; neither runs out of
    the steps the model allots. *)
Theorem relation_search_exact specs (relation : TargetSpec → gset string) :
  NoDup (ts_target_id <$> specs) →
  (∀ s x, s ∈ specs → x ∈ relation s → x ∈ ts_target_id <$> specs) →
  let by_id := spec_row <$> specs in
  validate_relation_dag (related by_id relation) by_id.*1 ∈ [Ok tt; Raise cycle_error] ∧
  (validate_relation_dag (related by_id relation) by_id.*1 = Ok tt ↔ acyclic (declared specs relation)) ∧
  ∀ t, t ∈ ts_target_id <$> specs →
    ∃ set, relation_closure (related by_id relation) by_id.*1 t = Ok set ∧ ∀ x, x ∈ set ↔ tc (declared specs relation) t x.
Proof.
  intros Hnd Hknown by_id. assert (∀ s, s ∈ specs → relation s ⊆ known_ids by_id) as Hk.
  { intros s Hs x Hx. apply elem_of_list_to_set. unfold by_id. rewrite spec_rows_fst. by eapply Hknown. }
  pose proof (dag_checked specs Hnd relation Hk) as Hdag. fold by_id in Hdag. split_and!; [| |intros t Ht].
  - destruct Hdag as [[-> _]|[-> _]]; [left | right; left].
  - destruct Hdag as [[-> Hac]|[-> Hac]]; [done|]. split; [done|]. intros Hac'. by destruct (Hac Hac').
  - destruct (relation_closure_spec (related by_id relation) by_id.*1 (related_closed specs Hnd relation Hk) t) as (set & Hset & Hel);
      [unfold by_id; by rewrite spec_rows_fst|]. exists set. split; [done|]. intros x. rewrite Hel. by apply tc_declared.
Qed.

(** ** Resolution *)

Lemma distinct_elem seen l x : x ∈ distinct seen l ↔ x ∈ l ∧ x ∉ seen.
Proof.
  revert seen. induction l as [|y l IH]; intros seen; cbn [distinct]; [rewrite elem_of_nil; tauto|].
  case_bool_decide as Hy; rewrite ?elem_of_cons, IH.
  - split; [tauto|]. intros [[->|?] ?]; tauto.
  - rewrite elem_of_cons. destruct (decide (x = y)) as [->|]; tauto.
Qed.

(** The slots of a manifest as a set. *)
Definition slots (m : Manifest) : gset string := list_to_set (op_slot <$> mf_ops m).

Lemma member_set_slots m : member_set (_semantic_members m) = slots m.
Proof.
  apply set_eq. intros x. unfold member_set, slots, _semantic_members. rewrite !elem_of_list_to_set, distinct_elem.
  pose proof (not_elem_of_nil x). tauto.
Qed.

(** Two manifests with the same rows in different orders. *)
Record same_rows (m m' : Manifest) : Prop := {
  sr_ops : mf_ops m ≡ₚ mf_ops m';
  sr_patches : mf_dep_patches m ≡ₚ mf_dep_patches m';
  sr_competition : mf_competition m = mf_competition m'
}.

Lemma existsb_perm {A} (f : A → bool) l l' : l ≡ₚ l' → existsb f l = existsb f l'.
Proof. induction 1; cbn; try congruence. by rewrite !orb_assoc, (orb_comm (f y)). Qed.

Lemma existsb_ext {A} (f g : A → bool) l : (∀ x, f x = g x) → existsb f l = existsb g l.
Proof. intros Hfg. induction l as [|x l IH]; cbn; [done|]. by rewrite Hfg, IH. Qed.

Lemma same_rows_slots m m' : same_rows m m' → slots m = slots m'.
Proof. intros [Ho _ _]. apply set_eq. intros x. unfold slots. by rewrite !elem_of_list_to_set, Ho. Qed.

Lemma same_rows_features m m' : same_rows m m' → manifest_declared_features m = manifest_declared_features m'.
Proof.
  intros [Ho Hp _]. unfold manifest_declared_features.
  assert (existsb (λ slot, (1 <? slot_count m slot)%nat) (op_slot <$> mf_ops m) =
          existsb (λ slot, (1 <? slot_count m' slot)%nat) (op_slot <$> mf_ops m')) as ->.
  { rewrite (existsb_perm _ _ (op_slot <$> mf_ops m')) by (by rewrite Ho). apply existsb_ext. intros slot. unfold slot_count.
    by rewrite Ho. }
  apply set_eq. intros x. rewrite !elem_of_union, !elem_of_union_list, !elem_of_list_to_set. setoid_rewrite list_elem_of_fmap.
  setoid_rewrite Ho. setoid_rewrite Hp. done.
Qed.

Lemma same_rows_evidence m m' features :
  same_rows m m' → _validate_complete_feature_evidence m features = _validate_complete_feature_evidence m' features.
Proof.
  intros [Ho _ _]. unfold _validate_complete_feature_evidence.
  rewrite (existsb_perm _ (mf_ops m ≫= op_cuda_sources) (mf_ops m' ≫= op_cuda_sources)) by (by rewrite Ho).
  assert (declared_provider_ids m = declared_provider_ids m') as ->; [|done].
  unfold declared_provider_ids. f_equal. apply set_eq. intros x. by rewrite !elem_of_list_to_set, Ho.
Qed.

(** Row order.  The resolved identity of a bundle does not depend on the
    order of its operation rows and dependency patches, for results and for
    errors. *)
Theorem resolution_row_order c m m' observed :
  same_rows m m' → resolve_manifest c m observed = resolve_manifest c m' observed.
Proof.
  intros Hs. unfold resolve_manifest, resolve_spec, unregistered. rewrite !member_set_slots.
  rewrite (same_rows_slots m m' Hs), (same_rows_features m m' Hs), (sr_competition _ _ Hs).
  by rewrite !(same_rows_evidence m m' _ Hs).
Qed.

Lemma by_members_Some specs rules c s ms :
  catalog_wf specs rules c → by_members c ms = Some s ↔ s ∈ specs ∧ member_set (ts_members s) = ms.
Proof.
  intros Hwf. unfold by_members. rewrite (cw_by_members _ _ _ Hwf).
  destruct (List.find _ _) as [[ms' s']|] eqn:E; cbn.
  - apply List.find_some in E as [Hin He]. cbn in He. apply bool_decide_eq_true in He as ->.
    apply list_elem_of_In, list_elem_of_fmap in Hin as (s0 & [= -> ->] & Hin). split; [by intros [= <-]|].
    intros [Hs Hm]. f_equal. symmetry. eapply (NoDup_fmap_inj_elem (λ s, member_set (ts_members s))); [apply Hwf|done..].
  - split; [done|]. intros [Hs <-]. exfalso.
    assert (List.In (member_set (ts_members s), s) ((λ s, (member_set (ts_members s), s)) <$> specs)) as Hin
      by (apply list_elem_of_In, list_elem_of_fmap; by exists s).
    pose proof (List.find_none _ _ E _ Hin) as Hf. cbn in Hf. by apply bool_decide_eq_false in Hf.
Qed.

(** The bundle asks for this target, by its slots or by name and mode. *)
Definition requests (m : Manifest) (s : TargetSpec) : Prop :=
  match mf_competition m with
  | None => True
  | Some q => ce_target q = ts_target_id s ∧ ce_mode q = TargetKind_value (ts_kind s)
  end.

Definition resolved (m : Manifest) (observed : list string) (s : TargetSpec) : ResolvedTarget :=
  {| rt_target_id := Some (ts_target_id s); rt_kind := Some (ts_kind s); rt_members := ts_members s;
     rt_registered := true; rt_implicit := negb (present (mf_competition m));
     rt_observed_features := manifest_declared_features m ∪ list_to_set observed;
     rt_features_complete := true; rt_reason := None; rt_contract_digest := None |}.

Lemma resolve_spec_Ok m s implicit features r :
  resolve_spec m s implicit features true = Ok r ↔
  slots m = member_set (ts_members s) ∧ features ⊆ ts_allowed_features s ∧ _validate_complete_feature_evidence m features = Ok tt ∧
  r = {| rt_target_id := Some (ts_target_id s); rt_kind := Some (ts_kind s); rt_members := ts_members s;
         rt_registered := true; rt_implicit := implicit; rt_observed_features := features; rt_features_complete := true;
         rt_reason := None; rt_contract_digest := None |}.
Proof.
  unfold resolve_spec. rewrite member_set_slots. split.
  - intros Hr. inv_ok Hr. bool_prop. by destruct v1.
  - intros (-> & Hf & He & ->). rewrite !bool_decide_eq_true_2 by done. cbn. by rewrite He.
Qed.

Lemma observed_nonempty observed :
  existsb (λ f, bool_decide (f = "")) observed = false ↔ "" ∉ observed.
Proof.
  rewrite <- not_true_iff_false, existsb_exists. apply not_iff_compat. split.
  - intros (x & Hx & ->%bool_decide_eq_true). by apply list_elem_of_In.
  - intros Hin. exists "". split; [by apply list_elem_of_In | done].
Qed.

(** C36: admission.  Intake resolves a bundle exactly when its slots are the
    member set of a registered target that it requests, every feature is
    allowed there and the feature evidence is complete; the result names that
    target, which is the only one with those slots.  No bundle with an
    engine-wide setup hook is ever admitted. *)
Theorem intake_resolution_exact `{Sha256} specs rules c m observed r :
  constructed specs rules c →
  (resolve_intake c m observed = Ok r ↔
   ∃ s, s ∈ specs ∧ requests m s ∧ slots m = member_set (ts_members s) ∧ ("" ∉ observed) ∧
     manifest_declared_features m ∪ list_to_set observed ⊆ ts_allowed_features s ∧
     _validate_complete_feature_evidence m (manifest_declared_features m ∪ list_to_set observed) = Ok tt ∧
     r = resolved m observed s) ∧
  (∀ s s', s ∈ specs → s' ∈ specs → slots m = member_set (ts_members s) → slots m = member_set (ts_members s') → s = s') ∧
  (is_ok (resolve_intake c m observed) = true → ∀ op, op ∈ mf_ops m → op_setup op = None).
Proof.
  intros Hwf%constructed_wf.
  assert (∀ r, resolve_intake c m observed = Ok r ↔
   ∃ s, s ∈ specs ∧ requests m s ∧ slots m = member_set (ts_members s) ∧ ("" ∉ observed) ∧
     manifest_declared_features m ∪ list_to_set observed ⊆ ts_allowed_features s ∧
     _validate_complete_feature_evidence m (manifest_declared_features m ∪ list_to_set observed) = Ok tt ∧
     r = resolved m observed s) as Hiff; [|split_and!; [apply Hiff| |]].
  - clear r. intros r. unfold resolve_intake, resolve_manifest, requests, resolved. rewrite member_set_slots. split.
    + intros Hr. apply bind_Ok in Hr as (r0 & Hr0 & Hr). apply bind_Ok in Hr as (r1 & H1 & H2).
      apply bind_Ok in H1 as (? & Hreg%raise_if_Ok%negb_false_iff & [= <-]). apply bind_Ok in H2 as (? & _ & [= <-]).
      apply bind_Ok in Hr0 as (? & Hobs%raise_if_Ok & Hr0). cbn [present] in Hr0, Hobs. apply observed_nonempty in Hobs.
      destruct (mf_competition m) as [q|].
      * apply bind_Ok in Hr0 as (? & _ & Hr0). case_bool_decide as Hsys; [injection Hr0 as <-; done|].
        apply bind_Ok in Hr0 as (? & _ & Hr0). apply bind_Ok in Hr0 as (s & Hs & Hr0). apply bind_Ok in Hr0 as (? & Hk%raise_if_Ok & Hr0).
        eapply require_Ok in Hs as [Hs Ht]; [|done]. apply resolve_spec_Ok in Hr0 as (? & ? & ? & ->). bool_prop. by exists s.
      * destruct (by_members c (slots m)) as [s|] eqn:Hb; [|injection Hr0 as <-; done].
        eapply by_members_Some in Hb as [Hs _]; [|done]. apply resolve_spec_Ok in Hr0 as (? & ? & ? & ->). by exists s.
    + intros (s & Hs & Hq & Hsl & Hobs%observed_nonempty & Hf & He & ->). cbn [present]. rewrite Hobs. cbn [raise_if bind].
      destruct (mf_competition m) as [q|].
      * destruct Hq as [Ht Hk]. pose proof (proj1 (Forall_forall _ _) (cw_specs _ _ _ Hwf) s Hs) as Hsw. rewrite Ht, Hk.
        rewrite (sw_id _ Hsw). rewrite (proj2 (require_Ok specs rules c Hwf (ts_target_id s) s)) by done. cbn [negb raise_if bind].
        destruct (ts_kind s) eqn:Hkind; cbn; rewrite (proj2 (resolve_spec_Ok m s false _ _)) by (split_and!; [done..|reflexivity]);
          cbn; by rewrite Hkind.
      * assert (by_members c (slots m) = Some s) as -> by by eapply by_members_Some.
        rewrite (proj2 (resolve_spec_Ok m s true _ _)) by (split_and!; [done..|reflexivity]). done.
  - intros s s' Hs Hs' H1 H2. eapply (NoDup_fmap_inj_elem (λ s, member_set (ts_members s))); [apply Hwf|done|done|congruence].
  - intros Hok op Hop. apply is_ok_true in Hok as [r' Hr']. apply Hiff in Hr' as (s & Hs & _ & _ & _ & Hf & _).
    destruct (op_setup op) as [f|] eqn:Hsetup; [exfalso|done].
    destruct (sw_features _ (proj1 (Forall_forall _ _) (cw_specs _ _ _ Hwf) s Hs)) as (_ & _ & Hn). apply Hn, Hf.
    apply elem_of_union_l. unfold manifest_declared_features. apply elem_of_union_l, elem_of_union_l, elem_of_union_r, elem_of_union_list.
    exists (op_features op). split; [apply list_elem_of_fmap; eauto|]. unfold op_features. rewrite Hsetup. cbn [present feature_if].
    do 4 apply elem_of_union_l. apply elem_of_union_r. by apply elem_of_singleton.
Qed.

(** ** The default catalog *)

Definition default_specs : list TargetSpec :=
  match mapM singleton_spec SINGLETON_TARGET_IDS with Ok l => l ++ [moe_epilogue_spec] | Raise _ => [] end.

(** The shipped rule with an arbitrary binding digest. *)
Definition moe_rule_with (digest : string) : CompositionRule :=
  {| cr_schema_version := 1; cr_rule_id := "sglang.moe.reduce-first.v1"; cr_target_ids := sorted_set moe_pair;
     cr_precedence := ["moe.fused_experts_reduce"; "moe.fused_experts"]; cr_mode := "first_applicable";
     cr_binding_family_id := "sglang.moe.fused-experts.dispatch.v1"; cr_binding_contract_digest := digest |}.

Section default.
Context `{Sha256}.

Lemma moe_rule_accepted : CompositionRule_init moe_rule = Ok moe_rule.
Proof.
  assert (is_hex64 (cr_binding_contract_digest moe_rule) = true) as Hd by by apply digest_of_is_hex64.
  change moe_rule with (moe_rule_with (cr_binding_contract_digest moe_rule)) at 1 2. revert Hd.
  generalize (cr_binding_contract_digest moe_rule). intros d Hd. unfold CompositionRule_init. cbn [cr_binding_contract_digest moe_rule_with].
  rewrite Hd. vm_compute. reflexivity.
Qed.

(** What the default catalog answers, for any binding digest of its rule. *)
Lemma default_answers digest :
  is_ok (TargetCatalog_init default_specs [moe_rule_with digest]) = true ∧
  (let! c := TargetCatalog_init default_specs [moe_rule_with digest] in
   ordered_active_targets c ["norm.rmsnorm"; "moe.fused_experts"; "moe.fused_experts_reduce"]) =
    Ok ["moe.fused_experts_reduce"; "moe.fused_experts"; "norm.rmsnorm"] ∧
  (let! c := TargetCatalog_init default_specs [moe_rule_with digest] in
   validate_active_targets c ["collective.ar_residual_rmsnorm"; "collective.moe_epilogue.v1"]) =
    Raise (resolution_error "active target displaces").
Proof. vm_compute. split_and!; reflexivity. Qed.

Lemma default_is : default_target_catalog = TargetCatalog_init default_specs [moe_rule].
Proof.
  unfold default_target_catalog. rewrite moe_rule_accepted. unfold default_specs.
  destruct (mapM singleton_spec SINGLETON_TARGET_IDS) as [l|e] eqn:E; [done|exfalso].
  assert (is_ok (mapM singleton_spec SINGLETON_TARGET_IDS) = true) as Hok by (vm_compute; reflexivity). by rewrite E in Hok.
Qed.

(** The constructor returns a catalog for the shipped specifications and rule. *)
Lemma default_constructed : ∃ c, default_target_catalog = Ok c ∧ constructed default_specs [moe_rule] c.
Proof.
  destruct (default_answers (cr_binding_contract_digest moe_rule)) as (Hok & _). apply is_ok_true in Hok as [c Hc]. rewrite default_is.
  exists c. split; [done|]. split; [apply Forall_cons; split; [exact moe_rule_accepted | constructor] | done].
Qed.

(** The shipped catalog.  It passes every check of the constructor with any
    hash function, registers the eleven slots and the one atomic target, puts
    the reducing MoE target before the plain one, and refuses the atomic
    epilogue together with one of its members. *)
Theorem default_catalog_valid :
  (∃ c, default_target_catalog = Ok c ∧ constructed default_specs [moe_rule] c) ∧
  ts_target_id <$> default_specs = SINGLETON_TARGET_IDS ++ [MOE_EPILOGUE_ATOMIC_TARGET] ∧
  (let! c := default_target_catalog in
   ordered_active_targets c ["norm.rmsnorm"; "moe.fused_experts"; "moe.fused_experts_reduce"]) =
    Ok ["moe.fused_experts_reduce"; "moe.fused_experts"; "norm.rmsnorm"] ∧
  (let! c := default_target_catalog in
   validate_active_targets c ["collective.ar_residual_rmsnorm"; "collective.moe_epilogue.v1"]) =
    Raise (resolution_error "active target displaces").
Proof.
  destruct (default_answers (cr_binding_contract_digest moe_rule)) as (_ & Ho & Hv).
  split; [exact default_constructed|]. split; [vm_compute; reflexivity|]. rewrite default_is. split; [exact Ho | exact Hv].
Qed.
End default.
