(* ===== verification/FiniteDebt.v ===== *)
(** * Finite innovation debt (src/optima/finite_debt.py)

    Policies, claims, balances and epoch projections of the registered-CROWN
    debt.  Every dataclass is a record, and [X_init] is its generated
    constructor with [__post_init__]: it takes the raw values that reach
    [cls(...)] and either raises or returns the validated record.  Arguments
    that the source only checks with [type(x) is C] have the type [C] here.
    [from_dict], [to_dict] and [digest] follow the source. *)

From Stdlib Require Import ZArith Lia Ascii.
From stdpp Require Import base tactics numbers list strings gmap sorting.
From S2P Require Import Prelude PyValue Sha256 Identity Strict Decimal Apportion.

(** ** Constants *)

Definition PPM : Z := 1000000.
Definition REFERENCE_EPOCH_UNITS : Z := PPM.
Definition LOG_UNIT_STEP : Z * Z := (101, -2).
Definition DECIMAL_PRECISION : Z := 80.
Definition POLICY_SCHEMA_VERSION : Z := 2.
Definition POLICY_VERSION : string := "optima.finite-debt.v2".
Definition MAX_ACTIVE_CAMPAIGNS : Z := 2.
Definition IMPROVEMENT_GROSS : string := "gross".
Definition IMPROVEMENT_EXCESS : string := "excess_over_threshold".
Definition IMPROVEMENT_BASES : list string := [IMPROVEMENT_GROSS; IMPROVEMENT_EXCESS].
Definition BALANCE_STATUSES : list string := ["open"; "paid"; "expired"; "cancelled"].

(** ** The module's validators *)

(** [_HOTKEY = [^\s]{1,256}\Z] with [fullmatch]. *)
Definition hotkey_matches (s : string) : bool :=
  let n := str_len s in (1 <=? n) && (n <=? 256) && forallb (λ c, negb (is_space c)) (chars s).

Module FD.
Definition error (msg : string) : pyexn := Exn FiniteDebtError msg.

(** [_integer]; the default of [minimum] is 0. *)
Definition _integer (minimum maximum : option Z) (v : pyval) : result Z :=
  require_int FiniteDebtError minimum maximum v.

Definition _digest (v : pyval) : result string := require_digest FiniteDebtError false false v.

Definition _hotkey (v : pyval) : result string :=
  match v with
  | PStr s => if hotkey_matches s then Ok s else Raise (error "is malformed")
  | _ => Raise (error "is malformed")
  end.

Definition _strict (fields : list string) (v : pyval) : result (list (string * pyval)) :=
  require_exact_fields FiniteDebtError fields true v.
End FD.
Import FD.

#[global] Arguments FD._integer : simpl never.
#[global] Arguments FD._digest : simpl never.
#[global] Arguments FD._hotkey : simpl never.
#[global] Arguments FD._strict : simpl never.
#[global] Arguments py_in_strs : simpl never.
#[global] Arguments py_eq_int : simpl never.

(** [_canonical_decimal]; the parsed value is positive, so it is returned as its
    coefficient and exponent. *)
Definition _canonical_decimal (v : pyval) (minimum : Z) (strict_minimum : bool) : result (string * (Z * Z)) :=
  match v with
  | PStr value =>
      match read_decimal value with
      | None => Raise (error "is not decimal")
      | Some (DFinite neg c e) =>
          do! raise_if (if strict_minimum then dec_leb (signed neg c) e minimum 0
                        else dec_ltb (signed neg c) e minimum 0)
                (error "must be finite and above its minimum") ;;
          let! normal := dec_normalize c e in
          let text := format_f normal.1 normal.2 in
          let canonical := if has_char "."%char text then rstrip "."%char (rstrip "0"%char text) else text in
          do! raise_if (negb (bool_decide (value = canonical)))
                (error "must use canonical decimal spelling") ;;
          Ok (canonical, (c, e))
      | Some _ => Raise (error "must be finite and above its minimum")
      end
  | _ => Raise (error "must be a canonical decimal string")
  end.

#[global] Arguments _canonical_decimal : simpl never.

(** ** Campaigns *)

Record CampaignBudgetShare := {
  cbs_campaign_id : string;
  cbs_share_ppm : Z
}.

#[global] Instance CampaignBudgetShare_eq_dec : EqDecision CampaignBudgetShare.
Proof. solve_decision. Defined.

Definition CampaignBudgetShare_init (campaign_id share_ppm : pyval) : result CampaignBudgetShare :=
  let! campaign_id := _digest campaign_id in
  let! share_ppm := _integer (Some 1) (Some PPM) share_ppm in
  Ok {| cbs_campaign_id := campaign_id; cbs_share_ppm := share_ppm |}.

Definition CampaignBudgetShare_to_dict (s : CampaignBudgetShare) : pyval :=
  py_dict [("campaign_id", PStr (cbs_campaign_id s)); ("share_ppm", PInt (cbs_share_ppm s))].

Definition CampaignBudgetShare_from_dict (v : pyval) : result CampaignBudgetShare :=
  let! row := _strict ["campaign_id"; "share_ppm"] v in
  let! campaign_id := row_get row "campaign_id" in
  let! share_ppm := row_get row "share_ppm" in
  CampaignBudgetShare_init campaign_id share_ppm.

Record RewardFamilyCampaign := {
  rfc_family_id : string;
  rfc_campaign_id : string
}.

#[global] Instance RewardFamilyCampaign_eq_dec : EqDecision RewardFamilyCampaign.
Proof. solve_decision. Defined.

Definition RewardFamilyCampaign_init (family_id campaign_id : pyval) : result RewardFamilyCampaign :=
  let! family_id := _digest family_id in
  let! campaign_id := _digest campaign_id in
  Ok {| rfc_family_id := family_id; rfc_campaign_id := campaign_id |}.

Definition RewardFamilyCampaign_to_dict (r : RewardFamilyCampaign) : pyval :=
  py_dict [("campaign_id", PStr (rfc_campaign_id r)); ("family_id", PStr (rfc_family_id r))].

Definition RewardFamilyCampaign_from_dict (v : pyval) : result RewardFamilyCampaign :=
  let! row := _strict ["family_id"; "campaign_id"] v in
  let! family_id := row_get row "family_id" in
  let! campaign_id := row_get row "campaign_id" in
  RewardFamilyCampaign_init family_id campaign_id.

Definition equal_campaign_budget_shares (campaign_ids : list pyval) : result (list CampaignBudgetShare) :=
  let! digests := mapM _digest campaign_ids in
  let campaigns := sorted_str digests in
  do! raise_if (is_nil campaigns || negb (bool_decide (NoDup campaigns)))
        (error "campaign catalog must be nonempty and unique") ;;
  do! raise_if (MAX_ACTIVE_CAMPAIGNS <? Z.of_nat (length campaigns))
        (error "policy supports at most two active campaigns") ;;
  let share := PPM / Z.of_nat (length campaigns) in
  mapM (λ campaign, CampaignBudgetShare_init (PStr campaign) (PInt share)) campaigns.

(** ** The policy *)

(** [schema_version] is compared with [!=] only, so the record keeps whatever
    value compared equal. *)
Record FiniteDebtPolicyManifest := {
  fp_campaign_budget_shares : list CampaignBudgetShare;
  fp_reward_family_campaigns : list RewardFamilyCampaign;
  fp_selection_report_digest : string;
  fp_reserve_hotkey : string;
  fp_reserve_ppm : Z;
  fp_epoch_blocks : Z;
  fp_beta_ppm : Z;
  fp_tau_blocks : Z;
  fp_lifetime_blocks : Z;
  fp_k_ppm : Z;
  fp_improvement_basis : string;
  fp_clock_reset_threshold_log_units_ppm : Z;
  fp_schema_version : pyval;
  fp_policy_version : string
}.

(** A value that passed [v == s] for a string. *)
Definition require_str (e : pyexn) (v : pyval) : result string :=
  match v with PStr s => Ok s | _ => Raise e end.

Definition FiniteDebtPolicyManifest_init
    (campaign_budget_shares : list CampaignBudgetShare)
    (reward_family_campaigns : list RewardFamilyCampaign)
    (selection_report_digest reserve_hotkey reserve_ppm epoch_blocks beta_ppm tau_blocks
     lifetime_blocks k_ppm improvement_basis clock_reset_threshold_log_units_ppm
     schema_version policy_version : pyval) : result FiniteDebtPolicyManifest :=
  let shares := sorted_by cbs_campaign_id campaign_budget_shares in
  do! raise_if (is_nil shares || negb (bool_decide (NoDup (cbs_campaign_id <$> shares))))
        (error "campaign budget must be one 100% campaign or two 50% campaigns") ;;
  let! equal := equal_campaign_budget_shares ((λ row, PStr (cbs_campaign_id row)) <$> shares) in
  do! raise_if (negb (bool_decide (shares = equal)))
        (error "campaign budget must be one 100% campaign or two 50% campaigns") ;;
  let mappings := sorted_by rfc_family_id reward_family_campaigns in
  do! raise_if (is_nil mappings || negb (bool_decide (NoDup (rfc_family_id <$> mappings)))
                || negb (bool_decide ((list_to_set (rfc_campaign_id <$> mappings) : gset string)
                                      = list_to_set (cbs_campaign_id <$> shares))))
        (error "every reward family must map once and every campaign must have a family") ;;
  let! selection := _digest selection_report_digest in
  let! reserve_hotkey := _hotkey reserve_hotkey in
  let! reserve_ppm := _integer (Some 0) (Some (PPM - 1)) reserve_ppm in
  let reference_pool := (PPM - reserve_ppm) * REFERENCE_EPOCH_UNITS / PPM in
  do! raise_if (existsb (λ row, reference_pool * cbs_share_ppm row / PPM <=? 0) shares)
        (error "a campaign reference claim pool rounds to zero") ;;
  let! epoch_blocks := _integer (Some 1) None epoch_blocks in
  let! beta_ppm := _integer (Some 0) (Some PPM) beta_ppm in
  let! tau_blocks := _integer (Some 1) None tau_blocks in
  let! lifetime_blocks := _integer (Some 1) None lifetime_blocks in
  let! k_ppm := _integer (Some 1) None k_ppm in
  let! known := py_in_strs improvement_basis IMPROVEMENT_BASES in
  do! raise_if (negb known) (error "improvement_basis is unsupported") ;;
  let! basis := require_str (error "improvement_basis is unsupported") improvement_basis in
  let! clock := _integer (Some 1) None clock_reset_threshold_log_units_ppm in
  do! raise_if (negb (py_eq_int schema_version POLICY_SCHEMA_VERSION))
        (error "finite-debt policy schema_version is unsupported") ;;
  do! raise_if (negb (py_eq_str policy_version POLICY_VERSION))
        (error "finite-debt policy_version is unsupported") ;;
  let! version := require_str (error "finite-debt policy_version is unsupported") policy_version in
  Ok {| fp_campaign_budget_shares := shares;
        fp_reward_family_campaigns := mappings;
        fp_selection_report_digest := selection;
        fp_reserve_hotkey := reserve_hotkey;
        fp_reserve_ppm := reserve_ppm;
        fp_epoch_blocks := epoch_blocks;
        fp_beta_ppm := beta_ppm;
        fp_tau_blocks := tau_blocks;
        fp_lifetime_blocks := lifetime_blocks;
        fp_k_ppm := k_ppm;
        fp_improvement_basis := basis;
        fp_clock_reset_threshold_log_units_ppm := clock;
        fp_schema_version := schema_version;
        fp_policy_version := version |}.

(** [campaign_shares]; on a repeated key the later row would win. *)
Definition campaign_shares (p : FiniteDebtPolicyManifest) : gmap string Z :=
  fold_left (λ m row, <[cbs_campaign_id row := cbs_share_ppm row]> m) (fp_campaign_budget_shares p) ∅.

Definition family_ids (p : FiniteDebtPolicyManifest) : list string :=
  rfc_family_id <$> fp_reward_family_campaigns p.

Fixpoint find_family (rows : list RewardFamilyCampaign) (family : string) : result string :=
  match rows with
  | [] => Raise (error "claim family is absent from the policy campaign map")
  | row :: rows => if bool_decide (rfc_family_id row = family) then Ok (rfc_campaign_id row) else find_family rows family
  end.

Definition campaign_for_family (p : FiniteDebtPolicyManifest) (family_id : pyval) : result string :=
  let! family := _digest family_id in
  find_family (fp_reward_family_campaigns p) family.

Definition campaign_share_ppm_for_family (p : FiniteDebtPolicyManifest) (family_id : pyval) : result Z :=
  let! campaign := campaign_for_family p family_id in
  match campaign_shares p !! campaign with
  | Some share => Ok share
  | None => Raise (Exn KeyError campaign)
  end.

Definition reference_claim_pool_units (p : FiniteDebtPolicyManifest) : Z :=
  (PPM - fp_reserve_ppm p) * REFERENCE_EPOCH_UNITS / PPM.

Definition FiniteDebtPolicyManifest_to_dict (p : FiniteDebtPolicyManifest) : pyval :=
  py_dict [
    ("beta_ppm", PInt (fp_beta_ppm p));
    ("campaign_budget_shares", PList (CampaignBudgetShare_to_dict <$> fp_campaign_budget_shares p));
    ("clock_reset_threshold_log_units_ppm", PInt (fp_clock_reset_threshold_log_units_ppm p));
    ("epoch_blocks", PInt (fp_epoch_blocks p));
    ("improvement_basis", PStr (fp_improvement_basis p));
    ("k_ppm", PInt (fp_k_ppm p));
    ("lifetime_blocks", PInt (fp_lifetime_blocks p));
    ("policy_version", PStr (fp_policy_version p));
    ("reserve_hotkey", PStr (fp_reserve_hotkey p));
    ("reserve_ppm", PInt (fp_reserve_ppm p));
    ("reward_family_campaigns", PList (RewardFamilyCampaign_to_dict <$> fp_reward_family_campaigns p));
    ("schema_version", fp_schema_version p);
    ("selection_report_digest", PStr (fp_selection_report_digest p));
    ("tau_blocks", PInt (fp_tau_blocks p))].

Definition FiniteDebtPolicyManifest_fields : list string :=
  ["campaign_budget_shares"; "reward_family_campaigns"; "selection_report_digest"; "reserve_hotkey";
   "reserve_ppm"; "epoch_blocks"; "beta_ppm"; "tau_blocks"; "lifetime_blocks"; "k_ppm";
   "improvement_basis"; "clock_reset_threshold_log_units_ppm"; "schema_version"; "policy_version"].

(** [type(value) is list] *)
Definition require_list (e : pyexn) (v : pyval) : result (list pyval) :=
  match v with PList l => Ok l | _ => Raise e end.

Definition FiniteDebtPolicyManifest_from_dict (v : pyval) : result FiniteDebtPolicyManifest :=
  let! row := _strict FiniteDebtPolicyManifest_fields v in
  let! shares := row_get row "campaign_budget_shares" in
  let! shares := require_list (error "campaign_budget_shares must be an array") shares in
  let! mappings := row_get row "reward_family_campaigns" in
  let! mappings := require_list (error "reward_family_campaigns must be an array") mappings in
  let! shares := mapM CampaignBudgetShare_from_dict shares in
  let! mappings := mapM RewardFamilyCampaign_from_dict mappings in
  let! selection_report_digest := row_get row "selection_report_digest" in
  let! reserve_hotkey := row_get row "reserve_hotkey" in
  let! reserve_ppm := row_get row "reserve_ppm" in
  let! epoch_blocks := row_get row "epoch_blocks" in
  let! beta_ppm := row_get row "beta_ppm" in
  let! tau_blocks := row_get row "tau_blocks" in
  let! lifetime_blocks := row_get row "lifetime_blocks" in
  let! k_ppm := row_get row "k_ppm" in
  let! improvement_basis := row_get row "improvement_basis" in
  let! clock := row_get row "clock_reset_threshold_log_units_ppm" in
  let! schema_version := row_get row "schema_version" in
  let! policy_version := row_get row "policy_version" in
  FiniteDebtPolicyManifest_init shares mappings selection_report_digest reserve_hotkey reserve_ppm
    epoch_blocks beta_ppm tau_blocks lifetime_blocks k_ppm improvement_basis clock schema_version policy_version.

(** ** Issuance arithmetic *)

Definition log_improvement_units_ppm (settled_speedup : pyval) (basis : string) (threshold_speedup : pyval)
    : result Z :=
  do! raise_if (negb (bool_decide (basis ∈ IMPROVEMENT_BASES))) (error "improvement basis is unsupported") ;;
  let! speed := _canonical_decimal settled_speedup 1 true in
  let! threshold := _canonical_decimal threshold_speedup 1 false in
  let! effective :=
    (if bool_decide (basis = IMPROVEMENT_GROSS) then
       do! raise_if (negb (bool_decide (threshold.1 = "1")))
             (error "gross improvement requires threshold_speedup='1'") ;;
       Ok speed.2
     else
       do! raise_if (dec_leb speed.2.1 speed.2.2 threshold.2.1 threshold.2.2)
             (error "excess-over-threshold speedup must exceed its threshold") ;;
       dec_div DECIMAL_PRECISION speed.2 threshold.2) in
  let! ln_effective := dec_ln DECIMAL_PRECISION effective in
  let! ln_step := dec_ln DECIMAL_PRECISION LOG_UNIT_STEP in
  let! ratio := dec_div DECIMAL_PRECISION ln_effective ln_step in
  let! scaled := dec_mul DECIMAL_PRECISION ratio (PPM, 0) in
  let units := dec_to_int scaled in
  do! raise_if (units <=? 0) (error "improvement rounds to zero 1%-log-unit ppm") ;;
  Ok units.

Definition rational_time_multiplier_ppm (p : FiniteDebtPolicyManifest)
    (accepted_crown_block prior_accepted_crown_block : pyval) : result Z :=
  let! current := _integer (Some 0) None accepted_crown_block in
  if is_none prior_accepted_crown_block then Ok PPM
  else
    let! prior := _integer (Some 0) None prior_accepted_crown_block in
    do! raise_if (current <? prior) (error "prior family crown is newer than the accepted crown") ;;
    let delta := current - prior in
    let bonus := fp_beta_ppm p * delta / (delta + fp_tau_blocks p) in
    let result := PPM + bonus in
    do! raise_if (PPM + fp_beta_ppm p <? result) (error "rational time multiplier exceeded its cap") ;;
    Ok result.

Definition resets_family_clock (p : FiniteDebtPolicyManifest) (log_units_ppm : pyval) : result bool :=
  let! units := _integer (Some 0) None log_units_ppm in
  Ok ((0 <? units) && (fp_clock_reset_threshold_log_units_ppm p <=? units)).

Definition _claim_principal_units (p : FiniteDebtPolicyManifest) (family_id : pyval)
    (log_units_ppm time_multiplier_ppm : Z) : result (string * Z * Z * Z) :=
  let! campaign_id := campaign_for_family p family_id in
  let! campaign_share := campaign_share_ppm_for_family p family_id in
  let campaign_pool := reference_claim_pool_units p * campaign_share / PPM in
  let principal :=
    campaign_pool * fp_k_ppm p * log_units_ppm * time_multiplier_ppm / (PPM * PPM * PPM) in
  do! raise_if ((campaign_pool <=? 0) || (principal <=? 0)) (error "claim principal rounds to zero") ;;
  Ok (campaign_id, campaign_share, campaign_pool, principal).

(** ** Claims *)

Record InnovationDebtClaim := {
  ic_policy_digest : string;
  ic_family_id : string;
  ic_campaign_id : string;
  ic_candidate_digest : string;
  ic_retained_evidence_digest : string;
  ic_hotkey : string;
  ic_settled_speedup : string;
  ic_threshold_speedup : string;
  ic_accepted_crown_block : Z;
  ic_prior_accepted_crown_block : option Z;
  ic_settlement_block : Z;
  ic_expires_block : Z;
  ic_campaign_budget_ppm : Z;
  ic_reference_campaign_pool_units : Z;
  ic_log_units_ppm : Z;
  ic_time_multiplier_ppm : Z;
  ic_principal_units : Z;
  ic_resets_clock : bool
}.

(** [type(v) is bool] *)
Definition require_bool (e : pyexn) (v : pyval) : result bool :=
  match v with PBool b => Ok b | _ => Raise e end.

Definition InnovationDebtClaim_init
    (policy_digest family_id campaign_id candidate_digest retained_evidence_digest hotkey
     settled_speedup threshold_speedup accepted_crown_block prior_accepted_crown_block
     settlement_block expires_block campaign_budget_ppm reference_campaign_pool_units
     log_units_ppm time_multiplier_ppm principal_units resets_clock : pyval) : result InnovationDebtClaim :=
  let! policy_digest := _digest policy_digest in
  let! family_id := _digest family_id in
  let! campaign_id := _digest campaign_id in
  let! candidate_digest := _digest candidate_digest in
  let! retained_evidence_digest := _digest retained_evidence_digest in
  let! hotkey := _hotkey hotkey in
  let! speed := _canonical_decimal settled_speedup 1 true in
  let! threshold := _canonical_decimal threshold_speedup 1 false in
  let! accepted := _integer (Some 0) None accepted_crown_block in
  let! settlement := _integer (Some 0) None settlement_block in
  let! expiry := _integer (Some 0) None expires_block in
  do! raise_if ((settlement <? accepted) || (expiry <=? settlement))
        (error "claim reveal, settlement, and expiry chronology is invalid") ;;
  let! prior :=
    (if is_none prior_accepted_crown_block then Ok None
     else
       let! prior := _integer (Some 0) None prior_accepted_crown_block in
       do! raise_if (accepted <? prior) (error "claim prior family crown is newer than this crown") ;;
       Ok (Some prior)) in
  let! campaign_budget_ppm := _integer (Some 1) (Some PPM) campaign_budget_ppm in
  let! reference_campaign_pool_units := _integer (Some 1) None reference_campaign_pool_units in
  let! log_units_ppm := _integer (Some 1) None log_units_ppm in
  let! time_multiplier_ppm := _integer (Some PPM) None time_multiplier_ppm in
  let! principal_units := _integer (Some 1) None principal_units in
  let! resets_clock := require_bool (error "resets_clock must be boolean") resets_clock in
  Ok {| ic_policy_digest := policy_digest;
        ic_family_id := family_id;
        ic_campaign_id := campaign_id;
        ic_candidate_digest := candidate_digest;
        ic_retained_evidence_digest := retained_evidence_digest;
        ic_hotkey := hotkey;
        ic_settled_speedup := speed.1;
        ic_threshold_speedup := threshold.1;
        ic_accepted_crown_block := accepted;
        ic_prior_accepted_crown_block := prior;
        ic_settlement_block := settlement;
        ic_expires_block := expiry;
        ic_campaign_budget_ppm := campaign_budget_ppm;
        ic_reference_campaign_pool_units := reference_campaign_pool_units;
        ic_log_units_ppm := log_units_ppm;
        ic_time_multiplier_ppm := time_multiplier_ppm;
        ic_principal_units := principal_units;
        ic_resets_clock := resets_clock |}.

Definition InnovationDebtClaim_to_row (c : InnovationDebtClaim) : list (string * pyval) :=
  [("policy_digest", PStr (ic_policy_digest c));
   ("family_id", PStr (ic_family_id c));
   ("campaign_id", PStr (ic_campaign_id c));
   ("candidate_digest", PStr (ic_candidate_digest c));
   ("retained_evidence_digest", PStr (ic_retained_evidence_digest c));
   ("hotkey", PStr (ic_hotkey c));
   ("settled_speedup", PStr (ic_settled_speedup c));
   ("threshold_speedup", PStr (ic_threshold_speedup c));
   ("accepted_crown_block", PInt (ic_accepted_crown_block c));
   ("prior_accepted_crown_block", py_opt_int (ic_prior_accepted_crown_block c));
   ("settlement_block", PInt (ic_settlement_block c));
   ("expires_block", PInt (ic_expires_block c));
   ("campaign_budget_ppm", PInt (ic_campaign_budget_ppm c));
   ("reference_campaign_pool_units", PInt (ic_reference_campaign_pool_units c));
   ("log_units_ppm", PInt (ic_log_units_ppm c));
   ("time_multiplier_ppm", PInt (ic_time_multiplier_ppm c));
   ("principal_units", PInt (ic_principal_units c));
   ("resets_clock", PBool (ic_resets_clock c))].

Definition InnovationDebtClaim_to_dict (c : InnovationDebtClaim) : pyval := py_dict (InnovationDebtClaim_to_row c).

Definition InnovationDebtClaim_fields : list string :=
  ["policy_digest"; "family_id"; "campaign_id"; "candidate_digest"; "retained_evidence_digest"; "hotkey";
   "settled_speedup"; "threshold_speedup"; "accepted_crown_block"; "prior_accepted_crown_block";
   "settlement_block"; "expires_block"; "campaign_budget_ppm"; "reference_campaign_pool_units";
   "log_units_ppm"; "time_multiplier_ppm"; "principal_units"; "resets_clock"].

Definition InnovationDebtClaim_from_dict (v : pyval) : result InnovationDebtClaim :=
  let! row := _strict InnovationDebtClaim_fields v in
  let! policy_digest := row_get row "policy_digest" in
  let! family_id := row_get row "family_id" in
  let! campaign_id := row_get row "campaign_id" in
  let! candidate_digest := row_get row "candidate_digest" in
  let! retained_evidence_digest := row_get row "retained_evidence_digest" in
  let! hotkey := row_get row "hotkey" in
  let! settled_speedup := row_get row "settled_speedup" in
  let! threshold_speedup := row_get row "threshold_speedup" in
  let! accepted_crown_block := row_get row "accepted_crown_block" in
  let! prior_accepted_crown_block := row_get row "prior_accepted_crown_block" in
  let! settlement_block := row_get row "settlement_block" in
  let! expires_block := row_get row "expires_block" in
  let! campaign_budget_ppm := row_get row "campaign_budget_ppm" in
  let! reference_campaign_pool_units := row_get row "reference_campaign_pool_units" in
  let! log_units_ppm := row_get row "log_units_ppm" in
  let! time_multiplier_ppm := row_get row "time_multiplier_ppm" in
  let! principal_units := row_get row "principal_units" in
  let! resets_clock := row_get row "resets_clock" in
  InnovationDebtClaim_init policy_digest family_id campaign_id candidate_digest retained_evidence_digest hotkey
    settled_speedup threshold_speedup accepted_crown_block prior_accepted_crown_block settlement_block
    expires_block campaign_budget_ppm reference_campaign_pool_units log_units_ppm time_multiplier_ppm
    principal_units resets_clock.

Section finite_debt.
Context `{Sha256}.

Definition FiniteDebtPolicyManifest_digest (p : FiniteDebtPolicyManifest) : result string :=
  canonical_digest "optima.finite-debt.policy" (FiniteDebtPolicyManifest_to_dict p) (PInt 1).

Definition InnovationDebtClaim_digest (c : InnovationDebtClaim) : string :=
  digest_of "optima.finite-debt.claim" (InnovationDebtClaim_to_dict c).

(** [InnovationDebtClaim.validate_policy] *)
Definition InnovationDebtClaim_validate_policy (c : InnovationDebtClaim) (p : FiniteDebtPolicyManifest)
    : result unit :=
  let! policy_digest := FiniteDebtPolicyManifest_digest p in
  do! raise_if (negb (bool_decide (ic_policy_digest c = policy_digest)))
        (error "claim differs from its finite-debt policy") ;;
  let! units := log_improvement_units_ppm (PStr (ic_settled_speedup c)) (fp_improvement_basis p)
                  (PStr (ic_threshold_speedup c)) in
  let! multiplier := rational_time_multiplier_ppm p (PInt (ic_accepted_crown_block c))
                       (py_opt_int (ic_prior_accepted_crown_block c)) in
  let! terms := _claim_principal_units p (PStr (ic_family_id c)) units multiplier in
  let '(campaign, campaign_share, campaign_pool, principal) := terms in
  let! resets := resets_family_clock p (PInt units) in
  raise_if (negb (ic_expires_block c =? ic_settlement_block c + fp_lifetime_blocks p)
            || negb (bool_decide (ic_campaign_id c = campaign))
            || negb (ic_campaign_budget_ppm c =? campaign_share)
            || negb (ic_reference_campaign_pool_units c =? campaign_pool)
            || negb (ic_log_units_ppm c =? units)
            || negb (ic_time_multiplier_ppm c =? multiplier)
            || negb (ic_principal_units c =? principal)
            || negb (Bool.eqb (ic_resets_clock c) resets))
    (error "claim derived terms differ from policy arithmetic").

Definition issue_innovation_claim (p : FiniteDebtPolicyManifest)
    (family_id candidate_digest retained_evidence_digest hotkey settled_speedup threshold_speedup
     accepted_crown_block prior_accepted_crown_block settlement_block : pyval) : result InnovationDebtClaim :=
  let! family := _digest family_id in
  let! accepted := _integer (Some 0) None accepted_crown_block in
  let! settled := _integer (Some 0) None settlement_block in
  do! raise_if (settled <? accepted) (error "accepted crown cannot be newer than settlement") ;;
  let! units := log_improvement_units_ppm settled_speedup (fp_improvement_basis p) threshold_speedup in
  let! multiplier := rational_time_multiplier_ppm p (PInt accepted) prior_accepted_crown_block in
  let! terms := _claim_principal_units p (PStr family) units multiplier in
  let '(campaign, campaign_share, campaign_pool, principal) := terms in
  let! policy_digest := FiniteDebtPolicyManifest_digest p in
  let! resets := resets_family_clock p (PInt units) in
  let! claim := InnovationDebtClaim_init (PStr policy_digest) (PStr family) (PStr campaign) candidate_digest
    retained_evidence_digest hotkey settled_speedup threshold_speedup (PInt accepted)
    prior_accepted_crown_block (PInt settled) (PInt (settled + fp_lifetime_blocks p)) (PInt campaign_share)
    (PInt campaign_pool) (PInt units) (PInt multiplier) (PInt principal) (PBool resets) in
  do! InnovationDebtClaim_validate_policy claim p ;;
  Ok claim.

(** ** Balances *)

Record DebtClaimBalance := {
  db_claim_digest : string;
  db_principal_units : Z;
  db_paid_units : Z;
  db_forfeited_units : Z;
  db_remaining_units : Z;
  db_status : string;
  db_terminal_block : option Z;
  db_terminal_reason : string
}.

Definition DebtClaimBalance_init
    (claim_digest principal_units paid_units forfeited_units remaining_units status terminal_block
     terminal_reason : pyval) : result DebtClaimBalance :=
  let! claim_digest := _digest claim_digest in
  let! principal := _integer (Some 1) None principal_units in
  let! paid := _integer (Some 0) None paid_units in
  let! forfeited := _integer (Some 0) None forfeited_units in
  let! remaining := _integer (Some 0) None remaining_units in
  do! raise_if (negb (paid + forfeited + remaining =? principal))
        (error "claim balance does not conserve principal") ;;
  let! known := py_in_strs status BALANCE_STATUSES in
  do! raise_if (negb known) (error "claim balance status is unsupported") ;;
  let! status := require_str (error "claim balance status is unsupported") status in
  let! terminal_block :=
    (if negb (bool_decide (status = "open")) then
       do! raise_if (negb (remaining =? 0) || is_none terminal_block || negb (truthy terminal_reason))
             (error "terminal claim balance is incomplete") ;;
       let! block := _integer (Some 0) None terminal_block in
       Ok (Some block)
     else
       do! raise_if ((remaining <=? 0) || negb (is_none terminal_block) || truthy terminal_reason)
             (error "open claim balance has terminal state") ;;
       Ok None) in
  let! reason := require_str (error "terminal_reason is malformed") terminal_reason in
  do! raise_if ((2048 <? str_len reason) || has_control_char reason) (error "terminal_reason is malformed") ;;
  do! raise_if (bool_decide (status = "paid") && negb (paid =? principal))
        (error "paid claim did not pay its full principal") ;;
  do! raise_if ((bool_decide (status = "expired") || bool_decide (status = "cancelled")) && (forfeited <=? 0))
        (error "forfeited claim has no forfeited principal") ;;
  Ok {| db_claim_digest := claim_digest;
        db_principal_units := principal;
        db_paid_units := paid;
        db_forfeited_units := forfeited;
        db_remaining_units := remaining;
        db_status := status;
        db_terminal_block := terminal_block;
        db_terminal_reason := reason |}.

(** [DebtClaimBalance.open] *)
Definition DebtClaimBalance_open (c : InnovationDebtClaim) : result DebtClaimBalance :=
  DebtClaimBalance_init (PStr (InnovationDebtClaim_digest c)) (PInt (ic_principal_units c)) (PInt 0) (PInt 0)
    (PInt (ic_principal_units c)) (PStr "open") PNone (PStr "").

Definition DebtClaimBalance_to_row (b : DebtClaimBalance) : list (string * pyval) :=
  [("claim_digest", PStr (db_claim_digest b));
   ("principal_units", PInt (db_principal_units b));
   ("paid_units", PInt (db_paid_units b));
   ("forfeited_units", PInt (db_forfeited_units b));
   ("remaining_units", PInt (db_remaining_units b));
   ("status", PStr (db_status b));
   ("terminal_block", py_opt_int (db_terminal_block b));
   ("terminal_reason", PStr (db_terminal_reason b))].

Definition DebtClaimBalance_to_dict (b : DebtClaimBalance) : pyval := py_dict (DebtClaimBalance_to_row b).

Definition DebtClaimBalance_fields : list string :=
  ["claim_digest"; "principal_units"; "paid_units"; "forfeited_units"; "remaining_units"; "status";
   "terminal_block"; "terminal_reason"].

Definition DebtClaimBalance_from_dict (v : pyval) : result DebtClaimBalance :=
  let! row := _strict DebtClaimBalance_fields v in
  let! claim_digest := row_get row "claim_digest" in
  let! principal_units := row_get row "principal_units" in
  let! paid_units := row_get row "paid_units" in
  let! forfeited_units := row_get row "forfeited_units" in
  let! remaining_units := row_get row "remaining_units" in
  let! status := row_get row "status" in
  let! terminal_block := row_get row "terminal_block" in
  let! terminal_reason := row_get row "terminal_reason" in
  DebtClaimBalance_init claim_digest principal_units paid_units forfeited_units remaining_units status
    terminal_block terminal_reason.

Definition DebtClaimBalance_digest (b : DebtClaimBalance) : string :=
  digest_of "optima.finite-debt.balance" (DebtClaimBalance_to_dict b).

(** The check shared by [pay], [expire] and [cancel]: the balance belongs to the
    claim. *)
Definition claim_balance_differ (c : InnovationDebtClaim) (b : DebtClaimBalance) : bool :=
  negb (bool_decide (db_claim_digest b = InnovationDebtClaim_digest c))
  || negb (db_principal_units b =? ic_principal_units c).

Definition pay_claim_balance (c : InnovationDebtClaim) (b : DebtClaimBalance) (amount at_block : pyval)
    : result DebtClaimBalance :=
  do! raise_if (claim_balance_differ c b) (error "claim and balance differ") ;;
  do! raise_if (negb (bool_decide (db_status b = "open"))) (error "only an open claim balance may be paid") ;;
  let! paid := _integer (Some 1) None amount in
  let! block := _integer (Some 0) None at_block in
  do! raise_if ((block <? ic_settlement_block c) || (ic_expires_block c <=? block))
        (error "claim payment is outside its live settlement window") ;;
  do! raise_if (db_remaining_units b <? paid) (error "claim payment exceeds remaining principal") ;;
  let remaining := db_remaining_units b - paid in
  let live := negb (remaining =? 0) in
  DebtClaimBalance_init (PStr (db_claim_digest b)) (PInt (db_principal_units b)) (PInt (db_paid_units b + paid))
    (PInt (db_forfeited_units b)) (PInt remaining)
    (PStr (if live then "open" else "paid"))
    (if live then PNone else PInt block)
    (PStr (if live then "" else "principal_paid")).

Definition expire_claim_balance (c : InnovationDebtClaim) (b : DebtClaimBalance) (at_block : pyval)
    : result DebtClaimBalance :=
  do! raise_if (claim_balance_differ c b) (error "claim and balance differ") ;;
  let! block := _integer (Some 0) None at_block in
  if negb (bool_decide (db_status b = "open")) || (block <? ic_expires_block c) then Ok b
  else
    DebtClaimBalance_init (PStr (db_claim_digest b)) (PInt (db_principal_units b)) (PInt (db_paid_units b))
      (PInt (db_forfeited_units b + db_remaining_units b)) (PInt 0) (PStr "expired") (PInt block)
      (PStr "claim_lifetime_expired").

Definition cancel_claim_balance (c : InnovationDebtClaim) (b : DebtClaimBalance) (at_block reason : pyval)
    : result DebtClaimBalance :=
  do! raise_if (claim_balance_differ c b) (error "claim and balance differ") ;;
  let! block := _integer (Some 0) None at_block in
  do! raise_if (negb (bool_decide (db_status b = "open")) || (block <? ic_settlement_block c)
                || match reason with
                   | PStr s => bool_decide (s = "") || (2048 <? str_len s) || has_control_char s
                   | _ => true
                   end)
        (error "claim cancellation is malformed or not open") ;;
  DebtClaimBalance_init (PStr (db_claim_digest b)) (PInt (db_principal_units b)) (PInt (db_paid_units b))
    (PInt (db_forfeited_units b + db_remaining_units b)) (PInt 0) (PStr "cancelled") (PInt block) reason.

(** ** Claim states *)

Record DebtClaimState := {
  ds_claim : InnovationDebtClaim;
  ds_balance : DebtClaimBalance
}.

Definition DebtClaimState_init (c : InnovationDebtClaim) (b : DebtClaimBalance) : result DebtClaimState :=
  do! raise_if (claim_balance_differ c b) (error "debt claim and balance differ") ;;
  do! raise_if (match db_terminal_block b with Some t => t <? ic_settlement_block c | None => false end)
        (error "claim balance terminal block predates settlement") ;;
  do! raise_if (bool_decide (db_status b = "expired")
                && match db_terminal_block b with Some t => t <? ic_expires_block c | None => false end)
        (error "claim balance expired before its lifetime ended") ;;
  Ok {| ds_claim := c; ds_balance := b |}.

Definition DebtClaimState_to_dict (s : DebtClaimState) : pyval :=
  py_dict [("balance", DebtClaimBalance_to_dict (ds_balance s)); ("claim", InnovationDebtClaim_to_dict (ds_claim s))].

Definition DebtClaimState_from_dict (v : pyval) : result DebtClaimState :=
  let! row := _strict ["balance"; "claim"] v in
  let! claim := row_get row "claim" in
  let! claim := InnovationDebtClaim_from_dict claim in
  let! balance := row_get row "balance" in
  let! balance := DebtClaimBalance_from_dict balance in
  DebtClaimState_init claim balance.

Definition DebtClaimState_digest (s : DebtClaimState) : string :=
  digest_of "optima.finite-debt.claim-state" (DebtClaimState_to_dict s).

(** [row.claim.digest] *)
Definition claim_key (s : DebtClaimState) : string := InnovationDebtClaim_digest (ds_claim s).

Definition is_open (s : DebtClaimState) : bool := bool_decide (db_status (ds_balance s) = "open").

(** ** Epoch projections *)

Record DebtEpochAllocation := {
  da_claim_digest : string;
  da_hotkey : string;
  da_units : Z
}.

Definition DebtEpochAllocation_init (claim_digest hotkey units : pyval) : result DebtEpochAllocation :=
  let! claim_digest := _digest claim_digest in
  let! hotkey := _hotkey hotkey in
  let! units := _integer (Some 1) None units in
  Ok {| da_claim_digest := claim_digest; da_hotkey := hotkey; da_units := units |}.

Definition DebtEpochAllocation_to_dict (a : DebtEpochAllocation) : pyval :=
  py_dict [("claim_digest", PStr (da_claim_digest a)); ("hotkey", PStr (da_hotkey a)); ("units", PInt (da_units a))].

Definition DebtEpochAllocation_from_dict (v : pyval) : result DebtEpochAllocation :=
  let! row := _strict ["claim_digest"; "hotkey"; "units"] v in
  let! claim_digest := row_get row "claim_digest" in
  let! hotkey := row_get row "hotkey" in
  let! units := row_get row "units" in
  DebtEpochAllocation_init claim_digest hotkey units.

Record DebtHotkeyWeight := {
  hw_hotkey : string;
  hw_units : Z
}.

Definition DebtHotkeyWeight_init (hotkey units : pyval) : result DebtHotkeyWeight :=
  let! hotkey := _hotkey hotkey in
  let! units := _integer (Some 1) (Some REFERENCE_EPOCH_UNITS) units in
  Ok {| hw_hotkey := hotkey; hw_units := units |}.

Definition DebtHotkeyWeight_to_dict (w : DebtHotkeyWeight) : pyval :=
  py_dict [("hotkey", PStr (hw_hotkey w)); ("units", PInt (hw_units w))].

Definition DebtHotkeyWeight_from_dict (v : pyval) : result DebtHotkeyWeight :=
  let! row := _strict ["hotkey"; "units"] v in
  let! hotkey := row_get row "hotkey" in
  let! units := row_get row "units" in
  DebtHotkeyWeight_init hotkey units.

Record DebtEpochProjection := {
  dp_policy_digest : string;
  dp_effective_block : Z;
  dp_reference_epoch_units : pyval;
  dp_claim_pool_capacity_units : Z;
  dp_total_remaining_units : Z;
  dp_payout_units : Z;
  dp_reserve_hotkey : string;
  dp_reserve_units : Z;
  dp_input_state_digests : list string;
  dp_allocations : list DebtEpochAllocation;
  dp_weights : list DebtHotkeyWeight
}.

(** [keys != tuple(sorted(set(keys)))] fails exactly on a list that is sorted
    and free of duplicates. *)
Definition sorted_unique (keys : list string) : bool :=
  bool_decide (keys = sorted_str (elements (list_to_set keys : gset string))).

(** [by_hotkey[a.hotkey] = by_hotkey.get(a.hotkey, 0) + a.units] over all rows. *)
Definition units_by_hotkey {A} (hotkey : A → string) (units : A → Z) (rows : list A) : gmap string Z :=
  fold_left (λ m row, dict_add m (hotkey row) (units row)) rows ∅.

(** [{row.hotkey: row.units for row in weights}] *)
Definition weights_dict (weights : list DebtHotkeyWeight) : gmap string Z :=
  fold_left (λ m row, <[hw_hotkey row := hw_units row]> m) weights ∅.

(** [{hotkey: units for hotkey, units in d.items() if units > 0}] *)
Definition positive_part (m : gmap string Z) : gmap string Z := filter (λ kv, 0 < kv.2) m.

(** [reference_epoch_units] is compared with [!=] only, like [schema_version]. *)
Definition DebtEpochProjection_init
    (policy_digest effective_block reference_epoch_units claim_pool_capacity_units total_remaining_units
     payout_units reserve_hotkey reserve_units : pyval) (input_state_digests : list string)
    (allocations : list DebtEpochAllocation) (weights : list DebtHotkeyWeight) : result DebtEpochProjection :=
  let! policy_digest := _digest policy_digest in
  let! effective_block := _integer (Some 0) None effective_block in
  do! raise_if (negb (py_eq_int reference_epoch_units REFERENCE_EPOCH_UNITS))
        (error "reference_epoch_units is unsupported") ;;
  let! capacity := _integer (Some 0) (Some REFERENCE_EPOCH_UNITS) claim_pool_capacity_units in
  let! remaining := _integer (Some 0) None total_remaining_units in
  let! payout := _integer (Some 0) (Some capacity) payout_units in
  let! reserve := _integer (Some 0) (Some REFERENCE_EPOCH_UNITS) reserve_units in
  let! reserve_hotkey := _hotkey reserve_hotkey in
  do! raise_if (negb (sorted_unique input_state_digests)) (error "projection input states are not canonical") ;;
  do! forM_ input_state_digests (λ d, do! _digest (PStr d) ;; Ok tt) ;;
  do! raise_if (negb (sorted_unique (da_claim_digest <$> allocations))
                || negb (sorted_unique (hw_hotkey <$> weights)))
        (error "projection allocations or weights are not canonical") ;;
  do! raise_if (negb (payout =? Z.min capacity remaining)
                || negb (Zsum (da_units <$> allocations) =? payout)
                || negb (reserve =? REFERENCE_EPOCH_UNITS - payout)
                || negb (Zsum (hw_units <$> weights) =? REFERENCE_EPOCH_UNITS))
        (error "debt epoch projection does not conserve capacity") ;;
  let by_hotkey := dict_add (units_by_hotkey da_hotkey da_units allocations) reserve_hotkey reserve in
  do! raise_if (negb (bool_decide (weights_dict weights = positive_part by_hotkey)))
        (error "projection hotkey weights differ from claim allocations") ;;
  Ok {| dp_policy_digest := policy_digest;
        dp_effective_block := effective_block;
        dp_reference_epoch_units := reference_epoch_units;
        dp_claim_pool_capacity_units := capacity;
        dp_total_remaining_units := remaining;
        dp_payout_units := payout;
        dp_reserve_hotkey := reserve_hotkey;
        dp_reserve_units := reserve;
        dp_input_state_digests := input_state_digests;
        dp_allocations := allocations;
        dp_weights := weights |}.

Definition DebtEpochProjection_to_row (d : DebtEpochProjection) : list (string * pyval) :=
  [("allocations", PList (DebtEpochAllocation_to_dict <$> dp_allocations d));
   ("claim_pool_capacity_units", PInt (dp_claim_pool_capacity_units d));
   ("effective_block", PInt (dp_effective_block d));
   ("input_state_digests", py_strs (dp_input_state_digests d));
   ("payout_units", PInt (dp_payout_units d));
   ("policy_digest", PStr (dp_policy_digest d));
   ("reference_epoch_units", dp_reference_epoch_units d);
   ("reserve_hotkey", PStr (dp_reserve_hotkey d));
   ("reserve_units", PInt (dp_reserve_units d));
   ("total_remaining_units", PInt (dp_total_remaining_units d));
   ("weights", PList (DebtHotkeyWeight_to_dict <$> dp_weights d))].

Definition DebtEpochProjection_to_dict (d : DebtEpochProjection) : pyval := py_dict (DebtEpochProjection_to_row d).

Definition DebtEpochProjection_fields : list string :=
  ["policy_digest"; "effective_block"; "reference_epoch_units"; "claim_pool_capacity_units";
   "total_remaining_units"; "payout_units"; "reserve_hotkey"; "reserve_units"; "input_state_digests";
   "allocations"; "weights"].

(** The elements of a digest array.  An element that is not a string makes the
    constructor raise (from [sorted], from hashing or from [_digest]); the
    model reports every such array as a [TypeError]. *)
Definition require_strs (l : list pyval) : result (list string) :=
  mapM (require_str (Exn TypeError "digest array element is not a string")) l.

Definition DebtEpochProjection_from_dict (v : pyval) : result DebtEpochProjection :=
  let! row := _strict DebtEpochProjection_fields v in
  let! allocations := row_get row "allocations" in
  let! allocations := require_list (error "projection allocations must be an array") allocations in
  let! inputs := row_get row "input_state_digests" in
  let! inputs := require_list (error "projection input_state_digests must be an array") inputs in
  let! weights := row_get row "weights" in
  let! weights := require_list (error "projection weights must be an array") weights in
  let! allocations := mapM DebtEpochAllocation_from_dict allocations in
  let! weights := mapM DebtHotkeyWeight_from_dict weights in
  let! inputs := require_strs inputs in
  let! policy_digest := row_get row "policy_digest" in
  let! effective_block := row_get row "effective_block" in
  let! reference_epoch_units := row_get row "reference_epoch_units" in
  let! claim_pool_capacity_units := row_get row "claim_pool_capacity_units" in
  let! total_remaining_units := row_get row "total_remaining_units" in
  let! payout_units := row_get row "payout_units" in
  let! reserve_hotkey := row_get row "reserve_hotkey" in
  let! reserve_units := row_get row "reserve_units" in
  DebtEpochProjection_init policy_digest effective_block reference_epoch_units claim_pool_capacity_units
    total_remaining_units payout_units reserve_hotkey reserve_units inputs allocations weights.

Definition DebtEpochProjection_weights_by_hotkey (d : DebtEpochProjection) : gmap string Z :=
  weights_dict (dp_weights d).

Definition DebtEpochProjection_digest (d : DebtEpochProjection) : result string :=
  canonical_digest "optima.finite-debt.epoch-projection" (DebtEpochProjection_to_dict d) (PInt 1).

(** The checks [project_debt_epoch] makes of every input state. *)
Definition check_epoch_state (p : FiniteDebtPolicyManifest) (block : Z) (row : DebtClaimState) : result unit :=
  do! InnovationDebtClaim_validate_policy (ds_claim row) p ;;
  do! raise_if (bool_decide (ic_hotkey (ds_claim row) = fp_reserve_hotkey p) && is_open row)
        (error "reserve hotkey cannot own an open debt claim") ;;
  do! raise_if (is_open row && (block <? ic_settlement_block (ds_claim row)))
        (error "claim cannot receive payout before settlement") ;;
  raise_if (is_open row && (ic_expires_block (ds_claim row) <=? block))
    (error "open claim is expired; expire its balance before projection").

(** The [amounts] dict of [project_debt_epoch]. *)
Definition epoch_amounts (open_rows : list DebtClaimState) (capacity : Z) : gmap string Z :=
  pro_rata_amounts ((λ row, (claim_key row, db_remaining_units (ds_balance row))) <$> open_rows) capacity.

Definition project_debt_epoch (p : FiniteDebtPolicyManifest) (effective_block : pyval)
    (states : list DebtClaimState) : result DebtEpochProjection :=
  let! block := _integer (Some 0) None effective_block in
  do! raise_if (negb (bool_decide (NoDup (claim_key <$> states))))
        (error "debt claim states contain duplicate claims") ;;
  let rows := sorted_by claim_key states in
  do! forM_ rows (check_epoch_state p block) ;;
  let open_rows := filter is_open rows in
  let total_remaining := Zsum ((λ row, db_remaining_units (ds_balance row)) <$> open_rows) in
  let capacity := reference_claim_pool_units p in
  let payout := Z.min capacity total_remaining in
  let amounts := epoch_amounts open_rows capacity in
  let! allocations :=
    mapM (λ row, DebtEpochAllocation_init (PStr (claim_key row)) (PStr (ic_hotkey (ds_claim row)))
                   (PInt (dict_get amounts (claim_key row))))
      (filter (λ row, 0 < dict_get amounts (claim_key row)) open_rows) in
  let by_hotkey := units_by_hotkey da_hotkey da_units allocations in
  let reserve := REFERENCE_EPOCH_UNITS - payout in
  let by_hotkey := if reserve =? 0 then by_hotkey else <[fp_reserve_hotkey p := reserve]> by_hotkey in
  let! weights := mapM (λ hotkey, DebtHotkeyWeight_init (PStr hotkey) (PInt (dict_get by_hotkey hotkey)))
                    (sorted_str (map_to_list by_hotkey).*1) in
  let! policy_digest := FiniteDebtPolicyManifest_digest p in
  let! result := DebtEpochProjection_init (PStr policy_digest) (PInt block) (PInt REFERENCE_EPOCH_UNITS)
    (PInt capacity) (PInt total_remaining) (PInt payout) (PStr (fp_reserve_hotkey p)) (PInt reserve)
    (sorted_str (DebtClaimState_digest <$> rows)) allocations weights in
  let remaining_by_claim :=
    fold_left (λ m row, <[claim_key row := db_remaining_units (ds_balance row)]> m) open_rows ∅ in
  do! raise_if (existsb (λ a, dict_get remaining_by_claim (da_claim_digest a) <? da_units a) (dp_allocations result))
        (error "projection allocation exceeds remaining principal") ;;
  Ok result.

(** [{row.claim.digest: row for row in rows}] *)
Definition states_by_claim (rows : list DebtClaimState) : gmap string DebtClaimState :=
  fold_left (λ m row, <[claim_key row := row]> m) rows ∅.

(** [{row.claim_digest: row.units for row in allocations}] *)
Definition allocation_amounts (allocations : list DebtEpochAllocation) : gmap string Z :=
  fold_left (λ m a, <[da_claim_digest a := da_units a]> m) allocations ∅.

(** One iteration of the update loop of [apply_debt_epoch_projection]. *)
Definition apply_row (amounts : gmap string Z) (block : Z) (row : DebtClaimState) : result DebtClaimState :=
  let amount := dict_get amounts (claim_key row) in
  let! balance := (if amount =? 0 then Ok (ds_balance row)
                   else pay_claim_balance (ds_claim row) (ds_balance row) (PInt amount) (PInt block)) in
  DebtClaimState_init (ds_claim row) balance.

Definition apply_debt_epoch_projection (states : list DebtClaimState) (projection : DebtEpochProjection)
    : result (list DebtClaimState) :=
  let rows := sorted_by claim_key states in
  do! raise_if (negb (bool_decide (sorted_str (DebtClaimState_digest <$> rows) = dp_input_state_digests projection)))
        (error "projection input balances changed before application") ;;
  let state_by_claim := states_by_claim rows in
  do! forM_ (dp_allocations projection) (λ a,
        raise_if (match state_by_claim !! da_claim_digest a with
                  | None => true
                  | Some state =>
                      negb (is_open state) || negb (bool_decide (ic_hotkey (ds_claim state) = da_hotkey a))
                      || (db_remaining_units (ds_balance state) <? da_units a)
                  end)
          (error "projection allocation differs from its claim state")) ;;
  let amounts := allocation_amounts (dp_allocations projection) in
  let! updated := mapM (apply_row amounts (dp_effective_block projection)) rows in
  let paid_before (row : DebtClaimState) :=
    match state_by_claim !! claim_key row with Some s => db_paid_units (ds_balance s) | None => 0 end in
  do! raise_if (negb (Zsum ((λ row, db_paid_units (ds_balance row) - paid_before row) <$> updated)
                      =? dp_payout_units projection))
        (error "projection application did not consume its full payout") ;;
  Ok updated.

End finite_debt.

#[global] Arguments InnovationDebtClaim_digest : simpl never.
#[global] Arguments FiniteDebtPolicyManifest_digest : simpl never.
#[global] Arguments DebtClaimBalance_digest : simpl never.
#[global] Arguments DebtClaimState_digest : simpl never.
#[global] Arguments claim_key : simpl never.
