(* ===== verification/FiniteDebtBalance.v ===== *)
(** * The life of a claim balance

    What a [DebtClaimBalance] may look like, what [pay_claim_balance],
    [expire_claim_balance] and [cancel_claim_balance] do on every branch, and
    the invariants of every sequence of these operations. *)

From Stdlib Require Import ZArith Lia Ascii.
From stdpp Require Import base tactics numbers list strings gmap sorting relations.
From S2P Require Import Prelude PyValue Sha256 Identity Strict Decimal Apportion FiniteDebt.

(** ** The validators, as equivalences *)

Lemma FD_digest_Ok v s : FD._digest v = Ok s ↔ v = PStr s ∧ digest_ok s.
Proof. apply require_digest_Ok. Qed.

Lemma FD_digest_ok s : digest_ok s → FD._digest (PStr s) = Ok s.
Proof. intros. by apply FD_digest_Ok. Qed.

Lemma FD_integer_Ok mn mx v z :
  FD._integer mn mx v = Ok z ↔
  v = PInt z ∧ (∀ m, mn = Some m → m ≤ z) ∧ (∀ m, mx = Some m → z ≤ m).
Proof. apply require_int_Ok. Qed.

Lemma FD_integer_min mn v z : FD._integer (Some mn) None v = Ok z ↔ v = PInt z ∧ mn ≤ z.
Proof. rewrite FD_integer_Ok. split; [intros (-> & ? & ?); auto | intros (-> & ?); split_and!; [done|by intros ? [= <-]..]]. Qed.

Lemma FD_integer_range mn mx v z :
  FD._integer (Some mn) (Some mx) v = Ok z ↔ v = PInt z ∧ mn ≤ z ≤ mx.
Proof. rewrite FD_integer_Ok. naive_solver. Qed.

Lemma FD_hotkey_Ok v s : FD._hotkey v = Ok s ↔ v = PStr s ∧ hotkey_matches s = true.
Proof.
  unfold FD._hotkey. destruct v as [| | | |t| | | |]; try by (split; [|intros [? ?]]).
  destruct (hotkey_matches t) eqn:E; split.
  - by intros [= <-].
  - by intros [[= ->] ?].
  - done.
  - intros [[= ->] ?]. congruence.
Qed.

Lemma require_str_Ok e v s : require_str e v = Ok s ↔ v = PStr s.
Proof. destruct v; simpl; split; congruence. Qed.

Lemma py_in_strs_Ok v set b :
  py_in_strs v set = Ok b ↔
  hashable v = true ∧ b = match v with PStr s => bool_decide (s ∈ set) | _ => false end.
Proof. unfold py_in_strs. destruct (hashable v); split; naive_solver. Qed.

Lemma py_in_strs_true v set :
  py_in_strs v set = Ok true ↔ ∃ s, v = PStr s ∧ s ∈ set.
Proof.
  rewrite py_in_strs_Ok. split.
  - intros [_ Hv]. destruct v as [| | | |s| | | |]; try done. symmetry in Hv. bool_prop. eauto.
  - intros (s & -> & Hs). split; [done|]. symmetry. by apply bool_decide_eq_true.
Qed.

(** Rewrites every passed validator in the context into what it established. *)
Ltac fd_facts :=
  repeat match goal with
  | H : FD._digest _ = Ok _ |- _ => apply FD_digest_Ok in H as [-> H]
  | H : FD._integer (Some _) None _ = Ok _ |- _ => apply FD_integer_min in H as [-> H]
  | H : FD._integer (Some _) (Some _) _ = Ok _ |- _ => apply FD_integer_range in H as [-> H]
  | H : FD._hotkey _ = Ok _ |- _ => apply FD_hotkey_Ok in H as [-> H]
  | H : require_str _ _ = Ok _ |- _ => apply require_str_Ok in H as ->
  end.

(** Runs the validators at the head of the goal on arguments known to be good. *)
Ltac fd_run :=
  repeat first
  [ progress cbn [bind fst snd]
  | match goal with
    | |- context [FD._digest (PStr ?s)] => rewrite (FD_digest_ok s) by done
    | |- context [FD._hotkey (PStr ?s)] => rewrite (proj2 (FD_hotkey_Ok (PStr s) s)) by done
    | |- context [FD._integer (Some ?m) None (PInt ?z)] =>
        rewrite (proj2 (FD_integer_min m (PInt z) z)) by (split; [done | lia])
    | |- context [FD._integer (Some ?m) (Some ?n) (PInt ?z)] =>
        rewrite (proj2 (FD_integer_range m n (PInt z) z)) by (split; [done | lia])
    end ].

(** ** Well-formed balances *)

Definition reason_ok (s : string) : Prop := str_len s ≤ 2048 ∧ has_control_char s = false.

(** The state a status stands for. *)
Definition balance_phase (b : DebtClaimBalance) : Prop :=
  if decide (db_status b = "open") then
    0 < db_remaining_units b ∧ db_terminal_block b = None ∧ db_terminal_reason b = ""
  else
    db_remaining_units b = 0 ∧ (∃ t, db_terminal_block b = Some t ∧ 0 ≤ t) ∧ db_terminal_reason b ≠ "" ∧
    (if decide (db_status b = "paid") then db_paid_units b = db_principal_units b
     else 0 < db_forfeited_units b).

Definition balance_wf (b : DebtClaimBalance) : Prop :=
  digest_ok (db_claim_digest b) ∧
  1 ≤ db_principal_units b ∧ 0 ≤ db_paid_units b ∧ 0 ≤ db_forfeited_units b ∧ 0 ≤ db_remaining_units b ∧
  db_paid_units b + db_forfeited_units b + db_remaining_units b = db_principal_units b ∧
  db_status b ∈ BALANCE_STATUSES ∧ reason_ok (db_terminal_reason b) ∧ balance_phase b.

Lemma truthy_str s : truthy (PStr s) = negb (bool_decide (s = "")).
Proof. done. Qed.

Lemma is_none_opt o : is_none (py_opt_int o) = negb (bool_decide (is_Some o)).
Proof. by destruct o. Qed.

Section balance_init.
Context `{Sha256}.

(** The constructor accepts exactly the well-formed balances and stores its
    arguments unchanged. *)
Lemma DebtClaimBalance_init_Ok d pr pa fo re st tb tr b :
  DebtClaimBalance_init d pr pa fo re st tb tr = Ok b ↔
  d = PStr (db_claim_digest b) ∧ pr = PInt (db_principal_units b) ∧ pa = PInt (db_paid_units b) ∧
  fo = PInt (db_forfeited_units b) ∧ re = PInt (db_remaining_units b) ∧ st = PStr (db_status b) ∧
  tb = py_opt_int (db_terminal_block b) ∧ tr = PStr (db_terminal_reason b) ∧ balance_wf b.
Proof.
  split.
  - unfold DebtClaimBalance_init. intros Hi. inv_ok Hi. subst b. fd_facts. simpl.
    match goal with Hs : py_in_strs _ _ = Ok ?k, Hk : negb ?k = false |- _ =>
      rewrite negb_false_iff in Hk; rewrite Hk in Hs; apply py_in_strs_true in Hs as (st & [= <-] & Hs) end.
    unfold balance_wf, balance_phase, reason_ok; simpl. bool_prop.
    match goal with Ht : (if negb (bool_decide (?s = "open")) then _ else _) = Ok _ |- _ =>
      rename Ht into Hterm; destruct (decide (s = "open")) as [->|Hopen] end.
    + rewrite bool_decide_eq_true_2 in Hterm by done. simpl in Hterm. inv_ok Hterm. subst.
      simpl in *. bool_prop. by destruct tb.
    + rewrite bool_decide_eq_false_2 in Hterm by done. simpl in Hterm. inv_ok Hterm. subst.
      fd_facts. simpl in *. bool_prop.
      case_decide; repeat match goal with H : _ && _ = false |- _ => apply andb_false_iff in H as [H|H] end;
        bool_prop; unfold BALANCE_STATUSES in *; naive_solver (set_solver || lia).
  - intros (-> & -> & -> & -> & -> & -> & -> & -> & Hwf).
    destruct b as [d' p pa' f r s tb' tr']; unfold balance_wf, balance_phase, reason_ok in Hwf; simpl in *.
    destruct Hwf as (Hd & Hp & Hpa & Hf & Hr & Hsum & Hs & [Hlen Hctl] & Hph).
    unfold DebtClaimBalance_init.
    fd_run. pass_guard. simpl.
    rewrite (bool_decide_eq_true_2 _ Hs). simpl. rewrite is_none_opt.
    rewrite (proj2 (Z.ltb_ge _ _) Hlen), Hctl. case_decide as Ho.
    + destruct Hph as (Hr' & -> & ->). subst s. simpl. rewrite (proj2 (Z.leb_gt _ _) Hr'). done.
    + rewrite (bool_decide_eq_false_2 _ Ho). destruct Hph as (-> & (t & -> & Ht) & Htr & Hph).
      rewrite (bool_decide_eq_false_2 _ Htr). simpl.
      rewrite (proj2 (FD_integer_min 0 (PInt t) t)) by done. simpl.
      case_decide as Hpd.
      * rewrite (proj2 (Z.eqb_eq _ _) Hph). by subst s.
      * rewrite (bool_decide_eq_false_2 _ Hpd). simpl. rewrite (proj2 (Z.leb_gt _ _) Hph).
        by rewrite andb_false_r.
Qed.

(** Constructing a balance from the fields of a record. *)
Definition balance_of (r : DebtClaimBalance) : result DebtClaimBalance :=
  DebtClaimBalance_init (PStr (db_claim_digest r)) (PInt (db_principal_units r)) (PInt (db_paid_units r))
    (PInt (db_forfeited_units r)) (PInt (db_remaining_units r)) (PStr (db_status r))
    (py_opt_int (db_terminal_block r)) (PStr (db_terminal_reason r)).

Lemma py_opt_int_inj o1 o2 : py_opt_int o1 = py_opt_int o2 → o1 = o2.
Proof. destruct o1, o2; simpl; congruence. Qed.

Lemma balance_of_Ok r b : balance_of r = Ok b ↔ b = r ∧ balance_wf r.
Proof.
  unfold balance_of. rewrite DebtClaimBalance_init_Ok. split.
  - intros Hb. destruct_and! Hb. destruct b, r; simpl in *.
    repeat match goal with Hp : py_opt_int _ = py_opt_int _ |- _ => apply py_opt_int_inj in Hp end.
    simplify_eq. done.
  - by intros [-> ?].
Qed.
End balance_init.

(** ** Well-formed claims *)

(** The text is its own canonical spelling of a number above the minimum. *)
Definition decimal_ok (strict : bool) (s : string) : Prop :=
  ∃ x, _canonical_decimal (PStr s) 1 strict = Ok (s, x).

Definition claim_wf (c : InnovationDebtClaim) : Prop :=
  digest_ok (ic_policy_digest c) ∧ digest_ok (ic_family_id c) ∧ digest_ok (ic_campaign_id c) ∧
  digest_ok (ic_candidate_digest c) ∧ digest_ok (ic_retained_evidence_digest c) ∧
  hotkey_matches (ic_hotkey c) = true ∧
  decimal_ok true (ic_settled_speedup c) ∧ decimal_ok false (ic_threshold_speedup c) ∧
  0 ≤ ic_accepted_crown_block c ≤ ic_settlement_block c ∧ ic_settlement_block c < ic_expires_block c ∧
  (∀ prior, ic_prior_accepted_crown_block c = Some prior → 0 ≤ prior ≤ ic_accepted_crown_block c) ∧
  1 ≤ ic_campaign_budget_ppm c ≤ PPM ∧ 1 ≤ ic_reference_campaign_pool_units c ∧
  1 ≤ ic_log_units_ppm c ∧ PPM ≤ ic_time_multiplier_ppm c ∧ 1 ≤ ic_principal_units c.

Lemma canonical_decimal_Ok v mn strict s x :
  _canonical_decimal v mn strict = Ok (s, x) → v = PStr s.
Proof.
  unfold _canonical_decimal. destruct v as [| | | |t| | | |]; try done.
  destruct (read_decimal t) as [[neg c e| |]|]; try done. intros Hc. inv_ok Hc.
  bool_prop. congruence.
Qed.

Lemma InnovationDebtClaim_init_Ok a1 a2 a3 a4 a5 a6 a7 a8 a9 a10 a11 a12 a13 a14 a15 a16 a17 a18 c :
  InnovationDebtClaim_init a1 a2 a3 a4 a5 a6 a7 a8 a9 a10 a11 a12 a13 a14 a15 a16 a17 a18 = Ok c ↔
  [a1; a2; a3; a4; a5; a6; a7; a8; a9; a10; a11; a12; a13; a14; a15; a16; a17; a18]
    = (InnovationDebtClaim_to_row c).*2 ∧ claim_wf c.
Proof.
  split.
  - unfold InnovationDebtClaim_init. intros Hi. inv_ok Hi. subst c. fd_facts.
    repeat match goal with H : _canonical_decimal ?v _ _ = Ok ?x |- _ =>
      destruct x as [? ?]; pose proof (canonical_decimal_Ok _ _ _ _ _ H); subst v end.
    repeat match goal with H : require_bool _ ?v = Ok _ |- _ => destruct v; try discriminate H; injection H as -> end.
    bool_prop. unfold claim_wf, decimal_ok; simpl.
    match goal with H : (if is_none ?v then _ else _) = Ok _ |- _ => rename H into Hp; destruct (is_none v) eqn:Hn end.
    + injection Hp as <-. destruct a10; try done. split; [done|]. split_and!; eauto; try lia. done.
    + inv_ok Hp. subst. fd_facts. bool_prop. split; [done|]. split_and!; eauto; try lia.
      intros ? [= <-]. lia.
  - intros [Hrow Hwf]. simpl in Hrow. simplify_eq.
    destruct c as [c1 c2 c3 c4 c5 c6 c7 c8 c9 c10 c11 c12 c13 c14 c15 c16 c17 c18].
    unfold claim_wf, decimal_ok in Hwf; simpl in *. destruct_and! Hwf. destruct_exists.
    unfold InnovationDebtClaim_init. fd_run.
    repeat match goal with H : _canonical_decimal _ _ _ = Ok _ |- _ => rewrite H; clear H end.
    fd_run. pass_guard. destruct c10 as [prior|]; simpl.
    + fd_run. match goal with H : ∀ _, _ = Some _ → _ |- _ => specialize (H _ eq_refl) end.
      fd_run. pass_guard. fd_run. done.
    + fd_run. done.
Qed.

(** ** The three operations on every branch *)

Section operations.
Context `{Sha256}.

(** The balance belongs to the claim. *)
Definition linked (c : InnovationDebtClaim) (b : DebtClaimBalance) : Prop :=
  db_claim_digest b = InnovationDebtClaim_digest c ∧ db_principal_units b = ic_principal_units c.

Lemma claim_balance_differ_false c b : claim_balance_differ c b = false ↔ linked c b.
Proof.
  unfold claim_balance_differ, linked. rewrite orb_false_iff, !negb_false_iff, bool_decide_eq_true, Z.eqb_eq. done.
Qed.

Lemma raise_if_linked c b e : linked c b → raise_if (claim_balance_differ c b) e = Ok tt.
Proof. intros Hl. by rewrite (proj2 (claim_balance_differ_false c b) Hl). Qed.

(** The balance after a payment of [a] at block [t]. *)
Definition paid_balance (b : DebtClaimBalance) (a t : Z) : DebtClaimBalance :=
  let last := a =? db_remaining_units b in
  {| db_claim_digest := db_claim_digest b;
     db_principal_units := db_principal_units b;
     db_paid_units := db_paid_units b + a;
     db_forfeited_units := db_forfeited_units b;
     db_remaining_units := db_remaining_units b - a;
     db_status := if last then "paid" else "open";
     db_terminal_block := if last then Some t else None;
     db_terminal_reason := if last then "principal_paid" else "" |}.

(** The balance after its remaining principal is forfeited. *)
Definition closed_balance (b : DebtClaimBalance) (status : string) (t : Z) (reason : string) : DebtClaimBalance :=
  {| db_claim_digest := db_claim_digest b;
     db_principal_units := db_principal_units b;
     db_paid_units := db_paid_units b;
     db_forfeited_units := db_forfeited_units b + db_remaining_units b;
     db_remaining_units := 0;
     db_status := status;
     db_terminal_block := Some t;
     db_terminal_reason := reason |}.

Definition live_at (c : InnovationDebtClaim) (t : Z) : Prop :=
  0 ≤ t ∧ ic_settlement_block c ≤ t < ic_expires_block c.

Lemma balance_wf_open b :
  balance_wf b → db_status b = "open" →
  0 < db_remaining_units b ∧ db_terminal_block b = None ∧ db_terminal_reason b = "".
Proof. unfold balance_wf, balance_phase. intros Hwf Ho. rewrite decide_True in Hwf by done. tauto. Qed.

Lemma balance_wf_closed b :
  balance_wf b → db_status b ≠ "open" →
  db_remaining_units b = 0 ∧ ∃ t, db_terminal_block b = Some t ∧ 0 ≤ t.
Proof. unfold balance_wf, balance_phase. intros Hwf Ho. rewrite decide_False in Hwf by done. tauto. Qed.

(** A payment keeps the balance well-formed, unless it is the last one and part
    of the principal had already been forfeited. *)
Lemma paid_balance_wf b a t :
  balance_wf b → 1 ≤ a ≤ db_remaining_units b → 0 ≤ t → db_status b = "open" →
  balance_wf (paid_balance b a t) ↔ (a = db_remaining_units b → db_forfeited_units b = 0).
Proof.
  intros Hwf Ha Ht Ho. pose proof (balance_wf_open b Hwf Ho) as (? & ? & ?).
  destruct Hwf as (? & ? & ? & ? & ? & ? & ? & ? & Hph).
  unfold balance_wf, balance_phase, paid_balance; simpl. destruct (Z.eqb_spec a (db_remaining_units b)); simpl.
  - split; [intros; destruct_and?; lia|]. intros Hf. specialize (Hf e).
    split_and!; try lia; try done; [unfold BALANCE_STATUSES; set_solver | exists t; split; [done|lia]].
  - split; [done|]. intros _. split_and!; try lia; try done. unfold BALANCE_STATUSES; set_solver.
Qed.

Lemma closed_balance_wf b st t reason :
  balance_wf b → db_status b = "open" → st = "expired" ∨ st = "cancelled" → 0 ≤ t →
  reason_ok reason → reason ≠ "" → balance_wf (closed_balance b st t reason).
Proof.
  intros Hwf Ho Hst Ht Hr Hne. pose proof (balance_wf_open b Hwf Ho) as (? & ? & ?).
  destruct Hwf as (? & ? & ? & ? & ? & ? & ? & ? & _).
  unfold balance_wf, balance_phase, closed_balance; simpl.
  rewrite !decide_False by (destruct Hst; congruence).
  split_and!; try lia; try done; [unfold BALANCE_STATUSES; set_solver | exists t; split; [done|lia]].
Qed.

(** The constructor call that ends a payment. *)
Lemma paid_balance_init b a t b' :
  DebtClaimBalance_init (PStr (db_claim_digest b)) (PInt (db_principal_units b))
    (PInt (db_paid_units b + a)) (PInt (db_forfeited_units b)) (PInt (db_remaining_units b - a))
    (PStr (if negb (db_remaining_units b - a =? 0) then "open" else "paid"))
    (if negb (db_remaining_units b - a =? 0) then PNone else PInt t)
    (PStr (if negb (db_remaining_units b - a =? 0) then "" else "principal_paid")) = Ok b' ↔
  b' = paid_balance b a t ∧ balance_wf (paid_balance b a t).
Proof.
  rewrite <- balance_of_Ok. unfold balance_of, paid_balance; simpl.
  by destruct (Z.eqb_spec a (db_remaining_units b)), (Z.eqb_spec (db_remaining_units b - a) 0); try lia.
Qed.

Lemma pay_claim_balance_Ok c b amount at_block b' :
  balance_wf b →
  pay_claim_balance c b amount at_block = Ok b' ↔
  linked c b ∧ db_status b = "open" ∧
  ∃ a t, amount = PInt a ∧ at_block = PInt t ∧ 1 ≤ a ≤ db_remaining_units b ∧ live_at c t ∧
    (a = db_remaining_units b → db_forfeited_units b = 0) ∧ b' = paid_balance b a t.
Proof.
  intros Hwf.
  unfold pay_claim_balance. split.
  - intros Hp. inv_ok Hp. fd_facts. apply claim_balance_differ_false in Hv. bool_prop.
    apply paid_balance_init in Hp as [-> Hwf']. split; [done|]. split; [done|]. exists v1, v2.
    split_and!; try done; try lia. intros He. eapply paid_balance_wf; eauto; lia.
  - intros (Hl & Ho & a & t & -> & -> & Ha & [Ht Hlive] & Hf & ->). rewrite raise_if_linked by done.
    cbn [bind]. pass_guard. fd_run. pass_guard. pass_guard.
    apply paid_balance_init. split; [done|]. by apply paid_balance_wf.
Qed.

Lemma expire_claim_balance_Ok c b at_block b' :
  balance_wf b →
  expire_claim_balance c b at_block = Ok b' ↔
  linked c b ∧ ∃ t, at_block = PInt t ∧ 0 ≤ t ∧
    b' = (if decide (db_status b = "open" ∧ ic_expires_block c ≤ t)
          then closed_balance b "expired" t "claim_lifetime_expired" else b).
Proof.
  intros Hwf. unfold expire_claim_balance. split.
  - intros He. inv_ok He. fd_facts. apply claim_balance_differ_false in Hv.
    split; [done|]. exists v0. split_and!; try done.
    destruct (negb (bool_decide (db_status b = "open")) || (v0 <? ic_expires_block c)) eqn:E.
    + injection He as ->. rewrite decide_False; [done|]. intros [Ho ?].
      rewrite bool_decide_eq_true_2 in E by done. simpl in E. bool_prop. lia.
    + bool_prop. rewrite decide_True by done.
      change (balance_of (closed_balance b "expired" v0 "claim_lifetime_expired") = Ok b') in He.
      by apply balance_of_Ok in He as [-> _].
  - intros (Hl & t & -> & Ht & ->). rewrite raise_if_linked by done. cbn [bind]. fd_run.
    destruct (negb (bool_decide (db_status b = "open")) || (t <? ic_expires_block c)) eqn:E.
    + rewrite decide_False; [done|]. intros [Ho ?].
      rewrite bool_decide_eq_true_2 in E by done. simpl in E. bool_prop. lia.
    + bool_prop. rewrite decide_True by done.
      change (balance_of (closed_balance b "expired" t "claim_lifetime_expired") = Ok (closed_balance b "expired" t "claim_lifetime_expired")).
      apply balance_of_Ok. split; [done|]. by apply closed_balance_wf; try done; left.
Qed.

Lemma cancel_claim_balance_Ok c b at_block reason b' :
  balance_wf b →
  cancel_claim_balance c b at_block reason = Ok b' ↔
  linked c b ∧ db_status b = "open" ∧
  ∃ t s, at_block = PInt t ∧ reason = PStr s ∧ 0 ≤ t ∧ ic_settlement_block c ≤ t ∧ s ≠ "" ∧ reason_ok s ∧
    b' = closed_balance b "cancelled" t s.
Proof.
  intros Hwf. unfold cancel_claim_balance. split.
  - intros He. inv_ok He. fd_facts. apply claim_balance_differ_false in Hv.
    destruct reason as [| | | |s| | | |]; bool_prop; try done.
    split; [done|]. split; [done|]. exists v0, s. unfold reason_ok.
    change (balance_of (closed_balance b "cancelled" v0 s) = Ok b') in He.
    apply balance_of_Ok in He as [-> _]. done.
  - intros (Hl & Ho & t & s & -> & -> & Ht & Hs & Hne & [Hlen Hctl] & ->).
    rewrite raise_if_linked by done. cbn [bind]. fd_run. pass_guard.
    change (balance_of (closed_balance b "cancelled" t s) = Ok (closed_balance b "cancelled" t s)).
    apply balance_of_Ok. split; [done|]. by apply closed_balance_wf; try done; right.
Qed.

Lemma DebtClaimState_init_Ok c b s :
  DebtClaimState_init c b = Ok s ↔
  s = {| ds_claim := c; ds_balance := b |} ∧ linked c b ∧
  ∀ t, db_terminal_block b = Some t →
    ic_settlement_block c ≤ t ∧ (db_status b = "expired" → ic_expires_block c ≤ t).
Proof.
  unfold DebtClaimState_init. split.
  - intros Hs. inv_ok Hs. subst. apply claim_balance_differ_false in Hv.
    split; [done|]. split; [done|]. intros t Ht. rewrite Ht in *. bool_prop. split; [done|].
    intros Hst. rewrite bool_decide_eq_true_2 in Hv1 by done. simpl in Hv1. by bool_prop.
  - intros (-> & Hl & Ht). rewrite raise_if_linked by done. cbn [bind].
    destruct (db_terminal_block b) as [t|]; [|cbn [bind]; by rewrite andb_false_r].
    destruct (Ht t eq_refl) as [? He]. pass_guard.
    destruct (decide (db_status b = "expired")) as [Hst|Hst].
    + rewrite bool_decide_eq_true_2 by done. specialize (He Hst). simpl. pass_guard. done.
    + by rewrite bool_decide_eq_false_2 by done.
Qed.

(** ** Reachable balances *)

(** One accounting operation on the balance of [c]. *)
Inductive balance_step (c : InnovationDebtClaim) : relation DebtClaimBalance :=
  | step_pay b b' amount block : pay_claim_balance c b amount block = Ok b' → balance_step c b b'
  | step_expire b b' block : expire_claim_balance c b block = Ok b' → balance_step c b b'
  | step_cancel b b' block reason : cancel_claim_balance c b block reason = Ok b' → balance_step c b b'.

(** What holds of a balance throughout its life: it is well-formed, belongs to
    its claim, forms a valid claim state, and an open balance has forfeited
    nothing. *)
Definition balance_inv (c : InnovationDebtClaim) (b : DebtClaimBalance) : Prop :=
  balance_wf b ∧ DebtClaimState_init c b = Ok {| ds_claim := c; ds_balance := b |} ∧
  (db_status b = "open" → db_forfeited_units b = 0).

Lemma balance_inv_open c b : DebtClaimBalance_open c = Ok b → balance_inv c b.
Proof.
  intros Ho. change (balance_of {| db_claim_digest := InnovationDebtClaim_digest c;
    db_principal_units := ic_principal_units c; db_paid_units := 0; db_forfeited_units := 0;
    db_remaining_units := ic_principal_units c; db_status := "open"; db_terminal_block := None;
    db_terminal_reason := "" |} = Ok b) in Ho.
  apply balance_of_Ok in Ho as [-> Hwf]. split; [done|]. split; [|done].
  by apply DebtClaimState_init_Ok.
Qed.

Lemma balance_step_inv c b b' :
  ic_settlement_block c < ic_expires_block c → balance_inv c b → balance_step c b b' → balance_inv c b'.
Proof.
  intros Hc (Hwf & Hst & Hf) Hs. apply DebtClaimState_init_Ok in Hst as (_ & Hl & Hterm).
  destruct Hs as [b b' am bl Hop|b b' bl Hop|b b' bl re Hop].
  - apply pay_claim_balance_Ok in Hop as (_ & Ho & a & t & -> & -> & Ha & [Ht Hlive] & Hlast & ->); [|done].
    split; [by apply paid_balance_wf|]. split.
    + apply DebtClaimState_init_Ok. split; [done|]. split; [done|]. simpl. intros u Hu.
      destruct (_ =? _); [injection Hu as <-; split; [lia|done] | done].
    + simpl. by destruct (_ =? _); auto.
  - apply expire_claim_balance_Ok in Hop as (_ & t & -> & Ht & ->); [|done].
    case_decide as Hd; [|split; [done|]; split; [by apply DebtClaimState_init_Ok | done]].
    destruct Hd as [Ho He]. split; [by apply closed_balance_wf; auto|]. split; [|done].
    apply DebtClaimState_init_Ok. split; [done|]. split; [done|]. simpl. intros u [= <-]. split; [lia|done].
  - apply cancel_claim_balance_Ok in Hop as (_ & Ho & t & s & -> & -> & Ht & Hset & Hne & Hr & ->); [|done].
    split; [by apply closed_balance_wf; auto|]. split; [|done].
    apply DebtClaimState_init_Ok. split; [done|]. split; [done|]. simpl. intros u [= <-]. split; [lia|done].
Qed.

Lemma balance_reachable_inv c b b' :
  ic_settlement_block c < ic_expires_block c → balance_inv c b → rtc (balance_step c) b b' → balance_inv c b'.
Proof. intros Hc Hb Hr. induction Hr; eauto using balance_step_inv. Qed.

(** A step never takes back what was paid or forfeited. *)
Lemma balance_step_mono c b b' :
  balance_wf b → balance_step c b b' →
  db_paid_units b ≤ db_paid_units b' ∧ db_forfeited_units b ≤ db_forfeited_units b' ∧
  db_remaining_units b' ≤ db_remaining_units b ∧ (db_status b ≠ "open" → b' = b).
Proof.
  intros Hwf Hs. assert (0 ≤ db_remaining_units b) by apply Hwf.
  destruct Hs as [b b' am bl Hop|b b' bl Hop|b b' bl re Hop].
  - apply pay_claim_balance_Ok in Hop as (_ & Ho & a & t & -> & -> & Ha & _ & _ & ->); [|done].
    simpl. split_and!; try lia; done.
  - apply expire_claim_balance_Ok in Hop as (_ & t & -> & Ht & ->); [|done].
    case_decide as Hd; simpl; split_and!; try lia; try done. by destruct Hd.
  - apply cancel_claim_balance_Ok in Hop as (_ & Ho & t & s & -> & -> & _ & _ & _ & _ & ->); [|done].
    simpl. split_and!; try lia; done.
Qed.
End operations.
