(* ===== verification/FiniteDebtPolicy.v ===== *)
(** * Finite-debt policies and issuance

    Well-formed policies, the campaign catalog, and the arithmetic that turns
    an accepted improvement into a claim. *)

From Stdlib Require Import ZArith Lia Ascii.
From stdpp Require Import base tactics numbers list strings gmap sorting.
From S2P Require Import Prelude PyValue Sha256 Identity Strict Apportion Decimal FiniteDebt FiniteDebtBalance.

(** ** From allocations to hotkey weights

    The aggregation that ends every epoch projection: units are summed by
    hotkey, the reserve is added, and the dictionary is listed in hotkey order.
    Shared by the finite-debt and the composed projection. *)

(** ** Canonical key lists *)

Lemma sorted_str_NoDup l : NoDup l → NoDup (sorted_str l).
Proof. unfold sorted_str. by rewrite sorted_by_perm. Qed.

Lemma sorted_unique_true l : sorted_unique l = true ↔ NoDup l ∧ StronglySorted (key_le id) l.
Proof.
  unfold sorted_unique. rewrite bool_decide_eq_true. split.
  - intros ->. unfold sorted_str. split; [|apply sorted_by_sorted].
    rewrite sorted_by_perm. apply NoDup_elements.
  - intros [Hnd Hs]. symmetry. apply sorted_by_unique; [rewrite list_fmap_id; apply NoDup_elements | done |].
    apply NoDup_Permutation; [done | apply NoDup_elements|]. intros x.
    by rewrite elem_of_elements, elem_of_list_to_set.
Qed.

Lemma sorted_unique_sorted_str l : NoDup l → sorted_unique (sorted_str l) = true.
Proof. intros. apply sorted_unique_true. split; [by apply sorted_str_NoDup | apply sorted_by_sorted]. Qed.

(** ** Aggregation by hotkey *)

Section aggregate.
Context {A : Type} (hotkey : A → string) (units : A → Z).

Lemma units_fold_dom rows (m : gmap string Z) k :
  is_Some (fold_left (λ m row, dict_add m (hotkey row) (units row)) rows m !! k) ↔
  k ∈ hotkey <$> rows ∨ is_Some (m !! k).
Proof.
  revert m. induction rows as [|x rows IH]; intros m; csimpl.
  - split; [auto|]. intros [Hk|?]; [set_solver | done].
  - rewrite IH, elem_of_cons. unfold dict_add. rewrite lookup_insert.
    case_decide; subst; [|naive_solver]. split; [auto|]. intros _. right. eauto.
Qed.

Lemma units_by_hotkey_dom rows k : is_Some (units_by_hotkey hotkey units rows !! k) ↔ k ∈ hotkey <$> rows.
Proof.
  unfold units_by_hotkey. rewrite units_fold_dom, lookup_empty.
  split; [intros [?|[? ?]]; done | auto].
Qed.

Lemma units_by_hotkey_sum rows : dict_sum (units_by_hotkey hotkey units rows) = Zsum (units <$> rows).
Proof.
  unfold units_by_hotkey.
  assert (∀ m, dict_sum (fold_left (λ m row, dict_add m (hotkey row) (units row)) rows m)
    = dict_sum m + Zsum (units <$> rows)) as ->; [|by rewrite dict_sum_empty].
  induction rows as [|x rows IH]; intros m; csimpl; [unfold Zsum; simpl; lia|].
  rewrite IH, dict_sum_add, Zsum_cons. lia.
Qed.

Lemma units_by_hotkey_get rows k :
  dict_get (units_by_hotkey hotkey units rows) k = Zsum (units <$> filter (λ row, hotkey row = k) rows).
Proof.
  unfold units_by_hotkey.
  assert (∀ m, dict_get (fold_left (λ m row, dict_add m (hotkey row) (units row)) rows m) k
    = dict_get m k + Zsum (units <$> filter (λ row, hotkey row = k) rows)) as ->; [|done].
  induction rows as [|x rows IH]; intros m; cbn [fold_left]; [unfold Zsum; simpl; lia|].
  rewrite IH, dict_get_add, filter_cons. case_decide; csimpl; [rewrite Zsum_cons|]; lia.
Qed.

Lemma units_by_hotkey_pos rows k v :
  Forall (λ row, 1 ≤ units row) rows → units_by_hotkey hotkey units rows !! k = Some v → 1 ≤ v.
Proof.
  intros Hu Hv.
  assert (v = Zsum (units <$> filter (λ row, hotkey row = k) rows)) as ->.
  { rewrite <- units_by_hotkey_get. unfold dict_get. by rewrite Hv. }
  assert (k ∈ hotkey <$> rows) as Hk by (apply units_by_hotkey_dom; eauto).
  apply list_elem_of_fmap in Hk as (x & -> & Hx).
  assert (Forall (Z.le 0) (units <$> filter (λ row, hotkey row = hotkey x) rows)).
  { apply Forall_fmap, Forall_forall. intros y [_ Hy]%list_elem_of_filter.
    rewrite Forall_forall in Hu. specialize (Hu y Hy). simpl. lia. }
  trans (units x); [by rewrite Forall_forall in Hu; apply Hu|].
  apply Zsum_elem; [done|]. apply list_elem_of_fmap_2, list_elem_of_filter. done.
Qed.
End aggregate.

(** ** Listing a dictionary of weights *)

(** The weights listed for a dictionary, in hotkey order. *)
Definition weight_rows (m : gmap string Z) : list DebtHotkeyWeight :=
  (λ k, {| hw_hotkey := k; hw_units := dict_get m k |}) <$> sorted_str (map_to_list m).*1.

Lemma weight_rows_init (m : gmap string Z) :
  (∀ k v, m !! k = Some v → hotkey_matches k = true ∧ 1 ≤ v ≤ REFERENCE_EPOCH_UNITS) →
  mapM (λ hotkey, DebtHotkeyWeight_init (PStr hotkey) (PInt (dict_get m hotkey)))
    (sorted_str (map_to_list m).*1) = Ok (weight_rows m).
Proof.
  intros Hm. apply mapM_fmap. intros k Hk. unfold sorted_str in Hk. rewrite sorted_by_perm in Hk.
  apply list_elem_of_fmap in Hk as ([k' v] & -> & Hk). apply elem_of_map_to_list in Hk. simpl.
  destruct (Hm k' v Hk) as [Hh Hv]. unfold DebtHotkeyWeight_init, dict_get. rewrite Hk. simpl. fd_run. done.
Qed.

Lemma weight_rows_hotkeys m : hw_hotkey <$> weight_rows m = sorted_str (map_to_list m).*1.
Proof. unfold weight_rows. rewrite <- list_fmap_compose. apply list_fmap_id. Qed.

Lemma weight_rows_sum m : Zsum (hw_units <$> weight_rows m) = dict_sum m.
Proof.
  unfold weight_rows. rewrite <- list_fmap_compose. unfold compose; simpl. apply dict_sum_keys.
  - apply sorted_str_NoDup, NoDup_fst_map_to_list.
  - intros k [v Hv]. unfold sorted_str. rewrite sorted_by_perm.
    apply list_elem_of_fmap. exists (k, v). split; [done|]. by apply elem_of_map_to_list.
Qed.

Lemma weight_rows_elem m w : w ∈ weight_rows m → ∃ v, m !! hw_hotkey w = Some v ∧ hw_units w = v.
Proof.
  intros Hw. apply list_elem_of_fmap in Hw as (k & -> & Hk). unfold sorted_str in Hk. rewrite sorted_by_perm in Hk.
  apply list_elem_of_fmap in Hk as ([k' v] & -> & Hk%elem_of_map_to_list). exists v. split; [done|].
  simpl. unfold dict_get. by rewrite Hk.
Qed.

Lemma weight_rows_unique m : sorted_unique (hw_hotkey <$> weight_rows m) = true.
Proof. rewrite weight_rows_hotkeys. apply sorted_unique_sorted_str, NoDup_fst_map_to_list. Qed.

Lemma weights_dict_eq ws :
  weights_dict ws = dict_of_rows ((λ w, (hw_hotkey w, hw_units w)) <$> ws).
Proof.
  unfold weights_dict, dict_of_rows. generalize (∅ : gmap string Z).
  induction ws as [|w ws IH]; intros m; csimpl; [done|]. apply IH.
Qed.

Lemma weights_dict_rows m : weights_dict (weight_rows m) = m.
Proof.
  rewrite weights_dict_eq. unfold weight_rows. rewrite <- list_fmap_compose. unfold compose; simpl.
  set (keys := sorted_str (map_to_list m).*1).
  assert (∀ k, k ∈ keys ↔ is_Some (m !! k)) as Hkeys.
  { intros k. subst keys. unfold sorted_str. rewrite sorted_by_perm, list_elem_of_fmap. split.
    - intros ([k' v] & -> & Hk%elem_of_map_to_list). simpl. eauto.
    - intros [v Hv]. exists (k, v). split; [done|]. by apply elem_of_map_to_list. }
  assert (((λ k, (k, dict_get m k)) <$> keys).*1 = keys) as Hfst.
  { rewrite <- list_fmap_compose. apply list_fmap_id. }
  apply map_eq. intros k. destruct (m !! k) as [v|] eqn:E.
  - assert (dict_get m k = v) as Hv by (unfold dict_get; by rewrite E).
    apply dict_of_rows_lookup; [rewrite Hfst; apply sorted_str_NoDup, NoDup_fst_map_to_list|].
    apply list_elem_of_fmap. exists k. rewrite Hv. split; [done|]. apply Hkeys. eauto.
  - destruct (dict_of_rows _ !! k) eqn:E'; [|done]. exfalso.
    assert (k ∈ keys) as Hk by (rewrite <- Hfst; apply dict_of_rows_dom; eauto).
    apply Hkeys in Hk as [? ?]. congruence.
Qed.

(** ** The reserve *)

Lemma positive_part_all m : (∀ k v, m !! k = Some v → 0 < v) → positive_part m = m.
Proof.
  intros Hm. unfold positive_part. apply map_eq. intros k. destruct (m !! k) as [v|] eqn:E.
  - apply map_lookup_filter_Some. split; [done|]. simpl. eauto.
  - apply map_lookup_filter_None. auto.
Qed.

(** Adding the reserve and dropping non-positive entries leaves the claims'
    aggregation, plus the reserve when there is one. *)
Lemma positive_part_reserve m h r :
  (∀ k v, m !! k = Some v → 0 < v) → m !! h = None → 0 ≤ r →
  positive_part (dict_add m h r) = if r =? 0 then m else <[h := r]> m.
Proof.
  intros Hm Hh Hr. unfold dict_add, dict_get. rewrite Hh. simpl. destruct (Z.eqb_spec r 0) as [->|Hr0].
  - unfold positive_part. rewrite map_filter_insert_False by (simpl; lia).
    rewrite delete_id by done. by apply positive_part_all.
  - apply positive_part_all. intros k v. rewrite lookup_insert. case_decide; [intros [= <-]; lia | eauto].
Qed.

(** ** Campaign catalogs *)

Definition share_wf (s : CampaignBudgetShare) : Prop :=
  digest_ok (cbs_campaign_id s) ∧ 1 ≤ cbs_share_ppm s ≤ PPM.

Definition mapping_wf (r : RewardFamilyCampaign) : Prop :=
  digest_ok (rfc_family_id r) ∧ digest_ok (rfc_campaign_id r).

Lemma CampaignBudgetShare_init_Ok a b s :
  CampaignBudgetShare_init a b = Ok s ↔
  a = PStr (cbs_campaign_id s) ∧ b = PInt (cbs_share_ppm s) ∧ share_wf s.
Proof.
  unfold CampaignBudgetShare_init, share_wf. split.
  - intros Hs. inv_ok Hs. subst. fd_facts. done.
  - intros (-> & -> & Hd & Hp). destruct s; simpl in *. fd_run. done.
Qed.

Lemma RewardFamilyCampaign_init_Ok a b r :
  RewardFamilyCampaign_init a b = Ok r ↔
  a = PStr (rfc_family_id r) ∧ b = PStr (rfc_campaign_id r) ∧ mapping_wf r.
Proof.
  unfold RewardFamilyCampaign_init, mapping_wf. split.
  - intros Hs. inv_ok Hs. subst. fd_facts. done.
  - intros (-> & -> & Hd & Hp). destruct r; simpl in *. fd_run. done.
Qed.

(** The budget rows of a campaign list: equal shares. *)
Definition equal_shares (campaigns : list string) : list CampaignBudgetShare :=
  (λ c, {| cbs_campaign_id := c; cbs_share_ppm := PPM / Z.of_nat (length campaigns) |}) <$> campaigns.

Lemma mapM_digest_Ok l ds : mapM FD._digest l = Ok ds ↔ l = PStr <$> ds ∧ Forall digest_ok ds.
Proof.
  rewrite mapM_Ok. split.
  - induction 1 as [|v d l ds Hd Hl IH]; [done|]. destruct IH as [-> IH]. fd_facts. split; [done|]. by constructor.
  - intros [-> Hds]. induction Hds; csimpl; constructor; [by apply FD_digest_ok | done].
Qed.

Lemma equal_campaign_budget_shares_Ok l shares :
  equal_campaign_budget_shares l = Ok shares ↔
  ∃ ids, l = PStr <$> ids ∧ Forall digest_ok ids ∧ NoDup ids ∧ 1 ≤ Z.of_nat (length ids) ≤ 2 ∧
    shares = equal_shares (sorted_str ids).
Proof.
  unfold equal_campaign_budget_shares.
  assert (∀ ids, Forall digest_ok ids → 1 ≤ Z.of_nat (length ids) ≤ 2 →
    mapM (λ campaign, CampaignBudgetShare_init (PStr campaign)
      (PInt (PPM / Z.of_nat (length (sorted_str ids))))) (sorted_str ids) = Ok (equal_shares (sorted_str ids))) as Hinit.
  { intros ids Hds Hlen. apply mapM_fmap. intros c Hc. unfold sorted_str in *. rewrite sorted_by_perm in *.
    rewrite Forall_forall in Hds. apply CampaignBudgetShare_init_Ok. cbn [cbs_campaign_id cbs_share_ppm].
    split; [done|]. split; [done|]. split; [by apply Hds|]. cbn [cbs_share_ppm].
    assert (length ids = 1 ∨ length ids = 2)%nat as [E|E] by lia; rewrite E; by vm_compute. }
  split.
  - intros Hs. inv_ok Hs. apply mapM_digest_Ok in Hv as [-> Hds]. bool_prop. rename v into ids.
    assert (1 ≤ Z.of_nat (length ids) ≤ 2) as Hlen.
    { unfold MAX_ACTIVE_CAMPAIGNS, sorted_str in *. rewrite sorted_by_perm in *. split; [|lia].
      destruct ids; [done|simpl; lia]. }
    rewrite Hinit in Hs by done. injection Hs as <-. exists ids. split_and!; try done; try lia.
    unfold sorted_str in *. by rewrite sorted_by_perm in *.
  - intros (ids & -> & Hds & Hnd & Hlen & ->).
    rewrite (proj2 (mapM_digest_Ok _ ids)) by done. cbn [bind].
    assert (length (sorted_str ids) = length ids) as Hl by (unfold sorted_str; by rewrite sorted_by_perm).
    replace (raise_if (is_nil _ || _) _) with (Ok tt).
    + cbn [bind]. unfold MAX_ACTIVE_CAMPAIGNS. pass_guard. by apply Hinit.
    + symmetry. apply raise_if_Ok. apply orb_false_iff. split.
      * destruct (sorted_str ids); [simpl in Hl; lia | done].
      * bool_goal. by apply sorted_str_NoDup.
Qed.

(** ** Well-formed policies *)

Record policy_wf (p : FiniteDebtPolicyManifest) : Prop := {
  pw_shares : ∃ ids, Forall digest_ok ids ∧ NoDup ids ∧ 1 ≤ Z.of_nat (length ids) ≤ 2 ∧
    StronglySorted (key_le id) ids ∧ fp_campaign_budget_shares p = equal_shares ids;
  pw_mappings : fp_reward_family_campaigns p ≠ [] ∧ NoDup (rfc_family_id <$> fp_reward_family_campaigns p) ∧
    StronglySorted (key_le rfc_family_id) (fp_reward_family_campaigns p) ∧
    Forall mapping_wf (fp_reward_family_campaigns p);
  pw_campaigns : ∀ c, c ∈ rfc_campaign_id <$> fp_reward_family_campaigns p ↔
    c ∈ cbs_campaign_id <$> fp_campaign_budget_shares p;
  pw_selection : digest_ok (fp_selection_report_digest p);
  pw_reserve_hotkey : hotkey_matches (fp_reserve_hotkey p) = true;
  pw_reserve : 0 ≤ fp_reserve_ppm p ≤ PPM - 1;
  pw_pools : Forall (λ s, 0 < reference_claim_pool_units p * cbs_share_ppm s / PPM) (fp_campaign_budget_shares p);
  pw_epoch : 1 ≤ fp_epoch_blocks p;
  pw_beta : 0 ≤ fp_beta_ppm p ≤ PPM;
  pw_tau : 1 ≤ fp_tau_blocks p;
  pw_lifetime : 1 ≤ fp_lifetime_blocks p;
  pw_k : 1 ≤ fp_k_ppm p;
  pw_basis : fp_improvement_basis p ∈ IMPROVEMENT_BASES;
  pw_clock : 1 ≤ fp_clock_reset_threshold_log_units_ppm p;
  pw_schema : py_eq_int (fp_schema_version p) POLICY_SCHEMA_VERSION = true;
  pw_version : fp_policy_version p = POLICY_VERSION
}.

Lemma cbs_campaign_id_equal_shares ids : cbs_campaign_id <$> equal_shares ids = ids.
Proof. unfold equal_shares. rewrite <- list_fmap_compose. apply list_fmap_id. Qed.

Lemma py_eq_str_true v s : py_eq_str v s = true ↔ v = PStr s.
Proof.
  destruct v; simpl; split; try done; intros Hs; [by bool_prop; subst|].
  injection Hs as ->. by apply bool_decide_eq_true.
Qed.

(** Every policy the constructor returns is well-formed; its campaign and
    family rows are the arguments in canonical order. *)
Lemma FiniteDebtPolicyManifest_init_wf shares mappings a1 a2 a3 a4 a5 a6 a7 a8 a9 a10 a11 a12 p :
  FiniteDebtPolicyManifest_init shares mappings a1 a2 a3 a4 a5 a6 a7 a8 a9 a10 a11 a12 = Ok p →
  Forall mapping_wf mappings →
  policy_wf p ∧ fp_campaign_budget_shares p = sorted_by cbs_campaign_id shares ∧
  fp_reward_family_campaigns p = sorted_by rfc_family_id mappings.
Proof.
  unfold FiniteDebtPolicyManifest_init. intros Hp Hmw. inv_ok Hp. subst p. fd_facts. simpl.
  match goal with Hs : equal_campaign_budget_shares _ = Ok _ |- _ =>
    apply equal_campaign_budget_shares_Ok in Hs as (ids & Hids & Hds & Hnd & Hlen & ->) end.
  bool_prop.
  assert (ids = cbs_campaign_id <$> sorted_by cbs_campaign_id shares) as ->.
  { assert (PStr <$> (cbs_campaign_id <$> sorted_by cbs_campaign_id shares) = PStr <$> ids) as Hi
      by (rewrite <- list_fmap_compose; exact Hids).
    apply (inj (fmap PStr)) in Hi. done. }
  match goal with Hs : sorted_by _ _ = equal_shares _ |- _ => rename Hs into Hshares end.
  split; [|done]. constructor; simpl; try done; try lia.
  - eexists. split_and!; [exact Hds|done|lia|lia| |].
    + apply (StronglySorted_key_fmap cbs_campaign_id), sorted_by_sorted.
    + rewrite Hshares at 1. f_equal. apply sorted_by_id; [by rewrite list_fmap_id|].
      apply (StronglySorted_key_fmap cbs_campaign_id), sorted_by_sorted.
  - split_and!; [| done | apply sorted_by_sorted | by rewrite sorted_by_perm].
    intros E. by rewrite E in *.
  - intros c. rewrite <- !(elem_of_list_to_set (C := gset string)).
    match goal with Hs : list_to_set _ = _ |- _ => by rewrite Hs end.
  - match goal with Hs : existsb _ _ = false |- _ => rename Hs into He end.
    apply Forall_forall. intros s Hs. apply Z.nle_gt. intros Hle.
    assert (existsb (λ row, (PPM - v5) * REFERENCE_EPOCH_UNITS / PPM * cbs_share_ppm row / PPM <=? 0)
      (sorted_by cbs_campaign_id shares) = true); [|congruence].
    apply existsb_exists. exists s. split; [by apply list_elem_of_In|]. by apply Z.leb_le.
  - match goal with Hs : py_in_strs _ _ = Ok ?b |- _ =>
      destruct b; [apply py_in_strs_true in Hs as (? & [= <-] & Hs); done | done] end.
  - match goal with Hs : py_eq_str (PStr _) _ = true |- _ => apply py_eq_str_true in Hs; by injection Hs end.
Qed.

Lemma equal_shares_of_policy p :
  policy_wf p →
  NoDup (cbs_campaign_id <$> fp_campaign_budget_shares p) ∧
  StronglySorted (key_le cbs_campaign_id) (fp_campaign_budget_shares p) ∧ fp_campaign_budget_shares p ≠ [] ∧
  equal_campaign_budget_shares ((λ row, PStr (cbs_campaign_id row)) <$> fp_campaign_budget_shares p)
    = Ok (fp_campaign_budget_shares p).
Proof.
  intros Hp. destruct (pw_shares p Hp) as (ids & Hds & Hnd & Hlen & Hs & E). rewrite E.
  rewrite cbs_campaign_id_equal_shares. split_and!; [done| | |].
  - apply (StronglySorted_key_fmap cbs_campaign_id). by rewrite cbs_campaign_id_equal_shares.
  - destruct ids; [simpl in Hlen; lia | done].
  - apply equal_campaign_budget_shares_Ok. exists ids. split_and!; try done; try lia.
    + rewrite <- (cbs_campaign_id_equal_shares ids) at 2. by rewrite <- list_fmap_compose.
    + f_equal. symmetry. apply sorted_by_id; [by rewrite list_fmap_id | done].
Qed.

(** Any arrangement of a well-formed policy's rows builds that same policy. *)
Lemma FiniteDebtPolicyManifest_init_of p shares mappings :
  policy_wf p → shares ≡ₚ fp_campaign_budget_shares p → mappings ≡ₚ fp_reward_family_campaigns p →
  FiniteDebtPolicyManifest_init shares mappings (PStr (fp_selection_report_digest p)) (PStr (fp_reserve_hotkey p))
    (PInt (fp_reserve_ppm p)) (PInt (fp_epoch_blocks p)) (PInt (fp_beta_ppm p)) (PInt (fp_tau_blocks p))
    (PInt (fp_lifetime_blocks p)) (PInt (fp_k_ppm p)) (PStr (fp_improvement_basis p))
    (PInt (fp_clock_reset_threshold_log_units_ppm p)) (fp_schema_version p) (PStr (fp_policy_version p)) = Ok p.
Proof.
  intros Hp Hsh Hmap. destruct (equal_shares_of_policy p Hp) as (Hnd & Hsort & Hnil & Heq).
  destruct (pw_mappings p Hp) as (Mnil & Mnd & Msort & Mwf).
  unfold FiniteDebtPolicyManifest_init.
  rewrite (sorted_by_unique cbs_campaign_id shares (fp_campaign_budget_shares p)) by (by rewrite ?Hsh).
  rewrite (sorted_by_unique rfc_family_id mappings (fp_reward_family_campaigns p)) by (by rewrite ?Hmap).
  replace (is_nil (fp_campaign_budget_shares p)) with false by (by destruct (fp_campaign_budget_shares p)).
  replace (is_nil (fp_reward_family_campaigns p)) with false by (by destruct (fp_reward_family_campaigns p)).
  pass_guard. rewrite Heq. cbn [bind]. pass_guard.
  assert ((list_to_set (rfc_campaign_id <$> fp_reward_family_campaigns p) : gset string)
    = list_to_set (cbs_campaign_id <$> fp_campaign_budget_shares p)) as ->.
  { apply set_eq. intros c. rewrite !elem_of_list_to_set. apply (pw_campaigns p Hp). }
  pass_guard. pose proof (pw_selection p Hp). pose proof (pw_reserve_hotkey p Hp). pose proof (pw_reserve p Hp).
  pose proof (pw_epoch p Hp). pose proof (pw_beta p Hp). pose proof (pw_tau p Hp). pose proof (pw_lifetime p Hp).
  pose proof (pw_k p Hp). pose proof (pw_clock p Hp). fd_run.
  replace (existsb _ _) with false.
  2: { symmetry. apply not_true_is_false. rewrite existsb_exists. intros (s & Hs%list_elem_of_In & Hle). bool_prop.
       pose proof (pw_pools p Hp) as Hpools. rewrite Forall_forall in Hpools. specialize (Hpools s Hs).
       unfold reference_claim_pool_units in Hpools. lia. }
  cbn [raise_if bind]. fd_run.
  rewrite (proj2 (py_in_strs_true _ _)) by (eexists; split; [done | apply (pw_basis p Hp)]).
  cbn [negb raise_if bind require_str]. fd_run. rewrite (pw_schema p Hp), (pw_version p Hp).
  rewrite (proj2 (py_eq_str_true (PStr POLICY_VERSION) POLICY_VERSION)) by done. cbn [negb raise_if bind].
  pose proof (pw_version p Hp) as Hver. by destruct p; simpl in *; subst.
Qed.
