(* ===== verification/FiniteDebtEpoch.v ===== *)
(** * The epoch projection and its application

    [project_debt_epoch] is shown to compute the closed form
    [epoch_projection]; what the epoch promises (conservation, caps,
    proportionality) is then read off that form, and
    [apply_debt_epoch_projection] is run on it. *)

From Stdlib Require Import ZArith Lia Ascii.
From stdpp Require Import base tactics numbers list strings gmap sorting.
From S2P Require Import Prelude PyValue Sha256 Identity Strict Apportion Decimal FiniteDebt FiniteDebtBalance FiniteDebtPolicy.

Lemma fold_left_fmap {A B C} (f : A → B → A) (g : C → B) l a :
  fold_left f (g <$> l) a = fold_left (λ a x, f a (g x)) l a.
Proof. revert a. induction l as [|x l IH]; intros a; simpl; [done | apply IH]. Qed.

(** [{key(x): x for x in l}] with distinct keys finds every element. *)
Lemma fold_insert_skip {A} (key : A → string) l (m : gmap string A) k :
  k ∉ key <$> l → fold_left (λ m x, <[key x := x]> m) l m !! k = m !! k.
Proof.
  revert m. induction l as [|y l IH]; intros m; csimpl; [done|]. rewrite not_elem_of_cons. intros [Hy Hl].
  rewrite IH by done. by rewrite lookup_insert_ne by congruence.
Qed.

Lemma fold_insert_lookup {A} (key : A → string) l (m : gmap string A) x :
  NoDup (key <$> l) → x ∈ l → fold_left (λ m x, <[key x := x]> m) l m !! key x = Some x.
Proof.
  revert m. induction l as [|y l IH]; intros m; csimpl; [by intros _ ?%not_elem_of_nil|].
  rewrite NoDup_cons. intros [Hy Hnd] [->|Hx]%elem_of_cons; [|by apply IH].
  rewrite fold_insert_skip by done. apply lookup_insert_eq.
Qed.

Section epoch.
Context `{Sha256}.

(** A state built by the constructors. *)
Definition state_wf (s : DebtClaimState) : Prop :=
  claim_wf (ds_claim s) ∧ balance_wf (ds_balance s) ∧ DebtClaimState_init (ds_claim s) (ds_balance s) = Ok s.

Definition remaining (s : DebtClaimState) : Z := db_remaining_units (ds_balance s).

Lemma state_wf_linked s : state_wf s → linked (ds_claim s) (ds_balance s).
Proof. intros (_ & _ & Hs). by apply DebtClaimState_init_Ok in Hs as (_ & Hl & _). Qed.

Lemma state_wf_key s : state_wf s → digest_ok (claim_key s).
Proof. intros Hs. destruct (state_wf_linked s Hs) as [Hd _]. unfold claim_key. rewrite <- Hd. apply Hs. Qed.

Lemma is_open_status s : is_open s ↔ db_status (ds_balance s) = "open".
Proof. unfold is_open. apply bool_decide_spec. Qed.

(** What the checks of the projection establish of an open state. *)
Lemma check_epoch_state_Ok p block s :
  check_epoch_state p block s = Ok tt ↔
  InnovationDebtClaim_validate_policy (ds_claim s) p = Ok tt ∧
  (db_status (ds_balance s) = "open" →
   ic_hotkey (ds_claim s) ≠ fp_reserve_hotkey p ∧
   ic_settlement_block (ds_claim s) ≤ block < ic_expires_block (ds_claim s)).
Proof.
  unfold check_epoch_state, is_open. split.
  - intros Hc. inv_ok Hc. destruct v. split; [done|]. intros Ho.
    rewrite (bool_decide_eq_true_2 (db_status _ = "open")) in * by done. rewrite andb_true_r in *.
    simpl in *. bool_prop. done.
  - intros [-> Ho]. cbn [bind]. destruct (decide (db_status (ds_balance s) = "open")) as [E|E].
    + destruct (Ho E). rewrite (bool_decide_eq_true_2 (db_status _ = "open")) by done.
      rewrite andb_true_r. simpl. pass_guard. pass_guard. by pass_guard.
    + rewrite (bool_decide_eq_false_2 (db_status _ = "open")) by done. by rewrite andb_false_r.
Qed.

(** ** The closed form *)

Section closed_form.
Context (p : FiniteDebtPolicyManifest) (block : Z) (states : list DebtClaimState).

Definition open_rows : list DebtClaimState := filter is_open (sorted_by claim_key states).
Definition epoch_rows : list (string * Z) := (λ row, (claim_key row, remaining row)) <$> open_rows.
Definition epoch_capacity : Z := reference_claim_pool_units p.
Definition epoch_total : Z := Zsum (remaining <$> open_rows).
Definition epoch_payout : Z := Z.min epoch_capacity epoch_total.
Definition epoch_share (row : DebtClaimState) : Z := dict_get (epoch_amounts open_rows epoch_capacity) (claim_key row).
Definition epoch_allocation (row : DebtClaimState) : DebtEpochAllocation :=
  {| da_claim_digest := claim_key row; da_hotkey := ic_hotkey (ds_claim row); da_units := epoch_share row |}.
Definition paid_rows : list DebtClaimState := filter (λ row, 0 < epoch_share row) open_rows.
Definition epoch_allocations : list DebtEpochAllocation := epoch_allocation <$> paid_rows.
Definition epoch_reserve : Z := REFERENCE_EPOCH_UNITS - epoch_payout.
Definition epoch_by_hotkey : gmap string Z :=
  let m := units_by_hotkey da_hotkey da_units epoch_allocations in
  if epoch_reserve =? 0 then m else <[fp_reserve_hotkey p := epoch_reserve]> m.

Definition epoch_projection (policy_digest : string) : DebtEpochProjection :=
  {| dp_policy_digest := policy_digest;
     dp_effective_block := block;
     dp_reference_epoch_units := PInt REFERENCE_EPOCH_UNITS;
     dp_claim_pool_capacity_units := epoch_capacity;
     dp_total_remaining_units := epoch_total;
     dp_payout_units := epoch_payout;
     dp_reserve_hotkey := fp_reserve_hotkey p;
     dp_reserve_units := epoch_reserve;
     dp_input_state_digests := sorted_str (DebtClaimState_digest <$> sorted_by claim_key states);
     dp_allocations := epoch_allocations;
     dp_weights := weight_rows epoch_by_hotkey |}.

Context (Hp : policy_wf p) (Hwf : Forall state_wf states).
Context (Hkeys : NoDup (claim_key <$> states)).
Context (Hchecks : Forall (λ s, check_epoch_state p block s = Ok tt) states).

Lemma open_rows_elem s : s ∈ open_rows ↔ s ∈ states ∧ db_status (ds_balance s) = "open".
Proof. unfold open_rows. rewrite list_elem_of_filter, sorted_by_perm, is_open_status. tauto. Qed.

Lemma open_rows_sublist : sublist open_rows (sorted_by claim_key states).
Proof. apply sublist_filter. Qed.

Lemma sublist_fmap_mono {A B} (f : A → B) l k : sublist l k → sublist (f <$> l) (f <$> k).
Proof. induction 1; csimpl; by constructor. Qed.

Lemma open_rows_NoDup : NoDup (claim_key <$> open_rows).
Proof.
  eapply sublist_NoDup; [|apply sublist_fmap_mono, open_rows_sublist]. by rewrite sorted_by_perm.
Qed.

Lemma epoch_rows_keys : epoch_rows.*1 = claim_key <$> open_rows.
Proof. unfold epoch_rows. by rewrite <- list_fmap_compose. Qed.

Lemma epoch_rows_weights : epoch_rows.*2 = remaining <$> open_rows.
Proof. unfold epoch_rows. by rewrite <- list_fmap_compose. Qed.

Lemma state_wf_elem s : s ∈ states → state_wf s.
Proof. rewrite Forall_forall in Hwf. apply Hwf. Qed.

Lemma open_remaining_pos s : s ∈ open_rows → 0 < remaining s.
Proof.
  rewrite open_rows_elem. intros [Hs Ho]. destruct (state_wf_elem s Hs) as (_ & Hb & _).
  apply (balance_wf_open _ Hb Ho).
Qed.

Lemma epoch_rows_pos : Forall (λ row, 0 < row.2) epoch_rows.
Proof. apply Forall_fmap, Forall_forall. intros s Hs. simpl. by apply open_remaining_pos. Qed.

Lemma epoch_capacity_bounds : 0 ≤ epoch_capacity ≤ REFERENCE_EPOCH_UNITS.
Proof.
  unfold epoch_capacity, reference_claim_pool_units, REFERENCE_EPOCH_UNITS, PPM.
  pose proof (pw_reserve p Hp) as Hr. unfold PPM in Hr. rewrite Z.div_mul by lia. lia.
Qed.

Lemma epoch_total_nonneg : 0 ≤ epoch_total.
Proof.
  apply Zsum_nonneg, Forall_fmap, Forall_forall. intros s Hs. simpl. pose proof (open_remaining_pos s Hs). lia.
Qed.

Lemma epoch_payout_bounds : 0 ≤ epoch_payout ≤ epoch_capacity ∧ epoch_payout ≤ epoch_total.
Proof. unfold epoch_payout. pose proof epoch_capacity_bounds. pose proof epoch_total_nonneg. lia. Qed.

Lemma epoch_share_bounds s :
  s ∈ open_rows →
  0 ≤ epoch_share s ≤ remaining s ∧
  remaining s * epoch_payout - epoch_total < epoch_share s * epoch_total < remaining s * epoch_payout + epoch_total.
Proof.
  intros Hs. unfold epoch_share, epoch_amounts.
  pose proof (pro_rata_share epoch_rows epoch_capacity) as Hshare. rewrite epoch_rows_weights, epoch_rows_keys in Hshare.
  apply Hshare; [apply open_rows_NoDup | apply epoch_rows_pos | apply epoch_capacity_bounds |].
  apply list_elem_of_fmap. by exists s.
Qed.

Lemma epoch_shares_sum : Zsum (epoch_share <$> open_rows) = epoch_payout.
Proof.
  pose proof (pro_rata_sum_rows epoch_rows epoch_capacity) as Hsum.
  rewrite epoch_rows_weights, epoch_rows_keys in Hsum.
  unfold epoch_payout, epoch_total. rewrite <- Hsum;
    [|apply open_rows_NoDup | apply epoch_rows_pos | apply epoch_capacity_bounds].
  unfold epoch_rows. by rewrite <- list_fmap_compose.
Qed.

(** Rows that receive nothing do not matter for the sum. *)
Lemma Zsum_filter_pos {A} (f : A → Z) l :
  (∀ x, x ∈ l → 0 ≤ f x) → Zsum (f <$> filter (λ x, 0 < f x) l) = Zsum (f <$> l).
Proof.
  induction l as [|x l IH]; intros Hf; [done|]. rewrite filter_cons.
  assert (0 ≤ f x) by (apply Hf; left). assert (∀ y, y ∈ l → 0 ≤ f y) by (intros; apply Hf; by right).
  case_decide; csimpl; rewrite ?Zsum_cons, IH by done; [done | lia].
Qed.

Lemma Zsum_filter_le {A} (f : A → Z) (P : A → Prop) `{∀ x, Decision (P x)} l :
  Forall (λ x, 0 ≤ f x) l → Zsum (f <$> filter P l) ≤ Zsum (f <$> l).
Proof.
  induction 1 as [|x l Hx Hl IH]; [done|]. rewrite filter_cons. case_decide; csimpl; rewrite ?Zsum_cons; lia.
Qed.

Lemma paid_rows_elem s : s ∈ paid_rows ↔ 0 < epoch_share s ∧ s ∈ open_rows.
Proof. unfold paid_rows. by rewrite list_elem_of_filter. Qed.

Lemma epoch_allocations_sum : Zsum (da_units <$> epoch_allocations) = epoch_payout.
Proof.
  unfold epoch_allocations. rewrite <- list_fmap_compose.
  change (da_units ∘ epoch_allocation) with epoch_share. unfold paid_rows.
  rewrite Zsum_filter_pos; [apply epoch_shares_sum|]. intros s Hs. by apply epoch_share_bounds.
Qed.

Lemma epoch_allocations_init :
  mapM (λ row, DebtEpochAllocation_init (PStr (claim_key row)) (PStr (ic_hotkey (ds_claim row)))
                 (PInt (epoch_share row))) paid_rows = Ok epoch_allocations.
Proof.
  apply mapM_fmap. intros s [Hpos Hs]%paid_rows_elem. apply open_rows_elem in Hs as [Hs _].
  pose proof (state_wf_elem s Hs) as Hw. pose proof (state_wf_key s Hw).
  assert (hotkey_matches (ic_hotkey (ds_claim s)) = true) by apply Hw.
  unfold DebtEpochAllocation_init. fd_run. done.
Qed.

Lemma paid_rows_check s :
  s ∈ paid_rows → hotkey_matches (ic_hotkey (ds_claim s)) = true ∧ ic_hotkey (ds_claim s) ≠ fp_reserve_hotkey p.
Proof.
  intros [_ [Hs Ho]%open_rows_elem]%paid_rows_elem. split; [apply (state_wf_elem s Hs)|].
  rewrite Forall_forall in Hchecks. apply Hchecks, check_epoch_state_Ok in Hs as [_ Hc]. by apply Hc.
Qed.

Lemma epoch_allocation_pos : Forall (λ a, 1 ≤ da_units a) epoch_allocations.
Proof.
  apply Forall_fmap, Forall_forall. intros s [Hs _]%paid_rows_elem. simpl. lia.
Qed.

Lemma paid_rows_sublist : sublist paid_rows (sorted_by claim_key states).
Proof. etrans; [apply sublist_filter | apply open_rows_sublist]. Qed.

Lemma epoch_claim_digests : da_claim_digest <$> epoch_allocations = claim_key <$> paid_rows.
Proof. unfold epoch_allocations. by rewrite <- list_fmap_compose. Qed.

Lemma epoch_allocations_unique : sorted_unique (da_claim_digest <$> epoch_allocations) = true.
Proof.
  rewrite epoch_claim_digests. apply sorted_unique_true. split.
  - eapply sublist_NoDup; [|apply sublist_fmap_mono, paid_rows_sublist]. by rewrite sorted_by_perm.
  - apply (StronglySorted_key_fmap claim_key). eapply StronglySorted_sublist; [apply paid_rows_sublist|].
    apply sorted_by_sorted.
Qed.

(** The claims' units by hotkey, before the reserve is added. *)
Definition claim_units : gmap string Z := units_by_hotkey da_hotkey da_units epoch_allocations.

Lemma claim_units_bounds k v : claim_units !! k = Some v → 1 ≤ v ≤ epoch_payout.
Proof.
  intros Hk. split; [by eapply units_by_hotkey_pos, Hk; apply epoch_allocation_pos|].
  assert (v = Zsum (da_units <$> filter (λ a, da_hotkey a = k) epoch_allocations)) as ->.
  { rewrite <- units_by_hotkey_get. fold claim_units. unfold dict_get. by rewrite Hk. }
  rewrite <- epoch_allocations_sum. apply Zsum_filter_le. apply Forall_forall. intros a Ha.
  pose proof epoch_allocation_pos as Hpos. rewrite Forall_forall in Hpos. specialize (Hpos a Ha). lia.
Qed.

Lemma claim_units_owner k : is_Some (claim_units !! k) → ∃ s, s ∈ paid_rows ∧ k = ic_hotkey (ds_claim s).
Proof.
  intros Hk%units_by_hotkey_dom. apply list_elem_of_fmap in Hk as (a & -> & Ha).
  apply list_elem_of_fmap in Ha as (s & -> & Hs). by exists s.
Qed.

Lemma claim_units_reserve : claim_units !! fp_reserve_hotkey p = None.
Proof.
  destruct (claim_units !! fp_reserve_hotkey p) eqn:E; [|done]. exfalso.
  destruct (claim_units_owner (fp_reserve_hotkey p)) as (s & Hs & Heq); [by eauto|].
  destruct (paid_rows_check s Hs). congruence.
Qed.

Lemma epoch_reserve_bounds : 0 ≤ epoch_reserve ≤ REFERENCE_EPOCH_UNITS.
Proof.
  unfold epoch_reserve. pose proof epoch_payout_bounds. pose proof epoch_capacity_bounds.
  unfold REFERENCE_EPOCH_UNITS in *. lia.
Qed.

Lemma epoch_by_hotkey_ok k v :
  epoch_by_hotkey !! k = Some v → hotkey_matches k = true ∧ 1 ≤ v ≤ REFERENCE_EPOCH_UNITS.
Proof.
  pose proof epoch_payout_bounds. pose proof epoch_capacity_bounds. pose proof epoch_reserve_bounds.
  assert (claim_units !! k = Some v → hotkey_matches k = true ∧ 1 ≤ v ≤ REFERENCE_EPOCH_UNITS) as Hc.
  { intros Hk. destruct (claim_units_owner k) as (s & Hs & ->); [by eauto|].
    split; [by apply paid_rows_check | pose proof (claim_units_bounds _ _ Hk); lia]. }
  unfold epoch_by_hotkey. fold claim_units. destruct (Z.eqb_spec epoch_reserve 0); [done|].
  rewrite lookup_insert. case_decide; [|done]. intros [= <-]. subst. split; [apply Hp | lia].
Qed.

Lemma epoch_by_hotkey_sum : dict_sum epoch_by_hotkey = REFERENCE_EPOCH_UNITS.
Proof.
  assert (dict_sum claim_units = epoch_payout) as Hsum.
  { unfold claim_units. rewrite units_by_hotkey_sum. apply epoch_allocations_sum. }
  unfold epoch_by_hotkey. fold claim_units. destruct (Z.eqb_spec epoch_reserve 0) as [E|E].
  - rewrite Hsum. unfold epoch_reserve in E. lia.
  - rewrite dict_sum_insert_fresh by apply claim_units_reserve. rewrite Hsum. unfold epoch_reserve. lia.
Qed.

Lemma epoch_weights_sum : Zsum (hw_units <$> weight_rows epoch_by_hotkey) = REFERENCE_EPOCH_UNITS.
Proof. rewrite weight_rows_sum. apply epoch_by_hotkey_sum. Qed.

(** The weights are what the projection's validator recomputes. *)
Lemma epoch_weights_dict :
  weights_dict (weight_rows epoch_by_hotkey) =
  positive_part (dict_add claim_units (fp_reserve_hotkey p) epoch_reserve).
Proof.
  rewrite weights_dict_rows, positive_part_reserve.
  - done.
  - intros k v Hk. pose proof (claim_units_bounds k v Hk). lia.
  - apply claim_units_reserve.
  - apply epoch_reserve_bounds.
Qed.

(** Every allocation is covered by its claim's remaining principal. *)
Lemma remaining_by_claim_get s :
  s ∈ open_rows →
  dict_get (fold_left (λ m row, <[claim_key row := remaining row]> m) open_rows ∅) (claim_key s) = remaining s.
Proof.
  intros Hs. assert (fold_left (λ m row, <[claim_key row := remaining row]> m) open_rows ∅ = dict_of_rows epoch_rows) as ->
    by (symmetry; apply fold_left_fmap).
  unfold dict_get. rewrite (dict_of_rows_lookup _ _ (remaining s)); [done| |].
  - rewrite epoch_rows_keys. apply open_rows_NoDup.
  - apply list_elem_of_fmap. by exists s.
Qed.

Lemma allocations_covered :
  existsb (λ a, dict_get (fold_left (λ m row, <[claim_key row := remaining row]> m) open_rows ∅) (da_claim_digest a)
                 <? da_units a) epoch_allocations = false.
Proof.
  apply not_true_is_false. rewrite existsb_exists. intros (a & Ha%list_elem_of_In & Hlt).
  apply list_elem_of_fmap in Ha as (s & -> & [_ Hs]%paid_rows_elem).
  cbn [da_claim_digest da_units epoch_allocation] in Hlt.
  rewrite remaining_by_claim_get in Hlt by done. bool_prop. pose proof (epoch_share_bounds s Hs). lia.
Qed.

Definition state_digests : list string := DebtClaimState_digest <$> sorted_by claim_key states.

Lemma DebtEpochProjection_init_epoch pd d :
  0 ≤ block → digest_ok pd →
  DebtEpochProjection_init (PStr pd) (PInt block) (PInt REFERENCE_EPOCH_UNITS)
    (PInt epoch_capacity) (PInt epoch_total) (PInt epoch_payout) (PStr (fp_reserve_hotkey p)) (PInt epoch_reserve)
    (sorted_str state_digests) epoch_allocations (weight_rows epoch_by_hotkey) = Ok d ↔
  NoDup state_digests ∧ Forall digest_ok state_digests ∧ d = epoch_projection pd.
Proof.
  intros Hb Hpd. pose proof epoch_payout_bounds. pose proof epoch_capacity_bounds. pose proof epoch_reserve_bounds.
  pose proof epoch_total_nonneg. assert (hotkey_matches (fp_reserve_hotkey p) = true) by apply Hp.
  unfold DebtEpochProjection_init. fd_run.
  replace (raise_if (negb (py_eq_int _ _)) _) with (Ok tt) by done. fd_run. split.
  - intros Hi. inv_ok Hi. subst d. bool_prop. split_and!; [| | done].
    + match goal with Hs : sorted_unique (sorted_str _) = true |- _ => apply sorted_unique_true in Hs as [Hs _];
        unfold sorted_str in Hs; by rewrite sorted_by_perm in Hs end.
    + match goal with Hs : Forall _ (sorted_str _) |- _ => rename Hs into Hds end.
      unfold sorted_str in Hds. rewrite sorted_by_perm in Hds. eapply Forall_impl; [exact Hds|].
      intros x Hx. apply bind_Ok in Hx as (y & [[= ->] Hy]%FD_digest_Ok & _). done.
  - intros (Hnd & Hds & ->). rewrite sorted_unique_sorted_str by done. cbn [negb raise_if bind].
    replace (forM_ (sorted_str state_digests) _) with (Ok tt).
    2: { symmetry. apply forM_Ok. unfold sorted_str. rewrite sorted_by_perm.
         eapply Forall_impl; [exact Hds|]. intros x Hx. simpl. by rewrite FD_digest_ok. }
    rewrite epoch_allocations_unique, weight_rows_unique. cbn [negb orb raise_if bind].
    rewrite epoch_allocations_sum, epoch_weights_sum. pass_guard.
    fold claim_units. rewrite <- epoch_weights_dict. pass_guard. done.
Qed.

(** ** Applying the closed form *)

Lemma epoch_share_closed s : s ∈ states → db_status (ds_balance s) ≠ "open" → epoch_share s = 0.
Proof.
  intros Hs Ho. unfold epoch_share, epoch_amounts, dict_get.
  destruct (pro_rata_amounts _ _ !! claim_key s) as [a|] eqn:E; [exfalso | done].
  change (pro_rata_amounts epoch_rows epoch_capacity !! claim_key s = Some a) in E.
  assert (claim_key s ∈ epoch_rows.*1) as Hk.
  { eapply (pro_rata_dom epoch_rows epoch_capacity); [|apply epoch_rows_pos|apply epoch_capacity_bounds | eauto].
    rewrite epoch_rows_keys. apply open_rows_NoDup. }
  rewrite epoch_rows_keys in Hk. apply list_elem_of_fmap in Hk as (s' & Heq & Hs').
  apply open_rows_elem in Hs' as [Hs' Ho']. apply Ho.
  by rewrite (NoDup_fmap_inj_elem claim_key states s s' Hkeys Hs Hs' Heq).
Qed.

Lemma epoch_share_nonneg s : s ∈ states → 0 ≤ epoch_share s.
Proof.
  intros Hs. destruct (decide (db_status (ds_balance s) = "open")) as [Ho|Ho].
  - by apply epoch_share_bounds, open_rows_elem.
  - by rewrite epoch_share_closed.
Qed.

Lemma allocation_amounts_get s : s ∈ states → dict_get (allocation_amounts epoch_allocations) (claim_key s) = epoch_share s.
Proof.
  intros Hs. assert (allocation_amounts epoch_allocations
    = dict_of_rows ((λ row, (claim_key row, epoch_share row)) <$> paid_rows)) as ->.
  { unfold allocation_amounts, epoch_allocations, dict_of_rows. rewrite !fold_left_fmap. done. }
  set (rows := (λ row, (claim_key row, epoch_share row)) <$> paid_rows).
  assert (rows.*1 = claim_key <$> paid_rows) as Hfst by (unfold rows; by rewrite <- list_fmap_compose).
  unfold dict_get. destruct (dict_of_rows rows !! claim_key s) as [a|] eqn:E.
  - assert (claim_key s ∈ rows.*1) as Hk by (apply dict_of_rows_dom; eauto).
    rewrite Hfst in Hk. apply list_elem_of_fmap in Hk as (s' & Heq & Hs').
    assert (s = s') as <-.
    { apply (NoDup_fmap_inj_elem claim_key states); [done|done| |done].
      by apply paid_rows_elem in Hs' as [_ [? _]%open_rows_elem]. }
    rewrite (dict_of_rows_lookup rows _ (epoch_share s)) in E; [by injection E| |].
    + rewrite Hfst. apply (sorted_unique_true (claim_key <$> paid_rows)). rewrite <- epoch_claim_digests.
      apply epoch_allocations_unique.
    + apply list_elem_of_fmap. by exists s.
  - simpl. pose proof (epoch_share_nonneg s Hs). destruct (decide (epoch_share s = 0)) as [|Hne]; [done|exfalso].
    assert (is_Some (dict_of_rows rows !! claim_key s)) as [? ?]; [|congruence].
    apply dict_of_rows_dom. rewrite Hfst. apply list_elem_of_fmap_2, paid_rows_elem. split; [lia|].
    apply open_rows_elem. split; [done|]. destruct (decide (db_status (ds_balance s) = "open")); [done|].
    by rewrite epoch_share_closed in Hne.
Qed.

Lemma states_by_claim_lookup s : s ∈ states → states_by_claim (sorted_by claim_key states) !! claim_key s = Some s.
Proof.
  intros Hs. apply fold_insert_lookup; by rewrite sorted_by_perm.
Qed.

(** What the epoch does to one claim state. *)
Definition settled (s : DebtClaimState) : DebtClaimState :=
  if epoch_share s =? 0 then s
  else {| ds_claim := ds_claim s; ds_balance := paid_balance (ds_balance s) (epoch_share s) block |}.

Context (Hinv : Forall (λ s, balance_inv (ds_claim s) (ds_balance s)) states) (Hblock : 0 ≤ block).

Lemma settled_claim s : ds_claim (settled s) = ds_claim s.
Proof. unfold settled. by destruct (_ =? 0). Qed.

Lemma settled_key s : claim_key (settled s) = claim_key s.
Proof. unfold claim_key. by rewrite settled_claim. Qed.

Lemma settled_paid s : db_paid_units (ds_balance (settled s)) = db_paid_units (ds_balance s) + epoch_share s.
Proof. unfold settled. destruct (Z.eqb_spec (epoch_share s) 0) as [->|]; simpl; lia. Qed.

Lemma settled_remaining s : remaining (settled s) = remaining s - epoch_share s.
Proof. unfold settled, remaining. destruct (Z.eqb_spec (epoch_share s) 0) as [->|]; simpl; lia. Qed.

(** A claim with a share is open, live and can be paid. *)
Lemma settled_pay s :
  s ∈ states → epoch_share s ≠ 0 →
  pay_claim_balance (ds_claim s) (ds_balance s) (PInt (epoch_share s)) (PInt block)
    = Ok (paid_balance (ds_balance s) (epoch_share s) block).
Proof.
  intros Hs Hne. pose proof (epoch_share_nonneg s Hs). pose proof (state_wf_elem s Hs) as Hw.
  destruct (decide (db_status (ds_balance s) = "open")) as [Ho|Ho]; [|by rewrite epoch_share_closed in Hne].
  assert (s ∈ open_rows) as Hopen by by apply open_rows_elem. pose proof (epoch_share_bounds s Hopen).
  rewrite Forall_forall in Hchecks, Hinv. specialize (Hinv s Hs).
  specialize (Hchecks s Hs). apply check_epoch_state_Ok in Hchecks as [_ Hc].
  apply pay_claim_balance_Ok; [apply Hw|]. split; [by apply state_wf_linked|]. split; [done|].
  exists (epoch_share s), block. unfold live_at, remaining in *. specialize (Hc Ho).
  split_and!; try done; try lia. intros _. by apply Hinv.
Qed.

Lemma settled_inv s : s ∈ states → balance_inv (ds_claim s) (ds_balance (settled s)).
Proof.
  intros Hs. pose proof Hinv as Hi. rewrite Forall_forall in Hi. specialize (Hi s Hs).
  pose proof (settled_pay s Hs) as Hpay. unfold settled.
  destruct (Z.eqb_spec (epoch_share s) 0) as [|Hne]; [done|].
  eapply balance_step_inv; [|exact Hi|eapply step_pay, Hpay, Hne].
  destruct (state_wf_elem s Hs) as [Hc _]. apply Hc.
Qed.

Lemma apply_row_settled s :
  s ∈ states → apply_row (allocation_amounts epoch_allocations) block s = Ok (settled s).
Proof.
  intros Hs. pose proof (settled_inv s Hs) as (_ & Hst & _). unfold apply_row.
  rewrite allocation_amounts_get by done.
  assert ((if epoch_share s =? 0 then Ok (ds_balance s)
    else pay_claim_balance (ds_claim s) (ds_balance s) (PInt (epoch_share s)) (PInt block))
    = Ok (ds_balance (settled s))) as ->.
  { unfold settled. destruct (Z.eqb_spec (epoch_share s) 0); [done|]. by apply settled_pay. }
  cbn [bind]. rewrite Hst. f_equal. rewrite <- settled_claim. by destruct (settled s).
Qed.

Lemma shares_total : Zsum (epoch_share <$> sorted_by claim_key states) = epoch_payout.
Proof.
  rewrite <- epoch_shares_sum. unfold open_rows.
  assert (∀ l, (∀ s, s ∈ l → s ∈ states) →
    Zsum (epoch_share <$> filter is_open l) = Zsum (epoch_share <$> l)) as Hl.
  { induction l as [|s l IH]; intros Hin; [done|]. rewrite filter_cons.
    assert (Zsum (epoch_share <$> filter is_open l) = Zsum (epoch_share <$> l)) as IH' by (apply IH; set_solver).
    case_decide as Ho; csimpl; rewrite ?Zsum_cons, IH'; [done|].
    rewrite epoch_share_closed; [done|set_solver|]. by rewrite <- is_open_status. }
  symmetry. apply Hl. intros s. by rewrite sorted_by_perm.
Qed.

(** The application of the epoch's own projection succeeds and pays every
    claim its share. *)
Lemma apply_epoch pd :
  apply_debt_epoch_projection states (epoch_projection pd) = Ok (settled <$> sorted_by claim_key states).
Proof.
  unfold apply_debt_epoch_projection.
  replace (raise_if (negb (bool_decide (_ = _))) _) with (Ok tt) by (by rewrite bool_decide_eq_true_2).
  cbn [bind]. replace (forM_ _ _) with (Ok tt).
  2: { symmetry. apply forM_Ok, Forall_fmap, Forall_forall. intros s Hs.
       pose proof Hs as [_ Hopen]%paid_rows_elem. pose proof Hopen as [Hin Ho]%open_rows_elem.
       pose proof (epoch_share_bounds s Hopen) as [Hb _]. apply raise_if_Ok.
       change (da_claim_digest (epoch_allocation s)) with (claim_key s).
       rewrite states_by_claim_lookup by done. unfold is_open. rewrite Ho.
       cbn [da_hotkey da_units epoch_allocation]. rewrite !bool_decide_eq_true_2 by done.
       apply Z.ltb_ge. apply Hb. }
  cbn [bind]. rewrite (mapM_fmap _ settled); [|intros s; rewrite sorted_by_perm; apply apply_row_settled].
  cbn [bind]. rewrite <- list_fmap_compose.
  rewrite (Zsum_fmap_ext _ epoch_share).
  - rewrite shares_total. change (dp_payout_units _) with epoch_payout. pass_guard. done.
  - intros s. rewrite sorted_by_perm. intros Hs. cbn [compose].
    rewrite settled_key, states_by_claim_lookup, settled_paid by done. lia.
Qed.

Lemma projected_epoch_Ok d :
  project_debt_epoch p (PInt block) states = Ok d ↔
  ∃ pd, FiniteDebtPolicyManifest_digest p = Ok pd ∧ digest_ok pd ∧
    NoDup (state_digests) ∧ Forall digest_ok state_digests ∧ d = epoch_projection pd.
Proof.
  unfold project_debt_epoch. fd_run. pass_guard.
  replace (forM_ _ _) with (Ok tt).
  2: { symmetry. apply forM_Ok. by rewrite sorted_by_perm. }
  cbn [bind]. pose proof epoch_allocations_init as Ha. pose proof epoch_by_hotkey_ok as Hb.
  apply weight_rows_init in Hb. pose proof allocations_covered as Hc.
  unfold paid_rows, epoch_share, open_rows, epoch_capacity in Ha. rewrite Ha. clear Ha. cbn [bind].
  unfold epoch_by_hotkey, epoch_reserve, epoch_payout, epoch_capacity, epoch_total, open_rows, remaining in Hb.
  rewrite Hb. clear Hb. cbn [bind]. rewrite bind_Ok. apply exist_proper. intros pd. rewrite bind_Ok.
  split.
  - intros (Hpd & r & Hr & Hd). split; [done|].
    assert (digest_ok pd) as Hok.
    { unfold DebtEpochProjection_init in Hr. apply bind_Ok in Hr as (? & [[= ->] ?]%FD_digest_Ok & _). done. }
    apply DebtEpochProjection_init_epoch in Hr as (Hnd & Hds & ->); [|done..].
    split_and!; try done. inv_ok Hd. done.
  - intros (Hpd & Hok & Hnd & Hds & ->). split; [done|].
    exists (epoch_projection pd). split; [by apply DebtEpochProjection_init_epoch|].
    change (dp_allocations (epoch_projection pd)) with epoch_allocations.
    unfold open_rows, remaining in Hc. rewrite Hc. done.
Qed.
End closed_form.

(** ** The projection computes the closed form *)

Lemma project_debt_epoch_Ok p eb states d :
  policy_wf p → Forall state_wf states →
  project_debt_epoch p eb states = Ok d ↔
  ∃ block pd, eb = PInt block ∧ 0 ≤ block ∧ NoDup (claim_key <$> states) ∧
    Forall (λ s, check_epoch_state p block s = Ok tt) states ∧
    FiniteDebtPolicyManifest_digest p = Ok pd ∧ digest_ok pd ∧
    NoDup (state_digests states) ∧ Forall digest_ok (state_digests states) ∧
    d = epoch_projection p block states pd.
Proof.
  intros Hp Hwf. split.
  - intros Hd. pose proof Hd as Hd'. unfold project_debt_epoch in Hd'.
    apply bind_Ok in Hd' as (block & Hb & Hd'). apply FD_integer_min in Hb as [-> Hb].
    apply bind_Ok in Hd' as (? & Hn & Hd'). apply raise_if_Ok in Hn. bool_prop.
    apply bind_Ok in Hd' as (? & Hc & _). apply forM_Ok in Hc. rewrite sorted_by_perm in Hc.
    apply projected_epoch_Ok in Hd as (pd & Hpd & Hok & Hnd & Hds & ->); [|done..]. by exists block, pd.
  - intros (block & pd & -> & Hb & Hk & Hc & Hpd & Hok & Hnd & Hds & ->). apply projected_epoch_Ok; try done. by exists pd.
Qed.

(** ** A run of epochs *)

(** What every stored claim state satisfies. *)
Definition ledger_inv (states : list DebtClaimState) : Prop :=
  Forall (λ s, claim_wf (ds_claim s) ∧ balance_inv (ds_claim s) (ds_balance s)) states.

(** One epoch: the states are projected at [block] and the projection is applied. *)
Definition epoch_step (p : FiniteDebtPolicyManifest) (block : Z) (states states' : list DebtClaimState) : Prop :=
  ∃ d, project_debt_epoch p (PInt block) states = Ok d ∧ apply_debt_epoch_projection states d = Ok states'.

Inductive epoch_run (p : FiniteDebtPolicyManifest) : list Z → relation (list DebtClaimState) :=
  | run_nil states : epoch_run p [] states states
  | run_cons block blocks s1 s2 s3 :
      epoch_step p block s1 s2 → epoch_run p blocks s2 s3 → epoch_run p (block :: blocks) s1 s3.

(** The principal the open claims still owe. *)
Definition owed (states : list DebtClaimState) : Z := Zsum (remaining <$> filter is_open states).

Definition paid_total (states : list DebtClaimState) : Z :=
  Zsum ((λ s, db_paid_units (ds_balance s)) <$> states).

Lemma ledger_inv_wf states : ledger_inv states → Forall state_wf states.
Proof.
  intros Hi. eapply Forall_impl; [exact Hi|]. intros s (Hc & Hb & Hs & _). split; [done|]. split; [done|]. rewrite Hs. by destruct s.
Qed.

Lemma ledger_inv_balance states :
  ledger_inv states → Forall (λ s, balance_inv (ds_claim s) (ds_balance s)) states.
Proof. intros Hi. eapply Forall_impl; [exact Hi|]. by intros s [_ ?]. Qed.

Lemma filter_perm_open l k : l ≡ₚ k → filter is_open l ≡ₚ filter is_open k.
Proof. intros Hp. by rewrite Hp. Qed.

Lemma owed_sorted states : epoch_total states = owed states.
Proof. unfold epoch_total, owed, open_rows. by rewrite (filter_perm_open _ _ (sorted_by_perm claim_key states)). Qed.

(** A closed balance of a well-formed state owes nothing. *)
Lemma owed_all states : Forall state_wf states → owed states = Zsum (remaining <$> states).
Proof.
  unfold owed. induction 1 as [|s l Hs Hl IH]; [done|]. rewrite filter_cons.
  case_decide as Ho; csimpl; rewrite !Zsum_cons, IH; [done|]. destruct Hs as (_ & Hb & _).
  rewrite is_open_status in Ho. destruct (balance_wf_closed _ Hb Ho) as [Hr _]. unfold remaining. lia.
Qed.

(** One epoch keeps the ledger's invariant and moves exactly
    [min(capacity, owed)] units from owed to paid. *)
Lemma epoch_step_spec p block states states' :
  policy_wf p → ledger_inv states → epoch_step p block states states' →
  ledger_inv states' ∧ claim_key <$> states' = claim_key <$> sorted_by claim_key states ∧
  owed states' = owed states - Z.min (reference_claim_pool_units p) (owed states) ∧
  paid_total states' = paid_total states + Z.min (reference_claim_pool_units p) (owed states).
Proof.
  intros Hp Hinv (d & Hd & Ha). pose proof (ledger_inv_wf _ Hinv) as Hwf.
  pose proof (ledger_inv_balance _ Hinv) as Hbal.
  apply project_debt_epoch_Ok in Hd as (b & pd & [= <-] & Hb & Hk & Hc & _ & _ & _ & _ & ->); [|done..].
  rewrite apply_epoch in Ha by done. injection Ha as <-.
  assert (ledger_inv (settled p block states <$> sorted_by claim_key states)) as Hinv'.
  { apply Forall_fmap, Forall_forall. intros s. rewrite sorted_by_perm. intros Hs. simpl.
    rewrite settled_claim. split; [|by apply settled_inv].
    unfold ledger_inv in Hinv. rewrite Forall_forall in Hinv. by apply Hinv. }
  split; [done|]. split.
  { rewrite <- list_fmap_compose. apply list_fmap_ext. intros ? s _. apply settled_key. }
  rewrite (owed_all (_ <$> _)) by by apply ledger_inv_wf.
  unfold paid_total. rewrite <- !list_fmap_compose. rewrite <- owed_sorted.
  change (Z.min _ _) with (epoch_payout p states). rewrite <- (shares_total p block states) by done. split.
  - rewrite (Zsum_fmap_ext _ (λ s, remaining s + -1 * epoch_share p states s));
      [|intros; simpl; rewrite settled_remaining; lia].
    rewrite Zsum_fmap_add, Zsum_fmap_mul. rewrite owed_sorted, owed_all by done. rewrite (sorted_by_perm _ states) at 1. lia.
  - rewrite (Zsum_fmap_ext _ (λ s, db_paid_units (ds_balance s) + epoch_share p states s));
      [|intros; simpl; apply settled_paid].
    rewrite Zsum_fmap_add. by rewrite (sorted_by_perm _ states) at 1.
Qed.

Lemma owed_nonneg states : ledger_inv states → 0 ≤ owed states.
Proof.
  intros Hi%ledger_inv_wf. rewrite owed_all by done. apply Zsum_nonneg, Forall_fmap.
  eapply Forall_impl; [exact Hi|]. intros s (_ & Hb & _). apply Hb.
Qed.

(** [n] epochs drain [n] times the claim pool, or everything. *)
Lemma epoch_run_drains p blocks states states' :
  policy_wf p → ledger_inv states → epoch_run p blocks states states' →
  ledger_inv states' ∧
  owed states' = Z.max 0 (owed states - Z.of_nat (length blocks) * reference_claim_pool_units p).
Proof.
  intros Hp Hi Hr. induction Hr as [states|block blocks s1 s2 s3 Hstep Hr IH].
  - split; [done|]. pose proof (owed_nonneg states Hi). simpl. lia.
  - apply epoch_step_spec in Hstep as (Hi2 & _ & Ho & _); [|done..].
    destruct (IH Hi2) as [Hi3 Ho3]. split; [done|]. rewrite Ho3, Ho. simpl length.
    pose proof (epoch_capacity_bounds p Hp) as Hcap. unfold epoch_capacity in Hcap.
    pose proof (owed_nonneg s1 Hi). rewrite Nat2Z.inj_succ. nia.
Qed.
End epoch.
