(* ===== verification/FiniteDebtClaims.v ===== *)
(** * Issuing claims, and reading records back

    The issuance arithmetic of [finite_debt.py] (time multiplier, principal),
    what an issued claim satisfies, and that every record is read back from the
    dictionary it is written to. *)

From Stdlib Require Import ZArith Lia Ascii.
From stdpp Require Import base tactics numbers list strings gmap sorting.
From S2P Require Import Prelude PyValue Sha256 Identity Strict Apportion Decimal FiniteDebt FiniteDebtBalance FiniteDebtPolicy.
From S2P Require Import FiniteDebtEpoch.

(** ** The rational time multiplier *)

(** [1 + beta * delta / (delta + tau)] in parts per million, rounded down. *)
Definition time_multiplier (p : FiniteDebtPolicyManifest) (delta : Z) : Z :=
  PPM + fp_beta_ppm p * delta / (delta + fp_tau_blocks p).

Lemma time_multiplier_bounds p delta :
  policy_wf p → 0 ≤ delta → PPM ≤ time_multiplier p delta ≤ PPM + fp_beta_ppm p.
Proof.
  intros Hp Hd. pose proof (pw_beta p Hp). pose proof (pw_tau p Hp). unfold time_multiplier.
  assert (0 ≤ fp_beta_ppm p * delta / (delta + fp_tau_blocks p)) by (apply Z.div_pos; nia).
  assert (fp_beta_ppm p * delta / (delta + fp_tau_blocks p) ≤ fp_beta_ppm p); [|lia].
  apply Z.div_le_upper_bound; nia.
Qed.

(** A longer wait never pays less. *)
Lemma time_multiplier_mono p d1 d2 :
  policy_wf p → 0 ≤ d1 ≤ d2 → time_multiplier p d1 ≤ time_multiplier p d2.
Proof.
  intros Hp Hd. pose proof (pw_beta p Hp). pose proof (pw_tau p Hp). unfold time_multiplier.
  apply Z.add_le_mono_l, Z.div_le_lower_bound; [lia|].
  set (q := fp_beta_ppm p * d1 / (d1 + fp_tau_blocks p)).
  assert ((d1 + fp_tau_blocks p) * q ≤ fp_beta_ppm p * d1) by (apply Z.mul_div_le; lia).
  assert (0 ≤ q) by (apply Z.div_pos; nia).
  assert (q ≤ fp_beta_ppm p) by (apply Z.div_le_upper_bound; nia). nia.
Qed.

(** The multiplier on every branch: neutral for a first crown, the rational
    formula otherwise, an error when the clock runs backwards; the cap check
    never fires. *)
Lemma rational_time_multiplier_spec p current prior :
  policy_wf p → 0 ≤ current → (∀ b, prior = Some b → 0 ≤ b) →
  rational_time_multiplier_ppm p (PInt current) (py_opt_int prior) =
  match prior with
  | None => Ok PPM
  | Some b => if current <? b then Raise (FD.error "prior family crown is newer than the accepted crown")
              else Ok (time_multiplier p (current - b))
  end.
Proof.
  intros Hp Hc Hpr. unfold rational_time_multiplier_ppm. fd_run. destruct prior as [b|]; [|done].
  specialize (Hpr b eq_refl). cbn [py_opt_int is_none]. fd_run.
  destruct (Z.ltb_spec current b); cbn [raise_if bind]; [done|].
  fold (time_multiplier p (current - b)).
  pose proof (time_multiplier_bounds p (current - b) Hp ltac:(lia)). pass_guard. done.
Qed.

(** ** Campaigns of a policy *)

Lemma campaign_shares_eq p ids :
  NoDup ids → fp_campaign_budget_shares p = equal_shares ids →
  campaign_shares p = dict_of_rows ((λ s, (cbs_campaign_id s, cbs_share_ppm s)) <$> equal_shares ids).
Proof. intros Hnd E. unfold campaign_shares, dict_of_rows. by rewrite E, fold_left_fmap. Qed.

Lemma find_family_Ok rows family campaign :
  find_family rows family = Ok campaign →
  ∃ row, row ∈ rows ∧ rfc_family_id row = family ∧ rfc_campaign_id row = campaign.
Proof.
  induction rows as [|row rows IH]; simpl; [done|]. case_bool_decide.
  - intros [= <-]. exists row. split_and!; try done. left.
  - intros Hf. destruct (IH Hf) as (r & ? & ? & ?). exists r. split_and!; try done. by right.
Qed.

Lemma find_family_total rows family :
  family ∈ rfc_family_id <$> rows → ∃ campaign, find_family rows family = Ok campaign.
Proof.
  induction rows as [|row rows IH]; csimpl; [by intros ?%not_elem_of_nil|].
  case_bool_decide; [eauto|]. intros [->|Hf]%elem_of_cons; [done | by apply IH].
Qed.

(** The share of a mapped family is the equal share of its campaign. *)
Lemma campaign_share_for_family p family campaign :
  policy_wf p → digest_ok family → find_family (fp_reward_family_campaigns p) family = Ok campaign →
  campaign_share_ppm_for_family p (PStr family) = Ok (PPM / Z.of_nat (length (fp_campaign_budget_shares p))).
Proof.
  intros Hp Hf Hc. unfold campaign_share_ppm_for_family, campaign_for_family. fd_run. rewrite Hc. cbn [bind].
  destruct (pw_shares p Hp) as (ids & _ & Hnd & _ & _ & E).
  apply find_family_Ok in Hc as (row & Hrow & _ & <-).
  assert (rfc_campaign_id row ∈ ids) as Hin.
  { rewrite <- (cbs_campaign_id_equal_shares ids), <- E. apply (pw_campaigns p Hp).
    by apply list_elem_of_fmap_2. }
  rewrite (campaign_shares_eq p ids Hnd E), (dict_of_rows_lookup _ _ (PPM / Z.of_nat (length ids))).
  - rewrite E. unfold equal_shares. by rewrite length_fmap.
  - rewrite <- list_fmap_compose. change (fst ∘ _) with cbs_campaign_id. by rewrite cbs_campaign_id_equal_shares.
  - unfold equal_shares. rewrite <- list_fmap_compose. apply list_elem_of_fmap. by exists (rfc_campaign_id row).
Qed.

Definition campaign_share (p : FiniteDebtPolicyManifest) : Z := PPM / Z.of_nat (length (fp_campaign_budget_shares p)).
Definition campaign_pool (p : FiniteDebtPolicyManifest) : Z := reference_claim_pool_units p * campaign_share p / PPM.

Lemma campaign_share_bounds p : policy_wf p → 1 ≤ campaign_share p ≤ PPM.
Proof.
  intros Hp. destruct (pw_shares p Hp) as (ids & _ & _ & Hlen & _ & E). unfold campaign_share.
  rewrite E. unfold equal_shares. rewrite length_fmap.
  assert (length ids = 1 ∨ length ids = 2)%nat as [->| ->] by lia; by vm_compute.
Qed.

Lemma campaign_pool_pos p : policy_wf p → 0 < campaign_pool p.
Proof.
  intros Hp. pose proof (pw_pools p Hp) as Hpools. destruct (pw_shares p Hp) as (ids & _ & _ & Hlen & _ & E).
  unfold campaign_pool, campaign_share. rewrite E in *. destruct ids as [|c ids]; [simpl in Hlen; lia|].
  apply Forall_cons in Hpools as [Hc _]. unfold equal_shares. rewrite length_fmap. done.
Qed.

(** Principal of an improvement: the campaign's pool scaled by [k], the log
    units and the time multiplier, rounded down once. *)
Definition claim_principal (p : FiniteDebtPolicyManifest) (units multiplier : Z) : Z :=
  campaign_pool p * fp_k_ppm p * units * multiplier / (PPM * PPM * PPM).

Lemma claim_principal_units_spec p family units multiplier terms :
  policy_wf p → digest_ok family →
  _claim_principal_units p (PStr family) units multiplier = Ok terms ↔
  ∃ campaign, find_family (fp_reward_family_campaigns p) family = Ok campaign ∧
    0 < claim_principal p units multiplier ∧
    terms = (campaign, campaign_share p, campaign_pool p, claim_principal p units multiplier).
Proof.
  intros Hp Hf. pose proof (campaign_pool_pos p Hp) as Hpool. unfold _claim_principal_units. split.
  - intros Ht. apply bind_Ok in Ht as (campaign & Hc & Ht). unfold campaign_for_family in Hc.
    rewrite FD_digest_ok in Hc by done. cbn [bind] in Hc.
    rewrite (campaign_share_for_family p family campaign) in Ht by done. cbn [bind] in Ht.
    fold (campaign_share p) (campaign_pool p) in Ht. fold (claim_principal p units multiplier) in Ht.
    inv_ok Ht. bool_prop. exists campaign. done.
  - intros (campaign & Hc & Hpr & ->). unfold campaign_for_family at 1. fd_run. rewrite Hc. cbn [bind].
    rewrite (campaign_share_for_family p family campaign) by done. cbn [bind].
    fold (campaign_share p) (campaign_pool p). fold (claim_principal p units multiplier). pass_guard. done.
Qed.

(** ** Log units *)

Lemma log_improvement_inputs speed basis threshold units :
  log_improvement_units_ppm speed basis threshold = Ok units →
  0 < units ∧ ∃ s t, speed = PStr s ∧ threshold = PStr t ∧ decimal_ok true s ∧ decimal_ok false t.
Proof.
  unfold log_improvement_units_ppm. intros Hu. apply bind_Ok in Hu as (? & _ & Hu).
  apply bind_Ok in Hu as ([s xs] & Hs & Hu). apply bind_Ok in Hu as ([t xt] & Ht & Hu).
  do 5 (apply bind_Ok in Hu as (? & _ & Hu)). apply bind_Ok in Hu as (? & Hpos & Hu).
  apply raise_if_Ok in Hpos. bool_prop. injection Hu as <-. split; [done|]. exists s, t.
  pose proof (canonical_decimal_Ok _ _ _ _ _ Hs) as ->. pose proof (canonical_decimal_Ok _ _ _ _ _ Ht) as ->.
  unfold decimal_ok. eauto 10.
Qed.

(** ** Issuance *)

Section issuance.
Context `{Sha256}.

Definition multiplier_of (p : FiniteDebtPolicyManifest) (accepted : Z) (prior : option Z) : Z :=
  match prior with None => PPM | Some b => time_multiplier p (accepted - b) end.

Definition resets_clock (p : FiniteDebtPolicyManifest) (units : Z) : bool :=
  fp_clock_reset_threshold_log_units_ppm p <=? units.

(** The claim issued for an improvement of [units]. *)
Definition issued_claim (p : FiniteDebtPolicyManifest)
    (pd family campaign candidate evidence hotkey speed threshold : string)
    (accepted settled : Z) (prior : option Z) (units : Z) : InnovationDebtClaim :=
  {| ic_policy_digest := pd;
     ic_family_id := family;
     ic_campaign_id := campaign;
     ic_candidate_digest := candidate;
     ic_retained_evidence_digest := evidence;
     ic_hotkey := hotkey;
     ic_settled_speedup := speed;
     ic_threshold_speedup := threshold;
     ic_accepted_crown_block := accepted;
     ic_prior_accepted_crown_block := prior;
     ic_settlement_block := settled;
     ic_expires_block := settled + fp_lifetime_blocks p;
     ic_campaign_budget_ppm := campaign_share p;
     ic_reference_campaign_pool_units := campaign_pool p;
     ic_log_units_ppm := units;
     ic_time_multiplier_ppm := multiplier_of p accepted prior;
     ic_principal_units := claim_principal p units (multiplier_of p accepted prior);
     ic_resets_clock := resets_clock p units |}.

Definition prior_ok (accepted : Z) (prior : option Z) : Prop :=
  ∀ b, prior = Some b → 0 ≤ b ≤ accepted.

Lemma multiplier_of_spec p accepted prior :
  policy_wf p → 0 ≤ accepted → prior_ok accepted prior →
  rational_time_multiplier_ppm p (PInt accepted) (py_opt_int prior) = Ok (multiplier_of p accepted prior).
Proof.
  intros Hp Ha Hpr. rewrite rational_time_multiplier_spec; [|done|done|intros b Hb; by apply Hpr].
  destruct prior as [b|]; [|done]. destruct (Hpr b eq_refl). by rewrite (proj2 (Z.ltb_ge _ _)) by lia.
Qed.

Lemma multiplier_of_bounds p accepted prior :
  policy_wf p → prior_ok accepted prior → PPM ≤ multiplier_of p accepted prior ≤ PPM + fp_beta_ppm p.
Proof.
  intros Hp Hpr. destruct prior as [b|]; simpl.
  - destruct (Hpr b eq_refl). apply time_multiplier_bounds; [done | lia].
  - pose proof (pw_beta p Hp). lia.
Qed.

Lemma resets_clock_spec p units :
  policy_wf p → 0 < units → resets_family_clock p (PInt units) = Ok (resets_clock p units).
Proof.
  intros Hp Hu. unfold resets_family_clock, resets_clock. fd_run. by rewrite (proj2 (Z.ltb_lt _ _)) by done.
Qed.

(** An issued claim validates against its policy. *)
Lemma issued_claim_validates p pd family campaign candidate evidence hotkey speed threshold accepted settled prior units :
  policy_wf p → FiniteDebtPolicyManifest_digest p = Ok pd → digest_ok family →
  find_family (fp_reward_family_campaigns p) family = Ok campaign →
  log_improvement_units_ppm (PStr speed) (fp_improvement_basis p) (PStr threshold) = Ok units →
  0 ≤ accepted → prior_ok accepted prior → 0 < claim_principal p units (multiplier_of p accepted prior) →
  InnovationDebtClaim_validate_policy
    (issued_claim p pd family campaign candidate evidence hotkey speed threshold accepted settled prior units) p = Ok tt.
Proof.
  intros Hp Hpd Hf Hc Hu Ha Hpr Hpos. unfold InnovationDebtClaim_validate_policy. rewrite Hpd.
  cbn [bind issued_claim ic_policy_digest ic_settled_speedup ic_threshold_speedup ic_accepted_crown_block
       ic_prior_accepted_crown_block ic_family_id].
  pass_guard. rewrite Hu. cbn [bind]. rewrite multiplier_of_spec by done. cbn [bind].
  rewrite (proj2 (claim_principal_units_spec p family units _ _ Hp Hf)) by (exists campaign; done).
  cbn [bind]. pose proof (log_improvement_inputs _ _ _ _ Hu) as [Hupos _].
  rewrite resets_clock_spec by done. cbn. apply raise_if_Ok. bool_goal. apply eqb_true_iff. done.
Qed.

Lemma is_none_true v : is_none v = true ↔ v = PNone.
Proof. by destruct v. Qed.

Lemma multiplier_inputs p accepted v m :
  rational_time_multiplier_ppm p (PInt accepted) v = Ok m →
  0 ≤ accepted ∧ ∃ prior, v = py_opt_int prior ∧ prior_ok accepted prior.
Proof.
  unfold rational_time_multiplier_ppm. intros Hm. apply bind_Ok in Hm as (c & Hc & Hm).
  apply FD_integer_min in Hc as [[= <-] Hc]. split; [done|]. destruct (is_none v) eqn:En.
  - apply is_none_true in En as ->. by exists None.
  - inv_ok Hm. fd_facts. bool_prop. eexists (Some _). split; [done|]. intros b [= <-]. done.
Qed.

(** Issuance succeeds exactly on these inputs, with exactly this claim; the
    final re-validation never rejects. *)
Lemma issue_innovation_claim_Ok p a1 a2 a3 a4 a5 a6 a7 a8 a9 c :
  policy_wf p →
  issue_innovation_claim p a1 a2 a3 a4 a5 a6 a7 a8 a9 = Ok c ↔
  ∃ pd family campaign candidate evidence hotkey speed threshold accepted settled prior units,
    [a1; a2; a3; a4; a5; a6] = PStr <$> [family; candidate; evidence; hotkey; speed; threshold] ∧
    a7 = PInt accepted ∧ a8 = py_opt_int prior ∧ a9 = PInt settled ∧
    FiniteDebtPolicyManifest_digest p = Ok pd ∧ Forall digest_ok [pd; family; candidate; evidence] ∧
    find_family (fp_reward_family_campaigns p) family = Ok campaign ∧ hotkey_matches hotkey = true ∧
    log_improvement_units_ppm (PStr speed) (fp_improvement_basis p) (PStr threshold) = Ok units ∧
    0 ≤ accepted ≤ settled ∧ prior_ok accepted prior ∧
    0 < claim_principal p units (multiplier_of p accepted prior) ∧
    c = issued_claim p pd family campaign candidate evidence hotkey speed threshold accepted settled prior units.
Proof.
  intros Hp. unfold issue_innovation_claim. split.
  - intros Hi. apply bind_Ok in Hi as (family & [-> Hf]%FD_digest_Ok & Hi).
    apply bind_Ok in Hi as (accepted & [-> Ha]%FD_integer_min & Hi).
    apply bind_Ok in Hi as (settled & [-> Hs]%FD_integer_min & Hi).
    apply bind_Ok in Hi as (? & Hch & Hi). apply raise_if_Ok in Hch. bool_prop.
    apply bind_Ok in Hi as (units & Hu & Hi). apply bind_Ok in Hi as (m & Hm & Hi).
    pose proof (multiplier_inputs _ _ _ _ Hm) as (_ & prior & -> & Hpr).
    rewrite multiplier_of_spec in Hm by done. injection Hm as <-.
    apply bind_Ok in Hi as (terms & Ht & Hi).
    apply claim_principal_units_spec in Ht as (campaign & Hc & Hpos & ->); [|done..].
    apply bind_Ok in Hi as (pd & Hpd & Hi). apply bind_Ok in Hi as (r & Hr & Hi).
    pose proof (log_improvement_inputs _ _ _ _ Hu) as (Hupos & speed & threshold & -> & -> & _).
    rewrite resets_clock_spec in Hr by done. injection Hr as <-.
    apply bind_Ok in Hi as (claim & Hclaim & Hi). apply bind_Ok in Hi as (? & _ & [= <-]).
    apply InnovationDebtClaim_init_Ok in Hclaim as [Hrow Hwf].
    exists pd, family, campaign, (ic_candidate_digest claim), (ic_retained_evidence_digest claim), (ic_hotkey claim),
      speed, threshold, accepted, settled, prior, units.
    destruct claim; simpl in *. simplify_eq.
    repeat match goal with H : py_opt_int _ = py_opt_int _ |- _ => apply py_opt_int_inj in H as -> end.
    destruct Hwf as (W1 & W2 & W3 & W4 & W5 & W6 & _). simpl in *.
    split_and!; try done. by rewrite !Forall_cons, Forall_nil.
  - intros (pd & family & campaign & candidate & evidence & hotkey & speed & threshold & accepted & settled & prior & units
      & Hargs & -> & -> & -> & Hpd & Hds & Hc & Hh & Hu & Has & Hpr & Hpos & ->).
    simpl in Hargs. simplify_eq. rewrite !Forall_cons in Hds. destruct Hds as (Dpd & Df & Dc & De & _).
    fd_run. pass_guard. rewrite Hu. cbn [bind]. rewrite multiplier_of_spec by (done || lia). cbn [bind].
    rewrite (proj2 (claim_principal_units_spec p family units _ _ Hp Df)) by (exists campaign; done).
    cbn [bind]. rewrite Hpd. cbn [bind]. pose proof (log_improvement_inputs _ _ _ _ Hu) as (Hupos & s & t & [= <-] & [= <-] & Ds & Dt).
    rewrite resets_clock_spec by done. cbn [bind].
    set (c := issued_claim p pd family campaign candidate evidence hotkey speed threshold accepted settled prior units).
    assert (InnovationDebtClaim_init (PStr pd) (PStr family) (PStr campaign) (PStr candidate) (PStr evidence) (PStr hotkey)
      (PStr speed) (PStr threshold) (PInt accepted) (py_opt_int prior) (PInt settled) (PInt (settled + fp_lifetime_blocks p))
      (PInt (campaign_share p)) (PInt (campaign_pool p)) (PInt units) (PInt (multiplier_of p accepted prior))
      (PInt (claim_principal p units (multiplier_of p accepted prior))) (PBool (resets_clock p units)) = Ok c) as ->.
    { apply InnovationDebtClaim_init_Ok. split; [done|].
      assert (digest_ok campaign).
      { apply find_family_Ok in Hc as (row & Hrow & _ & <-). destruct (pw_mappings p Hp) as (_ & _ & _ & Hm).
        rewrite Forall_forall in Hm. by apply Hm. }
      pose proof (pw_lifetime p Hp). pose proof (campaign_share_bounds p Hp). pose proof (campaign_pool_pos p Hp).
      pose proof (multiplier_of_bounds p accepted prior Hp Hpr). pose proof (pw_beta p Hp).
      unfold claim_wf, c; simpl. split_and!; try done; try lia. }
    cbn [bind]. unfold c. by rewrite issued_claim_validates by (done || lia).
Qed.

(** What the issuance has checked of its claim. *)
Lemma issued_wf p a1 a2 a3 a4 a5 a6 a7 a8 a9 c :
  issue_innovation_claim p a1 a2 a3 a4 a5 a6 a7 a8 a9 = Ok c → claim_wf c ∧ InnovationDebtClaim_validate_policy c p = Ok tt.
Proof.
  unfold issue_innovation_claim. intros Hi. do 6 (apply bind_Ok in Hi as (? & _ & Hi)).
  apply bind_Ok in Hi as ([[[? ?] ?] ?] & _ & Hi). do 2 (apply bind_Ok in Hi as (? & _ & Hi)).
  apply bind_Ok in Hi as (c' & Hc & Hi). apply bind_Ok in Hi as ([] & Hv & [= ->]).
  split; [by apply InnovationDebtClaim_init_Ok in Hc as [_ ?] | done].
Qed.
End issuance.

(** ** Reading records back *)

Lemma FD_strict_py_dict fields row :
  sorted_str row.*1 = sorted_str fields → FD._strict fields (py_dict row) = Ok row.
Proof. apply require_exact_fields_sorted. Qed.

(** Runs the field accesses of a [from_dict] on a dictionary literal. *)
Ltac read_fields :=
  repeat (eapply bind_step; [match goal with |- row_get _ _ = Ok _ => reflexivity end |]; cbv beta).

(** Proves that a dictionary literal has exactly the declared fields. *)
Ltac same_fields := vm_compute; reflexivity.

Section round_trips.
Context `{Sha256}.

Lemma balance_roundtrip b : balance_wf b → DebtClaimBalance_from_dict (DebtClaimBalance_to_dict b) = Ok b.
Proof.
  intros Hb. unfold DebtClaimBalance_from_dict, DebtClaimBalance_to_dict.
  eapply bind_step; [apply FD_strict_py_dict; same_fields|]. read_fields. by apply DebtClaimBalance_init_Ok.
Qed.

Lemma claim_roundtrip c : claim_wf c → InnovationDebtClaim_from_dict (InnovationDebtClaim_to_dict c) = Ok c.
Proof.
  intros Hc. unfold InnovationDebtClaim_from_dict, InnovationDebtClaim_to_dict.
  eapply bind_step; [apply FD_strict_py_dict; same_fields|]. read_fields. by apply InnovationDebtClaim_init_Ok.
Qed.

Lemma state_roundtrip s : state_wf s → DebtClaimState_from_dict (DebtClaimState_to_dict s) = Ok s.
Proof.
  intros (Hc & Hb & Hs). unfold DebtClaimState_from_dict, DebtClaimState_to_dict.
  eapply bind_step; [apply FD_strict_py_dict; same_fields|]. read_fields.
  eapply bind_step; [by apply claim_roundtrip|]. read_fields. eapply bind_step; [by apply balance_roundtrip|]. done.
Qed.
End round_trips.

Section more_round_trips.
Context `{Sha256}.

Lemma share_roundtrip s : share_wf s → CampaignBudgetShare_from_dict (CampaignBudgetShare_to_dict s) = Ok s.
Proof.
  intros Hs. unfold CampaignBudgetShare_from_dict, CampaignBudgetShare_to_dict.
  eapply bind_step; [apply FD_strict_py_dict; same_fields|]. read_fields. by apply CampaignBudgetShare_init_Ok.
Qed.

Lemma mapping_roundtrip r : mapping_wf r → RewardFamilyCampaign_from_dict (RewardFamilyCampaign_to_dict r) = Ok r.
Proof.
  intros Hs. unfold RewardFamilyCampaign_from_dict, RewardFamilyCampaign_to_dict.
  eapply bind_step; [apply FD_strict_py_dict; same_fields|]. read_fields. by apply RewardFamilyCampaign_init_Ok.
Qed.

(** Reading a list of records back, element by element. *)
Lemma mapM_roundtrip {A} (read : pyval → result A) (write : A → pyval) (P : A → Prop) l :
  (∀ x, P x → read (write x) = Ok x) → Forall P l → mapM read (write <$> l) = Ok l.
Proof.
  intros Hrw Hl. apply mapM_Ok. induction Hl as [|x l Hx Hl IH]; csimpl; constructor; auto.
Qed.

Lemma policy_shares_wf p : policy_wf p → Forall share_wf (fp_campaign_budget_shares p).
Proof.
  intros Hp. destruct (pw_shares p Hp) as (ids & Hds & _ & Hlen & _ & E). rewrite E.
  apply Forall_fmap, Forall_forall. intros c Hc. rewrite Forall_forall in Hds. split; [by apply Hds|].
  cbn. assert (length ids = 1 ∨ length ids = 2)%nat as [->| ->] by lia; by vm_compute.
Qed.

Lemma policy_roundtrip p :
  policy_wf p → FiniteDebtPolicyManifest_from_dict (FiniteDebtPolicyManifest_to_dict p) = Ok p.
Proof.
  intros Hp. destruct (pw_mappings p Hp) as (_ & _ & _ & Hm). pose proof (policy_shares_wf p Hp) as Hs.
  unfold FiniteDebtPolicyManifest_from_dict, FiniteDebtPolicyManifest_to_dict.
  eapply bind_step; [apply FD_strict_py_dict; same_fields|]. read_fields.
  eapply bind_step; [reflexivity|]. read_fields. eapply bind_step; [reflexivity|].
  eapply bind_step; [exact (mapM_roundtrip _ _ _ _ share_roundtrip Hs)|].
  eapply bind_step; [exact (mapM_roundtrip _ _ _ _ mapping_roundtrip Hm)|]. cbv beta. read_fields.
  by apply FiniteDebtPolicyManifest_init_of.
Qed.
End more_round_trips.

(** ** Projections *)

Definition allocation_wf (a : DebtEpochAllocation) : Prop :=
  digest_ok (da_claim_digest a) ∧ hotkey_matches (da_hotkey a) = true ∧ 1 ≤ da_units a.

Definition weight_wf (w : DebtHotkeyWeight) : Prop :=
  hotkey_matches (hw_hotkey w) = true ∧ 1 ≤ hw_units w ≤ REFERENCE_EPOCH_UNITS.

Lemma allocation_roundtrip a :
  allocation_wf a → DebtEpochAllocation_from_dict (DebtEpochAllocation_to_dict a) = Ok a.
Proof.
  intros (Hd & Hh & Hu). unfold DebtEpochAllocation_from_dict, DebtEpochAllocation_to_dict.
  eapply bind_step; [apply FD_strict_py_dict; same_fields|]. read_fields.
  unfold DebtEpochAllocation_init. fd_run. by destruct a.
Qed.

Lemma weight_roundtrip w : weight_wf w → DebtHotkeyWeight_from_dict (DebtHotkeyWeight_to_dict w) = Ok w.
Proof.
  intros (Hh & Hu). unfold DebtHotkeyWeight_from_dict, DebtHotkeyWeight_to_dict.
  eapply bind_step; [apply FD_strict_py_dict; same_fields|]. read_fields.
  unfold DebtHotkeyWeight_init. fd_run. by destruct w.
Qed.

Lemma require_strs_py_strs l : require_strs (PStr <$> l) = Ok l.
Proof. unfold require_strs. apply mapM_Ok. induction l; csimpl; by constructor. Qed.

(** The constructor keeps its arguments. *)
Lemma DebtEpochProjection_init_args a1 a2 a3 a4 a5 a6 a7 a8 ins allocs ws d :
  DebtEpochProjection_init a1 a2 a3 a4 a5 a6 a7 a8 ins allocs ws = Ok d →
  a1 = PStr (dp_policy_digest d) ∧ a2 = PInt (dp_effective_block d) ∧ a3 = dp_reference_epoch_units d ∧
  a4 = PInt (dp_claim_pool_capacity_units d) ∧ a5 = PInt (dp_total_remaining_units d) ∧
  a6 = PInt (dp_payout_units d) ∧ a7 = PStr (dp_reserve_hotkey d) ∧ a8 = PInt (dp_reserve_units d) ∧
  ins = dp_input_state_digests d ∧ allocs = dp_allocations d ∧ ws = dp_weights d.
Proof. unfold DebtEpochProjection_init. intros Hi. inv_ok Hi. subst d. fd_facts. done. Qed.

Lemma projection_roundtrip a1 a2 a3 a4 a5 a6 a7 a8 ins allocs ws d :
  DebtEpochProjection_init a1 a2 a3 a4 a5 a6 a7 a8 ins allocs ws = Ok d →
  Forall allocation_wf allocs → Forall weight_wf ws →
  DebtEpochProjection_from_dict (DebtEpochProjection_to_dict d) = Ok d.
Proof.
  intros Hi Ha Hw. pose proof (DebtEpochProjection_init_args _ _ _ _ _ _ _ _ _ _ _ _ Hi) as
    (-> & -> & -> & -> & -> & -> & -> & -> & -> & -> & ->).
  unfold DebtEpochProjection_from_dict, DebtEpochProjection_to_dict.
  eapply bind_step; [apply FD_strict_py_dict; same_fields|]. read_fields.
  eapply bind_step; [reflexivity|]. read_fields. eapply bind_step; [reflexivity|]. read_fields.
  eapply bind_step; [reflexivity|].
  eapply bind_step; [exact (mapM_roundtrip _ _ _ _ allocation_roundtrip Ha)|].
  eapply bind_step; [exact (mapM_roundtrip _ _ _ _ weight_roundtrip Hw)|].
  eapply bind_step; [apply require_strs_py_strs|]. cbv beta. read_fields. done.
Qed.
