(* ===== verification/Composition.v ===== *)
(** * Incentive composition (src/optima/incentive_composition.py)

    The reviewed-discovery debt class and the two-class epoch.  Conventions are
    those of the finite-debt model: [X_init] is the constructor with its
    [__post_init__], [type(x) is C] checks are types. *)

From Stdlib Require Import ZArith Lia Ascii.
From stdpp Require Import base tactics numbers list strings gmap sorting.
From S2P Require Import Prelude PyValue Sha256 Identity Strict Decimal Apportion FiniteDebt.

(** ** Constants *)

Definition COMPOSITION_POLICY_SCHEMA_VERSION : Z := 1.
Definition COMPOSITION_POLICY_VERSION : string := "optima.incentive-composition.v1".
Definition DISCOVERY_BOUNTY_ONLY : string := "bounty_only".
Definition DISCOVERY_REGISTERED_PROMOTION : string := "registered_promotion".
Definition DISCOVERY_DECISIONS : list string := [DISCOVERY_BOUNTY_ONLY; DISCOVERY_REGISTERED_PROMOTION].
Definition DISCOVERY_BALANCE_STATUSES : list string := ["open"; "paid"; "expired"; "cancelled"].

(** ** The module's validators *)

Module IC.
Definition error (msg : string) : pyexn := Exn IncentiveCompositionError msg.

Definition _integer (minimum maximum : option Z) (v : pyval) : result Z :=
  require_int IncentiveCompositionError minimum maximum v.

Definition _digest (v : pyval) : result string := require_digest IncentiveCompositionError false false v.

Definition _hotkey (v : pyval) : result string :=
  match v with
  | PStr s => if hotkey_matches s then Ok s else Raise (error "is malformed")
  | _ => Raise (error "is malformed")
  end.

Definition _strict (fields : list string) (v : pyval) : result (list (string * pyval)) :=
  require_exact_fields IncentiveCompositionError fields true v.

Definition _reason (v : pyval) : result string :=
  match v with
  | PStr s =>
      if bool_decide (s = "") || (2048 <? str_len s) || has_control_char s
      then Raise (error "is malformed") else Ok s
  | _ => Raise (error "is malformed")
  end.
End IC.

#[global] Arguments IC._integer : simpl never.
#[global] Arguments IC._digest : simpl never.
#[global] Arguments IC._hotkey : simpl never.
#[global] Arguments IC._strict : simpl never.
#[global] Arguments IC._reason : simpl never.

(** ** The composition policy *)

Record IncentiveCompositionPolicyManifest := {
  cp_innovation_policy_digest : string;
  cp_selection_report_digest : string;
  cp_reserve_ppm : Z;
  cp_epoch_blocks : Z;
  cp_discovery_cap_units : Z;
  cp_per_award_principal_cap_epochs : Z;
  cp_discovery_lifetime_blocks : Z;
  cp_schema_version : pyval;
  cp_policy_version : string
}.

Definition IncentiveCompositionPolicyManifest_init
    (innovation_policy_digest selection_report_digest reserve_ppm epoch_blocks discovery_cap_units
     per_award_principal_cap_epochs discovery_lifetime_blocks schema_version policy_version : pyval)
    : result IncentiveCompositionPolicyManifest :=
  let! innovation_policy_digest := IC._digest innovation_policy_digest in
  let! selection_report_digest := IC._digest selection_report_digest in
  let! reserve := IC._integer (Some 0) (Some (PPM - 1)) reserve_ppm in
  let! epoch_blocks := IC._integer (Some 1) None epoch_blocks in
  let! discovery_cap_units := IC._integer (Some 1) (Some (PPM - reserve)) discovery_cap_units in
  let! per_award := IC._integer (Some 1) None per_award_principal_cap_epochs in
  let! lifetime := IC._integer (Some 1) None discovery_lifetime_blocks in
  do! raise_if (negb (py_eq_int schema_version COMPOSITION_POLICY_SCHEMA_VERSION))
        (IC.error "composition policy schema is unsupported") ;;
  do! raise_if (negb (py_eq_str policy_version COMPOSITION_POLICY_VERSION))
        (IC.error "composition policy version is unsupported") ;;
  let! version := require_str (IC.error "composition policy version is unsupported") policy_version in
  Ok {| cp_innovation_policy_digest := innovation_policy_digest;
        cp_selection_report_digest := selection_report_digest;
        cp_reserve_ppm := reserve;
        cp_epoch_blocks := epoch_blocks;
        cp_discovery_cap_units := discovery_cap_units;
        cp_per_award_principal_cap_epochs := per_award;
        cp_discovery_lifetime_blocks := lifetime;
        cp_schema_version := schema_version;
        cp_policy_version := version |}.

Definition reserve_floor_units (p : IncentiveCompositionPolicyManifest) : Z := cp_reserve_ppm p.

Definition discovery_principal_cap_units (p : IncentiveCompositionPolicyManifest) : Z :=
  cp_discovery_cap_units p * cp_per_award_principal_cap_epochs p.

Definition IncentiveCompositionPolicyManifest_to_row (p : IncentiveCompositionPolicyManifest) : list (string * pyval) :=
  [("innovation_policy_digest", PStr (cp_innovation_policy_digest p));
   ("selection_report_digest", PStr (cp_selection_report_digest p));
   ("reserve_ppm", PInt (cp_reserve_ppm p));
   ("epoch_blocks", PInt (cp_epoch_blocks p));
   ("discovery_cap_units", PInt (cp_discovery_cap_units p));
   ("per_award_principal_cap_epochs", PInt (cp_per_award_principal_cap_epochs p));
   ("discovery_lifetime_blocks", PInt (cp_discovery_lifetime_blocks p));
   ("schema_version", cp_schema_version p);
   ("policy_version", PStr (cp_policy_version p))].

Definition IncentiveCompositionPolicyManifest_to_dict (p : IncentiveCompositionPolicyManifest) : pyval :=
  py_dict (IncentiveCompositionPolicyManifest_to_row p).

Definition IncentiveCompositionPolicyManifest_fields : list string :=
  ["innovation_policy_digest"; "selection_report_digest"; "reserve_ppm"; "epoch_blocks"; "discovery_cap_units";
   "per_award_principal_cap_epochs"; "discovery_lifetime_blocks"; "schema_version"; "policy_version"].

Definition IncentiveCompositionPolicyManifest_from_dict (v : pyval) : result IncentiveCompositionPolicyManifest :=
  let! row := IC._strict IncentiveCompositionPolicyManifest_fields v in
  let! innovation_policy_digest := row_get row "innovation_policy_digest" in
  let! selection_report_digest := row_get row "selection_report_digest" in
  let! reserve_ppm := row_get row "reserve_ppm" in
  let! epoch_blocks := row_get row "epoch_blocks" in
  let! discovery_cap_units := row_get row "discovery_cap_units" in
  let! per_award_principal_cap_epochs := row_get row "per_award_principal_cap_epochs" in
  let! discovery_lifetime_blocks := row_get row "discovery_lifetime_blocks" in
  let! schema_version := row_get row "schema_version" in
  let! policy_version := row_get row "policy_version" in
  IncentiveCompositionPolicyManifest_init innovation_policy_digest selection_report_digest reserve_ppm
    epoch_blocks discovery_cap_units per_award_principal_cap_epochs discovery_lifetime_blocks
    schema_version policy_version.

(** ** Reviewed dispositions *)

(** On the promotion path [requested_principal_epochs] is only compared with
    [!= 0], so the record keeps whatever value compared equal. *)
Record ReviewedDiscoveryDisposition := {
  rd_policy_digest : string;
  rd_win_digest : string;
  rd_proposal_digest : string;
  rd_retained_evidence_digest : string;
  rd_review_digest : string;
  rd_hotkey : string;
  rd_win_block : Z;
  rd_authority_block : Z;
  rd_decision : string;
  rd_requested_principal_epochs : pyval;
  rd_promoted_target_digest : string
}.

Definition ReviewedDiscoveryDisposition_init
    (policy_digest win_digest proposal_digest retained_evidence_digest review_digest hotkey win_block
     authority_block decision requested_principal_epochs promoted_target_digest : pyval)
    : result ReviewedDiscoveryDisposition :=
  let! policy_digest := IC._digest policy_digest in
  let! win_digest := IC._digest win_digest in
  let! proposal_digest := IC._digest proposal_digest in
  let! retained_evidence_digest := IC._digest retained_evidence_digest in
  let! review_digest := IC._digest review_digest in
  let! hotkey := IC._hotkey hotkey in
  let! win_block := IC._integer (Some 0) None win_block in
  let! authority_block := IC._integer (Some 0) None authority_block in
  do! raise_if (authority_block <? win_block)
        (IC.error "discovery review authority predates its retained win") ;;
  let! known := py_in_strs decision DISCOVERY_DECISIONS in
  do! raise_if (negb known) (IC.error "discovery decision is unsupported") ;;
  let! decision := require_str (IC.error "discovery decision is unsupported") decision in
  let! promoted :=
    (if bool_decide (decision = DISCOVERY_BOUNTY_ONLY) then
       do! IC._integer (Some 1) None requested_principal_epochs ;;
       do! raise_if (negb (py_eq_str promoted_target_digest ""))
             (IC.error "bounty-only disposition cannot name a promoted target") ;;
       Ok ""
     else
       do! raise_if (negb (py_eq_int requested_principal_epochs 0))
             (IC.error "registered promotion cannot request discovery principal") ;;
       IC._digest promoted_target_digest) in
  Ok {| rd_policy_digest := policy_digest;
        rd_win_digest := win_digest;
        rd_proposal_digest := proposal_digest;
        rd_retained_evidence_digest := retained_evidence_digest;
        rd_review_digest := review_digest;
        rd_hotkey := hotkey;
        rd_win_block := win_block;
        rd_authority_block := authority_block;
        rd_decision := decision;
        rd_requested_principal_epochs := requested_principal_epochs;
        rd_promoted_target_digest := promoted |}.

Definition ReviewedDiscoveryDisposition_to_row (d : ReviewedDiscoveryDisposition) : list (string * pyval) :=
  [("policy_digest", PStr (rd_policy_digest d));
   ("win_digest", PStr (rd_win_digest d));
   ("proposal_digest", PStr (rd_proposal_digest d));
   ("retained_evidence_digest", PStr (rd_retained_evidence_digest d));
   ("review_digest", PStr (rd_review_digest d));
   ("hotkey", PStr (rd_hotkey d));
   ("win_block", PInt (rd_win_block d));
   ("authority_block", PInt (rd_authority_block d));
   ("decision", PStr (rd_decision d));
   ("requested_principal_epochs", rd_requested_principal_epochs d);
   ("promoted_target_digest", PStr (rd_promoted_target_digest d))].

Definition ReviewedDiscoveryDisposition_to_dict (d : ReviewedDiscoveryDisposition) : pyval :=
  py_dict (ReviewedDiscoveryDisposition_to_row d).

Definition ReviewedDiscoveryDisposition_fields : list string :=
  ["policy_digest"; "win_digest"; "proposal_digest"; "retained_evidence_digest"; "review_digest"; "hotkey";
   "win_block"; "authority_block"; "decision"; "requested_principal_epochs"; "promoted_target_digest"].

Definition ReviewedDiscoveryDisposition_from_dict (v : pyval) : result ReviewedDiscoveryDisposition :=
  let! row := IC._strict ReviewedDiscoveryDisposition_fields v in
  let! policy_digest := row_get row "policy_digest" in
  let! win_digest := row_get row "win_digest" in
  let! proposal_digest := row_get row "proposal_digest" in
  let! retained_evidence_digest := row_get row "retained_evidence_digest" in
  let! review_digest := row_get row "review_digest" in
  let! hotkey := row_get row "hotkey" in
  let! win_block := row_get row "win_block" in
  let! authority_block := row_get row "authority_block" in
  let! decision := row_get row "decision" in
  let! requested_principal_epochs := row_get row "requested_principal_epochs" in
  let! promoted_target_digest := row_get row "promoted_target_digest" in
  ReviewedDiscoveryDisposition_init policy_digest win_digest proposal_digest retained_evidence_digest
    review_digest hotkey win_block authority_block decision requested_principal_epochs promoted_target_digest.

(** ** Discovery claims *)

Record DiscoveryDebtClaim := {
  dc_policy_digest : string;
  dc_disposition_digest : string;
  dc_proposal_digest : string;
  dc_retained_evidence_digest : string;
  dc_review_digest : string;
  dc_hotkey : string;
  dc_awarded_block : Z;
  dc_expires_block : Z;
  dc_requested_principal_epochs : Z;
  dc_capped_principal_epochs : Z;
  dc_principal_units : Z
}.

Definition DiscoveryDebtClaim_init
    (policy_digest disposition_digest proposal_digest retained_evidence_digest review_digest hotkey
     awarded_block expires_block requested_principal_epochs capped_principal_epochs principal_units : pyval)
    : result DiscoveryDebtClaim :=
  let! policy_digest := IC._digest policy_digest in
  let! disposition_digest := IC._digest disposition_digest in
  let! proposal_digest := IC._digest proposal_digest in
  let! retained_evidence_digest := IC._digest retained_evidence_digest in
  let! review_digest := IC._digest review_digest in
  let! hotkey := IC._hotkey hotkey in
  let! awarded := IC._integer (Some 0) None awarded_block in
  let! expires := IC._integer (Some 1) None expires_block in
  let! requested := IC._integer (Some 1) None requested_principal_epochs in
  let! capped := IC._integer (Some 1) None capped_principal_epochs in
  let! principal := IC._integer (Some 1) None principal_units in
  do! raise_if ((expires <=? awarded) || (requested <? capped))
        (IC.error "discovery claim lifetime or cap is invalid") ;;
  Ok {| dc_policy_digest := policy_digest;
        dc_disposition_digest := disposition_digest;
        dc_proposal_digest := proposal_digest;
        dc_retained_evidence_digest := retained_evidence_digest;
        dc_review_digest := review_digest;
        dc_hotkey := hotkey;
        dc_awarded_block := awarded;
        dc_expires_block := expires;
        dc_requested_principal_epochs := requested;
        dc_capped_principal_epochs := capped;
        dc_principal_units := principal |}.

Definition settlement_block (c : DiscoveryDebtClaim) : Z := dc_awarded_block c.

Definition DiscoveryDebtClaim_to_row (c : DiscoveryDebtClaim) : list (string * pyval) :=
  [("policy_digest", PStr (dc_policy_digest c));
   ("disposition_digest", PStr (dc_disposition_digest c));
   ("proposal_digest", PStr (dc_proposal_digest c));
   ("retained_evidence_digest", PStr (dc_retained_evidence_digest c));
   ("review_digest", PStr (dc_review_digest c));
   ("hotkey", PStr (dc_hotkey c));
   ("awarded_block", PInt (dc_awarded_block c));
   ("expires_block", PInt (dc_expires_block c));
   ("requested_principal_epochs", PInt (dc_requested_principal_epochs c));
   ("capped_principal_epochs", PInt (dc_capped_principal_epochs c));
   ("principal_units", PInt (dc_principal_units c))].

Definition DiscoveryDebtClaim_to_dict (c : DiscoveryDebtClaim) : pyval := py_dict (DiscoveryDebtClaim_to_row c).

Definition DiscoveryDebtClaim_fields : list string :=
  ["policy_digest"; "disposition_digest"; "proposal_digest"; "retained_evidence_digest"; "review_digest";
   "hotkey"; "awarded_block"; "expires_block"; "requested_principal_epochs"; "capped_principal_epochs";
   "principal_units"].

Definition DiscoveryDebtClaim_from_dict (v : pyval) : result DiscoveryDebtClaim :=
  let! row := IC._strict DiscoveryDebtClaim_fields v in
  let! policy_digest := row_get row "policy_digest" in
  let! disposition_digest := row_get row "disposition_digest" in
  let! proposal_digest := row_get row "proposal_digest" in
  let! retained_evidence_digest := row_get row "retained_evidence_digest" in
  let! review_digest := row_get row "review_digest" in
  let! hotkey := row_get row "hotkey" in
  let! awarded_block := row_get row "awarded_block" in
  let! expires_block := row_get row "expires_block" in
  let! requested_principal_epochs := row_get row "requested_principal_epochs" in
  let! capped_principal_epochs := row_get row "capped_principal_epochs" in
  let! principal_units := row_get row "principal_units" in
  DiscoveryDebtClaim_init policy_digest disposition_digest proposal_digest retained_evidence_digest
    review_digest hotkey awarded_block expires_block requested_principal_epochs capped_principal_epochs
    principal_units.

Section composition.
Context `{Sha256}.

Definition IncentiveCompositionPolicyManifest_digest (p : IncentiveCompositionPolicyManifest) : result string :=
  canonical_digest "optima.incentive-composition.policy" (IncentiveCompositionPolicyManifest_to_dict p) (PInt 1).

Definition validate_innovation_policy (p : IncentiveCompositionPolicyManifest) (policy : FiniteDebtPolicyManifest)
    : result unit :=
  let! digest := FiniteDebtPolicyManifest_digest policy in
  raise_if (negb (bool_decide (digest = cp_innovation_policy_digest p))
            || negb (fp_reserve_ppm policy =? cp_reserve_ppm p)
            || negb (fp_epoch_blocks policy =? cp_epoch_blocks p))
    (IC.error "composition policy differs from its innovation policy").

Definition ReviewedDiscoveryDisposition_digest (d : ReviewedDiscoveryDisposition) : result string :=
  canonical_digest "optima.incentive-composition.discovery-disposition"
    (ReviewedDiscoveryDisposition_to_dict d) (PInt 1).

(** [ReviewedDiscoveryDisposition.validate_policy] *)
Definition disposition_validate_policy (d : ReviewedDiscoveryDisposition) (p : IncentiveCompositionPolicyManifest)
    : result unit :=
  let! digest := IncentiveCompositionPolicyManifest_digest p in
  raise_if (negb (bool_decide (rd_policy_digest d = digest))) (IC.error "disposition policy digest differs").

Definition review_discovery_disposition (p : IncentiveCompositionPolicyManifest)
    (win_digest proposal_digest retained_evidence_digest review_digest hotkey win_block authority_block
     decision requested_principal_epochs promoted_target_digest : pyval) : result ReviewedDiscoveryDisposition :=
  let! digest := IncentiveCompositionPolicyManifest_digest p in
  let! result := ReviewedDiscoveryDisposition_init (PStr digest) win_digest proposal_digest
    retained_evidence_digest review_digest hotkey win_block authority_block decision
    requested_principal_epochs promoted_target_digest in
  do! disposition_validate_policy result p ;;
  Ok result.

Definition DiscoveryDebtClaim_digest (c : DiscoveryDebtClaim) : string :=
  digest_of "optima.incentive-composition.discovery-claim" (DiscoveryDebtClaim_to_dict c).

(** The second half of [DiscoveryDebtClaim.validate_policy], for a claim checked
    together with its disposition. *)
Definition claim_validate_disposition (c : DiscoveryDebtClaim) (p : IncentiveCompositionPolicyManifest)
    (d : ReviewedDiscoveryDisposition) : result unit :=
  do! disposition_validate_policy d p ;;
  do! raise_if (negb (bool_decide (rd_decision d = DISCOVERY_BOUNTY_ONLY)))
        (IC.error "discovery claim differs from its reviewed disposition") ;;
  let! digest := ReviewedDiscoveryDisposition_digest d in
  raise_if (negb (bool_decide (dc_disposition_digest c = digest))
            || negb (bool_decide (dc_proposal_digest c = rd_proposal_digest d))
            || negb (bool_decide (dc_retained_evidence_digest c = rd_retained_evidence_digest d))
            || negb (bool_decide (dc_review_digest c = rd_review_digest d))
            || negb (bool_decide (dc_hotkey c = rd_hotkey d))
            || negb (dc_awarded_block c =? rd_win_block d)
            || (dc_expires_block c <=? rd_authority_block d)
            || negb (py_eq_int (rd_requested_principal_epochs d) (dc_requested_principal_epochs c)))
    (IC.error "discovery claim differs from its reviewed disposition").

(** [DiscoveryDebtClaim.validate_policy] *)
Definition claim_validate_policy (c : DiscoveryDebtClaim) (p : IncentiveCompositionPolicyManifest)
    (disposition : option ReviewedDiscoveryDisposition) : result unit :=
  let! digest := IncentiveCompositionPolicyManifest_digest p in
  do! raise_if (negb (bool_decide (dc_policy_digest c = digest))
                || negb (dc_capped_principal_epochs c
                         =? Z.min (dc_requested_principal_epochs c) (cp_per_award_principal_cap_epochs p))
                || negb (dc_principal_units c =? dc_capped_principal_epochs c * cp_discovery_cap_units p)
                || negb (dc_expires_block c =? dc_awarded_block c + cp_discovery_lifetime_blocks p))
        (IC.error "discovery claim differs from its policy") ;;
  match disposition with
  | None => Ok tt
  | Some d => claim_validate_disposition c p d
  end.

(** [min(value, cap)] for a value that is an exact int on the bounty path. *)
Definition exact_int (v : pyval) : result Z :=
  match v with PInt z => Ok z | _ => Raise (Exn TypeError "not an exact int") end.

Definition issue_discovery_claim (p : IncentiveCompositionPolicyManifest) (d : ReviewedDiscoveryDisposition)
    : result (option DiscoveryDebtClaim) :=
  do! disposition_validate_policy d p ;;
  if bool_decide (rd_decision d = DISCOVERY_REGISTERED_PROMOTION) then Ok None
  else
    let expires_block := rd_win_block d + cp_discovery_lifetime_blocks p in
    do! raise_if (expires_block <=? rd_authority_block d)
          (IC.error "discovery bounty review is at or after the retained win expiry") ;;
    let! requested := exact_int (rd_requested_principal_epochs d) in
    let capped := Z.min requested (cp_per_award_principal_cap_epochs p) in
    let! policy_digest := IncentiveCompositionPolicyManifest_digest p in
    let! disposition_digest := ReviewedDiscoveryDisposition_digest d in
    let! result := DiscoveryDebtClaim_init (PStr policy_digest) (PStr disposition_digest)
      (PStr (rd_proposal_digest d)) (PStr (rd_retained_evidence_digest d)) (PStr (rd_review_digest d))
      (PStr (rd_hotkey d)) (PInt (rd_win_block d)) (PInt expires_block) (PInt requested) (PInt capped)
      (PInt (cp_discovery_cap_units p * capped)) in
    do! claim_validate_policy result p (Some d) ;;
    Ok (Some result).

(** ** Discovery balances *)

Record DiscoveryClaimBalance := {
  cb_claim_digest : string;
  cb_principal_units : Z;
  cb_paid_units : Z;
  cb_forfeited_units : Z;
  cb_remaining_units : Z;
  cb_status : string;
  cb_terminal_block : option Z;
  cb_terminal_reason : string
}.

Definition DiscoveryClaimBalance_init
    (claim_digest principal_units paid_units forfeited_units remaining_units status terminal_block
     terminal_reason : pyval) : result DiscoveryClaimBalance :=
  let! claim_digest := IC._digest claim_digest in
  let! principal := IC._integer (Some 1) None principal_units in
  let! paid := IC._integer (Some 0) None paid_units in
  let! forfeited := IC._integer (Some 0) None forfeited_units in
  let! remaining := IC._integer (Some 0) None remaining_units in
  do! raise_if (negb (paid + forfeited + remaining =? principal))
        (IC.error "discovery balance does not conserve principal") ;;
  let! known := py_in_strs status DISCOVERY_BALANCE_STATUSES in
  do! raise_if (negb known) (IC.error "discovery balance status is unsupported") ;;
  let! status := require_str (IC.error "discovery balance status is unsupported") status in
  let! terminal :=
    (if bool_decide (status = "open") then
       do! raise_if ((remaining <=? 0) || negb (is_none terminal_block) || negb (py_eq_str terminal_reason ""))
             (IC.error "open discovery balance has terminal state") ;;
       Ok (None, "")
     else
       do! raise_if (negb (remaining =? 0) || is_none terminal_block)
             (IC.error "terminal discovery balance is incomplete") ;;
       let! block := IC._integer (Some 0) None terminal_block in
       let! reason := IC._reason terminal_reason in
       Ok (Some block, reason)) in
  do! raise_if (bool_decide (status = "paid") && negb (paid =? principal))
        (IC.error "paid discovery claim did not consume principal") ;;
  do! raise_if ((bool_decide (status = "expired") || bool_decide (status = "cancelled")) && (forfeited <=? 0))
        (IC.error "forfeited discovery balance has no forfeited principal") ;;
  Ok {| cb_claim_digest := claim_digest;
        cb_principal_units := principal;
        cb_paid_units := paid;
        cb_forfeited_units := forfeited;
        cb_remaining_units := remaining;
        cb_status := status;
        cb_terminal_block := terminal.1;
        cb_terminal_reason := terminal.2 |}.

(** [DiscoveryClaimBalance.open] *)
Definition DiscoveryClaimBalance_open (c : DiscoveryDebtClaim) : result DiscoveryClaimBalance :=
  DiscoveryClaimBalance_init (PStr (DiscoveryDebtClaim_digest c)) (PInt (dc_principal_units c)) (PInt 0) (PInt 0)
    (PInt (dc_principal_units c)) (PStr "open") PNone (PStr "").

Definition DiscoveryClaimBalance_to_row (b : DiscoveryClaimBalance) : list (string * pyval) :=
  [("claim_digest", PStr (cb_claim_digest b));
   ("principal_units", PInt (cb_principal_units b));
   ("paid_units", PInt (cb_paid_units b));
   ("forfeited_units", PInt (cb_forfeited_units b));
   ("remaining_units", PInt (cb_remaining_units b));
   ("status", PStr (cb_status b));
   ("terminal_block", py_opt_int (cb_terminal_block b));
   ("terminal_reason", PStr (cb_terminal_reason b))].

Definition DiscoveryClaimBalance_to_dict (b : DiscoveryClaimBalance) : pyval :=
  py_dict (DiscoveryClaimBalance_to_row b).

Definition DiscoveryClaimBalance_fields : list string :=
  ["claim_digest"; "principal_units"; "paid_units"; "forfeited_units"; "remaining_units"; "status";
   "terminal_block"; "terminal_reason"].

Definition DiscoveryClaimBalance_from_dict (v : pyval) : result DiscoveryClaimBalance :=
  let! row := IC._strict DiscoveryClaimBalance_fields v in
  let! claim_digest := row_get row "claim_digest" in
  let! principal_units := row_get row "principal_units" in
  let! paid_units := row_get row "paid_units" in
  let! forfeited_units := row_get row "forfeited_units" in
  let! remaining_units := row_get row "remaining_units" in
  let! status := row_get row "status" in
  let! terminal_block := row_get row "terminal_block" in
  let! terminal_reason := row_get row "terminal_reason" in
  DiscoveryClaimBalance_init claim_digest principal_units paid_units forfeited_units remaining_units status
    terminal_block terminal_reason.

Definition DiscoveryClaimBalance_digest (b : DiscoveryClaimBalance) : string :=
  digest_of "optima.incentive-composition.discovery-balance" (DiscoveryClaimBalance_to_dict b).

Definition _validate_claim_balance (c : DiscoveryDebtClaim) (b : DiscoveryClaimBalance) : result unit :=
  raise_if (negb (bool_decide (cb_claim_digest b = DiscoveryDebtClaim_digest c))
            || negb (cb_principal_units b =? dc_principal_units c))
    (IC.error "discovery claim and balance differ").

Definition pay_discovery_balance (c : DiscoveryDebtClaim) (b : DiscoveryClaimBalance) (amount at_block : pyval)
    : result DiscoveryClaimBalance :=
  do! _validate_claim_balance c b ;;
  let! paid := IC._integer (Some 1) None amount in
  let! block := IC._integer (Some 0) None at_block in
  do! raise_if (negb (bool_decide (cb_status b = "open")) || (block <? dc_awarded_block c)
                || (dc_expires_block c <=? block) || (cb_remaining_units b <? paid))
        (IC.error "discovery payment is outside its live remaining principal") ;;
  let remaining := cb_remaining_units b - paid in
  let live := negb (remaining =? 0) in
  DiscoveryClaimBalance_init (PStr (cb_claim_digest b)) (PInt (cb_principal_units b)) (PInt (cb_paid_units b + paid))
    (PInt (cb_forfeited_units b)) (PInt remaining)
    (PStr (if live then "open" else "paid"))
    (if live then PNone else PInt block)
    (PStr (if live then "" else "principal_paid")).

Definition expire_discovery_balance (c : DiscoveryDebtClaim) (b : DiscoveryClaimBalance) (at_block : pyval)
    : result DiscoveryClaimBalance :=
  do! _validate_claim_balance c b ;;
  let! block := IC._integer (Some 0) None at_block in
  if negb (bool_decide (cb_status b = "open")) || (block <? dc_expires_block c) then Ok b
  else
    DiscoveryClaimBalance_init (PStr (cb_claim_digest b)) (PInt (cb_principal_units b)) (PInt (cb_paid_units b))
      (PInt (cb_forfeited_units b + cb_remaining_units b)) (PInt 0) (PStr "expired") (PInt block)
      (PStr "claim_lifetime_expired").

Definition cancel_discovery_balance (c : DiscoveryDebtClaim) (b : DiscoveryClaimBalance) (at_block reason : pyval)
    : result DiscoveryClaimBalance :=
  do! _validate_claim_balance c b ;;
  let! block := IC._integer (Some 0) None at_block in
  let! why := IC._reason reason in
  do! raise_if (negb (bool_decide (cb_status b = "open")) || (block <? dc_awarded_block c))
        (IC.error "discovery cancellation is not open or predates its award") ;;
  DiscoveryClaimBalance_init (PStr (cb_claim_digest b)) (PInt (cb_principal_units b)) (PInt (cb_paid_units b))
    (PInt (cb_forfeited_units b + cb_remaining_units b)) (PInt 0) (PStr "cancelled") (PInt block) (PStr why).

Record DiscoveryClaimState := {
  cs_claim : DiscoveryDebtClaim;
  cs_balance : DiscoveryClaimBalance
}.

Definition DiscoveryClaimState_init (c : DiscoveryDebtClaim) (b : DiscoveryClaimBalance) : result DiscoveryClaimState :=
  do! _validate_claim_balance c b ;;
  do! raise_if (match cb_terminal_block b with Some t => t <? dc_awarded_block c | None => false end)
        (IC.error "discovery terminal block predates its award") ;;
  do! raise_if (bool_decide (cb_status b = "expired")
                && match cb_terminal_block b with Some t => t <? dc_expires_block c | None => false end)
        (IC.error "discovery claim expired before its lifetime ended") ;;
  Ok {| cs_claim := c; cs_balance := b |}.

Definition DiscoveryClaimState_to_dict (s : DiscoveryClaimState) : pyval :=
  py_dict [("balance", DiscoveryClaimBalance_to_dict (cs_balance s)); ("claim", DiscoveryDebtClaim_to_dict (cs_claim s))].

Definition DiscoveryClaimState_from_dict (v : pyval) : result DiscoveryClaimState :=
  let! row := IC._strict ["balance"; "claim"] v in
  let! claim := row_get row "claim" in
  let! claim := DiscoveryDebtClaim_from_dict claim in
  let! balance := row_get row "balance" in
  let! balance := DiscoveryClaimBalance_from_dict balance in
  DiscoveryClaimState_init claim balance.

Definition DiscoveryClaimState_digest (s : DiscoveryClaimState) : string :=
  digest_of "optima.incentive-composition.discovery-state" (DiscoveryClaimState_to_dict s).

Definition discovery_key (s : DiscoveryClaimState) : string := DiscoveryDebtClaim_digest (cs_claim s).

Definition discovery_open (s : DiscoveryClaimState) : bool := bool_decide (cb_status (cs_balance s) = "open").

(** ** Class allocations and the composed projection *)

Record CompositionClassAllocation := {
  ca_claim_digest : string;
  ca_hotkey : string;
  ca_units : Z
}.

Definition CompositionClassAllocation_init (claim_digest hotkey units : pyval) : result CompositionClassAllocation :=
  let! claim_digest := IC._digest claim_digest in
  let! hotkey := IC._hotkey hotkey in
  let! units := IC._integer (Some 1) (Some PPM) units in
  Ok {| ca_claim_digest := claim_digest; ca_hotkey := hotkey; ca_units := units |}.

Definition CompositionClassAllocation_to_dict (a : CompositionClassAllocation) : pyval :=
  py_dict [("claim_digest", PStr (ca_claim_digest a)); ("hotkey", PStr (ca_hotkey a)); ("units", PInt (ca_units a))].

Definition CompositionClassAllocation_from_dict (v : pyval) : result CompositionClassAllocation :=
  let! row := IC._strict ["claim_digest"; "hotkey"; "units"] v in
  let! claim_digest := row_get row "claim_digest" in
  let! hotkey := row_get row "hotkey" in
  let! units := row_get row "units" in
  CompositionClassAllocation_init claim_digest hotkey units.

Record ComposedEpochProjection := {
  ep_composition_policy_digest : string;
  ep_innovation_policy_digest : string;
  ep_effective_block : Z;
  ep_reference_epoch_units : pyval;
  ep_reserve_floor_units : Z;
  ep_discovery_capacity_units : Z;
  ep_discovery_total_remaining_units : Z;
  ep_discovery_payout_units : Z;
  ep_innovation_capacity_units : Z;
  ep_innovation_total_remaining_units : Z;
  ep_innovation_payout_units : Z;
  ep_reserve_hotkey : string;
  ep_reserve_units : Z;
  ep_discovery_input_state_digests : list string;
  ep_innovation_input_state_digests : list string;
  ep_discovery_allocations : list CompositionClassAllocation;
  ep_innovation_allocations : list CompositionClassAllocation;
  ep_weights : list DebtHotkeyWeight
}.

(** The loop body that checks one tuple of input state digests. *)
Definition check_input_digests (values : list string) : result unit :=
  do! raise_if (negb (sorted_unique values)) (IC.error "is not uniquely digest-sorted") ;;
  forM_ values (λ d, do! IC._digest (PStr d) ;; Ok tt).

Definition ComposedEpochProjection_init
    (composition_policy_digest innovation_policy_digest effective_block reference_epoch_units
     reserve_floor_units discovery_capacity_units discovery_total_remaining_units discovery_payout_units
     innovation_capacity_units innovation_total_remaining_units innovation_payout_units
     reserve_hotkey reserve_units : pyval)
    (discovery_input_state_digests innovation_input_state_digests : list string)
    (discovery_allocations innovation_allocations : list CompositionClassAllocation)
    (weights : list DebtHotkeyWeight) : result ComposedEpochProjection :=
  let! composition_digest := IC._digest composition_policy_digest in
  let! innovation_digest := IC._digest innovation_policy_digest in
  let! block := IC._integer (Some 0) None effective_block in
  do! raise_if (negb (py_eq_int reference_epoch_units REFERENCE_EPOCH_UNITS))
        (IC.error "reference_epoch_units is unsupported") ;;
  let! reserve_floor := IC._integer (Some 0) (Some (PPM - 1)) reserve_floor_units in
  let! discovery_capacity := IC._integer (Some 1) (Some (PPM - reserve_floor)) discovery_capacity_units in
  let! discovery_remaining := IC._integer (Some 0) None discovery_total_remaining_units in
  let! discovery_payout := IC._integer (Some 0) (Some discovery_capacity) discovery_payout_units in
  let! innovation_capacity := IC._integer (Some 0) (Some (PPM - reserve_floor)) innovation_capacity_units in
  let! innovation_remaining := IC._integer (Some 0) None innovation_total_remaining_units in
  let! innovation_payout := IC._integer (Some 0) (Some innovation_capacity) innovation_payout_units in
  let! reserve := IC._integer (Some reserve_floor) (Some PPM) reserve_units in
  let! reserve_hotkey := IC._hotkey reserve_hotkey in
  do! check_input_digests discovery_input_state_digests ;;
  do! check_input_digests innovation_input_state_digests ;;
  do! raise_if (negb (sorted_unique (ca_claim_digest <$> discovery_allocations)))
        (IC.error "allocations are not canonical") ;;
  do! raise_if (negb (sorted_unique (ca_claim_digest <$> innovation_allocations)))
        (IC.error "allocations are not canonical") ;;
  do! raise_if (negb (sorted_unique (hw_hotkey <$> weights))) (IC.error "composed weights are not canonical") ;;
  do! raise_if (negb (discovery_payout =? Z.min discovery_capacity discovery_remaining)
                || negb (innovation_capacity =? PPM - reserve_floor - discovery_payout)
                || negb (innovation_payout =? Z.min innovation_capacity innovation_remaining)
                || negb (Zsum (ca_units <$> discovery_allocations) =? discovery_payout)
                || negb (Zsum (ca_units <$> innovation_allocations) =? innovation_payout)
                || negb (reserve =? PPM - discovery_payout - innovation_payout)
                || negb (Zsum (hw_units <$> weights) =? PPM))
        (IC.error "composed projection does not conserve its ordered capacities") ;;
  let by_hotkey := units_by_hotkey ca_hotkey ca_units (discovery_allocations ++ innovation_allocations) in
  let by_hotkey := dict_add by_hotkey reserve_hotkey reserve in
  do! raise_if (negb (bool_decide (weights_dict weights = positive_part by_hotkey)))
        (IC.error "composed weights differ from class allocations and reserve") ;;
  Ok {| ep_composition_policy_digest := composition_digest;
        ep_innovation_policy_digest := innovation_digest;
        ep_effective_block := block;
        ep_reference_epoch_units := reference_epoch_units;
        ep_reserve_floor_units := reserve_floor;
        ep_discovery_capacity_units := discovery_capacity;
        ep_discovery_total_remaining_units := discovery_remaining;
        ep_discovery_payout_units := discovery_payout;
        ep_innovation_capacity_units := innovation_capacity;
        ep_innovation_total_remaining_units := innovation_remaining;
        ep_innovation_payout_units := innovation_payout;
        ep_reserve_hotkey := reserve_hotkey;
        ep_reserve_units := reserve;
        ep_discovery_input_state_digests := discovery_input_state_digests;
        ep_innovation_input_state_digests := innovation_input_state_digests;
        ep_discovery_allocations := discovery_allocations;
        ep_innovation_allocations := innovation_allocations;
        ep_weights := weights |}.

Definition ComposedEpochProjection_policy_digest (d : ComposedEpochProjection) : string :=
  ep_composition_policy_digest d.

Definition ComposedEpochProjection_payout_units (d : ComposedEpochProjection) : Z :=
  ep_discovery_payout_units d + ep_innovation_payout_units d.

Definition ComposedEpochProjection_weights_by_hotkey (d : ComposedEpochProjection) : gmap string Z :=
  weights_dict (ep_weights d).

Definition ComposedEpochProjection_to_row (d : ComposedEpochProjection) : list (string * pyval) :=
  [("composition_policy_digest", PStr (ep_composition_policy_digest d));
   ("discovery_allocations", PList (CompositionClassAllocation_to_dict <$> ep_discovery_allocations d));
   ("discovery_capacity_units", PInt (ep_discovery_capacity_units d));
   ("discovery_input_state_digests", py_strs (ep_discovery_input_state_digests d));
   ("discovery_payout_units", PInt (ep_discovery_payout_units d));
   ("discovery_total_remaining_units", PInt (ep_discovery_total_remaining_units d));
   ("effective_block", PInt (ep_effective_block d));
   ("innovation_allocations", PList (CompositionClassAllocation_to_dict <$> ep_innovation_allocations d));
   ("innovation_capacity_units", PInt (ep_innovation_capacity_units d));
   ("innovation_input_state_digests", py_strs (ep_innovation_input_state_digests d));
   ("innovation_payout_units", PInt (ep_innovation_payout_units d));
   ("innovation_policy_digest", PStr (ep_innovation_policy_digest d));
   ("innovation_total_remaining_units", PInt (ep_innovation_total_remaining_units d));
   ("reference_epoch_units", ep_reference_epoch_units d);
   ("reserve_floor_units", PInt (ep_reserve_floor_units d));
   ("reserve_hotkey", PStr (ep_reserve_hotkey d));
   ("reserve_units", PInt (ep_reserve_units d));
   ("weights", PList (DebtHotkeyWeight_to_dict <$> ep_weights d))].

Definition ComposedEpochProjection_to_dict (d : ComposedEpochProjection) : pyval :=
  py_dict (ComposedEpochProjection_to_row d).

Definition ComposedEpochProjection_fields : list string :=
  ["composition_policy_digest"; "innovation_policy_digest"; "effective_block"; "reference_epoch_units";
   "reserve_floor_units"; "discovery_capacity_units"; "discovery_total_remaining_units";
   "discovery_payout_units"; "innovation_capacity_units"; "innovation_total_remaining_units";
   "innovation_payout_units"; "reserve_hotkey"; "reserve_units"; "discovery_input_state_digests";
   "innovation_input_state_digests"; "discovery_allocations"; "innovation_allocations"; "weights"].

Definition ComposedEpochProjection_from_dict (v : pyval) : result ComposedEpochProjection :=
  let! row := IC._strict ComposedEpochProjection_fields v in
  let! discovery_allocations := row_get row "discovery_allocations" in
  let! discovery_allocations := require_list (IC.error "projection field must be an array") discovery_allocations in
  let! discovery_inputs := row_get row "discovery_input_state_digests" in
  let! discovery_inputs := require_list (IC.error "projection field must be an array") discovery_inputs in
  let! innovation_allocations := row_get row "innovation_allocations" in
  let! innovation_allocations := require_list (IC.error "projection field must be an array") innovation_allocations in
  let! innovation_inputs := row_get row "innovation_input_state_digests" in
  let! innovation_inputs := require_list (IC.error "projection field must be an array") innovation_inputs in
  let! weights := row_get row "weights" in
  let! weights := require_list (IC.error "projection field must be an array") weights in
  let! discovery_allocations := mapM CompositionClassAllocation_from_dict discovery_allocations in
  let! innovation_allocations := mapM CompositionClassAllocation_from_dict innovation_allocations in
  let! weights := mapM DebtHotkeyWeight_from_dict weights in
  let! discovery_inputs := require_strs discovery_inputs in
  let! innovation_inputs := require_strs innovation_inputs in
  let! composition_policy_digest := row_get row "composition_policy_digest" in
  let! innovation_policy_digest := row_get row "innovation_policy_digest" in
  let! effective_block := row_get row "effective_block" in
  let! reference_epoch_units := row_get row "reference_epoch_units" in
  let! reserve_floor_units := row_get row "reserve_floor_units" in
  let! discovery_capacity_units := row_get row "discovery_capacity_units" in
  let! discovery_total_remaining_units := row_get row "discovery_total_remaining_units" in
  let! discovery_payout_units := row_get row "discovery_payout_units" in
  let! innovation_capacity_units := row_get row "innovation_capacity_units" in
  let! innovation_total_remaining_units := row_get row "innovation_total_remaining_units" in
  let! innovation_payout_units := row_get row "innovation_payout_units" in
  let! reserve_hotkey := row_get row "reserve_hotkey" in
  let! reserve_units := row_get row "reserve_units" in
  ComposedEpochProjection_init composition_policy_digest innovation_policy_digest effective_block
    reference_epoch_units reserve_floor_units discovery_capacity_units discovery_total_remaining_units
    discovery_payout_units innovation_capacity_units innovation_total_remaining_units innovation_payout_units
    reserve_hotkey reserve_units discovery_inputs innovation_inputs discovery_allocations
    innovation_allocations weights.

Definition ComposedEpochProjection_digest (d : ComposedEpochProjection) : result string :=
  canonical_digest "optima.incentive-composition.epoch-projection" (ComposedEpochProjection_to_dict d) (PInt 1).

(** ** Projecting the two classes *)

(** A row of [_pro_rata]: claim digest, hotkey, remaining units. *)
Definition pro_row : Type := string * string * Z.
Definition row_digest (r : pro_row) : string := r.1.1.
Definition row_hotkey (r : pro_row) : string := r.1.2.
Definition row_remaining (r : pro_row) : Z := r.2.

Definition _pro_rata (rows : list pro_row) (capacity : Z) : result (list CompositionClassAllocation) :=
  let values := sorted_by row_digest rows in
  do! raise_if (negb (bool_decide (NoDup (row_digest <$> values))))
        (IC.error "class allocation contains duplicate claims") ;;
  let total := Zsum (row_remaining <$> values) in
  let payout := Z.min capacity total in
  if payout =? 0 then Ok []
  else
    let pairs := (λ r, (row_digest r, row_remaining r)) <$> values in
    let amounts := if total <=? capacity then dict_of_rows pairs else largest_remainder pairs payout total in
    mapM (λ r, CompositionClassAllocation_init (PStr (row_digest r)) (PStr (row_hotkey r))
                 (PInt (dict_get amounts (row_digest r))))
      (filter (λ r, 0 < dict_get amounts (row_digest r)) values).

Definition is_finite_debt_error (c : exn_class) : bool := bool_decide (c = FiniteDebtError).

(** The loop body of [_canonical_innovation_states]. *)
Definition check_innovation_state (p : FiniteDebtPolicyManifest) (block : Z) (row : DebtClaimState) : result unit :=
  do! reraise is_finite_debt_error (λ _, IC.error "innovation claim differs from policy")
        (InnovationDebtClaim_validate_policy (ds_claim row) p) ;;
  do! raise_if (bool_decide (ic_hotkey (ds_claim row) = fp_reserve_hotkey p) && is_open row)
        (IC.error "reserve hotkey cannot own open innovation debt") ;;
  raise_if (is_open row && ((block <? ic_settlement_block (ds_claim row)) || (ic_expires_block (ds_claim row) <=? block)))
    (IC.error "open innovation claim is outside its payout window").

Definition _canonical_innovation_states (p : FiniteDebtPolicyManifest) (states : list DebtClaimState) (block : Z)
    : result (list DebtClaimState) :=
  let rows := sorted_by claim_key states in
  do! raise_if (negb (bool_decide (NoDup (claim_key <$> rows))))
        (IC.error "innovation states contain duplicate claims") ;;
  do! forM_ rows (check_innovation_state p block) ;;
  Ok rows.

(** The loop body of [_canonical_discovery_states]. *)
Definition check_discovery_state (p : IncentiveCompositionPolicyManifest) (block : Z) (reserve_hotkey : string)
    (row : DiscoveryClaimState) : result unit :=
  do! claim_validate_policy (cs_claim row) p None ;;
  do! raise_if (bool_decide (dc_hotkey (cs_claim row) = reserve_hotkey) && discovery_open row)
        (IC.error "reserve hotkey cannot own open discovery debt") ;;
  raise_if (discovery_open row
            && ((block <? dc_awarded_block (cs_claim row)) || (dc_expires_block (cs_claim row) <=? block)))
    (IC.error "open discovery claim is outside its payout window").

Definition _canonical_discovery_states (p : IncentiveCompositionPolicyManifest) (states : list DiscoveryClaimState)
    (block : Z) (reserve_hotkey : string) : result (list DiscoveryClaimState) :=
  let rows := sorted_by discovery_key states in
  do! raise_if (negb (bool_decide (NoDup (discovery_key <$> rows))))
        (IC.error "discovery states contain duplicate claims") ;;
  do! forM_ rows (check_discovery_state p block reserve_hotkey) ;;
  Ok rows.

Definition innovation_row (s : DebtClaimState) : pro_row :=
  (claim_key s, ic_hotkey (ds_claim s), db_remaining_units (ds_balance s)).

Definition discovery_row (s : DiscoveryClaimState) : pro_row :=
  (discovery_key s, dc_hotkey (cs_claim s), cb_remaining_units (cs_balance s)).

Definition project_composed_epoch (innovation_policy : FiniteDebtPolicyManifest)
    (composition_policy : IncentiveCompositionPolicyManifest) (effective_block : pyval)
    (innovation_states : list DebtClaimState) (discovery_states : list DiscoveryClaimState)
    : result ComposedEpochProjection :=
  do! validate_innovation_policy composition_policy innovation_policy ;;
  let! block := IC._integer (Some 0) None effective_block in
  let! innovation_rows := _canonical_innovation_states innovation_policy innovation_states block in
  let! discovery_rows := _canonical_discovery_states composition_policy discovery_states block
                           (fp_reserve_hotkey innovation_policy) in
  let open_discovery := filter discovery_open discovery_rows in
  let open_innovation := filter is_open innovation_rows in
  let discovery_remaining := Zsum ((λ row, cb_remaining_units (cs_balance row)) <$> open_discovery) in
  let discovery_payout := Z.min (cp_discovery_cap_units composition_policy) discovery_remaining in
  let! discovery_allocations := _pro_rata (discovery_row <$> open_discovery) (cp_discovery_cap_units composition_policy) in
  let innovation_capacity := PPM - reserve_floor_units composition_policy - discovery_payout in
  let innovation_remaining := Zsum ((λ row, db_remaining_units (ds_balance row)) <$> open_innovation) in
  let innovation_payout := Z.min innovation_capacity innovation_remaining in
  let! innovation_allocations := _pro_rata (innovation_row <$> open_innovation) innovation_capacity in
  let reserve := PPM - discovery_payout - innovation_payout in
  let by_hotkey := units_by_hotkey ca_hotkey ca_units (discovery_allocations ++ innovation_allocations) in
  let by_hotkey := dict_add by_hotkey (fp_reserve_hotkey innovation_policy) reserve in
  let! weights := mapM (λ hotkey, DebtHotkeyWeight_init (PStr hotkey) (PInt (dict_get by_hotkey hotkey)))
                    (sorted_str (map_to_list by_hotkey).*1) in
  let! composition_digest := IncentiveCompositionPolicyManifest_digest composition_policy in
  let! innovation_digest := FiniteDebtPolicyManifest_digest innovation_policy in
  ComposedEpochProjection_init (PStr composition_digest) (PStr innovation_digest) (PInt block)
    (PInt REFERENCE_EPOCH_UNITS) (PInt (reserve_floor_units composition_policy))
    (PInt (cp_discovery_cap_units composition_policy)) (PInt discovery_remaining) (PInt discovery_payout)
    (PInt innovation_capacity) (PInt innovation_remaining) (PInt innovation_payout)
    (PStr (fp_reserve_hotkey innovation_policy)) (PInt reserve)
    (sorted_str (DiscoveryClaimState_digest <$> discovery_rows))
    (sorted_str (DebtClaimState_digest <$> innovation_rows))
    discovery_allocations innovation_allocations weights.

(** ** Applying the two classes *)

(** [{row.claim_digest: row.units for row in allocations}] *)
Definition class_amounts (allocations : list CompositionClassAllocation) : gmap string Z :=
  fold_left (λ m a, <[ca_claim_digest a := ca_units a]> m) allocations ∅.

(** [{row.claim.digest: row for row in rows}] *)
Definition discovery_by_digest (rows : list DiscoveryClaimState) : gmap string DiscoveryClaimState :=
  fold_left (λ m row, <[discovery_key row := row]> m) rows ∅.

(** One iteration of the innovation loop of [apply_composed_epoch]. *)
Definition apply_innovation_row (amounts : gmap string Z) (block : Z) (row : DebtClaimState) : result DebtClaimState :=
  let amount := dict_get amounts (claim_key row) in
  let! balance := reraise is_finite_debt_error (λ _, IC.error "innovation projection cannot apply")
    (if amount =? 0 then Ok (ds_balance row)
     else pay_claim_balance (ds_claim row) (ds_balance row) (PInt amount) (PInt block)) in
  DebtClaimState_init (ds_claim row) balance.

(** One iteration of the discovery loop of [apply_composed_epoch]. *)
Definition apply_discovery_row (amounts : gmap string Z) (block : Z) (row : DiscoveryClaimState)
    : result DiscoveryClaimState :=
  let amount := dict_get amounts (discovery_key row) in
  let! balance := (if amount =? 0 then Ok (cs_balance row)
                   else pay_discovery_balance (cs_claim row) (cs_balance row) (PInt amount) (PInt block)) in
  DiscoveryClaimState_init (cs_claim row) balance.

Definition apply_composed_epoch (innovation_states : list DebtClaimState)
    (discovery_states : list DiscoveryClaimState) (projection : ComposedEpochProjection)
    : result (list DebtClaimState * list DiscoveryClaimState) :=
  let innovation_rows := sorted_by claim_key innovation_states in
  let discovery_rows := sorted_by discovery_key discovery_states in
  do! raise_if (negb (bool_decide (sorted_str (DebtClaimState_digest <$> innovation_rows)
                                   = ep_innovation_input_state_digests projection))
                || negb (bool_decide (sorted_str (DiscoveryClaimState_digest <$> discovery_rows)
                                      = ep_discovery_input_state_digests projection)))
        (IC.error "composed projection input balances changed before application") ;;
  let innovation_amounts := class_amounts (ep_innovation_allocations projection) in
  let discovery_amounts := class_amounts (ep_discovery_allocations projection) in
  let innovation_by_digest := states_by_claim innovation_rows in
  let discovery_by_digest := discovery_by_digest discovery_rows in
  do! raise_if (existsb (λ a, match innovation_by_digest !! ca_claim_digest a with
                              | None => true
                              | Some s => negb (bool_decide (ic_hotkey (ds_claim s) = ca_hotkey a))
                              end) (ep_innovation_allocations projection)
                || existsb (λ a, match discovery_by_digest !! ca_claim_digest a with
                                 | None => true
                                 | Some s => negb (bool_decide (dc_hotkey (cs_claim s) = ca_hotkey a))
                                 end) (ep_discovery_allocations projection))
        (IC.error "composed projection allocation differs from its claim owner") ;;
  let! updated_innovation := mapM (apply_innovation_row innovation_amounts (ep_effective_block projection)) innovation_rows in
  let! updated_discovery := mapM (apply_discovery_row discovery_amounts (ep_effective_block projection)) discovery_rows in
  let innovation_paid :=
    Zsum (zip_with (λ before after, db_paid_units (ds_balance after) - db_paid_units (ds_balance before))
            innovation_rows updated_innovation) in
  let discovery_paid :=
    Zsum (zip_with (λ before after, cb_paid_units (cs_balance after) - cb_paid_units (cs_balance before))
            discovery_rows updated_discovery) in
  do! raise_if (negb (innovation_paid =? ep_innovation_payout_units projection)
                || negb (discovery_paid =? ep_discovery_payout_units projection))
        (IC.error "composed projection application did not consume both payouts") ;;
  Ok (updated_innovation, updated_discovery).

End composition.

#[global] Arguments IncentiveCompositionPolicyManifest_digest : simpl never.
#[global] Arguments ReviewedDiscoveryDisposition_digest : simpl never.
#[global] Arguments DiscoveryDebtClaim_digest : simpl never.
#[global] Arguments DiscoveryClaimBalance_digest : simpl never.
#[global] Arguments DiscoveryClaimState_digest : simpl never.
#[global] Arguments discovery_key : simpl never.
