(* ===== verification/Ledger.v ===== *)
(** * One class of claims, seen through its interface

    [incentive_composition.py] runs the same epoch over two classes of claim
    states.  What the epoch needs of a class is the interface [ClaimLedger];
    the pro-rata split and its application are verified against the interface,
    and [CompositionFacts] gives its two instances. *)

From Stdlib Require Import ZArith Lia Ascii.
From stdpp Require Import base tactics numbers list strings gmap sorting.
From S2P Require Import Prelude PyValue Sha256 Identity Strict Apportion Decimal FiniteDebt FiniteDebtBalance FiniteDebtPolicy.
From S2P Require Import FiniteDebtEpoch Composition.

Class ClaimLedger (S : Type) := {
  cl_key : S → string;
  cl_hotkey : S → string;
  cl_remaining : S → Z;
  cl_paid : S → Z;
  cl_open : S → bool;
  cl_wf : S → Prop;
  (** the claim may be paid at this block *)
  cl_live : Z → S → Prop;
  (** the state after a payment at a block *)
  cl_pay : S → Z → Z → result S;
  cl_key_ok s : cl_wf s → digest_ok (cl_key s);
  cl_hotkey_ok s : cl_wf s → hotkey_matches (cl_hotkey s) = true;
  cl_remaining_pos s : cl_wf s → cl_open s = true → 0 < cl_remaining s;
  cl_pay_ok s a t :
    cl_wf s → cl_open s = true → cl_live t s → 1 ≤ a ≤ cl_remaining s →
    ∃ s', cl_pay s a t = Ok s' ∧ cl_wf s' ∧ cl_key s' = cl_key s ∧
          cl_paid s' = cl_paid s + a ∧ cl_remaining s' = cl_remaining s - a
}.

(** ** The composition's validators, as equivalences *)

Lemma IC_digest_Ok v s : IC._digest v = Ok s ↔ v = PStr s ∧ digest_ok s.
Proof. apply require_digest_Ok. Qed.

Lemma IC_digest_ok s : digest_ok s → IC._digest (PStr s) = Ok s.
Proof. intros. by apply IC_digest_Ok. Qed.

Lemma IC_integer_min mn v z : IC._integer (Some mn) None v = Ok z ↔ v = PInt z ∧ mn ≤ z.
Proof. unfold IC._integer. rewrite require_int_Ok. naive_solver. Qed.

Lemma IC_integer_range mn mx v z :
  IC._integer (Some mn) (Some mx) v = Ok z ↔ v = PInt z ∧ mn ≤ z ≤ mx.
Proof. unfold IC._integer. rewrite require_int_Ok. naive_solver. Qed.

Lemma IC_hotkey_Ok v s : IC._hotkey v = Ok s ↔ v = PStr s ∧ hotkey_matches s = true.
Proof.
  unfold IC._hotkey. destruct v as [| | | |t| | | |]; try by (split; [|intros [? ?]]).
  destruct (hotkey_matches t) eqn:E; split; try done; try (by intros [= <-]); intros [[= ->] ?]; congruence.
Qed.

Lemma IC_hotkey_ok s : hotkey_matches s = true → IC._hotkey (PStr s) = Ok s.
Proof. intros. by apply IC_hotkey_Ok. Qed.

Lemma IC_reason_Ok v s : IC._reason v = Ok s ↔ v = PStr s ∧ s ≠ "" ∧ reason_ok s.
Proof.
  unfold IC._reason, reason_ok. destruct v as [| | | |t| | | |]; try by (split; [|intros [? ?]]).
  destruct (bool_decide (t = "") || _ || _) eqn:E; split; try done.
  - intros ([= ->] & Hne & Hlen & Hc). rewrite bool_decide_eq_false_2, Hc in E by done. simpl in E.
    rewrite orb_false_r in E. bool_prop. lia.
  - intros [= <-]. bool_prop. done.
  - by intros ([= ->] & _).
Qed.

(** Rewrites every passed validator in the context into what it established. *)
Ltac ic_facts :=
  repeat match goal with
  | H : IC._digest _ = Ok _ |- _ => apply IC_digest_Ok in H as [-> H]
  | H : IC._integer (Some _) None _ = Ok _ |- _ => apply IC_integer_min in H as [-> H]
  | H : IC._integer (Some _) (Some _) _ = Ok _ |- _ => apply IC_integer_range in H as [-> H]
  | H : IC._hotkey _ = Ok _ |- _ => apply IC_hotkey_Ok in H as [-> H]
  | H : IC._reason _ = Ok _ |- _ => apply IC_reason_Ok in H as [-> H]
  | H : require_str _ _ = Ok _ |- _ => apply require_str_Ok in H as ->
  end.

(** Runs the validators at the head of the goal on arguments known to be good. *)
Ltac ic_run :=
  repeat first
  [ progress cbn [bind fst snd]
  | match goal with
    | |- context [IC._digest (PStr ?s)] => rewrite (IC_digest_ok s) by done
    | |- context [IC._hotkey (PStr ?s)] => rewrite (IC_hotkey_ok s) by done
    | |- context [IC._reason (PStr ?s)] => rewrite (proj2 (IC_reason_Ok (PStr s) s)) by done
    | |- context [IC._integer (Some ?m) None (PInt ?z)] =>
        rewrite (proj2 (IC_integer_min m (PInt z) z)) by (split; [done | lia])
    | |- context [IC._integer (Some ?m) (Some ?n) (PInt ?z)] =>
        rewrite (proj2 (IC_integer_range m n (PInt z) z)) by (split; [done | lia])
    end ].

Lemma mapM_filter_fmap {A B C} (P : B → Prop) `{∀ x, Decision (P x)} (Q : A → Prop) `{∀ x, Decision (Q x)}
    (f : B → result C) (g : A → B) (h : A → C) l :
  (∀ x, x ∈ l → P (g x) ↔ Q x) → (∀ x, x ∈ l → Q x → f (g x) = Ok (h x)) →
  mapM f (filter P (g <$> l)) = Ok (h <$> filter Q l).
Proof.
  induction l as [|x l IH]; intros HPQ Hf; [done|].
  assert (mapM f (filter P (g <$> l)) = Ok (h <$> filter Q l)) as IH'.
  { apply IH; intros y Hy; [apply HPQ | apply Hf]; by right. }
  assert (P (g x) ↔ Q x) as Hx by (apply HPQ; left). csimpl. rewrite !filter_cons.
  destruct (decide (P (g x))), (decide (Q x)); [|tauto|tauto|done].
  cbn [mapM]. rewrite Hf by (done || left). cbn [bind]. fold (mapM f). by rewrite IH'.
Qed.

(** ** The split of a pool over the open claims of a class *)

Section ledger.
Context {S : Type} `{ClaimLedger S}.

Definition class_open (states : list S) : list S := filter cl_open (sorted_by cl_key states).
Definition class_row (s : S) : pro_row := (cl_key s, cl_hotkey s, cl_remaining s).
Definition class_total (states : list S) : Z := Zsum (cl_remaining <$> class_open states).
Definition class_payout (states : list S) (capacity : Z) : Z := Z.min capacity (class_total states).
Definition class_pairs (states : list S) : list (string * Z) :=
  (λ s, (cl_key s, cl_remaining s)) <$> class_open states.
Definition class_share (states : list S) (capacity : Z) (s : S) : Z :=
  dict_get (pro_rata_amounts (class_pairs states) capacity) (cl_key s).
Definition class_paid (states : list S) (capacity : Z) : list S :=
  filter (λ s, 0 < class_share states capacity s) (class_open states).
Definition class_allocation (states : list S) (capacity : Z) (s : S) : CompositionClassAllocation :=
  {| ca_claim_digest := cl_key s; ca_hotkey := cl_hotkey s; ca_units := class_share states capacity s |}.
Definition class_allocations (states : list S) (capacity : Z) : list CompositionClassAllocation :=
  class_allocation states capacity <$> class_paid states capacity.

Context (states : list S) (capacity : Z).
Context (Hwf : Forall cl_wf states) (Hkeys : NoDup (cl_key <$> states)) (Hcap : 0 ≤ capacity ≤ PPM).

Lemma class_open_elem s : s ∈ class_open states ↔ s ∈ states ∧ cl_open s = true.
Proof. unfold class_open. rewrite list_elem_of_filter, sorted_by_perm, Is_true_true. tauto. Qed.

Lemma class_wf_elem s : s ∈ states → cl_wf s.
Proof. rewrite Forall_forall in Hwf. apply Hwf. Qed.

Lemma class_open_sorted : StronglySorted (key_le cl_key) (class_open states).
Proof. eapply StronglySorted_sublist; [apply sublist_filter | apply sorted_by_sorted]. Qed.

Lemma class_open_NoDup : NoDup (cl_key <$> class_open states).
Proof.
  eapply sublist_NoDup; [|apply sublist_fmap_mono, sublist_filter]. by rewrite sorted_by_perm.
Qed.

Lemma class_pairs_keys : (class_pairs states).*1 = cl_key <$> class_open states.
Proof. unfold class_pairs. by rewrite <- list_fmap_compose. Qed.

Lemma class_pairs_weights : (class_pairs states).*2 = cl_remaining <$> class_open states.
Proof. unfold class_pairs. by rewrite <- list_fmap_compose. Qed.

Lemma class_pairs_pos : Forall (λ row, 0 < row.2) (class_pairs states).
Proof.
  apply Forall_fmap, Forall_forall. intros s [Hs Ho]%class_open_elem. simpl.
  apply cl_remaining_pos; [by apply class_wf_elem | done].
Qed.

Lemma class_total_nonneg : 0 ≤ class_total states.
Proof.
  apply Zsum_nonneg, Forall_fmap, Forall_forall. intros s [Hs Ho]%class_open_elem. simpl.
  pose proof (cl_remaining_pos s (class_wf_elem s Hs) Ho). lia.
Qed.

Lemma class_payout_bounds : 0 ≤ class_payout states capacity ≤ capacity ∧ class_payout states capacity ≤ class_total states.
Proof. unfold class_payout. pose proof class_total_nonneg. lia. Qed.

(** A share is covered by the claim and within one unit of the exact quota. *)
Lemma class_share_bounds s :
  s ∈ class_open states →
  0 ≤ class_share states capacity s ≤ cl_remaining s ∧
  cl_remaining s * class_payout states capacity - class_total states
    < class_share states capacity s * class_total states
    < cl_remaining s * class_payout states capacity + class_total states.
Proof.
  intros Hs. pose proof (pro_rata_share (class_pairs states) capacity) as Hshare.
  rewrite class_pairs_weights, class_pairs_keys in Hshare.
  apply Hshare; [apply class_open_NoDup | apply class_pairs_pos | lia |].
  apply list_elem_of_fmap. by exists s.
Qed.

Lemma class_share_closed s : s ∈ states → cl_open s = false → class_share states capacity s = 0.
Proof.
  intros Hs Ho. unfold class_share, dict_get.
  destruct (pro_rata_amounts _ _ !! cl_key s) as [a|] eqn:E; [exfalso | done].
  assert (cl_key s ∈ (class_pairs states).*1) as Hk.
  { eapply (pro_rata_dom (class_pairs states) capacity); [|apply class_pairs_pos|lia | eauto].
    rewrite class_pairs_keys. apply class_open_NoDup. }
  rewrite class_pairs_keys in Hk. apply list_elem_of_fmap in Hk as (s' & Heq & [Hs' Ho']%class_open_elem).
  rewrite (NoDup_fmap_inj_elem cl_key states s s' Hkeys Hs Hs' Heq) in Ho. congruence.
Qed.

Lemma class_share_nonneg s : s ∈ states → 0 ≤ class_share states capacity s.
Proof.
  intros Hs. destruct (cl_open s) eqn:Ho; [by apply class_share_bounds, class_open_elem | by rewrite class_share_closed].
Qed.

Lemma class_shares_sum : Zsum (class_share states capacity <$> class_open states) = class_payout states capacity.
Proof.
  pose proof (pro_rata_sum_rows (class_pairs states) capacity) as Hsum.
  rewrite class_pairs_weights, class_pairs_keys in Hsum.
  unfold class_payout, class_total. rewrite <- Hsum; [|apply class_open_NoDup | apply class_pairs_pos | lia].
  unfold class_pairs. by rewrite <- list_fmap_compose.
Qed.

Lemma class_shares_total : Zsum (class_share states capacity <$> sorted_by cl_key states) = class_payout states capacity.
Proof.
  rewrite <- class_shares_sum. unfold class_open.
  assert (∀ l, (∀ s, s ∈ l → s ∈ states) →
    Zsum (class_share states capacity <$> filter cl_open l) = Zsum (class_share states capacity <$> l)) as Hl.
  { induction l as [|s l IH]; intros Hin; [done|]. rewrite filter_cons.
    assert (Zsum (class_share states capacity <$> filter cl_open l) = Zsum (class_share states capacity <$> l)) as IH'
      by (apply IH; intros x Hx; apply Hin; by right).
    case_decide as Ho; csimpl; rewrite ?Zsum_cons, IH'; [done|].
    rewrite class_share_closed; [done|apply Hin; left|]. by apply not_true_is_false; rewrite <- Is_true_true. }
  symmetry. apply Hl. intros s. by rewrite sorted_by_perm.
Qed.

Lemma class_paid_elem s :
  s ∈ class_paid states capacity ↔ 0 < class_share states capacity s ∧ s ∈ class_open states.
Proof. unfold class_paid. by rewrite list_elem_of_filter. Qed.

Lemma class_allocations_sum : Zsum (ca_units <$> class_allocations states capacity) = class_payout states capacity.
Proof.
  unfold class_allocations. rewrite <- list_fmap_compose.
  change (ca_units ∘ class_allocation states capacity) with (class_share states capacity). unfold class_paid.
  rewrite Zsum_filter_pos; [apply class_shares_sum|]. intros s Hs. by apply class_share_bounds.
Qed.

Lemma class_allocations_pos : Forall (λ a, 1 ≤ ca_units a) (class_allocations states capacity).
Proof. apply Forall_fmap, Forall_forall. intros s [Hs _]%class_paid_elem. simpl. lia. Qed.

Lemma class_claim_digests : ca_claim_digest <$> class_allocations states capacity = cl_key <$> class_paid states capacity.
Proof. unfold class_allocations. by rewrite <- list_fmap_compose. Qed.

Lemma class_allocations_unique : sorted_unique (ca_claim_digest <$> class_allocations states capacity) = true.
Proof.
  rewrite class_claim_digests. apply sorted_unique_true. split.
  - eapply sublist_NoDup; [apply class_open_NoDup|]. apply sublist_fmap_mono, sublist_filter.
  - apply (StronglySorted_key_fmap cl_key). eapply StronglySorted_sublist; [apply sublist_filter|].
    apply class_open_sorted.
Qed.

Lemma class_share_le s : s ∈ class_open states → class_share states capacity s ≤ PPM.
Proof.
  intros Hs. trans (class_payout states capacity); [|pose proof class_payout_bounds; lia].
  rewrite <- class_shares_sum. apply Zsum_elem; [|by apply list_elem_of_fmap_2].
  apply Forall_fmap, Forall_forall. intros s' Hs'. by apply class_share_bounds.
Qed.

(** [_pro_rata] computes these allocations. *)
Lemma pro_rata_class : _pro_rata (class_row <$> class_open states) capacity = Ok (class_allocations states capacity).
Proof.
  assert (row_digest <$> (class_row <$> class_open states) = cl_key <$> class_open states) as Hd
    by by rewrite <- list_fmap_compose.
  unfold _pro_rata. rewrite sorted_by_id.
  2: { rewrite Hd. apply class_open_NoDup. }
  2: { apply (StronglySorted_key_fmap row_digest). rewrite Hd. apply (StronglySorted_key_fmap cl_key), class_open_sorted. }
  rewrite Hd. pose proof class_open_NoDup. pass_guard.
  rewrite <- !list_fmap_compose. change (row_remaining ∘ class_row) with cl_remaining.
  change ((λ r, (row_digest r, row_remaining r)) ∘ class_row) with (λ s, (cl_key s, cl_remaining s)).
  fold (class_pairs states). fold (class_total states). fold (class_payout states capacity).
  assert (pro_rata_amounts (class_pairs states) capacity =
    if class_payout states capacity =? 0 then ∅
    else if class_total states <=? capacity then dict_of_rows (class_pairs states)
    else largest_remainder (class_pairs states) (class_payout states capacity) (class_total states)) as Hamounts.
  { unfold pro_rata_amounts. by rewrite class_pairs_weights. }
  destruct (class_payout states capacity =? 0) eqn:E0.
  - assert (class_paid states capacity = []) as Hnil; [|unfold class_allocations; by rewrite Hnil].
    destruct (class_paid states capacity) as [|s l] eqn:Ep; [done|exfalso].
    assert (s ∈ class_paid states capacity) as [Hs _]%class_paid_elem by (rewrite Ep; left).
    unfold class_share, dict_get in Hs. rewrite Hamounts, lookup_empty in Hs. simpl in Hs. lia.
  - rewrite <- Hamounts. apply mapM_filter_fmap; [done|]. intros s Hs Hpos.
    change (0 < class_share states capacity s) in Hpos. pose proof (class_share_le s Hs) as Hle.
    apply class_open_elem in Hs as [Hs Ho]. pose proof (class_wf_elem s Hs) as Hw.
    unfold CompositionClassAllocation_init. change (row_digest (class_row s)) with (cl_key s).
    change (row_hotkey (class_row s)) with (cl_hotkey s). fold (class_share states capacity s).
    rewrite IC_digest_ok by by apply cl_key_ok. cbn [bind]. rewrite IC_hotkey_ok by by apply cl_hotkey_ok.
    cbn [bind]. rewrite (proj2 (IC_integer_range 1 PPM _ (class_share states capacity s))) by (split; [done|lia]). done.
Qed.

(** ** Paying the split *)

Lemma class_amounts_get s :
  s ∈ states → dict_get (class_amounts (class_allocations states capacity)) (cl_key s) = class_share states capacity s.
Proof.
  intros Hs. assert (class_amounts (class_allocations states capacity)
    = dict_of_rows ((λ s, (cl_key s, class_share states capacity s)) <$> class_paid states capacity)) as ->.
  { unfold class_amounts, class_allocations, dict_of_rows. by rewrite !fold_left_fmap. }
  set (rows := (λ s, (cl_key s, class_share states capacity s)) <$> class_paid states capacity).
  assert (rows.*1 = cl_key <$> class_paid states capacity) as Hfst by (unfold rows; by rewrite <- list_fmap_compose).
  unfold dict_get. destruct (dict_of_rows rows !! cl_key s) as [a|] eqn:E.
  - assert (cl_key s ∈ rows.*1) as Hk by (apply dict_of_rows_dom; eauto).
    rewrite Hfst in Hk. apply list_elem_of_fmap in Hk as (s' & Heq & Hs').
    assert (s = s') as <-.
    { apply (NoDup_fmap_inj_elem cl_key states); [done|done| |done].
      by apply class_paid_elem in Hs' as [_ [? _]%class_open_elem]. }
    rewrite (dict_of_rows_lookup rows _ (class_share states capacity s)) in E; [by injection E| |].
    + rewrite Hfst, <- class_claim_digests.
      exact (proj1 (proj1 (sorted_unique_true _) class_allocations_unique)).
    + apply list_elem_of_fmap. by exists s.
  - simpl. pose proof (class_share_nonneg s Hs).
    destruct (decide (class_share states capacity s = 0)) as [|Hne]; [done|exfalso].
    assert (is_Some (dict_of_rows rows !! cl_key s)) as [? ?]; [|congruence].
    apply dict_of_rows_dom. rewrite Hfst. apply list_elem_of_fmap_2, class_paid_elem. split; [lia|].
    apply class_open_elem. split; [done|]. destruct (cl_open s) eqn:Ho; [done|].
    by rewrite class_share_closed in Hne.
Qed.

Lemma class_allocation_owner (a : CompositionClassAllocation) :
  a ∈ class_allocations states capacity →
  ∃ s, s ∈ states ∧ cl_open s = true ∧ ca_claim_digest a = cl_key s ∧ ca_hotkey a = cl_hotkey s ∧
       ca_units a = class_share states capacity s.
Proof.
  intros Ha. apply list_elem_of_fmap in Ha as (s & -> & [_ [Hs Ho]%class_open_elem]%class_paid_elem). by exists s.
Qed.

(** Every allocation names the owner recorded in the class. *)
Lemma class_owners :
  existsb (λ a, match fold_left (λ m s, <[cl_key s := s]> m) (sorted_by cl_key states) (∅ : gmap string S) !! ca_claim_digest a with
                | None => true
                | Some s => negb (bool_decide (cl_hotkey s = ca_hotkey a))
                end) (class_allocations states capacity) = false.
Proof.
  apply not_true_is_false. rewrite existsb_exists. intros (a & Ha%list_elem_of_In & Hm).
  apply class_allocation_owner in Ha as (s & Hs & _ & Hd & Hh & _). rewrite Hd in Hm.
  rewrite fold_insert_lookup in Hm by (by rewrite sorted_by_perm). rewrite Hh in Hm.
  by rewrite bool_decide_eq_true_2 in Hm.
Qed.

Definition class_apply_row (amounts : gmap string Z) (block : Z) (s : S) : result S :=
  let amount := dict_get amounts (cl_key s) in
  if amount =? 0 then Ok s else cl_pay s amount block.

(** What one epoch does to one state of the class. *)
Definition class_paid_state (s s' : S) : Prop :=
  cl_wf s' ∧ cl_key s' = cl_key s ∧ cl_paid s' = cl_paid s + class_share states capacity s ∧
  cl_remaining s' = cl_remaining s - class_share states capacity s.

Context (block : Z) (Hlive : Forall (λ s, cl_open s = true → cl_live block s) states).

Lemma class_apply_row_ok s :
  s ∈ states → ∃ s', class_apply_row (class_amounts (class_allocations states capacity)) block s = Ok s' ∧ class_paid_state s s'.
Proof.
  intros Hs. unfold class_apply_row, class_paid_state. rewrite class_amounts_get by done.
  pose proof (class_wf_elem s Hs) as Hw. pose proof (class_share_nonneg s Hs).
  destruct (Z.eqb_spec (class_share states capacity s) 0) as [E|E].
  - exists s. rewrite E. split_and!; try done; lia.
  - destruct (cl_open s) eqn:Ho; [|by rewrite class_share_closed in E].
    assert (s ∈ class_open states) as Hopen by by apply class_open_elem.
    pose proof (class_share_bounds s Hopen). rewrite Forall_forall in Hlive.
    apply cl_pay_ok; try done; [by apply Hlive | lia].
Qed.

Lemma class_apply :
  ∃ states', mapM (class_apply_row (class_amounts (class_allocations states capacity)) block) (sorted_by cl_key states)
               = Ok states' ∧ Forall2 class_paid_state (sorted_by cl_key states) states'.
Proof.
  assert (∀ l, (∀ s, s ∈ l → s ∈ states) →
    ∃ l', Forall2 (λ s s', class_apply_row (class_amounts (class_allocations states capacity)) block s = Ok s') l l' ∧
          Forall2 class_paid_state l l') as Hl.
  { induction l as [|s l IH]; intros Hin; [by exists []; split; constructor|].
    destruct (class_apply_row_ok s) as (s' & Hs' & Hp); [apply Hin; left|].
    destruct IH as (l' & Hl' & Hf); [intros x Hx; apply Hin; by right|].
    exists (s' :: l'). by split; constructor. }
  destruct (Hl (sorted_by cl_key states)) as (l' & Hm & Hf); [intros s; by rewrite sorted_by_perm|].
  exists l'. split; [by apply mapM_Ok | done].
Qed.

(** The payments of the class add up to its payout. *)
Lemma class_paid_sum l l' :
  Forall2 class_paid_state l l' →
  Zsum (zip_with (λ s s', cl_paid s' - cl_paid s) l l') = Zsum (class_share states capacity <$> l).
Proof.
  induction 1 as [|s s' l l' (_ & _ & Hp & _) Hl IH]; [done|]. csimpl. rewrite !Zsum_cons, IH, Hp. lia.
Qed.
End ledger.
