(* ===== verification/CompositionFacts.v ===== *)
(** * Discovery debt and the two-class epoch

    Discovery balances obey the same accounting as innovation balances; the
    issuance of discovery claims; and the two instances of [ClaimLedger] that
    the composed epoch runs on. *)

From Stdlib Require Import ZArith Lia Ascii.
From stdpp Require Import base tactics numbers list strings gmap sorting relations.
From S2P Require Import Prelude PyValue Sha256 Identity Strict Apportion Decimal FiniteDebt FiniteDebtBalance FiniteDebtPolicy.
From S2P Require Import FiniteDebtEpoch FiniteDebtClaims Composition Ledger.

(** ** Discovery balances are debt balances *)

(** A discovery balance carries the fields of a debt balance. *)
Definition as_debt (b : DiscoveryClaimBalance) : DebtClaimBalance :=
  {| db_claim_digest := cb_claim_digest b;
     db_principal_units := cb_principal_units b;
     db_paid_units := cb_paid_units b;
     db_forfeited_units := cb_forfeited_units b;
     db_remaining_units := cb_remaining_units b;
     db_status := cb_status b;
     db_terminal_block := cb_terminal_block b;
     db_terminal_reason := cb_terminal_reason b |}.

#[global] Instance as_debt_inj : Inj (=) (=) as_debt.
Proof. intros [] []; unfold as_debt; simpl; congruence. Qed.

(** The two balance constructors accept exactly the same field values. *)
Lemma DiscoveryClaimBalance_init_Ok d pr pa fo re st tb tr b :
  DiscoveryClaimBalance_init d pr pa fo re st tb tr = Ok b ↔
  DebtClaimBalance_init d pr pa fo re st tb tr = Ok (as_debt b).
Proof.
  rewrite DebtClaimBalance_init_Ok. split.
  - unfold DiscoveryClaimBalance_init. intros Hi. inv_ok Hi. subst b. ic_facts. simpl.
    match goal with Hs : py_in_strs _ _ = Ok ?k, Hk : negb ?k = false |- _ =>
      rewrite negb_false_iff in Hk; rewrite Hk in Hs; apply py_in_strs_true in Hs as (st & [= <-] & Hs) end.
    unfold balance_wf, balance_phase, reason_ok; simpl. bool_prop.
    match goal with Ht : (if bool_decide (?s = "open") then _ else _) = Ok _ |- _ =>
      rename Ht into Hterm; destruct (decide (s = "open")) as [->|Hopen] end.
    + rewrite bool_decide_eq_true_2 in Hterm by done. inv_ok Hterm. subst. simpl in *. bool_prop.
      match goal with Hr : py_eq_str tr "" = true |- _ => apply py_eq_str_true in Hr as -> end.
      by destruct tb.
    + rewrite bool_decide_eq_false_2 in Hterm by done. inv_ok Hterm. subst. ic_facts. unfold reason_ok in *.
      simpl in *. bool_prop.
      case_decide; repeat match goal with H : _ && _ = false |- _ => apply andb_false_iff in H as [H|H] end;
        bool_prop; unfold DISCOVERY_BALANCE_STATUSES, BALANCE_STATUSES in *; naive_solver (set_solver || lia).
  - intros (-> & -> & -> & -> & -> & -> & -> & -> & Hwf).
    destruct b as [d' p pa' f r s tb' tr']; unfold balance_wf, balance_phase, as_debt in *; simpl in *.
    destruct Hwf as (Hd & Hp & Hpa & Hf & Hr & Hsum & Hs & Hreason & Hph).
    unfold DiscoveryClaimBalance_init. ic_run. pass_guard.
    change DISCOVERY_BALANCE_STATUSES with BALANCE_STATUSES.
    rewrite (proj2 (py_in_strs_true (PStr s) BALANCE_STATUSES)) by eauto. simpl. case_decide as Ho.
    + destruct Hph as (Hr' & -> & ->). subst s. simpl. rewrite (proj2 (Z.leb_gt _ _) Hr'). done.
    + rewrite (bool_decide_eq_false_2 _ Ho). destruct Hph as (-> & (t & -> & Ht) & Htr & Hph). simpl. ic_run.
      case_decide as Hpd.
      * rewrite (proj2 (Z.eqb_eq _ _) Hph). by subst s.
      * rewrite (bool_decide_eq_false_2 _ Hpd). simpl. rewrite (proj2 (Z.leb_gt _ _) Hph).
        by rewrite andb_false_r.
Qed.

Lemma DiscoveryClaimBalance_of r b :
  DiscoveryClaimBalance_init (PStr (cb_claim_digest r)) (PInt (cb_principal_units r)) (PInt (cb_paid_units r))
    (PInt (cb_forfeited_units r)) (PInt (cb_remaining_units r)) (PStr (cb_status r))
    (py_opt_int (cb_terminal_block r)) (PStr (cb_terminal_reason r)) = Ok b ↔ b = r ∧ balance_wf (as_debt r).
Proof.
  rewrite DiscoveryClaimBalance_init_Ok. change (balance_of (as_debt r) = Ok (as_debt b) ↔ b = r ∧ balance_wf (as_debt r)).
  rewrite balance_of_Ok. split; [intros [?%(inj as_debt) ?]; done | intros [-> ?]; done].
Qed.

Section discovery.
Context `{Sha256}.

(** ** The three operations *)

Definition dlinked (c : DiscoveryDebtClaim) (b : DiscoveryClaimBalance) : Prop :=
  cb_claim_digest b = DiscoveryDebtClaim_digest c ∧ cb_principal_units b = dc_principal_units c.

Lemma validate_claim_balance_Ok c b u : _validate_claim_balance c b = Ok u ↔ dlinked c b.
Proof.
  unfold _validate_claim_balance, dlinked. rewrite raise_if_Ok, orb_false_iff, !negb_false_iff, bool_decide_eq_true, Z.eqb_eq.
  done.
Qed.

Lemma validate_claim_balance_linked c b : dlinked c b → _validate_claim_balance c b = Ok tt.
Proof. intros. by apply validate_claim_balance_Ok. Qed.

Definition dlive_at (c : DiscoveryDebtClaim) (t : Z) : Prop :=
  0 ≤ t ∧ dc_awarded_block c ≤ t < dc_expires_block c.

Lemma pay_discovery_balance_Ok c b amount at_block b' :
  balance_wf (as_debt b) →
  pay_discovery_balance c b amount at_block = Ok b' ↔
  dlinked c b ∧ cb_status b = "open" ∧
  ∃ a t, amount = PInt a ∧ at_block = PInt t ∧ 1 ≤ a ≤ cb_remaining_units b ∧ dlive_at c t ∧
    (a = cb_remaining_units b → cb_forfeited_units b = 0) ∧ as_debt b' = paid_balance (as_debt b) a t.
Proof.
  intros Hwf. pose proof (paid_balance_init (as_debt b)) as Hinit. unfold pay_discovery_balance. split.
  - intros Hp. inv_ok Hp. ic_facts. apply validate_claim_balance_Ok in Hv. bool_prop.
    apply DiscoveryClaimBalance_init_Ok, Hinit in Hp as [Hb Hwf']. split; [done|]. split; [done|].
    exists v0, v1. split_and!; try done; try lia. intros He. eapply (paid_balance_wf (as_debt b)); eauto; simpl; lia.
  - intros (Hl & Ho & a & t & -> & -> & Ha & [Ht Hlive] & Hf & Hb). rewrite validate_claim_balance_linked by done.
    cbn [bind]. ic_run. pass_guard. apply DiscoveryClaimBalance_init_Ok, Hinit. split; [done|].
    by apply paid_balance_wf.
Qed.

Lemma expire_discovery_balance_Ok c b at_block b' :
  balance_wf (as_debt b) →
  expire_discovery_balance c b at_block = Ok b' ↔
  dlinked c b ∧ ∃ t, at_block = PInt t ∧ 0 ≤ t ∧
    as_debt b' = (if decide (cb_status b = "open" ∧ dc_expires_block c ≤ t)
                  then closed_balance (as_debt b) "expired" t "claim_lifetime_expired" else as_debt b).
Proof.
  intros Hwf. pose proof (balance_of_Ok) as Hof. unfold expire_discovery_balance. split.
  - intros He. inv_ok He. ic_facts. apply validate_claim_balance_Ok in Hv. split; [done|]. exists v0.
    split; [done|]. split; [done|].
    destruct (negb (bool_decide (cb_status b = "open")) || (v0 <? dc_expires_block c)) eqn:E.
    + injection He as ->. rewrite decide_False; [done|]. intros [Ho ?].
      rewrite bool_decide_eq_true_2 in E by done. simpl in E. bool_prop. lia.
    + bool_prop. rewrite decide_True by done. apply DiscoveryClaimBalance_init_Ok in He.
      by apply (Hof (closed_balance (as_debt b) "expired" v0 "claim_lifetime_expired")) in He as [-> _].
  - intros (Hl & t & -> & Ht & Hb). rewrite validate_claim_balance_linked by done. cbn [bind]. ic_run.
    destruct (negb (bool_decide (cb_status b = "open")) || (t <? dc_expires_block c)) eqn:E.
    + rewrite decide_False in Hb; [by apply (inj as_debt) in Hb as ->|]. intros [Ho ?].
      rewrite bool_decide_eq_true_2 in E by done. simpl in E. bool_prop. lia.
    + bool_prop. rewrite decide_True in Hb by done. apply DiscoveryClaimBalance_init_Ok. rewrite Hb.
      apply (Hof (closed_balance (as_debt b) "expired" t "claim_lifetime_expired")). split; [done|].
      by apply closed_balance_wf; try done; left.
Qed.

Lemma cancel_discovery_balance_Ok c b at_block reason b' :
  balance_wf (as_debt b) →
  cancel_discovery_balance c b at_block reason = Ok b' ↔
  dlinked c b ∧ cb_status b = "open" ∧
  ∃ t s, at_block = PInt t ∧ reason = PStr s ∧ 0 ≤ t ∧ dc_awarded_block c ≤ t ∧ s ≠ "" ∧ reason_ok s ∧
    as_debt b' = closed_balance (as_debt b) "cancelled" t s.
Proof.
  intros Hwf. pose proof (balance_of_Ok) as Hof. unfold cancel_discovery_balance. split.
  - intros He. inv_ok He. ic_facts. apply validate_claim_balance_Ok in Hv. bool_prop.
    split; [done|]. split; [done|]. apply DiscoveryClaimBalance_init_Ok in He.
    match goal with Hr : ?s ≠ "" ∧ reason_ok ?s |- _ => exists v0, s; destruct Hr end.
    split_and!; try done.
    by match goal with Hr : ?s ≠ "" |- _ => apply (Hof (closed_balance (as_debt b) "cancelled" v0 s)) in He as [-> _] end.
  - intros (Hl & Ho & t & s & -> & -> & Ht & Hs & Hne & Hr & Hb). rewrite validate_claim_balance_linked by done.
    cbn [bind]. ic_run. pass_guard. apply DiscoveryClaimBalance_init_Ok. rewrite Hb.
    apply (Hof (closed_balance (as_debt b) "cancelled" t s)). split; [done|].
    by apply closed_balance_wf; try done; right.
Qed.

Lemma DiscoveryClaimState_init_Ok c b s :
  DiscoveryClaimState_init c b = Ok s ↔
  s = {| cs_claim := c; cs_balance := b |} ∧ dlinked c b ∧
  ∀ t, cb_terminal_block b = Some t →
    dc_awarded_block c ≤ t ∧ (cb_status b = "expired" → dc_expires_block c ≤ t).
Proof.
  unfold DiscoveryClaimState_init. split.
  - intros Hs. inv_ok Hs. subst. apply validate_claim_balance_Ok in Hv.
    split; [done|]. split; [done|]. intros t Ht. rewrite Ht in *. bool_prop. split; [done|].
    intros Hst. rewrite bool_decide_eq_true_2 in Hv1 by done. simpl in Hv1. by bool_prop.
  - intros (-> & Hl & Ht). rewrite validate_claim_balance_linked by done. cbn [bind].
    destruct (cb_terminal_block b) as [t|]; [|cbn [bind]; by rewrite andb_false_r].
    destruct (Ht t eq_refl) as [? He]. pass_guard.
    destruct (decide (cb_status b = "expired")) as [Hst|Hst].
    + rewrite bool_decide_eq_true_2 by done. specialize (He Hst). simpl. pass_guard. done.
    + by rewrite bool_decide_eq_false_2 by done.
Qed.

(** ** Reachable discovery balances *)

Inductive discovery_step (c : DiscoveryDebtClaim) : relation DiscoveryClaimBalance :=
  | dstep_pay b b' amount block : pay_discovery_balance c b amount block = Ok b' → discovery_step c b b'
  | dstep_expire b b' block : expire_discovery_balance c b block = Ok b' → discovery_step c b b'
  | dstep_cancel b b' block reason : cancel_discovery_balance c b block reason = Ok b' → discovery_step c b b'.

Definition discovery_inv (c : DiscoveryDebtClaim) (b : DiscoveryClaimBalance) : Prop :=
  balance_wf (as_debt b) ∧ DiscoveryClaimState_init c b = Ok {| cs_claim := c; cs_balance := b |} ∧
  (cb_status b = "open" → cb_forfeited_units b = 0).

Lemma discovery_inv_open c b : DiscoveryClaimBalance_open c = Ok b → discovery_inv c b.
Proof.
  intros Ho. apply (DiscoveryClaimBalance_of {| cb_claim_digest := DiscoveryDebtClaim_digest c;
    cb_principal_units := dc_principal_units c; cb_paid_units := 0; cb_forfeited_units := 0;
    cb_remaining_units := dc_principal_units c; cb_status := "open"; cb_terminal_block := None;
    cb_terminal_reason := "" |}) in Ho as [-> Hwf].
  split; [done|]. split; [|done]. by apply DiscoveryClaimState_init_Ok.
Qed.

Lemma discovery_step_inv c b b' :
  dc_awarded_block c < dc_expires_block c → discovery_inv c b → discovery_step c b b' → discovery_inv c b'.
Proof.
  intros Hc (Hwf & Hst & Hf) Hs. apply DiscoveryClaimState_init_Ok in Hst as (_ & Hl & Hterm).
  destruct Hs as [b b' am bl Hop|b b' bl Hop|b b' bl re Hop].
  - apply pay_discovery_balance_Ok in Hop as (_ & Ho & a & t & -> & -> & Ha & [Ht Hlive] & Hlast & Hb); [|done].
    destruct b' as [d' p' pa' f' r' s' tb' tr']. injection Hb as -> -> -> -> -> -> -> ->. simpl in *.
    split; [exact (proj2 (paid_balance_wf (as_debt b) a t Hwf Ha Ht Ho) Hlast)|]. split.
    + apply DiscoveryClaimState_init_Ok. split; [done|]. split; [done|]. simpl. intros u Hu.
      destruct (_ =? _); [injection Hu as <-; split; [lia|done] | done].
    + simpl. by destruct (_ =? _); auto.
  - apply expire_discovery_balance_Ok in Hop as (_ & t & -> & Ht & Hb); [|done].
    case_decide as Hd; [|apply (inj as_debt) in Hb as ->; split; [done|]; split; [by apply DiscoveryClaimState_init_Ok | done]].
    destruct Hd as [Ho He]. split; [rewrite Hb; by apply closed_balance_wf; auto|].
    destruct b' as [d' p' pa' f' r' s' tb' tr']. injection Hb as -> -> -> -> -> -> -> ->. split; [|done].
    apply DiscoveryClaimState_init_Ok. split; [done|]. split; [done|]. simpl. intros u [= <-]. split; [lia|done].
  - apply cancel_discovery_balance_Ok in Hop as (_ & Ho & t & s & -> & -> & Ht & Hset & Hne & Hr & Hb); [|done].
    split; [rewrite Hb; by apply closed_balance_wf; auto|].
    destruct b' as [d' p' pa' f' r' s' tb' tr']. injection Hb as -> -> -> -> -> -> -> ->. split; [|done].
    apply DiscoveryClaimState_init_Ok. split; [done|]. split; [done|]. simpl. intros u [= <-]. split; [lia|done].
Qed.

(** ** Discovery claims *)

Definition dclaim_wf (c : DiscoveryDebtClaim) : Prop :=
  digest_ok (dc_policy_digest c) ∧ digest_ok (dc_disposition_digest c) ∧ digest_ok (dc_proposal_digest c) ∧
  digest_ok (dc_retained_evidence_digest c) ∧ digest_ok (dc_review_digest c) ∧
  hotkey_matches (dc_hotkey c) = true ∧ 0 ≤ dc_awarded_block c < dc_expires_block c ∧
  1 ≤ dc_capped_principal_epochs c ≤ dc_requested_principal_epochs c ∧ 1 ≤ dc_principal_units c.

Lemma DiscoveryDebtClaim_init_Ok a1 a2 a3 a4 a5 a6 a7 a8 a9 a10 a11 c :
  DiscoveryDebtClaim_init a1 a2 a3 a4 a5 a6 a7 a8 a9 a10 a11 = Ok c ↔
  [a1; a2; a3; a4; a5; a6; a7; a8; a9; a10; a11] = (DiscoveryDebtClaim_to_row c).*2 ∧ dclaim_wf c.
Proof.
  unfold DiscoveryDebtClaim_init, dclaim_wf. split.
  - intros Hi. inv_ok Hi. subst c. ic_facts. bool_prop. simpl. split; [done|]. split_and!; try done; lia.
  - intros [Hrow Hwf]. simpl in Hrow. simplify_eq. destruct Hwf as (? & ? & ? & ? & ? & ? & ? & ? & ?).
    destruct c; simpl in *. ic_run. pass_guard. done.
Qed.

(** ** Issuing discovery claims *)

Definition disposition_wf (d : ReviewedDiscoveryDisposition) : Prop :=
  Forall digest_ok [rd_policy_digest d; rd_win_digest d; rd_proposal_digest d; rd_retained_evidence_digest d; rd_review_digest d] ∧
  hotkey_matches (rd_hotkey d) = true ∧ 0 ≤ rd_win_block d ≤ rd_authority_block d ∧
  ((rd_decision d = DISCOVERY_BOUNTY_ONLY ∧ rd_promoted_target_digest d = "" ∧
      ∃ n, rd_requested_principal_epochs d = PInt n ∧ 1 ≤ n) ∨
   (rd_decision d = DISCOVERY_REGISTERED_PROMOTION ∧ digest_ok (rd_promoted_target_digest d) ∧
      py_eq_int (rd_requested_principal_epochs d) 0 = true)).

Lemma ReviewedDiscoveryDisposition_init_Ok a1 a2 a3 a4 a5 a6 a7 a8 a9 a10 a11 d :
  ReviewedDiscoveryDisposition_init a1 a2 a3 a4 a5 a6 a7 a8 a9 a10 a11 = Ok d ↔
  [a1; a2; a3; a4; a5; a6; a7; a8; a9; a10; a11] = (ReviewedDiscoveryDisposition_to_row d).*2 ∧ disposition_wf d.
Proof.
  unfold ReviewedDiscoveryDisposition_init, disposition_wf. rewrite !Forall_cons. split.
  - intros Hi. inv_ok Hi. subst d. ic_facts. bool_prop. simpl.
    match goal with Hs : py_in_strs _ _ = Ok ?k, Hk : ?k = true |- _ =>
      rewrite Hk in Hs; apply py_in_strs_true in Hs as (st & [= <-] & Hs) end.
    match goal with Hd : (if bool_decide _ then _ else _) = Ok _ |- _ => rename Hd into Hdec end.
    case_bool_decide.
    + inv_ok Hdec. subst. ic_facts. bool_prop.
      match goal with Hr : py_eq_str a11 "" = true |- _ => apply py_eq_str_true in Hr as -> end.
      split; [done|]. split_and!; try done. left. split_and!; try done. eauto.
    + inv_ok Hdec. ic_facts. bool_prop. split; [done|]. split_and!; try done. right. split_and!; try done.
      unfold DISCOVERY_DECISIONS in *. set_solver.
  - intros [Hrow Hwf]. simpl in Hrow. simplify_eq.
    destruct Hwf as ((? & ? & ? & ? & ? & _) & ? & ? & Hdec). destruct d; simpl in *. ic_run. pass_guard.
    destruct Hdec as [(-> & -> & n & -> & Hn)|(-> & Hp & Hz)].
    + cbn -[IC._integer]. ic_run. done.
    + cbn -[IC._digest py_eq_int]. rewrite Hz. cbn -[IC._digest]. ic_run. done.
Qed.

Record cpolicy_wf (p : IncentiveCompositionPolicyManifest) : Prop := {
  cw_innovation : digest_ok (cp_innovation_policy_digest p);
  cw_selection : digest_ok (cp_selection_report_digest p);
  cw_reserve : 0 ≤ cp_reserve_ppm p ≤ PPM - 1;
  cw_epoch : 1 ≤ cp_epoch_blocks p;
  cw_cap : 1 ≤ cp_discovery_cap_units p ≤ PPM - cp_reserve_ppm p;
  cw_award : 1 ≤ cp_per_award_principal_cap_epochs p;
  cw_lifetime : 1 ≤ cp_discovery_lifetime_blocks p;
  cw_schema : py_eq_int (cp_schema_version p) COMPOSITION_POLICY_SCHEMA_VERSION = true;
  cw_version : cp_policy_version p = COMPOSITION_POLICY_VERSION
}.

Lemma IncentiveCompositionPolicyManifest_init_Ok a1 a2 a3 a4 a5 a6 a7 a8 a9 p :
  IncentiveCompositionPolicyManifest_init a1 a2 a3 a4 a5 a6 a7 a8 a9 = Ok p ↔
  [a1; a2; a3; a4; a5; a6; a7; a8; a9] = (IncentiveCompositionPolicyManifest_to_row p).*2 ∧ cpolicy_wf p.
Proof.
  unfold IncentiveCompositionPolicyManifest_init. split.
  - intros Hi. inv_ok Hi. subst p. ic_facts. bool_prop.
    match goal with Hs : py_eq_str (PStr _) _ = true |- _ => apply py_eq_str_true in Hs; injection Hs as Hs end.
    split; [done|]. constructor; simpl; try done; lia.
  - intros [Hrow Hwf]. simpl in Hrow. simplify_eq.
    destruct Hwf as [? ? ? ? ? ? ? Hs Hv]. destruct p; simpl in *. subst. ic_run. rewrite Hs.
    done.
Qed.

(** The bounty claim of a reviewed disposition asking for [n] epochs. *)
Definition discovery_claim_of (p : IncentiveCompositionPolicyManifest) (d : ReviewedDiscoveryDisposition)
    (policy_digest disposition_digest : string) (n : Z) : DiscoveryDebtClaim :=
  {| dc_policy_digest := policy_digest;
     dc_disposition_digest := disposition_digest;
     dc_proposal_digest := rd_proposal_digest d;
     dc_retained_evidence_digest := rd_retained_evidence_digest d;
     dc_review_digest := rd_review_digest d;
     dc_hotkey := rd_hotkey d;
     dc_awarded_block := rd_win_block d;
     dc_expires_block := rd_win_block d + cp_discovery_lifetime_blocks p;
     dc_requested_principal_epochs := n;
     dc_capped_principal_epochs := Z.min n (cp_per_award_principal_cap_epochs p);
     dc_principal_units := cp_discovery_cap_units p * Z.min n (cp_per_award_principal_cap_epochs p) |}.

Lemma disposition_validate_Ok d p u :
  disposition_validate_policy d p = Ok u ↔ IncentiveCompositionPolicyManifest_digest p = Ok (rd_policy_digest d).
Proof.
  unfold disposition_validate_policy. rewrite bind_Ok. setoid_rewrite raise_if_Ok. split.
  - intros (digest & Hd & He). bool_prop. congruence.
  - intros Hd. eexists. split; [done|]. bool_goal.
Qed.

Lemma py_eq_int_refl n : py_eq_int (PInt n) n = true.
Proof. apply Z.eqb_refl. Qed.

Lemma discovery_claim_of_validates p d dd n :
  cpolicy_wf p → IncentiveCompositionPolicyManifest_digest p = Ok (rd_policy_digest d) →
  ReviewedDiscoveryDisposition_digest d = Ok dd → rd_decision d = DISCOVERY_BOUNTY_ONLY →
  rd_requested_principal_epochs d = PInt n → rd_authority_block d < rd_win_block d + cp_discovery_lifetime_blocks p →
  claim_validate_policy (discovery_claim_of p d (rd_policy_digest d) dd n) p (Some d) = Ok tt.
Proof.
  intros Hp Hpd Hdd Hdec Hn Hlive. unfold claim_validate_policy. rewrite Hpd. cbn [bind].
  replace (raise_if _ (IC.error "discovery claim differs from its policy")) with (Ok tt).
  2: { symmetry. apply raise_if_Ok. simpl. bool_goal. }
  cbn [bind]. unfold claim_validate_disposition.
  rewrite (proj2 (disposition_validate_Ok d p tt)) by done. cbn [bind]. rewrite Hdec. cbn [bool_decide negb raise_if bind].
  pass_guard. rewrite Hdd. cbn [bind]. apply raise_if_Ok. simpl. rewrite Hn, py_eq_int_refl. bool_goal.
Qed.

(** Issuance on every branch: a promotion issues nothing, a live bounty issues
    the capped claim; nothing else succeeds. *)
Lemma issue_discovery_claim_Ok p d r :
  cpolicy_wf p → disposition_wf d →
  issue_discovery_claim p d = Ok r ↔
  IncentiveCompositionPolicyManifest_digest p = Ok (rd_policy_digest d) ∧
  ((rd_decision d = DISCOVERY_REGISTERED_PROMOTION ∧ r = None) ∨
   (rd_decision d = DISCOVERY_BOUNTY_ONLY ∧ rd_authority_block d < rd_win_block d + cp_discovery_lifetime_blocks p ∧
    ∃ n dd, rd_requested_principal_epochs d = PInt n ∧ ReviewedDiscoveryDisposition_digest d = Ok dd ∧ digest_ok dd ∧
      r = Some (discovery_claim_of p d (rd_policy_digest d) dd n))).
Proof.
  intros Hp (Hds & Hh & Hblk & Hdec). unfold issue_discovery_claim. split.
  - intros Hi. apply bind_Ok in Hi as (u & Hpd & Hi). apply disposition_validate_Ok in Hpd. split; [done|].
    destruct Hdec as [(Hd & _ & n & Hn & Hn1)|(Hd & _)].
    + right. rewrite Hd in Hi. cbn [bool_decide] in Hi. split; [done|].
      rewrite bool_decide_eq_false_2 in Hi by done. apply bind_Ok in Hi as (? & Hlive & Hi). apply raise_if_Ok in Hlive. bool_prop.
      split; [done|]. rewrite Hn, Hpd in Hi. cbn [exact_int bind] in Hi.
      apply bind_Ok in Hi as (dd & Hdd & Hi). apply bind_Ok in Hi as (c & Hc & Hi).
      apply bind_Ok in Hi as (? & _ & [= <-]). exists n, dd. split; [done|]. split; [done|].
      apply DiscoveryDebtClaim_init_Ok in Hc as [Hrow Hwf]. simpl in Hrow.
      destruct c; simpl in *. simplify_eq. split; [apply Hwf | done].
    + left. rewrite bool_decide_eq_true_2 in Hi by done. injection Hi as <-. done.
  - rewrite !Forall_cons in Hds. destruct Hds as (D1 & _ & D3 & D4 & D5 & _).
    intros (Hpd & [(Hd & ->)|(Hd & Hlive & n & dd & Hn & Hdd & Dd & ->)]);
      rewrite (proj2 (disposition_validate_Ok d p tt)) by done; cbn [bind].
    + by rewrite bool_decide_eq_true_2 by done.
    + rewrite bool_decide_eq_false_2 by (rewrite Hd; done). pass_guard. rewrite Hn, Hpd, Hdd. cbn [exact_int bind].
      assert (1 ≤ n) as Hn1.
      { destruct Hdec as [(_ & _ & m & Hm & ?)|(Hd' & _)]; [|by rewrite Hd in Hd']. congruence. }
      pose proof (cw_award p Hp). pose proof (cw_cap p Hp). pose proof (cw_lifetime p Hp).
      eapply bind_step.
      * apply (DiscoveryDebtClaim_init_Ok _ _ _ _ _ _ _ _ _ _ _ (discovery_claim_of p d (rd_policy_digest d) dd n)).
        split; [done|]. unfold dclaim_wf; simpl. split_and!; try done; try lia.
      * cbv beta. by rewrite discovery_claim_of_validates.
Qed.
End discovery.
