(* ===== verification/CompositionEpoch.v ===== *)
(** * The composed epoch

    The two classes of claim states are instances of [ClaimLedger];
    [project_composed_epoch] computes the closed form [composed_projection] and
    [apply_composed_epoch] pays it. *)

From Stdlib Require Import ZArith Lia Ascii.
From stdpp Require Import base tactics numbers list strings gmap sorting relations.
From S2P Require Import Prelude PyValue Sha256 Identity Strict Apportion Decimal FiniteDebt FiniteDebtBalance FiniteDebtPolicy.
From S2P Require Import FiniteDebtEpoch FiniteDebtClaims Composition Ledger CompositionFacts.

Section instances.
Context `{Sha256}.

(** ** The innovation class *)

Definition innovation_wf (s : DebtClaimState) : Prop :=
  claim_wf (ds_claim s) ∧ balance_inv (ds_claim s) (ds_balance s).

Definition pay_state (s : DebtClaimState) (a t : Z) : result DebtClaimState :=
  let! balance := pay_claim_balance (ds_claim s) (ds_balance s) (PInt a) (PInt t) in
  DebtClaimState_init (ds_claim s) balance.

Lemma innovation_rebuild s : innovation_wf s → DebtClaimState_init (ds_claim s) (ds_balance s) = Ok s.
Proof. intros (_ & _ & Hs & _). rewrite Hs. by destruct s. Qed.

Lemma innovation_key_ok s : innovation_wf s → digest_ok (claim_key s).
Proof.
  intros (_ & Hb & Hs & _). apply DebtClaimState_init_Ok in Hs as (_ & [Hd _] & _).
  unfold claim_key. rewrite <- Hd. apply Hb.
Qed.

Lemma innovation_pay_ok s a t :
  innovation_wf s → is_open s = true → live_at (ds_claim s) t → 1 ≤ a ≤ db_remaining_units (ds_balance s) →
  ∃ s', pay_state s a t = Ok s' ∧ innovation_wf s' ∧ claim_key s' = claim_key s ∧
        db_paid_units (ds_balance s') = db_paid_units (ds_balance s) + a ∧
        db_remaining_units (ds_balance s') = db_remaining_units (ds_balance s) - a.
Proof.
  intros (Hc & Hinv) Ho Hlive Ha. pose proof Hinv as (Hwf & Hs & Hf).
  apply DebtClaimState_init_Ok in Hs as (_ & Hl & _). unfold is_open in Ho. bool_prop.
  assert (pay_claim_balance (ds_claim s) (ds_balance s) (PInt a) (PInt t) = Ok (paid_balance (ds_balance s) a t)) as Hpay.
  { apply pay_claim_balance_Ok; [done|]. split_and!; try done. exists a, t. split_and!; try done; try lia. intros _. by apply Hf. }
  assert (balance_inv (ds_claim s) (paid_balance (ds_balance s) a t)) as Hinv'.
  { eapply balance_step_inv; [|exact Hinv|eapply step_pay, Hpay]. apply Hc. }
  exists {| ds_claim := ds_claim s; ds_balance := paid_balance (ds_balance s) a t |}.
  unfold pay_state. rewrite Hpay. cbn [bind]. split_and!; try done. apply Hinv'.
Qed.

#[global] Instance innovation_ledger : ClaimLedger DebtClaimState := {|
  cl_key := claim_key;
  cl_hotkey s := ic_hotkey (ds_claim s);
  cl_remaining s := db_remaining_units (ds_balance s);
  cl_paid s := db_paid_units (ds_balance s);
  cl_open := is_open;
  cl_wf := innovation_wf;
  cl_live t s := live_at (ds_claim s) t;
  cl_pay := pay_state;
  cl_key_ok := innovation_key_ok;
  cl_hotkey_ok s Hs := proj1 (proj2 (proj2 (proj2 (proj2 (proj2 (proj1 Hs))))));
  cl_remaining_pos s Hs Ho := proj1 (balance_wf_open _ (proj1 (proj2 Hs)) (proj1 (is_open_status s) (Is_true_true_2 _ Ho)));
  cl_pay_ok := innovation_pay_ok
|}.

(** ** The discovery class *)

Definition discovery_wf (s : DiscoveryClaimState) : Prop :=
  dclaim_wf (cs_claim s) ∧ discovery_inv (cs_claim s) (cs_balance s).

Definition pay_discovery_state (s : DiscoveryClaimState) (a t : Z) : result DiscoveryClaimState :=
  let! balance := pay_discovery_balance (cs_claim s) (cs_balance s) (PInt a) (PInt t) in
  DiscoveryClaimState_init (cs_claim s) balance.

Lemma discovery_rebuild s : discovery_wf s → DiscoveryClaimState_init (cs_claim s) (cs_balance s) = Ok s.
Proof. intros (_ & _ & Hs & _). rewrite Hs. by destruct s. Qed.

Lemma discovery_key_ok s : discovery_wf s → digest_ok (discovery_key s).
Proof.
  intros (_ & Hb & Hs & _). apply DiscoveryClaimState_init_Ok in Hs as (_ & [Hd _] & _).
  unfold discovery_key. rewrite <- Hd. apply Hb.
Qed.

Lemma discovery_remaining_pos s : discovery_wf s → discovery_open s = true → 0 < cb_remaining_units (cs_balance s).
Proof.
  intros (_ & Hb & _) Ho. unfold discovery_open in Ho. bool_prop.
  apply (balance_wf_open (as_debt (cs_balance s)) Hb Ho).
Qed.

(** Every debt balance is the image of a discovery balance. *)
Definition of_debt (b : DebtClaimBalance) : DiscoveryClaimBalance :=
  {| cb_claim_digest := db_claim_digest b;
     cb_principal_units := db_principal_units b;
     cb_paid_units := db_paid_units b;
     cb_forfeited_units := db_forfeited_units b;
     cb_remaining_units := db_remaining_units b;
     cb_status := db_status b;
     cb_terminal_block := db_terminal_block b;
     cb_terminal_reason := db_terminal_reason b |}.

Lemma as_of_debt b : as_debt (of_debt b) = b.
Proof. by destruct b. Qed.

Lemma discovery_pay_ok s a t :
  discovery_wf s → discovery_open s = true → dlive_at (cs_claim s) t → 1 ≤ a ≤ cb_remaining_units (cs_balance s) →
  ∃ s', pay_discovery_state s a t = Ok s' ∧ discovery_wf s' ∧ discovery_key s' = discovery_key s ∧
        cb_paid_units (cs_balance s') = cb_paid_units (cs_balance s) + a ∧
        cb_remaining_units (cs_balance s') = cb_remaining_units (cs_balance s) - a.
Proof.
  intros (Hc & Hinv) Ho Hlive Ha. pose proof Hinv as (Hwf & Hs & Hf).
  apply DiscoveryClaimState_init_Ok in Hs as (_ & Hl & _). unfold discovery_open in Ho. bool_prop.
  set (b' := of_debt (paid_balance (as_debt (cs_balance s)) a t)).
  assert (pay_discovery_balance (cs_claim s) (cs_balance s) (PInt a) (PInt t) = Ok b') as Hpay.
  { apply pay_discovery_balance_Ok; [done|]. split_and!; try done. exists a, t.
    split_and!; try done; try lia. intros _. by apply Hf. }
  assert (discovery_inv (cs_claim s) b') as Hinv'.
  { eapply discovery_step_inv; [|exact Hinv|eapply dstep_pay, Hpay]. apply Hc. }
  exists {| cs_claim := cs_claim s; cs_balance := b' |}.
  unfold pay_discovery_state. rewrite Hpay. cbn [bind]. split_and!; try done. apply Hinv'.
Qed.

#[global] Instance discovery_ledger : ClaimLedger DiscoveryClaimState := {|
  cl_key := discovery_key;
  cl_hotkey s := dc_hotkey (cs_claim s);
  cl_remaining s := cb_remaining_units (cs_balance s);
  cl_paid s := cb_paid_units (cs_balance s);
  cl_open := discovery_open;
  cl_wf := discovery_wf;
  cl_live t s := dlive_at (cs_claim s) t;
  cl_pay := pay_discovery_state;
  cl_key_ok := discovery_key_ok;
  cl_hotkey_ok s Hs := proj1 (proj2 (proj2 (proj2 (proj2 (proj2 (proj1 Hs))))));
  cl_remaining_pos := discovery_remaining_pos;
  cl_pay_ok := discovery_pay_ok
|}.

(** ** The checks of the two classes *)

Lemma check_innovation_state_Ok p block s :
  check_innovation_state p block s = Ok tt ↔ check_epoch_state p block s = Ok tt.
Proof.
  rewrite check_epoch_state_Ok. unfold check_innovation_state, is_open. split.
  - intros Hc. inv_ok Hc. destruct v. split; [done|]. intros Ho.
    rewrite (bool_decide_eq_true_2 (db_status _ = "open")) in * by done. rewrite andb_true_r in *.
    simpl in *. bool_prop. done.
  - intros [-> Ho]. cbn [reraise bind]. destruct (decide (db_status (ds_balance s) = "open")) as [E|E].
    + destruct (Ho E). rewrite (bool_decide_eq_true_2 (db_status _ = "open")) by done.
      rewrite andb_true_r. simpl. pass_guard. by pass_guard.
    + rewrite (bool_decide_eq_false_2 (db_status _ = "open")) by done. by rewrite andb_false_r.
Qed.

Lemma check_discovery_state_Ok p block h s :
  check_discovery_state p block h s = Ok tt ↔
  claim_validate_policy (cs_claim s) p None = Ok tt ∧
  (discovery_open s = true →
   dc_hotkey (cs_claim s) ≠ h ∧ dc_awarded_block (cs_claim s) ≤ block < dc_expires_block (cs_claim s)).
Proof.
  unfold check_discovery_state. split.
  - intros Hc. inv_ok Hc. destruct v. split; [done|]. intros Ho. rewrite Ho in *. rewrite andb_true_r in *.
    simpl in *. bool_prop. done.
  - intros [-> Ho]. cbn [bind]. destruct (discovery_open s).
    + destruct (Ho eq_refl). rewrite andb_true_r. simpl. pass_guard. by pass_guard.
    + by rewrite andb_false_r.
Qed.
End instances.

Lemma check_input_digests_Ok ds : check_input_digests (sorted_str ds) = Ok tt ↔ NoDup ds ∧ Forall digest_ok ds.
Proof.
  unfold check_input_digests. split.
  - intros Hc. apply bind_Ok in Hc as (u & Hs & Hf). apply raise_if_Ok in Hs. bool_prop.
    apply sorted_unique_true in Hs as [Hs _]. apply forM_Ok in Hf. unfold sorted_str in *.
    rewrite sorted_by_perm in Hs, Hf. split; [done|]. eapply Forall_impl; [exact Hf|].
    intros x Hx. by apply bind_Ok in Hx as (y & [[= ->] Hy]%IC_digest_Ok & _).
  - intros [Hnd Hds]. rewrite sorted_unique_sorted_str by done. cbn [negb raise_if bind].
    apply forM_Ok. unfold sorted_str. rewrite sorted_by_perm. eapply Forall_impl; [exact Hds|].
    intros x Hx. simpl. by rewrite IC_digest_ok.
Qed.

Lemma mapM_Raise {A B} (f : A → result B) l e :
  (∀ x, x ∈ l → is_ok (f x) = true ∨ f x = Raise e) → (∃ x, x ∈ l ∧ f x = Raise e) → mapM f l = Raise e.
Proof.
  induction l as [|x l IH]; intros Hf (y & Hy & He); [by apply not_elem_of_nil in Hy|].
  cbn [mapM]. fold (mapM f). destruct (Hf x) as [Hx|Hx]; [left| |by rewrite Hx].
  destruct (f x) as [b|e'] eqn:E; [|done]. cbn [bind]. rewrite IH; [done|intros z Hz; apply Hf; by right|].
  apply elem_of_cons in Hy as [->|Hy]; [congruence|]. by exists y.
Qed.

Lemma raise_if_continue {A} b e (r : A) : b = false → (do! raise_if b e ;; Ok r) = Ok r.
Proof. by intros ->. Qed.

Lemma Forall2_impl_elem {A B} (P Q : A → B → Prop) l k :
  Forall2 P l k → (∀ x y, x ∈ l → P x y → Q x y) → Forall2 Q l k.
Proof.
  induction 1 as [|x y l k Hxy Hl IH]; intros HPQ; constructor.
  - apply HPQ; [left | done].
  - apply IH. intros z w Hz. apply HPQ. by right.
Qed.

(** The exception of [DebtHotkeyWeight(hotkey, 0)]. *)
Definition zero_weight_error : pyexn := Exn FiniteDebtError "must be an integer in range".

(** The closed form *)

Section composed.
Context `{Sha256}.
Context (fp : FiniteDebtPolicyManifest) (cp : IncentiveCompositionPolicyManifest).
Context (block : Z) (inns : list DebtClaimState) (discs : list DiscoveryClaimState).

Definition discovery_payout : Z := class_payout discs (cp_discovery_cap_units cp).
Definition innovation_capacity : Z := PPM - reserve_floor_units cp - discovery_payout.
Definition innovation_payout : Z := class_payout inns innovation_capacity.
Definition composed_reserve : Z := PPM - discovery_payout - innovation_payout.
Definition discovery_allocs : list CompositionClassAllocation := class_allocations discs (cp_discovery_cap_units cp).
Definition innovation_allocs : list CompositionClassAllocation := class_allocations inns innovation_capacity.
Definition composed_units : gmap string Z := units_by_hotkey ca_hotkey ca_units (discovery_allocs ++ innovation_allocs).
Definition composed_weights : list DebtHotkeyWeight := weight_rows (<[fp_reserve_hotkey fp := composed_reserve]> composed_units).

Definition composed_projection (composition_digest innovation_digest : string) : ComposedEpochProjection :=
  {| ep_composition_policy_digest := composition_digest;
     ep_innovation_policy_digest := innovation_digest;
     ep_effective_block := block;
     ep_reference_epoch_units := PInt REFERENCE_EPOCH_UNITS;
     ep_reserve_floor_units := reserve_floor_units cp;
     ep_discovery_capacity_units := cp_discovery_cap_units cp;
     ep_discovery_total_remaining_units := class_total discs;
     ep_discovery_payout_units := discovery_payout;
     ep_innovation_capacity_units := innovation_capacity;
     ep_innovation_total_remaining_units := class_total inns;
     ep_innovation_payout_units := innovation_payout;
     ep_reserve_hotkey := fp_reserve_hotkey fp;
     ep_reserve_units := composed_reserve;
     ep_discovery_input_state_digests := sorted_str (DiscoveryClaimState_digest <$> sorted_by discovery_key discs);
     ep_innovation_input_state_digests := sorted_str (DebtClaimState_digest <$> sorted_by claim_key inns);
     ep_discovery_allocations := discovery_allocs;
     ep_innovation_allocations := innovation_allocs;
     ep_weights := composed_weights |}.

Context (Hfp : policy_wf fp) (Hcp : cpolicy_wf cp) (Hblock : 0 ≤ block).
Context (Hinn : Forall cl_wf inns) (Hdisc : Forall cl_wf discs).
Context (Kinn : NoDup (cl_key <$> inns)) (Kdisc : NoDup (cl_key <$> discs)).
Context (Cinn : Forall (λ s, check_innovation_state fp block s = Ok tt) inns).
Context (Cdisc : Forall (λ s, check_discovery_state cp block (fp_reserve_hotkey fp) s = Ok tt) discs).

Lemma discovery_cap_bounds : 0 ≤ cp_discovery_cap_units cp ≤ PPM.
Proof. pose proof (cw_cap cp Hcp). pose proof (cw_reserve cp Hcp). lia. Qed.

Lemma discovery_payout_bounds : 0 ≤ discovery_payout ≤ cp_discovery_cap_units cp.
Proof. apply (class_payout_bounds discs _ Hdisc discovery_cap_bounds). Qed.

Lemma innovation_capacity_bounds : 0 ≤ innovation_capacity ≤ PPM - reserve_floor_units cp.
Proof.
  unfold innovation_capacity, reserve_floor_units. pose proof discovery_payout_bounds.
  pose proof (cw_cap cp Hcp). lia.
Qed.

Lemma innovation_capacity_ppm : 0 ≤ innovation_capacity ≤ PPM.
Proof. pose proof innovation_capacity_bounds. pose proof (cw_reserve cp Hcp). unfold reserve_floor_units in *. lia. Qed.

Lemma innovation_payout_bounds : 0 ≤ innovation_payout ≤ innovation_capacity.
Proof. apply (class_payout_bounds inns _ Hinn innovation_capacity_ppm). Qed.

(** The reserve never falls below its floor. *)
Lemma composed_reserve_bounds : reserve_floor_units cp ≤ composed_reserve ≤ PPM.
Proof.
  pose proof innovation_payout_bounds. pose proof discovery_payout_bounds.
  unfold composed_reserve, innovation_capacity in *. lia.
Qed.

Lemma innovation_live : Forall (λ s, cl_open s = true → cl_live block s) inns.
Proof.
  eapply Forall_impl; [exact Cinn|]. intros s Hs Ho.
  apply check_innovation_state_Ok, check_epoch_state_Ok in Hs as [_ Hc].
  change (is_open s = true) in Ho. unfold is_open in Ho. bool_prop. split; [done | by apply Hc].
Qed.

Lemma discovery_live : Forall (λ s, cl_open s = true → cl_live block s) discs.
Proof.
  eapply Forall_impl; [exact Cdisc|]. intros s Hs Ho. apply check_discovery_state_Ok in Hs as [_ Hc].
  split; [done | by apply Hc].
Qed.

(** Every allocation belongs to a well-formed owner other than the reserve. *)
Lemma composed_owner a :
  a ∈ discovery_allocs ++ innovation_allocs →
  hotkey_matches (ca_hotkey a) = true ∧ ca_hotkey a ≠ fp_reserve_hotkey fp.
Proof.
  rewrite elem_of_app. intros [Ha|Ha].
  - apply class_allocation_owner in Ha as (s & Hs & Ho & _ & -> & _); [|apply discovery_cap_bounds].
    rewrite Forall_forall in Hdisc, Cdisc.
    split; [by apply cl_hotkey_ok, Hdisc|]. specialize (Cdisc s Hs).
    apply check_discovery_state_Ok in Cdisc as [_ Hc]. by apply Hc.
  - apply class_allocation_owner in Ha as (s & Hs & Ho & _ & -> & _); [|apply innovation_capacity_ppm].
    rewrite Forall_forall in Hinn, Cinn.
    split; [by apply cl_hotkey_ok, Hinn|]. specialize (Cinn s Hs).
    apply check_innovation_state_Ok, check_epoch_state_Ok in Cinn as [_ Hc]. apply Hc.
    apply is_open_status. change (is_open s = true) in Ho. by rewrite Ho.
Qed.

Lemma composed_allocations_pos : Forall (λ a, 1 ≤ ca_units a) (discovery_allocs ++ innovation_allocs).
Proof. apply Forall_app. split; apply class_allocations_pos. Qed.

Lemma composed_allocations_sum : Zsum (ca_units <$> (discovery_allocs ++ innovation_allocs)) = discovery_payout + innovation_payout.
Proof.
  rewrite fmap_app, Zsum_app. f_equal.
  - apply (class_allocations_sum discs _ Hdisc Kdisc discovery_cap_bounds).
  - apply (class_allocations_sum inns _ Hinn Kinn innovation_capacity_ppm).
Qed.

Lemma composed_units_bounds k v :
  composed_units !! k = Some v → hotkey_matches k = true ∧ k ≠ fp_reserve_hotkey fp ∧ 1 ≤ v ≤ discovery_payout + innovation_payout.
Proof.
  intros Hk. assert (k ∈ ca_hotkey <$> (discovery_allocs ++ innovation_allocs)) as Hin
    by (apply units_by_hotkey_dom with (units := ca_units); eauto).
  apply list_elem_of_fmap in Hin as (a & -> & Ha). destruct (composed_owner a Ha).
  split; [done|]. split; [done|]. split; [by eapply units_by_hotkey_pos, Hk; apply composed_allocations_pos|].
  assert (v = Zsum (ca_units <$> filter (λ b, ca_hotkey b = ca_hotkey a) (discovery_allocs ++ innovation_allocs))) as ->.
  { rewrite <- units_by_hotkey_get. fold composed_units. unfold dict_get. by rewrite Hk. }
  rewrite <- composed_allocations_sum. apply Zsum_filter_le. eapply Forall_impl; [apply composed_allocations_pos|].
  simpl. lia.
Qed.

Lemma composed_units_reserve : composed_units !! fp_reserve_hotkey fp = None.
Proof.
  destruct (composed_units !! fp_reserve_hotkey fp) eqn:E; [|done]. exfalso.
  by destruct (composed_units_bounds _ _ E) as (_ & ? & _).
Qed.

Lemma composed_dict : dict_add composed_units (fp_reserve_hotkey fp) composed_reserve
  = <[fp_reserve_hotkey fp := composed_reserve]> composed_units.
Proof. unfold dict_add, dict_get. by rewrite composed_units_reserve. Qed.

Lemma composed_dict_entry k v :
  0 < composed_reserve → <[fp_reserve_hotkey fp := composed_reserve]> composed_units !! k = Some v →
  hotkey_matches k = true ∧ 1 ≤ v ≤ REFERENCE_EPOCH_UNITS.
Proof.
  intros Hr. pose proof composed_reserve_bounds. pose proof discovery_payout_bounds. pose proof innovation_payout_bounds.
  pose proof innovation_capacity_bounds. pose proof (cw_reserve cp Hcp).
  rewrite lookup_insert. case_decide.
  - intros [= <-]. subst. split; [apply Hfp|]. unfold REFERENCE_EPOCH_UNITS. lia.
  - intros Hk. destruct (composed_units_bounds k v Hk) as (? & _ & ?). split; [done|].
    unfold REFERENCE_EPOCH_UNITS, innovation_capacity, reserve_floor_units in *. lia.
Qed.

Lemma composed_weights_sum : Zsum (hw_units <$> composed_weights) = PPM.
Proof.
  unfold composed_weights. rewrite weight_rows_sum, dict_sum_insert_fresh by apply composed_units_reserve.
  unfold composed_units. rewrite units_by_hotkey_sum, composed_allocations_sum. unfold composed_reserve. lia.
Qed.

Lemma composed_weights_dict :
  0 < composed_reserve →
  weights_dict composed_weights = positive_part (dict_add composed_units (fp_reserve_hotkey fp) composed_reserve).
Proof.
  intros Hr. unfold composed_weights. rewrite weights_dict_rows, composed_dict. symmetry. apply positive_part_all.
  intros k v Hk. destruct (composed_dict_entry k v Hr Hk). lia.
Qed.

Lemma composed_units_entry k v :
  composed_units !! k = Some v → hotkey_matches k = true ∧ 1 ≤ v ≤ REFERENCE_EPOCH_UNITS.
Proof.
  intros Hk. destruct (composed_units_bounds k v Hk) as (? & _ & ?). split; [done|].
  pose proof discovery_payout_bounds. pose proof innovation_payout_bounds. pose proof (cw_reserve cp Hcp).
  pose proof innovation_capacity_bounds.
  unfold REFERENCE_EPOCH_UNITS, innovation_capacity, reserve_floor_units in *. lia.
Qed.

(** An entry of zero units for the reserve makes the weight constructor raise. *)
Lemma reserve_weight_raises :
  let m := <[fp_reserve_hotkey fp := 0]> composed_units in
  mapM (λ hotkey, DebtHotkeyWeight_init (PStr hotkey) (PInt (dict_get m hotkey))) (sorted_str (map_to_list m).*1)
    = Raise zero_weight_error.
Proof.
  intros m. assert (∀ k, k ∈ sorted_str (map_to_list m).*1 ↔ is_Some (m !! k)) as Hk.
  { intros k. unfold sorted_str. rewrite sorted_by_perm, list_elem_of_fmap. split.
    - intros ([k' v] & -> & Hk%elem_of_map_to_list). simpl. eauto.
    - intros [v Hv]. exists (k, v). split; [done|]. by apply elem_of_map_to_list. }
  pose proof (pw_reserve_hotkey fp Hfp).
  assert (DebtHotkeyWeight_init (PStr (fp_reserve_hotkey fp)) (PInt (dict_get m (fp_reserve_hotkey fp)))
    = Raise zero_weight_error) as Hz.
  { unfold DebtHotkeyWeight_init, m, dict_get. rewrite lookup_insert_eq. fd_run. done. }
  apply mapM_Raise.
  - intros k [v Hv]%Hk. destruct (decide (k = fp_reserve_hotkey fp)) as [->|Hne]; [by right|left].
    unfold m in Hv. rewrite lookup_insert_ne in Hv by done. destruct (composed_units_entry k v Hv).
    unfold DebtHotkeyWeight_init, m, dict_get. rewrite lookup_insert_ne, Hv by done. simpl. fd_run. done.
  - exists (fp_reserve_hotkey fp). split; [|done]. apply Hk. unfold m. rewrite lookup_insert_eq. eauto.
Qed.

(** ** The projection computes the closed form *)

Definition dstate_digests : list string := DiscoveryClaimState_digest <$> sorted_by discovery_key discs.
Definition istate_digests : list string := DebtClaimState_digest <$> sorted_by claim_key inns.

Lemma composed_init cd idg d :
  digest_ok cd → digest_ok idg → 0 < composed_reserve →
  ComposedEpochProjection_init (PStr cd) (PStr idg) (PInt block) (PInt REFERENCE_EPOCH_UNITS)
    (PInt (reserve_floor_units cp)) (PInt (cp_discovery_cap_units cp)) (PInt (class_total discs))
    (PInt discovery_payout) (PInt innovation_capacity) (PInt (class_total inns)) (PInt innovation_payout)
    (PStr (fp_reserve_hotkey fp)) (PInt composed_reserve) (sorted_str dstate_digests) (sorted_str istate_digests)
    discovery_allocs innovation_allocs composed_weights = Ok d ↔
  (NoDup dstate_digests ∧ Forall digest_ok dstate_digests) ∧ (NoDup istate_digests ∧ Forall digest_ok istate_digests) ∧
  d = composed_projection cd idg.
Proof.
  intros Hcd Hid Hr. pose proof composed_reserve_bounds. pose proof discovery_payout_bounds.
  pose proof innovation_payout_bounds. pose proof innovation_capacity_bounds.
  pose proof (cw_reserve cp Hcp). pose proof (cw_cap cp Hcp). pose proof (pw_reserve_hotkey fp Hfp).
  pose proof (class_total_nonneg discs _ Hdisc discovery_cap_bounds).
  pose proof (class_total_nonneg inns _ Hinn innovation_capacity_ppm).
  unfold ComposedEpochProjection_init. unfold reserve_floor_units in *. ic_run.
  replace (raise_if (negb (py_eq_int _ _)) _) with (Ok tt) by done. ic_run.
  unfold discovery_allocs, innovation_allocs.
  rewrite (class_allocations_unique discs _ Kdisc) by apply discovery_cap_bounds.
  rewrite (class_allocations_unique inns _ Kinn) by apply innovation_capacity_ppm.
  rewrite (class_allocations_sum discs _ Hdisc Kdisc discovery_cap_bounds).
  rewrite (class_allocations_sum inns _ Hinn Kinn innovation_capacity_ppm).
  fold discovery_allocs innovation_allocs. fold discovery_payout innovation_payout. fold composed_units.
  rewrite composed_weights_sum. unfold composed_weights at 1. rewrite weight_rows_unique.
  rewrite <- composed_weights_dict by done. split.
  - intros Hi. inv_ok Hi. subst d. destruct v, v0. split_and!; try done; by apply check_input_digests_Ok.
  - intros (Hd & Hi & ->). rewrite (proj2 (check_input_digests_Ok dstate_digests)) by done. cbn [bind].
    rewrite (proj2 (check_input_digests_Ok istate_digests)) by done. cbn [bind negb raise_if].
    unfold innovation_capacity, reserve_floor_units in *. pass_guard. by pass_guard.
Qed.

(** What the code computes before it builds the weights. *)
Lemma composed_prefix :
  validate_innovation_policy cp fp = Ok tt →
  project_composed_epoch fp cp (PInt block) inns discs =
  let! weights := mapM (λ hotkey, DebtHotkeyWeight_init (PStr hotkey)
                    (PInt (dict_get (<[fp_reserve_hotkey fp := composed_reserve]> composed_units) hotkey)))
                    (sorted_str (map_to_list (<[fp_reserve_hotkey fp := composed_reserve]> composed_units)).*1) in
  let! composition_digest := IncentiveCompositionPolicyManifest_digest cp in
  let! innovation_digest := FiniteDebtPolicyManifest_digest fp in
  ComposedEpochProjection_init (PStr composition_digest) (PStr innovation_digest) (PInt block)
    (PInt REFERENCE_EPOCH_UNITS) (PInt (reserve_floor_units cp)) (PInt (cp_discovery_cap_units cp))
    (PInt (class_total discs)) (PInt discovery_payout) (PInt innovation_capacity) (PInt (class_total inns))
    (PInt innovation_payout) (PStr (fp_reserve_hotkey fp)) (PInt composed_reserve)
    (sorted_str dstate_digests) (sorted_str istate_digests) discovery_allocs innovation_allocs weights.
Proof.
  intros Hv. unfold project_composed_epoch. rewrite Hv. cbn [bind]. ic_run.
  assert (_canonical_innovation_states fp inns block = Ok (sorted_by claim_key inns)) as ->.
  { unfold _canonical_innovation_states.
    assert (NoDup (claim_key <$> sorted_by claim_key inns)) by (by rewrite sorted_by_perm). pass_guard.
    replace (forM_ _ _) with (Ok tt); [done|]. symmetry. apply forM_Ok. by rewrite sorted_by_perm. }
  assert (_canonical_discovery_states cp discs block (fp_reserve_hotkey fp) = Ok (sorted_by discovery_key discs)) as ->.
  { unfold _canonical_discovery_states.
    assert (NoDup (discovery_key <$> sorted_by discovery_key discs)) by (by rewrite sorted_by_perm). pass_guard.
    replace (forM_ _ _) with (Ok tt); [done|]. symmetry. apply forM_Ok. by rewrite sorted_by_perm. }
  cbn [bind].
  change (discovery_row <$> filter discovery_open (sorted_by discovery_key discs)) with (class_row <$> class_open discs).
  rewrite (pro_rata_class discs _ Hdisc Kdisc discovery_cap_bounds). cbn [bind].
  change (PPM - reserve_floor_units cp - Z.min (cp_discovery_cap_units cp) _) with innovation_capacity.
  change (innovation_row <$> filter is_open (sorted_by claim_key inns)) with (class_row <$> class_open inns).
  rewrite (pro_rata_class inns _ Hinn Kinn innovation_capacity_ppm). cbn [bind].
  rewrite <- composed_dict. done.
Qed.

Lemma project_composed d :
  validate_innovation_policy cp fp = Ok tt →
  project_composed_epoch fp cp (PInt block) inns discs = Ok d ↔
  0 < composed_reserve ∧ ∃ cd idg,
    IncentiveCompositionPolicyManifest_digest cp = Ok cd ∧ digest_ok cd ∧
    FiniteDebtPolicyManifest_digest fp = Ok idg ∧ digest_ok idg ∧
    (NoDup dstate_digests ∧ Forall digest_ok dstate_digests) ∧ (NoDup istate_digests ∧ Forall digest_ok istate_digests) ∧
    d = composed_projection cd idg.
Proof.
  intros Hv. rewrite composed_prefix by done. pose proof composed_reserve_bounds as [Hfloor _].
  pose proof (cw_reserve cp Hcp) as Hres. unfold reserve_floor_units in Hfloor.
  destruct (decide (0 < composed_reserve)) as [Hr|Hr].
  - rewrite weight_rows_init by (intros; by apply composed_dict_entry). cbn [bind]. split.
    + intros Hd. split; [done|]. apply bind_Ok in Hd as (cd & Hcd & Hd). apply bind_Ok in Hd as (idg & Hid & Hd).
      exists cd, idg. assert (digest_ok cd ∧ digest_ok idg) as [Dc Di].
      { unfold ComposedEpochProjection_init in Hd. apply bind_Ok in Hd as (? & [[= <-] ?]%IC_digest_Ok & Hd).
        apply bind_Ok in Hd as (? & [[= <-] ?]%IC_digest_Ok & _). done. }
      apply composed_init in Hd; [|done..]. destruct Hd as (? & ? & ->). done.
    + intros (_ & cd & idg & Hcd & Dc & Hid & Di & Hds & His & ->). rewrite Hcd, Hid. cbn [bind].
      by apply composed_init.
  - split; [|intros [? _]; lia]. intros Hd. apply bind_Ok in Hd as (ws & Hws & _). exfalso.
    assert (composed_reserve = 0) as E by lia. rewrite E in Hws. by rewrite reserve_weight_raises in Hws.
Qed.

(** ** Applying the projection *)

Lemma apply_innovation_row_class amounts s s' :
  cl_wf s → class_apply_row amounts block s = Ok s' → apply_innovation_row amounts block s = Ok s'.
Proof.
  intros Hw. unfold class_apply_row, apply_innovation_row. change (cl_key s) with (claim_key s).
  destruct (dict_get amounts (claim_key s) =? 0) eqn:E.
  - intros [= <-]. cbn [reraise bind]. by apply innovation_rebuild.
  - change (cl_pay s) with (pay_state s). unfold pay_state. intros Hp. apply bind_Ok in Hp as (b & Hb & Hp).
    by rewrite Hb.
Qed.

Lemma apply_discovery_row_class amounts s s' :
  cl_wf s → class_apply_row amounts block s = Ok s' → apply_discovery_row amounts block s = Ok s'.
Proof.
  intros Hw. unfold class_apply_row, apply_discovery_row. change (cl_key s) with (discovery_key s).
  destruct (dict_get amounts (discovery_key s) =? 0) eqn:E.
  - intros [= <-]. cbn [bind]. by apply discovery_rebuild.
  - done.
Qed.

Lemma mapM_impl {A B} (f g : A → result B) l k :
  (∀ x y, x ∈ l → f x = Ok y → g x = Ok y) → mapM f l = Ok k → mapM g l = Ok k.
Proof.
  intros Hfg. rewrite !mapM_Ok. intros Hf. eapply Forall2_impl_elem; [exact Hf|]. eauto.
Qed.

(** The projection of the epoch applies to its own states: every claim is paid
    its share, in both classes. *)
Lemma apply_composed cd idg :
  ∃ inns' discs',
    apply_composed_epoch inns discs (composed_projection cd idg) = Ok (inns', discs') ∧
    Forall2 (class_paid_state inns innovation_capacity) (sorted_by claim_key inns) inns' ∧
    Forall2 (class_paid_state discs (cp_discovery_cap_units cp)) (sorted_by discovery_key discs) discs'.
Proof.
  destruct (class_apply inns _ Hinn Kinn innovation_capacity_ppm block innovation_live) as (inns' & Mi & Fi).
  destruct (class_apply discs _ Hdisc Kdisc discovery_cap_bounds block discovery_live) as (discs' & Md & Fd).
  exists inns', discs'. split; [|done].
  assert (∀ s, s ∈ sorted_by claim_key inns → cl_wf s) as Wi
    by (intros s; rewrite sorted_by_perm; rewrite Forall_forall in Hinn; apply Hinn).
  assert (∀ s, s ∈ sorted_by discovery_key discs → cl_wf s) as Wd
    by (intros s; rewrite sorted_by_perm; rewrite Forall_forall in Hdisc; apply Hdisc).
  apply (mapM_impl _ (apply_innovation_row (class_amounts innovation_allocs) block)) in Mi;
    [|intros s s' Hs; apply apply_innovation_row_class; by apply Wi].
  apply (mapM_impl _ (apply_discovery_row (class_amounts discovery_allocs) block)) in Md;
    [|intros s s' Hs; apply apply_discovery_row_class; by apply Wd].
  unfold apply_composed_epoch.
  replace (raise_if (negb (bool_decide (_ = _)) || _) _) with (Ok tt)
    by (by rewrite !bool_decide_eq_true_2).
  cbn [bind ep_innovation_allocations ep_discovery_allocations ep_effective_block ep_innovation_payout_units
       ep_discovery_payout_units composed_projection].
  change (sorted_by cl_key inns) with (sorted_by claim_key inns) in *.
  change (sorted_by cl_key discs) with (sorted_by discovery_key discs) in *.
  replace (raise_if (existsb _ _ || _) _) with (Ok tt).
  2: { symmetry. apply raise_if_Ok, orb_false_iff. split.
       - apply (class_owners inns _ Kinn innovation_capacity_ppm).
       - apply (class_owners discs _ Kdisc discovery_cap_bounds). }
  cbn [bind]. rewrite Mi. cbn [bind]. rewrite Md. cbn [bind].
  pose proof (class_paid_sum inns innovation_capacity _ _ Fi) as Si.
  pose proof (class_paid_sum discs (cp_discovery_cap_units cp) _ _ Fd) as Sd.
  pose proof (class_shares_total inns _ Hinn Kinn innovation_capacity_ppm) as Ti.
  pose proof (class_shares_total discs _ Hdisc Kdisc discovery_cap_bounds) as Td.
  change (sorted_by cl_key inns) with (sorted_by claim_key inns) in Ti.
  change (sorted_by cl_key discs) with (sorted_by discovery_key discs) in Td.
  rewrite Ti in Si. rewrite Td in Sd. fold innovation_payout in Si. fold discovery_payout in Sd.
  apply raise_if_continue. rewrite <- Si, <- Sd. bool_goal.
Qed.
End composed.

(** The projection succeeds exactly on these inputs, with exactly this result. *)
Lemma project_composed_epoch_Ok `{Sha256} fp cp eb inns discs d :
  policy_wf fp → cpolicy_wf cp → Forall cl_wf inns → Forall cl_wf discs →
  project_composed_epoch fp cp eb inns discs = Ok d ↔
  ∃ block cd idg, eb = PInt block ∧ 0 ≤ block ∧ validate_innovation_policy cp fp = Ok tt ∧
    NoDup (cl_key <$> inns) ∧ NoDup (cl_key <$> discs) ∧
    Forall (λ s, check_innovation_state fp block s = Ok tt) inns ∧
    Forall (λ s, check_discovery_state cp block (fp_reserve_hotkey fp) s = Ok tt) discs ∧
    0 < composed_reserve cp inns discs ∧
    IncentiveCompositionPolicyManifest_digest cp = Ok cd ∧ digest_ok cd ∧
    FiniteDebtPolicyManifest_digest fp = Ok idg ∧ digest_ok idg ∧
    (NoDup (dstate_digests discs) ∧ Forall digest_ok (dstate_digests discs)) ∧
    (NoDup (istate_digests inns) ∧ Forall digest_ok (istate_digests inns)) ∧
    d = composed_projection fp cp block inns discs cd idg.
Proof.
  intros Hfp Hcp Hi Hd. split.
  - intros Hp. pose proof Hp as Hp'. unfold project_composed_epoch in Hp'.
    apply bind_Ok in Hp' as ([] & Hv & Hp'). apply bind_Ok in Hp' as (block & [-> Hb]%IC_integer_min & Hp').
    apply bind_Ok in Hp' as (irows & Hir & Hp'). apply bind_Ok in Hp' as (drows & Hdr & _).
    unfold _canonical_innovation_states in Hir. unfold _canonical_discovery_states in Hdr.
    inv_ok Hir. inv_ok Hdr. bool_prop. rewrite !sorted_by_perm in *.
    apply project_composed in Hp as (Hr & cd & idg & ?); [|done..]. exists block, cd, idg. done.
  - intros (block & cd & idg & -> & Hb & Hv & Ki & Kd & Ci & Cd & Hr & ?). apply project_composed; try done.
    split; [done|]. by exists cd, idg.
Qed.
