(* ===== verification/Stack.v ===== *)
(** * Contributions and evaluation stacks (src/optima/stack_manifest.py)

    The content identities the emissions projection and the planner read:
    contribution references, the evaluation stack manifest and its expected
    context. *)

From Stdlib Require Import ZArith Lia Ascii.
From stdpp Require Import base tactics numbers list strings gmap sorting.
From S2P Require Import Prelude PyValue Sha256 Identity Strict FiniteDebt.

Definition CONTRIBUTION_REF_SCHEMA_VERSION : Z := 1.
Definition STACK_MANIFEST_SCHEMA_VERSION : Z := 1.
Definition EVALUATION_STACK_POLICY_VERSION : string := "evaluation-stack.v1".

(** ** Validators of stack_manifest.py *)

Module SM.
Definition error (msg : string) : pyexn := Exn StackManifestError msg.

(** The class of [_TARGET_RE = ^[0-9A-Za-z._-]+$]. *)
Definition is_target_char (c : ascii) : bool :=
  let n := code c in
  ((48 <=? n) && (n <=? 57)) || ((65 <=? n) && (n <=? 90)) || ((97 <=? n) && (n <=? 122))
  || (n =? 46) || (n =? 95) || (n =? 45).

Definition target_matches (s : string) : bool :=
  negb (bool_decide (s = "")) && forallb is_target_char (chars s).

Definition _target_id (v : pyval) : result string :=
  match v with
  | PStr s =>
      if bool_decide (s = "") || negb (bool_decide (strip s = s)) || negb (target_matches s)
      then Raise (error "must be a canonical target ID") else Ok s
  | _ => Raise (error "must be a canonical target ID")
  end.

Definition _digest (v : pyval) : result string := require_digest StackManifestError false false v.

(** [_current_version] for an integer and for a text version. *)
Definition _current_int (expected : Z) (v : pyval) : result Z :=
  match v with
  | PInt z => if z =? expected then Ok z else Raise (error "unsupported")
  | _ => Raise (error "unsupported")
  end.

Definition _current_str (expected : string) (v : pyval) : result string :=
  match v with
  | PStr s => if bool_decide (s = expected) then Ok s else Raise (error "unsupported")
  | _ => Raise (error "unsupported")
  end.

Definition _strict_object (fields : list string) (v : pyval) : result (list (string * pyval)) :=
  require_exact_fields StackManifestError fields false v.
End SM.

#[global] Arguments SM._target_id : simpl never.
#[global] Arguments SM._digest : simpl never.
#[global] Arguments SM._current_int : simpl never.
#[global] Arguments SM._current_str : simpl never.
#[global] Arguments SM._strict_object : simpl never.

(** ** Contribution references *)

Record ProposalContributionRef := {
  pr_target_id : string;
  pr_target_spec_digest : string;
  pr_artifact_digest : string;
  pr_selected_payload_digest : string;
  pr_attribution_digest : string;
  pr_schema_version : Z
}.

Definition ProposalContributionRef_init
    (target_id target_spec_digest artifact_digest selected_payload_digest attribution_digest schema_version : pyval)
    : result ProposalContributionRef :=
  let! target_id := SM._target_id target_id in
  let! target_spec_digest := SM._digest target_spec_digest in
  let! artifact_digest := SM._digest artifact_digest in
  let! selected_payload_digest := SM._digest selected_payload_digest in
  let! attribution_digest := SM._digest attribution_digest in
  let! schema_version := SM._current_int CONTRIBUTION_REF_SCHEMA_VERSION schema_version in
  Ok {| pr_target_id := target_id;
        pr_target_spec_digest := target_spec_digest;
        pr_artifact_digest := artifact_digest;
        pr_selected_payload_digest := selected_payload_digest;
        pr_attribution_digest := attribution_digest;
        pr_schema_version := schema_version |}.

Definition ProposalContributionRef_to_dict (r : ProposalContributionRef) : pyval :=
  py_dict [
    ("artifact_digest", PStr (pr_artifact_digest r));
    ("attribution_digest", PStr (pr_attribution_digest r));
    ("schema_version", PInt (pr_schema_version r));
    ("selected_payload_digest", PStr (pr_selected_payload_digest r));
    ("target_id", PStr (pr_target_id r));
    ("target_spec_digest", PStr (pr_target_spec_digest r));
    ("type", PStr "proposal")].

Definition ProposalContributionRef_from_dict (v : pyval) : result ProposalContributionRef :=
  let! row := SM._strict_object ["artifact_digest"; "attribution_digest"; "schema_version"; "selected_payload_digest";
                "target_id"; "target_spec_digest"; "type"] v in
  let! kind := row_get row "type" in
  do! raise_if (negb (py_eq_str kind "proposal")) (SM.error "proposal contribution type must be 'proposal'") ;;
  let! target_id := row_get row "target_id" in
  let! target_spec_digest := row_get row "target_spec_digest" in
  let! artifact_digest := row_get row "artifact_digest" in
  let! selected_payload_digest := row_get row "selected_payload_digest" in
  let! attribution_digest := row_get row "attribution_digest" in
  let! schema_version := row_get row "schema_version" in
  ProposalContributionRef_init target_id target_spec_digest artifact_digest selected_payload_digest
    attribution_digest schema_version.

Record IntegratedContributionRef := {
  ir_target_id : string;
  ir_target_spec_digest : string;
  ir_integrated_source_tree_digest : string;
  ir_selected_payload_digest : string;
  ir_attribution_digest : string;
  ir_integration_record_digest : string;
  ir_schema_version : Z
}.

Definition IntegratedContributionRef_init
    (target_id target_spec_digest integrated_source_tree_digest selected_payload_digest attribution_digest
     integration_record_digest schema_version : pyval) : result IntegratedContributionRef :=
  let! target_id := SM._target_id target_id in
  let! target_spec_digest := SM._digest target_spec_digest in
  let! integrated_source_tree_digest := SM._digest integrated_source_tree_digest in
  let! selected_payload_digest := SM._digest selected_payload_digest in
  let! attribution_digest := SM._digest attribution_digest in
  let! integration_record_digest := SM._digest integration_record_digest in
  let! schema_version := SM._current_int CONTRIBUTION_REF_SCHEMA_VERSION schema_version in
  Ok {| ir_target_id := target_id;
        ir_target_spec_digest := target_spec_digest;
        ir_integrated_source_tree_digest := integrated_source_tree_digest;
        ir_selected_payload_digest := selected_payload_digest;
        ir_attribution_digest := attribution_digest;
        ir_integration_record_digest := integration_record_digest;
        ir_schema_version := schema_version |}.

Definition IntegratedContributionRef_to_dict (r : IntegratedContributionRef) : pyval :=
  py_dict [
    ("attribution_digest", PStr (ir_attribution_digest r));
    ("integrated_source_tree_digest", PStr (ir_integrated_source_tree_digest r));
    ("integration_record_digest", PStr (ir_integration_record_digest r));
    ("schema_version", PInt (ir_schema_version r));
    ("selected_payload_digest", PStr (ir_selected_payload_digest r));
    ("target_id", PStr (ir_target_id r));
    ("target_spec_digest", PStr (ir_target_spec_digest r));
    ("type", PStr "integrated")].

Definition IntegratedContributionRef_from_dict (v : pyval) : result IntegratedContributionRef :=
  let! row := SM._strict_object ["attribution_digest"; "integrated_source_tree_digest"; "integration_record_digest";
                "schema_version"; "selected_payload_digest"; "target_id"; "target_spec_digest"; "type"] v in
  let! kind := row_get row "type" in
  do! raise_if (negb (py_eq_str kind "integrated")) (SM.error "integrated contribution type must be 'integrated'") ;;
  let! target_id := row_get row "target_id" in
  let! target_spec_digest := row_get row "target_spec_digest" in
  let! integrated_source_tree_digest := row_get row "integrated_source_tree_digest" in
  let! selected_payload_digest := row_get row "selected_payload_digest" in
  let! attribution_digest := row_get row "attribution_digest" in
  let! integration_record_digest := row_get row "integration_record_digest" in
  let! schema_version := row_get row "schema_version" in
  IntegratedContributionRef_init target_id target_spec_digest integrated_source_tree_digest
    selected_payload_digest attribution_digest integration_record_digest schema_version.

(** [ContributionRef: TypeAlias = ProposalContributionRef | IntegratedContributionRef] *)
Inductive ContributionRef :=
  | Proposal (r : ProposalContributionRef)
  | Integrated (r : IntegratedContributionRef).

#[global] Instance ProposalContributionRef_eq_dec : EqDecision ProposalContributionRef.
Proof. solve_decision. Defined.
#[global] Instance IntegratedContributionRef_eq_dec : EqDecision IntegratedContributionRef.
Proof. solve_decision. Defined.
#[global] Instance ContributionRef_eq_dec : EqDecision ContributionRef.
Proof. solve_decision. Defined.

Definition ref_target_id (r : ContributionRef) : string :=
  match r with Proposal r => pr_target_id r | Integrated r => ir_target_id r end.

Definition ref_target_spec_digest (r : ContributionRef) : string :=
  match r with Proposal r => pr_target_spec_digest r | Integrated r => ir_target_spec_digest r end.

Definition ref_selected_payload_digest (r : ContributionRef) : string :=
  match r with Proposal r => pr_selected_payload_digest r | Integrated r => ir_selected_payload_digest r end.

Definition ref_to_dict (r : ContributionRef) : pyval :=
  match r with
  | Proposal r => ProposalContributionRef_to_dict r
  | Integrated r => IntegratedContributionRef_to_dict r
  end.

Definition contribution_ref_from_dict (v : pyval) : result ContributionRef :=
  match v with
  | PDict kvs =>
      let kind := mapping_get kvs "type" in
      if py_eq_str kind "proposal" then result_map Proposal (ProposalContributionRef_from_dict v)
      else if py_eq_str kind "integrated" then result_map Integrated (IntegratedContributionRef_from_dict v)
      else Raise (SM.error "contribution requires type 'proposal' or 'integrated'")
  | _ => Raise (SM.error "contribution must be an object")
  end.

(** One iteration of the loop of [_entry_rows]. *)
Definition entry_row (integrated_only : bool) (raw : pyval * ContributionRef) : result (string * ContributionRef) :=
  let! target := SM._target_id raw.1 in
  do! raise_if (integrated_only && match raw.2 with Proposal _ => true | Integrated _ => false end)
        (SM.error "release manifests accept integrated contributions only") ;;
  do! raise_if (negb (bool_decide (ref_target_id raw.2 = target)))
        (SM.error "entry key does not match ref target") ;;
  Ok (target, raw.2).

(** [_entry_rows] on the pairs of a mapping. *)
Definition _entry_rows (entries : list (pyval * ContributionRef)) (integrated_only : bool)
    : result (list (string * ContributionRef)) :=
  let! rows := mapM (entry_row integrated_only) entries in
  do! raise_if (negb (bool_decide (NoDup rows.*1))) (SM.error "entries contain duplicate targets") ;;
  Ok (sorted_by fst rows).

(** ** The evaluation stack *)

(** [_catalog_json] is kept as the JSON it encodes, keys sorted. *)
Record EvaluationStackManifest := {
  es_runtime_digest : string;
  es_base_engine_digest : string;
  es_arena_digest : string;
  es_catalog_digest : string;
  es_schema_version : Z;
  es_stack_policy_version : string;
  es_catalog_json : json;
  es_entries : list (string * ContributionRef)
}.

(** [json.loads(self._catalog_json)] *)
Definition es_catalog_snapshot (s : EvaluationStackManifest) : pyval := json_value (es_catalog_json s).

Record EvaluationStackContext := {
  ec_runtime_digest : string;
  ec_base_engine_digest : string;
  ec_arena_digest : string;
  ec_catalog_digest : string;
  ec_catalog_json : json;
  ec_target_specs : list (string * string)
}.

(** [_catalog_json]: the JSON that [canonical_json_bytes] encodes. *)
Definition _catalog_json (snapshot : pyval) : result json :=
  match snapshot with
  | PDict kvs =>
      do! raise_if (is_nil kvs) (SM.error "catalog_snapshot must be a non-empty object") ;;
      let! j := reraise (λ c, bool_decide (c = StackIdentityError)) (λ _, SM.error "invalid catalog_snapshot")
                  (canonical_value snapshot) in
      Ok (json_sort j)
  | _ => Raise (SM.error "catalog_snapshot must be a non-empty object")
  end.

(** [_spec_rows] on the items of a mapping. *)
Definition _spec_rows (v : pyval) : result (list (string * string)) :=
  match v with
  | PDict kvs =>
      let! rows := mapM (λ kv, let! target := SM._target_id kv.1 in
                               let! digest := SM._digest kv.2 in
                               Ok (target, digest)) kvs in
      do! raise_if (negb (bool_decide (NoDup rows.*1))) (SM.error "target_spec_digests contains duplicate targets") ;;
      Ok (sorted_by fst rows)
  | _ => Raise (SM.error "target_spec_digests must be an object")
  end.

Section stack.
Context `{Sha256}.

Definition _selected_delta (target_id target_spec payload : string) : string :=
  digest_of "optima.contribution.selected_delta"
    (py_dict [("selected_payload_digest", PStr payload); ("target_id", PStr target_id); ("target_spec_digest", PStr target_spec)]).

Definition ref_selected_delta_digest (r : ContributionRef) : string :=
  _selected_delta (ref_target_id r) (ref_target_spec_digest r) (ref_selected_payload_digest r).

(** [ContributionRef.digest] *)
Definition ref_digest (r : ContributionRef) : string :=
  match r with
  | Proposal _ => digest_of "optima.contribution.proposal" (ref_to_dict r)
  | Integrated _ => digest_of "optima.contribution.integrated" (ref_to_dict r)
  end.

Definition _catalog_binding (snapshot digest : pyval) : result (json * string) :=
  let! canonical := _catalog_json snapshot in
  let! supplied := SM._digest digest in
  let! computed := canonical_digest "optima.target-catalog" (json_value canonical) (PInt 1) in
  do! raise_if (negb (bool_decide (supplied = computed)))
        (SM.error "catalog_digest does not match the embedded catalog_snapshot") ;;
  Ok (canonical, supplied).

(** One iteration of the loop of [_catalog_spec_rows]. *)
Definition catalog_spec_row (row : pyval) : result (string * string) :=
  match row with
  | PDict kvs =>
      let! target := SM._target_id (mapping_get kvs "target_id") in
      let! digest := canonical_digest "optima.target-spec" row (PInt 1) in
      Ok (target, digest)
  | _ => Raise (SM.error "catalog target must be an object")
  end.

Definition _catalog_spec_rows (catalog : json) : result (list (string * string)) :=
  match json_value catalog with
  | PDict kvs =>
      match mapping_get kvs "targets" with
      | PList ((_ :: _) as targets) =>
          let! rows := mapM catalog_spec_row targets in
          do! raise_if (negb (bool_decide (NoDup rows.*1))) (SM.error "catalog_snapshot contains duplicate target IDs") ;;
          Ok (sorted_by fst rows)
      | _ => Raise (SM.error "catalog_snapshot targets must be a non-empty list")
      end
  | _ => Raise (SM.error "catalog_snapshot targets must be a non-empty list")
  end.

Definition _context_spec_rows (catalog : json) (supplied : pyval) : result (list (string * string)) :=
  let! rows := _spec_rows supplied in
  let! expected := _catalog_spec_rows catalog in
  do! raise_if (negb (bool_decide (rows = expected)))
        (SM.error "target_spec_digests do not match the complete catalog_snapshot") ;;
  Ok rows.

Definition EvaluationStackContext_init
    (runtime_digest base_engine_digest arena_digest catalog_snapshot catalog_digest target_spec_digests : pyval)
    : result EvaluationStackContext :=
  let! runtime_digest := SM._digest runtime_digest in
  let! base_engine_digest := SM._digest base_engine_digest in
  let! arena_digest := SM._digest arena_digest in
  let! catalog := _catalog_binding catalog_snapshot catalog_digest in
  let! target_specs := _context_spec_rows catalog.1 target_spec_digests in
  Ok {| ec_runtime_digest := runtime_digest;
        ec_base_engine_digest := base_engine_digest;
        ec_arena_digest := arena_digest;
        ec_catalog_digest := catalog.2;
        ec_catalog_json := catalog.1;
        ec_target_specs := target_specs |}.

Definition EvaluationStackManifest_init
    (runtime_digest base_engine_digest arena_digest catalog_snapshot catalog_digest : pyval)
    (entries : list (pyval * ContributionRef)) (schema_version stack_policy_version : pyval)
    : result EvaluationStackManifest :=
  let! schema_version := SM._current_int STACK_MANIFEST_SCHEMA_VERSION schema_version in
  let! stack_policy_version := SM._current_str EVALUATION_STACK_POLICY_VERSION stack_policy_version in
  let! runtime_digest := SM._digest runtime_digest in
  let! base_engine_digest := SM._digest base_engine_digest in
  let! arena_digest := SM._digest arena_digest in
  let! catalog := _catalog_binding catalog_snapshot catalog_digest in
  let! entries := _entry_rows entries false in
  Ok {| es_runtime_digest := runtime_digest;
        es_base_engine_digest := base_engine_digest;
        es_arena_digest := arena_digest;
        es_catalog_digest := catalog.2;
        es_schema_version := schema_version;
        es_stack_policy_version := stack_policy_version;
        es_catalog_json := catalog.1;
        es_entries := entries |}.

Definition EvaluationStackManifest_to_dict (s : EvaluationStackManifest) : pyval :=
  py_dict [
    ("arena_digest", PStr (es_arena_digest s));
    ("base_engine_digest", PStr (es_base_engine_digest s));
    ("catalog_digest", PStr (es_catalog_digest s));
    ("catalog_snapshot", es_catalog_snapshot s);
    ("entries", py_dict ((λ e, (e.1, ref_to_dict e.2)) <$> es_entries s));
    ("runtime_digest", PStr (es_runtime_digest s));
    ("schema_version", PInt (es_schema_version s));
    ("stack_policy_version", PStr (es_stack_policy_version s));
    ("type", PStr "evaluation_stack")].

Definition EvaluationStackManifest_from_dict (v : pyval) : result EvaluationStackManifest :=
  let! row := SM._strict_object ["arena_digest"; "base_engine_digest"; "catalog_digest"; "catalog_snapshot"; "entries";
                "runtime_digest"; "schema_version"; "stack_policy_version"; "type"] v in
  let! kind := row_get row "type" in
  do! raise_if (negb (py_eq_str kind "evaluation_stack")) (SM.error "evaluation stack type must be 'evaluation_stack'") ;;
  let! entries := row_get row "entries" in
  let! items := match entries with
                | PDict kvs => Ok kvs
                | _ => Raise (SM.error "evaluation stack entries must be an object")
                end in
  let! entries := mapM (λ kv, result_map (pair kv.1) (contribution_ref_from_dict kv.2)) items in
  let! runtime_digest := row_get row "runtime_digest" in
  let! base_engine_digest := row_get row "base_engine_digest" in
  let! arena_digest := row_get row "arena_digest" in
  let! catalog_snapshot := row_get row "catalog_snapshot" in
  let! catalog_digest := row_get row "catalog_digest" in
  let! schema_version := row_get row "schema_version" in
  let! stack_policy_version := row_get row "stack_policy_version" in
  EvaluationStackManifest_init runtime_digest base_engine_digest arena_digest catalog_snapshot catalog_digest
    entries schema_version stack_policy_version.

Definition EvaluationStackManifest_digest (s : EvaluationStackManifest) : string :=
  digest_of "optima.stack.evaluation" (EvaluationStackManifest_to_dict s).

(** The two JSON byte strings are equal exactly when the sorted JSON they encode is
    written alike. *)
Definition _validate_catalog_and_entries (manifest_catalog_json : json) (manifest_catalog_digest : string)
    (entries : list (string * ContributionRef)) (context_catalog_json : json) (context_catalog_digest : string)
    (target_specs : list (string * string)) : result unit :=
  do! raise_if (negb (bool_decide (manifest_catalog_digest = context_catalog_digest)))
        (SM.error "catalog digest does not match expected context") ;;
  do! raise_if (negb (bool_decide (encode_utf8 (json_dumps manifest_catalog_json) = encode_utf8 (json_dumps context_catalog_json))))
        (SM.error "catalog snapshot does not match expected context") ;;
  forM_ entries (λ e,
    match assoc target_specs e.1 with
    | None => Raise (SM.error "active target is absent from expected catalog context")
    | Some expected =>
        raise_if (negb (bool_decide (ref_target_spec_digest e.2 = expected)))
          (SM.error "target spec digest does not match expected context")
    end).

Definition validate_against (s : EvaluationStackManifest) (c : EvaluationStackContext) : result unit :=
  do! raise_if (negb (bool_decide (es_runtime_digest s = ec_runtime_digest c)))
        (SM.error "runtime digest does not match expected context") ;;
  do! raise_if (negb (bool_decide (es_base_engine_digest s = ec_base_engine_digest c)))
        (SM.error "base engine digest does not match expected context") ;;
  do! raise_if (negb (bool_decide (es_arena_digest s = ec_arena_digest c)))
        (SM.error "arena digest does not match expected context") ;;
  _validate_catalog_and_entries (es_catalog_json s) (es_catalog_digest s) (es_entries s)
    (ec_catalog_json c) (ec_catalog_digest c) (ec_target_specs c).

(** [updated[key] = value] on a dict kept as rows: in place, or appended. *)
Fixpoint row_set {A} (rows : list (string * A)) (key : string) (x : A) : list (string * A) :=
  match rows with
  | [] => [(key, x)]
  | (k, y) :: rows => if bool_decide (k = key) then (k, x) :: rows else (k, y) :: row_set rows key x
  end.

(** One removal of [with_contribution]. *)
Definition remove_entry (entries : list (string * ContributionRef)) (target : string)
    : result (list (string * ContributionRef)) :=
  do! raise_if (negb (bool_decide (target ∈ entries.*1))) (SM.error "cannot remove inactive target") ;;
  Ok (filter (λ e, e.1 ≠ target) entries).

Fixpoint remove_entries (entries : list (string * ContributionRef)) (targets : list string)
    : result (list (string * ContributionRef)) :=
  match targets with
  | [] => Ok entries
  | t :: targets => let! entries := remove_entry entries t in remove_entries entries targets
  end.

Definition with_contribution (s : EvaluationStackManifest) (contribution : ContributionRef) (remove : list pyval)
    : result EvaluationStackManifest :=
  let! remove_ids := mapM SM._target_id remove in
  do! raise_if (negb (bool_decide (NoDup remove_ids))) (SM.error "remove contains duplicate targets") ;;
  let! updated := remove_entries (es_entries s) remove_ids in
  let updated := row_set updated (ref_target_id contribution) contribution in
  EvaluationStackManifest_init (PStr (es_runtime_digest s)) (PStr (es_base_engine_digest s)) (PStr (es_arena_digest s))
    (es_catalog_snapshot s) (PStr (es_catalog_digest s)) ((λ e, (PStr e.1, e.2)) <$> updated)
    (PInt (es_schema_version s)) (PStr (es_stack_policy_version s)).
End stack.

#[global] Arguments ref_digest : simpl never.
#[global] Arguments EvaluationStackManifest_digest : simpl never.
