(* ===== verification/Release.v ===== *)
(** * Reviewed releases (src/optima/stack_manifest.py, eval/evidence_store.py)

    The second half of stack_manifest.py: retained evidence references, the
    review records that promote a reproduced crown to ordinary source, engine
    releases made of reviewed contributions only, and the reader that tells
    the two kinds of manifest apart. *)

From Stdlib Require Import ZArith Lia Ascii.
From stdpp Require Import base tactics numbers list strings gmap sorting.
From S2P Require Import Prelude PyValue Sha256 Identity Strict Provider Stack.

Definition INTEGRATION_REVIEW_SCHEMA_VERSION : Z := 1.
Definition ENGINE_RELEASE_POLICY_VERSION : string := "engine-release.v1".

(** ** Evidence references *)

Definition evidence_error (msg : string) : pyexn := Exn EvidenceStoreError msg.

Definition HARD_MAX_EVIDENCE_BYTES : Z := Z.shiftl 1 30.

(** [_DOMAIN] and [_SCHEMA]: a domain of bounded length. *)
Definition evidence_name (limit : Z) (s : string) : bool := is_domain s && (str_len s <=? limit).

(** The class of the tail of either half of [_MEDIA]. *)
Definition is_media_char (c : ascii) : bool :=
  is_domain_head c || existsb (Ascii.eqb c) (chars "!#$&^_.+-").

Definition media_half (s : string) : bool :=
  match s with
  | EmptyString => false
  | String c t => is_domain_head c && forallb is_media_char (chars t) && (str_len s <=? 64)
  end.

(** The text before and after the first slash. *)
Fixpoint split_slash (s : string) : option (string * string) :=
  match s with
  | EmptyString => None
  | String c t => if Ascii.eqb c "/"%char then Some ("", t)
                  else match split_slash t with Some (a, b) => Some (String c a, b) | None => None end
  end.

(** [_MEDIA.fullmatch] *)
Definition media_matches (s : string) : bool :=
  match split_slash s with Some (a, b) => media_half a && media_half b | None => false end.

Record EvidenceArtifactRef := {
  ea_domain : string;
  ea_sha256 : string;
  ea_size : Z;
  ea_media_type : string;
  ea_schema : string
}.

#[global] Instance EvidenceArtifactRef_eq_dec : EqDecision EvidenceArtifactRef.
Proof. solve_decision. Defined.

(** [not isinstance(v, str) or grammar.fullmatch(v) is None] raises. *)
Definition evidence_text (fullmatch : string → bool) (msg : string) (v : pyval) : result string :=
  match v with
  | PStr s => if fullmatch s then Ok s else Raise (evidence_error msg)
  | _ => Raise (evidence_error msg)
  end.

Definition EvidenceArtifactRef_init (domain sha256 size media_type schema : pyval) : result EvidenceArtifactRef :=
  let! domain := evidence_text (evidence_name 96) "evidence domain is invalid" domain in
  let! digest := reraise (λ _, true) (λ e, evidence_error (exn_msg e)) (require_sha256_hex sha256) in
  let! size := match size with
               | PInt z => if (0 <=? z) && (z <=? HARD_MAX_EVIDENCE_BYTES) then Ok z
                           else Raise (evidence_error "evidence size is invalid")
               | _ => Raise (evidence_error "evidence size is invalid")
               end in
  let! media_type := evidence_text media_matches "evidence media_type is invalid" media_type in
  let! schema := evidence_text (evidence_name 128) "evidence schema is invalid" schema in
  Ok {| ea_domain := domain; ea_sha256 := digest; ea_size := size; ea_media_type := media_type; ea_schema := schema |}.

Definition EvidenceArtifactRef_to_dict (r : EvidenceArtifactRef) : pyval :=
  py_dict [
    ("domain", PStr (ea_domain r));
    ("media_type", PStr (ea_media_type r));
    ("schema", PStr (ea_schema r));
    ("sha256", PStr (ea_sha256 r));
    ("size", PInt (ea_size r))].

(** [type(value) is not dict or set(value) != fields] *)
Definition closed_row (fields : list string) (e : pyexn) (v : pyval) : result (list (string * pyval)) :=
  match v with
  | PDict kvs =>
      match all_str_keys kvs with
      | None => Raise e
      | Some row =>
          do! raise_if (negb (bool_decide ((list_to_set row.*1 : gset string) = list_to_set fields))) e ;;
          Ok row
      end
  | _ => Raise e
  end.

Definition EvidenceArtifactRef_from_dict (v : pyval) : result EvidenceArtifactRef :=
  let! row := closed_row ["domain"; "media_type"; "schema"; "sha256"; "size"]
                (evidence_error "evidence reference schema is not closed") v in
  let! domain := row_get row "domain" in
  let! sha256 := row_get row "sha256" in
  let! size := row_get row "size" in
  let! media_type := row_get row "media_type" in
  let! schema := row_get row "schema" in
  EvidenceArtifactRef_init domain sha256 size media_type schema.

(** ** Review artifacts *)

Record IntegrationReviewArtifacts := {
  ra_primary_attempt_ref : EvidenceArtifactRef;
  ra_reproduction_attempt_ref : EvidenceArtifactRef;
  ra_license_evidence_ref : EvidenceArtifactRef;
  ra_provenance_evidence_ref : EvidenceArtifactRef;
  ra_security_review_ref : EvidenceArtifactRef;
  ra_compatibility_evidence_ref : EvidenceArtifactRef;
  ra_test_evidence_ref : EvidenceArtifactRef
}.

(** [tuple(getattr(self, field) for field in self.__dataclass_fields__)] *)
Definition artifact_refs (a : IntegrationReviewArtifacts) : list EvidenceArtifactRef :=
  [ra_primary_attempt_ref a; ra_reproduction_attempt_ref a; ra_license_evidence_ref a; ra_provenance_evidence_ref a; ra_security_review_ref a; ra_compatibility_evidence_ref a; ra_test_evidence_ref a].

(** The table [expected], in field order. *)
Definition EXPECTED_ARTIFACTS : list (string * string) := [
  ("qualification.cohort-attempt", "optima.qualification.cohort-attempt.v1");
  ("qualification.cohort-attempt", "optima.qualification.cohort-attempt.v1");
  ("integration.license", "optima.integration.license.v1");
  ("integration.provenance", "optima.integration.provenance.v1");
  ("integration.security-review", "optima.integration.security-review.v1");
  ("integration.compatibility", "optima.integration.compatibility.v1");
  ("integration.tests", "optima.integration.tests.v1")].

Definition check_artifact (row : EvidenceArtifactRef * (string * string)) : result unit :=
  raise_if (negb (bool_decide (ea_domain row.1 = row.2.1)) || negb (bool_decide (ea_schema row.1 = row.2.2))
            || negb (bool_decide (ea_media_type row.1 = "application/json")))
    (SM.error "integration review artifact has the wrong domain/schema").

(** [IntegrationReviewArtifacts.__post_init__] *)
Definition IntegrationReviewArtifacts_init (a : IntegrationReviewArtifacts) : result IntegrationReviewArtifacts :=
  do! raise_if (bool_decide (ra_primary_attempt_ref a = ra_reproduction_attempt_ref a))
        (SM.error "integration review artifacts reuse the primary attempt") ;;
  do! forM_ (zip (artifact_refs a) EXPECTED_ARTIFACTS) check_artifact ;;
  do! raise_if (negb (bool_decide (NoDup (ea_sha256 <$> artifact_refs a))))
        (SM.error "integration review artifact digests must be pairwise distinct") ;;
  Ok a.

Definition IntegrationReviewArtifacts_to_dict (a : IntegrationReviewArtifacts) : pyval :=
  py_dict [
    ("primary_attempt_ref", EvidenceArtifactRef_to_dict (ra_primary_attempt_ref a));
    ("reproduction_attempt_ref", EvidenceArtifactRef_to_dict (ra_reproduction_attempt_ref a));
    ("license_evidence_ref", EvidenceArtifactRef_to_dict (ra_license_evidence_ref a));
    ("provenance_evidence_ref", EvidenceArtifactRef_to_dict (ra_provenance_evidence_ref a));
    ("security_review_ref", EvidenceArtifactRef_to_dict (ra_security_review_ref a));
    ("compatibility_evidence_ref", EvidenceArtifactRef_to_dict (ra_compatibility_evidence_ref a));
    ("test_evidence_ref", EvidenceArtifactRef_to_dict (ra_test_evidence_ref a))].

(** [EvidenceArtifactRef.from_dict(row[field])] *)
Definition artifact_field (row : list (string * pyval)) (field : string) : result EvidenceArtifactRef :=
  let! v := row_get row field in EvidenceArtifactRef_from_dict v.

Definition IntegrationReviewArtifacts_from_dict (v : pyval) : result IntegrationReviewArtifacts :=
  let! row := SM._strict_object ["primary_attempt_ref"; "reproduction_attempt_ref"; "license_evidence_ref"; "provenance_evidence_ref"; "security_review_ref"; "compatibility_evidence_ref"; "test_evidence_ref"] v in
  let! primary_attempt_ref := artifact_field row "primary_attempt_ref" in
  let! reproduction_attempt_ref := artifact_field row "reproduction_attempt_ref" in
  let! license_evidence_ref := artifact_field row "license_evidence_ref" in
  let! provenance_evidence_ref := artifact_field row "provenance_evidence_ref" in
  let! security_review_ref := artifact_field row "security_review_ref" in
  let! compatibility_evidence_ref := artifact_field row "compatibility_evidence_ref" in
  let! test_evidence_ref := artifact_field row "test_evidence_ref" in
  IntegrationReviewArtifacts_init
    {| ra_primary_attempt_ref := primary_attempt_ref;
       ra_reproduction_attempt_ref := reproduction_attempt_ref;
       ra_license_evidence_ref := license_evidence_ref;
       ra_provenance_evidence_ref := provenance_evidence_ref;
       ra_security_review_ref := security_review_ref;
       ra_compatibility_evidence_ref := compatibility_evidence_ref;
       ra_test_evidence_ref := test_evidence_ref |}.

(** ** Review records *)

Record IntegrationReviewRecord := {
  rr_target_id : string;
  rr_target_spec_digest : string;
  rr_proposal_contribution_digest : string;
  rr_settlement_candidate_digest : string;
  rr_settlement_evidence_digest : string;
  rr_crown_event_digest : string;
  rr_primary_attempt_digest : string;
  rr_reproduction_attempt_digest : string;
  rr_integrated_source_tree_digest : string;
  rr_selected_payload_digest : string;
  rr_attribution_digest : string;
  rr_license_evidence_digest : string;
  rr_provenance_evidence_digest : string;
  rr_security_review_digest : string;
  rr_compatibility_evidence_digest : string;
  rr_test_evidence_digest : string;
  rr_artifacts : IntegrationReviewArtifacts;
  rr_reviewer : string;
  rr_review_commit : string;
  rr_approved : bool;
  rr_schema_version : Z
}.

Definition _reviewer (v : pyval) : result string :=
  match v with
  | PStr s =>
      if bool_decide (s = "") || negb (bool_decide (strip s = s)) || (256 <? str_len s) || has_control_char s
      then Raise (SM.error "integration reviewer identity is malformed") else Ok s
  | _ => Raise (SM.error "integration reviewer identity is malformed")
  end.

(** [re.fullmatch(r"[0-9a-f]{40}", review_commit)] *)
Definition _review_commit (v : pyval) : result string :=
  match v with
  | PStr s => if (str_len s =? 40) && forallb is_lower_hex (chars s) then Ok s
              else Raise (SM.error "integration review_commit must be a full Git SHA-1")
  | _ => Raise (SM.error "integration review_commit must be a full Git SHA-1")
  end.

(** [approved is not True] raises. *)
Definition _approved (v : pyval) : result bool :=
  match v with
  | PBool true => Ok true
  | _ => Raise (SM.error "only approved integration records may enter a release")
  end.

(** [IntegrationReviewRecord.__post_init__] on the keyword arguments. *)
Definition IntegrationReviewRecord_init
    (target_id target_spec_digest proposal_contribution_digest settlement_candidate_digest
     settlement_evidence_digest crown_event_digest primary_attempt_digest reproduction_attempt_digest
     integrated_source_tree_digest selected_payload_digest attribution_digest license_evidence_digest
     provenance_evidence_digest security_review_digest compatibility_evidence_digest test_evidence_digest : pyval) (artifacts : IntegrationReviewArtifacts)
    (reviewer review_commit approved schema_version : pyval) : result IntegrationReviewRecord :=
  let! target_id := SM._target_id target_id in
  let! target_spec_digest := SM._digest target_spec_digest in
  let! proposal_contribution_digest := SM._digest proposal_contribution_digest in
  let! settlement_candidate_digest := SM._digest settlement_candidate_digest in
  let! settlement_evidence_digest := SM._digest settlement_evidence_digest in
  let! crown_event_digest := SM._digest crown_event_digest in
  let! primary_attempt_digest := SM._digest primary_attempt_digest in
  let! reproduction_attempt_digest := SM._digest reproduction_attempt_digest in
  let! integrated_source_tree_digest := SM._digest integrated_source_tree_digest in
  let! selected_payload_digest := SM._digest selected_payload_digest in
  let! attribution_digest := SM._digest attribution_digest in
  let! license_evidence_digest := SM._digest license_evidence_digest in
  let! provenance_evidence_digest := SM._digest provenance_evidence_digest in
  let! security_review_digest := SM._digest security_review_digest in
  let! compatibility_evidence_digest := SM._digest compatibility_evidence_digest in
  let! test_evidence_digest := SM._digest test_evidence_digest in
  do! raise_if (bool_decide (primary_attempt_digest = reproduction_attempt_digest))
        (SM.error "integration review requires independent attempts") ;;
  do! raise_if (negb (bool_decide (ea_sha256 <$> artifact_refs artifacts =
          [primary_attempt_digest;
           reproduction_attempt_digest;
           license_evidence_digest;
           provenance_evidence_digest;
           security_review_digest;
           compatibility_evidence_digest;
           test_evidence_digest])))
        (SM.error "integration review digest differs from retained artifact references") ;;
  let! reviewer := _reviewer reviewer in
  let! review_commit := _review_commit review_commit in
  let! approved := _approved approved in
  let! schema_version := SM._current_int INTEGRATION_REVIEW_SCHEMA_VERSION schema_version in
  Ok {| rr_target_id := target_id;
        rr_target_spec_digest := target_spec_digest;
        rr_proposal_contribution_digest := proposal_contribution_digest;
        rr_settlement_candidate_digest := settlement_candidate_digest;
        rr_settlement_evidence_digest := settlement_evidence_digest;
        rr_crown_event_digest := crown_event_digest;
        rr_primary_attempt_digest := primary_attempt_digest;
        rr_reproduction_attempt_digest := reproduction_attempt_digest;
        rr_integrated_source_tree_digest := integrated_source_tree_digest;
        rr_selected_payload_digest := selected_payload_digest;
        rr_attribution_digest := attribution_digest;
        rr_license_evidence_digest := license_evidence_digest;
        rr_provenance_evidence_digest := provenance_evidence_digest;
        rr_security_review_digest := security_review_digest;
        rr_compatibility_evidence_digest := compatibility_evidence_digest;
        rr_test_evidence_digest := test_evidence_digest;
        rr_artifacts := artifacts;
        rr_reviewer := reviewer;
        rr_review_commit := review_commit;
        rr_approved := approved;
        rr_schema_version := schema_version |}.

Definition IntegrationReviewRecord_to_dict (r : IntegrationReviewRecord) : pyval :=
  py_dict [
    ("target_id", PStr (rr_target_id r));
    ("target_spec_digest", PStr (rr_target_spec_digest r));
    ("proposal_contribution_digest", PStr (rr_proposal_contribution_digest r));
    ("settlement_candidate_digest", PStr (rr_settlement_candidate_digest r));
    ("settlement_evidence_digest", PStr (rr_settlement_evidence_digest r));
    ("crown_event_digest", PStr (rr_crown_event_digest r));
    ("primary_attempt_digest", PStr (rr_primary_attempt_digest r));
    ("reproduction_attempt_digest", PStr (rr_reproduction_attempt_digest r));
    ("integrated_source_tree_digest", PStr (rr_integrated_source_tree_digest r));
    ("selected_payload_digest", PStr (rr_selected_payload_digest r));
    ("attribution_digest", PStr (rr_attribution_digest r));
    ("license_evidence_digest", PStr (rr_license_evidence_digest r));
    ("provenance_evidence_digest", PStr (rr_provenance_evidence_digest r));
    ("security_review_digest", PStr (rr_security_review_digest r));
    ("compatibility_evidence_digest", PStr (rr_compatibility_evidence_digest r));
    ("test_evidence_digest", PStr (rr_test_evidence_digest r));
    ("artifacts", IntegrationReviewArtifacts_to_dict (rr_artifacts r));
    ("reviewer", PStr (rr_reviewer r));
    ("review_commit", PStr (rr_review_commit r));
    ("approved", PBool (rr_approved r));
    ("schema_version", PInt (rr_schema_version r))].

Definition IntegrationReviewRecord_from_dict (v : pyval) : result IntegrationReviewRecord :=
  let! row := SM._strict_object ["target_id"; "target_spec_digest"; "proposal_contribution_digest"; "settlement_candidate_digest";
                "settlement_evidence_digest"; "crown_event_digest"; "primary_attempt_digest";
                "reproduction_attempt_digest"; "integrated_source_tree_digest"; "selected_payload_digest";
                "attribution_digest"; "license_evidence_digest"; "provenance_evidence_digest";
                "security_review_digest"; "compatibility_evidence_digest"; "test_evidence_digest";
                "artifacts"; "reviewer"; "review_commit"; "approved"; "schema_version"] v in
  let! raw_artifacts := row_get row "artifacts" in
  let! artifacts := IntegrationReviewArtifacts_from_dict raw_artifacts in
  let! target_id := row_get row "target_id" in
  let! target_spec_digest := row_get row "target_spec_digest" in
  let! proposal_contribution_digest := row_get row "proposal_contribution_digest" in
  let! settlement_candidate_digest := row_get row "settlement_candidate_digest" in
  let! settlement_evidence_digest := row_get row "settlement_evidence_digest" in
  let! crown_event_digest := row_get row "crown_event_digest" in
  let! primary_attempt_digest := row_get row "primary_attempt_digest" in
  let! reproduction_attempt_digest := row_get row "reproduction_attempt_digest" in
  let! integrated_source_tree_digest := row_get row "integrated_source_tree_digest" in
  let! selected_payload_digest := row_get row "selected_payload_digest" in
  let! attribution_digest := row_get row "attribution_digest" in
  let! license_evidence_digest := row_get row "license_evidence_digest" in
  let! provenance_evidence_digest := row_get row "provenance_evidence_digest" in
  let! security_review_digest := row_get row "security_review_digest" in
  let! compatibility_evidence_digest := row_get row "compatibility_evidence_digest" in
  let! test_evidence_digest := row_get row "test_evidence_digest" in
  let! reviewer := row_get row "reviewer" in
  let! review_commit := row_get row "review_commit" in
  let! approved := row_get row "approved" in
  let! schema_version := row_get row "schema_version" in
  IntegrationReviewRecord_init target_id target_spec_digest proposal_contribution_digest settlement_candidate_digest settlement_evidence_digest
    crown_event_digest primary_attempt_digest reproduction_attempt_digest integrated_source_tree_digest
    selected_payload_digest attribution_digest license_evidence_digest provenance_evidence_digest
    security_review_digest compatibility_evidence_digest test_evidence_digest
    artifacts reviewer review_commit approved schema_version.

(** ** Releases *)

Record ReleaseStackContext := {
  rc_runtime_digest : string;
  rc_base_engine_digest : string;
  rc_catalog_digest : string;
  rc_catalog_json : json;
  rc_target_specs : list (string * string)
}.

(** [_entries] holds integrated references only; the type says so. *)
Record EngineReleaseManifest := {
  er_runtime_digest : string;
  er_base_engine_digest : string;
  er_catalog_digest : string;
  er_schema_version : Z;
  er_stack_policy_version : string;
  er_catalog_json : json;
  er_entries : list (string * IntegratedContributionRef)
}.

Definition er_catalog_snapshot (s : EngineReleaseManifest) : pyval := json_value (er_catalog_json s).

(** The rows of [_entry_rows] with [integrated_only=True], all of which are integrated. *)
Definition integrated_row (row : string * ContributionRef) : result (string * IntegratedContributionRef) :=
  match row.2 with
  | Integrated r => Ok (row.1, r)
  | Proposal _ => Raise (SM.error "release manifests accept integrated contributions only")
  end.

(** What a release or evaluation manifest reader returns. *)
Inductive StackManifest :=
  | EvaluationStack (s : EvaluationStackManifest)
  | EngineRelease (s : EngineReleaseManifest).

Section release.
Context `{Sha256}.

Definition IntegrationReviewArtifacts_digest (a : IntegrationReviewArtifacts) : string :=
  digest_of "optima.integration-review.artifacts" (IntegrationReviewArtifacts_to_dict a).

Definition rr_selected_delta_digest (r : IntegrationReviewRecord) : string :=
  _selected_delta (rr_target_id r) (rr_target_spec_digest r) (rr_selected_payload_digest r).

Definition IntegrationReviewRecord_digest (r : IntegrationReviewRecord) : string :=
  digest_of "optima.contribution.integration-review" (IntegrationReviewRecord_to_dict r).

Definition integrated_ref (r : IntegrationReviewRecord) : result IntegratedContributionRef :=
  IntegratedContributionRef_init (PStr (rr_target_id r)) (PStr (rr_target_spec_digest r))
    (PStr (rr_integrated_source_tree_digest r)) (PStr (rr_selected_payload_digest r)) (PStr (rr_attribution_digest r))
    (PStr (IntegrationReviewRecord_digest r)) (PInt CONTRIBUTION_REF_SCHEMA_VERSION).

Definition require_ref (r : IntegrationReviewRecord) (value : IntegratedContributionRef) : result unit :=
  let! expected := integrated_ref r in
  raise_if (negb (bool_decide (value = expected))) (SM.error "integrated contribution differs from its review record").

Definition ReleaseStackContext_init (runtime_digest base_engine_digest catalog_snapshot catalog_digest target_spec_digests : pyval)
    : result ReleaseStackContext :=
  let! runtime_digest := SM._digest runtime_digest in
  let! base_engine_digest := SM._digest base_engine_digest in
  let! catalog := _catalog_binding catalog_snapshot catalog_digest in
  let! target_specs := _context_spec_rows catalog.1 target_spec_digests in
  Ok {| rc_runtime_digest := runtime_digest;
        rc_base_engine_digest := base_engine_digest;
        rc_catalog_digest := catalog.2;
        rc_catalog_json := catalog.1;
        rc_target_specs := target_specs |}.

Definition EngineReleaseManifest_init (runtime_digest base_engine_digest catalog_snapshot catalog_digest : pyval)
    (entries : list (pyval * ContributionRef)) (schema_version stack_policy_version : pyval)
    : result EngineReleaseManifest :=
  let! schema_version := SM._current_int STACK_MANIFEST_SCHEMA_VERSION schema_version in
  let! stack_policy_version := SM._current_str ENGINE_RELEASE_POLICY_VERSION stack_policy_version in
  let! runtime_digest := SM._digest runtime_digest in
  let! base_engine_digest := SM._digest base_engine_digest in
  let! catalog := _catalog_binding catalog_snapshot catalog_digest in
  let! rows := _entry_rows entries true in
  let! entries := mapM integrated_row rows in
  Ok {| er_runtime_digest := runtime_digest;
        er_base_engine_digest := base_engine_digest;
        er_catalog_digest := catalog.2;
        er_schema_version := schema_version;
        er_stack_policy_version := stack_policy_version;
        er_catalog_json := catalog.1;
        er_entries := entries |}.

Definition EngineReleaseManifest_to_dict (s : EngineReleaseManifest) : pyval :=
  py_dict [
    ("base_engine_digest", PStr (er_base_engine_digest s));
    ("catalog_digest", PStr (er_catalog_digest s));
    ("catalog_snapshot", er_catalog_snapshot s);
    ("entries", py_dict ((λ e, (e.1, IntegratedContributionRef_to_dict e.2)) <$> er_entries s));
    ("runtime_digest", PStr (er_runtime_digest s));
    ("schema_version", PInt (er_schema_version s));
    ("stack_policy_version", PStr (er_stack_policy_version s));
    ("type", PStr "engine_release")].

(** One iteration of the loop over [row["entries"].items()]. *)
Definition release_entry (kv : pyval * pyval) : result (pyval * ContributionRef) :=
  let! ref := contribution_ref_from_dict kv.2 in
  do! raise_if (match ref with Proposal _ => true | Integrated _ => false end)
        (SM.error "release manifests accept integrated contributions only") ;;
  Ok (kv.1, ref).

Definition EngineReleaseManifest_from_dict (v : pyval) : result EngineReleaseManifest :=
  let! row := SM._strict_object ["base_engine_digest"; "catalog_digest"; "catalog_snapshot"; "entries";
                "runtime_digest"; "schema_version"; "stack_policy_version"; "type"] v in
  let! kind := row_get row "type" in
  do! raise_if (negb (py_eq_str kind "engine_release")) (SM.error "engine release type must be 'engine_release'") ;;
  let! entries := row_get row "entries" in
  let! items := match entries with
                | PDict kvs => Ok kvs
                | _ => Raise (SM.error "engine release entries must be an object")
                end in
  let! entries := mapM release_entry items in
  let! runtime_digest := row_get row "runtime_digest" in
  let! base_engine_digest := row_get row "base_engine_digest" in
  let! catalog_snapshot := row_get row "catalog_snapshot" in
  let! catalog_digest := row_get row "catalog_digest" in
  let! schema_version := row_get row "schema_version" in
  let! stack_policy_version := row_get row "stack_policy_version" in
  EngineReleaseManifest_init runtime_digest base_engine_digest catalog_snapshot catalog_digest
    entries schema_version stack_policy_version.

Definition EngineReleaseManifest_digest (s : EngineReleaseManifest) : string :=
  digest_of "optima.stack.release" (EngineReleaseManifest_to_dict s).

(** [EngineReleaseManifest.validate_against] *)
Definition release_validate_against (s : EngineReleaseManifest) (c : ReleaseStackContext) : result unit :=
  do! raise_if (negb (bool_decide (er_runtime_digest s = rc_runtime_digest c)))
        (SM.error "runtime digest does not match expected context") ;;
  do! raise_if (negb (bool_decide (er_base_engine_digest s = rc_base_engine_digest c)))
        (SM.error "base engine digest does not match expected context") ;;
  _validate_catalog_and_entries (er_catalog_json s) (er_catalog_digest s) (prod_map id Integrated <$> er_entries s)
    (rc_catalog_json c) (rc_catalog_digest c) (rc_target_specs c).

(** One iteration of the first loop of [validate_integrations]. *)
Definition check_record (checked : list (string * IntegrationReviewRecord)) (item : pyval * IntegrationReviewRecord)
    : result (list (string * IntegrationReviewRecord)) :=
  let! target := SM._target_id item.1 in
  do! raise_if (bool_decide (target ∈ checked.*1)) (SM.error "integration records are duplicated or untyped") ;;
  do! raise_if (negb (bool_decide (rr_target_id item.2 = target)))
        (SM.error "integration record target differs from its key") ;;
  Ok (checked ++ [(target, item.2)]).

Definition validate_integrations (s : EngineReleaseManifest) (records : list (pyval * IntegrationReviewRecord)) : result unit :=
  let! checked := foldM check_record records [] in
  do! raise_if (negb (bool_decide ((list_to_set checked.*1 : gset string) = list_to_set (er_entries s).*1)))
        (SM.error "release integration-record coverage differs") ;;
  forM_ (er_entries s) (λ e, match assoc checked e.1 with
                             | Some record => require_ref record e.2
                             | None => Raise (Exn KeyError e.1)
                             end).

Definition stack_manifest_to_dict (m : StackManifest) : pyval :=
  match m with
  | EvaluationStack s => EvaluationStackManifest_to_dict s
  | EngineRelease s => EngineReleaseManifest_to_dict s
  end.

Definition stack_manifest_from_dict (v : pyval) : result StackManifest :=
  match v with
  | PDict kvs =>
      let kind := mapping_get kvs "type" in
      if py_eq_str kind "evaluation_stack" then result_map EvaluationStack (EvaluationStackManifest_from_dict v)
      else if py_eq_str kind "engine_release" then result_map EngineRelease (EngineReleaseManifest_from_dict v)
      else Raise (SM.error "stack manifest requires type 'evaluation_stack' or 'engine_release'")
  | _ => Raise (SM.error "stack manifest must be an object")
  end.
End release.

#[global] Arguments IntegrationReviewRecord_digest : simpl never.
#[global] Arguments EngineReleaseManifest_digest : simpl never.
