(* ===== verification/StackFacts.v ===== *)
(** * What the constructors of stack_manifest.py accept

    For every constructor the equivalence with the conditions it checks, the
    catalog binding as a property of the stored JSON, and the closed form of
    [with_contribution]. *)

From Stdlib Require Import ZArith Lia Ascii.
From stdpp Require Import base tactics numbers list strings gmap sorting.
From S2P Require Import Prelude PyValue Sha256 Identity Strict IdentityCorrect FiniteDebt Stack.

(** ** Canonical JSON is a fixed point *)

Lemma mapM_fmap_Forall {A B} (f : B → result A) (g : A → B) l :
  Forall (λ x, f (g x) = Ok x) l → mapM f (map g l) = Ok l.
Proof. induction 1 as [|x l Hx Hl IH]; [done|]. cbn. by rewrite Hx; cbn; rewrite IH. Qed.

Lemma canonical_value_json j : canonical_value (json_value j) = Ok j.
Proof.
  induction j as [| | | |l IH|kvs IH] using json_ind; try done; cbn [json_value canonical_value].
  - by rewrite mapM_fmap_Forall.
  - rewrite mapM_fmap_Forall; [done|]. eapply Forall_impl; [exact IH|]. intros [k x] Hx. cbn in *. by rewrite Hx.
Qed.

Lemma json_value_canonical j : is_canonical (json_value j) = true.
Proof. rewrite <- canonical_value_ok, canonical_value_json. done. Qed.

Lemma json_sort_idemp j : json_sort (json_sort j) = json_sort j.
Proof.
  induction j as [| | | |l IH|kvs IH] using json_ind; try done.
  - cbn [json_sort]. f_equal. rewrite map_map. apply map_ext_Forall, Forall_fold_right. clear -IH.
    induction IH; cbn; auto.
  - rewrite !sort_object. f_equal.
    rewrite sorted_by_stable.
    + rewrite <- list_fmap_compose. apply list_fmap_ext. intros i [k x] Hx%list_elem_of_lookup_2. cbn. f_equal.
      rewrite sorted_by_perm in Hx. rewrite Forall_forall in IH. by apply (IH _ Hx).
    + apply StronglySorted_key_fmap. rewrite <- list_fmap_compose. cbn.
      apply (StronglySorted_key_fmap fst), sorted_by_sorted.
Qed.

(** ** Validators *)

Definition target_ok (s : string) : Prop := s ≠ "" ∧ strip s = s ∧ SM.target_matches s = true.

#[global] Instance target_ok_dec s : Decision (target_ok s).
Proof. unfold target_ok. apply _. Defined.

Lemma target_id_Ok v s : SM._target_id v = Ok s ↔ v = PStr s ∧ target_ok s.
Proof.
  unfold SM._target_id, target_ok. split.
  - destruct v as [| | | |t| | | |]; try done. destruct (_ || _) eqn:E; [done|]. intros [= ->]. bool_prop. done.
  - intros (-> & Hne & Hs & Hm). rewrite (bool_decide_eq_false_2 _ Hne), (bool_decide_eq_true_2 _ Hs), Hm. done.
Qed.

Lemma sm_digest_Ok v s : SM._digest v = Ok s ↔ v = PStr s ∧ digest_ok s.
Proof. apply require_digest_Ok. Qed.

Lemma current_int_Ok n v z : SM._current_int n v = Ok z ↔ v = PInt z ∧ z = n.
Proof.
  unfold SM._current_int. split.
  - destruct v; try done. destruct (_ =? _) eqn:E; [|done]. intros [= ->]. by apply Z.eqb_eq in E.
  - intros [-> ->]. by rewrite Z.eqb_refl.
Qed.

Lemma current_str_Ok t v s : SM._current_str t v = Ok s ↔ v = PStr s ∧ s = t.
Proof.
  unfold SM._current_str. split.
  - destruct v; try done. case_bool_decide; [|done]. by intros [= ->].
  - intros [-> ->]. by rewrite bool_decide_eq_true_2.
Qed.

(** Splits a successful chain of validators into what each returned. *)
Ltac inv_valid H :=
  repeat (let x := fresh "x" in let Hx := fresh "Hx" in apply bind_Ok in H as (x & Hx & H));
  repeat match goal with
  | Hx : SM._target_id _ = Ok _ |- _ => apply target_id_Ok in Hx as [-> Hx]
  | Hx : SM._digest _ = Ok _ |- _ => apply sm_digest_Ok in Hx as [-> Hx]
  | Hx : SM._current_int _ _ = Ok _ |- _ => apply current_int_Ok in Hx as [-> Hx]
  | Hx : SM._current_str _ _ = Ok _ |- _ => apply current_str_Ok in Hx as [-> Hx]
  | Hx : raise_if _ _ = Ok _ |- _ => apply raise_if_Ok in Hx
  end.

(** Runs a chain of validators on values known to be valid. *)
Ltac run_valid :=
  repeat (eapply bind_step;
    [first [ apply target_id_Ok; split; [reflexivity|]; eassumption
           | apply sm_digest_Ok; split; [reflexivity|]; eassumption
           | apply current_int_Ok; split; [reflexivity|]; eassumption
           | apply current_str_Ok; split; [reflexivity|]; eassumption
           | apply (raise_if_Ok _ _ tt); bool_goal; fail ] |]).

(** ** Contribution references *)

Definition proposal_wf (r : ProposalContributionRef) : Prop :=
  target_ok (pr_target_id r) ∧ digest_ok (pr_target_spec_digest r) ∧ digest_ok (pr_artifact_digest r) ∧
  digest_ok (pr_selected_payload_digest r) ∧ digest_ok (pr_attribution_digest r) ∧
  pr_schema_version r = CONTRIBUTION_REF_SCHEMA_VERSION.

Lemma proposal_init_wf a b c d e f r : ProposalContributionRef_init a b c d e f = Ok r → proposal_wf r.
Proof. intros Hi. unfold ProposalContributionRef_init in Hi. inv_valid Hi. injection Hi as <-. done. Qed.

Definition integrated_wf (r : IntegratedContributionRef) : Prop :=
  target_ok (ir_target_id r) ∧ digest_ok (ir_target_spec_digest r) ∧ digest_ok (ir_integrated_source_tree_digest r) ∧
  digest_ok (ir_selected_payload_digest r) ∧ digest_ok (ir_attribution_digest r) ∧
  digest_ok (ir_integration_record_digest r) ∧ ir_schema_version r = CONTRIBUTION_REF_SCHEMA_VERSION.

Lemma integrated_init_wf a b c d e f g r : IntegratedContributionRef_init a b c d e f g = Ok r → integrated_wf r.
Proof. intros Hi. unfold IntegratedContributionRef_init in Hi. inv_valid Hi. injection Hi as <-. done. Qed.

(** What the two constructors establish. *)
Definition ref_wf (r : ContributionRef) : Prop :=
  match r with Proposal r => proposal_wf r | Integrated r => integrated_wf r end.

Lemma proposal_roundtrip r : proposal_wf r → ProposalContributionRef_from_dict (ProposalContributionRef_to_dict r) = Ok r.
Proof.
  destruct r. intros (? & ? & ? & ? & ? & ?). unfold ProposalContributionRef_from_dict, ProposalContributionRef_to_dict, SM._strict_object.
  rewrite require_exact_fields_sorted by reflexivity. cbn in *. unfold ProposalContributionRef_init. by run_valid.
Qed.

Lemma integrated_roundtrip r :
  integrated_wf r → IntegratedContributionRef_from_dict (IntegratedContributionRef_to_dict r) = Ok r.
Proof.
  destruct r. intros (? & ? & ? & ? & ? & ? & ?). unfold IntegratedContributionRef_from_dict, IntegratedContributionRef_to_dict, SM._strict_object.
  rewrite require_exact_fields_sorted by reflexivity. cbn in *. unfold IntegratedContributionRef_init. by run_valid.
Qed.

Lemma ref_roundtrip r : ref_wf r → contribution_ref_from_dict (ref_to_dict r) = Ok r.
Proof.
  destruct r as [r|r]; intros Hr; unfold ref_to_dict.
  - change (contribution_ref_from_dict (ProposalContributionRef_to_dict r))
      with (result_map Proposal (ProposalContributionRef_from_dict (ProposalContributionRef_to_dict r))).
    by rewrite proposal_roundtrip.
  - change (contribution_ref_from_dict (IntegratedContributionRef_to_dict r))
      with (result_map Integrated (IntegratedContributionRef_from_dict (IntegratedContributionRef_to_dict r))).
    by rewrite integrated_roundtrip.
Qed.

Lemma ref_target_ok r : ref_wf r → target_ok (ref_target_id r).
Proof. destruct r; intros Hr; apply Hr. Qed.

(** ** Entries *)

Definition entry_ok (integrated_only : bool) (e : string * ContributionRef) : Prop :=
  target_ok e.1 ∧ ref_target_id e.2 = e.1 ∧
  (integrated_only = true → ∃ r, e.2 = Integrated r).

Lemma entry_row_Ok b raw e : entry_row b raw = Ok e ↔ raw = (PStr e.1, e.2) ∧ entry_ok b e.
Proof.
  destruct raw as [v r], e as [t r']. unfold entry_row, entry_ok. cbn. split.
  - intros Hi. inv_valid Hi. injection Hi as -> ->. bool_prop. split_and!; try done.
    intros ->. destruct r' as [|r']; [done | by exists r'].
  - intros ([= -> ->] & Ht & He & Hb). eapply bind_step; [by apply target_id_Ok|].
    rewrite (bool_decide_eq_true_2 _ He). destruct b; cbn; [|done]. by destruct Hb as [? ->].
Qed.

Lemma entry_rows_Ok b entries rows :
  _entry_rows entries b = Ok rows ↔
  ∃ l, entries = (λ e, (PStr e.1, e.2)) <$> l ∧ Forall (entry_ok b) l ∧ NoDup l.*1 ∧ rows = sorted_by fst l.
Proof.
  unfold _entry_rows. rewrite bind_Ok. setoid_rewrite bind_Ok. setoid_rewrite mapM_Ok. setoid_rewrite raise_if_Ok. split.
  - intros (l & Hl & u & Hnd & [= <-]). exists l. bool_prop. split_and!; [| |done..].
    + clear -Hl. induction Hl as [|raw e ? ? Hx ? IH]; [done|]. apply entry_row_Ok in Hx as [-> _]. by rewrite IH.
    + clear -Hl. induction Hl as [|raw e ? ? Hx ? IH]; constructor; [|done]. by apply entry_row_Ok in Hx as [_ ?].
  - intros (l & -> & Hl & Hnd & ->). exists l. split; [|exists tt; by rewrite bool_decide_eq_true_2].
    clear Hnd. induction Hl as [|e l He Hl IH]; constructor; [by apply entry_row_Ok | done].
Qed.

(** ** Dictionaries kept as rows *)

Lemma assoc_row_set {A} (rows : list (string * A)) k x t :
  assoc (row_set rows k x) t = if decide (t = k) then Some x else assoc rows t.
Proof.
  unfold assoc. induction rows as [|[j y] rows IH]; cbn [row_set List.find].
  - cbn. repeat case_bool_decide; case_decide; naive_solver.
  - case_bool_decide as Hj; cbn [List.find fst].
    + subst j. destruct (decide (t = k)) as [->|Hn].
      * by rewrite bool_decide_eq_true_2.
      * rewrite bool_decide_eq_false_2 by done. done.
    + destruct (decide (t = k)) as [->|Hn]; [by rewrite bool_decide_eq_false_2|].
      case_bool_decide; [done | apply IH].
Qed.

Lemma row_set_keys {A} (rows : list (string * A)) k x t : t ∈ (row_set rows k x).*1 ↔ t = k ∨ t ∈ rows.*1.
Proof.
  induction rows as [|[j y] rows IH]; cbn [row_set fmap list_fmap]; [by rewrite list_elem_of_singleton, elem_of_nil; tauto|].
  case_bool_decide as Hj; cbn [fmap list_fmap fst]; rewrite !elem_of_cons; [subst; tauto|]. rewrite IH. tauto.
Qed.

Lemma row_set_NoDup {A} (rows : list (string * A)) k x : NoDup rows.*1 → NoDup (row_set rows k x).*1.
Proof.
  induction rows as [|[j y] rows IH]; cbn [row_set fmap list_fmap]; [intros _; apply NoDup_singleton|].
  intros [Hj Hr]%NoDup_cons. case_bool_decide as He; cbn [fmap list_fmap fst]; apply NoDup_cons; split; auto.
  by rewrite row_set_keys; intros [->|?].
Qed.

Lemma row_set_Forall {A} (P : string * A → Prop) rows k x : P (k, x) → Forall P rows → Forall P (row_set rows k x).
Proof.
  intros Hk. induction 1 as [|[j y] rows Hj Hr IH]; cbn [row_set]; [by constructor|].
  case_bool_decide as He; constructor; try done. by rewrite He.
Qed.

Section assoc_filter.
Context {A} (P : string * A → Prop) `{∀ x, Decision (P x)} (t : string).

Lemma assoc_filter_in rows : (∀ x, P (t, x)) → assoc (filter P rows) t = assoc rows t.
Proof.
  intros Ht. induction rows as [|[j y] rows IH]; [done|]. rewrite filter_cons.
  unfold assoc in *. destruct (decide (P (j, y))) as [Hj|Hj]; cbn [List.find fst].
  - case_bool_decide as He; [done | apply IH].
  - rewrite IH. case_bool_decide as He; [subst; by destruct Hj | done].
Qed.

Lemma assoc_filter_out rows : (∀ x, ¬ P (t, x)) → assoc (filter P rows) t = None.
Proof.
  intros Ht. apply assoc_None. intros ([k x] & Hk & [Hp _]%list_elem_of_filter)%list_elem_of_fmap. cbn in Hk. subst k.
  by apply (Ht x).
Qed.
End assoc_filter.

Lemma filter_keys_NoDup {A} (rows : list (string * A)) (P : string * A → Prop) `{∀ x, Decision (P x)} :
  NoDup rows.*1 → NoDup (filter P rows).*1.
Proof. intros Hnd. eapply sublist_NoDup; [exact Hnd|]. apply fmap_sublist, sublist_filter. Qed.

(** ** Manifests *)

Section manifests.
Context `{Sha256}.

(** What [_catalog_binding] establishes of the stored JSON and digest. *)
Definition catalog_bound (j : json) (d : string) : Prop :=
  (∃ kv kvs, j = JObject (kv :: kvs)) ∧ json_sort j = j ∧ digest_ok d ∧
  canonical_digest "optima.target-catalog" (json_value j) (PInt 1) = Ok d.

Lemma catalog_json_Ok v j :
  _catalog_json v = Ok j → (∃ kv kvs, j = JObject (kv :: kvs)) ∧ json_sort j = j ∧
    ∃ j0, canonical_value v = Ok j0 ∧ j = json_sort j0.
Proof.
  unfold _catalog_json. destruct v as [| | | | | | |kvs|]; try done. intros Hj.
  apply bind_Ok in Hj as (? & Hn%raise_if_Ok & Hj). apply bind_Ok in Hj as (j0 & Hj0%reraise_Ok & [= <-]).
  split_and!; [|apply json_sort_idemp|by exists j0].
  destruct kvs as [|[k y] kvs]; [done|]. pose proof Hj0 as Hj. cbn [canonical_value] in Hj.
  apply result_map_Ok in Hj as (rows & Hrows & ->). rewrite sort_object.
  destruct (sorted_by fst rows) as [|kv rest] eqn:E; [|by eexists _, _].
  apply mapM_Ok in Hrows. apply Forall2_length in Hrows. pose proof (Permutation_length (sorted_by_perm fst rows)) as Hl.
  rewrite E in Hl. cbn in Hl, Hrows. lia.
Qed.

Lemma catalog_binding_bound v d r : _catalog_binding v d = Ok r → catalog_bound r.1 r.2.
Proof.
  unfold _catalog_binding. intros Hr. apply bind_Ok in Hr as (j & (Ho & Hs & _)%catalog_json_Ok & Hr).
  apply bind_Ok in Hr as (s & [-> Hd]%sm_digest_Ok & Hr). apply bind_Ok in Hr as (computed & Hc & Hr).
  apply bind_Ok in Hr as (? & He%raise_if_Ok & [= <-]). bool_prop. subst. done.
Qed.

Lemma catalog_binding_again j d : catalog_bound j d → _catalog_binding (json_value j) (PStr d) = Ok (j, d).
Proof.
  intros ((kv & kvs & Hj) & Hs & Hd & Hc). unfold _catalog_binding.
  eapply bind_step with (a := j).
  { pose proof (canonical_value_json j) as Hv. rewrite Hj in Hv, Hs |- *. unfold _catalog_json.
    cbn [json_value map] in *. cbn [is_nil raise_if bind]. rewrite Hv. cbn [reraise bind]. by rewrite Hs. }
  eapply bind_step; [by apply sm_digest_Ok|]. rewrite Hc. cbn [bind]. by rewrite bool_decide_eq_true_2.
Qed.

(** What the constructor establishes, for entries that are themselves checked. *)
Record stack_wf (s : EvaluationStackManifest) : Prop := {
  sf_runtime : digest_ok (es_runtime_digest s);
  sf_base : digest_ok (es_base_engine_digest s);
  sf_arena : digest_ok (es_arena_digest s);
  sf_schema : es_schema_version s = STACK_MANIFEST_SCHEMA_VERSION;
  sf_policy : es_stack_policy_version s = EVALUATION_STACK_POLICY_VERSION;
  sf_catalog : catalog_bound (es_catalog_json s) (es_catalog_digest s);
  sf_entries : Forall (entry_ok false) (es_entries s);
  sf_refs : Forall ref_wf (es_entries s).*2;
  sf_nodup : NoDup (es_entries s).*1;
  sf_sorted : StronglySorted (key_le fst) (es_entries s)
}.

(** The manifest with other entries. *)
Definition set_entries (s : EvaluationStackManifest) (rows : list (string * ContributionRef)) : EvaluationStackManifest :=
  {| es_runtime_digest := es_runtime_digest s; es_base_engine_digest := es_base_engine_digest s;
     es_arena_digest := es_arena_digest s; es_catalog_digest := es_catalog_digest s;
     es_schema_version := es_schema_version s; es_stack_policy_version := es_stack_policy_version s;
     es_catalog_json := es_catalog_json s; es_entries := rows |}.

Lemma stack_init_wf a b c d e entries f g s :
  Forall ref_wf entries.*2 → EvaluationStackManifest_init a b c d e entries f g = Ok s → stack_wf s.
Proof.
  intros Hrefs Hi. unfold EvaluationStackManifest_init in Hi. inv_valid Hi. injection Hi as <-.
  match goal with H : _catalog_binding _ _ = Ok _ |- _ => apply catalog_binding_bound in H as Hcat end.
  match goal with H : _entry_rows _ _ = Ok _ |- _ => apply entry_rows_Ok in H as (l & -> & Hl & Hnd & ->) end.
  rewrite <- list_fmap_compose in Hrefs. cbn in Hrefs.
  constructor; cbn; try done; rewrite ?sorted_by_perm; try done; apply sorted_by_sorted.
Qed.

(** Rebuilding a manifest with entries given as rows. *)
Lemma stack_init_rows s rows :
  stack_wf s → Forall (entry_ok false) rows → NoDup rows.*1 →
  EvaluationStackManifest_init (PStr (es_runtime_digest s)) (PStr (es_base_engine_digest s)) (PStr (es_arena_digest s))
    (es_catalog_snapshot s) (PStr (es_catalog_digest s)) ((λ e, (PStr e.1, e.2)) <$> rows)
    (PInt (es_schema_version s)) (PStr (es_stack_policy_version s)) = Ok (set_entries s (sorted_by fst rows)).
Proof.
  intros [] Hok Hnd. unfold EvaluationStackManifest_init. run_valid.
  eapply bind_step; [by apply catalog_binding_again|]. eapply bind_step; [by apply entry_rows_Ok; exists rows|]. done.
Qed.

Lemma remove_entries_Ok entries ids rows :
  NoDup entries.*1 → NoDup ids →
  remove_entries entries ids = Ok rows ↔ (∀ t, t ∈ ids → t ∈ entries.*1) ∧ rows = filter (λ e, e.1 ∉ ids) entries.
Proof.
  revert entries. induction ids as [|t ids IH]; intros entries Hnd Hids; cbn [remove_entries].
  { rewrite filter_keeps by (apply Forall_forall; intros ? _; apply not_elem_of_nil). split; [by intros [= ->]; split; [set_solver|] | by intros [_ ->]]. }
  apply NoDup_cons in Hids as [Ht Hids]. rewrite bind_Ok. unfold remove_entry. setoid_rewrite bind_Ok. setoid_rewrite raise_if_Ok.
  assert (∀ k, k ∈ (filter (λ e : string * ContributionRef, e.1 ≠ t) entries).*1 ↔ k ∈ entries.*1 ∧ k ≠ t) as Hk.
  { intros k. rewrite !list_elem_of_fmap. setoid_rewrite list_elem_of_filter. split.
    - intros (e & -> & Hne & He). split; [by exists e | done].
    - intros ((e & -> & He) & Hne). by exists e. }
  assert (filter (λ e, e.1 ∉ t :: ids) entries = filter (λ e, e.1 ∉ ids) (filter (λ e : string * ContributionRef, e.1 ≠ t) entries)) as ->.
  { rewrite list_filter_filter. apply list_filter_iff. intros e. rewrite not_elem_of_cons. tauto. }
  split.
  - intros (rows' & (u & Hin & [= <-]) & Hrest). bool_prop. apply IH in Hrest as [Hsub ->]; [|by apply filter_keys_NoDup|done].
    split; [|done]. intros k [->|Hin']%elem_of_cons; [done | by apply Hsub, Hk in Hin' as [? _]].
  - intros [Hsub ->]. eexists. split; [exists tt; split; [|done]; apply negb_false_iff, bool_decide_eq_true_2, Hsub; left|].
    apply IH; [by apply filter_keys_NoDup|done|]. split; [|done]. intros k Hin. apply Hk.
    split; [apply Hsub; by right | by intros ->].
Qed.

Lemma target_ids_Ok ids ids' : mapM SM._target_id (PStr <$> ids) = Ok ids' ↔ ids' = ids ∧ Forall target_ok ids.
Proof.
  rewrite mapM_Ok. split.
  - revert ids'. induction ids as [|t ids IH]; intros ids' Hf; inversion Hf as [|? ? ? ? Ht Hr]; subst; [done|].
    apply target_id_Ok in Ht as [[= ->] Ht]. apply IH in Hr as [-> Hr]. split; [done | by constructor].
  - intros [-> Hf]. induction Hf; constructor; [by apply target_id_Ok | done].
Qed.

Lemma stack_wf_set s rows :
  stack_wf s → Forall (entry_ok false) rows → Forall ref_wf rows.*2 → NoDup rows.*1 →
  stack_wf (set_entries s (sorted_by fst rows)).
Proof.
  intros [] He Hr Hnd. constructor; cbn; try done; rewrite ?sorted_by_perm; try done; apply sorted_by_sorted.
Qed.

(** The rows after one transition: [ids] removed, [r] put in. *)
Definition updated_rows (s : EvaluationStackManifest) (r : ContributionRef) (ids : list string) : list (string * ContributionRef) :=
  sorted_by fst (row_set (filter (λ e, e.1 ∉ ids) (es_entries s)) (ref_target_id r) r).

Lemma entry_target_ok s t : stack_wf s → t ∈ (es_entries s).*1 → target_ok t.
Proof. intros Hs (e & -> & He)%list_elem_of_fmap. pose proof (sf_entries _ Hs) as Hf.
  rewrite Forall_forall in Hf. by apply Hf in He as [? _]. Qed.

Lemma with_contribution_Ok s r ids :
  stack_wf s → ref_wf r → NoDup ids → (∀ t, t ∈ ids → t ∈ (es_entries s).*1) →
  with_contribution s r (PStr <$> ids) = Ok (set_entries s (updated_rows s r ids)) ∧
  stack_wf (set_entries s (updated_rows s r ids)) ∧
  ∀ t, assoc (updated_rows s r ids) t =
    if decide (t = ref_target_id r) then Some r else if decide (t ∈ ids) then None else assoc (es_entries s) t.
Proof.
  intros Hs Hr Hnd Hsub. pose proof (sf_nodup _ Hs) as Hn.
  assert (Forall (entry_ok false) (row_set (filter (λ e, e.1 ∉ ids) (es_entries s)) (ref_target_id r) r)) as He.
  { apply row_set_Forall; [split_and!; [by apply ref_target_ok|done|done]|]. apply Forall_filter_sub, Hs. }
  assert (NoDup (row_set (filter (λ e, e.1 ∉ ids) (es_entries s)) (ref_target_id r) r).*1) as Hk.
  { by apply row_set_NoDup, filter_keys_NoDup. }
  split_and!.
  - unfold with_contribution. eapply bind_step.
    { apply target_ids_Ok. split; [done|]. apply Forall_forall. intros t Ht. by eapply entry_target_ok, Hsub. }
    rewrite (bool_decide_eq_true_2 _ Hnd). cbn [negb raise_if bind].
    eapply bind_step; [by apply remove_entries_Ok|]. by apply stack_init_rows.
  - apply stack_wf_set; [done..| |done]. rewrite Forall_fmap. apply row_set_Forall; [done|].
    apply Forall_filter_sub. rewrite <- Forall_fmap. apply Hs.
  - intros t. unfold updated_rows. rewrite assoc_sorted by done. rewrite assoc_row_set.
    destruct (decide (t = _)); [done|]. destruct (decide (t ∈ ids)); [by apply assoc_filter_out; intros ? [] | by apply assoc_filter_in].
Qed.
End manifests.
