(* ===== verification/ReleaseCorrect.v ===== *)
(** * Correctness of reviewed releases and of the manifest readers

    Manifests and review records are read back exactly, and a release that
    passes [validate_integrations] ships what its review records approve. *)

From Stdlib Require Import ZArith Lia Ascii.
From stdpp Require Import base tactics numbers list strings gmap sorting.
From S2P Require Import Prelude PyValue Sha256 Identity Strict IdentityCorrect FiniteDebt Stack Release StackFacts.

(** ** Evidence references and review records *)

Lemma evidence_text_Ok f msg v s : evidence_text f msg v = Ok s ↔ v = PStr s ∧ f s = true.
Proof.
  unfold evidence_text. split.
  - destruct v as [| | | |t| | | |]; try done. destruct (f t) eqn:E; [|done]. by intros [= ->].
  - by intros [-> ->].
Qed.

Lemma evidence_roundtrip a b c d e r :
  EvidenceArtifactRef_init a b c d e = Ok r → EvidenceArtifactRef_from_dict (EvidenceArtifactRef_to_dict r) = Ok r.
Proof.
  intros Hi. pose proof Hi as Hr. unfold EvidenceArtifactRef_init in Hr.
  apply bind_Ok in Hr as (d1 & [-> _]%evidence_text_Ok & Hr). apply bind_Ok in Hr as (d2 & Hd%reraise_Ok & Hr).
  apply require_sha256_hex_Ok in Hd as [-> _]. apply bind_Ok in Hr as (size & Hsize & Hr).
  apply bind_Ok in Hr as (d4 & [-> _]%evidence_text_Ok & Hr). apply bind_Ok in Hr as (d5 & [-> _]%evidence_text_Ok & [= <-]).
  destruct c; try done. destruct (_ && _); [|done]. injection Hsize as ->. exact Hi.
Qed.

(** The references of a set of review artifacts are checked ones. *)
Definition artifacts_built (a : IntegrationReviewArtifacts) : Prop :=
  Forall (λ r, ∃ d s z m c, EvidenceArtifactRef_init d s z m c = Ok r) (artifact_refs a) ∧
  IntegrationReviewArtifacts_init a = Ok a.

Lemma artifacts_roundtrip a :
  artifacts_built a → IntegrationReviewArtifacts_from_dict (IntegrationReviewArtifacts_to_dict a) = Ok a.
Proof.
  intros [Hf Hi]. unfold IntegrationReviewArtifacts_from_dict, IntegrationReviewArtifacts_to_dict, SM._strict_object.
  rewrite require_exact_fields_sorted by reflexivity. cbn [bind].
  unfold artifact_refs in Hf. rewrite !Forall_cons in Hf. destruct_and!. destruct_exists.
  repeat match goal with
  | H : EvidenceArtifactRef_init _ _ _ _ _ = Ok _ |- _ => apply evidence_roundtrip in H
  end.
  repeat (eapply bind_step; [unfold artifact_field; cbn [row_get String.eqb Ascii.eqb Bool.eqb bind]; eassumption|]).
  destruct a. exact Hi.
Qed.

Lemma reviewer_Ok v s : _reviewer v = Ok s → v = PStr s.
Proof. unfold _reviewer. destruct v; try done. destruct (_ || _); [done|]. by intros [= ->]. Qed.

Lemma review_commit_Ok v s : _review_commit v = Ok s → v = PStr s.
Proof. unfold _review_commit. destruct v; try done. destruct (_ && _); [|done]. by intros [= ->]. Qed.

Lemma approved_Ok v b : _approved v = Ok b → v = PBool b.
Proof. unfold _approved. destruct v as [|[]| | | | | | |]; try done. by intros [= <-]. Qed.

(** A record as the constructor returns it, for checked artifacts. *)
Definition record_built (r : IntegrationReviewRecord) : Prop :=
  artifacts_built (rr_artifacts r) ∧
  IntegrationReviewRecord_init (PStr (rr_target_id r)) (PStr (rr_target_spec_digest r))
    (PStr (rr_proposal_contribution_digest r)) (PStr (rr_settlement_candidate_digest r))
    (PStr (rr_settlement_evidence_digest r)) (PStr (rr_crown_event_digest r)) (PStr (rr_primary_attempt_digest r))
    (PStr (rr_reproduction_attempt_digest r)) (PStr (rr_integrated_source_tree_digest r))
    (PStr (rr_selected_payload_digest r)) (PStr (rr_attribution_digest r)) (PStr (rr_license_evidence_digest r))
    (PStr (rr_provenance_evidence_digest r)) (PStr (rr_security_review_digest r))
    (PStr (rr_compatibility_evidence_digest r)) (PStr (rr_test_evidence_digest r)) (rr_artifacts r)
    (PStr (rr_reviewer r)) (PStr (rr_review_commit r)) (PBool (rr_approved r)) (PInt (rr_schema_version r)) = Ok r.

Lemma record_init_built t d1 d2 d3 d4 d5 d6 d7 d8 d9 d10 d11 d12 d13 d14 d15 a v1 v2 v3 v4 r :
  artifacts_built a →
  IntegrationReviewRecord_init t d1 d2 d3 d4 d5 d6 d7 d8 d9 d10 d11 d12 d13 d14 d15 a v1 v2 v3 v4 = Ok r → record_built r.
Proof.
  intros Ha Hi. pose proof Hi as Hr. unfold IntegrationReviewRecord_init in Hr. inv_valid Hr.
  repeat match goal with
  | H : _reviewer _ = Ok _ |- _ => apply reviewer_Ok in H as ->
  | H : _review_commit _ = Ok _ |- _ => apply review_commit_Ok in H as ->
  | H : _approved _ = Ok _ |- _ => apply approved_Ok in H as ->
  end.
  injection Hr as <-. split; [exact Ha | exact Hi].
Qed.

Lemma record_from_dict r :
  record_built r → IntegrationReviewRecord_from_dict (IntegrationReviewRecord_to_dict r) = Ok r.
Proof.
  intros [Ha Hi]. unfold IntegrationReviewRecord_from_dict, IntegrationReviewRecord_to_dict, SM._strict_object.
  rewrite require_exact_fields_sorted by reflexivity. cbn [bind row_get String.eqb Ascii.eqb Bool.eqb].
  rewrite (artifacts_roundtrip _ Ha). cbn [bind]. exact Hi.
Qed.

(** ** Releases *)

Section releases.
Context `{Sha256}.

Record release_wf (s : EngineReleaseManifest) : Prop := {
  rf_runtime : digest_ok (er_runtime_digest s);
  rf_base : digest_ok (er_base_engine_digest s);
  rf_schema : er_schema_version s = STACK_MANIFEST_SCHEMA_VERSION;
  rf_policy : er_stack_policy_version s = ENGINE_RELEASE_POLICY_VERSION;
  rf_catalog : catalog_bound (er_catalog_json s) (er_catalog_digest s);
  rf_entries : Forall (λ e, ir_target_id e.2 = e.1 ∧ integrated_wf e.2) (er_entries s);
  rf_nodup : NoDup (er_entries s).*1;
  rf_sorted : StronglySorted (key_le fst) (er_entries s)
}.

Abbreviation as_row := (prod_map id Integrated : string * IntegratedContributionRef → string * ContributionRef).

Lemma integrated_rows_Ok rows entries : mapM integrated_row rows = Ok entries ↔ rows = as_row <$> entries.
Proof.
  rewrite mapM_Ok. split.
  - induction 1 as [|[t [p|r]] e rows entries He _ IH]; [done|done|]. injection He as <-. by rewrite IH.
  - intros ->. induction entries as [|[t r] entries IH]; constructor; done.
Qed.

Lemma release_init_wf a b c d entries f g s :
  Forall ref_wf entries.*2 → EngineReleaseManifest_init a b c d entries f g = Ok s → release_wf s.
Proof.
  intros Hrefs Hi. unfold EngineReleaseManifest_init in Hi. inv_valid Hi. injection Hi as <-.
  match goal with H : _catalog_binding _ _ = Ok _ |- _ => apply catalog_binding_bound in H as Hcat end.
  match goal with H : mapM integrated_row _ = Ok _ |- _ => apply integrated_rows_Ok in H as Hrows end.
  match goal with H : _entry_rows _ _ = Ok _ |- _ => apply entry_rows_Ok in H as (l & -> & Hl & Hnd & ->) end.
  match goal with H : mapM integrated_row _ = Ok ?rows |- _ => rename rows into entries end.
  rewrite <- list_fmap_compose in Hrefs. cbn in Hrefs.
  assert (l ≡ₚ as_row <$> entries) as Hp by by rewrite <- Hrows, sorted_by_perm.
  assert ((as_row <$> entries).*1 = entries.*1) as Hk by by rewrite <- list_fmap_compose.
  constructor; cbn; try done.
  - apply Forall_forall. intros [t r] He. rewrite Hp in Hl, Hrefs.
    assert ((t, Integrated r) ∈ as_row <$> entries) as Hin by (apply list_elem_of_fmap; by exists (t, r)).
    rewrite Forall_forall in Hl. apply Hl in Hin as (_ & Ht & _). split; [done|].
    rewrite !Forall_fmap in Hrefs. rewrite Forall_forall in Hrefs. apply (Hrefs _ He).
  - rewrite <- Hk. by rewrite <- Hp.
  - apply StronglySorted_key_fmap. rewrite <- Hk. apply (StronglySorted_key_fmap fst). rewrite <- Hrows. apply sorted_by_sorted.
Qed.

Lemma release_init_again s :
  release_wf s →
  EngineReleaseManifest_init (PStr (er_runtime_digest s)) (PStr (er_base_engine_digest s)) (er_catalog_snapshot s)
    (PStr (er_catalog_digest s)) ((λ e, (PStr e.1, Integrated e.2)) <$> er_entries s)
    (PInt (er_schema_version s)) (PStr (er_stack_policy_version s)) = Ok s.
Proof.
  intros []. unfold EngineReleaseManifest_init. run_valid.
  eapply bind_step; [by apply catalog_binding_again|].
  eapply bind_step.
  { apply entry_rows_Ok. exists (as_row <$> er_entries s). rewrite <- !list_fmap_compose. split_and!; [done| |done|done].
    rewrite Forall_fmap. eapply Forall_impl; [done|]. intros [t r] [Ht Hr]. cbn in *.
    split_and!; [subst t; apply Hr | done | by exists r]. }
  eapply bind_step; [apply integrated_rows_Ok, sorted_by_stable|by destruct s].
  by apply StronglySorted_key_fmap; rewrite <- list_fmap_compose; apply (StronglySorted_key_fmap fst).
Qed.

Lemma release_entries_again l :
  Forall (λ e : string * IntegratedContributionRef, integrated_wf e.2) l →
  mapM release_entry ((λ e, (PStr e.1, IntegratedContributionRef_to_dict e.2)) <$> l) = Ok ((λ e, (PStr e.1, Integrated e.2)) <$> l).
Proof.
  intros Hl. apply mapM_Ok, Forall2_fmap_2. apply Forall_Forall2_diag. eapply Forall_impl; [exact Hl|]. intros [t r] Hr.
  cbn [fst snd] in *. unfold release_entry. cbn [fst snd]. eapply bind_step; [by apply (ref_roundtrip (Integrated r))|]. done.
Qed.

Lemma release_roundtrip s : release_wf s → EngineReleaseManifest_from_dict (EngineReleaseManifest_to_dict s) = Ok s.
Proof.
  intros Hs. unfold EngineReleaseManifest_from_dict, EngineReleaseManifest_to_dict, SM._strict_object.
  rewrite require_exact_fields_sorted by reflexivity. cbn [bind row_get String.eqb Ascii.eqb Bool.eqb].
  eapply bind_step; [done|]. eapply bind_step; [done|].
  eapply bind_step; [|by apply release_init_again]. rewrite <- list_fmap_compose. apply release_entries_again.
  eapply Forall_impl; [apply (rf_entries _ Hs)|]. by intros ? [_ ?].
Qed.

Lemma stack_entries_again l :
  Forall ref_wf (l : list (string * ContributionRef)).*2 →
  mapM (λ kv, result_map (pair kv.1) (contribution_ref_from_dict kv.2)) ((λ e, (PStr e.1, ref_to_dict e.2)) <$> l)
  = Ok ((λ e, (PStr e.1, e.2)) <$> l).
Proof.
  intros Hl. rewrite Forall_fmap in Hl. apply mapM_Ok, Forall2_fmap_2. apply Forall_Forall2_diag.
  eapply Forall_impl; [exact Hl|]. intros [t r] Hr. cbn [fst snd] in *. apply result_map_Ok. exists r.
  split; [by apply ref_roundtrip | done].
Qed.

Lemma stack_roundtrip s : stack_wf s → EvaluationStackManifest_from_dict (EvaluationStackManifest_to_dict s) = Ok s.
Proof.
  intros Hs. unfold EvaluationStackManifest_from_dict, EvaluationStackManifest_to_dict, SM._strict_object.
  rewrite require_exact_fields_sorted by reflexivity. cbn [bind row_get String.eqb Ascii.eqb Bool.eqb].
  eapply bind_step; [done|]. eapply bind_step; [done|]. rewrite <- list_fmap_compose.
  eapply bind_step; [apply stack_entries_again, Hs|]. rewrite stack_init_rows by (try done; apply Hs).
  rewrite sorted_by_stable by apply Hs. by destruct s.
Qed.

(** A manifest some constructor returned, for checked contributions. *)
Definition manifest_built (m : StackManifest) : Prop :=
  match m with
  | EvaluationStack s => ∃ a b c d e entries f g, Forall ref_wf entries.*2 ∧
      EvaluationStackManifest_init a b c d e entries f g = Ok s
  | EngineRelease s => ∃ a b c d entries f g, Forall ref_wf entries.*2 ∧
      EngineReleaseManifest_init a b c d entries f g = Ok s
  end.

(** Manifests and review records are read back exactly.  Whatever an
    evaluation stack or an engine release was built from, reading its dictionary
    form with [stack_manifest_from_dict] returns that same manifest, of that same
    kind; and a review record built over checked evidence is read back by
    [IntegrationReviewRecord.from_dict]. *)
Theorem manifest_roundtrip m r :
  manifest_built m → record_built r →
  stack_manifest_from_dict (stack_manifest_to_dict m) = Ok m ∧
  IntegrationReviewRecord_from_dict (IntegrationReviewRecord_to_dict r) = Ok r.
Proof.
  intros Hm Hr. split; [|by apply record_from_dict]. destruct m as [s|s].
  - destruct Hm as (? & ? & ? & ? & ? & ? & ? & ? & Hrefs & Hs). apply stack_init_wf in Hs; [|done].
    change (result_map EvaluationStack (EvaluationStackManifest_from_dict (EvaluationStackManifest_to_dict s)) = Ok (EvaluationStack s)).
    by rewrite stack_roundtrip.
  - destruct Hm as (? & ? & ? & ? & ? & ? & ? & Hrefs & Hs). apply release_init_wf in Hs; [|done].
    change (result_map EngineRelease (EngineReleaseManifest_from_dict (EngineReleaseManifest_to_dict s)) = Ok (EngineRelease s)).
    by rewrite release_roundtrip.
Qed.

(** ** What a validated release ships *)

Definition record_row (r : IntegrationReviewRecord) : string * IntegrationReviewRecord := (rr_target_id r, r).
Definition ref_row (r : IntegratedContributionRef) : string * IntegratedContributionRef := (ir_target_id r, r).

Lemma check_record_Ok checked item checked' :
  check_record checked item = Ok checked' ↔
  item.1 = PStr (rr_target_id item.2) ∧ target_ok (rr_target_id item.2) ∧ (rr_target_id item.2 ∉ checked.*1) ∧
  checked' = checked ++ [record_row item.2].
Proof.
  unfold check_record. split.
  - intros Hi. apply bind_Ok in Hi as (t & [-> Ht]%target_id_Ok & Hi). apply bind_Ok in Hi as (? & Hn%raise_if_Ok & Hi).
    apply bind_Ok in Hi as (? & He%raise_if_Ok & [= <-]). bool_prop. by subst t.
  - intros (-> & Ht & Hn & ->). eapply bind_step; [by apply target_id_Ok|].
    rewrite bool_decide_eq_false_2, bool_decide_eq_true_2 by done. done.
Qed.

Lemma check_records_Ok records checked checked' :
  NoDup checked.*1 →
  foldM check_record records checked = Ok checked' ↔
  ∃ recs, records = (λ r, (PStr (rr_target_id r), r)) <$> recs ∧ Forall target_ok (rr_target_id <$> recs) ∧
    checked' = checked ++ (record_row <$> recs) ∧ NoDup (checked.*1 ++ (rr_target_id <$> recs)).
Proof.
  revert checked. induction records as [|item records IH]; intros checked Hnd.
  { split; [intros [= <-]; exists []; by rewrite !fmap_nil, !app_nil_r|].
    intros ([|] & Hr & _ & -> & _); [by rewrite fmap_nil, app_nil_r | done]. }
  rewrite foldM_cons, bind_Ok. setoid_rewrite check_record_Ok. split.
  - intros (c1 & (Hi & Ht & Hn & ->) & Hf). apply IH in Hf as (recs & -> & Hok & -> & Hnd').
    + exists (item.2 :: recs). rewrite !fmap_cons. split_and!; [by destruct item; cbn in *; subst | by constructor | by rewrite <- app_assoc|].
      rewrite fmap_app, <- app_assoc in Hnd'. done.
    + rewrite fmap_app. apply NoDup_app. split_and!; [done| |apply NoDup_singleton]. intros t Ht' ->%list_elem_of_singleton. done.
  - intros ([|r recs] & Hr & Hok & -> & Hnd'); [done|]. rewrite fmap_cons in Hr. injection Hr as -> ->.
    rewrite fmap_cons in Hok. apply Forall_cons in Hok as [Ht Hok]. rewrite fmap_cons in Hnd'.
    eexists. split; [split_and!; [done..| |done]|].
    + apply NoDup_app in Hnd' as (_ & Hd & _). intros Hin. apply (Hd _ Hin). left.
    + assert ((checked ++ [record_row r]).*1 ++ (rr_target_id <$> recs) = checked.*1 ++ rr_target_id r :: (rr_target_id <$> recs)) as E
        by (by rewrite fmap_app, <- app_assoc).
      rewrite <- E in Hnd'. apply IH; [by apply NoDup_app in Hnd' as [? _]|]. exists recs. by rewrite fmap_cons, <- app_assoc.
Qed.

Lemma require_ref_Ok r value u : require_ref r value = Ok u ↔ integrated_ref r = Ok value.
Proof.
  unfold require_ref. rewrite bind_Ok. setoid_rewrite raise_if_Ok. split.
  - intros (expected & Hr & He). bool_prop. by subst.
  - intros Hr. exists value. split; [done|]. by rewrite bool_decide_eq_true_2.
Qed.

Lemma integrated_ref_target r ref : integrated_ref r = Ok ref → ir_target_id ref = rr_target_id r ∧ target_ok (rr_target_id r).
Proof.
  unfold integrated_ref, IntegratedContributionRef_init. intros Hr. apply bind_Ok in Hr as (t & [[= <-] Ht]%target_id_Ok & Hr).
  do 6 apply bind_Ok in Hr as (? & _ & Hr). by injection Hr as <-.
Qed.

Lemma refs_rows recs refs :
  mapM integrated_ref recs = Ok refs → ir_target_id <$> refs = rr_target_id <$> recs.
Proof.
  rewrite mapM_Ok. induction 1 as [|r ref recs refs Hr _ IH]; [done|]. apply integrated_ref_target in Hr as [Hr _].
  csimpl. by rewrite Hr, IH.
Qed.

Lemma refs_elem recs refs ref :
  mapM integrated_ref recs = Ok refs → ref ∈ refs ↔ ∃ r, r ∈ recs ∧ integrated_ref r = Ok ref.
Proof.
  rewrite mapM_Ok. intros Hf. split.
  - intros [i Hi]%list_elem_of_lookup. destruct (Forall2_lookup_r _ _ _ _ _ Hf Hi) as (r & Hr & Hx).
    exists r. split; [by eapply list_elem_of_lookup_2 | done].
  - intros (r & [i Hi]%list_elem_of_lookup & Hx). destruct (Forall2_lookup_l _ _ _ _ _ Hf Hi) as (ref' & Hr & Hy).
    rewrite Hx in Hy. injection Hy as <-. by eapply list_elem_of_lookup_2.
Qed.

(** Entries and records correspond. *)
Definition covered (s : EngineReleaseManifest) (recs : list IntegrationReviewRecord) : Prop :=
  (∀ t ref, (t, ref) ∈ er_entries s → ∃ r, r ∈ recs ∧ rr_target_id r = t ∧ integrated_ref r = Ok ref) ∧
  (∀ r, r ∈ recs → ∃ ref, integrated_ref r = Ok ref ∧ (rr_target_id r, ref) ∈ er_entries s).

Lemma coverage_checked_Ok s recs :
  NoDup (rr_target_id <$> recs) →
  (do! raise_if (negb (bool_decide ((list_to_set (record_row <$> recs).*1 : gset string) = list_to_set (er_entries s).*1)))
         (SM.error "release integration-record coverage differs") ;;
   forM_ (er_entries s) (λ e, match assoc (record_row <$> recs) e.1 with
                              | Some record => require_ref record e.2
                              | None => Raise (Exn KeyError e.1)
                              end)) = Ok tt ↔ covered s recs.
Proof.
  intros Hnd. assert ((record_row <$> recs).*1 = rr_target_id <$> recs) as Hk by (by rewrite <- list_fmap_compose).
  rewrite bind_Ok. setoid_rewrite raise_if_Ok. setoid_rewrite forM_Ok. setoid_rewrite Forall_forall. rewrite Hk. unfold covered. split.
  - intros (_ & Hc & Hv). bool_prop.
    assert (∀ t ref, (t, ref) ∈ er_entries s → ∃ r, r ∈ recs ∧ rr_target_id r = t ∧ integrated_ref r = Ok ref) as Hent.
    { intros t ref He. pose proof (Hv _ He) as Hr. cbn in Hr. destruct (assoc _ t) as [r|] eqn:Ea; [|done].
      apply assoc_Some, list_elem_of_fmap in Ea as (r' & [= -> ->] & Hin). exists r'. by apply require_ref_Ok in Hr. }
    split; [done|]. intros r Hr. assert (rr_target_id r ∈ (er_entries s).*1) as Hin.
    { apply (elem_of_list_to_set (C := gset string)). rewrite <- Hc. apply elem_of_list_to_set, list_elem_of_fmap. by exists r. }
    apply list_elem_of_fmap in Hin as ([t ref] & Ht & He). cbn in Ht. subst t. destruct (Hent _ _ He) as (r' & Hr' & Ht & Hi).
    assert (r' = r) as -> by by eapply (NoDup_fmap_inj_elem rr_target_id). by exists ref.
  - intros [Hent Hrec]. exists tt. split.
    + bool_goal. apply set_eq. intros t. rewrite !elem_of_list_to_set, !list_elem_of_fmap. split.
      * intros (r & -> & Hr). destruct (Hrec r Hr) as (ref & _ & He). by exists (rr_target_id r, ref).
      * intros ([t' ref] & -> & He). destruct (Hent _ _ He) as (r & Hr & <- & _). by exists r.
    + intros [t ref] He. cbn. destruct (Hent _ _ He) as (r & Hr & <- & Hi).
      rewrite (assoc_elem _ _ r); [by apply require_ref_Ok | by rewrite Hk|]. apply list_elem_of_fmap. by exists r.
Qed.

Lemma covered_entries s recs :
  release_wf s → NoDup (rr_target_id <$> recs) →
  covered s recs ↔ ∃ refs, mapM integrated_ref recs = Ok refs ∧ er_entries s = sorted_by fst (ref_row <$> refs).
Proof.
  intros Hs Hnd. split.
  - intros [Hent Hrec]. assert (∃ refs, mapM integrated_ref recs = Ok refs) as [refs Hrefs].
    { apply is_ok_true. rewrite is_ok_mapM. apply forallb_forall. intros r Hr%list_elem_of_In.
      by destruct (Hrec r Hr) as (ref & -> & _). }
    assert (NoDup (ref_row <$> refs).*1) as Hnd'.
    { rewrite <- list_fmap_compose. change (fst ∘ ref_row) with ir_target_id. by rewrite (refs_rows _ _ Hrefs). }
    exists refs. split; [done|]. symmetry. apply sorted_by_unique; [done | by apply Hs|].
    apply NoDup_Permutation; [eapply NoDup_fmap_1, (rf_nodup _ Hs) | by eapply NoDup_fmap_1|].
    intros [t ref]. rewrite list_elem_of_fmap. setoid_rewrite (refs_elem _ _ _ Hrefs). split.
    + intros He. destruct (Hent _ _ He) as (r & Hr & Ht & Hi). exists ref. split; [|by exists r].
      unfold ref_row. by rewrite (proj1 (integrated_ref_target _ _ Hi)), Ht.
    + intros (ref' & [= -> ->] & r & Hr & Hi). destruct (Hrec r Hr) as (ref'' & Hi' & He).
      rewrite Hi in Hi'. injection Hi' as <-. by rewrite (proj1 (integrated_ref_target _ _ Hi)).
  - intros (refs & Hrefs & He). split.
    + intros t ref Hin. rewrite He, sorted_by_perm in Hin. apply list_elem_of_fmap in Hin as (ref' & [= -> ->] & Hin).
      apply (refs_elem _ _ _ Hrefs) in Hin as (r & Hr & Hi). exists r. by rewrite (proj1 (integrated_ref_target _ _ Hi)).
    + intros r Hr. rewrite mapM_Ok in Hrefs. apply list_elem_of_lookup in Hr as [i Hi].
      destruct (Forall2_lookup_l _ _ _ _ _ Hrefs Hi) as (ref & Hr & Hx). exists ref. split; [done|].
      rewrite He, sorted_by_perm. apply list_elem_of_fmap. exists ref. split; [|by eapply list_elem_of_lookup_2].
      unfold ref_row. by rewrite (proj1 (integrated_ref_target _ _ Hx)).
Qed.

(** C37: a validated release ships exactly what was reviewed.
    [validate_integrations] accepts a release exactly when the records it is
    given are keyed by their own distinct targets, every record yields a
    contribution reference, and the release's entries are those references,
    sorted by target: nothing unreviewed is shipped, no approved record is
    dropped, and no entry differs from its record in any field. *)
Theorem release_reviewed s records :
  manifest_built (EngineRelease s) →
  validate_integrations s records = Ok tt ↔
  ∃ recs refs, records = (λ r, (PStr (rr_target_id r), r)) <$> recs ∧ NoDup (rr_target_id <$> recs) ∧
    mapM integrated_ref recs = Ok refs ∧ er_entries s = sorted_by fst (ref_row <$> refs).
Proof.
  intros (? & ? & ? & ? & ? & ? & ? & Hrefs & Hs). apply release_init_wf in Hs; [|done]. clear Hrefs.
  unfold validate_integrations. rewrite bind_Ok. setoid_rewrite check_records_Ok; [|constructor]. cbn [app fmap list_fmap]. split.
  - intros (checked & (recs & -> & Hok & -> & Hnd) & Hv). apply coverage_checked_Ok, covered_entries in Hv as (refs & ? & ?); [|done..].
    by exists recs, refs.
  - intros (recs & refs & -> & Hnd & Hrefs & He). exists (record_row <$> recs). split.
    + exists recs. split_and!; try done. apply Forall_fmap, Forall_forall. intros r [i Hi]%list_elem_of_lookup.
      pose proof Hrefs as Hf%mapM_Ok. destruct (Forall2_lookup_l _ _ _ _ _ Hf Hi) as (ref & _ & Hr).
      by apply integrated_ref_target in Hr as [_ ?].
    + apply coverage_checked_Ok; [done|]. apply covered_entries; [done..|]. by exists refs.
Qed.
End releases.
