(* ===== verification/StackPlan.v ===== *)
(** * Stack plans (src/optima/stack_plan.py)

    One-target transitions of an evaluation stack: the candidate stack and its
    marginal arm, the rollback of an arm, and cohorts of arms sealed against one
    incumbent.

    The [isinstance] checks on stacks, transitions, arms and contribution
    references are the types of the model.  [plan.to_dict() != other.to_dict()]
    is [py_eq] on the dictionaries. *)

From Stdlib Require Import ZArith Lia Ascii.
From stdpp Require Import base tactics numbers list strings gmap sorting.
From S2P Require Import Prelude PyValue Sha256 Identity Strict Provider Catalog Stack.

Definition _PLAN_SCHEMA_VERSION : Z := 1.
Definition _PLAN_POLICY_VERSION : string := "stack-plan.v1".

Module SP.
Definition error (msg : string) : pyexn := Exn StackPlanError msg.
Definition stale (msg : string) : pyexn := Exn StaleStackPlanError msg.

Definition _digest (v : pyval) : result string := require_digest StackPlanError false false v.

(** [type(v) is not int or v != 1] raises. *)
Definition schema_one (msg : string) (v : pyval) : result Z :=
  match v with
  | PInt z => if z =? _PLAN_SCHEMA_VERSION then Ok z else Raise (error msg)
  | _ => Raise (error msg)
  end.

(** [v != "stack-plan.v1"] raises. *)
Definition policy_one (msg : string) (v : pyval) : result string :=
  match v with
  | PStr s => if bool_decide (s = _PLAN_POLICY_VERSION) then Ok s else Raise (error msg)
  | _ => Raise (error msg)
  end.
End SP.

#[global] Arguments SP._digest : simpl never.

(** The exception classes that derive from [ValueError]. *)
Definition is_value_error (c : exn_class) : bool :=
  match c with
  | TypeError | KeyError | AttributeError | IndexError | AssertionError | OutOfFuel | DecimalOverflow | DivisionByZero => false
  | _ => true
  end.

(** ** Arms and transitions *)

Record StackArmIdentity := { ai_stack_digest : string; ai_tree_digest : string }.

#[global] Instance StackArmIdentity_eq_dec : EqDecision StackArmIdentity.
Proof. solve_decision. Defined.

Definition StackArmIdentity_init (stack_digest tree_digest : pyval) : result StackArmIdentity :=
  let! stack_digest := SP._digest stack_digest in
  let! tree_digest := SP._digest tree_digest in
  Ok {| ai_stack_digest := stack_digest; ai_tree_digest := tree_digest |}.

Definition StackArmIdentity_to_dict (a : StackArmIdentity) : pyval :=
  py_dict [("stack_digest", PStr (ai_stack_digest a)); ("tree_digest", PStr (ai_tree_digest a))].

Record TargetTransition := {
  tt_target_id : string;
  tt_target_spec_digest : string;
  tt_replacement : ContributionRef;
  tt_prior : option ContributionRef;
  tt_displaced : list ContributionRef
}.

Definition TargetTransition_to_dict (t : TargetTransition) : pyval :=
  py_dict [
    ("target_id", PStr (tt_target_id t));
    ("target_spec_digest", PStr (tt_target_spec_digest t));
    ("replacement", ref_to_dict (tt_replacement t));
    ("prior", match tt_prior t with None => PNone | Some r => ref_to_dict r end);
    ("displaced", PList (ref_to_dict <$> tt_displaced t))].

Record MarginalArmPlan := {
  ma_incumbent : EvaluationStackManifest;
  ma_candidate : EvaluationStackManifest;
  ma_transition : TargetTransition;
  ma_baseline_before : StackArmIdentity;
  ma_challenger : StackArmIdentity;
  ma_baseline_after : StackArmIdentity;
  ma_schema_version : Z;
  ma_policy_version : string
}.

Record RollbackPlan := {
  rp_expected_current : StackArmIdentity;
  rp_restored : StackArmIdentity;
  rp_restored_manifest : EvaluationStackManifest;
  rp_source_arm_digest : string;
  rp_schema_version : Z
}.

Record CohortPlan := {
  cp_incumbent : StackArmIdentity;
  cp_arms : list MarginalArmPlan;
  cp_entropy_digest : string;
  cp_authority_order : list ContributionRef;
  cp_execution_order : list string;
  cp_schema_version : Z
}.

Section plan.
Context `{Sha256}.

(** [TargetTransition.__post_init__] *)
Definition TargetTransition_init (target_id target_spec_digest : pyval) (replacement : ContributionRef)
    (prior : option ContributionRef) (displaced : list ContributionRef) : result TargetTransition :=
  let! target_id := match target_id with
                    | PStr s => if bool_decide (s = "") then Raise (SP.error "transition target_id must be a non-empty string")
                                else Ok s
                    | _ => Raise (SP.error "transition target_id must be a non-empty string")
                    end in
  let! target_spec_digest := SP._digest target_spec_digest in
  do! raise_if (negb (bool_decide (ref_target_id replacement = target_id)))
        (SP.error "replacement target does not match transition target") ;;
  do! raise_if (negb (bool_decide (ref_target_spec_digest replacement = target_spec_digest)))
        (SP.error "replacement target-spec digest does not match transition") ;;
  do! match prior with
      | None => Ok tt
      | Some p =>
          do! raise_if (negb (bool_decide (ref_target_id p = target_id)))
                (SP.error "prior contribution does not match transition target") ;;
          do! raise_if (negb (is_nil displaced))
                (SP.error "same-target replacement cannot also displace active targets") ;;
          raise_if (bool_decide (ref_selected_delta_digest p = ref_selected_delta_digest replacement))
            (SP.error "same-target replacement has no executable delta")
      end ;;
  let displaced_ids := ref_target_id <$> displaced in
  do! raise_if (negb (bool_decide (displaced_ids = sorted_str displaced_ids)))
        (SP.error "displaced contributions must be target-sorted") ;;
  do! raise_if (negb (bool_decide (NoDup displaced_ids)))
        (SP.error "displaced contributions contain duplicate targets") ;;
  do! raise_if (bool_decide (target_id ∈ displaced_ids))
        (SP.error "transition cannot displace its replacement target") ;;
  Ok {| tt_target_id := target_id; tt_target_spec_digest := target_spec_digest;
        tt_replacement := replacement; tt_prior := prior; tt_displaced := displaced |}.

Definition tt_selected_delta_digest (t : TargetTransition) : string := ref_selected_delta_digest (tt_replacement t).

(** The checks of one entry that a transition must leave alone. *)
Definition unrelated_unchanged (candidate : list (string * ContributionRef)) (removed : list string) (target_id : string)
    (e : string * ContributionRef) : result unit :=
  raise_if (negb (bool_decide (e.1 ∈ removed)) && negb (bool_decide (e.1 = target_id))
            && negb (bool_decide (assoc candidate e.1 = Some e.2)))
    (SP.error "candidate changed unrelated target").

(** [(set(entries) - set(removed)) | {target_id}] *)
Definition expected_targets (entries : list (string * ContributionRef)) (removed : list string) (target_id : string) : gset string :=
  (list_to_set entries.*1 ∖ list_to_set removed) ∪ {[target_id]}.

(** [MarginalArmPlan.__post_init__] *)
Definition MarginalArmPlan_init (incumbent candidate : EvaluationStackManifest) (transition : TargetTransition)
    (baseline_before challenger baseline_after : StackArmIdentity) (schema_version policy_version : pyval)
    : result MarginalArmPlan :=
  let! schema_version := SP.schema_one "marginal arm schema_version must be 1" schema_version in
  let! policy_version := SP.policy_one "marginal arm policy_version is unsupported" policy_version in
  do! raise_if (negb (bool_decide (baseline_before = baseline_after)))
        (SP.error "B and B-prime must bind the same exact incumbent") ;;
  do! raise_if (negb (bool_decide (ai_stack_digest baseline_before = EvaluationStackManifest_digest incumbent)))
        (SP.error "baseline arm does not bind incumbent stack") ;;
  do! raise_if (negb (bool_decide (ai_stack_digest challenger = EvaluationStackManifest_digest candidate)))
        (SP.error "challenger arm does not bind candidate stack") ;;
  do! raise_if (bool_decide (ai_tree_digest challenger = ai_tree_digest baseline_before))
        (SP.error "challenger and incumbent tree digests must differ") ;;
  let incumbent_entries := es_entries incumbent in
  let candidate_entries := es_entries candidate in
  let target_id := tt_target_id transition in
  let displaced_ids := ref_target_id <$> tt_displaced transition in
  do! raise_if (negb (bool_decide (assoc incumbent_entries target_id = tt_prior transition)))
        (SP.error "transition prior does not match incumbent entry") ;;
  do! raise_if (negb (bool_decide (assoc candidate_entries target_id = Some (tt_replacement transition))))
        (SP.error "transition replacement does not match candidate entry") ;;
  do! raise_if (existsb (λ ref, negb (bool_decide (assoc incumbent_entries (ref_target_id ref) = Some ref))) (tt_displaced transition))
        (SP.error "transition displaced entries do not match incumbent") ;;
  do! raise_if (negb (bool_decide (list_to_set candidate_entries.*1 = expected_targets incumbent_entries displaced_ids target_id)))
        (SP.error "candidate entries do not match transition target set") ;;
  do! forM_ incumbent_entries (unrelated_unchanged candidate_entries displaced_ids target_id) ;;
  Ok {| ma_incumbent := incumbent; ma_candidate := candidate; ma_transition := transition;
        ma_baseline_before := baseline_before; ma_challenger := challenger; ma_baseline_after := baseline_after;
        ma_schema_version := schema_version; ma_policy_version := policy_version |}.

Definition ma_selected_delta_digest (a : MarginalArmPlan) : string := tt_selected_delta_digest (ma_transition a).

Definition contribution_digest (a : MarginalArmPlan) : string := ref_digest (tt_replacement (ma_transition a)).

Definition MarginalArmPlan_to_dict (a : MarginalArmPlan) : pyval :=
  py_dict [
    ("schema_version", PInt (ma_schema_version a));
    ("policy_version", PStr (ma_policy_version a));
    ("incumbent_stack_digest", PStr (EvaluationStackManifest_digest (ma_incumbent a)));
    ("candidate_stack_digest", PStr (EvaluationStackManifest_digest (ma_candidate a)));
    ("transition", TargetTransition_to_dict (ma_transition a));
    ("baseline_before", StackArmIdentity_to_dict (ma_baseline_before a));
    ("challenger", StackArmIdentity_to_dict (ma_challenger a));
    ("baseline_after", StackArmIdentity_to_dict (ma_baseline_after a))].

Definition MarginalArmPlan_digest (a : MarginalArmPlan) : string :=
  digest_of "optima.stack.marginal-arm-plan" (MarginalArmPlan_to_dict a).

(** ** Planning *)

(** The incumbent's entries that the replacement displaces, when its target is
    not active: [blockers] and [remove] of [_candidate_transition]. *)
Definition displaced_targets (catalog : TargetCatalog) (active : list string) (target_id : string) : result (list string) :=
  let! rows := mapM (λ active_id, let! closure := displacement_closure catalog active_id in
                                  Ok (active_id, bool_decide (target_id ∈ closure))) active in
  let blockers := sorted_str (List.filter snd rows).*1 in
  do! raise_if (negb (is_nil blockers)) (SP.error "target cannot implicitly decompose active targets") ;;
  let! closure := displacement_closure catalog target_id in
  Ok (sorted_set (list_to_set active ∩ closure)).

(** [tuple(active[target] for target in remove)] *)
Definition lookup_entries (entries : list (string * ContributionRef)) (targets : list string) : result (list ContributionRef) :=
  mapM (λ t, match assoc entries t with Some r => Ok r | None => Raise (Exn KeyError t) end) targets.

Definition _candidate_transition (incumbent : EvaluationStackManifest) (replacement : ContributionRef)
    (catalog : TargetCatalog) (expected_context : EvaluationStackContext)
    : result (EvaluationStackManifest * TargetTransition) :=
  do! validate_against incumbent expected_context ;;
  do! raise_if (negb (bool_decide (tc_digest catalog = es_catalog_digest incumbent))
                || negb (bool_decide (tc_digest catalog = ec_catalog_digest expected_context))
                || negb (py_eq (tc_snapshot catalog) (es_catalog_snapshot incumbent))
                || negb (py_eq (tc_snapshot catalog) (json_value (ec_catalog_json expected_context))))
        (SP.error "planning catalog does not match the frozen stack context") ;;
  let target_id := ref_target_id replacement in
  let active := es_entries incumbent in
  let! expected_spec :=
    reraise (λ c, bool_decide (c = TargetResolutionError)) (λ _, SP.error "invalid registered transition")
      (do! require catalog target_id ;;
       let! expected_spec := target_spec_digest catalog target_id in
       do! validate_active_targets catalog active.*1 ;;
       Ok expected_spec) in
  do! raise_if (negb (bool_decide (ref_target_spec_digest replacement = expected_spec)))
        (SP.error "replacement target-spec digest is stale") ;;
  let prior := assoc active target_id in
  let! remove := match prior with
                 | Some _ => Ok []
                 | None => displaced_targets catalog active.*1 target_id
                 end in
  let! displaced := lookup_entries active remove in
  let! transition := TargetTransition_init (PStr target_id) (PStr expected_spec) replacement prior displaced in
  let! candidate :=
    reraise is_value_error (λ _, SP.error "invalid marginal transition")
      (let! candidate := with_contribution incumbent replacement (PStr <$> remove) in
       do! validate_active_targets catalog (es_entries candidate).*1 ;;
       do! validate_against candidate expected_context ;;
       Ok candidate) in
  do! raise_if (negb (bool_decide (list_to_set (es_entries candidate).*1 = expected_targets active remove target_id)))
        (SP.error "candidate changed entries outside the target transition") ;;
  do! forM_ active (unrelated_unchanged (es_entries candidate) remove target_id) ;;
  do! raise_if (bool_decide (EvaluationStackManifest_digest candidate = EvaluationStackManifest_digest incumbent))
        (SP.error "marginal transition does not change the stack") ;;
  Ok (candidate, transition).

Definition plan_candidate_stack (incumbent : EvaluationStackManifest) (replacement : ContributionRef)
    (catalog : TargetCatalog) (expected_context : EvaluationStackContext) : result EvaluationStackManifest :=
  let! planned := _candidate_transition incumbent replacement catalog expected_context in
  Ok planned.1.

Definition plan_marginal_arm (incumbent : EvaluationStackManifest) (replacement : ContributionRef)
    (catalog : TargetCatalog) (incumbent_tree_digest candidate_tree_digest : pyval)
    (expected_context : EvaluationStackContext) : result MarginalArmPlan :=
  let! planned := _candidate_transition incumbent replacement catalog expected_context in
  let candidate := planned.1 in
  let! incumbent_tree := SP._digest incumbent_tree_digest in
  let! candidate_tree := SP._digest candidate_tree_digest in
  let! baseline_before := StackArmIdentity_init (PStr (EvaluationStackManifest_digest incumbent)) (PStr incumbent_tree) in
  let! challenger := StackArmIdentity_init (PStr (EvaluationStackManifest_digest candidate)) (PStr candidate_tree) in
  let! baseline_after := StackArmIdentity_init (PStr (EvaluationStackManifest_digest incumbent)) (PStr incumbent_tree) in
  MarginalArmPlan_init incumbent candidate planned.2 baseline_before challenger baseline_after
    (PInt _PLAN_SCHEMA_VERSION) (PStr _PLAN_POLICY_VERSION).

(** The checks that [require_current] of arms and cohorts and [reconstruct] share:
    the current stack and tree are the expected ones. *)
Definition require_arm (what : string) (expected : StackArmIdentity) (current : EvaluationStackManifest) (tree_digest : pyval)
    (expected_context : EvaluationStackContext) : result unit :=
  do! validate_against current expected_context ;;
  let! current_tree := SP._digest tree_digest in
  do! raise_if (negb (bool_decide (EvaluationStackManifest_digest current = ai_stack_digest expected)))
        (SP.stale (what +:+ " stack is stale")) ;;
  raise_if (negb (bool_decide (current_tree = ai_tree_digest expected))) (SP.stale (what +:+ " tree is stale")).

(** [MarginalArmPlan.require_current]; the constructor has checked that
    [baseline_before] binds the incumbent's digest. *)
Definition arm_require_current (arm : MarginalArmPlan) (current : EvaluationStackManifest) (tree_digest : pyval)
    (expected_context : EvaluationStackContext) : result MarginalArmPlan :=
  do! require_arm "marginal arm incumbent"
        {| ai_stack_digest := EvaluationStackManifest_digest (ma_incumbent arm);
           ai_tree_digest := ai_tree_digest (ma_baseline_before arm) |} current tree_digest expected_context ;;
  Ok arm.

(** [MarginalArmPlan.reopen] *)
Definition arm_reopen (arm : MarginalArmPlan) (catalog : TargetCatalog) (expected_context : EvaluationStackContext)
    : result MarginalArmPlan :=
  let! expected := plan_marginal_arm (ma_incumbent arm) (tt_replacement (ma_transition arm)) catalog
                     (PStr (ai_tree_digest (ma_baseline_before arm))) (PStr (ai_tree_digest (ma_challenger arm))) expected_context in
  do! raise_if (negb (py_eq (MarginalArmPlan_to_dict expected) (MarginalArmPlan_to_dict arm)))
        (SP.error "marginal arm does not reopen to its declared transition") ;;
  Ok arm.

(** ** Rollback *)

Definition RollbackPlan_init (expected_current restored : StackArmIdentity) (restored_manifest : EvaluationStackManifest)
    (source_arm_digest schema_version : pyval) : result RollbackPlan :=
  let! schema_version := SP.schema_one "rollback schema_version must be 1" schema_version in
  let! source_arm_digest := SP._digest source_arm_digest in
  do! raise_if (negb (bool_decide (ai_stack_digest restored = EvaluationStackManifest_digest restored_manifest)))
        (SP.error "rollback manifest does not match restored stack") ;;
  do! raise_if (bool_decide (expected_current = restored)) (SP.error "rollback must restore a different whole stack") ;;
  Ok {| rp_expected_current := expected_current; rp_restored := restored; rp_restored_manifest := restored_manifest;
        rp_source_arm_digest := source_arm_digest; rp_schema_version := schema_version |}.

Definition RollbackPlan_from_arm (arm : MarginalArmPlan) (catalog : TargetCatalog) (expected_context : EvaluationStackContext)
    : result RollbackPlan :=
  do! arm_reopen arm catalog expected_context ;;
  let! restored := StackArmIdentity_init (PStr (ai_stack_digest (ma_baseline_before arm)))
                     (PStr (ai_tree_digest (ma_baseline_before arm))) in
  RollbackPlan_init (ma_challenger arm) restored (ma_incumbent arm) (PStr (MarginalArmPlan_digest arm)) (PInt _PLAN_SCHEMA_VERSION).

Definition RollbackPlan_to_dict (p : RollbackPlan) : pyval :=
  py_dict [
    ("schema_version", PInt (rp_schema_version p));
    ("expected_current", StackArmIdentity_to_dict (rp_expected_current p));
    ("restored", StackArmIdentity_to_dict (rp_restored p));
    ("restored_manifest_digest", PStr (EvaluationStackManifest_digest (rp_restored_manifest p)));
    ("source_arm_digest", PStr (rp_source_arm_digest p))].

Definition RollbackPlan_digest (p : RollbackPlan) : string :=
  digest_of "optima.stack.rollback-plan" (RollbackPlan_to_dict p).

Definition rollback_reopen (p : RollbackPlan) (source_arm : MarginalArmPlan) (catalog : TargetCatalog)
    (expected_context : EvaluationStackContext) : result RollbackPlan :=
  let! expected := RollbackPlan_from_arm source_arm catalog expected_context in
  do! raise_if (negb (py_eq (RollbackPlan_to_dict expected) (RollbackPlan_to_dict p)))
        (SP.error "rollback does not reopen to its source arm") ;;
  Ok p.

Definition reconstruct (p : RollbackPlan) (current : EvaluationStackManifest) (tree_digest : pyval) (source_arm : MarginalArmPlan)
    (catalog : TargetCatalog) (expected_context : EvaluationStackContext) : result (EvaluationStackManifest * string) :=
  do! rollback_reopen p source_arm catalog expected_context ;;
  do! require_arm "rollback current" (rp_expected_current p) current tree_digest expected_context ;;
  do! validate_against (rp_restored_manifest p) expected_context ;;
  Ok (rp_restored_manifest p, ai_tree_digest (rp_restored p)).

(** ** Cohorts *)

Definition execution_key (entropy_digest : string) (arm : MarginalArmPlan) : string :=
  digest_of "optima.stack.cohort-execution-key"
    (py_dict [("entropy_digest", PStr entropy_digest); ("selected_delta_digest", PStr (ma_selected_delta_digest arm))]).

(** Tuples of two strings compare lexicographically. *)
Definition lex_le (x y : string * string) : Prop := String.le x.1 y.1 ∧ (x.1 = y.1 → String.le x.2 y.2).

#[global] Instance lex_le_dec x y : Decision (lex_le x y).
Proof. unfold lex_le. apply _. Defined.

Definition arm_key (entropy_digest : string) (arm : MarginalArmPlan) : string * string :=
  (execution_key entropy_digest arm, ma_selected_delta_digest arm).

Definition arm_le (entropy_digest : string) (a b : MarginalArmPlan) : Prop :=
  lex_le (arm_key entropy_digest a) (arm_key entropy_digest b).

#[global] Instance arm_le_dec entropy_digest a b : Decision (arm_le entropy_digest a b).
Proof. unfold arm_le. apply _. Defined.

Definition _execution_order (arms : list MarginalArmPlan) (entropy_digest : string) : list string :=
  ma_selected_delta_digest <$> stable_sort (arm_le entropy_digest) arms.

(** [set(l) != set(k) or len(l) != len(k)] *)
Definition same_members (l k : list string) : bool :=
  bool_decide ((list_to_set l : gset string) = list_to_set k) && (length l =? length k)%nat.

(** [CohortPlan.__post_init__] *)
Definition CohortPlan_init (incumbent : StackArmIdentity) (arms : list MarginalArmPlan) (entropy_digest : pyval)
    (authority_order : list ContributionRef) (execution_order : list string) (schema_version : pyval) : result CohortPlan :=
  let! schema_version := SP.schema_one "cohort schema_version must be 1" schema_version in
  let! entropy_digest := SP._digest entropy_digest in
  do! raise_if (is_nil arms) (SP.error "cohort must contain at least one candidate arm") ;;
  let canonical_deltas := ma_selected_delta_digest <$> arms in
  do! raise_if (negb (bool_decide (canonical_deltas = sorted_str canonical_deltas)))
        (SP.error "cohort arms must be selected-delta sorted") ;;
  do! raise_if (negb (bool_decide (NoDup canonical_deltas))) (SP.error "cohort contains duplicate selected deltas") ;;
  do! raise_if (existsb (λ arm, negb (bool_decide (ma_baseline_before arm = incumbent))) arms)
        (SP.error "cohort arms do not share the frozen incumbent") ;;
  do! raise_if (negb (bool_decide (NoDup ((λ arm, ai_stack_digest (ma_challenger arm)) <$> arms))))
        (SP.error "cohort contains duplicate candidate stacks") ;;
  do! raise_if (negb (bool_decide (NoDup ((λ arm, ai_tree_digest (ma_challenger arm)) <$> arms))))
        (SP.error "cohort contains duplicate candidate trees") ;;
  let arm_refs := contribution_digest <$> arms in
  let authority_refs := ref_digest <$> authority_order in
  do! raise_if (negb (bool_decide (NoDup authority_refs))) (SP.error "authority order contains duplicate contributions") ;;
  do! raise_if (negb (same_members authority_refs arm_refs))
        (SP.error "authority order must contain every cohort contribution exactly once") ;;
  do! raise_if (negb (same_members execution_order canonical_deltas))
        (SP.error "execution order must contain every selected delta exactly once") ;;
  do! raise_if (negb (bool_decide (execution_order = _execution_order arms entropy_digest)))
        (SP.error "execution order does not match sealed entropy") ;;
  Ok {| cp_incumbent := incumbent; cp_arms := arms; cp_entropy_digest := entropy_digest;
        cp_authority_order := authority_order; cp_execution_order := execution_order; cp_schema_version := schema_version |}.

Definition seal (arms : list MarginalArmPlan) (entropy_digest : pyval) (authority_order : list ContributionRef)
    (catalog : TargetCatalog) (expected_context : EvaluationStackContext) : result CohortPlan :=
  do! raise_if (is_nil arms) (SP.error "cohort must contain at least one candidate arm") ;;
  do! forM_ arms (λ arm, do! arm_reopen arm catalog expected_context ;; Ok tt) ;;
  let canonical_arms := sorted_by ma_selected_delta_digest arms in
  let! entropy := SP._digest entropy_digest in
  let execution := _execution_order canonical_arms entropy in
  match canonical_arms with
  | [] => Raise (Exn IndexError "tuple index out of range")
  | first :: _ =>
      let! incumbent := StackArmIdentity_init (PStr (ai_stack_digest (ma_baseline_before first)))
                          (PStr (ai_tree_digest (ma_baseline_before first))) in
      CohortPlan_init incumbent canonical_arms (PStr entropy) authority_order execution (PInt _PLAN_SCHEMA_VERSION)
  end.

Definition CohortPlan_to_dict (p : CohortPlan) : pyval :=
  py_dict [
    ("schema_version", PInt (cp_schema_version p));
    ("incumbent", StackArmIdentity_to_dict (cp_incumbent p));
    ("arms", py_strs (MarginalArmPlan_digest <$> cp_arms p));
    ("entropy_digest", PStr (cp_entropy_digest p));
    ("authority_order", py_strs (ref_digest <$> cp_authority_order p));
    ("execution_order", py_strs (cp_execution_order p))].

Definition CohortPlan_digest (p : CohortPlan) : string := digest_of "optima.stack.cohort-plan" (CohortPlan_to_dict p).

(** [{key(arm): arm for arm in arms}]: a repeated key keeps its last arm. *)
Definition arms_by (key : MarginalArmPlan → string) (arms : list MarginalArmPlan) (digest : string) : result MarginalArmPlan :=
  match assoc (reverse ((λ arm, (key arm, arm)) <$> arms)) digest with
  | Some arm => Ok arm
  | None => Raise (Exn KeyError digest)
  end.

Definition execution_arms (p : CohortPlan) : result (list MarginalArmPlan) :=
  mapM (arms_by ma_selected_delta_digest (cp_arms p)) (cp_execution_order p).

Definition authority_arms (p : CohortPlan) : result (list MarginalArmPlan) :=
  mapM (arms_by contribution_digest (cp_arms p)) (ref_digest <$> cp_authority_order p).

Definition cohort_require_current (p : CohortPlan) (current : EvaluationStackManifest) (tree_digest : pyval)
    (expected_context : EvaluationStackContext) : result CohortPlan :=
  do! require_arm "cohort incumbent" (cp_incumbent p) current tree_digest expected_context ;;
  Ok p.

Definition cohort_reopen (p : CohortPlan) (catalog : TargetCatalog) (expected_context : EvaluationStackContext) : result CohortPlan :=
  let! expected := seal (cp_arms p) (PStr (cp_entropy_digest p)) (cp_authority_order p) catalog expected_context in
  do! raise_if (negb (py_eq (CohortPlan_to_dict expected) (CohortPlan_to_dict p)))
        (SP.error "cohort does not reopen to its declared arms and order") ;;
  Ok p.
End plan.

#[global] Arguments MarginalArmPlan_digest : simpl never.
#[global] Arguments RollbackPlan_digest : simpl never.
#[global] Arguments CohortPlan_digest : simpl never.
#[global] Arguments execution_key : simpl never.
