(* ===== verification/StackPlanCorrect.v ===== *)
(** * Correctness of stack plans

    When a transition of an evaluation stack may be planned and what it changes,
    that an arm can be rolled back to exactly the stack it started from, and that
    a sealed cohort is complete and independent of the order of its arms. *)

From Stdlib Require Import ZArith Lia Ascii.
From stdpp Require Import base tactics numbers list strings gmap sorting relations.
From S2P Require Import Prelude PyValue Sha256 Identity Strict IdentityCorrect Graph Provider Catalog CatalogFacts CatalogCorrect.
From S2P Require Import FiniteDebt Stack StackFacts StackPlan.

(** ** What the planner of stack_plan.py computes

    Closed forms of the transition, the arm, the rollback and the cohort, from
    which the properties of [StackPlanCorrect] are read off. *)

#[local] Arguments assoc : simpl never.

Lemma sp_digest_Ok v s : SP._digest v = Ok s ↔ v = PStr s ∧ digest_ok s.
Proof. apply require_digest_Ok. Qed.

Lemma schema_one_Ok msg v z : SP.schema_one msg v = Ok z ↔ v = PInt z ∧ z = _PLAN_SCHEMA_VERSION.
Proof.
  unfold SP.schema_one. split.
  - destruct v; try done. destruct (_ =? _) eqn:E; [|done]. intros [= ->]. by apply Z.eqb_eq in E.
  - intros [-> ->]. done.
Qed.

Lemma policy_one_Ok msg v s : SP.policy_one msg v = Ok s ↔ v = PStr s ∧ s = _PLAN_POLICY_VERSION.
Proof.
  unfold SP.policy_one. split.
  - destruct v; try done. case_bool_decide; [|done]. by intros [= ->].
  - by intros [-> ->].
Qed.

Lemma arm_identity_Ok stack tree a :
  StackArmIdentity_init (PStr stack) (PStr tree) = Ok a ↔
  a = {| ai_stack_digest := stack; ai_tree_digest := tree |} ∧ digest_ok stack ∧ digest_ok tree.
Proof.
  unfold StackArmIdentity_init. split.
  - intros Hi. apply bind_Ok in Hi as (s & [[= <-] ?]%sp_digest_Ok & Hi). apply bind_Ok in Hi as (t & [[= <-] ?]%sp_digest_Ok & Hi).
    by injection Hi as <-.
  - intros (-> & ? & ?). eapply bind_step; [by apply sp_digest_Ok|]. eapply bind_step; [by apply sp_digest_Ok|]. done.
Qed.

(** ** Validation against a context *)

(** The stack carries the identities the context expects. *)
Definition header_matches (s : EvaluationStackManifest) (c : EvaluationStackContext) : Prop :=
  es_runtime_digest s = ec_runtime_digest c ∧ es_base_engine_digest s = ec_base_engine_digest c ∧
  es_arena_digest s = ec_arena_digest c ∧ es_catalog_digest s = ec_catalog_digest c ∧
  encode_utf8 (json_dumps (es_catalog_json s)) = encode_utf8 (json_dumps (ec_catalog_json c)).

Definition spec_expected (c : EvaluationStackContext) (e : string * ContributionRef) : Prop :=
  assoc (ec_target_specs c) e.1 = Some (ref_target_spec_digest e.2).

Lemma validate_against_Ok s c u :
  validate_against s c = Ok u ↔ header_matches s c ∧ Forall (spec_expected c) (es_entries s).
Proof.
  unfold validate_against, _validate_catalog_and_entries, header_matches.
  repeat (setoid_rewrite bind_Ok; setoid_rewrite raise_if_Ok). setoid_rewrite forM_Ok.
  assert (∀ e, (match assoc (ec_target_specs c) e.1 with
                | None => Raise (SM.error "active target is absent from expected catalog context")
                | Some expected => raise_if (negb (bool_decide (ref_target_spec_digest e.2 = expected)))
                    (SM.error "target spec digest does not match expected context")
                end) = Ok tt ↔ spec_expected c e) as He.
  { intros e. unfold spec_expected. destruct (assoc _ _) as [d|]; [|by split]. rewrite raise_if_Ok.
    rewrite negb_false_iff, bool_decide_eq_true. naive_solver. }
  setoid_rewrite negb_false_iff. setoid_rewrite bool_decide_eq_true. split.
  - intros (_ & ? & _ & ? & _ & ? & _ & ? & _ & ? & Hf). split; [done|]. eapply Forall_impl; [exact Hf|]. intros e. apply He.
  - intros ((? & ? & ? & ? & ?) & Hf). repeat (exists tt; split; [done|]). eapply Forall_impl; [exact Hf|]. intros e. apply He.
Qed.

(** ** Displacement *)

Lemma sorted_set_sorted X : StronglySorted (key_le id) (sorted_set X).
Proof. apply sorted_by_sorted. Qed.

Lemma sorted_set_NoDup X : NoDup (sorted_set X).
Proof. unfold sorted_set, sorted_str. rewrite sorted_by_perm. apply NoDup_elements. Qed.

Lemma elem_of_sorted_set X x : x ∈ sorted_set X ↔ x ∈ X.
Proof. unfold sorted_set, sorted_str. by rewrite sorted_by_perm, elem_of_elements. Qed.

Lemma sorted_strs_ext (l k : list string) :
  StronglySorted (key_le id) l → StronglySorted (key_le id) k → NoDup l → NoDup k → (∀ x, x ∈ l ↔ x ∈ k) → l = k.
Proof.
  intros Sl Sk Nl Nk Hlk. rewrite <- (sorted_by_stable id l), <- (sorted_by_stable id k) by done.
  apply sorted_by_perm_eq; [by rewrite list_fmap_id|]. by apply NoDup_Permutation.
Qed.

Section catalog.
Context (specs : list TargetSpec) (rules : list CompositionRule) (c : TargetCatalog) (Hwf : catalog_wf specs rules c).

(** The active targets that [target] displaces, sorted. *)
Definition displaced_rows (active : list string) (target : string) (removed : list string) : Prop :=
  StronglySorted (key_le id) removed ∧ NoDup removed ∧
  ∀ t, t ∈ removed ↔ t ∈ active ∧ tc (displaces specs) target t.

Lemma displacement_rows_Ok active target :
  (∀ a, a ∈ active → a ∈ ts_target_id <$> specs) →
  ∃ rows, mapM (λ active_id, let! closure := displacement_closure c active_id in
                             Ok (active_id, bool_decide (target ∈ closure))) active = Ok rows ∧
    Forall2 (λ a r, r.1 = a ∧ (r.2 = true ↔ tc (displaces specs) a target)) active rows.
Proof.
  induction active as [|a active IH]; intros Hk; [by exists []|]. destruct IH as (rows & Hr & Hf); [intros; apply Hk; by right|].
  destruct (displacement_closure_Ok specs rules c Hwf a) as (set & Hset & Hel); [apply Hk; left|].
  exists ((a, bool_decide (target ∈ set)) :: rows). cbn [mapM]. rewrite Hset. cbn [bind]. cbn [mapM] in Hr. rewrite Hr. cbn [bind].
  split; [done|]. constructor; [|done]. cbn. by rewrite bool_decide_eq_true, Hel.
Qed.

Lemma displaced_targets_Ok active target removed :
  (∀ a, a ∈ active → a ∈ ts_target_id <$> specs) → target ∈ ts_target_id <$> specs →
  displaced_targets c active target = Ok removed ↔
  (∀ a, a ∈ active → ¬ tc (displaces specs) a target) ∧ displaced_rows active target removed.
Proof.
  intros Hk Ht. unfold displaced_targets. destruct (displacement_rows_Ok active target Hk) as (rows & -> & Hf). cbn [bind].
  destruct (displacement_closure_Ok specs rules c Hwf target Ht) as (set & -> & Hel).
  assert (is_nil (sorted_str (List.filter snd rows).*1) = true ↔ ∀ a, a ∈ active → ¬ tc (displaces specs) a target) as Hb.
  { assert (is_nil (sorted_str (List.filter snd rows).*1) = true ↔ List.filter snd rows = []) as ->.
    { pose proof (sorted_by_perm id (List.filter snd rows).*1) as Hp. fold (sorted_str (List.filter snd rows).*1) in Hp.
      split; [destruct (sorted_str _); [|done]; intros _; apply Permutation_nil, fmap_nil_inv in Hp; done | by intros ->]. }
    induction Hf as [|a [a' b] active rows [Ha Hr] Hf IH]; [split; [by intros _ a ?%elem_of_nil | done]|]. cbn in *.
    destruct b.
    - split; [done|]. intros Hall. exfalso. by eapply (Hall a), Hr; [left|].
    - rewrite IH by (intros; apply Hk; by right). setoid_rewrite elem_of_cons. naive_solver. }
  assert (displaced_rows active target (sorted_set (list_to_set active ∩ set))) as Hrem.
  { split_and!; [apply sorted_set_sorted | apply sorted_set_NoDup|]. intros t.
    by rewrite elem_of_sorted_set, elem_of_intersection, elem_of_list_to_set, Hel. }
  split.
  - intros Hi. apply bind_Ok in Hi as (? & Hn%raise_if_Ok%negb_false_iff & [= <-]). split; [exact (proj1 Hb Hn) | done].
  - intros [Hn (Hs & Hnd & He)]. rewrite (proj2 Hb Hn). cbn [negb raise_if bind]. f_equal. destruct Hrem as (Hs' & Hnd' & He').
    apply sorted_strs_ext; try done. intros x. by rewrite He, He'.
Qed.

(** ** The new set of active targets *)

Definition new_active (active : list string) (target : string) (removed : list string) (t : string) : Prop :=
  t = target ∨ (t ∈ active ∧ t ∉ removed).

(** After a transition the targets are admissible exactly when everything they
    require is still active. *)
Lemma new_admissible active target removed keys :
  admissible specs active → target ∈ ts_target_id <$> specs → NoDup keys →
  (∀ t, t ∈ keys ↔ new_active active target removed t) →
  (target ∈ active ∧ removed = []) ∨
    ((∀ a, a ∈ active → ¬ tc (displaces specs) a target) ∧ displaced_rows active target removed) →
  admissible specs keys ↔ ∀ a b, new_active active target removed a → tc (requires specs) a b → new_active active target removed b.
Proof.
  intros (Hnd & Hk & Hd & Hq) Ht Hnk Hkeys Hcase. assert (∀ t, t ∈ removed → t ∈ active) as Hsub.
  { destruct Hcase as [[_ ->]|(_ & _ & _ & He)]; [by intros t ?%elem_of_nil|]. intros t. rewrite He. tauto. }
  unfold admissible. setoid_rewrite Hkeys. split; [tauto|]. intros Hreq. split_and!; [done| |  |done].
  - intros t [->|[Hin _]]; [done | by apply Hk].
  - intros a b Ha Hb Htc. destruct Hcase as [[Hta ->]|(Hblock & _ & _ & He)].
    + apply (Hd a b); [by destruct Ha as [->|[? _]]..| | done]; by destruct Hb as [->|[? _]].
    + destruct Ha as [->|[Ha Hna]], Hb as [->|[Hb Hnb]].
      * by apply (cw_displaces_acyclic _ _ _ Hwf target).
      * apply Hnb, He. done.
      * by apply (Hblock a).
      * by apply (Hd a b).
Qed.
End catalog.

(** ** The transition *)

Lemma lookup_entries_Ok entries ids refs :
  NoDup entries.*1 → (∀ e, e ∈ entries → ref_target_id e.2 = e.1) →
  lookup_entries entries ids = Ok refs ↔ (∀ t, t ∈ ids → t ∈ entries.*1) ∧ refs = omap (assoc entries) ids.
Proof.
  intros Hnd Hk. unfold lookup_entries. rewrite mapM_Ok. split.
  - induction 1 as [|t r ids refs Ht Hf IH]; [by split; [intros ? ?%elem_of_nil|]|].
    destruct (assoc entries t) as [r'|] eqn:E; [|done]. injection Ht as ->. destruct IH as [Hin ->]. split.
    + intros t' [->|]%elem_of_cons; [|by apply Hin]. apply assoc_Some in E. apply list_elem_of_fmap. by exists (t, r).
    + cbn. by rewrite E.
  - intros [Hin ->]. induction ids as [|t ids IH]; [constructor|]. assert (t ∈ entries.*1) as Ht by (apply Hin; left).
    apply list_elem_of_fmap in Ht as ([t' r] & -> & Ht). apply assoc_elem in Ht; [|done]. cbn. rewrite Ht.
    constructor; [cbn; by rewrite Ht|]. apply IH. intros; apply Hin; by right.
Qed.

Lemma displaced_ids_of entries (ids : list string) :
  NoDup entries.*1 → (∀ e, e ∈ entries → ref_target_id e.2 = e.1) → (∀ t, t ∈ ids → t ∈ entries.*1) →
  ref_target_id <$> omap (assoc entries) ids = ids.
Proof.
  intros Hnd Hk. induction ids as [|t ids IH]; intros Hin; [done|]. assert (t ∈ entries.*1) as Ht by (apply Hin; left).
  apply list_elem_of_fmap in Ht as ([t' r] & -> & Ht). pose proof (Hk _ Ht) as Hr. apply assoc_elem in Ht; [|done]. cbn in *. rewrite Ht. cbn.
  rewrite Hr, IH; [done|]. intros; apply Hin; by right.
Qed.

Section transition.
Context `{Sha256} (specs : list TargetSpec) (rules : list CompositionRule) (c : TargetCatalog) (Hwf : catalog_wf specs rules c).

Definition planned_transition (s : EvaluationStackManifest) (r : ContributionRef) (removed : list string) : TargetTransition :=
  {| tt_target_id := ref_target_id r; tt_target_spec_digest := ref_target_spec_digest r; tt_replacement := r;
     tt_prior := assoc (es_entries s) (ref_target_id r); tt_displaced := omap (assoc (es_entries s)) removed |}.

(** The catalog, the stack and the context are about the same frozen catalog. *)
Definition catalog_frozen (s : EvaluationStackManifest) (ctx : EvaluationStackContext) : Prop :=
  tc_digest c = es_catalog_digest s ∧ tc_digest c = ec_catalog_digest ctx ∧
  py_eq (tc_snapshot c) (es_catalog_snapshot s) = true ∧ py_eq (tc_snapshot c) (json_value (ec_catalog_json ctx)) = true.

(** What is removed: nothing when the target is already active, otherwise the
    active targets it displaces. *)
Definition removed_by (s : EvaluationStackManifest) (r : ContributionRef) (removed : list string) : Prop :=
  match assoc (es_entries s) (ref_target_id r) with
  | Some _ => removed = []
  | None => displaced_rows specs (es_entries s).*1 (ref_target_id r) removed
  end.

(** When a transition of [s] by [r] that removes [removed] may be planned. *)
Record transition_allowed (s : EvaluationStackManifest) (r : ContributionRef) (ctx : EvaluationStackContext)
    (removed : list string) : Prop := {
  ta_context : validate_against s ctx = Ok tt;
  ta_catalog : catalog_frozen s ctx;
  ta_registered : ref_target_id r ∈ ts_target_id <$> specs;
  ta_spec : target_spec_digest c (ref_target_id r) = Ok (ref_target_spec_digest r);
  ta_expected : assoc (ec_target_specs ctx) (ref_target_id r) = Some (ref_target_spec_digest r);
  ta_active : admissible specs (es_entries s).*1;
  ta_removed : removed_by s r removed;
  ta_delta : ∀ p, assoc (es_entries s) (ref_target_id r) = Some p → ref_selected_delta_digest p ≠ ref_selected_delta_digest r;
  ta_blockers : assoc (es_entries s) (ref_target_id r) = None →
    ∀ a, a ∈ (es_entries s).*1 → ¬ tc (displaces specs) a (ref_target_id r);
  ta_requires : ∀ a b, new_active (es_entries s).*1 (ref_target_id r) removed a → tc (requires specs) a b →
    new_active (es_entries s).*1 (ref_target_id r) removed b;
  ta_changes : EvaluationStackManifest_digest (set_entries s (updated_rows s r removed)) ≠ EvaluationStackManifest_digest s
}.

Lemma transition_init_Ok s r removed tr :
  stack_wf s → ref_wf r → removed_by s r removed →
  TargetTransition_init (PStr (ref_target_id r)) (PStr (ref_target_spec_digest r)) r (assoc (es_entries s) (ref_target_id r))
    (omap (assoc (es_entries s)) removed) = Ok tr ↔
  tr = planned_transition s r removed ∧
  (∀ p, assoc (es_entries s) (ref_target_id r) = Some p → ref_selected_delta_digest p ≠ ref_selected_delta_digest r).
Proof.
  intros Hs Hr Hrem. pose proof (sf_entries _ Hs) as He. rewrite Forall_forall in He.
  assert (∀ e, e ∈ es_entries s → ref_target_id e.2 = e.1) as Hk by (intros e Hin; by apply He in Hin as (_ & ? & _)).
  assert (ref_target_id <$> omap (assoc (es_entries s)) removed = removed) as Hids.
  { apply displaced_ids_of; [apply Hs | done|]. unfold removed_by in Hrem. destruct (assoc _ (ref_target_id r)); [by subst; intros ? ?%elem_of_nil|].
    destruct Hrem as (_ & _ & Hel). intros t. rewrite Hel. tauto. }
  assert (sorted_str removed = removed ∧ NoDup removed ∧ ref_target_id r ∉ removed) as (Hsort & Hnd & Hnin).
  { unfold removed_by in Hrem. destruct (assoc _ (ref_target_id r)) eqn:Ea; [subst; split_and!; [done | constructor | apply not_elem_of_nil]|].
    destruct Hrem as (Hso & Hnd & Hel). split_and!; [by apply sorted_by_stable | done|]. rewrite Hel. apply assoc_None in Ea. tauto. }
  assert (ref_target_id r ≠ "" ∧ digest_ok (ref_target_spec_digest r)) as [Hne Hd].
  { split; [apply (ref_target_ok _ Hr) | destruct r; apply Hr]. }
  unfold TargetTransition_init. rewrite (bool_decide_eq_false_2 _ Hne). cbn [bind].
  rewrite (proj2 (sp_digest_Ok _ _)) by done. cbn [bind]. rewrite !bool_decide_eq_true_2 by done. cbn [negb raise_if bind].
  rewrite Hids, Hsort, (bool_decide_eq_true_2 (removed = removed)), (bool_decide_eq_true_2 _ Hnd), (bool_decide_eq_false_2 _ Hnin) by done.
  cbn [negb raise_if bind]. unfold planned_transition. unfold removed_by in Hrem.
  destruct (assoc (es_entries s) (ref_target_id r)) as [p|] eqn:Ea; cbn [bind].
  - subst removed. pose proof (Hk _ (assoc_Some _ _ _ Ea)) as Hp. cbn in Hp. rewrite (bool_decide_eq_true_2 _ Hp). cbn [negb raise_if bind omap list_omap is_nil].
    case_bool_decide as Hdelta; cbn; [|naive_solver]. split; [done|]. intros [_ Hf]. by destruct (Hf p).
  - naive_solver.
Qed.

(** The candidate that removes [removed]. *)
Abbreviation candidate s r removed := (set_entries s (updated_rows s r removed)).

Lemma removed_active s r removed :
  removed_by s r removed → NoDup removed ∧ (∀ t, t ∈ removed → t ∈ (es_entries s).*1) ∧ (ref_target_id r ∉ removed).
Proof.
  unfold removed_by. destruct (assoc _ _) eqn:Ea.
  - intros ->. split_and!; [constructor | by intros ? ?%elem_of_nil | apply not_elem_of_nil].
  - intros (_ & Hnd & Hel). split_and!; [done | intros t; rewrite Hel; tauto|]. rewrite Hel. apply assoc_None in Ea. tauto.
Qed.

Lemma candidate_keys s r removed t :
  stack_wf s → ref_wf r → removed_by s r removed →
  t ∈ (updated_rows s r removed).*1 ↔ new_active (es_entries s).*1 (ref_target_id r) removed t.
Proof.
  intros Hs Hr (Hnd & Hsub & Hnin)%removed_active. destruct (with_contribution_Ok s r removed Hs Hr Hnd Hsub) as (_ & _ & Ha).
  specialize (Ha t). unfold new_active. assert (∀ (l : list (string * ContributionRef)), t ∈ l.*1 ↔ assoc l t ≠ None) as Hk.
  { intros l. pose proof (assoc_None l t) as Hn. destruct (decide (t ∈ l.*1)); tauto. }
  rewrite !Hk, Ha. destruct (decide (t = ref_target_id r)); [naive_solver|]. destruct (decide (t ∈ removed)); naive_solver.
Qed.

Lemma candidate_checked s r ctx removed cand :
  stack_wf s → ref_wf r → validate_against s ctx = Ok tt → ref_target_id r ∈ ts_target_id <$> specs →
  admissible specs (es_entries s).*1 → removed_by s r removed →
  (assoc (es_entries s) (ref_target_id r) = None → ∀ a, a ∈ (es_entries s).*1 → ¬ tc (displaces specs) a (ref_target_id r)) →
  (let! candidate := with_contribution s r (PStr <$> removed) in
   do! validate_active_targets c (es_entries candidate).*1 ;;
   do! validate_against candidate ctx ;;
   Ok candidate) = Ok cand ↔
  cand = candidate s r removed ∧ assoc (ec_target_specs ctx) (ref_target_id r) = Some (ref_target_spec_digest r) ∧
  (∀ a b, new_active (es_entries s).*1 (ref_target_id r) removed a → tc (requires specs) a b →
     new_active (es_entries s).*1 (ref_target_id r) removed b).
Proof.
  intros Hs Hr Hv Hreg Hadm Hrem Hblock. pose proof (removed_active _ _ _ Hrem) as (Hnd & Hsub & Hnin).
  destruct (with_contribution_Ok s r removed Hs Hr Hnd Hsub) as (Hw & Hcwf & Ha). rewrite Hw. cbn [bind].
  assert (validate_against (candidate s r removed) ctx = Ok tt ↔ assoc (ec_target_specs ctx) (ref_target_id r) = Some (ref_target_spec_digest r)) as Hva.
  { apply validate_against_Ok in Hv as [Hh Hf]. rewrite validate_against_Ok. cbn [es_entries set_entries]. rewrite Forall_forall in Hf |- *. split.
    - intros [_ Hall]. apply (Hall (ref_target_id r, r)). apply assoc_Some. rewrite Ha. by rewrite decide_True.
    - intros He. split; [done|]. intros [t x] Hin. apply assoc_elem in Hin; [|apply Hcwf]. rewrite Ha in Hin.
      destruct (decide (t = ref_target_id r)) as [->|]; [by injection Hin as <-|]. destruct (decide (t ∈ removed)); [done|].
      by apply Hf, assoc_Some. }
  pose proof (new_admissible specs rules c Hwf (es_entries s).*1 (ref_target_id r) removed (updated_rows s r removed).*1) as Hnew.
  assert (admissible specs (updated_rows s r removed).*1 ↔ ∀ a b, new_active (es_entries s).*1 (ref_target_id r) removed a →
    tc (requires specs) a b → new_active (es_entries s).*1 (ref_target_id r) removed b) as Hn.
  { apply Hnew; [done..|apply (sf_nodup _ Hcwf)|intros t; by apply candidate_keys|]. unfold removed_by in Hrem.
    destruct (assoc _ _) as [p|] eqn:Ea; [left | right; split; [by apply Hblock | done]].
    split; [|done]. apply list_elem_of_fmap. exists (ref_target_id r, p). by split; [|apply assoc_Some]. }
  split.
  - intros Hc. apply bind_Ok in Hc as (keys & Hkeys & Hc). apply (validate_active_Ok specs rules c Hwf) in Hkeys as [_ Hkeys].
    apply bind_Ok in Hc as ([] & Hc & [= <-]). apply Hva in Hc. split_and!; [done..|exact (proj1 Hn Hkeys)].
  - intros (-> & He & Hq). eapply bind_step; [apply (validate_active_Ok specs rules c Hwf); split; [done|]; exact (proj2 Hn Hq)|].
    eapply bind_step; [by apply Hva|]. done.
Qed.

(** The checks after the candidate is built never fire. *)
Lemma defensive_checks_pass s r removed :
  stack_wf s → ref_wf r → removed_by s r removed →
  list_to_set (updated_rows s r removed).*1 = expected_targets (es_entries s) removed (ref_target_id r) ∧
  Forall (λ e, unrelated_unchanged (updated_rows s r removed) removed (ref_target_id r) e = Ok tt) (es_entries s).
Proof.
  intros Hs Hr Hrem. pose proof (removed_active _ _ _ Hrem) as (Hnd & Hsub & Hnin). split.
  - apply set_eq. intros t. unfold expected_targets. rewrite elem_of_list_to_set, candidate_keys by done. unfold new_active.
    rewrite elem_of_union, elem_of_difference, elem_of_singleton, !elem_of_list_to_set. tauto.
  - apply Forall_forall. intros [t x] Hin. destruct (with_contribution_Ok s r removed Hs Hr Hnd Hsub) as (_ & _ & Ha).
    apply assoc_elem in Hin; [|apply Hs]. unfold unrelated_unchanged. cbn [fst snd]. apply raise_if_Ok. rewrite Ha, Hin.
    destruct (decide (t = ref_target_id r)) as [->|Hn]; [rewrite (bool_decide_eq_true_2 (ref_target_id r = ref_target_id r)) by done; by rewrite andb_false_r|].
    destruct (decide (t ∈ removed)) as [Hi|Hi]; [by rewrite (bool_decide_eq_true_2 (t ∈ removed))|].
    by rewrite (bool_decide_eq_true_2 (Some x = Some x)), andb_false_r.
Qed.

(** The first part of the planner: the catalog's view of the incumbent. *)
Lemma registered_Ok target active d :
  reraise (λ k, bool_decide (k = TargetResolutionError)) (λ _, SP.error "invalid registered transition")
    (do! require c target ;;
     let! expected_spec := target_spec_digest c target in
     do! validate_active_targets c active ;;
     Ok expected_spec) = Ok d ↔
  target ∈ ts_target_id <$> specs ∧ target_spec_digest c target = Ok d ∧ admissible specs active.
Proof.
  rewrite reraise_Ok. split.
  - intros Hi. apply bind_Ok in Hi as (spec & Hq & Hi). apply bind_Ok in Hi as (d' & Hd & Hi).
    apply bind_Ok in Hi as (keys & Hk & [= <-]). apply (validate_active_Ok specs rules c Hwf) in Hk as [_ Hk].
    split_and!; [|done..]. apply (require_known specs rules c Hwf). by exists spec.
  - intros (Ht & Hd & Hk). apply (require_known specs rules c Hwf) in Ht as [spec Hq]. rewrite Hq, Hd. cbn [bind].
    eapply bind_step; [by apply (validate_active_Ok specs rules c Hwf)|]. done.
Qed.

Lemma removed_Ok s target removed :
  stack_wf s → admissible specs (es_entries s).*1 → target ∈ ts_target_id <$> specs →
  match assoc (es_entries s) target with
  | Some _ => Ok []
  | None => displaced_targets c (es_entries s).*1 target
  end = Ok removed ↔
  match assoc (es_entries s) target with
  | Some _ => removed = []
  | None => displaced_rows specs (es_entries s).*1 target removed
  end ∧ (assoc (es_entries s) target = None → ∀ a, a ∈ (es_entries s).*1 → ¬ tc (displaces specs) a target).
Proof.
  intros Hs Hadm Ht. destruct (assoc (es_entries s) target) as [p|] eqn:Ea; [split; [by intros [= <-] | by intros [-> _]]|].
  rewrite (displaced_targets_Ok specs rules c Hwf) by (try done; apply Hadm). naive_solver.
Qed.

Lemma lookup_removed s r removed refs :
  stack_wf s → removed_by s r removed →
  lookup_entries (es_entries s) removed = Ok refs ↔ refs = omap (assoc (es_entries s)) removed.
Proof.
  intros Hs (_ & Hsub & _)%removed_active. rewrite lookup_entries_Ok; [tauto | apply Hs|].
  intros e He. pose proof (sf_entries _ Hs) as Hf. rewrite Forall_forall in Hf. by apply Hf in He as (_ & ? & _).
Qed.

Lemma catalog_frozen_Ok s ctx u :
  raise_if (negb (bool_decide (tc_digest c = es_catalog_digest s)) || negb (bool_decide (tc_digest c = ec_catalog_digest ctx))
            || negb (py_eq (tc_snapshot c) (es_catalog_snapshot s)) || negb (py_eq (tc_snapshot c) (json_value (ec_catalog_json ctx))))
    (SP.error "planning catalog does not match the frozen stack context") = Ok u ↔ catalog_frozen s ctx.
Proof.
  rewrite raise_if_Ok, !orb_false_iff, !negb_false_iff, !bool_decide_eq_true. unfold catalog_frozen. tauto.
Qed.

Lemma candidate_transition_Ok s r ctx cand tr :
  stack_wf s → ref_wf r →
  _candidate_transition s r c ctx = Ok (cand, tr) ↔
  ∃ removed, transition_allowed s r ctx removed ∧ cand = candidate s r removed ∧ tr = planned_transition s r removed.
Proof.
  intros Hs Hr. unfold _candidate_transition. split.
  - intros Hi. apply bind_Ok in Hi as ([] & Hctx & Hi). apply bind_Ok in Hi as (u1 & Hfr%catalog_frozen_Ok & Hi). cbn [ref_target_id] in Hi.
    apply bind_Ok in Hi as (d & (Hreg & Hd & Hadm)%registered_Ok & Hi). apply bind_Ok in Hi as (u2 & Heq%raise_if_Ok & Hi). bool_prop. subst d.
    apply bind_Ok in Hi as (removed & Hrem & Hi). apply removed_Ok in Hrem as [Hrem Hblock]; [|done..]. change (removed_by s r removed) in Hrem.
    apply bind_Ok in Hi as (refs & Hrefs & Hi). apply (lookup_removed s r) in Hrefs as ->; [|done..].
    apply bind_Ok in Hi as (tr' & Htr & Hi). apply transition_init_Ok in Htr as [-> Hdelta]; [|done..].
    apply bind_Ok in Hi as (cand' & Hc%reraise_Ok & Hi). apply candidate_checked in Hc as (-> & Hexp & Hreq); [|done..].
    apply bind_Ok in Hi as (u3 & _ & Hi). apply bind_Ok in Hi as (u4 & _ & Hi). apply bind_Ok in Hi as (u5 & Hch%raise_if_Ok & [= <- <-]).
    bool_prop. exists removed. split; [by constructor | done].
  - intros (removed & [] & -> & ->). rewrite ta_context0. cbn [bind]. rewrite (proj2 (catalog_frozen_Ok s ctx tt)) by done. cbn [bind].
    eapply bind_step; [by apply registered_Ok|]. rewrite bool_decide_eq_true_2 by done. cbn [negb raise_if bind].
    eapply bind_step; [by apply removed_Ok|]. eapply bind_step; [by apply (lookup_removed s r)|].
    eapply bind_step; [by apply transition_init_Ok|].
    eapply bind_step; [apply reraise_Ok; by apply candidate_checked|].
    destruct (defensive_checks_pass s r removed) as [He Hf]; [done..|]. cbn [es_entries set_entries].
    rewrite (bool_decide_eq_true_2 _ He). cbn [negb raise_if bind]. eapply (bind_step _ _ tt); [by apply forM_Ok|].
    rewrite bool_decide_eq_false_2 by done. done.
Qed.
End transition.

(** ** Comparing dictionary forms *)

Lemma py_eq_refl v : is_canonical v = true → py_eq v v = true.
Proof.
  assert (∀ l, Forall (λ v, is_canonical v = true → py_eq v v = true) l → forallb is_canonical l = true →
    (fix all2 l l' := match l, l' with
                      | [], [] => true
                      | x :: l, y :: l' => py_eq x y && all2 l l'
                      | _, _ => false
                      end) l l = true) as Hlist.
  { induction 1 as [|x l Hx Hl IH]; [done|]. cbn [forallb]. intros [H1 H2]%andb_true_iff. by rewrite Hx, IH. }
  induction v as [|b|z|f|s|l IH|l IH|kvs IH|t] using pyval_ind; try done.
  - intros _. cbn. apply Z.eqb_refl.
  - intros _. cbn. apply Z.eqb_refl.
  - intros _. cbn. by apply bool_decide_eq_true_2.
  - by apply Hlist.
  - by apply Hlist.
  - cbn [is_canonical py_eq]. intros Hc. rewrite Nat.eqb_refl. cbn [andb]. apply forallb_forall. intros [k x] Hin.
    apply existsb_exists. exists (k, x). split; [done|]. rewrite forallb_forall in Hc. apply Hc in Hin as Hkx.
    apply andb_true_iff in Hkx as [Hk Hx]. apply list_elem_of_In in Hin. rewrite Forall_forall in IH. pose proof (IH _ Hin Hx) as Hxx. cbn in Hxx.
    rewrite Hxx. destruct k; try done. cbn. by rewrite bool_decide_eq_true_2.
Qed.

Lemma ref_to_dict_canonical r : is_canonical (ref_to_dict r) = true.
Proof. by destruct r. Qed.

Lemma transition_canonical t : is_canonical (TargetTransition_to_dict t) = true.
Proof.
  destruct t as [i d r p l]. unfold TargetTransition_to_dict, py_dict. cbn [fmap list_fmap is_canonical forallb is_str fst snd tt_target_id tt_target_spec_digest tt_replacement tt_prior tt_displaced].
  rewrite ref_to_dict_canonical. assert (is_canonical (match p with None => PNone | Some r => ref_to_dict r end) = true) as -> by (destruct p; [apply ref_to_dict_canonical | done]).
  cbn. rewrite andb_true_r. induction l as [|x l IH]; [done|]. cbn. by rewrite ref_to_dict_canonical.
Qed.

Lemma strs_canonical l : is_canonical (py_strs l) = true.
Proof. cbn. induction l; [done|]. cbn. done. Qed.

Section dicts.
Context `{Sha256}.

Lemma arm_dict_canonical a : is_canonical (MarginalArmPlan_to_dict a) = true.
Proof.
  unfold MarginalArmPlan_to_dict, py_dict. cbn [fmap list_fmap is_canonical forallb is_str fst snd].
  by rewrite transition_canonical.
Qed.

Lemma cohort_dict_canonical p : is_canonical (CohortPlan_to_dict p) = true.
Proof.
  unfold CohortPlan_to_dict, py_dict. cbn [fmap list_fmap is_canonical forallb is_str fst snd].
  fold (is_canonical (py_strs (MarginalArmPlan_digest <$> cp_arms p))). by rewrite !strs_canonical.
Qed.
End dicts.

(** ** Arms *)

Section arms.
Context `{Sha256} (specs : list TargetSpec) (rules : list CompositionRule) (c : TargetCatalog) (Hwf : catalog_wf specs rules c).
Abbreviation candidate s r removed := (set_entries s (updated_rows s r removed)).

(** The arm of one planned transition. *)
Definition planned_arm (s : EvaluationStackManifest) (r : ContributionRef) (removed : list string) (incumbent_tree candidate_tree : string)
    : MarginalArmPlan :=
  let before := {| ai_stack_digest := EvaluationStackManifest_digest s; ai_tree_digest := incumbent_tree |} in
  {| ma_incumbent := s; ma_candidate := candidate s r removed; ma_transition := planned_transition s r removed;
     ma_baseline_before := before;
     ma_challenger := {| ai_stack_digest := EvaluationStackManifest_digest (candidate s r removed); ai_tree_digest := candidate_tree |};
     ma_baseline_after := before; ma_schema_version := _PLAN_SCHEMA_VERSION; ma_policy_version := _PLAN_POLICY_VERSION |}.

(** Two different trees and digests the identities accept. *)
Definition arm_digests_ok (s cand : EvaluationStackManifest) (incumbent_tree candidate_tree : string) : Prop :=
  digest_ok incumbent_tree ∧ digest_ok candidate_tree ∧ incumbent_tree ≠ candidate_tree ∧
  digest_ok (EvaluationStackManifest_digest s) ∧ digest_ok (EvaluationStackManifest_digest cand).

Lemma arm_init_Ok s r ctx removed it ct :
  stack_wf s → ref_wf r → transition_allowed specs c s r ctx removed → it ≠ ct →
  MarginalArmPlan_init s (candidate s r removed) (planned_transition s r removed)
    {| ai_stack_digest := EvaluationStackManifest_digest s; ai_tree_digest := it |}
    {| ai_stack_digest := EvaluationStackManifest_digest (candidate s r removed); ai_tree_digest := ct |}
    {| ai_stack_digest := EvaluationStackManifest_digest s; ai_tree_digest := it |}
    (PInt _PLAN_SCHEMA_VERSION) (PStr _PLAN_POLICY_VERSION) = Ok (planned_arm s r removed it ct).
Proof.
  intros Hs Hr Hta Hne. pose proof (ta_removed _ _ _ _ _ _ Hta) as Hrem. pose proof (removed_active _ _ _ _ Hrem) as (Hnd & Hsub & Hnin).
  destruct (with_contribution_Ok s r removed Hs Hr Hnd Hsub) as (_ & Hcwf & Ha).
  destruct (defensive_checks_pass specs s r removed) as [He Hf]; [done..|].
  assert (∀ e, e ∈ es_entries s → ref_target_id e.2 = e.1) as Hk.
  { intros e Hin. pose proof (sf_entries _ Hs) as Hfe. rewrite Forall_forall in Hfe. by apply Hfe in Hin as (_ & ? & _). }
  assert (ref_target_id <$> omap (assoc (es_entries s)) removed = removed) as Hids by (apply displaced_ids_of; [apply Hs | done..]).
  unfold MarginalArmPlan_init. eapply bind_step; [by apply schema_one_Ok|]. eapply bind_step; [by apply policy_one_Ok|].
  cbn [ai_stack_digest ai_tree_digest tt_target_id tt_prior tt_replacement tt_displaced planned_transition es_entries set_entries].
  rewrite !bool_decide_eq_true_2 by done. cbn [negb raise_if bind]. rewrite (bool_decide_eq_false_2 (ct = it)) by congruence. cbn [raise_if bind].
  rewrite Ha, decide_True, (bool_decide_eq_true_2 (Some r = Some r)),
    (bool_decide_eq_true_2 (assoc _ _ = assoc _ _)) by done. cbn [negb raise_if bind]. rewrite Hids.
  eapply (bind_step _ _ tt).
  { apply raise_if_Ok. apply not_true_iff_false. intros (x & Hx%list_elem_of_In & Hbad)%existsb_exists.
    apply list_elem_of_omap in Hx as (t & Ht & Hlk). bool_prop. apply Hbad. pose proof (assoc_Some _ _ _ Hlk) as Hin. apply Hk in Hin.
    cbn in Hin. by rewrite Hin. }
  rewrite (bool_decide_eq_true_2 _ He). cbn [negb raise_if bind]. eapply (bind_step _ _ tt); [by apply forM_Ok|]. done.
Qed.

Lemma plan_arm_Ok s r ctx vi vc arm :
  stack_wf s → ref_wf r →
  plan_marginal_arm s r c vi vc ctx = Ok arm ↔
  ∃ removed it ct, vi = PStr it ∧ vc = PStr ct ∧ transition_allowed specs c s r ctx removed ∧
    arm_digests_ok s (candidate s r removed) it ct ∧ arm = planned_arm s r removed it ct.
Proof.
  intros Hs Hr. unfold plan_marginal_arm. split.
  - intros Hi. apply bind_Ok in Hi as ([cand tr] & Hc & Hi). apply (candidate_transition_Ok specs rules c Hwf) in Hc as (removed & Hta & -> & ->); [|done..].
    cbn [fst snd] in Hi. apply bind_Ok in Hi as (it & [-> Hit]%sp_digest_Ok & Hi). apply bind_Ok in Hi as (ct & [-> Hct]%sp_digest_Ok & Hi).
    apply bind_Ok in Hi as (b1 & (-> & Hds & _)%arm_identity_Ok & Hi). apply bind_Ok in Hi as (b2 & (-> & Hdc & _)%arm_identity_Ok & Hi).
    apply bind_Ok in Hi as (b3 & (-> & _ & _)%arm_identity_Ok & Hi). destruct (decide (it = ct)) as [->|Hne].
    + exfalso. unfold MarginalArmPlan_init in Hi. do 5 apply bind_Ok in Hi as (? & _ & Hi).
      apply bind_Ok in Hi as (? & Hb%raise_if_Ok & Hi). by bool_prop.
    + rewrite (arm_init_Ok _ _ ctx) in Hi by done. injection Hi as <-. by exists removed, it, ct.
  - intros (removed & it & ct & -> & -> & Hta & (? & ? & ? & ? & ?) & ->).
    eapply bind_step; [by apply (candidate_transition_Ok specs rules c Hwf); [..|eexists]|]. cbn [fst snd].
    eapply bind_step; [by apply sp_digest_Ok|]. eapply bind_step; [by apply sp_digest_Ok|].
    do 3 (eapply bind_step; [by apply arm_identity_Ok|]). by apply (arm_init_Ok _ _ ctx).
Qed.

(** A planned arm reopens under the catalog and context it was planned with. *)
Lemma planned_reopens s r ctx vi vc arm :
  stack_wf s → ref_wf r → plan_marginal_arm s r c vi vc ctx = Ok arm → arm_reopen arm c ctx = Ok arm.
Proof.
  intros Hs Hr Hp. pose proof Hp as (removed & it & ct & -> & -> & Hta & Hd & Harm)%plan_arm_Ok; [|done..].
  unfold arm_reopen. rewrite Harm at 1 2 3 4. cbn [planned_arm ma_incumbent ma_transition tt_replacement planned_transition ma_baseline_before ma_challenger ai_tree_digest].
  rewrite Hp. cbn [bind]. by rewrite py_eq_refl by apply arm_dict_canonical.
Qed.
End arms.

(** ** Cohorts *)

#[global] Instance lex_le_total : Total lex_le.
Proof.
  intros [a b] [a' b']. unfold lex_le. cbn. destruct (total String.le a a'), (total String.le b b');
    destruct (decide (a = a')) as [->|Hn]; naive_solver.
Qed.

#[global] Instance lex_le_trans : Transitive lex_le.
Proof.
  intros [a b] [a' b'] [a'' b'']. unfold lex_le. cbn. intros [H1 H2] [H3 H4]. split; [by etrans|]. intros ->.
  assert (a' = a'') as -> by (by apply (anti_symm String.le)). etrans; [by apply H2 | by apply H4].
Qed.

Section cohorts.
Context `{Sha256}.

#[global] Instance arm_le_total e : Total (arm_le e).
Proof. intros a b. apply (total lex_le). Qed.
#[global] Instance arm_le_trans e : Transitive (arm_le e).
Proof. intros a b d. apply (transitivity (R := lex_le)). Qed.

(** What the constructor checks of the arms and of the authority order. *)
Record cohort_ok (arms : list MarginalArmPlan) (authority : list ContributionRef) (b : StackArmIdentity) : Prop := {
  co_arms : arms ≠ [];
  co_deltas : NoDup (ma_selected_delta_digest <$> arms);
  co_incumbent : ∀ a, a ∈ arms → ma_baseline_before a = b;
  co_stacks : NoDup ((λ a, ai_stack_digest (ma_challenger a)) <$> arms);
  co_trees : NoDup ((λ a, ai_tree_digest (ma_challenger a)) <$> arms);
  co_refs : NoDup (ref_digest <$> authority);
  co_authority : ref_digest <$> authority ≡ₚ contribution_digest <$> arms
}.

#[global] Instance cohort_ok_perm : Proper ((≡ₚ) ==> (=) ==> (=) ==> (impl)) cohort_ok.
Proof.
  intros arms arms' Hp authority _ <- b _ <- []. constructor.
  - intros ->. by apply Permutation_nil_r in Hp.
  - by rewrite <- Hp.
  - intros a. rewrite <- Hp. apply co_incumbent0.
  - by rewrite <- Hp.
  - by rewrite <- Hp.
  - done.
  - by rewrite <- Hp.
Qed.

Lemma same_members_perm l k : NoDup k → same_members l k = true ↔ l ≡ₚ k.
Proof.
  intros Hk. unfold same_members. rewrite andb_true_iff, bool_decide_eq_true, Nat.eqb_eq. split.
  - intros [? ?]. by apply same_elements_perm.
  - intros Hp. split; [|by apply Permutation_length]. apply set_eq. intros x. by rewrite !elem_of_list_to_set, Hp.
Qed.

Lemma same_members_sym l k : same_members l k = same_members k l.
Proof.
  unfold same_members. rewrite (Nat.eqb_sym (length l)). f_equal. apply bool_decide_ext. by split.
Qed.

(** The plan the cohort of [arms] is sealed into. *)
Definition sealed (arms : list MarginalArmPlan) (entropy : string) (authority : list ContributionRef) (b : StackArmIdentity) : CohortPlan :=
  let canonical := sorted_by ma_selected_delta_digest arms in
  {| cp_incumbent := b; cp_arms := canonical; cp_entropy_digest := entropy; cp_authority_order := authority;
     cp_execution_order := _execution_order canonical entropy; cp_schema_version := _PLAN_SCHEMA_VERSION |}.

Lemma execution_order_perm arms e : _execution_order arms e ≡ₚ ma_selected_delta_digest <$> arms.
Proof. unfold _execution_order. by rewrite stable_sort_perm. Qed.

Lemma cohort_init_Ok b arms e authority p :
  StronglySorted (key_le ma_selected_delta_digest) arms →
  CohortPlan_init b arms (PStr e) authority (_execution_order arms e) (PInt _PLAN_SCHEMA_VERSION) = Ok p ↔
  digest_ok e ∧ cohort_ok arms authority b ∧
  p = {| cp_incumbent := b; cp_arms := arms; cp_entropy_digest := e; cp_authority_order := authority;
         cp_execution_order := _execution_order arms e; cp_schema_version := _PLAN_SCHEMA_VERSION |}.
Proof.
  intros Hsort. assert (sorted_str (ma_selected_delta_digest <$> arms) = ma_selected_delta_digest <$> arms) as Hso.
  { apply sorted_by_stable. by apply (StronglySorted_key_fmap ma_selected_delta_digest). }
  unfold CohortPlan_init. split.
  - intros Hi. apply bind_Ok in Hi as (z & [[= <-] _]%schema_one_Ok & Hi). apply bind_Ok in Hi as (e' & [[= <-] He]%sp_digest_Ok & Hi).
    do 9 (let Hc := fresh "Hc" in apply bind_Ok in Hi as (? & Hc%raise_if_Ok & Hi)). bool_prop.
    apply bind_Ok in Hi as (? & _ & [= <-]). split; [done|]. split; [|done].
    constructor; try done.
    + by destruct arms.
    + intros a Ha. apply not_true_iff_false in Hc2. destruct (decide (ma_baseline_before a = b)) as [|Hn]; [done|]. exfalso.
      apply Hc2, existsb_exists. exists a. split; [by apply list_elem_of_In|]. by rewrite bool_decide_eq_false_2.
    + rewrite same_members_sym in Hc6. symmetry. by apply same_members_perm in Hc6.
  - intros (He & [] & ->). eapply bind_step; [by apply schema_one_Ok|]. eapply bind_step; [by apply sp_digest_Ok|].
    assert (is_nil arms = false) as -> by by destruct arms. cbn [raise_if bind]. rewrite Hso.
    assert (existsb (λ arm, negb (bool_decide (ma_baseline_before arm = b))) arms = false) as ->.
    { apply not_true_iff_false. intros (a & Ha%list_elem_of_In & Hb)%existsb_exists. bool_prop. by apply Hb, co_incumbent0. }
    rewrite (bool_decide_eq_true_2 (ma_selected_delta_digest <$> arms = _)), (bool_decide_eq_true_2 _ co_deltas0), (bool_decide_eq_true_2 _ co_stacks0),
      (bool_decide_eq_true_2 _ co_trees0), (bool_decide_eq_true_2 _ co_refs0) by done. cbn [negb raise_if bind].
    rewrite same_members_sym, (proj2 (same_members_perm _ _ co_refs0)) by done. cbn [negb raise_if bind].
    rewrite (proj2 (same_members_perm _ _ co_deltas0)) by apply execution_order_perm. cbn [negb raise_if bind].
    by rewrite bool_decide_eq_true_2.
Qed.

Lemma seal_Ok arms v authority c ctx p :
  seal arms v authority c ctx = Ok p ↔
  ∃ e b, v = PStr e ∧ digest_ok e ∧ Forall (λ a, arm_reopen a c ctx = Ok a) arms ∧ cohort_ok arms authority b ∧
    digest_ok (ai_stack_digest b) ∧ digest_ok (ai_tree_digest b) ∧ p = sealed arms e authority b.
Proof.
  assert (∀ a, (do! arm_reopen a c ctx ;; Ok tt) = Ok tt ↔ arm_reopen a c ctx = Ok a) as Hreopen.
  { intros a. split; [|by intros ->]. intros (a' & Ha & _)%bind_Ok. rewrite Ha. f_equal.
    apply bind_Ok in Ha as (? & _ & Ha). by apply bind_Ok in Ha as (? & _ & [= ->]). }
  assert (sorted_by ma_selected_delta_digest arms ≡ₚ arms) as Hp by apply sorted_by_perm.
  assert (∀ b : StackArmIdentity, {| ai_stack_digest := ai_stack_digest b; ai_tree_digest := ai_tree_digest b |} = b) as Heta by by intros [].
  unfold seal, sealed. split.
  - intros Hi. apply bind_Ok in Hi as (? & _ & Hi). apply bind_Ok in Hi as (? & Hf%forM_Ok & Hi).
    apply bind_Ok in Hi as (e & [-> He]%sp_digest_Ok & Hi). pose proof (sorted_by_sorted ma_selected_delta_digest arms) as Hsort.
    destruct (sorted_by ma_selected_delta_digest arms) as [|a l] eqn:El; [done|].
    apply bind_Ok in Hi as (b & (-> & Hb1 & Hb2)%arm_identity_Ok & Hi). rewrite Heta in Hi.
    apply cohort_init_Ok in Hi as (_ & Hok & ->); [|done]. rewrite Hp in Hok.
    exists e, (ma_baseline_before a). split_and!; try done. eapply Forall_impl; [exact Hf|]. intros y. apply Hreopen.
  - intros (e & b & -> & He & Hf & Hok & Hb1 & Hb2 & ->). assert (is_nil arms = false) as -> by (by destruct arms; [destruct Hok|]).
    cbn [raise_if bind]. eapply (bind_step _ _ tt); [apply forM_Ok; eapply Forall_impl; [exact Hf|]; intros x; apply Hreopen|].
    eapply bind_step; [by apply sp_digest_Ok|]. rewrite <- Hp in Hok. pose proof (sorted_by_sorted ma_selected_delta_digest arms) as Hsort.
    destruct (sorted_by ma_selected_delta_digest arms) as [|a l] eqn:El; [by destruct Hok|].
    rewrite (co_incumbent _ _ _ Hok a) by left. eapply bind_step; [by apply arm_identity_Ok|]. rewrite Heta.
    by apply cohort_init_Ok.
Qed.

Lemma arms_by_Ok key arms a : NoDup (key <$> arms) → a ∈ arms → arms_by key arms (key a) = Ok a.
Proof.
  intros Hnd Ha. unfold arms_by. erewrite assoc_elem; [done| |].
  - by rewrite reverse_Permutation, <- list_fmap_compose.
  - apply elem_of_reverse, list_elem_of_fmap. by exists a.
Qed.

Lemma arms_by_all key arms l : NoDup (key <$> arms) → (∀ a, a ∈ l → a ∈ arms) → mapM (arms_by key arms) (key <$> l) = Ok l.
Proof.
  intros Hnd Hl. apply mapM_Ok. rewrite Forall2_fmap_l. apply Forall_Forall2_diag, Forall_forall. intros a Ha. by apply arms_by_Ok, Hl.
Qed.

(** Rows found by distinct keys, in the order of the keys. *)
Lemma arms_in_order (key : MarginalArmPlan → string) arms keys :
  keys ≡ₚ key <$> arms → ∃ l, l ≡ₚ arms ∧ keys = key <$> l.
Proof.
  intros (l & -> & Hl)%Permutation_map_inv. by exists l.
Qed.
End cohorts.

#[local] Arguments assoc : simpl never.

(** C5: which transitions are planned, and what they change.  Over a constructed
    catalog, a stack and a contribution that passed their constructors, the
    planner returns a candidate exactly when the transition is allowed: the
    stack and the catalog are those of the context; the contribution is for a
    registered target under its current specification; the active targets are
    admissible; an active target is replaced by another delta, and an inactive
    one is not (transitively) displaced by an active target; and what the new
    set of targets requires is active.  The candidate then holds the
    contribution, has lost exactly the active targets that a new target
    (transitively) displaces, and keeps every other entry and all identities of
    the incumbent.  The planner's later checks are never what refuses it. *)
Theorem transition_exact `{Sha256} specs rules c s r ctx cand tr :
  constructed specs rules c → stack_wf s → ref_wf r →
  (_candidate_transition s r c ctx = Ok (cand, tr) ↔
   ∃ removed, transition_allowed specs c s r ctx removed ∧ cand = set_entries s (updated_rows s r removed) ∧
     tr = planned_transition s r removed) ∧
  ∀ removed, removed_by specs s r removed →
    stack_wf (set_entries s (updated_rows s r removed)) ∧
    ∀ t, assoc (updated_rows s r removed) t =
      if decide (t = ref_target_id r) then Some r else if decide (t ∈ removed) then None else assoc (es_entries s) t.
Proof.
  intros Hwf%constructed_wf Hs Hr. split; [by eapply candidate_transition_Ok|].
  intros removed (Hnd & Hsub & _)%removed_active. by apply with_contribution_Ok.
Qed.

(** ** Rollback *)

Section rollback.
Context `{Sha256}.

Lemma require_arm_Ok what expected current v ctx u :
  require_arm what expected current v ctx = Ok u ↔
  validate_against current ctx = Ok tt ∧ EvaluationStackManifest_digest current = ai_stack_digest expected ∧
  v = PStr (ai_tree_digest expected) ∧ digest_ok (ai_tree_digest expected).
Proof.
  unfold require_arm. split.
  - intros Hi. apply bind_Ok in Hi as ([] & Hv & Hi). apply bind_Ok in Hi as (t & [-> Ht]%sp_digest_Ok & Hi).
    apply bind_Ok in Hi as (? & Hd%raise_if_Ok & Hi%raise_if_Ok). bool_prop. by subst t.
  - intros (-> & Hd & -> & Ht). cbn [bind]. eapply bind_step; [by apply sp_digest_Ok|]. rewrite !bool_decide_eq_true_2 by done. by destruct u.
Qed.

Lemma rollback_init_Ok s r removed it ct :
  arm_digests_ok s (set_entries s (updated_rows s r removed)) it ct → digest_ok (MarginalArmPlan_digest (planned_arm s r removed it ct)) →
  RollbackPlan_init (ma_challenger (planned_arm s r removed it ct)) (ma_baseline_before (planned_arm s r removed it ct)) s
    (PStr (MarginalArmPlan_digest (planned_arm s r removed it ct))) (PInt _PLAN_SCHEMA_VERSION) =
  Ok {| rp_expected_current := ma_challenger (planned_arm s r removed it ct);
        rp_restored := ma_baseline_before (planned_arm s r removed it ct); rp_restored_manifest := s;
        rp_source_arm_digest := MarginalArmPlan_digest (planned_arm s r removed it ct); rp_schema_version := _PLAN_SCHEMA_VERSION |}.
Proof.
  intros (_ & _ & Hne & _ & _) Hd. unfold RollbackPlan_init. eapply bind_step; [by apply schema_one_Ok|]. eapply bind_step; [by apply sp_digest_Ok|].
  rewrite bool_decide_eq_true_2 by done. cbn [negb raise_if bind]. rewrite bool_decide_eq_false_2; [done|]. cbn. congruence.
Qed.
End rollback.

(** C34: a planned arm can be rolled back to where it started.  Every arm that
    [plan_marginal_arm] returns reopens under the same catalog and context; its
    rollback plan is built and reopens; and reconstructing from it succeeds
    exactly when the current stack and tree are those the arm led to, and then
    returns the very manifest and tree the arm was planned from.  (The arm's own
    digest is taken not to be the all-zero digest.) *)
Theorem arm_rolls_back `{Sha256} specs rules c s r ctx vi vc arm :
  constructed specs rules c → stack_wf s → ref_wf r →
  plan_marginal_arm s r c vi vc ctx = Ok arm → MarginalArmPlan_digest arm ≠ ZERO_DIGEST →
  arm_reopen arm c ctx = Ok arm ∧
  ∃ p, RollbackPlan_from_arm arm c ctx = Ok p ∧ rollback_reopen p arm c ctx = Ok p ∧
    ∀ current tree out, reconstruct p current tree arm c ctx = Ok out ↔
      validate_against current ctx = Ok tt ∧ EvaluationStackManifest_digest current = EvaluationStackManifest_digest (ma_candidate arm) ∧
      tree = vc ∧ out = (s, match vi with PStr t => t | _ => "" end).
Proof.
  intros Hwf%constructed_wf Hs Hr Hp Hz. pose proof (planned_reopens _ _ _ Hwf _ _ _ _ _ _ Hs Hr Hp) as Hre.
  apply (plan_arm_Ok _ _ _ Hwf) in Hp as (removed & it & ct & -> & -> & Hta & Hd & ->); [|done..]. split; [done|].
  assert (digest_ok (MarginalArmPlan_digest (planned_arm s r removed it ct))) as Hda.
  { split; [|done]. apply digest_of_is_hex64; [done | apply arm_dict_canonical]. }
  pose proof (rollback_init_Ok s r removed it ct Hd Hda) as Hinit. pose proof Hd as (Hit & Hct & Hne & Hds & Hdc).
  match type of Hinit with _ = Ok ?p => set (plan := p) in *; exists plan end.
  assert (RollbackPlan_from_arm (planned_arm s r removed it ct) c ctx = Ok plan) as Hfrom.
  { unfold RollbackPlan_from_arm. rewrite Hre. cbn [bind]. eapply bind_step; [by apply arm_identity_Ok|]. exact Hinit. }
  assert (rollback_reopen plan (planned_arm s r removed it ct) c ctx = Ok plan) as Hreopen.
  { unfold rollback_reopen. rewrite Hfrom. cbn [bind]. by rewrite py_eq_refl. }
  split_and!; [done..|]. intros current tree out. unfold reconstruct. rewrite Hreopen. cbn [bind]. rewrite bind_Ok.
  setoid_rewrite require_arm_Ok. split.
  - intros (_ & (Hv & Hcd & -> & _) & Hi). apply bind_Ok in Hi as (? & _ & [= <-]). done.
  - intros (Hv & Hcd & -> & ->). exists tt. split; [done|]. cbn. by rewrite (ta_context _ _ _ _ _ _ Hta).
Qed.

(** A sealed cohort is complete.  Its arms are the given arms, sorted by
    selected delta, all over one incumbent and with distinct candidate stacks and
    trees.  Reading them in execution order and in authority order succeeds and
    lists every arm exactly once, the authority order being the given one; and the
    cohort reopens under the same catalog and context. *)
Theorem cohort_complete `{Sha256} arms entropy authority c ctx p :
  seal arms entropy authority c ctx = Ok p →
  cp_arms p ≡ₚ arms ∧ StronglySorted (key_le ma_selected_delta_digest) (cp_arms p) ∧
  (∀ a, a ∈ arms → ma_baseline_before a = cp_incumbent p) ∧
  NoDup ((λ a, ai_stack_digest (ma_challenger a)) <$> arms) ∧ NoDup ((λ a, ai_tree_digest (ma_challenger a)) <$> arms) ∧
  (∃ l, execution_arms p = Ok l ∧ l ≡ₚ arms) ∧
  (∃ l, authority_arms p = Ok l ∧ l ≡ₚ arms ∧ contribution_digest <$> l = ref_digest <$> authority) ∧
  cohort_reopen p c ctx = Ok p.
Proof.
  intros Hseal. pose proof Hseal as (e & b & -> & He & Hf & Hok & Hb1 & Hb2 & ->)%seal_Ok. unfold sealed. cbn.
  assert (sorted_by ma_selected_delta_digest arms ≡ₚ arms) as Hp by apply sorted_by_perm.
  pose proof Hok as Hok'. rewrite <- Hp in Hok'. pose proof (sorted_by_sorted ma_selected_delta_digest arms) as Hsort.
  assert (sorted_by ma_selected_delta_digest (sorted_by ma_selected_delta_digest arms) = sorted_by ma_selected_delta_digest arms) as Hidem
    by (apply sorted_by_idemp, Hok).
  split_and!; [done | done | apply Hok | apply Hok | apply Hok | | |].
  - eexists. split; [apply arms_by_all; [apply Hok'|]|by rewrite stable_sort_perm]. intros a. by rewrite stable_sort_perm.
  - destruct (arms_in_order contribution_digest (sorted_by ma_selected_delta_digest arms) (ref_digest <$> authority)) as (l & Hl & Heq).
    + apply Hok'.
    + exists l. unfold authority_arms. cbn. rewrite Heq. split_and!; [|by rewrite Hl|done]. apply arms_by_all; [|intros a; by rewrite Hl].
      rewrite <- (co_authority _ _ _ Hok'). apply Hok.
  - change (cohort_reopen (sealed arms e authority b) c ctx = Ok (sealed arms e authority b)).
    assert (sealed (sorted_by ma_selected_delta_digest arms) e authority b = sealed arms e authority b) as Hse
      by (unfold sealed; by rewrite Hidem).
    unfold cohort_reopen. eapply bind_step.
    { apply seal_Ok. exists e, b. split_and!; try done. by cbn [cp_arms sealed]; rewrite Hp. }
    by rewrite py_eq_refl by apply cohort_dict_canonical.
Qed.

(** The order in which arms are submitted does not matter.  Sealing any
    permutation of the arms gives the same cohort, execution order included. *)
Theorem cohort_order_independent `{Sha256} arms arms' entropy authority c ctx p :
  arms ≡ₚ arms' → seal arms entropy authority c ctx = Ok p → seal arms' entropy authority c ctx = Ok p.
Proof.
  intros Hp (e & b & -> & He & Hf & Hok & Hb1 & Hb2 & ->)%seal_Ok. apply seal_Ok. exists e, b.
  split_and!; try done; [by rewrite <- Hp..|]. unfold sealed. by rewrite (sorted_by_perm_eq _ arms arms') by (try done; apply Hok).
Qed.
