(* ===== verification/Settlement.v ===== *)
(** * Settlement (src/optima/settlement.py)

    Reproduced qualifications as settlement candidates, the evidence receipt,
    the hash-chained event journal and [plan_settlement], which selects one
    winner over a frozen incumbent.  The slot-audit controls that a
    qualification carries are those of eval/oci_session_protocol.py.

    Member and slot lists are lists of strings; a member read from JSON that is
    not a string is refused, as in the source, where the class of that
    exception depends on the mixture of types.  [type(x) is C] tests on the
    program's own classes are the types of the model. *)

From Stdlib Require Import ZArith Lia Ascii.
From stdpp Require Import base tactics numbers list strings gmap sorting.
From S2P Require Import Prelude PyValue Sha256 Identity Strict Decimal Provider Stack Release StackPlan.

Module SE.
Definition error (msg : string) : pyexn := Exn SettlementError msg.

Definition _digest (optional : bool) (v : pyval) : result string := require_digest SettlementError false optional v.

(** The classes of [_ID = [A-Za-z0-9][A-Za-z0-9._:-]{0,255}]. *)
Definition is_id_head (c : ascii) : bool :=
  let n := code c in
  ((48 <=? n) && (n <=? 57)) || ((65 <=? n) && (n <=? 90)) || ((97 <=? n) && (n <=? 122)).

Definition is_id_tail (c : ascii) : bool :=
  is_id_head c || (code c =? 46) || (code c =? 95) || (code c =? 58) || (code c =? 45).

Definition id_matches (s : string) : bool :=
  match s with
  | EmptyString => false
  | String c t => is_id_head c && forallb is_id_tail (chars t) && (str_len s <=? 256)
  end.

Definition _identifier (v : pyval) : result string := require_identifier SettlementError id_matches v.

Definition _integer (v : pyval) : result Z := require_int SettlementError (Some 0) None v.
End SE.

#[global] Arguments SE._digest : simpl never.
#[global] Arguments SE._identifier : simpl never.
#[global] Arguments SE._integer : simpl never.

Definition _LANES : list string := ["registered"; "discovery"].

(** [_speedup] *)
Definition _speedup (v : pyval) : result string :=
  match v with
  | PStr value =>
      match read_decimal value with
      | None => Raise (SE.error "speedup is not decimal")
      | Some (DFinite neg c e) =>
          do! raise_if (dec_leb (signed neg c) e 1 0) (SE.error "a settlement candidate must have speedup greater than one") ;;
          let! normal := dec_normalize c e in
          let text := format_f normal.1 normal.2 in
          let canonical := if has_char "."%char text then rstrip "."%char (rstrip "0"%char text) else text in
          do! raise_if (negb (bool_decide (value = canonical))) (SE.error "speedup must use canonical decimal spelling") ;;
          Ok canonical
      | Some _ => Raise (SE.error "a settlement candidate must have speedup greater than one")
      end
  | _ => Raise (SE.error "speedup must be an exact decimal string")
  end.

#[global] Arguments _speedup : simpl never.

(** [Decimal(text)] of a checked speedup. *)
Definition speed_value (text : string) : Z * Z :=
  match read_decimal text with Some (DFinite _ c e) => (c, e) | _ => (0, 0) end.

(** ** Slot audits *)

Definition session_error (msg : string) : pyexn := Exn SessionProtocolError msg.

Definition MAX_AUDIT_RECEIPTS : Z := 4096.

Definition _bounded_int (minimum maximum : Z) (v : pyval) : result Z :=
  match v with
  | PInt z => if (minimum <=? z) && (z <=? maximum) then Ok z else Raise (session_error "must be an integer in range")
  | _ => Raise (session_error "must be an integer in range")
  end.

(** The class of [_TOKEN = [A-Za-z0-9_.:+/@-]{1,256}]. *)
Definition is_token_char (c : ascii) : bool := SE.is_id_head c || existsb (Ascii.eqb c) (chars "_.:+/@-").

Definition token_matches (s : string) : bool :=
  negb (bool_decide (s = "")) && forallb is_token_char (chars s) && (str_len s <=? 256).

(** [_HEX_128] and the zero binding. *)
Definition _binding_id (v : pyval) : result string :=
  match v with
  | PStr s =>
      if (str_len s =? 32) && forallb is_lower_hex (chars s) && negb (bool_decide (s = "00000000000000000000000000000000"))
      then Ok s else Raise (session_error "must be nonzero 128-bit lowercase hex")
  | _ => Raise (session_error "must be nonzero 128-bit lowercase hex")
  end.

Record SlotAuditControl := {
  au_sample_rate_ppm : Z;
  au_minimum_calls : Z;
  au_expected_slots : list string;
  au_expected_member_count : Z
}.

#[global] Instance SlotAuditControl_eq_dec : EqDecision SlotAuditControl.
Proof. solve_decision. Defined.

Definition SlotAuditControl_init (sample_rate_ppm minimum_calls : pyval) (expected_slots : list string)
    (expected_member_count : pyval) : result SlotAuditControl :=
  let! sample_rate_ppm := _bounded_int 1 1000000 sample_rate_ppm in
  let! minimum_calls := _bounded_int 1 1000000000 minimum_calls in
  do! raise_if (is_nil expected_slots || (MAX_AUDIT_RECEIPTS <? Z.of_nat (length expected_slots))
                || negb (bool_decide (expected_slots = sorted_set (list_to_set expected_slots)))
                || negb (forallb token_matches expected_slots))
        (session_error "audit expected_slots must be a nonempty sorted unique token array") ;;
  let! expected_member_count := _bounded_int 1 64 expected_member_count in
  do! raise_if (MAX_AUDIT_RECEIPTS <? Z.of_nat (length expected_slots) * expected_member_count)
        (session_error "audit slot/member receipt bound is exceeded") ;;
  Ok {| au_sample_rate_ppm := sample_rate_ppm; au_minimum_calls := minimum_calls;
        au_expected_slots := expected_slots; au_expected_member_count := expected_member_count |}.

Definition SlotAuditControl_rows (c : SlotAuditControl) : list (string * pyval) := [
  ("expected_member_count", PInt (au_expected_member_count c));
  ("expected_slots", py_strs (au_expected_slots c));
  ("minimum_calls", PInt (au_minimum_calls c));
  ("sample_rate_ppm", PInt (au_sample_rate_ppm c))].

Definition SlotAuditControl_to_dict (c : SlotAuditControl) : pyval := py_dict (SlotAuditControl_rows c).

(** The texts of a JSON array of texts. *)
Definition str_items (e : pyexn) (l : list pyval) : result (list string) :=
  mapM (λ v, match v with PStr s => Ok s | _ => Raise e end) l.

(** [row["expected_slots"]] as a tuple of slots. *)
Definition slots_of (v : pyval) : result (list string) :=
  match v with
  | PList l => str_items (session_error "audit expected_slots must be a nonempty sorted unique token array") l
  | _ => Raise (session_error "audit expected_slots must be an array")
  end.

Definition SlotAuditControl_from_dict (v : pyval) : result SlotAuditControl :=
  let! row := closed_row ["expected_member_count"; "expected_slots"; "minimum_calls"; "sample_rate_ppm"]
                (session_error "slot audit control fields do not match the schema") v in
  let! raw_slots := row_get row "expected_slots" in
  let! slots := slots_of raw_slots in
  let! sample_rate_ppm := row_get row "sample_rate_ppm" in
  let! minimum_calls := row_get row "minimum_calls" in
  let! expected_member_count := row_get row "expected_member_count" in
  SlotAuditControl_init sample_rate_ppm minimum_calls slots expected_member_count.

(** A policy is a seed and a control; the source copies the control's fields. *)
Record SlotAuditPolicy := { ap_validator_seed : string; ap_control : SlotAuditControl }.

#[global] Instance SlotAuditPolicy_eq_dec : EqDecision SlotAuditPolicy.
Proof. solve_decision. Defined.

Definition SlotAuditPolicy_init (validator_seed sample_rate_ppm minimum_calls : pyval) (expected_slots : list string)
    (expected_member_count : pyval) : result SlotAuditPolicy :=
  let! validator_seed := _binding_id validator_seed in
  let! control := SlotAuditControl_init sample_rate_ppm minimum_calls expected_slots expected_member_count in
  Ok {| ap_validator_seed := validator_seed; ap_control := control |}.

Definition SlotAuditPolicy_to_dict (p : SlotAuditPolicy) : pyval :=
  py_dict (SlotAuditControl_rows (ap_control p) ++ [("validator_seed", PStr (ap_validator_seed p))]).

Definition SlotAuditPolicy_from_dict (v : pyval) : result SlotAuditPolicy :=
  let! row := closed_row ["expected_member_count"; "expected_slots"; "minimum_calls"; "sample_rate_ppm"; "validator_seed"]
                (session_error "slot audit policy fields do not match the schema") v in
  let! raw_slots := row_get row "expected_slots" in
  let! slots := slots_of raw_slots in
  let! validator_seed := row_get row "validator_seed" in
  let! sample_rate_ppm := row_get row "sample_rate_ppm" in
  let! minimum_calls := row_get row "minimum_calls" in
  let! expected_member_count := row_get row "expected_member_count" in
  SlotAuditPolicy_init validator_seed sample_rate_ppm minimum_calls slots expected_member_count.

(** ** Reproduction identities and lane orientations *)

Record SettlementReproductionIdentity := {
  rid_arena_digest : string;
  rid_target_id : string;
  rid_selected_delta_digest : string;
  rid_hotkey : string;
  rid_incumbent_stack_digest : string;
  rid_incumbent_tree_digest : string;
  rid_candidate_stack_digest : string;
  rid_candidate_tree_digest : string
}.

#[global] Instance SettlementReproductionIdentity_eq_dec : EqDecision SettlementReproductionIdentity.
Proof. solve_decision. Defined.

Definition SettlementReproductionIdentity_init
    (arena_digest target_id selected_delta_digest hotkey incumbent_stack_digest incumbent_tree_digest
     candidate_stack_digest candidate_tree_digest : pyval)
    : result SettlementReproductionIdentity :=
  let! arena_digest := SE._digest false arena_digest in
  let! selected_delta_digest := SE._digest false selected_delta_digest in
  let! incumbent_stack_digest := SE._digest false incumbent_stack_digest in
  let! incumbent_tree_digest := SE._digest false incumbent_tree_digest in
  let! candidate_stack_digest := SE._digest false candidate_stack_digest in
  let! candidate_tree_digest := SE._digest false candidate_tree_digest in
  let! target_id := SE._identifier target_id in
  let! hotkey := SE._identifier hotkey in
  Ok {| rid_arena_digest := arena_digest;
        rid_target_id := target_id;
        rid_selected_delta_digest := selected_delta_digest;
        rid_hotkey := hotkey;
        rid_incumbent_stack_digest := incumbent_stack_digest;
        rid_incumbent_tree_digest := incumbent_tree_digest;
        rid_candidate_stack_digest := candidate_stack_digest;
        rid_candidate_tree_digest := candidate_tree_digest |}.

Definition SettlementReproductionIdentity_to_dict (i : SettlementReproductionIdentity) : pyval :=
  py_dict [
    ("arena_digest", PStr (rid_arena_digest i));
    ("target_id", PStr (rid_target_id i));
    ("selected_delta_digest", PStr (rid_selected_delta_digest i));
    ("hotkey", PStr (rid_hotkey i));
    ("incumbent_stack_digest", PStr (rid_incumbent_stack_digest i));
    ("incumbent_tree_digest", PStr (rid_incumbent_tree_digest i));
    ("candidate_stack_digest", PStr (rid_candidate_stack_digest i));
    ("candidate_tree_digest", PStr (rid_candidate_tree_digest i))].

Record ResidentLaneOrientation := {
  ro_speed_evidence_policy_digest : string;
  ro_control_digest : string;
  ro_baseline_physical_lane_digest : string;
  ro_candidate_physical_lane_digest : string
}.

#[global] Instance ResidentLaneOrientation_eq_dec : EqDecision ResidentLaneOrientation.
Proof. solve_decision. Defined.

(** One field of [__post_init__]: a digest that is not all-zero. *)
Definition lane_digest (v : pyval) : result string :=
  let! value := SE._digest false v in
  do! raise_if (bool_decide (value = ZERO_DIGEST)) (SE.error "must not be all-zero") ;;
  Ok value.

Definition ResidentLaneOrientation_init (speed_evidence_policy_digest control_digest baseline_physical_lane_digest candidate_physical_lane_digest : pyval)
    : result ResidentLaneOrientation :=
  let! speed_evidence_policy_digest := lane_digest speed_evidence_policy_digest in
  let! control_digest := lane_digest control_digest in
  let! baseline_physical_lane_digest := lane_digest baseline_physical_lane_digest in
  let! candidate_physical_lane_digest := lane_digest candidate_physical_lane_digest in
  do! raise_if (bool_decide (baseline_physical_lane_digest = candidate_physical_lane_digest))
        (SE.error "resident crossover reused one physical TP lane") ;;
  Ok {| ro_speed_evidence_policy_digest := speed_evidence_policy_digest;
        ro_control_digest := control_digest;
        ro_baseline_physical_lane_digest := baseline_physical_lane_digest;
        ro_candidate_physical_lane_digest := candidate_physical_lane_digest |}.

Definition ResidentLaneOrientation_to_dict (r : ResidentLaneOrientation) : pyval :=
  py_dict [
    ("speed_evidence_policy_digest", PStr (ro_speed_evidence_policy_digest r));
    ("control_digest", PStr (ro_control_digest r));
    ("baseline_physical_lane_digest", PStr (ro_baseline_physical_lane_digest r));
    ("candidate_physical_lane_digest", PStr (ro_candidate_physical_lane_digest r))].

Definition ResidentLaneOrientation_from_dict (v : pyval) : result ResidentLaneOrientation :=
  let! row := closed_row ["speed_evidence_policy_digest"; "control_digest"; "baseline_physical_lane_digest";
                "candidate_physical_lane_digest"]
                (SE.error "resident lane orientation fields do not match") v in
  let! speed_evidence_policy_digest := row_get row "speed_evidence_policy_digest" in
  let! control_digest := row_get row "control_digest" in
  let! baseline_physical_lane_digest := row_get row "baseline_physical_lane_digest" in
  let! candidate_physical_lane_digest := row_get row "candidate_physical_lane_digest" in
  ResidentLaneOrientation_init speed_evidence_policy_digest control_digest baseline_physical_lane_digest candidate_physical_lane_digest.

Definition is_exact_swap_of (self primary : ResidentLaneOrientation) : bool :=
  bool_decide (ro_speed_evidence_policy_digest self = ro_speed_evidence_policy_digest primary)
  && bool_decide (ro_control_digest self = ro_control_digest primary)
  && bool_decide (ro_baseline_physical_lane_digest self = ro_candidate_physical_lane_digest primary)
  && bool_decide (ro_candidate_physical_lane_digest self = ro_baseline_physical_lane_digest primary).

(** ** Qualifications *)

Record SettlementQualification := {
  sq_lane : string;
  sq_arena_digest : string;
  sq_reservation_digest : string;
  sq_finalized_block : Z;
  sq_event_index : Z;
  sq_event_subindex : Z;
  sq_hotkey : string;
  sq_target_id : string;
  sq_members : list string;
  sq_selected_delta_digest : string;
  sq_qualification_authority_digest : string;
  sq_qualification_plan_digest : string;
  sq_qualification_attempt_digest : string;
  sq_qualification_report_digest : string;
  sq_selection_commitment_digest : string;
  sq_selection_secret_commitment_digest : string;
  sq_selection_evidence_digest : string;
  sq_arm_digest : string;
  sq_incumbent_stack_digest : string;
  sq_incumbent_tree_digest : string;
  sq_candidate_stack_digest : string;
  sq_candidate_tree_digest : string;
  sq_speedup : string;
  sq_incumbent_manifest : EvaluationStackManifest;
  sq_proposal_digest : string;
  sq_candidate_manifest : option EvaluationStackManifest;
  sq_speed_evidence_policy_digest : string;
  sq_audit_control_digest : string;
  sq_audit_policy : option SlotAuditPolicy;
  sq_audit_evidence_digest : string;
  sq_resident_lane_orientation : option ResidentLaneOrientation
}.

Section settlement.
Context `{Sha256}.

Definition _LEGACY_SPEED_POLICY_DIGEST : string :=
  digest_of "optima.qualification.speed-evidence-policy"
    (py_dict [("candidate_reads", PInt 1); ("estimator", PStr "bcbp-baseline-range.v1"); ("version", PInt 1)]).

Definition _RESIDENT_SPEED_POLICY_DIGEST : string :=
  digest_of "optima.qualification.speed-evidence-policy"
    (py_dict [("candidate_reads", PInt 0); ("estimator", PStr "resident-adaptive-bcbp-v1"); ("version", PInt 3)]).

Definition _LEGACY_AUDIT_CONTROL_DIGEST : string :=
  digest_of "optima.settlement.legacy-audit-control" (py_dict [("status", PStr "absent")]).

Definition _LEGACY_AUDIT_EVIDENCE_DIGEST : string :=
  digest_of "optima.settlement.legacy-audit-evidence" (py_dict [("status", PStr "absent")]).

Definition SlotAuditControl_digest (c : SlotAuditControl) : string :=
  digest_of "optima.eval.slot-audit-control.v1" (SlotAuditControl_to_dict c).

Definition SlotAuditPolicy_digest (p : SlotAuditPolicy) : string :=
  digest_of "optima.eval.slot-audit-policy.v1" (SlotAuditPolicy_to_dict p).

Definition SettlementReproductionIdentity_digest (i : SettlementReproductionIdentity) : string :=
  digest_of "optima.settlement.reproduction-identity" (SettlementReproductionIdentity_to_dict i).

Definition ResidentLaneOrientation_digest (r : ResidentLaneOrientation) : string :=
  digest_of "optima.settlement.resident-lane-orientation.v1" (ResidentLaneOrientation_to_dict r).

(** The audit and orientation checks of [__post_init__]. *)
Definition check_audit (lane audit_control_digest audit_evidence_digest speed_evidence_policy_digest : string)
    (audit_policy : option SlotAuditPolicy) (orientation : option ResidentLaneOrientation) : result unit :=
  do! match audit_policy with
      | None =>
          raise_if (negb (bool_decide (audit_control_digest = _LEGACY_AUDIT_CONTROL_DIGEST))
                    || negb (bool_decide (audit_evidence_digest = _LEGACY_AUDIT_EVIDENCE_DIGEST)))
            (SE.error "legacy auditless qualification has nonlegacy audit authority")
      | Some policy =>
          raise_if (negb (bool_decide (SlotAuditControl_digest (ap_control policy) = audit_control_digest)))
            (SE.error "settlement audit policy differs from its seed-independent control")
      end ;;
  do! match orientation with
      | Some o =>
          do! raise_if (negb (bool_decide (lane = "registered")) || match audit_policy with None => true | Some _ => false end)
                (SE.error "resident lane orientation requires one audited registered qualification") ;;
          raise_if (negb (bool_decide (ro_speed_evidence_policy_digest o = speed_evidence_policy_digest)))
            (SE.error "resident lane orientation differs from the speed evidence policy")
      | None => Ok tt
      end ;;
  raise_if (negb (Bool.eqb (bool_decide (speed_evidence_policy_digest = _RESIDENT_SPEED_POLICY_DIGEST))
                     (match orientation with Some _ => true | None => false end)))
    (SE.error "resident speed evidence requires its physical lane orientation").

(** The checks that depend on the lane. *)
Definition check_lane (lane target_id selected_delta_digest candidate_stack_digest : string)
    (candidate_manifest : option EvaluationStackManifest) (proposal_digest : pyval) : result unit :=
  if bool_decide (lane = "registered") then
    match candidate_manifest with
    | None => Raise (SE.error "registered candidate lacks its exact stack manifest")
    | Some manifest =>
        do! raise_if (negb (bool_decide (EvaluationStackManifest_digest manifest = candidate_stack_digest)))
              (SE.error "candidate manifest differs from candidate stack") ;;
        do! raise_if (match assoc (es_entries manifest) target_id with
                      | None => true
                      | Some replacement => negb (bool_decide (ref_selected_delta_digest replacement = selected_delta_digest))
                      end) (SE.error "candidate manifest differs from its target/delta projection") ;;
        raise_if (truthy proposal_digest) (SE.error "registered candidates cannot name a discovery proposal")
    end
  else
    match candidate_manifest with
    | Some _ => Raise (SE.error "discovery candidates cannot install a stack manifest")
    | None => raise_if (negb (truthy proposal_digest)) (SE.error "discovery candidate lacks its proposal identity")
    end.

(** [lane not in _LANES] raises; a list or dict cannot be hashed. *)
Definition lane_of (v : pyval) : result string :=
  let! known := py_in_strs v _LANES in
  match v with
  | PStr s => if known then Ok s else Raise (SE.error "settlement lane is unsupported")
  | _ => Raise (SE.error "settlement lane is unsupported")
  end.

Definition members_of (members : list string) : result (list string) :=
  do! raise_if (is_nil members || negb (bool_decide (members = sorted_set (list_to_set members))))
        (SE.error "settlement members are not canonical") ;;
  mapM (λ m, SE._identifier (PStr m)) members.

(** [SettlementQualification.__post_init__] *)
Definition SettlementQualification_init
    (lane arena_digest reservation_digest finalized_block event_index event_subindex hotkey target_id : pyval)
    (members : list string) (selected_delta_digest qualification_authority_digest qualification_plan_digest
    qualification_attempt_digest qualification_report_digest selection_commitment_digest
    selection_secret_commitment_digest selection_evidence_digest arm_digest incumbent_stack_digest
    incumbent_tree_digest candidate_stack_digest candidate_tree_digest speedup : pyval) (incumbent_manifest :
    EvaluationStackManifest) (proposal_digest : pyval) (candidate_manifest : option EvaluationStackManifest)
    (speed_evidence_policy_digest audit_control_digest : pyval) (audit_policy : option SlotAuditPolicy)
    (audit_evidence_digest : pyval) (resident_lane_orientation : option ResidentLaneOrientation)
    : result SettlementQualification :=
  let! lane := lane_of lane in
  let! arena_digest := SE._digest false arena_digest in
  let! reservation_digest := SE._digest false reservation_digest in
  let! selected_delta_digest := SE._digest false selected_delta_digest in
  let! qualification_authority_digest := SE._digest false qualification_authority_digest in
  let! qualification_plan_digest := SE._digest false qualification_plan_digest in
  let! qualification_attempt_digest := SE._digest false qualification_attempt_digest in
  let! qualification_report_digest := SE._digest false qualification_report_digest in
  let! selection_commitment_digest := SE._digest false selection_commitment_digest in
  let! selection_secret_commitment_digest := SE._digest false selection_secret_commitment_digest in
  let! selection_evidence_digest := SE._digest false selection_evidence_digest in
  let! arm_digest := SE._digest false arm_digest in
  let! incumbent_stack_digest := SE._digest false incumbent_stack_digest in
  let! incumbent_tree_digest := SE._digest false incumbent_tree_digest in
  let! candidate_stack_digest := SE._digest false candidate_stack_digest in
  let! candidate_tree_digest := SE._digest false candidate_tree_digest in
  let! speed_evidence_policy_digest := SE._digest false speed_evidence_policy_digest in
  let! audit_control_digest := SE._digest false audit_control_digest in
  let! audit_evidence_digest := SE._digest false audit_evidence_digest in
  let! finalized_block := SE._integer finalized_block in
  let! event_index := SE._integer event_index in
  let! event_subindex := SE._integer event_subindex in
  let! hotkey := SE._identifier hotkey in
  let! target_id := SE._identifier target_id in
  let! members := members_of members in
  let! speedup := _speedup speedup in
  do! check_audit lane audit_control_digest audit_evidence_digest speed_evidence_policy_digest audit_policy resident_lane_orientation ;;
  do! raise_if (negb (bool_decide (EvaluationStackManifest_digest incumbent_manifest = incumbent_stack_digest))
                || negb (bool_decide (es_arena_digest incumbent_manifest = arena_digest)))
        (SE.error "incumbent manifest differs from candidate authority") ;;
  do! raise_if (bool_decide (incumbent_stack_digest = candidate_stack_digest))
        (SE.error "candidate does not change the incumbent stack identity") ;;
  do! raise_if (bool_decide (incumbent_tree_digest = candidate_tree_digest))
        (SE.error "candidate does not change the incumbent tree identity") ;;
  do! check_lane lane target_id selected_delta_digest candidate_stack_digest candidate_manifest proposal_digest ;;
  let! proposal_digest := SE._digest (bool_decide (lane = "registered")) proposal_digest in
  do! raise_if (match candidate_manifest with
                | Some manifest => negb (bool_decide (es_arena_digest manifest = arena_digest))
                | None => false
                end) (SE.error "candidate manifest belongs to another arena") ;;
  Ok {| sq_lane := lane;
        sq_arena_digest := arena_digest;
        sq_reservation_digest := reservation_digest;
        sq_finalized_block := finalized_block;
        sq_event_index := event_index;
        sq_event_subindex := event_subindex;
        sq_hotkey := hotkey;
        sq_target_id := target_id;
        sq_members := members;
        sq_selected_delta_digest := selected_delta_digest;
        sq_qualification_authority_digest := qualification_authority_digest;
        sq_qualification_plan_digest := qualification_plan_digest;
        sq_qualification_attempt_digest := qualification_attempt_digest;
        sq_qualification_report_digest := qualification_report_digest;
        sq_selection_commitment_digest := selection_commitment_digest;
        sq_selection_secret_commitment_digest := selection_secret_commitment_digest;
        sq_selection_evidence_digest := selection_evidence_digest;
        sq_arm_digest := arm_digest;
        sq_incumbent_stack_digest := incumbent_stack_digest;
        sq_incumbent_tree_digest := incumbent_tree_digest;
        sq_candidate_stack_digest := candidate_stack_digest;
        sq_candidate_tree_digest := candidate_tree_digest;
        sq_speedup := speedup;
        sq_incumbent_manifest := incumbent_manifest;
        sq_proposal_digest := proposal_digest;
        sq_candidate_manifest := candidate_manifest;
        sq_speed_evidence_policy_digest := speed_evidence_policy_digest;
        sq_audit_control_digest := audit_control_digest;
        sq_audit_policy := audit_policy;
        sq_audit_evidence_digest := audit_evidence_digest;
        sq_resident_lane_orientation := resident_lane_orientation |}.

Definition finalized_order (q : SettlementQualification) : Z * Z * Z * string :=
  (sq_finalized_block q, sq_event_index q, sq_event_subindex q, sq_reservation_digest q).

Definition sq_incumbent (q : SettlementQualification) : result StackArmIdentity :=
  StackArmIdentity_init (PStr (sq_incumbent_stack_digest q)) (PStr (sq_incumbent_tree_digest q)).

Definition sq_challenger (q : SettlementQualification) : result StackArmIdentity :=
  StackArmIdentity_init (PStr (sq_candidate_stack_digest q)) (PStr (sq_candidate_tree_digest q)).

Definition reproduction_identity (q : SettlementQualification) : result SettlementReproductionIdentity :=
  SettlementReproductionIdentity_init (PStr (sq_arena_digest q)) (PStr (sq_target_id q)) (PStr (sq_selected_delta_digest q)) (PStr (sq_hotkey q)) (PStr
    (sq_incumbent_stack_digest q)) (PStr (sq_incumbent_tree_digest q)) (PStr (sq_candidate_stack_digest q)) (PStr
    (sq_candidate_tree_digest q)).

(** The fields every version writes. *)
Definition qualification_rows (q : SettlementQualification) : list (string * pyval) := [
  ("arena_digest", PStr (sq_arena_digest q));
  ("arm_digest", PStr (sq_arm_digest q));
  ("candidate_manifest", match sq_candidate_manifest q with None => PNone | Some m => EvaluationStackManifest_to_dict m end);
  ("candidate_stack_digest", PStr (sq_candidate_stack_digest q));
  ("candidate_tree_digest", PStr (sq_candidate_tree_digest q));
  ("event_index", PInt (sq_event_index q));
  ("event_subindex", PInt (sq_event_subindex q));
  ("finalized_block", PInt (sq_finalized_block q));
  ("hotkey", PStr (sq_hotkey q));
  ("incumbent_stack_digest", PStr (sq_incumbent_stack_digest q));
  ("incumbent_tree_digest", PStr (sq_incumbent_tree_digest q));
  ("incumbent_manifest", EvaluationStackManifest_to_dict (sq_incumbent_manifest q));
  ("lane", PStr (sq_lane q));
  ("members", py_strs (sq_members q));
  ("qualification_attempt_digest", PStr (sq_qualification_attempt_digest q));
  ("qualification_authority_digest", PStr (sq_qualification_authority_digest q));
  ("qualification_plan_digest", PStr (sq_qualification_plan_digest q));
  ("qualification_report_digest", PStr (sq_qualification_report_digest q));
  ("selection_commitment_digest", PStr (sq_selection_commitment_digest q));
  ("selection_secret_commitment_digest", PStr (sq_selection_secret_commitment_digest q));
  ("selection_evidence_digest", PStr (sq_selection_evidence_digest q));
  ("proposal_digest", PStr (sq_proposal_digest q));
  ("reservation_digest", PStr (sq_reservation_digest q));
  ("selected_delta_digest", PStr (sq_selected_delta_digest q));
  ("speedup", PStr (sq_speedup q));
  ("target_id", PStr (sq_target_id q))].

Definition speed_rows (q : SettlementQualification) : list (string * pyval) :=
  if negb (bool_decide (sq_speed_evidence_policy_digest q = _LEGACY_SPEED_POLICY_DIGEST))
     || match sq_audit_policy q with Some _ => true | None => false end
  then [("speed_evidence_policy_digest", PStr (sq_speed_evidence_policy_digest q))] else [].

Definition audit_rows (q : SettlementQualification) : list (string * pyval) :=
  match sq_audit_policy q with
  | Some policy => [("audit_control_digest", PStr (sq_audit_control_digest q));
                    ("audit_evidence_digest", PStr (sq_audit_evidence_digest q));
                    ("audit_policy", SlotAuditPolicy_to_dict policy)]
  | None => []
  end.

Definition orientation_rows (q : SettlementQualification) : list (string * pyval) :=
  match sq_resident_lane_orientation q with
  | Some o => [("resident_lane_orientation", ResidentLaneOrientation_to_dict o)]
  | None => []
  end.

Definition SettlementQualification_to_dict (q : SettlementQualification) : pyval :=
  py_dict (qualification_rows q ++ speed_rows q ++ audit_rows q ++ orientation_rows q).

Definition FIELDS_V1 : list string := [
  "lane"; "arena_digest"; "reservation_digest"; "finalized_block"; "event_index"; "event_subindex"; "hotkey";
  "target_id"; "members"; "selected_delta_digest"; "qualification_authority_digest"; "qualification_plan_digest";
  "qualification_attempt_digest"; "qualification_report_digest"; "selection_commitment_digest";
  "selection_secret_commitment_digest"; "selection_evidence_digest"; "arm_digest"; "incumbent_stack_digest";
  "incumbent_tree_digest"; "candidate_stack_digest"; "candidate_tree_digest"; "speedup"; "incumbent_manifest";
  "proposal_digest"; "candidate_manifest"].
Definition FIELDS_V2 : list string := FIELDS_V1 ++ ["speed_evidence_policy_digest"].
Definition FIELDS_V3 : list string := FIELDS_V2 ++ ["audit_control_digest"; "audit_evidence_digest"; "audit_policy"].
Definition FIELDS_V4 : list string := FIELDS_V3 ++ ["resident_lane_orientation"].

(** [type(value) is not dict or frozenset(value) not in {...}] *)
Definition qualification_row (v : pyval) : result (list (string * pyval)) :=
  match v with
  | PDict kvs =>
      match all_str_keys kvs with
      | None => Raise (SE.error "settlement qualification fields do not match")
      | Some row =>
          do! raise_if (negb (bool_decide ((list_to_set row.*1 : gset string) ∈
                 (list_to_set <$> [FIELDS_V1; FIELDS_V2; FIELDS_V3; FIELDS_V4] : list (gset string)))))
                (SE.error "settlement qualification fields do not match") ;;
          Ok row
      end
  | _ => Raise (SE.error "settlement qualification fields do not match")
  end.

(** [None if manifest is None else EvaluationStackManifest.from_dict(manifest)] *)
Definition optional_manifest (v : pyval) : result (option EvaluationStackManifest) :=
  if is_none v then Ok None else result_map Some (EvaluationStackManifest_from_dict v).

Definition SettlementQualification_from_dict (v : pyval) : result SettlementQualification :=
  let! row := qualification_row v in
  let speed_evidence_policy_digest :=
    match assoc row "speed_evidence_policy_digest" with Some d => d | None => PStr _LEGACY_SPEED_POLICY_DIGEST end in
  let! audit :=
    match assoc row "audit_policy" with
    | Some raw =>
        let! policy := SlotAuditPolicy_from_dict raw in
        let! control := row_get row "audit_control_digest" in
        let! evidence := row_get row "audit_evidence_digest" in
        Ok (control, evidence, Some policy)
    | None => Ok (PStr _LEGACY_AUDIT_CONTROL_DIGEST, PStr _LEGACY_AUDIT_EVIDENCE_DIGEST, None)
    end in
  let! resident_lane_orientation :=
    match assoc row "resident_lane_orientation" with
    | Some raw => result_map Some (ResidentLaneOrientation_from_dict raw)
    | None => Ok None
    end in
  let! members :=
    match assoc row "members" with
    | Some (PList l) => str_items (SE.error "settlement members are not canonical") l
    | _ => Raise (SE.error "settlement qualification members are malformed")
    end in
  let! raw_candidate := row_get row "candidate_manifest" in
  let! candidate_manifest := optional_manifest raw_candidate in
  let! raw_incumbent := row_get row "incumbent_manifest" in
  let! incumbent_manifest := EvaluationStackManifest_from_dict raw_incumbent in
  let! lane := row_get row "lane" in
  let! arena_digest := row_get row "arena_digest" in
  let! reservation_digest := row_get row "reservation_digest" in
  let! finalized_block := row_get row "finalized_block" in
  let! event_index := row_get row "event_index" in
  let! event_subindex := row_get row "event_subindex" in
  let! hotkey := row_get row "hotkey" in
  let! target_id := row_get row "target_id" in
  let! selected_delta_digest := row_get row "selected_delta_digest" in
  let! qualification_authority_digest := row_get row "qualification_authority_digest" in
  let! qualification_plan_digest := row_get row "qualification_plan_digest" in
  let! qualification_attempt_digest := row_get row "qualification_attempt_digest" in
  let! qualification_report_digest := row_get row "qualification_report_digest" in
  let! selection_commitment_digest := row_get row "selection_commitment_digest" in
  let! selection_secret_commitment_digest := row_get row "selection_secret_commitment_digest" in
  let! selection_evidence_digest := row_get row "selection_evidence_digest" in
  let! arm_digest := row_get row "arm_digest" in
  let! incumbent_stack_digest := row_get row "incumbent_stack_digest" in
  let! incumbent_tree_digest := row_get row "incumbent_tree_digest" in
  let! candidate_stack_digest := row_get row "candidate_stack_digest" in
  let! candidate_tree_digest := row_get row "candidate_tree_digest" in
  let! speedup := row_get row "speedup" in
  let! proposal_digest := row_get row "proposal_digest" in
  SettlementQualification_init lane arena_digest reservation_digest finalized_block event_index event_subindex hotkey target_id members
    selected_delta_digest qualification_authority_digest qualification_plan_digest qualification_attempt_digest
    qualification_report_digest selection_commitment_digest selection_secret_commitment_digest
    selection_evidence_digest arm_digest incumbent_stack_digest incumbent_tree_digest candidate_stack_digest
    candidate_tree_digest speedup incumbent_manifest proposal_digest candidate_manifest speed_evidence_policy_digest
    audit.1.1 audit.2 audit.1.2 resident_lane_orientation.

Definition SettlementQualification_digest (q : SettlementQualification) : string :=
  digest_of (match sq_resident_lane_orientation q, sq_audit_policy q with
             | Some _, _ => "optima.settlement.qualification.resident-lane-v1"
             | None, None => "optima.settlement.qualification"
             | None, Some _ => "optima.settlement.qualification.audit-v1"
             end) (SettlementQualification_to_dict q).
End settlement.
