(* ===== verification/SettlementPlan.v ===== *)
(** * Settlement candidates, evidence, events and plans (src/optima/settlement.py)

    The second half of settlement.py: the pair of a primary qualification and
    its independent reproduction, the evidence receipt, the event journal and
    [plan_settlement]. *)

From Stdlib Require Import ZArith Lia Ascii.
From stdpp Require Import base tactics numbers list strings gmap sorting.
From S2P Require Import Prelude PyValue Sha256 Identity Strict Decimal Provider Stack Release StackPlan Settlement.

(** [==] on manifests: all fields, the catalog as its bytes. *)
Definition manifest_eqb (a b : EvaluationStackManifest) : bool :=
  bool_decide (es_runtime_digest a = es_runtime_digest b) && bool_decide (es_base_engine_digest a = es_base_engine_digest b)
  && bool_decide (es_arena_digest a = es_arena_digest b) && bool_decide (es_catalog_digest a = es_catalog_digest b)
  && bool_decide (es_schema_version a = es_schema_version b)
  && bool_decide (es_stack_policy_version a = es_stack_policy_version b)
  && bool_decide (encode_utf8 (json_dumps (es_catalog_json a)) = encode_utf8 (json_dumps (es_catalog_json b)))
  && bool_decide (es_entries a = es_entries b).

Definition option_eqb {A} (eqb : A → A → bool) (x y : option A) : bool :=
  match x, y with
  | Some x, Some y => eqb x y
  | None, None => true
  | _, _ => false
  end.

(** ** Candidates *)

Record SettlementCandidate := { sc_primary : SettlementQualification; sc_reproduction : SettlementQualification }.

(** [all(getattr(primary, field) == getattr(reproduction, field) for field in common)] *)
Definition same_contribution (p r : SettlementQualification) : bool :=
  bool_decide (sq_lane p = sq_lane r)
  && bool_decide (sq_arena_digest p = sq_arena_digest r)
  && bool_decide (sq_reservation_digest p = sq_reservation_digest r)
  && bool_decide (sq_finalized_block p = sq_finalized_block r)
  && bool_decide (sq_event_index p = sq_event_index r)
  && bool_decide (sq_event_subindex p = sq_event_subindex r)
  && bool_decide (sq_hotkey p = sq_hotkey r)
  && bool_decide (sq_target_id p = sq_target_id r)
  && bool_decide (sq_members p = sq_members r)
  && bool_decide (sq_selected_delta_digest p = sq_selected_delta_digest r)
  && bool_decide (sq_arm_digest p = sq_arm_digest r)
  && bool_decide (sq_incumbent_stack_digest p = sq_incumbent_stack_digest r)
  && bool_decide (sq_incumbent_tree_digest p = sq_incumbent_tree_digest r)
  && bool_decide (sq_candidate_stack_digest p = sq_candidate_stack_digest r)
  && bool_decide (sq_candidate_tree_digest p = sq_candidate_tree_digest r)
  && manifest_eqb (sq_incumbent_manifest p) (sq_incumbent_manifest r)
  && bool_decide (sq_proposal_digest p = sq_proposal_digest r)
  && option_eqb manifest_eqb (sq_candidate_manifest p) (sq_candidate_manifest r)
  && bool_decide (sq_speed_evidence_policy_digest p = sq_speed_evidence_policy_digest r)
  && bool_decide (sq_audit_control_digest p = sq_audit_control_digest r).

(** [any(getattr(primary, field) == getattr(reproduction, field) for field in distinct)] *)
Definition reuses_evidence (p r : SettlementQualification) : bool :=
  bool_decide (sq_qualification_authority_digest p = sq_qualification_authority_digest r)
  || bool_decide (sq_qualification_plan_digest p = sq_qualification_plan_digest r)
  || bool_decide (sq_qualification_attempt_digest p = sq_qualification_attempt_digest r)
  || bool_decide (sq_qualification_report_digest p = sq_qualification_report_digest r)
  || bool_decide (sq_selection_commitment_digest p = sq_selection_commitment_digest r)
  || bool_decide (sq_selection_secret_commitment_digest p = sq_selection_secret_commitment_digest r)
  || bool_decide (sq_selection_evidence_digest p = sq_selection_evidence_digest r).

Section candidates.
Context `{Sha256}.

(** [SettlementCandidate.__post_init__] *)
Definition SettlementCandidate_init (primary reproduction : SettlementQualification) : result SettlementCandidate :=
  let! primary_identity := reproduction_identity primary in
  let! reproduction_identity := reproduction_identity reproduction in
  do! raise_if (negb (bool_decide (primary_identity = reproduction_identity)))
        (SE.error "independent reproduction differs from the primary reproduction identity") ;;
  do! raise_if (negb (same_contribution primary reproduction))
        (SE.error "independent reproduction differs from the primary contribution identity") ;;
  do! raise_if (reuses_evidence primary reproduction)
        (SE.error "independent reproduction reuses primary authority or evidence") ;;
  do! match sq_audit_policy primary, sq_audit_policy reproduction with
      | Some a, Some b =>
          raise_if (negb (bool_decide (ap_control a = ap_control b)) || bool_decide (ap_validator_seed a = ap_validator_seed b)
                    || bool_decide (sq_audit_evidence_digest primary = sq_audit_evidence_digest reproduction))
            (SE.error "independent reproduction reuses or changes slot-audit authority")
      | None, None => Ok tt
      | _, _ => Raise (SE.error "independent reproduction mixes audited and auditless qualifications")
      end ;;
  do! match sq_resident_lane_orientation primary, sq_resident_lane_orientation reproduction with
      | Some a, Some b =>
          raise_if (negb (is_exact_swap_of b a)) (SE.error "independent reproduction did not swap physical TP lane orientation")
      | None, None => Ok tt
      | _, _ => Raise (SE.error "independent reproduction has incomplete resident lane orientation")
      end ;;
  Ok {| sc_primary := primary; sc_reproduction := reproduction |}.

Definition from_reproductions (primary reproduction : SettlementQualification) : result SettlementCandidate :=
  let! candidate := SettlementCandidate_init primary reproduction in
  match sq_audit_policy (sc_primary candidate), sq_audit_policy (sc_reproduction candidate) with
  | Some _, Some _ => Ok candidate
  | _, _ => Raise (SE.error "new settlement candidate requires two audited qualifications")
  end.

(** [min((primary, reproduction), key=Decimal)]: the first of the smaller ones. *)
Definition sc_speedup (c : SettlementCandidate) : string :=
  let p := sq_speedup (sc_primary c) in
  let r := sq_speedup (sc_reproduction c) in
  if dec_ltb (speed_value r).1 (speed_value r).2 (speed_value p).1 (speed_value p).2 then r else p.

Definition SettlementCandidate_to_dict (c : SettlementCandidate) : pyval :=
  py_dict [("primary", SettlementQualification_to_dict (sc_primary c));
           ("reproduction", SettlementQualification_to_dict (sc_reproduction c))].

Definition SettlementCandidate_from_dict (v : pyval) : result SettlementCandidate :=
  let! row := closed_row ["primary"; "reproduction"] (SE.error "settlement candidate fields do not match") v in
  let! raw_primary := row_get row "primary" in
  let! primary := SettlementQualification_from_dict raw_primary in
  let! raw_reproduction := row_get row "reproduction" in
  let! reproduction := SettlementQualification_from_dict raw_reproduction in
  SettlementCandidate_init primary reproduction.

Definition SettlementCandidate_digest (c : SettlementCandidate) : string :=
  digest_of (match sq_resident_lane_orientation (sc_primary c), sq_audit_policy (sc_primary c) with
             | Some _, _ => "optima.settlement.candidate.v4"
             | None, None => "optima.settlement.candidate.v2"
             | None, Some _ => "optima.settlement.candidate.v3"
             end) (SettlementCandidate_to_dict c).
End candidates.

(** ** Evidence *)

Record SettlementEvidence := {
  ev_candidate_digest : string;
  ev_reservation_digest : string;
  ev_primary_authority_digest : string;
  ev_primary_attempt_ref : EvidenceArtifactRef;
  ev_primary_report_digest : string;
  ev_primary_selection_evidence_digest : string;
  ev_reproduction_authority_digest : string;
  ev_reproduction_attempt_ref : EvidenceArtifactRef;
  ev_reproduction_report_digest : string;
  ev_reproduction_selection_evidence_digest : string
}.

Definition SettlementEvidence_init (candidate_digest reservation_digest primary_authority_digest : pyval) (primary_attempt_ref : EvidenceArtifactRef)
    (primary_report_digest primary_selection_evidence_digest reproduction_authority_digest : pyval)
    (reproduction_attempt_ref : EvidenceArtifactRef) (reproduction_report_digest
    reproduction_selection_evidence_digest : pyval) : result SettlementEvidence :=
  let! candidate_digest := SE._digest false candidate_digest in
  let! reservation_digest := SE._digest false reservation_digest in
  let! primary_authority_digest := SE._digest false primary_authority_digest in
  let! primary_report_digest := SE._digest false primary_report_digest in
  let! primary_selection_evidence_digest := SE._digest false primary_selection_evidence_digest in
  let! reproduction_authority_digest := SE._digest false reproduction_authority_digest in
  let! reproduction_report_digest := SE._digest false reproduction_report_digest in
  let! reproduction_selection_evidence_digest := SE._digest false reproduction_selection_evidence_digest in
  do! raise_if (bool_decide (primary_authority_digest = reproduction_authority_digest)
                || bool_decide (ea_sha256 primary_attempt_ref = ea_sha256 reproduction_attempt_ref)
                || bool_decide (primary_report_digest = reproduction_report_digest)
                || bool_decide (primary_selection_evidence_digest = reproduction_selection_evidence_digest))
        (SE.error "settlement evidence does not contain a reproduction") ;;
  Ok {| ev_candidate_digest := candidate_digest;
        ev_reservation_digest := reservation_digest;
        ev_primary_authority_digest := primary_authority_digest;
        ev_primary_attempt_ref := primary_attempt_ref;
        ev_primary_report_digest := primary_report_digest;
        ev_primary_selection_evidence_digest := primary_selection_evidence_digest;
        ev_reproduction_authority_digest := reproduction_authority_digest;
        ev_reproduction_attempt_ref := reproduction_attempt_ref;
        ev_reproduction_report_digest := reproduction_report_digest;
        ev_reproduction_selection_evidence_digest := reproduction_selection_evidence_digest |}.

Definition SettlementEvidence_to_dict (e : SettlementEvidence) : pyval :=
  py_dict [
    ("candidate_digest", PStr (ev_candidate_digest e));
    ("primary_attempt_ref", EvidenceArtifactRef_to_dict (ev_primary_attempt_ref e));
    ("primary_authority_digest", PStr (ev_primary_authority_digest e));
    ("primary_report_digest", PStr (ev_primary_report_digest e));
    ("primary_selection_evidence_digest", PStr (ev_primary_selection_evidence_digest e));
    ("reproduction_attempt_ref", EvidenceArtifactRef_to_dict (ev_reproduction_attempt_ref e));
    ("reproduction_authority_digest", PStr (ev_reproduction_authority_digest e));
    ("reproduction_report_digest", PStr (ev_reproduction_report_digest e));
    ("reproduction_selection_evidence_digest", PStr (ev_reproduction_selection_evidence_digest e));
    ("reservation_digest", PStr (ev_reservation_digest e))].

Definition SettlementEvidence_from_dict (v : pyval) : result SettlementEvidence :=
  let! row := closed_row ["candidate_digest"; "reservation_digest"; "primary_authority_digest"; "primary_attempt_ref";
                "primary_report_digest"; "primary_selection_evidence_digest"; "reproduction_authority_digest";
                "reproduction_attempt_ref"; "reproduction_report_digest"; "reproduction_selection_evidence_digest"]
                (SE.error "settlement evidence fields do not match") v in
  let! candidate_digest := row_get row "candidate_digest" in
  let! reservation_digest := row_get row "reservation_digest" in
  let! primary_authority_digest := row_get row "primary_authority_digest" in
  let! primary_attempt_ref := artifact_field row "primary_attempt_ref" in
  let! primary_report_digest := row_get row "primary_report_digest" in
  let! primary_selection_evidence_digest := row_get row "primary_selection_evidence_digest" in
  let! reproduction_authority_digest := row_get row "reproduction_authority_digest" in
  let! reproduction_attempt_ref := artifact_field row "reproduction_attempt_ref" in
  let! reproduction_report_digest := row_get row "reproduction_report_digest" in
  let! reproduction_selection_evidence_digest := row_get row "reproduction_selection_evidence_digest" in
  SettlementEvidence_init candidate_digest reservation_digest primary_authority_digest primary_attempt_ref primary_report_digest
    primary_selection_evidence_digest reproduction_authority_digest reproduction_attempt_ref
    reproduction_report_digest reproduction_selection_evidence_digest.

(** ** Events *)

Inductive SettlementEventType := HOLD | CROWN | ADOPTION | RETIREMENT | NEUTRALIZATION | STACK_TRANSITION | DISCOVERY_BOUNTY.

#[global] Instance SettlementEventType_eq_dec : EqDecision SettlementEventType.
Proof. solve_decision. Defined.

Definition SettlementEventType_value (t : SettlementEventType) : string :=
  match t with
  | HOLD => "HOLD"
  | CROWN => "CROWN"
  | ADOPTION => "ADOPTION"
  | RETIREMENT => "RETIREMENT"
  | NEUTRALIZATION => "NEUTRALIZATION"
  | STACK_TRANSITION => "STACK_TRANSITION"
  | DISCOVERY_BOUNTY => "DISCOVERY_BOUNTY"
  end.

(** [SettlementEventType(value)] *)
Definition event_type_of (v : pyval) : result SettlementEventType :=
  match v with
  | PStr s =>
      match List.find (λ t, bool_decide (SettlementEventType_value t = s))
              [HOLD; CROWN; ADOPTION; RETIREMENT; NEUTRALIZATION; STACK_TRANSITION; DISCOVERY_BOUNTY] with
      | Some t => Ok t
      | None => Raise (SE.error "settlement event type is unsupported")
      end
  | _ => Raise (SE.error "settlement event type is unsupported")
  end.

Record SettlementEvent := {
  sv_event_type : SettlementEventType;
  sv_sequence : Z;
  sv_previous_event_digest : string;
  sv_candidate_digest : string;
  sv_subject_digest : string;
  sv_target_id : string;
  sv_from_stack_digest : string;
  sv_from_tree_digest : string;
  sv_to_stack_digest : string;
  sv_to_tree_digest : string;
  sv_reason : string
}.

#[global] Instance SettlementEvent_eq_dec : EqDecision SettlementEvent.
Proof. solve_decision. Defined.

Definition SettlementEvent_init (event_type : SettlementEventType)
    (sequence previous_event_digest candidate_digest subject_digest target_id from_stack_digest from_tree_digest
     to_stack_digest to_tree_digest reason : pyval) : result SettlementEvent :=
  let! sequence := SE._integer sequence in
  let! candidate_digest := SE._digest false candidate_digest in
  let! subject_digest := SE._digest false subject_digest in
  let! from_stack_digest := SE._digest false from_stack_digest in
  let! from_tree_digest := SE._digest false from_tree_digest in
  let! to_stack_digest := SE._digest false to_stack_digest in
  let! to_tree_digest := SE._digest false to_tree_digest in
  let! previous_event_digest := SE._digest true previous_event_digest in
  let! target_id := SE._identifier target_id in
  let! reason := SE._identifier reason in
  Ok {| sv_event_type := event_type;
        sv_sequence := sequence;
        sv_previous_event_digest := previous_event_digest;
        sv_candidate_digest := candidate_digest;
        sv_subject_digest := subject_digest;
        sv_target_id := target_id;
        sv_from_stack_digest := from_stack_digest;
        sv_from_tree_digest := from_tree_digest;
        sv_to_stack_digest := to_stack_digest;
        sv_to_tree_digest := to_tree_digest;
        sv_reason := reason |}.

Definition SettlementEvent_to_dict (e : SettlementEvent) : pyval :=
  py_dict [
    ("candidate_digest", PStr (sv_candidate_digest e));
    ("event_type", PStr (SettlementEventType_value (sv_event_type e)));
    ("from_stack_digest", PStr (sv_from_stack_digest e));
    ("from_tree_digest", PStr (sv_from_tree_digest e));
    ("previous_event_digest", PStr (sv_previous_event_digest e));
    ("reason", PStr (sv_reason e));
    ("sequence", PInt (sv_sequence e));
    ("subject_digest", PStr (sv_subject_digest e));
    ("target_id", PStr (sv_target_id e));
    ("to_stack_digest", PStr (sv_to_stack_digest e));
    ("to_tree_digest", PStr (sv_to_tree_digest e))].

Definition SettlementEvent_from_dict (v : pyval) : result SettlementEvent :=
  let! row := closed_row ["event_type"; "sequence"; "previous_event_digest"; "candidate_digest"; "subject_digest"; "target_id";
                "from_stack_digest"; "from_tree_digest"; "to_stack_digest"; "to_tree_digest"; "reason"]
                (SE.error "settlement event fields do not match") v in
  let! raw_event_type := row_get row "event_type" in
  let! event_type := event_type_of raw_event_type in
  let! sequence := row_get row "sequence" in
  let! previous_event_digest := row_get row "previous_event_digest" in
  let! candidate_digest := row_get row "candidate_digest" in
  let! subject_digest := row_get row "subject_digest" in
  let! target_id := row_get row "target_id" in
  let! from_stack_digest := row_get row "from_stack_digest" in
  let! from_tree_digest := row_get row "from_tree_digest" in
  let! to_stack_digest := row_get row "to_stack_digest" in
  let! to_tree_digest := row_get row "to_tree_digest" in
  let! reason := row_get row "reason" in
  SettlementEvent_init event_type sequence previous_event_digest candidate_digest subject_digest target_id from_stack_digest
    from_tree_digest to_stack_digest to_tree_digest reason.

(** ** Plans *)

Record StackTransitionOutput := {
  st_candidate_digest : string;
  st_before : StackArmIdentity;
  st_after : StackArmIdentity;
  st_manifest : EvaluationStackManifest
}.

Record SettlementPlan := {
  pl_before : StackArmIdentity;
  pl_after : StackArmIdentity;
  pl_winner_candidate_digest : string;
  pl_events : list SettlementEvent;
  pl_transition : option StackTransitionOutput
}.

(** [_Journal] *)
Record Journal := { jn_sequence : Z; jn_previous : string; jn_events : list SettlementEvent }.

(** Tuples compare lexicographically. *)
Definition order_le (a b : Z * Z * Z * string) : Prop :=
  let '(a1, a2, a3, a4) := a in
  let '(b1, b2, b3, b4) := b in
  a1 < b1 ∨ (a1 = b1 ∧ (a2 < b2 ∨ (a2 = b2 ∧ (a3 < b3 ∨ (a3 = b3 ∧ String.le a4 b4))))).

#[global] Instance order_le_dec a b : Decision (order_le a b).
Proof. destruct a as [[[a1 a2] a3] a4], b as [[[b1 b2] b3] b4]. unfold order_le. apply _. Defined.

Definition sc_finalized_order (c : SettlementCandidate) : Z * Z * Z * string := finalized_order (sc_primary c).

Definition candidate_le (a b : SettlementCandidate) : Prop := order_le (sc_finalized_order a) (sc_finalized_order b).

#[global] Instance candidate_le_dec a b : Decision (candidate_le a b).
Proof. unfold candidate_le. apply _. Defined.

(** [sorted(rows, key=lambda row: row.finalized_order)] *)
Definition in_finalized_order (rows : list SettlementCandidate) : list SettlementCandidate := stable_sort candidate_le rows.

(** [-Decimal(row.speedup)] rounds to the default context; the key is kept
    without its sign. *)
Definition speed_key (c : SettlementCandidate) : result (Z * Z) :=
  let v := speed_value (sc_speedup c) in dec_fix DEFAULT_PREC v.1 v.2 round_half_even.

(** [(-ka, oa) < (-kb, ob)], for the keys of two rows. *)
Definition before_key (a b : (Z * Z) * SettlementCandidate) : bool :=
  match dec_compare b.1.1 b.1.2 a.1.1 a.1.2 with
  | Lt => true
  | Gt => false
  | Eq => negb (bool_decide (order_le (sc_finalized_order b.2) (sc_finalized_order a.2)))
  end.

(** [min(rows, key=...)]: the first row that no later row comes before. *)
Definition min_row (best : (Z * Z) * SettlementCandidate) (rows : list ((Z * Z) * SettlementCandidate)) : (Z * Z) * SettlementCandidate :=
  fold_left (λ best row, if before_key row best then row else best) rows best.

Section plans.
Context `{Sha256}.

(** [SettlementEvidence.bind] *)
Definition bind_evidence (candidate : SettlementCandidate) (primary_attempt_ref reproduction_attempt_ref : EvidenceArtifactRef)
    : result SettlementEvidence :=
  let p := sc_primary candidate in
  let r := sc_reproduction candidate in
  do! raise_if (negb (bool_decide (ea_sha256 primary_attempt_ref = sq_qualification_attempt_digest p))
                || negb (bool_decide (ea_sha256 reproduction_attempt_ref = sq_qualification_attempt_digest r)))
        (SE.error "settlement attempt references differ from the candidate") ;;
  SettlementEvidence_init (PStr (SettlementCandidate_digest candidate)) (PStr (sq_reservation_digest p))
    (PStr (sq_qualification_authority_digest p)) primary_attempt_ref (PStr (sq_qualification_report_digest p))
    (PStr (sq_selection_evidence_digest p)) (PStr (sq_qualification_authority_digest r)) reproduction_attempt_ref
    (PStr (sq_qualification_report_digest r)) (PStr (sq_selection_evidence_digest r)).

Definition SettlementEvidence_digest (e : SettlementEvidence) : string :=
  digest_of "optima.settlement.evidence" (SettlementEvidence_to_dict e).

Definition SettlementEvent_digest (e : SettlementEvent) : string :=
  digest_of "optima.settlement.event" (SettlementEvent_to_dict e).

Definition StackTransitionOutput_init (candidate_digest : pyval) (before after : StackArmIdentity)
    (manifest : EvaluationStackManifest) : result StackTransitionOutput :=
  let! candidate_digest := SE._digest false candidate_digest in
  do! raise_if (negb (bool_decide (EvaluationStackManifest_digest manifest = ai_stack_digest after)) || bool_decide (before = after))
        (SE.error "stack transition output is inconsistent") ;;
  Ok {| st_candidate_digest := candidate_digest; st_before := before; st_after := after; st_manifest := manifest |}.

Definition StackTransitionOutput_to_dict (t : StackTransitionOutput) : pyval :=
  py_dict [
    ("after", StackArmIdentity_to_dict (st_after t));
    ("before", StackArmIdentity_to_dict (st_before t));
    ("candidate_digest", PStr (st_candidate_digest t));
    ("manifest", EvaluationStackManifest_to_dict (st_manifest t))].

(** [for prior, current in zip(events, events[1:])] *)
Definition check_contiguous (events : list SettlementEvent) : result unit :=
  forM_ (zip events (drop 1 events)) (λ p,
    raise_if (negb (sv_sequence p.2 =? sv_sequence p.1 + 1)
              || negb (bool_decide (sv_previous_event_digest p.2 = SettlementEvent_digest p.1)))
      (SE.error "settlement event journal is not contiguous")).

Definition SettlementPlan_init (before after : StackArmIdentity) (winner_candidate_digest : pyval)
    (events : list SettlementEvent) (transition : option StackTransitionOutput) : result SettlementPlan :=
  let! winner_candidate_digest := SE._digest true winner_candidate_digest in
  do! check_contiguous events ;;
  do! match transition with
      | None => raise_if (negb (bool_decide (winner_candidate_digest = "")) || negb (bool_decide (before = after)))
                  (SE.error "non-transition settlement plan names a winner")
      | Some t => raise_if (negb (bool_decide (st_candidate_digest t = winner_candidate_digest))
                            || negb (bool_decide (st_before t = before)) || negb (bool_decide (st_after t = after)))
                    (SE.error "settlement transition differs from its plan")
      end ;;
  Ok {| pl_before := before; pl_after := after; pl_winner_candidate_digest := winner_candidate_digest;
        pl_events := events; pl_transition := transition |}.

Definition SettlementPlan_to_dict (p : SettlementPlan) : pyval :=
  py_dict [
    ("after", StackArmIdentity_to_dict (pl_after p));
    ("before", StackArmIdentity_to_dict (pl_before p));
    ("events", PList (SettlementEvent_to_dict <$> pl_events p));
    ("transition", match pl_transition p with None => PNone | Some t => StackTransitionOutput_to_dict t end);
    ("winner_candidate_digest", PStr (pl_winner_candidate_digest p))].

Definition SettlementPlan_digest (p : SettlementPlan) : string := digest_of "optima.settlement.plan" (SettlementPlan_to_dict p).

(** [_Journal.__init__] *)
Definition Journal_init (sequence previous : pyval) : result Journal :=
  let! sequence := SE._integer sequence in
  let! previous := SE._digest true previous in
  Ok {| jn_sequence := sequence; jn_previous := previous; jn_events := [] |}.

(** [_Journal.add] *)
Definition journal_add (event_type : SettlementEventType) (candidate : SettlementCandidate) (subject_digest target_id : string)
    (before after : StackArmIdentity) (reason : string) (j : Journal) : result Journal :=
  let! event := SettlementEvent_init event_type (PInt (jn_sequence j)) (PStr (jn_previous j))
                  (PStr (SettlementCandidate_digest candidate)) (PStr subject_digest) (PStr target_id)
                  (PStr (ai_stack_digest before)) (PStr (ai_tree_digest before))
                  (PStr (ai_stack_digest after)) (PStr (ai_tree_digest after)) (PStr reason) in
  Ok {| jn_sequence := jn_sequence j + 1; jn_previous := SettlementEvent_digest event; jn_events := jn_events j ++ [event] |}.

(** One [HOLD] or [DISCOVERY_BOUNTY] event per row. *)
Definition journal_rows (event_type : SettlementEventType) (reason : SettlementCandidate → string) (before : StackArmIdentity)
    (rows : list SettlementCandidate) (j : Journal) : result Journal :=
  foldM (λ j row, journal_add event_type row (sq_selected_delta_digest (sc_primary row)) (sq_target_id (sc_primary row))
                    before before (reason row) j) rows j.

(** ["conflict_lost" if set(row.members) & set(winner.members) else "incumbent_advanced"] *)
Definition lost_reason (winner row : SettlementCandidate) : string :=
  if bool_decide ((list_to_set (sq_members (sc_primary row)) : gset string) ∩ list_to_set (sq_members (sc_primary winner)) = ∅)
  then "incumbent_advanced" else "conflict_lost".

(** The winner's own events, from [CROWN] to [STACK_TRANSITION]. *)
Definition journal_winner (winner : SettlementCandidate) (manifest current_manifest : EvaluationStackManifest)
    (before after : StackArmIdentity) (j : Journal) : result Journal :=
  let target_id := sq_target_id (sc_primary winner) in
  let! replacement := match assoc (es_entries manifest) target_id with
                      | Some r => Ok r
                      | None => Raise (Exn KeyError target_id)
                      end in
  let! j := journal_add CROWN winner (ref_digest replacement) target_id before before "qualified_win" j in
  let! j := match assoc (es_entries current_manifest) target_id with
            | Some prior => journal_add RETIREMENT winner (ref_digest prior) (ref_target_id prior) before before "superseded" j
            | None => Ok j
            end in
  let! j := foldM (λ j e, if negb (bool_decide (e.1 = target_id)) && negb (bool_decide (e.1 ∈ (es_entries manifest).*1))
                          then journal_add NEUTRALIZATION winner (ref_digest e.2) e.1 before before "displaced" j
                          else Ok j) (sorted_by fst (es_entries current_manifest)) j in
  let! j := journal_add ADOPTION winner (ref_digest replacement) target_id before after "adopted" j in
  journal_add STACK_TRANSITION winner (sq_candidate_stack_digest (sc_primary winner)) target_id before after "incumbent_updated" j.

(** [plan_settlement].  The digests of the candidates have been checked to be
    distinct, so [item is not winner] is that their digests differ. *)
Definition plan_settlement (candidates : list SettlementCandidate) (current_manifest : EvaluationStackManifest)
    (current_tree_digest initial_event_sequence previous_event_digest : pyval) : result SettlementPlan :=
  let! before := StackArmIdentity_init (PStr (EvaluationStackManifest_digest current_manifest)) current_tree_digest in
  do! raise_if (negb (bool_decide (NoDup (SettlementCandidate_digest <$> candidates)))
                || negb (bool_decide (NoDup ((λ row, sq_reservation_digest (sc_primary row)) <$> candidates))))
        (SE.error "settlement candidates contain duplicates") ;;
  let! journal := Journal_init initial_event_sequence previous_event_digest in
  let! tagged := mapM (λ row, let! arm := sq_incumbent (sc_primary row) in Ok (row, bool_decide (arm = before))) candidates in
  let current := (List.filter snd tagged).*1 in
  let stale := in_finalized_order (List.filter (λ r, negb r.2) tagged).*1 in
  let! journal := journal_rows HOLD (λ _, "stale_incumbent") before stale journal in
  let discoveries := in_finalized_order (filter (λ row, sq_lane (sc_primary row) = "discovery") current) in
  let! journal := journal_rows DISCOVERY_BOUNTY (λ _, "qualified_discovery") before discoveries journal in
  let registered := filter (λ row, sq_lane (sc_primary row) = "registered") current in
  let! keyed := mapM (λ row, let! key := speed_key row in Ok (key, row)) registered in
  match keyed with
  | [] => SettlementPlan_init before before (PStr "") (jn_events journal) None
  | first :: rest =>
      let winner := (min_row first rest).2 in
      let! after := sq_challenger (sc_primary winner) in
      let losers := in_finalized_order
        (filter (λ row, SettlementCandidate_digest row ≠ SettlementCandidate_digest winner) registered) in
      let! journal := journal_rows HOLD (lost_reason winner) before losers journal in
      match sq_candidate_manifest (sc_primary winner) with
      | None => Raise (Exn AssertionError "")
      | Some manifest =>
          let! journal := journal_winner winner manifest current_manifest before after journal in
          let! transition := StackTransitionOutput_init (PStr (SettlementCandidate_digest winner)) before after manifest in
          SettlementPlan_init before after (PStr (SettlementCandidate_digest winner)) (jn_events journal) (Some transition)
      end
  end.
End plans.

#[global] Arguments order_le : simpl never.
#[global] Arguments SettlementCandidate_digest : simpl never.
#[global] Arguments SettlementEvent_digest : simpl never.
#[global] Arguments SettlementPlan_digest : simpl never.
#[global] Arguments SettlementEvidence_digest : simpl never.
