(* ===== verification/SettlementFacts.v ===== *)
(** * What the constructors of settlement.py accept

    The validators, qualifications and candidates, and the event journal as a
    pure function of a list of drafts. *)

From Stdlib Require Import ZArith Lia Ascii.
From stdpp Require Import base tactics numbers list strings gmap sorting.
From S2P Require Import Prelude PyValue Sha256 Identity Strict IdentityCorrect Provider Decimal Stack Release StackFacts.
From S2P Require Import ReleaseCorrect StackPlan StackPlanCorrect Settlement SettlementPlan.

#[local] Arguments assoc : simpl never.

Lemma se_digest_Ok v s : SE._digest false v = Ok s ↔ v = PStr s ∧ digest_ok s.
Proof. apply require_digest_Ok. Qed.

(** A digest, or the empty text where it is optional. *)
Lemma se_digest_optional_Ok v s : SE._digest true v = Ok s ↔ v = PStr s ∧ (s = "" ∨ digest_ok s).
Proof.
  unfold SE._digest. destruct (py_eq_str v "") eqn:Ev.
  - destruct v; try done. apply bool_decide_eq_true in Ev as ->. unfold require_digest. cbn. split; [intros [= <-]; auto | by intros [[= <-] _]].
  - assert (require_digest SettlementError false true v = require_digest SettlementError false false v) as ->
      by (unfold require_digest; by rewrite Ev).
    rewrite require_digest_Ok. split; [tauto|]. intros [-> [->|?]]; [done | tauto].
Qed.

Lemma se_identifier_Ok v s : SE._identifier v = Ok s ↔ v = PStr s ∧ SE.id_matches s = true.
Proof.
  unfold SE._identifier, require_identifier. split.
  - destruct v as [| | | |t| | | |]; try done. destruct (SE.id_matches t) eqn:E; [|done]. by intros [= ->].
  - by intros [-> ->].
Qed.

Lemma se_integer_Ok v z : SE._integer v = Ok z ↔ v = PInt z ∧ 0 ≤ z.
Proof. unfold SE._integer. rewrite require_int_Ok. naive_solver. Qed.

Lemma lane_of_Ok v s : lane_of v = Ok s ↔ v = PStr s ∧ s ∈ _LANES.
Proof.
  unfold lane_of, py_in_strs. split.
  - destruct v; cbn [hashable bind]; try done; try (by destruct (forallb hashable _)).
    case_bool_decide; [|done]. by intros [= ->].
  - intros [-> Hs]. cbn [hashable bind]. by rewrite bool_decide_eq_true_2.
Qed.

Lemma speedup_Ok v s : _speedup v = Ok s → v = PStr s.
Proof.
  unfold _speedup. destruct v as [| | | |t| | | |]; try done. destruct (read_decimal t) as [[neg c e| |]|]; try done.
  intros Hi. apply bind_Ok in Hi as (? & _ & Hi). apply bind_Ok in Hi as (n & _ & Hi). apply bind_Ok in Hi as (? & He%raise_if_Ok & [= <-]).
  bool_prop. by subst.
Qed.

Lemma members_of_Ok l k : members_of l = Ok k → k = l ∧ l ≠ [] ∧ l = sorted_set (list_to_set l) ∧ Forall (λ m, SE.id_matches m = true) l.
Proof.
  unfold members_of. intros Hi. apply bind_Ok in Hi as (? & Hc%raise_if_Ok & Hi). bool_prop.
  assert (Forall2 (λ m m', SE._identifier (PStr m) = Ok m') l k) as Hf by by apply mapM_Ok. split_and!; try done.
  - clear -Hf. induction Hf as [|m m' l k Hm _ IH]; [done|]. apply se_identifier_Ok in Hm as [[= ->] _]. by rewrite IH.
  - by destruct l.
  - clear -Hf. induction Hf as [|m m' l k Hm _ IH]; constructor; [|done]. apply se_identifier_Ok in Hm as [[= ->] ?]. done.
Qed.

(** ** Decimal comparison *)

Lemma dec_compare_at E c1 e1 c2 e2 :
  E ≤ e1 → E ≤ e2 → dec_compare c1 e1 c2 e2 = (c1 * 10 ^ (e1 - E) ?= c2 * 10 ^ (e2 - E)).
Proof.
  intros H1 H2. unfold dec_compare. set (m := Z.min e1 e2).
  replace (e1 - E) with ((e1 - m) + (m - E)) by lia. replace (e2 - E) with ((e2 - m) + (m - E)) by lia.
  rewrite !Z.pow_add_r by lia. rewrite !Z.mul_assoc. apply Zmult_compare_compat_r. apply Z.lt_gt. apply Z.pow_pos_nonneg; lia.
Qed.

Lemma dec_compare_refl c e : dec_compare c e c e = Eq.
Proof. unfold dec_compare. apply Z.compare_refl. Qed.

Lemma dec_compare_antisym c1 e1 c2 e2 : dec_compare c2 e2 c1 e1 = CompOpp (dec_compare c1 e1 c2 e2).
Proof. unfold dec_compare. rewrite (Z.min_comm e2 e1). apply Z.compare_antisym. Qed.

(** ** The order of the rows *)

Lemma order_le_refl a : order_le a a.
Proof. destruct a as [[[a1 a2] a3] a4]. unfold order_le. repeat (right; split; [done|]). done. Qed.

#[global] Instance order_le_total : Total order_le.
Proof.
  intros [[[a1 a2] a3] a4] [[[b1 b2] b3] b4]. unfold order_le. destruct (total String.le a4 b4);
  destruct (Z.lt_trichotomy a1 b1) as [|[|]], (Z.lt_trichotomy a2 b2) as [|[|]], (Z.lt_trichotomy a3 b3) as [|[|]]; subst; tauto.
Qed.

#[global] Instance order_le_trans : Transitive order_le.
Proof.
  intros [[[a1 a2] a3] a4] [[[b1 b2] b3] b4] [[[c1 c2] c3] c4]. unfold order_le. intros H1 H2.
  destruct H1 as [|[-> [|[-> [|[-> ?]]]]]], H2 as [|[-> [|[-> [|[-> ?]]]]]]; try (left; lia); right; split; try lia;
    try (left; lia); right; split; try lia; try (left; lia); right; split; try lia. by etrans.
Qed.

#[global] Instance order_le_antisym : AntiSymm (=) order_le.
Proof.
  intros [[[a1 a2] a3] a4] [[[b1 b2] b3] b4]. unfold order_le. intros H1 H2.
  destruct H1 as [|[-> [|[-> [|[-> ?]]]]]], H2 as [|[? [|[? [|[? ?]]]]]]; try lia.
  f_equal. by apply (anti_symm String.le).
Qed.

#[global] Instance candidate_le_total : Total candidate_le.
Proof. intros a b. apply (total order_le). Qed.
#[global] Instance candidate_le_trans : Transitive candidate_le.
Proof. intros a b d. apply (transitivity (R := order_le)). Qed.

Definition reservation (c : SettlementCandidate) : string := sq_reservation_digest (sc_primary c).

Lemma same_order_same_row rows a b :
  NoDup (reservation <$> rows) → a ∈ rows → b ∈ rows → sc_finalized_order a = sc_finalized_order b → a = b.
Proof. intros Hnd Ha Hb He. eapply (NoDup_fmap_inj_elem reservation); [done..|]. unfold reservation. by injection He. Qed.

(** Rows of distinct reservations are ordered in one way only. *)
Lemma in_finalized_order_perm rows rows' :
  NoDup (reservation <$> rows) → rows ≡ₚ rows' → in_finalized_order rows = in_finalized_order rows'.
Proof.
  intros Hnd Hp. unfold in_finalized_order. eapply StronglySorted_unique_strong; [|apply (stable_sort_sorted _)..|].
  - intros a b Ha Hb H1 H2. rewrite stable_sort_perm in Ha, Hb. rewrite <- Hp in Hb. eapply same_order_same_row; [done..|].
    by apply (anti_symm order_le).
  - by rewrite !stable_sort_perm.
Qed.

(** [min]: the row that comes before every other one. *)
Abbreviation keyed := ((Z * Z) * SettlementCandidate)%type.

(** [x] comes no later than [y]. *)
Definition key_before (x y : keyed) : Prop :=
  match dec_compare y.1.1 y.1.2 x.1.1 x.1.2 with
  | Lt => True
  | Gt => False
  | Eq => order_le (sc_finalized_order x.2) (sc_finalized_order y.2)
  end.

Lemma before_key_false x y : before_key y x = false ↔ key_before x y.
Proof.
  unfold before_key, key_before. rewrite (dec_compare_antisym y.1.1). destruct (dec_compare y.1.1 _ _ _); cbn; [|naive_solver..].
  rewrite negb_false_iff, bool_decide_eq_true. done.
Qed.

#[global] Instance key_before_total : Total key_before.
Proof.
  intros x y. unfold key_before. rewrite (dec_compare_antisym x.1.1 x.1.2 y.1.1 y.1.2).
  destruct (dec_compare x.1.1 _ _ _); cbn; [apply (total order_le)|by right|by left].
Qed.

#[global] Instance key_before_trans : Transitive key_before.
Proof.
  intros [[c1 e1] r1] [[c2 e2] r2] [[c3 e3] r3]. unfold key_before. cbn [fst snd].
  set (E := Z.min e1 (Z.min e2 e3)). rewrite !(dec_compare_at E) by lia.
  destruct (Z.compare_spec (c2 * 10 ^ (e2 - E)) (c1 * 10 ^ (e1 - E))); [| |done];
  destruct (Z.compare_spec (c3 * 10 ^ (e3 - E)) (c2 * 10 ^ (e2 - E))); try done;
  destruct (Z.compare_spec (c3 * 10 ^ (e3 - E)) (c1 * 10 ^ (e1 - E))); try done; try lia.
  intros ? ?. by etrans.
Qed.

Lemma min_row_spec x l : min_row x l ∈ x :: l ∧ ∀ y, y ∈ x :: l → key_before (min_row x l) y.
Proof.
  unfold min_row. revert x. induction l as [|z l IH]; intros x; cbn [fold_left].
  { split; [left|]. intros y ->%list_elem_of_singleton. by destruct (total key_before x x). }
  destruct (before_key z x) eqn:Hb.
  - destruct (IH z) as [Hin Hall]. split; [by right|]. intros y [->|Hy]%elem_of_cons; [|by apply Hall].
    transitivity z; [apply Hall; left|]. destruct (total key_before z x) as [|Hn]; [done|]. apply before_key_false in Hn. congruence.
  - destruct (IH x) as [Hin Hall]. split; [apply elem_of_cons in Hin as [->|?]; [left | by do 2 right]|].
    intros y [->|[->|Hy]%elem_of_cons]%elem_of_cons; [apply Hall; left| |apply Hall; by right].
    transitivity x; [apply Hall; left | by apply before_key_false].
Qed.

(** Over rows of distinct reservations the minimum does not depend on their order. *)
Lemma min_row_unique (rows : list keyed) x y :
  NoDup (reservation <$> rows.*2) → x ∈ rows → y ∈ rows →
  (∀ z, z ∈ rows → key_before x z) → (∀ z, z ∈ rows → key_before y z) → x = y.
Proof.
  intros Hnd Hx Hy Hxm Hym. specialize (Hxm y Hy). specialize (Hym x Hx). unfold key_before in *.
  rewrite (dec_compare_antisym y.1.1 y.1.2) in Hym. destruct (dec_compare y.1.1 _ _ _); cbn in *; try done.
  assert (x.2 = y.2) as He.
  { eapply (same_order_same_row rows.*2); [done|by apply list_elem_of_fmap_2..|]. by apply (anti_symm order_le). }
  rewrite <- list_fmap_compose in Hnd. eapply (NoDup_fmap_inj_elem (reservation ∘ snd)); [done..|]. cbn. by rewrite He.
Qed.

(** ** The journal *)

(** One event before it is numbered and chained. *)
Record draft := {
  dr_type : SettlementEventType;
  dr_candidate : SettlementCandidate;
  dr_subject : string;
  dr_target : string;
  dr_after : StackArmIdentity;
  dr_reason : string
}.

Section journal.
Context `{Sha256} (before : StackArmIdentity).

Definition add_draft (j : Journal) (d : draft) : result Journal :=
  journal_add (dr_type d) (dr_candidate d) (dr_subject d) (dr_target d) before (dr_after d) (dr_reason d) j.

Definition write_event (sequence : Z) (previous : string) (d : draft) : SettlementEvent :=
  {| sv_event_type := dr_type d; sv_sequence := sequence; sv_previous_event_digest := previous;
     sv_candidate_digest := SettlementCandidate_digest (dr_candidate d); sv_subject_digest := dr_subject d; sv_target_id := dr_target d;
     sv_from_stack_digest := ai_stack_digest before; sv_from_tree_digest := ai_tree_digest before;
     sv_to_stack_digest := ai_stack_digest (dr_after d); sv_to_tree_digest := ai_tree_digest (dr_after d); sv_reason := dr_reason d |}.

(** The events of a list of drafts, numbered from [sequence] and chained from [previous]. *)
Fixpoint write (sequence : Z) (previous : string) (drafts : list draft) : list SettlementEvent :=
  match drafts with
  | [] => []
  | d :: drafts => write_event sequence previous d :: write (sequence + 1) (SettlementEvent_digest (write_event sequence previous d)) drafts
  end.

Fixpoint last_digest (previous : string) (events : list SettlementEvent) : string :=
  match events with [] => previous | e :: events => last_digest (SettlementEvent_digest e) events end.

(** What the event constructor checks of a draft. *)
Definition draft_ok (d : draft) : Prop :=
  digest_ok (SettlementCandidate_digest (dr_candidate d)) ∧ digest_ok (dr_subject d) ∧
  SE.id_matches (dr_target d) = true ∧ digest_ok (ai_stack_digest (dr_after d)) ∧ digest_ok (ai_tree_digest (dr_after d)) ∧
  SE.id_matches (dr_reason d) = true.

Definition before_ok : Prop := digest_ok (ai_stack_digest before) ∧ digest_ok (ai_tree_digest before).

Lemma event_dict_canonical e : is_canonical (SettlementEvent_to_dict e) = true.
Proof. done. Qed.

Lemma add_draft_Ok j d j' :
  before_ok → 0 ≤ jn_sequence j →
  add_draft j d = Ok j' ↔
  draft_ok d ∧ (jn_previous j = "" ∨ digest_ok (jn_previous j)) ∧
  j' = {| jn_sequence := jn_sequence j + 1; jn_previous := SettlementEvent_digest (write_event (jn_sequence j) (jn_previous j) d);
          jn_events := jn_events j ++ [write_event (jn_sequence j) (jn_previous j) d] |}.
Proof.
  intros [Hb1 Hb2] Hseq. unfold add_draft, journal_add, SettlementEvent_init, draft_ok. split.
  - intros Hi. apply bind_Ok in Hi as (ev & He & Hi). apply bind_Ok in He as (z & [[= <-] _]%se_integer_Ok & He).
    do 6 (let Hd := fresh "Hd" in apply bind_Ok in He as (? & [[= <-] Hd]%se_digest_Ok & He)).
    apply bind_Ok in He as (pv & [[= <-] Hp]%se_digest_optional_Ok & He).
    do 2 (let Hd := fresh "Hd" in apply bind_Ok in He as (? & [[= <-] Hd]%se_identifier_Ok & He)).
    injection He as <-. injection Hi as <-. done.
  - intros ((H1 & H2 & H3 & H4 & H5 & H6) & Hp & ->). eapply bind_step; [|reflexivity].
    eapply bind_step; [by apply se_integer_Ok|]. do 6 (eapply bind_step; [by apply se_digest_Ok|]).
    eapply bind_step; [by apply se_digest_optional_Ok|]. do 2 (eapply bind_step; [by apply se_identifier_Ok|]). done.
Qed.

(** The event digests that have to be digests the next event accepts. *)
Fixpoint chain_ok (sequence : Z) (previous : string) (drafts : list draft) : Prop :=
  match drafts with
  | [] => True
  | d :: drafts => (previous = "" ∨ digest_ok previous) ∧ draft_ok d ∧
      chain_ok (sequence + 1) (SettlementEvent_digest (write_event sequence previous d)) drafts
  end.

Lemma add_drafts_Ok drafts j j' :
  before_ok → 0 ≤ jn_sequence j →
  foldM add_draft drafts j = Ok j' ↔
  chain_ok (jn_sequence j) (jn_previous j) drafts ∧
  j' = {| jn_sequence := jn_sequence j + Z.of_nat (length drafts);
          jn_previous := last_digest (jn_previous j) (write (jn_sequence j) (jn_previous j) drafts);
          jn_events := jn_events j ++ write (jn_sequence j) (jn_previous j) drafts |}.
Proof.
  intros Hb. revert j. induction drafts as [|d drafts IH]; intros j Hseq.
  { cbn. rewrite app_nil_r, Z.add_0_r. destruct j. cbn. split; [by intros [= <-] | by intros [_ ->]]. }
  rewrite foldM_cons, bind_Ok. split.
  - intros (j1 & Hj & Hf). apply add_draft_Ok in Hj as (Hd & Hp & ->); [|done..]. apply IH in Hf as [Hc ->]; [|cbn; lia].
    cbn [chain_ok jn_sequence jn_previous] in *. split; [done|]. cbn [write last_digest jn_events length]. rewrite <- app_assoc. f_equal; lia.
  - intros [(Hp & Hd & Hc) ->]. eexists. split; [by apply add_draft_Ok|].
    apply IH; [cbn; lia|]. cbn [jn_sequence jn_previous jn_events]. split; [done|].
    cbn [write last_digest length]. rewrite <- app_assoc. f_equal; lia.
Qed.

Lemma write_contiguous sequence previous drafts : check_contiguous (write sequence previous drafts) = Ok tt.
Proof.
  unfold check_contiguous. apply forM_Ok. revert sequence previous. induction drafts as [|d drafts IH]; intros sequence previous; [constructor|].
  cbn [write drop]. destruct drafts as [|d' drafts]; [constructor|]. specialize (IH (sequence + 1) (SettlementEvent_digest (write_event sequence previous d))).
  cbn [write drop zip zip_with] in *. constructor; [|exact IH]. cbn. rewrite Z.eqb_refl, bool_decide_eq_true_2 by done. done.
Qed.

Lemma foldM_app {A B} (f : A → B → result A) l k acc : foldM f (l ++ k) acc = bind (foldM f l acc) (foldM f k).
Proof.
  revert acc. induction l as [|x l IH]; intros acc; [done|]. cbn [app]. rewrite !foldM_cons.
  destruct (f acc x); cbn [bind]; [apply IH | done].
Qed.

Lemma foldM_ext {A B} (f g : A → B → result A) l acc : (∀ a x, x ∈ l → f a x = g a x) → foldM f l acc = foldM g l acc.
Proof.
  revert acc. induction l as [|x l IH]; intros acc Hf; [done|]. rewrite !foldM_cons, Hf by left. apply bind_cong; [done|].
  intros a _. apply IH. intros a' y Hy. apply Hf. by right.
Qed.

Lemma foldM_fmap {A B C} (f : A → C → result A) (g : B → C) l acc : foldM f (g <$> l) acc = foldM (λ a x, f a (g x)) l acc.
Proof. revert acc. induction l as [|x l IH]; intros acc; [done|]. rewrite fmap_cons, !foldM_cons. apply bind_cong; [done|]. intros. apply IH. Qed.
End journal.

Lemma bind_ret {A} (m : result A) : bind m Ok = m.
Proof. by destruct m. Qed.

Lemma bind_assoc {A B C} (m : result A) (f : A → result B) (g : B → result C) :
  bind (bind m f) g = bind m (λ x, bind (f x) g).
Proof. by destruct m. Qed.

Lemma foldM_one {A B} (f : A → B → result A) x acc : foldM f [x] acc = f acc x.
Proof. rewrite foldM_cons. apply bind_ret. Qed.

Lemma foldM_filter {A B} (f : A → B → result A) (b : B → bool) (P : B → Prop) `{∀ x, Decision (P x)} l acc :
  (∀ x, b x = true ↔ P x) → foldM (λ a x, if b x then f a x else Ok a) l acc = foldM f (filter P l) acc.
Proof.
  intros Hb. revert acc. induction l as [|x l IH]; intros acc; [done|]. rewrite foldM_cons, filter_cons.
  destruct (b x) eqn:E; [rewrite decide_True by (by apply Hb); rewrite foldM_cons; apply bind_cong; [done|]; intros; apply IH|].
  rewrite decide_False; [apply IH|]. rewrite <- Hb. congruence.
Qed.

(** ** The plan *)

Section plan.
Context `{Sha256}.

(** The identity [row.incumbent] and [row.challenger] build. *)
Definition row_arm (c : SettlementCandidate) : StackArmIdentity :=
  {| ai_stack_digest := sq_incumbent_stack_digest (sc_primary c); ai_tree_digest := sq_incumbent_tree_digest (sc_primary c) |}.

Definition row_challenger (c : SettlementCandidate) : StackArmIdentity :=
  {| ai_stack_digest := sq_candidate_stack_digest (sc_primary c); ai_tree_digest := sq_candidate_tree_digest (sc_primary c) |}.

Definition row_draft (type : SettlementEventType) (reason : SettlementCandidate → string) (before : StackArmIdentity)
    (row : SettlementCandidate) : draft :=
  {| dr_type := type; dr_candidate := row; dr_subject := sq_selected_delta_digest (sc_primary row);
     dr_target := sq_target_id (sc_primary row); dr_after := before; dr_reason := reason row |}.

Definition stale_rows (before : StackArmIdentity) (rows : list SettlementCandidate) : list SettlementCandidate :=
  filter (λ row, row_arm row ≠ before) rows.

(** The candidates of one lane over the current incumbent. *)
Definition lane_rows (lane : string) (before : StackArmIdentity) (rows : list SettlementCandidate) : list SettlementCandidate :=
  filter (λ row, sq_lane (sc_primary row) = lane) (filter (λ row, row_arm row = before) rows).

(** The events that do not depend on a winner. *)
Definition opening (before : StackArmIdentity) (rows : list SettlementCandidate) : list draft :=
  (row_draft HOLD (λ _, "stale_incumbent") before <$> in_finalized_order (stale_rows before rows))
  ++ (row_draft DISCOVERY_BOUNTY (λ _, "qualified_discovery") before <$> in_finalized_order (lane_rows "discovery" before rows)).

Definition loser_drafts (before : StackArmIdentity) (rows : list SettlementCandidate) (winner : SettlementCandidate) : list draft :=
  row_draft HOLD (lost_reason winner) before <$> in_finalized_order
    (filter (λ row, SettlementCandidate_digest row ≠ SettlementCandidate_digest winner) (lane_rows "registered" before rows)).

(** The incumbent's entries, other than the winner's target, that the winner's
    manifest does not have. *)
Definition neutralized (winner : SettlementCandidate) (manifest current : EvaluationStackManifest) : list (string * ContributionRef) :=
  filter (λ e, e.1 ≠ sq_target_id (sc_primary winner) ∧ e.1 ∉ (es_entries manifest).*1) (sorted_by fst (es_entries current)).

Definition winner_draft (winner : SettlementCandidate) (type : SettlementEventType) (subject target : string)
    (after : StackArmIdentity) (reason : string) : draft :=
  {| dr_type := type; dr_candidate := winner; dr_subject := subject; dr_target := target; dr_after := after; dr_reason := reason |}.

Definition winner_drafts (before : StackArmIdentity) (winner : SettlementCandidate) (manifest current : EvaluationStackManifest)
    (replacement : ContributionRef) : list draft :=
  let target := sq_target_id (sc_primary winner) in
  [winner_draft winner CROWN (ref_digest replacement) target before "qualified_win"]
  ++ match assoc (es_entries current) target with
     | Some prior => [winner_draft winner RETIREMENT (ref_digest prior) (ref_target_id prior) before "superseded"]
     | None => []
     end
  ++ ((λ e, winner_draft winner NEUTRALIZATION (ref_digest e.2) e.1 before "displaced") <$> neutralized winner manifest current)
  ++ [winner_draft winner ADOPTION (ref_digest replacement) target (row_challenger winner) "adopted";
      winner_draft winner STACK_TRANSITION (sq_candidate_stack_digest (sc_primary winner)) target (row_challenger winner) "incumbent_updated"].

Lemma journal_rows_drafts type reason before rows j :
  journal_rows type reason before rows j = foldM (add_draft before) (row_draft type reason before <$> rows) j.
Proof. unfold journal_rows. by rewrite foldM_fmap. Qed.

Lemma journal_winner_drafts before winner manifest current replacement j :
  assoc (es_entries manifest) (sq_target_id (sc_primary winner)) = Some replacement →
  journal_winner winner manifest current before (row_challenger winner) j =
  foldM (add_draft before) (winner_drafts before winner manifest current replacement) j.
Proof.
  intros Ha. unfold journal_winner, winner_drafts. rewrite Ha. cbn [bind]. rewrite foldM_app, foldM_one. apply bind_cong; [done|]. intros j1 _.
  rewrite foldM_app. apply bind_cong; [by destruct (assoc (es_entries current) _); rewrite ?foldM_one|]. intros j2 _.
  rewrite foldM_app, foldM_fmap. apply bind_cong.
  - apply (foldM_filter (λ a e, journal_add NEUTRALIZATION winner (ref_digest e.2) e.1 before before "displaced" a)).
    intros e. rewrite andb_true_iff, !negb_true_iff, !bool_decide_eq_false. done.
  - intros j3 _. rewrite foldM_cons. apply bind_cong; [done|]. intros j4 _. by rewrite foldM_one.
Qed.

Lemma tagged_rows before rows :
  Forall (λ row, sq_incumbent (sc_primary row) = Ok (row_arm row)) rows →
  mapM (λ row, let! arm := sq_incumbent (sc_primary row) in Ok (row, bool_decide (arm = before))) rows =
    Ok ((λ row, (row, bool_decide (row_arm row = before))) <$> rows).
Proof. intros Hr. apply mapM_fmap. intros row Hin. rewrite Forall_forall in Hr. by rewrite Hr. Qed.

Lemma tagged_filter (b : SettlementCandidate → bool) (f : SettlementCandidate * bool → bool) (P : SettlementCandidate → Prop) `{∀ x, Decision (P x)} rows :
  (∀ row, f (row, b row) = true ↔ P row) → (List.filter f ((λ row, (row, b row)) <$> rows)).*1 = filter P rows.
Proof.
  intros Hf. induction rows as [|row rows IH]; [done|]. rewrite fmap_cons, filter_cons. cbn [List.filter].
  destruct (f (row, b row)) eqn:E; [rewrite decide_True by (by apply Hf); cbn [fmap list_fmap]; by rewrite IH|].
  rewrite decide_False; [apply IH|]. rewrite <- Hf. congruence.
Qed.

(** What the constructors have established of a candidate's primary. *)
Record row_ok (row : SettlementCandidate) : Prop := {
  rk_incumbent : digest_ok (sq_incumbent_stack_digest (sc_primary row)) ∧ digest_ok (sq_incumbent_tree_digest (sc_primary row));
  rk_candidate : digest_ok (sq_candidate_stack_digest (sc_primary row)) ∧ digest_ok (sq_candidate_tree_digest (sc_primary row));
  rk_changes : sq_incumbent_stack_digest (sc_primary row) ≠ sq_candidate_stack_digest (sc_primary row);
  rk_registered : sq_lane (sc_primary row) = "registered" →
    ∃ manifest replacement, sq_candidate_manifest (sc_primary row) = Some manifest ∧
      EvaluationStackManifest_digest manifest = sq_candidate_stack_digest (sc_primary row) ∧
      assoc (es_entries manifest) (sq_target_id (sc_primary row)) = Some replacement
}.

(** The registered row that comes before all others. *)
Definition is_winner (registered : list SettlementCandidate) (w : SettlementCandidate) : Prop :=
  w ∈ registered ∧ ∃ kw, speed_key w = Ok kw ∧ ∀ r, r ∈ registered → ∃ k, speed_key r = Ok k ∧ key_before (kw, w) (k, r).

Lemma keyed_rows rows kd :
  mapM (λ row, let! key := speed_key row in Ok (key, row)) rows = Ok kd ↔
  kd.*2 = rows ∧ Forall (λ x : keyed, speed_key x.2 = Ok x.1) kd.
Proof.
  rewrite mapM_Ok. split.
  - induction 1 as [|row x rows kd Hx _ [IH1 IH2]]; [done|]. apply bind_Ok in Hx as (k & Hk & [= <-]).
    split; [by rewrite fmap_cons, IH1 | by constructor].
  - intros [<- Hf]. induction Hf as [|[k row] kd Hk Hf IH]; [constructor|]. rewrite fmap_cons. constructor; [cbn in *; by rewrite Hk | done].
Qed.

Lemma winner_found first rest :
  Forall (λ x : keyed, speed_key x.2 = Ok x.1) (first :: rest) → is_winner (first :: rest).*2 (min_row first rest).2.
Proof.
  intros Hf. destruct (min_row_spec first rest) as [Hin Hall]. rewrite Forall_forall in Hf.
  split; [by apply list_elem_of_fmap_2|]. exists (min_row first rest).1. split; [by apply Hf|].
  intros r ([k r'] & -> & Hr)%list_elem_of_fmap. exists k. split; [apply (Hf _ Hr)|]. apply Hall in Hr. by destruct (min_row first rest).
Qed.

Lemma winner_unique rows w w' : NoDup (reservation <$> rows) → is_winner rows w → is_winner rows w' → w = w'.
Proof.
  intros Hnd (Hw & kw & Hkw & Hall) (Hw' & kw' & Hkw' & Hall'). destruct (Hall _ Hw') as (k1 & Hk1 & H1). destruct (Hall' _ Hw) as (k2 & Hk2 & H2).
  rewrite Hkw' in Hk1. injection Hk1 as <-. rewrite Hkw in Hk2. injection Hk2 as <-. unfold key_before in *. cbn in *.
  rewrite (dec_compare_antisym kw'.1 kw'.2) in H2. destruct (dec_compare kw'.1 _ _ _); cbn in *; try done.
  eapply same_order_same_row; [done..|]. by apply (anti_symm order_le).
Qed.

Lemma winner_exists rows w :
  is_winner rows w → ∃ first rest, mapM (λ row, let! key := speed_key row in Ok (key, row)) rows = Ok (first :: rest).
Proof.
  intros (Hw & kw & _ & Hall). assert (∃ kd, mapM (λ row, let! key := speed_key row in Ok (key, row)) rows = Ok kd) as [kd Hkd].
  { apply is_ok_true. rewrite is_ok_mapM. apply forallb_forall. intros r Hr%list_elem_of_In. by destruct (Hall r Hr) as (k & -> & _). }
  destruct kd as [|first rest]; [|by exists first, rest]. apply keyed_rows in Hkd as [<- _]. by apply elem_of_nil in Hw.
Qed.

(** The arm the plan starts from. *)
Definition start (m : EvaluationStackManifest) (tree : string) : StackArmIdentity :=
  {| ai_stack_digest := EvaluationStackManifest_digest m; ai_tree_digest := tree |}.

(** The checks on the arguments. *)
Definition inputs_ok (rows : list SettlementCandidate) (m : EvaluationStackManifest) (tree : string) (sequence : Z) (previous : string) : Prop :=
  before_ok (start m tree) ∧ NoDup (SettlementCandidate_digest <$> rows) ∧ NoDup (reservation <$> rows) ∧
  0 ≤ sequence ∧ (previous = "" ∨ digest_ok previous).

Definition idle_plan (before : StackArmIdentity) (sequence : Z) (previous : string) (drafts : list draft) : SettlementPlan :=
  {| pl_before := before; pl_after := before; pl_winner_candidate_digest := ""; pl_events := write before sequence previous drafts;
     pl_transition := None |}.

Definition won_plan (before : StackArmIdentity) (sequence : Z) (previous : string) (drafts : list draft) (winner : SettlementCandidate)
    (manifest : EvaluationStackManifest) : SettlementPlan :=
  {| pl_before := before; pl_after := row_challenger winner; pl_winner_candidate_digest := SettlementCandidate_digest winner;
     pl_events := write before sequence previous drafts;
     pl_transition := Some {| st_candidate_digest := SettlementCandidate_digest winner; st_before := before;
                              st_after := row_challenger winner; st_manifest := manifest |} |}.

Definition won_drafts (before : StackArmIdentity) (rows : list SettlementCandidate) (current manifest : EvaluationStackManifest)
    (winner : SettlementCandidate) (replacement : ContributionRef) : list draft :=
  opening before rows ++ loser_drafts before rows winner ++ winner_drafts before winner manifest current replacement.

Lemma foldM_app_Ok {A B} (f : A → B → result A) l k acc r :
  foldM f (l ++ k) acc = Ok r ↔ ∃ a, foldM f l acc = Ok a ∧ foldM f k a = Ok r.
Proof. by rewrite foldM_app, bind_Ok. Qed.

Lemma challenger_Ok row : row_ok row → sq_challenger (sc_primary row) = Ok (row_challenger row).
Proof. intros [_ [? ?] _ _]. by apply arm_identity_Ok. Qed.

Lemma incumbent_Ok row : row_ok row → sq_incumbent (sc_primary row) = Ok (row_arm row).
Proof. intros [[? ?] _ _ _]. by apply arm_identity_Ok. Qed.

Lemma idle_init_Ok before sequence previous drafts p :
  SettlementPlan_init before before (PStr "") (write before sequence previous drafts) None = Ok p ↔
  p = idle_plan before sequence previous drafts.
Proof.
  unfold SettlementPlan_init. rewrite (proj2 (se_digest_optional_Ok (PStr "") "")) by auto. cbn [bind].
  rewrite write_contiguous. cbn [bind]. rewrite !bool_decide_eq_true_2 by done. cbn. unfold idle_plan. naive_solver.
Qed.

Lemma won_init_Ok before sequence previous drafts row manifest p :
  row_ok row → row_arm row = before → digest_ok (SettlementCandidate_digest row) →
  EvaluationStackManifest_digest manifest = sq_candidate_stack_digest (sc_primary row) →
  (let! transition := StackTransitionOutput_init (PStr (SettlementCandidate_digest row)) before (row_challenger row) manifest in
   SettlementPlan_init before (row_challenger row) (PStr (SettlementCandidate_digest row)) (write before sequence previous drafts)
     (Some transition)) = Ok p ↔
  p = won_plan before sequence previous drafts row manifest.
Proof.
  intros Hrow Hb Hd Hm. unfold StackTransitionOutput_init. rewrite (proj2 (se_digest_Ok _ (SettlementCandidate_digest row))) by done. cbn [bind].
  rewrite (bool_decide_eq_true_2 _ Hm). rewrite (bool_decide_eq_false_2 (before = _)).
  2: { intros He. rewrite <- Hb in He. injection He as He _. by apply (rk_changes _ Hrow). }
  cbn [negb orb raise_if bind]. unfold SettlementPlan_init.
  rewrite (proj2 (se_digest_optional_Ok (PStr (SettlementCandidate_digest row)) (SettlementCandidate_digest row))) by auto. cbn [bind].
  rewrite write_contiguous. cbn [bind st_candidate_digest st_before st_after]. rewrite !bool_decide_eq_true_2 by done. cbn. unfold won_plan. naive_solver.
Qed.

Lemma chain_ok_in before sequence previous drafts d : chain_ok before sequence previous drafts → d ∈ drafts → draft_ok d.
Proof.
  revert sequence previous. induction drafts as [|x drafts IH]; intros sequence previous Hc Hd; [by apply elem_of_nil in Hd|].
  destruct Hc as (_ & Hx & Hc). apply elem_of_cons in Hd as [->|Hd]; [done | by eapply IH].
Qed.

Lemma chain_ok_app before sequence previous drafts drafts' :
  chain_ok before sequence previous (drafts ++ drafts') → chain_ok before sequence previous drafts.
Proof.
  revert sequence previous. induction drafts as [|x drafts IH]; intros sequence previous; [done|]. cbn [app chain_ok].
  intros (? & ? & ?). split_and!; [done..|]. by apply IH.
Qed.

(** What the plan is once the arguments are accepted. *)
Definition outcome (rows : list SettlementCandidate) (m : EvaluationStackManifest) (before : StackArmIdentity) (sequence : Z)
    (previous : string) (p : SettlementPlan) : Prop :=
  (lane_rows "registered" before rows = [] ∧ chain_ok before sequence previous (opening before rows) ∧
   p = idle_plan before sequence previous (opening before rows)) ∨
  (∃ w manifest replacement, is_winner (lane_rows "registered" before rows) w ∧
     sq_candidate_manifest (sc_primary w) = Some manifest ∧
     assoc (es_entries manifest) (sq_target_id (sc_primary w)) = Some replacement ∧
     chain_ok before sequence previous (won_drafts before rows m manifest w replacement) ∧
     p = won_plan before sequence previous (won_drafts before rows m manifest w replacement) w manifest).

(** The part of [plan_settlement] after the opening events. *)
Definition finish (rows : list SettlementCandidate) (m : EvaluationStackManifest) (before : StackArmIdentity) (j : Journal)
    : result SettlementPlan :=
  let registered := lane_rows "registered" before rows in
  let! keyed := mapM (λ row, let! key := speed_key row in Ok (key, row)) registered in
  match keyed with
  | [] => SettlementPlan_init before before (PStr "") (jn_events j) None
  | first :: rest =>
      let winner := (min_row first rest).2 in
      let! after := sq_challenger (sc_primary winner) in
      let! journal := journal_rows HOLD (lost_reason winner) before
        (in_finalized_order (filter (λ row, SettlementCandidate_digest row ≠ SettlementCandidate_digest winner) registered)) j in
      match sq_candidate_manifest (sc_primary winner) with
      | None => Raise (Exn AssertionError "")
      | Some manifest =>
          let! journal := journal_winner winner manifest m before after journal in
          let! transition := StackTransitionOutput_init (PStr (SettlementCandidate_digest winner)) before after manifest in
          SettlementPlan_init before after (PStr (SettlementCandidate_digest winner)) (jn_events journal) (Some transition)
      end
  end.

Lemma plan_settlement_finish rows m tree sequence previous :
  Forall row_ok rows → inputs_ok rows m tree sequence previous →
  plan_settlement rows m (PStr tree) (PInt sequence) (PStr previous) =
  (let! j := foldM (add_draft (start m tree)) (opening (start m tree) rows)
               {| jn_sequence := sequence; jn_previous := previous; jn_events := [] |} in
   finish rows m (start m tree) j).
Proof.
  intros Hrows ([Hb1 Hb2] & Hnd1 & Hnd2 & Hseq & Hprev). unfold plan_settlement.
  eapply bind_step; [by apply arm_identity_Ok|]. fold (start m tree).
  rewrite (bool_decide_eq_true_2 _ Hnd1), (bool_decide_eq_true_2 _ Hnd2). cbn [negb orb raise_if bind].
  unfold Journal_init. rewrite (proj2 (se_integer_Ok _ sequence)) by done. cbn [bind].
  rewrite (proj2 (se_digest_optional_Ok _ previous)) by done. cbn [bind].
  rewrite tagged_rows by (eapply Forall_impl; [exact Hrows|]; apply incumbent_Ok). cbn [bind].
  rewrite (tagged_filter _ snd (λ row, row_arm row = start m tree)) by (intros; apply bool_decide_eq_true).
  rewrite (tagged_filter _ (λ r, negb r.2) (λ row, row_arm row ≠ start m tree)) by (intros; cbn; by rewrite negb_true_iff, bool_decide_eq_false).
  unfold opening. rewrite foldM_app, bind_assoc, journal_rows_drafts. apply bind_cong; [done|]. intros j1 _.
  rewrite journal_rows_drafts. apply bind_cong; [done|]. intros j2 _. done.
Qed.

Lemma lane_rows_in lane before rows row :
  row ∈ lane_rows lane before rows ↔ row ∈ rows ∧ row_arm row = before ∧ sq_lane (sc_primary row) = lane.
Proof. unfold lane_rows. rewrite !list_elem_of_filter. tauto. Qed.

Lemma lane_rows_reservations lane before rows : NoDup (reservation <$> rows) → NoDup (reservation <$> lane_rows lane before rows).
Proof.
  intros Hnd. eapply sublist_NoDup; [exact Hnd|]. apply fmap_sublist. unfold lane_rows.
  etrans; [apply sublist_filter | apply sublist_filter].
Qed.

(** The journal of the winner's half, for a winner whose manifest is known. *)
Lemma winner_half rows m before sequence previous w manifest replacement j p :
  row_ok w → row_arm w = before → before_ok before → 0 ≤ sequence →
  EvaluationStackManifest_digest manifest = sq_candidate_stack_digest (sc_primary w) →
  assoc (es_entries manifest) (sq_target_id (sc_primary w)) = Some replacement →
  foldM (add_draft before) (opening before rows) {| jn_sequence := sequence; jn_previous := previous; jn_events := [] |} = Ok j →
  (let! journal := foldM (add_draft before) (loser_drafts before rows w) j in
   let! journal := journal_winner w manifest m before (row_challenger w) journal in
   let! transition := StackTransitionOutput_init (PStr (SettlementCandidate_digest w)) before (row_challenger w) manifest in
   SettlementPlan_init before (row_challenger w) (PStr (SettlementCandidate_digest w)) (jn_events journal) (Some transition)) = Ok p ↔
  chain_ok before sequence previous (won_drafts before rows m manifest w replacement) ∧
  p = won_plan before sequence previous (won_drafts before rows m manifest w replacement) w manifest.
Proof.
  intros Hw Hb Hbo Hseq Hm Ha Hj. set (j0 := {| jn_sequence := sequence; jn_previous := previous; jn_events := [] |}) in *.
  pose proof (λ j', add_drafts_Ok before (won_drafts before rows m manifest w replacement) j0 j' Hbo Hseq) as Hall. cbn [j0 jn_sequence jn_previous jn_events app] in Hall.
  assert (∀ j', foldM (add_draft before) (won_drafts before rows m manifest w replacement) j0 = Ok j' ↔
    ∃ j1, foldM (add_draft before) (loser_drafts before rows w) j = Ok j1 ∧
      foldM (add_draft before) (winner_drafts before w manifest m replacement) j1 = Ok j') as Hsplit.
  { intros j'. unfold won_drafts. rewrite foldM_app_Ok. split.
    - intros (j2 & Hj2 & (j1 & ? & ?)%foldM_app_Ok). rewrite Hj in Hj2. injection Hj2 as <-. by exists j1.
    - intros (j1 & ? & ?). exists j. split; [done|]. apply foldM_app_Ok. by exists j1. }
  assert (chain_ok before sequence previous (won_drafts before rows m manifest w replacement) → digest_ok (SettlementCandidate_digest w)) as Hd.
  { intros Hc. destruct (chain_ok_in _ _ _ _ (winner_draft w CROWN (ref_digest replacement) (sq_target_id (sc_primary w)) before "qualified_win") Hc) as [Hd _];
      [|exact Hd]. unfold won_drafts, winner_drafts. rewrite !elem_of_app. right. right. left. left. }
  split.
  - intros Hi. apply bind_Ok in Hi as (j1 & Hj1 & Hi). apply bind_Ok in Hi as (j2 & Hj2 & Hi).
    rewrite (journal_winner_drafts _ _ _ _ replacement) in Hj2 by done.
    destruct (proj1 (Hall j2)) as [Hc ->]; [apply Hsplit; by exists j1|]. cbn [jn_events] in Hi. split; [done|]. apply (won_init_Ok before sequence previous) in Hi; auto.
  - intros [Hc ->]. pose proof (proj2 (Hall _) (conj Hc eq_refl)) as Hf. apply Hsplit in Hf as (j1 & Hj1 & Hj2). rewrite Hj1. cbn [bind].
    rewrite (journal_winner_drafts _ _ _ _ replacement) by done. rewrite Hj2. cbn [bind jn_events]. apply (won_init_Ok before sequence previous); auto.
Qed.

Lemma finish_Ok rows m before sequence previous j p :
  Forall row_ok rows → NoDup (reservation <$> rows) → before_ok before → 0 ≤ sequence →
  foldM (add_draft before) (opening before rows) {| jn_sequence := sequence; jn_previous := previous; jn_events := [] |} = Ok j →
  finish rows m before j = Ok p ↔ outcome rows m before sequence previous p.
Proof.
  intros Hrows Hnd Hbo Hseq Hj. pose proof Hj as [Hco Hjeq]%add_drafts_Ok; [|done..]. cbn [jn_sequence jn_previous jn_events app] in Hco, Hjeq.
  unfold finish, outcome. rewrite Forall_forall in Hrows. split.
  - intros Hi. apply bind_Ok in Hi as (kd & [Hkd Hkf]%keyed_rows & Hi). destruct kd as [|first rest].
    + left. rewrite Hjeq in Hi. cbn [jn_events] in Hi. apply idle_init_Ok in Hi. cbn in Hkd. done.
    + right. pose proof (winner_found _ _ Hkf) as Hwin. rewrite Hkd in Hwin. set (w := (min_row first rest).2) in *.
      pose proof Hwin as [(Hin & Harm & Hlane)%lane_rows_in _]. apply Hrows in Hin as Hok.
      destruct (rk_registered _ Hok Hlane) as (manifest & replacement & Hman & Hdig & Ha).
      rewrite (challenger_Ok w Hok), Hman in Hi. cbn [bind] in Hi. rewrite journal_rows_drafts in Hi.
      exists w, manifest, replacement. do 3 (split; [done|]). apply (winner_half rows m before sequence previous w manifest replacement j p); try done.
  - intros [(Hnil & _ & ->)|(w & manifest & replacement & Hwin & Hman & Ha & Hc & ->)].
    + rewrite Hnil. cbn [mapM bind]. rewrite Hjeq. cbn [jn_events]. by apply idle_init_Ok.
    + destruct (winner_exists _ _ Hwin) as (first & rest & Hkd). rewrite Hkd. cbn [bind]. apply keyed_rows in Hkd as [Hkd Hkf].
      assert ((min_row first rest).2 = w) as ->.
      { pose proof (winner_found _ _ Hkf) as Hfound. rewrite Hkd in Hfound.
        eapply winner_unique; [by apply lane_rows_reservations | exact Hfound | exact Hwin]. }
      pose proof Hwin as [(Hin & Harm & Hlane)%lane_rows_in _]. apply Hrows in Hin as Hok.
      destruct (rk_registered _ Hok Hlane) as (manifest' & replacement' & Hman' & Hdig & Ha'). rewrite Hman in Hman'. injection Hman' as <-.
      rewrite (challenger_Ok w Hok), Hman. cbn [bind]. rewrite journal_rows_drafts.
      apply (winner_half rows m before sequence previous w manifest replacement j); done.
Qed.

Lemma plan_settlement_Ok rows m vt vs vp p :
  Forall row_ok rows →
  plan_settlement rows m vt vs vp = Ok p ↔
  ∃ tree sequence previous, vt = PStr tree ∧ vs = PInt sequence ∧ vp = PStr previous ∧
    inputs_ok rows m tree sequence previous ∧ outcome rows m (start m tree) sequence previous p.
Proof.
  intros Hrows. split.
  - intros Hi. assert (∃ tree sequence previous, vt = PStr tree ∧ vs = PInt sequence ∧ vp = PStr previous ∧ inputs_ok rows m tree sequence previous)
      as (tree & sequence & previous & -> & -> & -> & Hin).
    { unfold plan_settlement, StackArmIdentity_init in Hi. apply bind_Ok in Hi as (b & Hb & Hi).
      apply bind_Ok in Hb as (? & [[= <-] Hd]%sp_digest_Ok & Hb). apply bind_Ok in Hb as (t & [-> Ht]%sp_digest_Ok & _).
      apply bind_Ok in Hi as (? & Hnd%raise_if_Ok & Hi). bool_prop. apply bind_Ok in Hi as (j & Hj & _). unfold Journal_init in Hj.
      apply bind_Ok in Hj as (z & [-> Hz]%se_integer_Ok & Hj). apply bind_Ok in Hj as (v & [-> Hv]%se_digest_optional_Ok & _).
      exists t, z, v. done. }
    exists tree, sequence, previous. do 4 (split; [done|]). rewrite plan_settlement_finish in Hi by done.
    pose proof Hin as (Hbo & _ & Hnd & Hseq & _). apply bind_Ok in Hi as (j & Hj & Hi). by eapply finish_Ok.
  - intros (tree & sequence & previous & -> & -> & -> & Hin & Hout). rewrite plan_settlement_finish by done. pose proof Hin as (Hbo & _ & Hnd & Hseq & _).
    assert (chain_ok (start m tree) sequence previous (opening (start m tree) rows)) as Hc.
    { destruct Hout as [(_ & Hc & _)|(w & manifest & replacement & _ & _ & _ & Hc & _)]; [done|]. by eapply chain_ok_app. }
    eapply bind_step; [by apply add_drafts_Ok|]. eapply finish_Ok; try done. by apply add_drafts_Ok.
Qed.

(** ** Qualifications *)

(** A qualification as its constructor returns it. *)
Definition qualification_built (q : SettlementQualification) : Prop :=
  SettlementQualification_init (PStr (sq_lane q)) (PStr (sq_arena_digest q)) (PStr (sq_reservation_digest q)) (PInt (sq_finalized_block q)) (PInt
    (sq_event_index q)) (PInt (sq_event_subindex q)) (PStr (sq_hotkey q)) (PStr (sq_target_id q)) (sq_members q) (PStr
    (sq_selected_delta_digest q)) (PStr (sq_qualification_authority_digest q)) (PStr (sq_qualification_plan_digest q))
    (PStr (sq_qualification_attempt_digest q)) (PStr (sq_qualification_report_digest q)) (PStr
    (sq_selection_commitment_digest q)) (PStr (sq_selection_secret_commitment_digest q)) (PStr
    (sq_selection_evidence_digest q)) (PStr (sq_arm_digest q)) (PStr (sq_incumbent_stack_digest q)) (PStr
    (sq_incumbent_tree_digest q)) (PStr (sq_candidate_stack_digest q)) (PStr (sq_candidate_tree_digest q)) (PStr
    (sq_speedup q)) (sq_incumbent_manifest q) (PStr (sq_proposal_digest q)) (sq_candidate_manifest q) (PStr
    (sq_speed_evidence_policy_digest q)) (PStr (sq_audit_control_digest q)) (sq_audit_policy q) (PStr
    (sq_audit_evidence_digest q)) (sq_resident_lane_orientation q) = Ok q.

(** Whatever the arguments, what the constructor returns it would return again
    from the fields. *)
Lemma qualification_init_built a0 a1 a2 a3 a4 a5 a6 a7 a8 a9 a10 a11 a12 a13 a14 a15 a16 a17 a18 a19 a20 a21 a22 a23 a24 a25 a26 a27 a28 a29 a30 q :
  SettlementQualification_init a0 a1 a2 a3 a4 a5 a6 a7 a8 a9 a10 a11 a12 a13 a14 a15 a16 a17 a18 a19 a20 a21 a22 a23 a24 a25 a26 a27 a28 a29 a30 = Ok q → qualification_built q.
Proof.
  intros Hi. pose proof Hi as Hq. unfold SettlementQualification_init in Hq.
  apply bind_Ok in Hq as (lane & [-> _]%lane_of_Ok & Hq). do 18 (apply bind_Ok in Hq as (? & [-> _]%se_digest_Ok & Hq)).
  do 3 (apply bind_Ok in Hq as (? & [-> _]%se_integer_Ok & Hq)). do 2 (apply bind_Ok in Hq as (? & [-> _]%se_identifier_Ok & Hq)).
  apply bind_Ok in Hq as (ms & [-> _]%members_of_Ok & Hq). apply bind_Ok in Hq as (sp & ->%speedup_Ok & Hq).
  do 5 (apply bind_Ok in Hq as (? & _ & Hq)).
  apply bind_Ok in Hq as (pd & Hpd & Hq).
  assert (a24 = PStr pd) as ->.
  { destruct (bool_decide _); [by apply se_digest_optional_Ok in Hpd as [-> _] | by apply se_digest_Ok in Hpd as [-> _]]. }
  apply bind_Ok in Hq as (? & _ & [= <-]). exact Hi.
Qed.

Lemma qualification_init_manifests a0 a1 a2 a3 a4 a5 a6 a7 a8 a9 a10 a11 a12 a13 a14 a15 a16 a17 a18 a19 a20 a21 a22 a23 a24 a25 a26 a27 a28 a29 a30 q :
  SettlementQualification_init a0 a1 a2 a3 a4 a5 a6 a7 a8 a9 a10 a11 a12 a13 a14 a15 a16 a17 a18 a19 a20 a21 a22 a23 a24 a25 a26 a27 a28 a29 a30 = Ok q →
  sq_incumbent_manifest q = a23 ∧ sq_candidate_manifest q = a25.
Proof.
  unfold SettlementQualification_init. intros Hq. do 33 (apply bind_Ok in Hq as (? & _ & Hq)). by injection Hq as <-.
Qed.

(** The checks of the constructor that the planner relies on. *)
Lemma qualification_facts q :
  qualification_built q →
  (digest_ok (sq_incumbent_stack_digest q) ∧ digest_ok (sq_incumbent_tree_digest q)) ∧
  (digest_ok (sq_candidate_stack_digest q) ∧ digest_ok (sq_candidate_tree_digest q)) ∧
  digest_ok (sq_selected_delta_digest q) ∧ SE.id_matches (sq_target_id q) = true ∧ sq_lane q ∈ _LANES ∧
  sq_incumbent_stack_digest q ≠ sq_candidate_stack_digest q ∧ EvaluationStackManifest_digest (sq_incumbent_manifest q) = sq_incumbent_stack_digest q ∧
  check_lane (sq_lane q) (sq_target_id q) (sq_selected_delta_digest q) (sq_candidate_stack_digest q) (sq_candidate_manifest q)
    (PStr (sq_proposal_digest q)) = Ok tt.
Proof.
  intros Hq. unfold qualification_built, SettlementQualification_init in Hq.
  apply bind_Ok in Hq as (lane & [[= Elane] Hlane]%lane_of_Ok & Hq).
  apply bind_Ok in Hq as (d1 & _ & Hq). apply bind_Ok in Hq as (d2 & _ & Hq). apply bind_Ok in Hq as (d3 & [[= E3] H3]%se_digest_Ok & Hq).
  do 8 (apply bind_Ok in Hq as (? & _ & Hq)). apply bind_Ok in Hq as (d12 & [[= E12] H12]%se_digest_Ok & Hq).
  apply bind_Ok in Hq as (d13 & [[= E13] H13]%se_digest_Ok & Hq). apply bind_Ok in Hq as (d14 & [[= E14] H14]%se_digest_Ok & Hq).
  apply bind_Ok in Hq as (d15 & [[= E15] H15]%se_digest_Ok & Hq). do 3 (apply bind_Ok in Hq as (? & _ & Hq)).
  do 4 (apply bind_Ok in Hq as (? & _ & Hq)). apply bind_Ok in Hq as (t & [[= Et] Ht]%se_identifier_Ok & Hq).
  do 3 (apply bind_Ok in Hq as (? & _ & Hq)). apply bind_Ok in Hq as (? & Hm%raise_if_Ok & Hq). apply bind_Ok in Hq as (? & Hne%raise_if_Ok & Hq).
  apply bind_Ok in Hq as (? & _ & Hq). apply bind_Ok in Hq as ([] & Hcl & Hq). clear Hq. bool_prop. subst. split_and!; done.
Qed.

Lemma qualification_row_ok c : qualification_built (sc_primary c) → row_ok c.
Proof.
  intros (Hi & Hc & _ & _ & _ & Hne & _ & Hl)%qualification_facts. constructor; [done..|]. intros Hlane. unfold check_lane in Hl.
  rewrite bool_decide_eq_true_2 in Hl by done. destruct (sq_candidate_manifest _) as [manifest|]; [|done].
  apply bind_Ok in Hl as (? & Hd%raise_if_Ok & Hl). apply bind_Ok in Hl as (? & He%raise_if_Ok & _). bool_prop.
  destruct (assoc _ _) as [replacement|] eqn:Ea; [|done]. by exists manifest, replacement.
Qed.
End plan.
