(* ===== verification/SettlementCorrect.v ===== *)
(** * Correctness of settlement

    Which candidate wins, what the journal records, that nothing depends on the
    order of the candidates, when a reproduction is independent, and that what
    settlement retires and neutralizes is what the stack plan displaced. *)

From Stdlib Require Import ZArith Lia Ascii.
From stdpp Require Import base tactics numbers list strings gmap sorting relations.
From S2P Require Import Prelude PyValue Sha256 Identity Strict IdentityCorrect Graph Provider Decimal Catalog CatalogFacts.
From S2P Require Import CatalogCorrect Stack Release StackFacts ReleaseCorrect StackPlan StackPlanCorrect Settlement SettlementPlan.
From S2P Require Import SettlementFacts.

#[local] Arguments assoc : simpl never.

(** A candidate as its constructors return it. *)
Definition candidate_built `{Sha256} (c : SettlementCandidate) : Prop :=
  qualification_built (sc_primary c) ∧ qualification_built (sc_reproduction c) ∧
  SettlementCandidate_init (sc_primary c) (sc_reproduction c) = Ok c.

Lemma candidates_ok `{Sha256} rows : Forall candidate_built rows → Forall row_ok rows.
Proof. intros Hr. eapply Forall_impl; [exact Hr|]. intros c (Hp & _ & _). by apply qualification_row_ok. Qed.

(** The registered candidates over the incumbent [before]. *)
Definition contenders `{Sha256} (before : StackArmIdentity) (rows : list SettlementCandidate) (row : SettlementCandidate) : Prop :=
  row ∈ rows ∧ row_arm row = before ∧ sq_lane (sc_primary row) = "registered".

(** [w] is faster than [row], or as fast and finalized earlier. *)
Definition beats (w row : SettlementCandidate) : Prop :=
  ∃ kw k, speed_key w = Ok kw ∧ speed_key row = Ok k ∧
    (dec_compare k.1 k.2 kw.1 kw.2 = Lt ∨
     (dec_compare k.1 k.2 kw.1 kw.2 = Eq ∧ order_le (sc_finalized_order w) (sc_finalized_order row) ∧
      sc_finalized_order w ≠ sc_finalized_order row)).

(** C32: the winner.  When a plan is returned and it names no winner, there was no
    registered candidate over the current incumbent and nothing changes.
    Otherwise the winner is a registered candidate over that incumbent which
    beats every other one: its reproduced speedup (the slower of its two runs) is
    larger, or equal and finalized earlier; the plan leads to exactly its stack,
    tree and manifest. *)
Theorem settlement_winner `{Sha256} rows m tree sequence previous p :
  Forall candidate_built rows → plan_settlement rows m tree sequence previous = Ok p →
  match pl_transition p with
  | None => (∀ row, ¬ contenders (pl_before p) rows row) ∧ pl_after p = pl_before p ∧ pl_winner_candidate_digest p = ""
  | Some t => ∃ w, contenders (pl_before p) rows w ∧ (∀ row, contenders (pl_before p) rows row → row ≠ w → beats w row) ∧
      pl_winner_candidate_digest p = SettlementCandidate_digest w ∧ pl_after p = row_challenger w ∧
      sq_candidate_manifest (sc_primary w) = Some (st_manifest t) ∧
      EvaluationStackManifest_digest (st_manifest t) = ai_stack_digest (pl_after p)
  end.
Proof.
  intros Hrows%candidates_ok (tr & z & v & -> & -> & -> & Hin & Hout)%plan_settlement_Ok; [|done].
  destruct Hout as [(Hnil & _ & ->)|(w & manifest & replacement & Hwin & Hman & Ha & _ & ->)]; cbn.
  - split; [|done]. intros row Hc. apply lane_rows_in in Hc. rewrite Hnil in Hc. by apply elem_of_nil in Hc.
  - destruct Hwin as (Hw & kw & Hkw & Hall). exists w. apply lane_rows_in in Hw as Hc. destruct Hc as (Hin' & Harm & Hlane).
    rewrite Forall_forall in Hrows. destruct (rk_registered _ (Hrows _ Hin') Hlane) as (manifest' & ? & Hman' & Hd & _).
    rewrite Hman in Hman'. injection Hman' as <-. split_and!; try done.
    intros row Hc%lane_rows_in Hne. destruct (Hall row Hc) as (k & Hk & Hb). exists kw, k. split_and!; [done..|].
    unfold key_before in Hb. cbn in Hb. destruct (dec_compare k.1 _ _ _); [|by left|done]. right. split_and!; [done..|].
    intros He. apply Hne. symmetry. apply (same_order_same_row (lane_rows "registered" (start m tr) rows)); [|done..]. apply lane_rows_reservations, Hin.
Qed.

(** C4: the journal and the plan are these.  For checked candidates
    [plan_settlement] returns a plan exactly when the incumbent's digests, the
    sequence number and the previous digest are valid, no two candidates share a
    digest or reservation, and every event to be written is well-formed; the plan
    is then the reference outcome: held stale candidates, discovery bounties,
    held losers, then the winner's crown, retirement, neutralizations, adoption
    and transition, each group in finalized order, numbered consecutively from
    the given sequence number and chained from the given digest. *)
Theorem settlement_exact `{Sha256} rows m tree sequence previous p :
  Forall candidate_built rows →
  plan_settlement rows m tree sequence previous = Ok p ↔
  ∃ t z v, tree = PStr t ∧ sequence = PInt z ∧ previous = PStr v ∧
    inputs_ok rows m t z v ∧ outcome rows m (start m t) z v p.
Proof. intros Hrows%candidates_ok. by apply plan_settlement_Ok. Qed.

(** ** Order independence *)

Section order.
Context `{Sha256}.

Lemma NoDup_filter_reservations rows (P : SettlementCandidate → Prop) `{∀ x, Decision (P x)} :
  NoDup (reservation <$> rows) → NoDup (reservation <$> filter P rows).
Proof. intros Hnd. eapply sublist_NoDup; [exact Hnd|]. apply fmap_sublist, sublist_filter. Qed.

Lemma lane_rows_perm lane before rows rows' : rows ≡ₚ rows' → lane_rows lane before rows ≡ₚ lane_rows lane before rows'.
Proof. intros Hp. unfold lane_rows. by rewrite Hp. Qed.

Lemma opening_perm before rows rows' : NoDup (reservation <$> rows) → rows ≡ₚ rows' → opening before rows = opening before rows'.
Proof.
  intros Hnd Hp. unfold opening, stale_rows. f_equal; f_equal; apply in_finalized_order_perm.
  - by apply NoDup_filter_reservations.
  - by rewrite Hp.
  - by apply lane_rows_reservations.
  - by apply lane_rows_perm.
Qed.

Lemma loser_drafts_perm before rows rows' w :
  NoDup (reservation <$> rows) → rows ≡ₚ rows' → loser_drafts before rows w = loser_drafts before rows' w.
Proof.
  intros Hnd Hp. unfold loser_drafts. f_equal. apply in_finalized_order_perm; [by apply NoDup_filter_reservations, lane_rows_reservations|].
  by rewrite (lane_rows_perm _ _ rows rows').
Qed.

Lemma winner_perm rows rows' w : rows ≡ₚ rows' → is_winner rows w → is_winner rows' w.
Proof.
  intros Hp (Hw & kw & Hkw & Hall). split; [by rewrite <- Hp|]. exists kw. split; [done|]. intros r. rewrite <- Hp. apply Hall.
Qed.
End order.

(** The order of the candidates does not matter.  Any permutation of the
    candidates gives the same plan: the same winner and the same events in the
    same order, hence the same plan digest. *)
Theorem settlement_order_independent `{Sha256} rows rows' m tree sequence previous p :
  Forall candidate_built rows → rows ≡ₚ rows' →
  plan_settlement rows m tree sequence previous = Ok p → plan_settlement rows' m tree sequence previous = Ok p.
Proof.
  intros Hrows Hp (tr & z & v & -> & -> & -> & (Hb & Hnd1 & Hnd2 & Hz & Hv) & Hout)%plan_settlement_Ok; [|by apply candidates_ok].
  apply plan_settlement_Ok; [apply candidates_ok; by rewrite <- Hp|]. exists tr, z, v. do 3 (split; [done|]).
  split; [split_and!; try done; by rewrite <- Hp|]. destruct Hout as [(Hnil & Hc & ->)|(w & manifest & replacement & Hwin & Hman & Ha & Hc & ->)].
  - left. rewrite <- (opening_perm _ rows rows') by done. split; [|done]. apply Permutation_nil_r. rewrite <- Hnil. symmetry. by apply lane_rows_perm.
  - right. exists w, manifest, replacement. unfold won_drafts in *. rewrite <- (opening_perm _ rows rows'), <- (loser_drafts_perm _ rows rows') by done.
    split; [|done]. eapply winner_perm; [|done]. by apply lane_rows_perm.
Qed.

(** ** Every candidate is decided once *)

(** The events that decide a candidate: it is held, paid a bounty or crowned. *)
Definition decides (type : SettlementEventType) : bool :=
  match type with HOLD | DISCOVERY_BOUNTY | CROWN => true | _ => false end.

Section decided.
Context `{Sha256}.

Definition decided_drafts (drafts : list draft) : list SettlementCandidate :=
  dr_candidate <$> filter (λ d, decides (dr_type d) = true) drafts.

Lemma decided_write before sequence previous drafts :
  sv_candidate_digest <$> filter (λ e, decides (sv_event_type e) = true) (write before sequence previous drafts) =
  SettlementCandidate_digest <$> decided_drafts drafts.
Proof.
  unfold decided_drafts. revert sequence previous. induction drafts as [|d drafts IH]; intros sequence previous; [done|].
  cbn [write]. rewrite !filter_cons. cbn [sv_event_type write_event]. destruct (decide (decides (dr_type d) = true)); cbn [fmap list_fmap]; [|apply IH].
  by rewrite IH.
Qed.

Lemma decided_app l k : decided_drafts (l ++ k) = decided_drafts l ++ decided_drafts k.
Proof. unfold decided_drafts. by rewrite filter_app, fmap_app. Qed.

Lemma decided_rows type reason before rows :
  decides type = true → decided_drafts (row_draft type reason before <$> rows) = rows.
Proof.
  intros Ht. unfold decided_drafts. induction rows as [|row rows IH]; [done|]. rewrite fmap_cons, filter_cons. cbn [dr_type row_draft].
  rewrite decide_True by done. cbn [fmap list_fmap]. by rewrite IH.
Qed.

Lemma decided_none drafts : Forall (λ d, decides (dr_type d) = false) drafts → decided_drafts drafts = [].
Proof.
  unfold decided_drafts. induction 1 as [|d drafts Hd Hf IH]; [done|]. rewrite filter_cons, decide_False by congruence. exact IH.
Qed.

Lemma decided_winner before w manifest current replacement :
  decided_drafts (winner_drafts before w manifest current replacement) = [w].
Proof.
  unfold winner_drafts. rewrite decided_app, (decided_none (_ ++ _)); [done|]. rewrite !Forall_app. split_and!; [by destruct (assoc _ _); repeat constructor| |by repeat constructor].
  apply Forall_fmap, Forall_forall. by intros.
Qed.

Lemma filter_split {A} (P : A → Prop) `{∀ x, Decision (P x)} l : filter P l ++ filter (λ x, ¬ P x) l ≡ₚ l.
Proof.
  induction l as [|x l IH]; [done|]. rewrite !filter_cons. destruct (decide (P x)).
  - rewrite decide_False by tauto. cbn. by rewrite IH.
  - rewrite decide_True by tauto. rewrite <- Permutation_middle. by rewrite IH.
Qed.

(** The candidates are the stale ones and those of the two lanes. *)
Lemma rows_partition before rows :
  Forall (λ row, sq_lane (sc_primary row) ∈ _LANES) rows →
  stale_rows before rows ++ lane_rows "discovery" before rows ++ lane_rows "registered" before rows ≡ₚ rows.
Proof.
  intros Hl. assert (filter (λ row, sq_lane (sc_primary row) = "registered") (filter (λ row, row_arm row = before) rows)
    ++ filter (λ row, sq_lane (sc_primary row) = "discovery") (filter (λ row, row_arm row = before) rows) ≡ₚ filter (λ row, row_arm row = before) rows) as Hlanes.
  { pose proof (Forall_filter_sub _ (λ row, row_arm row = before) _ Hl) as Hf. induction Hf as [|row l Hr Hf IH]; [done|]. rewrite !filter_cons.
    apply elem_of_cons in Hr as [Hr|Hr%list_elem_of_singleton]; rewrite Hr.
    - rewrite decide_True, decide_False by done. cbn [app]. by rewrite IH.
    - rewrite decide_False, decide_True by done. rewrite <- Permutation_middle. by rewrite IH. }
  rewrite (Permutation_app_comm (lane_rows "discovery" before rows)). unfold lane_rows. rewrite Hlanes, Permutation_app_comm.
  apply filter_split.
Qed.

Lemma winner_partition (rows : list SettlementCandidate) w :
  NoDup (SettlementCandidate_digest <$> rows) → w ∈ rows →
  w :: filter (λ row, SettlementCandidate_digest row ≠ SettlementCandidate_digest w) rows ≡ₚ rows.
Proof.
  intros Hnd Hw. apply list_elem_of_split in Hw as (l & k & ->). rewrite fmap_app, fmap_cons in Hnd.
  apply NoDup_app in Hnd as (Hl & Hlk & [Hk _]%NoDup_cons). rewrite filter_app, filter_cons, decide_False by tauto.
  rewrite (filter_keeps _ l), (filter_keeps _ k); [by rewrite Permutation_middle|..]; apply Forall_forall; intros y Hy; cbn; intros He.
  - apply Hk. rewrite <- He. by apply list_elem_of_fmap_2.
  - apply (Hlk (SettlementCandidate_digest y)); [by apply list_elem_of_fmap_2|]. rewrite He. left.
Qed.

Lemma opening_decided before rows :
  decided_drafts (opening before rows) ≡ₚ stale_rows before rows ++ lane_rows "discovery" before rows.
Proof. unfold opening. rewrite decided_app, !decided_rows by done. unfold in_finalized_order. by rewrite !stable_sort_perm. Qed.
End decided.

(** Every candidate is decided exactly once.  The events that hold a
    candidate, pay it a bounty or crown it name each candidate of the batch once,
    whatever the batch: nothing is dropped and nothing is decided twice. *)
Theorem settlement_decides_once `{Sha256} rows m tree sequence previous p :
  Forall candidate_built rows → plan_settlement rows m tree sequence previous = Ok p →
  sv_candidate_digest <$> filter (λ e, decides (sv_event_type e) = true) (pl_events p) ≡ₚ SettlementCandidate_digest <$> rows.
Proof.
  intros Hb (tr & z & v & -> & -> & -> & (_ & Hnd & _) & Hout)%plan_settlement_Ok; [|by apply candidates_ok].
  assert (Forall (λ row, sq_lane (sc_primary row) ∈ _LANES) rows) as Hl.
  { eapply Forall_impl; [exact Hb|]. intros c (Hp%qualification_facts & _). tauto. }
  pose proof (rows_partition (start m tr) rows Hl) as Hpart.
  destruct Hout as [(Hnil & _ & ->)|(w & manifest & replacement & Hwin & Hman & Ha & _ & ->)]; cbn [pl_events idle_plan won_plan]; rewrite decided_write.
  - rewrite Hnil, app_nil_r in Hpart. by rewrite opening_decided, Hpart.
  - unfold won_drafts. rewrite !decided_app, decided_winner, opening_decided. unfold loser_drafts, in_finalized_order.
    rewrite decided_rows, stable_sort_perm by done. apply fmap_Permutation. etrans; [|exact Hpart]. rewrite <- app_assoc. f_equiv. f_equiv.
    rewrite Permutation_app_comm. cbn [app]. apply winner_partition; [|by destruct Hwin].
    eapply sublist_NoDup; [exact Hnd|]. apply fmap_sublist. unfold lane_rows. etrans; apply sublist_filter.
Qed.


(** ** Independent reproductions *)

Lemma sorted_json_bytes j1 j2 :
  json_sort j1 = j1 → json_sort j2 = j2 → encode_utf8 (json_dumps j1) = encode_utf8 (json_dumps j2) ↔ j1 = j2.
Proof.
  intros H1 H2. split; [|by intros ->]. intros E. unfold encode_utf8 in E. apply utf8_chars_inj in E.
  rewrite <- H1, <- H2. apply (dumps_inj j1 j2 [] []); [done..|]. by rewrite !app_nil_r.
Qed.

Lemma manifest_eqb_eq `{Sha256} a b : stack_wf a → stack_wf b → manifest_eqb a b = true ↔ a = b.
Proof.
  intros Ha Hb. destruct (sf_catalog _ Ha) as (_ & Hja & _), (sf_catalog _ Hb) as (_ & Hjb & _). unfold manifest_eqb.
  rewrite !andb_true_iff, !bool_decide_eq_true, (sorted_json_bytes _ _ Hja Hjb). split.
  - intros E. destruct_and!. destruct a, b; cbn in *. by subst.
  - by intros ->.
Qed.

(** The manifests of a qualification passed their own constructor. *)
Definition manifests_wf `{Sha256} (q : SettlementQualification) : Prop :=
  stack_wf (sq_incumbent_manifest q) ∧ ∀ manifest, sq_candidate_manifest q = Some manifest → stack_wf manifest.

(** The fields a reproduction must share with the primary run. *)
Definition same_fields (p r : SettlementQualification) : Prop :=
  sq_lane p = sq_lane r ∧ sq_arena_digest p = sq_arena_digest r ∧
  sq_reservation_digest p = sq_reservation_digest r ∧ sq_finalized_block p = sq_finalized_block r ∧
  sq_event_index p = sq_event_index r ∧ sq_event_subindex p = sq_event_subindex r ∧ sq_hotkey p = sq_hotkey r ∧
  sq_target_id p = sq_target_id r ∧ sq_members p = sq_members r ∧
  sq_selected_delta_digest p = sq_selected_delta_digest r ∧ sq_arm_digest p = sq_arm_digest r ∧
  sq_incumbent_stack_digest p = sq_incumbent_stack_digest r ∧
  sq_incumbent_tree_digest p = sq_incumbent_tree_digest r ∧
  sq_candidate_stack_digest p = sq_candidate_stack_digest r ∧
  sq_candidate_tree_digest p = sq_candidate_tree_digest r ∧ sq_incumbent_manifest p = sq_incumbent_manifest r ∧
  sq_proposal_digest p = sq_proposal_digest r ∧ sq_candidate_manifest p = sq_candidate_manifest r ∧
  sq_speed_evidence_policy_digest p = sq_speed_evidence_policy_digest r ∧
  sq_audit_control_digest p = sq_audit_control_digest r.

(** The evidence a reproduction may not reuse. *)
Definition fresh_evidence (p r : SettlementQualification) : Prop :=
  sq_qualification_authority_digest p ≠ sq_qualification_authority_digest r ∧
  sq_qualification_plan_digest p ≠ sq_qualification_plan_digest r ∧
  sq_qualification_attempt_digest p ≠ sq_qualification_attempt_digest r ∧
  sq_qualification_report_digest p ≠ sq_qualification_report_digest r ∧
  sq_selection_commitment_digest p ≠ sq_selection_commitment_digest r ∧
  sq_selection_secret_commitment_digest p ≠ sq_selection_secret_commitment_digest r ∧
  sq_selection_evidence_digest p ≠ sq_selection_evidence_digest r.

(** [r] independently reproduces [p]: the same contribution, other evidence. *)
Record independent (p r : SettlementQualification) : Prop := {
  id_same : same_fields p r;
  id_distinct : fresh_evidence p r;
  id_audit : match sq_audit_policy p, sq_audit_policy r with
             | Some a, Some b => ap_control a = ap_control b ∧ ap_validator_seed a ≠ ap_validator_seed b ∧
                                 sq_audit_evidence_digest p ≠ sq_audit_evidence_digest r
             | None, None => True
             | _, _ => False
             end;
  id_orientation : match sq_resident_lane_orientation p, sq_resident_lane_orientation r with
                   | Some a, Some b => is_exact_swap_of b a = true
                   | None, None => True
                   | _, _ => False
                   end
}.

Section independence.
Context `{Sha256}.

Lemma reproduction_identity_Ok q :
  qualification_built q →
  reproduction_identity q = Ok {| rid_arena_digest := sq_arena_digest q; rid_target_id := sq_target_id q;
    rid_selected_delta_digest := sq_selected_delta_digest q; rid_hotkey := sq_hotkey q;
    rid_incumbent_stack_digest := sq_incumbent_stack_digest q; rid_incumbent_tree_digest := sq_incumbent_tree_digest q;
    rid_candidate_stack_digest := sq_candidate_stack_digest q; rid_candidate_tree_digest := sq_candidate_tree_digest q |}.
Proof.
  intros Hq. pose proof (qualification_facts q Hq) as ((? & ?) & (? & ?) & ? & Ht & _).
  unfold qualification_built, SettlementQualification_init in Hq. apply bind_Ok in Hq as (lane & _ & Hq).
  apply bind_Ok in Hq as (arena & [[= Ea] Ha]%se_digest_Ok & Hq). do 20 (apply bind_Ok in Hq as (? & _ & Hq)).
  apply bind_Ok in Hq as (hk & [[= Eh] Hh]%se_identifier_Ok & _). subst.
  unfold reproduction_identity, SettlementReproductionIdentity_init. do 6 (eapply bind_step; [by apply se_digest_Ok|]).
  do 2 (eapply bind_step; [by apply se_identifier_Ok|]). done.
Qed.

Lemma same_contribution_Ok p r :
  manifests_wf p → manifests_wf r →
  same_contribution p r = true ↔ same_fields p r.
Proof.
  intros [Hp Hpc] [Hr Hrc]. unfold same_contribution, same_fields. rewrite !andb_true_iff, !bool_decide_eq_true, manifest_eqb_eq by done.
  assert (option_eqb manifest_eqb (sq_candidate_manifest p) (sq_candidate_manifest r) = true ↔ sq_candidate_manifest p = sq_candidate_manifest r) as ->; [|tauto].
  destruct (sq_candidate_manifest p), (sq_candidate_manifest r); cbn; try done. rewrite manifest_eqb_eq by auto. naive_solver.
Qed.

Lemma reuses_evidence_Ok p r :
  reuses_evidence p r = false ↔ fresh_evidence p r.
Proof. unfold reuses_evidence, fresh_evidence. rewrite !orb_false_iff, !bool_decide_eq_false. tauto. Qed.

Lemma candidate_init_Ok p r c :
  qualification_built p → qualification_built r → manifests_wf p → manifests_wf r →
  SettlementCandidate_init p r = Ok c ↔ c = {| sc_primary := p; sc_reproduction := r |} ∧ independent p r.
Proof.
  intros Hp Hr Hmp Hmr. unfold SettlementCandidate_init. rewrite (reproduction_identity_Ok p Hp), (reproduction_identity_Ok r Hr). cbn [bind]. split.
  - intros Hi. apply bind_Ok in Hi as (? & _ & Hi). apply bind_Ok in Hi as (? & Hs%raise_if_Ok%negb_false_iff & Hi).
    apply bind_Ok in Hi as (? & Hd%raise_if_Ok & Hi). apply bind_Ok in Hi as (? & Ha & Hi). apply bind_Ok in Hi as (? & Ho & [= <-]).
    split; [done|]. constructor; [by apply same_contribution_Ok | by apply reuses_evidence_Ok| |].
    + destruct (sq_audit_policy p), (sq_audit_policy r); try done. apply raise_if_Ok in Ha. by bool_prop.
    + destruct (sq_resident_lane_orientation p), (sq_resident_lane_orientation r); try done. apply raise_if_Ok in Ho. by bool_prop.
  - intros [-> [Hs Hd Ha Ho]]. pose proof (proj2 (same_contribution_Ok p r Hmp Hmr) Hs) as ->. apply reuses_evidence_Ok in Hd as ->.
    rewrite bool_decide_eq_true_2. 2: { clear -Hs. unfold same_fields in Hs. destruct_and!. congruence. }
    cbn [negb raise_if bind]. eapply (bind_step _ _ tt).
    { destruct (sq_audit_policy p), (sq_audit_policy r); try done. apply raise_if_Ok. destruct Ha as (? & ? & ?). bool_goal. }
    eapply (bind_step _ _ tt); [|done]. destruct (sq_resident_lane_orientation p), (sq_resident_lane_orientation r); try done. by rewrite Ho.
Qed.
End independence.

(** [min] over two decimals picks one of them, and neither is below it. *)
Lemma slower_of_two p r (slow := if dec_ltb (speed_value r).1 (speed_value r).2 (speed_value p).1 (speed_value p).2 then r else p) :
  slow ∈ [p; r] ∧
  ∀ s, s ∈ [p; r] → dec_leb (speed_value slow).1 (speed_value slow).2 (speed_value s).1 (speed_value s).2 = true.
Proof.
  subst slow. unfold dec_ltb, dec_leb.
  pose proof (dec_compare_antisym (speed_value p).1 (speed_value p).2 (speed_value r).1 (speed_value r).2) as Hanti.
  destruct (dec_compare (speed_value r).1 _ _ _) eqn:E; (split; [first [by left | by right; left]|]); intros s Hs;
    apply elem_of_cons in Hs as [-> | ->%list_elem_of_singleton]; rewrite ?dec_compare_refl, ?E; try done.
  all: destruct (dec_compare (speed_value p).1 _ _ _); done.
Qed.

(** C33: what makes a candidate.  Two qualifications that passed their constructor
    form a settlement candidate exactly when they are the same contribution in
    all twenty shared fields, and the second is independent of the first: seven
    different evidence digests, audits with the same controls but another seed
    and other evidence (or none in both), and physical lanes swapped (or none in
    both).  The candidate's speedup is that of one of the two runs and no faster
    than either. *)
Theorem reproduction_independent `{Sha256} p r c :
  qualification_built p → qualification_built r → manifests_wf p → manifests_wf r →
  (SettlementCandidate_init p r = Ok c ↔ c = {| sc_primary := p; sc_reproduction := r |} ∧ independent p r) ∧
  (SettlementCandidate_init p r = Ok c →
   sc_speedup c ∈ [sq_speedup p; sq_speedup r] ∧
   ∀ s, s ∈ [sq_speedup p; sq_speedup r] →
     dec_leb (speed_value (sc_speedup c)).1 (speed_value (sc_speedup c)).2 (speed_value s).1 (speed_value s).2 = true).
Proof.
  intros Hp Hr Hmp Hmr. split; [by apply candidate_init_Ok|]. intros [-> _]%candidate_init_Ok; [|done..]. unfold sc_speedup. cbn [sc_primary sc_reproduction].
  apply slower_of_two.
Qed.
