(* ===== verification/Publication.v ===== *)
(** * Weight projections and publication records

    The data of [chain/weights.py]: the exact weight vector that the signer may
    publish, and the immutable records of the publication journal.  The elements
    of [evidence_digests], [arena_state_digests] and [weights_ppm] are strings and
    integers here; a serialised row with other elements is refused, before the
    other checks, with the error that the checks raise for one such element (a
    list that mixes types makes Python's [sorted] raise [TypeError] instead). *)

From Stdlib Require Import ZArith Lia SpecFloat Ascii.
From stdpp Require Import base tactics numbers list strings gmap sorting.
From S2P Require Import Prelude PyValue Sha256 Identity Strict Provider FiniteDebt.

(** ** Binary64 arithmetic

    Python's [float] as the IEEE 754 binary64 numbers of the specification in
    the standard library ([SpecFloat]), with round-half-to-even operations, and
    [math.isclose].  Everything evaluates. *)

Definition float64 : Type := spec_float.

#[global] Instance float64_eq_dec : EqDecision float64.
Proof. unfold float64. solve_decision. Defined.

(** [float(z)] for an integer whose value fits. *)
Definition f_of_Z (z : Z) : float64 := binary_normalize 53 1024 z 0 false.

Definition f_zero : float64 := S754_zero false.
Definition f_add (x y : float64) : float64 := SFadd 53 1024 x y.
Definition f_sub (x y : float64) : float64 := SFsub 53 1024 x y.
Definition f_mul (x y : float64) : float64 := SFmul 53 1024 x y.
Definition f_div (x y : float64) : float64 := SFdiv 53 1024 x y.

(** [x <= y], [x < y] and [x == y]; false when either is not a number. *)
Definition f_leb (x y : float64) : bool := SFleb x y.
Definition f_ltb (x y : float64) : bool := SFltb x y.
Definition f_eqb (x y : float64) : bool := SFeqb x y.

Definition is_inf (x : float64) : bool := match x with S754_infinity _ => true | _ => false end.
(** [math.isfinite] *)
Definition is_finite (x : float64) : bool := match x with S754_infinity _ | S754_nan => false | _ => true end.

(** [math.isclose(a, b, rel_tol=rel, abs_tol=tol)] *)
Definition isclose (rel tol a b : float64) : bool :=
  if f_eqb a b then true
  else if is_inf a || is_inf b then false
  else
    let diff := SFabs (f_sub b a) in
    f_leb diff (SFabs (f_mul rel b)) || f_leb diff (SFabs (f_mul rel a)) || f_leb diff tol.

(** The literal [2e-5]. *)
Definition f_2em5 : float64 := S754_finite false 5902958103587057 (-68).

Lemma f_eqb_refl x : x ≠ S754_nan → f_eqb x x = true.
Proof.
  unfold f_eqb, SFeqb, SFcompare. destruct x as [[]|[]| |[] m e]; try done; intros _; rewrite Z.compare_refl, Pos.compare_cont_refl; done.
Qed.

Lemma isclose_refl rel tol x : x ≠ S754_nan → isclose rel tol x x = true.
Proof. intros Hx. unfold isclose. by rewrite f_eqb_refl. Qed.

Module WP.
Definition error (msg : string) : pyexn := Exn WeightPublicationError msg.

(** A non-empty string of at most 256 characters without outer white space. *)
Definition is_hotkey (s : string) : bool :=
  negb (bool_decide (s = "")) && bool_decide (strip s = s) && (str_len s <=? 256).

(** [type(v) is int and v >= 0] *)
Definition natural (msg : string) (v : pyval) : result Z :=
  match v with
  | PInt z => if z <? 0 then Raise (error msg) else Ok z
  | _ => Raise (error msg)
  end.

(** [reason]: a [str] of at most 2048 characters without NUL and line breaks. *)
Definition reason (v : pyval) : result string :=
  match v with
  | PStr s => if (2048 <? str_len s) || has_control_char s then Raise (error "publication reason is malformed") else Ok s
  | _ => Raise (error "publication reason is malformed")
  end.
End WP.

Definition WEIGHT_PARTS : Z := 1000000.
Definition PUBLICATION_STATUSES : list string := ["intent"; "pending"; "held"; "confirmed"; "released"].

(** ** Projections *)

Record WeightProjection := {
  wj_chain_scope_digest : string;
  wj_netuid : Z;
  wj_validator_hotkey : string;
  wj_policy_digest : string;
  wj_settlement_state_digest : string;
  wj_evaluation_state_digest : string;
  wj_metagraph_digest : string;
  wj_arena_state_digests : list string;
  wj_stack_generation : Z;
  wj_effective_block : Z;
  wj_crown_count : Z;
  wj_evidence_digests : list string;
  wj_weights_ppm : list (string * Z)
}.

(** [l != tuple(sorted(set(l))) or any(require_sha256_hex(value) != value ...)] *)
Definition digest_inventory (l : list string) : result bool :=
  if negb (bool_decide (l = sorted_set (list_to_set l))) then Ok false
  else do! forM_ l (λ d, do! require_sha256_hex (PStr d) ;; Ok tt) ;; Ok true.

(** The evidence and arena inventories, in the order the condition tests them. *)
Definition check_inventories (crown_count : Z) (evidence arenas : list string) : result unit :=
  let e := WP.error "projection evidence inventory is malformed" in
  let! ok := digest_inventory evidence in
  do! raise_if (negb ok) e ;;
  do! raise_if (Z.of_nat (length evidence) <? crown_count) e ;;
  do! raise_if (is_nil arenas) e ;;
  let! ok := digest_inventory arenas in
  raise_if (negb ok) e.

(** The weights are sorted, distinct, positive and add up to one million. *)
Definition check_weights (rows : list (string * Z)) : result unit :=
  raise_if (is_nil rows || negb (bool_decide (rows.*1 = sorted_set (list_to_set rows.*1)))
            || existsb (λ row, negb (WP.is_hotkey row.1) || (row.2 <=? 0)) rows
            || negb (Zsum rows.*2 =? WEIGHT_PARTS))
    (WP.error "projection weights are not canonical ppm").

(** [WeightProjection.__post_init__] *)
Definition WeightProjection_init
    (chain_scope_digest netuid validator_hotkey policy_digest settlement_state_digest evaluation_state_digest
     metagraph_digest : pyval) (arena_state_digests : list string) (stack_generation effective_block crown_count : pyval)
    (evidence_digests : list string) (weights_ppm : list (string * Z)) : result WeightProjection :=
  let! chain_scope_digest := require_sha256_hex chain_scope_digest in
  let! policy_digest := require_sha256_hex policy_digest in
  let! settlement_state_digest := require_sha256_hex settlement_state_digest in
  let! evaluation_state_digest := require_sha256_hex evaluation_state_digest in
  let! metagraph_digest := require_sha256_hex metagraph_digest in
  let identity := "projection chain/signer identity is malformed" in
  let! netuid := WP.natural identity netuid in
  let! validator_hotkey := require_str (WP.error identity) validator_hotkey in
  do! raise_if (negb (WP.is_hotkey validator_hotkey)) (WP.error identity) ;;
  let! stack_generation := WP.natural "projection stack_generation is malformed" stack_generation in
  let! effective_block := WP.natural "projection effective_block is malformed" effective_block in
  let! crown_count := WP.natural "projection crown_count is malformed" crown_count in
  do! check_inventories crown_count evidence_digests arena_state_digests ;;
  do! check_weights weights_ppm ;;
  Ok {| wj_chain_scope_digest := chain_scope_digest;
        wj_netuid := netuid;
        wj_validator_hotkey := validator_hotkey;
        wj_policy_digest := policy_digest;
        wj_settlement_state_digest := settlement_state_digest;
        wj_evaluation_state_digest := evaluation_state_digest;
        wj_metagraph_digest := metagraph_digest;
        wj_arena_state_digests := arena_state_digests;
        wj_stack_generation := stack_generation;
        wj_effective_block := effective_block;
        wj_crown_count := crown_count;
        wj_evidence_digests := evidence_digests;
        wj_weights_ppm := weights_ppm |}.

(** [{hotkey: ppm / WEIGHT_PARTS ...}] *)
Definition wj_weights (p : WeightProjection) : list (string * float64) :=
  (λ row, (row.1, f_div (f_of_Z row.2) (f_of_Z WEIGHT_PARTS))) <$> wj_weights_ppm p.

Definition WeightProjection_to_dict (p : WeightProjection) : pyval :=
  py_dict [
    ("chain_scope_digest", PStr (wj_chain_scope_digest p));
    ("arena_state_digests", py_strs (wj_arena_state_digests p));
    ("crown_count", PInt (wj_crown_count p));
    ("effective_block", PInt (wj_effective_block p));
    ("evaluation_state_digest", PStr (wj_evaluation_state_digest p));
    ("evidence_digests", py_strs (wj_evidence_digests p));
    ("netuid", PInt (wj_netuid p));
    ("metagraph_digest", PStr (wj_metagraph_digest p));
    ("policy_digest", PStr (wj_policy_digest p));
    ("settlement_state_digest", PStr (wj_settlement_state_digest p));
    ("stack_generation", PInt (wj_stack_generation p));
    ("validator_hotkey", PStr (wj_validator_hotkey p));
    ("weights_ppm", PList ((λ row, PList [PStr row.1; PInt row.2]) <$> wj_weights_ppm p))].

(** [type(value) is dict and set(value) == fields], as rows with string keys. *)
Definition exact_rows (fields : list string) (e : pyexn) (v : pyval) : result (list (string * pyval)) :=
  match v with
  | PDict kvs =>
      match all_str_keys kvs with
      | Some rows => do! raise_if (negb (bool_decide ((list_to_set rows.*1 : gset string) = list_to_set fields))) e ;; Ok rows
      | None => Raise e
      end
  | _ => Raise e
  end.

Definition digest_items (l : list pyval) : result (list string) :=
  mapM (λ v, match v with PStr s => Ok s | _ => Raise (Exn StackIdentityError "must be 64 lowercase hexadecimal characters") end) l.

(** [type(row) is list and len(row) == 2], and the elements' own types. *)
Definition weight_row (v : pyval) : result (string * Z) :=
  match v with
  | PList [PStr hotkey; PInt ppm] => Ok (hotkey, ppm)
  | PList [_; _] => Raise (WP.error "projection weights are not canonical ppm")
  | _ => Raise (WP.error "weight projection rows are malformed")
  end.

Definition WeightProjection_from_dict (v : pyval) : result WeightProjection :=
  let! row := exact_rows ["chain_scope_digest"; "netuid"; "validator_hotkey"; "policy_digest"; "settlement_state_digest";
                "evaluation_state_digest"; "metagraph_digest"; "arena_state_digests"; "stack_generation"; "effective_block";
                "crown_count"; "evidence_digests"; "weights_ppm"] (WP.error "weight projection fields do not match") v in
  let arrays := WP.error "weight projection arrays are malformed" in
  let! evidence := row_get row "evidence_digests" in
  let! evidence := require_list arrays evidence in
  let! arenas := row_get row "arena_state_digests" in
  let! arenas := require_list arrays arenas in
  let! weights := row_get row "weights_ppm" in
  let! weights := require_list arrays weights in
  do! raise_if (existsb (λ r, match r with PList [_; _] => false | _ => true end) weights)
        (WP.error "weight projection rows are malformed") ;;
  let! weights := mapM weight_row weights in
  let! evidence := digest_items evidence in
  let! arenas := digest_items arenas in
  let! chain_scope_digest := row_get row "chain_scope_digest" in
  let! netuid := row_get row "netuid" in
  let! validator_hotkey := row_get row "validator_hotkey" in
  let! policy_digest := row_get row "policy_digest" in
  let! settlement_state_digest := row_get row "settlement_state_digest" in
  let! evaluation_state_digest := row_get row "evaluation_state_digest" in
  let! metagraph_digest := row_get row "metagraph_digest" in
  let! stack_generation := row_get row "stack_generation" in
  let! effective_block := row_get row "effective_block" in
  let! crown_count := row_get row "crown_count" in
  WeightProjection_init chain_scope_digest netuid validator_hotkey policy_digest settlement_state_digest
    evaluation_state_digest metagraph_digest arenas stack_generation effective_block crown_count evidence weights.

(** ** Records *)

Record WeightPublicationRecord := {
  wr_projection_digest : string;
  wr_status : string;
  wr_prior_record_digest : option string;
  wr_submit_block : Z;
  wr_retry_after_block : Z;
  wr_reveal_round : Z;
  wr_confirmed_block : Z;
  wr_confirmed_last_update : Z;
  wr_reason : string
}.

#[global] Instance WeightPublicationRecord_eq_dec : EqDecision WeightPublicationRecord.
Proof. solve_decision. Defined.

(** [self.status not in PUBLICATION_STATUSES]; a list or dict cannot be hashed. *)
Definition status_of (v : pyval) : result string :=
  let! known := py_in_strs v PUBLICATION_STATUSES in
  match v with
  | PStr s => if known then Ok s else Raise (WP.error "publication status is unsupported")
  | _ => Raise (WP.error "publication status is unsupported")
  end.

(** The bounds each status needs. *)
Definition check_status_bounds (status : string) (submit retry confirmed last_update : Z) (reason : string) : result unit :=
  do! raise_if ((bool_decide (status = "intent") || bool_decide (status = "pending"))
                && ((submit <=? 0) || (retry <? submit)))
        (WP.error "in-flight publication bounds are malformed") ;;
  do! raise_if (bool_decide (status = "held")
                && negb (((submit =? 0) && (retry =? 0)) || ((0 <? submit) && (submit <=? retry))))
        (WP.error "held publication bounds are malformed") ;;
  do! raise_if (bool_decide (status = "confirmed")
                && ((confirmed <? last_update) || ((0 <? submit) && (last_update <? submit))))
        (WP.error "confirmation chronology is malformed") ;;
  raise_if (bool_decide (status = "released") && bool_decide (reason = ""))
    (WP.error "publication release requires an audit reason").

(** [None] or a digest *)
Definition prior_of (v : pyval) : result (option string) :=
  match v with PNone => Ok None | _ => let! d := require_sha256_hex v in Ok (Some d) end.

(** [WeightPublicationRecord.__post_init__] *)
Definition WeightPublicationRecord_init
    (projection_digest status prior_record_digest submit_block retry_after_block reveal_round confirmed_block
     confirmed_last_update reason : pyval) : result WeightPublicationRecord :=
  let! projection_digest := require_sha256_hex projection_digest in
  let! prior_record_digest := prior_of prior_record_digest in
  let! status := status_of status in
  let! submit_block := WP.natural "publication submit_block is malformed" submit_block in
  let! retry_after_block := WP.natural "publication retry_after_block is malformed" retry_after_block in
  let! reveal_round := WP.natural "publication reveal_round is malformed" reveal_round in
  let! confirmed_block := WP.natural "publication confirmed_block is malformed" confirmed_block in
  let! confirmed_last_update := WP.natural "publication confirmed_last_update is malformed" confirmed_last_update in
  let! reason := WP.reason reason in
  do! check_status_bounds status submit_block retry_after_block confirmed_block confirmed_last_update reason ;;
  Ok {| wr_projection_digest := projection_digest;
        wr_status := status;
        wr_prior_record_digest := prior_record_digest;
        wr_submit_block := submit_block;
        wr_retry_after_block := retry_after_block;
        wr_reveal_round := reveal_round;
        wr_confirmed_block := confirmed_block;
        wr_confirmed_last_update := confirmed_last_update;
        wr_reason := reason |}.

Definition WeightPublicationRecord_to_dict (r : WeightPublicationRecord) : pyval :=
  py_dict [
    ("confirmed_block", PInt (wr_confirmed_block r));
    ("confirmed_last_update", PInt (wr_confirmed_last_update r));
    ("prior_record_digest", match wr_prior_record_digest r with None => PNone | Some d => PStr d end);
    ("projection_digest", PStr (wr_projection_digest r));
    ("reason", PStr (wr_reason r));
    ("retry_after_block", PInt (wr_retry_after_block r));
    ("reveal_round", PInt (wr_reveal_round r));
    ("status", PStr (wr_status r));
    ("submit_block", PInt (wr_submit_block r))].

Definition WeightPublicationRecord_from_dict (v : pyval) : result WeightPublicationRecord :=
  let! row := exact_rows ["projection_digest"; "status"; "prior_record_digest"; "submit_block"; "retry_after_block";
                "reveal_round"; "confirmed_block"; "confirmed_last_update"; "reason"]
                (WP.error "publication record fields do not match") v in
  let! projection_digest := row_get row "projection_digest" in
  let! status := row_get row "status" in
  let! prior_record_digest := row_get row "prior_record_digest" in
  let! submit_block := row_get row "submit_block" in
  let! retry_after_block := row_get row "retry_after_block" in
  let! reveal_round := row_get row "reveal_round" in
  let! confirmed_block := row_get row "confirmed_block" in
  let! confirmed_last_update := row_get row "confirmed_last_update" in
  let! reason := row_get row "reason" in
  WeightPublicationRecord_init projection_digest status prior_record_digest submit_block retry_after_block reveal_round
    confirmed_block confirmed_last_update reason.

(** [replace(record, prior_record_digest=...)] runs the checks again. *)
Definition with_prior (r : WeightPublicationRecord) (prior : option string) : result WeightPublicationRecord :=
  WeightPublicationRecord_init (PStr (wr_projection_digest r)) (PStr (wr_status r))
    (match prior with None => PNone | Some d => PStr d end) (PInt (wr_submit_block r)) (PInt (wr_retry_after_block r))
    (PInt (wr_reveal_round r)) (PInt (wr_confirmed_block r)) (PInt (wr_confirmed_last_update r)) (PStr (wr_reason r)).

(** ** Results *)

Record WeightPublicationResult := {
  wo_projection_digest : string;
  wo_status : string;
  wo_record : option WeightPublicationRecord;
  wo_chain_matches : bool;
  wo_submitted : bool;
  wo_dry_run : bool;
  wo_observed_block : Z;
  wo_refresh_due : bool
}.

(** [WeightPublicationResult.__post_init__] *)
Definition WeightPublicationResult_init (projection_digest status : string) (record : option WeightPublicationRecord)
    (chain_matches submitted dry_run : bool) (observed_block : Z) (refresh_due : bool) : result WeightPublicationResult :=
  do! require_sha256_hex (PStr projection_digest) ;;
  do! raise_if (negb (bool_decide (status ∈ PUBLICATION_STATUSES) || bool_decide (status = "dry_run"))
                || (observed_block <? 0)
                || negb (Bool.eqb dry_run (bool_decide (status = "dry_run")))
                || negb (Bool.eqb (bool_decide (status = "dry_run")) (match record with None => true | Some _ => false end))
                || match record with Some r => negb (bool_decide (status = wr_status r)) | None => false end
                || (refresh_due && (negb (bool_decide (status = "confirmed")) || negb chain_matches)))
        (WP.error "publication result status is unsupported") ;;
  Ok {| wo_projection_digest := projection_digest; wo_status := status; wo_record := record;
        wo_chain_matches := chain_matches; wo_submitted := submitted; wo_dry_run := dry_run;
        wo_observed_block := observed_block; wo_refresh_due := refresh_due |}.

Section digests.
Context `{Sha256}.

Definition WeightProjection_digest (p : WeightProjection) : string :=
  digest_of "optima.chain.weight-projection" (WeightProjection_to_dict p).

Definition WeightPublicationRecord_digest (r : WeightPublicationRecord) : string :=
  digest_of "optima.chain.weight-publication" (WeightPublicationRecord_to_dict r).
End digests.

#[global] Arguments WeightProjection_digest : simpl never.
#[global] Arguments WeightPublicationRecord_digest : simpl never.
#[global] Arguments WeightPublicationRecord_from_dict : simpl never.
#[global] Arguments WeightProjection_from_dict : simpl never.
#[global] Arguments WeightPublicationRecord_to_dict : simpl never.
#[global] Arguments WeightProjection_to_dict : simpl never.
