(* ===== verification/Programs.v ===== *)
(** * Programs that talk to the chain and the journal

    [reconcile_weight_publication] and the readers of [chain/__init__.py] call a
    chain client (a library) and a journal.  A program here is the tree of its
    calls: each node is a call, with a branch for every value or exception the
    other side may answer with.  [runs p tr out] says that [p] has the outcome
    [out] when its calls are answered as the trace [tr] records, so a property of
    all traces holds whatever chain and journal do, other writers included;
    [replay] computes the outcome for a given trace. *)

From Stdlib Require Import ZArith Lia Ascii SpecFloat.
From stdpp Require Import base tactics numbers list strings gmap sorting.
From S2P Require Import Prelude PyValue Sha256 Identity Strict Publication.

(** ** Programs *)

(** The metagraph object of the client: the attributes the code reads. *)
Record RawMetagraph := {
  rm_block : pyval;
  rm_uids : list pyval;
  rm_hotkeys : list pyval;
  rm_validator_permit : list pyval;
  rm_last_update : list pyval
}.

(** What the client's [set_weights] returns: a plain value, or an object with the
    attributes [success] (if it has one) and [data]. *)
Inductive SdkResult :=
  | SdkValue (v : pyval)
  | SdkObject (success : option pyval) (data : pyval).

Inductive prog (A : Type) : Type :=
  | Ret (a : A)
  | Throw (e : pyexn)
  | GetFinalizedNumber (k : result pyval → prog A)
  | GetFinalizedHead (k : result string → prog A)
  | GetBlockNumber (hash : string) (k : result pyval → prog A)
  | GetBlockHash (block : Z) (k : result string → prog A)
  | GetMetagraph (netuid block : Z) (k : result RawMetagraph → prog A)
  | GetWeights (netuid block : Z) (k : result (list pyval) → prog A)
  | Submit (netuid : Z) (uids : list Z) (weights : list float64) (k : result SdkResult → prog A)
  | Load (k : result (option WeightPublicationRecord) → prog A)
  | Retained (digest : string) (k : result WeightProjection → prog A)
  | Swap (expected : option string) (r : WeightPublicationRecord) (k : result unit → prog A).
Arguments Ret {A} _.
Arguments Throw {A} _.
Arguments GetFinalizedNumber {A} _.
Arguments GetFinalizedHead {A} _.
Arguments GetBlockNumber {A} _ _.
Arguments GetBlockHash {A} _ _.
Arguments GetMetagraph {A} _ _ _.
Arguments GetWeights {A} _ _ _.
Arguments Submit {A} _ _ _ _.
Arguments Load {A} _.
Arguments Retained {A} _ _.
Arguments Swap {A} _ _ _.

(** One answered call. *)
Inductive obs :=
  | OFinalizedNumber (r : result pyval)
  | OFinalizedHead (r : result string)
  | OBlockNumber (hash : string) (r : result pyval)
  | OBlockHash (block : Z) (r : result string)
  | OMetagraph (netuid block : Z) (r : result RawMetagraph)
  | OWeights (netuid block : Z) (r : result (list pyval))
  | OSubmit (netuid : Z) (uids : list Z) (weights : list float64) (r : result SdkResult)
  | OLoad (r : result (option WeightPublicationRecord))
  | ORetained (digest : string) (r : result WeightProjection)
  | OSwap (expected : option string) (r : WeightPublicationRecord) (answer : result unit).

(** Continues every leaf of a program with its outcome. *)
Fixpoint prog_then {A B} (p : prog A) (f : result A → prog B) : prog B :=
  match p with
  | Ret a => f (Ok a)
  | Throw e => f (Raise e)
  | GetFinalizedNumber k => GetFinalizedNumber (λ r, prog_then (k r) f)
  | GetFinalizedHead k => GetFinalizedHead (λ r, prog_then (k r) f)
  | GetBlockNumber h k => GetBlockNumber h (λ r, prog_then (k r) f)
  | GetBlockHash b k => GetBlockHash b (λ r, prog_then (k r) f)
  | GetMetagraph n b k => GetMetagraph n b (λ r, prog_then (k r) f)
  | GetWeights n b k => GetWeights n b (λ r, prog_then (k r) f)
  | Submit n u w k => Submit n u w (λ r, prog_then (k r) f)
  | Load k => Load (λ r, prog_then (k r) f)
  | Retained d k => Retained d (λ r, prog_then (k r) f)
  | Swap e x k => Swap e x (λ r, prog_then (k r) f)
  end.

Definition lift {A} (r : result A) : prog A := match r with Ok a => Ret a | Raise e => Throw e end.

Definition pbind {A B} (p : prog A) (f : A → prog B) : prog B :=
  prog_then p (λ out, match out with Ok a => f a | Raise e => Throw e end).

(** [try: p except ...: handler(exc)] *)
Definition pcatch {A} (p : prog A) (handler : pyexn → prog A) : prog A :=
  prog_then p (λ out, match out with Ok a => Ret a | Raise e => handler e end).

Notation "'let*' x ':=' p 'in' k" := (pbind p (λ x, k))
  (at level 10, x binder, p at level 99, k at level 200) : py_scope.
Notation "'do*' p ';;' k" := (pbind p (λ _, k))
  (at level 10, p at level 99, k at level 200) : py_scope.

(** [if b: raise e] *)
Definition pcheck (b : bool) (e : pyexn) : prog unit := lift (raise_if b e).

(** ** Traces *)

Fixpoint runs {A} (p : prog A) (tr : list obs) (out : result A) : Prop :=
  match p with
  | Ret a => tr = [] ∧ out = Ok a
  | Throw e => tr = [] ∧ out = Raise e
  | GetFinalizedNumber k => ∃ r tr', tr = OFinalizedNumber r :: tr' ∧ runs (k r) tr' out
  | GetFinalizedHead k => ∃ r tr', tr = OFinalizedHead r :: tr' ∧ runs (k r) tr' out
  | GetBlockNumber h k => ∃ r tr', tr = OBlockNumber h r :: tr' ∧ runs (k r) tr' out
  | GetBlockHash b k => ∃ r tr', tr = OBlockHash b r :: tr' ∧ runs (k r) tr' out
  | GetMetagraph n b k => ∃ r tr', tr = OMetagraph n b r :: tr' ∧ runs (k r) tr' out
  | GetWeights n b k => ∃ r tr', tr = OWeights n b r :: tr' ∧ runs (k r) tr' out
  | Submit n u w k => ∃ r tr', tr = OSubmit n u w r :: tr' ∧ runs (k r) tr' out
  | Load k => ∃ r tr', tr = OLoad r :: tr' ∧ runs (k r) tr' out
  | Retained d k => ∃ r tr', tr = ORetained d r :: tr' ∧ runs (k r) tr' out
  | Swap e x k => ∃ r tr', tr = OSwap e x r :: tr' ∧ runs (k r) tr' out
  end.

(** The outcome of a program on a trace, if the trace answers its calls. *)
Fixpoint replay {A} (p : prog A) (tr : list obs) {struct p} : option (result A) :=
  match p, tr with
  | Ret a, [] => Some (Ok a)
  | Throw e, [] => Some (Raise e)
  | GetFinalizedNumber k, OFinalizedNumber r :: tr => replay (k r) tr
  | GetFinalizedHead k, OFinalizedHead r :: tr => replay (k r) tr
  | GetBlockNumber h k, OBlockNumber h' r :: tr => if bool_decide (h = h') then replay (k r) tr else None
  | GetBlockHash b k, OBlockHash b' r :: tr => if b =? b' then replay (k r) tr else None
  | GetMetagraph n b k, OMetagraph n' b' r :: tr => if (n =? n') && (b =? b') then replay (k r) tr else None
  | GetWeights n b k, OWeights n' b' r :: tr => if (n =? n') && (b =? b') then replay (k r) tr else None
  | Submit n u w k, OSubmit n' u' w' r :: tr =>
      if (n =? n') && bool_decide (u = u') && bool_decide (w = w') then replay (k r) tr else None
  | Load k, OLoad r :: tr => replay (k r) tr
  | Retained d k, ORetained d' r :: tr => if bool_decide (d = d') then replay (k r) tr else None
  | Swap e x k, OSwap e' x' r :: tr => if bool_decide (e = e') && bool_decide (x = x') then replay (k r) tr else None
  | _, _ => None
  end.

(** A run that was cut off (a crash, or a client that is still waiting). *)
Definition partial {A} (p : prog A) (tr : list obs) : Prop := ∃ rest out, runs p (tr ++ rest) out.

Lemma replay_runs {A} (p : prog A) tr out : replay p tr = Some out → runs p tr out.
Proof.
  revert tr. induction p; intros [|[] tr]; simpl; intros Hr; simplify_eq; try done;
    repeat case_match; simplify_eq; bool_prop; subst; eauto 10.
Qed.

Lemma runs_replay {A} (p : prog A) tr out : runs p tr out → replay p tr = Some out.
Proof.
  revert tr. induction p as [| | | | | | | | | | |]; simpl; intros tr Hr; destruct_and?; destruct_exists; destruct_and?; subst;
    rewrite ?Z.eqb_refl, ?bool_decide_eq_true_2; simpl; auto.
Qed.

(** A program has at most one outcome for a trace. *)
Lemma runs_det {A} (p : prog A) tr out out' : runs p tr out → runs p tr out' → out = out'.
Proof.
  revert tr. induction p; simpl; intros tr H1 H2; destruct_and?; destruct_exists; destruct_and?; simplify_eq; eauto.
Qed.

Lemma runs_then {A B} (p : prog A) (f : result A → prog B) tr out :
  runs (prog_then p f) tr out ↔ ∃ tr1 tr2 mid, tr = tr1 ++ tr2 ∧ runs p tr1 mid ∧ runs (f mid) tr2 out.
Proof.
  split.
  - revert tr. induction p; simpl; intros tr Hr;
      [by exists [], tr; eauto | by exists [], tr; eauto | ..];
      destruct Hr as (? & ? & -> & Hr); apply H in Hr as (tr1 & tr2 & mid & -> & H1 & H2);
      eexists (_ :: tr1), tr2, mid; split_and!; eauto.
  - intros (tr1 & tr2 & mid & -> & H1 & H2). revert tr1 H1.
    induction p; simpl; intros tr1 H1; [by destruct H1 as [-> ->] .. | | | | | | | | | |];
      destruct H1 as (? & ? & -> & H1); simpl; eexists _, _; split; eauto.
Qed.

(** A sequence runs both parts, or stops at the exception of the first. *)
Lemma runs_bind {A B} (p : prog A) (f : A → prog B) tr out :
  runs (pbind p f) tr out ↔
    (∃ tr1 tr2 a, tr = tr1 ++ tr2 ∧ runs p tr1 (Ok a) ∧ runs (f a) tr2 out)
    ∨ ∃ e, runs p tr (Raise e) ∧ out = Raise e.
Proof.
  unfold pbind. rewrite runs_then. split.
  - intros (tr1 & tr2 & [a|e] & -> & H1 & H2); simpl in H2; [by left; eauto 10|].
    destruct H2 as [-> ->]. right. rewrite app_nil_r. eauto.
  - intros [(tr1 & tr2 & a & -> & H1 & H2) | (e & H1 & ->)]; [by exists tr1, tr2, (Ok a)|].
    exists tr, [], (Raise e). by rewrite app_nil_r.
Qed.

(** [try/except] keeps a value and hands an exception to the handler. *)
Lemma runs_catch {A} (p : prog A) (h : pyexn → prog A) tr out :
  runs (pcatch p h) tr out ↔
    (∃ a, runs p tr (Ok a) ∧ out = Ok a)
    ∨ ∃ tr1 tr2 e, tr = tr1 ++ tr2 ∧ runs p tr1 (Raise e) ∧ runs (h e) tr2 out.
Proof.
  unfold pcatch. rewrite runs_then. split.
  - intros (tr1 & tr2 & [a|e] & -> & H1 & H2); simpl in H2; [|by right; eauto 10].
    destruct H2 as [-> ->]. left. rewrite app_nil_r. eauto.
  - intros [(a & H1 & ->) | (tr1 & tr2 & e & -> & H1 & H2)]; [|by exists tr1, tr2, (Raise e)].
    exists tr, [], (Ok a). by rewrite app_nil_r.
Qed.

Lemma runs_lift {A} (m : result A) tr out : runs (lift m) tr out ↔ tr = [] ∧ out = m.
Proof. by destruct m. Qed.

(** ** Reads and effects *)

(** The calls that neither read nor write the journal and submit nothing. *)
Definition is_read (o : obs) : bool :=
  match o with OSubmit _ _ _ _ | OLoad _ | ORetained _ _ | OSwap _ _ _ => false | _ => true end.

(** A program that only reads the chain. *)
Definition quiet {A} (p : prog A) : Prop := ∀ tr out, runs p tr out → Forall (λ o, is_read o) tr.

Create HintDb quiet.

Lemma quiet_lift {A} (m : result A) : quiet (lift m).
Proof. intros tr out [-> _]%runs_lift. constructor. Qed.

Lemma quiet_ret {A} (a : A) : quiet (Ret a).
Proof. intros tr out [-> _]. constructor. Qed.

Lemma quiet_throw {A} (e : pyexn) : quiet (A:=A) (Throw e).
Proof. intros tr out [-> _]. constructor. Qed.

Lemma quiet_bind {A B} (p : prog A) (f : A → prog B) : quiet p → (∀ a, quiet (f a)) → quiet (pbind p f).
Proof.
  intros Hp Hf tr out [(tr1 & tr2 & a & -> & H1 & H2) | (e & H1 & ->)]%runs_bind; [|by eapply Hp].
  apply Forall_app; split; [by eapply Hp|by eapply Hf].
Qed.

Lemma quiet_catch {A} (p : prog A) h : quiet p → (∀ e, quiet (h e)) → quiet (pcatch p h).
Proof.
  intros Hp Hh tr out [(a & H1 & ->) | (tr1 & tr2 & e & -> & H1 & H2)]%runs_catch; [by eapply Hp|].
  apply Forall_app; split; [by eapply Hp|by eapply Hh].
Qed.
#[export] Hint Resolve quiet_lift quiet_ret quiet_throw quiet_bind quiet_catch : quiet.

(** The head call of a reader. *)
Ltac quiet_call :=
  let tr := fresh in let out := fresh in let r := fresh in let t := fresh in let Hr := fresh in
  intros tr out; simpl; intros (r & t & -> & Hr); constructor; [done|]; revert Hr; generalize out; generalize t;
  match goal with |- ∀ t o, runs ?p t o → _ => change (quiet p) end.
