(* ===== verification/Chain.v ===== *)
(** * Chain readers and the weight extrinsic

    The parts of [chain/__init__.py] that weight publication uses, over the raw
    answers of the client: the finalized head, the metagraph at an exact finalized
    block, a validator's sparse weight row, and the submission of a vector.  A
    value with [__index__] is the integer it stands for; an answer of
    [get_block_hash] is its [str]; the text an error message takes from another
    exception is left out.  The callers pass [float] weights only, so weight
    vectors are typed.  [compensated] says which built-in [sum] the interpreter
    has: since Python 3.12 it adds floats with Neumaier's correction. *)

From Stdlib Require Import ZArith Lia Ascii SpecFloat.
From stdpp Require Import base tactics numbers list strings gmap sorting.
From S2P Require Import Prelude PyValue Sha256 Identity Strict Publication Programs.

(** ** Finalized points *)

Definition chain_error (msg : string) : pyexn := Exn ChainWeightStateError msg.
Definition reveal_error (msg : string) : pyexn := Exn ChainRevealHistoryError msg.

Definition is_class (c : exn_class) (e : pyexn) : bool := bool_decide (exn_cls e = c).

Definition is_hex_any (c : ascii) : bool := is_lower_hex c || ((65 <=? code c) && (code c <=? 70)).

(** [0x[0-9a-fA-F]{64}] with [fullmatch] *)
Definition _BLOCK_HASH_RE (s : string) : bool :=
  match s with
  | String "0" (String "x" t) => (str_len t =? 64) && forallb is_hex_any (chars t)
  | _ => false
  end.

Record MetagraphView := {
  mg_netuid : Z;
  mg_block : Z;
  mg_block_hash : string;
  mg_uids : list Z;
  mg_hotkeys : list string;
  mg_validator_permit : list bool;
  mg_last_update : list Z
}.

Record ValidatorWeightSnapshot := { vs_weights : list (string * float64); vs_last_update_block : Z }.

(** [l.index(x)] *)
Fixpoint list_index (l : list string) (x : string) : option nat :=
  match l with
  | [] => None
  | y :: l => if bool_decide (y = x) then Some 0%nat else S <$> list_index l x
  end.

(** [self.uids[self.hotkeys.index(hotkey)]], or [None] *)
Definition uid_of (mg : MetagraphView) (hotkey : string) : result (option Z) :=
  match list_index (mg_hotkeys mg) hotkey with
  | None => Ok None
  | Some i => match mg_uids mg !! i with
              | Some uid => Ok (Some uid)
              | None => Raise (Exn IndexError "list index out of range")
              end
  end.

Definition _weight_uint (maximum : option Z) (msg : string) (raw : pyval) : result Z :=
  match raw with
  | PInt z => do! raise_if ((z <? 0) || match maximum with Some m => m <? z | None => false end) (chain_error msg) ;; Ok z
  | _ => Raise (chain_error msg)
  end.

Definition _chain_uint (msg : string) (raw : pyval) : result Z :=
  match raw with
  | PInt z => do! raise_if (z <? 0) (reveal_error msg) ;; Ok z
  | _ => Raise (reveal_error msg)
  end.

Definition _block_hash (block : Z) : prog string :=
  GetBlockHash block (λ answer,
    match answer with
    | Raise _ => Throw (reveal_error "cannot resolve canonical hash for block")
    | Ok value =>
        if _BLOCK_HASH_RE value then Ret (lower value) else Throw (reveal_error "chain returned an invalid hash for block")
    end).

(** Which finalized-chain API the client object exposes. *)
Inductive FinalizedApi :=
  | DirectNumber
  | Substrate (has_number_reader : bool)
  | NoFinalizedApi.

Definition _finalized_head (api : FinalizedApi) : prog (Z * string) :=
  match api with
  | DirectNumber =>
      let* block := GetFinalizedNumber (λ answer,
        match answer with
        | Raise _ => Throw (reveal_error "cannot read finalized block number")
        | Ok v => lift (_chain_uint "chain finalized block is invalid" v)
        end) in
      let* hash := _block_hash block in
      Ret (block, hash)
  | NoFinalizedApi => Throw (reveal_error "subtensor exposes no finalized-chain API")
  | Substrate has_number_reader =>
      let failed := reveal_error "cannot resolve finalized chain head" in
      let* found := GetFinalizedHead (λ answer,
        match answer with
        | Raise _ => Throw failed
        | Ok text =>
            let head_hash := lower text in
            do* pcheck (negb (_BLOCK_HASH_RE head_hash) || negb has_number_reader) failed ;;
            GetBlockNumber head_hash (λ answer,
              match answer with
              | Raise _ => Throw failed
              | Ok v => lift (result_map (λ block, (block, head_hash)) (_chain_uint "chain finalized block is invalid" v))
              end)
        end) in
      let* hash := _block_hash found.1 in
      do* pcheck (negb (bool_decide (hash = found.2))) (reveal_error "finalized height/hash pair is inconsistent") ;;
      Ret found
  end.

(** [except ChainRevealHistoryError as exc: raise ChainWeightStateError(...)] *)
Definition as_weight_error {A} (msg : string) (p : prog A) : prog A :=
  pcatch p (λ e, Throw (if is_class ChainRevealHistoryError e then chain_error msg else e)).

Definition _weight_finalized_point (api : FinalizedApi) (block : option Z) : prog (Z * string) :=
  as_weight_error "cannot resolve finalized weight authority"
    (let* head := _finalized_head api in
     match block with
     | None => Ret head
     | Some requested =>
         do* pcheck (requested <? 0) (chain_error "invalid metagraph block") ;;
         do* pcheck (head.1 <? requested) (chain_error "requested metagraph block is newer than the finalized head") ;;
         let* hash := _block_hash requested in
         Ret (requested, hash)
     end).

(** ** Metagraph views *)

(** The checks of [fetch_metagraph] on the client's answer. *)
Definition view_of (netuid block : Z) (block_hash : string) (mg : RawMetagraph) : result MetagraphView :=
  let! reported := _weight_uint None "invalid returned metagraph block" (rm_block mg) in
  do! raise_if (negb (reported =? block)) (chain_error "metagraph response does not match the requested finalized block") ;;
  let! uids := mapM (_weight_uint None "invalid metagraph UID") (rm_uids mg) in
  let! last_update := mapM (_weight_uint None "invalid metagraph last-update block") (rm_last_update mg) in
  do! raise_if (negb ((length uids =? length (rm_hotkeys mg))%nat && (length (rm_hotkeys mg) =? length (rm_validator_permit mg))%nat
                      && (length (rm_validator_permit mg) =? length last_update)%nat))
        (chain_error "metagraph UID/hotkey/permit/last-update widths differ") ;;
  let membership := chain_error "metagraph contains invalid or duplicate UID/hotkey membership" in
  let! hotkeys := mapM (λ v, match v with PStr s => if bool_decide (s = "") then Raise membership else Ok s | _ => Raise membership end)
                    (rm_hotkeys mg) in
  do! raise_if (negb (bool_decide (NoDup uids)) || negb (bool_decide (NoDup hotkeys))) membership ;;
  Ok {| mg_netuid := netuid; mg_block := block; mg_block_hash := block_hash; mg_uids := uids; mg_hotkeys := hotkeys;
        mg_validator_permit := truthy <$> rm_validator_permit mg; mg_last_update := last_update |}.

(** [fetch_metagraph]; any other exception of the body becomes a
    [ChainWeightStateError] too. *)
Definition fetch_metagraph (api : FinalizedApi) (netuid : Z) (block : option Z) : prog MetagraphView :=
  do* pcheck (netuid <? 0) (chain_error "netuid must be a non-negative integer") ;;
  let* point := _weight_finalized_point api block in
  pcatch
    (let* view := GetMetagraph netuid point.1 (λ answer,
       match answer with Raise e => Throw e | Ok mg => lift (view_of netuid point.1 point.2 mg) end) in
     let* hash := _block_hash point.1 in
     do* pcheck (negb (bool_decide (hash = point.2))) (chain_error "finalized metagraph height/hash changed while it was read") ;;
     Ret view)
    (λ e, Throw (if is_class ChainWeightStateError e then e
                 else if is_class ChainRevealHistoryError e then chain_error "cannot verify finalized metagraph provenance"
                 else chain_error "cannot fetch finalized metagraph")).

Definition _reopen_metagraph_view (api : FinalizedApi) (netuid : Z) (supplied : MetagraphView) : prog MetagraphView :=
  do* pcheck (negb (mg_netuid supplied =? netuid)) (chain_error "supplied metagraph view is not authoritative") ;;
  do* pcheck (negb (_BLOCK_HASH_RE (mg_block_hash supplied))) (chain_error "supplied metagraph view has an invalid block hash") ;;
  let* reopened := fetch_metagraph api netuid (Some (mg_block supplied)) in
  do* pcheck (negb (bool_decide (mg_block_hash reopened = lower (mg_block_hash supplied)))
              || negb (bool_decide (mg_uids reopened = mg_uids supplied))
              || negb (bool_decide (mg_hotkeys reopened = mg_hotkeys supplied)))
        (chain_error "supplied metagraph view differs from finalized chain membership") ;;
  Ret reopened.

(** ** Weight vectors *)

(** [sum(values)] of floats.  [0 + x] starts it; with [compensated] the running
    error is kept and added at the end when it is finite and not zero. *)
Fixpoint neumaier (acc c : float64) (l : list float64) : float64 :=
  match l with
  | [] => if negb (f_eqb c f_zero) && is_finite c then f_add acc c else acc
  | x :: l =>
      let t := f_add acc x in
      let c := if f_leb (SFabs x) (SFabs acc) then f_add c (f_add (f_sub acc t) x)
               else f_add c (f_add (f_sub x t) acc) in
      neumaier t c l
  end.

Definition float_sum (compensated : bool) (l : list float64) : float64 :=
  match l with
  | [] => f_zero
  | x :: l => if compensated then neumaier (f_add f_zero x) f_zero l else foldl f_add (f_add f_zero x) l
  end.

Section reader.
Context (compensated : bool).

Definition normalize (weights : list (string * float64)) : list (string * float64) :=
  let pos := filter (λ row, Is_true (f_ltb f_zero row.2)) weights in
  let total := float_sum compensated pos.*2 in
  if f_leb total f_zero then [] else (λ row, (row.1, f_div row.2 total)) <$> pos.

(** [metagraph.uid_of(hotkey)] for every hotkey. *)
Definition uids_of (mg : MetagraphView) (hotkeys : list string) : result (list (option Z)) := mapM (uid_of mg) hotkeys.

(** A UID that [set_weights] can send. *)
Definition sent_uid (uid : option Z) : result Z :=
  let e := chain_error "live metagraph maps weight recipients to invalid or duplicate UIDs" in
  match uid with
  | Some z => if z <? 0 then Raise e else Ok z
  | None => Raise e
  end.

Definition weights_to_uid_vector (weights_by_hotkey : list (string * float64)) (mg : MetagraphView)
    : result (list Z * list float64) :=
  do! forM_ weights_by_hotkey (λ row,
        do! raise_if (bool_decide (row.1 = "")) (chain_error "weight projection contains an invalid entry") ;;
        raise_if (negb (is_finite row.2) || f_ltb row.2 f_zero) (chain_error "weight projection contains an invalid value")) ;;
  let positive := filter (λ row, Is_true (f_ltb f_zero row.2)) weights_by_hotkey in
  let! found := uids_of mg positive.*1 in
  do! raise_if (existsb (λ uid, match uid with None => true | Some _ => false end) found)
        (chain_error "positive-weight hotkeys are absent from the live metagraph") ;;
  let norm := normalize positive in
  let! uids := uids_of mg norm.*1 in
  let! uids := mapM sent_uid uids in
  do! raise_if (negb (bool_decide (NoDup uids)))
        (chain_error "live metagraph maps weight recipients to invalid or duplicate UIDs") ;;
  Ok (uids, norm.*2).

(** ** The sparse row of a validator *)

(** [isinstance(v, (list, tuple)) and len(v) == 2] *)
Definition pair_of (v : pyval) : option (pyval * pyval) :=
  match v with
  | PList [a; b] | PTuple [a; b] => Some (a, b)
  | _ => None
  end.

Definition items_of (v : pyval) : option (list pyval) :=
  match v with PList l | PTuple l => Some l | _ => None end.

(** One target of a row. *)
Definition weight_target (uids : list Z) (targets : list (Z * Z)) (raw : pyval) : result (list (Z * Z)) :=
  match pair_of raw with
  | None => Raise (chain_error "chain weight state contains a malformed target row")
  | Some (raw_uid, raw_weight) =>
      let! target := _weight_uint None "invalid chain weight target UID" raw_uid in
      do! raise_if (negb (bool_decide (target ∈ uids)))
            (chain_error "chain weight state contains a target UID absent from the metagraph") ;;
      do! raise_if (bool_decide (target ∈ targets.*1)) (chain_error "chain weight state contains duplicate target UIDs") ;;
      let! weight := _weight_uint (Some 65535) "invalid uint16 weight" raw_weight in
      Ok (targets ++ [(target, weight)])
  end.

(** One row of the chain's weight state. *)
Definition weight_source (uids : list Z) (rows : list (Z * list (Z * Z))) (raw : pyval) : result (list (Z * list (Z * Z))) :=
  match pair_of raw with
  | None => Raise (chain_error "chain weight state contains a malformed row")
  | Some (raw_source, raw_targets) =>
      let! source := _weight_uint None "invalid chain weight source UID" raw_source in
      do! raise_if (negb (bool_decide (source ∈ uids)))
            (chain_error "chain weight state contains a source UID absent from the metagraph") ;;
      do! raise_if (bool_decide (source ∈ rows.*1)) (chain_error "chain weight state contains duplicate source rows") ;;
      match items_of raw_targets with
      | None => Raise (chain_error "chain weight state contains malformed targets")
      | Some raw_targets =>
          let! targets := foldM (weight_target uids) raw_targets [] in
          Ok (rows ++ [(source, targets)])
      end
  end.

(** [rows.get(key, {})] and [uid_to_hotkey[uid]] *)
Definition z_assoc {A} (rows : list (Z * A)) (key : Z) : option A := snd <$> find (λ row, row.1 =? key) rows.

(** [{uid_to_hotkey[target]: float(weight) ... if weight > 0}] *)
Definition row_weights (members : list (Z * string)) (targets : list (Z * Z)) : list (string * float64) :=
  omap (λ row, if 0 <? row.2 then (λ hotkey, (hotkey, f_of_Z row.2)) <$> z_assoc members row.1 else None) targets.

(** The checks that the reader repeats on the view it was given. *)
Definition check_view (mg : MetagraphView) : result unit :=
  let width := length (mg_hotkeys mg) in
  do! raise_if (negb (length (mg_uids mg) =? width)%nat || negb (length (mg_last_update mg) =? width)%nat)
        (chain_error "metagraph UID/hotkey/last-update widths differ") ;;
  do! raise_if (existsb (λ h, bool_decide (h = "")) (mg_hotkeys mg)) (chain_error "metagraph contains an invalid hotkey") ;;
  do! raise_if (negb (bool_decide (NoDup (mg_hotkeys mg)))) (chain_error "metagraph contains duplicate hotkeys") ;;
  do! mapM (_weight_uint None "invalid metagraph UID") (PInt <$> mg_uids mg) ;;
  do! mapM (_weight_uint None "invalid metagraph last-update block") (PInt <$> mg_last_update mg) ;;
  raise_if (negb (bool_decide (NoDup (mg_uids mg)))) (chain_error "metagraph contains duplicate UIDs").

(** The snapshot from the chain's weight rows. *)
Definition snapshot_of (mg : MetagraphView) (uid last_update : Z) (raw_rows : list pyval) : result ValidatorWeightSnapshot :=
  let! rows := foldM (weight_source (mg_uids mg)) raw_rows [] in
  let targets := default [] (z_assoc rows uid) in
  Ok {| vs_weights := normalize (row_weights (zip (mg_uids mg) (mg_hotkeys mg)) targets); vs_last_update_block := last_update |}.

Definition read_validator_weight_snapshot (api : FinalizedApi) (netuid : Z) (validator_hotkey : string)
    (metagraph_view : option MetagraphView) : prog ValidatorWeightSnapshot :=
  do* pcheck (netuid <? 0) (chain_error "netuid must be a non-negative integer") ;;
  do* pcheck (bool_decide (validator_hotkey = "")) (chain_error "validator hotkey must be non-empty") ;;
  let* mg := match metagraph_view with
             | None => fetch_metagraph api netuid None
             | Some view => _reopen_metagraph_view api netuid view
             end in
  do* lift (check_view mg) ;;
  match list_index (mg_hotkeys mg) validator_hotkey with
  | None => Ret {| vs_weights := []; vs_last_update_block := 0 |}
  | Some i =>
      match mg_uids mg !! i, mg_last_update mg !! i with
      | Some uid, Some last_update =>
          let* raw_rows := GetWeights netuid (mg_block mg) (λ answer,
            match answer with
            | Raise _ => Throw (chain_error "cannot fetch validator on-chain weights")
            | Ok rows => Ret rows
            end) in
          let* hash := as_weight_error "cannot verify finalized sparse-weight provenance" (_block_hash (mg_block mg)) in
          do* pcheck (negb (bool_decide (hash = mg_block_hash mg)))
                (chain_error "finalized sparse weights height/hash changed while it was read") ;;
          lift (snapshot_of mg uid last_update raw_rows)
      | _, _ => Throw (Exn IndexError "list index out of range")
      end
  end.

Definition read_validator_weights (api : FinalizedApi) (netuid : Z) (validator_hotkey : string) : prog (list (string * float64)) :=
  let* snapshot := read_validator_weight_snapshot api netuid validator_hotkey None in
  Ret (vs_weights snapshot).

(** ** Submission *)

(** The first component of [_extrinsic_outcome]; an empty tuple has none. *)
Definition _extrinsic_outcome (result : SdkResult) : Prelude.result bool :=
  match result with
  | SdkValue (PTuple []) => Raise (Exn IndexError "tuple index out of range")
  | SdkValue (PTuple (success :: _)) => Ok (truthy success)
  | SdkValue v | SdkObject (Some v) _ => Ok (truthy v)
  | SdkObject None _ => Ok true
  end.

(** The dictionary [set_weights] returns, without its message. *)
Record SetWeightsResponse := {
  sw_submitted : bool;
  sw_result : option SdkResult;
  sw_uids : list Z;
  sw_weights : list float64;
  sw_authority_block : Z;
  sw_authority_block_hash : string
}.

(** [set_weights]; both wait flags are [True] in every call of the program. *)
Definition set_weights (api : FinalizedApi) (netuid : Z) (weights_by_hotkey : list (string * float64)) (dry_run : bool)
    (metagraph_view : option MetagraphView) : prog SetWeightsResponse :=
  let* mg := match metagraph_view with
             | None => fetch_metagraph api netuid None
             | Some view => _reopen_metagraph_view api netuid view
             end in
  let* vector := lift (weights_to_uid_vector weights_by_hotkey mg) in
  let response submitted result :=
    {| sw_submitted := submitted; sw_result := result; sw_uids := vector.1; sw_weights := vector.2;
       sw_authority_block := mg_block mg; sw_authority_block_hash := mg_block_hash mg |} in
  if is_nil vector.1 || dry_run then Ret (response false None)
  else
    let* result := Submit netuid vector.1 vector.2 lift in
    let* ok := lift (_extrinsic_outcome result) in
    Ret (response ok (Some result)).
End reader.
