(* ===== verification/Weights.v ===== *)
(** * Weight publication

    [chain/weights.py]: the reconciliation of one weight projection with the
    journal and the chain, the release of a hold, and the resumption of a
    publication in flight.  The function [reconcile_weight_publication] is split
    at its section comments; a step that may fall through takes the rest of the
    function as its argument [next].  A journal answers with typed records, and a
    record counts as true. *)

From Stdlib Require Import ZArith Lia Ascii SpecFloat.
From stdpp Require Import base tactics numbers list strings gmap sorting.
From S2P Require Import Prelude PyValue Sha256 Identity Strict Publication Programs Chain.

(** What [signer_wallet.hotkey.ss58_address] evaluates to. *)
Inductive Signer :=
  | NoSigner
  | SignerWallet (address : result pyval).

(** The keyword arguments of [reconcile_weight_publication]. *)
Record Options := {
  op_refresh_blocks : pyval;
  op_dry_run : pyval;
  op_reconcile_only : pyval;
  op_allow_stale_initial : pyval;
  op_require_current_crown : pyval
}.

(** The arguments after the type checks. *)
Record Mode := {
  md_refresh_blocks : Z;
  md_dry_run : bool;
  md_reconcile_only : bool;
  md_allow_stale_initial : bool;
  md_require_current_crown : bool
}.

(** What the first reads established: the journal head, the live and the bound
    metagraph, and the sparse row before any mutation. *)
Record Observed := {
  ob_current : option WeightPublicationRecord;
  ob_live : MetagraphView;
  ob_bound : MetagraphView;
  ob_pre : ValidatorWeightSnapshot;
  ob_matches : bool
}.

(** [type(exc).__name__] *)
Definition class_name (e : pyexn) : string :=
  match exn_cls e with
  | StackIdentityError => "StackIdentityError"
  | WeightPublicationError => "WeightPublicationError"
  | ChainWeightStateError => "ChainWeightStateError"
  | ChainRevealHistoryError => "ChainRevealHistoryError"
  | IntakeError => "IntakeError"
  | ForeignError => exn_msg e
  | TypeError => "TypeError"
  | KeyError => "KeyError"
  | AttributeError => "AttributeError"
  | IndexError => "IndexError"
  | AssertionError => "AssertionError"
  | _ => "ValueError"
  end.

(** [status in {...}] *)
Definition status_in (r : WeightPublicationRecord) (statuses : list string) : bool := bool_decide (wr_status r ∈ statuses).

Definition _matches (snapshot : ValidatorWeightSnapshot) (projection : WeightProjection) : bool :=
  let expected := wj_weights projection in
  bool_decide ((list_to_set (vs_weights snapshot).*1 : gset string) = list_to_set expected.*1)
  && forallb (λ row, match assoc (vs_weights snapshot) row.1 with
                     | Some weight => isclose f_2em5 f_2em5 weight row.2
                     | None => false
                     end) expected.

(** [(uid, hotkey)] pairs in the order of Python's tuples. *)
Definition uid_le (a b : Z * string) : Prop := a.1 < b.1 ∨ a.1 = b.1 ∧ String.le a.2 b.2.
#[global] Instance uid_le_dec a b : Decision (uid_le a b).
Proof. unfold uid_le. solve_decision. Defined.

(** [all(bound.uid_of(h) is not None and bound.uid_of(h) == observed.uid_of(h) for h in hotkeys)] *)
Fixpoint same_uids (bound observed : MetagraphView) (hotkeys : list string) : result bool :=
  match hotkeys with
  | [] => Ok true
  | hotkey :: hotkeys =>
      let! before := uid_of bound hotkey in
      match before with
      | None => Ok false
      | Some uid =>
          let! after := uid_of observed hotkey in
          if bool_decide (after = Some uid) then same_uids bound observed hotkeys else Ok false
      end
  end.

Definition _authority_uids_unchanged (projection : WeightProjection) (bound observed : MetagraphView) : result bool :=
  same_uids bound observed (wj_validator_hotkey projection :: (wj_weights_ppm projection).*1).

(** [_reveal_round(response)]; the response is [None] after an SDK exception. *)
Definition _reveal_round (response : option SetWeightsResponse) : Z :=
  let data := match response with
              | Some {| sw_result := Some (SdkValue (PDict kvs)) |} => mapping_get kvs "data"
              | Some {| sw_result := Some (SdkObject _ data) |} => data
              | _ => PNone
              end in
  match data with
  | PDict kvs => match mapping_get kvs "reveal_round" with PInt z => if 0 <=? z then z else 0 | _ => 0 end
  | _ => 0
  end.

(** A [WeightPublicationRecord(...)] call without a prior record. *)
Definition record_of (projection_digest status : string) (submit_block retry_after_block reveal_round confirmed_block
    confirmed_last_update : Z) (reason : string) : result WeightPublicationRecord :=
  WeightPublicationRecord_init (PStr projection_digest) (PStr status) PNone (PInt submit_block) (PInt retry_after_block)
    (PInt reveal_round) (PInt confirmed_block) (PInt confirmed_last_update) (PStr reason).

(** The type checks of [reconcile_weight_publication], before its first call. *)
Definition check_mode (signer : Signer) (o : Options) : result Mode :=
  let! refresh := match op_refresh_blocks o with
                  | PInt z => if z <=? 0 then Raise (WP.error "weight refresh cadence is malformed") else Ok z
                  | _ => Raise (WP.error "weight refresh cadence is malformed")
                  end in
  let flag v msg := match v with PBool b => Ok b | _ => Raise (WP.error msg) end in
  let! reconcile_only := flag (op_reconcile_only o) "reconcile-only mode is malformed" in
  let! stale := flag (op_allow_stale_initial o) "stale-initial authority is malformed" in
  let! crown := flag (op_require_current_crown o) "current-crown requirement is malformed" in
  let dry_run := truthy (op_dry_run o) in
  do! raise_if (reconcile_only && dry_run) (WP.error "reconcile-only cannot be combined with dry-run") ;;
  do! raise_if (reconcile_only && match signer with NoSigner => false | SignerWallet _ => true end)
        (WP.error "reconcile-only forbids a signer wallet") ;;
  Ok {| md_refresh_blocks := refresh; md_dry_run := dry_run; md_reconcile_only := reconcile_only;
        md_allow_stale_initial := stale; md_require_current_crown := crown |}.

Section publication.
Context `{Sha256} (compensated : bool) (api : FinalizedApi).

Definition _metagraph_digest (projection : WeightProjection) (metagraph : MetagraphView) : result string :=
  do! raise_if (negb (length (mg_uids metagraph) =? length (mg_hotkeys metagraph))%nat)
        (Exn OtherValueError "zip() arguments have different lengths") ;;
  let members := stable_sort uid_le (zip (mg_uids metagraph) (mg_hotkeys metagraph)) in
  Ok (digest_of "optima.economics.metagraph-membership"
        (py_dict [
          ("block", PInt (mg_block metagraph));
          ("block_hash", PStr (lower (mg_block_hash metagraph)));
          ("chain_scope_digest", PStr (wj_chain_scope_digest projection));
          ("members", PList ((λ m, py_dict [("hotkey", PStr m.2); ("uid", PInt m.1)]) <$> members))])).

(** ** Journal transitions *)

Definition _advance (current : option WeightPublicationRecord) (replacement : WeightPublicationRecord)
    : prog WeightPublicationRecord :=
  let expected := WeightPublicationRecord_digest <$> current in
  let* replacement :=
    if bool_decide (wr_prior_record_digest replacement = expected) then Ret replacement
    else lift (with_prior replacement expected) in
  do* Swap expected replacement lift ;;
  Ret replacement.

Definition _held (current : WeightPublicationRecord) (reason : string) : prog WeightPublicationRecord :=
  let* replacement := lift (record_of (wr_projection_digest current) "held" (wr_submit_block current)
    (wr_retry_after_block current) (wr_reveal_round current) (wr_confirmed_block current)
    (wr_confirmed_last_update current) reason) in
  _advance (Some current) replacement.

Definition release_weight_publication_hold (reason : pyval) : prog WeightPublicationRecord :=
  let malformed := WP.error "publication release reason is malformed" in
  let* reason := match reason with
                 | PStr s => if bool_decide (s = "") || (2048 <? str_len s) || has_control_char s then Throw malformed else Ret s
                 | _ => Throw malformed
                 end in
  let* current := Load lift in
  match current with
  | Some c =>
      do* pcheck (negb (status_in c ["held"])) (WP.error "only a retained publication hold may be released") ;;
      let* replacement := lift (record_of (wr_projection_digest c) "released" (wr_submit_block c) (wr_retry_after_block c)
        (wr_reveal_round c) (wr_confirmed_block c) (wr_confirmed_last_update c) reason) in
      _advance (Some c) replacement
  | None => Throw (WP.error "only a retained publication hold may be released")
  end.

Definition resume_weight_projection (proposed : WeightProjection) : prog WeightProjection :=
  let* current := Load lift in
  match current with
  | None => Ret proposed
  | Some c =>
      if negb (status_in c ["intent"; "pending"]) then Ret proposed
      else
        let* retained := Retained (wr_projection_digest c) lift in
        do* pcheck (negb (bool_decide (WeightProjection_digest retained = wr_projection_digest c)))
              (WP.error "journal returned an invalid retained projection") ;;
        do* pcheck (negb (bool_decide (wj_chain_scope_digest retained = wj_chain_scope_digest proposed))
                    || negb (wj_netuid retained =? wj_netuid proposed)
                    || negb (bool_decide (wj_validator_hotkey retained = wj_validator_hotkey proposed)))
              (WP.error "in-flight publication differs from the current chain authority") ;;
        Ret retained
  end.

(** ** Reconciliation *)

Section reconcile.
Context (signer : Signer) (projection : WeightProjection) (m : Mode).

Abbreviation digest := (WeightProjection_digest projection).

Definition result_of (status : string) (record : option WeightPublicationRecord) (chain_matches submitted dry_run : bool)
    (observed_block : Z) (refresh_due : bool) : prog WeightPublicationResult :=
  lift (WeightPublicationResult_init digest status record chain_matches submitted dry_run observed_block refresh_due).

(** [current] if its status is one of [statuses] and it is about this projection. *)
Definition own_head (current : option WeightPublicationRecord) (statuses : list string) : option WeightPublicationRecord :=
  match current with
  | Some c => if status_in c statuses && bool_decide (wr_projection_digest c = digest) then Some c else None
  | None => None
  end.

(** [retained_authority] *)
Definition retained_authority (current : option WeightPublicationRecord) : option WeightPublicationRecord :=
  match own_head current ["intent"; "pending"] with
  | Some c => Some c
  | None => if md_reconcile_only m then own_head current ["pending"; "released"; "confirmed"] else None
  end.

(** The reads before any mutation. *)
Definition observe (current : option WeightPublicationRecord) : prog Observed :=
  let* live := fetch_metagraph api (wj_netuid projection) None in
  let* bound := if mg_block live =? wj_effective_block projection then Ret live
                else fetch_metagraph api (wj_netuid projection) (Some (wj_effective_block projection)) in
  let* reopened := lift (_metagraph_digest projection bound) in
  do* pcheck (negb (bool_decide (reopened = wj_metagraph_digest projection)))
        (WP.error "weight projection metagraph binding cannot be reopened") ;;
  do* (if bool_decide (retained_authority current = None) && negb (mg_block live =? wj_effective_block projection) then
         do* pcheck (negb (md_allow_stale_initial m))
               (WP.error "weight projection is stale for the immediately refreshed metagraph") ;;
         let* unchanged := lift (_authority_uids_unchanged projection bound live) in
         pcheck (negb unchanged) (WP.error "stale weight projection recipient UID mapping changed")
       else Ret tt) ;;
  do* pcheck (match own_head current ["intent"; "pending"] with
              | Some c => (wr_submit_block c <? wj_effective_block projection) || (mg_block live <? wr_submit_block c)
              | None => false
              end) (WP.error "in-flight publication chronology differs from retained authority") ;;
  let* pre := read_validator_weight_snapshot compensated api (wj_netuid projection) (wj_validator_hotkey projection) (Some live) in
  do* pcheck ((mg_block live <? vs_last_update_block pre) || (mg_block live <? wj_effective_block projection))
        (chain_error "weight authority chronology is inconsistent") ;;
  Ret {| ob_current := current; ob_live := live; ob_bound := bound; ob_pre := pre; ob_matches := _matches pre projection |}.

(** The age of the row that was read, against the refresh cadence. *)
Definition refresh_due (block last_update : Z) : bool := md_refresh_blocks m <=? block - last_update.

(** A confirmation that keeps the chronology of the record it confirms. *)
Definition confirm_record (c : WeightPublicationRecord) (block last_update : Z) (reason : string)
    : prog WeightPublicationRecord :=
  let* replacement := lift (record_of digest "confirmed" (wr_submit_block c) (wr_retry_after_block c) (wr_reveal_round c)
    block last_update reason) in
  _advance (Some c) replacement.

(** A confirmation of a row that was on the chain already. *)
Definition confirm_preexisting (current : option WeightPublicationRecord) (block last_update : Z)
    : prog WeightPublicationRecord :=
  let* replacement := lift (record_of digest "confirmed" 0 0 0 block last_update "preexisting_authoritative_readback") in
  _advance current replacement.

Definition hold (c : WeightPublicationRecord) (reason : string) (chain_matches : bool) (block : Z)
    : prog WeightPublicationResult :=
  let* held := _held c reason in
  result_of "held" (Some held) chain_matches false false block false.

Definition dry_run_step (ob : Observed) : prog WeightPublicationResult :=
  do* set_weights compensated api (wj_netuid projection) (wj_weights projection) true (Some (ob_live ob)) ;;
  result_of "dry_run" None (ob_matches ob) false true (mg_block (ob_live ob)) false.

Definition reconcile_only_step (ob : Observed) : prog WeightPublicationResult :=
  let block := mg_block (ob_live ob) in
  let last_update := vs_last_update_block (ob_pre ob) in
  let needs_head := WP.error "reconcile-only requires a pending, released, or confirmed journal head" in
  match ob_current ob with
  | None => Throw needs_head
  | Some c =>
      do* pcheck (negb (status_in c ["pending"; "released"; "confirmed"])) needs_head ;;
      do* (match retained_authority (Some c) with
           | None => Ret tt
           | Some _ =>
               let* unchanged := lift (_authority_uids_unchanged projection (ob_bound ob) (ob_live ob)) in
               pcheck (negb unchanged) (WP.error "reconcile-only recipient UID mapping changed")
           end) ;;
      if status_in c ["pending"] then
        do* pcheck (negb (bool_decide (wr_projection_digest c = digest)))
              (WP.error "reconcile-only pending projection differs from retained authority") ;;
        do* pcheck (negb (ob_matches ob) || (last_update <? wr_submit_block c))
              (WP.error "reconcile-only pending publication lacks exact authoritative readback") ;;
        let* confirmed := confirm_record c block last_update "authoritative_readback" in
        result_of "confirmed" (Some confirmed) true false false block (refresh_due block last_update)
      else
        do* pcheck (negb (ob_matches ob)) (WP.error "reconcile-only authoritative row differs; a submission is required") ;;
        do* pcheck (status_in c ["released"] && (last_update <? wr_submit_block c))
              (WP.error "reconcile-only released publication lacks post-submit authoritative readback") ;;
        do* pcheck (status_in c ["released"; "confirmed"] && refresh_due block last_update)
              (WP.error "reconcile-only confirmed row is refresh-due; a submission is required") ;;
        if status_in c ["confirmed"] && bool_decide (wr_projection_digest c = digest) then
          result_of "confirmed" (Some c) true false false block false
        else
          let* confirmed := confirm_record c block last_update "preexisting_authoritative_readback" in
          result_of "confirmed" (Some confirmed) true false false block false
  end.

(** An unresolved head: confirm it, keep waiting, or hold. *)
Definition unresolved_step (ob : Observed) (next : prog WeightPublicationResult) : prog WeightPublicationResult :=
  let block := mg_block (ob_live ob) in
  let last_update := vs_last_update_block (ob_pre ob) in
  match ob_current ob with
  | None => next
  | Some c =>
      if negb (status_in c ["intent"; "pending"; "held"]) then next
      else if negb (bool_decide (wr_projection_digest c = digest)) then
        hold c "projection_changed_while_unresolved" (ob_matches ob) block
      else if status_in c ["held"] then result_of "held" (Some c) (ob_matches ob) false false block false
      else
        let* unchanged := lift (_authority_uids_unchanged projection (ob_bound ob) (ob_live ob)) in
        if negb unchanged then hold c "metagraph_uid_mapping_changed" false block
        else if ob_matches ob && (wr_submit_block c <=? last_update) then
          let* confirmed := confirm_record c block last_update "authoritative_readback" in
          result_of "confirmed" (Some confirmed) true false false block (refresh_due block last_update)
        else if block <? wr_retry_after_block c then result_of (wr_status c) (Some c) false false false block false
        else hold c "publication_readback_deadline_expired" false block
  end.

(** A confirmed head: hold it when the chain's row changed, keep or rebind it
    while the row is fresh. *)
Definition confirmed_step (ob : Observed) (next : prog WeightPublicationResult) : prog WeightPublicationResult :=
  let block := mg_block (ob_live ob) in
  let last_update := vs_last_update_block (ob_pre ob) in
  match ob_current ob with
  | None => next
  | Some c =>
      if negb (status_in c ["confirmed"]) then next
      else
        let same := bool_decide (wr_projection_digest c = digest) in
        if same && negb (ob_matches ob) then hold c "confirmed_vector_changed_on_chain" false block
        else if ob_matches ob && negb (refresh_due block last_update) then
          let* current := if same then Ret c else confirm_preexisting (Some c) block last_update in
          result_of "confirmed" (Some current) true false false block false
        else next
  end.

(** No record yet, and the row is on the chain already. *)
Definition initial_step (ob : Observed) (next : prog WeightPublicationResult) : prog WeightPublicationResult :=
  let block := mg_block (ob_live ob) in
  let last_update := vs_last_update_block (ob_pre ob) in
  match ob_current ob with
  | Some _ => next
  | None =>
      if ob_matches ob && negb (refresh_due block last_update) then
        let* confirmed := confirm_preexisting None block last_update in
        result_of "confirmed" (Some confirmed) true false false block false
      else next
  end.

(** A late reveal after an audited release. *)
Definition released_step (ob : Observed) (next : prog WeightPublicationResult) : prog WeightPublicationResult :=
  let block := mg_block (ob_live ob) in
  let last_update := vs_last_update_block (ob_pre ob) in
  match ob_current ob with
  | None => next
  | Some c =>
      if status_in c ["released"] && ob_matches ob && (wr_submit_block c <=? last_update)
         && negb (refresh_due block last_update) then
        let* confirmed := confirm_record c block last_update "preexisting_authoritative_readback" in
        result_of "confirmed" (Some confirmed) true false false block false
      else next
  end.

(** ** Signing *)

(** The crown and signer checks of a real submission. *)
Definition check_signer : result unit :=
  do! raise_if (md_require_current_crown m && (wj_crown_count projection <=? 0))
        (WP.error "real weight submission requires a current crown") ;;
  let missing := WP.error "real weight submission requires a signer wallet" in
  let! address := match signer with
                  | NoSigner => Raise missing
                  | SignerWallet address => reraise (λ c, bool_decide (c = AttributeError)) (λ _, missing) address
                  end in
  raise_if (negb (py_eq_str address (wj_validator_hotkey projection)))
    (WP.error "signer wallet differs from projection authority").

(** The finalized authority reopened for the signature. *)
Definition signing_authority (ob : Observed) : prog MetagraphView :=
  let block := mg_block (ob_live ob) in
  let* signing := fetch_metagraph api (wj_netuid projection) None in
  do* pcheck (mg_block signing <? block) (chain_error "finalized weight authority regressed before signing") ;;
  do* (if mg_block signing =? wj_effective_block projection then
         let* reopened := lift (_metagraph_digest projection signing) in
         pcheck (negb (bool_decide (reopened = wj_metagraph_digest projection)))
           (chain_error "finalized weight authority changed at the projection block")
       else Ret tt) ;;
  let* unchanged := lift (_authority_uids_unchanged projection (ob_bound ob) signing) in
  do* pcheck (negb unchanged) (WP.error "weight recipient UID mapping changed before signing") ;;
  Ret signing.

(** The head after a row that landed during the reads was confirmed. *)
Definition confirm_landed (current : option WeightPublicationRecord) (block last_update : Z)
    : prog (option WeightPublicationRecord) :=
  match current with
  | None => let* r := confirm_preexisting None block last_update in Ret (Some r)
  | Some c =>
      if status_in c ["confirmed"] then
        if bool_decide (wr_projection_digest c = digest) then Ret current
        else let* r := confirm_preexisting (Some c) block last_update in Ret (Some r)
      else if status_in c ["released"] && (wr_submit_block c <=? last_update) then
        let* r := confirm_record c block last_update "preexisting_authoritative_readback" in Ret (Some r)
      else Ret current
  end.

(** The second read when finality advanced: the head, and whether it is now a
    confirmation of this projection. *)
Definition presign_readback (ob : Observed) (signing : MetagraphView) : prog (option WeightPublicationRecord * bool) :=
  if negb (mg_block (ob_live ob) <? mg_block signing) then Ret (ob_current ob, false)
  else
    let* pre := read_validator_weight_snapshot compensated api (wj_netuid projection) (wj_validator_hotkey projection) (Some signing) in
    do* pcheck (mg_block signing <? vs_last_update_block pre)
          (chain_error "pre-sign weight authority chronology is inconsistent") ;;
    if _matches pre projection && negb (refresh_due (mg_block signing) (vs_last_update_block pre)) then
      let* current := confirm_landed (ob_current ob) (mg_block signing) (vs_last_update_block pre) in
      Ret (current, bool_decide (own_head current ["confirmed"] ≠ None))
    else Ret (ob_current ob, false).

(** The SDK call: the response if it returned, and the reason to record. *)
Definition attempt (signing : MetagraphView) : prog (option SetWeightsResponse * string) :=
  pcatch
    (let* response := set_weights compensated api (wj_netuid projection) (wj_weights projection) false (Some signing) in
     Ret (Some response, "sdk_result_unconfirmed"))
    (λ e, Ret (None, "sdk_exception:" +:+ class_name e)).

(** The reads after the SDK call: [inl] when the function returns from inside
    them, [inr] with the row and its block otherwise. *)
Definition post_reads (pending : WeightPublicationRecord) (submitted : bool) (signing : MetagraphView)
    : prog (WeightPublicationResult + ValidatorWeightSnapshot * Z) :=
  let* post_metagraph := fetch_metagraph api (wj_netuid projection) None in
  do* (if mg_block post_metagraph =? mg_block signing then
         let* after := lift (_metagraph_digest projection post_metagraph) in
         let* before := lift (_metagraph_digest projection signing) in
         pcheck (negb (bool_decide (after = before))) (chain_error "post-submit authority changed at the signing block")
       else Ret tt) ;;
  let* unchanged := lift (_authority_uids_unchanged projection signing post_metagraph) in
  if negb unchanged then
    let* held := _held pending "post_submit_uid_mapping_changed" in
    let* r := result_of "held" (Some held) false submitted false (mg_block post_metagraph) false in
    Ret (inl r)
  else
    let* post := read_validator_weight_snapshot compensated api (wj_netuid projection) (wj_validator_hotkey projection)
                   (Some post_metagraph) in
    do* pcheck ((mg_block post_metagraph <? vs_last_update_block post) || (mg_block post_metagraph <? mg_block signing))
          (chain_error "post-submit chronology is inconsistent") ;;
    Ret (inr (post, mg_block post_metagraph)).

Definition post_submit (pending : WeightPublicationRecord) (submitted : bool) (signing : MetagraphView)
    : prog WeightPublicationResult :=
  let block := mg_block signing in
  let* reads := pcatch (post_reads pending submitted signing) (λ e,
    if is_class ChainWeightStateError e then
      let* held := _held pending "post_submit_authority_unavailable" in
      let* r := result_of "held" (Some held) false submitted false block false in
      Ret (inl r)
    else Throw e) in
  match reads with
  | inl r => Ret r
  | inr (post, post_block) =>
      if _matches post projection && (block <=? vs_last_update_block post) then
        let* replacement := lift (record_of digest "confirmed" block (block + md_refresh_blocks m) (wr_reveal_round pending)
          post_block (vs_last_update_block post) "post_submit_authoritative_readback") in
        let* confirmed := _advance (Some pending) replacement in
        result_of "confirmed" (Some confirmed) true submitted false post_block false
      else result_of "pending" (Some pending) false submitted false post_block false
  end.

(** Intent, signature, pending, readback. *)
Definition submit_step (current : option WeightPublicationRecord) (signing : MetagraphView) : prog WeightPublicationResult :=
  let block := mg_block signing in
  let* replacement := lift (record_of digest "intent" block (block + md_refresh_blocks m) 0 0 0 "before_sdk_submission") in
  let* intent := _advance current replacement in
  let* attempted := attempt signing in
  let submitted := match attempted.1 with Some response => sw_submitted response | None => false end in
  let* replacement := lift (record_of digest "pending" block (block + md_refresh_blocks m) (_reveal_round attempted.1) 0 0
    attempted.2) in
  let* pending := _advance (Some intent) replacement in
  post_submit pending submitted signing.

Definition publish_step (ob : Observed) : prog WeightPublicationResult :=
  do* lift check_signer ;;
  do* pcheck (mg_block (ob_live ob) <=? 0) (chain_error "real publication requires a positive chain block") ;;
  let* signing := signing_authority ob in
  let* landed := presign_readback ob signing in
  if landed.2 then result_of "confirmed" landed.1 true false false (mg_block signing) false
  else submit_step landed.1 signing.

Definition reconcile_body : prog WeightPublicationResult :=
  let* current := if md_dry_run m then Ret None else Load lift in
  let* ob := observe current in
  if md_dry_run m then dry_run_step ob
  else if md_reconcile_only m then reconcile_only_step ob
  else unresolved_step ob (confirmed_step ob (initial_step ob (released_step ob (publish_step ob)))).
End reconcile.

Definition reconcile_weight_publication (signer : Signer) (projection : WeightProjection) (o : Options)
    : prog WeightPublicationResult :=
  let* m := lift (check_mode signer o) in
  reconcile_body signer projection m.
End publication.
