(* ===== verification/WeightsFacts.v ===== *)
(** * The discipline of the publication client

    The readers of the chain come first: they only read, and what they return is
    well formed.  Then what [reconcile_weight_publication] may do, call by call:
    which transitions it makes in the journal, what it has read before it
    confirms, and when it submits. *)

From Stdlib Require Import ZArith Lia SpecFloat.
From stdpp Require Import base tactics numbers list strings gmap.
From S2P Require Import Prelude PyValue Sha256 Identity Strict Publication Programs Chain Weights.

(** ** Reasoning about programs by their traces

    [wp ok h p Q]: after the history [h], every call that [p] makes satisfies
    [ok] at the moment it is made, and when [p] ends, [Q] holds of the history
    and the outcome.  The rules follow the syntax of programs, so a property of a
    whole client is proved step by step, with no assumption on the answers. *)

(** Every call of [tr], made after [h], satisfies [ok]. *)
Definition obeys (ok : list obs → obs → Prop) (h tr : list obs) : Prop :=
  ∀ before o after, tr = before ++ o :: after → ok (h ++ before) o.

Section obeys.
Context (ok : list obs → obs → Prop).

Lemma obeys_nil h : obeys ok h [].
Proof. by intros [] ? ? ?. Qed.

Lemma obeys_cons h o tr : obeys ok h (o :: tr) ↔ ok h o ∧ obeys ok (h ++ [o]) tr.
Proof.
  split.
  - intros Ho. split; [by specialize (Ho [] o tr eq_refl); rewrite app_nil_r in Ho|].
    intros before o' after ->. specialize (Ho (o :: before) o' after eq_refl). by rewrite <-app_assoc.
  - intros [Ho Htr] [|o' before] o'' after [= <- ->]; [by rewrite app_nil_r|].
    specialize (Htr before o'' after eq_refl). by rewrite <-app_assoc in Htr.
Qed.

Lemma obeys_app h tr tr' : obeys ok h (tr ++ tr') ↔ obeys ok h tr ∧ obeys ok (h ++ tr) tr'.
Proof.
  revert h. induction tr as [|o tr IH]; intros h; simpl.
  - rewrite app_nil_r. split; [intros Ho; split; [apply obeys_nil|done]|by intros [_ ?]].
  - rewrite !obeys_cons, IH, <-app_assoc. simpl. tauto.
Qed.

Lemma obeys_reads h tr : (∀ h o, is_read o → ok h o) → Forall (λ o, is_read o) tr → obeys ok h tr.
Proof.
  intros Hok Htr before o after ->. apply Hok. apply Forall_app in Htr as [_ Htr]. by inversion Htr.
Qed.
End obeys.

Definition wp {A} (ok : list obs → obs → Prop) (h : list obs) (p : prog A) (Q : list obs → result A → Prop) : Prop :=
  ∀ tr out, runs p tr out → obeys ok h tr ∧ Q (h ++ tr) out.

Section rules.
Context (ok : list obs → obs → Prop).

Lemma wp_ret {A} h (a : A) Q : Q h (Ok a) → wp ok h (Ret a) Q.
Proof. intros HQ tr out [-> ->]. rewrite app_nil_r. split; [apply obeys_nil|done]. Qed.

Lemma wp_throw {A} h e (Q : list obs → result A → Prop) : Q h (Raise e) → wp ok h (Throw e) Q.
Proof. intros HQ tr out [-> ->]. rewrite app_nil_r. split; [apply obeys_nil|done]. Qed.

Lemma wp_lift {A} h (m : result A) Q : Q h m → wp ok h (lift m) Q.
Proof. destruct m; [apply wp_ret|apply wp_throw]. Qed.

Lemma wp_mono {A} h (p : prog A) (Q Q' : list obs → result A → Prop) :
  wp ok h p Q → (∀ h' out, Q h' out → Q' h' out) → wp ok h p Q'.
Proof. intros Hp HQ tr out Hr. destruct (Hp tr out Hr). split; auto. Qed.

Lemma wp_bind {A B} h (p : prog A) (f : A → prog B) Q :
  wp ok h p (λ h' out, match out with Ok a => wp ok h' (f a) Q | Raise e => Q h' (Raise e) end) → wp ok h (pbind p f) Q.
Proof.
  intros Hp tr out [(tr1 & tr2 & a & -> & H1 & H2) | (e & H1 & ->)]%runs_bind; [|exact (Hp _ _ H1)].
  destruct (Hp _ _ H1) as [Ho Hf]. destruct (Hf _ _ H2) as [Ho' HQ].
  rewrite app_assoc. split; [by apply obeys_app|done].
Qed.

Lemma wp_catch {A} h (p : prog A) (handler : pyexn → prog A) Q :
  wp ok h p (λ h' out, match out with Ok a => Q h' (Ok a) | Raise e => wp ok h' (handler e) Q end) → wp ok h (pcatch p handler) Q.
Proof.
  intros Hp tr out [(a & H1 & ->) | (tr1 & tr2 & e & -> & H1 & H2)]%runs_catch; [exact (Hp _ _ H1)|].
  destruct (Hp _ _ H1) as [Ho Hf]. destruct (Hf _ _ H2) as [Ho' HQ].
  rewrite app_assoc. split; [by apply obeys_app|done].
Qed.

(** A guard: the rest runs only when the condition is false. *)
Lemma wp_check {B} h b e (p : prog B) Q :
  (b = true → Q h (Raise e)) → (b = false → wp ok h p Q) → wp ok h (pbind (pcheck b e) (λ _, p)) Q.
Proof. intros H1 H2. apply wp_bind. apply wp_lift. destruct b; simpl; auto. Qed.

(** A pure computation that may raise. *)
Lemma wp_let {A B} h (m : result A) (f : A → prog B) Q :
  (∀ e, m = Raise e → Q h (Raise e)) → (∀ a, m = Ok a → wp ok h (f a) Q) → wp ok h (pbind (lift m) f) Q.
Proof. intros H1 H2. apply wp_bind. apply wp_lift. destruct m; auto. Qed.

Lemma wp_reads {A} h (p : prog A) Q :
  (∀ h o, is_read o → ok h o) → quiet p → (∀ tr out, Forall (λ o, is_read o) tr → runs p tr out → Q (h ++ tr) out) → wp ok h p Q.
Proof. intros Hok Hp HQ tr out Hr. pose proof (Hp tr out Hr) as Hq. split; [by apply obeys_reads|by apply HQ]. Qed.

Lemma wp_call {A X} h (f : result X → obs) (k : result X → prog A) p Q :
  (∀ tr out, runs p tr out → ∃ r tr', tr = f r :: tr' ∧ runs (k r) tr' out) →
  (∀ r, ok h (f r)) → (∀ r, wp ok (h ++ [f r]) (k r) Q) → wp ok h p Q.
Proof.
  intros Hp Hok Hk tr out Hr. destruct (Hp tr out Hr) as (r & tr' & -> & Hr'). destruct (Hk r tr' out Hr') as [Ho HQ].
  rewrite <-app_assoc in HQ. split; [by apply obeys_cons|done].
Qed.

Lemma wp_swap {A} h e r (k : result unit → prog A) Q :
  (∀ a, ok h (OSwap e r a)) → (∀ a, wp ok (h ++ [OSwap e r a]) (k a) Q) → wp ok h (Swap e r k) Q.
Proof. by apply (wp_call h (OSwap e r)). Qed.

Lemma wp_load {A} h (k : result (option WeightPublicationRecord) → prog A) Q :
  (∀ r, ok h (OLoad r)) → (∀ r, wp ok (h ++ [OLoad r]) (k r) Q) → wp ok h (Load k) Q.
Proof. by apply (wp_call h OLoad). Qed.

Lemma wp_submit {A} h n u w (k : result SdkResult → prog A) Q :
  (∀ r, ok h (OSubmit n u w r)) → (∀ r, wp ok (h ++ [OSubmit n u w r]) (k r) Q) → wp ok h (Submit n u w k) Q.
Proof. by apply (wp_call h (OSubmit n u w)). Qed.
End rules.

(** ** What a client knows of the journal *)

(** The head that the last successful journal call showed: [None] before the
    first. *)
Definition learn (k : option (option WeightPublicationRecord)) (o : obs) : option (option WeightPublicationRecord) :=
  match o with
  | OLoad (Ok head) => Some head
  | OSwap _ r (Ok _) => Some (Some r)
  | _ => k
  end.

Definition known (h : list obs) : option (option WeightPublicationRecord) := foldl learn None h.

Definition is_submit (o : obs) : bool := match o with OSubmit _ _ _ _ => true | _ => false end.

(** How many times the history submitted. *)
Definition submissions (h : list obs) : nat := length (filter (λ o, Is_true (is_submit o)) h).

(** The run [t] of [p] with outcome [out] is a part of the history. *)
Definition performed {A} (p : prog A) (out : result A) (h : list obs) : Prop :=
  ∃ h1 t h2, h = h1 ++ t ++ h2 ∧ runs p t out.

(** [r] is the head because this client's last journal call stored it. *)
Definition just_stored (r : WeightPublicationRecord) (h : list obs) : Prop :=
  ∃ h1 expected reads, h = h1 ++ OSwap expected r (Ok tt) :: reads ∧ Forall (λ o, is_read o) reads.

Lemma known_snoc h o : known (h ++ [o]) = learn (known h) o.
Proof. unfold known. by rewrite foldl_app. Qed.

Lemma known_reads h t : Forall (λ o, is_read o) t → known (h ++ t) = known h.
Proof.
  intros Ht. unfold known. rewrite foldl_app. generalize (foldl learn None h) as k. induction Ht as [|o t Ho Ht IH]; intros k; [done|].
  simpl. rewrite IH. by destruct o.
Qed.

Lemma just_stored_app r h t : just_stored r h → Forall (λ o, is_read o) t → just_stored r (h ++ t).
Proof.
  intros (h1 & e & reads & -> & Hr) Ht. exists h1, e, (reads ++ t). rewrite <-app_assoc. split; [done|by apply Forall_app].
Qed.

Lemma just_stored_known r h : just_stored r h → known h = Some (Some r).
Proof.
  intros (h1 & e & reads & -> & Hr). rewrite cons_middle, app_assoc, known_reads by done. by rewrite known_snoc.
Qed.

Lemma submissions_app h t : submissions (h ++ t) = (submissions h + submissions t)%nat.
Proof. unfold submissions. by rewrite filter_app, length_app. Qed.

Lemma submissions_reads h t : Forall (λ o, is_read o) t → submissions (h ++ t) = submissions h.
Proof.
  intros Ht. rewrite submissions_app. assert (submissions t = 0%nat) as ->; [|lia].
  unfold submissions. induction Ht as [|o t Ho Ht IH]; [done|]. by destruct o.
Qed.

Lemma performed_app {A} (p : prog A) out h t : performed p out h → performed p out (h ++ t).
Proof. intros (h1 & t' & h2 & -> & Hr). exists h1, t', (h2 ++ t). by rewrite !app_assoc. Qed.

Lemma performed_end {A} (p : prog A) out h t : runs p t out → performed p out (h ++ t).
Proof. intros Hr. exists h, t, []. by rewrite app_nil_r. Qed.

(** A program that keeps to [ok] does so in every interrupted run. *)
Lemma wp_partial {A} ok (p : prog A) Q tr : wp ok [] p Q → partial p tr → obeys ok [] tr.
Proof. intros Hp (rest & out & Hr). destruct (Hp _ _ Hr) as [Ho _]. by apply obeys_app in Ho as [Ho _]. Qed.

(** ** Facts about the chain readers

    The readers make no journal call and submit nothing; a metagraph view they
    return is well formed and belongs to the block that was asked for; the reader
    of a validator's row reports the row of that block. *)

(** ** Readers only read *)

Lemma quiet_block_hash b : quiet (_block_hash b).
Proof. unfold _block_hash. quiet_call. repeat case_match; auto with quiet. Qed.
#[export] Hint Resolve quiet_block_hash : quiet.

Lemma quiet_check b e : quiet (pcheck b e).
Proof. apply quiet_lift. Qed.
#[export] Hint Resolve quiet_check : quiet.

Lemma quiet_finalized_head api : quiet (_finalized_head api).
Proof.
  destruct api as [|[]|]; simpl; auto with quiet.
  all: apply quiet_bind; [|auto with quiet]; quiet_call; case_match; auto with quiet.
  all: apply quiet_bind; [auto with quiet|intros _]; quiet_call; case_match; auto with quiet.
Qed.
#[export] Hint Resolve quiet_finalized_head : quiet.

Lemma quiet_as_weight_error {A} msg (p : prog A) : quiet p → quiet (as_weight_error msg p).
Proof. intros Hp. apply quiet_catch; auto with quiet. Qed.
#[export] Hint Resolve quiet_as_weight_error : quiet.

Lemma quiet_finalized_point api block : quiet (_weight_finalized_point api block).
Proof. apply quiet_as_weight_error, quiet_bind; [auto with quiet|]. intros head. destruct block; auto with quiet. Qed.
#[export] Hint Resolve quiet_finalized_point : quiet.

Lemma quiet_fetch_metagraph api netuid block : quiet (fetch_metagraph api netuid block).
Proof.
  apply quiet_bind; [auto with quiet|intros _]. apply quiet_bind; [auto with quiet|intros point].
  apply quiet_catch; [|auto with quiet]. apply quiet_bind; [|auto 8 with quiet]. quiet_call. case_match; auto with quiet.
Qed.
#[export] Hint Resolve quiet_fetch_metagraph : quiet.

Lemma quiet_reopen api netuid view : quiet (_reopen_metagraph_view api netuid view).
Proof. unfold _reopen_metagraph_view. auto 10 with quiet. Qed.
#[export] Hint Resolve quiet_reopen : quiet.

Lemma quiet_read_snapshot c api netuid hotkey view : quiet (read_validator_weight_snapshot c api netuid hotkey view).
Proof.
  unfold read_validator_weight_snapshot. apply quiet_bind; [auto with quiet|intros _]. apply quiet_bind; [auto with quiet|intros _].
  apply quiet_bind; [destruct view; auto with quiet|intros mg]. apply quiet_bind; [auto with quiet|intros _].
  repeat case_match; auto with quiet. apply quiet_bind; [|auto 10 with quiet]. quiet_call. case_match; auto with quiet.
Qed.
#[export] Hint Resolve quiet_read_snapshot : quiet.

(** A dry run never reaches the extrinsic. *)
Lemma quiet_set_weights_dry c api netuid weights view : quiet (set_weights c api netuid weights true view).
Proof.
  unfold set_weights. apply quiet_bind; [destruct view; auto with quiet|intros mg].
  apply quiet_bind; [auto with quiet|intros vector]. rewrite orb_true_r. auto with quiet.
Qed.
#[export] Hint Resolve quiet_set_weights_dry : quiet.

(** ** Inversion of runs *)

(** Splits a run of a sequence that returned a value. *)
Lemma runs_bind_Ok {A B} (p : prog A) (f : A → prog B) tr b :
  runs (pbind p f) tr (Ok b) ↔ ∃ tr1 tr2 a, tr = tr1 ++ tr2 ∧ runs p tr1 (Ok a) ∧ runs (f a) tr2 (Ok b).
Proof. rewrite runs_bind. split; [intros [?|(? & _ & [=])]|]; auto. Qed.

Lemma runs_lift_Ok {A} (m : result A) tr a : runs (lift m) tr (Ok a) ↔ tr = [] ∧ m = Ok a.
Proof. rewrite runs_lift. naive_solver. Qed.

Lemma runs_check_Ok b e tr u : runs (pcheck b e) tr (Ok u) ↔ tr = [] ∧ b = false.
Proof. unfold pcheck. rewrite runs_lift_Ok. destruct b, u; naive_solver. Qed.

Lemma runs_as_weight_error {A} msg (p : prog A) tr a : runs (as_weight_error msg p) tr (Ok a) ↔ runs p tr (Ok a).
Proof.
  unfold as_weight_error. rewrite runs_catch. split; [|eauto].
  intros [(? & ? & [= ->])|(? & ? & ? & _ & _ & _ & [=])]; done.
Qed.

(** Takes the successful run [H] apart. *)
Ltac inv_run H :=
  lazymatch type of H with
  | runs (pbind _ _) _ (Ok _) =>
      let t1 := fresh "t" in let t2 := fresh "t" in let a := fresh "a" in let H1 := fresh "Hrun" in
      apply runs_bind_Ok in H as (t1 & t2 & a & -> & H1 & H); inv_run H1; inv_run H
  | runs (pcheck _ _) _ (Ok _) => let Hb := fresh "Hguard" in apply runs_check_Ok in H as [-> Hb]
  | runs (lift _) _ (Ok _) => let Hm := fresh "Hpure" in apply runs_lift_Ok in H as [-> Hm]
  | runs (Ret _) _ (Ok _) => let Hm := fresh "Hpure" in destruct H as [-> Hm]; injection Hm as Hm; try subst
  | runs (Throw _) _ (Ok _) => destruct H as [_ [=]]
  | runs (as_weight_error _ _) _ (Ok _) => apply runs_as_weight_error in H; inv_run H
  | _ => idtac
  end.

(** ** Views *)

Definition view_ok (v : MetagraphView) : Prop :=
  0 ≤ mg_block v ∧ NoDup (mg_uids v) ∧ NoDup (mg_hotkeys v) ∧ length (mg_uids v) = length (mg_hotkeys v)
  ∧ length (mg_last_update v) = length (mg_hotkeys v) ∧ Forall (Z.le 0) (mg_uids v) ∧ Forall (Z.le 0) (mg_last_update v).

Lemma weight_uint_Ok max msg v z : _weight_uint max msg v = Ok z → v = PInt z ∧ 0 ≤ z.
Proof. destruct v; simpl; intros Hz; inv_ok Hz; bool_prop; simplify_eq. bool_prop. auto with lia. Qed.

Lemma weight_uints_Ok max msg l zs : mapM (_weight_uint max msg) l = Ok zs → length l = length zs ∧ Forall (Z.le 0) zs.
Proof.
  rewrite mapM_Ok. intros Hl. split; [by eapply Forall2_length|].
  induction Hl as [|v z l zs Hv _ IH]; constructor; [by apply weight_uint_Ok in Hv as [_ ?]|done].
Qed.

Lemma hotkeys_Ok (e : pyexn) l hs :
  mapM (λ v, match v with PStr s => if bool_decide (s = "") then Raise e else Ok s | _ => Raise e end) l = Ok hs →
  length l = length hs.
Proof. rewrite mapM_Ok. apply Forall2_length. Qed.

Lemma view_of_Ok netuid block hash mg v :
  view_of netuid block hash mg = Ok v →
  view_ok v ∧ mg_netuid v = netuid ∧ mg_block v = block ∧ mg_block_hash v = hash.
Proof.
  unfold view_of. intros Hv. inv_ok Hv. bool_prop. subst. simpl in *.
  repeat match goal with
  | H : _weight_uint _ _ _ = Ok _ |- _ => apply weight_uint_Ok in H as [? ?]
  | H : mapM (_weight_uint _ _) _ = Ok _ |- _ => apply weight_uints_Ok in H as [? ?]
  | H : mapM _ _ = Ok _ |- _ => apply hotkeys_Ok in H
  | H : (_ =? _)%nat = true |- _ => apply Nat.eqb_eq in H
  end.
  unfold view_ok. simpl. split_and!; first [done|congruence|lia].
Qed.

Lemma fetch_metagraph_Ok api netuid block tr v :
  runs (fetch_metagraph api netuid block) tr (Ok v) →
  view_ok v ∧ mg_netuid v = netuid ∧ match block with Some b => mg_block v = b | None => True end.
Proof.
  unfold fetch_metagraph. intros Hr. inv_run Hr. rename a0 into point.
  apply runs_catch in Hr as [(w & Hr & [= ->])|(? & ? & ? & _ & _ & _ & [=])]. inv_run Hr.
  assert (match block with Some b => point.1 = b | None => True end) as Hb.
  { unfold _weight_finalized_point in Hrun. inv_run Hrun. destruct block as [requested|]; inv_run Hrun; done. }
  simpl in Hrun0. destruct Hrun0 as ([mg|e] & t' & -> & Hrun0); inv_run Hrun0.
  apply view_of_Ok in Hpure as (Hok & Hn & Hb' & _). split_and!; [done..|]. destruct block; congruence.
Qed.

(** A reopened view has the members of the supplied one. *)
Lemma reopen_Ok api netuid supplied tr v :
  runs (_reopen_metagraph_view api netuid supplied) tr (Ok v) →
  view_ok v ∧ mg_block v = mg_block supplied ∧ mg_uids v = mg_uids supplied ∧ mg_hotkeys v = mg_hotkeys supplied
  ∧ runs (fetch_metagraph api netuid (Some (mg_block supplied))) tr (Ok v).
Proof.
  unfold _reopen_metagraph_view. intros Hr. inv_run Hr. bool_prop. simpl. rewrite !app_nil_r.
  pose proof (fetch_metagraph_Ok _ _ _ _ _ Hrun) as (? & ? & ?). done.
Qed.

(** Only the members of the view matter for the vector. *)
Lemma uid_of_members mg mg' h :
  mg_uids mg = mg_uids mg' → mg_hotkeys mg = mg_hotkeys mg' → uid_of mg h = uid_of mg' h.
Proof. intros Hu Hh. unfold uid_of. by rewrite Hu, Hh. Qed.

Lemma vector_members c weights mg mg' :
  mg_uids mg = mg_uids mg' → mg_hotkeys mg = mg_hotkeys mg' →
  weights_to_uid_vector c weights mg = weights_to_uid_vector c weights mg'.
Proof.
  intros Hu Hh. unfold weights_to_uid_vector, uids_of.
  assert (∀ l, mapM (uid_of mg) l = mapM (uid_of mg') l) as Hm.
  { induction l as [|h l IH]; simpl; [done|]. by rewrite (uid_of_members mg mg'), IH. }
  by rewrite !Hm.
Qed.

(** ** The sparse row *)

Lemma list_index_lookup l x i : list_index l x = Some i → l !! i = Some x.
Proof.
  revert i. induction l as [|y l IH]; intros i; simpl; [done|]. case_bool_decide; [by intros [= <-]; subst|].
  destruct (list_index l x) as [j|]; [|done]. intros [= <-]. by apply IH.
Qed.

(** A snapshot that is not empty is the validator's row in the weights the chain
    gave for the block of the view. *)
Lemma read_snapshot_Ok c api netuid hotkey view tr snap :
  runs (read_validator_weight_snapshot c api netuid hotkey (Some view)) tr (Ok snap) → vs_weights snap ≠ [] →
  ∃ mg uid rows, view_ok mg ∧ mg_block mg = mg_block view ∧ mg_uids mg = mg_uids view ∧ mg_hotkeys mg = mg_hotkeys view
    ∧ uid_of mg hotkey = Ok (Some uid) ∧ OWeights netuid (mg_block view) (Ok rows) ∈ tr
    ∧ snapshot_of c mg uid (vs_last_update_block snap) rows = Ok snap.
Proof.
  unfold read_validator_weight_snapshot. intros Hr Hne. inv_run Hr.
  destruct (list_index _ _) as [i|] eqn:Hi; [|by destruct Hr as [_ [= ->]]].
  destruct (mg_uids _ !! i) as [uid|] eqn:Hu; [|inv_run Hr]. destruct (mg_last_update _ !! i) as [lu|] eqn:Hlu; [|inv_run Hr].
  inv_run Hr. apply reopen_Ok in Hrun as (Hok & Hb & Hus & Hhs & _).
  simpl in Hrun0. destruct Hrun0 as ([rows|e] & t' & -> & Hrun0); inv_run Hrun0.
  assert (vs_last_update_block snap = lu) as <- by (unfold snapshot_of in Hpure0; inv_ok Hpure0; by subst).
  eexists a1, uid, rows. split_and!; [done..| |rewrite <-Hb; simpl; apply elem_of_app; right; by left|done].
  unfold uid_of. by rewrite Hi, Hu.
Qed.

(** ** Constructed records *)

(** A record that passed its own checks. *)
Definition record_ok (r : WeightPublicationRecord) : Prop :=
  is_hex64 (wr_projection_digest r) = true
  ∧ match wr_prior_record_digest r with Some d => is_hex64 d = true | None => True end
  ∧ wr_status r ∈ PUBLICATION_STATUSES
  ∧ 0 ≤ wr_submit_block r ∧ 0 ≤ wr_retry_after_block r ∧ 0 ≤ wr_reveal_round r ∧ 0 ≤ wr_confirmed_block r
  ∧ 0 ≤ wr_confirmed_last_update r
  ∧ WP.reason (PStr (wr_reason r)) = Ok (wr_reason r)
  ∧ check_status_bounds (wr_status r) (wr_submit_block r) (wr_retry_after_block r) (wr_confirmed_block r)
      (wr_confirmed_last_update r) (wr_reason r) = Ok tt.

Lemma natural_Ok msg v z : WP.natural msg v = Ok z → v = PInt z ∧ 0 ≤ z.
Proof. destruct v; simpl; intros Hz; try done. case_match; simplify_eq. bool_prop. auto with lia. Qed.

Lemma hex_Ok v d : require_sha256_hex v = Ok d → v = PStr d ∧ is_hex64 d = true.
Proof. destruct v; simpl; try done. case_match; naive_solver. Qed.

Lemma status_of_Ok v s : status_of v = Ok s → v = PStr s ∧ s ∈ PUBLICATION_STATUSES.
Proof.
  unfold status_of, py_in_strs. intros Hs. inv_ok Hs. destruct v; simpl in *; try done.
  repeat case_match; simplify_eq; bool_prop; auto.
Qed.

Lemma prior_of_Ok v p : prior_of v = Ok p →
  v = match p with None => PNone | Some d => PStr d end ∧ match p with Some d => is_hex64 d = true | None => True end.
Proof.
  destruct v; [by intros [= <-]|..]; cbn [prior_of]; intros Hp; apply bind_Ok in Hp as (d & Hd & [= <-]);
    apply hex_Ok in Hd as [[= ->] ?]; done.
Qed.

Lemma reason_Ok v s : WP.reason v = Ok s → v = PStr s ∧ WP.reason (PStr s) = Ok s.
Proof.
  intros Hr. destruct v as [| | | |t| | | |]; try done. assert (t = s) as ->; [|done].
  unfold WP.reason in Hr. destruct (_ || _); by simplify_eq.
Qed.

(** The constructor's checks, and the arguments it keeps. *)
Lemma record_init_Ok pd st prior sb ra rr cb cl reason r :
  WeightPublicationRecord_init pd st prior sb ra rr cb cl reason = Ok r →
  record_ok r ∧ pd = PStr (wr_projection_digest r) ∧ st = PStr (wr_status r)
  ∧ prior = match wr_prior_record_digest r with None => PNone | Some d => PStr d end
  ∧ sb = PInt (wr_submit_block r) ∧ ra = PInt (wr_retry_after_block r) ∧ rr = PInt (wr_reveal_round r)
  ∧ cb = PInt (wr_confirmed_block r) ∧ cl = PInt (wr_confirmed_last_update r) ∧ reason = PStr (wr_reason r).
Proof.
  unfold WeightPublicationRecord_init. intros Hr. inv_ok Hr. subst r. simpl.
  repeat match goal with
  | H : require_sha256_hex _ = Ok _ |- _ => apply hex_Ok in H as [-> ?]
  | H : prior_of _ = Ok _ |- _ => apply prior_of_Ok in H as [-> ?]
  | H : status_of _ = Ok _ |- _ => apply status_of_Ok in H as [-> ?]
  | H : WP.natural _ _ = Ok _ |- _ => apply natural_Ok in H as [-> ?]
  | H : WP.reason _ = Ok _ |- _ => apply reason_Ok in H as [-> ?]
  end.
  match goal with H : check_status_bounds _ _ _ _ _ _ = Ok ?u |- _ => destruct u end.
  unfold record_ok. simpl. split_and!; auto.
Qed.

Lemma record_of_Ok pd st sb ra rr cb cl reason r :
  record_of pd st sb ra rr cb cl reason = Ok r →
  record_ok r ∧ wr_projection_digest r = pd ∧ wr_status r = st ∧ wr_prior_record_digest r = None
  ∧ wr_submit_block r = sb ∧ wr_retry_after_block r = ra ∧ wr_reveal_round r = rr ∧ wr_confirmed_block r = cb
  ∧ wr_confirmed_last_update r = cl ∧ wr_reason r = reason.
Proof.
  intros Hr. apply record_init_Ok in Hr as (? & ? & ? & ? & ? & ? & ? & ? & ? & ?). simplify_eq.
  destruct (wr_prior_record_digest r); [done|]. split_and!; auto.
Qed.

(** [r'] is [r] up to the prior record. *)
Definition same_but_prior (r r' : WeightPublicationRecord) : Prop :=
  wr_projection_digest r' = wr_projection_digest r ∧ wr_status r' = wr_status r
  ∧ wr_submit_block r' = wr_submit_block r ∧ wr_retry_after_block r' = wr_retry_after_block r
  ∧ wr_reveal_round r' = wr_reveal_round r ∧ wr_confirmed_block r' = wr_confirmed_block r
  ∧ wr_confirmed_last_update r' = wr_confirmed_last_update r ∧ wr_reason r' = wr_reason r.

Lemma with_prior_Ok r prior r' :
  with_prior r prior = Ok r' → record_ok r' ∧ wr_prior_record_digest r' = prior ∧ same_but_prior r r'.
Proof.
  intros Hr. apply record_init_Ok in Hr as (? & ? & ? & Hp & ? & ? & ? & ? & ? & ?). simplify_eq.
  unfold same_but_prior. split_and!; auto. destruct prior, (wr_prior_record_digest r'); naive_solver.
Qed.

(** A confirmed record is not older than the submission it confirms. *)
Lemma confirmed_chronology r :
  record_ok r → wr_status r = "confirmed" →
  wr_submit_block r ≤ wr_confirmed_last_update r ≤ wr_confirmed_block r.
Proof.
  intros (_ & _ & _ & ? & ? & ? & ? & ? & _ & Hb) Hs. rewrite Hs in Hb. unfold check_status_bounds in Hb. inv_ok Hb.
  apply orb_false_iff in Hv0 as [? Hv0]. apply andb_false_iff in Hv0 as [Hv0|Hv0]; bool_prop; lia.
Qed.

(** ** Transitions of the journal *)

Section discipline.
Context `{Sha256} (compensated : bool) (api : FinalizedApi).

(** The exact readback that a confirmation rests on: the validator's row, read in
    this history at that block, matches the projection. *)
Definition readback (projection : WeightProjection) (h : list obs) (block last_update : Z) : Prop :=
  ∃ view snap,
    performed (read_validator_weight_snapshot compensated api (wj_netuid projection) (wj_validator_hotkey projection) (Some view))
      (Ok snap) h
    ∧ _matches snap projection = true ∧ block = mg_block view ∧ last_update = vs_last_update_block snap.

(** The head before a transition, when nothing is in flight and nothing is held. *)
Definition nothing_open (head : option WeightPublicationRecord) : Prop :=
  match head with None => True | Some c => wr_status c ∉ ["intent"; "pending"; "held"] end.

(** Keeps the facts of the record it follows. *)
Definition keeps (c r : WeightPublicationRecord) : Prop :=
  wr_projection_digest r = wr_projection_digest c ∧ wr_submit_block r = wr_submit_block c
  ∧ wr_retry_after_block r = wr_retry_after_block c ∧ wr_reveal_round r = wr_reveal_round c
  ∧ wr_confirmed_block r = wr_confirmed_block c ∧ wr_confirmed_last_update r = wr_confirmed_last_update c.

(** The transitions of the journal's state machine. *)
Inductive transition : option WeightPublicationRecord → WeightPublicationRecord → Prop :=
  | to_intent head r :
      nothing_open head → wr_status r = "intent" → 0 < wr_submit_block r → transition head r
  | to_pending c r :
      wr_status c = "intent" → wr_status r = "pending" → wr_projection_digest r = wr_projection_digest c →
      wr_submit_block r = wr_submit_block c → wr_retry_after_block r = wr_retry_after_block c → transition (Some c) r
  | to_held c r :
      wr_status c ∈ ["intent"; "pending"; "held"; "confirmed"] → wr_status r = "held" → keeps c r → transition (Some c) r
  | to_confirmed head r :
      match head with None => True | Some c => wr_status c ≠ "held" end →
      wr_status r = "confirmed" → transition head r
  | to_released c r :
      wr_status c = "held" → wr_status r = "released" → keeps c r → transition (Some c) r.

(** Where the machine goes from a record in a given status. *)
Definition next_statuses (status : string) : list string :=
  if bool_decide (status = "intent") then ["pending"; "held"; "confirmed"]
  else if bool_decide (status = "pending") then ["held"; "confirmed"]
  else if bool_decide (status = "held") then ["held"; "released"]
  else if bool_decide (status = "confirmed") then ["intent"; "held"; "confirmed"]
  else ["intent"; "confirmed"].

Lemma transition_status c r :
  wr_status c ∈ PUBLICATION_STATUSES → transition (Some c) r → wr_status r ∈ next_statuses (wr_status c).
Proof.
  intros Hc Ht. inversion Ht as [head r' Hset Hst|c' r' Hc' Hst|c' r' Hc' Hst|head r' Hc' Hst|c' r' Hc' Hst]; subst; simpl in *; rewrite Hst.
  all: repeat (apply elem_of_cons in Hc as [Hc|Hc]; [rewrite Hc in *; try (by apply (bool_decide_unpack _))|]); try by inversion Hc.
  all: exfalso; first [by apply Hset, (bool_decide_unpack _) | by apply (bool_decide_pack _) in Hc' | done].
Qed.

(** What a call of the client must satisfy in the history [h]. *)
Definition swap_ok (confirms : list obs → Z → Z → Prop) (h : list obs) (expected : option string)
    (r : WeightPublicationRecord) : Prop :=
  ∃ head, known h = Some head ∧ expected = WeightPublicationRecord_digest <$> head
    ∧ wr_prior_record_digest r = expected ∧ record_ok r ∧ transition head r
    ∧ (wr_status r = "confirmed" → confirms h (wr_confirmed_block r) (wr_confirmed_last_update r)).

Section client.
Context (signer : Signer) (projection : WeightProjection) (m : Mode).

(** A submission: signed by the projection's validator, of the projection's
    weights at the UIDs of an exact finalized view, once, and right after its own
    intent became the journal head. *)
Definition submit_ok (h : list obs) (netuid : Z) (uids : list Z) (weights : list float64) : Prop :=
  submissions h = 0%nat ∧ md_dry_run m = false ∧ md_reconcile_only m = false ∧ check_signer signer projection m = Ok tt
  ∧ netuid = wj_netuid projection
  ∧ ∃ intent view bound,
      just_stored intent h ∧ wr_status intent = "intent"
      ∧ wr_projection_digest intent = WeightProjection_digest projection
      ∧ performed (fetch_metagraph api netuid (Some (wr_submit_block intent))) (Ok view) h
      ∧ weights_to_uid_vector compensated (wj_weights projection) view = Ok (uids, weights)
      ∧ _metagraph_digest projection bound = Ok (wj_metagraph_digest projection)
      ∧ _authority_uids_unchanged projection bound view = Ok true.

Definition client_ok (h : list obs) (o : obs) : Prop :=
  match o with
  | OLoad _ => h = [] ∧ md_dry_run m = false
  | ORetained _ _ => False
  | OSwap expected r _ => md_dry_run m = false ∧ wr_status r ≠ "released" ∧ swap_ok (readback projection) h expected r
  | OSubmit netuid uids weights _ => submit_ok h netuid uids weights
  | _ => True
  end.

Lemma client_reads h o : is_read o → client_ok h o.
Proof. by destruct o. Qed.
End client.
Lemma transition_prior head r r' : same_but_prior r r' → transition head r → transition head r'.
Proof.
  intros (E1 & E2 & E3 & E4 & E5 & E6 & E7 & E8) Ht. destruct Ht as [? ? ? Hs ?|? ? ? Hs|? ? ? Hs Hk|? ? ? Hs|? ? ? Hs Hk].
  - by apply to_intent; rewrite ?E2, ?E3.
  - by apply to_pending; rewrite ?E1, ?E2, ?E3, ?E4.
  - apply to_held; rewrite ?E2; [done..|]. unfold keeps. by rewrite E1, E3, E4, E5, E6, E7.
  - by apply to_confirmed; rewrite ?E2.
  - apply to_released; rewrite ?E2; [done..|]. unfold keeps. by rewrite E1, E3, E4, E5, E6, E7.
Qed.

(** [_advance]: either the journal refused and the head the client knows is the
    old one, or the replacement, bound to the old head, is the new one. *)
Lemma wp_advance_step (ok : list obs → obs → Prop) h head r Q :
  known h = Some head → record_ok r →
  (∀ r' a, same_but_prior r r' → record_ok r' → wr_prior_record_digest r' = WeightPublicationRecord_digest <$> head →
     ok h (OSwap (WeightPublicationRecord_digest <$> head) r' a)) →
  (∀ h' e, known h' = Some head → submissions h' = submissions h → Q h' (Raise e)) →
  (∀ r', same_but_prior r r' → record_ok r' →
     let h' := h ++ [OSwap (WeightPublicationRecord_digest <$> head) r' (Ok tt)] in
     known h' = Some (Some r') → just_stored r' h' → submissions h' = submissions h → Q h' (Ok r')) →
  wp ok h (_advance head r) Q.
Proof.
  intros Hk Hr Hok HR HQ. unfold _advance. set (expected := WeightPublicationRecord_digest <$> head) in *.
  assert (∀ r', same_but_prior r r' → record_ok r' → wr_prior_record_digest r' = expected →
    wp ok h (pbind (Swap expected r' lift) (λ _, Ret r')) Q) as Hswap.
  { intros r' Hs Hr' Hp. apply wp_bind. apply wp_swap; [by intros a; apply Hok|]. intros [[]|e]; apply wp_lift.
    - apply wp_ret. apply HQ; [done..|by rewrite known_snoc|by eexists h, _, []|].
      rewrite submissions_app. unfold submissions. simpl. lia.
    - apply HR; rewrite ?known_snoc, ?submissions_app; [done|]. unfold submissions. simpl. lia. }
  apply wp_bind. case_bool_decide as Hp.
  - apply wp_ret. apply Hswap; [|done..]. by unfold same_but_prior.
  - apply wp_lift. destruct (with_prior r expected) as [r'|e] eqn:Hw; [|by apply HR].
    apply with_prior_Ok in Hw as (? & ? & ?). by apply Hswap.
Qed.

(** ** Releases *)

(** A release appends one [released] record on top of a hold. *)
Definition release_ok (h : list obs) (o : obs) : Prop :=
  match o with
  | OLoad _ => h = []
  | OSwap expected r _ => wr_status r = "released" ∧ swap_ok (λ _ _ _, False) h expected r
  | OSubmit _ _ _ _ | ORetained _ _ => False
  | _ => True
  end.

Lemma release_wp reason :
  wp release_ok [] (release_weight_publication_hold reason) (λ h out, match out with Ok r => known h = Some (Some r) | Raise _ => True end).
Proof.
  unfold release_weight_publication_hold. apply wp_bind. apply wp_mono with (Q := λ h' _, h' = []).
  { repeat case_match; by first [apply wp_ret|apply wp_throw]. }
  intros h' [s|e] ->; [|done]. apply wp_bind, wp_load; [done|]. intros [current|e]; apply wp_lift; [|done].
  destruct current as [c|]; [|by apply wp_throw].
  apply wp_check; [done|intros Hst]. unfold status_in in Hst. bool_prop. apply list_elem_of_singleton in Hst.
  apply wp_let; [done|]. intros r Hr. apply record_of_Ok in Hr as (Hr & Epd & Est & _ & Esb & Era & Err & Ecb & Ecl & _).
  apply wp_advance_step; [done..| |done|by intros ? _ _ ? ? _].
  intros r' a Hs Hr' Hp. pose proof Hs as (_ & Est' & _). split; [congruence|]. exists (Some c).
  split_and!; [done..| |by rewrite Est', Est]. apply (transition_prior _ r); [done|]. apply to_released; [done..|]. by unfold keeps.
Qed.

End discipline.
