(* ===== verification/WeightsCorrect.v ===== *)
(** * The publication client keeps its discipline

    Every step of [reconcile_weight_publication] satisfies [client_ok], whatever
    the chain and the journal answer, and what it returns is the journal head it
    left. *)

From Stdlib Require Import ZArith Lia SpecFloat.
From stdpp Require Import base tactics numbers list strings gmap.
From S2P Require Import Prelude PyValue Sha256 Identity Strict Publication Programs Chain Weights WeightsFacts.

Section steps.
Context `{Sha256} (compensated : bool) (api : FinalizedApi) (signer : Signer) (projection : WeightProjection) (m : Mode).

Abbreviation ok := (client_ok compensated api signer projection m).
Abbreviation backed := (readback compensated api projection).

(** The result reports the journal head, and a submission only when there was one. *)
Definition reported (h : list obs) (out : result WeightPublicationResult) : Prop :=
  match out with
  | Raise _ => True
  | Ok res =>
      (wo_submitted res = true → submissions h = 1%nat)
      ∧ if wo_dry_run res then known h = None ∧ wo_record res = None
        else ∃ r, wo_record res = Some r ∧ known h = Some (Some r) ∧ wo_status res = wr_status r
  end.

Lemma result_init_Ok digest status record cm sub dry block due res :
  WeightPublicationResult_init digest status record cm sub dry block due = Ok res →
  wo_record res = record ∧ wo_submitted res = sub ∧ wo_dry_run res = dry ∧ wo_status res = status
  ∧ match record with Some r => status = wr_status r ∧ dry = false | None => dry = true end.
Proof.
  unfold WeightPublicationResult_init. intros Hr. inv_ok Hr. subst res. bool_prop. simpl.
  repeat match goal with H : Bool.eqb _ _ = true |- _ => apply eqb_prop in H end.
  split_and!; [done..|]. rewrite H1 in H2. destruct record; [|done]. by apply negb_false_iff, bool_decide_eq_true in H0.
Qed.

Lemma wp_outcome h status r cm sub block due :
  known h = Some (Some r) → (sub = true → submissions h = 1%nat) →
  wp ok h (result_of projection status (Some r) cm sub false block due) reported.
Proof.
  intros Hk Hs. apply wp_lift. destruct (WeightPublicationResult_init _ _ _ _ _ _ _ _) as [res|e] eqn:Hr; [|done].
  apply result_init_Ok in Hr as (E1 & E2 & E3 & E4 & E5 & _). unfold reported. rewrite E1, E2, E3, E4. eauto.
Qed.

Lemma backed_app h t block lu : backed h block lu → backed (h ++ t) block lu.
Proof. intros (view & snap & Hp & ?). exists view, snap. split; [by apply performed_app|done]. Qed.

(** [_advance] as a step of this client. *)
Lemma wp_advance h head r Q :
  md_dry_run m = false → known h = Some head → record_ok r → wr_status r ≠ "released" → transition head r →
  (wr_status r = "confirmed" → backed h (wr_confirmed_block r) (wr_confirmed_last_update r)) →
  (∀ h' e, known h' = Some head → submissions h' = submissions h → Q h' (Raise e)) →
  (∀ r', same_but_prior r r' → record_ok r' →
     let h' := h ++ [OSwap (WeightPublicationRecord_digest <$> head) r' (Ok tt)] in
     known h' = Some (Some r') → just_stored r' h' → submissions h' = submissions h → Q h' (Ok r')) →
  wp ok h (_advance head r) Q.
Proof.
  intros Hd Hk Hr Hnr Ht Hb HR HQ. apply wp_advance_step; [done..| |done|done].
  intros r' a Hs Hr' Hp. split; [done|]. split; [by destruct Hs as (_ & -> & _)|]. exists head. split_and!; [done..| |].
  - by apply (transition_prior head r r').
  - destruct Hs as (_ & -> & _ & _ & _ & -> & -> & _). done.
Qed.

Lemma wp_held h c reason Q :
  md_dry_run m = false → known h = Some (Some c) → wr_status c ∈ ["intent"; "pending"; "held"; "confirmed"] →
  (∀ h' e, known h' = Some (Some c) → submissions h' = submissions h → Q h' (Raise e)) →
  (∀ r' h', known h' = Some (Some r') → submissions h' = submissions h → Q h' (Ok r')) →
  wp ok h (_held c reason) Q.
Proof.
  intros Hd Hk Hs HR HQ. apply wp_let; [by intros e _; apply HR|]. intros r Hr.
  apply record_of_Ok in Hr as (Hr & Epd & Est & _ & Esb & Era & Err & Ecb & Ecl & _).
  apply wp_advance with (head := Some c); [done..|by rewrite Est| | |done|].
  - apply to_held; [done..|]. by unfold keeps.
  - by rewrite Est.
  - intros r' _ _ h' Hk' _ Hsub. by apply HQ.
Qed.

Lemma wp_hold h c reason cm block :
  md_dry_run m = false → known h = Some (Some c) → wr_status c ∈ ["intent"; "pending"; "held"; "confirmed"] →
  wp ok h (hold projection c reason cm block) reported.
Proof.
  intros Hd Hk Hs. apply wp_bind. apply wp_held; [done..|]. intros r' h' Hk' _. by apply wp_outcome.
Qed.

(** ** Confirmations *)

Lemma wp_confirm h head sb ra rr block lu reason Q :
  md_dry_run m = false → known h = Some head →
  match head with None => True | Some c => wr_status c ≠ "held" end →
  backed h block lu →
  (∀ h' e, known h' = Some head → submissions h' = submissions h → Q h' (Raise e)) →
  (∀ r' h', known h' = Some (Some r') → submissions h' = submissions h → Q h' (Ok r')) →
  wp ok h (pbind (lift (record_of (WeightProjection_digest projection) "confirmed" sb ra rr block lu reason)) (_advance head)) Q.
Proof.
  intros Hd Hk Hs Hb HR HQ. apply wp_let; [by intros e _; apply HR|]. intros r Hr.
  apply record_of_Ok in Hr as (Hr & Epd & Est & _ & Esb & Era & Err & Ecb & Ecl & _).
  apply wp_advance with (head := head); [done..|by rewrite Est| | |done|].
  - by apply to_confirmed.
  - intros _. by rewrite Ecb, Ecl.
  - intros r' _ _ h' Hk' _ Hsub. by apply HQ.
Qed.

(** ** The reads before any mutation *)

(** What [observe] established. *)
Definition observed (h : list obs) (ob : Observed) : Prop :=
  known h = (if md_dry_run m then None else Some (ob_current ob)) ∧ submissions h = 0%nat
  ∧ (ob_matches ob = true → backed h (mg_block (ob_live ob)) (vs_last_update_block (ob_pre ob)))
  ∧ vs_last_update_block (ob_pre ob) ≤ mg_block (ob_live ob)
  ∧ _metagraph_digest projection (ob_bound ob) = Ok (wj_metagraph_digest projection).

Lemma quiet_observe current : quiet (observe compensated api projection m current).
Proof.
  unfold observe. apply quiet_bind; [auto with quiet|intros live]. apply quiet_bind; [case_match; auto with quiet|intros bound].
  apply quiet_bind; [auto with quiet|intros d]. apply quiet_bind; [auto with quiet|intros _].
  apply quiet_bind; [case_match; auto 10 with quiet|intros _]. auto 10 with quiet.
Qed.

Lemma observe_Ok h current tr ob :
  runs (observe compensated api projection m current) tr (Ok ob) →
  ob_current ob = current
  ∧ (ob_matches ob = true → backed (h ++ tr) (mg_block (ob_live ob)) (vs_last_update_block (ob_pre ob)))
  ∧ vs_last_update_block (ob_pre ob) ≤ mg_block (ob_live ob)
  ∧ _metagraph_digest projection (ob_bound ob) = Ok (wj_metagraph_digest projection).
Proof.
  unfold observe. intros Hr. inv_run Hr. bool_prop. subst. simpl. split_and!; [done| |lia|done].
  intros Hm. eexists _, _. split; [|done]. rewrite app_nil_r, !app_assoc. by apply performed_end.
Qed.

Lemma wp_observe h current Q :
  known h = (if md_dry_run m then None else Some current) → submissions h = 0%nat →
  (∀ h' e, Q h' (Raise e)) → (∀ h' ob, observed h' ob → Q h' (Ok ob)) →
  wp ok h (observe compensated api projection m current) Q.
Proof.
  intros Hk Hs HR HQ. apply wp_reads; [intros; by apply client_reads|apply quiet_observe|].
  intros tr [ob|e] Htr Hr; [|done]. apply HQ. pose proof (observe_Ok h _ _ _ Hr) as (Hc & ? & ? & ?).
  unfold observed. rewrite known_reads, submissions_reads, Hc by done. by split_and!.
Qed.

(** ** Steps that settle the head *)

Lemma status_in_elem r l : status_in r l = true ↔ wr_status r ∈ l.
Proof. apply bool_decide_eq_true. Qed.

Lemma observed_head h ob c : md_dry_run m = false → observed h ob → ob_current ob = Some c → known h = Some (Some c).
Proof. intros Hd (Hk & _) Hc. by rewrite Hk, Hd, Hc. Qed.

(** Status memberships that evaluate. *)
Ltac status :=
  repeat match goal with
  | H : status_in _ _ = true |- _ => apply status_in_elem in H
  | H : wr_status _ ∈ [_] |- _ => apply list_elem_of_singleton in H
  end;
  match goal with
  | H : wr_status ?c = _ |- wr_status ?c ∈ _ => rewrite H; set_solver
  | H : wr_status ?c ∈ _ |- wr_status ?c ∈ _ => set_solver
  | H : wr_status ?c = _ |- wr_status ?c ≠ _ => by rewrite H
  | H : wr_status ?c ∈ _ |- wr_status ?c ≠ _ => by intros E; rewrite E in H; set_solver
  end.

Lemma wp_reconcile_only h ob :
  md_dry_run m = false → observed h ob → wp ok h (reconcile_only_step projection m ob) reported.
Proof.
  intros Hd Hob. pose proof Hob as (Hk & Hs & Hback & _). rewrite Hd in Hk. unfold reconcile_only_step.
  destruct (ob_current ob) as [c|] eqn:Hc; [|by apply wp_throw].
  apply wp_check; [done|intros Hst; bool_prop]. apply wp_bind.
  apply wp_mono with (Q := λ h' _, h' = h).
  { destruct (retained_authority _ _ _); [|by apply wp_ret]. apply wp_let; [done|intros u _]. by apply wp_lift. }
  intros h' [[]|e] ->; [|done].
  destruct (status_in c ["pending"]) eqn:Hp.
  - apply wp_check; [done|intros _]. apply wp_check; [done|intros Hm]. bool_prop. apply wp_bind.
    apply wp_confirm with (head := Some c); auto; [status|done|]. intros r' h' Hk' _. by apply wp_outcome.
  - apply wp_check; [done|intros Hm]. apply wp_check; [done|intros _]. apply wp_check; [done|intros _]. bool_prop.
    case_match; [by apply wp_outcome|]. apply wp_bind.
    apply wp_confirm with (head := Some c); auto; [status|done|]. intros r' h' Hk' _. by apply wp_outcome.
Qed.

Lemma wp_unresolved h ob next :
  md_dry_run m = false → observed h ob →
  ((∀ c, ob_current ob = Some c → wr_status c ∉ ["intent"; "pending"; "held"]) → wp ok h next reported) →
  wp ok h (unresolved_step projection m ob next) reported.
Proof.
  intros Hd Hob Hnext. pose proof Hob as (Hk & Hs & Hback & _). rewrite Hd in Hk. unfold unresolved_step.
  destruct (ob_current ob) as [c|] eqn:Hc; [|by apply Hnext].
  destruct (status_in c ["intent"; "pending"; "held"]) eqn:Hst; simpl; cycle 1.
  { apply Hnext. intros c' [= <-]. by apply bool_decide_eq_false in Hst. }
  case_match; [apply wp_hold; [done..|status]|].
  destruct (status_in c ["held"]) eqn:Hheld; [by apply wp_outcome|].
  apply wp_let; [done|intros unchanged _]. destruct unchanged; simpl; cycle 1.
  { apply wp_hold; [done..|status]. }
  destruct (ob_matches ob && _) eqn:Hm; bool_prop.
  - apply wp_bind. apply wp_confirm with (head := Some c); auto; [|done|].
    + apply bool_decide_eq_false in Hheld. set_solver.
    + intros r' h' Hk' _. by apply wp_outcome.
  - case_match; [by apply wp_outcome|]. apply wp_hold; [done..|status].
Qed.

Lemma wp_confirmed h ob next :
  md_dry_run m = false → observed h ob → wp ok h next reported → wp ok h (confirmed_step projection m ob next) reported.
Proof.
  intros Hd Hob Hnext. pose proof Hob as (Hk & Hs & Hback & _). rewrite Hd in Hk. unfold confirmed_step.
  destruct (ob_current ob) as [c|] eqn:Hc; [|done].
  destruct (status_in c ["confirmed"]) eqn:Hst; simpl; [|done].
  destruct (_ && negb (ob_matches ob)) eqn:Hsame; [apply wp_hold; [done..|status]|].
  destruct (ob_matches ob && _) eqn:Hm; [|done]. bool_prop. apply wp_bind.
  case_match; [apply wp_ret; by apply wp_outcome|].
  apply wp_confirm with (head := Some c); auto; [status|done|]. intros r' h' Hk' _. by apply wp_outcome.
Qed.

Lemma wp_initial h ob next :
  md_dry_run m = false → observed h ob → wp ok h next reported → wp ok h (initial_step projection m ob next) reported.
Proof.
  intros Hd Hob Hnext. pose proof Hob as (Hk & Hs & Hback & _). rewrite Hd in Hk. unfold initial_step.
  destruct (ob_current ob) as [c|] eqn:Hc; [done|]. destruct (ob_matches ob && _) eqn:Hm; [|done]. bool_prop.
  apply wp_bind. apply wp_confirm with (head := None); auto; [done|]. intros r' h' Hk' _. by apply wp_outcome.
Qed.

Lemma wp_released h ob next :
  md_dry_run m = false → observed h ob → wp ok h next reported → wp ok h (released_step projection m ob next) reported.
Proof.
  intros Hd Hob Hnext. pose proof Hob as (Hk & Hs & Hback & _). rewrite Hd in Hk. unfold released_step.
  destruct (ob_current ob) as [c|] eqn:Hc; [|done]. destruct (_ && negb (refresh_due _ _ _)) eqn:Hm; [|done]. bool_prop.
  apply wp_bind. apply wp_confirm with (head := Some c); auto; [status|done|]. intros r' h' Hk' _. by apply wp_outcome.
Qed.

(** ** Signing *)

Lemma authority_members bound v v' :
  mg_uids v = mg_uids v' → mg_hotkeys v = mg_hotkeys v' →
  _authority_uids_unchanged projection bound v = _authority_uids_unchanged projection bound v'.
Proof.
  intros Hu Hh. unfold _authority_uids_unchanged. generalize (wj_validator_hotkey projection :: (wj_weights_ppm projection).*1) as l.
  induction l as [|k l IH]; simpl; [done|]. by rewrite IH, (uid_of_members v v').
Qed.

Lemma wp_snapshot h view Q :
  (∀ h' out, known h' = known h → submissions h' = submissions h →
     (∀ snap, out = Ok snap → _matches snap projection = true → backed h' (mg_block view) (vs_last_update_block snap)) → Q h' out) →
  wp ok h (read_validator_weight_snapshot compensated api (wj_netuid projection) (wj_validator_hotkey projection) (Some view)) Q.
Proof.
  intros HQ. apply wp_reads; [intros; by apply client_reads|auto with quiet|]. intros tr out Htr Hr.
  apply HQ; [by apply known_reads|by apply submissions_reads|]. intros snap -> Hm. exists view, snap. split; [by apply performed_end|done].
Qed.

Lemma wp_fetch h netuid block Q :
  (∀ h' out, known h' = known h → submissions h' = submissions h → (∀ v, out = Ok v → view_ok v) → Q h' out) →
  wp ok h (fetch_metagraph api netuid block) Q.
Proof.
  intros HQ. apply wp_reads; [intros; by apply client_reads|auto with quiet|]. intros tr out Htr Hr.
  apply HQ; [by apply known_reads|by apply submissions_reads|]. intros v ->. by apply fetch_metagraph_Ok in Hr as [? _].
Qed.

Lemma wp_signing h ob Q :
  (∀ h' e, known h' = known h → submissions h' = submissions h → Q h' (Raise e)) →
  (∀ h' v, known h' = known h → submissions h' = submissions h → mg_block (ob_live ob) ≤ mg_block v →
     _authority_uids_unchanged projection (ob_bound ob) v = Ok true → Q h' (Ok v)) →
  wp ok h (signing_authority api projection ob) Q.
Proof.
  intros HR HQ. apply wp_bind. apply wp_fetch. intros h' [v|e] Hk Hs _; [|by apply HR].
  apply wp_check; [by intros _; apply HR|intros Hb; bool_prop]. apply wp_bind.
  apply wp_mono with (Q := λ h'' _, h'' = h').
  { case_match; [|by apply wp_ret]. apply wp_let; [done|intros d _]. by apply wp_lift. }
  intros ? [[]|e] ->; [|by apply HR]. apply wp_let; [by intros e _; apply HR|intros unchanged Hu].
  apply wp_check; [by intros _; apply HR|intros Hn; bool_prop; subst]. apply wp_ret. by apply HQ.
Qed.

(** The head after a landed row is still nothing_open. *)
Lemma wp_landed h current block lu Q :
  md_dry_run m = false → known h = Some current → nothing_open current → backed h block lu →
  (∀ h' e, Q h' (Raise e)) →
  (∀ h' head, known h' = Some head → submissions h' = submissions h → nothing_open head → Q h' (Ok head)) →
  wp ok h (confirm_landed projection current block lu) Q.
Proof.
  intros Hd Hk Hset Hb HR HQ.
  assert (∀ head sb ra rr reason, known h = Some head → nothing_open head →
    wp ok h (let* r := pbind (lift (record_of (WeightProjection_digest projection) "confirmed" sb ra rr block lu reason)) (_advance head)
             in Ret (Some r)) Q) as Hconfirm.
  { intros head sb ra rr reason Hk' Hset'. apply wp_bind.
    apply wp_let; [by intros e _; apply HR|]. intros r Hr.
    apply record_of_Ok in Hr as (Hr & Epd & Est & _ & Esb & Era & Err & Ecb & Ecl & _).
    apply wp_advance with (head := head); [done..|by rewrite Est| | |by intros; apply HR|].
    - apply to_confirmed; [|done]. destruct head; simpl in *; [|done]. intros E. rewrite E in Hset'. set_solver.
    - intros _. by rewrite Ecb, Ecl.
    - intros r' (_ & Est' & _) _ h' Hk'' _ Hs. apply wp_ret, HQ; [done..|]. simpl. rewrite Est', Est. set_solver. }
  unfold confirm_landed, confirm_preexisting, confirm_record. destruct current as [c|]; [|by apply Hconfirm].
  repeat case_match; try (by apply Hconfirm); by apply wp_ret, HQ.
Qed.

Lemma wp_presign h ob signing Q :
  md_dry_run m = false → known h = Some (ob_current ob) → nothing_open (ob_current ob) →
  (∀ h' e, Q h' (Raise e)) →
  (∀ h' head landed, known h' = Some head → submissions h' = submissions h → nothing_open head →
     (landed = true → head ≠ None) → Q h' (Ok (head, landed))) →
  wp ok h (presign_readback compensated api projection m ob signing) Q.
Proof.
  intros Hd Hk Hset HR HQ. unfold presign_readback. case_match; [by apply wp_ret, HQ|].
  apply wp_bind. apply wp_snapshot. intros h' [pre|e] Hk' Hs' Hb; [|by apply HR]. rewrite Hk in Hk'.
  apply wp_check; [by intros; apply HR|intros _]. destruct (_matches pre projection && _) eqn:Hm; bool_prop.
  - apply wp_bind. apply wp_landed; [done..|by apply Hb|done|]. intros h'' head Hk'' Hs'' Hset'.
    apply wp_ret, HQ; [done|congruence|done|]. intros Hl. bool_prop. by destruct head.
  - by apply wp_ret, HQ.
Qed.

(** The signer's context: the intent is the head, and the view it signs for has
    the UIDs of the projection's own metagraph. *)
Definition ready (h : list obs) (intent : WeightPublicationRecord) (signing : MetagraphView) : Prop :=
  just_stored intent h ∧ submissions h = 0%nat ∧ wr_status intent = "intent"
  ∧ wr_projection_digest intent = WeightProjection_digest projection ∧ wr_submit_block intent = mg_block signing
  ∧ md_dry_run m = false ∧ md_reconcile_only m = false ∧ check_signer signer projection m = Ok tt
  ∧ ∃ bound, _metagraph_digest projection bound = Ok (wj_metagraph_digest projection)
      ∧ _authority_uids_unchanged projection bound signing = Ok true.

(** The SDK call submits at most once, and a response that reports a submission
    comes from that call. *)
Lemma wp_attempt h intent signing Q :
  ready h intent signing →
  (∀ h' out, known h' = known h →
     match out with
     | Ok a => match a.1 with Some response => sw_submitted response = true → submissions h' = 1%nat | None => True end
     | Raise _ => False
     end → Q h' out) →
  wp ok h (attempt compensated api projection signing) Q.
Proof.
  intros (Hk & Hs & Hst & Hpd & Hsb & Hd & Hro & Hsig & bound & Hbound & Hun) HQ. unfold attempt. apply wp_catch.
  apply wp_mono with (Q := λ h' out, known h' = known h ∧
    match out with Ok a => ∃ r, a.1 = Some r ∧ (sw_submitted r = true → submissions h' = 1%nat) | Raise _ => True end).
  2: { intros h' [a|e] [Hk' Ha]; [|by apply wp_ret, HQ]. apply HQ; [done|]. by destruct Ha as (r & -> & Hr). }
  unfold set_weights. apply wp_bind, wp_bind. apply wp_reads; [intros; by apply client_reads|auto with quiet|].
  intros tr [mg|e] Htr Hr; [|by rewrite known_reads]. apply reopen_Ok in Hr as (_ & Hb & Hu & Hh & Hfetch).
  apply wp_let; [by intros; rewrite known_reads|]. intros [uids weights] Hv. simpl.
  case_match; [apply wp_ret, wp_ret; rewrite known_reads by done; split; [done|]; eexists; by split|].
  apply wp_bind. apply wp_submit.
  - intros r. split_and!; [by rewrite submissions_reads|done..|]. exists intent, mg, bound.
    rewrite Hsb, (authority_members bound mg signing) by done. split_and!; try done; [by apply just_stored_app|by apply performed_end].
  - assert (∀ r, known ((h ++ tr) ++ [OSubmit (wj_netuid projection) uids weights r]) = known h ∧
      submissions ((h ++ tr) ++ [OSubmit (wj_netuid projection) uids weights r]) = 1%nat) as Hh'.
    { intros r. rewrite known_snoc, known_reads, submissions_app, submissions_reads, Hs by done. by split. }
    intros [res|e]; [|apply wp_throw; split; [apply Hh'|done]]. apply wp_ret.
    apply wp_let; [by intros; split; [apply Hh'|]|]. intros okb _. apply wp_ret, wp_ret. split; [apply Hh'|]. eexists.
    split; [done|]. intros _. apply Hh'.
Qed.

(** A refusal inside the reads after the SDK call leaves the pending head; the
    only later exceptions there are not of the chain. *)
Definition post_ok (n : nat) (pending : WeightPublicationRecord) (h : list obs)
    (out : result (WeightPublicationResult + ValidatorWeightSnapshot * Z)) : Prop :=
  match out with
  | Ok (inl r) => reported h (Ok r)
  | Ok (inr (post, block)) =>
      known h = Some (Some pending) ∧ submissions h = n
      ∧ (_matches post projection = true → backed h block (vs_last_update_block post))
  | Raise e => is_class ChainWeightStateError e = false ∨ known h = Some (Some pending) ∧ submissions h = n
  end.

Lemma result_init_Raise digest status record cm sub dry block due e :
  WeightPublicationResult_init digest status record cm sub dry block due = Raise e → is_class ChainWeightStateError e = false.
Proof.
  unfold WeightPublicationResult_init, require_sha256_hex. destruct (is_hex64 digest); simpl; [|by intros [= <-]].
  unfold raise_if. case_match; simpl; by intros [= <-].
Qed.

(** A hold whose result is returned from inside the reads. *)
Lemma wp_post_hold h pending reason submitted block :
  md_dry_run m = false → known h = Some (Some pending) → wr_status pending = "pending" →
  (submitted = true → submissions h = 1%nat) →
  wp ok h (let* held := _held pending reason in
           let* r := result_of projection "held" (Some held) false submitted false block false in Ret (inl r))
    (post_ok (submissions h) pending).
Proof.
  intros Hd Hk Hst Hs. apply wp_bind. apply wp_held; [done..|rewrite Hst; set_solver|by right|]. intros r' h' Hk' Hs'.
  apply wp_let; [by intros e He; left; eapply result_init_Raise|]. intros res Hres. apply wp_ret.
  apply result_init_Ok in Hres as (E1 & E2 & E3 & E4 & E5 & _). unfold post_ok, reported. rewrite E1, E2, E3, E4, Hs'. eauto.
Qed.

Lemma wp_post_reads h pending submitted signing :
  md_dry_run m = false → known h = Some (Some pending) → wr_status pending = "pending" →
  (submitted = true → submissions h = 1%nat) →
  wp ok h (post_reads compensated api projection pending submitted signing) (post_ok (submissions h) pending).
Proof.
  intros Hd Hk Hst Hs. unfold post_reads. apply wp_bind. apply wp_fetch. intros h' [v|e] Hk' Hs' _; [|by right; rewrite Hk'].
  rewrite Hk in Hk'. rewrite <-Hs'. rewrite <-Hs' in Hs. clear h Hk Hs'. rename h' into h.
  apply wp_bind. apply wp_mono with (Q := λ h' _, h' = h).
  { case_match; [|by apply wp_ret]. apply wp_let; [done|intros d _]. apply wp_let; [done|intros d' _]. by apply wp_lift. }
  intros ? [[]|e] ->; [|by right]. apply wp_let; [by right|]. intros unchanged _.
  destruct unchanged; simpl; [|by apply wp_post_hold].
  apply wp_bind. apply wp_snapshot. intros h' [post|e] Hk'' Hs'' Hb; [|by right; rewrite Hk'']. rewrite Hk' in Hk''.
  apply wp_check; [by right|intros _]. apply wp_ret. split_and!; auto.
Qed.

Lemma wp_post_submit h pending submitted signing :
  md_dry_run m = false → known h = Some (Some pending) → wr_status pending = "pending" →
  (submitted = true → submissions h = 1%nat) →
  wp ok h (post_submit compensated api projection m pending submitted signing) reported.
Proof.
  intros Hd Hk Hst Hs. unfold post_submit. apply wp_bind.
  apply wp_mono with (Q := λ h' out, match out with Raise _ => True | _ => post_ok (submissions h) pending h' out end).
  - apply wp_catch. eapply wp_mono; [by apply wp_post_reads|]. intros h' [r|e] Hp; [by destruct r|].
    destruct (is_class ChainWeightStateError e) eqn:He; [|by apply wp_throw].
    destruct Hp as [Hp|[Hk' Hs']]; [congruence|]. rewrite <-Hs'.
    eapply wp_mono; [apply wp_post_hold; [done..|by rewrite Hs']|]. by intros h'' [].
  - intros h' [[r|[post block]]|e]; [intros Hr; by apply wp_ret| |done]. intros (Hk' & Hs' & Hb).
    destruct (_ && _) eqn:Hm; bool_prop.
    + apply wp_let; [done|]. intros r Hr.
      apply record_of_Ok in Hr as (Hr & Epd & Est & _ & Esb & Era & Err & Ecb & Ecl & _).
      apply wp_bind. apply wp_advance with (head := Some pending); [done..|by rewrite Est| | |done|].
      * apply to_confirmed; [|done]. by rewrite Hst.
      * intros _. rewrite Ecb, Ecl. by apply Hb.
      * intros r' _ _ h'' Hk'' _ Hs''. apply wp_outcome; [done|]. intros ->. rewrite Hs'', Hs'. by apply Hs.
    + apply wp_outcome; [done|]. intros ->. rewrite Hs'. by apply Hs.
Qed.

Lemma wp_submit_step h current signing bound :
  md_dry_run m = false → md_reconcile_only m = false → check_signer signer projection m = Ok tt →
  _metagraph_digest projection bound = Ok (wj_metagraph_digest projection) →
  _authority_uids_unchanged projection bound signing = Ok true →
  known h = Some current → submissions h = 0%nat → nothing_open current → 0 < mg_block signing →
  wp ok h (submit_step compensated api projection m current signing) reported.
Proof.
  intros Hd Hro Hsig Hbound Hun Hk Hs Hset Hpos. unfold submit_step. apply wp_let; [done|]. intros r Hr.
  apply record_of_Ok in Hr as (Hr & Epd & Est & _ & Esb & Era & _).
  apply wp_bind. apply wp_advance with (head := current); [done..|by rewrite Est| | |done|].
  { apply to_intent; [done..|]. by rewrite Esb. }
  { by rewrite Est. }
  intros intent (Epd' & Est' & Esb' & Era' & _) Hri h' Hk' Hj Hs'. clearbody h'.
  apply wp_bind. eapply wp_attempt with (intent := intent).
  { unfold ready. rewrite Hs', Est', Epd', Esb', Est, Epd, Esb. split_and!; eauto. }
  intros h'' [[response reason]|e] Hk'' Ha; [|done]. rewrite Hk' in Hk''. simpl in Ha.
  apply wp_let; [done|]. intros p Hp. apply record_of_Ok in Hp as (Hp & Ppd & Pst & _ & Psb & Pra & _).
  apply wp_bind. apply wp_advance with (head := Some intent); [done..|by rewrite Pst| | |done|].
  { apply to_pending; congruence. }
  { by rewrite Pst. }
  intros pending (_ & Pst' & _) _ h3 Hk3 _ Hs3. apply wp_post_submit; [done..|congruence|].
  rewrite Hs3. destruct response; [done|]. done.
Qed.

Lemma wp_publish h ob :
  md_dry_run m = false → md_reconcile_only m = false → observed h ob → nothing_open (ob_current ob) →
  wp ok h (publish_step compensated api signer projection m ob) reported.
Proof.
  intros Hd Hro (Hk & Hs & _ & _ & Hbound) Hset. rewrite Hd in Hk. unfold publish_step.
  apply wp_let; [done|intros [] Hsig]. apply wp_check; [done|intros Hpos; bool_prop].
  apply wp_bind. apply wp_signing; [done|]. intros h' v Hk' Hs' Hle Hun. apply wp_bind.
  apply wp_presign; [done|congruence|done..|]. intros h'' head landed Hk'' Hs'' Hset' Hl. simpl.
  destruct landed.
  - destruct head; [|by destruct Hl]. by apply wp_outcome.
  - eapply wp_submit_step; try done; [congruence|lia].
Qed.
End steps.

(** ** The whole client *)

Section client.
Context `{Sha256} (compensated : bool) (api : FinalizedApi) (signer : Signer) (projection : WeightProjection).

(** Every call of a reconciliation is one its mode allows, and its result reports
    the journal. *)
Lemma reconcile_wp o m :
  check_mode signer o = Ok m →
  wp (client_ok compensated api signer projection m) [] (reconcile_weight_publication compensated api signer projection o) reported.
Proof.
  intros Hm. unfold reconcile_weight_publication. apply wp_let; [by rewrite Hm|]. rewrite Hm. intros ? [= <-].
  unfold reconcile_body. apply wp_bind. destruct (md_dry_run m) eqn:Hd.
  - apply wp_ret. apply wp_bind. apply wp_observe; rewrite ?Hd; [done..|]. intros h ob (Hk & Hs & _). rewrite Hd in Hk.
    apply wp_bind. apply wp_reads; [intros; by apply client_reads|auto with quiet|]. intros tr [a|e] Htr _; [|done].
    apply wp_lift. destruct (WeightPublicationResult_init _ _ _ _ _ _ _ _) as [res|e] eqn:Hr; [|done].
    apply result_init_Ok in Hr as (E1 & E2 & E3 & _). unfold reported. rewrite E1, E2, E3, known_reads by done. done.
  - apply wp_load; [done|]. intros [current|e]; apply wp_lift; [|done]. apply wp_bind.
    apply wp_observe; rewrite ?Hd; [done..|]. intros h ob Hob. destruct (md_reconcile_only m) eqn:Hro; [by apply wp_reconcile_only|].
    apply wp_unresolved; [done..|]. intros Hun. apply wp_confirmed, wp_initial, wp_released, wp_publish; try done.
    unfold nothing_open. destruct (ob_current ob); [by apply Hun|done].
Qed.
End client.
