(* ===== verification/Journal.v ===== *)
(** * The SQLite publication journal

    [SQLiteWeightPublicationJournal] of [chain/intake.py]: the table
    [weight_publications], the head in [metadata], and the operations on them.  A
    JSON column holds what [json.loads] makes of its text, [None] when it refuses
    the text; the order of the keys of an object does not matter to its readers.
    A transaction that raises leaves the store as it was.  An adapter is the store
    with the projection it was opened with. *)

From Stdlib Require Import ZArith Lia Ascii.
From stdpp Require Import base tactics numbers list strings gmap.
From S2P Require Import Prelude PyValue Sha256 Identity Strict Publication.

(** One row of [weight_publications]. *)
Record JournalRow := {
  jr_record_digest : string;
  jr_sequence : Z;
  jr_projection_digest : string;
  jr_projection_json : option pyval;
  jr_record_json : option pyval;
  jr_status : string;
  jr_updated_block : Z
}.

(** The part of the store the journal uses: whether incentive composition was
    activated, the head row of [metadata] and the table. *)
Record JournalStore := {
  js_activated : bool;
  js_head : option (option pyval);
  js_rows : list JournalRow
}.

Definition intake_error (msg : string) : pyexn := Exn IntakeError msg.

(** The classes that [except (TypeError, ValueError, JSONDecodeError)] catches. *)
Definition is_decode_error (c : exn_class) : bool := bool_decide (c ∈ [TypeError; OtherValueError; StackIdentityError]).

(** [decode(json.loads(text))] with the errors of both turned into [IntakeError]. *)
Definition decode {A} (extra : list exn_class) (msg : string) (from_dict : pyval → result A) (text : option pyval) : result A :=
  match text with
  | None => Raise (intake_error msg)
  | Some v => reraise (λ c, is_decode_error c || bool_decide (c ∈ extra)) (λ _, intake_error msg) (from_dict v)
  end.

Definition _require_legacy_v1_allowed (st : JournalStore) : result unit :=
  raise_if (js_activated st) (intake_error "legacy V1 weight publication is disabled after incentive composition activation").

(** [WHERE record_digest=?] on the primary key. *)
Definition find_record (st : JournalStore) (digest : string) : option JournalRow :=
  List.find (λ row, bool_decide (jr_record_digest row = digest)) (js_rows st).

(** [WHERE projection_digest=? ORDER BY sequence DESC LIMIT 1] *)
Definition latest_of (acc : option JournalRow) (row : JournalRow) : option JournalRow :=
  match acc with
  | Some best => if jr_sequence best <? jr_sequence row then Some row else acc
  | None => Some row
  end.

Definition find_projection (st : JournalStore) (digest : string) : option JournalRow :=
  foldl latest_of None (filter (λ row, jr_projection_digest row = digest) (js_rows st)).

(** The head: projection digest and record digest. *)
Definition _read_head (st : JournalStore) : result (option (string * string)) :=
  do! _require_legacy_v1_allowed st ;;
  match js_head st with
  | None => Ok None
  | Some text =>
      let! value := decode [] "weight publication head is corrupt" Ok text in
      let! row := exact_rows ["projection_digest"; "record_digest"] (intake_error "weight publication head is malformed") value in
      let! projection_digest := row_get row "projection_digest" in
      let! projection_digest := require_sha256_hex projection_digest in
      let! record_digest := row_get row "record_digest" in
      let! record_digest := require_sha256_hex record_digest in
      Ok (Some (projection_digest, record_digest))
  end.

(** [COALESCE(MAX(sequence),0)+1] *)
Definition next_sequence (st : JournalStore) : Z :=
  match js_rows st with
  | [] => 1
  | row :: rows => foldl Z.max (jr_sequence row) (jr_sequence <$> rows) + 1
  end.

Definition retained_projection `{Sha256} (st : JournalStore) (projection_digest : string) : result WeightProjection :=
  do! _require_legacy_v1_allowed st ;;
  do! require_sha256_hex (PStr projection_digest) ;;
  match find_projection st projection_digest with
  | None => Raise (intake_error "weight projection is not retained")
  | Some row =>
      let! projection := decode [] "weight projection is corrupt" WeightProjection_from_dict (jr_projection_json row) in
      do! raise_if (negb (bool_decide (WeightProjection_digest projection = projection_digest)))
            (intake_error "retained weight projection digest differs") ;;
      Ok projection
  end.

Section journal.
Context `{Sha256}.

(** The walk to the first record.  Every turn adds a digest of the table to
    [seen], so one turn per row and one for the last test are enough. *)
Fixpoint walk (st : JournalStore) (fuel : nat) (seen : list string) (current : WeightPublicationRecord) : result unit :=
  match fuel with
  | O => Raise (Exn OutOfFuel "")
  | S fuel =>
      let digest := WeightPublicationRecord_digest current in
      do! raise_if (bool_decide (digest ∈ seen)) (intake_error "weight publication journal contains a cycle") ;;
      match wr_prior_record_digest current with
      | None => Ok tt
      | Some prior =>
          match find_record st prior with
          | None => Raise (intake_error "weight publication predecessor is missing")
          | Some row =>
              let! predecessor := decode [] "weight publication predecessor is corrupt" WeightPublicationRecord_from_dict
                                    (jr_record_json row) in
              do! raise_if (negb (bool_decide (WeightPublicationRecord_digest predecessor = prior)))
                    (intake_error "weight publication predecessor digest differs") ;;
              walk st fuel (digest :: seen) predecessor
          end
      end
  end.

Definition load (st : JournalStore) : result (option WeightPublicationRecord) :=
  let! head := _read_head st in
  match head with
  | None => Ok None
  | Some (projection_digest, record_digest) =>
      match find_record st record_digest with
      | None => Raise (intake_error "weight publication head has no retained record")
      | Some row =>
          let! record := decode [] "weight publication record is corrupt" WeightPublicationRecord_from_dict (jr_record_json row) in
          do! raise_if (negb (bool_decide (WeightPublicationRecord_digest record = record_digest))
                        || negb (bool_decide (wr_projection_digest record = projection_digest)))
                (intake_error "weight publication head differs from retained record") ;;
          do! walk st (length (js_rows st) + 2) [] record ;;
          Ok (Some record)
      end
  end.

(** The row a swap inserts, and the head it writes. *)
Definition journal_row (sequence : Z) (projection_json : option pyval) (r : WeightPublicationRecord) : JournalRow :=
  {| jr_record_digest := WeightPublicationRecord_digest r;
     jr_sequence := sequence;
     jr_projection_digest := wr_projection_digest r;
     jr_projection_json := projection_json;
     jr_record_json := Some (WeightPublicationRecord_to_dict r);
     jr_status := wr_status r;
     jr_updated_block := Z.max (wr_submit_block r) (Z.max (wr_confirmed_block r) (wr_confirmed_last_update r)) |}.

Definition journal_head (r : WeightPublicationRecord) : pyval :=
  py_dict [("projection_digest", PStr (wr_projection_digest r)); ("record_digest", PStr (WeightPublicationRecord_digest r))].

(** [INSERT INTO weight_publications]: a block that does not fit SQLite's integer
    and a record digest that is there already are refused. *)
Definition insert_row (st : JournalStore) (row : JournalRow) : result (list JournalRow) :=
  do! raise_if (2 ^ 63 <=? jr_updated_block row) (Exn ForeignError "OverflowError") ;;
  do! raise_if (bool_decide (jr_record_digest row ∈ jr_record_digest <$> js_rows st)) (Exn ForeignError "IntegrityError") ;;
  Ok (js_rows st ++ [row]).

Definition compare_and_swap (projection : WeightProjection) (st : JournalStore) (expected : option string)
    (replacement : WeightPublicationRecord) : result JournalStore :=
  do! match expected with Some d => do! require_sha256_hex (PStr d) ;; Ok tt | None => Ok tt end ;;
  do! raise_if (negb (bool_decide (wr_prior_record_digest replacement = expected)))
        (intake_error "weight publication replacement does not bind the CAS head") ;;
  let! head := _read_head st in
  do! raise_if (negb (bool_decide (snd <$> head = expected))) (intake_error "weight publication journal compare-and-swap failed") ;;
  let! projection_json :=
    if bool_decide (wr_projection_digest replacement = WeightProjection_digest projection)
    then Ok (Some (WeightProjection_to_dict projection))
    else match find_projection st (wr_projection_digest replacement) with
         | Some row => Ok (jr_projection_json row)
         | None => Raise (intake_error "publication record has no retained projection")
         end in
  let! rows := insert_row st (journal_row (next_sequence st) projection_json replacement) in
  Ok {| js_activated := js_activated st; js_head := Some (Some (journal_head replacement)); js_rows := rows |}.

(** The constructor of an adapter, and [reopen_from_head], which returns the
    projection of the adapter it opens. *)
Definition open_journal (st : JournalStore) (projection : WeightProjection) : result WeightProjection :=
  do! _require_legacy_v1_allowed st ;; Ok projection.

Definition reopen_from_head (st : JournalStore) : result WeightProjection :=
  let! head := _read_head st in
  match head with
  | None => Raise (intake_error "weight publication journal has no retained head")
  | Some (projection_digest, record_digest) =>
      let missing := intake_error "weight publication head has no retained projection" in
      match find_record st record_digest with
      | None => Raise missing
      | Some row =>
          do! raise_if (negb (bool_decide (jr_projection_digest row = projection_digest))) missing ;;
          let! projection := decode [WeightPublicationError] "weight projection is corrupt" WeightProjection_from_dict
                               (jr_projection_json row) in
          do! raise_if (negb (bool_decide (WeightProjection_digest projection = projection_digest)))
                (intake_error "retained weight projection differs from journal head") ;;
          let! projection := open_journal st projection in
          let! record := reraise (λ c, bool_decide (c = WeightPublicationError))
                           (λ _, intake_error "weight publication record is corrupt") (load st) in
          do! raise_if (match record with
                        | None => true
                        | Some r => negb (bool_decide (WeightPublicationRecord_digest r = record_digest))
                        end) (intake_error "weight publication head cannot be reopened") ;;
          Ok projection
      end
  end.
End journal.
