(* ===== verification/PublicationSystem.v ===== *)
(** * Several clients of one journal

    Reconcilers and releasers that share a SQLite journal, interleaved call by
    call: a history is the sequence of their calls with the answers, the
    journal's answered by the store and the chain's arbitrary.  A client may stop
    anywhere.  The journal is then an append-only log whose consecutive records are
    transitions of the publication state machine, and the number of submissions is
    bounded by the confirmations and releases it records. *)

From Stdlib Require Import ZArith Lia Ascii.
From stdpp Require Import base tactics numbers list strings gmap.
From S2P Require Import Prelude PyValue Sha256 Identity Strict Publication Programs Chain Weights WeightsFacts WeightsCorrect Journal.

(** ** The journal is an append-only log

    Round trips of the stored values, the termination of the walk, and the
    refinement of the SQLite journal to a list of records: [load] returns its last
    element and a successful [compare_and_swap] appends to it. *)

(** ** Round trips *)

Lemma exact_rows_dict fields e rows :
  (list_to_set rows.*1 : gset string) = list_to_set fields → exact_rows fields e (py_dict rows) = Ok rows.
Proof. intros Hf. unfold exact_rows, py_dict. rewrite all_str_keys_py_dict. by rewrite bool_decide_eq_true_2. Qed.

Lemma hex_pass d : is_hex64 d = true → require_sha256_hex (PStr d) = Ok d.
Proof. intros Hd. simpl. by rewrite Hd. Qed.

Lemma natural_pass msg z : 0 ≤ z → WP.natural msg (PInt z) = Ok z.
Proof. intros Hz. unfold WP.natural. by destruct (Z.ltb_spec z 0); [lia|]. Qed.

Lemma status_pass s : s ∈ PUBLICATION_STATUSES → status_of (PStr s) = Ok s.
Proof. intros Hs. unfold status_of. simpl. by rewrite bool_decide_eq_true_2. Qed.

Lemma prior_pass p :
  match p with Some d => is_hex64 d = true | None => True end →
  prior_of (match p with None => PNone | Some d => PStr d end) = Ok p.
Proof. destruct p as [d|]; [|done]. intros Hd. unfold prior_of. by rewrite (hex_pass d). Qed.

(** A record that passed its checks passes them again. *)
Lemma record_init_pass r :
  record_ok r →
  WeightPublicationRecord_init (PStr (wr_projection_digest r)) (PStr (wr_status r))
    (match wr_prior_record_digest r with None => PNone | Some d => PStr d end) (PInt (wr_submit_block r))
    (PInt (wr_retry_after_block r)) (PInt (wr_reveal_round r)) (PInt (wr_confirmed_block r))
    (PInt (wr_confirmed_last_update r)) (PStr (wr_reason r)) = Ok r.
Proof.
  intros (Hpd & Hp & Hst & H1 & H2 & H3 & H4 & H5 & Hr & Hb). unfold WeightPublicationRecord_init.
  rewrite (hex_pass _ Hpd), (prior_pass _ Hp), (status_pass _ Hst), !natural_pass, Hr by done. cbn [bind].
  rewrite Hb. by destruct r.
Qed.

Lemma record_dict_roundtrip r : record_ok r → WeightPublicationRecord_from_dict (WeightPublicationRecord_to_dict r) = Ok r.
Proof.
  intros Hr. unfold WeightPublicationRecord_from_dict, WeightPublicationRecord_to_dict.
  rewrite exact_rows_dict by (cbn; set_solver). cbn -[WeightPublicationRecord_init]. by apply record_init_pass.
Qed.

Lemma record_from_dict_ok v r : WeightPublicationRecord_from_dict v = Ok r → record_ok r.
Proof. unfold WeightPublicationRecord_from_dict. intros Hr. inv_ok Hr. by apply record_init_Ok in Hr as [? _]. Qed.

(** A projection that passed its own checks. *)
Definition projection_ok (p : WeightProjection) : Prop :=
  WeightProjection_init (PStr (wj_chain_scope_digest p)) (PInt (wj_netuid p)) (PStr (wj_validator_hotkey p))
    (PStr (wj_policy_digest p)) (PStr (wj_settlement_state_digest p)) (PStr (wj_evaluation_state_digest p))
    (PStr (wj_metagraph_digest p)) (wj_arena_state_digests p) (PInt (wj_stack_generation p))
    (PInt (wj_effective_block p)) (PInt (wj_crown_count p)) (wj_evidence_digests p) (wj_weights_ppm p) = Ok p.

Lemma projection_weights p : projection_ok p → wj_weights_ppm p ≠ [].
Proof.
  unfold projection_ok, WeightProjection_init. intros Hp Hw. inv_ok Hp.
  match goal with H : check_weights _ = Ok _ |- _ => unfold check_weights in H; by rewrite Hw in H end.
Qed.

Lemma digest_items_pass l : digest_items (PStr <$> l) = Ok l.
Proof. unfold digest_items. apply mapM_Ok, Forall2_fmap_l, Forall_Forall2_diag, Forall_true. done. Qed.

Lemma weight_rows_pass l : mapM weight_row ((λ row : string * Z, PList [PStr row.1; PInt row.2]) <$> l) = Ok l.
Proof. apply mapM_Ok, Forall2_fmap_l, Forall_Forall2_diag, Forall_true. by intros []. Qed.

Lemma weight_rows_shape l :
  existsb (λ r, match r with PList [_; _] => false | _ => true end) ((λ row : string * Z, PList [PStr row.1; PInt row.2]) <$> l) = false.
Proof. by induction l. Qed.

Lemma projection_dict_roundtrip p : projection_ok p → WeightProjection_from_dict (WeightProjection_to_dict p) = Ok p.
Proof.
  intros Hp. unfold WeightProjection_from_dict, WeightProjection_to_dict.
  rewrite exact_rows_dict by (cbn; set_solver). unfold py_strs. cbn -[WeightProjection_init digest_items weight_row fmap].
  rewrite weight_rows_shape. cbn -[WeightProjection_init digest_items weight_row fmap].
  rewrite weight_rows_pass. cbn -[WeightProjection_init digest_items fmap]. by rewrite !digest_items_pass.
Qed.

(** ** Termination of the walk *)

(** A computation of the program, not of the fuel. *)
Definition no_fuel {A} (m : result A) : Prop := ∀ e, m = Raise e → exn_cls e ≠ OutOfFuel.

Create HintDb fuel.

Lemma no_fuel_Ok {A} (a : A) : no_fuel (Ok a).
Proof. done. Qed.

Lemma no_fuel_raise {A} e : exn_cls e ≠ OutOfFuel → no_fuel (A:=A) (Raise e).
Proof. by intros He ? [= <-]. Qed.

Lemma no_fuel_bind {A B} (m : result A) (f : A → result B) : no_fuel m → (∀ a, no_fuel (f a)) → no_fuel (bind m f).
Proof. intros Hm Hf e. destruct m; simpl; [apply Hf|]. intros [= <-]. by apply Hm. Qed.

Lemma no_fuel_raise_if b e : exn_cls e ≠ OutOfFuel → no_fuel (raise_if b e).
Proof. destruct b; [apply no_fuel_raise|done]. Qed.

Lemma no_fuel_hex v : no_fuel (require_sha256_hex v).
Proof. destruct v; simpl; try (by apply no_fuel_raise). case_match; [done|by apply no_fuel_raise]. Qed.

Lemma no_fuel_row_get row k : no_fuel (row_get row k).
Proof. induction row as [|[] row IH]; simpl; [by apply no_fuel_raise|]. by case_match. Qed.

Lemma no_fuel_exact_rows fields e v : exn_cls e ≠ OutOfFuel → no_fuel (exact_rows fields e v).
Proof.
  intros He. unfold exact_rows. destruct v; try by apply no_fuel_raise. case_match; [|by apply no_fuel_raise].
  apply no_fuel_bind; [by apply no_fuel_raise_if|done].
Qed.

Lemma no_fuel_natural msg v : no_fuel (WP.natural msg v).
Proof. unfold WP.natural. repeat case_match; try done; by apply no_fuel_raise. Qed.
#[export] Hint Resolve no_fuel_Ok no_fuel_bind no_fuel_hex no_fuel_row_get no_fuel_natural : fuel.

Lemma no_fuel_record_from_dict v : no_fuel (WeightPublicationRecord_from_dict v).
Proof.
  unfold WeightPublicationRecord_from_dict, WeightPublicationRecord_init.
  apply no_fuel_bind; [by apply no_fuel_exact_rows|intros row]. do 9 (apply no_fuel_bind; [auto with fuel|intros ?]).
  apply no_fuel_bind; [auto with fuel|intros ?]. apply no_fuel_bind; [intros e; unfold prior_of; case_match; revert e;
    first [apply no_fuel_Ok | apply no_fuel_bind; auto with fuel]|intros ?].
  apply no_fuel_bind.
  { unfold status_of, py_in_strs. apply no_fuel_bind; [case_match; [done|by apply no_fuel_raise]|].
    intros ?. repeat case_match; try done; by apply no_fuel_raise. }
  intros ?. do 5 (apply no_fuel_bind; [auto with fuel|intros ?]). apply no_fuel_bind.
  { unfold WP.reason. repeat case_match; try done; by apply no_fuel_raise. }
  intros ?. apply no_fuel_bind; [|auto with fuel]. unfold check_status_bounds.
  repeat (apply no_fuel_bind; [by apply no_fuel_raise_if|intros ?]). by apply no_fuel_raise_if.
Qed.

Lemma no_fuel_decode {A} extra msg (f : pyval → result A) text : (∀ v, no_fuel (f v)) → no_fuel (decode extra msg f text).
Proof.
  intros Hf e. unfold decode, reraise. destruct text as [v|]; [|by intros [= <-]].
  destruct (f v) eqn:Hv; [done|]. case_match; intros [= <-]; [done|]. by apply (Hf v).
Qed.

Lemma find_record_elem st d row : find_record st d = Some row → row ∈ js_rows st ∧ jr_record_digest row = d.
Proof. intros Hf. apply List.find_some in Hf as [Hin Hd]. bool_prop. by apply list_elem_of_In in Hin. Qed.

Section log.
Context `{Sha256}.
Abbreviation digest := WeightPublicationRecord_digest.

(** Every record the walk visits is in the table, so the walk ends. *)
Lemma walk_terminates st fuel seen current :
  digest current ∈ jr_record_digest <$> js_rows st → NoDup seen → seen ⊆ (jr_record_digest <$> js_rows st) →
  (length (js_rows st) < fuel + length seen)%nat → no_fuel (walk st fuel seen current).
Proof.
  revert seen current. induction fuel as [|fuel IH]; intros seen current Hin Hnd Hsub Hlen.
  { exfalso. assert (length seen ≤ length (jr_record_digest <$> js_rows st))%nat; [|rewrite length_fmap in *; lia].
    by apply submseteq_length, NoDup_submseteq. }
  cbn [walk]. case_bool_decide as Hseen; cbn [raise_if bind]; [by apply no_fuel_raise|].
  destruct (wr_prior_record_digest current) as [prior|]; [|done].
  destruct (find_record st prior) as [row|] eqn:Hrow; [|by apply no_fuel_raise].
  apply no_fuel_bind; [apply no_fuel_decode, no_fuel_record_from_dict|]. intros pred.
  case_bool_decide as Hpred; cbn [negb raise_if bind]; [|by apply no_fuel_raise].
  apply IH; [| |set_solver|simpl; lia].
  - rewrite Hpred. apply find_record_elem in Hrow as [Hr <-]. by apply list_elem_of_fmap_2.
  - by constructor.
Qed.

(** ** The log *)

(** A record with the projection it is about. *)
Definition entry : Type := WeightPublicationRecord * WeightProjection.

(** The head of a log. *)
Definition log_head (log : list entry) : option WeightPublicationRecord := fst <$> last log.

(** Every entry binds the digest of the one before it and its own projection; no
    digest occurs twice. *)
Inductive log_ok : list entry → Prop :=
  | log_nil : log_ok []
  | log_snoc log r p :
      log_ok log → record_ok r → projection_ok p → wr_projection_digest r = WeightProjection_digest p →
      wr_prior_record_digest r = digest <$> log_head log → digest r ∉ digest ∘ fst <$> log →
      log_ok (log ++ [(r, p)]).

(** The rows that hold a log, from a sequence number on. *)
Fixpoint rows_from (n : Z) (log : list entry) : list JournalRow :=
  match log with
  | [] => []
  | (r, p) :: log => journal_row n (Some (WeightProjection_to_dict p)) r :: rows_from (n + 1) log
  end.

(** The store holds exactly the log. *)
Definition represents (st : JournalStore) (log : list entry) : Prop :=
  js_activated st = false ∧ log_ok log ∧ js_rows st = rows_from 1 log
  ∧ js_head st = (λ r, Some (journal_head r)) <$> log_head log.

Lemma rows_from_app n log log' : rows_from n (log ++ log') = rows_from n log ++ rows_from (n + Z.of_nat (length log)) log'.
Proof.
  revert n. induction log as [|[r p] log IH]; intros n; simpl; [by rewrite Z.add_0_r|].
  rewrite IH. do 3 f_equal. lia.
Qed.

Lemma rows_from_digests n log : jr_record_digest <$> rows_from n log = digest ∘ fst <$> log.
Proof. revert n. induction log as [|[r p] log IH]; intros n; simpl; [done|]. by rewrite IH. Qed.

Lemma length_rows_from n log : length (rows_from n log) = length log.
Proof. by rewrite <-(length_fmap jr_record_digest), rows_from_digests, length_fmap. Qed.

Lemma rows_from_elem n log row :
  row ∈ rows_from n log → ∃ k r p, (r, p) ∈ log ∧ row = journal_row k (Some (WeightProjection_to_dict p)) r.
Proof.
  revert n. induction log as [|[r p] log IH]; intros n; simpl; [by inversion 1|].
  intros [->|Hin]%elem_of_cons; [by exists n, r, p; split; [left|]|].
  apply IH in Hin as (k & r' & p' & Hin & ->). exists k, r', p'. split; [by right|done].
Qed.

Lemma rows_from_next n log : foldl Z.max n (jr_sequence <$> rows_from (n + 1) log) = n + Z.of_nat (length log).
Proof.
  revert n. induction log as [|[r p] log IH]; intros n; simpl; [lia|].
  replace (n `max` (n + 1)) with (n + 1) by lia. rewrite IH. lia.
Qed.

Lemma next_sequence_log st log : js_rows st = rows_from 1 log → next_sequence st = 1 + Z.of_nat (length log).
Proof.
  intros Hr. unfold next_sequence. rewrite Hr. destruct log as [|[r p] log]; [done|]. simpl.
  change 2 with (1 + 1). rewrite rows_from_next. lia.
Qed.

Lemma log_ok_inv log e : log_ok (log ++ [e]) →
  log_ok log ∧ record_ok e.1 ∧ projection_ok e.2 ∧ wr_projection_digest e.1 = WeightProjection_digest e.2
  ∧ wr_prior_record_digest e.1 = digest <$> log_head log ∧ digest e.1 ∉ digest ∘ fst <$> log.
Proof.
  intros Hl. inversion Hl as [He|log' r p ? ? ? ? ? ? He]; [by destruct log|]. by apply app_inj_tail in He as [-> <-].
Qed.

Lemma log_ok_prefix log log' : log_ok (log ++ log') → log_ok log.
Proof.
  induction log' as [|e log' IH] using rev_ind; [by rewrite app_nil_r|].
  rewrite app_assoc. intros [? _]%log_ok_inv. auto.
Qed.

Lemma log_ok_elem log e : log_ok log → e ∈ log →
  record_ok e.1 ∧ projection_ok e.2 ∧ wr_projection_digest e.1 = WeightProjection_digest e.2.
Proof.
  intros Hl Hin. apply list_elem_of_split in Hin as (l1 & l2 & ->). rewrite cons_middle, app_assoc in Hl.
  apply log_ok_prefix, log_ok_inv in Hl. by destruct Hl as (_ & ? & ? & ? & _).
Qed.

Lemma log_ok_NoDup log : log_ok log → NoDup (digest ∘ fst <$> log).
Proof.
  induction 1 as [|log r p Hl IH Hr Hp Hpd Hprior Hf]; [constructor|]. rewrite fmap_app. apply NoDup_app. split_and!; [done| |apply NoDup_singleton].
  intros d Hd ->%list_elem_of_singleton. done.
Qed.

Lemma digest_hex r : is_hex64 (digest r) = true.
Proof. apply digest_of_is_hex64; [done|]. by destruct r as [? ? [] ? ? ? ? ? ?]. Qed.

(** The row of an entry is found under its digest. *)
Lemma find_record_log st log r p :
  log_ok log → js_rows st = rows_from 1 log → (r, p) ∈ log →
  ∃ k, find_record st (digest r) = Some (journal_row k (Some (WeightProjection_to_dict p)) r).
Proof.
  intros Hl Hrows Hin. destruct (find_record st (digest r)) as [row|] eqn:Hf.
  - apply find_record_elem in Hf as [Hrow Hd]. rewrite Hrows in Hrow. apply rows_from_elem in Hrow as (k & r' & p' & Hin' & ->).
    exists k. assert ((r', p') = (r, p)) as [= -> ->]; [|done].
    eapply (NoDup_fmap_inj_elem (digest ∘ fst)); [by apply log_ok_NoDup|done..].
  - exfalso. apply list_elem_of_split in Hin as (l1 & l2 & ->). rewrite rows_from_app in Hrows. simpl in Hrows.
    pose proof (List.find_none _ _ Hf (journal_row (1 + Z.of_nat (length l1)) (Some (WeightProjection_to_dict p)) r)) as Hn.
    apply bool_decide_eq_false in Hn; [by apply Hn|]. rewrite Hrows. apply List.in_app_iff. right. by left.
Qed.

(** ** Refinement *)

Lemma read_head_log st log :
  represents st log → _read_head st = Ok ((λ r, (wr_projection_digest r, digest r)) <$> log_head log).
Proof.
  intros (Ha & Hl & _ & Hh). unfold _read_head, _require_legacy_v1_allowed. rewrite Ha, Hh. cbn [raise_if bind].
  destruct (log_head log) as [r|] eqn:Hr; [|done]. cbn [fmap option_fmap option_map].
  assert (is_hex64 (wr_projection_digest r) = true) as Hpd.
  { unfold log_head in Hr. destruct (last log) as [[r' p]|] eqn:Hlast; [|done]. injection Hr as ->.
    apply last_Some_elem_of in Hlast. by destruct (log_ok_elem log (r, p) Hl Hlast) as ((? & _) & _). }
  unfold decode, reraise. cbn [bind]. unfold journal_head. rewrite exact_rows_dict by done.
  cbn -[require_sha256_hex WeightPublicationRecord_digest]. by rewrite (hex_pass _ Hpd), (hex_pass _ (digest_hex r)).
Qed.

Lemma decode_pass {A} extra msg (f : pyval → result A) v a : f v = Ok a → decode extra msg f (Some v) = Ok a.
Proof. intros Hf. unfold decode. by rewrite Hf. Qed.

(** The walk from the end of any prefix of the log reaches its first entry. *)
Lemma walk_log st log suffix r p fuel seen :
  log_ok (log ++ (r, p) :: suffix) → js_rows st = rows_from 1 (log ++ (r, p) :: suffix) →
  seen ⊆ (digest ∘ fst <$> suffix) → (length log < fuel)%nat → walk st fuel seen r = Ok tt.
Proof.
  revert r p suffix fuel seen. induction log as [|[r' p'] log IH] using rev_ind; intros r p suffix fuel seen Hl Hrows Hseen Hfuel.
  all: destruct fuel as [|fuel]; [simpl in Hfuel; lia|]; cbn [walk].
  all: assert (digest r ∉ seen) as Hnew; [intros Hd; apply Hseen in Hd; apply log_ok_NoDup in Hl; rewrite fmap_app in Hl;
    apply NoDup_app in Hl as (_ & _ & Hl); simpl in Hl; by apply NoDup_cons in Hl as [? _]|].
  all: rewrite bool_decide_eq_false_2 by done; cbn [raise_if bind].
  all: pose proof Hl as Hr; rewrite cons_middle, app_assoc in Hr; apply log_ok_prefix, log_ok_inv in Hr as (_ & _ & _ & _ & Hprior & _).
  - simpl in Hprior. by rewrite Hprior.
  - unfold log_head in Hprior. rewrite last_snoc in Hprior. simpl in Hprior. rewrite Hprior.
    assert ((r', p') ∈ (log ++ [(r', p')]) ++ (r, p) :: suffix) as Hin by (apply elem_of_app; left; apply elem_of_app; right; by left).
    destruct (find_record_log st _ r' p' Hl Hrows Hin) as [k ->].
    cbn [journal_row jr_record_json]. rewrite (decode_pass _ _ _ _ r').
    2: { apply record_dict_roundtrip. by apply (log_ok_elem _ (r', p')) in Hin as [? _]. }
    cbn [bind]. rewrite bool_decide_eq_true_2 by done. cbn [negb raise_if bind].
    rewrite <-app_assoc in Hl, Hrows. eapply IH; [done..| |].
    + intros d [->|Hd]%elem_of_cons; [by left|right; by apply Hseen].
    + rewrite length_app in Hfuel. simpl in Hfuel. lia.
Qed.

(** [load] returns the last record of the log. *)
Lemma load_log st log : represents st log → load st = Ok (log_head log).
Proof.
  intros Hrep. unfold load. rewrite (read_head_log st log Hrep). destruct Hrep as (_ & Hl & Hrows & _). cbn [bind].
  unfold log_head. destruct (last log) as [[r p]|] eqn:Hlast; [|done]. cbn [fmap option_fmap option_map fst].
  apply last_Some in Hlast as [log' ->].
  assert ((r, p) ∈ log' ++ [(r, p)]) as Hin by (apply elem_of_app; right; by left).
  destruct (find_record_log st _ r p Hl Hrows Hin) as [k ->]. cbn [journal_row jr_record_json]. rewrite (decode_pass _ _ _ _ r).
  2: { apply record_dict_roundtrip. by apply (log_ok_elem _ (r, p)) in Hin as [? _]. }
  cbn [bind]. rewrite !bool_decide_eq_true_2 by done. cbn [negb orb raise_if bind].
  rewrite (walk_log st log' [] r p); [done..|by inversion 1|].
  unfold entry in *. rewrite Hrows, length_rows_from, length_app. simpl. lia.
Qed.

Lemma latest_elem l row : foldl latest_of None l = Some row → row ∈ l.
Proof.
  assert (∀ acc, foldl latest_of acc l = Some row → row ∈ l ∨ acc = Some row) as Hg; [|by intros ?; destruct (Hg None)].
  induction l as [|x l IH]; intros acc; simpl; [by right|]. intros [?|Hx]%IH; [by left; right|].
  unfold latest_of in Hx. repeat case_match; simplify_eq; auto; left; by left.
Qed.

Lemma find_projection_elem st d row : find_projection st d = Some row → row ∈ js_rows st ∧ jr_projection_digest row = d.
Proof. intros [? ?]%latest_elem%list_elem_of_filter. done. Qed.

(** The stored projection of any row with this digest decodes to one that has it. *)
Lemma find_projection_log st log d row :
  represents st log → find_projection st d = Some row →
  ∃ p, jr_projection_json row = Some (WeightProjection_to_dict p) ∧ projection_ok p ∧ WeightProjection_digest p = d.
Proof.
  intros (_ & Hl & Hrows & _) [Hin <-]%find_projection_elem. rewrite Hrows in Hin.
  apply rows_from_elem in Hin as (k & r & p & Hin & ->). destruct (log_ok_elem _ _ Hl Hin) as (_ & ? & ?). by exists p.
Qed.

(** A swap that succeeds appends its record to the log, on top of the head it
    expected. *)
Lemma swap_log st log p e r st' :
  represents st log → projection_ok p → record_ok r → compare_and_swap p st e r = Ok st' →
  e = digest <$> log_head log
  ∧ ∃ p', represents st' (log ++ [(r, p')]) ∧ (wr_projection_digest r = WeightProjection_digest p → p' = p).
Proof.
  intros Hrep Hp Hr Hcas. unfold compare_and_swap in Hcas. rewrite (read_head_log st log Hrep) in Hcas.
  apply bind_Ok in Hcas as (u & _ & Hcas). apply bind_Ok in Hcas as (u' & Hprior & Hcas). apply raise_if_Ok in Hprior.
  cbn [bind] in Hcas. apply bind_Ok in Hcas as (u2 & Hhead & Hcas). apply raise_if_Ok in Hhead. bool_prop.
  assert (e = digest <$> log_head log) as -> by (subst e; by destruct (log_head log)). split; [done|].
  apply bind_Ok in Hcas as (json & Hjson & Hcas). apply bind_Ok in Hcas as (rows & Hrows & [= <-]).
  assert (∃ p', json = Some (WeightProjection_to_dict p') ∧ projection_ok p' ∧ wr_projection_digest r = WeightProjection_digest p'
    ∧ (wr_projection_digest r = WeightProjection_digest p → p' = p)) as (p' & -> & Hp' & Hpd & Hsame).
  { case_bool_decide as Hpd; [injection Hjson as <-; by exists p|]. destruct (find_projection _ _) as [row|] eqn:Hf; [|done].
    injection Hjson as <-. destruct (find_projection_log _ _ _ _ Hrep Hf) as (p' & ? & ? & ?). by exists p'. }
  exists p'. split; [|done]. destruct Hrep as (Ha & Hl & Hst & _).
  unfold insert_row in Hrows. inv_ok Hrows. bool_prop. subst rows. rewrite Hst, rows_from_digests in *.
  unfold represents. cbn [js_activated js_rows js_head]. split_and!; [done| | |].
  - by apply log_snoc.
  - rewrite rows_from_app, (next_sequence_log st log Hst). simpl. do 3 f_equal.
  - unfold log_head. by rewrite last_snoc.
Qed.

(** A fresh record that binds the head is accepted. *)
Lemma swap_accepts st log p r :
  represents st log → record_ok r → wr_projection_digest r = WeightProjection_digest p →
  wr_prior_record_digest r = digest <$> log_head log → digest r ∉ digest ∘ fst <$> log →
  jr_updated_block (journal_row 0 None r) < 2 ^ 63 →
  is_ok (compare_and_swap p st (digest <$> log_head log) r) = true.
Proof.
  intros Hrep Hr Hpd Hprior Hfresh Hblock. unfold compare_and_swap. rewrite (read_head_log st log Hrep).
  assert (match digest <$> log_head log with Some d => bind (require_sha256_hex (PStr d)) (λ _, Ok tt) | None => Ok tt end = Ok tt) as ->.
  { destruct (log_head log) as [h|]; [|done]. cbn [fmap option_fmap option_map]. by rewrite (hex_pass _ (digest_hex h)). }
  cbn [bind]. rewrite (bool_decide_eq_true_2 _ Hprior). cbn [negb raise_if bind]. rewrite bool_decide_eq_true_2 by (by destruct (log_head log)).
  cbn [negb raise_if bind]. rewrite (bool_decide_eq_true_2 _ Hpd). cbn [bind]. unfold insert_row.
  destruct Hrep as (_ & _ & -> & _). rewrite rows_from_digests. rewrite (bool_decide_eq_false_2 (_ ∈ _)) by done.
  destruct (Z.leb_spec (2 ^ 63) (jr_updated_block (journal_row (next_sequence st) (Some (WeightProjection_to_dict p)) r))); [|done].
  exfalso. revert Hblock. cbn [journal_row jr_updated_block] in *. lia.
Qed.

Lemma rows_from_sequence n log row : row ∈ rows_from n log → jr_sequence row < n + Z.of_nat (length log).
Proof.
  revert n. induction log as [|[r p] log IH]; intros n; simpl; [by inversion 1|].
  intros [->|Hin]%elem_of_cons; [simpl; lia|]. apply IH in Hin. lia.
Qed.

(** The projection of the head is retained. *)
Lemma retained_log st log r p :
  represents st (log ++ [(r, p)]) → retained_projection st (wr_projection_digest r) = Ok p.
Proof.
  intros (Ha & Hl & Hrows & _). pose proof (log_ok_inv _ _ Hl) as (_ & (Hpd & _) & Hp & Hd & _). simpl in *.
  unfold retained_projection, _require_legacy_v1_allowed. rewrite Ha. cbn [raise_if bind]. rewrite (hex_pass _ Hpd). cbn [bind].
  assert (find_projection st (wr_projection_digest r)
          = Some (journal_row (1 + Z.of_nat (length log)) (Some (WeightProjection_to_dict p)) r)) as ->.
  { unfold find_projection. rewrite Hrows, rows_from_app, filter_app, foldl_app. simpl. rewrite filter_cons_True by done. simpl.
    destruct (foldl _ None _) as [best|] eqn:Hbest; [|done]. apply latest_elem, list_elem_of_filter in Hbest as [_ Hbest].
    apply rows_from_sequence in Hbest. unfold latest_of.
    cbn [journal_row jr_sequence]. unfold entry in *. by rewrite (proj2 (Z.ltb_lt _ _) Hbest). }
  cbn [journal_row jr_projection_json]. rewrite (decode_pass _ _ _ _ p) by (by apply projection_dict_roundtrip).
  cbn [bind]. by rewrite bool_decide_eq_true_2.
Qed.
End log.

(** A new journal. *)
Definition empty_journal : JournalStore := {| js_activated := false; js_head := None; js_rows := [] |}.

(** The calls of client [i] in a history. *)
Definition trace_of (i : nat) (H : list (nat * obs)) : list obs := snd <$> filter (λ x, x.1 = i) H.

(** How often [P] holds in a list. *)
Definition count {A} (P : A → bool) (l : list A) : nat := length (filter (λ x, Is_true (P x)) l).

Lemma count_app {A} (P : A → bool) l k : count P (l ++ k) = (count P l + count P k)%nat.
Proof. unfold count. by rewrite filter_app, length_app. Qed.

Lemma count_cons {A} (P : A → bool) x l : count P (x :: l) = ((if P x then 1 else 0) + count P l)%nat.
Proof. unfold count. rewrite filter_cons. by destruct (P x). Qed.

Lemma count_single {A} (P : A → bool) x : count P [x] = (if P x then 1 else 0)%nat.
Proof. rewrite count_cons. unfold count. simpl. lia. Qed.

Lemma trace_of_cons i j o H : trace_of i ((j, o) :: H) = if decide (j = i) then o :: trace_of i H else trace_of i H.
Proof. unfold trace_of. rewrite filter_cons. simpl. by destruct (decide (j = i)). Qed.

Lemma trace_of_app i H K : trace_of i (H ++ K) = trace_of i H ++ trace_of i K.
Proof. unfold trace_of. by rewrite filter_app, fmap_app. Qed.

Lemma trace_of_snoc i j o H : trace_of i (H ++ [(j, o)]) = trace_of i H ++ if decide (j = i) then [o] else [].
Proof. by rewrite trace_of_app, trace_of_cons. Qed.

(** The calls of the other clients. *)
Definition others (i : nat) (H : list (nat * obs)) : list (nat * obs) := filter (λ x, x.1 ≠ i) H.

Lemma others_cons i j o H : others i ((j, o) :: H) = if decide (j = i) then others i H else (j, o) :: others i H.
Proof. unfold others. rewrite filter_cons. simpl. by destruct (decide (j = i)), (decide (j ≠ i)). Qed.

Lemma trace_of_others i j H : trace_of j (others i H) = if decide (j = i) then [] else trace_of j H.
Proof.
  induction H as [|[k o] H IH]; [by destruct (decide (j = i))|]. rewrite others_cons, trace_of_cons.
  destruct (decide (k = i)), (decide (j = i)), (decide (k = j)); simplify_eq; rewrite ?trace_of_cons, ?IH, ?decide_False, ?decide_True by done;
    try done; by rewrite decide_False.
Qed.

Lemma count_split (R : obs → bool) i (H : list (nat * obs)) : count R H.*2 = (count R (trace_of i H) + count R (others i H).*2)%nat.
Proof.
  induction H as [|[j o] H IH]; [done|]. rewrite trace_of_cons, others_cons, fmap_cons, count_cons, IH.
  destruct (decide (j = i)); rewrite ?fmap_cons, ?count_cons; simpl; lia.
Qed.

(** If every client performs at most as many [P]s as [Q]s, so do all together. *)
Lemma count_clients (P Q : obs → bool) (H : list (nat * obs)) :
  (∀ i, (count P (trace_of i H) ≤ count Q (trace_of i H))%nat) → (count P H.*2 ≤ count Q H.*2)%nat.
Proof.
  induction (well_founded_ltof _ (λ H : list (nat * obs), length H) H) as [K _ IH]. intros Hall.
  destruct K as [|[i o] K]; [done|]. rewrite (count_split P i), (count_split Q i). specialize (Hall i) as Hi.
  assert (count P (others i ((i, o) :: K)).*2 ≤ count Q (others i ((i, o) :: K)).*2)%nat; [|lia]. apply IH.
  - unfold ltof. rewrite others_cons, decide_True by done. simpl. pose proof (length_filter (λ x : nat * obs, x.1 ≠ i) K). unfold others. lia.
  - intros j. rewrite trace_of_others. by destruct (decide (j = i)).
Qed.

Lemma partial_prefix {A} (p : prog A) tr tr' : partial p (tr ++ tr') → partial p tr.
Proof. intros (rest & out & Hr). exists (tr' ++ rest), out. by rewrite app_assoc. Qed.

Section system.
Context {sha : Sha256} (compensated : bool) (api : FinalizedApi).
Abbreviation digest := WeightPublicationRecord_digest.

(** ** Clients *)

(** A client with the projection of its journal adapter. *)
Inductive Client :=
  | Reconciler (signer : Signer) (projection : WeightProjection) (options : Options)
  | Releaser (projection : WeightProjection) (reason : pyval).

Definition adapter (c : Client) : WeightProjection :=
  match c with Reconciler _ p _ | Releaser p _ => p end.

(** The calls [tr] are the beginning of a run of the client. *)
Definition behaves (c : Client) (tr : list obs) : Prop :=
  match c with
  | Reconciler signer p o => partial (reconcile_weight_publication compensated api signer p o) tr
  | Releaser _ reason => partial (release_weight_publication_hold reason) tr
  end.

Lemma behaves_prefix c tr tr' : behaves c (tr ++ tr') → behaves c tr.
Proof. destruct c; apply partial_prefix. Qed.

(** A reconciler whose arguments are refused makes no call. *)
Lemma reconciler_calls signer p o tr :
  partial (reconcile_weight_publication compensated api signer p o) tr →
  tr = [] ∨ ∃ m, check_mode signer o = Ok m ∧ obeys (client_ok compensated api signer p m) [] tr.
Proof.
  intros Hp. destruct (check_mode signer o) as [m|e] eqn:Hm.
  - right. exists m. split; [done|]. eapply wp_partial; [|done]. by apply reconcile_wp.
  - left. destruct Hp as (rest & out & Hr). unfold reconcile_weight_publication in Hr. rewrite Hm in Hr.
    apply runs_bind in Hr as [(? & ? & ? & _ & [_ [=]] & _)|(? & [Htr _] & _)]. by apply app_nil in Htr as [-> _].
Qed.

Lemma behaves_swap c tr e r a :
  behaves c (tr ++ [OSwap e r a]) →
  ∃ head, known tr = Some head ∧ e = digest <$> head ∧ record_ok r ∧ transition head r.
Proof.
  assert (∀ confirms, swap_ok confirms tr e r → ∃ head, known tr = Some head ∧ e = digest <$> head ∧ record_ok r ∧ transition head r) as Hs.
  { intros confirms (head & ? & ? & _ & ? & ? & _). by exists head. }
  destruct c as [signer p o|p reason]; simpl.
  - intros [Htr|(m & _ & Ho)]%reconciler_calls; [by apply app_nil in Htr as [_ ?]|].
    specialize (Ho tr _ [] eq_refl) as (_ & _ & Hok). by eapply Hs.
  - intros Hp. pose proof (wp_partial _ _ _ _ (release_wp reason) Hp) as Ho. specialize (Ho tr _ [] eq_refl) as [_ Hok]. by eapply Hs.
Qed.

Definition is_intent (r : WeightPublicationRecord) : bool := bool_decide (wr_status r = "intent").
Definition stores_intent (o : obs) : bool := match o with OSwap _ r (Ok _) => is_intent r | _ => false end.

(** A client submits at most once, and only an intent of its own. *)
Lemma behaves_submit c tr : behaves c tr → (count is_submit tr ≤ count stores_intent tr)%nat.
Proof.
  destruct c as [signer p o|p reason]; simpl.
  - intros [->|(m & _ & Ho)]%reconciler_calls; [done|].
    destruct (count is_submit tr) as [|n] eqn:Hn; [lia|].
    assert (∃ before n' u w r after, tr = before ++ OSubmit n' u w r :: after ∧ count is_submit after = 0%nat) as
      (before & n' & u & w & r & after & -> & Hafter).
    { clear Ho. revert n Hn. induction tr as [|x tr IH]; intros n Hn; [done|]. rewrite count_cons in Hn.
      destruct (count is_submit tr) as [|k] eqn:Hk.
      - destruct x; simpl in Hn; try done. by eexists [], _, _, _, _, _.
      - destruct (IH k eq_refl) as (b & n' & u & w & r & a & -> & Ha). by eexists (x :: b), _, _, _, _, _. }
    specialize (Ho before _ after eq_refl) as (Hbefore & _ & _ & _ & _ & intent & view & bound & Hj & Hst & _).
    rewrite count_app, count_cons in Hn. simpl in Hn. unfold submissions in Hbefore. change (count is_submit before = 0%nat) in Hbefore.
    destruct Hj as (h1 & e & reads & Hj & _). simpl in Hj. subst before. rewrite !count_app, !count_cons. simpl.
    unfold is_intent. rewrite bool_decide_eq_true_2 by done. lia.
  - intros Hp. pose proof (wp_partial _ _ _ _ (release_wp reason) Hp) as Ho.
    assert (count is_submit tr = 0%nat) as ->; [|lia].
    destruct (count is_submit tr) as [|n] eqn:Hn; [done|]. exfalso.
    assert (∃ x, x ∈ tr ∧ is_submit x) as (x & Hx & Hsub).
    { unfold count in Hn. destruct (filter _ tr) as [|x l] eqn:Hf; [done|]. exists x.
      assert (x ∈ filter (λ x, Is_true (is_submit x)) tr) as [? ?]%list_elem_of_filter by (rewrite Hf; by left). done. }
    apply list_elem_of_split in Hx as (l1 & l2 & ->). specialize (Ho l1 x l2 eq_refl). by destruct x.
Qed.

(** ** Histories *)

Inductive system (clients : nat → Client) : list (nat * obs) → JournalStore → Prop :=
  | sys_start : system clients [] empty_journal
  | sys_chain H st i o : system clients H st → is_read o || is_submit o = true → system clients (H ++ [(i, o)]) st
  | sys_load H st i : system clients H st → system clients (H ++ [(i, OLoad (load st))]) st
  | sys_retained H st i d : system clients H st → system clients (H ++ [(i, ORetained d (retained_projection st d))]) st
  | sys_swap H st i e r st' :
      system clients H st → compare_and_swap (adapter (clients i)) st e r = Ok st' →
      system clients (H ++ [(i, OSwap e r (Ok tt))]) st'
  | sys_refused H st i e r ex :
      system clients H st → compare_and_swap (adapter (clients i)) st e r = Raise ex →
      system clients (H ++ [(i, OSwap e r (Raise ex))]) st.

(** Every client behaves as its program says. *)
Definition all_behave (clients : nat → Client) (H : list (nat * obs)) : Prop :=
  ∀ i, projection_ok (adapter (clients i)) ∧ behaves (clients i) (trace_of i H).

(** Consecutive records of a log are transitions of the state machine. *)
Definition moves (log : list entry) : Prop :=
  ∀ before r p after, log = before ++ (r, p) :: after → transition (log_head before) r.

Lemma moves_snoc log r p : moves log → transition (log_head log) r → moves (log ++ [(r, p)]).
Proof.
  intros Hm Ht before r' p' after Heq. destruct after as [|x after _] using rev_ind.
  - apply app_inj_tail in Heq as [-> [= -> ->]]. done.
  - rewrite app_comm_cons, app_assoc in Heq. apply app_inj_tail in Heq as [-> _]. by eapply Hm.
Qed.

Lemma log_head_elem log r : log_head log = Some r → ∃ p, (r, p) ∈ log.
Proof.
  unfold log_head. destruct (last log) as [[r' p]|] eqn:Hl; [|done]. intros [= ->]. exists p. by apply last_Some_elem_of.
Qed.

(** What the store and the clients agree on. *)
Definition agreed (H : list (nat * obs)) (st : JournalStore) (log : list entry) : Prop :=
  represents st log ∧ moves log
  ∧ (∀ i r, known (trace_of i H) = Some (Some r) → ∃ p, (r, p) ∈ log)
  ∧ count stores_intent H.*2 = count (is_intent ∘ fst) log.

(** An event that leaves the store and the client's knowledge. *)
Lemma agreed_quiet H st log i o :
  agreed H st log → (∀ k, learn k o = k) → stores_intent o = false → agreed (H ++ [(i, o)]) st log.
Proof.
  intros (Hrep & Hm & Hk & Hc) Ho Hs. split_and!; [done..| |].
  - intros j r. rewrite trace_of_snoc. destruct (decide (i = j)) as [->|]; [|rewrite app_nil_r; apply Hk].
    rewrite known_snoc, Ho. apply Hk.
  - rewrite fmap_app, count_app, Hc. simpl. rewrite count_cons, Hs. simpl. unfold count at 2. simpl. lia.
Qed.

Lemma agreed_load H st log i : agreed H st log → agreed (H ++ [(i, OLoad (load st))]) st log.
Proof.
  intros (Hrep & Hm & Hk & Hc). rewrite (load_log st log Hrep). split_and!; [done..| |].
  - intros j r. rewrite trace_of_snoc. destruct (decide (i = j)) as [->|]; [|rewrite app_nil_r; apply Hk].
    rewrite known_snoc. simpl. intros [= Hr]. by apply log_head_elem.
  - rewrite fmap_app, count_app, Hc. simpl. unfold count at 2. simpl. lia.
Qed.

(** A client that swaps knows the real head: a digest occurs once in the log. *)
Lemma agreed_swap clients H st log i e r st' :
  agreed H st log → all_behave clients (H ++ [(i, OSwap e r (Ok tt))]) →
  compare_and_swap (adapter (clients i)) st e r = Ok st' → ∃ log', agreed (H ++ [(i, OSwap e r (Ok tt))]) st' log'.
Proof.
  intros (Hrep & Hm & Hk & Hc) Hall Hcas. destruct (Hall i) as [Hp Hb]. rewrite trace_of_snoc, decide_True in Hb by done.
  destruct (behaves_swap _ _ _ _ _ Hb) as (head & Hknown & He & Hr & Ht).
  destruct (swap_log _ _ _ _ _ _ Hrep Hp Hr Hcas) as (He' & p' & Hrep' & _).
  assert (log_head log = head) as Hhead.
  { rewrite He in He'. destruct head as [c|], (log_head log) as [c'|] eqn:Hc'; try done. injection He' as Hd.
    destruct (Hk i c Hknown) as [pc Hin]. apply log_head_elem in Hc' as [pc' Hin']. destruct Hrep as (_ & Hl & _).
    apply log_ok_NoDup in Hl. pose proof (NoDup_fmap_inj_elem (digest ∘ fst) log (c, pc) (c', pc') Hl Hin Hin' Hd). by simplify_eq. }
  exists (log ++ [(r, p')]). split_and!; [done|by apply moves_snoc; rewrite ?Hhead| |].
  - intros j r'. rewrite trace_of_snoc. destruct (decide (i = j)) as [->|].
    + rewrite known_snoc. simpl. intros [= <-]. exists p'. apply elem_of_app. right. by left.
    + rewrite app_nil_r. intros [p Hin]%Hk. exists p. apply elem_of_app. by left.
  - rewrite fmap_app, !count_app, Hc. simpl. by rewrite !count_cons.
Qed.

Lemma all_behave_prefix clients H K : all_behave clients (H ++ K) → all_behave clients H.
Proof. intros Hall i. destruct (Hall i) as [? Hb]. split; [done|]. rewrite trace_of_app in Hb. by apply behaves_prefix in Hb. Qed.

Lemma system_agreed clients H st : system clients H st → all_behave clients H → ∃ log, agreed H st log.
Proof.
  induction 1 as [|H st i o Hs IH Ho|H st i Hs IH|H st i d Hs IH|H st i e r st' Hs IH Hcas|H st i e r ex Hs IH Hcas]; intros Hall.
  1: { exists []. split_and!; [|by intros [] ? ? ? ?|done|done]. split_and!; [done|constructor|done..]. }
  all: destruct IH as [log Hlog]; [by apply all_behave_prefix in Hall|].
  - exists log. apply agreed_quiet; [done|by destruct o|by destruct o].
  - exists log. by apply agreed_load.
  - exists log. by apply agreed_quiet.
  - by eapply agreed_swap.
  - exists log. by apply agreed_quiet.
Qed.

(** ** The budget of submissions *)

Definition is_settled (r : WeightPublicationRecord) : bool := bool_decide (wr_status r ∈ ["confirmed"; "released"]).

(** One while a publication is unresolved. *)
Definition open_slots (head : option WeightPublicationRecord) : nat :=
  match head with Some r => if is_settled r then 0 else 1 | None => 0 end.

Lemma closed_slots log : log_ok log → nothing_open (log_head log) → open_slots (log_head log) = 0%nat.
Proof.
  intros Hl Hs. destruct (log_head log) as [c|] eqn:Hc; [|done]. apply log_head_elem in Hc as [pc Hin].
  destruct (log_ok_elem _ _ Hl Hin) as ((_ & _ & Hst & _) & _). simpl in *. unfold is_settled.
  rewrite bool_decide_eq_true_2; [done|]. unfold PUBLICATION_STATUSES in Hst. set_solver.
Qed.

(** Intents are separated by confirmations and releases. *)
Lemma intents_bounded log :
  log_ok log → moves log →
  (count (is_intent ∘ fst) log ≤ count (is_settled ∘ fst) log + open_slots (log_head log))%nat.
Proof.
  induction 1 as [|log r p Hl IH Hr Hp Hpd Hprior Hf]; intros Hm; [done|].
  assert (transition (log_head log) r) as Ht by by eapply Hm.
  assert (moves log) as Hm'. { intros b r' p' a ->. eapply Hm. by rewrite <-app_assoc. }
  specialize (IH Hm'). unfold log_head at 1. rewrite last_snoc, !count_app, !count_single. simpl.
  generalize dependent (count (is_intent ∘ fst) log). generalize (count (is_settled ∘ fst) log). intros ns ni IH. unfold is_intent, is_settled.
  assert (open_slots (log_head log) ≤ 1)%nat as Hone by (destruct (log_head log) as [c|]; simpl; [case_match|]; lia).
  remember (log_head log) as head eqn:Hhead. destruct Ht as [head r Hset Hst|c r Hc Hst|c r Hc Hst|head r Hc Hst|c r Hc Hst];
    rewrite Hst; simpl; try lia. subst head. rewrite (closed_slots log Hl Hset) in IH. lia.
Qed.
End system.
