(* ===== verification/PublicationCorrect.v ===== *)
(** * Properties of weight publication

    The client's properties hold in every run, cut off or not, whatever the chain
    and the journal answer; the journal's hold for every store that its own
    operations can produce, and the last ones for any number of clients that share
    it. *)

From Stdlib Require Import ZArith Lia.
From stdpp Require Import base tactics numbers list strings gmap.
From S2P Require Import Prelude PyValue Sha256 Identity Strict Publication Programs Chain Weights WeightsFacts WeightsCorrect Journal.
From S2P Require Import PublicationSystem.

Section properties.
Context {sha : Sha256} (compensated : bool) (api : FinalizedApi).
Abbreviation digest := WeightPublicationRecord_digest.
Abbreviation reconcile := (reconcile_weight_publication compensated api).

(** ** The client *)

Lemma reconcile_call signer p o before x after :
  partial (reconcile signer p o) (before ++ x :: after) →
  ∃ m, check_mode signer o = Ok m ∧ client_ok compensated api signer p m before x.
Proof.
  intros [Htr|(m & Hm & Ho)]%reconciler_calls; [by destruct before|]. exists m. split; [done|]. by apply (Ho before x after).
Qed.

(** C15: a submission is the only one of its run; the mode is neither a dry run nor
    reconcile-only, the signer is the projection's validator, the last journal
    call stored an intent of this projection, and the vector is the projection's
    weights at the UIDs of the metagraph fetched for the intent's block, the same
    UIDs as in the metagraph the projection is bound to. *)
Theorem submission_discipline signer p o before netuid uids weights answer after :
  partial (reconcile signer p o) (before ++ OSubmit netuid uids weights answer :: after) →
  count is_submit (before ++ OSubmit netuid uids weights answer :: after) = 1%nat
  ∧ ∃ m intent view bound,
      check_mode signer o = Ok m ∧ md_dry_run m = false ∧ md_reconcile_only m = false
      ∧ check_signer signer p m = Ok tt ∧ netuid = wj_netuid p
      ∧ just_stored intent before ∧ wr_status intent = "intent"
      ∧ wr_projection_digest intent = WeightProjection_digest p
      ∧ performed (fetch_metagraph api netuid (Some (wr_submit_block intent))) (Ok view) before
      ∧ weights_to_uid_vector compensated (wj_weights p) view = Ok (uids, weights)
      ∧ _metagraph_digest p bound = Ok (wj_metagraph_digest p)
      ∧ _authority_uids_unchanged p bound view = Ok true.
Proof.
  intros Hp. split.
  - pose proof (reconcile_call _ _ _ _ _ _ Hp) as (m & _ & Hb & _). change (count is_submit before = 0%nat) in Hb.
    rewrite count_app, count_cons, Hb. simpl. destruct (count is_submit after) eqn:Ha; [done|]. exfalso.
    assert (∃ x, x ∈ after ∧ is_submit x) as (x & Hx & Hs).
    { unfold count in Ha. destruct (filter _ after) as [|x l] eqn:Hf; [done|]. exists x.
      assert (x ∈ filter (λ x, Is_true (is_submit x)) after) as [? ?]%list_elem_of_filter by (rewrite Hf; by left). done. }
    apply list_elem_of_split in Hx as (l1 & l2 & ->). rewrite app_comm_cons, app_assoc in Hp.
    apply reconcile_call in Hp as (m' & _ & Hok). destruct x; try done. destruct Hok as [Hb' _].
    change (count is_submit (before ++ OSubmit netuid uids weights answer :: l1) = 0%nat) in Hb'.
    rewrite count_app, count_cons in Hb'. simpl in Hb'. lia.
  - apply reconcile_call in Hp as (m & Hm & _ & ? & ? & ? & ? & intent & view & bound & ?). by exists m, intent, view, bound.
Qed.

(** C16: a record is confirmed only on an exact readback: this run read, from the
    finalized weights of the confirmed block, the validator's row; the row matches
    the projection, its last update is the one recorded, and it is not older than
    the submission that the record confirms. *)
Theorem confirmation_needs_readback signer p o before expected r answer after :
  projection_ok p → wr_status r = "confirmed" →
  partial (reconcile signer p o) (before ++ OSwap expected r answer :: after) →
  wr_submit_block r ≤ wr_confirmed_last_update r ≤ wr_confirmed_block r
  ∧ ∃ mg uid rows snap,
      OWeights (wj_netuid p) (wr_confirmed_block r) (Ok rows) ∈ before
      ∧ view_ok mg ∧ mg_block mg = wr_confirmed_block r ∧ uid_of mg (wj_validator_hotkey p) = Ok (Some uid)
      ∧ snapshot_of compensated mg uid (wr_confirmed_last_update r) rows = Ok snap
      ∧ _matches snap p = true.
Proof.
  intros Hp Hst Hrun. apply reconcile_call in Hrun as (m & _ & _ & _ & head & _ & _ & _ & Hr & _ & Hback).
  split; [by apply confirmed_chronology|]. destruct (Hback Hst) as (view & snap & (h1 & t & h2 & -> & Hread) & Hm & -> & ->).
  destruct (read_snapshot_Ok _ _ _ _ _ _ _ Hread) as (mg & uid & rows & Hok & Hb & _ & _ & Hu & Hin & Hs).
  - intros Hnil. unfold _matches in Hm. bool_prop. rewrite Hnil in *. apply projection_weights in Hp.
    unfold wj_weights in *. destruct (wj_weights_ppm p) as [|row l]; [done|]. simpl in *. set_solver.
  - exists mg, uid, rows, snap. split_and!; [|done..]. apply elem_of_app. right. apply elem_of_app. by left.
Qed.

(** A dry run only reads the chain: it never loads or writes the journal and never
    submits. *)
Theorem dry_run_only_reads signer p o tr :
  truthy (op_dry_run o) = true → partial (reconcile signer p o) tr → Forall (λ x, is_read x = true) tr.
Proof.
  intros Hd Hp. apply Forall_forall. intros x Hx. apply list_elem_of_split in Hx as (before & after & ->).
  apply reconcile_call in Hp as (m & Hm & Hok). assert (md_dry_run m = true) as Hmd.
  { unfold check_mode in Hm. inv_ok Hm. by subst m. }
  destruct x; simpl in *; try done; destruct Hok; try congruence. destruct H0 as (? & _). congruence.
Qed.

(** The result of a reconciliation that returns is the journal head it left: its
    record and status are those of the last record the journal showed or stored
    (there is none after a dry run), and it reports a submission only when the
    run made one. *)
Theorem result_reports_journal signer p o tr res :
  runs (reconcile signer p o) tr (Ok res) →
  (wo_submitted res = true → count is_submit tr = 1%nat)
  ∧ if wo_dry_run res then known tr = None ∧ wo_record res = None
    else ∃ r, wo_record res = Some r ∧ known tr = Some (Some r) ∧ wo_status res = wr_status r.
Proof.
  intros Hr. destruct (check_mode signer o) as [m|e] eqn:Hm.
  - by destruct (reconcile_wp compensated api signer p o m Hm tr (Ok res) Hr) as [_ Hrep].
  - unfold reconcile_weight_publication in Hr. rewrite Hm in Hr. by apply runs_bind_Ok in Hr as (? & ? & ? & _ & [_ [=]] & _).
Qed.

(** ** The journal *)

Lemma no_fuel_load st : no_fuel (load st).
Proof.
  unfold load. apply no_fuel_bind.
  { unfold _read_head, _require_legacy_v1_allowed. apply no_fuel_bind; [by apply no_fuel_raise_if|intros _]. case_match; [|done].
    apply no_fuel_bind; [by apply no_fuel_decode|intros v]. apply no_fuel_bind; [by apply no_fuel_exact_rows|auto 8 with fuel]. }
  intros [[pd rd]|]; [|done]. destruct (find_record st rd) as [row|] eqn:Hrow; [|by apply no_fuel_raise].
  apply no_fuel_bind; [apply no_fuel_decode, no_fuel_record_from_dict|]. intros r.
  destruct (_ || _) eqn:Hd; cbn [raise_if bind]; [by apply no_fuel_raise|]. bool_prop. apply no_fuel_bind; [|done].
  apply walk_terminates; [|constructor|by inversion 1|simpl; lia].
  rewrite H. apply find_record_elem in Hrow as [Hin <-]. by apply list_elem_of_fmap_2.
Qed.

(** C19: the walk that [load] makes ends within its fuel on every store, damaged ones
    included: a cycle is reported, never followed. *)
Theorem load_terminates st :
  (∃ head, load st = Ok head) ∨ ∃ e, load st = Raise e ∧ exn_cls e ≠ OutOfFuel.
Proof. pose proof (no_fuel_load st) as Hl. destruct (load st) as [head|e]; [left | right]; eauto. Qed.

(** C18: the SQLite journal is an append-only log with compare-and-swap on its head:
    [load] returns the last record, a successful swap expected exactly that record
    and appends the new one, and a fresh record of the adapter's own projection, with
    a block that fits the column, is accepted when it binds the head. *)
Theorem journal_refines_log st log p r :
  represents st log → projection_ok p → record_ok r →
  load st = Ok (log_head log)
  ∧ (∀ expected st', compare_and_swap p st expected r = Ok st' →
       expected = digest <$> log_head log ∧ ∃ p', represents st' (log ++ [(r, p')]))
  ∧ (wr_projection_digest r = WeightProjection_digest p → wr_prior_record_digest r = digest <$> log_head log →
     digest r ∉ digest ∘ fst <$> log → jr_updated_block (journal_row 0 None r) < 2 ^ 63 →
     ∃ st', compare_and_swap p st (digest <$> log_head log) r = Ok st' ∧ represents st' (log ++ [(r, p)])).
Proof.
  intros Hrep Hp Hr. split_and!; [by apply load_log| |].
  - intros expected st' Hcas. destruct (swap_log _ _ _ _ _ _ Hrep Hp Hr Hcas) as (? & p' & ? & _). eauto.
  - intros Hpd Hprior Hfresh Hblock. pose proof (swap_accepts _ _ p r Hrep Hr Hpd Hprior Hfresh Hblock) as Hok.
    destruct (compare_and_swap _ _ _ _) as [st'|] eqn:Hcas; [|done]. exists st'. split; [done|].
    destruct (swap_log _ _ _ _ _ _ Hrep Hp Hr Hcas) as (_ & p' & Hrep' & Hsame). by rewrite <-Hsame.
Qed.

(** A publication in flight is resumed from its own projection: after the swap of
    an intent or pending record, [resume_weight_projection] reads that projection
    back unchanged, for any proposal of the same chain, subnet and validator. *)
Theorem resume_reopens_projection st log p r expected st' proposed :
  represents st log → projection_ok p → record_ok r → wr_projection_digest r = WeightProjection_digest p →
  wr_status r ∈ ["intent"; "pending"] → compare_and_swap p st expected r = Ok st' →
  wj_chain_scope_digest p = wj_chain_scope_digest proposed → wj_netuid p = wj_netuid proposed →
  wj_validator_hotkey p = wj_validator_hotkey proposed →
  runs (resume_weight_projection proposed)
    [OLoad (load st'); ORetained (wr_projection_digest r) (retained_projection st' (wr_projection_digest r))] (Ok p).
Proof.
  intros Hrep Hp Hr Hpd Hst Hcas Hc Hn Hv. destruct (swap_log _ _ _ _ _ _ Hrep Hp Hr Hcas) as (_ & p' & Hrep' & Hsame).
  rewrite Hsame in Hrep' by done. rewrite (load_log _ _ Hrep'), (retained_log _ _ _ _ Hrep'). unfold log_head. rewrite last_snoc.
  unfold resume_weight_projection. apply runs_bind_Ok. exists [OLoad (Ok (Some r))], [ORetained (wr_projection_digest r) (Ok p)], (Some r).
  split_and!; [done|by eexists _, _|]. unfold status_in. rewrite (bool_decide_eq_true_2 _ Hst). cbn [negb].
  apply runs_bind_Ok. exists [ORetained (wr_projection_digest r) (Ok p)], [], p. split_and!; [done|by eexists _, _|].
  rewrite Hpd, Hc, Hn, Hv, !bool_decide_eq_true_2, Z.eqb_refl by done. simpl. done.
Qed.

(** ** Any number of clients *)

(** C17: whatever the interleaving and whatever the chain answers, the shared journal
    is a log that its store represents, whose records each bind the one before and
    move by the transitions of the publication state machine: an intent is
    followed by its pending record, a hold or a confirmation, a pending record by
    a hold or a confirmation, a hold by a hold or an audited release, and only a
    confirmed or released record by a new intent. *)
Theorem journal_state_machine clients H st :
  system clients H st → all_behave compensated api clients H →
  ∃ log, represents st log ∧ moves log
    ∧ ∀ before c r pc pr after, log = before ++ (c, pc) :: (r, pr) :: after →
        wr_prior_record_digest r = Some (digest c) ∧ wr_status r ∈ next_statuses (wr_status c).
Proof.
  intros Hs Hall. destruct (system_agreed _ _ _ _ _ Hs Hall) as (log & Hrep & Hm & _). exists log. split_and!; [done..|].
  intros before c r pc pr after ->. destruct Hrep as (_ & Hl & _).
  assert ((c, pc) ∈ before ++ (c, pc) :: (r, pr) :: after) as Hin by (apply elem_of_app; right; by left).
  destruct (log_ok_elem _ _ Hl Hin) as ((_ & _ & Hc & _) & _).
  rewrite (cons_middle (c, pc)), app_assoc in Hl, Hm. pose proof (Hm _ _ _ _ eq_refl) as Ht.
  rewrite cons_middle, app_assoc in Hl. apply log_ok_prefix, log_ok_inv in Hl as (_ & _ & _ & _ & Hprior & _).
  unfold log_head in *. rewrite last_snoc in *. split; [done|by apply transition_status].
Qed.

(** C14: no second signature without a settlement: over all clients together the
    number of submissions is at most one more than the number of confirmed and
    released records of the journal, and at most equal to it while the journal
    head is one of these. *)
Theorem submission_budget clients H st :
  system clients H st → all_behave compensated api clients H →
  ∃ log, represents st log
    ∧ (count is_submit H.*2 ≤ count (is_settled ∘ fst) log + open_slots (log_head log) ≤ count (is_settled ∘ fst) log + 1)%nat.
Proof.
  intros Hs Hall. destruct (system_agreed _ _ _ _ _ Hs Hall) as (log & Hrep & Hm & _ & Hc). exists log. split; [done|].
  assert (count is_submit H.*2 ≤ count stores_intent H.*2)%nat as Hsub.
  { apply count_clients. intros i. eapply behaves_submit. by destruct (Hall i). }
  destruct Hrep as (_ & Hl & _). pose proof (intents_bounded log Hl Hm) as Hb. rewrite <-Hc in Hb. split; [lia|].
  unfold open_slots. repeat case_match; lia.
Qed.
End properties.
