(* ===== verification/PublicationWitnesses.v ===== *)
(** * The publication properties on the scenario

    A validator publishes its weights against an honest chain; each lemma applies
    one property of [PublicationCorrect] to that run. *)

From Stdlib Require Import ZArith Lia Ascii.
From stdpp Require Import base tactics numbers list strings gmap.
From S2P Require Import Prelude PyValue Sha256 Identity Strict Publication Programs Chain Weights WeightsFacts WeightsCorrect Journal.
From S2P Require Import PublicationSystem PublicationCorrect.

(** ** A publication from start to confirmation

    A chain that answers honestly, with a journal of its own: [simulate] runs a
    program against it and records the trace.  The scenario is a validator that
    publishes a vector for two recipients, with the row on the chain one block
    after the submission. *)

#[local] Existing Instance checksum_sha256.

(** ** An honest chain *)

(** The chain's finalized block and its rows, and the journal. *)
Record World := {
  wd_block : Z;
  wd_metagraph : Z → RawMetagraph;
  wd_rows : list pyval;
  wd_journal : JournalStore
}.

Definition pw_hash : string := "0x" +:+ String.string_of_list_ascii (repeat "a"%char 64).

(** After a submission the block advances and the row of the submitting UID is
    what [landing] says. *)
Definition after_submit (landing : list pyval) (w : World) : World :=
  {| wd_block := wd_block w + 1; wd_metagraph := wd_metagraph w; wd_rows := landing; wd_journal := wd_journal w |}.

Definition with_journal (w : World) (st : JournalStore) : World :=
  {| wd_block := wd_block w; wd_metagraph := wd_metagraph w; wd_rows := wd_rows w; wd_journal := st |}.

Fixpoint simulate {A} (adapter : WeightProjection) (landing : list pyval) (w : World) (p : prog A) : list obs * result A * World :=
  let go o w p := let r := simulate adapter landing w p in (o :: r.1.1, r.1.2, r.2) in
  match p with
  | Ret a => ([], Ok a, w)
  | Throw e => ([], Raise e, w)
  | GetFinalizedNumber k => let r := Ok (PInt (wd_block w)) in go (OFinalizedNumber r) w (k r)
  | GetFinalizedHead k => let r := Ok pw_hash in go (OFinalizedHead r) w (k r)
  | GetBlockNumber h k => let r := Ok (PInt (wd_block w)) in go (OBlockNumber h r) w (k r)
  | GetBlockHash b k => let r := Ok pw_hash in go (OBlockHash b r) w (k r)
  | GetMetagraph n b k => let r := Ok (wd_metagraph w b) in go (OMetagraph n b r) w (k r)
  | GetWeights n b k => let r := Ok (wd_rows w) in go (OWeights n b r) w (k r)
  | Submit n u x k => let r := Ok (SdkValue (PTuple [PBool true; PStr "ok"])) in go (OSubmit n u x r) (after_submit landing w) (k r)
  | Load k => let r := load (wd_journal w) in go (OLoad r) w (k r)
  | Retained d k => let r := retained_projection (wd_journal w) d in go (ORetained d r) w (k r)
  | Swap e x k =>
      match compare_and_swap adapter (wd_journal w) e x with
      | Ok st => go (OSwap e x (Ok tt)) (with_journal w st) (k (Ok tt))
      | Raise ex => go (OSwap e x (Raise ex)) w (k (Raise ex))
      end
  end.

Lemma simulate_runs {A} adapter landing w (p : prog A) :
  runs p (simulate adapter landing w p).1.1 (simulate adapter landing w p).1.2.
Proof.
  revert w. induction p; intros w; simpl; try (split; done); try case_match; eexists _, _; split; try done; auto.
Qed.

Lemma app_snoc {A} (l : list A) x k : l ++ x :: k = (l ++ [x]) ++ k.
Proof. by rewrite <-app_assoc. Qed.

(** A simulated client extends a history of the system. *)
Lemma simulate_system {A} clients i landing w (p : prog A) H :
  system clients H (wd_journal w) →
  let s := simulate (adapter (clients i)) landing w p in
  system clients (H ++ ((λ o, (i, o)) <$> s.1.1)) (wd_journal s.2).
Proof.
  revert w H. induction p; intros w K Hs; simpl; rewrite ?app_nil_r; try done.
  all: try case_match; simpl; rewrite app_snoc; match goal with IH : ∀ r, _ |- _ => apply IH end; simpl;
    first [by apply sys_load|by apply sys_retained|by eapply sys_swap|by eapply sys_refused|by apply sys_chain].
Qed.

(** Every program has a run, so a client that has not started behaves. *)
Lemma runs_some {A} (p : prog A) : ∃ tr out, runs p tr out.
Proof.
  pose (e := Exn ForeignError "Timeout").
  induction p as [a|e'|k IH|k IH|h k IH|b k IH|n b k IH|n b k IH|n u w k IH|k IH|d k IH|x r k IH];
    [by exists [], (Ok a)|by exists [], (Raise e')|..]; destruct (IH (Raise e)) as (tr & out & Hr); eexists (_ :: tr), out; by eexists _, _.
Qed.

Lemma partial_nil {A} (p : prog A) : partial p [].
Proof. apply runs_some. Qed.

Lemma runs_partial {A} (p : prog A) tr out : runs p tr out → partial p tr.
Proof. intros Hr. exists [], out. by rewrite app_nil_r. Qed.

(** ** The validator *)

Definition pw_metagraph (block : Z) : RawMetagraph :=
  {| rm_block := PInt block; rm_uids := [PInt 0; PInt 1; PInt 2]; rm_hotkeys := [PStr "val"; PStr "alice"; PStr "bob"];
     rm_validator_permit := [PBool true; PBool false; PBool false]; rm_last_update := [PInt block; PInt 7; PInt 9] |}.

Definition pw_view : MetagraphView :=
  {| mg_netuid := 3; mg_block := 100; mg_block_hash := pw_hash; mg_uids := [0; 1; 2]; mg_hotkeys := ["val"; "alice"; "bob"];
     mg_validator_permit := [true; false; false]; mg_last_update := [100; 7; 9] |}.

Definition pw_digit (c : ascii) : string := String.string_of_list_ascii (repeat c 64).

(** The projection, bound to the metagraph at block 100. *)
Definition pw_projection : WeightProjection :=
  let draft m := {| wj_chain_scope_digest := pw_digit "1"; wj_netuid := 3; wj_validator_hotkey := "val";
    wj_policy_digest := pw_digit "2"; wj_settlement_state_digest := pw_digit "3"; wj_evaluation_state_digest := pw_digit "4";
    wj_metagraph_digest := m; wj_arena_state_digests := [pw_digit "5"]; wj_stack_generation := 1; wj_effective_block := 100;
    wj_crown_count := 1; wj_evidence_digests := [pw_digit "6"]; wj_weights_ppm := [("alice", 600000); ("bob", 400000)] |} in
  match _metagraph_digest (draft "") pw_view with Ok m => draft m | Raise _ => draft "" end.

Definition pw_options (dry_run : bool) : Options :=
  {| op_refresh_blocks := PInt 50; op_dry_run := PBool dry_run; op_reconcile_only := PBool false;
     op_allow_stale_initial := PBool false; op_require_current_crown := PBool true |}.

Definition pw_signer : Signer := SignerWallet (Ok (PStr "val")).

(** 0.6 and 0.4 of 65535. *)
Definition pw_landing : list pyval := [PTuple [PInt 0; PList [PTuple [PInt 1; PInt 39321]; PTuple [PInt 2; PInt 26214]]]].

Definition pw_world : World := {| wd_block := 100; wd_metagraph := pw_metagraph; wd_rows := []; wd_journal := empty_journal |}.

Definition pw_program (dry_run : bool) : prog WeightPublicationResult :=
  reconcile_weight_publication true DirectNumber pw_signer pw_projection (pw_options dry_run).

Definition pw_run (dry_run : bool) := simulate pw_projection pw_landing pw_world (pw_program dry_run).

Example pw_confirmed :
  match (pw_run false).1.2 with
  | Ok res => wo_status res = "confirmed" ∧ wo_submitted res = true ∧ wo_observed_block res = 101
  | Raise _ => False
  end.
Proof. vm_compute. done. Qed.

#[local] Existing Instance checksum_sha256.

(** The part of a trace before the first call that satisfies [P], and the rest. *)
Fixpoint split_when (P : obs → bool) (tr : list obs) : list obs * list obs :=
  match tr with
  | [] => ([], [])
  | o :: tr => if P o then ([], o :: tr) else let s := split_when P tr in (o :: s.1, s.2)
  end.

Lemma split_when_app P tr : tr = (split_when P tr).1 ++ (split_when P tr).2.
Proof. induction tr as [|o tr IH]; simpl; [done|]. destruct (P o); simpl; [done|]. by f_equal. Qed.

Definition pw_trace (dry_run : bool) : list obs := (pw_run dry_run).1.1.

Lemma pw_partial dry_run : partial (pw_program dry_run) (pw_trace dry_run).
Proof. eapply runs_partial, simulate_runs. Qed.

Definition stores (status : string) (o : obs) : bool :=
  match o with OSwap _ r (Ok _) => bool_decide (wr_status r = status) | _ => false end.

Definition is_submit_at_head (l : list obs) : bool := match l with o :: _ => is_submit o | [] => false end.
Definition is_store_at_head (status : string) (l : list obs) : bool := match l with o :: _ => stores status o | [] => false end.

Lemma pw_projection_ok : projection_ok pw_projection.
Proof. vm_compute. reflexivity. Qed.

Lemma submission_discipline_witness : count is_submit (pw_trace false) = 1%nat.
Proof.
  pose proof (split_when_app is_submit (pw_trace false)) as Hsplit. pose proof (pw_partial false) as Hp.
  assert (is_submit_at_head (split_when is_submit (pw_trace false)).2 = true) as Hhead by (vm_compute; reflexivity).
  destruct (split_when is_submit (pw_trace false)) as [before [|x after]]; [discriminate Hhead|]. simpl in *.
  destruct x as [| | | | | |n u w a| | |]; try discriminate Hhead. rewrite Hsplit in Hp |- *.
  exact (proj1 (submission_discipline true DirectNumber pw_signer pw_projection (pw_options false) before n u w a after Hp)).
Defined.

Lemma confirmation_needs_readback_witness :
  match (split_when (stores "confirmed") (pw_trace false)).2 with
  | OSwap _ r _ :: _ => wr_submit_block r ≤ wr_confirmed_last_update r ≤ wr_confirmed_block r
  | _ => False
  end.
Proof.
  pose proof (split_when_app (stores "confirmed") (pw_trace false)) as Hsplit. pose proof (pw_partial false) as Hp.
  assert (is_store_at_head "confirmed" (split_when (stores "confirmed") (pw_trace false)).2 = true) as Hhead by (vm_compute; reflexivity).
  destruct (split_when (stores "confirmed") (pw_trace false)) as [before [|x after]]; [discriminate Hhead|]. simpl in *.
  destruct x as [| | | | | | | | |e r a]; try discriminate Hhead. rewrite Hsplit in Hp.
  destruct a as [[]|]; [|discriminate Hhead]. apply bool_decide_eq_true in Hhead.
  exact (proj1 (confirmation_needs_readback true DirectNumber pw_signer pw_projection (pw_options false) before e r _ after
    pw_projection_ok Hhead Hp)).
Defined.

Lemma dry_run_only_reads_witness : Forall (λ x, is_read x = true) (pw_trace true).
Proof. exact (dry_run_only_reads true DirectNumber pw_signer pw_projection (pw_options true) (pw_trace true) eq_refl (pw_partial true)). Defined.

Lemma result_reports_journal_witness :
  ∃ res, (pw_run false).1.2 = Ok res ∧ wo_submitted res = true ∧ count is_submit (pw_trace false) = 1%nat.
Proof.
  pose proof (simulate_runs pw_projection pw_landing pw_world (pw_program false)) as Hr. fold (pw_run false) (pw_trace false) in Hr.
  assert (match (pw_run false).1.2 with Ok res => wo_submitted res | Raise _ => false end = true) as Hs by (vm_compute; reflexivity).
  destruct (pw_run false).1.2 as [res|e]; [|discriminate Hs]. exists res. split; [done|]. split; [done|].
  exact (proj1 (result_reports_journal true DirectNumber pw_signer pw_projection (pw_options false) (pw_trace false) res Hr) Hs).
Defined.

(** ** The journal *)

Definition pw_intent : WeightPublicationRecord :=
  match record_of (WeightProjection_digest pw_projection) "intent" 100 150 0 0 0 "before_sdk_submission" with
  | Ok r => r
  | Raise _ => {| wr_projection_digest := ""; wr_status := ""; wr_prior_record_digest := None; wr_submit_block := 0;
                  wr_retry_after_block := 0; wr_reveal_round := 0; wr_confirmed_block := 0; wr_confirmed_last_update := 0; wr_reason := "" |}
  end.

Lemma pw_intent_ok : record_ok pw_intent.
Proof.
  unfold pw_intent. destruct (record_of _ _ _ _ _ _ _ _) as [r|e] eqn:Hr; [by apply record_of_Ok in Hr as [? _]|].
  exfalso. revert Hr. vm_compute. discriminate.
Qed.

Lemma pw_empty : represents empty_journal [].
Proof. split_and!; [done|constructor|done..]. Qed.

Lemma pw_intent_digest : wr_projection_digest pw_intent = WeightProjection_digest pw_projection.
Proof. vm_compute. reflexivity. Qed.

Lemma pw_intent_prior : wr_prior_record_digest pw_intent = WeightPublicationRecord_digest <$> log_head [].
Proof. vm_compute. reflexivity. Qed.

Lemma pw_intent_block : jr_updated_block (journal_row 0 None pw_intent) < 2 ^ 63.
Proof. vm_compute. reflexivity. Qed.

Lemma pw_intent_fresh : WeightPublicationRecord_digest pw_intent ∉ WeightPublicationRecord_digest ∘ fst <$> ([] : list entry).
Proof. exact (not_elem_of_nil _). Qed.

Lemma journal_refines_log_witness :
  ∃ st, compare_and_swap pw_projection empty_journal (WeightPublicationRecord_digest <$> log_head []) pw_intent = Ok st
    ∧ represents st ([] ++ [(pw_intent, pw_projection)]).
Proof.
  destruct (journal_refines_log empty_journal [] pw_projection pw_intent pw_empty pw_projection_ok pw_intent_ok) as (_ & _ & Hswap).
  exact (Hswap pw_intent_digest pw_intent_prior pw_intent_fresh pw_intent_block).
Defined.

Lemma pw_intent_in_flight : wr_status pw_intent ∈ ["intent"; "pending"].
Proof. apply (bool_decide_unpack _). vm_compute. exact I. Qed.

Lemma resume_reopens_projection_witness :
  ∃ st, compare_and_swap pw_projection empty_journal None pw_intent = Ok st
    ∧ runs (resume_weight_projection pw_projection)
        [OLoad (load st); ORetained (wr_projection_digest pw_intent) (retained_projection st (wr_projection_digest pw_intent))]
        (Ok pw_projection).
Proof.
  assert (is_ok (compare_and_swap pw_projection empty_journal None pw_intent) = true) as Hok by (vm_compute; reflexivity).
  destruct (compare_and_swap pw_projection empty_journal None pw_intent) as [st|] eqn:Hcas; [|discriminate Hok].
  exists st. split; [exact eq_refl|]. exact (resume_reopens_projection empty_journal [] pw_projection pw_intent None st pw_projection
    pw_empty pw_projection_ok pw_intent_ok pw_intent_digest pw_intent_in_flight Hcas eq_refl eq_refl eq_refl).
Defined.

(** ** The system *)

(** One publisher, and operators who have not started. *)
Definition pw_clients (i : nat) : Client :=
  match i with
  | O => Reconciler pw_signer pw_projection (pw_options false)
  | S _ => Releaser pw_projection (PStr "reviewed")
  end.

Definition pw_history : list (nat * obs) := (λ o, (0%nat, o)) <$> pw_trace false.

Lemma pw_system : system pw_clients pw_history (wd_journal (pw_run false).2).
Proof. apply (simulate_system pw_clients 0 pw_landing pw_world (pw_program false) []). constructor. Qed.

Lemma pw_traces i : trace_of i pw_history = match i with O => pw_trace false | S _ => [] end.
Proof.
  unfold pw_history. generalize (pw_trace false) as tr. intros tr. induction tr as [|o tr IH]; [by destruct i|].
  rewrite fmap_cons, trace_of_cons, IH. by destruct i.
Qed.

Lemma pw_behave : all_behave true DirectNumber pw_clients pw_history.
Proof.
  intros i. rewrite pw_traces. split; [by destruct i; apply pw_projection_ok|].
  destruct i; [apply pw_partial|apply partial_nil].
Qed.

Lemma journal_state_machine_witness : ∃ log, represents (wd_journal (pw_run false).2) log ∧ moves log.
Proof.
  destruct (journal_state_machine true DirectNumber pw_clients pw_history _ pw_system pw_behave) as (log & Hrep & Hm & _).
  exact (ex_intro _ log (conj Hrep Hm)).
Defined.

Lemma submission_budget_witness :
  ∃ log, represents (wd_journal (pw_run false).2) log
    ∧ (count is_submit pw_history.*2 ≤ count (is_settled ∘ fst) log + open_slots (log_head log))%nat.
Proof.
  destruct (submission_budget true DirectNumber pw_clients pw_history _ pw_system pw_behave) as (log & Hrep & Hle & _).
  exact (ex_intro _ log (conj Hrep Hle)).
Defined.
