(* ===== verification/Fingerprint.v ===== *)
(** * Submitted-delta fingerprints

    [SubmittedDeltaFingerprint], [DeltaCopyDecision] and
    [compare_submitted_deltas] of [copy_fingerprint.py]: the identity under which
    intake decides that a later submission copies an earlier one.  The second half
    shows that a fingerprint reads back from its document and what the comparison
    decides, as a relation. *)

From Stdlib Require Import ZArith Lia Ascii.
From stdpp Require Import base tactics numbers list strings gmap sorting.
From S2P Require Import Prelude PyValue Sha256 Identity Strict Provider Publication PublicationSystem.

Definition value_error (msg : string) : pyexn := Exn OtherValueError msg.

Record SubmittedDeltaFingerprint := {
  fp_product_kind : string;
  fp_target_id : string;
  fp_target_spec_digest : string;
  fp_members : list string;
  fp_exact_payload_digest : string;
  fp_selected_delta_digest : string;
  fp_normalized_delta_digest : string;
  fp_containment_fingerprints : list string;
  fp_advisory_fingerprints : list string
}.

#[global] Instance SubmittedDeltaFingerprint_eq_dec : EqDecision SubmittedDeltaFingerprint.
Proof. solve_decision. Defined.

(** [l == tuple(sorted(set(l)))] *)
Definition is_canonical_set (l : list string) : bool := bool_decide (l = sorted_set (list_to_set l)).

(** One [digest_fields] check. *)
Definition delta_digest (v : pyval) : result string :=
  match v with
  | PStr s => if is_hex64 s then Ok s else Raise (value_error "submitted delta digest is malformed")
  | _ => Raise (value_error "submitted delta digest is malformed")
  end.

(** The target's digest: required of a component; a discovery must not claim one.
    (A discovery's falsy value that is not a text is read as the empty text.) *)
Definition discovery_spec (component : bool) (v : pyval) : result unit :=
  raise_if (negb component && truthy v) (value_error "discovery fingerprint cannot claim target authority").

(** [__post_init__] *)
Definition SubmittedDeltaFingerprint_init (product_kind target_id target_spec_digest : pyval) (members : list string)
    (exact_payload_digest selected_delta_digest normalized_delta_digest : pyval)
    (containment advisory : list string) : result SubmittedDeltaFingerprint :=
  let! known := py_in_strs product_kind ["component"; "discovery"] in
  do! raise_if (negb known) (value_error "submitted delta product kind is unsupported") ;;
  let! target :=
    match target_id with
    | PStr s => if bool_decide (s = "") then Raise (value_error "submitted delta target is malformed") else Ok s
    | _ => Raise (value_error "submitted delta target is malformed")
    end in
  do! raise_if (is_nil members || negb (is_canonical_set members) || bool_decide ("" ∈ members)
                || negb (is_canonical_set containment) || negb (is_canonical_set advisory))
        (value_error "submitted delta fingerprint sets are not canonical") ;;
  let component := py_eq_str product_kind "component" in
  do! discovery_spec component target_spec_digest ;;
  let! exact := delta_digest exact_payload_digest in
  let! selected := delta_digest selected_delta_digest in
  let! normalized := delta_digest normalized_delta_digest in
  let! spec := if component then delta_digest target_spec_digest else Ok "" in
  do! forM_ (containment ++ advisory) (λ s, raise_if (negb (is_hex64 s)) (value_error "submitted delta member fingerprint is malformed")) ;;
  Ok {| fp_product_kind := if component then "component" else "discovery"; fp_target_id := target;
        fp_target_spec_digest := spec; fp_members := members; fp_exact_payload_digest := exact;
        fp_selected_delta_digest := selected; fp_normalized_delta_digest := normalized;
        fp_containment_fingerprints := containment; fp_advisory_fingerprints := advisory |}.

Definition reward_namespace (f : SubmittedDeltaFingerprint) : list string :=
  if bool_decide (fp_product_kind f = "component") then fp_members f else ["discovery"].

Definition SubmittedDeltaFingerprint_to_dict (f : SubmittedDeltaFingerprint) : pyval := py_dict [
  ("advisory_fingerprints", py_strs (fp_advisory_fingerprints f));
  ("containment_fingerprints", py_strs (fp_containment_fingerprints f));
  ("exact_payload_digest", PStr (fp_exact_payload_digest f));
  ("members", py_strs (fp_members f));
  ("normalized_delta_digest", PStr (fp_normalized_delta_digest f));
  ("product_kind", PStr (fp_product_kind f));
  ("selected_delta_digest", PStr (fp_selected_delta_digest f));
  ("target_id", PStr (fp_target_id f));
  ("target_spec_digest", PStr (fp_target_spec_digest f))].

Definition SubmittedDeltaFingerprint_digest `{Sha256} (f : SubmittedDeltaFingerprint) : string :=
  digest_of "optima.copy.submitted-delta" (SubmittedDeltaFingerprint_to_dict f).

(** [tuple(value)]: the items of an array, the keys of an object, the characters
    of a text.  An item that is not a text is refused here; the source refuses it
    in [__post_init__], with a [TypeError] or a [ValueError]. *)
Definition str_tuple (v : pyval) : result (list string) :=
  let items :=
    match v with
    | PList l | PTuple l => Ok l
    | PDict kvs => Ok kvs.*1
    | PStr s => Ok ((λ c, PStr (String c "")) <$> chars s)
    | _ => Raise (Exn TypeError "object is not iterable")
    end in
  let! items := items in
  mapM (λ v, match v with PStr s => Ok s | _ => Raise (Exn TypeError "expected string") end) items.

Definition FINGERPRINT_FIELDS : list string := [
  "advisory_fingerprints"; "containment_fingerprints"; "exact_payload_digest"; "members"; "normalized_delta_digest";
  "product_kind"; "selected_delta_digest"; "target_id"; "target_spec_digest"].

Definition SubmittedDeltaFingerprint_from_dict (v : pyval) : result SubmittedDeltaFingerprint :=
  let! row := exact_rows FINGERPRINT_FIELDS (value_error "submitted delta fingerprint fields differ") v in
  let! product_kind := row_get row "product_kind" in
  let! target_id := row_get row "target_id" in
  let! target_spec_digest := row_get row "target_spec_digest" in
  let! members := row_get row "members" in
  let! members := str_tuple members in
  let! exact_payload_digest := row_get row "exact_payload_digest" in
  let! selected_delta_digest := row_get row "selected_delta_digest" in
  let! normalized_delta_digest := row_get row "normalized_delta_digest" in
  let! containment := row_get row "containment_fingerprints" in
  let! containment := str_tuple containment in
  let! advisory := row_get row "advisory_fingerprints" in
  let! advisory := str_tuple advisory in
  SubmittedDeltaFingerprint_init product_kind target_id target_spec_digest members exact_payload_digest selected_delta_digest
    normalized_delta_digest containment advisory.

Record DeltaCopyDecision := {
  cd_authoritative : bool;
  cd_reason : string;
  cd_shared_fragments : list string;
  cd_shared_advisory : list string
}.

#[global] Instance DeltaCopyDecision_eq_dec : EqDecision DeltaCopyDecision.
Proof. solve_decision. Defined.

Definition decided (authoritative : bool) (reason : string) : DeltaCopyDecision :=
  {| cd_authoritative := authoritative; cd_reason := reason; cd_shared_fragments := []; cd_shared_advisory := [] |}.

(** [set(l)] *)
Definition str_set (l : list string) : gset string := list_to_set l.

(** [_digest_rows] *)
Definition _digest_rows `{Sha256} (domain : string) (rows : list string) : string :=
  match sorted_str rows with
  | [] => ""
  | values => sha256_hex (encode_utf8 (domain +:+ String "000" "" +:+ join (String "030" "") values))
  end.

Definition compare_submitted_deltas (earlier later : SubmittedDeltaFingerprint) : DeltaCopyDecision :=
  if negb (bool_decide (fp_product_kind earlier = fp_product_kind later)) then decided false "different_product_kind"
  else if bool_decide (str_set (reward_namespace earlier) ∩ str_set (reward_namespace later) = ∅)
  then decided false "different_reward_namespace"
  else if bool_decide (fp_exact_payload_digest earlier = fp_exact_payload_digest later)
  then decided true "exact_delta_identity"
  else if negb (bool_decide (fp_normalized_delta_digest earlier = ""))
          && bool_decide (fp_normalized_delta_digest earlier = fp_normalized_delta_digest later)
  then decided true "normalized_delta_identity"
  else
    let left := str_set (fp_containment_fingerprints earlier) in
    let right := str_set (fp_containment_fingerprints later) in
    if negb (bool_decide (left = ∅)) && negb (bool_decide (right = ∅))
       && (bool_decide (left ⊆ right) || bool_decide (right ⊆ left))
    then decided true "symmetric_delta_containment"
    else {| cd_authoritative := false; cd_reason := "advisory_only";
            cd_shared_fragments := sorted_set (left ∩ right);
            cd_shared_advisory :=
              sorted_set (str_set (fp_advisory_fingerprints earlier) ∩ str_set (fp_advisory_fingerprints later)) |}.

(** ** Fingerprints: round trip and the copy relation *)

(** A fingerprint that passed its own checks. *)
Definition fingerprint_ok (f : SubmittedDeltaFingerprint) : Prop :=
  SubmittedDeltaFingerprint_init (PStr (fp_product_kind f)) (PStr (fp_target_id f)) (PStr (fp_target_spec_digest f)) (fp_members f)
    (PStr (fp_exact_payload_digest f)) (PStr (fp_selected_delta_digest f)) (PStr (fp_normalized_delta_digest f))
    (fp_containment_fingerprints f) (fp_advisory_fingerprints f) = Ok f.

#[global] Instance fingerprint_ok_dec f : Decision (fingerprint_ok f).
Proof. unfold fingerprint_ok. apply _. Defined.

Lemma str_tuple_strs l : str_tuple (py_strs l) = Ok l.
Proof. unfold str_tuple, py_strs. cbn. induction l as [|x l IH]; [done|]. cbn. by rewrite IH. Qed.

Lemma fingerprint_dict_roundtrip f :
  fingerprint_ok f → SubmittedDeltaFingerprint_from_dict (SubmittedDeltaFingerprint_to_dict f) = Ok f.
Proof.
  intros Hf. unfold SubmittedDeltaFingerprint_from_dict, SubmittedDeltaFingerprint_to_dict.
  rewrite exact_rows_dict by (cbn; set_solver). cbn -[SubmittedDeltaFingerprint_init str_tuple py_strs].
  rewrite !str_tuple_strs. cbn [bind]. exact Hf.
Qed.

(** What the checks of a fingerprint establish. *)
Lemma fingerprint_ok_inv f :
  fingerprint_ok f →
  fp_target_id f ≠ "" ∧ fp_members f ≠ [] ∧ is_canonical_set (fp_members f) = true ∧ is_hex64 (fp_exact_payload_digest f) = true
  ∧ is_hex64 (fp_normalized_delta_digest f) = true ∧ (fp_product_kind f = "component" ∨ fp_product_kind f = "discovery").
Proof.
  unfold fingerprint_ok, SubmittedDeltaFingerprint_init. intros Hf.
  apply bind_Ok in Hf as (known & Hk & Hf). simpl in Hk. injection Hk as <-.
  apply bind_Ok in Hf as (? & Hkind & Hf). apply raise_if_Ok in Hkind. apply bind_Ok in Hf as (t & Ht & Hf).
  destruct (bool_decide_reflect (fp_target_id f = "")) as [|Hne]; [done|]. apply bind_Ok in Hf as (? & Hs & Hf). apply raise_if_Ok in Hs.
  apply bind_Ok in Hf as (? & _ & Hf). apply bind_Ok in Hf as (ex & Hex & Hf). apply bind_Ok in Hf as (? & _ & Hf).
  apply bind_Ok in Hf as (no & Hno & Hf). bool_prop. unfold delta_digest in *.
  destruct (is_hex64 (fp_exact_payload_digest f)) eqn:?; [|done]. destruct (is_hex64 (fp_normalized_delta_digest f)) eqn:?; [|done].
  split_and!; try done; [by destruct (fp_members f)|]. set_solver.
Qed.

(** ** The copy relation *)

Definition shares_namespace (a b : SubmittedDeltaFingerprint) : Prop :=
  fp_product_kind a = fp_product_kind b ∧ ∃ s, s ∈ reward_namespace a ∧ s ∈ reward_namespace b.

(** One containment set is part of the other, and neither is empty. *)
Definition contained (a b : list string) : Prop := a ≠ [] ∧ b ≠ [] ∧ (a ⊆ b ∨ b ⊆ a).

Definition is_copy (a b : SubmittedDeltaFingerprint) : Prop :=
  shares_namespace a b
  ∧ (fp_exact_payload_digest a = fp_exact_payload_digest b
     ∨ (fp_normalized_delta_digest a ≠ "" ∧ fp_normalized_delta_digest a = fp_normalized_delta_digest b)
     ∨ contained (fp_containment_fingerprints a) (fp_containment_fingerprints b)).

Lemma str_set_empty l : str_set l = ∅ ↔ l = [].
Proof. unfold str_set. destruct l as [|x l]; [done|]. split; [|done]. simpl. set_solver. Qed.

Lemma str_set_subseteq l k : str_set l ⊆ str_set k ↔ l ⊆ k.
Proof. unfold str_set. set_solver. Qed.

Lemma compare_authoritative a b : cd_authoritative (compare_submitted_deltas a b) = true ↔ is_copy a b.
Proof.
  unfold compare_submitted_deltas, is_copy, shares_namespace, contained.
  destruct (bool_decide_reflect (fp_product_kind a = fp_product_kind b)) as [Hk|Hk]; [|cbn; naive_solver]. cbn [negb].
  destruct (bool_decide_reflect (str_set (reward_namespace a) ∩ str_set (reward_namespace b) = ∅)) as [Hn|Hn].
  - cbn. split; [done|]. intros [[_ (s & Hs1 & Hs2)] _]. unfold str_set in Hn. set_solver.
  - assert (∃ s, s ∈ reward_namespace a ∧ s ∈ reward_namespace b) as Hs.
    { unfold str_set in Hn. apply set_choose_L in Hn as [s Hs]. exists s. set_solver. }
    destruct (bool_decide_reflect (fp_exact_payload_digest a = fp_exact_payload_digest b)) as [He|He]; [cbn; tauto|].
    destruct (bool_decide_reflect (fp_normalized_delta_digest a = "")) as [Hz|Hz],
      (bool_decide_reflect (fp_normalized_delta_digest a = fp_normalized_delta_digest b)) as [Hd|Hd]; cbn; [..|tauto|];
    rewrite !bool_decide_decide; repeat destruct (decide _); cbn; rewrite ?str_set_empty, ?str_set_subseteq in *; try tauto;
    split; try done; intros (_ & [?|[?|?]]); tauto.
Qed.

(** The comparison does not depend on which delta is called the earlier one. *)
Lemma compare_symmetric a b : compare_submitted_deltas a b = compare_submitted_deltas b a.
Proof.
  unfold compare_submitted_deltas.
  rewrite (bool_decide_ext (fp_product_kind a = fp_product_kind b) (fp_product_kind b = fp_product_kind a)) by done.
  case_match; [done|].
  rewrite (intersection_comm_L (str_set (reward_namespace a))). case_match; [done|].
  rewrite (bool_decide_ext (fp_exact_payload_digest a = fp_exact_payload_digest b)
             (fp_exact_payload_digest b = fp_exact_payload_digest a)) by done. case_match; [done|].
  assert (negb (bool_decide (fp_normalized_delta_digest a = "")) && bool_decide (fp_normalized_delta_digest a = fp_normalized_delta_digest b)
    = negb (bool_decide (fp_normalized_delta_digest b = "")) && bool_decide (fp_normalized_delta_digest b = fp_normalized_delta_digest a)) as ->.
  { repeat case_bool_decide; try done; congruence. }
  case_match; [done|]. cbv zeta.
  rewrite (intersection_comm_L (str_set (fp_containment_fingerprints a))), (intersection_comm_L (str_set (fp_advisory_fingerprints a))).
  rewrite (andb_comm (negb (bool_decide (str_set (fp_containment_fingerprints a) = ∅)))), (orb_comm (bool_decide (_ ⊆ _))). done.
Qed.
