(* ===== verification/QualificationBatch.v ===== *)
(** * Qualification authority and outcomes

    The records of [eval/qualification_intake.py] that cross from the evaluation
    runtime into intake: the reservations of a cohort, the authority manifest that
    seals them, retry plans, outcomes and the batch of a whole cohort.  [type(x)
    is C] tests on the program's own classes are the types of the model; member
    lists are lists of strings. *)

From Stdlib Require Import ZArith Lia Ascii.
From stdpp Require Import base tactics numbers list strings gmap sorting.
From S2P Require Import Prelude PyValue Sha256 Identity Strict Provider Stack Release StackPlan Settlement Fingerprint.

Module QI.
Definition error (msg : string) : pyexn := Exn QualificationIntakeError msg.

Definition _digest (v : pyval) : result string := require_digest QualificationIntakeError false false v.

(** [[A-Za-z0-9][A-Za-z0-9._-]{0,255}] *)
Definition is_tail (c : ascii) : bool := SE.is_id_head c || (code c =? 46) || (code c =? 95) || (code c =? 45).

Definition matches (s : string) : bool :=
  match s with
  | EmptyString => false
  | String c t => SE.is_id_head c && forallb is_tail (chars t) && (str_len s <=? 256)
  end.

Definition _identifier (v : pyval) : result string := require_identifier QualificationIntakeError matches v.

Definition _integer (v : pyval) : result Z := require_int QualificationIntakeError (Some 0) None v.
End QI.

#[global] Arguments QI._digest : simpl never.
#[global] Arguments QI._identifier : simpl never.
#[global] Arguments QI._integer : simpl never.

Inductive QualificationDecision := DPass | DFail | DNoDecision.

#[global] Instance QualificationDecision_eq_dec : EqDecision QualificationDecision.
Proof. solve_decision. Defined.

(** [decision.value] *)
Definition decision_value (d : QualificationDecision) : string :=
  match d with DPass => "PASS" | DFail => "FAIL" | DNoDecision => "NO_DECISION" end.

(** ** Reservations of a cohort *)

Record QualificationReservation := {
  qr_reservation_digest : string;
  qr_submission_digest : string;
  qr_target_id : string;
  qr_selected_delta_digest : string;
  qr_arrival_order : Z;
  qr_hotkey : string;
  qr_finalized_block : Z;
  qr_finalized_event_index : Z;
  qr_finalized_event_subindex : Z;
  qr_target_members : list string
}.

#[global] Instance QualificationReservation_eq_dec : EqDecision QualificationReservation.
Proof. solve_decision. Defined.

(** The test on hotkeys that the chain modules share. *)
Definition bad_hotkey (hotkey : string) : bool :=
  bool_decide (hotkey = "") || negb (bool_decide (strip hotkey = hotkey)) || (256 <? str_len hotkey) || has_control_char hotkey.

Definition hotkey_of (e : pyexn) (v : pyval) : result string :=
  match v with
  | PStr hotkey => do! raise_if (bad_hotkey hotkey) e ;; Ok hotkey
  | _ => Raise e
  end.

Definition QualificationReservation_init (reservation_digest submission_digest target_id selected_delta_digest arrival_order
    hotkey finalized_block finalized_event_index finalized_event_subindex : pyval) (target_members : list string)
    : result QualificationReservation :=
  let! reservation_digest := QI._digest reservation_digest in
  let! submission_digest := QI._digest submission_digest in
  let! selected_delta_digest := QI._digest selected_delta_digest in
  let! target_id := QI._identifier target_id in
  let! arrival_order := QI._integer arrival_order in
  let! hotkey := hotkey_of (QI.error "reservation hotkey is malformed") hotkey in
  let! finalized_block := QI._integer finalized_block in
  let! finalized_event_index := QI._integer finalized_event_index in
  let! finalized_event_subindex := QI._integer finalized_event_subindex in
  do! raise_if (is_nil target_members || negb (is_canonical_set target_members))
        (QI.error "reservation target members are not canonical") ;;
  let! target_members := mapM (λ m, QI._identifier (PStr m)) target_members in
  Ok {| qr_reservation_digest := reservation_digest; qr_submission_digest := submission_digest; qr_target_id := target_id;
        qr_selected_delta_digest := selected_delta_digest; qr_arrival_order := arrival_order; qr_hotkey := hotkey;
        qr_finalized_block := finalized_block; qr_finalized_event_index := finalized_event_index;
        qr_finalized_event_subindex := finalized_event_subindex; qr_target_members := target_members |}.

Definition QualificationReservation_to_dict (r : QualificationReservation) : pyval := py_dict [
  ("arrival_order", PInt (qr_arrival_order r));
  ("finalized_block", PInt (qr_finalized_block r));
  ("finalized_event_index", PInt (qr_finalized_event_index r));
  ("finalized_event_subindex", PInt (qr_finalized_event_subindex r));
  ("hotkey", PStr (qr_hotkey r));
  ("reservation_digest", PStr (qr_reservation_digest r));
  ("selected_delta_digest", PStr (qr_selected_delta_digest r));
  ("submission_digest", PStr (qr_submission_digest r));
  ("target_id", PStr (qr_target_id r));
  ("target_members", py_strs (qr_target_members r))].

Definition QualificationReservation_from_dict (v : pyval) : result QualificationReservation :=
  let! row := closed_row ["arrival_order"; "finalized_block"; "finalized_event_index"; "finalized_event_subindex"; "hotkey";
                "reservation_digest"; "selected_delta_digest"; "submission_digest"; "target_id"; "target_members"]
                (QI.error "reservation fields do not match the schema") v in
  let! members := row_get row "target_members" in
  let! members :=
    match members with
    | PList l => str_items (QI.error "reservation target members are not canonical") l
    | _ => Raise (QI.error "reservation target members are malformed")
    end in
  let! reservation_digest := row_get row "reservation_digest" in
  let! submission_digest := row_get row "submission_digest" in
  let! target_id := row_get row "target_id" in
  let! selected_delta_digest := row_get row "selected_delta_digest" in
  let! arrival_order := row_get row "arrival_order" in
  let! hotkey := row_get row "hotkey" in
  let! finalized_block := row_get row "finalized_block" in
  let! finalized_event_index := row_get row "finalized_event_index" in
  let! finalized_event_subindex := row_get row "finalized_event_subindex" in
  QualificationReservation_init reservation_digest submission_digest target_id selected_delta_digest arrival_order hotkey
    finalized_block finalized_event_index finalized_event_subindex members.

(** ** The authority manifest *)

Definition AUTHORITY_SCHEMA_VERSION : Z := 1.

Record QualificationAuthorityManifest := {
  qa_lane : string;
  qa_authority_digest : string;
  qa_source_digest : string;
  qa_commitment_digest : string;
  qa_selection_secret_reference : string;
  qa_candidate_deltas : list string;
  qa_reservations : list QualificationReservation;
  qa_schema_version : Z
}.

#[global] Instance QualificationAuthorityManifest_eq_dec : EqDecision QualificationAuthorityManifest.
Proof. solve_decision. Defined.

(** [len(set(l)) != len(l)] *)
Definition has_duplicates {A} `{EqDecision A} (l : list A) : bool := negb (bool_decide (NoDup l)).

Definition QualificationAuthorityManifest_init (lane authority_digest source_digest commitment_digest
    selection_secret_reference : pyval) (candidate_deltas : list pyval) (reservations : list QualificationReservation)
    (schema_version : pyval) : result QualificationAuthorityManifest :=
  let! known := py_in_strs lane ["registered"; "discovery"] in
  do! raise_if (negb known) (QI.error "qualification lane is unsupported") ;;
  let! authority_digest := QI._digest authority_digest in
  let! source_digest := QI._digest source_digest in
  let! commitment_digest := QI._digest commitment_digest in
  let! selection_secret_reference := QI._digest selection_secret_reference in
  let! deltas := mapM QI._digest candidate_deltas in
  do! raise_if (match schema_version with PInt n => negb (n =? AUTHORITY_SCHEMA_VERSION) | _ => true end
                || is_nil deltas || has_duplicates deltas
                || negb (length reservations =? length deltas)%nat
                || negb (bool_decide (qr_selected_delta_digest <$> reservations = deltas))
                || has_duplicates (qr_reservation_digest <$> reservations)
                || has_duplicates (qr_arrival_order <$> reservations)
                || (py_eq_str lane "discovery" && negb (length reservations =? 1)%nat))
        (QI.error "qualification reservations do not exactly bind the candidate order") ;;
  Ok {| qa_lane := if py_eq_str lane "discovery" then "discovery" else "registered"; qa_authority_digest := authority_digest;
        qa_source_digest := source_digest; qa_commitment_digest := commitment_digest;
        qa_selection_secret_reference := selection_secret_reference; qa_candidate_deltas := deltas;
        qa_reservations := reservations; qa_schema_version := AUTHORITY_SCHEMA_VERSION |}.

Definition QualificationAuthorityManifest_to_dict (m : QualificationAuthorityManifest) : pyval := py_dict [
  ("authority_digest", PStr (qa_authority_digest m));
  ("candidate_deltas", py_strs (qa_candidate_deltas m));
  ("commitment_digest", PStr (qa_commitment_digest m));
  ("lane", PStr (qa_lane m));
  ("reservations", PList (QualificationReservation_to_dict <$> qa_reservations m));
  ("schema_version", PInt (qa_schema_version m));
  ("selection_secret_reference", PStr (qa_selection_secret_reference m));
  ("source_digest", PStr (qa_source_digest m))].

Definition QualificationAuthorityManifest_from_dict (v : pyval) : result QualificationAuthorityManifest :=
  let! row := closed_row ["authority_digest"; "candidate_deltas"; "commitment_digest"; "lane"; "reservations";
                "schema_version"; "selection_secret_reference"; "source_digest"]
                (QI.error "authority manifest fields do not match") v in
  let! deltas := row_get row "candidate_deltas" in
  let! reservations := row_get row "reservations" in
  match deltas, reservations with
  | PList deltas, PList reservations =>
      let! lane := row_get row "lane" in
      let! authority_digest := row_get row "authority_digest" in
      let! source_digest := row_get row "source_digest" in
      let! commitment_digest := row_get row "commitment_digest" in
      let! selection_secret_reference := row_get row "selection_secret_reference" in
      let! reservations := mapM QualificationReservation_from_dict reservations in
      let! schema_version := row_get row "schema_version" in
      QualificationAuthorityManifest_init lane authority_digest source_digest commitment_digest selection_secret_reference
        deltas reservations schema_version
  | _, _ => Raise (QI.error "authority manifest arrays are malformed")
  end.

Definition QualificationAuthorityManifest_digest `{Sha256} (m : QualificationAuthorityManifest) : string :=
  digest_of "optima.qualification.intake-authority" (QualificationAuthorityManifest_to_dict m).

(** ** Retry plans *)

Record QualificationRetryPlan := {
  rp_authority_manifest_digest : string;
  rp_strategy : string;
  rp_reservation_groups : list (list string);
  rp_failure_digest : string
}.

#[global] Instance QualificationRetryPlan_eq_dec : EqDecision QualificationRetryPlan.
Proof. solve_decision. Defined.

Definition QualificationRetryPlan_init (authority_manifest_digest strategy : string) (groups : list (list string))
    (failure_digest : string) : result QualificationRetryPlan :=
  let! authority_manifest_digest := QI._digest (PStr authority_manifest_digest) in
  let! failure_digest := QI._digest (PStr failure_digest) in
  do! raise_if (negb (bool_decide (strategy ∈ ["requeue"; "bisect"]))) (QI.error "retry strategy is unsupported") ;;
  let flat := mjoin groups in
  do! raise_if (is_nil groups || existsb is_nil groups) (QI.error "retry groups are malformed") ;;
  do! forM_ flat (λ row, do! QI._digest (PStr row) ;; Ok tt) ;;
  do! raise_if (has_duplicates flat || (bool_decide (strategy = "bisect") && negb (length groups =? 2)%nat))
        (QI.error "retry groups are malformed") ;;
  Ok {| rp_authority_manifest_digest := authority_manifest_digest; rp_strategy := strategy;
        rp_reservation_groups := groups; rp_failure_digest := failure_digest |}.

(** ** Outcomes and batches *)

Record QualificationIntakeOutcome := {
  qo_reservation_digest : string;
  qo_selected_delta_digest : string;
  qo_authority_manifest_digest : string;
  qo_decision : QualificationDecision;
  qo_reason : string;
  qo_retryable : bool;
  qo_attempt_artifact_sha256 : option string;
  qo_report_digest : option string;
  qo_failure_digest : option string;
  qo_settlement_qualification : option SettlementQualification
}.

(** [if value is not None: _digest(value)] *)
Definition optional_digest (o : option string) : result (option string) :=
  match o with None => Ok None | Some s => let! s := QI._digest (PStr s) in Ok (Some s) end.

Definition is_some {A} (o : option A) : bool := match o with Some _ => true | None => false end.

(** The settlement qualification an outcome carries is that of the outcome. *)
Definition carries_other (reservation_digest selected_delta_digest authority_manifest_digest : string)
    (attempt_artifact_sha256 report_digest : option string) (q : SettlementQualification) : bool :=
  negb (bool_decide (sq_reservation_digest q = reservation_digest))
  || negb (bool_decide (sq_selected_delta_digest q = selected_delta_digest))
  || negb (bool_decide (sq_qualification_authority_digest q = authority_manifest_digest))
  || negb (bool_decide (Some (sq_qualification_attempt_digest q) = attempt_artifact_sha256))
  || negb (bool_decide (Some (sq_qualification_report_digest q) = report_digest)).

Definition QualificationIntakeOutcome_init (reservation_digest selected_delta_digest authority_manifest_digest : string)
    (decision : QualificationDecision) (reason : string) (retryable : bool)
    (attempt_artifact_sha256 report_digest failure_digest : option string)
    (settlement_qualification : option SettlementQualification) : result QualificationIntakeOutcome :=
  let! reservation_digest := QI._digest (PStr reservation_digest) in
  let! selected_delta_digest := QI._digest (PStr selected_delta_digest) in
  let! authority_manifest_digest := QI._digest (PStr authority_manifest_digest) in
  let! reason := QI._identifier (PStr reason) in
  do! raise_if (negb (Bool.eqb retryable (bool_decide (decision = DNoDecision))))
        (QI.error "outcome retryability disagrees with decision") ;;
  let! attempt_artifact_sha256 := optional_digest attempt_artifact_sha256 in
  let! report_digest := optional_digest report_digest in
  let! failure_digest := optional_digest failure_digest in
  do! raise_if (negb (Bool.eqb (is_some report_digest) (is_some attempt_artifact_sha256)))
        (QI.error "outcome report and attempt coverage differ") ;;
  do! raise_if (is_some failure_digest && is_some report_digest)
        (QI.error "outcome cannot be both report and failure based") ;;
  let report_based := is_some report_digest in
  let failure_based := is_some failure_digest in
  do! (if bool_decide (decision = DNoDecision)
       then raise_if (Bool.eqb report_based failure_based) (QI.error "NO_DECISION must retain exactly one report or failure product")
       else raise_if (negb report_based || failure_based) (QI.error "PASS/FAIL requires a complete attempt and report product")) ;;
  do! match settlement_qualification with
      | None => Ok tt
      | Some q =>
          do! raise_if (negb (bool_decide (decision = DPass))) (QI.error "non-PASS outcome cannot carry a settlement qualification") ;;
          raise_if (carries_other reservation_digest selected_delta_digest authority_manifest_digest attempt_artifact_sha256
                      report_digest q) (QI.error "settlement qualification differs from qualification outcome")
      end ;;
  Ok {| qo_reservation_digest := reservation_digest; qo_selected_delta_digest := selected_delta_digest;
        qo_authority_manifest_digest := authority_manifest_digest; qo_decision := decision; qo_reason := reason;
        qo_retryable := retryable; qo_attempt_artifact_sha256 := attempt_artifact_sha256; qo_report_digest := report_digest;
        qo_failure_digest := failure_digest; qo_settlement_qualification := settlement_qualification |}.

Record QualificationIntakeBatch := {
  qb_authority_manifest_digest : string;
  qb_outcomes : list QualificationIntakeOutcome;
  qb_attempt_ref : option EvidenceArtifactRef;
  qb_retry_plan : option QualificationRetryPlan
}.

(** The reservations that go back to the queue, and those without a decision. *)
Definition retry_ids (plan : option QualificationRetryPlan) : list string :=
  match plan with Some p => mjoin (rp_reservation_groups p) | None => [] end.

Definition no_decision_ids (outcomes : list QualificationIntakeOutcome) : list string :=
  qo_reservation_digest <$> filter (λ o, qo_decision o = DNoDecision) outcomes.

Definition QualificationIntakeBatch_init (authority_manifest_digest : string) (outcomes : list QualificationIntakeOutcome)
    (attempt_ref : option EvidenceArtifactRef) (retry_plan : option QualificationRetryPlan) : result QualificationIntakeBatch :=
  let! authority_manifest_digest := QI._digest (PStr authority_manifest_digest) in
  do! raise_if (is_nil outcomes
                || existsb (λ o, negb (bool_decide (qo_authority_manifest_digest o = authority_manifest_digest))) outcomes
                || has_duplicates (qo_reservation_digest <$> outcomes)
                || match retry_plan with
                   | Some p => negb (bool_decide (rp_authority_manifest_digest p = authority_manifest_digest))
                   | None => false
                   end
                || match attempt_ref with
                   | None => existsb (λ o, is_some (qo_attempt_artifact_sha256 o)) outcomes
                   | Some ref => existsb (λ o, negb (bool_decide (qo_attempt_artifact_sha256 o = Some (ea_sha256 ref)))) outcomes
                   end
                || negb (bool_decide (retry_ids retry_plan = no_decision_ids outcomes)))
        (QI.error "qualification batch is internally inconsistent") ;;
  Ok {| qb_authority_manifest_digest := authority_manifest_digest; qb_outcomes := outcomes; qb_attempt_ref := attempt_ref;
        qb_retry_plan := retry_plan |}.

(** ** Cohorts that ended without a decision *)

Section no_decision.
Context {sha : Sha256}.

(** The exception is its class name and its text. *)
Definition _failure_digest (manifest : QualificationAuthorityManifest) (exception message : string) : string :=
  digest_of "optima.qualification.intake-failure" (py_dict [
    ("authority_manifest_digest", PStr (QualificationAuthorityManifest_digest manifest));
    ("exception", PStr exception);
    ("message", PStr (String.substring 0 4096 message))]).

Definition _retry_plan (manifest : QualificationAuthorityManifest) (reservations : list QualificationReservation)
    (failure_digest : string) (bisect : bool) : result QualificationRetryPlan :=
  let ids := qr_reservation_digest <$> reservations in
  if bisect && (1 <? length ids)%nat then
    let midpoint := (length ids / 2)%nat in
    QualificationRetryPlan_init (QualificationAuthorityManifest_digest manifest) "bisect" [take midpoint ids; drop midpoint ids]
      failure_digest
  else
    QualificationRetryPlan_init (QualificationAuthorityManifest_digest manifest) "requeue" ((λ row, [row]) <$> ids) failure_digest.

Definition _no_decision_batch (manifest : QualificationAuthorityManifest) (exception message reason : string)
    : result QualificationIntakeBatch :=
  let failure := _failure_digest manifest exception message in
  let digest := QualificationAuthorityManifest_digest manifest in
  let! outcomes := mapM (λ row, QualificationIntakeOutcome_init (qr_reservation_digest row) (qr_selected_delta_digest row)
                                  digest DNoDecision reason true None None (Some failure) None) (qa_reservations manifest) in
  let! plan := _retry_plan manifest (qa_reservations manifest) failure (bool_decide (qa_lane manifest = "registered")) in
  QualificationIntakeBatch_init digest outcomes None (Some plan).
End no_decision.
