(* ===== verification/Arena.v ===== *)
(** * Arena services

    [arena_service.py]: the manifest of an arena service (runtime, workload,
    capacity, screens), screen receipts, and the operations of [ArenaService].
    The reviewed provider is deployment code behind a protocol; it is the class
    [ArenaProvider].  A candidate's publication enters through its digest only,
    and of the work a provider builds the authority manifest and the policy
    digest; its executor, callables and deadline are outside.  The last part shows
    what [screen] returns. *)

From Stdlib Require Import ZArith Lia Ascii.
From stdpp Require Import base tactics numbers list strings gmap sorting.
From S2P Require Import Prelude PyValue Sha256 Identity Strict Provider Stack Release StackPlan Settlement Fingerprint.
From S2P Require Import QualificationBatch.

Definition SERVICE_SCHEMA_VERSION : Z := 1.
Definition SCREEN_STAGES : list string := ["static"; "build"; "abi"; "graph"; "abbreviated_serving"].

Module AS.
Definition WEIGHT_PPM : Z := 1000000.

Definition error (msg : string) : pyexn := Exn ArenaServiceError msg.

Definition _digest (v : pyval) : result string := require_digest ArenaServiceError false false v.

Definition is_lower_alnum (c : ascii) : bool :=
  let n := code c in ((48 <=? n) && (n <=? 57)) || ((97 <=? n) && (n <=? 122)).

(** [[a-z0-9][a-z0-9._-]{0,255}] *)
Definition matches (s : string) : bool :=
  match s with
  | EmptyString => false
  | String c t =>
      is_lower_alnum c && forallb (λ c, is_lower_alnum c || (code c =? 46) || (code c =? 95) || (code c =? 45)) (chars t)
      && (str_len s <=? 256)
  end.

Definition _identifier (v : pyval) : result string := require_identifier ArenaServiceError matches v.

Definition _positive (v : pyval) : result Z :=
  match v with
  | PInt z => if z <? 1 then Raise (error "must be a positive integer") else Ok z
  | _ => Raise (error "must be a positive integer")
  end.

Definition is_digit (c : ascii) : bool := (48 <=? code c) && (code c <=? 57).

(** [sm[0-9]{2,3}[a-z]?] *)
Definition architecture_matches (s : string) : bool :=
  match chars s with
  | s0 :: m0 :: d1 :: d2 :: rest =>
      (code s0 =? 115) && (code m0 =? 109) && is_digit d1 && is_digit d2 &&
      match rest with
      | [] => true
      | [c] => is_lower_alnum c
      | [d3; c] => is_digit d3 && (97 <=? code c) && (code c <=? 122)
      | _ => false
      end
  | _ => false
  end.
End AS.

#[global] Arguments AS._digest : simpl never.
#[global] Arguments AS._identifier : simpl never.
#[global] Arguments AS._positive : simpl never.

(** ** The service manifest *)

Record ArenaRuntimeIdentity := {
  ri_arena_id : string;
  ri_runtime_digest : string;
  ri_base_engine_digest : string;
  ri_validator_overlay_digest : string;
  ri_worker_distribution_digest : string;
  ri_model_revision_digest : string;
  ri_model_manifest_digest : string;
  ri_model_content_digest : string;
  ri_target_architecture : string;
  ri_topology_class : string;
  ri_topology_digest : string;
  ri_gpu_count : Z;
  ri_tensor_parallel_size : Z
}.

Definition architecture_of (v : pyval) : result string :=
  match v with
  | PStr s => if AS.architecture_matches s then Ok s else Raise (AS.error "target_architecture must be canonical")
  | _ => Raise (AS.error "target_architecture must be canonical")
  end.

Definition ArenaRuntimeIdentity_init (arena_id runtime_digest base_engine_digest validator_overlay_digest
    worker_distribution_digest model_revision_digest model_manifest_digest model_content_digest target_architecture
    topology_class topology_digest gpu_count tensor_parallel_size : pyval) : result ArenaRuntimeIdentity :=
  let! arena_id := AS._identifier arena_id in
  let! runtime_digest := AS._digest runtime_digest in
  let! base_engine_digest := AS._digest base_engine_digest in
  let! validator_overlay_digest := AS._digest validator_overlay_digest in
  let! worker_distribution_digest := AS._digest worker_distribution_digest in
  let! model_revision_digest := AS._digest model_revision_digest in
  let! model_manifest_digest := AS._digest model_manifest_digest in
  let! model_content_digest := AS._digest model_content_digest in
  let! topology_digest := AS._digest topology_digest in
  let! target_architecture := architecture_of target_architecture in
  let! topology_class := AS._identifier topology_class in
  let! gpu_count := AS._positive gpu_count in
  let! tensor_parallel_size := AS._positive tensor_parallel_size in
  do! raise_if (gpu_count <? tensor_parallel_size) (AS.error "tensor parallel size exceeds the GPU count") ;;
  Ok {| ri_arena_id := arena_id; ri_runtime_digest := runtime_digest; ri_base_engine_digest := base_engine_digest;
        ri_validator_overlay_digest := validator_overlay_digest; ri_worker_distribution_digest := worker_distribution_digest;
        ri_model_revision_digest := model_revision_digest; ri_model_manifest_digest := model_manifest_digest;
        ri_model_content_digest := model_content_digest; ri_target_architecture := target_architecture;
        ri_topology_class := topology_class; ri_topology_digest := topology_digest; ri_gpu_count := gpu_count;
        ri_tensor_parallel_size := tensor_parallel_size |}.

Definition ArenaRuntimeIdentity_to_dict (r : ArenaRuntimeIdentity) : pyval := py_dict [
  ("arena_id", PStr (ri_arena_id r));
  ("base_engine_digest", PStr (ri_base_engine_digest r));
  ("gpu_count", PInt (ri_gpu_count r));
  ("model_content_digest", PStr (ri_model_content_digest r));
  ("model_manifest_digest", PStr (ri_model_manifest_digest r));
  ("model_revision_digest", PStr (ri_model_revision_digest r));
  ("runtime_digest", PStr (ri_runtime_digest r));
  ("target_architecture", PStr (ri_target_architecture r));
  ("tensor_parallel_size", PInt (ri_tensor_parallel_size r));
  ("topology_class", PStr (ri_topology_class r));
  ("topology_digest", PStr (ri_topology_digest r));
  ("validator_overlay_digest", PStr (ri_validator_overlay_digest r));
  ("worker_distribution_digest", PStr (ri_worker_distribution_digest r))].

Record ServingShape := { sh_input_tokens : Z; sh_output_tokens : Z; sh_batch_size : Z; sh_samples : Z }.

Definition ServingShape_init (input_tokens output_tokens batch_size samples : pyval) : result ServingShape :=
  let! input_tokens := AS._positive input_tokens in
  let! output_tokens := AS._positive output_tokens in
  let! batch_size := AS._positive batch_size in
  let! samples := AS._positive samples in
  Ok {| sh_input_tokens := input_tokens; sh_output_tokens := output_tokens; sh_batch_size := batch_size; sh_samples := samples |}.

Definition ServingShape_to_dict (s : ServingShape) : pyval := py_dict [
  ("batch_size", PInt (sh_batch_size s));
  ("input_tokens", PInt (sh_input_tokens s));
  ("output_tokens", PInt (sh_output_tokens s));
  ("samples", PInt (sh_samples s))].

Record WorkloadRegime := { wg_name : string; wg_phase : string; wg_weight_ppm : Z; wg_shapes : list ServingShape }.

Definition weight_of (v : pyval) : result Z :=
  match v with
  | PInt z => if (1 <=? z) && (z <=? AS.WEIGHT_PPM) then Ok z else Raise (AS.error "workload regime weight_ppm is invalid")
  | _ => Raise (AS.error "workload regime weight_ppm is invalid")
  end.

Definition WorkloadRegime_init (name phase weight_ppm : pyval) (shapes : list ServingShape) : result WorkloadRegime :=
  let! name := AS._identifier name in
  let! known := py_in_strs phase ["decode"; "long_prefill"] in
  do! raise_if (negb known) (AS.error "workload phase must be decode or long_prefill") ;;
  let! weight_ppm := weight_of weight_ppm in
  do! raise_if (is_nil shapes || has_duplicates ((λ s, (sh_input_tokens s, sh_output_tokens s, sh_batch_size s)) <$> shapes))
        (AS.error "workload regime shapes are empty or duplicated") ;;
  Ok {| wg_name := name; wg_phase := if py_eq_str phase "decode" then "decode" else "long_prefill"; wg_weight_ppm := weight_ppm;
        wg_shapes := shapes |}.

Definition WorkloadRegime_to_dict (r : WorkloadRegime) : pyval := py_dict [
  ("name", PStr (wg_name r));
  ("phase", PStr (wg_phase r));
  ("shapes", PList (ServingShape_to_dict <$> wg_shapes r));
  ("weight_ppm", PInt (wg_weight_ppm r))].

Record WorkloadMixture := { wm_prompt_corpus_digest : string; wm_prompt_seed_scheme : string; wm_regimes : list WorkloadRegime }.

Definition WorkloadMixture_init (prompt_corpus_digest prompt_seed_scheme : pyval) (regimes : list WorkloadRegime)
    : result WorkloadMixture :=
  let! prompt_corpus_digest := AS._digest prompt_corpus_digest in
  let! prompt_seed_scheme := AS._identifier prompt_seed_scheme in
  do! raise_if (is_nil regimes || has_duplicates (wg_name <$> regimes)
                || negb (Zsum (wg_weight_ppm <$> regimes) =? AS.WEIGHT_PPM)
                || negb (bool_decide (str_set (wg_phase <$> regimes) = str_set ["decode"; "long_prefill"])))
        (AS.error "workload mixture must uniquely cover decode and long_prefill at 1M ppm") ;;
  Ok {| wm_prompt_corpus_digest := prompt_corpus_digest; wm_prompt_seed_scheme := prompt_seed_scheme; wm_regimes := regimes |}.

Definition WorkloadMixture_to_dict (w : WorkloadMixture) : pyval := py_dict [
  ("prompt_corpus_digest", PStr (wm_prompt_corpus_digest w));
  ("prompt_seed_scheme", PStr (wm_prompt_seed_scheme w));
  ("regimes", PList (WorkloadRegime_to_dict <$> wm_regimes w))].

Record ArenaCapacityPolicy := {
  cp_max_queue_depth : Z;
  cp_max_queue_age_blocks : Z;
  cp_max_active_screens : Z;
  cp_max_active_qualifications : Z;
  cp_max_cohort_size : Z;
  cp_screen_retry_limit : Z;
  cp_qualification_retry_limit : Z;
  cp_infrastructure_retry_limit : Z
}.

Definition ArenaCapacityPolicy_init (max_queue_depth max_queue_age_blocks max_active_screens max_active_qualifications
    max_cohort_size screen_retry_limit qualification_retry_limit infrastructure_retry_limit : pyval)
    : result ArenaCapacityPolicy :=
  let! max_queue_depth := AS._positive max_queue_depth in
  let! max_queue_age_blocks := AS._positive max_queue_age_blocks in
  let! max_active_screens := AS._positive max_active_screens in
  let! max_active_qualifications := AS._positive max_active_qualifications in
  let! max_cohort_size := AS._positive max_cohort_size in
  let! screen_retry_limit := AS._positive screen_retry_limit in
  let! qualification_retry_limit := AS._positive qualification_retry_limit in
  let! infrastructure_retry_limit := AS._positive infrastructure_retry_limit in
  do! raise_if (max_active_qualifications <? max_cohort_size) (AS.error "qualification cohort exceeds active capacity") ;;
  Ok {| cp_max_queue_depth := max_queue_depth; cp_max_queue_age_blocks := max_queue_age_blocks;
        cp_max_active_screens := max_active_screens; cp_max_active_qualifications := max_active_qualifications;
        cp_max_cohort_size := max_cohort_size; cp_screen_retry_limit := screen_retry_limit;
        cp_qualification_retry_limit := qualification_retry_limit;
        cp_infrastructure_retry_limit := infrastructure_retry_limit |}.

Definition ArenaCapacityPolicy_to_dict (p : ArenaCapacityPolicy) : pyval := py_dict [
  ("max_queue_depth", PInt (cp_max_queue_depth p));
  ("max_queue_age_blocks", PInt (cp_max_queue_age_blocks p));
  ("max_active_screens", PInt (cp_max_active_screens p));
  ("max_active_qualifications", PInt (cp_max_active_qualifications p));
  ("max_cohort_size", PInt (cp_max_cohort_size p));
  ("screen_retry_limit", PInt (cp_screen_retry_limit p));
  ("qualification_retry_limit", PInt (cp_qualification_retry_limit p));
  ("infrastructure_retry_limit", PInt (cp_infrastructure_retry_limit p))].

Record ScreenStagePolicy := { ss_stage : string; ss_timeout_ms : Z }.

(** [stage not in SCREEN_STAGES], a tuple: no hashing. *)
Definition stage_of (e : pyexn) (v : pyval) : result string :=
  match v with
  | PStr s => if bool_decide (s ∈ SCREEN_STAGES) then Ok s else Raise e
  | _ => Raise e
  end.

Definition ScreenStagePolicy_init (stage timeout_ms : pyval) : result ScreenStagePolicy :=
  let! stage := stage_of (AS.error "screen stage is unsupported") stage in
  let! timeout_ms := AS._positive timeout_ms in
  Ok {| ss_stage := stage; ss_timeout_ms := timeout_ms |}.

Definition ScreenStagePolicy_to_dict (s : ScreenStagePolicy) : pyval :=
  py_dict [("stage", PStr (ss_stage s)); ("timeout_ms", PInt (ss_timeout_ms s))].

Definition NonCrownScreenPolicy : Type := list ScreenStagePolicy.

Definition NonCrownScreenPolicy_init (stages : list ScreenStagePolicy) : result NonCrownScreenPolicy :=
  do! raise_if (negb (bool_decide (ss_stage <$> stages = SCREEN_STAGES))) (AS.error "non-crown screen stages or order differ") ;;
  Ok stages.

Definition NonCrownScreenPolicy_to_dict (p : NonCrownScreenPolicy) : pyval :=
  py_dict [("crownable", PBool false); ("stages", PList (ScreenStagePolicy_to_dict <$> p))].

Record ArenaServiceManifest := {
  am_runtime : ArenaRuntimeIdentity;
  am_workload : WorkloadMixture;
  am_capacity : ArenaCapacityPolicy;
  am_screens : NonCrownScreenPolicy;
  am_qualification_policy_digest : string;
  am_provider_digest : string;
  am_schema_version : Z
}.

Definition ArenaServiceManifest_init (runtime : ArenaRuntimeIdentity) (workload : WorkloadMixture)
    (capacity : ArenaCapacityPolicy) (screens : NonCrownScreenPolicy) (qualification_policy_digest provider_digest
    schema_version : pyval) : result ArenaServiceManifest :=
  do! raise_if (match schema_version with PInt n => negb (n =? SERVICE_SCHEMA_VERSION) | _ => true end)
        (AS.error "arena service manifest is not exactly typed") ;;
  let! qualification_policy_digest := AS._digest qualification_policy_digest in
  let! provider_digest := AS._digest provider_digest in
  Ok {| am_runtime := runtime; am_workload := workload; am_capacity := capacity; am_screens := screens;
        am_qualification_policy_digest := qualification_policy_digest; am_provider_digest := provider_digest;
        am_schema_version := SERVICE_SCHEMA_VERSION |}.

Definition ArenaServiceManifest_to_dict (m : ArenaServiceManifest) : pyval := py_dict [
  ("capacity", ArenaCapacityPolicy_to_dict (am_capacity m));
  ("provider_digest", PStr (am_provider_digest m));
  ("qualification_policy_digest", PStr (am_qualification_policy_digest m));
  ("runtime", ArenaRuntimeIdentity_to_dict (am_runtime m));
  ("schema_version", PInt (am_schema_version m));
  ("screens", NonCrownScreenPolicy_to_dict (am_screens m));
  ("workload", WorkloadMixture_to_dict (am_workload m))].

(** ** Queue snapshots and decisions *)

Record ArenaQueueSnapshot := {
  qs_queued : Z;
  qs_oldest_age_blocks : Z;
  qs_active_screens : Z;
  qs_active_qualifications : Z
}.

#[global] Instance ArenaQueueSnapshot_eq_dec : EqDecision ArenaQueueSnapshot.
Proof. solve_decision. Defined.

Definition ArenaQueueSnapshot_init (queued oldest_age_blocks active_screens active_qualifications : Z)
    : result ArenaQueueSnapshot :=
  do! forM_ [queued; oldest_age_blocks; active_screens; active_qualifications]
        (λ value, raise_if (value <? 0) (AS.error "queue snapshot must be nonnegative")) ;;
  Ok {| qs_queued := queued; qs_oldest_age_blocks := oldest_age_blocks; qs_active_screens := active_screens;
        qs_active_qualifications := active_qualifications |}.

Inductive AdmissionDecision := AAdmit | AQueue | AHold.
Inductive ScreenGrade := GPass | GFail | GNoDecision.
Inductive PromotionDecision := PrPromote | PrReject | PrRetry | PrHold.

#[global] Instance AdmissionDecision_eq_dec : EqDecision AdmissionDecision.
Proof. solve_decision. Defined.
#[global] Instance ScreenGrade_eq_dec : EqDecision ScreenGrade.
Proof. solve_decision. Defined.
#[global] Instance PromotionDecision_eq_dec : EqDecision PromotionDecision.
Proof. solve_decision. Defined.

Definition grade_value (g : ScreenGrade) : string :=
  match g with GPass => "pass" | GFail => "fail" | GNoDecision => "no_decision" end.

Definition promotion_value (d : PromotionDecision) : string :=
  match d with PrPromote => "promote" | PrReject => "reject" | PrRetry => "retry" | PrHold => "hold" end.

(** [ScreenGrade(value)] and [PromotionDecision(value)] *)
Definition grade_of (v : pyval) : result ScreenGrade :=
  match List.find (λ g, py_eq_str v (grade_value g)) [GPass; GFail; GNoDecision] with
  | Some g => Ok g
  | None => Raise (Exn OtherValueError "is not a valid ScreenGrade")
  end.

Definition promotion_of (v : pyval) : result PromotionDecision :=
  match List.find (λ d, py_eq_str v (promotion_value d)) [PrPromote; PrReject; PrRetry; PrHold] with
  | Some d => Ok d
  | None => Raise (Exn OtherValueError "is not a valid PromotionDecision")
  end.

(** ** Screen receipts *)

Record ScreenStageResult := { sr_stage : string; sr_grade : ScreenGrade; sr_evidence_digest : string; sr_elapsed_ms : Z }.

#[global] Instance ScreenStageResult_eq_dec : EqDecision ScreenStageResult.
Proof. solve_decision. Defined.

Definition ScreenStageResult_init (stage : pyval) (grade : ScreenGrade) (evidence_digest elapsed_ms : pyval) : result ScreenStageResult :=
  let! stage := stage_of (AS.error "screen result stage or grade is invalid") stage in
  let! evidence_digest := AS._digest evidence_digest in
  let! elapsed_ms := AS._positive elapsed_ms in
  Ok {| sr_stage := stage; sr_grade := grade; sr_evidence_digest := evidence_digest; sr_elapsed_ms := elapsed_ms |}.

Definition ScreenStageResult_to_dict (r : ScreenStageResult) : pyval := py_dict [
  ("elapsed_ms", PInt (sr_elapsed_ms r));
  ("evidence_digest", PStr (sr_evidence_digest r));
  ("grade", PStr (grade_value (sr_grade r)));
  ("stage", PStr (sr_stage r))].

Record ArenaScreenReceipt := {
  rc_service_digest : string;
  rc_candidate_digest : string;
  rc_screen_attempt : Z;
  rc_results : list ScreenStageResult;
  rc_decision : PromotionDecision
}.

#[global] Instance ArenaScreenReceipt_eq_dec : EqDecision ArenaScreenReceipt.
Proof. solve_decision. Defined.

(** The decision is one that the last grade allows. *)
Definition not_derived (results : list ScreenStageResult) (decision : PromotionDecision) (terminal : ScreenGrade) : bool :=
  match decision with
  | PrPromote => negb (length results =? length SCREEN_STAGES)%nat || negb (bool_decide (terminal = GPass))
  | PrReject => negb (bool_decide (terminal = GFail))
  | PrRetry | PrHold => negb (bool_decide (terminal = GNoDecision))
  end.

Definition ArenaScreenReceipt_init (service_digest candidate_digest screen_attempt : pyval) (results : list ScreenStageResult)
    (decision : PromotionDecision) : result ArenaScreenReceipt :=
  let! service_digest := AS._digest service_digest in
  let! candidate_digest := AS._digest candidate_digest in
  let! screen_attempt := AS._positive screen_attempt in
  let grades := sr_grade <$> results in
  match last grades with
  | None => Raise (AS.error "screen receipt results are not a canonical prefix")
  | Some terminal =>
      do! raise_if (negb (bool_decide (sr_stage <$> results = take (length results) SCREEN_STAGES))
                    || existsb (λ g, negb (bool_decide (g = GPass))) (removelast grades))
            (AS.error "screen receipt results are not a canonical prefix") ;;
      do! raise_if (not_derived results decision terminal) (AS.error "screen decision is not derived from stage evidence") ;;
      Ok {| rc_service_digest := service_digest; rc_candidate_digest := candidate_digest; rc_screen_attempt := screen_attempt;
            rc_results := results; rc_decision := decision |}
  end.

Definition ArenaScreenReceipt_to_dict (r : ArenaScreenReceipt) : pyval := py_dict [
  ("candidate_digest", PStr (rc_candidate_digest r));
  ("decision", PStr (promotion_value (rc_decision r)));
  ("results", PList (ScreenStageResult_to_dict <$> rc_results r));
  ("screen_attempt", PInt (rc_screen_attempt r));
  ("service_digest", PStr (rc_service_digest r))].

(** ** Candidates, requests and work *)

Record ArenaCandidateBinding := {
  cb_reservation : QualificationReservation;
  cb_publication_digest : string;
  cb_screen_attempt : Z
}.

Definition ArenaCandidateBinding_init (reservation : QualificationReservation) (publication_digest : string)
    (screen_attempt : pyval) : result ArenaCandidateBinding :=
  let! screen_attempt := AS._positive screen_attempt in
  do! raise_if (negb (bool_decide (qr_submission_digest reservation = publication_digest)))
        (AS.error "candidate publication differs from reservation") ;;
  Ok {| cb_reservation := reservation; cb_publication_digest := publication_digest; cb_screen_attempt := screen_attempt |}.

(** [reservation.to_dict()] without [arrival_order]. *)
Definition binding_reservation (r : QualificationReservation) : pyval :=
  match QualificationReservation_to_dict r with
  | PDict kvs => PDict (filter (λ kv, py_eq_str kv.1 "arrival_order" = false) kvs)
  | v => v
  end.

Record ArenaQualificationRequest := {
  aq_service_digest : string;
  aq_qualification_policy_digest : string;
  aq_candidates : list ArenaCandidateBinding;
  aq_screen_receipts : list ArenaScreenReceipt
}.

(** What intake uses of the work a provider builds. *)
Record ArenaQualificationWork := { aw_manifest : QualificationAuthorityManifest; aw_qualification_policy_digest : string }.

(** The reviewed deployment adapter. *)
Class ArenaProvider := {
  provider_digest : string;
  run_screen : ArenaServiceManifest → ScreenStagePolicy → ArenaCandidateBinding → result ScreenStageResult;
  build_qualification : ArenaQualificationRequest → result ArenaQualificationWork
}.

(** ** The service *)

Section service.
Context {sha : Sha256}.

Definition WorkloadMixture_digest (w : WorkloadMixture) : string :=
  digest_of "optima.arena.workload-mixture" (WorkloadMixture_to_dict w).

Definition ArenaServiceManifest_digest (m : ArenaServiceManifest) : string :=
  digest_of "optima.arena.service" (ArenaServiceManifest_to_dict m).

Definition service_id (m : ArenaServiceManifest) : string := ri_arena_id (am_runtime m) +:+ "@" +:+ ArenaServiceManifest_digest m.

Definition ArenaScreenReceipt_digest (r : ArenaScreenReceipt) : string :=
  digest_of "optima.arena.screen-receipt" (ArenaScreenReceipt_to_dict r).

Definition ArenaCandidateBinding_digest (c : ArenaCandidateBinding) : string :=
  digest_of "optima.arena.candidate-binding" (py_dict [
    ("publication_digest", PStr (cb_publication_digest c));
    ("reservation", binding_reservation (cb_reservation c));
    ("screen_attempt", PInt (cb_screen_attempt c))]).

Definition ArenaQualificationRequest_init (service_digest qualification_policy_digest : pyval)
    (candidates : list ArenaCandidateBinding) (receipts : list ArenaScreenReceipt) : result ArenaQualificationRequest :=
  let! service_digest := AS._digest service_digest in
  let! qualification_policy_digest := AS._digest qualification_policy_digest in
  do! raise_if (is_nil candidates || negb (length candidates =? length receipts)%nat
                || negb (bool_decide (rc_candidate_digest <$> receipts = ArenaCandidateBinding_digest <$> candidates))
                || existsb (λ r, negb (bool_decide (rc_service_digest r = service_digest))
                                 || negb (bool_decide (rc_decision r = PrPromote))) receipts)
        (AS.error "qualification request lacks exact promoted coverage") ;;
  Ok {| aq_service_digest := service_digest; aq_qualification_policy_digest := qualification_policy_digest;
        aq_candidates := candidates; aq_screen_receipts := receipts |}.

Definition ArenaQualificationWork_init (manifest : QualificationAuthorityManifest) (qualification_policy_digest : pyval)
    : result ArenaQualificationWork :=
  let! qualification_policy_digest := AS._digest qualification_policy_digest in
  Ok {| aw_manifest := manifest; aw_qualification_policy_digest := qualification_policy_digest |}.

(** [ArenaService.__init__]; the service is its manifest. *)
Definition ArenaService_init `{ArenaProvider} (manifest : ArenaServiceManifest) : result ArenaServiceManifest :=
  let! digest := AS._digest (PStr provider_digest) in
  do! raise_if (negb (bool_decide (digest = am_provider_digest manifest))) (AS.error "provider implementation identity differs") ;;
  Ok manifest.

Definition overloaded (policy : ArenaCapacityPolicy) (state : ArenaQueueSnapshot) : bool :=
  (cp_max_queue_depth policy <=? qs_queued state) || (cp_max_queue_age_blocks policy <=? qs_oldest_age_blocks state).

Definition admit_screen (service : ArenaServiceManifest) (state : ArenaQueueSnapshot) : AdmissionDecision :=
  let policy := am_capacity service in
  if overloaded policy state then AHold
  else if cp_max_active_screens policy <=? qs_active_screens state then AQueue
  else AAdmit.

Definition admit_qualification (service : ArenaServiceManifest) (state : ArenaQueueSnapshot) (cohort_size : pyval)
    : result AdmissionDecision :=
  let! size := AS._positive cohort_size in
  let policy := am_capacity service in
  Ok (if cp_max_cohort_size policy <? size then AHold
      else if overloaded policy state then AHold
      else if cp_max_active_qualifications policy <? qs_active_qualifications state + size then AQueue
      else AAdmit).

(** The retry budget of a lane. *)
Definition retry_budget (policy : ArenaCapacityPolicy) (lane : string) : option Z :=
  assoc [("screen", cp_screen_retry_limit policy); ("qualification", cp_qualification_retry_limit policy);
         ("infrastructure", cp_infrastructure_retry_limit policy)] lane.

Definition retry_disposition (service : ArenaServiceManifest) (lane : string) (attempt : pyval) : result PromotionDecision :=
  let! current := AS._positive attempt in
  match retry_budget (am_capacity service) lane with
  | None => Raise (AS.error "retry lane is unsupported")
  | Some budget => Ok (if current <? budget then PrRetry else PrHold)
  end.

(** The result of one stage: a late one decides nothing. *)
Definition stage_result (stage : ScreenStagePolicy) (r : ScreenStageResult) : result ScreenStageResult :=
  do! raise_if (negb (bool_decide (sr_stage r = ss_stage stage))) (AS.error "provider changed the requested screen stage") ;;
  if ss_timeout_ms stage <? sr_elapsed_ms r
  then ScreenStageResult_init (PStr (sr_stage r)) GNoDecision (PStr (sr_evidence_digest r)) (PInt (sr_elapsed_ms r))
  else Ok r.

(** The loop over the stages: the results appended so far and the decision. *)
Fixpoint screen_stages `{ArenaProvider} (service : ArenaServiceManifest) (candidate : ArenaCandidateBinding)
    (results : list ScreenStageResult) (stages : list ScreenStagePolicy) : result (list ScreenStageResult * PromotionDecision) :=
  match stages with
  | [] => Ok (results, PrPromote)
  | stage :: stages =>
      let! r := run_screen service stage candidate in
      let! r := stage_result stage r in
      match sr_grade r with
      | GFail => Ok (results ++ [r], PrReject)
      | GNoDecision =>
          let! decision := retry_disposition service "screen" (PInt (cb_screen_attempt candidate)) in
          Ok (results ++ [r], decision)
      | GPass => screen_stages service candidate (results ++ [r]) stages
      end
  end.

Definition screen `{ArenaProvider} (service : ArenaServiceManifest) (candidate : ArenaCandidateBinding)
    : result ArenaScreenReceipt :=
  let! outcome := screen_stages service candidate [] (am_screens service) in
  ArenaScreenReceipt_init (PStr (ArenaServiceManifest_digest service)) (PStr (ArenaCandidateBinding_digest candidate))
    (PInt (cb_screen_attempt candidate)) outcome.1 outcome.2.

Definition plan_qualification `{ArenaProvider} (service : ArenaServiceManifest) (candidates : list ArenaCandidateBinding)
    (receipts : list ArenaScreenReceipt) : result ArenaQualificationWork :=
  do! raise_if (cp_max_cohort_size (am_capacity service) <? Z.of_nat (length candidates))
        (AS.error "qualification cohort exceeds arena capacity") ;;
  let! request := ArenaQualificationRequest_init (PStr (ArenaServiceManifest_digest service))
                    (PStr (am_qualification_policy_digest service)) candidates receipts in
  let! work := build_qualification request in
  do! raise_if (negb (bool_decide (aw_qualification_policy_digest work = aq_qualification_policy_digest request)))
        (AS.error "provider changed the qualification policy") ;;
  do! raise_if (negb (bool_decide (qa_reservations (aw_manifest work) = cb_reservation <$> aq_candidates request)))
        (AS.error "provider changed finalized qualification order") ;;
  Ok work.

(** ** The registry *)

Definition arena_of (service : ArenaServiceManifest) : string := ri_arena_id (am_runtime service).

Definition ArenaServiceRegistry_init (services : list ArenaServiceManifest) : result (list ArenaServiceManifest) :=
  let e := AS.error "arena service registry is empty or ambiguous" in
  do! raise_if (is_nil services) e ;;
  do! raise_if (negb (bool_decide (arena_of <$> services = sorted_str (arena_of <$> services)))
                || has_duplicates (arena_of <$> services)
                || has_duplicates (ArenaServiceManifest_digest <$> services)) e ;;
  Ok services.

Definition ArenaServiceRegistry_digest (services : list ArenaServiceManifest) : string :=
  digest_of "optima.arena.service-registry" (py_dict [
    ("services", PList ((λ s, py_dict [("arena_id", PStr (arena_of s)); ("service_digest", PStr (ArenaServiceManifest_digest s))])
                          <$> services))]).

Definition require_service (services : list ArenaServiceManifest) (arena_id : pyval) : result ArenaServiceManifest :=
  let! expected := AS._identifier arena_id in
  match List.find (λ s, bool_decide (arena_of s = expected)) services with
  | Some service => Ok service
  | None => Raise (AS.error "arena is not registered")
  end.
End service.

(** ** Screening: the receipt of an arena service

    [screen] runs the five stages in order and stops at the first that does not
    pass; the receipt it builds is accepted by its own checks. *)

Section screening.
Context {sha : Sha256} {provider : ArenaProvider} (service : ArenaServiceManifest) (candidate : ArenaCandidateBinding).

(** What a stage is worth: its grade if the answer is in time. *)
Definition stage_grade (stage : ScreenStagePolicy) : ScreenGrade :=
  match run_screen service stage candidate with
  | Ok r => if ss_timeout_ms stage <? sr_elapsed_ms r then GNoDecision else sr_grade r
  | Raise _ => GNoDecision
  end.

Definition stops (stage : ScreenStagePolicy) : bool := negb (bool_decide (stage_grade stage = GPass)).

(** The stages that run: up to the first that does not pass. *)
Fixpoint stages_run (stages : list ScreenStagePolicy) : list ScreenStagePolicy :=
  match stages with
  | [] => []
  | stage :: stages => if stops stage then [stage] else stage :: stages_run stages
  end.

(** A provider that answers the stages it is asked about, each with a result of that
    stage. *)
Definition provider_answers (stages : list ScreenStagePolicy) : Prop :=
  ∀ stage, stage ∈ stages_run stages → ∃ r, run_screen service stage candidate = Ok r ∧ sr_stage r = ss_stage stage
    ∧ ScreenStageResult_init (PStr (sr_stage r)) (sr_grade r) (PStr (sr_evidence_digest r)) (PInt (sr_elapsed_ms r)) = Ok r.

Definition screen_decision (stages : list ScreenStagePolicy) : PromotionDecision :=
  match List.find stops stages with
  | None => PrPromote
  | Some stage =>
      if bool_decide (stage_grade stage = GFail) then PrReject
      else if cb_screen_attempt candidate <? cp_screen_retry_limit (am_capacity service) then PrRetry else PrHold
  end.

Lemma stage_result_graded stage r :
  run_screen service stage candidate = Ok r → sr_stage r = ss_stage stage →
  ScreenStageResult_init (PStr (sr_stage r)) (sr_grade r) (PStr (sr_evidence_digest r)) (PInt (sr_elapsed_ms r)) = Ok r →
  ∃ r', stage_result stage r = Ok r' ∧ sr_stage r' = ss_stage stage ∧ sr_grade r' = stage_grade stage.
Proof.
  intros Hrun Hs Hinit. unfold stage_result, stage_grade. rewrite Hrun, bool_decide_eq_true_2 by done. cbn [negb raise_if bind].
  destruct (ss_timeout_ms stage <? sr_elapsed_ms r); [|by exists r]. unfold ScreenStageResult_init in *.
  destruct (stage_of _ _) as [s|]; [|done]. cbn [bind] in *. destruct (AS._digest _) as [d|]; [|done]. cbn [bind] in *.
  destruct (AS._positive _) as [z|]; [|done]. cbn [bind] in *. injection Hinit as Hr. eexists. split; [done|].
  cbn [sr_stage sr_grade]. split; [|done]. by rewrite <-Hs, <-Hr.
Qed.

Lemma screen_stages_run results stages :
  provider_answers stages → 0 < cb_screen_attempt candidate →
  ∃ run, screen_stages service candidate results stages = Ok (results ++ run, screen_decision stages)
    ∧ sr_stage <$> run = ss_stage <$> stages_run stages ∧ sr_grade <$> run = stage_grade <$> stages_run stages.
Proof.
  intros Hans Hpos. revert results. induction stages as [|stage stages IH]; intros results; [exists []; by rewrite app_nil_r|].
  destruct (Hans stage) as (r & Hrun & Hs & Hinit); [cbn [stages_run]; destruct (stops stage); by left|].
  destruct (stage_result_graded stage r Hrun Hs Hinit) as (r' & Hr' & Hs' & Hg'). cbn [screen_stages]. rewrite Hrun. cbn [bind].
  rewrite Hr'. cbn [bind]. unfold screen_decision. cbn [List.find stages_run]. rewrite Hg'.
  assert (stops stage = negb (bool_decide (stage_grade stage = GPass))) as -> by done. destruct (stage_grade stage) eqn:Hgrade.
  - rewrite bool_decide_eq_true_2 by done. cbn [negb]. destruct IH with (results := results ++ [r']) as (run & -> & H1 & H2).
    { intros s Hin. apply Hans. cbn [stages_run]. unfold stops. rewrite Hgrade, bool_decide_eq_true_2 by done. by right. }
    exists (r' :: run). rewrite <-app_assoc. split_and!; [done|by rewrite !fmap_cons, H1, Hs'|by rewrite !fmap_cons, H2, Hg', Hgrade].
  - rewrite !bool_decide_eq_false_2 by done. cbn [negb]. rewrite Hgrade, bool_decide_eq_true_2 by done. exists [r'].
    split_and!; [done|cbn; congruence..].
  - rewrite !bool_decide_eq_false_2 by done. cbn [negb]. rewrite Hgrade, bool_decide_eq_false_2 by done. exists [r'].
    unfold retry_disposition, AS._positive. destruct (Z.ltb_spec (cb_screen_attempt candidate) 1); [lia|]. cbn.
    split_and!; [done|cbn; congruence..].
Qed.

(** ** The receipt accepts it *)

Lemma stages_run_prefix stages : stages_run stages = take (length (stages_run stages)) stages.
Proof. induction stages as [|s l IH]; [done|]. cbn. destruct (stops s); cbn; [done|]. by rewrite <-IH. Qed.

Lemma stages_run_passed stages : existsb (λ g, negb (bool_decide (g = GPass))) (removelast (stage_grade <$> stages_run stages)) = false.
Proof.
  induction stages as [|s l IH]; [done|]. cbn [stages_run]. destruct (stops s) eqn:Hs; [done|]. rewrite fmap_cons. cbn [removelast].
  destruct (stage_grade <$> stages_run l) eqn:E; [done|]. rewrite <-E in *. cbn [existsb]. unfold stops in Hs. by rewrite Hs.
Qed.

Lemma stages_run_last stages :
  stages ≠ [] → ∃ g, last (stage_grade <$> stages_run stages) = Some g
    ∧ match List.find stops stages with
      | None => g = GPass ∧ length (stages_run stages) = length stages
      | Some s => g = stage_grade s ∧ g ≠ GPass
      end.
Proof.
  induction stages as [|s l IH]; [done|]. intros _. cbn [stages_run List.find]. destruct (stops s) eqn:Hs.
  - exists (stage_grade s). split; [done|]. split; [done|]. unfold stops in Hs. by apply negb_true_iff, bool_decide_eq_false in Hs.
  - unfold stops in Hs. apply negb_false_iff, bool_decide_eq_true in Hs. destruct l as [|s2 l]; [exists GPass; cbn; by rewrite Hs|].
    destruct IH as (g & Hg & Hf); [done|]. exists g. rewrite fmap_cons. split.
    + rewrite last_cons, Hg. done.
    + destruct (List.find stops (s2 :: l)); [done|]. destruct Hf as [-> Hl]. by rewrite length_cons, Hl.
Qed.

Lemma decision_derived results stages :
  length stages = length SCREEN_STAGES → length results = length (stages_run stages) → stages ≠ [] →
  ∃ g, last (stage_grade <$> stages_run stages) = Some g ∧ not_derived results (screen_decision stages) g = false.
Proof.
  intros Hlen Hres Hne. destruct (stages_run_last stages Hne) as (g & Hg & Hf). exists g. split; [done|].
  unfold screen_decision, not_derived. destruct (List.find stops stages) as [s|].
  - destruct Hf as [-> Hn]. destruct (bool_decide_reflect (stage_grade s = GFail)) as [Hfail|Hnf]; [done|].
    assert (stage_grade s = GNoDecision) as -> by (by destruct (stage_grade s)). destruct (_ <? _); by rewrite bool_decide_eq_true_2.
  - destruct Hf as [-> Hl]. rewrite Hres, Hl, Hlen. done.
Qed.

Lemma screen_run :
  ss_stage <$> am_screens service = SCREEN_STAGES → provider_answers (am_screens service) → 0 < cb_screen_attempt candidate →
  digest_ok (ArenaServiceManifest_digest service) → digest_ok (ArenaCandidateBinding_digest candidate) →
  ∃ receipt, screen service candidate = Ok receipt
    ∧ rc_decision receipt = screen_decision (am_screens service)
    ∧ sr_stage <$> rc_results receipt = ss_stage <$> stages_run (am_screens service)
    ∧ sr_grade <$> rc_results receipt = stage_grade <$> stages_run (am_screens service)
    ∧ rc_service_digest receipt = ArenaServiceManifest_digest service
    ∧ rc_candidate_digest receipt = ArenaCandidateBinding_digest candidate
    ∧ rc_screen_attempt receipt = cb_screen_attempt candidate.
Proof.
  intros Hst Hans Hpos Hz1 Hz2. destruct (screen_stages_run [] (am_screens service)) as (run & Hrun & H1 & H2); [done|done|].
  unfold screen. rewrite Hrun. cbn [bind app fst snd]. unfold ArenaScreenReceipt_init, AS._digest.
  rewrite (proj2 (require_digest_Ok ArenaServiceError _ (ArenaServiceManifest_digest service))) by done.
  rewrite (proj2 (require_digest_Ok ArenaServiceError _ (ArenaCandidateBinding_digest candidate))) by done.
  cbn [bind]. unfold AS._positive. destruct (Z.ltb_spec (cb_screen_attempt candidate) 1); [lia|]. cbn [bind].
  assert (length run = length (stages_run (am_screens service))) as Hlen by (rewrite <-(length_fmap sr_stage), H1; by rewrite length_fmap).
  assert (length (am_screens service) = length SCREEN_STAGES) as Hlen2 by (rewrite <-Hst; by rewrite length_fmap).
  destruct (decision_derived run (am_screens service)) as (g & Hg & Hder); [done|done|by destruct (am_screens service)|].
  rewrite H2, Hg, stages_run_passed, H1, <-Hst, <-fmap_take, Hlen, <-stages_run_prefix, bool_decide_eq_true_2 by done.
  cbn [negb orb raise_if bind]. rewrite Hder. cbn [raise_if bind]. eexists. split; [done|]. done.
Qed.
End screening.
