(* ===== verification/IntakeData.v ===== *)
(** * Finalized intake: scope, policy, arrivals and reservations

    The records of [chain/intake.py] and the tables of its SQLite store that hold
    reservations, dispositions, screens, qualifications, candidates and stacks.
    A JSON column holds what [json.loads] makes of its text, [None] when it refuses
    the text; a column that may be empty is an option around that.  The arrival's
    columns are kept as one record; the other columns that are written together are
    grouped likewise. *)

From Stdlib Require Import ZArith Lia Ascii.
From stdpp Require Import base tactics numbers list strings gmap sorting.
From S2P Require Import Prelude PyValue Sha256 Identity Strict Provider Stack Release StackPlan Settlement SettlementPlan.
From S2P Require Import SettlementFacts Publication Journal Fingerprint QualificationBatch Arena.

(** ** Constants *)

Definition _ACTIVE : list string :=
  ["reserved"; "fetching"; "transport_retry"; "published"; "screening"; "promoted"; "qualifying"; "reproduction_pending"].
Definition _TERMINAL : list string := ["failed"; "expired"; "qualified"].
Definition _STATUSES : list string := _ACTIVE ++ _TERMINAL ++ ["held"; "no_decision"].
Definition _EXPLICITLY_EXPIRABLE : list string :=
  ["reserved"; "transport_retry"; "published"; "promoted"; "reproduction_pending"; "held"; "no_decision"].
Definition _AUTOMATICALLY_EXPIRABLE : list string :=
  ["reserved"; "transport_retry"; "published"; "promoted"; "reproduction_pending"; "held"; "no_decision"].
Definition _AUTOMATIC_EXPIRY_REASON : string := "finalized_block_sla_expired".
Definition _SCHEMA3_MIGRATION_HOLD_REASON : string := "schema3_reproduction_required".
Definition _SCHEMA3_ARCHIVE_REASON_PREFIX : string := "schema3_archived@".

(** [0x[0-9a-f]{64}] *)
Definition is_block_hash (s : string) : bool :=
  match s with
  | String a (String b t) => Ascii.eqb a "0" && Ascii.eqb b "x" && is_hex64 t
  | _ => false
  end.

(** [_BLOCK_HASH.fullmatch(v or "") is None], which raises on a truthy value that is
    not a text. *)
Definition block_hash_or_empty (e : pyexn) (v : pyval) : result string :=
  match v with
  | PStr s => if is_block_hash s then Ok s else Raise e
  | _ => if truthy v then Raise (Exn TypeError "expected string or bytes-like object") else Raise e
  end.

(** [type(v) is int and v >= 0] *)
Definition nonneg_int (e : pyexn) (v : pyval) : result Z :=
  match v with PInt z => if z <? 0 then Raise e else Ok z | _ => Raise e end.

(** ** Scope and policy *)

Record IntakeScope := { is_genesis_hash : string; is_netuid : Z }.

#[global] Instance IntakeScope_eq_dec : EqDecision IntakeScope.
Proof. solve_decision. Defined.

Definition IntakeScope_init (genesis_hash netuid : pyval) : result IntakeScope :=
  let! genesis_hash := block_hash_or_empty (intake_error "intake genesis hash is malformed") genesis_hash in
  let! netuid := nonneg_int (intake_error "intake netuid is malformed") netuid in
  Ok {| is_genesis_hash := genesis_hash; is_netuid := netuid |}.

Definition IntakeScope_to_dict (s : IntakeScope) : pyval :=
  py_dict [("genesis_hash", PStr (is_genesis_hash s)); ("netuid", PInt (is_netuid s))].

(** The text [_bind_scope] stores; all its characters are ASCII. *)
Definition scope_text (s : IntakeScope) : string :=
  json_dumps (JObject [("genesis_hash", JStr (is_genesis_hash s)); ("netuid", JInt (is_netuid s))]).

Record IntakePolicy := {
  ip_epoch_blocks : Z;
  ip_cutoff_blocks : Z;
  ip_max_pending : Z;
  ip_max_per_hotkey_epoch : Z;
  ip_max_per_target_epoch : Z;
  ip_max_transport_retries : Z;
  ip_max_qualification_retries : Z;
  ip_max_cohort : Z;
  ip_expiry_blocks : Z
}.

(** [type(v) is int and v > 0] *)
Definition policy_bound (v : pyval) : result Z :=
  match v with
  | PInt z => if z <=? 0 then Raise (intake_error "intake policy bounds must be positive integers") else Ok z
  | _ => Raise (intake_error "intake policy bounds must be positive integers")
  end.

Definition IntakePolicy_init (epoch_blocks cutoff_blocks max_pending max_per_hotkey_epoch max_per_target_epoch
    max_transport_retries max_qualification_retries max_cohort expiry_blocks : pyval) : result IntakePolicy :=
  let! epoch_blocks := policy_bound epoch_blocks in
  let! cutoff_blocks := policy_bound cutoff_blocks in
  let! max_pending := policy_bound max_pending in
  let! max_per_hotkey_epoch := policy_bound max_per_hotkey_epoch in
  let! max_per_target_epoch := policy_bound max_per_target_epoch in
  let! max_transport_retries := policy_bound max_transport_retries in
  let! max_qualification_retries := policy_bound max_qualification_retries in
  let! max_cohort := policy_bound max_cohort in
  let! expiry_blocks := policy_bound expiry_blocks in
  do! raise_if (epoch_blocks <=? cutoff_blocks) (intake_error "intake cutoff must be smaller than its epoch") ;;
  do! raise_if (max_pending <? max_cohort) (intake_error "cohort bound exceeds the pending queue bound") ;;
  Ok {| ip_epoch_blocks := epoch_blocks; ip_cutoff_blocks := cutoff_blocks; ip_max_pending := max_pending;
        ip_max_per_hotkey_epoch := max_per_hotkey_epoch; ip_max_per_target_epoch := max_per_target_epoch;
        ip_max_transport_retries := max_transport_retries; ip_max_qualification_retries := max_qualification_retries;
        ip_max_cohort := max_cohort; ip_expiry_blocks := expiry_blocks |}.

(** The defaults of the dataclass. *)
Definition default_policy : IntakePolicy :=
  {| ip_epoch_blocks := 360; ip_cutoff_blocks := 30; ip_max_pending := 256; ip_max_per_hotkey_epoch := 16;
     ip_max_per_target_epoch := 64; ip_max_transport_retries := 3; ip_max_qualification_retries := 3; ip_max_cohort := 8;
     ip_expiry_blocks := 2880 |}.

(** ** Arrivals *)

Record FinalizedArrival := {
  fa_hotkey : string;
  fa_content_hash : string;
  fa_url : string;
  fa_block : Z;
  fa_block_hash : string;
  fa_event_index : Z;
  fa_event_subindex : Z;
  fa_payload_digest : string;
  fa_invalid_reason : string
}.

#[global] Instance FinalizedArrival_eq_dec : EqDecision FinalizedArrival.
Proof. solve_decision. Defined.

(** [valid_reference] and [invalid_reference]: the content hash, the URL and the
    reason of a payload that is one or the other.  (The falsy reason of a valid
    reference is read as the empty text.) *)
Definition reference_of (content_hash url invalid_reason : pyval) : option (string * string * string) :=
  match content_hash, url with
  | PStr c, PStr u =>
      if is_hex64 c && negb (bool_decide (u = "")) && negb (truthy invalid_reason) then Some (c, u, "")
      else if bool_decide (c = "") && bool_decide (u = "") then
        match invalid_reason with
        | PStr r => if negb (bool_decide (r = "")) && (str_len r <=? 2048) then Some ("", "", r) else None
        | _ => None
        end
      else None
  | _, _ => None
  end.

Definition fa_valid (a : FinalizedArrival) : bool := bool_decide (fa_invalid_reason a = "").

Definition arrival_key (a : FinalizedArrival) : (Z * Z * Z * string) * string :=
  ((fa_block a, fa_event_index a, fa_event_subindex a, fa_hotkey a), fa_content_hash a).

(** The order of arrival keys: lexicographic, texts by code point. *)
Definition key_lt (a b : (Z * Z * Z * string) * string) : Prop :=
  (a.1 ≠ b.1 ∧ order_le a.1 b.1) ∨ (a.1 = b.1 ∧ a.2 ≠ b.2 ∧ String.le a.2 b.2).

Definition arrival_le (a b : (Z * Z * Z * string) * string) : Prop := a = b ∨ key_lt a b.

#[global] Instance key_lt_dec a b : Decision (key_lt a b).
Proof. unfold key_lt. apply _. Defined.
#[global] Instance arrival_le_dec a b : Decision (arrival_le a b).
Proof. unfold arrival_le. apply _. Defined.

(** ** Tables *)

(** [status], [decision], [reason] *)
Record Verdict := { vd_status : string; vd_decision : string; vd_reason : string }.

(** [target_id] to [delta_fingerprint_json], [publication_digest], [publication_root] *)
Record PublicationColumns := {
  pc_target_id : string;
  pc_target_members_json : option pyval;
  pc_delta_fingerprint_json : option (option pyval);
  pc_publication_digest : string;
  pc_publication_root : string
}.

(** The defaults of these columns. *)
Definition unpublished : PublicationColumns :=
  {| pc_target_id := ""; pc_target_members_json := Some (PList []); pc_delta_fingerprint_json := None;
     pc_publication_digest := ""; pc_publication_root := "" |}.

(** [qualification_authority_digest], [qualification_authority_json],
    [qualification_evidence_digest] *)
Record QualificationColumns := {
  qc_authority_digest : string;
  qc_authority_json : option json;
  qc_evidence_digest : string
}.

Definition no_qualification : QualificationColumns :=
  {| qc_authority_digest := ""; qc_authority_json := None; qc_evidence_digest := "" |}.

(** [arena_service_digest], [screen_lane], [screen_status], [screen_stage_count],
    [screen_attempts] *)
Record ScreenColumns := {
  sn_service_digest : string;
  sn_lane : string;
  sn_status : string;
  sn_stage_count : Z;
  sn_attempts : Z
}.

Definition unscreened : ScreenColumns :=
  {| sn_service_digest := ""; sn_lane := ""; sn_status := ""; sn_stage_count := 0; sn_attempts := 0 |}.

Record ReservationRow := {
  rv_id : string;
  rv_arrival : FinalizedArrival;
  rv_admission_epoch : Z;
  rv_verdict : Verdict;
  rv_transport_attempts : Z;
  rv_publication : PublicationColumns;
  rv_qualification : QualificationColumns;
  rv_screen : ScreenColumns;
  rv_retry : string * Z
}.

Definition rv_status (r : ReservationRow) : string := vd_status (rv_verdict r).

Definition with_verdict (v : Verdict) (r : ReservationRow) : ReservationRow :=
  {| rv_id := rv_id r; rv_arrival := rv_arrival r; rv_admission_epoch := rv_admission_epoch r; rv_verdict := v;
     rv_transport_attempts := rv_transport_attempts r; rv_publication := rv_publication r;
     rv_qualification := rv_qualification r; rv_screen := rv_screen r; rv_retry := rv_retry r |}.

Definition with_attempts (n : Z) (r : ReservationRow) : ReservationRow :=
  {| rv_id := rv_id r; rv_arrival := rv_arrival r; rv_admission_epoch := rv_admission_epoch r; rv_verdict := rv_verdict r;
     rv_transport_attempts := n; rv_publication := rv_publication r;
     rv_qualification := rv_qualification r; rv_screen := rv_screen r; rv_retry := rv_retry r |}.

Definition with_publication (p : PublicationColumns) (r : ReservationRow) : ReservationRow :=
  {| rv_id := rv_id r; rv_arrival := rv_arrival r; rv_admission_epoch := rv_admission_epoch r; rv_verdict := rv_verdict r;
     rv_transport_attempts := rv_transport_attempts r; rv_publication := p;
     rv_qualification := rv_qualification r; rv_screen := rv_screen r; rv_retry := rv_retry r |}.

Definition with_qualification (q : QualificationColumns) (r : ReservationRow) : ReservationRow :=
  {| rv_id := rv_id r; rv_arrival := rv_arrival r; rv_admission_epoch := rv_admission_epoch r; rv_verdict := rv_verdict r;
     rv_transport_attempts := rv_transport_attempts r; rv_publication := rv_publication r;
     rv_qualification := q; rv_screen := rv_screen r; rv_retry := rv_retry r |}.

Definition with_screen (s : ScreenColumns) (r : ReservationRow) : ReservationRow :=
  {| rv_id := rv_id r; rv_arrival := rv_arrival r; rv_admission_epoch := rv_admission_epoch r; rv_verdict := rv_verdict r;
     rv_transport_attempts := rv_transport_attempts r; rv_publication := rv_publication r;
     rv_qualification := rv_qualification r; rv_screen := s; rv_retry := rv_retry r |}.

Definition with_retry (t : string * Z) (r : ReservationRow) : ReservationRow :=
  {| rv_id := rv_id r; rv_arrival := rv_arrival r; rv_admission_epoch := rv_admission_epoch r; rv_verdict := rv_verdict r;
     rv_transport_attempts := rv_transport_attempts r; rv_publication := rv_publication r;
     rv_qualification := rv_qualification r; rv_screen := rv_screen r; rv_retry := t |}.

(** [qualification_evidence_digest=?] *)
Definition with_evidence (digest : string) (r : ReservationRow) : ReservationRow :=
  with_qualification {| qc_authority_digest := qc_authority_digest (rv_qualification r);
                        qc_authority_json := qc_authority_json (rv_qualification r);
                        qc_evidence_digest := digest |} r.

(** One row of [qualification_dispositions]. *)
Record DispositionRow := {
  dn_reservation_id : string;
  dn_attempt_index : Z;
  dn_authority_digest : string;
  dn_authority_manifest_json : option json;
  dn_evidence_digest : string;
  dn_attempt_ref_json : option pyval;
  dn_report_digest : string;
  dn_failure_digest : string;
  dn_decision : string;
  dn_reason : string
}.

(** One row of [arena_screen_dispositions]. *)
Record ScreenRow := {
  sd_reservation_id : string;
  sd_attempt_index : Z;
  sd_service_digest : string;
  sd_candidate_digest : string;
  sd_receipt_digest : string;
  sd_receipt_json : option pyval;
  sd_decision : string;
  sd_stage_count : Z;
  sd_lane : string
}.

(** One row of [settlement_qualifications]. *)
Record QualificationRow := {
  ql_reservation_id : string;
  ql_reproduction_index : Z;
  ql_qualification_digest : string;
  ql_qualification_json : option pyval;
  ql_attempt_ref_json : option pyval;
  ql_evidence_root : string;
  ql_retained_block : Z
}.

(** One row of [settlement_candidates]. *)
Record CandidateRow := {
  ca_reservation_id : string;
  ca_authority_digest : string;
  ca_candidate_digest : string;
  ca_candidate_json : option (option pyval);
  ca_evidence_root : string;
  ca_reproduction_evidence_root : string;
  ca_settlement_evidence_digest : string;
  ca_status : string;
  ca_lease_id : string;
  ca_lease_generation : Z;
  ca_lease_expires_block : Z;
  ca_reason : string
}.

(** One row of [evaluation_stacks]. *)
Record StackRow := {
  sk_arena_id : string;
  sk_generation : Z;
  sk_stack_digest : string;
  sk_tree_digest : string;
  sk_stack_json : option pyval;
  sk_transition_event_id : string
}.

(** The database: the rows of [metadata] for the schema, the scope and the cursor,
    the tables in insertion order, the [reservation_id] column of
    [settlement_events], and the proposal digests of [discovery_bounty_claims] and
    [incentive_discovery_wins], which the reward stores write. *)
Record Database := {
  db_schema : option string;
  db_scope : option string;
  db_cursor : option (option pyval);
  db_reservations : list ReservationRow;
  db_dispositions : list DispositionRow;
  db_screens : list ScreenRow;
  db_qualifications : list QualificationRow;
  db_candidates : list CandidateRow;
  db_stacks : list StackRow;
  db_event_reservations : list string;
  db_awarded_proposals : list string
}.

Definition empty_database : Database :=
  {| db_schema := None; db_scope := None; db_cursor := None; db_reservations := []; db_dispositions := []; db_screens := [];
     db_qualifications := []; db_candidates := []; db_stacks := []; db_event_reservations := []; db_awarded_proposals := [] |}.

Definition set_meta (schema scope : option string) (db : Database) : Database :=
  {| db_schema := schema; db_scope := scope; db_cursor := db_cursor db; db_reservations := db_reservations db;
     db_dispositions := db_dispositions db; db_screens := db_screens db; db_qualifications := db_qualifications db;
     db_candidates := db_candidates db; db_stacks := db_stacks db; db_event_reservations := db_event_reservations db;
     db_awarded_proposals := db_awarded_proposals db |}.

Definition set_cursor (c : option (option pyval)) (db : Database) : Database :=
  {| db_schema := db_schema db; db_scope := db_scope db; db_cursor := c; db_reservations := db_reservations db;
     db_dispositions := db_dispositions db; db_screens := db_screens db; db_qualifications := db_qualifications db;
     db_candidates := db_candidates db; db_stacks := db_stacks db; db_event_reservations := db_event_reservations db;
     db_awarded_proposals := db_awarded_proposals db |}.

Definition set_reservations (l : list ReservationRow) (db : Database) : Database :=
  {| db_schema := db_schema db; db_scope := db_scope db; db_cursor := db_cursor db; db_reservations := l;
     db_dispositions := db_dispositions db; db_screens := db_screens db; db_qualifications := db_qualifications db;
     db_candidates := db_candidates db; db_stacks := db_stacks db; db_event_reservations := db_event_reservations db;
     db_awarded_proposals := db_awarded_proposals db |}.

Definition set_dispositions (l : list DispositionRow) (db : Database) : Database :=
  {| db_schema := db_schema db; db_scope := db_scope db; db_cursor := db_cursor db; db_reservations := db_reservations db;
     db_dispositions := l; db_screens := db_screens db; db_qualifications := db_qualifications db;
     db_candidates := db_candidates db; db_stacks := db_stacks db; db_event_reservations := db_event_reservations db;
     db_awarded_proposals := db_awarded_proposals db |}.

Definition set_screens (l : list ScreenRow) (db : Database) : Database :=
  {| db_schema := db_schema db; db_scope := db_scope db; db_cursor := db_cursor db; db_reservations := db_reservations db;
     db_dispositions := db_dispositions db; db_screens := l; db_qualifications := db_qualifications db;
     db_candidates := db_candidates db; db_stacks := db_stacks db; db_event_reservations := db_event_reservations db;
     db_awarded_proposals := db_awarded_proposals db |}.

Definition set_qualifications (l : list QualificationRow) (db : Database) : Database :=
  {| db_schema := db_schema db; db_scope := db_scope db; db_cursor := db_cursor db; db_reservations := db_reservations db;
     db_dispositions := db_dispositions db; db_screens := db_screens db; db_qualifications := l;
     db_candidates := db_candidates db; db_stacks := db_stacks db; db_event_reservations := db_event_reservations db;
     db_awarded_proposals := db_awarded_proposals db |}.

Definition set_candidates (l : list CandidateRow) (db : Database) : Database :=
  {| db_schema := db_schema db; db_scope := db_scope db; db_cursor := db_cursor db; db_reservations := db_reservations db;
     db_dispositions := db_dispositions db; db_screens := db_screens db; db_qualifications := db_qualifications db;
     db_candidates := l; db_stacks := db_stacks db; db_event_reservations := db_event_reservations db;
     db_awarded_proposals := db_awarded_proposals db |}.

Definition set_stacks (l : list StackRow) (db : Database) : Database :=
  {| db_schema := db_schema db; db_scope := db_scope db; db_cursor := db_cursor db; db_reservations := db_reservations db;
     db_dispositions := db_dispositions db; db_screens := db_screens db; db_qualifications := db_qualifications db;
     db_candidates := db_candidates db; db_stacks := l; db_event_reservations := db_event_reservations db;
     db_awarded_proposals := db_awarded_proposals db |}.

(** ** Reservations as the operations return them *)

Record IntakeReservation := {
  iv_reservation_id : string;
  iv_arrival : FinalizedArrival;
  iv_admission_epoch : Z;
  iv_status : string;
  iv_target_id : string;
  iv_target_members : list string;
  iv_delta_fingerprint : option SubmittedDeltaFingerprint;
  iv_transport_attempts : Z;
  iv_publication_digest : string;
  iv_publication_root : string;
  iv_qualification_authority_digest : string;
  iv_qualification_evidence_digest : string;
  iv_arena_service_digest : string;
  iv_screen_lane : string;
  iv_screen_status : string;
  iv_screen_stage_count : Z;
  iv_screen_attempts : Z;
  iv_decision : string;
  iv_reason : string
}.

#[global] Instance IntakeReservation_eq_dec : EqDecision IntakeReservation.
Proof. solve_decision. Defined.

(** [value and _HASH.fullmatch(value) is None] *)
Definition bad_optional_hash (s : string) : bool := negb (bool_decide (s = "")) && negb (is_hex64 s).

Section records.
Context {sha : Sha256}.

Definition IntakeScope_digest (s : IntakeScope) : string := digest_of "optima.chain.intake-scope" (IntakeScope_to_dict s).

Definition FinalizedArrival_init (hotkey content_hash url block block_hash event_index event_subindex payload_digest
    invalid_reason : pyval) : result FinalizedArrival :=
  let! hotkey := hotkey_of (intake_error "arrival hotkey is malformed") hotkey in
  match reference_of content_hash url invalid_reason with
  | None => Raise (intake_error "arrival payload disposition is malformed")
  | Some (content_hash, url, invalid_reason) =>
      let! block := nonneg_int (intake_error "arrival block is malformed") block in
      let! block_hash :=
        match block_hash with
        | PStr s => if is_block_hash s then Ok s else Raise (intake_error "arrival block hash is malformed")
        | _ => Raise (intake_error "arrival block hash is malformed")
        end in
      let! event_index := nonneg_int (intake_error "arrival event_index is malformed") event_index in
      let! event_subindex := nonneg_int (intake_error "arrival event_subindex is malformed") event_subindex in
      let! payload_digest := require_sha256_hex
        (if truthy payload_digest then payload_digest
         else PStr (digest_of "optima.chain.finalized-payload"
                      (py_dict [("content_hash", PStr content_hash); ("url", PStr url)]))) in
      Ok {| fa_hotkey := hotkey; fa_content_hash := content_hash; fa_url := url; fa_block := block; fa_block_hash := block_hash;
            fa_event_index := event_index; fa_event_subindex := event_subindex; fa_payload_digest := payload_digest;
            fa_invalid_reason := invalid_reason |}
  end.

Definition reservation_id (a : FinalizedArrival) : string :=
  digest_of "optima.chain.finalized-arrival" (py_dict [
    ("block", PInt (fa_block a));
    ("block_hash", PStr (fa_block_hash a));
    ("content_hash", PStr (fa_content_hash a));
    ("event_index", PInt (fa_event_index a));
    ("event_subindex", PInt (fa_event_subindex a));
    ("hotkey", PStr (fa_hotkey a));
    ("payload_digest", PStr (fa_payload_digest a));
    ("url", PStr (fa_url a))]).

(** [__post_init__] of a reservation. *)
Definition IntakeReservation_check (r : IntakeReservation) : result IntakeReservation :=
  do! require_sha256_hex (PStr (iv_reservation_id r)) ;;
  do! raise_if (negb (bool_decide (iv_reservation_id r = reservation_id (iv_arrival r))))
        (intake_error "reservation identity differs from finalized arrival") ;;
  do! raise_if (iv_admission_epoch r <? 0) (intake_error "reservation epoch is malformed") ;;
  do! raise_if (negb (bool_decide (iv_status r ∈ _STATUSES))) (intake_error "reservation status is unsupported") ;;
  do! raise_if (negb (is_canonical_set (iv_target_members r))) (intake_error "reservation target members are not canonical") ;;
  do! raise_if (match iv_delta_fingerprint r with
                | None => false
                | Some f => negb (bool_decide (fp_target_id f = iv_target_id r))
                            || negb (bool_decide (fp_members f = iv_target_members r))
                end) (intake_error "reservation delta fingerprint differs from its target") ;;
  do! raise_if (iv_transport_attempts r <? 0) (intake_error "reservation transport attempts are malformed") ;;
  do! raise_if (bad_optional_hash (iv_publication_digest r)) (intake_error "reservation publication_digest is malformed") ;;
  do! raise_if (bad_optional_hash (iv_qualification_authority_digest r))
        (intake_error "reservation qualification_authority_digest is malformed") ;;
  do! raise_if (bad_optional_hash (iv_qualification_evidence_digest r))
        (intake_error "reservation qualification_evidence_digest is malformed") ;;
  do! raise_if (bad_optional_hash (iv_arena_service_digest r)) (intake_error "reservation arena_service_digest is malformed") ;;
  do! raise_if (negb (bool_decide (iv_decision r ∈ [""; "PASS"; "FAIL"; "NO_DECISION"])))
        (intake_error "reservation decision is unsupported") ;;
  do! raise_if (negb (bool_decide (iv_screen_lane r ∈ [""; "primary"; "reproduction"])))
        (intake_error "reservation screen lane is unsupported") ;;
  do! raise_if (negb (bool_decide (iv_screen_status r ∈ [""; "running"; "promote"; "reject"; "retry"; "hold"])))
        (intake_error "reservation screen status is unsupported") ;;
  do! raise_if ((iv_screen_stage_count r <? 0) || (iv_screen_attempts r <? 0))
        (intake_error "reservation screen counters are malformed") ;;
  Ok r.

(** The JSON columns that [_row] reads; what their readers raise becomes
    [IntakeError].  A member that is not a text, which no operation writes, is
    refused here. *)
Definition members_of_column (text : option pyval) : result (list string) :=
  decode [] "reservation provenance is corrupt" str_tuple text.

Definition fingerprint_of_column (text : option (option pyval)) : result (option SubmittedDeltaFingerprint) :=
  match text with
  | None => Ok None
  | Some text =>
      let! f := decode [] "reservation provenance is corrupt" SubmittedDeltaFingerprint_from_dict text in Ok (Some f)
  end.

Definition _row (row : ReservationRow) : result IntakeReservation :=
  let p := rv_publication row in
  let! members := members_of_column (pc_target_members_json p) in
  let! fingerprint := fingerprint_of_column (pc_delta_fingerprint_json p) in
  let a := rv_arrival row in
  let! arrival := FinalizedArrival_init (PStr (fa_hotkey a)) (PStr (fa_content_hash a)) (PStr (fa_url a)) (PInt (fa_block a))
                    (PStr (fa_block_hash a)) (PInt (fa_event_index a)) (PInt (fa_event_subindex a))
                    (PStr (fa_payload_digest a)) (PStr (fa_invalid_reason a)) in
  IntakeReservation_check
    {| iv_reservation_id := rv_id row; iv_arrival := arrival; iv_admission_epoch := rv_admission_epoch row;
       iv_status := rv_status row; iv_target_id := pc_target_id p; iv_target_members := members;
       iv_delta_fingerprint := fingerprint; iv_transport_attempts := rv_transport_attempts row;
       iv_publication_digest := pc_publication_digest p; iv_publication_root := pc_publication_root p;
       iv_qualification_authority_digest := qc_authority_digest (rv_qualification row);
       iv_qualification_evidence_digest := qc_evidence_digest (rv_qualification row);
       iv_arena_service_digest := sn_service_digest (rv_screen row); iv_screen_lane := sn_lane (rv_screen row);
       iv_screen_status := sn_status (rv_screen row); iv_screen_stage_count := sn_stage_count (rv_screen row);
       iv_screen_attempts := sn_attempts (rv_screen row); iv_decision := vd_decision (rv_verdict row);
       iv_reason := vd_reason (rv_verdict row) |}.
End records.
