(* ===== verification/Intake.v ===== *)
(** * Finalized intake: the store

    [FinalizedIntakeStore] of [chain/intake.py], up to the settlement leases.  An
    operation maps a database to the database it leaves and its outcome; the
    policy is the section variable.  [transaction] puts back the database when its
    body raises; what is done outside of it stays.  Rows keep their insertion
    order; a query that orders rows by arrival keeps it among rows with equal
    keys.  An integer bound to a statement must fit SQLite's 64 bits. *)

From Stdlib Require Import ZArith Lia Ascii.
From stdpp Require Import base tactics numbers list strings gmap sorting.
From S2P Require Import Prelude PyValue Sha256 Identity Strict Provider Stack Release StackPlan Settlement SettlementPlan.
From S2P Require Import SettlementFacts Publication Journal Fingerprint QualificationBatch Arena IntakeData.

(** ** The store monad *)

Definition storeM (A : Type) : Type := Database → Database * result A.

Definition lift {A} (r : result A) : storeM A := λ db, (db, r).
Definition reading {A} (f : Database → result A) : storeM A := λ db, (db, f db).
Definition writing (f : Database → Database) : storeM unit := λ db, (f db, Ok tt).

Definition sbind {A B} (m : storeM A) (k : A → storeM B) : storeM B :=
  λ db, match m db with
        | (db, Ok a) => k a db
        | (db, Raise e) => (db, Raise e)
        end.

(** [with self._transaction(): m] *)
Definition transaction {A} (m : storeM A) : storeM A :=
  λ db, match m db with
        | (db', Ok a) => (db', Ok a)
        | (_, Raise e) => (db, Raise e)
        end.

(** [for x in l: f(x)] *)
Fixpoint smapM {A B} (f : A → storeM B) (l : list A) : storeM (list B) :=
  match l with
  | [] => lift (Ok [])
  | x :: l => sbind (f x) (λ y, sbind (smapM f l) (λ ys, lift (Ok (y :: ys))))
  end.

Declare Scope store_scope.
Delimit Scope store_scope with store.

Notation "'let?' x ':=' m 'in' k" := (sbind m (λ x, k))
  (at level 10, x binder, m at level 99, k at level 200) : store_scope.
Notation "'do?' m ';;' k" := (sbind m (λ _, k))
  (at level 10, m at level 99, k at level 200) : store_scope.

Open Scope store_scope.

Definition sraise_if (b : bool) (e : pyexn) : storeM unit := lift (raise_if b e).

(** A bound integer parameter. *)
Definition sql_fits (z : Z) : bool := (- 2 ^ 63 <=? z) && (z <? 2 ^ 63).
Definition sql_int (z : Z) : result unit := raise_if (negb (sql_fits z)) (Exn ForeignError "OverflowError").

Definition integrity : pyexn := Exn ForeignError "IntegrityError".

(** ** Queries *)

(** [WHERE reservation_id=?] *)
Definition find_row (db : Database) (id : string) : option ReservationRow :=
  List.find (λ r, bool_decide (rv_id r = id)) (db_reservations db).

(** [UPDATE reservations SET ... WHERE reservation_id=?] *)
Definition update_row (id : string) (f : ReservationRow → ReservationRow) (db : Database) : Database :=
  set_reservations ((λ r, if bool_decide (rv_id r = id) then f r else r) <$> db_reservations db) db.

(** [ORDER BY block,event_index,event_subindex,hotkey,content_hash] *)
Definition row_le (a b : ReservationRow) : Prop := arrival_le (arrival_key (rv_arrival a)) (arrival_key (rv_arrival b)).

#[global] Instance row_le_dec a b : Decision (row_le a b).
Proof. unfold row_le. apply _. Defined.

Definition in_order (rows : list ReservationRow) : list ReservationRow := stable_sort row_le rows.

(** [ORDER BY CASE ... WHEN ... THEN 0 ELSE 1 END, block, ...] *)
Definition first_le (first : ReservationRow → bool) (a b : ReservationRow) : Prop :=
  (first a = true ∧ first b = false) ∨ (first a = first b ∧ row_le a b).

#[global] Instance first_le_dec first a b : Decision (first_le first a b).
Proof. unfold first_le. apply _. Defined.

(** [ORDER BY retry_position] *)
Definition position_le (a b : ReservationRow) : Prop := (rv_retry a).2 ≤ (rv_retry b).2.

#[global] Instance position_le_dec a b : Decision (position_le a b).
Proof. unfold position_le. apply _. Defined.

Definition status_in (statuses : list string) (r : ReservationRow) : bool := bool_decide (rv_status r ∈ statuses).

Definition count_where {A} (p : A → bool) (l : list A) : Z := Z.of_nat (length (List.filter p l)).

Definition dispositions_of (db : Database) (id : string) : list DispositionRow :=
  List.filter (λ d, bool_decide (dn_reservation_id d = id)) (db_dispositions db).

Definition screens_of (db : Database) (id : string) : list ScreenRow :=
  List.filter (λ s, bool_decide (sd_reservation_id s = id)) (db_screens db).

(** [ORDER BY reproduction_index] *)
Definition index_le (a b : QualificationRow) : Prop := ql_reproduction_index a ≤ ql_reproduction_index b.

#[global] Instance index_le_dec a b : Decision (index_le a b).
Proof. unfold index_le. apply _. Defined.

Definition qualifications_of (db : Database) (id : string) : list QualificationRow :=
  stable_sort index_le (List.filter (λ q, bool_decide (ql_reservation_id q = id)) (db_qualifications db)).

Definition find_candidate (db : Database) (id : string) : option CandidateRow :=
  List.find (λ c, bool_decide (ca_reservation_id c = id)) (db_candidates db).

(** ** Inserts, which check the keys of their tables *)

Definition insert_reservation (row : ReservationRow) : storeM unit :=
  let key r := (fa_block_hash (rv_arrival r), fa_event_index (rv_arrival r), fa_event_subindex (rv_arrival r),
                fa_hotkey (rv_arrival r), fa_content_hash (rv_arrival r)) in
  do? lift (sql_int (rv_admission_epoch row)) ;;
  do? lift (sql_int (fa_block (rv_arrival row))) ;;
  do? lift (sql_int (fa_event_index (rv_arrival row))) ;;
  do? lift (sql_int (fa_event_subindex (rv_arrival row))) ;;
  do? reading (λ db, raise_if (bool_decide (rv_id row ∈ rv_id <$> db_reservations db)
                               || bool_decide (key row ∈ key <$> db_reservations db)) integrity) ;;
  writing (λ db, set_reservations (db_reservations db ++ [row]) db).

Definition insert_disposition (row : DispositionRow) : storeM unit :=
  do? reading (λ db, raise_if (existsb (λ d, bool_decide (dn_attempt_index d = dn_attempt_index row))
                                 (dispositions_of db (dn_reservation_id row))) integrity) ;;
  writing (λ db, set_dispositions (db_dispositions db ++ [row]) db).

Definition insert_screen (row : ScreenRow) : storeM unit :=
  do? reading (λ db, raise_if (existsb (λ s, bool_decide (sd_attempt_index s = sd_attempt_index row))
                                 (screens_of db (sd_reservation_id row))
                               || bool_decide (sd_receipt_digest row ∈ sd_receipt_digest <$> db_screens db)) integrity) ;;
  writing (λ db, set_screens (db_screens db ++ [row]) db).

Definition insert_qualification (row : QualificationRow) : storeM unit :=
  do? lift (sql_int (ql_retained_block row)) ;;
  do? reading (λ db, raise_if (existsb (λ q, bool_decide (ql_reproduction_index q = ql_reproduction_index row))
                                 (qualifications_of db (ql_reservation_id row))
                               || bool_decide (ql_qualification_digest row ∈ ql_qualification_digest <$> db_qualifications db)
                               || (ql_retained_block row <? 0)) integrity) ;;
  writing (λ db, set_qualifications (db_qualifications db ++ [row]) db).

Definition insert_candidate (row : CandidateRow) : storeM unit :=
  do? reading (λ db, raise_if (bool_decide (ca_reservation_id row ∈ ca_reservation_id <$> db_candidates db)
                               || bool_decide (ca_candidate_digest row ∈ ca_candidate_digest <$> db_candidates db)) integrity) ;;
  writing (λ db, set_candidates (db_candidates db ++ [row]) db).

(** ** Opening *)

(** The step of [_create_schema] to schema 3; the migrations of the reward stores,
    which follow it, touch none of these tables. *)
Definition upgrade_to_schema3 : storeM unit :=
  do? reading (λ db, match db_schema db with
                     | None => Ok tt
                     | Some v => raise_if (negb (bool_decide (v ∈ ["1"; "2"; "3"; "4"; "5"; "6"])))
                                   (intake_error "intake database schema is unsupported")
                     end) ;;
  writing (λ db,
    match db_schema db with
    | None => set_meta (Some "3") (db_scope db) db
    | Some v =>
        if bool_decide (v ∈ ["1"; "2"]) then
          let held c :=
            {| ca_reservation_id := ca_reservation_id c; ca_authority_digest := ca_authority_digest c;
               ca_candidate_digest := ca_candidate_digest c; ca_candidate_json := ca_candidate_json c;
               ca_evidence_root := ca_evidence_root c; ca_reproduction_evidence_root := ca_reproduction_evidence_root c;
               ca_settlement_evidence_digest := ca_settlement_evidence_digest c; ca_status := "held"; ca_lease_id := "";
               ca_lease_generation := ca_lease_generation c; ca_lease_expires_block := 0;
               ca_reason := _SCHEMA3_MIGRATION_HOLD_REASON |} in
          let hold r :=
            if bool_decide (rv_id r ∈ ca_reservation_id <$> db_candidates db)
            then with_verdict {| vd_status := "held"; vd_decision := "NO_DECISION"; vd_reason := _SCHEMA3_MIGRATION_HOLD_REASON |} r
            else r in
          set_meta (Some "3") (db_scope db)
            (set_reservations (hold <$> db_reservations db) (set_candidates (held <$> db_candidates db) db))
        else db
    end).

Definition _bind_scope (scope : IntakeScope) : storeM unit :=
  do? reading (λ db, match db_scope db with
                     | None => Ok tt
                     | Some text => raise_if (negb (bool_decide (text = scope_text scope)))
                                      (intake_error "intake database belongs to another chain scope")
                     end) ;;
  writing (λ db, match db_scope db with
                 | None => set_meta (db_schema db) (Some (scope_text scope)) db
                 | Some _ => db
                 end).

Definition recover_row (r : ReservationRow) : ReservationRow :=
  if status_in ["fetching"; "qualifying"] r
  then with_verdict {| vd_status := "held"; vd_decision := "NO_DECISION";
                       vd_reason := "controller_restart_during_" +:+ rv_status r |} r
  else if bool_decide (rv_status r = "screening") then
    let s := rv_screen r in
    with_screen {| sn_service_digest := sn_service_digest s; sn_lane := sn_lane s; sn_status := "retry";
                   sn_stage_count := sn_stage_count s; sn_attempts := sn_attempts s |}
      (with_verdict {| vd_status := if bool_decide (sn_lane s = "reproduction") then "reproduction_pending" else "published";
                       vd_decision := ""; vd_reason := "controller_restart_during_screening" |} r)
  else r.

Definition recover_candidate (c : CandidateRow) : CandidateRow :=
  if bool_decide (ca_status c = "leased") then
    {| ca_reservation_id := ca_reservation_id c; ca_authority_digest := ca_authority_digest c;
       ca_candidate_digest := ca_candidate_digest c; ca_candidate_json := ca_candidate_json c;
       ca_evidence_root := ca_evidence_root c; ca_reproduction_evidence_root := ca_reproduction_evidence_root c;
       ca_settlement_evidence_digest := ca_settlement_evidence_digest c; ca_status := "pending"; ca_lease_id := "";
       ca_lease_generation := ca_lease_generation c + 1; ca_lease_expires_block := 0;
       ca_reason := "controller_restart_during_settlement" |}
  else c.

Definition _recover_interrupted : storeM unit :=
  writing (λ db, set_reservations (recover_row <$> db_reservations db)
                   (set_candidates (recover_candidate <$> db_candidates db) db)).

(** [__init__] after the file is open and locked. *)
Definition open_store (scope : IntakeScope) : storeM unit :=
  do? upgrade_to_schema3 ;;
  do? _bind_scope scope ;;
  transaction _recover_interrupted.

(** ** The cursor *)

Definition read_cursor (text : option (option pyval)) : result (option (Z * string)) :=
  match text with
  | None => Ok None
  | Some None => Raise (intake_error "finalized cursor is corrupt")
  | Some (Some (PList [PInt block; PStr hash])) =>
      if (0 <=? block) && is_block_hash hash then Ok (Some (block, hash)) else Raise (intake_error "finalized cursor is malformed")
  | Some (Some _) => Raise (intake_error "finalized cursor is malformed")
  end.

Definition _cursor : storeM (option (Z * string)) := reading (λ db, read_cursor (db_cursor db)).
Definition finalized_cursor : storeM (option (Z * string)) := _cursor.

Section store.
Context {sha : Sha256} (policy : IntakePolicy).

(** ** Reading reservations *)

Definition get_reservation (id : string) : storeM IntakeReservation :=
  reading (λ db, match find_row db id with
                 | None => Raise (intake_error "unknown intake reservation")
                 | Some row => _row row
                 end).

Definition all_reservations : storeM (list IntakeReservation) :=
  reading (λ db, mapM _row (in_order (db_reservations db))).

(** [bound = default if limit is None else limit], a positive integer up to [top]. *)
Definition limit_of (top default : Z) (msg : string) (limit : option pyval) : result Z :=
  match limit with
  | None => if (default <=? 0) || (top <? default) then Raise (intake_error msg) else Ok default
  | Some (PInt z) => if (z <=? 0) || (top <? z) then Raise (intake_error msg) else Ok z
  | Some _ => Raise (intake_error msg)
  end.

Definition pending_reservations (limit : option pyval) : storeM (list IntakeReservation) :=
  let? bound := lift (limit_of (ip_max_pending policy) (ip_max_cohort policy) "pending reservation limit is invalid" limit) in
  do? lift (sql_int (ip_max_transport_retries policy)) ;;
  do? lift (sql_int bound) ;;
  reading (λ db, mapM _row (take (Z.to_nat bound) (in_order
    (List.filter (λ r, status_in ["reserved"; "transport_retry"] r
                       && (rv_transport_attempts r <? ip_max_transport_retries policy)) (db_reservations db))))).

Definition published (limit : option pyval) : storeM (list IntakeReservation) :=
  let? bound := lift (limit_of (ip_max_cohort policy) (ip_max_cohort policy) "published cohort limit is invalid" limit) in
  do? lift (sql_int bound) ;;
  reading (λ db,
    let rows := List.filter (status_in ["published"]) (db_reservations db) in
    let ungrouped := take (Z.to_nat bound) (in_order (List.filter (λ r, bool_decide ((rv_retry r).1 = "")) rows)) in
    mapM _row
      match in_order rows with
      | [] => ungrouped
      | first :: _ =>
          if bool_decide ((rv_retry first).1 = "") then ungrouped
          else take (Z.to_nat bound) (stable_sort position_le
                 (List.filter (λ r, bool_decide ((rv_retry r).1 = (rv_retry first).1)) rows))
      end).

Definition screenable (limit : option pyval) : storeM (list IntakeReservation) :=
  let? bound := lift (limit_of (ip_max_cohort policy) (ip_max_cohort policy) "screen cohort limit is invalid" limit) in
  do? lift (sql_int bound) ;;
  reading (λ db, mapM _row (take (Z.to_nat bound)
    (stable_sort (first_le (status_in ["reproduction_pending"]))
      (List.filter (status_in ["published"; "reproduction_pending"]) (db_reservations db))))).

Definition is_reproduction (r : ReservationRow) : bool := bool_decide (sn_lane (rv_screen r) = "reproduction").

Definition promoted (limit : option pyval) : storeM (list IntakeReservation) :=
  let? bound := lift (limit_of (ip_max_cohort policy) (ip_max_cohort policy) "promoted cohort limit is invalid" limit) in
  reading (λ db,
    let rows := List.filter (status_in ["promoted"]) (db_reservations db) in
    match stable_sort (first_le is_reproduction) rows with
    | [] => Ok []
    | first :: _ =>
        if is_reproduction first then mapM _row (take 1 (in_order (List.filter is_reproduction rows)))
        else if negb (bool_decide ((rv_retry first).1 = "")) then
          do! sql_int bound ;;
          mapM _row (take (Z.to_nat bound) (stable_sort position_le
            (List.filter (λ r, bool_decide ((rv_retry r).1 = (rv_retry first).1)) rows)))
        else
          do! sql_int bound ;;
          mapM _row (take (Z.to_nat bound) (in_order
            (List.filter (λ r, bool_decide (sn_lane (rv_screen r) = "primary") && bool_decide ((rv_retry r).1 = "")) rows)))
    end).

(** [MIN(block)] *)
Definition oldest_block (rows : list ReservationRow) : option Z :=
  match (λ r, fa_block (rv_arrival r)) <$> rows with
  | [] => None
  | b :: bs => Some (foldl Z.min b bs)
  end.

Definition arena_queue_snapshot (current_block : pyval) : storeM ArenaQueueSnapshot :=
  let? current := lift (nonneg_int (intake_error "arena queue block is malformed") current_block) in
  reading (λ db,
    let queued := List.filter (status_in ["published"; "reproduction_pending"; "promoted"]) (db_reservations db) in
    ArenaQueueSnapshot_init (Z.of_nat (length queued))
      (match oldest_block queued with None => 0 | Some oldest => Z.max 0 (current - oldest) end)
      (count_where (status_in ["screening"]) (db_reservations db))
      (count_where (status_in ["qualifying"]) (db_reservations db))).

(** ** Transitions *)

Definition _transition (id : string) (expected : list string) (status decision reason evidence_digest : string)
    : storeM IntakeReservation :=
  do? sraise_if (negb (bool_decide (status ∈ _STATUSES)) || (2048 <? str_len reason))
        (intake_error "intake transition is malformed") ;;
  do? transaction (
    let? row := get_reservation id in
    do? sraise_if (negb (bool_decide (iv_status row ∈ expected))) (intake_error "intake transition is forbidden") ;;
    writing (update_row id (λ r, with_evidence evidence_digest
      (with_verdict {| vd_status := status; vd_decision := decision; vd_reason := reason |} r)))) ;;
  get_reservation id.

Definition mark_fetching (id : string) : storeM IntakeReservation :=
  do? transaction (
    let? row := get_reservation id in
    do? sraise_if (negb (bool_decide (iv_status row ∈ ["reserved"; "transport_retry"])))
          (intake_error "only pending intake may begin transport") ;;
    let attempts := iv_transport_attempts row + 1 in
    let status := if attempts <=? ip_max_transport_retries policy then "fetching" else "held" in
    let reason := if bool_decide (status = "fetching") then "" else "transport_retry_limit" in
    do? lift (sql_int attempts) ;;
    writing (update_row id (λ r, with_attempts attempts
      (with_verdict {| vd_status := status; vd_decision := vd_decision (rv_verdict r); vd_reason := reason |} r)))) ;;
  get_reservation id.

Definition mark_transport_retry (id reason : string) : storeM IntakeReservation :=
  let? row := get_reservation id in
  let exhausted := ip_max_transport_retries policy <=? iv_transport_attempts row in
  _transition id ["fetching"] (if exhausted then "held" else "transport_retry") "NO_DECISION"
    (if exhausted then "transport_retry_limit" else reason) "".

Definition mark_failed (id reason : string) : storeM IntakeReservation :=
  _transition id ["fetching"; "published"] "failed" "FAIL" reason "".

Definition mark_held (id reason : string) : storeM IntakeReservation :=
  _transition id ["reserved"; "fetching"; "transport_retry"; "published"; "screening"; "promoted"; "qualifying";
                  "reproduction_pending"; "no_decision"] "held" "NO_DECISION" reason "".

(** ** Publication *)

(** An earlier discovery with the same payload. *)
Definition same_proposal (fingerprint : SubmittedDeltaFingerprint) (row prior : IntakeReservation) : bool :=
  bool_decide (key_lt (arrival_key (iv_arrival prior)) (arrival_key (iv_arrival row)))
  && match iv_delta_fingerprint prior with
     | None => false
     | Some f => bool_decide (fp_product_kind f = "discovery")
                 && bool_decide (fp_exact_payload_digest f = fp_exact_payload_digest fingerprint)
     end.

(** The verdict of a publication, given the number of rows of its target and epoch. *)
Definition publication_verdict (fingerprint : SubmittedDeltaFingerprint) (row : IntakeReservation) (count : Z)
    (prior : list IntakeReservation) (awarded : list string) : Verdict :=
  let limited :=
    if ip_max_per_target_epoch policy <=? count
    then {| vd_status := "failed"; vd_decision := ""; vd_reason := "target_epoch_admission_limit" |}
    else {| vd_status := "published"; vd_decision := ""; vd_reason := "" |} in
  if bool_decide (fp_product_kind fingerprint = "discovery") then
    if bool_decide (fp_exact_payload_digest fingerprint ∈ awarded)
    then {| vd_status := "failed"; vd_decision := "FAIL"; vd_reason := "already_awarded" |}
    else if existsb (same_proposal fingerprint row) prior
    then {| vd_status := "failed"; vd_decision := "FAIL"; vd_reason := "duplicate_proposal" |}
    else limited
  else limited.

Definition publication_columns (fingerprint : SubmittedDeltaFingerprint) (digest root : string) : PublicationColumns :=
  {| pc_target_id := fp_target_id fingerprint; pc_target_members_json := Some (py_strs (fp_members fingerprint));
     pc_delta_fingerprint_json := Some (Some (SubmittedDeltaFingerprint_to_dict fingerprint));
     pc_publication_digest := digest; pc_publication_root := root |}.

Definition target_count (epoch : Z) (target : string) (rows : list ReservationRow) : Z :=
  count_where (λ r, (rv_admission_epoch r =? epoch) && bool_decide (pc_target_id (rv_publication r) = target)) rows.

Definition mark_published (id : string) (fingerprint : SubmittedDeltaFingerprint) (publication_digest publication_root : string)
    : storeM IntakeReservation :=
  do? lift (require_sha256_hex (PStr publication_digest)) ;;
  do? transaction (
    let? row := get_reservation id in
    do? sraise_if (negb (bool_decide (iv_status row = "fetching"))) (intake_error "publication requires an active transport") ;;
    let? count := reading (λ db, Ok (target_count (iv_admission_epoch row) (fp_target_id fingerprint) (db_reservations db))) in
    let? prior := (if bool_decide (fp_product_kind fingerprint = "discovery") then all_reservations else lift (Ok [])) in
    let? awarded := reading (λ db, Ok (db_awarded_proposals db)) in
    writing (update_row id (λ r, with_publication (publication_columns fingerprint publication_digest publication_root)
      (with_verdict (publication_verdict fingerprint row count prior awarded) r)))) ;;
  get_reservation id.

(** ** Screening *)

Definition begin_screen (id service_digest : string) : storeM IntakeReservation :=
  do? lift (require_sha256_hex (PStr service_digest)) ;;
  do? transaction (
    let? row := get_reservation id in
    do? sraise_if (negb (bool_decide (iv_status row ∈ ["published"; "reproduction_pending"])))
          (intake_error "only screenable intake may begin arena screening") ;;
    let lane := if bool_decide (iv_status row = "reproduction_pending") then "reproduction" else "primary" in
    let? attempts := reading (λ db, Ok (Z.of_nat (length (screens_of db id)))) in
    writing (update_row id (λ r,
      with_screen {| sn_service_digest := service_digest; sn_lane := lane; sn_status := "running"; sn_stage_count := 0;
                     sn_attempts := attempts + 1 |}
        (with_verdict {| vd_status := "screening"; vd_decision := ""; vd_reason := "" |} r)))) ;;
  get_reservation id.

Definition screen_verdict (lane : string) (decision : PromotionDecision) : Verdict :=
  match decision with
  | PrPromote => {| vd_status := "promoted"; vd_decision := ""; vd_reason := "screen_promoted" |}
  | PrReject => {| vd_status := "failed"; vd_decision := "FAIL"; vd_reason := "screen_rejected" |}
  | PrRetry => {| vd_status := if bool_decide (lane = "reproduction") then "reproduction_pending" else "published";
                  vd_decision := ""; vd_reason := "screen_retry" |}
  | PrHold => {| vd_status := "held"; vd_decision := "NO_DECISION"; vd_reason := "screen_held" |}
  end.

Definition apply_screen_receipt (id candidate_digest : string) (receipt : ArenaScreenReceipt) : storeM IntakeReservation :=
  do? lift (require_sha256_hex (PStr candidate_digest)) ;;
  do? transaction (
    let? row := get_reservation id in
    do? sraise_if (negb (bool_decide (iv_status row = "screening"))
                   || negb (bool_decide (iv_arena_service_digest row = rc_service_digest receipt))
                   || negb (iv_screen_attempts row =? rc_screen_attempt receipt)
                   || negb (bool_decide (rc_candidate_digest receipt = candidate_digest)))
          (intake_error "arena screen receipt differs from active screening") ;;
    let decision := promotion_value (rc_decision receipt) in
    let stages := Z.of_nat (length (rc_results receipt)) in
    do? insert_screen
          {| sd_reservation_id := id; sd_attempt_index := iv_screen_attempts row - 1;
             sd_service_digest := rc_service_digest receipt; sd_candidate_digest := candidate_digest;
             sd_receipt_digest := ArenaScreenReceipt_digest receipt;
             sd_receipt_json := Some (ArenaScreenReceipt_to_dict receipt); sd_decision := decision;
             sd_stage_count := stages; sd_lane := iv_screen_lane row |} ;;
    writing (update_row id (λ r,
      with_screen {| sn_service_digest := sn_service_digest (rv_screen r); sn_lane := sn_lane (rv_screen r);
                     sn_status := decision; sn_stage_count := stages; sn_attempts := sn_attempts (rv_screen r) |}
        (with_verdict (screen_verdict (iv_screen_lane row) (rc_decision receipt)) r)))) ;;
  get_reservation id.

(** [value[key]] *)
Definition item_get (v : pyval) (key : string) : result pyval :=
  match v with
  | PDict kvs => match List.find (λ kv, py_eq_str kv.1 key) kvs with
                 | Some kv => Ok kv.2
                 | None => Raise (Exn KeyError key)
                 end
  | _ => Raise (Exn TypeError "object is not subscriptable")
  end.

Definition receipt_result (item : pyval) : result ScreenStageResult :=
  let! stage := item_get item "stage" in
  let! grade := item_get item "grade" in
  let! grade := grade_of grade in
  let! evidence_digest := item_get item "evidence_digest" in
  let! elapsed_ms := item_get item "elapsed_ms" in
  ScreenStageResult_init stage grade evidence_digest elapsed_ms.

(** A [results] that is not an array ends in an error of its items, or in a receipt
    without results, which is refused too. *)
Definition receipt_of (raw : pyval) : result ArenaScreenReceipt :=
  let! results := item_get raw "results" in
  let! results := match results with PList l => mapM receipt_result l | _ => Raise (Exn TypeError "results") end in
  let! service_digest := item_get raw "service_digest" in
  let! candidate_digest := item_get raw "candidate_digest" in
  let! screen_attempt := item_get raw "screen_attempt" in
  let! decision := item_get raw "decision" in
  let! decision := promotion_of decision in
  ArenaScreenReceipt_init service_digest candidate_digest screen_attempt results decision.

(** [ORDER BY attempt_index DESC LIMIT 1] *)
Definition later_screen (acc : option ScreenRow) (row : ScreenRow) : option ScreenRow :=
  match acc with
  | Some best => if sd_attempt_index best <? sd_attempt_index row then Some row else acc
  | None => Some row
  end.

Definition latest_promoted_screen (id : string) : storeM ArenaScreenReceipt :=
  let? row := get_reservation id in
  do? sraise_if (negb (bool_decide (iv_status row = "promoted")) || negb (bool_decide (iv_screen_status row = "promote")))
        (intake_error "reservation has no standing promoted screen") ;;
  reading (λ db,
    match foldl later_screen None (screens_of db id) with
    | None => Raise (intake_error "promoted screen receipt is missing")
    | Some retained =>
        let! receipt := decode [KeyError; ArenaServiceError] "promoted screen receipt is corrupt" receipt_of (sd_receipt_json retained) in
        do! raise_if (negb (bool_decide (ArenaScreenReceipt_digest receipt = sd_receipt_digest retained))
                      || negb (Z.of_nat (length (rc_results receipt)) =? sd_stage_count retained)
                      || negb (bool_decide (rc_decision receipt = PrPromote)))
              (intake_error "promoted screen receipt differs from retained bytes") ;;
        Ok receipt
    end).

(** ** Copies *)

(** The rows that a loop over [all()] reaches before the candidate's key. *)
Fixpoint before_key_of (key : (Z * Z * Z * string) * string) (rows : list IntakeReservation) : list IntakeReservation :=
  match rows with
  | [] => []
  | row :: rows =>
      if decide (key_lt (arrival_key (iv_arrival row)) key) then row :: before_key_of key rows else []
  end.

Definition settlement_blockers (id : string) : storeM (list IntakeReservation) :=
  let? candidate := get_reservation id in
  do? sraise_if (is_nil (iv_target_members candidate)) (intake_error "candidate has no resolved target members") ;;
  let? rows := all_reservations in
  lift (Ok (List.filter (λ row, negb (bool_decide (iv_status row ∈ _TERMINAL))
                                && (is_nil (iv_target_members row)
                                    || negb (bool_decide (str_set (iv_target_members row) ∩ str_set (iv_target_members candidate) = ∅))))
              (before_key_of (arrival_key (iv_arrival candidate)) rows))).

(** A row whose delta the candidate copies. *)
Definition copied_from (candidate : IntakeReservation) (fingerprint : SubmittedDeltaFingerprint) (row : IntakeReservation) : bool :=
  negb (bool_decide (fa_hotkey (iv_arrival row) = fa_hotkey (iv_arrival candidate)))
  && match iv_delta_fingerprint row with
     | None => false
     | Some f => cd_authoritative (compare_submitted_deltas f fingerprint)
     end.

Definition copy_predecessors (id : string) : storeM (list IntakeReservation) :=
  let? candidate := get_reservation id in
  match iv_delta_fingerprint candidate with
  | None => lift (Raise (intake_error "candidate has no submitted-delta fingerprint"))
  | Some fingerprint =>
      let? rows := all_reservations in
      lift (Ok (List.filter (copied_from candidate fingerprint) (before_key_of (arrival_key (iv_arrival candidate)) rows)))
  end.

Definition COPYABLE : list string :=
  ["published"; "screening"; "promoted"; "qualifying"; "reproduction_pending"; "qualified"; "held"; "no_decision"].

Definition mark_copy (id predecessor_id : string) : storeM IntakeReservation :=
  let? predecessor := get_reservation predecessor_id in
  let? candidate := get_reservation id in
  do? sraise_if (negb (bool_decide (key_lt (arrival_key (iv_arrival predecessor)) (arrival_key (iv_arrival candidate)))))
        (intake_error "copy predecessor is not earlier in finalized order") ;;
  let? predecessors := copy_predecessors id in
  do? sraise_if (negb (bool_decide (predecessor ∈ predecessors)))
        (intake_error "claimed predecessor is not an authoritative delta copy") ;;
  _transition id COPYABLE "failed" "FAIL" ("copy_of:" +:+ iv_reservation_id predecessor) "".

(** The body of the loop of [reconcile_copies]: the dispositions it appends. *)
Definition reconcile_copy (row : IntakeReservation) : storeM (list (string * string)) :=
  if is_some (iv_delta_fingerprint row) && negb (bool_decide (iv_status row ∈ ["failed"; "expired"])) then
    let? predecessors := copy_predecessors (iv_reservation_id row) in
    match predecessors with
    | [] => lift (Ok [])
    | predecessor :: _ =>
        do? mark_copy (iv_reservation_id row) (iv_reservation_id predecessor) ;;
        lift (Ok [(iv_reservation_id row, iv_reservation_id predecessor)])
    end
  else lift (Ok []).

Definition reconcile_copies : storeM (list (string * string)) :=
  let? rows := all_reservations in
  let? dispositions := smapM reconcile_copy rows in
  lift (Ok (mjoin dispositions)).
End store.
