(* ===== verification/IntakeAdmission.v ===== *)
(** * Finalized intake: admission, expiry and holds

    [reserve_finalized], the two kinds of expiry, the archival of migration holds,
    the release of holds and the requeueing of retained results, of
    [FinalizedIntakeStore]. *)

From Stdlib Require Import ZArith Lia Ascii.
From stdpp Require Import base tactics numbers list strings gmap sorting.
From S2P Require Import Prelude PyValue Sha256 Identity Strict Provider Stack Release StackPlan Settlement SettlementPlan.
From S2P Require Import SettlementFacts Publication Journal Fingerprint QualificationBatch Arena IntakeData Intake.

Section admission.
Context {sha : Sha256} (policy : IntakePolicy).

(** ** Automatic expiry *)

(** A reproduction-pending row must have exactly one retained qualification, of
    index zero. *)
Definition malformed_reproduction (db : Database) (r : ReservationRow) : bool :=
  bool_decide (rv_status r = "reproduction_pending")
  && (negb (length (qualifications_of db (rv_id r)) =? 1)%nat
      || negb (length (List.filter (λ q, (ql_reproduction_index q =? 0)%Z) (qualifications_of db (rv_id r))) =? 1)%nat).

(** The predicate of the expiry statement. *)
Definition is_stale (db : Database) (threshold : Z) (r : ReservationRow) : bool :=
  let retained := qualifications_of db (rv_id r) in
  status_in _AUTOMATICALLY_EXPIRABLE r
  && negb (bool_decide (vd_reason (rv_verdict r) = _SCHEMA3_MIGRATION_HOLD_REASON))
  && (((fa_block (rv_arrival r) <=? threshold) && is_nil retained)
      || existsb (λ q, (ql_reproduction_index q =? 0) && (0 <? ql_retained_block q) && (ql_retained_block q <=? threshold)) retained).

Definition expire_row (r : ReservationRow) : ReservationRow :=
  with_verdict {| vd_status := "expired"; vd_decision := "NO_DECISION"; vd_reason := _AUTOMATIC_EXPIRY_REASON |} r.

Definition _expire_stale_rows (current_block : Z) : storeM (list string) :=
  let threshold := current_block - ip_expiry_blocks policy in
  if threshold <? 0 then lift (Ok [])
  else
    do? reading (λ db, raise_if (existsb (malformed_reproduction db) (db_reservations db))
                         (intake_error "reproduction-pending authority is inconsistent")) ;;
    do? lift (sql_int current_block) ;;
    do? reading (λ db, raise_if (existsb (λ q, (ql_retained_block q <? 0) || (current_block <? ql_retained_block q))
                                   (db_qualifications db))
                         (intake_error "retained qualification block is not finalized")) ;;
    let? rows := reading (λ db, Ok (rv_id <$> in_order (List.filter (is_stale db threshold) (db_reservations db)))) in
    do? writing (λ db, set_reservations ((λ r, if is_stale db threshold r then expire_row r else r) <$> db_reservations db) db) ;;
    lift (Ok rows).

Definition expire_stale (current_block : pyval) : storeM (list IntakeReservation) :=
  let? current := lift (nonneg_int (intake_error "automatic expiry block is malformed") current_block) in
  let? expired := transaction (_expire_stale_rows current) in
  smapM get_reservation expired.

(** ** Admission *)

Definition PENDING : list string :=
  ["reserved"; "fetching"; "transport_retry"; "published"; "screening"; "promoted"; "qualifying"; "reproduction_pending";
   "held"; "no_decision"].

Definition pending_count (db : Database) : Z := count_where (status_in PENDING) (db_reservations db).

(** The epoch of an arrival: arrivals in the last [cutoff_blocks] go to the next. *)
Definition admission_epoch (block : Z) : Z :=
  let epoch := block / ip_epoch_blocks policy in
  if ip_epoch_blocks policy - ip_cutoff_blocks policy <=? block mod ip_epoch_blocks policy then epoch + 1 else epoch.

Definition hotkey_count (epoch : Z) (hotkey : string) (rows : list ReservationRow) : Z :=
  count_where (λ r, (rv_admission_epoch r =? epoch) && bool_decide (fa_hotkey (rv_arrival r) = hotkey)) rows.

(** The status and reason of a new row. *)
Definition admission_verdict (finalized_block : Z) (arrival : FinalizedArrival) (hotkeys pending : Z) : string * string :=
  if negb (fa_valid arrival) then ("failed", fa_invalid_reason arrival)
  else if ip_expiry_blocks policy <=? finalized_block - fa_block arrival then ("expired", _AUTOMATIC_EXPIRY_REASON)
  else if ip_max_per_hotkey_epoch policy <=? hotkeys then ("failed", "hotkey_epoch_admission_limit")
  else if ip_max_pending policy <=? pending then ("failed", "pending_queue_admission_limit")
  else ("reserved", "").

(** The inserted row: the other columns have their defaults. *)
Definition new_row (arrival : FinalizedArrival) (epoch : Z) (status reason : string) : ReservationRow :=
  {| rv_id := reservation_id arrival; rv_arrival := arrival; rv_admission_epoch := epoch;
     rv_verdict := {| vd_status := status; vd_decision := ""; vd_reason := reason |};
     rv_transport_attempts := 0;
     rv_publication := unpublished; rv_qualification := no_qualification; rv_screen := unscreened;
     rv_retry := ("", 0) |}.

(** One arrival of the loop: the pending count and the reservations inserted. *)
Definition reserve_one (finalized_block : Z) (arrival : FinalizedArrival) (pending : Z) : storeM (Z * list string) :=
  let? existing := reading (λ db, Ok (find_row db (reservation_id arrival))) in
  match existing with
  | Some row =>
      let? known := lift (_row row) in
      do? sraise_if (negb (bool_decide (iv_arrival known = arrival)))
            (intake_error "reservation ID collision changed arrival bytes") ;;
      lift (Ok (pending, []))
  | None =>
      let epoch := admission_epoch (fa_block arrival) in
      let? hotkeys := reading (λ db, Ok (hotkey_count epoch (fa_hotkey arrival) (db_reservations db))) in
      let verdict := admission_verdict finalized_block arrival hotkeys pending in
      do? insert_reservation (new_row arrival epoch verdict.1 verdict.2) ;;
      lift (Ok (if bool_decide (verdict.1 = "reserved") then pending + 1 else pending, [reservation_id arrival]))
  end.

Fixpoint reserve_all (finalized_block : Z) (arrivals : list FinalizedArrival) (pending : Z) : storeM (list string) :=
  match arrivals with
  | [] => lift (Ok [])
  | arrival :: arrivals =>
      let? here := reserve_one finalized_block arrival pending in
      let? rest := reserve_all finalized_block arrivals here.1 in
      lift (Ok (here.2 ++ rest))
  end.

(** [keys != sorted(set(keys))] fails exactly on strictly increasing keys. *)
Fixpoint strictly_increasing (keys : list ((Z * Z * Z * string) * string)) : bool :=
  match keys with
  | a :: ((b :: _) as keys') => bool_decide (key_lt a b) && strictly_increasing keys'
  | _ => true
  end.

Definition regressed (cursor : option (Z * string)) (block : Z) (hash : string) : bool :=
  match cursor with
  | None => false
  | Some (b, h) => (block <? b) || ((block =? b) && negb (bool_decide (hash = h)))
  end.

Definition reserve_finalized (arrivals : list FinalizedArrival) (finalized_block finalized_block_hash : pyval)
    : storeM (list IntakeReservation) :=
  do? sraise_if (negb (strictly_increasing (arrival_key <$> arrivals))) (intake_error "finalized arrivals are duplicated or out of order") ;;
  let? block := lift (nonneg_int (intake_error "finalized block is malformed") finalized_block) in
  let? hash := lift (block_hash_or_empty (intake_error "finalized block hash is malformed") finalized_block_hash) in
  do? sraise_if (existsb (λ a, block <? fa_block a) arrivals) (intake_error "unfinalized arrival reached durable intake") ;;
  let? inserted := transaction (
    do? _expire_stale_rows block ;;
    let? cursor := _cursor in
    do? sraise_if (regressed cursor block hash) (intake_error "finalized cursor regressed or changed hash") ;;
    let? pending := reading (λ db, Ok (pending_count db)) in
    let? inserted := reserve_all block arrivals pending in
    do? writing (set_cursor (Some (Some (PList [PInt block; PStr hash])))) ;;
    lift (Ok inserted)) in
  smapM get_reservation inserted.

(** ** Explicit expiry and archival *)

Definition expire (id : string) (current_block : pyval) (reason : string) : storeM IntakeReservation :=
  let? row := get_reservation id in
  do? sraise_if (bool_decide (iv_reason row = _SCHEMA3_MIGRATION_HOLD_REASON))
        (intake_error "legacy single-PASS settlement requires explicit archival migration") ;;
  do? sraise_if (bool_decide (reason = "")) (intake_error "explicit expiry requires an operator reason") ;;
  do? sraise_if (match current_block with
                 | PInt z => z - fa_block (iv_arrival row) <? ip_expiry_blocks policy
                 | _ => true
                 end) (intake_error "reservation is not old enough for explicit expiry") ;;
  _transition id _EXPLICITLY_EXPIRABLE "expired" "NO_DECISION" reason "".

(** The reason an operator gives for an archival. *)
Definition bad_archive_reason (reason : string) : bool :=
  bool_decide (reason = "") || negb (bool_decide (strip reason = reason))
  || existsb (λ c, (code c <? 32) || (code c =? 127)) (chars reason).

(** What the candidate of a migration hold must not be. *)
Definition unarchivable (db : Database) (c : CandidateRow) : result bool :=
  if negb (is_some (ca_candidate_json c)) then Ok true
  else
    do! require_sha256_hex (PStr (ca_candidate_digest c)) ;;
    Ok (negb (bool_decide (ca_status c = "held"))
        || negb (bool_decide (ca_reason c = _SCHEMA3_MIGRATION_HOLD_REASON))
        || negb (bool_decide (ca_lease_id c = "")) || negb (ca_lease_expires_block c =? 0)
        || negb (bool_decide (ca_settlement_evidence_digest c = ""))
        || bool_decide (ca_reservation_id c ∈ db_event_reservations db)).

Definition with_reason (reason : string) (c : CandidateRow) : CandidateRow :=
  {| ca_reservation_id := ca_reservation_id c; ca_authority_digest := ca_authority_digest c;
     ca_candidate_digest := ca_candidate_digest c; ca_candidate_json := ca_candidate_json c;
     ca_evidence_root := ca_evidence_root c; ca_reproduction_evidence_root := ca_reproduction_evidence_root c;
     ca_settlement_evidence_digest := ca_settlement_evidence_digest c; ca_status := ca_status c; ca_lease_id := ca_lease_id c;
     ca_lease_generation := ca_lease_generation c; ca_lease_expires_block := ca_lease_expires_block c; ca_reason := reason |}.

(** The conditions of the two updates were just tested, so each changes its row. *)
Definition archive_schema3_migration_hold (id : string) (current_finalized_block : pyval) (reason : string)
    : storeM IntakeReservation :=
  let malformed := intake_error "schema3 archival authority is malformed" in
  let? current := lift (nonneg_int malformed current_finalized_block) in
  do? sraise_if (bad_archive_reason reason) malformed ;;
  let archive_reason := _SCHEMA3_ARCHIVE_REASON_PREFIX +:+ str_of_Z current +:+ ":" +:+ reason in
  do? sraise_if (2048 <? str_len archive_reason) (intake_error "schema3 archival reason is oversized") ;;
  do? transaction (
    let? row := get_reservation id in
    do? sraise_if (negb (bool_decide (iv_status row = "held"))
                   || negb (bool_decide (iv_reason row = _SCHEMA3_MIGRATION_HOLD_REASON))
                   || (current <? fa_block (iv_arrival row)))
          (intake_error "only an exact schema3 reproduction migration hold may be archived") ;;
    let? candidate := reading (λ db, match find_candidate db id with
                                     | None => Raise (intake_error "schema3 migration hold lacks retained settlement authority")
                                     | Some c => Ok c
                                     end) in
    let? bad := reading (λ db, unarchivable db candidate) in
    do? sraise_if bad (intake_error "schema3 migration hold has settlement authority that cannot be archived") ;;
    do? writing (update_row id (with_verdict {| vd_status := "expired"; vd_decision := "NO_DECISION"; vd_reason := archive_reason |})) ;;
    writing (λ db, set_candidates ((λ c, if bool_decide (ca_reservation_id c = id) then with_reason archive_reason c else c)
                                     <$> db_candidates db) db)) ;;
  get_reservation id.

(** ** Holds and retries *)

Definition release_hold (id reason : string) : storeM IntakeReservation :=
  do? sraise_if (bool_decide (reason = "")) (intake_error "hold release requires an operator reason") ;;
  do? transaction (
    let? row := get_reservation id in
    do? sraise_if (negb (bool_decide (iv_status row ∈ ["held"; "no_decision"]))) (intake_error "only held intake may be released") ;;
    do? sraise_if (bool_decide (iv_reason row = _SCHEMA3_MIGRATION_HOLD_REASON))
          (intake_error "legacy single-PASS settlement requires explicit archival migration") ;;
    let? reproductions := reading (λ db, Ok (length (qualifications_of db id))) in
    let publishable := negb (bool_decide (iv_publication_digest row = "")) in
    let status := if (reproductions =? 1)%nat then "reproduction_pending" else if publishable then "published" else "transport_retry" in
    let attempts := if publishable then iv_transport_attempts row else 0 in
    writing (update_row id (λ r, with_qualification no_qualification (with_retry ("", 0) (with_attempts attempts
      (with_verdict {| vd_status := status; vd_decision := ""; vd_reason := reason |} r)))))) ;;
  get_reservation id.

Definition requeue_qualification (id reason retry_group_digest : string) (retry_position : pyval) : storeM IntakeReservation :=
  do? sraise_if (bool_decide (reason = "")) (intake_error "qualification requeue requires a reason") ;;
  do? lift (require_sha256_hex (PStr retry_group_digest)) ;;
  let? position := lift (nonneg_int (intake_error "qualification retry position is malformed") retry_position) in
  do? transaction (
    let? row := get_reservation id in
    do? sraise_if (negb (bool_decide (iv_status row = "no_decision"))) (intake_error "only a retained NO_DECISION may be requeued") ;;
    let? attempts := reading (λ db, Ok (Z.of_nat (length (dispositions_of db id)))) in
    let? retained := reading (λ db, Ok (length (qualifications_of db id))) in
    let retry_status := if (retained =? 1)%nat then "reproduction_pending" else "published" in
    let status := if attempts <? ip_max_qualification_retries policy then retry_status else "held" in
    do? lift (sql_int position) ;;
    writing (update_row id (λ r, with_qualification no_qualification (with_retry (retry_group_digest, position)
      (with_verdict {| vd_status := status; vd_decision := ""; vd_reason := reason |} r))))) ;;
  get_reservation id.
End admission.

(** ** Finalized intake: qualification and evaluation stacks

    [mark_qualifying], [mark_outcome], the retained dispositions, the evaluation
    stacks and [apply_qualification_batch] of [FinalizedIntakeStore]. *)

(** ** Texts and paths *)

(** [json.dumps(value, separators=(",", ":"), sort_keys=True)]: the text of
    [json_dumps] with every character outside [ -~] escaped. *)
Definition ascii_char (c : ascii) : string :=
  let n := code c in
  if n <? 127 then String c "" else "\u00" +:+ String (hex_digit (n / 16)) (String (hex_digit (n mod 16)) "").

Definition ascii_dumps (j : json) : string := join "" (ascii_char <$> chars (json_dumps j)).

Fixpoint split_on (sep : ascii) (l : list ascii) : list string :=
  match l with
  | [] => [""]
  | c :: l =>
      if Ascii.eqb c sep then "" :: split_on sep l
      else match split_on sep l with
           | part :: parts => String c part :: parts
           | [] => [String c ""]
           end
  end.

(** A POSIX [Path]: its root and its parts. *)
Definition path_root (s : string) : string :=
  match chars s with
  | "/"%char :: "/"%char :: "/"%char :: _ => "/"
  | "/"%char :: "/"%char :: _ => "//"
  | "/"%char :: _ => "/"
  | _ => ""
  end.

Definition path_parts (s : string) : list string :=
  filter (λ part, part ≠ "" ∧ part ≠ ".") (split_on "/" (chars s)).

(** [str(Path(s))] *)
Definition path_str (s : string) : string :=
  let text := path_root s +:+ join "/" (path_parts s) in if bool_decide (text = "") then "." else text.

(** The parts of [os.path.normpath]. *)
Definition norm_part (absolute : bool) (acc : list string) (part : string) : list string :=
  if negb (bool_decide (part = "..")) || (negb absolute && is_nil acc) || bool_decide (last acc = Some "..")
  then acc ++ [part] else removelast acc.

(** [root.is_absolute() and root == Path(os.path.normpath(root))] *)
Definition is_canonical_root (s : string) : bool :=
  negb (bool_decide (path_root s = ""))
  && bool_decide (foldl (norm_part (negb (bool_decide (path_root s = "")))) [] (path_parts s) = path_parts s).

(** The exceptions that [except ValueError] catches. *)
Definition VALUE_ERRORS : list exn_class :=
  [StackIdentityError; OtherValueError; FiniteDebtError; IncentiveCompositionError; EconomicsError; StackManifestError;
   TargetCatalogError; TargetResolutionError; ArtifactProviderPolicyError; StackPlanError; StaleStackPlanError; SettlementError;
   EvidenceStoreError; SessionProtocolError; ArenaServiceError; QualificationIntakeError].

(** ** Evaluation stacks *)

Record EvaluationStackState := {
  ev_arena_digest : string;
  ev_generation : Z;
  ev_manifest : EvaluationStackManifest;
  ev_tree_digest : string;
  ev_transition_event_id : string
}.

Definition EvaluationStackState_init (arena_digest : string) (generation : Z) (manifest : EvaluationStackManifest)
    (tree_digest transition_event_id : string) : result EvaluationStackState :=
  do! require_sha256_hex (PStr arena_digest) ;;
  do! require_sha256_hex (PStr tree_digest) ;;
  do! require_sha256_hex (PStr transition_event_id) ;;
  do! raise_if ((generation <? 0) || negb (bool_decide (es_arena_digest manifest = arena_digest)))
        (intake_error "evaluation stack state is malformed") ;;
  Ok {| ev_arena_digest := arena_digest; ev_generation := generation; ev_manifest := manifest; ev_tree_digest := tree_digest;
        ev_transition_event_id := transition_event_id |}.

Definition find_stack (db : Database) (arena : string) : option StackRow :=
  List.find (λ s, bool_decide (sk_arena_id s = arena)) (db_stacks db).

Section qualify.
Context {sha : Sha256} (policy : IntakePolicy).

Definition EvaluationStackState_digest (s : EvaluationStackState) : string :=
  digest_of "optima.chain.evaluation-stack-state" (py_dict [
    ("arena_digest", PStr (ev_arena_digest s));
    ("generation", PInt (ev_generation s));
    ("stack_digest", PStr (EvaluationStackManifest_digest (ev_manifest s)));
    ("tree_digest", PStr (ev_tree_digest s));
    ("transition_event_id", PStr (ev_transition_event_id s))]).

(** Two stored JSON texts are equal when their sorted texts are. *)
Definition same_text (a : option pyval) (b : pyval) : bool :=
  match a with None => false | Some a => bool_decide (canonical_json_bytes a = canonical_json_bytes b) end.

Definition _initialize_evaluation_stack_row (manifest : EvaluationStackManifest) (tree_digest : string) : storeM unit :=
  do? lift (require_sha256_hex (PStr tree_digest)) ;;
  let arena := es_arena_digest manifest in
  let digest := EvaluationStackManifest_digest manifest in
  let genesis := digest_of "optima.chain.evaluation-stack-genesis" (py_dict [
    ("arena_digest", PStr arena); ("stack_digest", PStr digest); ("tree_digest", PStr tree_digest)]) in
  let? existing := reading (λ db, Ok (find_stack db arena)) in
  match existing with
  | None =>
      writing (λ db, set_stacks (db_stacks db ++ [
        {| sk_arena_id := arena; sk_generation := 0; sk_stack_digest := digest; sk_tree_digest := tree_digest;
           sk_stack_json := Some (EvaluationStackManifest_to_dict manifest); sk_transition_event_id := genesis |}]) db)
  | Some row =>
      sraise_if ((sk_generation row =? 0)
                 && (negb (bool_decide (sk_stack_digest row = digest)) || negb (bool_decide (sk_tree_digest row = tree_digest))
                     || negb (same_text (sk_stack_json row) (EvaluationStackManifest_to_dict manifest))))
        (intake_error "genesis qualification names another incumbent")
  end.

Definition evaluation_stack (arena_digest : string) : storeM EvaluationStackState :=
  do? lift (require_sha256_hex (PStr arena_digest)) ;;
  reading (λ db,
    match find_stack db arena_digest with
    | None => Raise (intake_error "evaluation stack is not initialized")
    | Some row =>
        let! manifest := decode VALUE_ERRORS "evaluation stack state is corrupt" EvaluationStackManifest_from_dict (sk_stack_json row) in
        do! raise_if (negb (bool_decide (EvaluationStackManifest_digest manifest = sk_stack_digest row)))
              (intake_error "evaluation stack digest differs from stored bytes") ;;
        EvaluationStackState_init (sk_arena_id row) (sk_generation row) manifest (sk_tree_digest row) (sk_transition_event_id row)
    end).

Definition initialize_evaluation_stack (manifest : EvaluationStackManifest) (tree_digest : string) : storeM EvaluationStackState :=
  do? transaction (_initialize_evaluation_stack_row manifest tree_digest) ;;
  let? state := evaluation_stack (es_arena_digest manifest) in
  do? sraise_if (negb (bool_decide (EvaluationStackManifest_digest (ev_manifest state) = EvaluationStackManifest_digest manifest))
                 || negb (bool_decide (ev_tree_digest state = tree_digest)))
        (intake_error "evaluation stack is already initialized differently") ;;
  lift (Ok state).

(** [SELECT arena_id ... ORDER BY arena_id] *)
Definition evaluation_stacks : storeM (list EvaluationStackState) :=
  let? arenas := reading (λ db, Ok (sorted_str (sk_arena_id <$> db_stacks db))) in
  smapM evaluation_stack arenas.

(** ** Entering qualification *)

(** The manifest is a JSON object given by its rows. *)
Definition mark_qualifying (id authority_digest : string) (authority_manifest : list (string * json)) : storeM IntakeReservation :=
  do? lift (require_sha256_hex (PStr authority_digest)) ;;
  do? sraise_if (is_nil authority_manifest) (intake_error "qualification authority manifest is not a closed object") ;;
  do? sraise_if (Z.shiftl 1 20 <? str_len (ascii_dumps (JObject authority_manifest)))
        (intake_error "qualification authority manifest is oversized") ;;
  do? transaction (
    let? row := get_reservation id in
    do? sraise_if (negb (bool_decide (iv_status row = "promoted")) || negb (bool_decide (iv_screen_status row = "promote")))
          (intake_error "only screen-promoted intake may enter qualification") ;;
    writing (update_row id (λ r,
      with_qualification {| qc_authority_digest := authority_digest; qc_authority_json := Some (JObject authority_manifest);
                            qc_evidence_digest := qc_evidence_digest (rv_qualification r) |}
        (with_verdict {| vd_status := "qualifying"; vd_decision := ""; vd_reason := "" |} r)))) ;;
  get_reservation id.

(** The stored authority text of a reservation. *)
Definition authority_json_of (id : string) : storeM (option json) :=
  reading (λ db, match find_row db id with
                 | Some r => Ok (qc_authority_json (rv_qualification r))
                 | None => Raise (intake_error "unknown intake reservation")
                 end).

Definition attempt_json (ref : option EvidenceArtifactRef) : option pyval := EvidenceArtifactRef_to_dict <$> ref.

(** ** Outcomes without settlement authority *)

Definition mark_outcome (id decision : string) (attempt_ref : option EvidenceArtifactRef)
    (report_digest failure_digest reason : string) : storeM IntakeReservation :=
  let has_report := negb (bool_decide (report_digest = "")) in
  let has_failure := negb (bool_decide (failure_digest = "")) in
  do? sraise_if (negb (bool_decide (decision ∈ ["PASS"; "FAIL"; "NO_DECISION"]))) (intake_error "qualification decision is unsupported") ;;
  do? sraise_if (bool_decide (decision = "PASS"))
        (intake_error "PASS requires a typed settlement qualification and reproduction gate") ;;
  let report_based := is_some attempt_ref || has_report in
  do? sraise_if (report_based && (negb (is_some attempt_ref) || negb has_report)) (intake_error "qualification report evidence is incomplete") ;;
  do? lift (if has_report then do! require_sha256_hex (PStr report_digest) ;; Ok tt else Ok tt) ;;
  do? lift (if has_failure then do! require_sha256_hex (PStr failure_digest) ;; Ok tt else Ok tt) ;;
  do? (if bool_decide (decision = "NO_DECISION")
       then sraise_if (Bool.eqb report_based has_failure) (intake_error "NO_DECISION requires one report or failure product")
       else sraise_if (negb report_based || has_failure) (intake_error "PASS/FAIL requires a retained attempt and report")) ;;
  let evidence_digest := match attempt_ref with Some ref => ea_sha256 ref | None => failure_digest end in
  let status := if bool_decide (decision = "FAIL") then "failed" else "no_decision" in
  do? transaction (
    let? row := get_reservation id in
    let? authority_json := authority_json_of id in
    do? sraise_if (negb (bool_decide (iv_status row = "qualifying"))
                   || bool_decide (iv_qualification_authority_digest row = "") || negb (is_some authority_json))
          (intake_error "qualification outcome lacks an active authority") ;;
    let? attempt := reading (λ db, Ok (Z.of_nat (length (dispositions_of db id)))) in
    do? insert_disposition
          {| dn_reservation_id := id; dn_attempt_index := attempt; dn_authority_digest := iv_qualification_authority_digest row;
             dn_authority_manifest_json := authority_json; dn_evidence_digest := evidence_digest;
             dn_attempt_ref_json := attempt_json attempt_ref; dn_report_digest := report_digest;
             dn_failure_digest := failure_digest; dn_decision := decision; dn_reason := reason |} ;;
    writing (update_row id (λ r, with_evidence evidence_digest
      (with_verdict {| vd_status := status; vd_decision := decision; vd_reason := reason |} r)))) ;;
  get_reservation id.

(** [ORDER BY attempt_index] *)
Definition attempt_le (a b : DispositionRow) : Prop := dn_attempt_index a ≤ dn_attempt_index b.

#[local] Instance attempt_le_dec a b : Decision (attempt_le a b).
Proof. unfold attempt_le. apply _. Defined.

Definition qualification_dispositions (id : string) : storeM (list DispositionRow) :=
  do? get_reservation id ;;
  reading (λ db, Ok (stable_sort attempt_le (dispositions_of db id))).

(** ** Batches *)

(** The retry groups of a batch: digest, position and reason of every reservation
    of its plan, whose reservations are distinct. *)
Definition retry_entries (batch : QualificationIntakeBatch) : list (string * (string * Z * string)) :=
  match qb_retry_plan batch with
  | None => []
  | Some plan =>
      mjoin (imap (λ group_index group,
        let digest := digest_of "optima.chain.qualification-retry-group" (py_dict [
          ("authority_manifest_digest", PStr (qb_authority_manifest_digest batch));
          ("group_index", PInt (Z.of_nat group_index));
          ("members", py_strs group);
          ("strategy", PStr (rp_strategy plan))]) in
        imap (λ position id, (id, (digest, Z.of_nat position, "qualification_" +:+ rp_strategy plan))) group)
        (rp_reservation_groups plan))
  end.

(** A qualification that is not the retained PASS of its reservation. *)
Definition qualification_differs (batch : QualificationIntakeBatch) (row : IntakeReservation)
    (fingerprint : SubmittedDeltaFingerprint) (outcome : QualificationIntakeOutcome) (evidence : string)
    (q : SettlementQualification) : bool :=
  let a := iv_arrival row in
  negb (bool_decide (sq_reservation_digest q = qo_reservation_digest outcome))
  || negb (bool_decide (sq_hotkey q = fa_hotkey a))
  || negb (bool_decide ((sq_finalized_block q, sq_event_index q, sq_event_subindex q)
                        = (fa_block a, fa_event_index a, fa_event_subindex a)))
  || negb (bool_decide (sq_target_id q = iv_target_id row))
  || negb (bool_decide (sq_members q = iv_target_members row))
  || negb (bool_decide (sq_selected_delta_digest q = fp_selected_delta_digest fingerprint))
  || negb (bool_decide (sq_qualification_authority_digest q = qb_authority_manifest_digest batch))
  || negb (bool_decide (sq_qualification_attempt_digest q = evidence))
  || negb (bool_decide (Some (sq_qualification_report_digest q) = qo_report_digest outcome)).

(** The primary qualification with the candidate it makes with a reproduction. *)
Definition reproduced (q : SettlementQualification) (v : pyval) : result (SettlementQualification * SettlementCandidate) :=
  let! primary := SettlementQualification_from_dict v in
  let! candidate := from_reproductions primary q in
  Ok (primary, candidate).

Definition qualification_row_of (id : string) (index current_finalized_block : Z) (attempt_json : option pyval) (root : string)
    (q : SettlementQualification) : QualificationRow :=
  {| ql_reservation_id := id; ql_reproduction_index := index; ql_qualification_digest := SettlementQualification_digest q;
     ql_qualification_json := Some (SettlementQualification_to_dict q); ql_attempt_ref_json := attempt_json;
     ql_evidence_root := root; ql_retained_block := current_finalized_block |}.

Definition candidate_row_of (id root : string) (primary_row : QualificationRow) (primary : SettlementQualification)
    (candidate : SettlementCandidate) : CandidateRow :=
  {| ca_reservation_id := id; ca_authority_digest := sq_qualification_authority_digest primary;
     ca_candidate_digest := SettlementCandidate_digest candidate;
     ca_candidate_json := Some (Some (SettlementCandidate_to_dict candidate));
     ca_evidence_root := ql_evidence_root primary_row; ca_reproduction_evidence_root := root;
     ca_settlement_evidence_digest := ""; ca_status := "pending"; ca_lease_id := ""; ca_lease_generation := 0;
     ca_lease_expires_block := 0; ca_reason := "" |}.

(** One retained PASS: the qualification, and after its reproduction the candidate. *)
Definition retain_pass (batch : QualificationIntakeBatch) (current_finalized_block : Z) (root : option string)
    (row : IntakeReservation) (fingerprint : SubmittedDeltaFingerprint) (outcome : QualificationIntakeOutcome)
    (attempt_ref : option EvidenceArtifactRef) (evidence : string) (q : SettlementQualification) : storeM unit :=
  let id := qo_reservation_digest outcome in
  do? sraise_if (qualification_differs batch row fingerprint outcome evidence q)
        (intake_error "settlement qualification differs from retained PASS") ;;
  do? evaluation_stack (sq_arena_digest q) ;;
  match attempt_ref, root with
  | Some _, Some root =>
      let? retained := reading (λ db, Ok (qualifications_of db id)) in
      let expected_lane := if is_nil retained then "primary" else "reproduction" in
      do? sraise_if (negb (bool_decide (iv_screen_lane row = expected_lane)) || (1 <? length retained)%nat)
            (intake_error "qualification PASS used the wrong reproduction lane") ;;
      do? insert_qualification (qualification_row_of id (Z.of_nat (length retained)) current_finalized_block
                                  (attempt_json attempt_ref) root q) ;;
      match retained with
      | [first] =>
          let? both := lift (decode VALUE_ERRORS "independent reproduction is inconsistent" (reproduced q) (ql_qualification_json first)) in
          do? sraise_if (negb (bool_decide (SettlementQualification_digest both.1 = ql_qualification_digest first)))
                (intake_error "primary settlement qualification is corrupt") ;;
          insert_candidate (candidate_row_of id root first both.1 both.2)
      | _ => lift (Ok tt)
      end
  | _, _ => lift (Raise (intake_error "retained PASS evidence is incomplete"))
  end.

(** The columns of a finished attempt: the authority is spent. *)
Definition spent (evidence : string) : QualificationColumns :=
  {| qc_authority_digest := ""; qc_authority_json := None; qc_evidence_digest := evidence |}.

(** The verdict of a reservation that goes back to the queue after [attempt]. *)
Definition retry_verdict (lane : string) (attempt : Z) (reason : string) : Verdict :=
  if attempt + 1 <? ip_max_qualification_retries policy
  then {| vd_status := if bool_decide (lane = "reproduction") then "reproduction_pending" else "published"; vd_decision := "";
          vd_reason := reason |}
  else {| vd_status := "held"; vd_decision := "NO_DECISION"; vd_reason := reason |}.

(** The verdict of a decided reservation with [completed] retained passes. *)
Definition decided_verdict (outcome : QualificationIntakeOutcome) (completed : nat) : Verdict :=
  match qo_decision outcome with
  | DPass =>
      if (completed =? 2)%nat then {| vd_status := "qualified"; vd_decision := "PASS"; vd_reason := qo_reason outcome |}
      else {| vd_status := "reproduction_pending"; vd_decision := ""; vd_reason := "reproduction_pending" |}
  | d => {| vd_status := "failed"; vd_decision := decision_value d; vd_reason := qo_reason outcome |}
  end.

Definition apply_outcome (batch : QualificationIntakeBatch) (current_finalized_block : Z) (root : option string)
    (outcome : QualificationIntakeOutcome) : storeM unit :=
  let id := qo_reservation_digest outcome in
  let differs := intake_error "qualification batch differs from active authority" in
  let? row := get_reservation id in
  do? sraise_if (negb (bool_decide (iv_status row = "qualifying"))
                 || negb (bool_decide (iv_qualification_authority_digest row = qb_authority_manifest_digest batch))) differs ;;
  match iv_delta_fingerprint row with
  | None => lift (Raise differs)
  | Some fingerprint =>
      do? sraise_if (negb (bool_decide (fp_selected_delta_digest fingerprint = qo_selected_delta_digest outcome))) differs ;;
      let? authority_json := authority_json_of id in
      let attempt_ref := if is_some (qo_attempt_artifact_sha256 outcome) then qb_attempt_ref batch else None in
      let evidence := match attempt_ref with Some ref => ea_sha256 ref | None => default "" (qo_failure_digest outcome) end in
      let? attempt := reading (λ db, Ok (Z.of_nat (length (dispositions_of db id)))) in
      do? insert_disposition
            {| dn_reservation_id := id; dn_attempt_index := attempt; dn_authority_digest := qb_authority_manifest_digest batch;
               dn_authority_manifest_json := authority_json; dn_evidence_digest := evidence;
               dn_attempt_ref_json := attempt_json attempt_ref; dn_report_digest := default "" (qo_report_digest outcome);
               dn_failure_digest := default "" (qo_failure_digest outcome);
               dn_decision := decision_value (qo_decision outcome); dn_reason := qo_reason outcome |} ;;
      do? match qo_settlement_qualification outcome with
          | None => lift (Ok tt)
          | Some q => retain_pass batch current_finalized_block root row fingerprint outcome attempt_ref evidence q
          end ;;
      match assoc (retry_entries batch) id with
      | Some (group, position, reason) =>
          writing (update_row id (λ r, with_qualification no_qualification (with_retry (group, position)
            (with_verdict (retry_verdict (iv_screen_lane row) attempt reason) r))))
      | None =>
          let? completed := reading (λ db, Ok (length (qualifications_of db id))) in
          writing (update_row id (λ r, with_qualification (spent evidence) (with_retry ("", 0)
            (with_verdict (decided_verdict outcome completed) r))))
      end
  end.

Definition is_pass (outcome : QualificationIntakeOutcome) : bool := bool_decide (qo_decision outcome = DPass).

Definition behind (cursor : option (Z * string)) (block : Z) : bool :=
  match cursor with None => false | Some (b, _) => block <? b end.

Definition apply_qualification_batch (batch : QualificationIntakeBatch) (current_finalized_block : pyval)
    (evidence_root : option string) : storeM (list IntakeReservation) :=
  let unfinalized := intake_error "qualification progress block is not finalized" in
  let? cursor := _cursor in
  let? current := lift (nonneg_int unfinalized current_finalized_block) in
  do? sraise_if (behind cursor current) unfinalized ;;
  do? sraise_if (existsb (λ o, is_pass o && negb (is_some (qo_settlement_qualification o))) (qb_outcomes batch))
        (intake_error "PASS qualification lacks a settlement projection qualification") ;;
  do? sraise_if (existsb is_pass (qb_outcomes batch)
                 && match evidence_root with None => true | Some root => negb (is_canonical_root root) end)
        (intake_error "PASS qualification lacks a canonical evidence root") ;;
  do? transaction (smapM (apply_outcome batch current (path_str <$> evidence_root)) (qb_outcomes batch)) ;;
  smapM get_reservation (qo_reservation_digest <$> qb_outcomes batch).
End qualify.
