(* ===== verification/IntakeInvariant.v ===== *)
(** * The invariant of the intake store

    What a valid row reads as, the legal moves of a reservation, what its status
    says of its columns and of the logs, the bounds on admissions, and the
    relation between a store and a later one: rows are kept and move along legal edges only, logs grow at the
    end, the cursor advances. *)

From Stdlib Require Import ZArith Lia Ascii.
From stdpp Require Import base tactics numbers list strings gmap sorting relations.
From S2P Require Import Prelude PyValue Sha256 Identity Strict Provider Stack Release StackPlan Settlement SettlementPlan.
From S2P Require Import SettlementFacts Publication Journal PublicationSystem Fingerprint QualificationBatch Arena IntakeData Intake.
From S2P Require Import IntakeAdmission.

(** ** Reservation rows: what a valid row reads as

    [row_valid] states the checks of [_row] on the columns themselves, [view] is
    the reservation a valid row reads as, and the orders of the queries. *)

(** ** The order of arrivals *)

#[global] Instance key_lt_trans : Transitive key_lt.
Proof.
  intros [a1 a2] [b1 b2] [c1 c2]. unfold key_lt. cbn. intros [[Hn H]|(-> & Hn & H)] [[Hm K]|(-> & Hm & K)].
  - left. split; [|by etrans]. intros ->. apply Hn. by apply (anti_symm order_le).
  - by left.
  - by left.
  - right. split_and!; [done| |by etrans]. intros ->. apply Hn. by apply (anti_symm String.le).
Qed.

Lemma key_lt_irrefl a : ¬ key_lt a a.
Proof. unfold key_lt. naive_solver. Qed.

Lemma key_lt_total a b : key_lt a b ∨ a = b ∨ key_lt b a.
Proof.
  destruct a as [a1 a2], b as [b1 b2]. unfold key_lt. cbn. destruct (decide (a1 = b1)) as [->|Hn].
  - destruct (decide (a2 = b2)) as [->|Hm]; [by right; left|]. destruct (total String.le a2 b2); [left|right; right]; right; auto.
  - destruct (total order_le a1 b1); [left|right; right]; left; auto.
Qed.

#[global] Instance arrival_le_trans : Transitive arrival_le.
Proof. intros a b c [->|H] [->|K]; unfold arrival_le; try tauto. right. by etrans. Qed.

#[global] Instance arrival_le_total : Total arrival_le.
Proof. intros a b. unfold arrival_le. destruct (key_lt_total a b) as [?|[->|?]]; tauto. Qed.

#[global] Instance row_le_trans : Transitive row_le.
Proof. intros a b c. unfold row_le. apply arrival_le_trans. Qed.

#[global] Instance row_le_total : Total row_le.
Proof. intros a b. unfold row_le. apply arrival_le_total. Qed.

Lemma in_order_perm rows : in_order rows ≡ₚ rows.
Proof. apply stable_sort_perm. Qed.

Lemma in_order_sorted rows : StronglySorted row_le (in_order rows).
Proof. apply (stable_sort_sorted _). Qed.

Lemma elem_of_in_order r rows : r ∈ in_order rows ↔ r ∈ rows.
Proof. by rewrite in_order_perm. Qed.

(** ** Valid rows *)

Section rows.
Context {sha : Sha256}.

(** An arrival that passed its own checks. *)
Definition arrival_ok (a : FinalizedArrival) : Prop :=
  FinalizedArrival_init (PStr (fa_hotkey a)) (PStr (fa_content_hash a)) (PStr (fa_url a)) (PInt (fa_block a))
    (PStr (fa_block_hash a)) (PInt (fa_event_index a)) (PInt (fa_event_subindex a)) (PStr (fa_payload_digest a))
    (PStr (fa_invalid_reason a)) = Ok a.

#[global] Instance arrival_ok_dec a : Decision (arrival_ok a).
Proof. unfold arrival_ok. apply _. Defined.

Lemma arrival_ok_block a : arrival_ok a → 0 ≤ fa_block a.
Proof.
  unfold arrival_ok, FinalizedArrival_init. intros Ha. apply bind_Ok in Ha as (? & _ & Ha). case_match; [|done].
  destruct p as [[? ?] ?]. apply bind_Ok in Ha as (b & Hb & _). unfold nonneg_int in Hb. destruct (Z.ltb_spec (fa_block a) 0); [done|lia].
Qed.

Definition optional_hash (s : string) : Prop := s = "" ∨ is_hex64 s = true.

(** Publication columns: their defaults, or what [mark_published] writes. *)
Definition publication_ok (p : PublicationColumns) : Prop :=
  p = unpublished ∨ ∃ f d root, fingerprint_ok f ∧ is_hex64 d = true ∧ p = publication_columns f d root.

Record row_valid (r : ReservationRow) : Prop := {
  valid_id : rv_id r = reservation_id (rv_arrival r);
  valid_arrival : arrival_ok (rv_arrival r);
  valid_epoch : 0 ≤ rv_admission_epoch r;
  valid_status : rv_status r ∈ _STATUSES;
  valid_publication : publication_ok (rv_publication r);
  valid_attempts : 0 ≤ rv_transport_attempts r;
  valid_authority : optional_hash (qc_authority_digest (rv_qualification r));
  valid_evidence : optional_hash (qc_evidence_digest (rv_qualification r));
  valid_service : optional_hash (sn_service_digest (rv_screen r));
  valid_decision : vd_decision (rv_verdict r) ∈ [""; "PASS"; "FAIL"; "NO_DECISION"];
  valid_lane : sn_lane (rv_screen r) ∈ [""; "primary"; "reproduction"];
  valid_screen : sn_status (rv_screen r) ∈ [""; "running"; "promote"; "reject"; "retry"; "hold"];
  valid_counts : 0 ≤ sn_stage_count (rv_screen r) ∧ 0 ≤ sn_attempts (rv_screen r)
}.

(** The stored fingerprint and members. *)
Definition row_fingerprint (r : ReservationRow) : option SubmittedDeltaFingerprint :=
  match fingerprint_of_column (pc_delta_fingerprint_json (rv_publication r)) with Ok f => f | Raise _ => None end.

Definition row_members (r : ReservationRow) : list string :=
  match members_of_column (pc_target_members_json (rv_publication r)) with Ok l => l | Raise _ => [] end.

(** What a valid row reads as. *)
Definition view (r : ReservationRow) : IntakeReservation :=
  {| iv_reservation_id := rv_id r; iv_arrival := rv_arrival r; iv_admission_epoch := rv_admission_epoch r;
     iv_status := rv_status r; iv_target_id := pc_target_id (rv_publication r); iv_target_members := row_members r;
     iv_delta_fingerprint := row_fingerprint r; iv_transport_attempts := rv_transport_attempts r;
     iv_publication_digest := pc_publication_digest (rv_publication r);
     iv_publication_root := pc_publication_root (rv_publication r);
     iv_qualification_authority_digest := qc_authority_digest (rv_qualification r);
     iv_qualification_evidence_digest := qc_evidence_digest (rv_qualification r);
     iv_arena_service_digest := sn_service_digest (rv_screen r); iv_screen_lane := sn_lane (rv_screen r);
     iv_screen_status := sn_status (rv_screen r); iv_screen_stage_count := sn_stage_count (rv_screen r);
     iv_screen_attempts := sn_attempts (rv_screen r); iv_decision := vd_decision (rv_verdict r);
     iv_reason := vd_reason (rv_verdict r) |}.

Lemma unpublished_columns_read :
  members_of_column (pc_target_members_json unpublished) = Ok []
  ∧ fingerprint_of_column (pc_delta_fingerprint_json unpublished) = Ok None.
Proof. done. Qed.

Lemma published_columns_read f d root :
  fingerprint_ok f →
  members_of_column (pc_target_members_json (publication_columns f d root)) = Ok (fp_members f)
  ∧ fingerprint_of_column (pc_delta_fingerprint_json (publication_columns f d root)) = Ok (Some f).
Proof.
  intros Hf. cbn -[SubmittedDeltaFingerprint_from_dict SubmittedDeltaFingerprint_to_dict str_tuple py_strs].
  unfold members_of_column, decode. rewrite str_tuple_strs, (fingerprint_dict_roundtrip f Hf). done.
Qed.

Lemma row_fingerprint_published r f d root :
  fingerprint_ok f → rv_publication r = publication_columns f d root → row_fingerprint r = Some f ∧ row_members r = fp_members f.
Proof.
  intros Hf Hp. unfold row_fingerprint, row_members. rewrite Hp. destruct (published_columns_read f d root Hf) as [-> ->]. done.
Qed.

Lemma row_fingerprint_unpublished r : rv_publication r = unpublished → row_fingerprint r = None ∧ row_members r = [].
Proof. intros Hp. unfold row_fingerprint, row_members. by rewrite Hp. Qed.

Lemma optional_hash_bad s : optional_hash s → bad_optional_hash s = false.
Proof. unfold bad_optional_hash. intros [->| ->]; [done|]. by rewrite andb_comm. Qed.

Lemma reservation_id_hex a : is_hex64 (reservation_id a) = true.
Proof. by apply digest_of_is_hex64. Qed.

Lemma sorted_set_empty : is_canonical_set [] = true.
Proof. by apply bool_decide_eq_true_2. Qed.

(** The reader accepts a valid row, and its checks are no weaker. *)
Lemma view_check r : row_valid r → IntakeReservation_check (view r) = Ok (view r).
Proof.
  intros [Hid Ha He Hs Hp Ht Hau Hev Hsv Hd Hl Hsc [Hc1 Hc2]]. unfold IntakeReservation_check. cbn [iv_reservation_id view].
  rewrite Hid, (hex_pass _ (reservation_id_hex _)). cbn [bind iv_arrival view]. do 3 (pass_guard; cbn [view iv_admission_epoch iv_status]).
  assert (is_canonical_set (row_members r) = true ∧ match row_fingerprint r with
    | None => True | Some f => fp_target_id f = pc_target_id (rv_publication r) ∧ fp_members f = row_members r end
    ∧ optional_hash (pc_publication_digest (rv_publication r))) as (Hm & Hf & Hpd).
  { destruct Hp as [Hp|(f & d & root & Hf & Hd' & Hp)].
    - destruct (row_fingerprint_unpublished r Hp) as [-> ->]. split_and!; [apply sorted_set_empty|done|rewrite Hp; by left].
    - destruct (row_fingerprint_published r f d root Hf Hp) as [-> ->]. rewrite Hp.
      split_and!; [by apply fingerprint_ok_inv in Hf as (_ & _ & ? & _)|done..|by right]. }
  cbn [view iv_target_members iv_delta_fingerprint iv_target_id]. rewrite Hm. cbn [negb raise_if bind].
  assert (match row_fingerprint r with
          | None => false
          | Some f => negb (bool_decide (fp_target_id f = pc_target_id (rv_publication r)))
                      || negb (bool_decide (fp_members f = row_members r))
          end = false) as ->. { destruct (row_fingerprint r); [|done]. destruct Hf. bool_goal. }
  cbn [raise_if bind view iv_transport_attempts iv_publication_digest iv_qualification_authority_digest
       iv_qualification_evidence_digest iv_arena_service_digest iv_decision iv_screen_lane iv_screen_status
       iv_screen_stage_count iv_screen_attempts].
  pass_guard. rewrite !optional_hash_bad by done. cbn [raise_if bind]. do 4 pass_guard. done.
Qed.

Lemma row_reads r : row_valid r → _row r = Ok (view r).
Proof.
  intros Hr. unfold _row. pose proof (view_check r Hr) as Hc. destruct Hr as [_ Ha _ _ Hp _ _ _ _ _ _ _ _].
  assert (members_of_column (pc_target_members_json (rv_publication r)) = Ok (row_members r)
          ∧ fingerprint_of_column (pc_delta_fingerprint_json (rv_publication r)) = Ok (row_fingerprint r)) as [-> ->].
  { unfold row_members, row_fingerprint. destruct Hp as [->|(f & d & root & Hf & _ & ->)]; [done|].
    destruct (published_columns_read f d root Hf) as [-> ->]. done. }
  cbn [bind]. rewrite Ha. cbn [bind]. exact Hc.
Qed.
End rows.

(** ** Policies *)

(** A policy that passed its own checks. *)
Definition policy_ok (p : IntakePolicy) : Prop :=
  IntakePolicy_init (PInt (ip_epoch_blocks p)) (PInt (ip_cutoff_blocks p)) (PInt (ip_max_pending p))
    (PInt (ip_max_per_hotkey_epoch p)) (PInt (ip_max_per_target_epoch p)) (PInt (ip_max_transport_retries p))
    (PInt (ip_max_qualification_retries p)) (PInt (ip_max_cohort p)) (PInt (ip_expiry_blocks p)) = Ok p.

Lemma policy_ok_bounds p :
  policy_ok p →
  0 < ip_cutoff_blocks p < ip_epoch_blocks p ∧ 0 < ip_max_pending p ∧ 0 < ip_max_per_hotkey_epoch p ∧ 0 < ip_max_per_target_epoch p
  ∧ 0 < ip_max_transport_retries p ∧ 0 < ip_max_qualification_retries p ∧ 0 < ip_max_cohort p ≤ ip_max_pending p ∧ 0 < ip_expiry_blocks p.
Proof.
  unfold policy_ok, IntakePolicy_init, policy_bound. intros Hp.
  repeat match type of Hp with
  | context [if ?z <=? 0 then _ else _] => destruct (Z.leb_spec z 0); [done|]; cbn [bind] in Hp
  end.
  apply bind_Ok in Hp as (? & Hcut & Hp). apply bind_Ok in Hp as (? & Hco & _). apply raise_if_Ok in Hcut, Hco. bool_prop. lia.
Qed.

(** ** Legal moves *)

(** The status graph; [failed] and [expired] have no successors. *)
Definition edges : list (string * string) := [
  ("reserved", "fetching"); ("reserved", "held"); ("reserved", "expired");
  ("fetching", "published"); ("fetching", "failed"); ("fetching", "transport_retry"); ("fetching", "held");
  ("transport_retry", "fetching"); ("transport_retry", "held"); ("transport_retry", "expired");
  ("published", "screening"); ("published", "failed"); ("published", "held"); ("published", "expired");
  ("screening", "promoted"); ("screening", "failed"); ("screening", "published"); ("screening", "reproduction_pending");
  ("screening", "held");
  ("promoted", "qualifying"); ("promoted", "held"); ("promoted", "expired"); ("promoted", "failed");
  ("qualifying", "failed"); ("qualifying", "no_decision"); ("qualifying", "published"); ("qualifying", "reproduction_pending");
  ("qualifying", "held"); ("qualifying", "qualified");
  ("reproduction_pending", "screening"); ("reproduction_pending", "held"); ("reproduction_pending", "expired");
  ("reproduction_pending", "failed");
  ("no_decision", "held"); ("no_decision", "published"); ("no_decision", "reproduction_pending"); ("no_decision", "expired");
  ("no_decision", "failed");
  ("held", "reproduction_pending"); ("held", "published"); ("held", "transport_retry"); ("held", "expired"); ("held", "failed");
  ("qualified", "failed")].

(** One move of a row: its arrival and epoch stay, its status follows an edge, and
    its publication is written once, by the end of the transport. *)
Definition row_edge (r r' : ReservationRow) : Prop :=
  rv_id r' = rv_id r ∧ rv_arrival r' = rv_arrival r ∧ rv_admission_epoch r' = rv_admission_epoch r
  ∧ (rv_status r, rv_status r') ∈ edges
  ∧ (rv_publication r' = rv_publication r ∨ (rv_publication r = unpublished ∧ rv_status r = "fetching")).

Definition alive (r : ReservationRow) : bool := negb (status_in ["failed"; "expired"] r).

Lemma edges_pending : Forall (λ e, e.2 ∈ PENDING → e.1 ∈ PENDING) edges.
Proof. apply (bool_decide_unpack _). by vm_compute. Qed.

Lemma edges_alive : Forall (λ e, e.1 ∉ ["failed"; "expired"]) edges.
Proof. apply (bool_decide_unpack _). by vm_compute. Qed.

Lemma edge_pending r r' : row_edge r r' → status_in PENDING r' = true → status_in PENDING r = true.
Proof.
  intros (_ & _ & _ & He & _) Hp. unfold status_in in *. apply bool_decide_eq_true in Hp. apply bool_decide_eq_true.
  exact (proj1 (Forall_forall _ _) edges_pending _ He Hp).
Qed.

Lemma edge_from_alive r r' : row_edge r r' → alive r = true.
Proof.
  intros (_ & _ & _ & He & _). unfold alive, status_in. apply negb_true_iff, bool_decide_eq_false.
  exact (proj1 (Forall_forall _ _) edges_alive _ He).
Qed.

(** ** Counting *)

Lemma count_where_cons {A} (p : A → bool) x l : count_where p (x :: l) = Z.b2z (p x) + count_where p l.
Proof. unfold count_where. cbn. destruct (p x); cbn [length Z.b2z]; lia. Qed.

Lemma count_where_nil {A} (p : A → bool) : count_where p [] = 0.
Proof. done. Qed.

Lemma count_where_app {A} (p : A → bool) l k : count_where p (l ++ k) = count_where p l + count_where p k.
Proof. unfold count_where. rewrite List.filter_app, length_app. lia. Qed.

Lemma count_where_nonneg {A} (p : A → bool) l : 0 ≤ count_where p l.
Proof. unfold count_where. lia. Qed.

Lemma count_where_map_le {A} (p q : A → bool) (g : A → A) l :
  (∀ x, x ∈ l → q (g x) = true → p x = true) → count_where q (g <$> l) ≤ count_where p l.
Proof.
  induction l as [|x l IH]; intros Hl; [done|]. rewrite fmap_cons, !count_where_cons.
  specialize (IH (λ y Hy, Hl y (list_elem_of_further _ _ _ Hy))). specialize (Hl x (list_elem_of_here _ _)).
  destruct (q (g x)); [rewrite Hl by done|destruct (p x)]; cbn; lia.
Qed.

Lemma count_where_map {A} (p q : A → bool) (g : A → A) l :
  (∀ x, x ∈ l → q (g x) = p x) → count_where q (g <$> l) = count_where p l.
Proof.
  induction l as [|x l IH]; intros Hl; [done|]. rewrite fmap_cons, !count_where_cons, (IH (λ y Hy, Hl y (list_elem_of_further _ _ _ Hy))).
  by rewrite (Hl x (list_elem_of_here _ _)).
Qed.

Definition alive_target_count (epoch : Z) (target : string) (rows : list ReservationRow) : Z :=
  count_where (λ r, alive r && (rv_admission_epoch r =? epoch) && bool_decide (pc_target_id (rv_publication r) = target)) rows.

Lemma alive_target_count_le epoch target rows : alive_target_count epoch target rows ≤ target_count epoch target rows.
Proof.
  unfold alive_target_count, target_count. rewrite <-(list_fmap_id rows) at 1. apply count_where_map_le.
  intros x _ Hx. unfold id in Hx. rewrite <-andb_assoc in Hx. by apply andb_true_iff in Hx as [_ Hx].
Qed.

(** ** What a status says *)

Definition retained (db : Database) (id : string) : nat := length (qualifications_of db id).

(** A row under evaluation has as many retained passes as its lane says. *)
Definition lane_ok (n : nat) (r : ReservationRow) : Prop :=
  (sn_lane (rv_screen r) = "primary" ∧ n = 0%nat) ∨ (sn_lane (rv_screen r) = "reproduction" ∧ n = 1%nat).

(** [stage max n k r s]: what status [s] says of row [r] with [n] retained passes
    and [k] screens, under a policy with [max] transport attempts. *)
Inductive stage (max : Z) (n k : nat) (r : ReservationRow) : string → Prop :=
  | stage_reserved : rv_publication r = unpublished → n = 0%nat → rv_transport_attempts r = 0 → stage max n k r "reserved"
  | stage_fetching : rv_publication r = unpublished → n = 0%nat → stage max n k r "fetching"
  | stage_transport_retry :
      rv_publication r = unpublished → n = 0%nat → rv_transport_attempts r < max → stage max n k r "transport_retry"
  | stage_published : rv_publication r ≠ unpublished → n = 0%nat → stage max n k r "published"
  | stage_screening :
      rv_publication r ≠ unpublished → lane_ok n r → sn_attempts (rv_screen r) = Z.of_nat k + 1 → stage max n k r "screening"
  | stage_promoted :
      rv_publication r ≠ unpublished → lane_ok n r → sn_status (rv_screen r) = "promote" → stage max n k r "promoted"
  | stage_qualifying :
      rv_publication r ≠ unpublished → lane_ok n r → qc_authority_digest (rv_qualification r) ≠ "" →
      is_some (qc_authority_json (rv_qualification r)) = true → stage max n k r "qualifying"
  | stage_reproduction : rv_publication r ≠ unpublished → n = 1%nat → stage max n k r "reproduction_pending"
  | stage_no_decision : rv_publication r ≠ unpublished → (n ≤ 1)%nat → stage max n k r "no_decision"
  | stage_held : (rv_publication r = unpublished → n = 0%nat) → (n ≤ 1)%nat → stage max n k r "held"
  | stage_qualified : rv_publication r ≠ unpublished → n = 2%nat → stage max n k r "qualified"
  | stage_failed : (n ≤ 2)%nat → stage max n k r "failed"
  | stage_expired : (n ≤ 1)%nat → stage max n k r "expired".

Section invariant.
Context {sha : Sha256} (policy : IntakePolicy).

Record row_ok (db : Database) (r : ReservationRow) : Prop := {
  ok_valid : row_valid r;
  ok_attempts : rv_transport_attempts r ≤ ip_max_transport_retries policy;
  ok_stage : stage (ip_max_transport_retries policy) (retained db (rv_id r)) (length (screens_of db (rv_id r))) r (rv_status r)
}.

(** ** The logs *)

(** Two retained passes, the second an independent reproduction of the first, and
    the candidate made of them. *)
Definition paired (db : Database) (id : string) : Prop :=
  ∃ q0 q1 v primary reproduction candidate c,
    qualifications_of db id = [q0; q1]
    ∧ ql_qualification_json q0 = Some v ∧ SettlementQualification_from_dict v = Ok primary
    ∧ SettlementQualification_digest primary = ql_qualification_digest q0
    ∧ ql_qualification_json q1 = Some (SettlementQualification_to_dict reproduction)
    ∧ SettlementQualification_digest reproduction = ql_qualification_digest q1
    ∧ from_reproductions primary reproduction = Ok candidate
    ∧ find_candidate db id = Some c
    ∧ ca_candidate_digest c = SettlementCandidate_digest candidate
    ∧ ca_candidate_json c = Some (Some (SettlementCandidate_to_dict candidate)).

Definition raw_qualifications (db : Database) (id : string) : list QualificationRow :=
  List.filter (λ q, bool_decide (ql_reservation_id q = id)) (db_qualifications db).

Record logs_ok (db : Database) : Prop := {
  log_dispositions : ∀ id, dn_attempt_index <$> dispositions_of db id = Z.of_nat <$> seq 0 (length (dispositions_of db id));
  log_screens : ∀ id, sd_attempt_index <$> screens_of db id = Z.of_nat <$> seq 0 (length (screens_of db id));
  log_qualifications :
    ∀ id, ql_reproduction_index <$> raw_qualifications db id = Z.of_nat <$> seq 0 (length (raw_qualifications db id));
  log_known_screens : ∀ s, s ∈ db_screens db → sd_reservation_id s ∈ rv_id <$> db_reservations db;
  log_known_qualifications : ∀ q, q ∈ db_qualifications db → ql_reservation_id q ∈ rv_id <$> db_reservations db;
  log_paired : ∀ id, retained db id = 2%nat → paired db id
}.

(** ** The invariant *)

Record inv (db : Database) : Prop := {
  inv_schema : db_schema db = Some "3";
  inv_ids : NoDup (rv_id <$> db_reservations db);
  inv_rows : ∀ r, r ∈ db_reservations db → row_ok db r;
  inv_pending : pending_count db ≤ ip_max_pending policy;
  inv_hotkeys : ∀ pre r post, db_reservations db = pre ++ r :: post → alive r = true →
    hotkey_count (rv_admission_epoch r) (fa_hotkey (rv_arrival r)) pre < ip_max_per_hotkey_epoch policy;
  inv_targets : ∀ epoch target, target ≠ "" →
    alive_target_count epoch target (db_reservations db) ≤ ip_max_per_target_epoch policy;
  inv_logs : logs_ok db;
  inv_cursor : ∃ c, read_cursor (db_cursor db) = Ok c
}.

(** ** Later stores *)

Definition cursor_advances (c c' : option (option pyval)) : Prop :=
  ∀ b h, read_cursor c = Ok (Some (b, h)) →
  ∃ b' h', read_cursor c' = Ok (Some (b', h')) ∧ (b < b' ∨ (b = b' ∧ h = h')).

(** What never changes of a candidate's row. *)
Definition candidate_core (c : CandidateRow) : string * string * option (option pyval) :=
  (ca_reservation_id c, ca_candidate_digest c, ca_candidate_json c).

Definition log_grows (db db' : Database) : Prop :=
  db_dispositions db `prefix_of` db_dispositions db'
  ∧ db_screens db `prefix_of` db_screens db'
  ∧ db_qualifications db `prefix_of` db_qualifications db'
  ∧ candidate_core <$> db_candidates db `prefix_of` candidate_core <$> db_candidates db'.

Definition rows_move (rows rows' : list ReservationRow) : Prop :=
  ∃ kept new, rows' = kept ++ new ∧ Forall2 (rtc row_edge) rows kept.

Definition evolves (db db' : Database) : Prop :=
  rows_move (db_reservations db) (db_reservations db') ∧ log_grows db db' ∧ cursor_advances (db_cursor db) (db_cursor db').

Definition good (db db' : Database) : Prop := inv db' ∧ evolves db db'.

#[global] Instance log_grows_refl : Reflexive log_grows.
Proof. intros db. by split_and!. Qed.

#[global] Instance log_grows_trans : Transitive log_grows.
Proof. intros a b c (A1 & A2 & A3 & A4) (B1 & B2 & B3 & B4). split_and!; by etrans. Qed.

#[global] Instance rows_move_refl : Reflexive rows_move.
Proof. intros rows. exists rows, []. split; [by rewrite app_nil_r|]. apply Forall2_same_length_lookup_2; [done|]. intros i x y Hx Hy. simplify_eq. done. Qed.

#[global] Instance rows_move_trans : Transitive rows_move.
Proof.
  intros a b c (k1 & n1 & -> & F1) (k2 & n2 & -> & F2). apply Forall2_app_inv_l in F2 as (k3 & k4 & F3 & F4 & ->).
  exists k3, (k4 ++ n2). split; [by rewrite app_assoc|]. by trans k1.
Qed.

#[global] Instance cursor_advances_refl : Reflexive cursor_advances.
Proof. intros c b h Hc. exists b, h. split; [done|by right]. Qed.

#[global] Instance cursor_advances_trans : Transitive cursor_advances.
Proof.
  intros c1 c2 c3 H1 H2 b h Hc. destruct (H1 b h Hc) as (b2 & h2 & Hc2 & Hl). destruct (H2 b2 h2 Hc2) as (b3 & h3 & Hc3 & Hm).
  exists b3, h3. split; [done|]. destruct Hl as [?|[-> ->]], Hm as [?|[-> ->]]; first [left; lia | by right].
Qed.

#[global] Instance evolves_refl : Reflexive evolves.
Proof. intros db. by split_and!. Qed.

#[global] Instance evolves_trans : Transitive evolves.
Proof. intros a b c (A1 & A2 & A3) (B1 & B2 & B3). split_and!; by etrans. Qed.

Lemma good_refl db : inv db → good db db.
Proof. by split. Qed.

Lemma good_trans a b c : good a b → good b c → good a c.
Proof. intros [_ H1] [H2 H3]. split; [done|by etrans]. Qed.
End invariant.
