(* ===== verification/IntakeLogic.v ===== *)
(** * Reasoning about store operations

    First, the moves of rows that keep the invariant.  Then the rules for programs.
    An operation is [atomic] on a store when it either raises and leaves the store
    as it was or returns and leaves a good successor; a transaction body is [safe]
    when it leaves a good successor if it returns.  The rules follow the shape of
    the operations: guards, reads, one transaction, one read of the result. *)

From Stdlib Require Import ZArith Lia Ascii.
From stdpp Require Import base tactics numbers list strings gmap sorting relations.
From S2P Require Import Prelude PyValue Sha256 Identity Strict Provider Stack Release StackPlan Settlement SettlementPlan.
From S2P Require Import SettlementFacts Publication Journal PublicationSystem Fingerprint QualificationBatch Arena IntakeData Intake.
From S2P Require Import IntakeAdmission IntakeInvariant.

(** ** Moves keep the invariant

    A store whose rows moved along legal edges, one of whose rows moved, or that
    got a new row, satisfies the invariant again and evolves from the old one. *)

(** ** Finding and updating rows *)

Lemma find_row_Some db id r : find_row db id = Some r → r ∈ db_reservations db ∧ rv_id r = id.
Proof.
  unfold find_row. intros Hf. apply List.find_some in Hf as [Hin Hid]. apply bool_decide_eq_true in Hid.
  split; [by apply list_elem_of_In|done].
Qed.

Lemma find_row_None db id : find_row db id = None ↔ id ∉ rv_id <$> db_reservations db.
Proof.
  unfold find_row. split.
  - intros Hf Hin. apply list_elem_of_fmap in Hin as (r & -> & Hr). apply list_elem_of_In in Hr.
    eapply List.find_none in Hf; [|exact Hr]. by apply bool_decide_eq_false in Hf.
  - intros Hin. destruct (List.find _ _) as [r|] eqn:Hf; [|done]. exfalso. apply Hin.
    destruct (find_row_Some db id r Hf) as [? <-]. by apply list_elem_of_fmap_2.
Qed.

Lemma find_row_elem db r : NoDup (rv_id <$> db_reservations db) → r ∈ db_reservations db → find_row db (rv_id r) = Some r.
Proof.
  intros Hnd Hr. destruct (find_row db (rv_id r)) as [x|] eqn:Hf.
  - destruct (find_row_Some _ _ _ Hf) as [Hx Hid]. f_equal. by eapply NoDup_fmap_inj_elem.
  - apply find_row_None in Hf. exfalso. by apply Hf, list_elem_of_fmap_2.
Qed.

Lemma find_row_map db db' g id :
  (∀ r, rv_id (g r) = rv_id r) → db_reservations db' = g <$> db_reservations db →
  find_row db' id = g <$> find_row db id.
Proof.
  intros Hg Hr. unfold find_row. rewrite Hr. clear Hr. induction (db_reservations db) as [|r rows IH]; [done|].
  rewrite fmap_cons. cbn [List.find]. rewrite Hg. case_bool_decide; [done|exact IH].
Qed.

(** The function a one-row update maps over the table. *)
Definition at_id (id : string) (r' : ReservationRow) (x : ReservationRow) : ReservationRow :=
  if bool_decide (rv_id x = id) then r' else x.

Lemma update_row_at db id f r :
  NoDup (rv_id <$> db_reservations db) → find_row db id = Some r →
  db_reservations (update_row id f db) = at_id id (f r) <$> db_reservations db.
Proof.
  intros Hnd Hf. apply find_row_Some in Hf as [Hr <-]. unfold update_row, at_id. cbn. apply list_fmap_ext. intros i x Hx.
  case_bool_decide as Hid; [|done]. f_equal. apply list_elem_of_lookup_2 in Hx. by eapply NoDup_fmap_inj_elem.
Qed.

Lemma at_id_other id r' (rows : list ReservationRow) : id ∉ rv_id <$> rows → at_id id r' <$> rows = rows.
Proof.
  intros Hid. induction rows as [|x rows IH]; [done|]. rewrite fmap_cons in *. apply not_elem_of_cons in Hid as [Hx Hid].
  unfold at_id at 1. rewrite bool_decide_eq_false_2 by done. by rewrite IH.
Qed.

Lemma at_id_split db id r r' :
  NoDup (rv_id <$> db_reservations db) → find_row db id = Some r →
  ∃ pre post, db_reservations db = pre ++ r :: post ∧ at_id id r' <$> db_reservations db = pre ++ r' :: post.
Proof.
  intros Hnd Hf. apply find_row_Some in Hf as [Hr <-]. apply list_elem_of_split in Hr as (pre & post & Hrows).
  exists pre, post. split; [done|]. rewrite Hrows, fmap_app, fmap_cons in Hnd. rewrite Hrows, fmap_app, fmap_cons.
  apply NoDup_app in Hnd as (_ & Hpre & Hpost). apply NoDup_cons in Hpost as [Hpost _].
  rewrite !at_id_other; [|done|intros Hin; apply (Hpre _ Hin); by left].
  unfold at_id. by rewrite bool_decide_eq_true_2.
Qed.

Section moves.
Context {sha : Sha256} (policy : IntakePolicy).

Abbreviation inv := (inv policy).
Abbreviation row_ok := (row_ok policy).
Abbreviation good := (good policy).

(** ** Every row moves or stays *)

Definition moves (r r' : ReservationRow) : Prop := r = r' ∨ row_edge r r'.

Lemma moves_identity r r' :
  moves r r' → rv_id r' = rv_id r ∧ rv_arrival r' = rv_arrival r ∧ rv_admission_epoch r' = rv_admission_epoch r.
Proof. intros [->|(? & ? & ? & _)]; done. Qed.

Lemma moves_alive r r' : moves r r' → alive r' = true → alive r = true.
Proof. intros [->|He]; [done|]. intros _. by eapply edge_from_alive. Qed.

Lemma moves_rtc r r' : moves r r' → rtc row_edge r r'.
Proof. intros [->|He]; [done|by apply rtc_once]. Qed.

Lemma good_map db db' g :
  inv db → db_reservations db' = g <$> db_reservations db →
  (∀ r, r ∈ db_reservations db → moves r (g r)) → (∀ r, r ∈ db_reservations db → row_ok db' (g r)) →
  (∀ epoch target, target ≠ "" → alive_target_count epoch target (db_reservations db') ≤ ip_max_per_target_epoch policy) →
  logs_ok db' → log_grows db db' → db_cursor db' = db_cursor db → db_schema db' = db_schema db → good db db'.
Proof.
  intros Hinv Hrows Hmove Hok Htargets Hlogs Hgrow Hcur Hsch.
  assert (rv_id <$> db_reservations db' = rv_id <$> db_reservations db) as Hids.
  { rewrite Hrows, <-list_fmap_compose. apply list_fmap_ext. intros i r Hr%list_elem_of_lookup_2. by apply (moves_identity r (g r)), Hmove. }
  split; [split|split_and!].
  - by rewrite Hsch, (inv_schema _ _ Hinv).
  - rewrite Hids. apply Hinv.
  - rewrite Hrows. intros r' Hr'. apply list_elem_of_fmap in Hr' as (r & -> & Hr). by apply Hok.
  - etrans; [|exact (inv_pending _ _ Hinv)]. unfold pending_count. rewrite Hrows. apply count_where_map_le.
    intros r Hr. destruct (Hmove r Hr) as [<-|He]; [done|by apply edge_pending].
  - intros pre' r' post'. rewrite Hrows. intros Hsplit. apply fmap_app_inv in Hsplit as (pre & rest & -> & Hrest & Hdb).
    symmetry in Hrest. apply fmap_cons_inv in Hrest as (r & post & -> & -> & ->). intros Ha.
    assert (r ∈ db_reservations db) as Hr by (rewrite Hdb; set_solver).
    destruct (moves_identity _ _ (Hmove r Hr)) as (_ & -> & ->). pose proof (moves_alive _ _ (Hmove r Hr) Ha) as Ha'.
    pose proof (inv_hotkeys _ _ Hinv pre r post Hdb Ha') as Hb. unfold hotkey_count in *. erewrite count_where_map; [exact Hb|].
    intros x Hx. cbn. assert (x ∈ db_reservations db) as Hxd by (rewrite Hdb; set_solver).
    by destruct (moves_identity _ _ (Hmove x Hxd)) as (_ & -> & ->).
  - done.
  - done.
  - rewrite Hcur. apply Hinv.
  - exists (g <$> db_reservations db), []. split; [by rewrite app_nil_r|]. apply Forall2_fmap_r, Forall2_same_length_lookup_2; [done|].
    intros i x y Hx Hy. simplify_eq. apply moves_rtc, Hmove. by eapply list_elem_of_lookup_2.
  - done.
  - by rewrite Hcur.
Qed.

(** Rows that keep their publication keep the bound on targets. *)
Lemma targets_map db g :
  inv db → (∀ r, r ∈ db_reservations db → moves r (g r) ∧ rv_publication (g r) = rv_publication r) →
  ∀ epoch target, target ≠ "" → alive_target_count epoch target (g <$> db_reservations db) ≤ ip_max_per_target_epoch policy.
Proof.
  intros Hinv Hg epoch target Ht. etrans; [|exact (inv_targets _ _ Hinv epoch target Ht)]. apply count_where_map_le.
  intros r Hr Ha. destruct (Hg r Hr) as [Hm Hp]. destruct (moves_identity _ _ Hm) as (_ & _ & He). rewrite Hp, He in Ha.
  apply andb_true_iff in Ha as [[Ha Hb]%andb_true_iff Hc]. by rewrite (moves_alive _ _ Hm Ha), Hb, Hc.
Qed.

(** ** One row moves *)

Lemma b2z_bounds b : 0 ≤ Z.b2z b ≤ 1.
Proof. destruct b; cbn; lia. Qed.

Ltac b2z_lia :=
  repeat match goal with
  | |- context [Z.b2z ?b] => pose proof (b2z_bounds b); generalize dependent (Z.b2z b); intros
  | _ : context [Z.b2z ?b] |- _ => pose proof (b2z_bounds b); generalize dependent (Z.b2z b); intros
  end; lia.

Definition target_room (db : Database) (r r' : ReservationRow) : Prop :=
  rv_publication r' = rv_publication r ∨ alive r' = false
  ∨ target_count (rv_admission_epoch r) (pc_target_id (rv_publication r')) (db_reservations db) < ip_max_per_target_epoch policy.

Lemma targets_update db id r r' :
  inv db → find_row db id = Some r → row_edge r r' → target_room db r r' →
  ∀ epoch target, target ≠ "" →
    alive_target_count epoch target (at_id id r' <$> db_reservations db) ≤ ip_max_per_target_epoch policy.
Proof.
  intros Hinv Hf He Hroom epoch target Ht. pose proof (inv_targets _ _ Hinv epoch target Ht) as Hb.
  pose proof (alive_target_count_le epoch target (db_reservations db)) as Hle.
  destruct (at_id_split db id r r' (inv_ids _ _ Hinv) Hf) as (pre & post & Hrows & ->). unfold alive_target_count in *.
  rewrite Hrows, count_where_app, count_where_cons in Hb, Hle.
  rewrite count_where_app, count_where_cons.
  pose proof (edge_from_alive _ _ He) as Ha. pose proof He as (_ & _ & Hepoch & _).
  destruct Hroom as [Hp|[Hd|Hroom]].
  - rewrite Hp, Hepoch. rewrite Ha in Hb. destruct (alive r'); cbn [andb] in *; [done|]. cbn [Z.b2z]. b2z_lia.
  - rewrite Hd. cbn [andb Z.b2z]. b2z_lia.
  - rewrite Hepoch. destruct (alive r' && (rv_admission_epoch r =? epoch) && bool_decide (pc_target_id (rv_publication r') = target)) eqn:E.
    + apply andb_true_iff in E as [[_ E1]%andb_true_iff E2]. apply Z.eqb_eq in E1 as <-. apply bool_decide_eq_true in E2 as <-.
      rewrite Hrows in Hroom. change (Z.b2z true) with 1. b2z_lia.
    + change (Z.b2z false) with 0. b2z_lia.
Qed.

Lemma good_update db db' id r r' :
  inv db → find_row db id = Some r → row_edge r r' → db_reservations db' = at_id id r' <$> db_reservations db →
  row_ok db' r' →
  (∀ other, other ≠ id → retained db' other = retained db other ∧ length (screens_of db' other) = length (screens_of db other)) →
  target_room db r r' → logs_ok db' → log_grows db db' → db_cursor db' = db_cursor db → db_schema db' = db_schema db → good db db'.
Proof.
  intros Hinv Hf He Hrows Hok Hother Hroom Hlogs Hgrow Hcur Hsch. pose proof (find_row_Some _ _ _ Hf) as [Hr Hid].
  assert (∀ x, x ∈ db_reservations db → rv_id x = id → x = r) as Huniq.
  { intros x Hx Hxid. eapply NoDup_fmap_inj_elem; [apply Hinv|done..|]. congruence. }
  eapply (good_map _ _ (at_id id r')); [done|done|..|done|done|done|done].
  - intros x Hx. unfold at_id. case_bool_decide as Hxid; [|by left]. rewrite (Huniq x Hx Hxid). by right.
  - intros x Hx. unfold at_id. case_bool_decide as Hxid; [done|]. destruct (inv_rows _ _ Hinv x Hx) as [Hv Ha Hs].
    destruct (Hother (rv_id x) Hxid) as [Hn Hk]. split; [done|done|]. by rewrite Hn, Hk.
  - rewrite Hrows. by eapply targets_update.
Qed.

(** Logs depend on the log tables and the identities only. *)
Lemma logs_ok_rows db rows : rv_id <$> rows = rv_id <$> db_reservations db → logs_ok db → logs_ok (set_reservations rows db).
Proof. intros Hids [H1 H2 H3 H4 H5 H6]. split; try done; cbn; rewrite Hids; done. Qed.

Lemma at_id_ids db id r r' :
  find_row db id = Some r → rv_id r' = rv_id r → rv_id <$> (at_id id r' <$> db_reservations db) = rv_id <$> db_reservations db.
Proof.
  intros Hf Hid. apply find_row_Some in Hf as [_ Hrid]. rewrite <-list_fmap_compose. apply list_fmap_ext. intros i x _. cbn.
  unfold at_id. case_bool_decide; [|done]. congruence.
Qed.

Lemma row_ok_same db db' r :
  row_ok db r → retained db' (rv_id r) = retained db (rv_id r) →
  length (screens_of db' (rv_id r)) = length (screens_of db (rv_id r)) → row_ok db' r.
Proof. intros Hr Hn Hk. split; [apply Hr|apply Hr|]. rewrite Hn, Hk. apply Hr. Qed.

Lemma row_ok_rows db rows r : row_ok db r → row_ok (set_reservations rows db) r.
Proof. intros Hr. split; [apply Hr|apply Hr|exact (ok_stage _ _ _ Hr)]. Qed.

(** The common case: no log changes. *)
Lemma good_move db id r f :
  inv db → find_row db id = Some r → row_edge r (f r) → target_room db r (f r) → row_ok db (f r) → good db (update_row id f db).
Proof.
  intros Hinv Hf He Hroom Hok. pose proof (update_row_at db id f r (inv_ids _ _ Hinv) Hf) as Hrows.
  eapply good_update; [done|done|done|done|by apply row_ok_rows|done|done| |done|done|done].
  apply logs_ok_rows; [|apply Hinv]. pose proof (at_id_ids db id r (f r) Hf (proj1 He)) as Hids. by rewrite <-Hids, <-Hrows.
Qed.

(** One row moves after the logs have grown. *)
Lemma good_log_move db db2 id r f :
  inv db → find_row db id = Some r → db_reservations db2 = db_reservations db → db_cursor db2 = db_cursor db →
  db_schema db2 = db_schema db → log_grows db db2 → logs_ok db2 →
  (∀ other, other ≠ id → retained db2 other = retained db other ∧ length (screens_of db2 other) = length (screens_of db other)) →
  row_edge r (f r) → rv_publication (f r) = rv_publication r → row_ok db2 (f r) → good db (update_row id f db2).
Proof.
  intros Hinv Hr Hrows Hcur Hsch Hgrow Hlogs Hother He Hp Hok.
  assert (find_row db2 id = Some r) as Hr2 by (unfold find_row; by rewrite Hrows).
  assert (NoDup (rv_id <$> db_reservations db2)) as Hnd by (rewrite Hrows; apply Hinv).
  pose proof (update_row_at db2 id f r Hnd Hr2) as Hupd.
  eapply (good_update db _ id r (f r)); [done|done|done| |by apply row_ok_rows|done|by left| |done|done|done].
  - by rewrite Hupd, Hrows.
  - apply logs_ok_rows; [|done]. by rewrite <-(at_id_ids db2 id r (f r) Hr2 (proj1 He)), <-Hupd.
Qed.

Lemma find_row_update db id f r :
  inv db → find_row db id = Some r → rv_id (f r) = rv_id r → find_row (update_row id f db) id = Some (f r).
Proof.
  intros Hinv Hf Hid. pose proof (find_row_Some _ _ _ Hf) as [_ Hrid]. unfold find_row, update_row. cbn.
  unfold find_row in Hf. induction (db_reservations db) as [|x rows IH]; [done|]. cbn in *.
  destruct (bool_decide_reflect (rv_id x = id)) as [Hx|Hx].
  - injection Hf as ->. rewrite bool_decide_eq_true_2 by congruence. done.
  - rewrite bool_decide_eq_false_2 by done. by apply IH.
Qed.
End moves.

Section logic.
Context {sha : Sha256} (policy : IntakePolicy).

Abbreviation inv := (inv policy).
Abbreviation row_ok := (row_ok policy).
Abbreviation good := (good policy).

Definition safe {A} (db : Database) (m : storeM A) : Prop :=
  match m db with (db', Ok _) => good db db' | (_, Raise _) => True end.

Definition atomic {A} (db : Database) (m : storeM A) : Prop :=
  match m db with (db', Ok _) => good db db' | (db', Raise _) => db' = db end.

Lemma atomic_lift {A} db (r : result A) : inv db → atomic db (lift r).
Proof. intros Hinv. unfold atomic, lift. destruct r; [by apply good_refl|done]. Qed.

Lemma atomic_reading {A} db (f : Database → result A) : inv db → atomic db (reading f).
Proof. intros Hinv. unfold atomic, reading. destruct (f db); [by apply good_refl|done]. Qed.

Lemma atomic_bind_lift {A B} db (r : result A) (k : A → storeM B) :
  (∀ a, r = Ok a → atomic db (k a)) → atomic db (sbind (lift r) k).
Proof. unfold atomic, sbind, lift. destruct r; [|done]. intros Hk. by apply Hk. Qed.

Lemma atomic_bind_reading {A B} db (f : Database → result A) (k : A → storeM B) :
  (∀ a, f db = Ok a → atomic db (k a)) → atomic db (sbind (reading f) k).
Proof. unfold atomic, sbind, reading. destruct (f db); [|done]. intros Hk. by apply Hk. Qed.

Lemma atomic_guard {B} db b e (k : storeM B) : (b = false → atomic db k) → atomic db (do? sraise_if b e ;; k).
Proof. intros Hk. apply atomic_bind_lift. intros u Hu. apply raise_if_Ok in Hu. by apply Hk. Qed.

Lemma atomic_transaction {A} db (m : storeM A) : safe db m → atomic db (transaction m).
Proof. unfold safe, atomic, transaction. by destruct (m db) as [db' [a|e]]. Qed.

Lemma safe_bind_lift {A B} db (r : result A) (k : A → storeM B) : (∀ a, r = Ok a → safe db (k a)) → safe db (sbind (lift r) k).
Proof. unfold safe, sbind, lift. destruct r; [|done]. intros Hk. by apply Hk. Qed.

Lemma safe_bind_reading {A B} db (f : Database → result A) (k : A → storeM B) :
  (∀ a, f db = Ok a → safe db (k a)) → safe db (sbind (reading f) k).
Proof. unfold safe, sbind, reading. destruct (f db); [|done]. intros Hk. by apply Hk. Qed.

Lemma safe_guard {B} db b e (k : storeM B) : (b = false → safe db k) → safe db (do? sraise_if b e ;; k).
Proof. intros Hk. apply safe_bind_lift. intros u Hu. apply raise_if_Ok in Hu. by apply Hk. Qed.

Lemma safe_writing db f : good db (f db) → safe db (writing f).
Proof. done. Qed.

(** ** Reading a reservation *)

Lemma inv_row db id r : inv db → find_row db id = Some r → row_ok db r.
Proof. intros Hinv Hf. by apply Hinv, (find_row_Some db id r). Qed.

Lemma get_found db id :
  inv db → get_reservation id db
  = (db, match find_row db id with Some r => Ok (view r) | None => Raise (intake_error "unknown intake reservation") end).
Proof.
  intros Hinv. unfold get_reservation, reading. f_equal. destruct (find_row db id) as [r|] eqn:Hf; [|done].
  apply row_reads, (inv_row db id r Hinv Hf).
Qed.

Lemma all_views db : inv db → mapM _row (in_order (db_reservations db)) = Ok (view <$> in_order (db_reservations db)).
Proof. intros Hinv. apply mapM_fmap. intros r Hr. apply row_reads, (ok_valid policy db), (inv_rows _ _ Hinv). by apply elem_of_in_order. Qed.

Lemma good_keeps db db' id : good db db' → is_Some (find_row db id) → is_Some (find_row db' id).
Proof.
  intros [_ [Hm _]] [r Hf]. apply find_row_Some in Hf as [Hr <-]. destruct Hm as (kept & new & Hrows & Hall).
  destruct (find_row db' (rv_id r)) as [|] eqn:Hn; [eauto|]. exfalso. apply find_row_None in Hn. apply Hn.
  apply list_elem_of_lookup in Hr as [i Hi]. destruct (Forall2_lookup_l _ _ _ _ _ Hall Hi) as (r' & Hr' & Hedge).
  rewrite Hrows. apply list_elem_of_fmap. exists r'. split.
  - clear -Hedge. induction Hedge as [|x y z (Hid & _) _ IH]; [done|congruence].
  - apply elem_of_app. left. by eapply list_elem_of_lookup_2.
Qed.

Lemma atomic_bind_get {A} db id (k : IntakeReservation → storeM A) :
  inv db → (∀ r, find_row db id = Some r → row_ok db r → atomic db (k (view r))) → atomic db (sbind (get_reservation id) k).
Proof.
  intros Hinv Hk. unfold atomic, sbind. rewrite get_found by done. destruct (find_row db id) as [r|] eqn:Hf; [|done].
  apply Hk; [done|by eapply inv_row].
Qed.

Lemma safe_bind_get {A} db id (k : IntakeReservation → storeM A) :
  inv db → (∀ r, find_row db id = Some r → row_ok db r → safe db (k (view r))) → safe db (sbind (get_reservation id) k).
Proof.
  intros Hinv Hk. unfold safe, sbind. rewrite get_found by done. destruct (find_row db id) as [r|] eqn:Hf; [|done].
  apply Hk; [done|by eapply inv_row].
Qed.

(** The shape of the operations on one row: a transaction that starts by reading
    the row, and the row read again. *)
Lemma atomic_row {A} db id (body : IntakeReservation → storeM A) :
  inv db → (∀ r, find_row db id = Some r → row_ok db r → safe db (body (view r))) →
  atomic db (do? transaction (let? row := get_reservation id in body row) ;; get_reservation id).
Proof.
  intros Hinv Hbody. unfold atomic, transaction, sbind. rewrite get_found by done.
  destruct (find_row db id) as [r|] eqn:Hf; [|done]. specialize (Hbody r eq_refl (inv_row db id r Hinv Hf)).
  unfold safe in Hbody. destruct (body (view r) db) as [db' [a|e]]; [|done].
  rewrite get_found by apply Hbody. destruct (good_keeps _ _ id Hbody (mk_is_Some _ _ Hf)) as [r' ->]. done.
Qed.

(** ** Rows after a change *)

Definition qualification_columns_ok (q : QualificationColumns) : Prop :=
  optional_hash (qc_authority_digest q) ∧ optional_hash (qc_evidence_digest q).

Definition screen_columns_ok (s : ScreenColumns) : Prop :=
  optional_hash (sn_service_digest s) ∧ sn_lane s ∈ [""; "primary"; "reproduction"]
  ∧ sn_status s ∈ [""; "running"; "promote"; "reject"; "retry"; "hold"] ∧ 0 ≤ sn_stage_count s ∧ 0 ≤ sn_attempts s.

Lemma valid_qualification_columns r : row_valid r → qualification_columns_ok (rv_qualification r).
Proof. by intros []. Qed.

Lemma valid_screen_columns r : row_valid r → screen_columns_ok (rv_screen r).
Proof. intros []. unfold screen_columns_ok. tauto. Qed.

Lemma row_valid_change r r' :
  row_valid r → rv_id r' = rv_id r → rv_arrival r' = rv_arrival r → rv_admission_epoch r' = rv_admission_epoch r →
  rv_status r' ∈ _STATUSES → vd_decision (rv_verdict r') ∈ [""; "PASS"; "FAIL"; "NO_DECISION"] →
  publication_ok (rv_publication r') → 0 ≤ rv_transport_attempts r' → qualification_columns_ok (rv_qualification r') →
  screen_columns_ok (rv_screen r') → row_valid r'.
Proof.
  intros [] Hid Ha He Hs Hd Hp Ht [Hq1 Hq2] (Hs1 & Hs2 & Hs3 & Hs4 & Hs5). split; try done; rewrite ?Ha, ?Hid, ?He; done.
Qed.

Lemma stage_status max n k r s : stage max n k r s → s ∈ _STATUSES.
Proof. destruct 1; by apply (bool_decide_unpack _). Qed.

Lemma optional_hash_empty : optional_hash "".
Proof. by left. Qed.

Lemma row_status_stage db r s : row_ok db r → rv_status r = s →
  stage (ip_max_transport_retries policy) (retained db (rv_id r)) (length (screens_of db (rv_id r))) r s.
Proof. intros Hr <-. apply Hr. Qed.
End logic.

(** Memberships in concrete lists of texts. *)
Ltac decide_elem := apply (bool_decide_unpack _); by vm_compute.

(** Splits [H : s ∈ [...]] into its cases. *)
Ltac elem_cases H :=
  repeat (apply elem_of_cons in H as [H|H]); try (by apply not_elem_of_nil in H).
