(* ===== verification/IntakeSteps.v ===== *)
(** * The operations on one reservation are atomic and legal

    Transport, publication, screening, holds and retries: each either raises and
    leaves the store as it was, or moves its row along a legal edge. *)

From Stdlib Require Import ZArith Lia Ascii.
From stdpp Require Import base tactics numbers list strings gmap sorting relations.
From S2P Require Import Prelude PyValue Sha256 Identity Strict Provider Stack Release StackPlan Settlement SettlementPlan.
From S2P Require Import SettlementFacts Publication Journal PublicationSystem Fingerprint QualificationBatch Arena IntakeData Intake.
From S2P Require Import IntakeAdmission IntakeInvariant IntakeLogic.

(** ** What a stage says of the retained passes *)

Lemma stage_retained max n k r s : stage max n k r s → (n ≤ 2)%nat.
Proof. destruct 1; try lia; match goal with Hl : lane_ok _ _ |- _ => destruct Hl as [[_ ?]|[_ ?]] end; lia. Qed.

Lemma stage_retained_open max n k r s : stage max n k r s → s ≠ "qualified" → s ≠ "failed" → (n ≤ 1)%nat.
Proof. destruct 1; intros ??; try done; try lia; match goal with Hl : lane_ok _ _ |- _ => destruct Hl as [[_ ?]|[_ ?]] end; lia. Qed.

Lemma stage_unpublished max n k r s :
  stage max n k r s → s ≠ "failed" → s ≠ "expired" → rv_publication r = unpublished → n = 0%nat.
Proof. destruct 1; intros; try done; auto. Qed.

Section steps.
Context {sha : Sha256} (policy : IntakePolicy) (Hpolicy : policy_ok policy).

Abbreviation inv := (inv policy).
Abbreviation row_ok := (row_ok policy).
Abbreviation good := (good policy).
Abbreviation atomic := (atomic policy).
Abbreviation safe := (safe policy).
Abbreviation stage_in db r := (stage (ip_max_transport_retries policy) (retained db (rv_id r)) (length (screens_of db (rv_id r)))).

(** A row whose verdict, evidence, attempts, qualification or screen changed. *)
Lemma row_ok_change db r r' :
  row_ok db r → rv_id r' = rv_id r → rv_arrival r' = rv_arrival r → rv_admission_epoch r' = rv_admission_epoch r →
  vd_decision (rv_verdict r') ∈ [""; "PASS"; "FAIL"; "NO_DECISION"] → publication_ok (rv_publication r') →
  0 ≤ rv_transport_attempts r' ≤ ip_max_transport_retries policy → qualification_columns_ok (rv_qualification r') →
  screen_columns_ok (rv_screen r') → stage_in db r r' (rv_status r') → row_ok db r'.
Proof.
  intros [Hv Ha Hs] Hid Harr He Hd Hp Ht Hq Hsc Hst. split; [|lia|by rewrite Hid].
  eapply row_valid_change; try done; [|lia]. by eapply stage_status.
Qed.

(** The same with publication, attempts and screen kept. *)
Lemma row_ok_keep db r r' :
  row_ok db r → rv_id r' = rv_id r → rv_arrival r' = rv_arrival r → rv_admission_epoch r' = rv_admission_epoch r →
  rv_publication r' = rv_publication r → rv_transport_attempts r' = rv_transport_attempts r → rv_screen r' = rv_screen r →
  vd_decision (rv_verdict r') ∈ [""; "PASS"; "FAIL"; "NO_DECISION"] → qualification_columns_ok (rv_qualification r') →
  stage_in db r r' (rv_status r') → row_ok db r'.
Proof.
  intros Hr Hid Harr He Hp Ht Hsc Hd Hq Hst. pose proof (ok_valid _ _ _ Hr) as Hv. eapply row_ok_change; try done.
  - rewrite Hp. apply Hv.
  - rewrite Ht. split; [apply Hv|apply Hr].
  - rewrite Hsc. by apply valid_screen_columns.
Qed.

Lemma edge_same r r' :
  rv_id r' = rv_id r → rv_arrival r' = rv_arrival r → rv_admission_epoch r' = rv_admission_epoch r →
  rv_publication r' = rv_publication r → (rv_status r, rv_status r') ∈ edges → row_edge r r'.
Proof. intros. split_and!; try done. by left. Qed.

(** ** [_transition] *)

Definition transitioned (status decision reason : string) (r : ReservationRow) : ReservationRow :=
  with_evidence "" (with_verdict {| vd_status := status; vd_decision := decision; vd_reason := reason |} r).

Lemma atomic_transition db id expected status decision reason :
  inv db → decision ∈ [""; "PASS"; "FAIL"; "NO_DECISION"] →
  (∀ r, find_row db id = Some r → row_ok db r → rv_status r ∈ expected →
     (rv_status r, status) ∈ edges ∧ stage_in db r (transitioned status decision reason r) status) →
  atomic db (_transition id expected status decision reason "").
Proof.
  intros Hinv Hd Hstep. unfold _transition. apply atomic_guard. intros _. apply atomic_row; [done|]. intros r Hf Hr.
  apply safe_guard. intros Hx. bool_prop. apply safe_writing. destruct (Hstep r Hf Hr Hx) as [He Hs].
  eapply (good_move policy); [done|exact Hf|by apply edge_same|by left|].
  eapply row_ok_keep; [exact Hr|done..| |done]. split; [apply (ok_valid _ _ _ Hr)|by left].
Qed.

(** The moves of [_transition] to a final or held status. *)
Lemma stage_to_failed db r decision reason :
  row_ok db r → stage_in db r (transitioned "failed" decision reason r) "failed".
Proof. intros Hr. apply stage_failed. eapply stage_retained, Hr. Qed.

Lemma stage_to_held db r decision reason :
  row_ok db r → rv_status r ≠ "failed" → rv_status r ≠ "expired" → rv_status r ≠ "qualified" →
  stage_in db r (transitioned "held" decision reason r) "held".
Proof.
  intros Hr H1 H2 H3. pose proof (ok_stage _ _ _ Hr) as Hs. apply stage_held; [|by eapply stage_retained_open].
  intros Hp. by eapply stage_unpublished.
Qed.

Lemma stage_to_expired db r decision reason :
  row_ok db r → rv_status r ≠ "failed" → rv_status r ≠ "qualified" →
  stage_in db r (transitioned "expired" decision reason r) "expired".
Proof. intros Hr H1 H3. pose proof (ok_stage _ _ _ Hr) as Hs. apply stage_expired. by eapply stage_retained_open. Qed.

Lemma atomic_mark_failed db id reason : inv db → atomic db (mark_failed id reason).
Proof.
  intros Hinv. apply atomic_transition; [done|decide_elem|]. intros r Hf Hr Hs. split; [|by apply stage_to_failed].
  elem_cases Hs; rewrite Hs; decide_elem.
Qed.

Lemma atomic_mark_held db id reason : inv db → atomic db (mark_held id reason).
Proof.
  intros Hinv. apply atomic_transition; [done|decide_elem|]. intros r Hf Hr Hs.
  split; [|apply stage_to_held; [done|..]]; elem_cases Hs; rewrite Hs; first [done|decide_elem].
Qed.

Lemma atomic_mark_transport_retry db id reason : inv db → atomic db (mark_transport_retry policy id reason).
Proof.
  intros Hinv. unfold mark_transport_retry. apply atomic_bind_get; [done|]. intros r Hf Hr. cbn [iv_transport_attempts view].
  apply atomic_transition; [done|decide_elem|]. intros x Hx _ Hs. rewrite Hf in Hx. injection Hx as <-. elem_cases Hs. rewrite Hs.
  destruct (Z.leb_spec (ip_max_transport_retries policy) (rv_transport_attempts r)) as [Hl|Hl]; (split; [decide_elem|]).
  - apply stage_to_held; [done|by rewrite Hs..].
  - pose proof (row_status_stage policy db r _ Hr Hs) as Hst. inversion Hst. by constructor.
Qed.

Lemma atomic_expire db id current reason : inv db → atomic db (expire policy id current reason).
Proof.
  intros Hinv. unfold expire. apply atomic_bind_get; [done|]. intros r Hf Hr. do 3 (apply atomic_guard; intros _).
  apply atomic_transition; [done|decide_elem|]. intros x Hx Hok Hs.
  split; [|apply stage_to_expired; [done|..]]; elem_cases Hs; rewrite Hs; first [done|decide_elem].
Qed.

(** ** Copies *)

Lemma atomic_all {A} db (k : list IntakeReservation → storeM A) :
  inv db → atomic db (k (view <$> in_order (db_reservations db))) → atomic db (sbind all_reservations k).
Proof.
  intros Hinv Hk. apply atomic_bind_reading. intros rows Hrows. rewrite (all_views policy) in Hrows by done. by injection Hrows as <-.
Qed.

Lemma atomic_mark_copy db id predecessor : inv db → atomic db (mark_copy id predecessor).
Proof.
  intros Hinv. unfold mark_copy. apply atomic_bind_get; [done|]. intros p Hp _. apply atomic_bind_get; [done|]. intros r Hf Hr.
  apply atomic_guard. intros _. unfold copy_predecessors, IntakeLogic.atomic, sbind. rewrite (get_found policy), Hf by done.
  cbn [iv_delta_fingerprint view]. destruct (row_fingerprint r) as [f|]; [|done]. unfold all_reservations, reading.
  rewrite (all_views policy) by done. cbn [lift].
  destruct (negb _); [done|]. cbn [sraise_if raise_if lift].
  apply (atomic_transition db id COPYABLE); [done|decide_elem|]. intros x Hx Hok Hs. split; [|by apply stage_to_failed].
  elem_cases Hs; rewrite Hs; decide_elem.
Qed.

(** ** Transport *)

Lemma atomic_mark_fetching db id : inv db → atomic db (mark_fetching policy id).
Proof.
  intros Hinv. unfold mark_fetching. apply atomic_row; [done|]. intros r Hf Hr. cbn [iv_status iv_transport_attempts view].
  apply safe_guard. intros Hs. bool_prop. apply safe_bind_lift. intros _ _. apply safe_writing.
  pose proof (ok_valid _ _ _ Hr) as Hv. pose proof (valid_attempts _ Hv) as Hat.
  assert (rv_publication r = unpublished ∧ retained db (rv_id r) = 0%nat ∧ (rv_transport_attempts r < ip_max_transport_retries policy
    ∨ rv_transport_attempts r = 0)) as (Hp & Hn & Hlt).
  { elem_cases Hs; pose proof (row_status_stage policy db r _ Hr Hs) as Hst; inversion Hst; auto. }
  pose proof (ok_attempts _ _ _ Hr) as Hmax.
  destruct (Z.leb_spec (rv_transport_attempts r + 1) (ip_max_transport_retries policy)) as [Hl|Hl].
  - eapply (good_move policy); [done|exact Hf| |by left|].
    + apply edge_same; [done..|]. cbn. elem_cases Hs; rewrite Hs; decide_elem.
    + eapply row_ok_change; [exact Hr|done..|apply Hv|apply Hv|cbn; lia|exact (valid_qualification_columns r Hv)|exact (valid_screen_columns r Hv)|].
      by constructor.
  - eapply (good_move policy); [done|exact Hf| |by left|].
    + apply edge_same; [done..|]. cbn. elem_cases Hs; rewrite Hs; decide_elem.
    + destruct (policy_ok_bounds policy Hpolicy) as (_ & _ & _ & _ & ? & _). exfalso. lia.
Qed.
End steps.

(** ** Appending to a log *)

Lemma filter_snoc {A} (p : A → bool) l x : List.filter p (l ++ [x]) = List.filter p l ++ (if p x then [x] else []).
Proof. rewrite List.filter_app. cbn. done. Qed.

(** Indices that count up from zero keep doing so. *)
Lemma indices_snoc {A} (index : A → Z) l x :
  index <$> l = Z.of_nat <$> seq 0 (length l) → index x = Z.of_nat (length l) →
  index <$> l ++ [x] = Z.of_nat <$> seq 0 (length (l ++ [x])).
Proof. intros Hl Hx. rewrite fmap_app, length_app, Hl. cbn. rewrite Nat.add_1_r, seq_S, fmap_app. cbn. by rewrite Hx. Qed.

Lemma screens_of_snoc db s id :
  screens_of (set_screens (db_screens db ++ [s]) db) id
  = screens_of db id ++ (if bool_decide (sd_reservation_id s = id) then [s] else []).
Proof. unfold screens_of. cbn. by rewrite filter_snoc. Qed.

Lemma dispositions_of_snoc db d id :
  dispositions_of (set_dispositions (db_dispositions db ++ [d]) db) id
  = dispositions_of db id ++ (if bool_decide (dn_reservation_id d = id) then [d] else []).
Proof. unfold dispositions_of. cbn. by rewrite filter_snoc. Qed.

Lemma published_not_unpublished f d root : publication_columns f d root ≠ unpublished.
Proof. done. Qed.

Lemma promotion_value_known d : promotion_value d ∈ [""; "running"; "promote"; "reject"; "retry"; "hold"].
Proof. destruct d; decide_elem. Qed.

Section screening.
Context {sha : Sha256} (policy : IntakePolicy) (Hpolicy : policy_ok policy).

Abbreviation inv := (inv policy).
Abbreviation row_ok := (row_ok policy).
Abbreviation good := (good policy).
Abbreviation atomic := (atomic policy).
Abbreviation safe := (safe policy).

Lemma logs_ok_screen db s :
  logs_ok db → sd_attempt_index s = Z.of_nat (length (screens_of db (sd_reservation_id s))) →
  sd_reservation_id s ∈ rv_id <$> db_reservations db → logs_ok (set_screens (db_screens db ++ [s]) db).
Proof.
  intros [H1 H2 H3 H4 H5 H6] Hidx Hid. split; [exact H1| |exact H3| |exact H5|exact H6].
  - intros id. rewrite screens_of_snoc. case_bool_decide as E; [|by rewrite app_nil_r]. subst id. by apply indices_snoc.
  - intros x [Hx| ->%list_elem_of_singleton]%elem_of_app; [by apply H4|done].
Qed.

Lemma logs_ok_disposition db d :
  logs_ok db → dn_attempt_index d = Z.of_nat (length (dispositions_of db (dn_reservation_id d))) →
  logs_ok (set_dispositions (db_dispositions db ++ [d]) db).
Proof.
  intros [H1 H2 H3 H4 H5 H6] Hidx. split; [|exact H2|exact H3|exact H4|exact H5|exact H6]. intros id. rewrite dispositions_of_snoc.
  case_bool_decide as E; [|by rewrite app_nil_r]. subst id. by apply indices_snoc.
Qed.

(** ** Publication *)

Lemma publication_verdict_cases f row count prior awarded :
  let v := publication_verdict policy f row count prior awarded in
  vd_decision v ∈ [""; "PASS"; "FAIL"; "NO_DECISION"]
  ∧ ((vd_status v = "published" ∧ count < ip_max_per_target_epoch policy) ∨ vd_status v = "failed").
Proof.
  cbn zeta. unfold publication_verdict.
  destruct (Z.leb_spec (ip_max_per_target_epoch policy) count); repeat case_match; cbn; (split; [decide_elem|]); auto.
Qed.

Lemma atomic_mark_published db id f d root : inv db → fingerprint_ok f → atomic db (mark_published policy id f d root).
Proof.
  intros Hinv Hf. unfold mark_published. apply atomic_bind_lift. intros ? [[= <-] Hd]%require_sha256_hex_Ok. apply atomic_row; [done|].
  intros r Hr Hok. apply safe_guard. cbn [iv_status view]. intros Hs. bool_prop. apply safe_bind_reading. intros count Hc.
  injection Hc as <-. assert (∀ prior, safe db
    (let? awarded := reading (λ db, Ok (db_awarded_proposals db)) in
     writing (update_row id (λ r0, with_publication (publication_columns f d root)
       (with_verdict (publication_verdict policy f (view r) (target_count (rv_admission_epoch r) (fp_target_id f) (db_reservations db))
          prior awarded) r0))))) as Hfin.
  { intros prior. apply safe_bind_reading. intros awarded _. apply safe_writing.
    pose proof (row_status_stage policy db r _ Hok Hs) as Hst. inversion Hst as [|Hp Hn| | | | | | | | | | |]; subst.
    pose proof (publication_verdict_cases f (view r) (target_count (rv_admission_epoch r) (fp_target_id f) (db_reservations db)) prior awarded)
      as [Hdec Hcase]. pose proof (ok_valid _ _ _ Hok) as Hv. set (v := publication_verdict _ _ _ _ _ _) in *. clearbody v.
    eapply (good_move policy); [done|exact Hr|..].
    - split_and!; [done..| |by right]. change ((rv_status r, vd_status v) ∈ edges). rewrite Hs. destruct Hcase as [[-> _]| ->]; decide_elem.
    - destruct Hcase as [[_ Hlt]|Hfail]; [by right; right|]. right. left. unfold alive, status_in, rv_status. cbn. by rewrite Hfail.
    - eapply row_ok_change; [exact Hok|done|done|done|exact Hdec| | |exact (valid_qualification_columns r Hv)|exact (valid_screen_columns r Hv)|].
      + right. by exists f, d, root.
      + split; [apply Hv|apply Hok].
      + unfold rv_status. cbn. destruct Hcase as [[-> _]| ->]; [by apply stage_published|apply stage_failed; lia]. }
  case_bool_decide; [|by apply safe_bind_lift]. apply safe_bind_reading. intros prior _. apply Hfin.
Qed.

(** ** Screening *)

Lemma atomic_begin_screen db id service : inv db → atomic db (begin_screen id service).
Proof.
  intros Hinv. unfold begin_screen. apply atomic_bind_lift. intros ? [[= <-] Hd]%require_sha256_hex_Ok. apply atomic_row; [done|].
  intros r Hr Hok. cbn [iv_status view]. apply safe_guard. intros Hs. bool_prop. apply safe_bind_reading. intros k Hk. injection Hk as <-.
  apply safe_writing. pose proof (find_row_Some _ _ _ Hr) as [_ <-]. pose proof (ok_valid _ _ _ Hok) as Hv.
  eapply (good_move policy); [done|exact Hr| |by left|].
  - apply edge_same; [done..|]. cbn. elem_cases Hs; rewrite Hs; decide_elem.
  - eapply row_ok_change; [exact Hok|done|done|done|decide_elem|apply Hv|split; [apply Hv|apply Hok]|exact (valid_qualification_columns r Hv)| |].
    + split_and!; cbn; [by right| |decide_elem|done|lia]. case_bool_decide; decide_elem.
    + elem_cases Hs; pose proof (row_status_stage policy db r _ Hok Hs) as Hst; inversion Hst; subst; cbn; rewrite Hs;
        (apply stage_screening; [done| |done]); [left|right]; done.
Qed.

Lemma screen_verdict_stage db r lane decision r' :
  row_ok db r → rv_status r = "screening" → lane = sn_lane (rv_screen r) →
  rv_publication r' = rv_publication r → sn_lane (rv_screen r') = lane → sn_status (rv_screen r') = promotion_value decision →
  let v := screen_verdict lane decision in
  vd_decision v ∈ [""; "PASS"; "FAIL"; "NO_DECISION"] ∧ ("screening", vd_status v) ∈ edges
  ∧ ∀ k, stage (ip_max_transport_retries policy) (retained db (rv_id r)) k r' (vd_status v).
Proof.
  intros Hok Hs -> Hp Hl Hst. pose proof (row_status_stage policy db r _ Hok Hs) as Hstage.
  inversion Hstage as [| | | |Hpub Hlane Hk| | | | | | | |]. unfold lane_ok in Hlane. rewrite <-Hp in Hpub.
  destruct decision; cbn; (split_and!; [decide_elem| |intros k]); try decide_elem.
  - apply stage_promoted; [done| |done]. unfold lane_ok. by rewrite Hl.
  - apply stage_failed. destruct Hlane as [[_ ->]|[_ ->]]; lia.
  - case_bool_decide; decide_elem.
  - destruct Hlane as [[-> Hn]|[-> Hn]]; cbn; [by apply stage_published|by apply stage_reproduction].
  - apply stage_held; [done|]. destruct Hlane as [[_ ->]|[_ ->]]; lia.
Qed.

Lemma atomic_apply_screen_receipt db id candidate receipt : inv db → atomic db (apply_screen_receipt id candidate receipt).
Proof.
  intros Hinv. unfold apply_screen_receipt. apply atomic_bind_lift. intros _ _. apply atomic_row; [done|].
  intros r Hr Hok. apply safe_guard. cbn [iv_status iv_arena_service_digest iv_screen_attempts iv_screen_lane view]. intros Hg. bool_prop.
  assert (rv_status r = "screening") as Hscr by done.
  pose proof (find_row_Some _ _ _ Hr) as [Hin Hid]. pose proof (ok_valid _ _ _ Hok) as Hv.
  set (row := {| sd_reservation_id := id |}). unfold IntakeLogic.safe, insert_screen, sbind, reading, writing.
  destruct (existsb _ _ || _); [done|]. cbn [raise_if].
  set (f := λ r0, with_screen _ _). set (db1 := set_screens (db_screens db ++ [row]) db).
  destruct (screen_verdict_stage db r (sn_lane (rv_screen r)) (rc_decision receipt) (f r) Hok) as (Hdec & He & Hst); [done..|].
  assert (row_ok db1 (f r)) as Hok1.
  { split; [|exact (ok_attempts _ _ _ Hok)|exact (Hst _)]. eapply row_valid_change; [exact Hv|done|done|done| |exact Hdec|apply Hv|apply Hv| |].
    - eapply stage_status, (Hst 0%nat).
    - exact (valid_qualification_columns r Hv).
    - pose proof (valid_screen_columns r Hv) as (? & ? & ? & ? & ?). split_and!; try done; [apply promotion_value_known|cbn; lia]. }
  eapply (good_log_move policy db db1 id r f); [done|done|done|done|done| | | | |done|done].
  - split_and!; cbn; [done|by eexists|done|done].
  - apply logs_ok_screen; [apply Hinv| |cbn; rewrite <-Hid; by apply list_elem_of_fmap_2]. cbn.
    pose proof (row_status_stage policy db r _ Hok Hscr) as Hstage. inversion Hstage. rewrite <-Hid. lia.
  - intros other Hother. split; [done|]. unfold db1. rewrite screens_of_snoc. cbn. rewrite bool_decide_eq_false_2 by congruence.
    by rewrite app_nil_r.
  - apply edge_same; [done..|]. rewrite Hscr. exact He.
Qed.

(** ** Holds and retries *)

Lemma publication_digest_published r :
  row_valid r → pc_publication_digest (rv_publication r) = "" ↔ rv_publication r = unpublished.
Proof.
  intros Hv. destruct (valid_publication _ Hv) as [->|(f & d & root & _ & Hd & ->)]; [done|]. cbn.
  split; [|by intros ?%published_not_unpublished]. intros ->. done.
Qed.

Lemma no_qualification_ok : qualification_columns_ok no_qualification.
Proof. split; by left. Qed.

Lemma atomic_release_hold db id reason : inv db → atomic db (release_hold id reason).
Proof.
  intros Hinv. unfold release_hold. apply atomic_guard. intros _. apply atomic_row; [done|]. intros r Hr Hok. cbn [iv_status view].
  apply safe_guard. intros Hs. apply safe_guard. intros _. bool_prop. apply safe_bind_reading. intros n Hn. injection Hn as <-.
  apply safe_writing. pose proof (find_row_Some _ _ _ Hr) as [_ <-]. pose proof (ok_valid _ _ _ Hok) as Hv.
  cbn [iv_publication_digest iv_transport_attempts view]. pose proof (publication_digest_published r Hv) as Hdig.
  destruct (policy_ok_bounds policy Hpolicy) as (_ & _ & _ & _ & Hmax & _).
  assert ((retained db (rv_id r) ≤ 1)%nat ∧ (rv_publication r = unpublished → retained db (rv_id r) = 0%nat)
          ∧ (rv_publication r = unpublished → rv_status r = "held")) as (Hn & Hn0 & Hheld).
  { elem_cases Hs; pose proof (row_status_stage policy db r _ Hok Hs) as Hst; inversion Hst; split_and!; try done; by intros ?. }
  set (status := if (_ =? _)%nat then "reproduction_pending" else _). set (attempts := if negb _ then rv_transport_attempts r else 0).
  assert (0 ≤ attempts ≤ ip_max_transport_retries policy) as Hat.
  { unfold attempts. case_bool_decide; cbn [negb]; [lia|]. split; [apply Hv|apply Hok]. }
  assert ((rv_status r, status) ∈ edges ∧ ∀ r', rv_publication r' = rv_publication r → rv_transport_attempts r' = attempts →
            stage (ip_max_transport_retries policy) (retained db (rv_id r)) (length (screens_of db (rv_id r))) r' status) as [He Hst].
  { unfold status, attempts. fold (retained db (rv_id r)). destruct (Nat.eqb_spec (retained db (rv_id r)) 1) as [E|E].
    - split; [elem_cases Hs; rewrite Hs; decide_elem|]. intros r' Hp _. apply stage_reproduction; [|done]. rewrite Hp. intros Hu.
      specialize (Hn0 Hu). lia.
    - case_bool_decide as Hd; cbn [negb].
      + apply Hdig in Hd. split; [rewrite (Hheld Hd); decide_elem|]. intros r' Hp Ha. apply stage_transport_retry; [congruence|auto|lia].
      + split; [elem_cases Hs; rewrite Hs; decide_elem|]. intros r' Hp _. apply stage_published; [rewrite Hp; tauto|lia]. }
  eapply (good_move policy); [done|exact Hr|by apply edge_same|by left|].
  eapply row_ok_change; [exact Hok|done|done|done|decide_elem|apply Hv|done|apply no_qualification_ok|exact (valid_screen_columns r Hv)|].
  by apply Hst.
Qed.

Lemma atomic_requeue db id reason group position : inv db → atomic db (requeue_qualification policy id reason group position).
Proof.
  intros Hinv. unfold requeue_qualification. apply atomic_guard. intros _. do 2 (apply atomic_bind_lift; intros ? ?).
  apply atomic_row; [done|]. intros r Hr Hok. cbn [iv_status view]. apply safe_guard. intros Hs. bool_prop.
  do 2 (apply safe_bind_reading; intros ? [= <-]). apply safe_bind_lift. intros _ _. apply safe_writing.
  pose proof (find_row_Some _ _ _ Hr) as [_ <-]. pose proof (ok_valid _ _ _ Hok) as Hv. fold (retained db (rv_id r)).
  pose proof (row_status_stage policy db r _ Hok Hs) as Hst. inversion Hst as [| | | | | | | |Hp Hn| | | |].
  eapply (good_move policy); [done|exact Hr| |by left|].
  - apply edge_same; [done..|]. cbn. rewrite Hs. destruct (_ <? _); [|decide_elem]. destruct (_ =? _)%nat; decide_elem.
  - eapply row_ok_change; [exact Hok|done|done|done|decide_elem|apply Hv|split; [apply Hv|apply Hok]|apply no_qualification_ok|exact (valid_screen_columns r Hv)|].
    cbn. destruct (_ <? _); [|by apply stage_held]. destruct (Nat.eqb_spec (retained db (rv_id r)) 1); [by apply stage_reproduction|].
    apply stage_published; [done|lia].
Qed.
End screening.
