(* ===== verification/IntakeBatches.v ===== *)
(** * Batches are atomic and legal, and pair the passes they retain

    The outcome of one qualification first, then the batches made of them: a pass
    is retained once or paired with the first, and the retried rows are exactly
    those the batch names. *)

From Stdlib Require Import ZArith Lia Ascii.
From stdpp Require Import base tactics numbers list strings gmap sorting relations.
From S2P Require Import Prelude PyValue Sha256 Identity Strict Provider Stack Release StackPlan Settlement SettlementPlan.
From S2P Require Import SettlementFacts Publication Journal PublicationSystem Fingerprint QualificationBatch Arena IntakeData Intake.
From S2P Require Import IntakeAdmission IntakeInvariant IntakeLogic IntakeSteps.

(** ** The log of qualifications *)

Lemma indices_sorted l start :
  ql_reproduction_index <$> l = Z.of_nat <$> seq start (length l) → StronglySorted index_le l.
Proof.
  revert start. induction l as [|q l IH]; intros start Hl; [constructor|]. cbn in Hl. injection Hl as Hq Hl.
  apply StronglySorted_cons. split; [|by eapply IH]. apply Forall_forall. intros x Hx. unfold index_le. rewrite Hq.
  assert (ql_reproduction_index x ∈ Z.of_nat <$> seq (S start) (length l)) as Hin by (rewrite <-Hl; by apply list_elem_of_fmap_2).
  apply list_elem_of_fmap in Hin as (i & -> & Hi). apply elem_of_seq in Hi. lia.
Qed.

Lemma qualifications_raw db id :
  ql_reproduction_index <$> raw_qualifications db id = Z.of_nat <$> seq 0 (length (raw_qualifications db id)) →
  qualifications_of db id = raw_qualifications db id.
Proof. intros Hl. by eapply stable_sort_id, indices_sorted. Qed.

Lemma raw_qualifications_snoc db q id :
  raw_qualifications (set_qualifications (db_qualifications db ++ [q]) db) id
  = raw_qualifications db id ++ (if bool_decide (ql_reservation_id q = id) then [q] else []).
Proof. unfold raw_qualifications. cbn. by rewrite filter_snoc. Qed.

Section outcomes.
Context {sha : Sha256} (policy : IntakePolicy) (Hpolicy : policy_ok policy).

Abbreviation inv := (inv policy).
Abbreviation row_ok := (row_ok policy).
Abbreviation good := (good policy).
Abbreviation atomic := (atomic policy).
Abbreviation safe := (safe policy).

(** Appending a qualification with the next index. *)
Lemma qualifications_snoc db q :
  logs_ok db → ql_reproduction_index q = Z.of_nat (retained db (ql_reservation_id q)) →
  let db' := set_qualifications (db_qualifications db ++ [q]) db in
  (∀ id, ql_reproduction_index <$> raw_qualifications db' id = Z.of_nat <$> seq 0 (length (raw_qualifications db' id)))
  ∧ ∀ id, qualifications_of db' id = qualifications_of db id ++ (if bool_decide (ql_reservation_id q = id) then [q] else []).
Proof.
  intros [_ _ H3 _ _ _] Hidx db'. unfold retained in Hidx. rewrite qualifications_raw in Hidx by done.
  assert (∀ id, ql_reproduction_index <$> raw_qualifications db' id = Z.of_nat <$> seq 0 (length (raw_qualifications db' id))) as Hi.
  { intros id. unfold db'. rewrite raw_qualifications_snoc. case_bool_decide as E; [|by rewrite app_nil_r]. subst id. by apply indices_snoc. }
  split; [done|]. intros id. rewrite !qualifications_raw by done. apply raw_qualifications_snoc.
Qed.

Lemma retained_other db q id :
  logs_ok db → ql_reproduction_index q = Z.of_nat (retained db (ql_reservation_id q)) → id ≠ ql_reservation_id q →
  qualifications_of (set_qualifications (db_qualifications db ++ [q]) db) id = qualifications_of db id.
Proof.
  intros Hl Hi Hne. destruct (qualifications_snoc db q Hl Hi) as [_ ->]. rewrite bool_decide_eq_false_2 by congruence. by rewrite app_nil_r.
Qed.

(** A candidate with a new reservation is found; others are found as before. *)
Lemma find_candidate_snoc db c id :
  ca_reservation_id c ∉ ca_reservation_id <$> db_candidates db →
  find_candidate (set_candidates (db_candidates db ++ [c]) db) id
  = if bool_decide (ca_reservation_id c = id) then Some c else find_candidate db id.
Proof.
  intros Hc. unfold find_candidate. cbn. induction (db_candidates db) as [|x l IH]; cbn; [by case_bool_decide|].
  rewrite fmap_cons, not_elem_of_cons in Hc. destruct Hc as [Hx Hc]. rewrite IH by done.
  repeat case_bool_decide; congruence.
Qed.

(** ** One row moves and one disposition is retained *)

Lemma good_dispose db id r f d :
  inv db → find_row db id = Some r → dn_reservation_id d = id → dn_attempt_index d = Z.of_nat (length (dispositions_of db id)) →
  row_edge r (f r) → rv_publication (f r) = rv_publication r → row_ok db (f r) →
  good db (update_row id f (set_dispositions (db_dispositions db ++ [d]) db)).
Proof.
  intros Hinv Hr Hd Hidx He Hp Hok. eapply good_log_move; [done|exact Hr|done|done|done| | |done|done|done|by eapply row_ok_same].
  - split_and!; cbn; [by eexists|done..].
  - apply logs_ok_disposition; [apply Hinv|by rewrite Hd].
Qed.

(** ** Entering qualification *)

Lemma hex_not_empty d : is_hex64 d = true → d ≠ "".
Proof. by intros Hd ->. Qed.

Lemma atomic_mark_qualifying db id digest manifest : inv db → atomic db (mark_qualifying id digest manifest).
Proof.
  intros Hinv. unfold mark_qualifying. apply atomic_bind_lift. intros ? [[= <-] Hd]%require_sha256_hex_Ok.
  do 2 (apply atomic_guard; intros _). apply atomic_row; [done|]. intros r Hr Hok. cbn [iv_status iv_screen_status view].
  apply safe_guard. intros Hs. bool_prop. apply safe_writing. assert (rv_status r = "promoted") as Hst by done.
  pose proof (ok_valid _ _ _ Hok) as Hv. pose proof (row_status_stage policy db r _ Hok Hst) as Hstage. inversion Hstage.
  eapply (good_move policy); [done|exact Hr| |by left|].
  - apply edge_same; [done..|]. rewrite Hst. decide_elem.
  - eapply row_ok_keep; [exact Hok|done..|decide_elem|split; [by right|apply Hv]|].
    apply stage_qualifying; [done|done|by apply hex_not_empty|done].
Qed.

(** ** Outcomes without settlement authority *)

Definition ref_ok (ref : option EvidenceArtifactRef) : Prop :=
  match ref with None => True | Some ref => is_hex64 (ea_sha256 ref) = true end.

Lemma authority_json_found db id r : find_row db id = Some r → authority_json_of id db = (db, Ok (qc_authority_json (rv_qualification r))).
Proof. intros Hr. unfold authority_json_of, reading. by rewrite Hr. Qed.

Lemma atomic_mark_outcome db id decision ref report failure reason :
  inv db → ref_ok ref → atomic db (mark_outcome id decision ref report failure reason).
Proof.
  intros Hinv Href. unfold mark_outcome. do 3 (apply atomic_guard; intros ?). apply atomic_bind_lift. intros _ _.
  apply atomic_bind_lift. intros u Hfail.
  assert (optional_hash (match ref with Some ref => ea_sha256 ref | None => failure end)) as Hev.
  { destruct ref as [ref|]; [by right|]. unfold optional_hash. case_bool_decide; [by left|]. cbn [negb] in Hfail.
    apply bind_Ok in Hfail as (x & [[= <-] Hx]%require_sha256_hex_Ok & _). by right. }
  assert (atomic db (do? transaction (let? row := get_reservation id in
    let? authority_json := authority_json_of id in
    do? sraise_if (negb (bool_decide (iv_status row = "qualifying"))
                   || bool_decide (iv_qualification_authority_digest row = "") || negb (is_some authority_json))
          (intake_error "qualification outcome lacks an active authority") ;;
    let? attempt := reading (λ db, Ok (Z.of_nat (length (dispositions_of db id)))) in
    do? insert_disposition
          {| dn_reservation_id := id; dn_attempt_index := attempt; dn_authority_digest := iv_qualification_authority_digest row;
             dn_authority_manifest_json := authority_json;
             dn_evidence_digest := match ref with Some ref => ea_sha256 ref | None => failure end;
             dn_attempt_ref_json := attempt_json ref; dn_report_digest := report;
             dn_failure_digest := failure; dn_decision := decision; dn_reason := reason |} ;;
    writing (update_row id (λ r, with_evidence (match ref with Some ref => ea_sha256 ref | None => failure end)
      (with_verdict {| vd_status := if bool_decide (decision = "FAIL") then "failed" else "no_decision";
                       vd_decision := decision; vd_reason := reason |} r)))) ;;
    get_reservation id)) as Hmain.
  2: { destruct (bool_decide (decision = "NO_DECISION")); apply atomic_guard; intros _; exact Hmain. }
  apply atomic_row; [done|]. intros r Hr Hok. unfold IntakeLogic.safe, sbind. rewrite (authority_json_found db id r Hr).
  cbn [iv_status view]. destruct (negb _ || _ || _) eqn:Hg; [done|]. bool_prop. cbn [sraise_if raise_if lift reading].
  unfold insert_disposition, sbind, reading, writing. destruct (existsb _ _); [done|]. cbn [raise_if].
  pose proof (ok_valid _ _ _ Hok) as Hv. assert (rv_status r = "qualifying") as Hst by done.
  pose proof (row_status_stage policy db r _ Hok Hst) as Hstage. inversion Hstage as [| | | | | |Hp Hl _ _| | | | | |].
  assert (decision = "FAIL" ∨ decision = "NO_DECISION") as Hdec by set_solver.
  eapply good_dispose; [done|exact Hr|done|done| |done|].
  - apply edge_same; [done..|]. rewrite Hst. unfold rv_status. cbn. destruct Hdec as [-> | ->]; decide_elem.
  - eapply row_ok_keep; [exact Hok|done..| |split; [apply Hv|exact Hev]|].
    + cbn. destruct Hdec as [-> | ->]; decide_elem.
    + unfold rv_status. cbn. destruct Hdec as [-> | ->]; cbn; [apply stage_failed|apply stage_no_decision; [done|]];
        destruct Hl as [[_ ->]|[_ ->]]; lia.
Qed.
End outcomes.

(** ** Outcomes and batches that passed their own checks *)

Definition outcome_ok (o : QualificationIntakeOutcome) : Prop :=
  QualificationIntakeOutcome_init (qo_reservation_digest o) (qo_selected_delta_digest o) (qo_authority_manifest_digest o)
    (qo_decision o) (qo_reason o) (qo_retryable o) (qo_attempt_artifact_sha256 o) (qo_report_digest o) (qo_failure_digest o)
    (qo_settlement_qualification o) = Ok o.

Record batch_ok (b : QualificationIntakeBatch) : Prop := {
  batch_init : QualificationIntakeBatch_init (qb_authority_manifest_digest b) (qb_outcomes b) (qb_attempt_ref b) (qb_retry_plan b) = Ok b;
  batch_outcomes : Forall outcome_ok (qb_outcomes b);
  batch_ref : ref_ok (qb_attempt_ref b)
}.

Lemma optional_digest_Ok o o' : optional_digest o = Ok o' → o' = o ∧ ∀ d, o = Some d → is_hex64 d = true.
Proof.
  destruct o as [d|]; cbn; [|by intros [= <-]]. intros Hd. apply bind_Ok in Hd as (x & Hx & [= <-]).
  apply require_digest_Ok in Hx as [[= <-] [Hx _]]. split; [done|]. by intros ? [= <-].
Qed.

Lemma outcome_ok_inv o :
  outcome_ok o →
  (is_some (qo_settlement_qualification o) = true → qo_decision o = DPass)
  ∧ (∀ d, qo_failure_digest o = Some d → is_hex64 d = true).
Proof.
  unfold outcome_ok, QualificationIntakeOutcome_init. intros Ho.
  do 4 (apply bind_Ok in Ho as (? & _ & Ho)). apply bind_Ok in Ho as (? & _ & Ho). do 2 (apply bind_Ok in Ho as (? & _ & Ho)).
  apply bind_Ok in Ho as (fd & Hfd & Ho). apply optional_digest_Ok in Hfd as [-> Hfd].
  do 3 (apply bind_Ok in Ho as (? & _ & Ho)). apply bind_Ok in Ho as (? & Hq & _). split; [|done].
  destruct (qo_settlement_qualification o) as [q|]; [|done]. intros _. apply bind_Ok in Hq as (? & Hp & _).
  apply raise_if_Ok in Hp. by bool_prop.
Qed.

Lemma batch_ok_inv b :
  batch_ok b →
  NoDup (qo_reservation_digest <$> qb_outcomes b) ∧ retry_ids (qb_retry_plan b) = no_decision_ids (qb_outcomes b).
Proof.
  intros [Hb _ _]. unfold QualificationIntakeBatch_init in Hb. apply bind_Ok in Hb as (? & _ & Hb). apply bind_Ok in Hb as (? & Hc & _).
  apply raise_if_Ok in Hc. apply orb_false_iff in Hc as [Hc Hr]. bool_prop. split; [|done].
  unfold has_duplicates in *. by bool_prop.
Qed.

(** ** Who is retried *)

Section batches.
Context {sha : Sha256} (policy : IntakePolicy) (Hpolicy : policy_ok policy).

Abbreviation inv := (inv policy).
Abbreviation row_ok := (row_ok policy).
Abbreviation good := (good policy).
Abbreviation atomic := (atomic policy).
Abbreviation safe := (safe policy).

Lemma retry_entries_ids b id x : assoc (retry_entries b) id = Some x → id ∈ retry_ids (qb_retry_plan b).
Proof.
  intros Ha%assoc_Some. unfold retry_entries, retry_ids in *. destruct (qb_retry_plan b) as [p|]; [|by apply not_elem_of_nil in Ha].
  apply list_elem_of_join in Ha as (rows & Hrow & Hrows). apply list_elem_of_join. apply elem_of_lookup_imap in Hrows as (i & group & -> & Hg).
  exists group. split; [|by eapply list_elem_of_lookup_2]. apply elem_of_lookup_imap in Hrow as (j & y & [= -> _] & Hy).
  by eapply list_elem_of_lookup_2.
Qed.

(** A passed reservation is not retried. *)
Lemma pass_not_retried b o :
  batch_ok b → o ∈ qb_outcomes b → qo_decision o = DPass → assoc (retry_entries b) (qo_reservation_digest o) = None.
Proof.
  intros Hb Ho Hd. destruct (batch_ok_inv b Hb) as [Hnd Hids]. destruct (assoc _ _) as [x|] eqn:Ha; [|done]. exfalso.
  apply retry_entries_ids in Ha. rewrite Hids in Ha. apply list_elem_of_fmap in Ha as (o' & Heq & Ho').
  apply list_elem_of_filter in Ho' as [Hd' Ho']. assert (o = o') as <- by (by eapply (NoDup_fmap_inj_elem qo_reservation_digest)).
  congruence.
Qed.

(** ** Retaining a pass *)

Lemma evaluation_stack_reads arena db : (evaluation_stack arena db).1 = db.
Proof. unfold evaluation_stack, sbind, lift, reading. destruct (require_sha256_hex _); done. Qed.

(** What [retain_pass] adds: the qualification with the next index and, when it is
    the second, the candidate that pairs it with the first. *)
Definition retains (db db' : Database) (id : string) : Prop :=
  ∃ q, ql_reservation_id q = id ∧ ql_reproduction_index q = Z.of_nat (retained db id)
    ∧ ((retained db id = 0%nat ∧ db' = set_qualifications (db_qualifications db ++ [q]) db)
       ∨ (retained db id = 1%nat ∧ paired db' id
          ∧ ∃ c, ca_reservation_id c = id ∧ id ∉ ca_reservation_id <$> db_candidates db
              ∧ db' = set_candidates (db_candidates db ++ [c]) (set_qualifications (db_qualifications db ++ [q]) db))).

Lemma insert_qualification_Ok q db db' u :
  insert_qualification q db = (db', Ok u) → db' = set_qualifications (db_qualifications db ++ [q]) db.
Proof.
  unfold insert_qualification, sbind, lift, reading, writing. destruct (sql_int _); [|done]. destruct (raise_if _ _); [|done].
  by intros [= <- _].
Qed.

Lemma insert_candidate_Ok c db db' u :
  insert_candidate c db = (db', Ok u) →
  ca_reservation_id c ∉ ca_reservation_id <$> db_candidates db ∧ db' = set_candidates (db_candidates db ++ [c]) db.
Proof.
  unfold insert_candidate, sbind, reading, writing. destruct (raise_if _ _) as [x|] eqn:Hr; [|done].
  apply raise_if_Ok in Hr. bool_prop. by intros [= <- _].
Qed.

Lemma decode_Ok {A} extra msg (f : pyval → result A) text a : decode extra msg f text = Ok a → ∃ v, text = Some v ∧ f v = Ok a.
Proof. unfold decode. destruct text as [v|]; [|done]. rewrite reraise_Ok. eauto. Qed.

Lemma retain_pass_Ok b current root row f o ref evidence q db db' u :
  logs_ok db → retain_pass b current root row f o ref evidence q db = (db', Ok u) → retains db db' (qo_reservation_digest o).
Proof.
  intros Hlogs. unfold retain_pass, sbind at 1. destruct (sraise_if _ _ db) as [db0 [x|]] eqn:E0; [|done].
  injection E0 as <- _. unfold sbind at 1. pose proof (evaluation_stack_reads (sq_arena_digest q) db) as Hread.
  destruct (evaluation_stack _ db) as [db0 [st|]]; [|done]. cbn in Hread. subst db0.
  destruct ref as [ref|], root as [root|]; try done. unfold sbind at 1, reading.
  set (id := qo_reservation_digest o). unfold sbind at 1. destruct (sraise_if _ _ db) as [db0 [y|]] eqn:E1; [|done].
  unfold sraise_if, lift in E1. injection E1 as <- E1. apply raise_if_Ok in E1. bool_prop. apply Nat.ltb_ge in E1.
  unfold sbind at 1. destruct (insert_qualification _ db) as [db1 [z|]] eqn:Hins; [|done].
  set (row1 := qualification_row_of _ _ _ _ _ _) in Hins. apply insert_qualification_Ok in Hins.
  assert (ql_reproduction_index row1 = Z.of_nat (retained db (ql_reservation_id row1))) as Hidx by done.
  destruct (qualifications_snoc db row1 Hlogs Hidx) as [_ Hsnoc]. unfold retains, retained.
  destruct (qualifications_of db id) as [|q0 [|q1 rest]] eqn:Hq; [..|cbn in E1; lia].
  - intros [= -> _]. exists row1. split_and!; [done|by rewrite Hidx; unfold retained; cbn; rewrite Hq|by left].
  - unfold sbind at 1, lift. destruct (decode _ _ _ _) as [both|] eqn:Hdec; [|done]. unfold sbind at 1.
    destruct (sraise_if _ _ db1) as [db2 [w|]] eqn:E2; [|done]. unfold sraise_if, lift in E2. injection E2 as <- E2.
    apply raise_if_Ok in E2. bool_prop. intros Hc. apply insert_candidate_Ok in Hc as [Hfresh ->].
    exists row1. split_and!; [done|by rewrite Hidx; unfold retained; cbn; rewrite Hq|]. right. split; [done|]. subst db1. split.
    + apply decode_Ok in Hdec as (v & Hv & Hrep). unfold reproduced in Hrep. apply bind_Ok in Hrep as (p & Hp & Hrep).
      apply bind_Ok in Hrep as (c & Hcand & [= <-]). cbn [fst snd] in *.
      exists q0, row1, v, p, q, c, (candidate_row_of id root q0 p c). split_and!; try done.
      * change (qualifications_of (set_qualifications (db_qualifications db ++ [row1]) db) id = [q0; row1]).
        rewrite Hsnoc, Hq. by rewrite bool_decide_eq_true_2.
      * rewrite (find_candidate_snoc (set_qualifications (db_qualifications db ++ [row1]) db)) by exact Hfresh.
        by rewrite bool_decide_eq_true_2.
    + eexists. split_and!; [..|done]; [done|exact Hfresh].
Qed.

(** ** The logs after a pass *)

Lemma retains_counts db db' id :
  logs_ok db → retains db db' id →
  retained db' id = S (retained db id) ∧ (retained db id ≤ 1)%nat
  ∧ (∀ other, other ≠ id → qualifications_of db' other = qualifications_of db other)
  ∧ log_grows db db' ∧ db_reservations db' = db_reservations db ∧ db_cursor db' = db_cursor db ∧ db_schema db' = db_schema db
  ∧ db_screens db' = db_screens db.
Proof.
  intros Hlogs (q & <- & Hidx & Hcase). destruct (qualifications_snoc db q Hlogs Hidx) as [_ Hsnoc].
  assert (∀ other, qualifications_of db' other = qualifications_of db other ++ (if bool_decide (ql_reservation_id q = other) then [q] else [])) as Hq.
  { intros other. destruct Hcase as [[_ ->]|(_ & _ & c & _ & _ & ->)]; exact (Hsnoc other). }
  split_and!.
  - unfold retained. rewrite Hq, bool_decide_eq_true_2, length_app by done. cbn. lia.
  - destruct Hcase as [[-> _]|[-> _]]; lia.
  - intros other Hne. rewrite Hq, bool_decide_eq_false_2 by congruence. by rewrite app_nil_r.
  - destruct Hcase as [[_ ->]|(_ & _ & c & _ & _ & ->)]; split_and!; cbn; try done; try (by eexists).
    rewrite fmap_app. by eexists.
  - by destruct Hcase as [[_ ->]|(_ & _ & c & _ & _ & ->)].
  - by destruct Hcase as [[_ ->]|(_ & _ & c & _ & _ & ->)].
  - by destruct Hcase as [[_ ->]|(_ & _ & c & _ & _ & ->)].
  - by destruct Hcase as [[_ ->]|(_ & _ & c & _ & _ & ->)].
Qed.

Lemma paired_other db db' id :
  qualifications_of db' id = qualifications_of db id → find_candidate db' id = find_candidate db id → paired db id → paired db' id.
Proof. intros Hq Hc (q0 & q1 & v & p & r & c & row & Hp). exists q0, q1, v, p, r, c, row. by rewrite Hq, Hc. Qed.

Lemma retains_logs db db' id : logs_ok db → id ∈ rv_id <$> db_reservations db → retains db db' id → logs_ok db'.
Proof.
  intros Hlogs Hid Hret. destruct (retains_counts db db' id Hlogs Hret) as (Hn & Hle & Hother & _ & Hrows & _ & _ & Hscr).
  pose proof Hret as (q & <- & Hidx & Hcase). destruct (qualifications_snoc db q Hlogs Hidx) as [Hraw _].
  destruct Hlogs as [H1 H2 H3 H4 H5 H6].
  assert (db_qualifications db' = db_qualifications db ++ [q] ∧ db_dispositions db' = db_dispositions db) as [Hquals Hdisp].
  { by destruct Hcase as [[_ ->]|(_ & _ & c & _ & _ & ->)]. }
  split.
  - unfold dispositions_of in *. by rewrite Hdisp.
  - unfold screens_of in *. by rewrite Hscr.
  - intros id. specialize (Hraw id). unfold raw_qualifications in *. cbn in Hraw. by rewrite Hquals.
  - rewrite Hscr, Hrows. done.
  - rewrite Hquals, Hrows. intros x [Hx| ->%list_elem_of_singleton]%elem_of_app; [by apply H5|done].
  - intros id Htwo. destruct (decide (id = ql_reservation_id q)) as [->|Hne].
    + destruct Hcase as [[Hz _]|(_ & Hp & _)]; [lia|done].
    + eapply paired_other; [by apply Hother| |apply H6].
      * destruct Hcase as [[_ ->]|(_ & _ & c & Hcid & Hfresh & ->)]; [done|].
        rewrite (find_candidate_snoc (set_qualifications (db_qualifications db ++ [q]) db)) by (cbn; by rewrite Hcid).
        rewrite bool_decide_eq_false_2 by congruence. done.
      * unfold retained in *. by rewrite <-(Hother id Hne).
Qed.
(** ** One outcome *)

Lemma outcome_verdict_stage o r r' n k attempt reason verdict :
  rv_publication r' = rv_publication r → rv_publication r ≠ unpublished → lane_ok n r →
  (verdict = retry_verdict policy (sn_lane (rv_screen r)) attempt reason ∨ (verdict = decided_verdict o n ∧ qo_decision o ≠ DPass)) →
  vd_decision verdict ∈ [""; "PASS"; "FAIL"; "NO_DECISION"] ∧ ("qualifying", vd_status verdict) ∈ edges
  ∧ stage (ip_max_transport_retries policy) n k r' (vd_status verdict).
Proof.
  intros Hp Hpub Hl. rewrite <-Hp in Hpub. unfold retry_verdict, decided_verdict. intros [->|[-> Hd]].
  - destruct (_ <? _); cbn.
    + destruct Hl as [[-> ->]|[-> ->]]; cbn; (split_and!; [decide_elem..|]); [by apply stage_published|by apply stage_reproduction].
    + split_and!; [decide_elem..|]. apply stage_held; [done|]. destruct Hl as [[_ ->]|[_ ->]]; lia.
  - destruct (qo_decision o); [done|..]; cbn; (split_and!; [decide_elem..|]); apply stage_failed; destruct Hl as [[_ ->]|[_ ->]]; lia.
Qed.

Lemma pass_verdict_stage o r' n k :
  qo_decision o = DPass → rv_publication r' ≠ unpublished → (1 ≤ n ≤ 2)%nat →
  let verdict := decided_verdict o n in
  vd_decision verdict ∈ [""; "PASS"; "FAIL"; "NO_DECISION"] ∧ ("qualifying", vd_status verdict) ∈ edges
  ∧ stage (ip_max_transport_retries policy) n k r' (vd_status verdict).
Proof.
  intros Hd Hp Hn. unfold decided_verdict. rewrite Hd. destruct (Nat.eqb_spec n 2) as [->|Hne]; cbn.
  - split_and!; [decide_elem..|]. by apply stage_qualified.
  - split_and!; [decide_elem..|]. apply stage_reproduction; [done|lia].
Qed.
(** The row an outcome writes, for any verdict the stages allow. *)
Lemma good_outcome db db2 id r retry q verdict :
  inv db → find_row db id = Some r → rv_status r = "qualifying" → db_reservations db2 = db_reservations db →
  db_cursor db2 = db_cursor db → db_schema db2 = db_schema db → log_grows db db2 → logs_ok db2 →
  (∀ other, other ≠ id → retained db2 other = retained db other ∧ length (screens_of db2 other) = length (screens_of db other)) →
  qualification_columns_ok q →
  (let f := λ r, with_qualification q (with_retry retry (with_verdict verdict r)) in
   vd_decision verdict ∈ [""; "PASS"; "FAIL"; "NO_DECISION"] ∧ ("qualifying", vd_status verdict) ∈ edges
   ∧ stage (ip_max_transport_retries policy) (retained db2 id) (length (screens_of db2 id)) (f r) (vd_status verdict)) →
  good db (update_row id (λ r, with_qualification q (with_retry retry (with_verdict verdict r))) db2).
Proof.
  intros Hinv Hr Hs Hrows Hcur Hsch Hgrow Hlogs Hother Hq (Hd & He & Hst). pose proof (inv_row policy db id r Hinv Hr) as Hok.
  pose proof (ok_valid _ _ _ Hok) as Hv. pose proof (find_row_Some _ _ _ Hr) as [_ Hid].
  eapply good_log_move; [done|exact Hr|done|done|done|done|done|done| |done|].
  - apply edge_same; [done..|]. by rewrite Hs.
  - split; [|exact (ok_attempts _ _ _ Hok)|].
    + eapply row_valid_change; [exact Hv|done|done|done|by eapply stage_status|done|apply Hv|apply Hv|done|exact (valid_screen_columns r Hv)].
    + cbn. rewrite Hid. exact Hst.
Qed.

Lemma safe_apply_outcome db b current root o :
  inv db → batch_ok b → o ∈ qb_outcomes b → (qo_decision o = DPass → is_some (qo_settlement_qualification o) = true) →
  safe db (apply_outcome policy b current root o).
Proof.
  intros Hinv Hb Ho Hpass. unfold apply_outcome. set (id := qo_reservation_digest o). apply safe_bind_get; [done|]. intros r Hr Hok.
  apply safe_guard. cbn [iv_status iv_qualification_authority_digest iv_delta_fingerprint iv_screen_lane view]. intros Hg. bool_prop.
  assert (rv_status r = "qualifying") as Hs by done. destruct (row_fingerprint r) as [f|]; [|done]. apply safe_guard. intros _.
  unfold IntakeLogic.safe, sbind at 1. rewrite (authority_json_found db id r Hr). unfold sbind at 1, reading at 1. unfold sbind at 1.
  set (ev := match _ with Some ref => ea_sha256 ref | None => _ end). set (d := {| dn_reservation_id := id |}).
  destruct (insert_disposition d db) as [db1 [u|]] eqn:Hins; [|done].
  assert (db1 = set_dispositions (db_dispositions db ++ [d]) db) as ->.
  { unfold insert_disposition, sbind, reading, writing in Hins. destruct (raise_if _ _); [|done]. by injection Hins as <- _. }
  set (db1 := set_dispositions _ db) in *. clear Hins.
  assert (logs_ok db1) as Hlogs1 by (apply logs_ok_disposition; [apply Hinv|done]).
  assert (log_grows db db1) as Hgrow1 by (split_and!; cbn; [by eexists|done..]).
  pose proof (row_status_stage policy db r _ Hok Hs) as Hstage. inversion Hstage as [| | | | | |Hp Hl _ _| | | | | |].
  pose proof (find_row_Some _ _ _ Hr) as [Hin Hid]. rewrite Hid in Hl.
  pose proof (proj1 (Forall_forall _ _) (batch_outcomes b Hb) o Ho) as Hoo. destruct (outcome_ok_inv o Hoo) as [Hdec Hfail].
  assert (qualification_columns_ok (spent ev)) as Hspent.
  { split; [by left|]. cbn. unfold ev. pose proof (batch_ref b Hb) as Href.
    assert (optional_hash (default "" (qo_failure_digest o))) as Hdef.
    { destruct (qo_failure_digest o) as [fd|]; [right; by apply Hfail|by left]. }
    destruct (is_some (qo_attempt_artifact_sha256 o)); [|done]. destruct (qb_attempt_ref b); [by right|done]. }
  unfold sbind at 1. destruct (qo_settlement_qualification o) as [q|].
  - destruct (retain_pass _ _ _ _ _ _ _ _ _ db1) as [db2 [v|]] eqn:Hret; [|done]. apply retain_pass_Ok in Hret; [|done].
    pose proof (pass_not_retried b o Hb Ho (Hdec eq_refl)) as Hnr. fold id in Hnr, Hret. rewrite Hnr. unfold sbind, reading, writing.
    destruct (retains_counts db1 db2 id Hlogs1 Hret) as (Hn & Hle & Hother & Hgrow & Hrows & Hcur & Hsch & Hscr).
    eapply good_outcome; [done|exact Hr|done|done|done|done|by etrans| | |done|].
    + eapply retains_logs; [exact Hlogs1| |exact Hret]. cbn. rewrite <-Hid. by apply list_elem_of_fmap_2.
    + intros other Hne. split; [unfold retained; by rewrite (Hother other Hne)|]. unfold screens_of. by rewrite Hscr.
    + apply pass_verdict_stage; [by apply Hdec|done|]. fold (retained db2 id). rewrite Hn. change (retained db1 id) with (retained db id) in *. lia.
  - cbn [lift]. assert (qo_decision o ≠ DPass) as Hnp by (intros E; by specialize (Hpass E)).
    destruct (assoc _ _) as [[[group position] reason]|].
    + eapply good_outcome; [done|exact Hr|done|done|done|done|done|done|done|apply no_qualification_ok|].
      eapply (outcome_verdict_stage o r); [done|done|exact Hl|by left].
    + unfold sbind, reading, writing. eapply good_outcome; [done|exact Hr|done|done|done|done|done|done|done|done|].
      eapply (outcome_verdict_stage o r _ _ _ 0 ""); [done|done|exact Hl|by right].
Qed.

(** ** Whole batches *)

Lemma safe_smapM {A B} (f : A → storeM B) l db :
  inv db → (∀ x db', x ∈ l → inv db' → safe db' (f x)) → safe db (smapM f l).
Proof.
  revert db. induction l as [|x l IH]; intros db Hinv Hf; [by apply good_refl|]. cbn [smapM]. unfold IntakeLogic.safe, sbind, lift.
  pose proof (Hf x db (list_elem_of_here _ _) Hinv) as Hx. unfold IntakeLogic.safe in Hx. destruct (f x db) as [db1 [y|]]; [|done].
  specialize (IH db1 (proj1 Hx) (λ z db' Hz, Hf z db' (list_elem_of_further _ _ _ Hz))). unfold IntakeLogic.safe in IH.
  destruct (smapM f l db1) as [db2 [ys|]]; [|done]. by eapply good_trans.
Qed.

Lemma smapM_get db ids :
  inv db → (∀ id, id ∈ ids → is_Some (find_row db id)) → ∃ rows, smapM get_reservation ids db = (db, Ok rows).
Proof.
  intros Hinv. induction ids as [|id ids IH]; intros Hids; [by eexists|]. cbn [smapM]. unfold sbind, lift.
  destruct (Hids id (list_elem_of_here _ _)) as [r Hr]. rewrite (get_found policy), Hr by done.
  destruct IH as [rows ->]; [|by eexists]. intros x Hx. apply Hids. by right.
Qed.

(** An outcome that was applied found its reservation. *)
Lemma apply_outcome_found db b current root o db' u :
  inv db → apply_outcome policy b current root o db = (db', Ok u) → is_Some (find_row db (qo_reservation_digest o)).
Proof.
  intros Hinv. unfold apply_outcome, sbind at 1. rewrite (get_found policy) by done. by destruct (find_row db _) as [r|].
Qed.

Lemma smapM_outcomes_found db b current root outcomes db' u :
  inv db → (∀ x db', x ∈ outcomes → inv db' → safe db' (apply_outcome policy b current root x)) →
  smapM (apply_outcome policy b current root) outcomes db = (db', Ok u) →
  ∀ o, o ∈ outcomes → is_Some (find_row db' (qo_reservation_digest o)).
Proof.
  revert db u. induction outcomes as [|x l IH]; intros db u Hinv Hf; [by intros _ o ?%not_elem_of_nil|]. cbn [smapM]. unfold sbind, lift.
  pose proof (Hf x db (list_elem_of_here _ _) Hinv) as Hx. unfold IntakeLogic.safe in Hx.
  destruct (apply_outcome _ _ _ _ x db) as [db1 [y|]] eqn:Happ; [|done].
  assert (∀ z db', z ∈ l → inv db' → safe db' (apply_outcome policy b current root z)) as Hl by (intros z d Hz; by apply Hf; right).
  pose proof (safe_smapM _ l db1 (proj1 Hx) Hl) as Hsafe. unfold IntakeLogic.safe in Hsafe.
  destruct (smapM _ l db1) as [db2 [ys|]] eqn:Hrest; [|done]. intros [= <- _] o [->|Ho]%elem_of_cons; [|exact (IH db1 ys (proj1 Hx) Hl Hrest o Ho)].
  eapply good_keeps; [exact Hsafe|]. eapply good_keeps; [exact Hx|]. by eapply apply_outcome_found.
Qed.

Lemma atomic_apply_batch db b current root : inv db → batch_ok b → atomic db (apply_qualification_batch policy b current root).
Proof.
  intros Hinv Hb. unfold apply_qualification_batch. apply atomic_bind_reading. intros cursor _. apply atomic_bind_lift. intros cur _.
  apply atomic_guard. intros _. apply atomic_guard. intros Hpass. apply atomic_guard. intros _.
  assert (∀ o db', o ∈ qb_outcomes b → inv db' → safe db' (apply_outcome policy b cur (path_str <$> root) o)) as Hsafe.
  { intros o db' Ho Hinv'. apply safe_apply_outcome; [done|done|done|]. intros Hd.
    destruct (is_some (qo_settlement_qualification o)) eqn:E; [done|]. exfalso.
    assert (existsb (λ o, is_pass o && negb (is_some (qo_settlement_qualification o))) (qb_outcomes b) = true) as Hex; [|congruence].
    apply existsb_exists. exists o. split; [by apply list_elem_of_In|]. rewrite E. unfold is_pass. by rewrite bool_decide_eq_true_2. }
  unfold IntakeLogic.atomic, sbind, transaction. pose proof (safe_smapM _ (qb_outcomes b) db Hinv (λ x d Hx, Hsafe x d Hx)) as Hall.
  unfold IntakeLogic.safe in Hall. destruct (smapM _ _ db) as [db' [u|]] eqn:Hrun; [|done].
  destruct (smapM_get db' (qo_reservation_digest <$> qb_outcomes b)) as [rows ->]; [apply Hall| |done].
  intros id Hid. apply list_elem_of_fmap in Hid as (o & -> & Ho). by eapply smapM_outcomes_found.
Qed.
End batches.
