(* ===== verification/IntakeQueue.v ===== *)
(** * Opening, admission, expiry and archival are legal

    The operations that change the queue as a whole keep the invariant: the
    opening of a store with its migrations, the evaluation stacks, the automatic
    expiry of stale rows and the archival of migration holds. *)

From Stdlib Require Import ZArith Lia Ascii.
From stdpp Require Import base tactics numbers list strings gmap sorting relations.
From S2P Require Import Prelude PyValue Sha256 Identity Strict Provider Stack Release StackFacts ReleaseCorrect StackPlan Settlement.
From S2P Require Import SettlementPlan SettlementFacts Publication Journal PublicationSystem Fingerprint QualificationBatch Arena.
From S2P Require Import IntakeData Intake IntakeAdmission IntakeInvariant IntakeLogic IntakeSteps IntakeBatches.

Section queue.
Context {sha : Sha256} (policy : IntakePolicy) (Hpolicy : policy_ok policy).

Abbreviation inv := (inv policy).
Abbreviation row_ok := (row_ok policy).
Abbreviation good := (good policy).
Abbreviation atomic := (atomic policy).
Abbreviation safe := (safe policy).

(** ** Tables the invariant does not read *)

(** Two databases with the same reservations and logs. *)
Definition same_tables (db db' : Database) : Prop :=
  db_reservations db' = db_reservations db ∧ db_dispositions db' = db_dispositions db ∧ db_screens db' = db_screens db
  ∧ db_qualifications db' = db_qualifications db ∧ db_candidates db' = db_candidates db.

Lemma logs_ok_same db db' : same_tables db db' → logs_ok db → logs_ok db'.
Proof.
  intros (Hr & Hd & Hs & Hq & Hc) [H1 H2 H3 H4 H5 H6]. split.
  - unfold dispositions_of in *. by rewrite Hd.
  - unfold screens_of in *. by rewrite Hs.
  - unfold raw_qualifications in *. by rewrite Hq.
  - by rewrite Hs, Hr.
  - by rewrite Hq, Hr.
  - intros id Hn. eapply paired_other; [..|apply H6]; unfold retained, qualifications_of, find_candidate in *; by rewrite ?Hq, ?Hc in *.
Qed.

Lemma good_same db db' :
  inv db → same_tables db db' → db_schema db' = db_schema db → (∃ c, read_cursor (db_cursor db') = Ok c) →
  cursor_advances (db_cursor db) (db_cursor db') → good db db'.
Proof.
  intros Hinv Hsame Hsch Hcur Hadv. pose proof Hsame as (Hr & Hd & Hs & Hq & Hc). split; [split|split_and!].
  - rewrite Hsch. apply Hinv.
  - rewrite Hr. apply Hinv.
  - rewrite Hr. intros r Hin. eapply row_ok_same; [by apply Hinv|..]; unfold retained, qualifications_of, screens_of; by rewrite ?Hq, ?Hs.
  - unfold pending_count. rewrite Hr. apply Hinv.
  - rewrite Hr. apply Hinv.
  - rewrite Hr. apply Hinv.
  - eapply logs_ok_same; [done|apply Hinv].
  - done.
  - by rewrite Hr.
  - split_and!; [by rewrite Hd|by rewrite Hs|by rewrite Hq|by rewrite Hc].
  - done.
Qed.

(** ** Opening *)

Lemma find_candidate_map db db' g id :
  (∀ c, ca_reservation_id (g c) = ca_reservation_id c) → db_candidates db' = g <$> db_candidates db →
  find_candidate db' id = g <$> find_candidate db id.
Proof.
  intros Hg Hc. unfold find_candidate. rewrite Hc. clear Hc. induction (db_candidates db) as [|c l IH]; [done|].
  rewrite fmap_cons. cbn [List.find]. rewrite Hg. case_bool_decide; [done|exact IH].
Qed.

(** Candidates that keep their core keep their pairs. *)
Lemma paired_core db db' g id :
  (∀ c, candidate_core (g c) = candidate_core c) → db_candidates db' = g <$> db_candidates db →
  qualifications_of db' id = qualifications_of db id → paired db id → paired db' id.
Proof.
  intros Hg Hc Hq (q0 & q1 & v & p & r & c & row & H1 & H2 & H3 & H4 & H5 & H6 & H7 & H8 & H9 & H10).
  exists q0, q1, v, p, r, c, (g row). unfold candidate_core in Hg.
  assert (∀ c, ca_reservation_id (g c) = ca_reservation_id c) as Hid by (intros x; specialize (Hg x); congruence).
  specialize (Hg row). injection Hg as _ Hdig Hjson. rewrite Hq, (find_candidate_map _ _ g _ Hid Hc), H8, Hdig, Hjson. done.
Qed.

Lemma recover_row_edge r : recover_row r = r ∨ (rv_publication (recover_row r) = rv_publication r
  ∧ rv_id (recover_row r) = rv_id r ∧ rv_arrival (recover_row r) = rv_arrival r
  ∧ rv_admission_epoch (recover_row r) = rv_admission_epoch r ∧ rv_status r ∈ ["fetching"; "qualifying"; "screening"]).
Proof.
  unfold recover_row, status_in. case_bool_decide as Hs; [right; split_and!; try done; set_solver|].
  case_bool_decide as Hs2; [|by left]. right. split_and!; try done. set_solver.
Qed.

Lemma recover_row_ok db r : row_ok db r → moves r (recover_row r) ∧ rv_publication (recover_row r) = rv_publication r ∧ row_ok db (recover_row r).
Proof.
  intros Hok. pose proof (ok_valid _ _ _ Hok) as Hv. unfold recover_row, status_in. case_bool_decide as Hs.
  - assert ((rv_status r, "held") ∈ edges) as He by (elem_cases Hs; rewrite Hs; decide_elem).
    split_and!; [right; by apply edge_same|done|].
    eapply row_ok_keep; [exact Hok|done..|decide_elem|exact (valid_qualification_columns r Hv)|].
    pose proof (ok_stage _ _ _ Hok) as Hst. apply stage_held.
    + intros Hp. eapply stage_unpublished; [exact Hst|..|exact Hp]; elem_cases Hs; by rewrite Hs.
    + eapply stage_retained_open; [exact Hst|..]; elem_cases Hs; by rewrite Hs.
  - case_bool_decide as Hs2; [|by split_and!; [left|..]].
    pose proof (row_status_stage policy db r _ Hok Hs2) as Hst. inversion Hst as [| | | |Hp Hl _| | | | | | | |].
    split_and!; [right; apply edge_same; [done..|rewrite Hs2; cbn; unfold rv_status; cbn; case_bool_decide; decide_elem]|done|].
    pose proof (valid_screen_columns r Hv) as (? & ? & ? & ? & ?).
    eapply row_ok_change; [exact Hok|done|done|done|decide_elem|apply Hv|split; [apply Hv|apply Hok]|exact (valid_qualification_columns r Hv)| |].
    + split_and!; try done. decide_elem.
    + unfold rv_status. cbn. destruct Hl as [[-> Hn]|[-> Hn]]; cbn; [by apply stage_published|by apply stage_reproduction].
Qed.

Lemma recover_candidate_core c : candidate_core (recover_candidate c) = candidate_core c.
Proof. unfold recover_candidate. by case_bool_decide. Qed.

Lemma good_recover db :
  inv db → good db (set_reservations (recover_row <$> db_reservations db) (set_candidates (recover_candidate <$> db_candidates db) db)).
Proof.
  intros Hinv. assert (∀ r, r ∈ db_reservations db → row_ok db r) as Hrows by apply Hinv. eapply (good_map policy _ _ recover_row); try done.
  - intros r Hr. by apply (recover_row_ok db r), Hrows.
  - intros r Hr. destruct (recover_row_ok db r (Hrows r Hr)) as (_ & _ & Hok). by eapply row_ok_same.
  - intros epoch target Ht. cbn. eapply (targets_map policy db); [done| |done]. intros r Hr.
    by destruct (recover_row_ok db r (Hrows r Hr)) as (? & ? & _).
  - assert (rv_id <$> (recover_row <$> db_reservations db) = rv_id <$> db_reservations db) as Hids.
    { rewrite <-list_fmap_compose. apply list_fmap_ext. intros i r _. cbn. by destruct (recover_row_edge r) as [->|(_ & ? & _)]. }
    destruct (inv_logs _ _ Hinv) as [H1 H2 H3 H4 H5 H6]. split; try done; cbn [db_reservations set_reservations]; rewrite ?Hids; try done.
    intros id Hn. eapply (paired_core db _ recover_candidate); [apply recover_candidate_core|done|done|by apply H6].
  - split_and!; try done. cbn. rewrite <-list_fmap_compose. apply reflexive_eq, list_fmap_ext. intros i c _. symmetry. apply recover_candidate_core.
Qed.

Lemma upgraded db : inv db → upgrade_to_schema3 db = (db, Ok tt).
Proof. intros Hinv. unfold upgrade_to_schema3, sbind, reading, writing. by rewrite (inv_schema _ _ Hinv). Qed.

Lemma atomic_open db scope : inv db → atomic db (open_store scope).
Proof.
  intros Hinv. unfold open_store, IntakeLogic.atomic, sbind at 1. rewrite (upgraded db Hinv).
  unfold _bind_scope, sbind, reading, writing, transaction, _recover_interrupted, writing.
  destruct (db_scope db) as [text|] eqn:Hscope.
  - destruct (negb _); [done|]. cbn [raise_if]. by apply good_recover.
  - rewrite (inv_schema _ _ Hinv).
    assert (good db (set_meta (Some "3") (Some (scope_text scope)) db)) as Hg.
    { apply good_same; [done|done|symmetry; apply Hinv|apply Hinv|done]. }
    eapply good_trans; [exact Hg|]. apply good_recover, Hg.
Qed.

(** The store a new database opens to. *)
Definition fresh_store (scope : IntakeScope) : Database := (open_store scope empty_database).1.

Lemma inv_fresh scope : inv (fresh_store scope).
Proof.
  unfold fresh_store, open_store, upgrade_to_schema3, _bind_scope, sbind, reading, writing, transaction, _recover_interrupted. cbn.
  destruct (policy_ok_bounds policy Hpolicy) as (_ & ? & ? & ? & _).
  split; try done; [constructor|by intros r ?%not_elem_of_nil|unfold pending_count, count_where; cbn; lia| |..|by eexists].
  - intros pre r post Hs. by destruct pre.
  - intros epoch target _. unfold alive_target_count, count_where. cbn. lia.
  - split; try done; by intros x ?%not_elem_of_nil.
Qed.

(** ** Evaluation stacks *)

Lemma atomic_initialize_stack db manifest tree : inv db → stack_wf manifest → atomic db (initialize_evaluation_stack manifest tree).
Proof.
  intros Hinv Hwf. unfold initialize_evaluation_stack, _initialize_evaluation_stack_row, IntakeLogic.atomic, transaction, sbind at 1.
  unfold sbind at 1, lift at 1. destruct (require_sha256_hex (PStr tree)) as [t|] eqn:Ht; [|done].
  apply require_sha256_hex_Ok in Ht as [[= <-] Ht]. unfold sbind at 1, reading at 1.
  destruct (find_stack db (es_arena_digest manifest)) as [row|] eqn:Hf.
  - unfold sraise_if at 1, lift at 1. destruct (raise_if _ _); [|done]. unfold sbind at 1.
    pose proof (evaluation_stack_reads (es_arena_digest manifest) db) as Hread.
    destruct (evaluation_stack _ db) as [db1 [st|]]; cbn in Hread; subst db1; [|done].
    unfold sbind, sraise_if, lift. destruct (raise_if _ _); [by apply good_refl|done].
  - unfold writing. set (db1 := set_stacks _ db).
    assert (good db db1) as Hgood by (apply good_same; [done|done|done|apply Hinv|done]).
    assert (∃ st, evaluation_stack (es_arena_digest manifest) db1 = (db1, Ok st) ∧ ev_manifest st = manifest ∧ ev_tree_digest st = tree) as (st & Hst & Hm & Htree).
    { pose proof (sf_arena _ Hwf) as [Harena _]. unfold evaluation_stack, sbind, lift, reading. rewrite (hex_pass _ Harena).
      assert (find_stack db1 (es_arena_digest manifest) = Some {| sk_arena_id := es_arena_digest manifest; sk_generation := 0;
        sk_stack_digest := EvaluationStackManifest_digest manifest; sk_tree_digest := tree;
        sk_stack_json := Some (EvaluationStackManifest_to_dict manifest);
        sk_transition_event_id := digest_of "optima.chain.evaluation-stack-genesis" (py_dict [
          ("arena_digest", PStr (es_arena_digest manifest)); ("stack_digest", PStr (EvaluationStackManifest_digest manifest));
          ("tree_digest", PStr tree)]) |}) as ->.
      { unfold find_stack, db1 in *. cbn [db_stacks set_stacks]. clear -Hf. induction (db_stacks db) as [|x l IH]; cbn in *.
        - by rewrite bool_decide_eq_true_2.
        - case_bool_decide; [done|by apply IH]. }
      cbn [sk_stack_json sk_stack_digest sk_arena_id sk_generation sk_tree_digest sk_transition_event_id]. unfold decode.
      rewrite (stack_roundtrip manifest Hwf). cbn [reraise bind]. rewrite bool_decide_eq_true_2 by done. cbn [negb raise_if bind].
      unfold EvaluationStackState_init. rewrite (hex_pass _ Harena), (hex_pass _ Ht), hex_pass by (by apply digest_of_is_hex64). cbn [bind].
      rewrite bool_decide_eq_true_2 by done. cbn. eexists. split_and!; [done|done..]. }
    unfold sbind at 1. rewrite Hst. unfold sbind, sraise_if, lift. rewrite Hm, Htree, !bool_decide_eq_true_2 by done. done.
Qed.
End queue.

(** ** Expiry and archival are legal

    The automatic expiry changes exactly the stale rows, and raises on no store
    that satisfies the invariant; the archival of a migration hold ends its row. *)

Section expiry.
Context {sha : Sha256} (policy : IntakePolicy) (Hpolicy : policy_ok policy).

Abbreviation inv := (inv policy).
Abbreviation row_ok := (row_ok policy).
Abbreviation good := (good policy).
Abbreviation atomic := (atomic policy).
Abbreviation safe := (safe policy).

(** ** The rows of an expiry *)

Definition expired_in (db : Database) (threshold : Z) (r : ReservationRow) : ReservationRow :=
  if is_stale db threshold r then expire_row r else r.

Lemma is_stale_status db threshold r : is_stale db threshold r = true → rv_status r ∈ _AUTOMATICALLY_EXPIRABLE.
Proof. unfold is_stale, status_in. intros Hs. apply andb_true_iff in Hs as [[Hs _]%andb_true_iff _]. by apply bool_decide_eq_true in Hs. Qed.

Lemma expire_row_ok db r :
  row_ok db r → rv_status r ∈ _AUTOMATICALLY_EXPIRABLE → row_edge r (expire_row r) ∧ row_ok db (expire_row r).
Proof.
  intros Hok Hs. pose proof (ok_valid _ _ _ Hok) as Hv. split.
  - apply edge_same; [done..|]. elem_cases Hs; rewrite Hs; decide_elem.
  - eapply row_ok_keep; [exact Hok|done..|decide_elem|exact (valid_qualification_columns r Hv)|].
    apply stage_expired. eapply stage_retained_open; [exact (ok_stage _ _ _ Hok)|..]; elem_cases Hs; by rewrite Hs.
Qed.

Lemma expired_in_ok db threshold r :
  row_ok db r → moves r (expired_in db threshold r) ∧ rv_publication (expired_in db threshold r) = rv_publication r
  ∧ row_ok db (expired_in db threshold r).
Proof.
  intros Hok. unfold expired_in. destruct (is_stale db threshold r) eqn:Hs; [|by split_and!; [left|..]].
  destruct (expire_row_ok db r Hok (is_stale_status _ _ _ Hs)) as [He Hr]. split_and!; [by right|done|done].
Qed.

Lemma good_expire db threshold :
  inv db → good db (set_reservations (expired_in db threshold <$> db_reservations db) db).
Proof.
  intros Hinv. assert (∀ r, r ∈ db_reservations db → row_ok db r) as Hrows by apply Hinv.
  eapply (good_map policy _ _ (expired_in db threshold)); try done.
  - intros r Hr. by apply expired_in_ok, Hrows.
  - intros r Hr. apply row_ok_rows. by apply expired_in_ok, Hrows.
  - cbn. apply (targets_map policy db _ Hinv). intros r Hr. by destruct (expired_in_ok db threshold r (Hrows r Hr)) as (? & ? & _).
  - apply logs_ok_rows; [|apply Hinv]. rewrite <-list_fmap_compose. apply list_fmap_ext. intros i r _. cbn. unfold expired_in. by case_match.
Qed.

(** ** The automatic expiry *)

(** What an expiry at a block leaves. *)
Definition expire_result (db : Database) (current : Z) : Database :=
  let threshold := current - ip_expiry_blocks policy in
  if threshold <? 0 then db else set_reservations (expired_in db threshold <$> db_reservations db) db.

Definition expired_rows (db : Database) (current : Z) : list ReservationRow :=
  let threshold := current - ip_expiry_blocks policy in
  if threshold <? 0 then [] else in_order (List.filter (is_stale db threshold) (db_reservations db)).

Lemma good_expire_result db current : inv db → good db (expire_result db current).
Proof. intros Hinv. unfold expire_result. cbv zeta. case_match; [by apply good_refl|by apply good_expire]. Qed.

Lemma reproduction_consistent db : inv db → existsb (malformed_reproduction db) (db_reservations db) = false.
Proof.
  intros Hinv. apply not_true_is_false. intros Hex. apply existsb_exists in Hex as (r & Hr%list_elem_of_In & Hm).
  unfold malformed_reproduction in Hm. apply andb_true_iff in Hm as [Hs Hm]. apply bool_decide_eq_true in Hs.
  pose proof (row_status_stage policy db r _ (inv_rows _ _ Hinv r Hr) Hs) as Hst. inversion Hst as [| | | | | | |_ Hn| | | | |].
  unfold retained in Hn. pose proof (log_qualifications _ (inv_logs _ _ Hinv) (rv_id r)) as Hidx.
  rewrite Hn in Hm. cbn [Nat.eqb negb orb] in Hm. rewrite (qualifications_raw db (rv_id r)) in Hn, Hm by apply Hinv.
  destruct (raw_qualifications db (rv_id r)) as [|q [|]]; try done. cbn in Hidx. injection Hidx as Hq. cbn in Hm. rewrite Hq in Hm. done.
Qed.

(** The two things that can stop an expiry. *)
Definition expiry_refused (db : Database) (current : Z) : Prop :=
  0 ≤ current - ip_expiry_blocks policy
  ∧ (sql_fits current = false ∨ ∃ q, q ∈ db_qualifications db ∧ (ql_retained_block q < 0 ∨ current < ql_retained_block q)).

Lemma expire_stale_rows_run db current :
  inv db → (∃ e, _expire_stale_rows policy current db = (db, Raise e) ∧ expiry_refused db current)
  ∨ (_expire_stale_rows policy current db = (expire_result db current, Ok (rv_id <$> expired_rows db current)) ∧ ¬ expiry_refused db current).
Proof.
  intros Hinv. unfold _expire_stale_rows, expire_result, expired_rows, expiry_refused. cbv zeta.
  destruct (Z.ltb_spec (current - ip_expiry_blocks policy) 0) as [Ht|Ht]; [right; split; [done|lia]|].
  unfold sbind, reading, lift, writing. rewrite reproduction_consistent by done. cbn [raise_if]. unfold sql_int.
  destruct (sql_fits current) eqn:Hfit; cbn [negb raise_if]; [|left; eexists; split; [done|split; [done|by left]]].
  destruct (existsb _ (db_qualifications db)) eqn:Hq; cbn [raise_if].
  - left. eexists. split; [done|]. split; [done|]. right. apply existsb_exists in Hq as (q & Hq%list_elem_of_In & Hb).
    exists q. split; [done|]. apply orb_true_iff in Hb as [Hb|Hb]; apply Z.ltb_lt in Hb; lia.
  - right. split; [done|]. intros [_ [?|(q & Hin & Hb)]]; [done|]. apply not_true_iff_false in Hq. apply Hq, existsb_exists.
    exists q. split; [by apply list_elem_of_In|]. apply orb_true_iff. destruct Hb; [left|right]; by apply Z.ltb_lt.
Qed.

Lemma expired_found db current r : inv db → r ∈ expired_rows db current → is_Some (find_row (expire_result db current) (rv_id r)).
Proof.
  intros Hinv Hr. eapply good_keeps; [by apply good_expire_result|]. unfold expired_rows in Hr. cbv zeta in Hr.
  case_match; [by apply not_elem_of_nil in Hr|]. apply elem_of_in_order, list_elem_of_In, List.filter_In in Hr as [Hr _].
  exists r. apply find_row_elem; [apply Hinv|by apply list_elem_of_In].
Qed.

Lemma atomic_expire_stale db current : inv db → atomic db (expire_stale policy current).
Proof.
  intros Hinv. unfold expire_stale. apply atomic_bind_lift. intros c _. unfold IntakeLogic.atomic, sbind, transaction.
  destruct (expire_stale_rows_run db c Hinv) as [(e & -> & _)|[-> _]]; [done|].
  pose proof (good_expire_result db c Hinv) as Hg.
  destruct (smapM_get policy (expire_result db c) (rv_id <$> expired_rows db c)) as [rows ->]; [apply Hg| |done].
  intros id Hid. apply list_elem_of_fmap in Hid as (r & -> & Hr). by apply expired_found.
Qed.

(** ** Archival *)

Lemma with_reason_core reason c : candidate_core (with_reason reason c) = candidate_core c.
Proof. done. Qed.

Definition archived_candidate (id reason : string) (c : CandidateRow) : CandidateRow :=
  if bool_decide (ca_reservation_id c = id) then with_reason reason c else c.

Lemma good_archive_candidate db id reason :
  inv db → good db (set_candidates (archived_candidate id reason <$> db_candidates db) db).
Proof.
  intros Hinv. assert (∀ c, candidate_core (archived_candidate id reason c) = candidate_core c) as Hcore.
  { intros c. unfold archived_candidate. by case_match. }
  eapply (good_map policy _ _ (λ r, r)); try done.
  - by rewrite list_fmap_id.
  - intros r _. by left.
  - intros r Hr. eapply row_ok_same; [by apply Hinv|done|done].
  - apply Hinv.
  - destruct (inv_logs _ _ Hinv) as [H1 H2 H3 H4 H5 H6]. split; try done. intros x Hn.
    eapply (paired_core db _ (archived_candidate id reason)); [done|done|done|by apply H6].
  - split_and!; try done. cbn. rewrite <-list_fmap_compose. apply reflexive_eq, list_fmap_ext. intros i c _. symmetry. apply Hcore.
Qed.

Lemma safe_two_writes db f g : good db (f db) → good (f db) (g (f db)) → safe db (do? writing f ;; writing g).
Proof. intros Hf Hg. unfold IntakeLogic.safe, sbind, writing. by eapply good_trans. Qed.

Lemma atomic_archive db id current reason : inv db → atomic db (archive_schema3_migration_hold id current reason).
Proof.
  intros Hinv. unfold archive_schema3_migration_hold. apply atomic_bind_lift. intros cur _. do 2 (apply atomic_guard; intros _).
  apply (atomic_row policy); [done|]. intros r Hf Hr. apply safe_guard. intros Hs. do 2 (apply safe_bind_reading; intros ? _).
  apply safe_guard. intros _. bool_prop. cbn [iv_status view] in *.
  assert (good db (update_row id (with_verdict {| vd_status := "expired"; vd_decision := "NO_DECISION";
    vd_reason := _SCHEMA3_ARCHIVE_REASON_PREFIX +:+ str_of_Z cur +:+ ":" +:+ reason |}) db)) as Hg.
  { eapply (good_move policy); [done|exact Hf| |by left|].
    - apply edge_same; [done..|]. match goal with H : rv_status r = _ |- _ => rewrite H end. decide_elem.
    - pose proof (ok_valid _ _ _ Hr) as Hv. eapply row_ok_keep; [exact Hr|done..|decide_elem|exact (valid_qualification_columns r Hv)|].
      apply stage_expired. eapply stage_retained_open; [exact (ok_stage _ _ _ Hr)|..]; by match goal with H : rv_status r = _ |- _ => rewrite H end. }
  apply safe_two_writes; [exact Hg|]. apply good_archive_candidate, Hg.
Qed.
End expiry.
