(* ===== verification/IntakeReserving.v ===== *)
(** * Admission is legal, and replays change nothing

    [admit_arrival] is the reference: the rows after one arrival, with the queue recounted
    from the rows.  The loop of [reserve_finalized], which carries the count, is
    its fold over the arrivals. *)

From Stdlib Require Import ZArith Lia Ascii.
From stdpp Require Import base tactics numbers list strings gmap sorting relations.
From S2P Require Import Prelude PyValue Sha256 Identity Strict Provider Stack Release StackFacts ReleaseCorrect StackPlan Settlement.
From S2P Require Import SettlementPlan SettlementFacts Publication Journal PublicationSystem Fingerprint QualificationBatch Arena.
From S2P Require Import IntakeData Intake IntakeAdmission IntakeInvariant IntakeLogic IntakeSteps IntakeBatches IntakeQueue.

Section reserving.
Context {sha : Sha256} (policy : IntakePolicy) (Hpolicy : policy_ok policy).

Abbreviation inv := (inv policy).
Abbreviation row_ok := (row_ok policy).
Abbreviation good := (good policy).
Abbreviation atomic := (atomic policy).
Abbreviation safe := (safe policy).

(** ** The reference *)

Definition queue_length (rows : list ReservationRow) : Z := count_where (status_in PENDING) rows.

Definition admitted_row (block : Z) (rows : list ReservationRow) (a : FinalizedArrival) : ReservationRow :=
  let epoch := admission_epoch policy (fa_block a) in
  let verdict := admission_verdict policy block a (hotkey_count epoch (fa_hotkey a) rows) (queue_length rows) in
  new_row a epoch verdict.1 verdict.2.

Definition admit_arrival (block : Z) (rows : list ReservationRow) (a : FinalizedArrival) : list ReservationRow :=
  if bool_decide (reservation_id a ∈ rv_id <$> rows) then rows else rows ++ [admitted_row block rows a].

(** ** Verdicts *)

Lemma admission_verdict_cases block a hotkeys pending :
  let v := admission_verdict policy block a hotkeys pending in
  v.1 = "failed" ∨ v.1 = "expired"
  ∨ (v.1 = "reserved" ∧ hotkeys < ip_max_per_hotkey_epoch policy ∧ pending < ip_max_pending policy
     ∧ block - fa_block a < ip_expiry_blocks policy).
Proof.
  unfold admission_verdict. cbv zeta. destruct (negb _); [by left|]. destruct (Z.leb_spec (ip_expiry_blocks policy) (block - fa_block a)); [by right; left|].
  destruct (Z.leb_spec (ip_max_per_hotkey_epoch policy) hotkeys); [by left|].
  destruct (Z.leb_spec (ip_max_pending policy) pending); [by left|]. right. right. split_and!; done.
Qed.

Lemma admitted_status block rows a :
  rv_status (admitted_row block rows a)
  = (admission_verdict policy block a (hotkey_count (admission_epoch policy (fa_block a)) (fa_hotkey a) rows) (queue_length rows)).1.
Proof. done. Qed.

Lemma admitted_pending block rows a :
  status_in PENDING (admitted_row block rows a) = bool_decide (rv_status (admitted_row block rows a) = "reserved").
Proof.
  unfold status_in. rewrite admitted_status.
  by destruct (admission_verdict_cases block a (hotkey_count (admission_epoch policy (fa_block a)) (fa_hotkey a) rows) (queue_length rows))
    as [->|[->|[-> _]]].
Qed.

Lemma admission_epoch_nonneg block : 0 ≤ block → 0 ≤ admission_epoch policy block.
Proof.
  intros Hb. destruct (policy_ok_bounds policy Hpolicy) as ([? ?] & _). unfold admission_epoch. cbv zeta.
  pose proof (Z.div_pos block (ip_epoch_blocks policy) Hb ltac:(lia)). case_match; lia.
Qed.

Lemma known_logs db id : logs_ok db → id ∉ rv_id <$> db_reservations db → retained db id = 0%nat ∧ screens_of db id = [].
Proof.
  intros Hl Hid. unfold retained, qualifications_of, screens_of. split.
  - rewrite stable_sort_perm. destruct (List.filter _ _) as [|q l] eqn:Hf; [done|]. exfalso.
    assert (q ∈ q :: l) as Hq by set_solver. rewrite <-Hf in Hq. apply list_elem_of_In, List.filter_In in Hq as [Hq He].
    apply bool_decide_eq_true in He as <-. by apply Hid, Hl, list_elem_of_In.
  - destruct (List.filter _ _) as [|s l] eqn:Hf; [done|]. exfalso.
    assert (s ∈ s :: l) as Hq by set_solver. rewrite <-Hf in Hq. apply list_elem_of_In, List.filter_In in Hq as [Hq He].
    apply bool_decide_eq_true in He as <-. by apply Hid, Hl, list_elem_of_In.
Qed.

Lemma unscreened_ok : screen_columns_ok unscreened.
Proof. split_and!; try done; [by left|decide_elem..]. Qed.

Lemma admitted_row_ok db block a :
  inv db → arrival_ok a → reservation_id a ∉ rv_id <$> db_reservations db → row_ok db (admitted_row block (db_reservations db) a).
Proof.
  intros Hinv Ha Hid. set (r := admitted_row block (db_reservations db) a).
  assert (stage (ip_max_transport_retries policy) (retained db (rv_id r)) (length (screens_of db (rv_id r))) r (rv_status r)) as Hst.
  { destruct (known_logs db _ (inv_logs _ _ Hinv) Hid) as [Hn _]. unfold r. rewrite admitted_status. cbn [rv_id admitted_row new_row].
    unfold admitted_row at 1. cbn [new_row rv_id]. rewrite Hn.
    destruct (admission_verdict_cases block a (hotkey_count (admission_epoch policy (fa_block a)) (fa_hotkey a) (db_reservations db))
      (queue_length (db_reservations db))) as [->|[->|[-> _]]]; [apply stage_failed; lia|apply stage_expired; lia|by apply stage_reserved]. }
  destruct (policy_ok_bounds policy Hpolicy) as (_ & _ & _ & _ & ? & _).
  split; [|cbn; lia|exact Hst]. pose proof unscreened_ok as (? & ? & ? & ? & ?). split; try done.
  - apply admission_epoch_nonneg, arrival_ok_block, Ha.
  - by eapply stage_status.
  - by left.
  - decide_elem.
Qed.

(** ** One arrival *)

Lemma hotkeys_snoc rows r :
  (∀ pre x post, rows = pre ++ x :: post → alive x = true →
     hotkey_count (rv_admission_epoch x) (fa_hotkey (rv_arrival x)) pre < ip_max_per_hotkey_epoch policy) →
  (alive r = true → hotkey_count (rv_admission_epoch r) (fa_hotkey (rv_arrival r)) rows < ip_max_per_hotkey_epoch policy) →
  ∀ pre x post, rows ++ [r] = pre ++ x :: post → alive x = true →
     hotkey_count (rv_admission_epoch x) (fa_hotkey (rv_arrival x)) pre < ip_max_per_hotkey_epoch policy.
Proof.
  intros Hrows Hr pre x post Hsplit Ha. destruct post as [|y post _] using rev_ind.
  - apply app_inj_tail in Hsplit as [-> ->]. by apply Hr.
  - rewrite app_comm_cons, app_assoc in Hsplit. apply app_inj_tail in Hsplit as [-> _]. by eapply Hrows.
Qed.

Lemma good_admit db block a :
  inv db → arrival_ok a → good db (set_reservations (admit_arrival block (db_reservations db) a) db).
Proof.
  intros Hinv Ha. unfold admit_arrival. case_bool_decide as Hid; [by destruct db; apply good_refl|].
  pose proof (admitted_row_ok db block a Hinv Ha Hid) as Hok.
  pose proof (admission_verdict_cases block a (hotkey_count (admission_epoch policy (fa_block a)) (fa_hotkey a) (db_reservations db))
      (queue_length (db_reservations db))) as Hcases. cbv zeta in Hcases. rewrite <-admitted_status in Hcases.
  set (r := admitted_row block (db_reservations db) a) in *.
  assert (alive r = true → rv_status r = "reserved") as Halive.
  { unfold alive, status_in. intros Hl%negb_true_iff%bool_decide_eq_false. destruct Hcases as [Hc|[Hc|[Hc _]]]; [..|done]; exfalso; apply Hl; rewrite Hc; decide_elem. }
  split; [split|split_and!].
  - apply Hinv.
  - cbn. rewrite fmap_app. apply NoDup_app. split_and!; [apply Hinv| |apply NoDup_singleton].
    intros x Hx Hx2. apply list_elem_of_singleton in Hx2 as ->. by apply Hid.
  - cbn. intros x [Hx|Hx%list_elem_of_singleton]%elem_of_app; [by apply row_ok_rows, Hinv|subst x; by apply row_ok_rows].
  - unfold pending_count. cbn. rewrite count_where_app, count_where_cons, count_where_nil.
    pose proof (inv_pending _ _ Hinv) as Hp. unfold pending_count in Hp. unfold queue_length in Hcases.
    destruct (status_in PENDING r) eqn:Hs; cbn [Z.b2z]; [|lia]. unfold status_in in Hs. apply bool_decide_eq_true in Hs.
    destruct Hcases as [Hc|[Hc|[_ Hc]]]; [rewrite Hc in Hs; exfalso; revert Hs; decide_elem..|lia].
  - cbn. apply hotkeys_snoc; [apply Hinv|]. intros Hl%Halive. destruct Hcases as [Hc|[Hc|[_ Hc]]]; [congruence..|]. apply Hc.
  - intros epoch target Ht. cbn. pose proof (inv_targets _ _ Hinv epoch target Ht) as Hb. unfold alive_target_count in *.
    rewrite count_where_app, count_where_cons, count_where_nil. rewrite (bool_decide_eq_false_2 (_ = target)) by (cbn; congruence).
    rewrite andb_false_r. cbn [Z.b2z]. lia.
  - destruct (inv_logs _ _ Hinv) as [H1 H2 H3 H4 H5 H6]. split; try done; cbn; rewrite fmap_app; intros x Hx; apply elem_of_app; left; auto.
  - apply Hinv.
  - exists (db_reservations db), [r]. split; [done|]. apply Forall2_same_length_lookup_2; [done|]. intros i x y Hx Hy. simplify_eq. done.
  - done.
  - done.
Qed.

Lemma insert_reservation_Ok row db db' u :
  insert_reservation row db = (db', Ok u) → db' = set_reservations (db_reservations db ++ [row]) db.
Proof.
  unfold insert_reservation, sbind, reading, writing, lift, sql_int. do 4 (destruct (raise_if (negb _) _); [|done]).
  destruct (raise_if _ integrity); [|done]. by intros [= <-].
Qed.

Lemma set_reservations_same db : set_reservations (db_reservations db) db = db.
Proof. by destruct db. Qed.

(** Every arrival has its row. *)
Definition recorded (rows : list ReservationRow) (a : FinalizedArrival) : Prop :=
  ∃ r, r ∈ rows ∧ rv_id r = reservation_id a ∧ rv_arrival r = a.

Lemma recorded_app rows new a : recorded rows a → recorded (rows ++ new) a.
Proof. intros (r & Hr & ?). exists r. split; [|done]. apply elem_of_app. by left. Qed.

Lemma admit_extends block rows a : ∃ new, admit_arrival block rows a = rows ++ new.
Proof. unfold admit_arrival. case_bool_decide; [exists []; by rewrite app_nil_r|by eexists]. Qed.

Lemma reserve_one_run db block a db' p ids :
  inv db → reserve_one policy block a (pending_count db) db = (db', Ok (p, ids)) →
  db' = set_reservations (admit_arrival block (db_reservations db) a) db ∧ p = pending_count db' ∧ recorded (db_reservations db') a
  ∧ (∀ id, id ∈ ids → id = reservation_id a).
Proof.
  intros Hinv. unfold reserve_one, sbind at 1, reading at 1. destruct (find_row db (reservation_id a)) as [r|] eqn:Hf.
  - pose proof (find_row_Some _ _ _ Hf) as [Hr Hid]. unfold sbind, lift, sraise_if, lift.
    rewrite (row_reads r) by apply (inv_rows _ _ Hinv r Hr). cbn [iv_arrival view].
    destruct (bool_decide_reflect (rv_arrival r = a)) as [Ha|Ha]; [|done]. cbn [negb raise_if]. intros [= <- <- <-].
    unfold admit_arrival. rewrite bool_decide_eq_true_2 by (rewrite <-Hid; by apply list_elem_of_fmap_2). rewrite set_reservations_same.
    split_and!; [done|done|by exists r|]. by intros ? ?%not_elem_of_nil.
  - apply find_row_None in Hf. unfold sbind at 1, reading at 1. cbv zeta.
    change (new_row a (admission_epoch policy (fa_block a)) _ _) with (admitted_row block (db_reservations db) a).
    unfold sbind, lift. destruct (insert_reservation _ db) as [db1 [u|]] eqn:Hins; [|done]. apply insert_reservation_Ok in Hins as ->.
    intros [= <- <- <-]. unfold admit_arrival. rewrite bool_decide_eq_false_2 by done. split_and!; [done| | |].
    + unfold pending_count. cbn [db_reservations set_reservations]. rewrite count_where_app, count_where_cons, count_where_nil, admitted_pending.
      rewrite admitted_status. unfold queue_length. case_bool_decide; cbn [Z.b2z]; lia.
    + exists (admitted_row block (db_reservations db) a). split; [apply elem_of_app; right; by left|done].
    + by intros id ->%list_elem_of_singleton.
Qed.

(** ** All arrivals *)

Definition admit_all (block : Z) (rows : list ReservationRow) (arrivals : list FinalizedArrival) : list ReservationRow :=
  foldl (admit_arrival block) rows arrivals.

Lemma admit_all_extends block rows arrivals : ∃ new, admit_all block rows arrivals = rows ++ new.
Proof.
  revert rows. induction arrivals as [|a l IH]; intros rows; [exists []; by rewrite app_nil_r|]. cbn.
  destruct (admit_extends block rows a) as [n1 ->]. destruct (IH (rows ++ n1)) as [n2 Hn2]. unfold admit_all in Hn2. rewrite Hn2.
  exists (n1 ++ n2). by rewrite app_assoc.
Qed.

Lemma good_admit_all db block arrivals :
  inv db → Forall arrival_ok arrivals → good db (set_reservations (admit_all block (db_reservations db) arrivals) db).
Proof.
  intros Hinv Hall. revert db Hinv. induction Hall as [|a l Ha _ IH]; intros db Hinv; [cbn; rewrite set_reservations_same; by apply good_refl|].
  pose proof (good_admit db block a Hinv Ha) as Hg. eapply good_trans; [exact Hg|]. exact (IH _ (proj1 Hg)).
Qed.

Lemma reserve_all_run db block arrivals db' ids :
  inv db → Forall arrival_ok arrivals → reserve_all policy block arrivals (pending_count db) db = (db', Ok ids) →
  db' = set_reservations (admit_all block (db_reservations db) arrivals) db ∧ Forall (recorded (db_reservations db')) arrivals
  ∧ (∀ id, id ∈ ids → id ∈ reservation_id <$> arrivals).
Proof.
  intros Hinv Hall. revert db Hinv ids. induction Hall as [|a l Ha _ IH]; intros db Hinv ids.
  - intros [= <- <-]. cbn. rewrite set_reservations_same. split_and!; [done|constructor|done].
  - cbn [reserve_all]. unfold sbind, lift. destruct (reserve_one _ _ a _ db) as [db1 [[p i]|]] eqn:Hone; [|done].
    apply reserve_one_run in Hone as (-> & -> & Hrec & Hi); [|done]. pose proof (good_admit db block a Hinv Ha) as Hg. cbn [fst snd].
    destruct (reserve_all _ _ l _ _) as [db2 [j|]] eqn:Hrest; [|done]. intros [= <- <-].
    apply IH in Hrest as (-> & Hrecs & Hj); [|apply Hg]. split_and!; [done| |].
    + constructor; [|done]. cbn in Hrec |- *. destruct (admit_all_extends block (admit_arrival block (db_reservations db) a) l) as [new ->].
      by apply recorded_app.
    + intros id [->%Hi|Hid%Hj]%elem_of_app; [by left|by right].
Qed.

Lemma reserve_all_recorded db block arrivals pending :
  inv db → Forall (recorded (db_reservations db)) arrivals → reserve_all policy block arrivals pending db = (db, Ok []).
Proof.
  intros Hinv. induction 1 as [|a l (r & Hr & Hid & Ha) _ IH]; [done|]. cbn [reserve_all]. unfold sbind at 1, reserve_one, reading.
  rewrite <-Hid. unfold sbind at 1. rewrite (find_row_elem db r (inv_ids _ _ Hinv) Hr). unfold sbind, lift, sraise_if, lift.
  rewrite (row_reads r) by apply (inv_rows _ _ Hinv r Hr). cbn [iv_arrival view]. rewrite bool_decide_eq_true_2 by done.
  cbn [negb raise_if fst snd]. by rewrite IH.
Qed.

(** ** [reserve_finalized] *)

(** The store a successful call leaves. *)
Definition reserve_result (db : Database) (arrivals : list FinalizedArrival) (block : Z) (hash : string) : Database :=
  let db1 := expire_result policy db block in
  set_cursor (Some (Some (PList [PInt block; PStr hash]))) (set_reservations (admit_all block (db_reservations db1) arrivals) db1).

Lemma read_cursor_new block hash :
  0 ≤ block → is_block_hash hash = true → read_cursor (Some (Some (PList [PInt block; PStr hash]))) = Ok (Some (block, hash)).
Proof. intros Hb Hh. cbn. rewrite Hh. by destruct (Z.leb_spec 0 block); [|lia]. Qed.

Lemma not_regressed_advances c cur block hash :
  read_cursor c = Ok cur → regressed cur block hash = false → 0 ≤ block → is_block_hash hash = true →
  cursor_advances c (Some (Some (PList [PInt block; PStr hash]))).
Proof.
  intros Hc Hreg Hb Hh b h Hc'. rewrite Hc in Hc'. injection Hc' as ->. exists block, hash. split; [by apply read_cursor_new|].
  cbn in Hreg. apply orb_false_iff in Hreg as [H1 H2]. apply Z.ltb_ge in H1. apply andb_false_iff in H2 as [H2|H2].
  - apply Z.eqb_neq in H2. lia.
  - apply negb_false_iff, bool_decide_eq_true in H2 as ->. destruct (decide (b = block)); [by right|left; lia].
Qed.

(** What a call that returns has checked and done. *)
Lemma reserve_transaction db arrivals block hash :
  inv db → Forall arrival_ok arrivals → 0 ≤ block → is_block_hash hash = true →
  let body :=
    do? _expire_stale_rows policy block ;;
    let? cursor := _cursor in
    do? sraise_if (regressed cursor block hash) (intake_error "finalized cursor regressed or changed hash") ;;
    let? pending := reading (λ db, Ok (pending_count db)) in
    let? inserted := reserve_all policy block arrivals pending in
    do? writing (set_cursor (Some (Some (PList [PInt block; PStr hash])))) ;;
    lift (Ok inserted) in
  match body db with
  | (db', Ok ids) => db' = reserve_result db arrivals block hash ∧ good db db' ∧ Forall (recorded (db_reservations db')) arrivals
                     ∧ ¬ expiry_refused policy db block ∧ (∀ id, id ∈ ids → id ∈ reservation_id <$> arrivals)
  | (_, Raise _) => True
  end.
Proof.
  intros Hinv Hall Hb Hh. cbv zeta. unfold sbind, _cursor, reading, sraise_if, lift, writing.
  destruct (expire_stale_rows_run policy db block Hinv) as [(e & -> & _)|[-> Href]]; [done|].
  pose proof (good_expire_result policy db block Hinv) as Hg. set (db1 := expire_result policy db block) in *.
  destruct (inv_cursor _ _ (proj1 Hg)) as [cur Hcur]. rewrite Hcur. destruct (regressed cur block hash) eqn:Hreg; [done|]. cbn [raise_if].
  destruct (reserve_all _ _ _ _ db1) as [db2 [ids|]] eqn:Hrun; [|done].
  apply reserve_all_run in Hrun as (-> & Hrec & Hids); [|apply Hg|done]. split_and!; try done.
  eapply good_trans; [exact Hg|]. pose proof (good_admit_all db1 block arrivals (proj1 Hg) Hall) as Hg2.
  eapply good_trans; [exact Hg2|]. apply good_same; [apply Hg2|done|done|by eexists; apply read_cursor_new|].
  by eapply not_regressed_advances.
Qed.

Lemma recorded_found db a : inv db → recorded (db_reservations db) a → is_Some (find_row db (reservation_id a)).
Proof. intros Hinv (r & Hr & <- & _). exists r. apply find_row_elem; [apply Hinv|done]. Qed.

Lemma block_hash_column_Ok e v s : block_hash_or_empty e v = Ok s → v = PStr s ∧ is_block_hash s = true.
Proof. unfold block_hash_or_empty. destruct v; try (by case_match). destruct (is_block_hash _) eqn:?; [|done]. by intros [= <-]. Qed.

Lemma nonneg_int_Ok e v z : nonneg_int e v = Ok z → v = PInt z ∧ 0 ≤ z.
Proof. unfold nonneg_int. destruct v; try done. case_match eqn:Hz; [done|]. apply Z.ltb_ge in Hz. by intros [= <-]. Qed.

(** A call raises and changes nothing, or leaves [reserve_result]. *)
Lemma reserve_finalized_run db arrivals fb fh :
  inv db → Forall arrival_ok arrivals →
  match reserve_finalized policy arrivals fb fh db with
  | (db', Raise _) => db' = db
  | (db', Ok _) => ∃ block hash, fb = PInt block ∧ fh = PStr hash ∧ 0 ≤ block ∧ is_block_hash hash = true
      ∧ db' = reserve_result db arrivals block hash ∧ good db db' ∧ Forall (recorded (db_reservations db')) arrivals
      ∧ ¬ expiry_refused policy db block
      ∧ strictly_increasing (arrival_key <$> arrivals) = true ∧ existsb (λ a, block <? fa_block a) arrivals = false
  end.
Proof.
  intros Hinv Hall. unfold reserve_finalized, sbind at 1, sraise_if at 1, lift at 1.
  destruct (strictly_increasing _) eqn:Hinc; cbn [negb raise_if]; [|done]. unfold sbind at 1, lift at 1.
  destruct (nonneg_int _ fb) as [block|] eqn:Hfb; [|done]. apply nonneg_int_Ok in Hfb as [-> Hb]. unfold sbind at 1, lift at 1.
  destruct (block_hash_or_empty _ fh) as [hash|] eqn:Hfh; [|done]. apply block_hash_column_Ok in Hfh as [-> Hh].
  unfold sbind at 1, sraise_if at 1, lift at 1. destruct (existsb _ arrivals) eqn:Hfin; [done|]. cbn [raise_if].
  pose proof (reserve_transaction db arrivals block hash Hinv Hall Hb Hh) as Hrun. cbv zeta in Hrun. unfold sbind at 1, transaction.
  destruct (sbind _ _ db) as [db' [ids|]] in Hrun |- *; [|done]. destruct Hrun as (-> & Hg & Hrec & Href & Hids).
  destruct (smapM_get policy (reserve_result db arrivals block hash) ids) as [rows ->]; [apply Hg| |by exists block, hash].
  intros id Hid. apply Hids, list_elem_of_fmap in Hid as (a & -> & Ha). apply recorded_found; [apply Hg|].
  exact (proj1 (Forall_forall _ _) Hrec a Ha).
Qed.

Lemma atomic_reserve db arrivals fb fh : inv db → Forall arrival_ok arrivals → atomic db (reserve_finalized policy arrivals fb fh).
Proof.
  intros Hinv Hall. pose proof (reserve_finalized_run db arrivals fb fh Hinv Hall) as Hrun. unfold IntakeLogic.atomic.
  destruct (reserve_finalized _ _ _ _ db) as [db' [rows|]]; [|done]. by destruct Hrun as (b & h & _ & _ & _ & _ & _ & Hg & _).
Qed.

(** ** Replays *)

Lemma expired_not_stale db threshold r : is_stale db threshold (expired_in db threshold r) = false.
Proof.
  unfold expired_in. destruct (is_stale db threshold r) eqn:Hs; [|done]. unfold is_stale, status_in.
  by rewrite bool_decide_eq_false_2 by (apply (bool_decide_unpack _); by vm_compute).
Qed.

Lemma admitted_not_stale db block rows a :
  is_stale db (block - ip_expiry_blocks policy) (admitted_row block rows a) = true → qualifications_of db (reservation_id a) ≠ [].
Proof.
  intros Hs. pose proof (is_stale_status _ _ _ Hs) as Hst. rewrite admitted_status in Hst.
  destruct (admission_verdict_cases block a (hotkey_count (admission_epoch policy (fa_block a)) (fa_hotkey a) rows) (queue_length rows))
    as [Hc|[Hc|(_ & _ & _ & Hc)]]; [rewrite Hc in Hst; exfalso; revert Hst; decide_elem..|].
  intros Hq. unfold is_stale in Hs. cbn [rv_id admitted_row new_row] in Hs. change (rv_id (admitted_row block rows a)) with (reservation_id a) in Hs.
  rewrite Hq in Hs. cbn [existsb is_nil] in Hs. rewrite orb_false_r, andb_true_r in Hs. apply andb_true_iff in Hs as [_ Hs].
  apply Z.leb_le in Hs. change (fa_block (rv_arrival (admitted_row block rows a))) with (fa_block a) in Hs. lia.
Qed.

(** Rows added by a call were unknown before it. *)
Lemma admit_all_rows block rows arrivals r :
  r ∈ admit_all block rows arrivals → r ∈ rows ∨ ∃ prior a, r = admitted_row block prior a ∧ rv_id r ∉ rv_id <$> rows.
Proof.
  revert rows. induction arrivals as [|a l IH]; intros rows; [by left|]. cbn. intros [Hr|(prior & b & -> & Hn)]%IH.
  - unfold admit_arrival in Hr. case_bool_decide as Hid; [by left|]. apply elem_of_app in Hr as [Hr|Hr%list_elem_of_singleton]; [by left|].
    right. exists rows, a. by rewrite Hr.
  - right. exists prior, b. split; [done|]. intros Hin. apply Hn. destruct (admit_extends block rows a) as [new ->].
    rewrite fmap_app. apply elem_of_app. by left.
Qed.

Lemma expire_again db (rows : list ReservationRow) threshold : (∀ r, r ∈ rows → is_stale db threshold r = false) → expired_in db threshold <$> rows = rows.
Proof.
  induction rows as [|r rows IH]; intros Hr; [done|]. rewrite fmap_cons. unfold expired_in at 1. rewrite (Hr r (list_elem_of_here _ _)).
  by rewrite IH by (intros x Hx; apply Hr; by right).
Qed.

Lemma reserve_result_settled db arrivals block hash :
  inv db → ∀ r, r ∈ db_reservations (reserve_result db arrivals block hash) → 0 ≤ block - ip_expiry_blocks policy →
  is_stale db (block - ip_expiry_blocks policy) r = false.
Proof.
  intros Hinv r. cbn. unfold expire_result. cbv zeta. intros Hr Hle. destruct (Z.ltb_spec (block - ip_expiry_blocks policy) 0); [lia|].
  cbn in Hr. apply admit_all_rows in Hr as [Hr|(prior & a & -> & Hn)].
  - apply list_elem_of_fmap in Hr as (x & -> & _). apply expired_not_stale.
  - apply not_true_is_false. intros Hs. apply admitted_not_stale in Hs. apply Hs.
    assert (rv_id <$> (expired_in db (block - ip_expiry_blocks policy) <$> db_reservations db) = rv_id <$> db_reservations db) as Hids.
    { rewrite <-list_fmap_compose. apply list_fmap_ext. intros i x _. cbn. unfold expired_in. by case_match. }
    rewrite Hids in Hn. destruct (known_logs db _ (inv_logs _ _ Hinv) Hn) as [Hz _]. by apply length_zero_iff_nil in Hz.
Qed.

Lemma expire_result_settled db arrivals block hash :
  inv db → expire_result policy (reserve_result db arrivals block hash) block = reserve_result db arrivals block hash.
Proof.
  intros Hinv. unfold expire_result. cbv zeta. destruct (Z.ltb_spec (block - ip_expiry_blocks policy) 0) as [|Hle]; [done|].
  assert (∀ r, expired_in (reserve_result db arrivals block hash) (block - ip_expiry_blocks policy) r
    = expired_in db (block - ip_expiry_blocks policy) r) as Hsame.
  { intros r. unfold expired_in, is_stale, qualifications_of. replace (db_qualifications (reserve_result db arrivals block hash))
      with (db_qualifications db); [done|]. cbn. unfold expire_result. cbv zeta. by case_match. }
  rewrite (list_fmap_ext _ (expired_in db (block - ip_expiry_blocks policy))) by (intros i r _; apply Hsame).
  rewrite expire_again by (intros r Hr; by apply reserve_result_settled in Hr). by destruct (reserve_result db arrivals block hash).
Qed.
End reserving.

(** ** Reconciling copies

    [reconciled] is the reference: a live row fails when the delta of an earlier
    row of another hotkey is an authoritative copy of its own, the first such row
    being named.  The loop of [reconcile_copies], which reads the store again for
    each row it visits, is this map over the rows it started from. *)

(** ** The rows before a key *)

Lemma before_key_of_filter key rows :
  StronglySorted row_le rows →
  before_key_of key (view <$> rows) = view <$> List.filter (λ r, bool_decide (key_lt (arrival_key (rv_arrival r)) key)) rows.
Proof.
  induction 1 as [|r rows _ IH Hr]; [done|]. cbn. rewrite bool_decide_decide. destruct (decide _) as [Hk|Hk]; [cbn; by rewrite IH|].
  assert (List.filter (λ r, bool_decide (key_lt (arrival_key (rv_arrival r)) key)) rows = []) as ->; [|done].
  clear IH. induction Hr as [|x rows Hx _ IH]; [done|]. cbn. rewrite bool_decide_eq_false_2; [exact IH|]. intros Hx2. apply Hk.
  destruct Hx as [->|Hlt]; [done|by etrans].
Qed.

Section copies.
Context {sha : Sha256} (policy : IntakePolicy).

Abbreviation inv := (inv policy).
Abbreviation row_ok := (row_ok policy).
Abbreviation good := (good policy).

(** ** The reference *)

(** Row [p] is an earlier row of another hotkey with the delta of [f], the delta of [r]. *)
Definition precedes (r : ReservationRow) (f : SubmittedDeltaFingerprint) (p : ReservationRow) : bool :=
  bool_decide (key_lt (arrival_key (rv_arrival p)) (arrival_key (rv_arrival r)))
  && negb (bool_decide (fa_hotkey (rv_arrival p) = fa_hotkey (rv_arrival r)))
  && match row_fingerprint p with None => false | Some g => cd_authoritative (compare_submitted_deltas g f) end.

Definition predecessors (rows : list ReservationRow) (r : ReservationRow) : list ReservationRow :=
  match row_fingerprint r with
  | None => []
  | Some f => List.filter (precedes r f) (in_order rows)
  end.

Definition copy_of (p r : ReservationRow) : ReservationRow := transitioned "failed" "FAIL" ("copy_of:" +:+ rv_id p) r.

Definition reconciled (rows : list ReservationRow) (r : ReservationRow) : ReservationRow :=
  if alive r then match predecessors rows r with [] => r | p :: _ => copy_of p r end else r.

(** ** Reading predecessors *)

Lemma filter_filter {A} (p q : A → bool) l : List.filter p (List.filter q l) = List.filter (λ x, q x && p x) l.
Proof. induction l as [|x l IH]; [done|]. cbn. destruct (q x); cbn; [destruct (p x); by rewrite IH|exact IH]. Qed.

Lemma filter_fmap {A B} (p : B → bool) (g : A → B) l : List.filter p (g <$> l) = g <$> List.filter (λ x, p (g x)) l.
Proof. induction l as [|x l IH]; [done|]. cbn. destruct (p (g x)); cbn; by rewrite IH. Qed.

Lemma copy_predecessors_run db r f :
  inv db → r ∈ db_reservations db → row_fingerprint r = Some f →
  copy_predecessors (rv_id r) db = (db, Ok (view <$> predecessors (db_reservations db) r)).
Proof.
  intros Hinv Hr Hf. unfold copy_predecessors, sbind at 1. rewrite (get_found policy), (find_row_elem db r (inv_ids _ _ Hinv) Hr) by done.
  cbn [iv_delta_fingerprint view]. rewrite Hf. unfold sbind, all_reservations, reading, lift. rewrite (all_views policy) by done.
  f_equal. f_equal. cbn [iv_arrival view]. rewrite before_key_of_filter by apply in_order_sorted. rewrite filter_fmap, filter_filter.
  unfold predecessors. rewrite Hf. f_equal. apply List.filter_ext. intros p. unfold precedes, copied_from. cbn [iv_arrival iv_delta_fingerprint view].
  by rewrite andb_assoc.
Qed.

Lemma predecessors_elem rows r p f :
  row_fingerprint r = Some f → p ∈ predecessors rows r ↔ p ∈ rows ∧ precedes r f p = true.
Proof.
  intros Hf. unfold predecessors. rewrite Hf. rewrite list_elem_of_In, List.filter_In, <-list_elem_of_In, elem_of_in_order. done.
Qed.

(** ** Marking *)

Lemma fingerprint_copyable db r f : row_ok db r → row_fingerprint r = Some f → alive r = true → rv_status r ∈ COPYABLE.
Proof.
  intros Hok Hf Ha. assert (rv_publication r ≠ unpublished) as Hp. { intros Hp. apply row_fingerprint_unpublished in Hp as [? _]. congruence. }
  unfold alive, status_in in Ha. apply negb_true_iff, bool_decide_eq_false in Ha.
  destruct (ok_stage _ _ _ Hok); try done; try decide_elem; exfalso; apply Ha; decide_elem.
Qed.

Lemma copy_reason_short p : row_valid p → (2048 <? str_len ("copy_of:" +:+ rv_id p)) = false.
Proof.
  intros Hp. apply Z.ltb_ge. unfold str_len. rewrite (valid_id _ Hp). pose proof (is_hex64_length _ (reservation_id_hex (rv_arrival p))) as Hl.
  change (Z.of_nat (8 + String.length (reservation_id (rv_arrival p))) ≤ 2048). rewrite Hl. lia.
Qed.

Lemma copy_of_ok db p r :
  row_ok db r → rv_status r ∈ COPYABLE → row_edge r (copy_of p r) ∧ row_ok db (copy_of p r).
Proof.
  intros Hr Hs. split.
  - apply edge_same; [done..|]. elem_cases Hs; rewrite Hs; decide_elem.
  - eapply row_ok_keep; [exact Hr|done..|decide_elem| |by apply stage_to_failed]. split; [apply (ok_valid _ _ _ Hr)|by left].
Qed.

Lemma mark_copy_run db r p f :
  inv db → r ∈ db_reservations db → row_fingerprint r = Some f → alive r = true → p ∈ predecessors (db_reservations db) r →
  ∃ v, mark_copy (rv_id r) (rv_id p) db = (update_row (rv_id r) (copy_of p) db, Ok v) ∧ good db (update_row (rv_id r) (copy_of p) db).
Proof.
  intros Hinv Hr Hf Ha Hp. pose proof (proj1 (predecessors_elem _ _ _ _ Hf) Hp) as [Hpin Hprec].
  pose proof (inv_rows _ _ Hinv r Hr) as Hok. pose proof (fingerprint_copyable db r f Hok Hf Ha) as Hs.
  pose proof (find_row_elem db r (inv_ids _ _ Hinv) Hr) as Hfind.
  destruct (copy_of_ok db p r Hok Hs) as [He Hrow].
  assert (good db (update_row (rv_id r) (copy_of p) db)) as Hg by (eapply (good_move policy); [done|exact Hfind|done|by left|done]).
  unfold mark_copy, sbind at 1. rewrite (get_found policy), (find_row_elem db p (inv_ids _ _ Hinv) Hpin) by done.
  unfold sbind at 1. rewrite (get_found policy), Hfind by done. cbn [iv_arrival view iv_reservation_id].
  unfold precedes in Hprec. apply andb_true_iff in Hprec as [[Hk%bool_decide_eq_true _]%andb_true_iff _].
  unfold sbind at 1, sraise_if at 1, lift at 1. rewrite bool_decide_eq_true_2 by done. cbn [negb raise_if].
  unfold sbind at 1. rewrite (copy_predecessors_run db r f Hinv Hr Hf). unfold sbind at 1, sraise_if at 1, lift at 1.
  rewrite bool_decide_eq_true_2 by (by apply list_elem_of_fmap_2). cbn [negb raise_if].
  unfold _transition, sbind at 1, sraise_if at 1, lift at 1. rewrite bool_decide_eq_true_2 by decide_elem.
  rewrite (copy_reason_short p (ok_valid _ _ _ (inv_rows _ _ Hinv p Hpin))). cbn [negb orb raise_if].
  unfold sbind at 1, transaction, sbind at 1. rewrite (get_found policy), Hfind by done. cbn [iv_status view].
  unfold sbind at 1, sraise_if, lift. rewrite bool_decide_eq_true_2 by done. cbn [negb raise_if writing].
  change (∃ v, get_reservation (rv_id r) (update_row (rv_id r) (copy_of p) db) = (update_row (rv_id r) (copy_of p) db, Ok v)
    ∧ good db (update_row (rv_id r) (copy_of p) db)).
  rewrite (get_found policy) by apply Hg. rewrite (find_row_update policy db (rv_id r) (copy_of p) r Hinv Hfind eq_refl). by eexists.
Qed.

(** ** The loop *)

(** Marking a row leaves what the comparison reads of it. *)
Definition same_delta (r r' : ReservationRow) : Prop :=
  rv_id r' = rv_id r ∧ rv_arrival r' = rv_arrival r ∧ rv_publication r' = rv_publication r.

Lemma reconciled_same rows r : same_delta r (reconciled rows r).
Proof. unfold reconciled. destruct (alive r); [|done]. by destruct (predecessors rows r). Qed.

Lemma row_fingerprint_same r r' : same_delta r r' → row_fingerprint r' = row_fingerprint r.
Proof. intros (_ & _ & Hp). unfold row_fingerprint. by rewrite Hp. Qed.

Lemma predecessors_map g rows r :
  (∀ x, same_delta x (g x)) → predecessors (g <$> rows) r = g <$> predecessors rows r.
Proof.
  intros Hg. unfold predecessors. destruct (row_fingerprint r) as [f|]; [|done]. unfold in_order.
  rewrite (stable_sort_fmap row_le row_le g) by (intros x y; unfold row_le; destruct (Hg x) as (_ & -> & _), (Hg y) as (_ & -> & _); done).
  rewrite filter_fmap. f_equal. apply List.filter_ext. intros x. unfold precedes. rewrite (row_fingerprint_same x (g x) (Hg x)).
  by destruct (Hg x) as (_ & -> & _).
Qed.

Lemma at_id_self db r :
  NoDup (rv_id <$> db_reservations db) → r ∈ db_reservations db → at_id (rv_id r) r <$> db_reservations db = db_reservations db.
Proof.
  intros Hnd Hr. rewrite <-(list_fmap_id (db_reservations db)) at 2. apply list_fmap_ext. intros i x Hx%list_elem_of_lookup_2.
  unfold at_id. case_bool_decide; [|done]. unfold id. by eapply NoDup_fmap_inj_elem.
Qed.

(** The rows once the rows named in [seen] have been visited. *)
Definition partly (rows : list ReservationRow) (seen : list string) (r : ReservationRow) : ReservationRow :=
  if bool_decide (rv_id r ∈ seen) then reconciled rows r else r.

Lemma partly_same rows seen r : same_delta r (partly rows seen r).
Proof. unfold partly. case_bool_decide; [apply reconciled_same|done]. Qed.

Lemma partly_step rows seen r :
  NoDup (rv_id <$> rows) → r ∈ rows →
  at_id (rv_id r) (reconciled rows r) <$> (partly rows seen <$> rows) = partly rows (rv_id r :: seen) <$> rows.
Proof.
  intros Hnd Hr. rewrite <-list_fmap_compose. apply list_fmap_ext. intros i x Hx%list_elem_of_lookup_2. cbn. unfold at_id.
  destruct (partly_same rows seen x) as (-> & _). unfold partly. destruct (decide (rv_id x = rv_id r)) as [He|He].
  - rewrite (bool_decide_eq_true_2 (rv_id x = _)), bool_decide_eq_true_2 by (done || (rewrite He; by left)).
    f_equal. symmetry. by eapply NoDup_fmap_inj_elem.
  - rewrite (bool_decide_eq_false_2 (rv_id x = _)) by done. rewrite (bool_decide_ext (rv_id x ∈ rv_id r :: seen) (rv_id x ∈ seen)); [done|]. rewrite elem_of_cons. tauto.
Qed.

Definition copies (rows : list ReservationRow) (r : ReservationRow) : list (string * string) :=
  if alive r then match predecessors rows r with [] => [] | p :: _ => [(rv_id r, rv_id p)] end else [].

Lemma reconcile_copy_run db rows seen r :
  db_reservations db = partly rows seen <$> rows → inv db → NoDup (rv_id <$> rows) → r ∈ rows → rv_id r ∉ seen →
  reconcile_copy (view r) db = (set_reservations (partly rows (rv_id r :: seen) <$> rows) db, Ok (copies rows r))
  ∧ good db (set_reservations (partly rows (rv_id r :: seen) <$> rows) db).
Proof.
  intros Hrows Hinv Hnd Hr Hseen.
  assert (partly rows seen r = r) as Hself by (unfold partly; by rewrite bool_decide_eq_false_2).
  assert (r ∈ db_reservations db) as Hin by (rewrite Hrows, <-Hself; by apply list_elem_of_fmap_2).
  pose proof (find_row_elem db r (inv_ids _ _ Hinv) Hin) as Hfind.
  assert (reconciled rows r = r → set_reservations (partly rows (rv_id r :: seen) <$> rows) db = db) as Hsame.
  { intros Hrec. rewrite <-(partly_step rows seen r Hnd Hr), Hrec, <-Hrows, (at_id_self db r (inv_ids _ _ Hinv) Hin). by destruct db. }
  unfold reconcile_copy. cbn [iv_delta_fingerprint iv_status iv_reservation_id view]. unfold copies.
  change (negb (bool_decide (rv_status r ∈ ["failed"; "expired"]))) with (alive r).
  destruct (row_fingerprint r) as [f|] eqn:Hf.
  2:{ cbn [is_some andb]. unfold lift, predecessors. rewrite Hf, Hsame; [by destruct (alive r); split; try done; apply good_refl|].
      unfold reconciled, predecessors. rewrite Hf. by destruct (alive r). }
  cbn [is_some andb]. destruct (alive r) eqn:Ha.
  2:{ unfold lift. rewrite Hsame; [by split; [|apply good_refl]|]. unfold reconciled. by rewrite Ha. }
  unfold sbind at 1. rewrite (copy_predecessors_run db r f Hinv Hin Hf). rewrite Hrows, (predecessors_map _ rows r (partly_same rows seen)).
  destruct (predecessors rows r) as [|p l] eqn:Hp.
  { cbn. unfold lift. rewrite Hsame; [by split; [|apply good_refl]|]. unfold reconciled. by rewrite Ha, Hp. }
  assert (partly rows seen p ∈ predecessors (db_reservations db) r) as Hpin.
  { rewrite Hrows, (predecessors_map _ rows r (partly_same rows seen)), Hp. by left. }
  destruct (mark_copy_run db r (partly rows seen p) f Hinv Hin Hf Ha Hpin) as (v & Hrun & Hg).
  destruct (partly_same rows seen p) as (Hpid & _). cbn. unfold sbind. cbn [iv_reservation_id view]. rewrite Hrun. unfold lift. rewrite Hpid.
  assert (update_row (rv_id r) (copy_of (partly rows seen p)) db = set_reservations (partly rows (rv_id r :: seen) <$> rows) db) as <-; [|done].
  rewrite <-(partly_step rows seen r Hnd Hr), <-Hrows.
  assert (reconciled rows r = copy_of (partly rows seen p) r) as -> by (unfold reconciled, copy_of; by rewrite Ha, Hp, Hpid).
  rewrite <-(update_row_at db (rv_id r) (copy_of (partly rows seen p)) r (inv_ids _ _ Hinv) Hfind). by destruct db.
Qed.

Lemma reconcile_loop db rows seen l :
  db_reservations db = partly rows seen <$> rows → inv db → NoDup (rv_id <$> rows) → l ⊆ rows → NoDup (rv_id <$> l) →
  (∀ r, r ∈ l → rv_id r ∉ seen) →
  smapM reconcile_copy (view <$> l) db
  = (set_reservations (partly rows (reverse (rv_id <$> l) ++ seen) <$> rows) db, Ok (copies rows <$> l))
  ∧ good db (set_reservations (partly rows (reverse (rv_id <$> l) ++ seen) <$> rows) db).
Proof.
  revert db seen. induction l as [|r l IH]; intros db seen Hrows Hinv Hnd Hsub Hndl Hseen.
  - cbn. rewrite <-Hrows. destruct db. by split; [|apply good_refl].
  - rewrite fmap_cons in Hndl. apply NoDup_cons in Hndl as [Hrl Hndl].
    destruct (reconcile_copy_run db rows seen r Hrows Hinv Hnd) as [Hone Hg1]; [apply Hsub; by left|apply Hseen; by left|].
    rewrite !fmap_cons. cbn [smapM]. unfold sbind at 1. rewrite Hone.
    set (db1 := set_reservations (partly rows (rv_id r :: seen) <$> rows) db) in *.
    destruct (IH db1 (rv_id r :: seen)) as [Hrest Hg2]; [done|apply Hg1|done|set_solver|done| |].
    { intros x Hx [Heq|Hin]%elem_of_cons; [apply Hrl; rewrite <-Heq; by apply list_elem_of_fmap_2|]. apply (Hseen x); [by right|done]. }
    unfold sbind. rewrite Hrest. unfold lift. rewrite reverse_cons, <-app_assoc. cbn [app]. split; [done|]. by eapply good_trans.
Qed.

Lemma reconcile_copies_run db :
  inv db →
  let db' := set_reservations (reconciled (db_reservations db) <$> db_reservations db) db in
  reconcile_copies db = (db', Ok (mjoin (copies (db_reservations db) <$> in_order (db_reservations db)))) ∧ good db db'.
Proof.
  intros Hinv. cbv zeta. unfold reconcile_copies, sbind at 1, all_reservations, reading. rewrite (all_views policy) by done.
  set (rows := db_reservations db).
  assert (partly rows [] <$> rows = rows) as Hstart.
  { rewrite <-(list_fmap_id rows) at 3. apply list_fmap_ext. intros i x _. unfold partly. by rewrite bool_decide_eq_false_2 by apply not_elem_of_nil. }
  destruct (reconcile_loop db rows [] (in_order rows)) as [Hloop Hg]; [done|done|apply Hinv| | |by intros ? _ ?%not_elem_of_nil|].
  { intros r Hr. by apply elem_of_in_order. }
  { rewrite in_order_perm. apply Hinv. }
  assert (partly rows (reverse (rv_id <$> in_order rows) ++ []) <$> rows = reconciled rows <$> rows) as Hend.
  { apply list_fmap_ext. intros i x Hx%list_elem_of_lookup_2. unfold partly. rewrite bool_decide_eq_true_2; [done|].
    rewrite app_nil_r. apply elem_of_reverse, list_elem_of_fmap_2. by apply elem_of_in_order. }
  rewrite Hend in Hloop, Hg. unfold sbind. rewrite Hloop. done.
Qed.
End copies.
