(* ===== verification/IntakeSystem.v ===== *)
(** * The intake store as a system

    The operations of [FinalizedIntakeStore] as one type of commands, and what
    settlement, which shares the database, may do between them.  Every command is
    atomic and leaves a good successor, so every reachable store satisfies the
    invariant. *)

From Stdlib Require Import ZArith Lia Ascii.
From stdpp Require Import base tactics numbers list strings gmap sorting relations.
From S2P Require Import Prelude PyValue Sha256 Identity Strict Provider Stack Release StackFacts ReleaseCorrect StackPlan Settlement.
From S2P Require Import SettlementPlan SettlementFacts Publication Journal PublicationSystem Fingerprint QualificationBatch Arena.
From S2P Require Import IntakeData Intake IntakeAdmission IntakeInvariant IntakeLogic IntakeSteps IntakeBatches IntakeQueue.
From S2P Require Import IntakeReserving.

Inductive IntakeOp :=
  | OpOpen (scope : IntakeScope)
  | OpReserve (arrivals : list FinalizedArrival) (finalized_block finalized_block_hash : pyval)
  | OpFetch (id : string)
  | OpTransportRetry (id reason : string)
  | OpFail (id reason : string)
  | OpHold (id reason : string)
  | OpPublish (id : string) (fingerprint : SubmittedDeltaFingerprint) (digest root : string)
  | OpBeginScreen (id service_digest : string)
  | OpScreenReceipt (id candidate_digest : string) (receipt : ArenaScreenReceipt)
  | OpMarkCopy (id predecessor : string)
  | OpReconcileCopies
  | OpQualify (id authority_digest : string) (authority_manifest : list (string * json))
  | OpOutcome (id decision : string) (attempt_ref : option EvidenceArtifactRef) (report failure reason : string)
  | OpBatch (batch : QualificationIntakeBatch) (current : pyval) (evidence_root : option string)
  | OpRequeue (id reason group : string) (position : pyval)
  | OpExpireStale (current : pyval)
  | OpExpire (id : string) (current : pyval) (reason : string)
  | OpArchive (id : string) (current : pyval) (reason : string)
  | OpRelease (id reason : string)
  | OpInitializeStack (manifest : EvaluationStackManifest) (tree_digest : string).

Section system.
Context {sha : Sha256} (policy : IntakePolicy) (Hpolicy : policy_ok policy).

Abbreviation inv := (inv policy).
Abbreviation good := (good policy).
Abbreviation atomic := (atomic policy).

(** The typed arguments passed their own checks. *)
Definition op_ok (op : IntakeOp) : Prop :=
  match op with
  | OpReserve arrivals _ _ => Forall arrival_ok arrivals
  | OpPublish _ f _ _ => fingerprint_ok f
  | OpOutcome _ _ ref _ _ _ => ref_ok ref
  | OpBatch b _ _ => batch_ok b
  | OpInitializeStack manifest _ => stack_wf manifest
  | _ => True
  end.

Definition ignore {A} (m : storeM A) : storeM unit := do? m ;; lift (Ok tt).

Definition perform (op : IntakeOp) : storeM unit :=
  match op with
  | OpOpen scope => open_store scope
  | OpReserve arrivals block hash => ignore (reserve_finalized policy arrivals block hash)
  | OpFetch id => ignore (mark_fetching policy id)
  | OpTransportRetry id reason => ignore (mark_transport_retry policy id reason)
  | OpFail id reason => ignore (mark_failed id reason)
  | OpHold id reason => ignore (mark_held id reason)
  | OpPublish id f digest root => ignore (mark_published policy id f digest root)
  | OpBeginScreen id service => ignore (begin_screen id service)
  | OpScreenReceipt id candidate receipt => ignore (apply_screen_receipt id candidate receipt)
  | OpMarkCopy id predecessor => ignore (mark_copy id predecessor)
  | OpReconcileCopies => ignore reconcile_copies
  | OpQualify id digest manifest => ignore (mark_qualifying id digest manifest)
  | OpOutcome id decision ref report failure reason => ignore (mark_outcome id decision ref report failure reason)
  | OpBatch b current root => ignore (apply_qualification_batch policy b current root)
  | OpRequeue id reason group position => ignore (requeue_qualification policy id reason group position)
  | OpExpireStale current => ignore (expire_stale policy current)
  | OpExpire id current reason => ignore (expire policy id current reason)
  | OpArchive id current reason => ignore (archive_schema3_migration_hold id current reason)
  | OpRelease id reason => ignore (release_hold id reason)
  | OpInitializeStack manifest tree => ignore (initialize_evaluation_stack manifest tree)
  end.

(** Settlement leases and commits: the rows, their logs, the cursor and what the
    candidates were made of stay.  (A lease first expires stale rows, in the same
    transaction: that is the command [OpExpireStale] before it.) *)
Record settles (db db' : Database) : Prop := {
  settles_reservations : db_reservations db' = db_reservations db;
  settles_dispositions : db_dispositions db' = db_dispositions db;
  settles_screens : db_screens db' = db_screens db;
  settles_qualifications : db_qualifications db' = db_qualifications db;
  settles_cursor : db_cursor db' = db_cursor db;
  settles_schema : db_schema db' = db_schema db;
  settles_candidates : candidate_core <$> db_candidates db' = candidate_core <$> db_candidates db
}.

Inductive intake_step (db db' : Database) : Prop :=
  | step_operation op : op_ok op → db' = (perform op db).1 → intake_step db db'
  | step_settlement : settles db db' → intake_step db db'.

(** The stores that a new database can become. *)
Definition reachable (db : Database) : Prop := ∃ scope, rtc intake_step (fresh_store scope) db.

(** ** Every step is good *)

Lemma atomic_ignore {A} db (m : storeM A) : atomic db m → atomic db (ignore m).
Proof. unfold IntakeLogic.atomic, ignore, sbind, lift. by destruct (m db) as [db' [a|e]]. Qed.

Lemma atomic_reconcile db : inv db → atomic db reconcile_copies.
Proof. intros Hinv. unfold IntakeLogic.atomic. destruct (reconcile_copies_run policy db Hinv) as [-> Hg]. exact Hg. Qed.

Lemma atomic_perform db op : inv db → op_ok op → atomic db (perform op).
Proof.
  intros Hinv Hop. destruct op; cbn [perform op_ok] in *; try apply atomic_ignore.
  - by apply atomic_open.
  - by apply atomic_reserve.
  - by apply atomic_mark_fetching.
  - by apply atomic_mark_transport_retry.
  - by apply atomic_mark_failed.
  - by apply atomic_mark_held.
  - by apply atomic_mark_published.
  - by apply atomic_begin_screen.
  - by apply atomic_apply_screen_receipt.
  - by apply atomic_mark_copy.
  - by apply atomic_reconcile.
  - by apply atomic_mark_qualifying.
  - by apply atomic_mark_outcome.
  - by apply atomic_apply_batch.
  - by apply atomic_requeue.
  - by apply atomic_expire_stale.
  - by apply atomic_expire.
  - by apply atomic_archive.
  - by apply atomic_release_hold.
  - by apply atomic_initialize_stack.
Qed.

(** ** Settlement *)

Lemma find_candidate_core db db' id c :
  candidate_core <$> db_candidates db' = candidate_core <$> db_candidates db → find_candidate db id = Some c →
  ∃ c', find_candidate db' id = Some c' ∧ candidate_core c' = candidate_core c.
Proof.
  unfold find_candidate. generalize (db_candidates db) (db_candidates db'). intros l. induction l as [|x l IH]; intros l' Heq; [done|].
  destruct l' as [|x' l']; [done|]. rewrite !fmap_cons in Heq. injection Heq as Hid Hd Hj Hl. cbn. rewrite Hid. case_bool_decide.
  - intros [= <-]. exists x'. split; [done|]. unfold candidate_core. by rewrite Hid, Hd, Hj.
  - by apply IH.
Qed.

Lemma paired_settles db db' id : settles db db' → paired db id → paired db' id.
Proof.
  intros [_ _ _ Hq _ _ Hc] (q0 & q1 & v & p & r & c & row & H1 & H2 & H3 & H4 & H5 & H6 & H7 & H8 & H9 & H10).
  destruct (find_candidate_core db db' id row Hc H8) as (row' & Hf & Hcore). unfold candidate_core in Hcore. injection Hcore as _ Hd Hj.
  exists q0, q1, v, p, r, c, row'. unfold qualifications_of in *. rewrite Hq, Hd, Hj. done.
Qed.

Lemma good_settles db db' : inv db → settles db db' → good db db'.
Proof.
  intros Hinv Hset. pose proof Hset as [Hr Hd Hs Hq Hcur Hsch Hc]. eapply (good_map policy db db' (λ r, r)); try done.
  - by rewrite Hr, list_fmap_id.
  - intros r _. by left.
  - intros r Hin. eapply row_ok_same; [by apply Hinv|..]; unfold retained, qualifications_of, screens_of; by rewrite ?Hq, ?Hs.
  - rewrite Hr. apply Hinv.
  - destruct (inv_logs _ _ Hinv) as [H1 H2 H3 H4 H5 H6]. split.
    + unfold dispositions_of in *. by rewrite Hd.
    + unfold screens_of in *. by rewrite Hs.
    + unfold raw_qualifications in *. by rewrite Hq.
    + by rewrite Hs, Hr.
    + by rewrite Hq, Hr.
    + intros id Hn. eapply paired_settles; [done|]. apply H6. unfold retained, qualifications_of in *. by rewrite Hq in Hn.
  - split_and!; [by rewrite Hd|by rewrite Hs|by rewrite Hq|by rewrite Hc].
Qed.

(** ** Reachable stores *)

Lemma step_good db db' : inv db → intake_step db db' → good db db'.
Proof.
  intros Hinv [op Hop ->|Hset]; [|by apply good_settles]. pose proof (atomic_perform db op Hinv Hop) as Ha. unfold IntakeLogic.atomic in Ha.
  destruct (perform op db) as [db' [u|e]]; [done|]. cbn. subst. by apply good_refl.
Qed.

Lemma steps_good db db' : inv db → rtc intake_step db db' → good db db'.
Proof.
  intros Hinv Hrtc. induction Hrtc as [|a b c Hstep _ IH]; [by apply good_refl|].
  pose proof (step_good a b Hinv Hstep) as Hg. eapply good_trans; [exact Hg|]. apply IH, Hg.
Qed.

Lemma reachable_inv db : reachable db → inv db.
Proof. intros [scope Hs]. eapply (steps_good (fresh_store scope)); [by apply inv_fresh|done]. Qed.

Lemma reachable_steps db db' : reachable db → rtc intake_step db db' → reachable db'.
Proof. intros [scope Hs] Hr. exists scope. by etrans. Qed.

(** ** A history of commands *)

Definition run_ops (ops : list IntakeOp) (db : Database) : Database := foldl (λ db op, (perform op db).1) db ops.

Lemma run_ops_steps ops db : Forall op_ok ops → rtc intake_step db (run_ops ops db).
Proof.
  revert db. induction ops as [|op ops IH]; intros db Hall; [done|]. apply Forall_cons in Hall as [Hop Hall].
  eapply rtc_l; [by eapply step_operation|]. by apply IH.
Qed.

Lemma run_ops_reachable scope ops : Forall op_ok ops → reachable (run_ops ops (fresh_store scope)).
Proof. intros Hall. exists scope. by apply run_ops_steps. Qed.
End system.
