(* ===== verification/IntakeCorrect.v ===== *)
(** * The intake store: theorems

    Statements about every store that a new database can become by the operations
    of [FinalizedIntakeStore] and by settlement: it reads back, its rows move along
    the status graph only, its queue is bounded, its passes are paired, replays and
    reconciliations do what they say.  Then the copy relation and the screening of
    an arena service. *)

From Stdlib Require Import ZArith Lia Ascii.
From stdpp Require Import base tactics numbers list strings gmap sorting relations.
From S2P Require Import Prelude PyValue Sha256 Identity Strict Provider Stack Release StackFacts ReleaseCorrect StackPlan Settlement.
From S2P Require Import SettlementPlan SettlementFacts Publication Journal PublicationSystem Fingerprint QualificationBatch Arena.
From S2P Require Import IntakeData Intake IntakeAdmission IntakeInvariant IntakeLogic IntakeSteps IntakeBatches IntakeQueue.
From S2P Require Import IntakeReserving IntakeSystem.

Section correct.
Context {sha : Sha256} (policy : IntakePolicy).

(** ** Lemmas *)

Lemma dead_final r r' : rtc row_edge r r' → alive r = false → r' = r.
Proof. intros Hr Ha. inversion Hr as [|? y ? He _]; [done|]. subst. apply edge_from_alive in He. congruence. Qed.

Lemma edges_identity r r' :
  rtc row_edge r r' → rv_id r' = rv_id r ∧ rv_arrival r' = rv_arrival r ∧ rv_admission_epoch r' = rv_admission_epoch r
  ∧ rtc (λ s t, (s, t) ∈ edges) (rv_status r) (rv_status r')
  ∧ (rv_publication r ≠ unpublished → rv_publication r' = rv_publication r).
Proof.
  induction 1 as [|a b c (H1 & H2 & H3 & H4 & H5) _ (K1 & K2 & K3 & K4 & K5)]; [by split_and!|].
  split_and!; [congruence..|by eapply rtc_l|]. intros Hp. destruct H5 as [H5|[H5 _]]; [|done]. rewrite K5 by congruence. done.
Qed.

Lemma from_reproductions_independent p r c : from_reproductions p r = Ok c → reuses_evidence p r = false ∧ sc_primary c = p ∧ sc_reproduction c = r.
Proof.
  unfold from_reproductions. intros Hc. apply bind_Ok in Hc as (x & Hx & Hc). unfold SettlementCandidate_init in Hx.
  do 4 (apply bind_Ok in Hx as (? & ? & Hx)). apply bind_Ok in Hx as (? & Hr%raise_if_Ok & Hx). do 2 (apply bind_Ok in Hx as (? & _ & Hx)).
  injection Hx as <-. cbn in Hc. by destruct (sq_audit_policy p), (sq_audit_policy r); try done; injection Hc as <-.
Qed.

Lemma reserve_replays db arrivals fb fh db' rows :
  policy_ok policy → inv policy db → Forall arrival_ok arrivals →
  reserve_finalized policy arrivals fb fh db = (db', Ok rows) → reserve_finalized policy arrivals fb fh db' = (db', Ok []).
Proof.
  intros Hpolicy Hinv Hall Hrun. pose proof (reserve_finalized_run policy Hpolicy db arrivals fb fh Hinv Hall) as Hspec. rewrite Hrun in Hspec.
  destruct Hspec as (block & hash & -> & -> & Hb & Hh & -> & Hg & Hrec & Href & Hinc & Hfin).
  set (db' := reserve_result policy db arrivals block hash) in *. unfold reserve_finalized, sbind at 1, sraise_if at 1, lift at 1.
  rewrite Hinc. cbn [negb raise_if]. unfold sbind at 1, lift at 1, nonneg_int. destruct (Z.ltb_spec block 0); [lia|].
  unfold sbind at 1, lift at 1, block_hash_or_empty. rewrite Hh. unfold sbind at 1, sraise_if at 1, lift at 1. rewrite Hfin. cbn [raise_if].
  unfold transaction, sbind at 1. unfold sbind at 1. destruct (expire_stale_rows_run policy db' block (proj1 Hg)) as [(e & _ & Hcontra)|[-> _]].
  { exfalso. apply Href. destruct Hcontra as [H1 H2]. split; [done|]. unfold db' in H2. cbn in H2. unfold expire_result in H2. cbv zeta in H2. by case_match. }
  assert (expire_result policy db' block = db') as -> by (by apply expire_result_settled).
  assert (read_cursor (db_cursor db') = Ok (Some (block, hash))) as Hcur by (by apply read_cursor_new).
  unfold sbind, _cursor, reading, sraise_if, lift, writing. rewrite Hcur. cbn [regressed]. rewrite Z.ltb_irrefl, Z.eqb_refl, bool_decide_eq_true_2 by done.
  cbn [negb andb orb raise_if]. rewrite (reserve_all_recorded policy db' block arrivals _ (proj1 Hg) Hrec). cbn [smapM]. unfold lift.
  unfold db'. by destruct (expire_result policy db block).
Qed.

Lemma no_stale_left db threshold (rows : list ReservationRow) : List.filter (is_stale db threshold) (expired_in db threshold <$> rows) = [].
Proof. induction rows as [|r rows IH]; [done|]. rewrite fmap_cons. cbn [List.filter]. by rewrite expired_not_stale. Qed.

(** A row that stays after a reconciliation. *)
Lemma reconciled_alive rows r f :
  alive (reconciled rows r) = true → row_fingerprint r = Some f → reconciled rows r = r ∧ predecessors rows r = [].
Proof.
  unfold reconciled. destruct (alive r) eqn:Ha; [|congruence]. intros Hal Hf. by destruct (predecessors rows r).
Qed.

Lemma reconciled_settled rows r : alive (reconciled rows r) = true → predecessors (reconciled rows <$> rows) (reconciled rows r) = [].
Proof.
  intros Ha. rewrite (predecessors_map _ rows _ (reconciled_same rows)). unfold reconciled at 2.
  destruct (alive r) eqn:Hr; [|unfold reconciled in Ha; rewrite Hr in Ha; congruence].
  destruct (row_fingerprint r) as [f|] eqn:Hf.
  - destruct (reconciled_alive rows r f Ha Hf) as [_ Hn]. by rewrite !Hn.
  - unfold predecessors at 2. rewrite Hf. unfold predecessors. by rewrite Hf.
Qed.

Lemma reconcile_again db : inv policy db →
  reconcile_copies (set_reservations (reconciled (db_reservations db) <$> db_reservations db) db)
  = (set_reservations (reconciled (db_reservations db) <$> db_reservations db) db, Ok []).
Proof.
  intros Hinv. destruct (reconcile_copies_run policy db Hinv) as [_ [Hinv' _]].
  set (rows := db_reservations db) in *. set (rows' := reconciled rows <$> rows) in *.
  assert (∀ r, r ∈ rows' → reconciled rows' r = r ∧ copies rows' r = []) as Hstay.
  { intros r' Hr'. unfold reconciled at 1, copies. destruct (alive r') eqn:Ha; [|done].
    pose proof Hr' as (r & -> & _)%list_elem_of_fmap. unfold rows'. by rewrite reconciled_settled. }
  destruct (reconcile_copies_run policy _ Hinv') as [-> _]. cbn [db_reservations set_reservations].
  assert (reconciled rows' <$> rows' = rows') as ->.
  { rewrite <-(list_fmap_id rows') at 3. apply list_fmap_ext. intros i r Hr%list_elem_of_lookup_2. by apply Hstay. }
  f_equal. f_equal. assert (∀ l, l ⊆ rows' → mjoin (copies rows' <$> l) = []) as Hnone.
  { induction l as [|r l IH]; intros Hl; [done|]. rewrite fmap_cons. cbn. rewrite (proj2 (Hstay r (Hl r (list_elem_of_here _ _)))).
    apply IH. set_solver. }
  apply Hnone. intros r Hr. by apply elem_of_in_order.
Qed.

Lemma precedes_copy r f p g :
  row_fingerprint p = Some g → precedes r f p = true ↔
  key_lt (arrival_key (rv_arrival p)) (arrival_key (rv_arrival r)) ∧ fa_hotkey (rv_arrival p) ≠ fa_hotkey (rv_arrival r) ∧ is_copy g f.
Proof.
  intros Hp. unfold precedes. rewrite Hp, !andb_true_iff, bool_decide_eq_true, negb_true_iff, bool_decide_eq_false, compare_authoritative. tauto.
Qed.

(** ** The theorems *)

(** C27: a reachable store reads back.  Every stored row passes the reader's checks,
    so reading all reservations succeeds, in finalized order, and so does reading
    each by its identity, which is unique; the cursor is readable. *)
Theorem store_reads_back db :
  policy_ok policy → reachable policy db →
  all_reservations db = (db, Ok (view <$> in_order (db_reservations db)))
  ∧ StronglySorted row_le (in_order (db_reservations db))
  ∧ NoDup (rv_id <$> db_reservations db)
  ∧ (∀ r, r ∈ db_reservations db → get_reservation (rv_id r) db = (db, Ok (view r)) ∧ rv_id r = reservation_id (rv_arrival r))
  ∧ ∃ cursor, finalized_cursor db = (db, Ok cursor).
Proof.
  intros Hpolicy Hreach. pose proof (reachable_inv policy Hpolicy db Hreach) as Hinv. split_and!.
  - unfold all_reservations, reading. by rewrite (all_views policy).
  - apply in_order_sorted.
  - apply Hinv.
  - intros r Hr. rewrite (get_found policy), (find_row_elem db r (inv_ids _ _ Hinv) Hr) by done. split; [done|]. apply (inv_rows _ _ Hinv r Hr).
  - destruct (inv_cursor _ _ Hinv) as [c Hc]. exists c. unfold finalized_cursor, _cursor, reading. by rewrite Hc.
Qed.

(** C24: operations are atomic.  On a reachable store an operation that raises leaves
    the store exactly as it was, although many read, write and read again. *)
Theorem operations_atomic db op db' e :
  policy_ok policy → reachable policy db → op_ok op → perform policy op db = (db', Raise e) → db' = db.
Proof.
  intros Hpolicy Hreach Hop Hrun. pose proof (atomic_perform policy Hpolicy db op (reachable_inv policy Hpolicy db Hreach) Hop) as Ha.
  unfold atomic in Ha. by rewrite Hrun in Ha.
Qed.

(** C20: the life of a reservation.  Whatever operations follow, a reservation stays in
    the store with its arrival and epoch, its status moves along the edges of the
    status graph only, a failed or expired one never changes again, and a
    publication is never replaced.  The dispositions, screens and qualifications
    only grow at their end, and the finalized cursor never goes back or changes
    the hash of its block. *)
Theorem reservations_move_legally db db' r :
  policy_ok policy → reachable policy db → rtc (intake_step policy) db db' → r ∈ db_reservations db →
  (∃ r', find_row db' (rv_id r) = Some r'
     ∧ rv_arrival r' = rv_arrival r ∧ rv_admission_epoch r' = rv_admission_epoch r
     ∧ rtc (λ s t, (s, t) ∈ edges) (rv_status r) (rv_status r')
     ∧ (rv_status r ∈ ["failed"; "expired"] → r' = r)
     ∧ (rv_publication r ≠ unpublished → rv_publication r' = rv_publication r))
  ∧ log_grows db db' ∧ cursor_advances (db_cursor db) (db_cursor db').
Proof.
  intros Hpolicy Hreach Hsteps Hr. destruct (steps_good policy Hpolicy db db' (reachable_inv policy Hpolicy db Hreach) Hsteps) as [Hinv (Hm & Hl & Hc)].
  split; [|done]. destruct Hm as (kept & new & Hrows & Hall). apply list_elem_of_lookup in Hr as [i Hi].
  destruct (Forall2_lookup_l _ _ _ _ _ Hall Hi) as (r' & Hr' & Hedge). destruct (edges_identity _ _ Hedge) as (H1 & H2 & H3 & H4 & H5).
  exists r'. split_and!; try done.
  - rewrite <-H1. apply find_row_elem; [apply Hinv|]. rewrite Hrows. apply elem_of_app. left. by eapply list_elem_of_lookup_2.
  - intros Hd. apply dead_final; [done|]. unfold alive, status_in. by rewrite bool_decide_eq_true_2.
Qed.

(** C22: the queue is bounded.  In a reachable store at most [max_pending] reservations
    are pending; a reservation that is not failed or expired was admitted while
    fewer than [max_per_hotkey_epoch] of its hotkey and epoch were stored before
    it; at most [max_per_target_epoch] live reservations of an epoch are
    published for one target; and no reservation exceeds the transport attempts
    of the policy. *)
Theorem admission_bounds db :
  policy_ok policy → reachable policy db →
  count_where (status_in PENDING) (db_reservations db) ≤ ip_max_pending policy
  ∧ (∀ pre r post, db_reservations db = pre ++ r :: post → alive r = true →
       hotkey_count (rv_admission_epoch r) (fa_hotkey (rv_arrival r)) pre < ip_max_per_hotkey_epoch policy)
  ∧ (∀ epoch target, target ≠ "" → alive_target_count epoch target (db_reservations db) ≤ ip_max_per_target_epoch policy)
  ∧ (∀ r, r ∈ db_reservations db → 0 ≤ rv_transport_attempts r ≤ ip_max_transport_retries policy).
Proof.
  intros Hpolicy Hreach. pose proof (reachable_inv policy Hpolicy db Hreach) as Hinv.
  split_and!; [exact (inv_pending _ _ Hinv)|apply Hinv|apply Hinv|].
  intros r Hr. destruct (inv_rows _ _ Hinv r Hr) as [Hv Ha _]. split; [apply Hv|done].
Qed.

(** C21: a qualified reservation has two independent passes.  The store retains exactly
    two qualifications for it, and its settlement candidate, still the one stored
    with them, is made of the two: the reproduction shares none of the seven
    pieces of authority and evidence with the primary. *)
Theorem qualified_pairs_passes db r :
  policy_ok policy → reachable policy db → r ∈ db_reservations db → rv_status r = "qualified" →
  ∃ q0 q1 v primary reproduction candidate c,
    qualifications_of db (rv_id r) = [q0; q1]
    ∧ ql_qualification_json q0 = Some v ∧ SettlementQualification_from_dict v = Ok primary
    ∧ ql_qualification_digest q0 = SettlementQualification_digest primary
    ∧ ql_qualification_json q1 = Some (SettlementQualification_to_dict reproduction)
    ∧ ql_qualification_digest q1 = SettlementQualification_digest reproduction
    ∧ from_reproductions primary reproduction = Ok candidate ∧ reuses_evidence primary reproduction = false
    ∧ find_candidate db (rv_id r) = Some c ∧ ca_candidate_digest c = SettlementCandidate_digest candidate
    ∧ ca_candidate_json c = Some (Some (SettlementCandidate_to_dict candidate)).
Proof.
  intros Hpolicy Hreach Hr Hs. pose proof (reachable_inv policy Hpolicy db Hreach) as Hinv.
  pose proof (row_status_stage policy db r _ (inv_rows _ _ Hinv r Hr) Hs) as Hst. inversion Hst as [| | | | | | | | | |_ Hn| |].
  destruct (log_paired _ (inv_logs _ _ Hinv) _ Hn) as (q0 & q1 & v & p & rep & c & row & H1 & H2 & H3 & H4 & H5 & H6 & H7 & H8 & H9 & H10).
  exists q0, q1, v, p, rep, c, row. destruct (from_reproductions_independent p rep c H7) as [Hi _]. split_and!; done.
Qed.

(** C25: admission is the reference.  When [reserve_finalized] returns, the stale rows
    have expired, every arrival has its row with its bytes unchanged, the rows are
    those of [admit_arrival] folded over the arrivals, which recounts the queue for each,
    and the cursor is the finalized block. *)
Theorem reserve_admits db arrivals fb fh db' rows :
  policy_ok policy → reachable policy db → Forall arrival_ok arrivals →
  reserve_finalized policy arrivals fb fh db = (db', Ok rows) →
  ∃ block hash, fb = PInt block ∧ fh = PStr hash
    ∧ db_reservations db' = foldl (admit_arrival policy block) (db_reservations (expire_result policy db block)) arrivals
    ∧ Forall (recorded (db_reservations db')) arrivals
    ∧ read_cursor (db_cursor db') = Ok (Some (block, hash))
    ∧ (db_dispositions db', db_screens db', db_qualifications db', db_candidates db')
      = (db_dispositions db, db_screens db, db_qualifications db, db_candidates db).
Proof.
  intros Hpolicy Hreach Hall Hrun. pose proof (reachable_inv policy Hpolicy db Hreach) as Hinv.
  pose proof (reserve_finalized_run policy Hpolicy db arrivals fb fh Hinv Hall) as Hspec. rewrite Hrun in Hspec.
  destruct Hspec as (block & hash & -> & -> & Hb & Hh & -> & Hg & Hrec & _). exists block, hash.
  split_and!; [done|done|done|exact Hrec|by apply read_cursor_new|]. cbn. unfold expire_result. cbv zeta. by case_match.
Qed.

(** C26: replays change nothing.  Reserving the same finalized range again, as a
    controller does that stopped before it noted the result, returns no
    reservation and leaves the store as it is. *)
Theorem reserve_replay db arrivals fb fh db' rows :
  policy_ok policy → reachable policy db → Forall arrival_ok arrivals →
  reserve_finalized policy arrivals fb fh db = (db', Ok rows) → reserve_finalized policy arrivals fb fh db' = (db', Ok []).
Proof. intros Hpolicy Hreach. by apply reserve_replays, reachable_inv. Qed.

(** C28: automatic expiry is exact.  On a reachable store it raises only when the block
    does not fit the database or a retained qualification claims a later one;
    otherwise it expires exactly the stale rows, and a second call at the same
    block finds none. *)
Theorem expire_stale_exact db block :
  policy_ok policy → reachable policy db → 0 ≤ block →
  (expiry_refused policy db block ∧ ∃ e, expire_stale policy (PInt block) db = (db, Raise e))
  ∨ (¬ expiry_refused policy db block
     ∧ ∃ rows, expire_stale policy (PInt block) db = (expire_result policy db block, Ok rows)
       ∧ expired_rows policy (expire_result policy db block) block = []).
Proof.
  intros Hpolicy Hreach Hb. pose proof (reachable_inv policy Hpolicy db Hreach) as Hinv.
  unfold expire_stale, sbind, lift, nonneg_int, transaction. destruct (Z.ltb_spec block 0); [lia|].
  destruct (expire_stale_rows_run policy db block Hinv) as [(e & -> & Href)|[-> Href]]; [left; split; [done|by eexists]|right; split; [done|]].
  destruct (smapM_get policy (expire_result policy db block) (rv_id <$> expired_rows policy db block)) as [rows ->].
  { by apply good_expire_result. }
  { intros id Hid. apply list_elem_of_fmap in Hid as (r & -> & Hr). by apply expired_found. }
  exists rows. split; [done|]. unfold expired_rows, expire_result. cbv zeta. destruct (_ <? 0); [done|]. cbn [db_reservations set_reservations].
  change (in_order (List.filter (is_stale db (block - ip_expiry_blocks policy)) (expired_in db (block - ip_expiry_blocks policy) <$> db_reservations db)) = []).
  by rewrite no_stale_left.
Qed.

(** C23: copies lose.  On a reachable store [reconcile_copies] never raises, and
    changes each row as the reference says; afterwards no live reservation has a
    delta that is a copy of an earlier reservation's of another hotkey, rows that
    are no copies are untouched, and a second call finds nothing. *)
Theorem copies_resolved db :
  policy_ok policy → reachable policy db →
  ∃ copied db', reconcile_copies db = (db', Ok copied)
    ∧ db_reservations db' = reconciled (db_reservations db) <$> db_reservations db
    ∧ (∀ r p f g, r ∈ db_reservations db' → p ∈ db_reservations db' → alive r = true →
         row_fingerprint r = Some f → row_fingerprint p = Some g →
         key_lt (arrival_key (rv_arrival p)) (arrival_key (rv_arrival r)) →
         fa_hotkey (rv_arrival p) ≠ fa_hotkey (rv_arrival r) → ¬ is_copy g f)
    ∧ (∀ r, r ∈ db_reservations db → r ∉ db_reservations db' →
         ∃ p, p ∈ predecessors (db_reservations db) r ∧ vd_reason (rv_verdict (reconciled (db_reservations db) r)) = "copy_of:" +:+ rv_id p)
    ∧ reconcile_copies db' = (db', Ok []).
Proof.
  intros Hpolicy Hreach. pose proof (reachable_inv policy Hpolicy db Hreach) as Hinv. destruct (reconcile_copies_run policy db Hinv) as [-> _].
  eexists _, _. split; [done|]. split; [done|]. cbn [db_reservations set_reservations]. split; [|split; [|by apply reconcile_again]].
  - intros r' p' f g Hr' Hp' Ha Hf Hg Hk Hh Hcopy. apply list_elem_of_fmap in Hr' as (r & -> & Hr), Hp' as (p & -> & Hp).
    rewrite (row_fingerprint_same _ _ (reconciled_same _ r)) in Hf. destruct (reconciled_alive _ r f Ha Hf) as [Hsame Hnone].
    rewrite Hsame in *. pose proof (reconciled_same (db_reservations db) p) as Hsp. pose proof Hsp as (_ & Harr & _).
    rewrite (row_fingerprint_same _ _ Hsp) in Hg. rewrite Harr in *.
    assert (p ∈ predecessors (db_reservations db) r) as Hin. { apply (predecessors_elem _ _ _ f Hf). split; [done|]. by apply (precedes_copy r f p g Hg). }
    rewrite Hnone in Hin. by apply not_elem_of_nil in Hin.
  - intros r Hr Hn. unfold reconciled. destruct (alive r) eqn:Ha.
    + destruct (predecessors (db_reservations db) r) as [|p l] eqn:Hp; [|exists p; split; [by left|done]].
      exfalso. apply Hn. apply list_elem_of_fmap. exists r. split; [|done]. unfold reconciled. by rewrite Ha, Hp.
    + exfalso. apply Hn. apply list_elem_of_fmap. exists r. split; [|done]. unfold reconciled. by rewrite Ha.
Qed.
End correct.

(** What counts as a copy.  A comparison is authoritative exactly when the deltas
    are of one product kind, share a reward namespace, and have the same payload,
    the same normalized delta, or one's containment fingerprints all among the
    other's; and it does not matter which delta came first. *)
Theorem copy_decision_exact a b :
  (cd_authoritative (compare_submitted_deltas a b) = true ↔ is_copy a b)
  ∧ compare_submitted_deltas a b = compare_submitted_deltas b a.
Proof. split; [apply compare_authoritative|apply compare_symmetric]. Qed.

(** C29: screening decides.  When the provider answers each stage that is reached with
    a result of that stage, the attempt is positive and neither identity is the
    reserved zero digest, [screen] returns a receipt: the five stages ran in order up
    to the first that did not pass in time, and the decision is a promotion exactly
    when all passed, a rejection when the last one failed, and otherwise a retry or,
    from the retry limit on, a hold. *)
Theorem screen_decides `{Sha256} `{ArenaProvider} service candidate :
  ss_stage <$> am_screens service = SCREEN_STAGES → provider_answers service candidate (am_screens service) → 0 < cb_screen_attempt candidate →
  digest_ok (ArenaServiceManifest_digest service) → digest_ok (ArenaCandidateBinding_digest candidate) →
  ∃ receipt, screen service candidate = Ok receipt
    ∧ rc_decision receipt = screen_decision service candidate (am_screens service)
    ∧ sr_stage <$> rc_results receipt = ss_stage <$> stages_run service candidate (am_screens service)
    ∧ sr_grade <$> rc_results receipt = stage_grade service candidate <$> stages_run service candidate (am_screens service)
    ∧ rc_service_digest receipt = ArenaServiceManifest_digest service
    ∧ rc_candidate_digest receipt = ArenaCandidateBinding_digest candidate
    ∧ rc_screen_attempt receipt = cb_screen_attempt candidate
    ∧ (rc_decision receipt = PrPromote ↔ ∀ stage, stage ∈ am_screens service → stage_grade service candidate stage = GPass).
Proof.
  intros Hst Hans Hpos Hd1 Hd2. destruct (screen_run service candidate Hst Hans Hpos Hd1 Hd2) as (receipt & Hrun & Hdec & H1 & H2 & H3 & H4 & H5).
  exists receipt. split_and!; try done. rewrite Hdec. unfold screen_decision. destruct (List.find _ _) as [s|] eqn:Hf.
  - apply List.find_some in Hf as [Hin%list_elem_of_In Hs]. unfold stops in Hs. apply negb_true_iff, bool_decide_eq_false in Hs.
    split; [by repeat case_match|]. intros Hall. by apply Hall in Hin.
  - split; [|done]. intros _ stage Hin%list_elem_of_In. eapply List.find_none in Hf; [|exact Hin].
    unfold stops in Hf. by apply negb_false_iff, bool_decide_eq_true in Hf.
Qed.
