(* ===== verification/DebtPublication.v ===== *)
(** * Debt publications

    [chain/debt_publication.py]: the records that tie an economic projection to
    the weights the signer publishes and to the finalized row that is read back,
    the table of confirmations and the journal of the V2 publisher, and the
    schedule of epoch boundaries.

    A column with JSON text is a [json_text]: [Dumped v] is the text that
    [json.dumps(v, separators=(",", ":"), sort_keys=True)] writes, [Foreign] any
    other text with what [json.loads] makes of it ([None] when it refuses).  No
    reader observes the order of an object's members.  The operations run inside
    the transaction of their owner: one that raises leaves the tables as they
    were. *)

From Stdlib Require Import ZArith Lia Ascii.
From stdpp Require Import base tactics numbers list strings gmap sorting.
From S2P Require Import Prelude PyValue Sha256 Identity Strict Provider FiniteDebt Composition Publication Programs Chain Weights.
From S2P Require Import Journal IntakeData.

(** ** JSON columns *)

Inductive json_text :=
  | Dumped (v : pyval)
  | Foreign (v : option pyval).

(** [json.loads(text)] *)
Definition loads (t : json_text) : option pyval :=
  match t with Dumped v => Some v | Foreign v => v end.

(** [_canonical_json(v) == _canonical_json(w)] *)
Definition same_json (v w : pyval) : bool :=
  match canonical_json_bytes v, canonical_json_bytes w with
  | Ok a, Ok b => bool_decide (a = b)
  | _, _ => false
  end.

(** [_canonical_json(v) == text] *)
Definition text_is (t : json_text) (v : pyval) : bool :=
  match t with Dumped w => same_json w v | Foreign _ => false end.

(** [_canonical_json(json.loads(text)) == text] *)
Definition is_dumped (t : json_text) : bool := match t with Dumped _ => true | Foreign _ => false end.

(** The order of rows by an integer column. *)
Definition zkey_le {A} (key : A → Z) (a b : A) : Prop := key a ≤ key b.

#[global] Instance zkey_le_dec {A} (key : A → Z) a b : Decision (zkey_le key a b).
Proof. unfold zkey_le. apply _. Defined.

Definition order_by {A} (key : A → Z) (l : list A) : list A := stable_sort (zkey_le key) l.

Module DP.
Definition error (msg : string) : pyexn := Exn DebtPublicationError msg.

Definition _digest (v : pyval) : result string := require_digest DebtPublicationError false false v.
Definition _integer (minimum : Z) (v : pyval) : result Z := require_int DebtPublicationError (Some minimum) None v.

Definition _block_hash (v : pyval) : result string :=
  match v with
  | PStr s => if is_block_hash s then Ok s else Raise (error "is malformed")
  | _ => Raise (error "is malformed")
  end.

Definition _strict (fields : list string) (v : pyval) : result (list (string * pyval)) :=
  require_exact_fields DebtPublicationError fields true v.
End DP.

(** What [except (TypeError, ValueError, ...)] catches, with further classes. *)
Definition VALUE_CLASSES : list exn_class :=
  [TypeError; StackIdentityError; OtherValueError; FiniteDebtError; IncentiveCompositionError; EconomicsError; StackManifestError;
   TargetCatalogError; TargetResolutionError; ArtifactProviderPolicyError; StackPlanError; StaleStackPlanError; SettlementError;
   EvidenceStoreError; SessionProtocolError; ArenaServiceError; QualificationIntakeError].

Definition catching {A} (classes : list exn_class) (e : pyexn) (m : result A) : result A :=
  reraise (λ c, bool_decide (c ∈ classes)) (λ _, e) m.

(** [from_dict(json.loads(text))] with the value errors of both turned into [e]. *)
Definition reopen_text {A} (extra : list exn_class) (e : pyexn) (from_dict : pyval → result A) (t : json_text) : result A :=
  match loads t with
  | None => Raise e
  | Some v => catching (extra ++ VALUE_CLASSES) e (from_dict v)
  end.

Definition PUBLICATION_KIND_CORE : string := "finite_debt".
Definition PUBLICATION_KIND_COMPOSED : string := "incentive_composition".
Definition PUBLICATION_KINDS : list string := [PUBLICATION_KIND_CORE; PUBLICATION_KIND_COMPOSED].
Definition CONFIRMATION_SCHEMA_VERSION : Z := 1.
Definition CONFIRMATION_VERSION : string := "optima.debt-weight-publication.v1".

Definition _weights (rows : list DebtHotkeyWeight) : result (list DebtHotkeyWeight) :=
  do! raise_if (negb (sorted_unique (hw_hotkey <$> rows)) || negb (Zsum (hw_units <$> rows) =? PPM))
        (DP.error "debt publication weights must be unique, canonical, and conserve PPM") ;;
  Ok rows.

(** ** Readbacks *)

Record DebtWeightReadback := {
  rb_chain_scope_digest : string;
  rb_netuid : Z;
  rb_validator_hotkey : string;
  rb_block : Z;
  rb_block_hash : string;
  rb_last_update_block : Z;
  rb_weights : list DebtHotkeyWeight
}.

#[global] Instance DebtHotkeyWeight_eq_dec : EqDecision DebtHotkeyWeight.
Proof. solve_decision. Defined.

#[global] Instance DebtWeightReadback_eq_dec : EqDecision DebtWeightReadback.
Proof. solve_decision. Defined.

Definition DebtWeightReadback_init (chain_scope_digest netuid validator_hotkey block block_hash last_update_block : pyval)
    (weights : list DebtHotkeyWeight) : result DebtWeightReadback :=
  let! chain_scope_digest := DP._digest chain_scope_digest in
  let! netuid := DP._integer 0 netuid in
  let! validator_hotkey :=
    match validator_hotkey with
    | PStr s => if hotkey_matches s then Ok s else Raise (DP.error "validator_hotkey is malformed")
    | _ => Raise (DP.error "validator_hotkey is malformed")
    end in
  let! block := DP._integer 0 block in
  let! block_hash := DP._block_hash block_hash in
  let! updated := DP._integer 0 last_update_block in
  do! raise_if (block <? updated) (DP.error "weight readback update is after its block") ;;
  let! weights := _weights weights in
  Ok {| rb_chain_scope_digest := chain_scope_digest; rb_netuid := netuid; rb_validator_hotkey := validator_hotkey;
        rb_block := block; rb_block_hash := block_hash; rb_last_update_block := updated; rb_weights := weights |}.

Definition DebtWeightReadback_to_dict (r : DebtWeightReadback) : pyval :=
  py_dict [
    ("block", PInt (rb_block r));
    ("block_hash", PStr (rb_block_hash r));
    ("chain_scope_digest", PStr (rb_chain_scope_digest r));
    ("last_update_block", PInt (rb_last_update_block r));
    ("netuid", PInt (rb_netuid r));
    ("validator_hotkey", PStr (rb_validator_hotkey r));
    ("weights", PList (DebtHotkeyWeight_to_dict <$> rb_weights r))].

Definition DebtWeightReadback_from_dict (v : pyval) : result DebtWeightReadback :=
  let! row := DP._strict ["chain_scope_digest"; "netuid"; "validator_hotkey"; "block"; "block_hash"; "last_update_block"; "weights"] v in
  let! weights := row_get row "weights" in
  let! weights := require_list (DP.error "debt weight readback weights must be an array") weights in
  let! weights := catching VALUE_CLASSES (DP.error "debt weight readback is invalid") (mapM DebtHotkeyWeight_from_dict weights) in
  let! chain_scope_digest := row_get row "chain_scope_digest" in
  let! netuid := row_get row "netuid" in
  let! validator_hotkey := row_get row "validator_hotkey" in
  let! block := row_get row "block" in
  let! block_hash := row_get row "block_hash" in
  let! last_update_block := row_get row "last_update_block" in
  DebtWeightReadback_init chain_scope_digest netuid validator_hotkey block block_hash last_update_block weights.

(** ** Confirmations *)

Record ConfirmedDebtWeightPublication := {
  cp_chain_scope_digest : string;
  cp_publication_kind : string;
  cp_policy_digest : string;
  cp_projection_digest : string;
  cp_weight_projection_digest : string;
  cp_effective_block : Z;
  cp_effective_block_hash : string;
  cp_weights : list DebtHotkeyWeight;
  cp_readback : DebtWeightReadback;
  cp_publication_record : WeightPublicationRecord;
  cp_schema_version : pyval;
  cp_confirmation_version : string
}.

(** [self.publication_kind not in PUBLICATION_KINDS] *)
Definition publication_kind_of (msg : string) (v : pyval) : result string :=
  let! known := py_in_strs v PUBLICATION_KINDS in
  match v with
  | PStr s => if known then Ok s else Raise (DP.error msg)
  | _ => Raise (DP.error msg)
  end.

Definition ConfirmedDebtWeightPublication_init (chain_scope_digest publication_kind policy_digest projection_digest
    weight_projection_digest effective_block effective_block_hash : pyval) (weights : list DebtHotkeyWeight)
    (readback : DebtWeightReadback) (record : WeightPublicationRecord) (schema_version confirmation_version : pyval)
    : result ConfirmedDebtWeightPublication :=
  let! chain_scope_digest := DP._digest chain_scope_digest in
  let! publication_kind := publication_kind_of "debt publication kind is unsupported" publication_kind in
  let! policy_digest := DP._digest policy_digest in
  let! projection_digest := DP._digest projection_digest in
  let! weight_projection_digest := DP._digest weight_projection_digest in
  let! effective := DP._integer 0 effective_block in
  let! effective_block_hash := DP._block_hash effective_block_hash in
  let! weights := _weights weights in
  do! raise_if (negb (bool_decide (rb_chain_scope_digest readback = chain_scope_digest))
                || negb (bool_decide (rb_weights readback = weights))
                || (rb_block readback <? effective)
                || negb (bool_decide (wr_status record = "confirmed"))
                || negb (bool_decide (wr_projection_digest record = weight_projection_digest))
                || negb (wr_confirmed_block record =? rb_block readback)
                || negb (wr_confirmed_last_update record =? rb_last_update_block readback)
                || (wr_confirmed_last_update record <? wr_submit_block record))
        (DP.error "debt publication does not bind an exact confirmed finalized readback") ;;
  do! raise_if (negb (py_eq_int schema_version CONFIRMATION_SCHEMA_VERSION)) (DP.error "debt publication schema is unsupported") ;;
  do! raise_if (negb (py_eq_str confirmation_version CONFIRMATION_VERSION)) (DP.error "debt publication version is unsupported") ;;
  Ok {| cp_chain_scope_digest := chain_scope_digest; cp_publication_kind := publication_kind; cp_policy_digest := policy_digest;
        cp_projection_digest := projection_digest; cp_weight_projection_digest := weight_projection_digest;
        cp_effective_block := effective; cp_effective_block_hash := effective_block_hash; cp_weights := weights;
        cp_readback := readback; cp_publication_record := record; cp_schema_version := schema_version;
        cp_confirmation_version := CONFIRMATION_VERSION |}.

Definition ConfirmedDebtWeightPublication_to_dict (c : ConfirmedDebtWeightPublication) : pyval :=
  py_dict [
    ("chain_scope_digest", PStr (cp_chain_scope_digest c));
    ("confirmation_version", PStr (cp_confirmation_version c));
    ("effective_block", PInt (cp_effective_block c));
    ("effective_block_hash", PStr (cp_effective_block_hash c));
    ("policy_digest", PStr (cp_policy_digest c));
    ("projection_digest", PStr (cp_projection_digest c));
    ("publication_kind", PStr (cp_publication_kind c));
    ("publication_record", WeightPublicationRecord_to_dict (cp_publication_record c));
    ("readback", DebtWeightReadback_to_dict (cp_readback c));
    ("schema_version", cp_schema_version c);
    ("weights", PList (DebtHotkeyWeight_to_dict <$> cp_weights c));
    ("weight_projection_digest", PStr (cp_weight_projection_digest c))].

(** [WeightPublicationError] is not a value error: it passes through. *)
Definition ConfirmedDebtWeightPublication_from_dict (v : pyval) : result ConfirmedDebtWeightPublication :=
  let! row := DP._strict ["chain_scope_digest"; "publication_kind"; "policy_digest"; "projection_digest"; "weight_projection_digest";
                "effective_block"; "effective_block_hash"; "weights"; "readback"; "publication_record"; "schema_version";
                "confirmation_version"] v in
  let! weights := row_get row "weights" in
  let! weights := require_list (DP.error "debt publication weights must be an array") weights in
  let! readback := row_get row "readback" in
  let! record := row_get row "publication_record" in
  let! parts := catching (DebtPublicationError :: VALUE_CLASSES) (DP.error "debt publication is invalid")
    (let! weights := mapM DebtHotkeyWeight_from_dict weights in
     let! readback := DebtWeightReadback_from_dict readback in
     let! record := WeightPublicationRecord_from_dict record in
     Ok (weights, readback, record)) in
  let '(weights, readback, record) := parts in
  let! chain_scope_digest := row_get row "chain_scope_digest" in
  let! publication_kind := row_get row "publication_kind" in
  let! policy_digest := row_get row "policy_digest" in
  let! projection_digest := row_get row "projection_digest" in
  let! weight_projection_digest := row_get row "weight_projection_digest" in
  let! effective_block := row_get row "effective_block" in
  let! effective_block_hash := row_get row "effective_block_hash" in
  let! schema_version := row_get row "schema_version" in
  let! confirmation_version := row_get row "confirmation_version" in
  ConfirmedDebtWeightPublication_init chain_scope_digest publication_kind policy_digest projection_digest
    weight_projection_digest effective_block effective_block_hash weights readback record schema_version confirmation_version.

(** ** Bindings *)

(** The economic projection of either kind. *)
Inductive EconomicProjection :=
  | CoreProjection (d : DebtEpochProjection)
  | ComposedProjection (d : ComposedEpochProjection).

Definition eco_policy_digest (p : EconomicProjection) : string :=
  match p with CoreProjection d => dp_policy_digest d | ComposedProjection d => ep_composition_policy_digest d end.

Definition eco_effective_block (p : EconomicProjection) : Z :=
  match p with CoreProjection d => dp_effective_block d | ComposedProjection d => ep_effective_block d end.

Definition eco_weights (p : EconomicProjection) : list DebtHotkeyWeight :=
  match p with CoreProjection d => dp_weights d | ComposedProjection d => ep_weights d end.

Definition eco_input_digests (p : EconomicProjection) : list string :=
  match p with
  | CoreProjection d => dp_input_state_digests d
  | ComposedProjection d => sorted_str (ep_discovery_input_state_digests d ++ ep_innovation_input_state_digests d)
  end.

Definition eco_to_dict (p : EconomicProjection) : pyval :=
  match p with CoreProjection d => DebtEpochProjection_to_dict d | ComposedProjection d => ComposedEpochProjection_to_dict d end.

(** [type(economic_projection) is expected_type] *)
Definition eco_has_kind (kind : string) (p : EconomicProjection) : bool :=
  match p with
  | CoreProjection _ => bool_decide (kind = PUBLICATION_KIND_CORE)
  | ComposedProjection _ => negb (bool_decide (kind = PUBLICATION_KIND_CORE))
  end.

Record DebtWeightPublicationBinding := {
  bd_publication_kind : string;
  bd_activation_digest : string;
  bd_effective_block_hash : string;
  bd_economic_projection : EconomicProjection;
  bd_weight_projection : WeightProjection
}.

Definition DebtWeightPublicationBinding_to_dict (b : DebtWeightPublicationBinding) : pyval :=
  py_dict [
    ("activation_digest", PStr (bd_activation_digest b));
    ("economic_projection", eco_to_dict (bd_economic_projection b));
    ("effective_block_hash", PStr (bd_effective_block_hash b));
    ("publication_kind", PStr (bd_publication_kind b));
    ("weight_projection", WeightProjection_to_dict (bd_weight_projection b))].

(** [(row.hotkey, row.units) for row in weights] *)
Definition weight_pairs (rows : list DebtHotkeyWeight) : list (string * Z) := (λ row, (hw_hotkey row, hw_units row)) <$> rows.

Section publications.
Context `{Sha256}.

Definition DebtWeightReadback_digest (r : DebtWeightReadback) : string :=
  digest_of "optima.debt-weight-readback" (DebtWeightReadback_to_dict r).

(** The digest raises on a schema version that is the float [1.0]. *)
Definition ConfirmedDebtWeightPublication_digest (c : ConfirmedDebtWeightPublication) : result string :=
  canonical_digest "optima.debt-weight-publication" (ConfirmedDebtWeightPublication_to_dict c) (PInt 1).

Definition eco_digest (p : EconomicProjection) : result string :=
  match p with CoreProjection d => DebtEpochProjection_digest d | ComposedProjection d => ComposedEpochProjection_digest d end.

Definition evaluation_digest (activation_digest : string) (inputs : list string) (projection_digest : string) : string :=
  digest_of "optima.debt-weight-projection.evaluation" (py_dict [
    ("activation_digest", PStr activation_digest);
    ("input_state_digests", py_strs inputs);
    ("projection_digest", PStr projection_digest)]).

Definition DebtWeightPublicationBinding_init (publication_kind activation_digest effective_block_hash : pyval)
    (economic : EconomicProjection) (weight_projection : WeightProjection) : result DebtWeightPublicationBinding :=
  let! kind := publication_kind_of "debt publication binding kind is unsupported" publication_kind in
  let! activation_digest := DP._digest activation_digest in
  let! effective_block_hash := DP._block_hash effective_block_hash in
  do! raise_if (negb (eco_has_kind kind economic)) (DP.error "debt publication binding economic projection has the wrong kind") ;;
  let! digest := eco_digest economic in
  do! raise_if (negb (bool_decide (wj_policy_digest weight_projection = eco_policy_digest economic))
                || negb (bool_decide (wj_settlement_state_digest weight_projection = digest))
                || negb (bool_decide (wj_evaluation_state_digest weight_projection
                                      = evaluation_digest activation_digest (eco_input_digests economic) digest))
                || negb (wj_effective_block weight_projection =? eco_effective_block economic)
                || negb (bool_decide (wj_arena_state_digests weight_projection = [activation_digest]))
                || negb (bool_decide (wj_weights_ppm weight_projection = weight_pairs (eco_weights economic))))
        (DP.error "signer-facing weights differ from their economic projection") ;;
  Ok {| bd_publication_kind := kind; bd_activation_digest := activation_digest; bd_effective_block_hash := effective_block_hash;
        bd_economic_projection := economic; bd_weight_projection := weight_projection |}.

(** The economic projection of a kind; with an unknown kind the value stays what it
    is and the constructor refuses the kind. *)
Definition economic_of (kind : pyval) (v : pyval) : result (option EconomicProjection) :=
  if py_eq_str kind PUBLICATION_KIND_CORE then let! d := DebtEpochProjection_from_dict v in Ok (Some (CoreProjection d))
  else if py_eq_str kind PUBLICATION_KIND_COMPOSED then let! d := ComposedEpochProjection_from_dict v in Ok (Some (ComposedProjection d))
  else Ok None.

Definition DebtWeightPublicationBinding_from_dict (v : pyval) : result DebtWeightPublicationBinding :=
  let! row := DP._strict ["publication_kind"; "activation_digest"; "effective_block_hash"; "economic_projection"; "weight_projection"] v in
  let! kind := row_get row "publication_kind" in
  let! economic := row_get row "economic_projection" in
  let! weight_projection := row_get row "weight_projection" in
  let! parts := catching (WeightPublicationError :: VALUE_CLASSES) (DP.error "debt weight publication binding is invalid")
    (let! economic := economic_of kind economic in
     let! weight_projection := WeightProjection_from_dict weight_projection in
     Ok (economic, weight_projection)) in
  let! activation_digest := row_get row "activation_digest" in
  let! effective_block_hash := row_get row "effective_block_hash" in
  match parts.1 with
  | None => do! publication_kind_of "debt publication binding kind is unsupported" kind ;;
            Raise (DP.error "debt publication binding kind is unsupported")
  | Some economic => DebtWeightPublicationBinding_init kind activation_digest effective_block_hash economic parts.2
  end.

Definition DebtWeightPublicationBinding_digest (b : DebtWeightPublicationBinding) : result string :=
  canonical_digest "optima.debt-weight-publication.binding" (DebtWeightPublicationBinding_to_dict b) (PInt 1).

(** ** Validation of a confirmation *)

Definition validate_projection (c : ConfirmedDebtWeightPublication) (chain_scope_digest publication_kind policy_digest
    projection_digest : string) (effective_block : Z) (effective_block_hash : string) (weights : list DebtHotkeyWeight)
    (weight_projection_digest : option string) : result unit :=
  let e := DP.error "confirmed debt publication differs from the projected epoch" in
  let! expected_weights := _weights weights in
  let! scope := DP._digest (PStr chain_scope_digest) in
  do! raise_if (negb (bool_decide (cp_chain_scope_digest c = scope))) e ;;
  do! raise_if (negb (bool_decide (cp_publication_kind c = publication_kind))) e ;;
  let! policy := DP._digest (PStr policy_digest) in
  do! raise_if (negb (bool_decide (cp_policy_digest c = policy))) e ;;
  let! projection := DP._digest (PStr projection_digest) in
  do! raise_if (negb (bool_decide (cp_projection_digest c = projection))) e ;;
  do! match weight_projection_digest with
      | None => Ok tt
      | Some d => let! d := DP._digest (PStr d) in raise_if (negb (bool_decide (cp_weight_projection_digest c = d))) e
      end ;;
  let! block := DP._integer 0 (PInt effective_block) in
  do! raise_if (negb (cp_effective_block c =? block)) e ;;
  let! hash := DP._block_hash (PStr effective_block_hash) in
  do! raise_if (negb (bool_decide (cp_effective_block_hash c = hash))) e ;;
  raise_if (negb (bool_decide (cp_weights c = expected_weights))) e.

Definition validate_binding (c : ConfirmedDebtWeightPublication) (b : DebtWeightPublicationBinding) : result unit :=
  let w := bd_weight_projection b in
  let! digest := eco_digest (bd_economic_projection b) in
  do! validate_projection c (wj_chain_scope_digest w) (bd_publication_kind b) (eco_policy_digest (bd_economic_projection b))
        digest (eco_effective_block (bd_economic_projection b)) (bd_effective_block_hash b) (eco_weights (bd_economic_projection b))
        (Some (WeightProjection_digest w)) ;;
  raise_if (negb (rb_netuid (cp_readback c) =? wj_netuid w)
            || negb (bool_decide (rb_validator_hotkey (cp_readback c) = wj_validator_hotkey w))
            || negb (bool_decide (wr_projection_digest (cp_publication_record c) = WeightProjection_digest w)))
    (DP.error "confirmed debt publication differs from signer authority").

(** ** Building them from the chain's views *)

(** The two differ only in the order of the tests: the row's hotkeys are the
    projection's, every value is finite and close to it. *)
Definition row_matches (expected row : list (string * float64)) : bool :=
  bool_decide ((list_to_set row.*1 : gset string) = list_to_set expected.*1)
  && forallb (λ r, is_finite r.2 && match assoc expected r.1 with Some w => isclose f_2em5 f_2em5 r.2 w | None => false end) row.

Definition build_confirmed_debt_weight_publication (b : DebtWeightPublicationBinding) (record : WeightPublicationRecord)
    (metagraph : MetagraphView) (snapshot : ValidatorWeightSnapshot) : result ConfirmedDebtWeightPublication :=
  let w := bd_weight_projection b in
  let block_hash := lower (mg_block_hash metagraph) in
  do! raise_if (negb (is_block_hash block_hash) || negb (row_matches (wj_weights w) (vs_weights snapshot)))
        (DP.error "confirmed debt publication sparse row differs from projected weights") ;;
  do! raise_if (negb (bool_decide (wr_status record = "confirmed"))
                || negb (bool_decide (wr_projection_digest record = WeightProjection_digest w))
                || negb (wr_confirmed_block record =? mg_block metagraph)
                || negb (wr_confirmed_last_update record =? vs_last_update_block snapshot))
        (DP.error "confirmed debt publication record differs from finalized readback") ;;
  let! digest := eco_digest (bd_economic_projection b) in
  let! readback := DebtWeightReadback_init (PStr (wj_chain_scope_digest w)) (PInt (wj_netuid w)) (PStr (wj_validator_hotkey w))
                     (PInt (mg_block metagraph)) (PStr block_hash) (PInt (vs_last_update_block snapshot))
                     (eco_weights (bd_economic_projection b)) in
  ConfirmedDebtWeightPublication_init (PStr (wj_chain_scope_digest w)) (PStr (bd_publication_kind b))
    (PStr (eco_policy_digest (bd_economic_projection b))) (PStr digest) (PStr (WeightProjection_digest w))
    (PInt (eco_effective_block (bd_economic_projection b))) (PStr (bd_effective_block_hash b))
    (eco_weights (bd_economic_projection b)) readback record (PInt CONFIRMATION_SCHEMA_VERSION) (PStr CONFIRMATION_VERSION).

(** [block] is an [int] and the lists are tuples of [int] and [str]. *)
Definition build_debt_weight_publication_binding (economic : EconomicProjection) (publication_kind activation_digest
    chain_scope_digest : string) (netuid validator_hotkey : pyval) (boundary : MetagraphView) (epoch_index : pyval)
    : result DebtWeightPublicationBinding :=
  let! crown_count :=
    if bool_decide (publication_kind = PUBLICATION_KIND_CORE) then
      match economic with
      | CoreProjection d => Ok (Z.of_nat (length (dp_input_state_digests d)))
      | ComposedProjection _ => Raise (DP.error "core publication requires a core projection")
      end
    else if bool_decide (publication_kind = PUBLICATION_KIND_COMPOSED) then
      match economic with
      | ComposedProjection d => Ok (Z.of_nat (length (ep_innovation_input_state_digests d)))
      | CoreProjection _ => Raise (DP.error "composed publication requires a composed projection")
      end
    else Raise (DP.error "debt publication binding kind is unsupported") in
  let inputs := eco_input_digests economic in
  let block_hash := lower (mg_block_hash boundary) in
  do! raise_if (negb (mg_block boundary =? eco_effective_block economic) || negb (is_block_hash block_hash)
                || negb (bool_decide (length (mg_hotkeys boundary) = length (mg_uids boundary)))
                || negb (bool_decide (NoDup (mg_hotkeys boundary))) || negb (bool_decide (NoDup (mg_uids boundary))))
        (DP.error "boundary metagraph differs from the economic projection boundary") ;;
  let members := (λ row, py_dict [("hotkey", PStr row.2); ("uid", PInt row.1)])
                   <$> stable_sort uid_le (zip (mg_uids boundary) (mg_hotkeys boundary)) in
  let! scope := DP._digest (PStr chain_scope_digest) in
  let! activation := DP._digest (PStr activation_digest) in
  let! netuid := DP._integer 0 netuid in
  let! digest := eco_digest economic in
  let metagraph_digest := digest_of "optima.economics.metagraph-membership" (py_dict [
    ("block", PInt (mg_block boundary)); ("block_hash", PStr block_hash); ("chain_scope_digest", PStr scope);
    ("members", PList members)]) in
  let! epoch_index := DP._integer 1 epoch_index in
  let! projection := WeightProjection_init (PStr scope) (PInt netuid) validator_hotkey (PStr (eco_policy_digest economic))
    (PStr digest) (PStr (evaluation_digest activation inputs digest)) (PStr metagraph_digest) [activation] (PInt epoch_index)
    (PInt (mg_block boundary)) (PInt crown_count) (sorted_set (list_to_set inputs)) (weight_pairs (eco_weights economic)) in
  DebtWeightPublicationBinding_init (PStr publication_kind) (PStr activation) (PStr block_hash) economic projection.

(** ** The tables *)

(** One row of [debt_weight_publication_confirmations]. *)
Record ConfirmationRow := {
  fr_record_digest : string;
  fr_chain_scope_digest : string;
  fr_publication_kind : string;
  fr_policy_digest : string;
  fr_projection_digest : string;
  fr_weight_projection_digest : string;
  fr_effective_block : Z;
  fr_effective_block_hash : string;
  fr_confirmed_block : Z;
  fr_confirmed_block_hash : string;
  fr_record_json : json_text
}.

(** One row of [debt_weight_publication_journal]. *)
Record DebtJournalRow := {
  gr_sequence : Z;
  gr_record_digest : string;
  gr_prior_record_digest : string;
  gr_binding_digest : string;
  gr_weight_projection_digest : string;
  gr_record_json : json_text;
  gr_binding_json : json_text
}.

Record PublicationTables := { pt_confirmations : list ConfirmationRow; pt_journal : list DebtJournalRow }.

Definition _confirmation_from_row (row : ConfirmationRow) : result ConfirmedDebtWeightPublication :=
  let! c := reopen_text [DebtPublicationError] (DP.error "debt publication row is corrupt")
              ConfirmedDebtWeightPublication_from_dict (fr_record_json row) in
  let! digest := ConfirmedDebtWeightPublication_digest c in
  do! raise_if (negb (bool_decide (digest = fr_record_digest row))
                || negb (bool_decide (cp_chain_scope_digest c = fr_chain_scope_digest row))
                || negb (bool_decide (cp_publication_kind c = fr_publication_kind row))
                || negb (bool_decide (cp_policy_digest c = fr_policy_digest row))
                || negb (bool_decide (cp_projection_digest c = fr_projection_digest row))
                || negb (bool_decide (cp_weight_projection_digest c = fr_weight_projection_digest row))
                || negb (cp_effective_block c =? fr_effective_block row)
                || negb (bool_decide (cp_effective_block_hash c = fr_effective_block_hash row))
                || negb (rb_block (cp_readback c) =? fr_confirmed_block row)
                || negb (bool_decide (rb_block_hash (cp_readback c) = fr_confirmed_block_hash row))
                || negb (text_is (fr_record_json row) (ConfirmedDebtWeightPublication_to_dict c)))
        (DP.error "debt publication confirmation differs from retained bytes") ;;
  Ok c.

(** [WHERE record_digest=?] *)
Definition find_confirmation (t : PublicationTables) (digest : string) : option ConfirmationRow :=
  List.find (λ row, bool_decide (fr_record_digest row = digest)) (pt_confirmations t).

Definition confirmation_row (c : ConfirmedDebtWeightPublication) (digest : string) : ConfirmationRow :=
  {| fr_record_digest := digest; fr_chain_scope_digest := cp_chain_scope_digest c; fr_publication_kind := cp_publication_kind c;
     fr_policy_digest := cp_policy_digest c; fr_projection_digest := cp_projection_digest c;
     fr_weight_projection_digest := cp_weight_projection_digest c; fr_effective_block := cp_effective_block c;
     fr_effective_block_hash := cp_effective_block_hash c; fr_confirmed_block := rb_block (cp_readback c);
     fr_confirmed_block_hash := rb_block_hash (cp_readback c);
     fr_record_json := Dumped (ConfirmedDebtWeightPublication_to_dict c) |}.

(** An integer bound to a statement must fit SQLite's 64 bits. *)
Definition bound_int (z : Z) : result unit := raise_if (negb ((- 2 ^ 63 <=? z) && (z <? 2 ^ 63))) (Exn ForeignError "OverflowError").

Definition retain_confirmed_debt_publication (t : PublicationTables) (c : ConfirmedDebtWeightPublication)
    : result (PublicationTables * ConfirmedDebtWeightPublication) :=
  let! digest := ConfirmedDebtWeightPublication_digest c in
  match find_confirmation t digest with
  | Some row => let! c := _confirmation_from_row row in Ok (t, c)
  | None =>
      let key row := (fr_publication_kind row, fr_policy_digest row, fr_effective_block row) in
      let row := confirmation_row c digest in
      do! bound_int (fr_effective_block row) ;;
      do! bound_int (fr_confirmed_block row) ;;
      do! raise_if (bool_decide (fr_projection_digest row ∈ fr_projection_digest <$> pt_confirmations t)
                    || bool_decide (fr_weight_projection_digest row ∈ fr_weight_projection_digest <$> pt_confirmations t)
                    || bool_decide (key row ∈ key <$> pt_confirmations t))
            (DP.error "debt publication boundary or projection already binds other bytes") ;;
      Ok ({| pt_confirmations := pt_confirmations t ++ [row]; pt_journal := pt_journal t |}, c)
  end.

Definition reopen_confirmed_debt_publication (t : PublicationTables) (record_digest : string) : result ConfirmedDebtWeightPublication :=
  let! digest := DP._digest (PStr record_digest) in
  match find_confirmation t digest with
  | None => Raise (DP.error "confirmed debt publication record is not retained")
  | Some row => _confirmation_from_row row
  end.

(** ** The journal of the V2 publisher *)

Definition _binding_from_row (row : DebtJournalRow) : result DebtWeightPublicationBinding :=
  let! b := reopen_text [DebtPublicationError] (DP.error "debt publication journal binding is corrupt")
              DebtWeightPublicationBinding_from_dict (gr_binding_json row) in
  let! digest := DebtWeightPublicationBinding_digest b in
  do! raise_if (negb (bool_decide (digest = gr_binding_digest row))
                || negb (bool_decide (WeightProjection_digest (bd_weight_projection b) = gr_weight_projection_digest row))
                || negb (text_is (gr_binding_json row) (DebtWeightPublicationBinding_to_dict b)))
        (DP.error "debt publication journal binding differs from retained bytes") ;;
  Ok b.

Definition encoded_prior (prior : option string) : string := match prior with None => "" | Some d => d end.

(** The records from [sequence] on, after a record with digest [previous]. *)
Fixpoint records_from (rows : list DebtJournalRow) (sequence : Z) (previous : option string)
    : result (list (WeightPublicationRecord * DebtWeightPublicationBinding)) :=
  match rows with
  | [] => Ok []
  | row :: rows =>
      let! record := reopen_text [WeightPublicationError] (DP.error "debt publication journal record is corrupt")
                       WeightPublicationRecord_from_dict (gr_record_json row) in
      let! binding := _binding_from_row row in
      let digest := WeightPublicationRecord_digest record in
      do! raise_if (negb (gr_sequence row =? sequence)
                    || negb (bool_decide (digest = gr_record_digest row))
                    || negb (bool_decide (gr_prior_record_digest row = encoded_prior previous))
                    || negb (bool_decide (wr_prior_record_digest record = previous))
                    || negb (bool_decide (wr_projection_digest record = WeightProjection_digest (bd_weight_projection binding)))
                    || negb (text_is (gr_record_json row) (WeightPublicationRecord_to_dict record)))
            (DP.error "debt publication journal chain differs from retained bytes") ;;
      let! rest := records_from rows (sequence + 1) (Some digest) in
      Ok ((record, binding) :: rest)
  end.

Definition _records (t : PublicationTables) : result (list (WeightPublicationRecord * DebtWeightPublicationBinding)) :=
  records_from (order_by gr_sequence (pt_journal t)) 1 None.

Definition journal_load (t : PublicationTables) : result (option WeightPublicationRecord) :=
  let! records := _records t in Ok (fst <$> last records).

Definition head_binding (t : PublicationTables) : result (option DebtWeightPublicationBinding) :=
  let! records := _records t in Ok (snd <$> last records).

Definition retained_authorities (t : PublicationTables) : result (list (WeightPublicationRecord * DebtWeightPublicationBinding)) :=
  _records t.

(** [reopen_from_head] returns the binding of the journal it opens. *)
Definition reopen_debt_journal (t : PublicationTables) : result DebtWeightPublicationBinding :=
  match last (order_by gr_sequence (pt_journal t)) with
  | None => Raise (DP.error "debt publication journal has no retained head")
  | Some row => let! binding := _binding_from_row row in do! journal_load t ;; Ok binding
  end.

Definition debt_journal_row (sequence : Z) (replacement : WeightPublicationRecord) (b : DebtWeightPublicationBinding) (digest : string)
    : DebtJournalRow :=
  {| gr_sequence := sequence; gr_record_digest := WeightPublicationRecord_digest replacement;
     gr_prior_record_digest := encoded_prior (wr_prior_record_digest replacement); gr_binding_digest := digest;
     gr_weight_projection_digest := WeightProjection_digest (bd_weight_projection b);
     gr_record_json := Dumped (WeightPublicationRecord_to_dict replacement);
     gr_binding_json := Dumped (DebtWeightPublicationBinding_to_dict b) |}.

(** The binding of a replacement: the retained one, or the journal's own when the
    owner's state still yields it. *)
Definition binding_for (own : DebtWeightPublicationBinding) (validate : option (DebtWeightPublicationBinding → result unit))
    (records : list (WeightPublicationRecord * DebtWeightPublicationBinding)) (replacement : WeightPublicationRecord)
    : result DebtWeightPublicationBinding :=
  let retained := (snd <$> filter (λ r, wr_projection_digest r.1 = wr_projection_digest replacement) records) in
  match last retained with
  | Some b =>
      do! raise_if (existsb (λ r, negb (py_eq (DebtWeightPublicationBinding_to_dict r) (DebtWeightPublicationBinding_to_dict b))) retained)
            (DP.error "one weight projection has conflicting retained bindings") ;;
      Ok b
  | None =>
      if bool_decide (wr_projection_digest replacement = WeightProjection_digest (bd_weight_projection own)) then
        match validate with
        | None => Raise (DP.error "new debt publication binding lacks authoritative state validation")
        | Some f => do! f own ;; Ok own
        end
      else Raise (DP.error "publication record has no retained debt projection binding")
  end.

Definition debt_compare_and_swap (t : PublicationTables) (own : DebtWeightPublicationBinding)
    (validate : option (DebtWeightPublicationBinding → result unit)) (expected : option string) (replacement : WeightPublicationRecord)
    : result PublicationTables :=
  let! records := _records t in
  do! raise_if (negb (bool_decide (WeightPublicationRecord_digest <$> (fst <$> last records) = expected)))
        (DP.error "debt publication journal compare-and-swap failed") ;;
  do! raise_if (negb (bool_decide (wr_prior_record_digest replacement = expected)))
        (DP.error "debt publication replacement does not bind the CAS head") ;;
  let! binding := binding_for own validate records replacement in
  let! digest := DebtWeightPublicationBinding_digest binding in
  let row := debt_journal_row (Z.of_nat (length records) + 1) replacement binding digest in
  do! raise_if (bool_decide (gr_record_digest row ∈ gr_record_digest <$> pt_journal t)
                || bool_decide (gr_sequence row ∈ gr_sequence <$> pt_journal t)) (Exn ForeignError "IntegrityError") ;;
  Ok {| pt_confirmations := pt_confirmations t; pt_journal := pt_journal t ++ [row] |}.

Definition debt_retained_projection (t : PublicationTables) (projection_digest : string) : result WeightProjection :=
  let! digest := DP._digest (PStr projection_digest) in
  let! records := _records t in
  match List.find (λ r, bool_decide (wr_projection_digest r.1 = digest)) (reverse records) with
  | Some r => Ok (bd_weight_projection r.2)
  | None => Raise (DP.error "debt weight projection is not retained")
  end.

Definition debt_retained_authority (t : PublicationTables) (record_digest : string)
    : result (WeightPublicationRecord * DebtWeightPublicationBinding) :=
  let! digest := DP._digest (PStr record_digest) in
  let! records := _records t in
  match List.find (λ r, bool_decide (WeightPublicationRecord_digest r.1 = digest)) records with
  | Some r => Ok r
  | None => Raise (DP.error "debt publication record is not retained")
  end.
End publications.

(** ** Boundary schedules *)

Record DebtBoundarySchedule := {
  bs_policy_digest : string;
  bs_activation_block : Z;
  bs_epoch_blocks : Z;
  bs_finalized_block : Z;
  bs_next_epoch_index : Z;
  bs_next_effective_block : Z;
  bs_not_before_block : Z;
  bs_status : string
}.

Definition schedule_status (finalized effective not_before : Z) : string :=
  if finalized <? not_before then "not_due"
  else if (finalized =? effective) && (not_before =? effective) then "ready" else "catch_up_required".

Definition DebtBoundarySchedule_init (policy_digest activation_block epoch_blocks finalized_block next_epoch_index
    next_effective_block not_before_block status : pyval) : result DebtBoundarySchedule :=
  let! policy_digest := DP._digest policy_digest in
  let! activation := DP._integer 0 activation_block in
  let! cadence := DP._integer 1 epoch_blocks in
  let! finalized := DP._integer 0 finalized_block in
  let! index := DP._integer 1 next_epoch_index in
  let! effective := DP._integer 0 next_effective_block in
  let! not_before := DP._integer 0 not_before_block in
  do! raise_if (negb (effective =? activation + index * cadence)) (DP.error "debt boundary schedule cadence differs") ;;
  do! raise_if (not_before <? effective) (DP.error "debt boundary schedule rate limit differs") ;;
  do! raise_if (negb (py_eq_str status (schedule_status finalized effective not_before)))
        (DP.error "debt boundary schedule status differs") ;;
  Ok {| bs_policy_digest := policy_digest; bs_activation_block := activation; bs_epoch_blocks := cadence;
        bs_finalized_block := finalized; bs_next_epoch_index := index; bs_next_effective_block := effective;
        bs_not_before_block := not_before; bs_status := schedule_status finalized effective not_before |}.

Definition next_debt_boundary_schedule (policy_digest activation_block epoch_blocks : pyval) (closed : list pyval)
    (finalized_block : pyval) (previous_confirmed_block : pyval) : result DebtBoundarySchedule :=
  let! activation := DP._integer 0 activation_block in
  let! cadence := DP._integer 1 epoch_blocks in
  let! closed := mapM (nonneg_int (DP.error "closed debt boundaries are malformed")) closed in
  do! raise_if (negb (bool_decide (closed = (λ i, activation + Z.of_nat i * cadence) <$> seq 1 (length closed))))
        (DP.error "closed debt boundaries are not an exact gapless prefix") ;;
  let index := Z.of_nat (length closed) + 1 in
  let effective := activation + index * cadence in
  let! finalized := DP._integer 0 finalized_block in
  let! prior :=
    if is_none previous_confirmed_block then
      do! raise_if (negb (is_nil closed)) (DP.error "closed debt boundaries require prior confirmation authority") ;; Ok None
    else
      let! prior := DP._integer 0 previous_confirmed_block in
      do! raise_if (is_nil closed) (DP.error "prior confirmation authority has no closed debt boundary") ;; Ok (Some prior) in
  let not_before := Z.max effective (match prior with None => effective | Some p => p + cadence end) in
  let! policy_digest := DP._digest policy_digest in
  DebtBoundarySchedule_init (PStr policy_digest) (PInt activation) (PInt cadence) (PInt finalized) (PInt index) (PInt effective)
    (PInt not_before) (PStr (schedule_status finalized effective not_before)).
