(* ===== verification/DebtStoreData.v ===== *)
(** * The durable finite-debt ledger: records and tables

    The records of [chain/finite_debt_store.py] and its seven append-only tables.
    Rows keep their insertion order; the [UNIQUE] columns are checked by the
    inserts below, the [CHECK] constraints repeat what the records check
    themselves, and every reference is to a row that the same operation wrote or
    read.  A policy's digest raises on a schema version that is the float [2.0], so
    the digests that cover one are fallible. *)

From Stdlib Require Import ZArith Lia Ascii.
From stdpp Require Import base tactics numbers list strings gmap sorting.
From S2P Require Import Prelude PyValue Sha256 Identity Strict Provider FiniteDebt Composition Stack Release StackPlan Settlement.
From S2P Require Import SettlementPlan Publication Journal IntakeData Intake DebtPublication.

Module FS.
Definition error (msg : string) : pyexn := Exn FiniteDebtStoreError msg.

Definition _digest (optional : bool) (v : pyval) : result string := require_digest FiniteDebtStoreError false optional v.
Definition _integer (minimum : Z) (v : pyval) : result Z := require_int FiniteDebtStoreError (Some minimum) None v.

Definition _block_hash (v : pyval) : result string :=
  match v with
  | PStr s => if is_block_hash s then Ok s else Raise (error "is malformed")
  | _ => Raise (error "is malformed")
  end.

Definition _hotkey (v : pyval) : result string :=
  match v with
  | PStr s => if hotkey_matches s then Ok s else Raise (error "is malformed")
  | _ => Raise (error "is malformed")
  end.

Definition _strict (fields : list string) (v : pyval) : result (list (string * pyval)) :=
  require_exact_fields FiniteDebtStoreError fields true v.
End FS.

#[global] Arguments FS._digest : simpl never.
#[global] Arguments FS._integer : simpl never.
#[global] Arguments FS._block_hash : simpl never.
#[global] Arguments FS._hotkey : simpl never.

Definition _CLOCK_SOURCES : list string := ["seed"; "crown"; "crown_no_debt"; "invalidation"].

Definition _EVENT_TYPES : list string := [
  "policy_activated"; "claim_issued"; "claim_expired"; "claim_cancelled"; "claim_not_issued"; "family_invalidated"; "epoch_paid";
  "composition_policy_activated"; "discovery_win_retained"; "discovery_review_expired"; "discovery_disposition_recorded";
  "discovery_claim_issued"; "discovery_claim_expired"; "discovery_claim_cancelled"; "composed_epoch_paid"].

(** [2 ** 63 - 1], the indices of an invalidation's marker. *)
Definition MARKER_INDEX : Z := 9223372036854775807.

(** A finalized order: block, event index, event subindex, reservation. *)
Definition finalized_key : Type := Z * Z * Z * string.

(** ** Seeded clocks *)

Record SeededFamilyClock := {
  sf_family_id : string;
  sf_accepted_crown_block : Z;
  sf_accepted_crown_block_hash : string;
  sf_event_index : Z;
  sf_event_subindex : Z;
  sf_reservation_digest : string
}.

#[global] Instance SeededFamilyClock_eq_dec : EqDecision SeededFamilyClock.
Proof. solve_decision. Defined.

Definition SeededFamilyClock_init (family_id accepted_crown_block accepted_crown_block_hash event_index event_subindex
    reservation_digest : pyval) : result SeededFamilyClock :=
  let! family_id := FS._digest false family_id in
  let! block := FS._integer 0 accepted_crown_block in
  let! hash := FS._block_hash accepted_crown_block_hash in
  let! index := FS._integer 0 event_index in
  let! subindex := FS._integer 0 event_subindex in
  let! reservation := FS._digest false reservation_digest in
  Ok {| sf_family_id := family_id; sf_accepted_crown_block := block; sf_accepted_crown_block_hash := hash;
        sf_event_index := index; sf_event_subindex := subindex; sf_reservation_digest := reservation |}.

Definition SeededFamilyClock_rows (s : SeededFamilyClock) : list (string * pyval) := [
  ("family_id", PStr (sf_family_id s));
  ("accepted_crown_block", PInt (sf_accepted_crown_block s));
  ("accepted_crown_block_hash", PStr (sf_accepted_crown_block_hash s));
  ("event_index", PInt (sf_event_index s));
  ("event_subindex", PInt (sf_event_subindex s));
  ("reservation_digest", PStr (sf_reservation_digest s))].

Definition SeededFamilyClock_to_dict (s : SeededFamilyClock) : pyval := py_dict (SeededFamilyClock_rows s).

Definition SeededFamilyClock_from_dict (v : pyval) : result SeededFamilyClock :=
  let! row := FS._strict ["family_id"; "accepted_crown_block"; "accepted_crown_block_hash"; "event_index"; "event_subindex";
                "reservation_digest"] v in
  let! family_id := row_get row "family_id" in
  let! accepted_crown_block := row_get row "accepted_crown_block" in
  let! accepted_crown_block_hash := row_get row "accepted_crown_block_hash" in
  let! event_index := row_get row "event_index" in
  let! event_subindex := row_get row "event_subindex" in
  let! reservation_digest := row_get row "reservation_digest" in
  SeededFamilyClock_init family_id accepted_crown_block accepted_crown_block_hash event_index event_subindex reservation_digest.

(** ** Policy activations *)

Record FiniteDebtPolicyActivation := {
  pa_chain_scope_digest : string;
  pa_policy : FiniteDebtPolicyManifest;
  pa_activation_block : Z;
  pa_activation_block_hash : string;
  pa_previous_policy_digest : string;
  pa_seeded_family_clocks : list SeededFamilyClock
}.

Definition FiniteDebtPolicyActivation_init (chain_scope_digest : pyval) (policy : FiniteDebtPolicyManifest)
    (activation_block activation_block_hash previous_policy_digest : pyval) (seeds : list SeededFamilyClock)
    : result FiniteDebtPolicyActivation :=
  let! scope := FS._digest false chain_scope_digest in
  let! block := FS._integer 0 activation_block in
  let! hash := FS._block_hash activation_block_hash in
  let! previous := FS._digest true previous_policy_digest in
  do! raise_if (negb (sorted_unique (sf_family_id <$> seeds))
                || existsb (λ s, block <? sf_accepted_crown_block s) seeds
                || existsb (λ s, negb (bool_decide (sf_family_id s ∈ family_ids policy))) seeds)
        (FS.error "activation family-clock seeds are not canonical") ;;
  Ok {| pa_chain_scope_digest := scope; pa_policy := policy; pa_activation_block := block; pa_activation_block_hash := hash;
        pa_previous_policy_digest := previous; pa_seeded_family_clocks := seeds |}.

Definition FiniteDebtPolicyActivation_to_dict (a : FiniteDebtPolicyActivation) : pyval :=
  py_dict [
    ("activation_block", PInt (pa_activation_block a));
    ("activation_block_hash", PStr (pa_activation_block_hash a));
    ("chain_scope_digest", PStr (pa_chain_scope_digest a));
    ("policy", FiniteDebtPolicyManifest_to_dict (pa_policy a));
    ("previous_policy_digest", PStr (pa_previous_policy_digest a));
    ("seeded_family_clocks", PList (SeededFamilyClock_to_dict <$> pa_seeded_family_clocks a))].

Definition FiniteDebtPolicyActivation_from_dict (v : pyval) : result FiniteDebtPolicyActivation :=
  let! row := FS._strict ["activation_block"; "activation_block_hash"; "chain_scope_digest"; "policy"; "previous_policy_digest";
                "seeded_family_clocks"] v in
  let! seeds := row_get row "seeded_family_clocks" in
  let! seeds := require_list (FS.error "seeded_family_clocks must be an array") seeds in
  let! policy := row_get row "policy" in
  let! policy := FiniteDebtPolicyManifest_from_dict policy in
  let! seeds := mapM SeededFamilyClock_from_dict seeds in
  let! activation_block := row_get row "activation_block" in
  let! activation_block_hash := row_get row "activation_block_hash" in
  let! chain_scope_digest := row_get row "chain_scope_digest" in
  let! previous_policy_digest := row_get row "previous_policy_digest" in
  FiniteDebtPolicyActivation_init chain_scope_digest policy activation_block activation_block_hash previous_policy_digest seeds.

(** ** Family clocks *)

(** Also one row of [finite_debt_family_clocks]. *)
Record FiniteDebtFamilyClock := {
  fc_policy_digest : string;
  fc_family_id : string;
  fc_accepted_crown_block : Z;
  fc_accepted_crown_block_hash : string;
  fc_event_index : Z;
  fc_event_subindex : Z;
  fc_reservation_digest : string;
  fc_source : string;
  fc_claim_digest : string;
  fc_reward_event_digest : string
}.

#[global] Instance FiniteDebtFamilyClock_eq_dec : EqDecision FiniteDebtFamilyClock.
Proof. solve_decision. Defined.

(** [__post_init__] on columns that have their types. *)
Definition FiniteDebtFamilyClock_check (c : FiniteDebtFamilyClock) : result FiniteDebtFamilyClock :=
  do! FS._digest false (PStr (fc_policy_digest c)) ;;
  do! FS._digest false (PStr (fc_family_id c)) ;;
  do! FS._digest false (PStr (fc_reservation_digest c)) ;;
  do! FS._integer 0 (PInt (fc_accepted_crown_block c)) ;;
  do! FS._block_hash (PStr (fc_accepted_crown_block_hash c)) ;;
  do! FS._integer 0 (PInt (fc_event_index c)) ;;
  do! FS._integer 0 (PInt (fc_event_subindex c)) ;;
  do! raise_if (negb (bool_decide (fc_source c ∈ _CLOCK_SOURCES))) (FS.error "family clock source is unsupported") ;;
  do! FS._digest (bool_decide (fc_source c ∈ ["seed"; "crown_no_debt"; "invalidation"])) (PStr (fc_claim_digest c)) ;;
  do! FS._digest false (PStr (fc_reward_event_digest c)) ;;
  do! raise_if (bool_decide (fc_source c = "crown") && bool_decide (fc_claim_digest c = ""))
        (FS.error "crown family clock lacks a claim") ;;
  do! raise_if (bool_decide (fc_source c = "seed") && negb (bool_decide (fc_claim_digest c = "")))
        (FS.error "seeded family clock cannot name a claim") ;;
  do! raise_if (bool_decide (fc_source c = "invalidation") && negb (bool_decide (fc_claim_digest c = "")))
        (FS.error "invalidated family clock cannot name a claim") ;;
  do! raise_if (bool_decide (fc_source c = "crown_no_debt") && negb (bool_decide (fc_claim_digest c = "")))
        (FS.error "no-debt crown clock cannot name a claim") ;;
  Ok c.

Definition fc_finalized_order (c : FiniteDebtFamilyClock) : finalized_key :=
  (fc_accepted_crown_block c, fc_event_index c, fc_event_subindex c, fc_reservation_digest c).

(** ** Reward epochs *)

Record FiniteDebtRewardEpoch := {
  ro_chain_scope_digest : string;
  ro_activation_digest : string;
  ro_policy_digest : string;
  ro_epoch_index : Z;
  ro_start_block : Z;
  ro_effective_block : Z;
  ro_effective_block_hash : string;
  ro_projection : DebtEpochProjection;
  ro_publication_record_digest : string;
  ro_payout_event_digest : string
}.

Definition FiniteDebtRewardEpoch_init (chain_scope_digest activation_digest policy_digest epoch_index start_block effective_block
    effective_block_hash : pyval) (projection : DebtEpochProjection) (publication_record_digest payout_event_digest : pyval)
    : result FiniteDebtRewardEpoch :=
  let! scope := FS._digest false chain_scope_digest in
  let! activation := FS._digest false activation_digest in
  let! policy := FS._digest false policy_digest in
  let! publication := FS._digest false publication_record_digest in
  let! payout := FS._digest false payout_event_digest in
  let! index := FS._integer 1 epoch_index in
  let! start := FS._integer 0 start_block in
  let! effective := FS._integer 1 effective_block in
  let! hash := FS._block_hash effective_block_hash in
  do! raise_if (negb (bool_decide (dp_policy_digest projection = policy)) || negb (dp_effective_block projection =? effective)
                || (effective <=? start)) (FS.error "reward epoch projection is inconsistent") ;;
  Ok {| ro_chain_scope_digest := scope; ro_activation_digest := activation; ro_policy_digest := policy; ro_epoch_index := index;
        ro_start_block := start; ro_effective_block := effective; ro_effective_block_hash := hash; ro_projection := projection;
        ro_publication_record_digest := publication; ro_payout_event_digest := payout |}.

Definition FiniteDebtRewardEpoch_to_dict (e : FiniteDebtRewardEpoch) : pyval :=
  py_dict [
    ("activation_digest", PStr (ro_activation_digest e));
    ("chain_scope_digest", PStr (ro_chain_scope_digest e));
    ("effective_block", PInt (ro_effective_block e));
    ("effective_block_hash", PStr (ro_effective_block_hash e));
    ("epoch_index", PInt (ro_epoch_index e));
    ("payout_event_digest", PStr (ro_payout_event_digest e));
    ("policy_digest", PStr (ro_policy_digest e));
    ("projection", DebtEpochProjection_to_dict (ro_projection e));
    ("publication_record_digest", PStr (ro_publication_record_digest e));
    ("start_block", PInt (ro_start_block e))].

Definition FiniteDebtRewardEpoch_from_dict (v : pyval) : result FiniteDebtRewardEpoch :=
  let! row := FS._strict ["chain_scope_digest"; "activation_digest"; "policy_digest"; "epoch_index"; "start_block"; "effective_block";
                "effective_block_hash"; "projection"; "publication_record_digest"; "payout_event_digest"] v in
  let! projection := row_get row "projection" in
  let! projection := DebtEpochProjection_from_dict projection in
  let! chain_scope_digest := row_get row "chain_scope_digest" in
  let! activation_digest := row_get row "activation_digest" in
  let! policy_digest := row_get row "policy_digest" in
  let! epoch_index := row_get row "epoch_index" in
  let! start_block := row_get row "start_block" in
  let! effective_block := row_get row "effective_block" in
  let! effective_block_hash := row_get row "effective_block_hash" in
  let! publication_record_digest := row_get row "publication_record_digest" in
  let! payout_event_digest := row_get row "payout_event_digest" in
  FiniteDebtRewardEpoch_init chain_scope_digest activation_digest policy_digest epoch_index start_block effective_block
    effective_block_hash projection publication_record_digest payout_event_digest.

(** ** Tables *)

(** [finite_debt_reward_events] *)
Record RewardEventRow := {
  er_sequence : Z;
  er_event_digest : string;
  er_previous_event_digest : string;
  er_chain_scope_digest : string;
  er_event_type : string;
  er_block : Z;
  er_block_hash : string;
  er_payload_json : json_text
}.

(** [finite_debt_policy_activations] *)
Record ActivationRow := {
  ar_activation_digest : string;
  ar_chain_scope_digest : string;
  ar_policy_digest : string;
  ar_policy_json : json_text;
  ar_activation_block : Z;
  ar_activation_block_hash : string;
  ar_previous_policy_digest : string;
  ar_seeded_clocks_json : json_text;
  ar_activation_json : json_text;
  ar_reward_event_digest : string
}.

(** [finite_debt_claims] *)
Record ClaimRow := {
  cr_claim_digest : string;
  cr_policy_digest : string;
  cr_family_id : string;
  cr_candidate_digest : string;
  cr_retained_evidence_digest : string;
  cr_hotkey : string;
  cr_accepted_crown_block : Z;
  cr_accepted_crown_block_hash : string;
  cr_event_index : Z;
  cr_event_subindex : Z;
  cr_reservation_digest : string;
  cr_settlement_block : Z;
  cr_settlement_block_hash : string;
  cr_settlement_event_digest : string;
  cr_principal_units : Z;
  cr_claim_json : json_text;
  cr_issuance_reward_event_digest : string
}.

(** [finite_debt_claim_balances] *)
Record BalanceRow := {
  br_claim_digest : string;
  br_revision : Z;
  br_balance_digest : string;
  br_principal_units : Z;
  br_paid_units : Z;
  br_forfeited_units : Z;
  br_remaining_units : Z;
  br_status : string;
  br_terminal_block : option Z;
  br_terminal_reason : string;
  br_balance_json : json_text;
  br_reward_event_digest : string
}.

(** [finite_debt_reward_epochs] *)
Record EpochRow := {
  eo_epoch_digest : string;
  eo_chain_scope_digest : string;
  eo_activation_digest : string;
  eo_policy_digest : string;
  eo_epoch_index : Z;
  eo_start_block : Z;
  eo_effective_block : Z;
  eo_effective_block_hash : string;
  eo_projection_digest : string;
  eo_projection_json : json_text;
  eo_publication_record_digest : string;
  eo_payout_event_digest : string;
  eo_payout_units : Z;
  eo_reserve_units : Z;
  eo_epoch_json : json_text
}.

(** [finite_debt_epoch_allocations] *)
Record AllocationRow := { al_epoch_digest : string; al_claim_digest : string; al_hotkey : string; al_units : Z }.

Record DebtTables := {
  dt_events : list RewardEventRow;
  dt_activations : list ActivationRow;
  dt_clocks : list FiniteDebtFamilyClock;
  dt_claims : list ClaimRow;
  dt_balances : list BalanceRow;
  dt_epochs : list EpochRow;
  dt_allocations : list AllocationRow
}.

Definition empty_debt : DebtTables :=
  {| dt_events := []; dt_activations := []; dt_clocks := []; dt_claims := []; dt_balances := []; dt_epochs := []; dt_allocations := [] |}.

Definition add_event (row : RewardEventRow) (t : DebtTables) : DebtTables :=
  {| dt_events := dt_events t ++ [row]; dt_activations := dt_activations t; dt_clocks := dt_clocks t; dt_claims := dt_claims t;
     dt_balances := dt_balances t; dt_epochs := dt_epochs t; dt_allocations := dt_allocations t |}.

Definition add_activation (row : ActivationRow) (t : DebtTables) : DebtTables :=
  {| dt_events := dt_events t; dt_activations := dt_activations t ++ [row]; dt_clocks := dt_clocks t; dt_claims := dt_claims t;
     dt_balances := dt_balances t; dt_epochs := dt_epochs t; dt_allocations := dt_allocations t |}.

Definition add_clock (row : FiniteDebtFamilyClock) (t : DebtTables) : DebtTables :=
  {| dt_events := dt_events t; dt_activations := dt_activations t; dt_clocks := dt_clocks t ++ [row]; dt_claims := dt_claims t;
     dt_balances := dt_balances t; dt_epochs := dt_epochs t; dt_allocations := dt_allocations t |}.

Definition add_claim (row : ClaimRow) (t : DebtTables) : DebtTables :=
  {| dt_events := dt_events t; dt_activations := dt_activations t; dt_clocks := dt_clocks t; dt_claims := dt_claims t ++ [row];
     dt_balances := dt_balances t; dt_epochs := dt_epochs t; dt_allocations := dt_allocations t |}.

Definition add_balance (row : BalanceRow) (t : DebtTables) : DebtTables :=
  {| dt_events := dt_events t; dt_activations := dt_activations t; dt_clocks := dt_clocks t; dt_claims := dt_claims t;
     dt_balances := dt_balances t ++ [row]; dt_epochs := dt_epochs t; dt_allocations := dt_allocations t |}.

Definition add_epoch (row : EpochRow) (t : DebtTables) : DebtTables :=
  {| dt_events := dt_events t; dt_activations := dt_activations t; dt_clocks := dt_clocks t; dt_claims := dt_claims t;
     dt_balances := dt_balances t; dt_epochs := dt_epochs t ++ [row]; dt_allocations := dt_allocations t |}.

Definition add_allocation (row : AllocationRow) (t : DebtTables) : DebtTables :=
  {| dt_events := dt_events t; dt_activations := dt_activations t; dt_clocks := dt_clocks t; dt_claims := dt_claims t;
     dt_balances := dt_balances t; dt_epochs := dt_epochs t; dt_allocations := dt_allocations t ++ [row] |}.

(** One row of [settlement_events]. *)
Record SettlementEventRow := {
  sw_sequence : Z;
  sw_event_id : string;
  sw_event_type : string;
  sw_reservation_id : string;
  sw_arena_id : string;
  sw_target_id : string;
  sw_event_digest : string;
  sw_event_json : json_text
}.

(** What the ledger reads of the rest of the database: the intake tables with the
    finalized cursor, the settlement journal, and the [activation_block] column of
    [incentive_composition_activations]. *)
Record LedgerEnv := {
  le_intake : Database;
  le_settlement_events : list SettlementEventRow;
  le_compositions : list Z
}.
