(* ===== verification/DebtStore.v ===== *)
(** * The durable finite-debt ledger: the store

    [FiniteDebtStore] of [chain/finite_debt_store.py] and [reward_family_id].  The
    readers audit what they read: every row is checked against its own JSON, the
    event that authorised it and the settlement it comes from.  An operation that
    writes returns the new tables; it runs in a transaction, so one that raises
    leaves the tables as they were.  The section variables are the chain scope of
    the store and what it reads of the rest of the database. *)

From Stdlib Require Import ZArith Lia Ascii.
From stdpp Require Import base tactics numbers list strings gmap sorting.
From S2P Require Import Prelude PyValue Sha256 Identity Strict Provider FiniteDebt Composition Stack Release StackPlan Settlement.
From S2P Require Import SettlementPlan Publication Journal IntakeData Intake DebtPublication DebtStoreData.

(** [a <= b] on finalized orders. *)
Definition order_leb (a b : finalized_key) : bool := bool_decide (order_le a b).

(** One event as [reward_events] returns it. *)
Record RewardEvent := {
  re_block : Z;
  re_block_hash : string;
  re_event_digest : string;
  re_event_type : string;
  re_payload : pyval;
  re_previous_event_digest : string;
  re_sequence : Z
}.

(** [payload.get(key)] of a payload that is a dict. *)
Definition payload_get (payload : pyval) (key : string) : pyval :=
  match payload with PDict kvs => mapping_get kvs key | _ => PNone end.

(** [type(payload) is dict] *)
Definition is_dict (v : pyval) : bool := match v with PDict _ => true | _ => false end.

(** [type(payload) is dict and set(payload) == fields] *)
Definition has_fields (fields : list string) (v : pyval) : bool :=
  match v with
  | PDict kvs =>
      match all_str_keys kvs with
      | Some row => bool_decide ((list_to_set row.*1 : gset string) = list_to_set fields)
      | None => false
      end
  | _ => false
  end.

(** Rows by an integer and then a text column. *)
Definition num_text_le {A} (num : A → Z) (text : A → string) (a b : A) : Prop :=
  num a < num b ∨ (num a = num b ∧ String.le (text a) (text b)).

#[global] Instance num_text_le_dec {A} (num : A → Z) (text : A → string) a b : Decision (num_text_le num text a b).
Proof. unfold num_text_le. apply _. Defined.

(** [ORDER BY policy_digest,family_id,accepted_crown_block,event_index,
    event_subindex,reservation_digest] *)
Definition clock_le (a b : FiniteDebtFamilyClock) : Prop :=
  let pa := (fc_policy_digest a, fc_family_id a) in
  let pb := (fc_policy_digest b, fc_family_id b) in
  (pa ≠ pb ∧ lex_le pa pb) ∨ (pa = pb ∧ order_le (fc_finalized_order a) (fc_finalized_order b)).

#[global] Instance clock_le_dec a b : Decision (clock_le a b).
Proof. unfold clock_le. apply _. Defined.

Definition clock_key (c : FiniteDebtFamilyClock) : string * string * finalized_key :=
  (fc_policy_digest c, fc_family_id c, fc_finalized_order c).

(** [MAX(...)] *)
Definition column_max (l : list Z) : option Z :=
  match l with [] => None | z :: l => Some (foldl Z.max z l) end.

Section store.
Context {sha : Sha256} (scope_digest : string) (env : LedgerEnv).

Definition FiniteDebtPolicyActivation_digest (a : FiniteDebtPolicyActivation) : result string :=
  canonical_digest "optima.chain.finite-debt-policy-activation" (FiniteDebtPolicyActivation_to_dict a) (PInt 1).

Definition FiniteDebtRewardEpoch_digest (e : FiniteDebtRewardEpoch) : result string :=
  canonical_digest "optima.chain.finite-debt-reward-epoch" (FiniteDebtRewardEpoch_to_dict e) (PInt 1).

Definition reward_family_id (arena_digest target_id target_spec_digest : string) : result string :=
  let! arena := FS._digest false (PStr arena_digest) in
  let! target_spec := FS._digest false (PStr target_spec_digest) in
  do! raise_if (negb (SE.id_matches target_id)) (FS.error "target_id is malformed") ;;
  Ok (digest_of "optima.economics.standing-family" (py_dict [
    ("arena_digest", PStr arena); ("target_id", PStr target_id); ("target_spec_digest", PStr target_spec)])).

Definition _finalized_cursor : result (option (Z * string)) := read_cursor (db_cursor (le_intake env)).

Definition _require_finalized_authority (block : Z) (block_hash : string) : result unit :=
  let! height := FS._integer 0 (PInt block) in
  let! digest := FS._block_hash (PStr block_hash) in
  let! cursor := _finalized_cursor in
  raise_if (negb (bool_decide (cursor = Some (height, digest))))
    (FS.error "finite-debt action lacks the exact finalized block/hash authority").

(** The table of composition activations exists from schema 5 on; an empty list
    answers for a missing one too. *)
Definition composition_active_at (block : pyval) : result bool :=
  let! height := FS._integer 0 block in
  Ok (existsb (λ b, b <=? height) (le_compositions env)).

Definition composition_activation_block_at (block : pyval) : result (option Z) :=
  let! height := FS._integer 0 block in
  Ok (column_max (List.filter (λ b, b <=? height) (le_compositions env))).

Definition composition_activated : bool := negb (is_nil (le_compositions env)).

(** ** The hash chain of events *)

(** The payload of every event of this store is canonical, one read from a row may
    not be: the digest then raises. *)
Definition _event_digest (sequence : Z) (previous event_type : string) (block : Z) (block_hash : string) (payload : pyval)
    : result string :=
  canonical_digest "optima.chain.finite-debt-reward-event" (py_dict [
    ("block", PInt block);
    ("block_hash", PStr block_hash);
    ("chain_scope_digest", PStr scope_digest);
    ("event_type", PStr event_type);
    ("payload", payload);
    ("previous_event_digest", PStr previous);
    ("sequence", PInt sequence)]) (PInt 1).

Definition is_event_type (s : string) : bool := bool_decide (s ∈ _EVENT_TYPES).
#[global] Arguments is_event_type : simpl never.

(** One turn of [reward_events]. *)
Definition check_event (sequence : Z) (previous : string) (row : RewardEventRow) : result RewardEvent :=
  do! raise_if (negb (er_sequence row =? sequence)
                || negb (bool_decide (er_previous_event_digest row = previous))
                || negb (bool_decide (er_chain_scope_digest row = scope_digest))
                || negb (is_event_type (er_event_type row)))
        (FS.error "finite-debt reward-event chain is not contiguous") ;;
  let! payload := match loads (er_payload_json row) with
                  | None => Raise (FS.error "finite-debt reward event is corrupt")
                  | Some v => Ok v
                  end in
  do! raise_if (negb (is_dict payload) || negb (is_dumped (er_payload_json row)))
        (FS.error "finite-debt reward event payload is not canonical") ;;
  let! block_hash := FS._block_hash (PStr (er_block_hash row)) in
  let! expected := _event_digest (er_sequence row) previous (er_event_type row) (er_block row) block_hash payload in
  do! raise_if (negb (bool_decide (expected = er_event_digest row))) (FS.error "finite-debt reward event digest differs") ;;
  Ok {| re_block := er_block row; re_block_hash := er_block_hash row; re_event_digest := er_event_digest row;
        re_event_type := er_event_type row; re_payload := payload; re_previous_event_digest := previous;
        re_sequence := er_sequence row |}.

Fixpoint events_from (rows : list RewardEventRow) (sequence : Z) (previous : string) : result (list RewardEvent) :=
  match rows with
  | [] => Ok []
  | row :: rows =>
      let! event := check_event sequence previous row in
      let! rest := events_from rows (sequence + 1) (er_event_digest row) in
      Ok (event :: rest)
  end.

Definition reward_events (t : DebtTables) : result (list RewardEvent) :=
  events_from (order_by er_sequence (dt_events t)) 0 "".

(** The digest of the last event. *)
Definition chain_head (events : list RewardEvent) : string :=
  match last events with None => "" | Some e => re_event_digest e end.

Definition _append_event (event_type : string) (block : Z) (block_hash : string) (payload : pyval) (t : DebtTables)
    : result (DebtTables * string) :=
  do! raise_if (negb (is_event_type event_type)) (FS.error "finite-debt reward event type is unsupported") ;;
  let! height := FS._integer 0 (PInt block) in
  let! authority_hash := FS._block_hash (PStr block_hash) in
  do! raise_if (negb (is_dict payload)) (FS.error "finite-debt reward event payload must be an object") ;;
  let! events := reward_events t in
  let sequence := Z.of_nat (length events) in
  let previous := chain_head events in
  let! digest := _event_digest sequence previous event_type height authority_hash payload in
  do! bound_int height ;;
  do! raise_if (bool_decide (digest ∈ er_event_digest <$> dt_events t) || bool_decide (sequence ∈ er_sequence <$> dt_events t)) integrity ;;
  Ok (add_event {| er_sequence := sequence; er_event_digest := digest; er_previous_event_digest := previous;
                   er_chain_scope_digest := scope_digest; er_event_type := event_type; er_block := height;
                   er_block_hash := authority_hash; er_payload_json := Dumped payload |} t, digest).

(** [WHERE event_digest=?] *)
Definition find_event (t : DebtTables) (digest : string) : option RewardEventRow :=
  List.find (λ row, bool_decide (er_event_digest row = digest)) (dt_events t).

(** ** Policy activations *)

Definition activation_payload (a : FiniteDebtPolicyActivation) (digest : string) : pyval :=
  py_dict [("activation", FiniteDebtPolicyActivation_to_dict a); ("activation_digest", PStr digest)].

Definition seeds_dict (seeds : list SeededFamilyClock) : pyval := PList (SeededFamilyClock_to_dict <$> seeds).

(** The conditions that compare an activation with its row, in their order; the
    digest of the policy raises where the policy's own does. *)
Definition _activation_from_row (t : DebtTables) (row : ActivationRow) : result FiniteDebtPolicyActivation :=
  let e := FS.error "finite-debt activation differs from retained bytes" in
  let! a := reopen_text [] (FS.error "finite-debt policy activation is corrupt") FiniteDebtPolicyActivation_from_dict
              (ar_activation_json row) in
  let! digest := FiniteDebtPolicyActivation_digest a in
  do! raise_if (negb (bool_decide (digest = ar_activation_digest row)) || negb (bool_decide (pa_chain_scope_digest a = scope_digest))) e ;;
  let! policy_digest := FiniteDebtPolicyManifest_digest (pa_policy a) in
  do! raise_if (negb (bool_decide (policy_digest = ar_policy_digest row))
                || negb (text_is (ar_policy_json row) (FiniteDebtPolicyManifest_to_dict (pa_policy a)))
                || negb (pa_activation_block a =? ar_activation_block row)
                || negb (bool_decide (pa_activation_block_hash a = ar_activation_block_hash row))
                || negb (bool_decide (pa_previous_policy_digest a = ar_previous_policy_digest row))
                || negb (text_is (ar_seeded_clocks_json row) (seeds_dict (pa_seeded_family_clocks a)))) e ;;
  do! raise_if (match find_event t (ar_reward_event_digest row) with
                | None => true
                | Some event =>
                    negb (bool_decide (er_event_type event = "policy_activated"))
                    || negb (er_block event =? pa_activation_block a)
                    || negb (bool_decide (er_block_hash event = pa_activation_block_hash a))
                    || negb (text_is (er_payload_json event) (activation_payload a digest))
                end) (FS.error "finite-debt activation event differs") ;;
  Ok a.

(** [activation.previous_policy_digest] is the digest of the one before. *)
Fixpoint check_activation_chain (previous : string) (l : list FiniteDebtPolicyActivation) : result unit :=
  match l with
  | [] => Ok tt
  | a :: l =>
      do! raise_if (negb (bool_decide (pa_previous_policy_digest a = previous))) (FS.error "finite-debt policy activation chain differs") ;;
      let! digest := FiniteDebtPolicyManifest_digest (pa_policy a) in
      check_activation_chain digest l
  end.

(** [ORDER BY activation_block,activation_digest] *)
Definition activations_in_order (t : DebtTables) : list ActivationRow :=
  stable_sort (num_text_le ar_activation_block ar_activation_digest) (dt_activations t).

Definition policy_activations (t : DebtTables) : result (list FiniteDebtPolicyActivation) :=
  do! reward_events t ;;
  let! activations := mapM (_activation_from_row t) (activations_in_order t) in
  do! check_activation_chain "" activations ;;
  Ok activations.

Definition active_policy_activation (t : DebtTables) (at_block : pyval) : result (option FiniteDebtPolicyActivation) :=
  let! block := FS._integer 0 at_block in
  let! activations := policy_activations t in
  Ok (last (List.filter (λ a, pa_activation_block a <=? block) activations)).

(** [WHERE policy_digest=?] and [WHERE activation_digest=?] *)
Definition find_policy (t : DebtTables) (digest : string) : option ActivationRow :=
  List.find (λ row, bool_decide (ar_policy_digest row = digest)) (dt_activations t).

Definition find_activation (t : DebtTables) (digest : pyval) : option ActivationRow :=
  List.find (λ row, py_eq_str digest (ar_activation_digest row)) (dt_activations t).

Definition _activation_by_policy (t : DebtTables) (policy_digest : string) : result FiniteDebtPolicyActivation :=
  let! digest := FS._digest false (PStr policy_digest) in
  do! reward_events t ;;
  match find_policy t digest with
  | None => Raise (FS.error "finite-debt claim names an absent policy")
  | Some row =>
      let! a := _activation_from_row t row in
      let! actual := FiniteDebtPolicyManifest_digest (pa_policy a) in
      do! raise_if (negb (bool_decide (actual = digest))) (FS.error "finite-debt activation policy digest differs") ;;
      Ok a
  end.

(** ** The settlement behind a crown *)

(** What [_retained_crown_authority] returns. *)
Record CrownAuthority := {
  cw_candidate : SettlementCandidate;
  cw_evidence : SettlementEvidence;
  cw_event : SettlementEvent;
  cw_arrival : FinalizedArrival;
  cw_contribution : ContributionRef
}.

(** A JSON column of the intake tables: two texts of one value are not told apart
    there. *)
Definition intake_column {A} (e : pyexn) (from_dict : pyval → result A) (text : option pyval) : result A :=
  reopen_text [] e from_dict (Foreign text).

Definition column_is (text : option pyval) (v : pyval) : bool :=
  match text with Some w => same_json w v | None => false end.

(** One retained qualification, with its reference and its PASS. *)
Definition crown_qualification (reservation : string) (row : QualificationRow)
    : result (SettlementQualification * EvidenceArtifactRef) :=
  let corrupt := FS.error "finite-debt CROWN authority is corrupt" in
  let! qualification := intake_column corrupt SettlementQualification_from_dict (ql_qualification_json row) in
  let! reference := intake_column corrupt EvidenceArtifactRef_from_dict (ql_attempt_ref_json row) in
  do! raise_if (negb (bool_decide (SettlementQualification_digest qualification = ql_qualification_digest row))
                || negb (column_is (ql_qualification_json row) (SettlementQualification_to_dict qualification))
                || negb (bool_decide (ea_sha256 reference = sq_qualification_attempt_digest qualification))
                || negb (column_is (ql_attempt_ref_json row) (EvidenceArtifactRef_to_dict reference)))
        (FS.error "finite-debt CROWN qualification bytes differ") ;;
  do! raise_if (match List.filter (λ d, bool_decide (dn_evidence_digest d = sq_qualification_attempt_digest qualification))
                        (dispositions_of (le_intake env) reservation) with
                | [d] => negb (bool_decide (dn_decision d = "PASS"))
                         || negb (bool_decide (dn_authority_digest d = sq_qualification_authority_digest qualification))
                         || negb (bool_decide (dn_report_digest d = sq_qualification_report_digest qualification))
                | _ => true
                end) (FS.error "finite-debt CROWN qualification lost PASS authority") ;;
  Ok (qualification, reference).

(** [==] on qualifications: they serialise their fields. *)
Definition qualification_eqb (a b : SettlementQualification) : bool :=
  same_json (SettlementQualification_to_dict a) (SettlementQualification_to_dict b).

(** The contribution of a candidate's manifest at its target. *)
Definition crown_contribution (c : SettlementCandidate) : option ContributionRef :=
  match sq_candidate_manifest (sc_primary c) with
  | None => None
  | Some manifest => assoc (es_entries manifest) (sq_target_id (sc_primary c))
  end.

(** The one condition of [_retained_crown_authority] on what it reopened. *)
Definition crown_differs (candidate_id reservation settlement_id evidence_id : string) (row : CandidateRow) (arrival : FinalizedArrival)
    (event_row : SettlementEventRow) (q0 q1 : QualificationRow) (candidate : SettlementCandidate) (event : SettlementEvent)
    (p r : SettlementQualification) (evidence : SettlementEvidence) (contribution : ContributionRef) : bool :=
  let c := sc_primary candidate in
  negb (bool_decide (SettlementCandidate_digest candidate = candidate_id))
  || negb (column_is (default None (ca_candidate_json row)) (SettlementCandidate_to_dict candidate))
  || negb (bool_decide (ca_authority_digest row = sq_qualification_authority_digest c))
  || negb (bool_decide (ca_status row = "crowned"))
  || negb (bool_decide (ca_settlement_evidence_digest row = evidence_id))
  || negb (bool_decide (SettlementEvidence_digest evidence = evidence_id))
  || negb (qualification_eqb p (sc_primary candidate) && qualification_eqb r (sc_reproduction candidate))
  || negb (bool_decide (ca_evidence_root row = ql_evidence_root q0))
  || negb (bool_decide (ca_reproduction_evidence_root row = ql_evidence_root q1))
  || negb (bool_decide (sq_lane c = "registered"))
  || negb (bool_decide (sq_reservation_digest c = reservation))
  || negb (fa_block arrival =? sq_finalized_block c)
  || negb (fa_event_index arrival =? sq_event_index c)
  || negb (fa_event_subindex arrival =? sq_event_subindex c)
  || negb (bool_decide (fa_hotkey arrival = sq_hotkey c))
  || negb (bool_decide (SettlementEvent_digest event = settlement_id))
  || negb (sw_sequence event_row =? sv_sequence event)
  || negb (bool_decide (sw_event_id event_row = SettlementEvent_digest event))
  || negb (bool_decide (sw_event_type event_row = "CROWN"))
  || negb (bool_decide (sw_reservation_id event_row = reservation))
  || negb (bool_decide (sw_arena_id event_row = sq_arena_digest c))
  || negb (bool_decide (sw_target_id event_row = sq_target_id c))
  || negb (text_is (sw_event_json event_row) (SettlementEvent_to_dict event))
  || negb (bool_decide (sv_event_type event = CROWN))
  || negb (bool_decide (sv_candidate_digest event = SettlementCandidate_digest candidate))
  || negb (bool_decide (sv_subject_digest event = ref_digest contribution))
  || negb (bool_decide (sv_target_id event = sq_target_id c))
  || negb (bool_decide (sv_from_stack_digest event = sq_incumbent_stack_digest c))
  || negb (bool_decide (sv_from_tree_digest event = sq_incumbent_tree_digest c))
  || negb (bool_decide (sv_to_stack_digest event = sq_incumbent_stack_digest c))
  || negb (bool_decide (sv_to_tree_digest event = sq_incumbent_tree_digest c))
  || negb (bool_decide (sv_reason event = "qualified_win")).

(** The disjuncts that can raise or that need a value come apart here: an absent
    contribution and a malformed hash of the arrival's block. *)
Definition _retained_crown_authority (candidate_digest reservation_digest settlement_event_digest retained_evidence_digest : pyval)
    : result CrownAuthority :=
  let! candidate_id := FS._digest false candidate_digest in
  let! reservation := FS._digest false reservation_digest in
  let! settlement_id := FS._digest false settlement_event_digest in
  let! evidence_id := FS._digest false retained_evidence_digest in
  let db := le_intake env in
  let lacks := FS.error "finite-debt CROWN lacks retained typed settlement authority" in
  let corrupt := FS.error "finite-debt CROWN authority is corrupt" in
  let differs := FS.error "finite-debt CROWN differs from retained typed settlement authority" in
  match List.find (λ c, bool_decide (ca_candidate_digest c = candidate_id) && bool_decide (ca_reservation_id c = reservation)) (db_candidates db),
        find_row db reservation,
        List.find (λ e, bool_decide (sw_event_digest e = settlement_id)) (le_settlement_events env),
        qualifications_of db reservation with
  | Some row, Some arrival_row, Some event_row, [q0; q1] =>
      let arrival := rv_arrival arrival_row in
      do! raise_if (negb (ql_reproduction_index q0 =? 0) || negb (ql_reproduction_index q1 =? 1)) lacks ;;
      let! candidate := intake_column corrupt SettlementCandidate_from_dict (default None (ca_candidate_json row)) in
      let! event := reopen_text [] corrupt SettlementEvent_from_dict (sw_event_json event_row) in
      let! primary := crown_qualification reservation q0 in
      let! reproduction := crown_qualification reservation q1 in
      let! evidence := catching VALUE_CLASSES corrupt (bind_evidence candidate primary.2 reproduction.2) in
      match crown_contribution candidate with
      | None => Raise differs
      | Some contribution =>
          do! FS._block_hash (PStr (fa_block_hash arrival)) ;;
          do! raise_if (crown_differs candidate_id reservation settlement_id evidence_id row arrival event_row q0 q1 candidate event
                          primary.1 reproduction.1 evidence contribution) differs ;;
          Ok {| cw_candidate := candidate; cw_evidence := evidence; cw_event := event; cw_arrival := arrival;
                cw_contribution := contribution |}
      end
  | _, _, _, _ => Raise lacks
  end.

(** ** Claims and balances *)

Definition prior_clock_identity (c : FiniteDebtFamilyClock) : list (string * pyval) := [
  ("accepted_crown_block", PInt (fc_accepted_crown_block c));
  ("event_index", PInt (fc_event_index c));
  ("event_subindex", PInt (fc_event_subindex c));
  ("reservation_digest", PStr (fc_reservation_digest c))].

Definition _claim_prior_clock_identity (clock : option FiniteDebtFamilyClock) : pyval :=
  match clock with None => PNone | Some c => py_dict (prior_clock_identity c) end.

Definition _clock_identity (c : FiniteDebtFamilyClock) : pyval :=
  py_dict [
    ("accepted_crown_block", PInt (fc_accepted_crown_block c));
    ("claim_digest", PStr (fc_claim_digest c));
    ("event_index", PInt (fc_event_index c));
    ("event_subindex", PInt (fc_event_subindex c));
    ("reservation_digest", PStr (fc_reservation_digest c));
    ("source", PStr (fc_source c))].

Definition _balance_from_row (row : BalanceRow) : result DebtClaimBalance :=
  let! b := reopen_text [] (FS.error "finite-debt balance is corrupt") DebtClaimBalance_from_dict (br_balance_json row) in
  do! raise_if (negb (bool_decide (DebtClaimBalance_digest b = br_balance_digest row))
                || negb (bool_decide (db_claim_digest b = br_claim_digest row))
                || negb (db_principal_units b =? br_principal_units row)
                || negb (db_paid_units b =? br_paid_units row)
                || negb (db_forfeited_units b =? br_forfeited_units row)
                || negb (db_remaining_units b =? br_remaining_units row)
                || negb (bool_decide (db_status b = br_status row))
                || negb (bool_decide (db_terminal_block b = br_terminal_block row))
                || negb (bool_decide (db_terminal_reason b = br_terminal_reason row))
                || negb (text_is (br_balance_json row) (DebtClaimBalance_to_dict b)))
        (FS.error "finite-debt balance differs from retained bytes") ;;
  Ok b.

Definition CLAIM_EVENT_FIELDS : list string := [
  "accepted_crown_block_hash"; "activation_digest"; "claim"; "claim_digest"; "event_index"; "event_subindex"; "prior_family_clock";
  "reservation_digest"; "settlement_event_digest"].

(** [set(payload) != expected_keys or payload.get(...) != ...] *)
Definition claim_payload_differs (row : ClaimRow) (claim : InnovationDebtClaim) (activation_digest : string) (payload : pyval) : bool :=
  negb (has_fields CLAIM_EVENT_FIELDS payload)
  || negb (py_eq (payload_get payload "claim") (InnovationDebtClaim_to_dict claim))
  || negb (py_eq (payload_get payload "claim_digest") (PStr (InnovationDebtClaim_digest claim)))
  || negb (py_eq (payload_get payload "accepted_crown_block_hash") (PStr (cr_accepted_crown_block_hash row)))
  || negb (py_eq (payload_get payload "activation_digest") (PStr activation_digest))
  || negb (py_eq (payload_get payload "event_index") (PInt (cr_event_index row)))
  || negb (py_eq (payload_get payload "event_subindex") (PInt (cr_event_subindex row)))
  || negb (py_eq (payload_get payload "reservation_digest") (PStr (cr_reservation_digest row)))
  || negb (py_eq (payload_get payload "settlement_event_digest") (PStr (cr_settlement_event_digest row))).

(** The claim differs from the columns of its row. *)
Definition claim_row_differs (row : ClaimRow) (claim : InnovationDebtClaim) : bool :=
  negb (bool_decide (InnovationDebtClaim_digest claim = cr_claim_digest row))
  || negb (bool_decide (ic_policy_digest claim = cr_policy_digest row))
  || negb (bool_decide (ic_family_id claim = cr_family_id row))
  || negb (bool_decide (ic_candidate_digest claim = cr_candidate_digest row))
  || negb (bool_decide (ic_retained_evidence_digest claim = cr_retained_evidence_digest row))
  || negb (bool_decide (ic_hotkey claim = cr_hotkey row))
  || negb (ic_accepted_crown_block claim =? cr_accepted_crown_block row)
  || negb (ic_settlement_block claim =? cr_settlement_block row)
  || negb (ic_principal_units claim =? cr_principal_units row)
  || negb (text_is (cr_claim_json row) (InnovationDebtClaim_to_dict claim)).

(** The claim differs from the settlement it names or from its event. *)
Definition claim_authority_differs (row : ClaimRow) (claim : InnovationDebtClaim) (active_digest activation_digest family : string)
    (crown : CrownAuthority) (event : RewardEventRow) : bool :=
  let candidate := cw_candidate crown in
  let c := sc_primary candidate in
  let arrival := cw_arrival crown in
  negb (bool_decide (active_digest = activation_digest))
  || negb (bool_decide (SettlementCandidate_digest candidate = ic_candidate_digest claim))
  || negb (bool_decide (sc_speedup candidate = ic_settled_speedup claim))
  || negb (bool_decide (sq_hotkey c = ic_hotkey claim))
  || negb (sq_finalized_block c =? ic_accepted_crown_block claim)
  || negb (sq_event_index c =? cr_event_index row)
  || negb (sq_event_subindex c =? cr_event_subindex row)
  || negb (bool_decide (sq_reservation_digest c = cr_reservation_digest row))
  || negb (bool_decide (SettlementEvidence_digest (cw_evidence crown) = ic_retained_evidence_digest claim))
  || negb (bool_decide (family = ic_family_id claim))
  || negb (fa_block arrival =? cr_accepted_crown_block row)
  || negb (bool_decide (fa_block_hash arrival = cr_accepted_crown_block_hash row))
  || negb (fa_event_index arrival =? cr_event_index row)
  || negb (fa_event_subindex arrival =? cr_event_subindex row)
  || negb (bool_decide (fa_hotkey arrival = ic_hotkey claim))
  || negb (bool_decide (SettlementEvent_digest (cw_event crown) = cr_settlement_event_digest row))
  || negb (bool_decide (er_event_type event = "claim_issued"))
  || negb (er_block event =? ic_settlement_block claim)
  || negb (bool_decide (er_block_hash event = cr_settlement_block_hash row)).

Definition _claim_from_row (t : DebtTables) (row : ClaimRow) : result InnovationDebtClaim :=
  let corrupt := FS.error "finite-debt claim is corrupt" in
  let! parts := match loads (cr_claim_json row) with
                | None => Raise corrupt
                | Some v => catching VALUE_CLASSES corrupt
                    (let! claim := InnovationDebtClaim_from_dict v in
                     let! activation := _activation_by_policy t (cr_policy_digest row) in
                     do! InnovationDebtClaim_validate_policy claim (pa_policy activation) ;;
                     Ok (claim, activation))
                end in
  let '(claim, activation) := parts in
  do! raise_if (claim_row_differs row claim) (FS.error "finite-debt claim differs from retained bytes") ;;
  do! FS._block_hash (PStr (cr_accepted_crown_block_hash row)) ;;
  do! FS._block_hash (PStr (cr_settlement_block_hash row)) ;;
  do! FS._digest false (PStr (cr_reservation_digest row)) ;;
  do! FS._digest false (PStr (cr_settlement_event_digest row)) ;;
  do! FS._digest false (PStr (cr_issuance_reward_event_digest row)) ;;
  let! crown := _retained_crown_authority (PStr (ic_candidate_digest claim)) (PStr (cr_reservation_digest row))
                  (PStr (cr_settlement_event_digest row)) (PStr (ic_retained_evidence_digest claim)) in
  let! active := active_policy_activation t (PInt (ic_settlement_block claim)) in
  let! family := reward_family_id (sq_arena_digest (sc_primary (cw_candidate crown))) (sq_target_id (sc_primary (cw_candidate crown)))
                   (ref_target_spec_digest (cw_contribution crown)) in
  match active, find_event t (cr_issuance_reward_event_digest row) with
  | Some active, Some event =>
      let! active_digest := FiniteDebtPolicyActivation_digest active in
      let! activation_digest := FiniteDebtPolicyActivation_digest activation in
      do! raise_if (claim_authority_differs row claim active_digest activation_digest family crown event)
            (FS.error "finite-debt claim authority differs") ;;
      match loads (er_payload_json event) with
      | None => Raise (FS.error "finite-debt claim event is corrupt")
      | Some payload =>
          do! raise_if (claim_payload_differs row claim activation_digest payload) (FS.error "finite-debt claim event payload differs") ;;
          Ok claim
      end
  | _, _ => Raise (FS.error "finite-debt claim authority differs")
  end.

(** ** Crowns without debt *)

Definition NO_ISSUE_FIELDS : list string := [
  "accepted_crown_block"; "accepted_crown_block_hash"; "activation_digest"; "candidate_digest"; "event_index"; "event_subindex";
  "family_id"; "hotkey"; "reason"; "reservation_digest"; "retained_evidence_digest"; "settlement_event_digest"].

Definition NO_ISSUE_REASONS : list string := [
  "accepted_before_policy_activation"; "accepted_before_family_invalidation"; "improvement_rounds_to_zero"; "principal_rounds_to_zero"].

Definition no_issue_payload (accepted : Z) (accepted_hash activation_digest candidate : string) (index subindex : Z)
    (family hotkey : string) (reason : pyval) (reservation evidence settlement_event : string) : pyval :=
  py_dict [
    ("accepted_crown_block", PInt accepted);
    ("accepted_crown_block_hash", PStr accepted_hash);
    ("activation_digest", PStr activation_digest);
    ("candidate_digest", PStr candidate);
    ("event_index", PInt index);
    ("event_subindex", PInt subindex);
    ("family_id", PStr family);
    ("hotkey", PStr hotkey);
    ("reason", reason);
    ("reservation_digest", PStr reservation);
    ("retained_evidence_digest", PStr evidence);
    ("settlement_event_digest", PStr settlement_event)].

(** The activation, the candidate, the reason and the arrival. *)
Definition _no_issue_authority (t : DebtTables) (event : RewardEvent)
    : result (FiniteDebtPolicyActivation * SettlementCandidate * string * FinalizedArrival) :=
  let payload := re_payload event in
  do! raise_if (negb (has_fields NO_ISSUE_FIELDS payload)) (FS.error "finite-debt no-issue event payload differs") ;;
  match find_activation t (payload_get payload "activation_digest") with
  | None => Raise (FS.error "finite-debt no-issue activation is absent")
  | Some activation_row =>
      let! activation := _activation_from_row t activation_row in
      let! active := active_policy_activation t (PInt (re_block event)) in
      let! crown := _retained_crown_authority (payload_get payload "candidate_digest") (payload_get payload "reservation_digest")
                      (payload_get payload "settlement_event_digest") (payload_get payload "retained_evidence_digest") in
      let candidate := cw_candidate crown in
      let c := sc_primary candidate in
      let! family := reward_family_id (sq_arena_digest c) (sq_target_id c) (ref_target_spec_digest (cw_contribution crown)) in
      let! activation_digest := FiniteDebtPolicyActivation_digest activation in
      let expected := no_issue_payload (sq_finalized_block c) (fa_block_hash (cw_arrival crown)) activation_digest
        (SettlementCandidate_digest candidate) (sq_event_index c) (sq_event_subindex c) family (sq_hotkey c)
        (payload_get payload "reason") (sq_reservation_digest c) (SettlementEvidence_digest (cw_evidence crown))
        (SettlementEvent_digest (cw_event crown)) in
      let differs := FS.error "finite-debt no-issue event differs from CROWN authority" in
      match active with
      | None => Raise differs
      | Some active =>
          let! active_digest := FiniteDebtPolicyActivation_digest active in
          do! raise_if (negb (bool_decide (active_digest = activation_digest)) || (re_block event <? sq_finalized_block c)
                        || negb (py_eq payload expected)) differs ;;
          let! known := py_in_strs (payload_get payload "reason") NO_ISSUE_REASONS in
          match payload_get payload "reason" with
          | PStr reason => if known then Ok (activation, candidate, reason, cw_arrival crown) else Raise differs
          | _ => Raise differs
          end
      end
  end.

(** ** Invalidated families *)

Definition INVALIDATION_FIELDS : list string := [
  "activation_digest"; "claim_balance_transitions"; "family_id"; "invalidation_digest"; "policy_digest"; "prior_family_clock"].

Definition transition_dict (after before claim : string) : pyval :=
  py_dict [("after_balance_digest", PStr after); ("before_balance_digest", PStr before); ("claim_digest", PStr claim)].

Definition invalidation_payload (activation_digest : string) (transitions : list pyval) (family invalidation policy_digest : string)
    (prior : option FiniteDebtFamilyClock) : pyval :=
  py_dict [
    ("activation_digest", PStr activation_digest);
    ("claim_balance_transitions", PList transitions);
    ("family_id", PStr family);
    ("invalidation_digest", PStr invalidation);
    ("policy_digest", PStr policy_digest);
    ("prior_family_clock", match prior with None => PNone | Some c => _clock_identity c end)].

(** [WHERE claim_digest=?] *)
Definition find_claim (t : DebtTables) (digest : string) : option ClaimRow :=
  List.find (λ row, bool_decide (cr_claim_digest row = digest)) (dt_claims t).

(** [WHERE claim_digest=? ORDER BY revision] *)
Definition balances_of (t : DebtTables) (claim_digest : string) : list BalanceRow :=
  order_by br_revision (List.filter (λ b, bool_decide (br_claim_digest b = claim_digest)) (dt_balances t)).

(** The sequence of the event that authorised a row. *)
Definition event_sequence (t : DebtTables) (event_digest : string) : option Z := er_sequence <$> find_event t event_digest.

(** [JOIN finite_debt_reward_events ... WHERE b.claim_digest=? AND e.sequence<?
    ORDER BY b.revision] *)
Definition balances_before (t : DebtTables) (claim_digest : string) (sequence : Z) : list BalanceRow :=
  List.filter (λ b, match event_sequence t (br_reward_event_digest b) with Some s => s <? sequence | None => false end)
    (balances_of t claim_digest).

(** [WHERE policy_digest=? AND family_id=? ORDER BY claim_digest] *)
Definition family_claims (t : DebtTables) (policy_digest family : string) : list ClaimRow :=
  sorted_by cr_claim_digest
    (List.filter (λ row, bool_decide (cr_policy_digest row = policy_digest) && bool_decide (cr_family_id row = family)) (dt_claims t)).

(** What the invalidation does to one claim: nothing, or the balance before it and
    the cancelled one. *)
Definition expected_cancellation (t : DebtTables) (sequence block : Z) (row : ClaimRow)
    : result (option (string * (BalanceRow * DebtClaimBalance))) :=
  let! claim := _claim_from_row t row in
  let issued_later := match event_sequence t (cr_issuance_reward_event_digest row) with None => true | Some s => sequence <=? s end in
  if issued_later then Ok None
  else match last (balances_before t (InnovationDebtClaim_digest claim) sequence) with
       | None => Raise (FS.error "finite-debt family invalidation lacks issued balance")
       | Some before_row =>
           let! before := _balance_from_row before_row in
           if negb (bool_decide (db_status before = "open")) then Ok None
           else
             let! after := catching [FiniteDebtError] (FS.error "finite-debt family invalidation cannot replay")
                             (cancel_claim_balance claim before (PInt block) (PStr "runtime_invalidation")) in
             Ok (Some (InnovationDebtClaim_digest claim, (before_row, after)))
       end.

(** [WHERE reward_event_digest=? ORDER BY claim_digest] *)
Definition balances_by_event (t : DebtTables) (event_digest : string) : list BalanceRow :=
  sorted_by br_claim_digest (List.filter (λ b, bool_decide (br_reward_event_digest b = event_digest)) (dt_balances t)).

#[global] Instance DebtClaimBalance_eq_dec : EqDecision DebtClaimBalance.
Proof. solve_decision. Defined.

(** One row the invalidation wrote, against what it should have written. *)
Definition invalidation_transition (expected : list (string * (BalanceRow * DebtClaimBalance))) (row : BalanceRow) : result pyval :=
  match assoc expected (br_claim_digest row) with
  | None => Raise (FS.error "finite-debt family invalidation balance set differs")
  | Some (before_row, after) =>
      let! actual := _balance_from_row row in
      do! raise_if (negb (br_revision row =? br_revision before_row + 1) || negb (bool_decide (actual = after)))
            (FS.error "finite-debt family invalidation balance differs") ;;
      Ok (transition_dict (DebtClaimBalance_digest actual) (br_balance_digest before_row) (db_claim_digest actual))
  end.

Definition invalidation_marker (policy_digest family : string) (block : Z) (block_hash invalidation event_digest : string)
    : FiniteDebtFamilyClock :=
  {| fc_policy_digest := policy_digest; fc_family_id := family; fc_accepted_crown_block := block;
     fc_accepted_crown_block_hash := block_hash; fc_event_index := MARKER_INDEX; fc_event_subindex := MARKER_INDEX;
     fc_reservation_digest := invalidation; fc_source := "invalidation"; fc_claim_digest := "";
     fc_reward_event_digest := event_digest |}.

(** The claim of a balance row lies in another policy or family. *)
Definition crosses_family (t : DebtTables) (policy_digest family : string) (row : BalanceRow) : bool :=
  match find_claim t (br_claim_digest row) with
  | Some claim => negb (bool_decide (cr_policy_digest claim = policy_digest)) || negb (bool_decide (cr_family_id claim = family))
  | None => false
  end.

Definition _validate_family_invalidation (t : DebtTables) (event : RewardEvent) (prior : option FiniteDebtFamilyClock)
    : result FiniteDebtFamilyClock :=
  let payload := re_payload event in
  do! raise_if (negb (has_fields INVALIDATION_FIELDS payload)) (FS.error "finite-debt family invalidation event payload differs") ;;
  match List.find (λ row, py_eq_str (payload_get payload "activation_digest") (ar_activation_digest row)
                          && py_eq_str (payload_get payload "policy_digest") (ar_policy_digest row)) (dt_activations t) with
  | None => Raise (FS.error "finite-debt family invalidation activation is absent")
  | Some activation_row =>
      let! activation := _activation_from_row t activation_row in
      let! active := active_policy_activation t (PInt (re_block event)) in
      let! family := FS._digest false (payload_get payload "family_id") in
      let! invalidation := FS._digest false (payload_get payload "invalidation_digest") in
      do! catching [FiniteDebtError] (FS.error "finite-debt family invalidation is outside its policy")
            (campaign_for_family (pa_policy activation) (PStr family)) ;;
      let! policy_digest := FiniteDebtPolicyManifest_digest (pa_policy activation) in
      let! block := FS._integer 0 (PInt (re_block event)) in
      let! block_hash := FS._block_hash (PStr (re_block_hash event)) in
      let! event_digest := FS._digest false (PStr (re_event_digest event)) in
      let! marker := FiniteDebtFamilyClock_check (invalidation_marker policy_digest family block block_hash invalidation event_digest) in
      let! activation_digest := FiniteDebtPolicyActivation_digest activation in
      let! active_digest := match active with None => Ok None | Some a => let! d := FiniteDebtPolicyActivation_digest a in Ok (Some d) end in
      do! raise_if (negb (bool_decide (active_digest = Some activation_digest))
                    || negb (py_eq_str (payload_get payload "policy_digest") policy_digest)
                    || match prior with Some c => block <=? fc_accepted_crown_block c | None => false end)
            (FS.error "finite-debt family invalidation authority differs") ;;
      let! expected := mapM (expected_cancellation t (re_sequence event) block) (family_claims t policy_digest family) in
      let expected := omap (λ x, x) expected in
      let actual := balances_by_event t (fc_reward_event_digest marker) in
      do! raise_if (existsb (crosses_family t policy_digest family) actual) (FS.error "finite-debt family invalidation crossed policy or family") ;;
      do! raise_if (negb (bool_decide (length actual = length expected))) (FS.error "finite-debt family invalidation balance set differs") ;;
      let! transitions := mapM (invalidation_transition expected) actual in
      do! raise_if (negb (py_eq payload (invalidation_payload activation_digest transitions family invalidation policy_digest prior)))
            (FS.error "finite-debt family invalidation event differs") ;;
      Ok marker
  end.

(** ** Family clocks *)

(** What the loop of [family_clocks] keeps. *)
Record ClockReplay := {
  ry_expected : list FiniteDebtFamilyClock;
  ry_latest : gmap (string * string) FiniteDebtFamilyClock;
  ry_activations : gset string;
  ry_claims : gset string;
  ry_outcomes : gset string
}.

Definition empty_replay : ClockReplay :=
  {| ry_expected := []; ry_latest := ∅; ry_activations := ∅; ry_claims := ∅; ry_outcomes := ∅ |}.

Definition append_clock (clock : FiniteDebtFamilyClock) (r : ClockReplay) : result ClockReplay :=
  let key := (fc_policy_digest clock, fc_family_id clock) in
  do! raise_if (match ry_latest r !! key with
                | Some prior => order_leb (fc_finalized_order clock) (fc_finalized_order prior)
                | None => false
                end) (FS.error "finite-debt family clock order did not advance") ;;
  Ok {| ry_expected := ry_expected r ++ [clock]; ry_latest := <[key := clock]> (ry_latest r); ry_activations := ry_activations r;
        ry_claims := ry_claims r; ry_outcomes := ry_outcomes r |}.

Definition saw_activation (digest : string) (r : ClockReplay) : ClockReplay :=
  {| ry_expected := ry_expected r; ry_latest := ry_latest r; ry_activations := {[digest]} ∪ ry_activations r;
     ry_claims := ry_claims r; ry_outcomes := ry_outcomes r |}.

Definition saw_claim (digest : string) (r : ClockReplay) : ClockReplay :=
  {| ry_expected := ry_expected r; ry_latest := ry_latest r; ry_activations := ry_activations r;
     ry_claims := {[digest]} ∪ ry_claims r; ry_outcomes := ry_outcomes r |}.

(** One CROWN has one outcome. *)
Definition crown_outcome (settlement_event : string) (r : ClockReplay) : result ClockReplay :=
  do! raise_if (bool_decide (settlement_event ∈ ry_outcomes r)) (FS.error "finite-debt CROWN has duplicate issuance outcomes") ;;
  Ok {| ry_expected := ry_expected r; ry_latest := ry_latest r; ry_activations := ry_activations r;
        ry_claims := ry_claims r; ry_outcomes := {[settlement_event]} ∪ ry_outcomes r |}.

Definition family_clock (policy_digest family : string) (block : Z) (block_hash : string) (index subindex : Z)
    (reservation source claim event_digest : string) : FiniteDebtFamilyClock :=
  {| fc_policy_digest := policy_digest; fc_family_id := family; fc_accepted_crown_block := block;
     fc_accepted_crown_block_hash := block_hash; fc_event_index := index; fc_event_subindex := subindex;
     fc_reservation_digest := reservation; fc_source := source; fc_claim_digest := claim; fc_reward_event_digest := event_digest |}.

Definition seed_clock (policy_digest event_digest : string) (s : SeededFamilyClock) : FiniteDebtFamilyClock :=
  family_clock policy_digest (sf_family_id s) (sf_accepted_crown_block s) (sf_accepted_crown_block_hash s) (sf_event_index s)
    (sf_event_subindex s) (sf_reservation_digest s) "seed" "" event_digest.

(** The constructor's checks and [append_clock]. *)
Definition append_checked (clock : FiniteDebtFamilyClock) (r : ClockReplay) : result ClockReplay :=
  let! clock := FiniteDebtFamilyClock_check clock in
  append_clock clock r.

Fixpoint append_seeds (policy_digest event_digest : string) (seeds : list SeededFamilyClock) (r : ClockReplay) : result ClockReplay :=
  match seeds with
  | [] => Ok r
  | s :: seeds =>
      let! r := append_checked (seed_clock policy_digest event_digest s) r in
      append_seeds policy_digest event_digest seeds r
  end.

(** The block the next crown counts its wait from. *)
Definition prior_block (prior : option FiniteDebtFamilyClock) : option Z :=
  match prior with
  | None => None
  | Some c => if bool_decide (fc_source c = "invalidation") then None else Some (fc_accepted_crown_block c)
  end.

(** [activation_rows.get(digest)] and [claim_rows.get(digest)] *)
Definition activation_of_event (t : DebtTables) (event_digest : string) : option ActivationRow :=
  List.find (λ row, bool_decide (ar_reward_event_digest row = event_digest)) (dt_activations t).

Definition claim_of_event (t : DebtTables) (event_digest : string) : option ClaimRow :=
  List.find (λ row, bool_decide (cr_issuance_reward_event_digest row = event_digest)) (dt_claims t).

Definition replay_activation (t : DebtTables) (event : RewardEvent) (r : ClockReplay) : result ClockReplay :=
  match activation_of_event t (re_event_digest event) with
  | None => Raise (FS.error "finite-debt policy activation event is orphaned")
  | Some row =>
      let! activation := _activation_from_row t row in
      let! digest := FiniteDebtPolicyActivation_digest activation in
      let! policy_digest := FiniteDebtPolicyManifest_digest (pa_policy activation) in
      append_seeds policy_digest (re_event_digest event) (pa_seeded_family_clocks activation) (saw_activation digest r)
  end.

Definition crown_clock (row : ClaimRow) (claim : InnovationDebtClaim) (event_digest : string) : FiniteDebtFamilyClock :=
  family_clock (ic_policy_digest claim) (ic_family_id claim) (ic_accepted_crown_block claim) (cr_accepted_crown_block_hash row)
    (cr_event_index row) (cr_event_subindex row) (cr_reservation_digest row) "crown" (InnovationDebtClaim_digest claim) event_digest.

Definition replay_claim (t : DebtTables) (event : RewardEvent) (r : ClockReplay) : result ClockReplay :=
  match claim_of_event t (re_event_digest event) with
  | None => Raise (FS.error "finite-debt claim-issued event is orphaned")
  | Some row =>
      let! claim := _claim_from_row t row in
      do! raise_if (negb (ic_settlement_block claim =? re_block event)) (FS.error "finite-debt claim-issued settlement block differs") ;;
      let! r := crown_outcome (cr_settlement_event_digest row) r in
      let prior := ry_latest r !! (ic_policy_digest claim, ic_family_id claim) in
      do! raise_if (negb (bool_decide (ic_prior_accepted_crown_block claim = prior_block prior))
                    || negb (is_dict (re_payload event))
                    || negb (py_eq (payload_get (re_payload event) "prior_family_clock") (_claim_prior_clock_identity prior)))
            (FS.error "finite-debt claim prior family clock differs") ;;
      let r := saw_claim (InnovationDebtClaim_digest claim) r in
      if ic_resets_clock claim then append_checked (crown_clock row claim (re_event_digest event)) r else Ok r
  end.

(** [valid_reason] and [units] for the reason of a crown without debt. *)
Definition no_issue_reason (activation : FiniteDebtPolicyActivation) (candidate : SettlementCandidate) (reason family evidence : string)
    (prior : option FiniteDebtFamilyClock) (block : Z) : result (bool * option Z) :=
  let c := sc_primary candidate in
  let policy := pa_policy activation in
  if bool_decide (reason = "accepted_before_policy_activation") then Ok (sq_finalized_block c <? pa_activation_block activation, None)
  else if bool_decide (reason = "accepted_before_family_invalidation") then
    Ok (negb (bool_decide (sq_hotkey c = fp_reserve_hotkey policy))
        && match prior with
           | Some p => bool_decide (fc_source p = "invalidation") && order_leb (finalized_order c) (fc_finalized_order p)
           | None => false
           end, None)
  else
    let valid := (pa_activation_block activation <=? sq_finalized_block c)
      && negb (bool_decide (sq_hotkey c = fp_reserve_hotkey policy))
      && match prior with None => true | Some p => negb (order_leb (finalized_order c) (fc_finalized_order p)) end in
    match log_improvement_units_ppm (PStr (sc_speedup candidate)) (fp_improvement_basis policy) (PStr "1") with
    | Raise (Exn FiniteDebtError m) =>
        Ok (valid && bool_decide (reason = "improvement_rounds_to_zero") && bool_decide (m = "improvement rounds to zero 1%-log-unit ppm"), None)
    | Raise e => Raise e
    | Ok units =>
        if negb (bool_decide (reason = "principal_rounds_to_zero")) then Ok (false, Some units)
        else match issue_innovation_claim policy (PStr family) (PStr (SettlementCandidate_digest candidate)) (PStr evidence)
                     (PStr (sq_hotkey c)) (PStr (sc_speedup candidate)) (PStr "1") (PInt (sq_finalized_block c))
                     (py_opt_int (prior_block prior)) (PInt block) with
             | Raise (Exn FiniteDebtError m) => Ok (valid && bool_decide (m = "claim principal rounds to zero"), Some units)
             | Raise e => Raise e
             | Ok _ => Ok (false, Some units)
             end
    end.

(** [str(payload[key])] of a payload that [_no_issue_authority] has compared with
    the one it expects: the value is text. *)
Definition payload_str (payload : pyval) (key : string) : string := match payload_get payload key with PStr s => s | _ => "" end.

Definition replay_no_issue (t : DebtTables) (event : RewardEvent) (r : ClockReplay) : result ClockReplay :=
  let! authority := _no_issue_authority t event in
  let '(activation, candidate, reason, arrival) := authority in
  let payload := re_payload event in
  let! r := crown_outcome (payload_str payload "settlement_event_digest") r in
  let family := payload_str payload "family_id" in
  let! policy_digest := FiniteDebtPolicyManifest_digest (pa_policy activation) in
  let prior := ry_latest r !! (policy_digest, family) in
  let! verdict := no_issue_reason activation candidate reason family (payload_str payload "retained_evidence_digest") prior (re_block event) in
  do! raise_if (negb verdict.1) (FS.error "finite-debt no-issue reason cannot replay") ;;
  match verdict.2 with
  | Some units =>
      if bool_decide (reason = "principal_rounds_to_zero") then
        let! resets := resets_family_clock (pa_policy activation) (PInt units) in
        if resets then
          let c := sc_primary candidate in
          append_checked (family_clock policy_digest family (sq_finalized_block c) (fa_block_hash arrival) (sq_event_index c)
            (sq_event_subindex c) (sq_reservation_digest c) "crown_no_debt" "" (re_event_digest event)) r
        else Ok r
      else Ok r
  | None => Ok r
  end.

Definition replay_invalidation (t : DebtTables) (event : RewardEvent) (r : ClockReplay) : result ClockReplay :=
  do! raise_if (negb (is_dict (re_payload event))) (FS.error "finite-debt family invalidation payload differs") ;;
  let! policy_digest := FS._digest false (payload_get (re_payload event) "policy_digest") in
  let! family := FS._digest false (payload_get (re_payload event) "family_id") in
  let! marker := _validate_family_invalidation t event (ry_latest r !! (policy_digest, family)) in
  append_clock marker r.

Definition replay_event (t : DebtTables) (event : RewardEvent) (r : ClockReplay) : result ClockReplay :=
  if bool_decide (re_event_type event = "policy_activated") then replay_activation t event r
  else if bool_decide (re_event_type event = "claim_issued") then replay_claim t event r
  else if bool_decide (re_event_type event = "claim_not_issued") then replay_no_issue t event r
  else if bool_decide (re_event_type event = "family_invalidated") then replay_invalidation t event r
  else Ok r.

Fixpoint replay_events (t : DebtTables) (events : list RewardEvent) (r : ClockReplay) : result ClockReplay :=
  match events with
  | [] => Ok r
  | event :: events => let! r := replay_event t event r in replay_events t events r
  end.

(** [ORDER BY] the clocks' key. *)
Definition clocks_in_order (l : list FiniteDebtFamilyClock) : list FiniteDebtFamilyClock := stable_sort clock_le l.

(** The audit of [family_clocks] without its selection. *)
Definition audited_clocks (t : DebtTables) : result (list FiniteDebtFamilyClock) :=
  let! events := reward_events t in
  let! r := replay_events t events empty_replay in
  do! raise_if (negb (Z.of_nat (size (ry_activations r)) =? Z.of_nat (length (dt_activations t))))
        (FS.error "finite-debt activation rows differ from activation events") ;;
  do! raise_if (negb (Z.of_nat (size (ry_claims r)) =? Z.of_nat (length (dt_claims t))))
        (FS.error "finite-debt claim rows differ from claim-issued events") ;;
  let! actual := mapM FiniteDebtFamilyClock_check (clocks_in_order (dt_clocks t)) in
  do! raise_if (negb (bool_decide (actual = clocks_in_order (ry_expected r))))
        (FS.error "finite-debt family clocks differ from exact reward authority") ;;
  Ok actual.

Definition selected (policy_digest family_id : option string) (c : FiniteDebtFamilyClock) : bool :=
  match policy_digest with Some p => bool_decide (fc_policy_digest c = p) | None => true end
  && match family_id with Some f => bool_decide (fc_family_id c = f) | None => true end.

Definition optional_digest (v : option string) : result (option string) :=
  match v with None => Ok None | Some s => let! d := FS._digest false (PStr s) in Ok (Some d) end.

Definition family_clocks (policy_digest family_id : option string) (t : DebtTables) : result (list FiniteDebtFamilyClock) :=
  let! policy_digest := optional_digest policy_digest in
  let! family_id := optional_digest family_id in
  let! actual := audited_clocks t in
  Ok (List.filter (selected policy_digest family_id) actual).

Definition _latest_clock (policy_digest family_id : string) (t : DebtTables) : result (option FiniteDebtFamilyClock) :=
  let! rows := family_clocks (Some policy_digest) (Some family_id) t in
  Ok (last rows).

(** ** Claim states *)

Definition LIFECYCLE_FIELDS : list string := ["after_balance"; "after_balance_digest"; "before_balance_digest"; "claim_digest"].

Definition lifecycle_payload (after : DebtClaimBalance) (before_digest claim_digest : string) : pyval :=
  py_dict [
    ("after_balance", DebtClaimBalance_to_dict after);
    ("after_balance_digest", PStr (DebtClaimBalance_digest after));
    ("before_balance_digest", PStr before_digest);
    ("claim_digest", PStr claim_digest)].

Definition lifecycle_payload_differs (claim_digest : string) (prior current : DebtClaimBalance) (payload : pyval) : bool :=
  negb (has_fields LIFECYCLE_FIELDS payload || has_fields (LIFECYCLE_FIELDS ++ ["composition_activation_digest"]) payload)
  || negb (py_eq (payload_get payload "after_balance") (DebtClaimBalance_to_dict current))
  || negb (py_eq (payload_get payload "after_balance_digest") (PStr (DebtClaimBalance_digest current)))
  || negb (py_eq (payload_get payload "before_balance_digest") (PStr (DebtClaimBalance_digest prior)))
  || negb (py_eq (payload_get payload "claim_digest") (PStr claim_digest)).

(** [transition_field] *)
Definition transition_field (event_type : string) : string :=
  if bool_decide (event_type = "epoch_paid") then "balance_transitions"
  else if bool_decide (event_type = "composed_epoch_paid") then "core_balance_transitions"
  else "claim_balance_transitions".

(** [type(transitions) is list and sum(item == transition ...) == 1] *)
Definition authorised_once (transition transitions : pyval) : bool :=
  match transitions with
  | PList items => bool_decide (length (List.filter (λ item, py_eq item transition) items) = 1%nat)
  | _ => false
  end.

(** The events that may write a revision. *)
Definition expected_events (first : bool) (current : DebtClaimBalance) : list string :=
  if first then ["claim_issued"]
  else if bool_decide (db_status current = "expired") then ["claim_expired"]
  else if bool_decide (db_status current = "cancelled") then ["claim_cancelled"; "family_invalidated"]
  else ["epoch_paid"; "composed_epoch_paid"].

(** One revision against the event it names and the revision before it. *)
Definition check_revision (t : DebtTables) (claim : InnovationDebtClaim) (prior : option DebtClaimBalance)
    (row : BalanceRow) (current : DebtClaimBalance) : result unit :=
  match find_event t (br_reward_event_digest row) with
  | None => Raise (FS.error "finite-debt balance revision event differs")
  | Some event =>
      do! raise_if (negb (bool_decide (er_event_type event ∈ expected_events (bool_decide (prior = None)) current)))
            (FS.error "finite-debt balance revision event differs") ;;
      match prior with
      | None => Ok tt
      | Some prior =>
          let! payload := match loads (er_payload_json event) with
                          | None => Raise (FS.error "finite-debt balance event is corrupt")
                          | Some v => Ok v
                          end in
          do! raise_if (negb (is_dict payload)) (FS.error "finite-debt balance event payload differs") ;;
          let digest := InnovationDebtClaim_digest claim in
          if bool_decide (er_event_type event ∈ ["claim_expired"; "claim_cancelled"]) then
            let! recomputed := catching [FiniteDebtError] (FS.error "finite-debt lifecycle event cannot replay")
              (if bool_decide (er_event_type event = "claim_expired") then expire_claim_balance claim prior (PInt (er_block event))
               else cancel_claim_balance claim prior (PInt (er_block event)) (PStr (db_terminal_reason current))) in
            raise_if (negb (bool_decide (recomputed = current)) || lifecycle_payload_differs digest prior current payload)
              (FS.error "finite-debt lifecycle event payload differs")
          else
            raise_if (negb (authorised_once
                (transition_dict (DebtClaimBalance_digest current) (DebtClaimBalance_digest prior) digest)
                (payload_get payload (transition_field (er_event_type event)))))
              (FS.error "finite-debt balance transition is not exactly authorized")
      end
  end.

Fixpoint check_revisions (t : DebtTables) (claim : InnovationDebtClaim) (prior : option DebtClaimBalance)
    (rows : list (BalanceRow * DebtClaimBalance)) : result unit :=
  match rows with
  | [] => Ok tt
  | (row, current) :: rows =>
      do! check_revision t claim prior row current ;;
      check_revisions t claim (Some current) rows
  end.

(** [current] may follow [prior]. *)
Definition history_regressed (prior current : DebtClaimBalance) : bool :=
  negb (bool_decide (db_status prior = "open"))
  || (db_paid_units current <? db_paid_units prior)
  || (db_forfeited_units current <? db_forfeited_units prior)
  || (db_remaining_units prior <=? db_remaining_units current).

Fixpoint check_history (prior : DebtClaimBalance) (balances : list DebtClaimBalance) : result unit :=
  match balances with
  | [] => Ok tt
  | current :: balances =>
      do! raise_if (history_regressed prior current) (FS.error "finite-debt balance history regressed") ;;
      check_history current balances
  end.

Definition claim_state (t : DebtTables) (row : ClaimRow) : result DebtClaimState :=
  let! claim := _claim_from_row t row in
  let rows := balances_of t (InnovationDebtClaim_digest claim) in
  do! raise_if (is_nil rows || negb (bool_decide (br_revision <$> rows = Z.of_nat <$> seq 0 (length rows))))
        (FS.error "finite-debt balance revisions are not contiguous") ;;
  let! balances := mapM _balance_from_row rows in
  let! opened := DebtClaimBalance_open claim in
  match balances with
  | [] => Raise (FS.error "finite-debt balance revisions are not contiguous")
  | first :: later =>
      do! raise_if (negb (bool_decide (first = opened))) (FS.error "finite-debt initial balance is not open principal") ;;
      do! check_revisions t claim None (zip rows balances) ;;
      do! check_history first later ;;
      DebtClaimState_init claim (List.last later first)
  end.

(** [WHERE policy_digest=? ORDER BY claim_digest] *)
Definition claim_rows (policy_digest : option string) (t : DebtTables) : list ClaimRow :=
  sorted_by cr_claim_digest
    (List.filter (λ row, match policy_digest with Some p => bool_decide (cr_policy_digest row = p) | None => true end) (dt_claims t)).

Definition _claim_states (policy_digest : option string) (t : DebtTables) : result (list DebtClaimState) :=
  do! family_clocks policy_digest None t ;;
  let! policy_digest := optional_digest policy_digest in
  mapM (claim_state t) (claim_rows policy_digest t).

Definition claim_states (policy_digest : option string) (t : DebtTables) : result (list DebtClaimState) :=
  do! reward_events t ;;
  _claim_states policy_digest t.
End store.

#[global] Arguments FiniteDebtPolicyActivation_digest : simpl never.
#[global] Arguments FiniteDebtRewardEpoch_digest : simpl never.
#[global] Arguments reward_family_id : simpl never.
#[global] Arguments _event_digest : simpl never.
#[global] Arguments reward_events : simpl never.
#[global] Arguments _append_event : simpl never.
#[global] Arguments _activation_from_row : simpl never.
#[global] Arguments policy_activations : simpl never.
#[global] Arguments active_policy_activation : simpl never.
#[global] Arguments _activation_by_policy : simpl never.
#[global] Arguments _retained_crown_authority : simpl never.
#[global] Arguments _balance_from_row : simpl never.
#[global] Arguments _claim_from_row : simpl never.
#[global] Arguments _no_issue_authority : simpl never.
#[global] Arguments _validate_family_invalidation : simpl never.
#[global] Arguments claim_row_differs : simpl never.
#[global] Arguments claim_authority_differs : simpl never.
#[global] Arguments claim_payload_differs : simpl never.
#[global] Arguments audited_clocks : simpl never.
#[global] Arguments family_clocks : simpl never.
#[global] Arguments check_revision : simpl never.
#[global] Arguments claim_state : simpl never.
#[global] Arguments _claim_states : simpl never.
