(* ===== verification/DebtLedger.v ===== *)
(** * The durable finite-debt ledger: the operations

    The methods of [FiniteDebtStore] that write: [activate_policy],
    [issue_crown_in_transaction], [reconcile_lifecycle], [invalidate_family] and
    [close_confirmed_epoch], with the epoch readers.  Each audits the store first
    and then appends rows; an insert that breaks a [UNIQUE] constraint raises. *)

From Stdlib Require Import ZArith Lia Ascii.
From stdpp Require Import base tactics numbers list strings gmap sorting.
From S2P Require Import Prelude PyValue Sha256 Identity Strict Provider FiniteDebt Composition Stack Release StackPlan Settlement.
From S2P Require Import SettlementPlan Publication Journal IntakeData Intake DebtPublication DebtStoreData DebtStore.

(** ** Inserts *)

Definition insert_clock (c : FiniteDebtFamilyClock) (t : DebtTables) : result DebtTables :=
  do! bound_int (fc_accepted_crown_block c) ;;
  do! bound_int (fc_event_index c) ;;
  do! bound_int (fc_event_subindex c) ;;
  do! raise_if (bool_decide (clock_key c ∈ clock_key <$> dt_clocks t)) integrity ;;
  Ok (add_clock c t).

Definition insert_claim (row : ClaimRow) (t : DebtTables) : result DebtTables :=
  do! bound_int (cr_accepted_crown_block row) ;;
  do! bound_int (cr_event_index row) ;;
  do! bound_int (cr_event_subindex row) ;;
  do! bound_int (cr_settlement_block row) ;;
  do! bound_int (cr_principal_units row) ;;
  do! raise_if (bool_decide (cr_claim_digest row ∈ cr_claim_digest <$> dt_claims t)
                || bool_decide (cr_candidate_digest row ∈ cr_candidate_digest <$> dt_claims t)
                || bool_decide (cr_settlement_event_digest row ∈ cr_settlement_event_digest <$> dt_claims t)
                || bool_decide (cr_issuance_reward_event_digest row ∈ cr_issuance_reward_event_digest <$> dt_claims t)) integrity ;;
  Ok (add_claim row t).

Definition insert_activation (row : ActivationRow) (t : DebtTables) : result DebtTables :=
  do! bound_int (ar_activation_block row) ;;
  do! raise_if (bool_decide (ar_activation_digest row ∈ ar_activation_digest <$> dt_activations t)
                || bool_decide (ar_policy_digest row ∈ ar_policy_digest <$> dt_activations t)
                || bool_decide (ar_reward_event_digest row ∈ ar_reward_event_digest <$> dt_activations t)) integrity ;;
  Ok (add_activation row t).

Definition insert_epoch (row : EpochRow) (t : DebtTables) : result DebtTables :=
  let index r := (eo_policy_digest r, eo_epoch_index r) in
  let boundary r := (eo_policy_digest r, eo_effective_block r) in
  do! bound_int (eo_epoch_index row) ;;
  do! bound_int (eo_start_block row) ;;
  do! bound_int (eo_effective_block row) ;;
  do! bound_int (eo_payout_units row) ;;
  do! bound_int (eo_reserve_units row) ;;
  do! raise_if (bool_decide (eo_epoch_digest row ∈ eo_epoch_digest <$> dt_epochs t)
                || bool_decide (eo_projection_digest row ∈ eo_projection_digest <$> dt_epochs t)
                || bool_decide (eo_publication_record_digest row ∈ eo_publication_record_digest <$> dt_epochs t)
                || bool_decide (eo_payout_event_digest row ∈ eo_payout_event_digest <$> dt_epochs t)
                || bool_decide (index row ∈ index <$> dt_epochs t)
                || bool_decide (boundary row ∈ boundary <$> dt_epochs t)
                || negb (eo_payout_units row + eo_reserve_units row =? 1000000)) integrity ;;
  Ok (add_epoch row t).

Definition insert_allocation (row : AllocationRow) (t : DebtTables) : result DebtTables :=
  let key r := (al_epoch_digest r, al_claim_digest r) in
  do! bound_int (al_units row) ;;
  do! raise_if (bool_decide (key row ∈ key <$> dt_allocations t)) integrity ;;
  Ok (add_allocation row t).

(** [for row in rows: insert(row)] *)
Fixpoint insert_all {A} (insert : A → DebtTables → result DebtTables) (rows : list A) (t : DebtTables) : result DebtTables :=
  match rows with
  | [] => Ok t
  | row :: rows => let! t := insert row t in insert_all insert rows t
  end.

Section ledger.
Context {sha : Sha256} (scope_digest : string) (env : LedgerEnv).

Definition balance_row (b : DebtClaimBalance) (revision : Z) (event_digest : string) : BalanceRow :=
  {| br_claim_digest := db_claim_digest b; br_revision := revision; br_balance_digest := DebtClaimBalance_digest b;
     br_principal_units := db_principal_units b; br_paid_units := db_paid_units b; br_forfeited_units := db_forfeited_units b;
     br_remaining_units := db_remaining_units b; br_status := db_status b; br_terminal_block := db_terminal_block b;
     br_terminal_reason := db_terminal_reason b; br_balance_json := Dumped (DebtClaimBalance_to_dict b);
     br_reward_event_digest := event_digest |}.

Definition _insert_balance (b : DebtClaimBalance) (revision : Z) (reward_event_digest : string) (t : DebtTables) : result DebtTables :=
  let key r := (br_claim_digest r, br_revision r) in
  let! event_digest := FS._digest false (PStr reward_event_digest) in
  let row := balance_row b revision event_digest in
  do! bound_int revision ;;
  do! bound_int (db_principal_units b) ;;
  do! bound_int (db_paid_units b) ;;
  do! bound_int (db_forfeited_units b) ;;
  do! bound_int (db_remaining_units b) ;;
  do! match db_terminal_block b with None => Ok tt | Some z => bound_int z end ;;
  do! raise_if (bool_decide (key row ∈ key <$> dt_balances t)
                || bool_decide (br_balance_digest row ∈ br_balance_digest <$> dt_balances t)) integrity ;;
  Ok (add_balance row t).

(** [SELECT MAX(revision) ... + 1]: a claim without balances has no maximum. *)
Definition next_revision (t : DebtTables) (claim_digest : string) : result Z :=
  match column_max (br_revision <$> List.filter (λ b, bool_decide (br_claim_digest b = claim_digest)) (dt_balances t)) with
  | None => Raise (Exn TypeError "unsupported operand type(s) for +")
  | Some m => Ok (m + 1)
  end.

(** The next revision of a claim's balance. *)
Definition revise_balance (event_digest claim_digest : string) (b : DebtClaimBalance) (t : DebtTables) : result DebtTables :=
  let! revision := next_revision t claim_digest in
  _insert_balance b revision event_digest t.

(** ** Activation *)

Definition activation_row (a : FiniteDebtPolicyActivation) (digest policy_digest event_digest : string) : ActivationRow :=
  {| ar_activation_digest := digest; ar_chain_scope_digest := scope_digest; ar_policy_digest := policy_digest;
     ar_policy_json := Dumped (FiniteDebtPolicyManifest_to_dict (pa_policy a)); ar_activation_block := pa_activation_block a;
     ar_activation_block_hash := pa_activation_block_hash a; ar_previous_policy_digest := pa_previous_policy_digest a;
     ar_seeded_clocks_json := Dumped (seeds_dict (pa_seeded_family_clocks a));
     ar_activation_json := Dumped (FiniteDebtPolicyActivation_to_dict a); ar_reward_event_digest := event_digest |}.

(** [==] on policies: they serialise their fields, and a schema version that is the
    float [2.0] equals [2]. *)
Definition policy_eqb (a b : FiniteDebtPolicyManifest) : bool :=
  py_eq (FiniteDebtPolicyManifest_to_dict a) (FiniteDebtPolicyManifest_to_dict b).

(** [capability] says whether the caller holds the private one of the composition
    store. *)
Definition activate_policy (capability : bool) (policy : FiniteDebtPolicyManifest) (activation_block : Z) (activation_block_hash : string)
    (seeded_family_clocks : list SeededFamilyClock) (t : DebtTables) : result (DebtTables * FiniteDebtPolicyActivation) :=
  do! raise_if (negb capability) (FS.error "standalone finite-debt activation is disabled; use the atomic selected incentive cutover") ;;
  do! raise_if (negb (bool_decide (fp_improvement_basis policy = IMPROVEMENT_GROSS)))
        (FS.error "durable finite debt requires gross improvement") ;;
  let! height := FS._integer 0 (PInt activation_block) in
  let! authority_hash := FS._block_hash (PStr activation_block_hash) in
  let seeds := sorted_by sf_family_id seeded_family_clocks in
  do! _require_finalized_authority env height authority_hash ;;
  match List.find (λ row, (ar_activation_block row =? height) && bool_decide (ar_activation_block_hash row = authority_hash))
          (dt_activations t) with
  | Some exact =>
      let! existing := _activation_from_row scope_digest t exact in
      if policy_eqb (pa_policy existing) policy && bool_decide (pa_seeded_family_clocks existing = seeds) then Ok (t, existing)
      else Raise (FS.error "activation block already binds another policy")
  | None =>
      let! composed := composition_active_at env (PInt height) in
      do! raise_if composed (FS.error "core policy upgrades are disabled after incentive composition activation") ;;
      let! activations := policy_activations scope_digest t in
      let prior := last activations in
      do! match prior with
          | None => Ok tt
          | Some prior =>
              do! raise_if (height <=? pa_activation_block prior) (FS.error "policy activation block did not advance") ;;
              let! states := _claim_states scope_digest env None t in
              raise_if (existsb is_open states) (FS.error "cannot upgrade policy with open debt")
          end ;;
      let! policy_digest := FiniteDebtPolicyManifest_digest policy in
      do! raise_if (match find_policy t policy_digest with Some _ => true | None => false end)
            (FS.error "finite-debt policy was already activated") ;;
      let! previous := match prior with None => Ok "" | Some prior => FiniteDebtPolicyManifest_digest (pa_policy prior) end in
      let! activation := FiniteDebtPolicyActivation_init (PStr scope_digest) policy (PInt height) (PStr authority_hash) (PStr previous) seeds in
      let! digest := FiniteDebtPolicyActivation_digest activation in
      let! appended := _append_event scope_digest "policy_activated" height authority_hash (activation_payload activation digest) t in
      let '(t, event_digest) := appended in
      let! t := insert_activation (activation_row activation digest policy_digest event_digest) t in
      let! t := insert_all insert_clock (seed_clock policy_digest event_digest <$> seeds) t in
      Ok (t, activation)
  end.

(** ** Crowns *)

(** The arguments of [issue_crown_in_transaction]. *)
Record Crown := {
  kn_arena_digest : string;
  kn_target_id : string;
  kn_target_spec_digest : string;
  kn_candidate_digest : string;
  kn_retained_evidence_digest : string;
  kn_hotkey : string;
  kn_settled_speedup : string;
  kn_accepted_crown_block : Z;
  kn_accepted_crown_block_hash : string;
  kn_event_index : Z;
  kn_event_subindex : Z;
  kn_reservation_digest : string;
  kn_settlement_block : Z;
  kn_settlement_block_hash : option string;
  kn_settlement_event_digest : string
}.

Definition kn_order (k : Crown) : finalized_key :=
  (kn_accepted_crown_block k, kn_event_index k, kn_event_subindex k, kn_reservation_digest k).

Definition kn_clock (k : Crown) (policy_digest family source claim event_digest : string) : FiniteDebtFamilyClock :=
  family_clock policy_digest family (kn_accepted_crown_block k) (kn_accepted_crown_block_hash k) (kn_event_index k)
    (kn_event_subindex k) (kn_reservation_digest k) source claim event_digest.

Definition check_crown (k : Crown) : result unit :=
  do! FS._integer 0 (PInt (kn_accepted_crown_block k)) ;;
  do! FS._block_hash (PStr (kn_accepted_crown_block_hash k)) ;;
  do! FS._integer 0 (PInt (kn_event_index k)) ;;
  do! FS._integer 0 (PInt (kn_event_subindex k)) ;;
  do! FS._digest false (PStr (kn_reservation_digest k)) ;;
  do! FS._digest false (PStr (kn_candidate_digest k)) ;;
  do! FS._digest false (PStr (kn_retained_evidence_digest k)) ;;
  do! FS._digest false (PStr (kn_settlement_event_digest k)) ;;
  do! FS._hotkey (PStr (kn_hotkey k)) ;;
  Ok tt.

(** The [claim_not_issued] event of a crown. *)
Definition append_no_issue (k : Crown) (settlement_hash activation_digest family reason : string) (t : DebtTables)
    : result (DebtTables * string) :=
  _append_event scope_digest "claim_not_issued" (kn_settlement_block k) settlement_hash
    (no_issue_payload (kn_accepted_crown_block k) (kn_accepted_crown_block_hash k) activation_digest (kn_candidate_digest k)
       (kn_event_index k) (kn_event_subindex k) family (kn_hotkey k) (PStr reason) (kn_reservation_digest k)
       (kn_retained_evidence_digest k) (kn_settlement_event_digest k)) t.

Definition claim_event_payload (k : Crown) (activation_digest : string) (claim : InnovationDebtClaim)
    (prior : option FiniteDebtFamilyClock) : pyval :=
  py_dict [
    ("accepted_crown_block_hash", PStr (kn_accepted_crown_block_hash k));
    ("activation_digest", PStr activation_digest);
    ("claim", InnovationDebtClaim_to_dict claim);
    ("claim_digest", PStr (InnovationDebtClaim_digest claim));
    ("event_index", PInt (kn_event_index k));
    ("event_subindex", PInt (kn_event_subindex k));
    ("prior_family_clock", _claim_prior_clock_identity prior);
    ("reservation_digest", PStr (kn_reservation_digest k));
    ("settlement_event_digest", PStr (kn_settlement_event_digest k))].

Definition claim_row (k : Crown) (settlement_hash : string) (claim : InnovationDebtClaim) (event_digest : string) : ClaimRow :=
  {| cr_claim_digest := InnovationDebtClaim_digest claim; cr_policy_digest := ic_policy_digest claim;
     cr_family_id := ic_family_id claim; cr_candidate_digest := ic_candidate_digest claim;
     cr_retained_evidence_digest := ic_retained_evidence_digest claim; cr_hotkey := ic_hotkey claim;
     cr_accepted_crown_block := kn_accepted_crown_block k; cr_accepted_crown_block_hash := kn_accepted_crown_block_hash k;
     cr_event_index := kn_event_index k; cr_event_subindex := kn_event_subindex k; cr_reservation_digest := kn_reservation_digest k;
     cr_settlement_block := kn_settlement_block k; cr_settlement_block_hash := settlement_hash;
     cr_settlement_event_digest := kn_settlement_event_digest k; cr_principal_units := ic_principal_units claim;
     cr_claim_json := Dumped (InnovationDebtClaim_to_dict claim); cr_issuance_reward_event_digest := event_digest |}.

(** The rows of an issued claim: its event, itself, its open balance and, when it
    restarts the family's clock, the clock. *)
Definition record_claim (k : Crown) (settlement_hash activation_digest : string) (claim : InnovationDebtClaim)
    (prior : option FiniteDebtFamilyClock) (t : DebtTables) : result DebtTables :=
  let! appended := _append_event scope_digest "claim_issued" (kn_settlement_block k) settlement_hash
                     (claim_event_payload k activation_digest claim prior) t in
  let '(t, event_digest) := appended in
  let! t := insert_claim (claim_row k settlement_hash claim event_digest) t in
  let! opened := DebtClaimBalance_open claim in
  let! t := _insert_balance opened 0 event_digest t in
  if ic_resets_clock claim then
    insert_clock (kn_clock k (ic_policy_digest claim) (ic_family_id claim) "crown" (InnovationDebtClaim_digest claim) event_digest) t
  else Ok t.

(** The event of a crown whose debt rounds to zero, and the clock it may restart. *)
Definition record_rounded (k : Crown) (settlement_hash activation_digest family : string) (policy : FiniteDebtPolicyManifest)
    (principal : bool) (t : DebtTables) : result DebtTables :=
  let reason := if principal then "principal_rounds_to_zero" else "improvement_rounds_to_zero" in
  let! appended := append_no_issue k settlement_hash activation_digest family reason t in
  let '(t, event_digest) := appended in
  if principal then
    let! units := log_improvement_units_ppm (PStr (kn_settled_speedup k)) (fp_improvement_basis policy) (PStr "1") in
    let! resets := resets_family_clock policy (PInt units) in
    if resets then
      let! policy_digest := FiniteDebtPolicyManifest_digest policy in
      insert_clock (kn_clock k policy_digest family "crown_no_debt" "" event_digest) t
    else Ok t
  else Ok t.

Definition issue_crown_in_transaction (k : Crown) (t : DebtTables) : result (DebtTables * option InnovationDebtClaim) :=
  let! active := active_policy_activation scope_digest t (PInt (kn_settlement_block k)) in
  match active with
  | None => Ok (t, None)
  | Some activation =>
      let! settlement_hash := match kn_settlement_block_hash k with
                              | None => Raise (FS.error "active finite-debt policy requires settlement block hash authority")
                              | Some h => FS._block_hash (PStr h)
                              end in
      do! _require_finalized_authority env (kn_settlement_block k) settlement_hash ;;
      do! check_crown k ;;
      let! family := reward_family_id (kn_arena_digest k) (kn_target_id k) (kn_target_spec_digest k) in
      let! activation_digest := FiniteDebtPolicyActivation_digest activation in
      if kn_accepted_crown_block k <? pa_activation_block activation then
        let! appended := append_no_issue k settlement_hash activation_digest family "accepted_before_policy_activation" t in
        Ok (appended.1, None)
      else
        let policy := pa_policy activation in
        do! raise_if (bool_decide (kn_hotkey k = fp_reserve_hotkey policy)) (FS.error "reserve hotkey cannot receive finite debt") ;;
        let! policy_digest := FiniteDebtPolicyManifest_digest policy in
        let! prior := _latest_clock scope_digest env policy_digest family t in
        if match prior with Some p => order_leb (kn_order k) (fc_finalized_order p) | None => false end then
          if match prior with Some p => bool_decide (fc_source p = "invalidation") | None => false end then
            let! appended := append_no_issue k settlement_hash activation_digest family "accepted_before_family_invalidation" t in
            Ok (appended.1, None)
          else Raise (FS.error "accepted family crown order did not advance")
        else
          match issue_innovation_claim policy (PStr family) (PStr (kn_candidate_digest k)) (PStr (kn_retained_evidence_digest k))
                  (PStr (kn_hotkey k)) (PStr (kn_settled_speedup k)) (PStr "1") (PInt (kn_accepted_crown_block k))
                  (py_opt_int (prior_block prior)) (PInt (kn_settlement_block k)) with
          | Raise (Exn FiniteDebtError m) =>
              if bool_decide (m ∈ ["improvement rounds to zero 1%-log-unit ppm"; "claim principal rounds to zero"]) then
                let! t := record_rounded k settlement_hash activation_digest family policy
                            (bool_decide (m = "claim principal rounds to zero")) t in
                Ok (t, None)
              else Raise (FS.error "finite-debt claim cannot issue")
          | Raise e => Raise e
          | Ok claim =>
              let! t := record_claim k settlement_hash activation_digest claim prior t in
              Ok (t, Some claim)
          end
  end.

(** ** Lifecycle *)

Definition _eligible_hotkeys (values : list pyval) : result (gset string) :=
  let! rows := mapM FS._hotkey values in
  Ok (list_to_set rows).

(** What becomes of an open state at a block: nothing, or the type of the event and
    the balance after it. *)
Definition lifecycle_step (height : Z) (eligible : gset string) (s : DebtClaimState) : result (option (string * DebtClaimBalance)) :=
  let keep updated event_type := if bool_decide (updated = ds_balance s) then None else Some (event_type, updated) in
  if negb (is_open s) then Ok None
  else if ic_expires_block (ds_claim s) <=? height then
    let! updated := expire_claim_balance (ds_claim s) (ds_balance s) (PInt height) in
    Ok (keep updated "claim_expired")
  else if negb (bool_decide (ic_hotkey (ds_claim s) ∈ eligible)) then
    let! updated := catching [FiniteDebtError] (FS.error "finite-debt departure cannot reconcile")
                      (cancel_claim_balance (ds_claim s) (ds_balance s) (PInt height) (PStr "hotkey_departed")) in
    Ok (keep updated "claim_cancelled")
  else Ok None.

Definition record_lifecycle (height : Z) (authority_hash event_type : string) (s : DebtClaimState) (updated : DebtClaimBalance)
    (t : DebtTables) : result DebtTables :=
  let digest := InnovationDebtClaim_digest (ds_claim s) in
  let! appended := _append_event scope_digest event_type height authority_hash
                     (lifecycle_payload updated (DebtClaimBalance_digest (ds_balance s)) digest) t in
  revise_balance appended.2 digest updated appended.1.

Fixpoint reconcile_states (height : Z) (authority_hash : string) (eligible : gset string) (states : list DebtClaimState) (t : DebtTables)
    : result (DebtTables * list DebtClaimState) :=
  match states with
  | [] => Ok (t, [])
  | s :: states =>
      let! step := lifecycle_step height eligible s in
      match step with
      | None => reconcile_states height authority_hash eligible states t
      | Some (event_type, updated) =>
          let! t := record_lifecycle height authority_hash event_type s updated t in
          let! changed := DebtClaimState_init (ds_claim s) updated in
          let! rest := reconcile_states height authority_hash eligible states t in
          Ok (rest.1, changed :: rest.2)
      end
  end.

Definition reconcile_lifecycle (current_block : Z) (current_block_hash : string) (eligible_hotkeys : list pyval) (t : DebtTables)
    : result (DebtTables * list DebtClaimState) :=
  let! height := FS._integer 0 (PInt current_block) in
  let! authority_hash := FS._block_hash (PStr current_block_hash) in
  let! eligible := _eligible_hotkeys eligible_hotkeys in
  do! _require_finalized_authority env height authority_hash ;;
  let! states := _claim_states scope_digest env None t in
  reconcile_states height authority_hash eligible states t.

(** ** Invalidation *)

Definition in_family (family : string) (s : DebtClaimState) : bool := bool_decide (ic_family_id (ds_claim s) = family).

(** One open claim of the family, cancelled; with the balance before. *)
Definition cancel_state (height : Z) (s : DebtClaimState) : result (DebtClaimState * DebtClaimState) :=
  let! updated := catching [FiniteDebtError] (FS.error "family invalidation cannot cancel debt")
                    (cancel_claim_balance (ds_claim s) (ds_balance s) (PInt height) (PStr "runtime_invalidation")) in
  let! changed := DebtClaimState_init (ds_claim s) updated in
  Ok (s, changed).

Definition state_transition (p : DebtClaimState * DebtClaimState) : pyval :=
  transition_dict (DebtClaimBalance_digest (ds_balance p.2)) (DebtClaimBalance_digest (ds_balance p.1)) (claim_key p.2).

(** A state a retry of the invalidation reports. *)
Definition invalidated_at (height : Z) (family : string) (s : DebtClaimState) : bool :=
  in_family family s && bool_decide (db_status (ds_balance s) = "cancelled")
  && bool_decide (db_terminal_block (ds_balance s) = Some height)
  && bool_decide (db_terminal_reason (ds_balance s) = "runtime_invalidation").

Definition is_invalidation (policy_id family : string) (c : FiniteDebtFamilyClock) : bool :=
  bool_decide (fc_policy_digest c = policy_id) && bool_decide (fc_family_id c = family) && bool_decide (fc_source c = "invalidation").

Definition invalidate_family (policy_digest family_id invalidation_digest : string) (current_block : Z) (current_block_hash : string)
    (t : DebtTables) : result (DebtTables * list DebtClaimState) :=
  let! policy_id := FS._digest false (PStr policy_digest) in
  let! family := FS._digest false (PStr family_id) in
  let! invalidation := FS._digest false (PStr invalidation_digest) in
  let! height := FS._integer 0 (PInt current_block) in
  let! authority_hash := FS._block_hash (PStr current_block_hash) in
  match List.find (λ c, is_invalidation policy_id family c && bool_decide (fc_reservation_digest c = invalidation)) (dt_clocks t) with
  | Some exact =>
      let! clock := FiniteDebtFamilyClock_check exact in
      do! raise_if (negb (fc_accepted_crown_block clock =? height) || negb (bool_decide (fc_accepted_crown_block_hash clock = authority_hash)))
            (FS.error "family invalidation retry differs from retained authority") ;;
      do! family_clocks scope_digest env (Some policy_id) (Some family) t ;;
      let! states := _claim_states scope_digest env (Some policy_id) t in
      Ok (t, List.filter (invalidated_at height family) states)
  | None =>
      do! _require_finalized_authority env height authority_hash ;;
      let! active := active_policy_activation scope_digest t (PInt height) in
      let differs := FS.error "family invalidation policy is not the active finalized policy" in
      match active with
      | None => Raise differs
      | Some activation =>
          let! active_policy := FiniteDebtPolicyManifest_digest (pa_policy activation) in
          do! raise_if (negb (bool_decide (active_policy = policy_id))) differs ;;
          do! catching [FiniteDebtError] (FS.error "family invalidation is outside the policy")
                (campaign_for_family (pa_policy activation) (PStr family)) ;;
          do! raise_if (existsb (λ c, is_invalidation policy_id family c && (fc_accepted_crown_block c =? height)) (dt_clocks t))
                (FS.error "family already has a different invalidation at this block") ;;
          let! prior := _latest_clock scope_digest env policy_id family t in
          do! raise_if (match prior with Some p => height <=? fc_accepted_crown_block p | None => false end)
                (FS.error "family invalidation must follow its latest clock block") ;;
          let! states := _claim_states scope_digest env (Some policy_id) t in
          let! changed := mapM (cancel_state height) (List.filter (λ s, in_family family s && is_open s) states) in
          let! activation_digest := FiniteDebtPolicyActivation_digest activation in
          let! appended := _append_event scope_digest "family_invalidated" height authority_hash
            (invalidation_payload activation_digest (state_transition <$> sorted_by (λ p, claim_key p.2) changed)
               family invalidation policy_id prior) t in
          let '(t, event_digest) := appended in
          let! t := insert_clock (invalidation_marker policy_id family height authority_hash invalidation event_digest) t in
          let! t := insert_all (λ p, revise_balance event_digest (claim_key p.2) (ds_balance p.2)) changed t in
          Ok (t, snd <$> changed)
      end
  end.

(** ** Epochs *)

Definition _epoch_coordinates (activation : FiniteDebtPolicyActivation) (effective_block : Z) : result (Z * Z) :=
  let! block := FS._integer 0 (PInt effective_block) in
  let epoch_blocks := fp_epoch_blocks (pa_policy activation) in
  let elapsed := block - pa_activation_block activation in
  do! raise_if ((elapsed <=? 0) || negb (elapsed mod epoch_blocks =? 0))
        (FS.error "finite-debt epoch is not an exact activated-policy cadence boundary") ;;
  Ok (elapsed / epoch_blocks, block - epoch_blocks).

(** The states an epoch was projected from, by claim, with their revisions. *)
Fixpoint collect_revisions (inputs : gset string) (claim : InnovationDebtClaim) (rows : list BalanceRow)
    (found : list (string * (DebtClaimState * Z))) : result (list (string * (DebtClaimState * Z))) :=
  match rows with
  | [] => Ok found
  | row :: rows =>
      let! balance := _balance_from_row row in
      let! state := DebtClaimState_init claim balance in
      let digest := DebtClaimState_digest state in
      if negb (bool_decide (digest ∈ inputs)) then collect_revisions inputs claim rows found
      else
        do! raise_if (existsb (λ f, bool_decide (DebtClaimState_digest f.2.1 = digest)) found
                      || bool_decide (InnovationDebtClaim_digest claim ∈ found.*1)) (FS.error "finite-debt epoch input state is ambiguous") ;;
        collect_revisions inputs claim rows (found ++ [(InnovationDebtClaim_digest claim, (state, br_revision row))])
  end.

Fixpoint collect_inputs (t : DebtTables) (inputs : gset string) (rows : list ClaimRow) (found : list (string * (DebtClaimState * Z)))
    : result (list (string * (DebtClaimState * Z))) :=
  match rows with
  | [] => Ok found
  | row :: rows =>
      let! claim := _claim_from_row scope_digest env t row in
      let! found := collect_revisions inputs claim (balances_of t (InnovationDebtClaim_digest claim)) found in
      collect_inputs t inputs rows found
  end.

(** The pairs of a claim's state before and after, for the claims that changed, in
    the order of their digests; applying a projection keeps every claim. *)
Fixpoint changed_pairs (before after : list DebtClaimState) : list (DebtClaimState * DebtClaimState) :=
  match before with
  | [] => []
  | b :: before =>
      match List.find (λ a, bool_decide (claim_key a = claim_key b)) after with
      | Some a => if bool_decide (ds_balance b = ds_balance a) then changed_pairs before after else (b, a) :: changed_pairs before after
      | None => changed_pairs before after
      end
  end.

Definition epoch_payload (activation_digest : string) (transitions : list pyval) (epoch_index : Z) (projection_digest publication : string)
    : pyval :=
  py_dict [
    ("activation_digest", PStr activation_digest);
    ("balance_transitions", PList transitions);
    ("epoch_index", PInt epoch_index);
    ("projection_digest", PStr projection_digest);
    ("publication_record_digest", PStr publication)].

(** One revision that the payout wrote. *)
Definition check_paid_row (t : DebtTables) (policy_digest : string) (found : list (string * (DebtClaimState * Z)))
    (entry : BalanceRow * (DebtClaimState * DebtClaimState)) : result unit :=
  let '(row, (before, after)) := entry in
  let differs := FS.error "finite-debt epoch balance revision differs" in
  match assoc found (claim_key before), find_claim t (br_claim_digest row) with
  | Some prior, Some claim =>
      do! raise_if (negb (bool_decide (br_claim_digest row = claim_key before))
                    || negb (bool_decide (cr_policy_digest claim = policy_digest))
                    || negb (br_revision row =? prior.2 + 1)) differs ;;
      let! balance := _balance_from_row row in
      raise_if (negb (bool_decide (balance = ds_balance after))) differs
  | _, _ => Raise differs
  end.

(** The columns of an epoch's row; the digests of its record may raise. *)
Definition epoch_row_differs (row : EpochRow) (epoch : FiniteDebtRewardEpoch) (digest projection_digest : string) : bool :=
  let p := ro_projection epoch in
  negb (bool_decide (digest = eo_epoch_digest row))
  || negb (bool_decide (ro_chain_scope_digest epoch = scope_digest))
  || negb (bool_decide (ro_activation_digest epoch = eo_activation_digest row))
  || negb (bool_decide (ro_policy_digest epoch = eo_policy_digest row))
  || negb (ro_epoch_index epoch =? eo_epoch_index row)
  || negb (ro_start_block epoch =? eo_start_block row)
  || negb (ro_effective_block epoch =? eo_effective_block row)
  || negb (bool_decide (ro_effective_block_hash epoch = eo_effective_block_hash row))
  || negb (bool_decide (projection_digest = eo_projection_digest row))
  || negb (text_is (eo_projection_json row) (DebtEpochProjection_to_dict p))
  || negb (bool_decide (ro_publication_record_digest epoch = eo_publication_record_digest row))
  || negb (bool_decide (ro_payout_event_digest epoch = eo_payout_event_digest row))
  || negb (dp_payout_units p =? eo_payout_units row)
  || negb (dp_reserve_units p =? eo_reserve_units row)
  || negb (text_is (eo_epoch_json row) (FiniteDebtRewardEpoch_to_dict epoch)).

(** [WHERE epoch_digest=? ORDER BY claim_digest] *)
Definition allocations_of (t : DebtTables) (epoch_digest : string) : list (string * string * Z) :=
  (λ a, (al_claim_digest a, al_hotkey a, al_units a))
    <$> sorted_by al_claim_digest (List.filter (λ a, bool_decide (al_epoch_digest a = epoch_digest)) (dt_allocations t)).

Definition epoch_payment (epoch : FiniteDebtRewardEpoch) (t : DebtTables) : result pyval :=
  match find_event t (ro_payout_event_digest epoch) with
  | None => Raise (FS.error "finite-debt epoch payout event differs")
  | Some event =>
      do! raise_if (negb (bool_decide (er_event_type event = "epoch_paid")) || negb (er_block event =? ro_effective_block epoch)
                    || negb (bool_decide (er_block_hash event = ro_effective_block_hash epoch)))
            (FS.error "finite-debt epoch payout event differs") ;;
      match loads (er_payload_json event) with
      | None => Raise (FS.error "finite-debt epoch payout event is corrupt")
      | Some v => Ok v
      end
  end.

(** The pairs of states an epoch's payout moved between, with the rows it wrote. *)
Definition epoch_replay (epoch : FiniteDebtRewardEpoch) (t : DebtTables) : result (list (DebtClaimState * DebtClaimState)) :=
  let inputs : gset string := list_to_set (dp_input_state_digests (ro_projection epoch)) in
  let! found := collect_inputs t inputs (claim_rows (Some (ro_policy_digest epoch)) t) [] in
  do! raise_if (negb (bool_decide ((list_to_set ((λ f, DebtClaimState_digest f.2.1) <$> found) : gset string) = inputs)))
        (FS.error "finite-debt epoch input states cannot be reopened") ;;
  let! replayed := catching [FiniteDebtError] (FS.error "finite-debt epoch transition cannot replay")
                     (apply_debt_epoch_projection ((λ f, f.2.1) <$> found) (ro_projection epoch)) in
  let pairs := changed_pairs (sorted_by claim_key ((λ f, f.2.1) <$> found)) replayed in
  let rows := List.filter (λ b, match find_claim t (br_claim_digest b) with Some _ => true | None => false end)
                (balances_by_event t (ro_payout_event_digest epoch)) in
  do! raise_if (negb (bool_decide (length rows = length pairs))) (FS.error "finite-debt epoch balance revision set differs") ;;
  do! forM_ (zip rows pairs) (check_paid_row t (ro_policy_digest epoch) found) ;;
  Ok pairs.

Definition _epoch_from_row (t : DebtTables) (row : EpochRow) : result FiniteDebtRewardEpoch :=
  let! epoch := reopen_text [] (FS.error "finite-debt reward epoch is corrupt") FiniteDebtRewardEpoch_from_dict (eo_epoch_json row) in
  let! digest := FiniteDebtRewardEpoch_digest epoch in
  let! projection_digest := DebtEpochProjection_digest (ro_projection epoch) in
  do! raise_if (epoch_row_differs row epoch digest projection_digest) (FS.error "finite-debt reward epoch differs from retained bytes") ;;
  do! raise_if (negb (bool_decide (allocations_of t digest
                  = (λ a, (da_claim_digest a, da_hotkey a, da_units a)) <$> dp_allocations (ro_projection epoch))))
        (FS.error "finite-debt epoch allocations differ") ;;
  let! payload := epoch_payment epoch t in
  let! pairs := epoch_replay epoch t in
  do! raise_if (negb (is_dict payload)
                || negb (py_eq payload (epoch_payload (ro_activation_digest epoch) (state_transition <$> pairs) (ro_epoch_index epoch)
                                          projection_digest (ro_publication_record_digest epoch))))
        (FS.error "finite-debt epoch payout payload differs") ;;
  let! activation := _activation_by_policy scope_digest t (ro_policy_digest epoch) in
  let! coordinates := _epoch_coordinates activation (ro_effective_block epoch) in
  let! activation_digest := FiniteDebtPolicyActivation_digest activation in
  do! raise_if (negb (bool_decide (activation_digest = ro_activation_digest epoch))
                || negb (coordinates.1 =? ro_epoch_index epoch) || negb (coordinates.2 =? ro_start_block epoch))
        (FS.error "finite-debt reward epoch cadence differs") ;;
  Ok epoch.

(** [ORDER BY effective_block,epoch_digest] *)
Definition reward_epochs (t : DebtTables) : result (list FiniteDebtRewardEpoch) :=
  do! reward_events scope_digest t ;;
  mapM (_epoch_from_row t) (stable_sort (num_text_le eo_effective_block eo_epoch_digest) (dt_epochs t)).

Definition _require_projection_eligibility (p : DebtEpochProjection) (eligible : gset string) : result unit :=
  do! raise_if (negb (bool_decide (dp_reserve_hotkey p ∈ eligible))) (FS.error "finite-debt reserve hotkey is absent from eligibility authority") ;;
  raise_if (existsb (λ w, (0 <? hw_units w) && negb (bool_decide (hw_hotkey w ∈ eligible))) (dp_weights p))
    (FS.error "finite-debt projection contains an ineligible positive miner").

(** [WHERE policy_digest=? AND effective_block=?] *)
Definition find_epoch (t : DebtTables) (policy_digest : string) (block : Z) : option EpochRow :=
  List.find (λ e, bool_decide (eo_policy_digest e = policy_digest) && (eo_effective_block e =? block)) (dt_epochs t).

Definition _project_epoch (effective_block : Z) (eligible : gset string) (allow_retained : bool) (t : DebtTables)
    : result DebtEpochProjection :=
  let! active := active_policy_activation scope_digest t (PInt effective_block) in
  match active with
  | None => Raise (FS.error "finite-debt policy is not active")
  | Some activation =>
      let! coordinates := _epoch_coordinates activation effective_block in
      let! policy_digest := FiniteDebtPolicyManifest_digest (pa_policy activation) in
      match find_epoch t policy_digest effective_block with
      | Some existing =>
          do! raise_if (negb allow_retained) (FS.error "finite-debt epoch is already closed") ;;
          let! epoch := _epoch_from_row t existing in
          do! _require_projection_eligibility (ro_projection epoch) eligible ;;
          Ok (ro_projection epoch)
      | None =>
          let! composed := composition_active_at env (PInt effective_block) in
          do! raise_if composed (FS.error "core-only projection is disabled after incentive composition activation") ;;
          let latest := column_max (eo_epoch_index <$> List.filter (λ e, bool_decide (eo_policy_digest e = policy_digest)) (dt_epochs t)) in
          do! raise_if (negb (default 0 latest =? coordinates.1 - 1))
                (FS.error "finite-debt epochs must be projected and closed without gaps") ;;
          let! states := _claim_states scope_digest env (Some policy_digest) t in
          let! projection := catching [FiniteDebtError] (FS.error "finite-debt epoch cannot project")
                               (project_debt_epoch (pa_policy activation) (PInt effective_block) states) in
          do! _require_projection_eligibility projection eligible ;;
          Ok projection
      end
  end.

Definition project_epoch (effective_block : Z) (eligible_hotkeys : list pyval) (t : DebtTables) : result DebtEpochProjection :=
  let! eligible := _eligible_hotkeys eligible_hotkeys in
  _project_epoch effective_block eligible true t.

(** ** Closing an epoch *)

(** The publication that a close relies on: the confirmation's record and binding
    are the retained ones and carry the projection. *)
Definition publication_authority (t : PublicationTables) (projection : DebtEpochProjection) (c : ConfirmedDebtWeightPublication)
    : result DebtWeightPublicationBinding :=
  let! authority := catching [DebtPublicationError] (FS.error "finite-debt publication authority failed")
    (do! reopen_debt_journal t ;;
     let! authority := debt_retained_authority t (WeightPublicationRecord_digest (cp_publication_record c)) in
     do! validate_binding c authority.2 ;;
     Ok authority) in
  let binding := authority.2 in
  do! raise_if (negb (bool_decide (authority.1 = cp_publication_record c))
                || negb (bool_decide (bd_publication_kind binding = PUBLICATION_KIND_CORE))
                || negb (bool_decide (wj_chain_scope_digest (bd_weight_projection binding) = scope_digest))
                || negb (py_eq (eco_to_dict (bd_economic_projection binding)) (DebtEpochProjection_to_dict projection)))
        (FS.error "finite-debt publication differs from retained projection authority") ;;
  Ok binding.

(** [ORDER BY effective_block DESC LIMIT 1] below a block *)
Definition prior_epoch_row (t : DebtTables) (policy_digest : string) (height : Z) : option EpochRow :=
  last (order_by eo_effective_block
    (List.filter (λ e, bool_decide (eo_policy_digest e = policy_digest) && (eo_effective_block e <? height)) (dt_epochs t))).

(** The readback is final here and a whole epoch after the one before. *)
Definition check_pace (t : DebtTables) (pt : PublicationTables) (policy_digest : string) (height epoch_blocks : Z)
    (c : ConfirmedDebtWeightPublication) : result unit :=
  let rb := cp_readback c in
  let! cursor := _finalized_cursor env in
  do! raise_if (match cursor with
                | None => true
                | Some (block, hash) => (block <? rb_block rb) || ((block =? rb_block rb) && negb (bool_decide (hash = rb_block_hash rb)))
                end) (FS.error "finite-debt confirmation is newer than retained finalized intake") ;;
  match prior_epoch_row t policy_digest height with
  | None => Ok tt
  | Some row =>
      let! prior := _epoch_from_row t row in
      let! confirmation := catching [DebtPublicationError] (FS.error "prior finite-debt publication cannot reopen")
                             (reopen_confirmed_debt_publication pt (ro_publication_record_digest prior)) in
      raise_if (rb_block rb <? rb_block (cp_readback confirmation) + epoch_blocks)
        (FS.error "finite-debt catch-up would compress live emission epochs")
  end.

Definition epoch_row (e : FiniteDebtRewardEpoch) (digest projection_digest : string) : EpochRow :=
  let p := ro_projection e in
  {| eo_epoch_digest := digest; eo_chain_scope_digest := scope_digest; eo_activation_digest := ro_activation_digest e;
     eo_policy_digest := ro_policy_digest e; eo_epoch_index := ro_epoch_index e; eo_start_block := ro_start_block e;
     eo_effective_block := ro_effective_block e; eo_effective_block_hash := ro_effective_block_hash e;
     eo_projection_digest := projection_digest; eo_projection_json := Dumped (DebtEpochProjection_to_dict p);
     eo_publication_record_digest := ro_publication_record_digest e; eo_payout_event_digest := ro_payout_event_digest e;
     eo_payout_units := dp_payout_units p; eo_reserve_units := dp_reserve_units p;
     eo_epoch_json := Dumped (FiniteDebtRewardEpoch_to_dict e) |}.

Definition allocation_row (digest : string) (a : DebtEpochAllocation) : AllocationRow :=
  {| al_epoch_digest := digest; al_claim_digest := da_claim_digest a; al_hotkey := da_hotkey a; al_units := da_units a |}.

(** The rows of a closed epoch: its event, itself, its allocations and the balances
    it pays. *)
Definition record_epoch (activation : FiniteDebtPolicyActivation) (coordinates : Z * Z) (height : Z) (authority_hash publication : string)
    (projection : DebtEpochProjection) (pairs : list (DebtClaimState * DebtClaimState)) (t : DebtTables)
    : result (DebtTables * FiniteDebtRewardEpoch) :=
  let! activation_digest := FiniteDebtPolicyActivation_digest activation in
  let! policy_digest := FiniteDebtPolicyManifest_digest (pa_policy activation) in
  let! projection_digest := DebtEpochProjection_digest projection in
  let! appended := _append_event scope_digest "epoch_paid" height authority_hash
    (epoch_payload activation_digest (state_transition <$> pairs) coordinates.1 projection_digest publication) t in
  let '(t, event_digest) := appended in
  let! epoch := FiniteDebtRewardEpoch_init (PStr scope_digest) (PStr activation_digest) (PStr policy_digest) (PInt coordinates.1)
                  (PInt coordinates.2) (PInt height) (PStr authority_hash) projection (PStr publication) (PStr event_digest) in
  let! digest := FiniteDebtRewardEpoch_digest epoch in
  let! t := insert_epoch (epoch_row epoch digest projection_digest) t in
  let! t := insert_all insert_allocation (allocation_row digest <$> dp_allocations projection) t in
  let! t := insert_all (λ p, revise_balance event_digest (claim_key p.1) (ds_balance p.2)) pairs t in
  Ok (t, epoch).

Definition close_confirmed_epoch (projection : DebtEpochProjection) (confirmation : ConfirmedDebtWeightPublication)
    (eligible_hotkeys : list pyval) (t : DebtTables) (pt : PublicationTables)
    : result (DebtTables * PublicationTables * FiniteDebtRewardEpoch) :=
  let! expected := DebtEpochProjection_digest projection in
  let! publication := ConfirmedDebtWeightPublication_digest confirmation in
  let height := dp_effective_block projection in
  let authority_hash := cp_effective_block_hash confirmation in
  let! eligible := _eligible_hotkeys eligible_hotkeys in
  let! composed := composition_active_at env (PInt height) in
  do! raise_if composed (FS.error "core-only close is disabled after incentive composition activation") ;;
  let! binding := publication_authority pt projection confirmation in
  match find_epoch t (dp_policy_digest projection) height with
  | Some retained =>
      let! epoch := _epoch_from_row t retained in
      let! digest := DebtEpochProjection_digest (ro_projection epoch) in
      do! raise_if (negb (py_eq (DebtEpochProjection_to_dict (ro_projection epoch)) (DebtEpochProjection_to_dict projection))
                    || negb (bool_decide (digest = expected))
                    || negb (bool_decide (ro_effective_block_hash epoch = authority_hash))
                    || negb (bool_decide (ro_publication_record_digest epoch = publication)))
            (FS.error "confirmed finite-debt epoch retry differs from retained closure") ;;
      do! _require_projection_eligibility (ro_projection epoch) eligible ;;
      Ok (t, pt, epoch)
  | None =>
      let! active := active_policy_activation scope_digest t (PInt height) in
      let inactive := FS.error "finite-debt projection policy is not active at its boundary" in
      match active with
      | None => Raise inactive
      | Some activation =>
          let! policy_digest := FiniteDebtPolicyManifest_digest (pa_policy activation) in
          do! raise_if (negb (bool_decide (policy_digest = dp_policy_digest projection))) inactive ;;
          let! activation_digest := FiniteDebtPolicyActivation_digest activation in
          do! raise_if (negb (bool_decide (bd_activation_digest binding = activation_digest)))
                (FS.error "finite-debt publication differs from active policy authority") ;;
          do! check_pace t pt policy_digest height (fp_epoch_blocks (pa_policy activation)) confirmation ;;
          let! coordinates := _epoch_coordinates activation height in
          let! authoritative := _project_epoch height eligible false t in
          do! raise_if (negb (py_eq (DebtEpochProjection_to_dict authoritative) (DebtEpochProjection_to_dict projection)))
                (FS.error "finite-debt balances changed after projection was built") ;;
          let! retained := catching [DebtPublicationError] (FS.error "finite-debt confirmation cannot be retained")
                             (retain_confirmed_debt_publication pt confirmation) in
          let! states := _claim_states scope_digest env (Some policy_digest) t in
          let! updated := catching [FiniteDebtError] (FS.error "finite-debt epoch cannot apply")
                            (apply_debt_epoch_projection states authoritative) in
          let! recorded := record_epoch activation coordinates height authority_hash publication authoritative
                             (changed_pairs (sorted_by claim_key states) updated) t in
          Ok (recorded.1, retained.1, recorded.2)
      end
  end.
End ledger.

#[global] Arguments _insert_balance : simpl never.
#[global] Arguments next_revision : simpl never.
#[global] Arguments insert_clock : simpl never.
#[global] Arguments insert_claim : simpl never.
#[global] Arguments insert_activation : simpl never.
#[global] Arguments insert_epoch : simpl never.
#[global] Arguments insert_allocation : simpl never.
#[global] Arguments _epoch_from_row : simpl never.
