(* ===== verification/DebtFrame.v ===== *)
(** * What later rows leave alone

    The readers of the ledger look rows up by digest and by sequence.  This file
    shows that every audit that passes still passes, with the same result, once
    later events, activations, claims and balances have been appended. *)

From Stdlib Require Import ZArith Lia Ascii.
From stdpp Require Import base tactics numbers list strings gmap sorting.
From S2P Require Import Prelude PyValue Sha256 Identity Strict IdentityCorrect Provider FiniteDebt Composition Stack Release StackPlan.
From S2P Require Import Settlement SettlementPlan Publication Journal IntakeData Intake DebtPublication DebtStoreData DebtStore.

(** ** The hash chain of reward events

    What [reward_events] guarantees of the rows it accepts, what [_append_event]
    adds to them, and that two accepted chains with one head are the same chain. *)

#[global] Instance zkey_le_trans {A} (key : A → Z) : Transitive (zkey_le key).
Proof. intros x y z. unfold zkey_le. lia. Qed.
#[global] Instance zkey_le_total {A} (key : A → Z) : Total (zkey_le key).
Proof. intros x y. unfold zkey_le. lia. Qed.

Lemma order_by_perm {A} (key : A → Z) l : order_by key l ≡ₚ l.
Proof. apply stable_sort_perm. Qed.

Lemma order_by_snoc {A} (key : A → Z) l x : Forall (λ y, key y ≤ key x) l → order_by key (l ++ [x]) = order_by key l ++ [x].
Proof. apply (stable_sort_snoc (zkey_le key)). Qed.

(** The integers [n], [n + 1], ... *)
Definition counting (n : Z) (len : nat) : list Z := (λ i, n + Z.of_nat i) <$> seq 0 len.

Lemma counting_S n len : counting n (S len) = n :: counting (n + 1) len.
Proof. unfold counting. rewrite <- cons_seq, <- fmap_S_seq. cbn [fmap list_fmap]. f_equal; [lia|]. rewrite <- list_fmap_compose.
  apply list_fmap_ext. intros; cbn. lia. Qed.

Lemma counting_elem n len z : z ∈ counting n len ↔ n ≤ z < n + Z.of_nat len.
Proof.
  unfold counting. rewrite list_elem_of_fmap. split.
  - intros (i & -> & Hi%elem_of_seq). lia.
  - intros Hz. exists (Z.to_nat (z - n)). split; [lia|]. apply elem_of_seq. lia.
Qed.

Lemma Ok_eq {A} (a b : A) : Ok a = Ok b → a = b.
Proof. by intros [= ->]. Qed.

(** [inv_ok] without evaluating the digests in what follows a check. *)
Ltac inv_checks H :=
  match type of H with
  | bind _ _ = Ok _ =>
      let x := fresh "v" in let H1 := fresh "Hv" in
      apply bind_Ok in H as (x & H1 & H); cbv beta in H; inv_checks H1; inv_checks H
  | raise_if _ _ = Ok _ => apply raise_if_Ok in H
  | reraise _ _ _ = Ok _ => apply reraise_Ok in H; inv_checks H
  | catching _ _ _ = Ok _ => apply reraise_Ok in H; inv_checks H
  | forM_ _ _ = Ok _ => apply forM_Ok in H
  | Ok _ = Ok _ => apply Ok_eq in H
  | Raise _ = Ok _ => discriminate H
  | (let _ := _ in _) = Ok _ => cbv zeta in H; inv_checks H
  | _ => idtac
  end.

Section chain.
Context {sha : Sha256} (scope_digest : string).

(** [row] holds [e], whose place in the chain is given. *)
Definition holds_event (row : RewardEventRow) (e : RewardEvent) : Prop :=
  row = {| er_sequence := re_sequence e; er_event_digest := re_event_digest e;
           er_previous_event_digest := re_previous_event_digest e; er_chain_scope_digest := scope_digest;
           er_event_type := re_event_type e; er_block := re_block e; er_block_hash := re_block_hash e;
           er_payload_json := Dumped (re_payload e) |}.

(** An event of the chain after [n] others, the last of which is [previous]. *)
Definition links (n : Z) (previous : string) (e : RewardEvent) : Prop :=
  re_sequence e = n ∧ re_previous_event_digest e = previous ∧ is_event_type (re_event_type e) = true ∧
  is_dict (re_payload e) = true ∧ is_block_hash (re_block_hash e) = true ∧
  _event_digest scope_digest n previous (re_event_type e) (re_block e) (re_block_hash e) (re_payload e) = Ok (re_event_digest e).

Fixpoint chained (n : Z) (previous : string) (es : list RewardEvent) : Prop :=
  match es with
  | [] => True
  | e :: es => links n previous e ∧ chained (n + 1) (re_event_digest e) es
  end.

Lemma block_hash_Ok s u : FS._block_hash (PStr s) = Ok u ↔ is_block_hash s = true ∧ u = s.
Proof. unfold FS._block_hash. destruct (is_block_hash s); naive_solver. Qed.

Lemma check_event_Ok n previous row e :
  check_event scope_digest n previous row = Ok e ↔ holds_event row e ∧ links n previous e.
Proof.
  unfold check_event, holds_event, links. split.
  - intros He. inv_checks He. bool_prop. subst e. cbn. destruct row as [? ? ? ? ? ? ? [w|w]]; [|done]. cbn in *.
    injection Hv0 as <-. apply block_hash_Ok in Hv2 as [? ->]. by simplify_eq.
  - intros (-> & <- & <- & Ht & Hd & Hh & Hg). cbn. rewrite Z.eqb_refl, !bool_decide_true, Ht by done. cbn.
    rewrite Hd. cbn. replace (FS._block_hash _) with (Ok (re_block_hash e)) by (symmetry; by apply block_hash_Ok). cbn.
    rewrite Hg. cbn. rewrite bool_decide_true by done. cbn. by destruct e.
Qed.

Lemma events_from_Ok rows n previous es :
  events_from scope_digest rows n previous = Ok es ↔ Forall2 holds_event rows es ∧ chained n previous es.
Proof.
  revert n previous es. induction rows as [|row rows IH]; intros n previous es; cbn [events_from].
  - split; [by intros [= <-] | intros [Hf _]; by inversion Hf].
  - split.
    + intros (e & [Hr He]%check_event_Ok & (es' & [Hf Hc]%IH & [= <-])%bind_Ok)%bind_Ok. rewrite Hr in Hc. cbn in Hc.
      split; [by constructor | done].
    + intros [Hf Hc]. inversion Hf as [|? e ? es' Hr Hf']; subst. destruct Hc as [He Hc].
      apply bind_Ok. exists e. split; [by apply check_event_Ok|]. apply bind_Ok. exists es'. split; [|done]. apply IH.
      rewrite Hr. cbn. done.
Qed.

Lemma chained_app n previous es fs :
  chained n previous (es ++ fs) ↔
  chained n previous es ∧ chained (n + Z.of_nat (length es)) (match last es with Some e => re_event_digest e | None => previous end) fs.
Proof.
  revert n previous. induction es as [|e es IH]; intros n previous; cbn [app chained length].
  - rewrite Z.add_0_r. naive_solver.
  - rewrite IH, last_cons. replace (n + Z.of_nat (S (length es))) with (n + 1 + Z.of_nat (length es)) by lia.
    destruct (last es); naive_solver.
Qed.

Lemma chained_sequences n previous es : chained n previous es → re_sequence <$> es = counting n (length es).
Proof.
  revert n previous. induction es as [|e es IH]; intros n previous; [done|]. intros [[Hs _] Hc]. cbn [length].
  rewrite counting_S, fmap_cons, Hs. f_equal. by eapply IH.
Qed.

Lemma chained_elem n previous es e :
  chained n previous es → e ∈ es → ∃ m p, links m p e ∧ n ≤ m < n + Z.of_nat (length es).
Proof.
  revert n previous. induction es as [|e' es IH]; intros n previous; [by intros _ ?%not_elem_of_nil|].
  intros [He Hc] [->|Hin]%elem_of_cons; cbn [length]; [exists n, previous; split; [done | lia]|].
  destruct (IH _ _ Hc Hin) as (m & p & Hl & Hm). exists m, p. split; [done | lia].
Qed.

(** The rows of an accepted chain, in the order of their sequences. *)
Lemma reward_events_Ok t es :
  reward_events scope_digest t = Ok es ↔ Forall2 holds_event (order_by er_sequence (dt_events t)) es ∧ chained 0 "" es.
Proof. apply events_from_Ok. Qed.

Lemma holds_sequences rows es : Forall2 holds_event rows es → er_sequence <$> rows = re_sequence <$> es.
Proof. induction 1 as [|row e rows es Hr _ IH]; [done|]. rewrite !fmap_cons, IH, Hr. done. Qed.

Lemma events_length t es : reward_events scope_digest t = Ok es → length (dt_events t) = length es.
Proof. intros [Hf _]%reward_events_Ok. apply Forall2_length in Hf. by rewrite order_by_perm in Hf. Qed.

Lemma row_of_event t es e : reward_events scope_digest t = Ok es → e ∈ es → ∃ row, row ∈ dt_events t ∧ holds_event row e.
Proof.
  intros [Hf _]%reward_events_Ok (i & Hi)%list_elem_of_lookup. destruct (Forall2_lookup_r _ _ _ _ _ Hf Hi) as (row & Hr & Hh).
  exists row. split; [|done]. apply list_elem_of_lookup_2 in Hr. by rewrite order_by_perm in Hr.
Qed.

Lemma event_of_row t es row : reward_events scope_digest t = Ok es → row ∈ dt_events t → ∃ e, e ∈ es ∧ holds_event row e.
Proof.
  intros [Hf _]%reward_events_Ok Hr. rewrite <- (order_by_perm er_sequence) in Hr. apply list_elem_of_lookup in Hr as (i & Hi).
  destruct (Forall2_lookup_l _ _ _ _ _ Hf Hi) as (e & He & Hh). exists e. split; [by eapply list_elem_of_lookup_2 | done].
Qed.

Lemma row_sequence t es row : reward_events scope_digest t = Ok es → row ∈ dt_events t → 0 ≤ er_sequence row < Z.of_nat (length (dt_events t)).
Proof.
  intros Hes Hr. destruct (event_of_row _ _ _ Hes Hr) as (e & He & ->). rewrite (events_length _ _ Hes). cbn.
  apply reward_events_Ok in Hes as [_ Hc%chained_sequences]. assert (re_sequence e ∈ re_sequence <$> es) as Hi by (by apply list_elem_of_fmap_2).
  rewrite Hc in Hi. apply counting_elem in Hi. lia.
Qed.

(** ** Appending *)

Lemma append_event_Ok ty block hash payload t t' digest :
  _append_event scope_digest ty block hash payload t = Ok (t', digest) →
  ∃ es e, reward_events scope_digest t = Ok es ∧ e = {| re_block := block; re_block_hash := hash; re_event_digest := digest;
      re_event_type := ty; re_payload := payload; re_previous_event_digest := chain_head es; re_sequence := Z.of_nat (length es) |} ∧
    links (Z.of_nat (length es)) (chain_head es) e ∧ 0 ≤ block ∧ digest ∉ (er_event_digest <$> dt_events t) ∧
    ∃ row, holds_event row e ∧ t' = add_event row t.
Proof.
  unfold _append_event. intros Ha. inv_checks Ha. bool_prop. apply block_hash_Ok in Hv1 as [? ->]. unfold FS._integer in Hv0. apply require_int_Ok in Hv0 as ([= ->] & Hb & _). specialize (Hb 0 eq_refl).
  injection Ha as <- <-. eexists v3, _. split; [done|]. split; [reflexivity|]. split; [by unfold links|]. split; [done|]. split; [done|].
  by eexists.
Qed.

(** Appending to an accepted chain gives an accepted chain with one event more. *)
Lemma append_event_reads ty block hash payload t t' digest es :
  reward_events scope_digest t = Ok es → _append_event scope_digest ty block hash payload t = Ok (t', digest) →
  reward_events scope_digest t' = Ok (es ++ [{| re_block := block; re_block_hash := hash; re_event_digest := digest;
      re_event_type := ty; re_payload := payload; re_previous_event_digest := chain_head es; re_sequence := Z.of_nat (length es) |}]).
Proof.
  intros Hes (es' & e & Hes' & -> & Hl & _ & _ & row & Hr & ->)%append_event_Ok. assert (es' = es) as -> by congruence.
  pose proof Hes as [Hf Hc]%reward_events_Ok. apply reward_events_Ok. cbn [add_event dt_events]. rewrite order_by_snoc; cycle 1.
  { apply Forall_forall. intros row' Hr'. pose proof (row_sequence _ _ _ Hes Hr'). rewrite Hr. cbn. rewrite <- (events_length _ _ Hes). lia. }
  split; [by apply Forall2_app; [|constructor]|]. apply chained_app. split; [done|]. split; [|done]. unfold chain_head in Hl. exact Hl.
Qed.

(** ** One head, one chain *)

Definition same_event (e f : RewardEvent) : Prop :=
  re_block e = re_block f ∧ re_block_hash e = re_block_hash f ∧ re_event_digest e = re_event_digest f ∧
  re_event_type e = re_event_type f ∧ json_equal (re_payload e) (re_payload f) ∧
  re_previous_event_digest e = re_previous_event_digest f ∧ re_sequence e = re_sequence f.

(** What an event commits to. *)
Definition event_dict (n : Z) (p ty : string) (b : Z) (h : string) (v : pyval) : pyval :=
  py_dict [("block", PInt b); ("block_hash", PStr h); ("chain_scope_digest", PStr scope_digest); ("event_type", PStr ty); ("payload", v);
    ("previous_event_digest", PStr p); ("sequence", PInt n)].

Lemma event_dict_inj n p ty b h v n' p' ty' b' h' v' :
  json_equal (event_dict n p ty b h v) (event_dict n' p' ty' b' h' v') → n = n' ∧ p = p' ∧ ty = ty' ∧ b = b' ∧ h = h' ∧ json_equal v v'.
Proof.
  intros (j1 & j2 & J1 & J2 & Es). cbn in J1, J2.
  destruct (canonical_value v) as [q1|] eqn:E1; [|done]. destruct (canonical_value v') as [q2|] eqn:E2; [|done].
  cbn in J1, J2. injection J1 as <-. injection J2 as <-.
  cbn [json_sort map] in Es. remember (json_sort q1) as r1 eqn:R1. remember (json_sort q2) as r2 eqn:R2. vm_compute in Es.
  injection Es as -> -> -> Er -> ->. do 5 (split; [done|]). exists q1, q2. by rewrite <- R1, <- R2.
Qed.

(** The bytes whose SHA-256 is an event's digest. *)
Definition event_bytes (e : RewardEvent) : result (list Z) :=
  envelope_bytes "optima.chain.finite-debt-reward-event"
    (event_dict (re_sequence e) (re_previous_event_digest e) (re_event_type e) (re_block e) (re_block_hash e) (re_payload e)) (PInt 1).

(** Two events of the chains that differ in their bytes and have one digest, the
    SHA-256 of both. *)
Definition event_collision (es fs : list RewardEvent) : Prop :=
  ∃ e f b c, e ∈ es ∧ f ∈ fs ∧ event_bytes e = Ok b ∧ event_bytes f = Ok c ∧ b ≠ c ∧
    sha256_hex b = re_event_digest e ∧ sha256_hex c = re_event_digest f ∧ re_event_digest e = re_event_digest f.

Lemma event_collision_app es es' fs fs' : event_collision es fs → event_collision (es ++ es') (fs ++ fs').
Proof.
  intros (e & f & b & c & He & Hf & H). exists e, f, b, c. split; [apply elem_of_app; by left|]. split; [apply elem_of_app; by left | done].
Qed.

(** Events with one digest are the same, or they collide. *)
Lemma event_identified n p e n' p' f :
  links n p e → links n' p' f → re_event_digest e = re_event_digest f → same_event e f ∨ event_collision [e] [f].
Proof.
  intros (<- & <- & _ & _ & _ & H1) (<- & <- & _ & _ & _ & H2) Hd. unfold _event_digest in H1, H2.
  destruct (canonical_digest_envelopes _ _ _ _ _ _ _ _ H1 H2) as (b & c & Hb & Hc & E1 & E2 & Hiff).
  destruct (decide (b = c)) as [Hbc|Hbc]; [left | right].
  - apply Hiff in Hbc as (_ & _ & (? & ? & ? & ? & ? & ?)%event_dict_inj). done.
  - exists e, f, b, c. do 2 (split; [by left|]). by rewrite <- E1, <- E2.
Qed.

Lemma chained_identifies es fs :
  chained 0 "" es → chained 0 "" fs → chain_head es = chain_head fs → Forall2 same_event es fs ∨ event_collision es fs.
Proof.
  revert fs. induction es as [|e es IH] using rev_ind; intros fs Hes Hfs Hh.
  - destruct fs as [|f fs _] using rev_ind; [by left; constructor|]. exfalso. unfold chain_head in Hh. rewrite last_snoc in Hh. cbn in Hh.
    apply chained_app in Hfs as [_ [(_ & _ & _ & _ & _ & Hd) _]]. rewrite <- Hh in Hd. by apply canonical_digest_is_hex64 in Hd.
  - destruct fs as [|f fs _] using rev_ind.
    + exfalso. unfold chain_head in Hh. rewrite last_snoc in Hh. cbn in Hh.
      apply chained_app in Hes as [_ [(_ & _ & _ & _ & _ & Hd) _]]. rewrite Hh in Hd. by apply canonical_digest_is_hex64 in Hd.
    + apply chained_app in Hes as [Hes [H1 _]], Hfs as [Hfs [H2 _]]. unfold chain_head in Hh. rewrite !last_snoc in Hh.
      destruct (event_identified _ _ _ _ _ _ H1 H2 Hh) as [He|(e' & f' & b & c & ->%list_elem_of_singleton & ->%list_elem_of_singleton & Hc)]; cycle 1.
      { right. exists e, f, b, c. do 2 (split; [apply elem_of_app; right; by left|]). done. }
      assert (chain_head es = chain_head fs) as Hp.
      { destruct H1 as (_ & P1 & _), H2 as (_ & P2 & _). destruct He as (_ & _ & _ & _ & _ & Ep & _). rewrite P1, P2 in Ep. exact Ep. }
      destruct (IH fs Hes Hfs Hp) as [Hf|Hc]; [left; apply Forall2_app; [done | by constructor] | right; by apply event_collision_app].
Qed.
End chain.

Lemma bind_mono {A B} (m m' : result A) (f f' : A → result B) b :
  (∀ a, m = Ok a → m' = Ok a) → (∀ a, m = Ok a → f a = Ok b → f' a = Ok b) → bind m f = Ok b → bind m' f' = Ok b.
Proof. intros Hm Hf (a & Ha & Hb)%bind_Ok. apply bind_Ok. eauto. Qed.

Lemma catching_mono {A} classes e (m m' : result A) a :
  (m = Ok a → m' = Ok a) → catching classes e m = Ok a → catching classes e m' = Ok a.
Proof. intros Hm Ha%reraise_Ok. apply reraise_Ok. auto. Qed.

Lemma mapM_mono {A B} (f f' : A → result B) l k :
  (∀ x y, x ∈ l → f x = Ok y → f' x = Ok y) → mapM f l = Ok k → mapM f' l = Ok k.
Proof.
  intros Hf Hl%mapM_Ok. apply mapM_Ok. revert Hf. induction Hl as [|x y l k Hx _ IH]; intros Hf; constructor.
  - apply Hf; [left | done].
  - apply IH. intros. apply Hf; [by right | done].
Qed.

Create HintDb debt_frame.

(** Runs two computations side by side that differ in what they look up. *)
Ltac side_by_side :=
  match goal with
  | |- ?m = Ok ?a → ?m = Ok ?a => exact (λ H, H)
  | |- bind _ _ = Ok _ → bind _ _ = Ok _ => apply bind_mono; [intros ?; side_by_side | intros ? ?; cbv beta zeta; side_by_side]
  | |- catching _ _ _ = Ok _ → catching _ _ _ = Ok _ => apply catching_mono; side_by_side
  | |- match ?x with (_, _) => _ end = Ok _ → _ => destruct x; side_by_side
  | |- _ => try solve [eauto with debt_frame]
  end.

Lemma digest_column_Ok s u : FS._digest false (PStr s) = Ok u ↔ digest_ok s ∧ u = s.
Proof. unfold FS._digest. rewrite require_digest_Ok. naive_solver. Qed.

(** Reads the checks of the columns that were passed. *)
Ltac columns :=
  repeat match goal with
  | H : FS._block_hash (PStr _) = Ok _ |- _ => apply block_hash_Ok in H as [? ->]
  | H : FS._digest false (PStr _) = Ok _ |- _ => apply digest_column_Ok in H as [? ->]
  end.

Section frame.
Context {sha : Sha256} (scope_digest : string) (env : LedgerEnv).

(** What a readable claim rests on. *)
Record claim_backed (t : DebtTables) (row : ClaimRow) (claim : InnovationDebtClaim) : Prop := {
  cb_json : ∃ v, loads (cr_claim_json row) = Some v ∧ InnovationDebtClaim_from_dict v = Ok claim;
  cb_row : claim_row_differs row claim = false;
  cb_columns : is_block_hash (cr_accepted_crown_block_hash row) = true ∧ is_block_hash (cr_settlement_block_hash row) = true ∧
    digest_ok (cr_reservation_digest row) ∧ digest_ok (cr_settlement_event_digest row) ∧ digest_ok (cr_issuance_reward_event_digest row);
  cb_authority : ∃ activation crown active e payload family digest,
    _activation_by_policy scope_digest t (cr_policy_digest row) = Ok activation ∧
    InnovationDebtClaim_validate_policy claim (pa_policy activation) = Ok tt ∧
    _retained_crown_authority env (PStr (ic_candidate_digest claim)) (PStr (cr_reservation_digest row))
      (PStr (cr_settlement_event_digest row)) (PStr (ic_retained_evidence_digest claim)) = Ok crown ∧
    active_policy_activation scope_digest t (PInt (ic_settlement_block claim)) = Ok (Some active) ∧
    reward_family_id (sq_arena_digest (sc_primary (cw_candidate crown))) (sq_target_id (sc_primary (cw_candidate crown)))
      (ref_target_spec_digest (cw_contribution crown)) = Ok family ∧
    find_event t (cr_issuance_reward_event_digest row) = Some e ∧
    FiniteDebtPolicyActivation_digest active = Ok digest ∧ FiniteDebtPolicyActivation_digest activation = Ok digest ∧
    claim_authority_differs row claim digest digest family crown e = false ∧
    loads (er_payload_json e) = Some payload ∧ claim_payload_differs row claim digest payload = false
}.

Lemma claim_from_row_Ok t row claim : _claim_from_row scope_digest env t row = Ok claim ↔ claim_backed t row claim.
Proof.
  unfold _claim_from_row. split.
  - intros Hc. cbv zeta in Hc. apply bind_Ok in Hc as ([c activation] & Hp & Hc).
    destruct (loads (cr_claim_json row)) as [v|] eqn:Hj; [|done]. inv_checks Hp. injection Hp as -> ->. destruct v2.
    inv_checks Hc. columns.
    match goal with H : active_policy_activation _ _ _ = Ok ?a |- _ => destruct a as [active|]; [|done] end.
    destruct (find_event t _) as [e|] eqn:He; [|done]. inv_checks Hc.
    destruct (loads (er_payload_json e)) as [payload|] eqn:Hl; [|done]. inv_checks Hc. subst c.
    match goal with H : claim_authority_differs _ _ ?a ?b _ _ _ = false |- _ =>
      assert (a = b) as <- by (unfold claim_authority_differs in H; by bool_prop) end.
    constructor; [by eauto..|]. do 7 eexists. eauto 20.
  - intros [(v & Hj & Hf) Hr (H1 & H2 & H3 & H4 & H5) (activation & crown & active & e & payload & family & digest & Ha & Hv & Hc & Hac & Hfam & He & D1 & D2 & Hd & Hl & Hp)].
    rewrite Hj. unfold catching. rewrite Hf. cbn [bind]. rewrite Ha. cbn [bind]. rewrite Hv. cbn [bind reraise]. rewrite Hr. cbn [raise_if bind].
    rewrite !(proj2 (block_hash_Ok _ _) (conj H1 eq_refl)), !(proj2 (block_hash_Ok _ _) (conj H2 eq_refl)). cbn [bind].
    rewrite (proj2 (digest_column_Ok _ _) (conj H3 eq_refl)), (proj2 (digest_column_Ok _ _) (conj H4 eq_refl)),
      (proj2 (digest_column_Ok _ _) (conj H5 eq_refl)). cbn [bind]. rewrite Hc. cbn [bind]. rewrite Hac. cbn [bind]. rewrite Hfam. cbn [bind].
    rewrite He, D1, D2. cbn [bind]. rewrite Hd. cbn [raise_if bind]. rewrite Hl, Hp. done.
Qed.

Lemma claim_backed_digest t row claim : claim_backed t row claim → InnovationDebtClaim_digest claim = cr_claim_digest row.
Proof. intros [_ Hr _ _]. unfold claim_row_differs in Hr. by bool_prop. Qed.

(** [t'] is [t] with later rows: new events have fresh digests and come after the
    old ones, new claims and balances name new events, and the policy that was
    active at a block no later than [h] still is. *)
Record extends (h : Z) (t t' : DebtTables) : Prop := {
  xt_events : ∃ new, dt_events t' = dt_events t ++ new ∧
    Forall (λ e, er_event_digest e ∉ (er_event_digest <$> dt_events t) ∧ Z.of_nat (length (dt_events t)) ≤ er_sequence e) new;
  xt_blocks : Forall (λ e, er_block e ≤ h) (dt_events t);
  xt_reads : ∃ es, reward_events scope_digest t = Ok es;
  xt_reads' : ∃ es, reward_events scope_digest t' = Ok es;
  xt_activations : ∃ new, dt_activations t' = dt_activations t ++ new;
  xt_active : ∀ b a, b ≤ h → active_policy_activation scope_digest t (PInt b) = Ok a →
    active_policy_activation scope_digest t' (PInt b) = Ok a;
  xt_claims : ∃ new, dt_claims t' = dt_claims t ++ new ∧
    Forall (λ c, cr_issuance_reward_event_digest c ∉ (er_event_digest <$> dt_events t) ∧
      ∃ claim, _claim_from_row scope_digest env t' c = Ok claim) new;
  xt_balances : ∃ new, dt_balances t' = dt_balances t ++ new ∧
    Forall (λ b, br_reward_event_digest b ∉ (er_event_digest <$> dt_events t)) new;
  xt_owned : Forall (λ b, is_Some (find_claim t (br_claim_digest b))) (dt_balances t)
}.

(** ** Activations depend on the events they name *)

Section activations.
Context (t t' : DebtTables) (Hfind : ∀ d e, find_event t d = Some e → find_event t' d = Some e).

Lemma activation_kept row a : _activation_from_row scope_digest t row = Ok a → _activation_from_row scope_digest t' row = Ok a.
Proof.
  unfold _activation_from_row. side_by_side. intros Hf%raise_if_Ok. apply raise_if_Ok.
  destruct (find_event t _) as [e|] eqn:He; [|done]. by rewrite (Hfind _ _ He).
Qed.

Lemma policy_activations_kept l :
  dt_activations t' = dt_activations t → (∃ es, reward_events scope_digest t' = Ok es) →
  policy_activations scope_digest t = Ok l → policy_activations scope_digest t' = Ok l.
Proof.
  intros Ha [es' Hes']. unfold policy_activations. intros (es & _ & Hl)%bind_Ok. rewrite Hes'. cbn [bind]. unfold activations_in_order in *.
  rewrite Ha. revert Hl. apply bind_mono; [|done]. intros k. apply mapM_mono. intros ? ? _. apply activation_kept.
Qed.

Lemma active_kept b a :
  dt_activations t' = dt_activations t → (∃ es, reward_events scope_digest t' = Ok es) →
  active_policy_activation scope_digest t b = Ok a → active_policy_activation scope_digest t' b = Ok a.
Proof.
  intros Ha Hes. unfold active_policy_activation. apply bind_mono; [done|]. intros z _. apply bind_mono; [|done].
  intros l. by apply policy_activations_kept.
Qed.
End activations.

Context (h : Z) (t t' : DebtTables) (X : extends h t t').

Lemma find_event_elem (s : DebtTables) d e : find_event s d = Some e → e ∈ dt_events s ∧ er_event_digest e = d.
Proof. intros He. apply List.find_some in He as [He Hd]. bool_prop. split; [by apply list_elem_of_In | done]. Qed.

Lemma find_event_mono d e : find_event t d = Some e → find_event t' d = Some e.
Proof. destruct (xt_events _ _ _ X) as (new & E & _). unfold find_event. rewrite E, find_app. by intros ->. Qed.

Lemma find_event_None (s : DebtTables) d : find_event s d = None → d ∉ (er_event_digest <$> dt_events s).
Proof.
  intros Hn (e & -> & He)%list_elem_of_fmap. apply list_elem_of_In, (List.find_none _ _ Hn e) in He.
  by rewrite bool_decide_true in He.
Qed.

(** A digest without an event so far has none, or a later one. *)
Lemma late_sequence d :
  d ∉ (er_event_digest <$> dt_events t) →
  match event_sequence t' d with Some s => Z.of_nat (length (dt_events t)) ≤ s | None => True end.
Proof.
  intros Hd. unfold event_sequence. destruct (find_event t' d) as [e|] eqn:He; cbn; [|done].
  apply find_event_elem in He as [He Hed]. destruct (xt_events _ _ _ X) as (new & E & Hnew). rewrite E in He.
  apply elem_of_app in He as [He|He]; [exfalso; apply Hd; rewrite <- Hed; by apply list_elem_of_fmap_2|].
  rewrite Forall_forall in Hnew. by apply Hnew.
Qed.

Lemma found_early d e : find_event t d = Some e → 0 ≤ er_sequence e < Z.of_nat (length (dt_events t)).
Proof. intros [He _]%find_event_elem. destruct (xt_reads _ _ _ X) as [es Hes]. by eapply row_sequence. Qed.

Lemma found_block d e : find_event t d = Some e → er_block e ≤ h.
Proof. intros [He _]%find_event_elem. pose proof (xt_blocks _ _ _ X) as Hb. rewrite Forall_forall in Hb. by apply Hb. Qed.

(** The sequence of an event before a known one. *)
Lemma before_mono d s :
  s ≤ Z.of_nat (length (dt_events t)) →
  match event_sequence t' d with Some x => x <? s | None => false end = match event_sequence t d with Some x => x <? s | None => false end.
Proof.
  intros Hs. unfold event_sequence at 2. destruct (find_event t d) as [e|] eqn:He.
  - unfold event_sequence. by rewrite (find_event_mono _ _ He).
  - cbn. pose proof (late_sequence d (find_event_None _ _ He)). destruct (event_sequence t' d); [|done]. apply Z.ltb_ge. lia.
Qed.

Lemma after_mono d s :
  s ≤ Z.of_nat (length (dt_events t)) →
  match event_sequence t' d with Some x => s <=? x | None => true end = match event_sequence t d with Some x => s <=? x | None => true end.
Proof.
  intros Hs. unfold event_sequence at 2. destruct (find_event t d) as [e|] eqn:He.
  - unfold event_sequence. by rewrite (find_event_mono _ _ He).
  - cbn. pose proof (late_sequence d (find_event_None _ _ He)). destruct (event_sequence t' d); [|done]. apply Z.leb_le. lia.
Qed.

(** ** Activations and claims *)

Lemma events_mono es : reward_events scope_digest t = Ok es → ∃ es', reward_events scope_digest t' = Ok es'.
Proof. intros _. apply X. Qed.

Lemma activation_mono row a : _activation_from_row scope_digest t row = Ok a → _activation_from_row scope_digest t' row = Ok a.
Proof. apply activation_kept, find_event_mono. Qed.

Lemma find_activation_mono (f : ActivationRow → bool) row : List.find f (dt_activations t) = Some row → List.find f (dt_activations t') = Some row.
Proof. destruct (xt_activations _ _ _ X) as [new ->]. rewrite find_app. by intros ->. Qed.

Lemma activation_by_policy_mono p a : _activation_by_policy scope_digest t p = Ok a → _activation_by_policy scope_digest t' p = Ok a.
Proof.
  unfold _activation_by_policy. intros (d & Hd & Ha)%bind_Ok. rewrite Hd. cbn [bind].
  apply bind_Ok in Ha as (es & Hes & Ha). destruct (events_mono _ Hes) as [es' ->]. cbn [bind]. unfold find_policy in *.
  destruct (List.find _ (dt_activations t)) as [row|] eqn:Hf; [|done]. rewrite (find_activation_mono _ _ Hf). revert Ha.
  side_by_side. apply activation_mono.
Qed.

Lemma claim_mono row claim : _claim_from_row scope_digest env t row = Ok claim → _claim_from_row scope_digest env t' row = Ok claim.
Proof.
  unfold _claim_from_row. cbv zeta. apply bind_mono.
  { intros p. destruct (loads _); [|done]. side_by_side. intros. by apply activation_by_policy_mono. }
  intros [c a] Hp. do 7 (apply bind_mono; [intros ?; side_by_side | intros ? ?; cbv beta]). intros (active & Ha & Hc)%bind_Ok.
  apply bind_Ok in Hc as (family & Hf & Hc). destruct active as [active|]; [|done].
  destruct (find_event t _) as [e|] eqn:He; [|done]. pose proof (found_block _ _ He) as Hb.
  assert (ic_settlement_block c ≤ h) as Hs.
  { apply bind_Ok in Hc as (? & _ & Hc). apply bind_Ok in Hc as (? & _ & Hc). apply bind_Ok in Hc as (? & Hd & _).
    apply raise_if_Ok in Hd. unfold claim_authority_differs in Hd. bool_prop. lia. }
  rewrite (xt_active _ _ _ X _ _ Hs Ha). cbn [bind]. rewrite Hf. cbn [bind]. by rewrite (find_event_mono _ _ He).
Qed.

Lemma no_issue_mono e r : re_block e ≤ h → _no_issue_authority scope_digest env t e = Ok r → _no_issue_authority scope_digest env t' e = Ok r.
Proof.
  intros Hb. unfold _no_issue_authority. apply bind_mono; [done|]. intros _ _. unfold find_activation.
  destruct (List.find _ (dt_activations t)) as [row|] eqn:Hf; [|done]. rewrite (find_activation_mono _ _ Hf).
  apply bind_mono; [apply activation_mono|]. intros a _. apply bind_mono; [intros ?; by apply (xt_active _ _ _ X)|]. done.
Qed.

Lemma claim_find_mono (f : ClaimRow → bool) row : List.find f (dt_claims t) = Some row → List.find f (dt_claims t') = Some row.
Proof. destruct (xt_claims _ _ _ X) as (new & -> & _). rewrite find_app. by intros ->. Qed.

(** ** Invalidations *)

Lemma balances_before_mono c s :
  s ≤ Z.of_nat (length (dt_events t)) → balances_before t' c s = balances_before t c s.
Proof.
  intros Hs. unfold balances_before, balances_of, order_by. destruct (xt_balances _ _ _ X) as (new & -> & Hnew).
  rewrite List.filter_app, (stable_sort_filter_drop (zkey_le br_revision)).
  - apply List.filter_ext. intros b. by apply before_mono.
  - apply Forall_forall. intros b [_ Hb]%filterb_elem. rewrite Forall_forall in Hnew.
    pose proof (late_sequence _ (Hnew _ Hb)). destruct (event_sequence t' _); [|done]. apply Z.ltb_ge. lia.
Qed.

Lemma balances_by_event_mono d : d ∈ (er_event_digest <$> dt_events t) → balances_by_event t' d = balances_by_event t d.
Proof.
  intros Hd. unfold balances_by_event. destruct (xt_balances _ _ _ X) as (new & -> & Hnew). rewrite List.filter_app.
  replace (List.filter _ new) with (@nil BalanceRow); [by rewrite app_nil_r|]. symmetry. apply filterb_none.
  eapply Forall_impl; [exact Hnew|]. intros b Hb. apply bool_decide_eq_false_2. intros E. apply Hb. by rewrite E.
Qed.

Lemma cancellation_mono s block row o :
  s ≤ Z.of_nat (length (dt_events t)) → expected_cancellation scope_digest env t s block row = Ok o →
  expected_cancellation scope_digest env t' s block row = Ok o.
Proof.
  intros Hs. unfold expected_cancellation. apply bind_mono; [apply claim_mono|]. intros claim _. cbv zeta.
  by rewrite after_mono, balances_before_mono.
Qed.

(** A claim issued since is no concern of an earlier invalidation. *)
Lemma cancellation_new s block row claim :
  s ≤ Z.of_nat (length (dt_events t)) → cr_issuance_reward_event_digest row ∉ (er_event_digest <$> dt_events t) →
  _claim_from_row scope_digest env t' row = Ok claim → expected_cancellation scope_digest env t' s block row = Ok None.
Proof.
  intros Hs Hd Hc. unfold expected_cancellation. rewrite Hc. cbn [bind]. pose proof (late_sequence _ Hd) as Hl.
  destruct (event_sequence t' _) as [x|]; [|done]. by replace (s <=? x) with true by (symmetry; apply Z.leb_le; lia).
Qed.

Lemma cancellations_mono s block p f l :
  s ≤ Z.of_nat (length (dt_events t)) → mapM (expected_cancellation scope_digest env t s block) (family_claims t p f) = Ok l →
  ∃ l', mapM (expected_cancellation scope_digest env t' s block) (family_claims t' p f) = Ok l' ∧ omap (λ x, x) l' = omap (λ x, x) l.
Proof.
  intros Hs Hl. unfold family_claims, sorted_by in *. destruct (xt_claims _ _ _ X) as (new & -> & Hnew). rewrite List.filter_app.
  assert (Forall (λ c, expected_cancellation scope_digest env t' s block c = Ok None) (List.filter (λ row,
    bool_decide (cr_policy_digest row = p) && bool_decide (cr_family_id row = f)) new)) as Hnone.
  { apply Forall_forall. intros c [_ Hc]%filterb_elem. rewrite Forall_forall in Hnew. destruct (Hnew c Hc) as (Hd & claim & Hk).
    by eapply cancellation_new. }
  revert Hnone. generalize (List.filter (λ row, bool_decide (cr_policy_digest row = p) && bool_decide (cr_family_id row = f)) new).
  clear new Hnew. intros new Hnone. apply (mapM_mono _ (expected_cancellation scope_digest env t' s block)) in Hl;
    [|intros ? ? _; by apply cancellation_mono].
  revert Hl. generalize (List.filter (λ row, bool_decide (cr_policy_digest row = p) && bool_decide (cr_family_id row = f)) (dt_claims t)).
  intros old Hl. induction new as [|c new IH] using rev_ind; [rewrite app_nil_r; eauto|].
  apply Forall_app in Hnone as [Hnew Hc]. apply Forall_cons in Hc as [Hc _]. destruct (IH Hnew) as (l' & Hl' & El). rewrite app_assoc.
  destruct (stable_sort_snoc_insert (key_le cr_claim_digest) (old ++ new) c) as (k1 & k2 & E1 & E2). rewrite E1.
  rewrite E2 in Hl'. apply mapM_Ok, Forall2_app_inv_l in Hl' as (l1 & l2 & Hl1 & Hl2 & ->).
  exists (l1 ++ None :: l2). split; [apply mapM_Ok, Forall2_app; [done | by constructor]|]. rewrite <- El, !omap_app. done.
Qed.

Lemma crosses_family_mono p f b : b ∈ dt_balances t → crosses_family t' p f b = crosses_family t p f b.
Proof.
  intros Hb. unfold crosses_family. pose proof (xt_owned _ _ _ X) as Ho. rewrite Forall_forall in Ho.
  destruct (Ho b Hb) as [c Hc]. unfold find_claim in *. by rewrite Hc, (claim_find_mono _ _ Hc).
Qed.

Lemma invalidation_mono e prior m :
  re_block e ≤ h → re_sequence e ≤ Z.of_nat (length (dt_events t)) → re_event_digest e ∈ (er_event_digest <$> dt_events t) →
  _validate_family_invalidation scope_digest env t e prior = Ok m → _validate_family_invalidation scope_digest env t' e prior = Ok m.
Proof.
  intros Hb Hs Hd. unfold _validate_family_invalidation. apply bind_mono; [done|]. intros _ _.
  destruct (List.find _ (dt_activations t)) as [row|] eqn:Hf; [|done]. rewrite (find_activation_mono _ _ Hf).
  apply bind_mono; [apply activation_mono|]. intros a _. apply bind_mono; [intros ?; by apply (xt_active _ _ _ X)|]. intros active _.
  do 3 (apply bind_mono; [done|]; intros ? _). apply bind_mono; [done|]. intros pd _. do 2 (apply bind_mono; [done|]; intros ? _).
  apply bind_mono; [done|]. intros ed Hed. apply bind_mono; [done|]. intros marker Hm. do 3 (apply bind_mono; [done|]; intros ? _).
  assert (fc_reward_event_digest marker = re_event_digest e) as Em.
  { apply require_digest_Ok in Hed as [[= ->] _]. unfold FiniteDebtFamilyClock_check in Hm. inv_checks Hm. by subst. }
  intros (l & Hl & Hr)%bind_Ok. destruct (cancellations_mono _ _ _ _ _ Hs Hl) as (l' & Hl' & El). rewrite Hl'. cbn [bind]. rewrite El.
  rewrite Em, balances_by_event_mono by done. rewrite Em in Hr. revert Hr. apply bind_mono; [|done].
  intros [] Hx%raise_if_Ok. apply raise_if_Ok. rewrite <- Hx. apply existsb_ext_elem. intros b Hb'. apply crosses_family_mono.
  unfold balances_by_event in Hb'. rewrite sorted_by_perm in Hb'. by apply filterb_elem in Hb' as [_ ?].
Qed.

(** ** Clocks and balances *)

Lemma replay_event_mono es e r r' :
  reward_events scope_digest t = Ok es → e ∈ es →
  replay_event scope_digest env t e r = Ok r' → replay_event scope_digest env t' e r = Ok r'.
Proof.
  intros Hes He. destruct (row_of_event _ _ _ _ Hes He) as (row & Hrow & Hh).
  assert (re_block e ≤ h) as Hb by (pose proof (xt_blocks _ _ _ X) as Hb; rewrite Forall_forall in Hb; specialize (Hb row Hrow); by rewrite Hh in Hb).
  assert (re_sequence e ≤ Z.of_nat (length (dt_events t))) as Hs by (pose proof (row_sequence _ _ _ _ Hes Hrow) as Hs; rewrite Hh in Hs; cbn in Hs; lia).
  assert (re_event_digest e ∈ (er_event_digest <$> dt_events t)) as Hd.
  { replace (re_event_digest e) with (er_event_digest row) by (by rewrite Hh). by apply list_elem_of_fmap_2. }
  unfold replay_event. case_bool_decide.
  { unfold replay_activation, activation_of_event. destruct (List.find _ (dt_activations t)) as [arow|] eqn:Hf; [|done].
    rewrite (find_activation_mono _ _ Hf). apply bind_mono; [apply activation_mono | done]. }
  case_bool_decide.
  { unfold replay_claim, claim_of_event. destruct (List.find _ (dt_claims t)) as [crow|] eqn:Hf; [|done].
    rewrite (claim_find_mono _ _ Hf). apply bind_mono; [apply claim_mono | done]. }
  case_bool_decide; [unfold replay_no_issue; apply bind_mono; [intros ?; by apply no_issue_mono | done]|].
  case_bool_decide; [|done]. unfold replay_invalidation. do 3 (apply bind_mono; [done|]; intros ? _).
  apply bind_mono; [intros ?; by apply invalidation_mono | done].
Qed.

Lemma replay_events_mono es fs r r' :
  reward_events scope_digest t = Ok es → fs ⊆ es →
  replay_events scope_digest env t fs r = Ok r' → replay_events scope_digest env t' fs r = Ok r'.
Proof.
  intros Hes. revert r. induction fs as [|e fs IH]; intros r Hsub; cbn [replay_events]; [done|].
  apply bind_mono; [intros ?; eapply replay_event_mono; [done | set_solver]|]. intros r1 _. apply IH. set_solver.
Qed.

Lemma check_revision_mono claim prior row b :
  check_revision t claim prior row b = Ok tt → check_revision t' claim prior row b = Ok tt.
Proof. unfold check_revision. destruct (find_event t _) as [e|] eqn:He; [|done]. by rewrite (find_event_mono _ _ He). Qed.

Lemma check_revisions_mono claim prior rows :
  check_revisions t claim prior rows = Ok tt → check_revisions t' claim prior rows = Ok tt.
Proof.
  revert prior. induction rows as [|[row b] rows IH]; intros prior; cbn [check_revisions]; [done|].
  apply bind_mono; [intros []; apply check_revision_mono | intros _ _; apply IH].
Qed.

(** The state of a claim that got no new balance. *)
Lemma claim_state_mono row s :
  balances_of t' (cr_claim_digest row) = balances_of t (cr_claim_digest row) →
  claim_state scope_digest env t row = Ok s → claim_state scope_digest env t' row = Ok s.
Proof.
  intros Hbal. unfold claim_state. apply bind_mono; [apply claim_mono|]. intros claim Hc. cbv zeta.
  apply claim_from_row_Ok, claim_backed_digest in Hc as ->.
  rewrite Hbal. do 3 (apply bind_mono; [done|]; intros ? _). destruct a0; [done|]. apply bind_mono; [done|]. intros _ _.
  apply bind_mono; [intros []; apply check_revisions_mono | done].
Qed.
End frame.
