(* ===== verification/DebtAudit.v ===== *)
(** * What the audit of the ledger establishes

    [claim_state] accepts a claim exactly when its balances are a history: they
    start with the open principal, every later one names the event that wrote it,
    and what was paid or forfeited is never taken back.  The clocks the audit
    accepts are those the events give, and the latest clock of a family is the last
    one that was appended. *)

From Stdlib Require Import ZArith Lia Ascii.
From stdpp Require Import base tactics numbers list strings gmap sorting.
From S2P Require Import Prelude PyValue Sha256 Identity Strict IdentityCorrect Provider FiniteDebt FiniteDebtBalance FiniteDebtPolicy.
From S2P Require Import FiniteDebtEpoch FiniteDebtClaims Composition Stack Release StackPlan StackPlanCorrect Settlement.
From S2P Require Import SettlementPlan SettlementFacts Publication Journal IntakeData Intake DebtPublication DebtStoreData DebtStore.
From S2P Require Import DebtLedger DebtFrame.

Lemma same_json_refl v : is_canonical v = true → same_json v v = true.
Proof.
  intros Hc. unfold same_json, canonical_json_bytes. rewrite <- canonical_value_ok in Hc. destruct (canonical_value v); [|done]. cbn.
  by apply bool_decide_eq_true_2.
Qed.

Lemma balance_dict_canonical b : is_canonical (DebtClaimBalance_to_dict b) = true.
Proof. unfold DebtClaimBalance_to_dict, DebtClaimBalance_to_row, py_dict. cbn. by destruct (db_terminal_block b). Qed.

(** ** Payloads *)

Lemma payload_get_dict rows key : payload_get (py_dict rows) key = default PNone (assoc rows key).
Proof.
  unfold payload_get, py_dict, mapping_get, assoc. induction rows as [|[k v] rows IH]; [done|]. cbn [fmap list_fmap List.find fst snd py_eq_str].
  by case_bool_decide.
Qed.

Lemma has_fields_dict fields rows : rows.*1 = fields → has_fields fields (py_dict rows) = true.
Proof. intros <-. unfold has_fields, py_dict. rewrite all_str_keys_py_dict. by apply bool_decide_eq_true_2. Qed.

Lemma py_eq_str_refl s : py_eq (PStr s) (PStr s) = true.
Proof. by apply py_eq_refl. Qed.

Lemma py_eq_PInt_refl z : py_eq (PInt z) (PInt z) = true.
Proof. by apply py_eq_refl. Qed.

Lemma field_here {A} (k : string) (v : A) rows d : default d (assoc ((k, v) :: rows) k) = v.
Proof. unfold assoc. cbn. by rewrite bool_decide_true. Qed.

Lemma field_next {A} (k k' : string) (v : A) rows : k ≠ k' → assoc ((k, v) :: rows) k' = assoc rows k'.
Proof. intros Hk. unfold assoc. cbn. by rewrite bool_decide_false. Qed.

(** Reads a field of a payload that was just written. *)
Ltac payload_field := rewrite payload_get_dict; repeat (rewrite field_next by done); rewrite field_here.

Lemma contiguous_counting n : Z.of_nat <$> seq 0 n = counting 0 n.
Proof. unfold counting. apply list_fmap_ext. intros; lia. Qed.

Lemma counting_snoc n len : counting n (S len) = counting n len ++ [n + Z.of_nat len].
Proof. unfold counting. by rewrite seq_S, fmap_app. Qed.

Lemma list_last_cons {A} (l : list A) x a : List.last (x :: l) a = List.last l x.
Proof. revert x a. induction l as [|y l IH]; intros x a; [done|]. rewrite (IH y x), <- (IH y a). done. Qed.

Lemma list_last_snoc {A} (l : list A) x a : List.last (l ++ [x]) a = x.
Proof. apply List.last_last. Qed.

Lemma foldl_max_spec l z : foldl Z.max z l ∈ z :: l ∧ ∀ x, x ∈ z :: l → x ≤ foldl Z.max z l.
Proof.
  revert z. induction l as [|y l IH]; intros z; cbn [foldl]; [set_solver by lia|]. destruct (IH (z `max` y)) as [Hin Hle]. split.
  - apply elem_of_cons in Hin as [->|Hin]; [|set_solver]. destruct (Z.max_spec z y) as [[_ ->]|[_ ->]]; set_solver.
  - intros x Hx. pose proof (Hle (z `max` y) ltac:(by left)). apply elem_of_cons in Hx as [->|Hx]; [lia|].
    apply elem_of_cons in Hx as [->|Hx]; [lia|]. apply Hle. by right.
Qed.

Lemma column_max_counting l n : l ≡ₚ counting 0 (S n) → column_max l = Some (Z.of_nat n).
Proof.
  intros Hp. destruct l as [|z l]; [apply Permutation_length in Hp; unfold counting in Hp; by rewrite length_fmap in Hp|]. cbn [column_max]. f_equal.
  destruct (foldl_max_spec l z) as [Hin Hle]. rewrite Hp in Hin. apply counting_elem in Hin.
  assert (Z.of_nat n ∈ z :: l) as Hn by (rewrite Hp; apply counting_elem; lia). apply Hle in Hn. lia.
Qed.

#[global] Instance lex_le_antisym : AntiSymm (=) lex_le.
Proof.
  intros [a b] [a' b']. unfold lex_le. cbn. intros [H1 H2] [H3 H4]. assert (a = a') as <- by (by apply (anti_symm String.le)).
  f_equal. apply (anti_symm String.le); auto.
Qed.

#[global] Instance clock_le_trans : Transitive clock_le.
Proof.
  intros a b c. unfold clock_le. cbv zeta. intros [[Hn1 H1]|[E1 H1]] [[Hn2 H2]|[E2 H2]].
  - left. split; [|by etrans]. intros E. rewrite E in H1. apply Hn2. by apply (anti_symm lex_le).
  - left. by rewrite <- E2.
  - left. by rewrite E1.
  - right. split; [by etrans | by etrans].
Qed.

#[global] Instance clock_le_total : Total clock_le.
Proof.
  intros a b. unfold clock_le. cbv zeta. destruct (decide ((fc_policy_digest a, fc_family_id a) = (fc_policy_digest b, fc_family_id b))) as [E|E].
  - destruct (total order_le (fc_finalized_order a) (fc_finalized_order b)); [left | right]; right; by split.
  - destruct (total lex_le (fc_policy_digest a, fc_family_id a) (fc_policy_digest b, fc_family_id b)); [left | right]; left; split; done || congruence.
Qed.

Section audit.
Context {sha : Sha256} (scope_digest : string) (env : LedgerEnv).

Lemma balance_from_dict_wf v b : DebtClaimBalance_from_dict v = Ok b → balance_wf b.
Proof. unfold DebtClaimBalance_from_dict. intros Hb. inv_checks Hb. apply DebtClaimBalance_init_Ok in Hb. tauto. Qed.

Lemma balance_from_row_wf row b : _balance_from_row row = Ok b → balance_wf b ∧ br_balance_digest row = DebtClaimBalance_digest b ∧ db_claim_digest b = br_claim_digest row.
Proof.
  unfold _balance_from_row, reopen_text. intros Hb. apply bind_Ok in Hb as (c & Hc & Hb). destruct (loads _); [|done]. inv_checks Hc.
  inv_checks Hb. bool_prop. subst c. split; [by eapply balance_from_dict_wf | done].
Qed.

(** What an insert of a balance writes reads back. *)
Lemma balance_row_reads b revision event : balance_wf b → _balance_from_row (balance_row b revision event) = Ok b.
Proof.
  intros Hb. unfold _balance_from_row, reopen_text, catching. cbn [balance_row br_balance_json loads]. rewrite balance_roundtrip by done.
  cbn [reraise bind br_balance_digest br_claim_digest br_principal_units br_paid_units br_forfeited_units br_remaining_units br_status
    br_terminal_block br_terminal_reason text_is]. rewrite !Z.eqb_refl, !bool_decide_true, same_json_refl by (done || apply balance_dict_canonical). done.
Qed.

(** ** Histories *)

(** [history_regressed] as a proposition. *)
Definition advances (a b : DebtClaimBalance) : Prop :=
  db_status a = "open" ∧ db_paid_units a ≤ db_paid_units b ∧ db_forfeited_units a ≤ db_forfeited_units b ∧
  db_remaining_units b < db_remaining_units a.

Lemma history_regressed_false a b : history_regressed a b = false ↔ advances a b.
Proof. unfold history_regressed, advances. split; [intros; bool_prop; done || lia | intros (? & ? & ? & ?); bool_goal]. Qed.

Fixpoint advancing (a : DebtClaimBalance) (l : list DebtClaimBalance) : Prop :=
  match l with [] => True | b :: l => advances a b ∧ advancing b l end.

Lemma check_history_Ok a l : check_history a l = Ok tt ↔ advancing a l.
Proof.
  revert a. induction l as [|b l IH]; intros a; cbn [check_history advancing]; [done|]. rewrite <- history_regressed_false, <- IH, bind_Ok.
  setoid_rewrite raise_if_Ok. split; [by intros ([] & ? & ?) | intros [? ?]; by exists tt].
Qed.

Lemma advancing_snoc a l b : advancing a (l ++ [b]) ↔ advancing a l ∧ advances (List.last l a) b.
Proof.
  revert a. induction l as [|c l IH]; intros a; cbn [app advancing]; [cbn; tauto|]. rewrite IH, list_last_cons. tauto.
Qed.

Lemma check_revisions_snoc t claim prior l row b :
  check_revisions t claim prior (l ++ [(row, b)]) = Ok tt ↔
  check_revisions t claim prior l = Ok tt ∧
  check_revision t claim (match last l with Some x => Some x.2 | None => prior end) row b = Ok tt.
Proof.
  revert prior. induction l as [|[r c] l IH]; intros prior; cbn [app check_revisions last].
  - rewrite bind_Ok. split; [by intros ([] & ? & _) | intros [_ ?]; by exists tt].
  - rewrite !bind_Ok. setoid_rewrite IH. destruct l as [|x l]; [cbn; naive_solver|].
    replace (last ((r, c) :: x :: l)) with (last (x :: l)) by done. destruct (last (x :: l)) eqn:E; [naive_solver|]. by apply last_None in E.
Qed.

(** The balances of a claim that the audit accepts. *)
Record history (t : DebtTables) (claim : InnovationDebtClaim) (balances : list DebtClaimBalance) (s : DebtClaimState) : Prop := {
  hi_rows : mapM _balance_from_row (balances_of t (InnovationDebtClaim_digest claim)) = Ok balances;
  hi_revisions : br_revision <$> balances_of t (InnovationDebtClaim_digest claim) = counting 0 (length balances);
  hi_events : check_revisions t claim None (zip (balances_of t (InnovationDebtClaim_digest claim)) balances) = Ok tt;
  hi_shape : ∃ first later, balances = first :: later ∧ DebtClaimBalance_open claim = Ok first ∧ advancing first later ∧
    DebtClaimState_init claim (List.last later first) = Ok s
}.

Lemma claim_state_Ok t row s :
  claim_state scope_digest env t row = Ok s ↔
  ∃ claim balances, claim_backed scope_digest env t row claim ∧ history t claim balances s.
Proof.
  unfold claim_state. split.
  - intros (claim & Hc & Hs)%bind_Ok. cbv zeta in Hs. inv_checks Hs. apply orb_false_iff in Hv as [_ Hrev]. bool_prop.
    destruct v0 as [|first later]; [done|]. inv_checks Hs. bool_prop. repeat match goal with u : () |- _ => destruct u end.
    match goal with H : first = ?o |- _ => symmetry in H; subst o end. exists claim, (first :: later).
    split; [by apply claim_from_row_Ok|]. rewrite contiguous_counting in Hrev.
    assert (length (balances_of t (InnovationDebtClaim_digest claim)) = length (first :: later)) as Hl.
    { match goal with H : mapM _ _ = Ok _ |- _ => apply mapM_Ok, Forall2_length in H as -> end. done. }
    constructor; [done | by rewrite Hrev, Hl | done|]. exists first, later. split; [done|]. split; [done|].
    split; [by apply check_history_Ok | done].
  - intros (claim & balances & Hc%claim_from_row_Ok & [Hr Hn He (first & later & -> & Ho & Ha & Hs)]). rewrite Hc. cbn [bind].
    pose proof Hr as Hl%mapM_Ok%Forall2_length. destruct (balances_of t (InnovationDebtClaim_digest claim)) as [|b l] eqn:Hb; [done|].
    rewrite <- Hb in *. rewrite contiguous_counting, Hl, bool_decide_true by done. replace (is_nil _) with false by (by rewrite Hb). cbn [raise_if bind negb orb].
    rewrite Hr. cbn [bind]. rewrite Ho. cbn [bind]. rewrite bool_decide_true by done. cbn [raise_if bind negb]. rewrite He. cbn [bind].
    rewrite (proj2 (check_history_Ok _ _) Ha). done.
Qed.

(** ** Appending a revision *)

Lemma history_state t claim balances s :
  history t claim balances s → last balances = Some (ds_balance s) ∧ ds_claim s = claim ∧ Forall balance_wf balances ∧ linked claim (ds_balance s).
Proof.
  intros [Hr _ _ (first & later & -> & _ & _ & Hs)]. apply DebtClaimState_init_Ok in Hs as (-> & Hl & _). cbn.
  split; [|split; [done | split; [|done]]].
  - clear. revert first. induction later as [|b l IH]; intros first; [done|]. by rewrite last_cons_cons, list_last_cons.
  - apply mapM_Ok in Hr. apply Forall_forall. intros b Hb. apply list_elem_of_lookup in Hb as (i & Hi).
    destruct (Forall2_lookup_r _ _ _ _ _ Hr Hi) as (row & _ & Hrow). by apply balance_from_row_wf in Hrow as [? _].
Qed.

Lemma next_revision_history t claim balances s :
  history t claim balances s → next_revision t (InnovationDebtClaim_digest claim) = Ok (Z.of_nat (length balances)).
Proof.
  intros [_ Hn _ (first & later & -> & _)]. unfold next_revision. rewrite (column_max_counting _ (length later)); [f_equal; cbn; lia|].
  cbn [length] in Hn. rewrite <- Hn. unfold balances_of. by rewrite order_by_perm.
Qed.

Lemma balances_of_add t row k :
  Forall (λ b, br_claim_digest b = k → br_revision b ≤ br_revision row) (dt_balances t) →
  balances_of (add_balance row t) k = balances_of t k ++ (if bool_decide (br_claim_digest row = k) then [row] else []).
Proof.
  intros Hle. unfold balances_of. cbn [add_balance dt_balances]. rewrite List.filter_app. cbn [List.filter].
  case_bool_decide; [|by rewrite !app_nil_r]. apply order_by_snoc. apply Forall_forall. intros b [Hk Hb]%filterb_elem. bool_prop.
  rewrite Forall_forall in Hle. auto.
Qed.

(** One more revision of a claim's history, written by an event of [t']. *)
Lemma history_snoc t t' claim balances s b event s' :
  history t claim balances s →
  balances_of t' (InnovationDebtClaim_digest claim) =
    balances_of t (InnovationDebtClaim_digest claim) ++ [balance_row b (Z.of_nat (length balances)) event] →
  (∀ prior rows, check_revisions t claim prior rows = Ok tt → check_revisions t' claim prior rows = Ok tt) →
  balance_wf b → advances (ds_balance s) b → DebtClaimState_init claim b = Ok s' →
  check_revision t' claim (Some (ds_balance s)) (balance_row b (Z.of_nat (length balances)) event) b = Ok tt →
  history t' claim (balances ++ [b]) s'.
Proof.
  intros Hh Hbal Hmono Hwf Hadv Hinit Hrev. pose proof (history_state _ _ _ _ Hh) as (Hlast & _ & _ & _).
  destruct Hh as [Hr Hn He (first & later & -> & Ho & Ha & Hs)].
  pose proof Hr as Hl%mapM_Ok%Forall2_length. constructor; [rewrite Hbal..|].
  - apply mapM_Ok, Forall2_app; [by apply mapM_Ok|]. constructor; [|constructor]. by apply balance_row_reads.
  - rewrite fmap_app, Hn, length_app, Nat.add_1_r, counting_snoc. done.
  - rewrite zip_with_app by done. apply check_revisions_snoc. split; [by apply Hmono|].
    replace (last (zip _ (first :: later))) with (Some (List.last (balances_of t (InnovationDebtClaim_digest claim)) (balance_row b 0 ""), ds_balance s)); [done|].
    clear -Hlast Hl. revert Hl Hlast. generalize (balances_of t (InnovationDebtClaim_digest claim)) (first :: later). intros rows bs.
    revert bs. induction rows as [|r rows IH]; intros [|x bs]; [done..|]. cbn [length]. intros [= Hl]. destruct bs as [|y bs], rows as [|z rows]; try done.
    + by intros [= ->].
    + rewrite last_cons_cons. intros Hy. specialize (IH (y :: bs) Hl Hy). done.
  - exists first, (later ++ [b]). split; [done|]. split; [done|]. split; [|by rewrite list_last_snoc].
    apply advancing_snoc. split; [done|]. apply DebtClaimState_init_Ok in Hs as (-> & _). done.
Qed.

(** ** Clocks *)

Lemma clock_check_Ok c c' : FiniteDebtFamilyClock_check c = Ok c' → c' = c.
Proof. unfold FiniteDebtFamilyClock_check. intros H. by inv_checks H. Qed.

Lemma clock_checks l k : mapM FiniteDebtFamilyClock_check l = Ok k → k = l.
Proof. intros H%mapM_Ok. induction H as [|x y l k Hx _ IH]; [done|]. apply clock_check_Ok in Hx as ->. by rewrite IH. Qed.

Lemma clock_checks_perm l k : l ≡ₚ k → is_ok (mapM FiniteDebtFamilyClock_check l) = true → is_ok (mapM FiniteDebtFamilyClock_check k) = true.
Proof.
  rewrite !is_ok_true. intros Hp [l' Hl]. pose proof (clock_checks _ _ Hl) as ->. exists k. apply mapM_Ok in Hl. apply mapM_Ok.
  destruct (Permutation_Forall2 Hp Hl) as (k' & Hp' & Hf). assert (k' = k) as -> by (by apply clock_checks, mapM_Ok). done.
Qed.

(** The clocks the audit accepts: each is well-formed, and they are the ones the
    events give. *)
Record clocks_audited (t : DebtTables) (es : list RewardEvent) (r : ClockReplay) : Prop := {
  ca_events : reward_events scope_digest t = Ok es;
  ca_replay : replay_events scope_digest env t es empty_replay = Ok r;
  ca_activations : size (ry_activations r) = length (dt_activations t);
  ca_claims : size (ry_claims r) = length (dt_claims t);
  ca_wf : is_ok (mapM FiniteDebtFamilyClock_check (dt_clocks t)) = true;
  ca_clocks : clocks_in_order (dt_clocks t) = clocks_in_order (ry_expected r)
}.

Lemma audited_clocks_Ok t cl :
  audited_clocks scope_digest env t = Ok cl ↔ cl = clocks_in_order (dt_clocks t) ∧ ∃ es r, clocks_audited t es r.
Proof.
  unfold audited_clocks. split.
  - intros (es & Hes & (r & Hr & H)%bind_Ok)%bind_Ok. inv_checks H. bool_prop. apply clock_checks in Hv1 as Hv1'. subst. split; [done|].
    exists es, r. constructor; [done | done | lia | lia | | done]. apply (clock_checks_perm (clocks_in_order (dt_clocks t)));
      [apply stable_sort_perm | apply is_ok_true; by eexists].
  - intros (-> & es & r & [Hes Hr Ha Hc Hw Hk]). rewrite Hes. cbn [bind]. rewrite Hr. cbn [bind]. rewrite Ha, Hc, !Z.eqb_refl. cbn [negb raise_if bind].
    assert (is_ok (mapM FiniteDebtFamilyClock_check (clocks_in_order (dt_clocks t))) = true) as [k Hk']%is_ok_true.
    { eapply clock_checks_perm; [|exact Hw]. symmetry. apply stable_sort_perm. }
    rewrite Hk'. apply clock_checks in Hk' as ->. cbn [bind]. by rewrite Hk, bool_decide_true.
Qed.

Lemma replay_events_app t es fs r :
  replay_events scope_digest env t (es ++ fs) r = bind (replay_events scope_digest env t es r) (replay_events scope_digest env t fs).
Proof. revert r. induction es as [|e es IH]; intros r; cbn [app replay_events bind]; [done|]. destruct (replay_event _ _ _ _ _); cbn [bind]; [apply IH | done]. Qed.

(** What every step of the replay keeps: the latest clock of a family is the last
    one expected for it, and those of a family are in strict order. *)
Definition of_family (key : string * string) (c : FiniteDebtFamilyClock) : bool :=
  bool_decide ((fc_policy_digest c, fc_family_id c) = key).

Record replay_ok (r : ClockReplay) : Prop := {
  ro_latest : ∀ key, ry_latest r !! key = last (List.filter (of_family key) (ry_expected r));
  ro_sorted : ∀ key, StronglySorted (λ a b, order_le (fc_finalized_order a) (fc_finalized_order b))
    (List.filter (of_family key) (ry_expected r))
}.

Lemma replay_ok_empty : replay_ok empty_replay.
Proof. constructor; intros key; [apply lookup_empty | constructor]. Qed.

Lemma append_clock_ok c r r' : append_clock c r = Ok r' → replay_ok r → replay_ok r'.
Proof.
  unfold append_clock. intros H [Hl Hs]. inv_checks H. subst r'. constructor; intros key; cbn [ry_latest ry_expected];
    rewrite List.filter_app; cbn [List.filter]; unfold of_family at 2; case_bool_decide as Hk.
  - rewrite Hk, lookup_insert_eq, last_snoc. done.
  - by rewrite lookup_insert_ne, app_nil_r.
  - rewrite Hk in Hv. specialize (Hl key). specialize (Hs key). revert Hl Hs Hv. generalize (List.filter (of_family key) (ry_expected r)). intros l Hl Hs Hv.
    apply StronglySorted_app_2; [|done | by repeat constructor]. intros x y Hx ->%list_elem_of_singleton.
    destruct l as [|z l _] using rev_ind; [by apply not_elem_of_nil in Hx|]. rewrite last_snoc in Hl. rewrite Hl in Hv.
    unfold order_leb in Hv. bool_prop. assert (order_le (fc_finalized_order z) (fc_finalized_order c)) as Hz by (by destruct (total order_le (fc_finalized_order z) (fc_finalized_order c))).
    apply elem_of_app in Hx as [Hx|Hx]; [|by apply list_elem_of_singleton in Hx as ->]. etrans; [|exact Hz]. apply (StronglySorted_app_1_elem_of _ _ _ x z Hs Hx). by left.
  - by rewrite app_nil_r.
Qed.

Lemma append_checked_ok c r r' : append_checked c r = Ok r' → replay_ok r → replay_ok r'.
Proof. unfold append_checked. intros (c' & _ & H)%bind_Ok. by eapply append_clock_ok. Qed.

Lemma append_seeds_ok p d seeds r r' : append_seeds p d seeds r = Ok r' → replay_ok r → replay_ok r'.
Proof.
  revert r. induction seeds as [|s seeds IH]; intros r; cbn [append_seeds]; [by intros [= ->]|].
  intros (r1 & Hr & H)%bind_Ok Hok. eapply IH; [exact H|]. by eapply append_checked_ok.
Qed.

Lemma crown_outcome_ok d r r' : crown_outcome d r = Ok r' → replay_ok r → replay_ok r'.
Proof. unfold crown_outcome. intros H [? ?]. inv_checks H. subst r'. by constructor. Qed.

Lemma replay_event_ok t e r r' : replay_event scope_digest env t e r = Ok r' → replay_ok r → replay_ok r'.
Proof.
  unfold replay_event. intros H Hok. repeat case_bool_decide.
  - unfold replay_activation in H. destruct (activation_of_event _ _); [|done]. inv_checks H. eapply append_seeds_ok; [exact H|].
    destruct Hok. by constructor.
  - unfold replay_claim in H. destruct (claim_of_event _ _); [|done]. inv_checks H.
    match goal with E : crown_outcome _ _ = Ok ?x |- _ => apply crown_outcome_ok in E; [|done]; assert (replay_ok (saw_claim (InnovationDebtClaim_digest v) x)) as Hs
      by (destruct E; by constructor) end.
    destruct (ic_resets_clock _); [by eapply append_checked_ok | injection H as <-; done].
  - unfold replay_no_issue in H. apply bind_Ok in H as ([[[a c] reason] arrival] & _ & H). inv_checks H.
    match goal with E : crown_outcome _ _ = Ok ?x |- _ => apply crown_outcome_ok in E; [|done] end.
    match goal with E : no_issue_reason _ _ _ _ _ _ _ = Ok ?x |- _ => destruct x as [valid [units|]] end; cbn [snd] in H; [|by injection H as <-]. case_bool_decide; [|by injection H as <-].
    inv_checks H. match type of H with (if ?b then _ else _) = _ => destruct b end; [by eapply append_checked_ok | by injection H as <-].
  - unfold replay_invalidation in H. inv_checks H. by eapply append_clock_ok.
  - by injection H as <-.
Qed.

Lemma replay_events_ok t es r r' : replay_events scope_digest env t es r = Ok r' → replay_ok r → replay_ok r'.
Proof.
  revert r. induction es as [|e es IH]; intros r; cbn [replay_events]; [by intros [= ->]|].
  intros (r1 & Hr & H)%bind_Ok Hok. eapply IH; [exact H|]. by eapply replay_event_ok.
Qed.

Lemma family_clocks_sorted r key :
  replay_ok r → List.filter (of_family key) (clocks_in_order (ry_expected r)) = List.filter (of_family key) (ry_expected r).
Proof.
  intros [_ Hs]. unfold clocks_in_order. rewrite (stable_sort_filter clock_le). apply stable_sort_id. specialize (Hs key). revert Hs.
  assert (Forall (λ c, of_family key c = true) (List.filter (of_family key) (ry_expected r))) as Hf by (apply Forall_forall; by intros c [? _]%filterb_elem).
  revert Hf. generalize (List.filter (of_family key) (ry_expected r)). intros l Hf. induction 1 as [|c l Hs IH Hc]; [constructor|].
  apply Forall_cons in Hf as [Hk Hf]. constructor; [by apply IH|]. rewrite !Forall_forall in *. intros x Hx. right.
  specialize (Hf x Hx). unfold of_family in *. bool_prop. split; [congruence | by apply Hc].
Qed.

Lemma latest_clock_Ok t es r p f :
  clocks_audited t es r → digest_ok p → digest_ok f → _latest_clock scope_digest env p f t = Ok (ry_latest r !! (p, f)).
Proof.
  intros Ha Hp Hf. unfold _latest_clock, family_clocks, optional_digest.
  rewrite (proj2 (digest_column_Ok p p)), (proj2 (digest_column_Ok f f)) by done. cbn [bind].
  rewrite (proj2 (audited_clocks_Ok t (clocks_in_order (dt_clocks t)))) by eauto. cbn [bind]. f_equal.
  destruct Ha as [_ Hr _ _ _ ->]. pose proof (replay_events_ok _ _ _ _ Hr replay_ok_empty) as Hok. rewrite (ro_latest _ Hok).
  rewrite <- family_clocks_sorted by done. f_equal. apply List.filter_ext. intros c. unfold selected, of_family.
  apply eq_true_iff_eq. rewrite andb_true_iff, !bool_decide_eq_true. split; [by intros [-> ->] | by intros [= -> ->]].
Qed.
End audit.
