(* ===== verification/DebtSteps.v ===== *)
(** * Operations of the ledger keep its audit passing

    [ledger_ok] says that a store passes its audit with given claim states, under
    the constraints the database enforces.  A batch of balance revisions that one
    event authorises moves the states it names and leaves the others alone; the
    lifecycle, the invalidation and the close of an epoch are such batches. *)

From Stdlib Require Import ZArith Lia Ascii.
From stdpp Require Import base tactics numbers list strings gmap sorting.
From S2P Require Import Prelude PyValue Sha256 Identity Strict IdentityCorrect Provider FiniteDebt FiniteDebtBalance FiniteDebtPolicy.
From S2P Require Import FiniteDebtEpoch FiniteDebtClaims Composition Stack Release StackPlan StackPlanCorrect Settlement.
From S2P Require Import SettlementPlan SettlementFacts Publication Journal IntakeData Intake DebtPublication DebtStoreData DebtStore.
From S2P Require Import DebtLedger DebtFrame DebtAudit.

Lemma mapM_filter {A B} (f : A → result B) (p : A → bool) (q : B → bool) l k :
  mapM f l = Ok k → (∀ x y, x ∈ l → f x = Ok y → p x = q y) → mapM f (List.filter p l) = Ok (List.filter q k).
Proof.
  intros Hl%mapM_Ok Hpq. apply mapM_Ok. induction Hl as [|x y l k Hx _ IH]; [constructor|]. cbn [List.filter].
  rewrite (Hpq x y) by (by left || done). specialize (IH (λ a b Ha, Hpq a b (list_elem_of_further _ _ _ Ha))).
  destruct (q y); [by constructor | done].
Qed.

Lemma mapM_elem {A B} (f : A → result B) l k y : mapM f l = Ok k → y ∈ k → ∃ x, x ∈ l ∧ f x = Ok y.
Proof.
  intros Hl%mapM_Ok (i & Hi)%list_elem_of_lookup. destruct (Forall2_lookup_r _ _ _ _ _ Hl Hi) as (x & Hx & Hf).
  exists x. split; [by eapply list_elem_of_lookup_2 | done].
Qed.

Definition add_balances (rows : list BalanceRow) (t : DebtTables) : DebtTables :=
  {| dt_events := dt_events t; dt_activations := dt_activations t; dt_clocks := dt_clocks t; dt_claims := dt_claims t;
     dt_balances := dt_balances t ++ rows; dt_epochs := dt_epochs t; dt_allocations := dt_allocations t |}.

(** ** Transitions in an event's payload *)

Lemma transition_claim a b c a' b' c' : py_eq (transition_dict a b c) (transition_dict a' b' c') = true → c = c'.
Proof.
  unfold transition_dict, py_dict. cbn. intros (_ & (_ & (H & _)%andb_true_iff)%andb_true_iff)%andb_true_iff.
  repeat (apply orb_true_iff in H as [H|H]); [apply andb_true_iff in H as [H1 H2]; bool_prop; congruence..|done].
Qed.

Lemma debt_transition_canonical a b c : is_canonical (transition_dict a b c) = true.
Proof. done. Qed.

(** Among transitions of distinct claims each is authorised once. *)
Lemma authorised_once_elem {A} (f : A → pyval) (key after before : A → string) l x :
  (∀ y, f y = transition_dict (after y) (before y) (key y)) → NoDup (key <$> l) → x ∈ l → authorised_once (f x) (PList (f <$> l)) = true.
Proof.
  intros Hf Hn Hx. unfold authorised_once. apply bool_decide_eq_true_2. induction l as [|y l IH]; [by apply not_elem_of_nil in Hx|].
  rewrite fmap_cons in *. apply NoDup_cons in Hn as [Hy Hn]. cbn [List.filter]. apply elem_of_cons in Hx as [->|Hx].
  - rewrite py_eq_refl by (rewrite Hf; apply debt_transition_canonical). cbn [length]. f_equal. rewrite filterb_none; [done|].
    apply Forall_fmap, Forall_forall. intros z Hz. cbn. apply not_true_is_false. rewrite !Hf. intros E%transition_claim. apply Hy. rewrite <- E. by apply list_elem_of_fmap_2.
  - destruct (py_eq (f y) (f x)) eqn:E; [|by apply IH]. rewrite !Hf in E. apply transition_claim in E. exfalso. apply Hy. rewrite E. by apply list_elem_of_fmap_2.
Qed.

Lemma claim_find_elem (t : DebtTables) k row : find_claim t k = Some row → row ∈ dt_claims t ∧ cr_claim_digest row = k.
Proof. intros Hf. apply List.find_some in Hf as [Hf Hk]. bool_prop. split; [by apply list_elem_of_In | done]. Qed.

Section steps.
Context {sha : Sha256} (scope_digest : string) (env : LedgerEnv).

(** What the database enforces: the [UNIQUE] columns that lookups rely on, and the
    reference of a balance to its claim. *)
Record schema_ok (t : DebtTables) : Prop := {
  so_claims : NoDup (cr_claim_digest <$> dt_claims t);
  so_owned : Forall (λ b, is_Some (find_claim t (br_claim_digest b))) (dt_balances t);
  so_activations : NoDup (ar_activation_digest <$> dt_activations t);
  so_policies : NoDup (ar_policy_digest <$> dt_activations t)
}.

Record ledger_ok (t : DebtTables) (states : list DebtClaimState) : Prop := {
  lo_clocks : ∃ es r, clocks_audited scope_digest env t es r;
  lo_states : mapM (claim_state scope_digest env t) (claim_rows None t) = Ok states;
  lo_schema : schema_ok t
}.

Lemma filter_true {A} (l : list A) : List.filter (λ _, true) l = l.
Proof. induction l as [|x l IH]; cbn; [done | by rewrite IH]. Qed.

Lemma claim_rows_all t : claim_rows None t = sorted_by cr_claim_digest (dt_claims t).
Proof. unfold claim_rows. by rewrite filter_true. Qed.

Lemma ledger_ok_states t states : ledger_ok t states → _claim_states scope_digest env None t = Ok states.
Proof.
  intros [(es & r & Hr) Hs _]. unfold _claim_states, family_clocks. cbn [optional_digest bind].
  rewrite (proj2 (audited_clocks_Ok _ _ t (clocks_in_order (dt_clocks t)))) by eauto. cbn [bind]. done.
Qed.

Lemma states_ledger_ok t states :
  _claim_states scope_digest env None t = Ok states → schema_ok t → ledger_ok t states.
Proof.
  unfold _claim_states, family_clocks. cbn [optional_digest bind]. intros (cl & Hc & Hs)%bind_Ok ?.
  apply bind_Ok in Hc as (cl' & Hc & _). apply audited_clocks_Ok in Hc as (_ & Hc). by constructor.
Qed.

(** The claim, the row and the history behind a state. *)
Lemma state_history t states s :
  ledger_ok t states → s ∈ states →
  ∃ row balances, row ∈ dt_claims t ∧ claim_backed scope_digest env t row (ds_claim s) ∧ history t (ds_claim s) balances s ∧
    cr_claim_digest row = claim_key s.
Proof.
  intros Hok Hs. destruct (mapM_elem _ _ _ _ (lo_states _ _ Hok) Hs) as (row & Hrow & Hc). rewrite claim_rows_all, sorted_by_perm in Hrow.
  apply claim_state_Ok in Hc as (claim & balances & Hb & Hh). pose proof (history_state _ _ _ _ Hh) as (_ & <- & _).
  exists row, balances. split; [done|]. split; [done|]. split; [done|]. symmetry. by eapply claim_backed_digest.
Qed.

Lemma state_keys t states : ledger_ok t states → claim_key <$> states = cr_claim_digest <$> claim_rows None t.
Proof.
  intros [_ Hs _]. apply mapM_Ok in Hs. induction Hs as [|row s rows ss Hrow _ IH]; [done|]. rewrite !fmap_cons, IH. f_equal.
  apply claim_state_Ok in Hrow as (claim & balances & Hb & Hh). pose proof (history_state _ _ _ _ Hh) as (_ & <- & _).
  by eapply claim_backed_digest.
Qed.

Lemma state_keys_NoDup t states : ledger_ok t states → NoDup (claim_key <$> states).
Proof. intros Hok. rewrite (state_keys _ _ Hok), claim_rows_all. rewrite sorted_by_perm. apply (lo_schema _ _ Hok). Qed.

Lemma state_keys_sorted t states : ledger_ok t states → sorted_by claim_key states = states.
Proof.
  intros Hok. apply sorted_by_stable. pose proof (sorted_by_sorted cr_claim_digest (dt_claims t)) as Hs.
  apply StronglySorted_key_fmap in Hs. rewrite <- claim_rows_all, <- (state_keys _ _ Hok) in Hs. by apply StronglySorted_key_fmap.
Qed.

(** The states of one policy. *)
Lemma ledger_ok_policy t states p :
  ledger_ok t states → digest_ok p →
  _claim_states scope_digest env (Some p) t = Ok (List.filter (λ s, bool_decide (ic_policy_digest (ds_claim s) = p)) states).
Proof.
  intros [(es & r & Hr) Hs Hn] Hp. unfold _claim_states, family_clocks, optional_digest.
  rewrite !(proj2 (digest_column_Ok p p)) by done. cbn [bind].
  rewrite (proj2 (audited_clocks_Ok _ _ t (clocks_in_order (dt_clocks t)))) by eauto. cbn [bind].
  unfold claim_rows, sorted_by. rewrite <- (stable_sort_filter (key_le cr_claim_digest)).
  rewrite claim_rows_all in Hs. apply mapM_filter; [exact Hs|]. intros row s _ Hrow.
  apply claim_state_Ok in Hrow as (claim & balances & Hb & Hh). pose proof (history_state _ _ _ _ Hh) as (_ & <- & _).
  destruct Hb as [_ Hd _ _]. unfold claim_row_differs in Hd. bool_prop.
  by match goal with H : ic_policy_digest _ = _ |- _ => rewrite H end.
Qed.

(** ** A batch of revisions *)

Lemma insert_balance_Ok b revision event t t' : _insert_balance b revision event t = Ok t' → t' = add_balance (balance_row b revision event) t.
Proof. unfold _insert_balance. intros H. inv_checks H. columns. done. Qed.

(** The next revision of a claim. *)
Definition revision_of (t : DebtTables) (key : string) : Z := match next_revision t key with Ok n => n | Raise _ => 0 end.

Definition revision_row (t : DebtTables) (event : string) (p : DebtClaimState * DebtClaimState) : BalanceRow :=
  balance_row (ds_balance p.2) (revision_of t (claim_key p.1)) event.

Definition pair_key (p : DebtClaimState * DebtClaimState) : string := claim_key p.1.

Lemma next_revision_other t row k : br_claim_digest row ≠ k → next_revision (add_balance row t) k = next_revision t k.
Proof.
  intros Hk. unfold next_revision. cbn [add_balance dt_balances]. rewrite List.filter_app. cbn [List.filter].
  rewrite bool_decide_false by done. by rewrite app_nil_r.
Qed.

(** A revision names an event whose digest is not all zeros. *)
Lemma revise_all_digest event pairs t t' :
  insert_all (λ p, revise_balance event (pair_key p) (ds_balance p.2)) pairs t = Ok t' → pairs = [] ∨ digest_ok event.
Proof.
  destruct pairs as [|p pairs]; cbn [insert_all]; [by left|]. intros (t1 & (n & _ & Hb)%bind_Ok & _)%bind_Ok. right.
  unfold _insert_balance in Hb. inv_checks Hb. columns. done.
Qed.

Lemma revise_all_Ok event pairs t t' :
  insert_all (λ p, revise_balance event (pair_key p) (ds_balance p.2)) pairs t = Ok t' →
  NoDup (pair_key <$> pairs) → Forall (λ p, db_claim_digest (ds_balance p.2) = pair_key p) pairs →
  t' = add_balances (revision_row t event <$> pairs) t.
Proof.
  revert t. induction pairs as [|p pairs IH]; intros t; cbn [insert_all].
  - intros [= <-] _ _. destruct t. unfold add_balances. cbn. by rewrite app_nil_r.
  - intros (t1 & Ht1 & H)%bind_Ok Hn Hk. rewrite fmap_cons in Hn. apply NoDup_cons in Hn as [Hp Hn]. apply Forall_cons in Hk as [Hkp Hk].
    unfold revise_balance in Ht1. apply bind_Ok in Ht1 as (n & Hnext & ->%insert_balance_Ok).
    rewrite (IH _ H Hn Hk). unfold add_balances, revision_row at 2. cbn [fmap list_fmap add_balance dt_events dt_activations dt_clocks dt_claims dt_balances dt_epochs dt_allocations].
    f_equal. rewrite <- app_assoc. f_equal. cbn [app]. f_equal.
    + unfold revision_of. unfold pair_key in Hnext. by rewrite Hnext.
    + apply list_fmap_ext. intros i q Hq. unfold revision_row, revision_of. fold (pair_key q). rewrite next_revision_other; [done|].
      cbn [balance_row br_claim_digest]. rewrite Hkp. intros E. apply Hp. rewrite E. apply list_elem_of_fmap_2. by eapply list_elem_of_lookup_2.
Qed.

Lemma find_pair pairs p k :
  NoDup (pair_key <$> pairs) → p ∈ pairs → pair_key p = k → List.find (λ q, bool_decide (pair_key q = k)) pairs = Some p.
Proof.
  intros Hn Hp <-. destruct (List.find _ pairs) as [q|] eqn:Hf.
  - apply List.find_some in Hf as [Hq Hk]. bool_prop. f_equal. eapply NoDup_fmap_inj_elem; [exact Hn | by apply list_elem_of_In | done | done].
  - apply list_elem_of_In in Hp. apply (List.find_none _ _ Hf) in Hp. by rewrite bool_decide_true in Hp.
Qed.

(** The state after the batch. *)
Definition moved (pairs : list (DebtClaimState * DebtClaimState)) (s : DebtClaimState) : DebtClaimState :=
  match List.find (λ p, bool_decide (pair_key p = claim_key s)) pairs with Some p => p.2 | None => s end.

(** The balances of a claim after the batch. *)
Lemma batch_balances t event pairs k :
  Forall (λ p, db_claim_digest (ds_balance p.2) = pair_key p) pairs → NoDup (pair_key <$> pairs) →
  (∀ p b, p ∈ pairs → b ∈ dt_balances t → br_claim_digest b = pair_key p → br_revision b ≤ revision_of t (pair_key p)) →
  order_by br_revision (List.filter (λ b, bool_decide (br_claim_digest b = k)) (dt_balances t ++ (revision_row t event <$> pairs))) =
  balances_of t k ++ match List.find (λ p, bool_decide (pair_key p = k)) pairs with Some p => [revision_row t event p] | None => [] end.
Proof.
  intros Hk Hn Hle. rewrite List.filter_app. unfold balances_of. destruct (List.find _ pairs) as [p|] eqn:Hf.
  - apply List.find_some in Hf as [Hp Hkp]. bool_prop. apply list_elem_of_In in Hp.
    replace (List.filter _ (revision_row t event <$> pairs)) with [revision_row t event p]; cycle 1.
    { clear Hle. induction pairs as [|q pairs IH]; [by apply not_elem_of_nil in Hp|]. rewrite fmap_cons in *. cbn [List.filter].
      apply NoDup_cons in Hn as [Hq Hn]. apply Forall_cons in Hk as [Hkq Hk]. cbn [revision_row balance_row br_claim_digest]. rewrite Hkq.
      apply elem_of_cons in Hp as [->|Hp].
      - rewrite bool_decide_true by done. f_equal. symmetry. apply filterb_none. apply Forall_fmap, Forall_forall. intros x Hx. cbn.
        rewrite Forall_forall in Hk. rewrite (Hk x Hx). apply bool_decide_eq_false_2. intros E. apply Hq. rewrite Hkp, <- E. by apply list_elem_of_fmap_2.
      - rewrite bool_decide_false; [by apply IH|]. intros E. apply Hq. rewrite E, <- Hkp. by apply list_elem_of_fmap_2. }
    apply order_by_snoc. apply Forall_forall. intros b [Hb1 Hb]%filterb_elem. bool_prop. cbn. subst k. by apply (Hle p).
  - rewrite (filterb_none _ (revision_row t event <$> pairs)); [by rewrite !app_nil_r|]. apply Forall_fmap, Forall_forall. intros p Hp. cbn.
    rewrite Forall_forall in Hk. rewrite (Hk p Hp). by apply (List.find_none _ _ Hf), list_elem_of_In.
Qed.

(** A revision that the event [event] of [t'] authorises. *)
Record revises (t' : DebtTables) (event : string) (p : DebtClaimState * DebtClaimState) : Prop := {
  rv_wf : balance_wf (ds_balance p.2);
  rv_advances : advances (ds_balance p.1) (ds_balance p.2);
  rv_state : DebtClaimState_init (ds_claim p.1) (ds_balance p.2) = Ok p.2;
  rv_event : ∀ n, check_revision t' (ds_claim p.1) (Some (ds_balance p.1)) (balance_row (ds_balance p.2) n event) (ds_balance p.2) = Ok tt
}.

Lemma history_revision t claim balances s :
  history t claim balances s →
  revision_of t (InnovationDebtClaim_digest claim) = Z.of_nat (length balances) ∧
  ∀ b, b ∈ dt_balances t → br_claim_digest b = InnovationDebtClaim_digest claim → br_revision b ≤ Z.of_nat (length balances).
Proof.
  intros Hh. split; [unfold revision_of; by rewrite (next_revision_history _ _ _ _ Hh)|]. intros b Hb Hk.
  assert (br_revision b ∈ br_revision <$> balances_of t (InnovationDebtClaim_digest claim)) as Hr.
  { apply list_elem_of_fmap_2. unfold balances_of. rewrite order_by_perm. apply filterb_elem. split; [by apply bool_decide_eq_true_2 | done]. }
  rewrite (hi_revisions _ _ _ _ Hh) in Hr. apply counting_elem in Hr. lia.
Qed.

Lemma revises_key t' event p : revises t' event p → db_claim_digest (ds_balance p.2) = pair_key p ∧ ds_claim p.2 = ds_claim p.1.
Proof. intros [_ _ Hs _]. apply DebtClaimState_init_Ok in Hs as (-> & [Hl _] & _). done. Qed.

Section batch.
Context (h : Z) (t t' : DebtTables) (states : list DebtClaimState) (event : string) (pairs : list (DebtClaimState * DebtClaimState)).
Context (Hok : ledger_ok t states) (X : extends scope_digest env h t t') (Hclaims : dt_claims t' = dt_claims t).
Context (Hbal : dt_balances t' = dt_balances t ++ (revision_row t event <$> pairs)).
Context (Hn : NoDup (pair_key <$> pairs)) (Hin : ∀ p, p ∈ pairs → p.1 ∈ states) (Hrev : ∀ p, p ∈ pairs → revises t' event p).

Lemma batch_balances_of k :
  balances_of t' k =
  balances_of t k ++ match List.find (λ p, bool_decide (pair_key p = k)) pairs with Some p => [revision_row t event p] | None => [] end.
Proof.
  unfold balances_of at 1. rewrite Hbal. apply batch_balances; [|done|].
  - apply Forall_forall. intros p Hp. by apply (revises_key t' event), Hrev.
  - intros p b Hp Hb Hk. destruct (state_history _ _ _ Hok (Hin p Hp)) as (row & balances & _ & _ & Hh & _).
    unfold pair_key, claim_key in *. destruct (history_revision _ _ _ _ Hh) as [-> Hle]. by apply Hle.
Qed.

Lemma batch_state row s :
  row ∈ dt_claims t → s ∈ states → claim_state scope_digest env t row = Ok s → claim_state scope_digest env t' row = Ok (moved pairs s).
Proof.
  intros Hrow Hs Hc. pose proof (batch_balances_of (cr_claim_digest row)) as Hb. apply claim_state_Ok in Hc as Hc'.
  destruct Hc' as (claim & balances & Hbk & Hh). pose proof (history_state _ _ _ _ Hh) as (_ & Hcl & _).
  pose proof (claim_backed_digest _ _ _ _ _ Hbk) as Hd. assert (claim_key s = cr_claim_digest row) as Hks by (unfold claim_key; by rewrite Hcl).
  unfold moved. rewrite Hks.
  destruct (List.find _ pairs) as [p|] eqn:Hf.
  - apply List.find_some in Hf as [Hp Hk]. bool_prop. apply list_elem_of_In in Hp.
    assert (p.1 = s) as Hps.
    { eapply NoDup_fmap_inj_elem; [by eapply state_keys_NoDup | by apply Hin | done|]. by rewrite Hks. }
    apply claim_state_Ok. exists claim, (balances ++ [ds_balance p.2]).
    split; [apply claim_from_row_Ok; eapply claim_mono; [exact X | by apply claim_from_row_Ok]|].
    destruct (Hrev p Hp) as [Hwf Hadv Hst Hev]. rewrite Hps in *. rewrite Hcl in *.
    eapply (history_snoc t); [exact Hh| |intros ? ?; eapply check_revisions_mono, X|exact Hwf|exact Hadv|exact Hst|exact (Hev _)].
    rewrite Hd, Hb. unfold revision_row. f_equal. f_equal. f_equal. fold (pair_key p). rewrite Hk, <- Hd. by apply (history_revision _ _ _ _ Hh).
  - eapply claim_state_mono; [exact X | by rewrite Hb, app_nil_r | done].
Qed.

Lemma batch_states : mapM (claim_state scope_digest env t') (claim_rows None t') = Ok (moved pairs <$> states).
Proof.
  pose proof (lo_states _ _ Hok) as Hs. rewrite claim_rows_all in *. rewrite Hclaims.
  assert (∀ row, row ∈ sorted_by cr_claim_digest (dt_claims t) → row ∈ dt_claims t) as Hsub by (intros row; by rewrite sorted_by_perm).
  apply mapM_Ok, Forall2_same_length_lookup in Hs as [Hl Hs]. apply mapM_Ok, Forall2_fmap_r, Forall2_same_length_lookup.
  split; [done|]. intros i row s Hrow Hsi. apply batch_state; [by eapply Hsub, list_elem_of_lookup_2 | by eapply list_elem_of_lookup_2|].
  by eapply Hs.
Qed.

Lemma batch_ledger_ok es r :
  dt_activations t' = dt_activations t → clocks_audited scope_digest env t' es r → ledger_ok t' (moved pairs <$> states).
Proof.
  intros Hact Hr. constructor; [by eauto | apply batch_states|]. pose proof (lo_schema _ _ Hok) as [Hc Ho Ha Hp].
  constructor; [by rewrite Hclaims | | by rewrite Hact..]. rewrite Hbal.
  assert (∀ k, find_claim t' k = find_claim t k) as Hfind by (intros k; unfold find_claim; by rewrite Hclaims).
  apply Forall_app. split; [|apply Forall_fmap]; apply Forall_forall.
  - intros b Hb. rewrite Forall_forall in Ho. rewrite Hfind. by apply Ho.
  - intros p Hpp. cbn. rewrite Hfind. destruct (revises_key _ _ _ (Hrev p Hpp)) as [-> _].
    destruct (state_history _ _ _ Hok (Hin p Hpp)) as (row & _ & Hrow & _ & _ & Hk). destruct (find_claim t _) as [c|] eqn:Hf; [by eexists|].
    exfalso. unfold find_claim in Hf. apply list_elem_of_In, (List.find_none _ _ Hf) in Hrow.
    by rewrite bool_decide_true in Hrow.
Qed.
End batch.

(** ** Extensions by one event *)

Definition block_bound (t : DebtTables) : Z := foldr Z.max 0 (er_block <$> dt_events t).

Lemma block_bound_le t : Forall (λ e, er_block e ≤ block_bound t) (dt_events t).
Proof.
  unfold block_bound. induction (dt_events t) as [|e l IH]; constructor; cbn; [lia|]. eapply Forall_impl; [exact IH|]. cbn. intros; lia.
Qed.

(** [t'] adds an event to [t], balances that name it, and perhaps clocks. *)
Lemma extends_append ty block hash payload t t1 t' digest states :
  ledger_ok t states → _append_event scope_digest ty block hash payload t = Ok (t1, digest) →
  dt_events t' = dt_events t1 → dt_activations t' = dt_activations t → dt_claims t' = dt_claims t →
  (∃ new, dt_balances t' = dt_balances t ++ new ∧ Forall (λ b, br_reward_event_digest b = digest) new) →
  extends scope_digest env (block_bound t) t t'.
Proof.
  intros Hok Happ Hev Hact Hcl (new & Hb & Hnew). destruct (lo_clocks _ _ Hok) as (es & r & Hr). pose proof (ca_events _ _ _ _ _ Hr) as Hes.
  pose proof (append_event_reads _ _ _ _ _ _ _ _ _ Hes Happ) as Hes1. apply append_event_Ok in Happ as (es0 & e & Hes0 & -> & _ & _ & Hd & row & Hrow & ->).
  assert (es0 = es) as -> by congruence.
  assert (reward_events scope_digest t' = Ok (es ++ [{| re_block := block; re_block_hash := hash; re_event_digest := digest; re_event_type := ty;
    re_payload := payload; re_previous_event_digest := chain_head es; re_sequence := Z.of_nat (length es) |}])) as Hes'.
  { unfold reward_events in *. by rewrite Hev. }
  constructor.
  - exists [row]. split; [by rewrite Hev|]. constructor; [|done]. rewrite Hrow. cbn. split; [done|]. by rewrite (events_length _ _ _ Hes).
  - apply block_bound_le.
  - by eexists.
  - by eexists.
  - exists []. by rewrite app_nil_r.
  - intros b a _. apply active_kept; [|done|by eexists]. intros d e. unfold find_event. rewrite Hev. cbn [add_event dt_events]. rewrite find_app. by intros ->.
  - exists []. rewrite app_nil_r. split; [done | constructor].
  - exists new. split; [done|]. eapply Forall_impl; [exact Hnew|]. by intros b ->.
  - apply (lo_schema _ _ Hok).
Qed.

(** The event that was appended. *)
Lemma append_find ty block hash payload t t1 digest :
  _append_event scope_digest ty block hash payload t = Ok (t1, digest) →
  ∃ row, find_event t1 digest = Some row ∧ er_event_type row = ty ∧ er_block row = block ∧ er_block_hash row = hash ∧
    er_payload_json row = Dumped payload ∧ er_sequence row = Z.of_nat (length (dt_events t)).
Proof.
  intros (es & e & Hes & -> & _ & _ & Hd & row & Hrow & ->)%append_event_Ok. exists row. split; [|by rewrite Hrow, (events_length _ _ _ Hes)].
  unfold find_event. cbn [add_event dt_events]. rewrite find_app. destruct (List.find _ (dt_events t)) as [x|] eqn:Hf.
  - apply find_event_elem in Hf as [Hx Hxd]. exfalso. apply Hd. rewrite <- Hxd. by apply list_elem_of_fmap_2.
  - cbn. rewrite Hrow. cbn. by rewrite bool_decide_true.
Qed.

(** An event that the clocks do not depend on. *)
Definition quiet (ty : string) : bool :=
  negb (bool_decide (ty = "policy_activated")) && negb (bool_decide (ty = "claim_issued"))
  && negb (bool_decide (ty = "claim_not_issued")) && negb (bool_decide (ty = "family_invalidated")).

Lemma quiet_replay t e r : quiet (re_event_type e) = true → replay_event scope_digest env t e r = Ok r.
Proof. unfold quiet, replay_event. intros Hq. bool_prop. by rewrite !bool_decide_false. Qed.

Lemma clocks_quiet h t t1 t' ty block hash payload digest es r :
  clocks_audited scope_digest env t es r → extends scope_digest env h t t' →
  _append_event scope_digest ty block hash payload t = Ok (t1, digest) → quiet ty = true →
  dt_events t' = dt_events t1 → dt_activations t' = dt_activations t → dt_claims t' = dt_claims t → dt_clocks t' = dt_clocks t →
  ∃ es', clocks_audited scope_digest env t' es' r.
Proof.
  intros [Hes Hr Ha Hc Hw Hk] X Happ Hq Hev Hact Hcl Hck. pose proof (append_event_reads _ _ _ _ _ _ _ _ _ Hes Happ) as Hes1.
  eexists. constructor; [unfold reward_events in *; rewrite Hev; exact Hes1 | | by rewrite Hact | by rewrite Hcl | by rewrite Hck | by rewrite Hck].
  rewrite replay_events_app. eapply bind_step; [by eapply (replay_events_mono _ _ h t t' X es es)|]. cbn [replay_events]. by rewrite quiet_replay.
Qed.

(** ** Activations behind the active policy *)

Lemma activation_row_Ok t row a :
  _activation_from_row scope_digest t row = Ok a →
  FiniteDebtPolicyActivation_digest a = Ok (ar_activation_digest row) ∧ FiniteDebtPolicyManifest_digest (pa_policy a) = Ok (ar_policy_digest row) ∧
  pa_chain_scope_digest a = scope_digest ∧ pa_activation_block a = ar_activation_block row ∧ pa_activation_block_hash a = ar_activation_block_hash row.
Proof.
  unfold _activation_from_row. cbv zeta. intros (a' & _ & (d & Hd & (u & H1 & (pd & Hpd & (u2 & H2 & (u3 & _ & [= <-])%bind_Ok)%bind_Ok)%bind_Ok)%bind_Ok)%bind_Ok)%bind_Ok.
  apply raise_if_Ok in H1, H2. bool_prop. subst. done.
Qed.

Lemma active_row t b a :
  active_policy_activation scope_digest t b = Ok (Some a) →
  ∃ row z, b = PInt z ∧ row ∈ dt_activations t ∧ _activation_from_row scope_digest t row = Ok a ∧ pa_activation_block a ≤ z.
Proof.
  unfold active_policy_activation. intros (z & Hz & (acts & Ha & [= Hl])%bind_Ok)%bind_Ok.
  unfold FS._integer in Hz. apply require_int_Ok in Hz as (-> & _). apply last_Some_elem_of, filterb_elem in Hl as [Hle Hin]. bool_prop.
  unfold policy_activations in Ha. apply bind_Ok in Ha as (es & _ & Ha). apply bind_Ok in Ha as (k & Hk & Ha). apply bind_Ok in Ha as (u & _ & [= ->]).
  destruct (mapM_elem _ _ _ _ Hk Hin) as (row & Hrow & Hra). exists row, z. split; [done|]. split; [|done].
  unfold activations_in_order in Hrow. by rewrite stable_sort_perm in Hrow.
Qed.

Lemma find_unique {A} (f : A → bool) (key : A → string) l x k :
  NoDup (key <$> l) → x ∈ l → f x = true → (∀ y, f y = true → key y = k) → List.find f l = Some x.
Proof.
  intros Hn Hx Hf Hk. destruct (List.find f l) as [y|] eqn:E.
  - apply List.find_some in E as [Hy Hfy]. f_equal. eapply NoDup_fmap_inj_elem; [exact Hn | by apply list_elem_of_In | done|].
    by rewrite (Hk y Hfy), (Hk x Hf).
  - apply list_elem_of_In, (List.find_none _ _ E) in Hx. congruence.
Qed.
End steps.

(** ** Expiry, departure and invalidation of debt

    [reconcile_lifecycle] and [invalidate_family] turn an audited ledger into an
    audited one, and their effect on the claim states is exact. *)

Section lifecycle.
Context {sha : Sha256} (scope_digest : string) (env : LedgerEnv).

(** A state whose debt was forfeited. *)
Definition forfeit (status reason : string) (height : Z) (s : DebtClaimState) : DebtClaimState :=
  {| ds_claim := ds_claim s; ds_balance := closed_balance (ds_balance s) status height reason |}.

(** An open claim that has expired, or whose owner has left. *)
Definition due (height : Z) (eligible : gset string) (s : DebtClaimState) : bool :=
  is_open s && ((ic_expires_block (ds_claim s) <=? height) || negb (bool_decide (ic_hotkey (ds_claim s) ∈ eligible))).

(** What the reconciliation makes of a state. *)
Definition reconciled (height : Z) (eligible : gset string) (s : DebtClaimState) : DebtClaimState :=
  if due height eligible s then
    if ic_expires_block (ds_claim s) <=? height then forfeit "expired" "claim_lifetime_expired" height s
    else forfeit "cancelled" "hotkey_departed" height s
  else s.

Lemma ledger_state_wf t states s : ledger_ok scope_digest env t states → s ∈ states → state_wf s ∧ db_claim_digest (ds_balance s) = claim_key s.
Proof.
  intros Hok Hs. destruct (state_history _ _ _ _ _ Hok Hs) as (row & balances & _ & [(v & _ & Hv) _ _ _] & Hh & _).
  pose proof (history_state _ _ _ _ Hh) as (Hl & _ & Hwf & Hlk). destruct Hh as [_ _ _ (first & later & -> & _ & _ & Hi)].
  assert (balance_wf (ds_balance s)) as Hb by (rewrite Forall_forall in Hwf; apply Hwf; by apply last_Some_elem_of in Hl).
  split; [|by destruct Hlk]. split; [|split; [done|]].
  - unfold InnovationDebtClaim_from_dict in Hv. inv_checks Hv. by apply InnovationDebtClaim_init_Ok in Hv as [_ ?].
  - apply DebtClaimState_init_Ok in Hi as Hi'. destruct Hi' as (E & _). rewrite E in Hi |- * at 1. cbn in *. rewrite E. cbn. done.
Qed.

Lemma advances_closed b status height reason : balance_wf b → db_status b = "open" → advances b (closed_balance b status height reason).
Proof. intros Hwf Ho. pose proof (balance_wf_open b Hwf Ho) as (? & _). unfold advances, closed_balance. cbn. split; [done | lia]. Qed.

Lemma forfeit_init s status height reason :
  state_wf s → ic_settlement_block (ds_claim s) ≤ height → (status = "expired" → ic_expires_block (ds_claim s) ≤ height) →
  DebtClaimState_init (ds_claim s) (closed_balance (ds_balance s) status height reason) = Ok (forfeit status reason height s).
Proof.
  intros (_ & _ & Hi) Hs He. apply DebtClaimState_init_Ok in Hi as (_ & Hl & _). apply DebtClaimState_init_Ok.
  split; [done|]. split; [done|]. cbn. intros z [= <-]. auto.
Qed.

(** The event of a forfeit is found and carries its payload. *)
Lemma lifecycle_revision t' event row s status reason height :
  state_wf s → is_open s = true → 0 ≤ height → status = "expired" ∧ er_event_type row = "claim_expired" ∧ reason = "claim_lifetime_expired" ∧ ic_expires_block (ds_claim s) ≤ height
    ∨ status = "cancelled" ∧ er_event_type row = "claim_cancelled" ∧ reason = "hotkey_departed" ∧ ic_settlement_block (ds_claim s) ≤ height →
  find_event t' event = Some row → er_block row = height →
  er_payload_json row = Dumped (lifecycle_payload (closed_balance (ds_balance s) status height reason) (DebtClaimBalance_digest (ds_balance s)) (claim_key s)) →
  revises t' event (s, forfeit status reason height s).
Proof.
  intros Hwf Ho Hh Hcase Hf Hb Hp. pose proof Hwf as (Hc & Hbw & Hi). apply bool_decide_eq_true in Ho.
  apply DebtClaimState_init_Ok in Hi as Hi'. destruct Hi' as (_ & Hlk & _).
  assert (ic_settlement_block (ds_claim s) ≤ height ∧ (status = "expired" → ic_expires_block (ds_claim s) ≤ height)) as [Hs He].
  { destruct Hc as (_ & _ & _ & _ & _ & _ & _ & _ & _ & Hse & _). destruct Hcase as [(-> & _ & _ & ?)|(-> & _ & _ & ?)]; split; (lia || done). }
  constructor; cbn [snd fst forfeit ds_balance ds_claim].
  - apply closed_balance_wf; [done | done | destruct Hcase as [[-> _]|[-> _]]; auto | done | |]; destruct Hcase as [(_ & _ & -> & _)|(_ & _ & -> & _)]; done.
  - by apply advances_closed.
  - by apply forfeit_init.
  - intros n. unfold check_revision. cbn [balance_row br_reward_event_digest]. rewrite Hf, Hp. cbn [loads bind].
    assert (lifecycle_payload_differs (InnovationDebtClaim_digest (ds_claim s)) (ds_balance s) (closed_balance (ds_balance s) status height reason)
      (lifecycle_payload (closed_balance (ds_balance s) status height reason) (DebtClaimBalance_digest (ds_balance s)) (claim_key s)) = false) as ->.
    { unfold lifecycle_payload_differs, lifecycle_payload. rewrite (has_fields_dict LIFECYCLE_FIELDS) by done. cbn [orb negb].
      do 4 payload_field. by rewrite py_eq_refl, !py_eq_str_refl by apply balance_dict_canonical. }
    destruct Hcase as [(-> & Ht & -> & Hx)|(-> & Ht & -> & Hx)]; rewrite Ht, Hb.
    + match goal with |- context [raise_if (negb ?g) _] => change g with true end. cbn [negb raise_if bind is_dict lifecycle_payload py_dict].
      change (bool_decide ("claim_expired" ∈ ["claim_expired"; "claim_cancelled"])) with true. change (bool_decide ("claim_expired" = "claim_expired")) with true.
      cbv iota. unfold catching.
      rewrite (proj2 (expire_claim_balance_Ok _ _ _ (closed_balance (ds_balance s) "expired" height "claim_lifetime_expired") Hbw)); cbn [reraise bind];
        [by rewrite bool_decide_true|]. split; [done|]. exists height. split; [done|]. split; [done|]. by rewrite decide_True.
    + match goal with |- context [raise_if (negb ?g) _] => change g with true end. cbn [negb raise_if bind is_dict lifecycle_payload py_dict].
      change (bool_decide ("claim_cancelled" ∈ ["claim_expired"; "claim_cancelled"])) with true. change (bool_decide ("claim_cancelled" = "claim_expired")) with false.
      cbv iota. unfold catching.
      rewrite (proj2 (cancel_claim_balance_Ok _ _ _ _ (closed_balance (ds_balance s) "cancelled" height "hotkey_departed") Hbw)); cbn [reraise bind];
        [by rewrite bool_decide_true|]. split; [done|]. split; [done|]. by exists height, "hotkey_departed".
Qed.

(** The type of the event that a due state gets. *)
Definition lifecycle_event (height : Z) (s : DebtClaimState) : string :=
  if ic_expires_block (ds_claim s) <=? height then "claim_expired" else "claim_cancelled".

Lemma closed_balance_ne b status height reason : db_status b = "open" → status ≠ "open" → closed_balance b status height reason ≠ b.
Proof. intros Ho Hs E. apply (f_equal db_status) in E. cbn in E. congruence. Qed.

Lemma lifecycle_step_Ok height eligible s step :
  0 ≤ height → state_wf s → lifecycle_step height eligible s = Ok step →
  step = (if due height eligible s then Some (lifecycle_event height s, ds_balance (reconciled height eligible s)) else None) ∧
  (due height eligible s = true → ic_settlement_block (ds_claim s) ≤ height).
Proof.
  intros Hh (Hc & Hwf & _). unfold lifecycle_step, reconciled, due, lifecycle_event. destruct (is_open s) eqn:Ho; cbn [negb andb]; [|by intros [= <-]].
  apply bool_decide_eq_true in Ho. destruct (Z.leb_spec (ic_expires_block (ds_claim s)) height) as [He|He]; cbn [orb].
  - intros (b & Hb & [= <-])%bind_Ok. apply expire_claim_balance_Ok in Hb as (_ & z & [= <-] & _ & ->); [|done].
    rewrite decide_True by done. rewrite bool_decide_false by (by apply closed_balance_ne). split; [done|]. intros _.
    destruct Hc as (_ & _ & _ & _ & _ & _ & _ & _ & _ & Hse & _). lia.
  - destruct (bool_decide (ic_hotkey (ds_claim s) ∈ eligible)); cbn [negb]; [by intros [= <-]|].
    intros (b & Hb & [= <-])%bind_Ok. apply reraise_Ok, cancel_claim_balance_Ok in Hb as (_ & _ & z & reason & [= <-] & [= <-] & _ & Hs & _ & _ & ->); [|done].
    rewrite bool_decide_false by (by apply closed_balance_ne). done.
Qed.

(** One step of the reconciliation. *)
Lemma record_lifecycle_ok height hash eligible s t t' states :
  ledger_ok scope_digest env t states → s ∈ states → 0 ≤ height → due height eligible s = true → ic_settlement_block (ds_claim s) ≤ height →
  record_lifecycle scope_digest height hash (lifecycle_event height s) s (ds_balance (reconciled height eligible s)) t = Ok t' →
  ledger_ok scope_digest env t' (moved [(s, reconciled height eligible s)] <$> states).
Proof.
  intros Hok Hs Hh Hdue Hset H. destruct (ledger_state_wf _ _ _ Hok Hs) as [Hwf Hdig]. unfold record_lifecycle in H. cbv zeta in H.
  apply bind_Ok in H as ([t1 digest] & Happ & H). cbn [fst snd] in H.
  pose proof Happ as (es0 & e & _ & _ & _ & _ & _ & erow & _ & ->)%append_event_Ok.
  assert (t' = add_balances [revision_row t digest (s, reconciled height eligible s)] (add_event erow t)) as ->.
  { unfold revise_balance in H. apply bind_Ok in H as (n & Hn & ->%insert_balance_Ok). unfold add_balances, revision_row, revision_of.
    change (next_revision (add_event erow t)) with (next_revision t) in Hn. cbn [fst]. unfold claim_key. by rewrite Hn. }
  destruct (lo_clocks _ _ _ _ Hok) as (es & r & Hr).
  assert (extends scope_digest env (block_bound t) t (add_balances [revision_row t digest (s, reconciled height eligible s)] (add_event erow t))) as X.
  { eapply extends_append; [exact Hok | exact Happ | done | done | done|]. eexists. split; [reflexivity|]. by repeat constructor. }
  destruct (clocks_quiet _ _ _ _ _ _ _ _ _ _ _ _ _ Hr X Happ) as (es' & Hr'); [by unfold lifecycle_event; destruct (_ <=? _) | done.. |].
  eapply (batch_ledger_ok _ _ (block_bound t) t); [exact Hok | exact X | done | reflexivity | by repeat constructor; set_solver | | | done | exact Hr'].
  - by intros p ->%list_elem_of_singleton.
  - intros p ->%list_elem_of_singleton. destruct (append_find _ _ _ _ _ _ _ _ Happ) as (row & Hf & Ht & Hb & _ & Hp & _).
    revert Hp. unfold reconciled. rewrite Hdue. unfold lifecycle_event in Ht. assert (is_open s = true) as Ho by (unfold due in Hdue; by bool_prop).
    destruct (Z.leb_spec (ic_expires_block (ds_claim s)) height); intros Hp;
      (eapply lifecycle_revision; [done | done | done | eauto 10 | exact Hf | done | exact Hp]).
Qed.

Lemma moved_one s s' x : moved [(s, s')] x = if decide (claim_key x = claim_key s) then s' else x.
Proof. unfold moved, pair_key. cbn. destruct (decide (claim_key x = claim_key s)) as [->|Hn]; [by rewrite bool_decide_true | by rewrite bool_decide_false]. Qed.

Lemma reconciled_key height eligible s : claim_key (reconciled height eligible s) = claim_key s.
Proof. unfold reconciled. by repeat case_match. Qed.

(** The reconciliation of some of the states. *)
Lemma reconcile_states_ok height hash eligible todo t t' states changed :
  ledger_ok scope_digest env t states → 0 ≤ height → NoDup (claim_key <$> todo) → (∀ s, s ∈ todo → s ∈ states) →
  reconcile_states scope_digest height hash eligible todo t = Ok (t', changed) →
  ledger_ok scope_digest env t' ((λ s, if decide (claim_key s ∈ claim_key <$> todo) then reconciled height eligible s else s) <$> states) ∧
  changed = reconciled height eligible <$> List.filter (due height eligible) todo.
Proof.
  revert t states changed. induction todo as [|s todo IH]; intros t states changed Hok Hh Hn Hsub; cbn [reconcile_states].
  - intros [= <- <-]. split; [|done]. replace (_ <$> states) with states; [done|]. symmetry. etrans; [|apply list_fmap_id]. by apply list_fmap_ext.
  - rewrite fmap_cons in Hn. apply NoDup_cons in Hn as [Hs Hn]. assert (s ∈ states) as Hin by (apply Hsub; by left).
    destruct (ledger_state_wf _ _ _ Hok Hin) as [Hwf _]. intros (step & Hstep & H)%bind_Ok.
    apply lifecycle_step_Ok in Hstep as [-> Hset]; [|done..]. cbn [List.filter]. destruct (due height eligible s) eqn:Hdue.
    + apply bind_Ok in H as (t1 & Ht1 & H). apply bind_Ok in H as (c & Hc & H). apply bind_Ok in H as ([t2 rest] & H & [= <- <-]). cbn [fst snd] in *.
      pose proof (record_lifecycle_ok _ _ _ _ _ _ _ Hok Hin Hh Hdue (Hset eq_refl) Ht1) as Hok1.
      apply (IH _ _ _ Hok1) in H as [Hok2 ->]; [|done|done|].
      * split; [|rewrite fmap_cons; f_equal; apply DebtClaimState_init_Ok in Hc as (-> & _); unfold reconciled; rewrite Hdue; by case_match].
        rewrite <- list_fmap_compose in Hok2. eapply eq_rect_r; [exact Hok2|]. apply list_fmap_ext. intros i x Hx. cbn [compose]. rewrite moved_one.
        pose proof (state_keys_NoDup _ _ _ _ Hok) as Hnd. destruct (decide (claim_key x = claim_key s)) as [E|E].
        -- assert (x = s) as -> by (eapply NoDup_fmap_inj_elem; [exact Hnd | by eapply list_elem_of_lookup_2 | done | done]).
           rewrite decide_True by (rewrite fmap_cons; by left). rewrite decide_False; [done|]. by rewrite reconciled_key.
        -- apply decide_ext. rewrite fmap_cons, elem_of_cons. naive_solver.
      * intros x Hx. apply list_elem_of_fmap. exists x. split; [|by apply Hsub; right]. rewrite moved_one, decide_False; [done|].
        intros E. apply Hs. rewrite <- E. by apply list_elem_of_fmap_2.
    + apply (IH _ _ _ Hok) in H as [Hok2 ->]; [|done|done|intros x Hx; apply Hsub; by right].
      split; [|done]. eapply eq_rect_r; [exact Hok2|]. apply list_fmap_ext. intros i x Hx. rewrite fmap_cons.
      destruct (decide (claim_key x = claim_key s)) as [E|E].
      * assert (x = s) as -> by (eapply NoDup_fmap_inj_elem; [exact (state_keys_NoDup _ _ _ _ Hok) | by eapply list_elem_of_lookup_2 | done | done]).
        rewrite decide_True by (by left). rewrite decide_False by done. unfold reconciled. by rewrite Hdue.
      * apply decide_ext. rewrite elem_of_cons. naive_solver.
Qed.
End lifecycle.
