(* ===== verification/DebtClose.v ===== *)
(** * Invalidating a family and closing an epoch

    [invalidate_family] cancels the open claims of a family, and
    [close_confirmed_epoch] pays what the projection allots.  The balances it writes
    pass the audit, and each claim state moves as [apply_debt_epoch_projection]
    says. *)

From Stdlib Require Import ZArith Lia Ascii.
From stdpp Require Import base tactics numbers list strings gmap sorting.
From S2P Require Import Prelude PyValue Sha256 Identity Strict IdentityCorrect Provider FiniteDebt FiniteDebtBalance FiniteDebtPolicy.
From S2P Require Import FiniteDebtEpoch FiniteDebtClaims Composition Stack Release StackPlan StackPlanCorrect Settlement.
From S2P Require Import SettlementPlan SettlementFacts Publication Journal IntakeData Intake DebtPublication DebtStoreData DebtStore.
From S2P Require Import DebtLedger DebtFrame DebtAudit DebtSteps.

(** ** Invalidating a family

    The audit replays an invalidation from the balances before it; this part shows
    that what [invalidate_family] writes is what the replay expects. *)

(** ** Sorting with one element more *)

Section snoc.
Context {A} (R : relation A) `{∀ x y, Decision (R x y)} `{!Total R, !Transitive R}.

Lemma sorted_split m k :
  StronglySorted R k → k = List.filter (λ y, bool_decide (R y m)) k ++ List.filter (λ y, negb (bool_decide (R y m))) k.
Proof.
  induction 1 as [|y k Hs IH Hy]; [done|]. cbn [List.filter]. case_bool_decide as Hm; cbn [negb app]; [by f_equal|].
  rewrite (filterb_none (λ y, bool_decide (R y m)) k) in *; [cbn in *; by f_equal|..];
    (eapply Forall_impl; [exact Hy|]; intros z Hz; apply bool_decide_eq_false_2; intros Hzm; apply Hm; by etrans).
Qed.

(** Where one more element goes depends on the sorted list alone. *)
Lemma stable_sort_snoc_split l m :
  stable_sort R (l ++ [m]) = List.filter (λ y, bool_decide (R y m)) (stable_sort R l) ++
    m :: List.filter (λ y, negb (bool_decide (R y m))) (stable_sort R l).
Proof.
  rewrite (sorted_split m (stable_sort R (l ++ [m]))) by (apply stable_sort_sorted; apply _).
  rewrite !(stable_sort_filter R), !List.filter_app. cbn [List.filter].
  assert (R m m) as Hm by (by destruct (total R m m)). rewrite bool_decide_true by done. cbn [negb]. rewrite app_nil_r.
  rewrite stable_sort_snoc; [by rewrite <- app_assoc|]. apply Forall_forall. intros y [Hy _]%filterb_elem. by bool_prop.
Qed.

Lemma stable_sort_snoc_ext l k m : stable_sort R l = stable_sort R k → stable_sort R (l ++ [m]) = stable_sort R (k ++ [m]).
Proof. intros E. by rewrite !stable_sort_snoc_split, E. Qed.

Lemma stable_sort_app_ext l k m : stable_sort R l = stable_sort R k → stable_sort R (l ++ m) = stable_sort R (k ++ m).
Proof.
  revert l k. induction m as [|x m IH]; intros l k E; [by rewrite !app_nil_r|]. change (x :: m) with ([x] ++ m). rewrite !app_assoc.
  by apply IH, stable_sort_snoc_ext.
Qed.
End snoc.

Section invalidation.
Context {sha : Sha256} (scope_digest : string) (env : LedgerEnv).

(** ** The balances before an event *)

Lemma check_revisions_found t claim prior l :
  check_revisions t claim prior l = Ok tt → Forall (λ x, is_Some (find_event t (br_reward_event_digest x.1))) l.
Proof.
  revert prior. induction l as [|[row b] l IH]; intros prior; cbn [check_revisions]; [constructor|].
  intros (u & Hr & H)%bind_Ok. constructor; [|by eapply IH]. cbn. unfold check_revision in Hr. destruct (find_event t _); [by eexists | done].
Qed.

Lemma history_found t claim balances s :
  history t claim balances s → Forall (λ row, is_Some (find_event t (br_reward_event_digest row))) (balances_of t (InnovationDebtClaim_digest claim)).
Proof.
  intros [Hr _ He _]. apply check_revisions_found in He. apply mapM_Ok, Forall2_length in Hr. revert Hr He.
  generalize (balances_of t (InnovationDebtClaim_digest claim)). intros rows. revert balances.
  induction rows as [|row rows IH]; intros [|b bs]; cbn [length zip]; try done. intros [= Hl] Hf. apply Forall_cons in Hf as [? ?].
  constructor; [done | by eapply IH].
Qed.

Lemma history_before t claim balances s es :
  history t claim balances s → reward_events scope_digest t = Ok es →
  balances_before t (InnovationDebtClaim_digest claim) (Z.of_nat (length (dt_events t))) = balances_of t (InnovationDebtClaim_digest claim).
Proof.
  intros Hh Hes. unfold balances_before. apply history_found in Hh. revert Hh.
  generalize (balances_of t (InnovationDebtClaim_digest claim)). induction 1 as [|row rows [e He] _ IH]; [done|]. cbn [List.filter].
  assert (event_sequence t (br_reward_event_digest row) = Some (er_sequence e)) as -> by (unfold event_sequence; by rewrite He).
  apply find_event_elem in He as [He _]. pose proof (row_sequence _ _ _ _ Hes He).
  rewrite (proj2 (Z.ltb_lt _ _)) by lia. by rewrite IH.
Qed.

Lemma history_last_row t claim balances s :
  history t claim balances s →
  ∃ row, last (balances_of t (InnovationDebtClaim_digest claim)) = Some row ∧ _balance_from_row row = Ok (ds_balance s) ∧
    br_revision row = Z.of_nat (length balances) - 1 ∧ br_balance_digest row = DebtClaimBalance_digest (ds_balance s).
Proof.
  intros Hh. pose proof (history_state _ _ _ _ Hh) as (Hl & _). destruct Hh as [Hr Hn _ _]. revert Hr Hn.
  generalize (balances_of t (InnovationDebtClaim_digest claim)). intros rows Hr Hn.
  destruct balances as [|b bs _] using rev_ind; [done|]. rewrite last_snoc in Hl. injection Hl as ->.
  apply mapM_Ok, Forall2_app_inv_r in Hr as (rows1 & rows2 & Hr1 & Hr2 & ->). inversion Hr2 as [|row ? ? ? Hrow Hnil]; subst. inversion Hnil; subst.
  exists row. rewrite last_snoc. split; [done|]. split; [done|]. split; [|by apply balance_from_row_wf in Hrow as (_ & ? & _)].
  rewrite length_app, fmap_app in Hn. cbn [length] in Hn. rewrite Nat.add_1_r, counting_snoc in Hn. apply app_inj_2 in Hn as [_ Hn]; [|done].
  cbn in Hn. injection Hn as ->. rewrite length_app. cbn. lia.
Qed.

(** ** The replay of an invalidation *)

Definition cut (height : Z) (s : DebtClaimState) : DebtClaimState := forfeit "cancelled" "runtime_invalidation" height s.

(** The states an invalidation cancels. *)
Definition hit (p f : string) (s : DebtClaimState) : bool :=
  bool_decide (ic_policy_digest (ds_claim s) = p) && bool_decide (ic_family_id (ds_claim s) = f) && is_open s.

(** The last balance of a state's claim. *)
Definition last_row (t : DebtTables) (s : DebtClaimState) : BalanceRow :=
  default (balance_row (ds_balance s) 0 "") (last (balances_of t (claim_key s))).

Definition cancellation (t : DebtTables) (height : Z) (s : DebtClaimState) : string * (BalanceRow * DebtClaimBalance) :=
  (claim_key s, (last_row t s, ds_balance (cut height s))).

Lemma last_row_facts t states s :
  ledger_ok scope_digest env t states → s ∈ states →
  last (balances_of t (claim_key s)) = Some (last_row t s) ∧ _balance_from_row (last_row t s) = Ok (ds_balance s) ∧
  revision_of t (claim_key s) = br_revision (last_row t s) + 1 ∧ br_balance_digest (last_row t s) = DebtClaimBalance_digest (ds_balance s).
Proof.
  intros Hok Hs. destruct (state_history _ _ _ _ _ Hok Hs) as (row & balances & _ & _ & Hh & _).
  destruct (history_last_row _ _ _ _ Hh) as (r & Hl & Hb & Hn & Hd). unfold last_row. unfold claim_key. rewrite Hl. cbn [from_option id].
  split; [done|]. split; [done|]. split; [|done]. rewrite Hn. destruct (history_revision _ _ _ _ Hh) as [-> _]. lia.
Qed.

Lemma cancellation_replays h t t' states height row s :
  ledger_ok scope_digest env t states → extends scope_digest env h t t' → 0 ≤ height → row ∈ dt_claims t → s ∈ states →
  claim_state scope_digest env t row = Ok s → (is_open s = true → ic_settlement_block (ds_claim s) ≤ height) →
  expected_cancellation scope_digest env t' (Z.of_nat (length (dt_events t))) height row =
    Ok (if is_open s then Some (cancellation t height s) else None).
Proof.
  intros Hok X Hh Hrow Hs Hst Hset. destruct (lo_clocks _ _ _ _ Hok) as (es & r & Hr). pose proof (ca_events _ _ _ _ _ Hr) as Hes.
  destruct (ledger_state_wf _ _ _ _ _ Hok Hs) as [(_ & Hwf & Hi) _]. destruct (last_row_facts _ _ _ Hok Hs) as (Hl & Hb & _ & _).
  apply claim_state_Ok in Hst as (claim & balances & Hbk & Hh'). pose proof (history_state _ _ _ _ Hh') as (_ & Hcl & _).
  unfold expected_cancellation. rewrite (proj2 (claim_from_row_Ok _ _ t' row claim)); cycle 1.
  { apply claim_from_row_Ok. eapply claim_mono; [exact X | by apply claim_from_row_Ok]. }
  cbn [bind]. rewrite (after_mono _ _ h t t' X), (balances_before_mono _ _ h t t' X) by lia. rewrite (history_before _ _ _ _ _ Hh' Hes).
  unfold claim_key in Hl. rewrite Hcl in Hl. rewrite Hl, Hb. cbn [bind].
  destruct Hbk as [_ _ _ (activation & crown & active & e & payload & family & digest & _ & _ & _ & _ & _ & He & _)].
  assert (match event_sequence t (cr_issuance_reward_event_digest row) with Some s0 => Z.of_nat (length (dt_events t)) <=? s0 | None => true end = false) as ->.
  { unfold event_sequence. rewrite He. cbn. apply Z.leb_gt. apply find_event_elem in He as [He _]. pose proof (row_sequence _ _ _ _ Hes He). lia. }
  destruct (is_open s) eqn:Ho; [|unfold is_open in Ho; by rewrite Ho].
  pose proof Ho as Ho'. unfold is_open in Ho'. rewrite Ho'. cbn [negb]. apply bool_decide_eq_true in Ho'. unfold catching.
  rewrite (proj2 (cancel_claim_balance_Ok _ _ _ _ (ds_balance (cut height s)) Hwf)); cbn [reraise bind].
  - unfold cancellation, claim_key. by rewrite Hcl.
  - apply DebtClaimState_init_Ok in Hi as (_ & Hlk & _). rewrite Hcl in Hlk. split; [done|]. split; [done|].
    exists height, "runtime_invalidation". rewrite <- Hcl. split_and!; [done | done | done | by apply Hset | done | done | done].
Qed.

Lemma omap_filter {A B} (p : A → bool) (g : A → B) l : omap (λ x, x) ((λ s, if p s then Some (g s) else None) <$> l) = g <$> List.filter p l.
Proof. induction l as [|x l IH]; [done|]. cbn. destruct (p x); cbn; by rewrite IH. Qed.

Lemma filter_andb {A} (p q : A → bool) l : List.filter p (List.filter q l) = List.filter (λ x, q x && p x) l.
Proof. induction l as [|x l IH]; [done|]. cbn. destruct (q x); cbn; [destruct (p x); by rewrite IH | done]. Qed.

Lemma cancellations_replay h t t' states height p f :
  ledger_ok scope_digest env t states → extends scope_digest env h t t' → dt_claims t' = dt_claims t → 0 ≤ height →
  (∀ s, s ∈ states → hit p f s = true → ic_settlement_block (ds_claim s) ≤ height) →
  ∃ l, mapM (expected_cancellation scope_digest env t' (Z.of_nat (length (dt_events t))) height) (family_claims t' p f) = Ok l ∧
    omap (λ x, x) l = cancellation t height <$> List.filter (hit p f) states.
Proof.
  intros Hok X Hcl Hh Hset. unfold family_claims, sorted_by. rewrite Hcl, <- (stable_sort_filter (key_le cr_claim_digest)).
  pose proof (lo_states _ _ _ _ Hok) as Hs. rewrite claim_rows_all in Hs.
  exists ((λ s, if is_open s then Some (cancellation t height s) else None) <$>
    List.filter (λ s, bool_decide (ic_policy_digest (ds_claim s) = p) && bool_decide (ic_family_id (ds_claim s) = f)) states).
  split; [|by rewrite omap_filter, filter_andb].
  assert (∀ s, s ∈ List.filter (λ s, bool_decide (ic_policy_digest (ds_claim s) = p) && bool_decide (ic_family_id (ds_claim s) = f)) states →
    s ∈ states ∧ (is_open s = true → ic_settlement_block (ds_claim s) ≤ height)) as Hin.
  { intros s [Hp Hss]%filterb_elem. split; [done|]. intros Ho. apply Hset; [done|]. unfold hit. by rewrite Hp. }
  assert (∀ row, row ∈ List.filter (λ row, bool_decide (cr_policy_digest row = p) && bool_decide (cr_family_id row = f)) (stable_sort (key_le cr_claim_digest) (dt_claims t)) →
    row ∈ dt_claims t) as Hrows by (intros row [_ Hr]%filterb_elem; by rewrite stable_sort_perm in Hr).
  apply (mapM_filter _ (λ row, bool_decide (cr_policy_digest row = p) && bool_decide (cr_family_id row = f))
    (λ s, bool_decide (ic_policy_digest (ds_claim s) = p) && bool_decide (ic_family_id (ds_claim s) = f))) in Hs; cycle 1.
  { intros row s _ Hrow. apply claim_state_Ok in Hrow as (claim & balances & Hb & Hh'). pose proof (history_state _ _ _ _ Hh') as (_ & <- & _).
    destruct Hb as [_ Hd _ _]. unfold claim_row_differs in Hd. bool_prop.
    by match goal with H1 : ic_policy_digest _ = _, H2 : ic_family_id _ = _ |- _ => rewrite H1, H2 end. }
  apply mapM_Ok, Forall2_same_length_lookup in Hs as [Hlen Hs]. apply mapM_Ok, Forall2_fmap_r, Forall2_same_length_lookup.
  split; [done|]. intros i row s Hri Hsi. pose proof (Hin s ltac:(by eapply list_elem_of_lookup_2)) as [Hss Hset'].
  eapply cancellation_replays; [exact Hok | exact X | done | by eapply Hrows, list_elem_of_lookup_2 | done | by eapply Hs | done].
Qed.

Lemma invalidation_fields a tr f i p prior :
  let v := invalidation_payload a tr f i p prior in
  payload_get v "activation_digest" = PStr a ∧ payload_get v "claim_balance_transitions" = PList tr ∧ payload_get v "family_id" = PStr f ∧
  payload_get v "invalidation_digest" = PStr i ∧ payload_get v "policy_digest" = PStr p.
Proof. cbv zeta. unfold invalidation_payload. split_and!; by payload_field. Qed.

Lemma invalidation_canonical a tr f i p prior :
  forallb is_canonical tr = true → is_canonical (invalidation_payload a tr f i p prior) = true.
Proof. intros Ht. unfold invalidation_payload, py_dict. cbn. rewrite Ht. by destruct prior. Qed.

(** The rows the invalidation wrote, in the order the replay reads them. *)
Lemma invalidation_rows t t' states event pairs :
  ledger_ok scope_digest env t states → event ∉ (er_event_digest <$> dt_events t) →
  dt_balances t' = dt_balances t ++ (revision_row t event <$> pairs) → Forall (λ p, db_claim_digest (ds_balance p.2) = pair_key p) pairs →
  StronglySorted (key_le pair_key) pairs → balances_by_event t' event = revision_row t event <$> pairs.
Proof.
  intros Hok Hd Hb Hk Hs. unfold balances_by_event. rewrite Hb, List.filter_app. rewrite (filterb_none _ (dt_balances t)); cycle 1.
  { apply Forall_forall. intros b Hin. apply bool_decide_eq_false_2. intros E. apply Hd.
    pose proof (so_owned _ (lo_schema _ _ _ _ Hok)) as Ho. rewrite Forall_forall in Ho. destruct (Ho b Hin) as [row Hrow]. apply claim_find_elem in Hrow as [Hrow Hkey].
    assert (row ∈ claim_rows None t) as Hin' by (by rewrite claim_rows_all, sorted_by_perm).
    apply list_elem_of_lookup in Hin' as (i & Hi). pose proof (lo_states _ _ _ _ Hok) as Hst. apply mapM_Ok in Hst.
    destruct (Forall2_lookup_l _ _ _ _ _ Hst Hi) as (s & _ & Hsi). apply claim_state_Ok in Hsi as (claim & balances & Hbk & Hh).
    apply history_found in Hh. rewrite (claim_backed_digest _ _ _ _ _ Hbk), Hkey in Hh. rewrite Forall_forall in Hh.
    destruct (Hh b) as [e He].
    { unfold balances_of. rewrite order_by_perm. apply filterb_elem. split; [by apply bool_decide_eq_true_2 | done]. }
    apply find_event_elem in He as [He Hed]. rewrite <- E, <- Hed. by apply list_elem_of_fmap_2. }
  cbn [app]. rewrite (List.forallb_filter_id); cycle 1.
  { apply forallb_forall. intros x (p & -> & Hp)%list_elem_of_In%list_elem_of_fmap. by apply bool_decide_eq_true_2. }
  apply sorted_by_stable. clear Hb. induction Hs as [|p pairs Hs IH Hp]; [constructor|]. apply Forall_cons in Hk as [Hkp Hk]. rewrite fmap_cons.
  constructor; [by apply IH|]. apply Forall_fmap. rewrite !Forall_forall in *. intros q Hq. unfold key_le. cbn. rewrite Hkp, (Hk q Hq). by apply Hp.
Qed.

Lemma marker_check p f height hash inv event :
  digest_ok p → digest_ok f → digest_ok inv → is_block_hash hash = true → 0 ≤ height → digest_ok event →
  FiniteDebtFamilyClock_check (invalidation_marker p f height hash inv event) = Ok (invalidation_marker p f height hash inv event).
Proof.
  intros Hp Hf Hi Hh Hz He. unfold FiniteDebtFamilyClock_check.
  cbn [invalidation_marker fc_policy_digest fc_family_id fc_reservation_digest fc_accepted_crown_block fc_accepted_crown_block_hash fc_event_index
    fc_event_subindex fc_source fc_claim_digest fc_reward_event_digest].
  rewrite (proj2 (digest_column_Ok p p)), (proj2 (digest_column_Ok f f)), (proj2 (digest_column_Ok inv inv)), (proj2 (block_hash_Ok hash hash)),
    (proj2 (digest_column_Ok event event)) by done. unfold FS._integer.
  rewrite (proj2 (require_int_Ok FiniteDebtStoreError (Some 0) None (PInt height) height)) by (split; [done|]; split; [by intros ? [= <-] | done]). done.
Qed.

(** The pairs of states an invalidation moves between. *)
Definition cuts (p f : string) (height : Z) (states : list DebtClaimState) : list (DebtClaimState * DebtClaimState) :=
  (λ s, (s, cut height s)) <$> List.filter (hit p f) states.

Lemma cuts_keys p f height states : pair_key <$> cuts p f height states = claim_key <$> List.filter (hit p f) states.
Proof. unfold cuts. rewrite <- list_fmap_compose. done. Qed.

Lemma StronglySorted_filterb {A} (R : relation A) (q : A → bool) l : StronglySorted R l → StronglySorted R (List.filter q l).
Proof.
  induction 1 as [|x l Hs IH Hx]; [constructor|]. cbn. destruct (q x); [|done]. constructor; [done|]. rewrite Forall_forall in *.
  intros y [_ Hy]%filterb_elem. by apply Hx.
Qed.

Lemma NoDup_filterb {A} (g : A → string) (q : A → bool) l : NoDup (g <$> l) → NoDup (g <$> List.filter q l).
Proof.
  induction l as [|x l IH]; [done|]. rewrite fmap_cons. intros [Hx Hn]%NoDup_cons. cbn. destruct (q x); [|by apply IH]. rewrite fmap_cons.
  apply NoDup_cons. split; [|by apply IH]. intros (y & E & [_ Hy]%filterb_elem)%list_elem_of_fmap. apply Hx. rewrite E. by apply list_elem_of_fmap_2.
Qed.

Lemma cuts_facts t states p f height :
  ledger_ok scope_digest env t states →
  NoDup (pair_key <$> cuts p f height states) ∧ StronglySorted (key_le pair_key) (cuts p f height states) ∧
  Forall (λ q, db_claim_digest (ds_balance q.2) = pair_key q) (cuts p f height states) ∧
  (∀ q, q ∈ cuts p f height states → q.1 ∈ states ∧ q.2 = cut height q.1 ∧ hit p f q.1 = true).
Proof.
  intros Hok. assert (∀ q, q ∈ cuts p f height states → q.1 ∈ states ∧ q.2 = cut height q.1 ∧ hit p f q.1 = true) as Hin.
  { intros q (s & -> & [Hh Hs]%filterb_elem)%list_elem_of_fmap. done. }
  split; [|split; [|split; [|done]]].
  - rewrite cuts_keys. apply NoDup_filterb. by eapply state_keys_NoDup.
  - apply StronglySorted_key_fmap. rewrite cuts_keys. apply (proj1 (StronglySorted_key_fmap claim_key _)), StronglySorted_filterb.
    rewrite <- (state_keys_sorted _ _ _ _ Hok). apply sorted_by_sorted.
  - apply Forall_forall. intros q Hq. destruct (Hin q Hq) as (Hs & -> & _). cbn. by apply (ledger_state_wf _ _ _ _ _ Hok Hs).
Qed.

Section replay.
Context (t t1 t' : DebtTables) (states : list DebtClaimState) (es : list RewardEvent) (r : ClockReplay).
Context (activation : FiniteDebtPolicyActivation) (adigest p f inv : string) (height : Z) (hash event : string).
Let pairs := cuts p f height states.
Let prior := ry_latest r !! (p, f).
Let payload := invalidation_payload adigest (state_transition <$> pairs) f inv p prior.
Context (Hok : ledger_ok scope_digest env t states) (Hr : clocks_audited scope_digest env t es r).
Context (Happ : _append_event scope_digest "family_invalidated" height hash payload t = Ok (t1, event)).
Context (Hev : dt_events t' = dt_events t1) (Hact : dt_activations t' = dt_activations t) (Hcl : dt_claims t' = dt_claims t).
Context (Hbal : dt_balances t' = dt_balances t ++ (revision_row t event <$> pairs)).
Context (Hp : digest_ok p) (Hf : digest_ok f) (Hi : digest_ok inv) (Hed : digest_ok event).
Context (Hactive : active_policy_activation scope_digest t (PInt height) = Ok (Some activation)).
Context (Hpol : FiniteDebtPolicyManifest_digest (pa_policy activation) = Ok p) (Had : FiniteDebtPolicyActivation_digest activation = Ok adigest).
Context (Hcamp : is_ok (campaign_for_family (pa_policy activation) (PStr f)) = true).
Context (Hprior : ∀ c, prior = Some c → fc_accepted_crown_block c < height).
Context (Hset : ∀ s, s ∈ states → hit p f s = true → ic_settlement_block (ds_claim s) ≤ height).

Let appended := {| re_block := height; re_block_hash := hash; re_event_digest := event; re_event_type := "family_invalidated";
  re_payload := payload; re_previous_event_digest := chain_head es; re_sequence := Z.of_nat (length es) |}.

Lemma invalidation_extends : extends scope_digest env (block_bound t) t t'.
Proof.
  eapply extends_append; [exact Hok | exact Happ | done | done | done|]. eexists. split; [exact Hbal|]. apply Forall_fmap, Forall_forall. done.
Qed.

Lemma appended_facts : is_block_hash hash = true ∧ 0 ≤ height ∧ event ∉ (er_event_digest <$> dt_events t).
Proof. destruct (append_event_Ok _ _ _ _ _ _ _ _ Happ) as (es0 & e & _ & -> & (_ & _ & _ & _ & Hh & _) & Hz & Hn & _). done. Qed.

Lemma invalidation_transitions :
  mapM (invalidation_transition (cancellation t height <$> List.filter (hit p f) states)) (revision_row t event <$> pairs) = Ok (state_transition <$> pairs).
Proof.
  destruct (cuts_facts _ _ p f height Hok) as (Hn & _ & Hk & Hin). fold pairs in Hn, Hk, Hin. apply mapM_Ok, Forall2_fmap, Forall2_same_length_lookup.
  split; [done|]. intros i q q' Hq Hq'. assert (q' = q) as -> by congruence. apply list_elem_of_lookup_2 in Hq.
  destruct (Hin q Hq) as (Hs & Eq & Hh). rewrite Forall_forall in Hk. pose proof (Hk q Hq) as Hkq.
  destruct (last_row_facts _ _ _ Hok Hs) as (_ & Hb & Hrev & Hd). destruct (ledger_state_wf _ _ _ _ _ Hok Hs) as [(_ & Hwf & _) _].
  unfold invalidation_transition. change (br_claim_digest (revision_row t event q)) with (db_claim_digest (ds_balance q.2)).
  change (br_revision (revision_row t event q)) with (revision_of t (claim_key q.1)). rewrite Hkq.
  rewrite (assoc_elem _ (pair_key q) (last_row t q.1, ds_balance (cut height q.1))); cycle 1.
  { rewrite <- list_fmap_compose. change (NoDup (claim_key <$> List.filter (hit p f) states)). rewrite <- (cuts_keys p f height). exact Hn. }
  { apply list_elem_of_fmap. exists q.1. split; [done|]. by apply filterb_elem. }
  assert (balance_wf (ds_balance q.2)) as Hw.
  { rewrite Eq. apply closed_balance_wf; [done | | by right | by apply appended_facts | done | done]. unfold hit in Hh. bool_prop. by apply bool_decide_eq_true in Hh. }
  unfold revision_row. rewrite balance_row_reads by done. cbn [bind]. rewrite Hrev, Z.eqb_refl, <- Eq, bool_decide_true by done. cbn [negb orb raise_if bind].
  unfold state_transition. f_equal. f_equal; [done|]. rewrite Hkq. rewrite Eq. done.
Qed.

Lemma invalidation_validates :
  _validate_family_invalidation scope_digest env t' appended prior = Ok (invalidation_marker p f height hash inv event).
Proof.
  pose proof invalidation_extends as X. pose proof appended_facts as (Hh & Hz & Hfresh). pose proof (ca_events _ _ _ _ _ Hr) as Hes.
  destruct (invalidation_fields adigest (state_transition <$> pairs) f inv p prior) as (F1 & _ & F3 & F4 & F5). fold payload in F1, F3, F4, F5.
  destruct (active_row _ _ _ _ Hactive) as (row & z & _ & Hrow & Hra & _).
  destruct (activation_row_Ok _ _ _ _ Hra) as (D1 & D2 & _ & _ & _). assert (ar_activation_digest row = adigest) as Ea by congruence.
  assert (ar_policy_digest row = p) as Ep by congruence.
  destruct (cuts_facts _ _ p f height Hok) as (_ & Hsort & Hk & Hin). fold pairs in Hsort, Hk, Hin.
  unfold _validate_family_invalidation. cbn [appended re_payload re_block re_block_hash re_event_digest re_sequence].
  unfold payload at 1. unfold invalidation_payload at 1. rewrite (has_fields_dict INVALIDATION_FIELDS) by done. cbn [negb raise_if bind].
  rewrite F1, F3, F4, F5. cbn [py_eq_str]. rewrite Hact.
  rewrite (find_unique _ ar_activation_digest _ row adigest (so_activations _ (lo_schema _ _ _ _ Hok)) Hrow); cycle 1.
  { by rewrite Ea, Ep, !bool_decide_true. }
  { intros y Hy. by bool_prop. }
  rewrite (activation_mono _ _ _ _ _ X _ _ Hra). cbn [bind].
  rewrite (active_kept _ _ _ (find_event_mono _ _ _ _ _ X) _ _ Hact (xt_reads' _ _ _ _ _ X) Hactive). cbn [bind].
  rewrite (proj2 (digest_column_Ok f f)), (proj2 (digest_column_Ok inv inv)) by done. cbn [bind].
  apply is_ok_true in Hcamp as [campaign Hc]. unfold catching at 1. rewrite Hc. cbn [reraise bind]. rewrite Hpol. cbn [bind].
  unfold FS._integer. rewrite (proj2 (require_int_Ok FiniteDebtStoreError (Some 0) None (PInt height) height)) by (split; [done|]; split; [by intros ? [= <-] | done]).
  cbn [bind]. rewrite (proj2 (block_hash_Ok hash hash)), (proj2 (digest_column_Ok event event)) by done. cbn [bind].
  rewrite marker_check by done. cbn [bind]. rewrite Had. cbn [bind]. rewrite !bool_decide_true by done. cbn [negb orb].
  assert (match prior with Some c => height <=? fc_accepted_crown_block c | None => false end = false) as ->.
  { destruct prior as [c|]; [|done]. apply Z.leb_gt. by apply Hprior. }
  cbn [raise_if bind]. rewrite <- (events_length _ _ _ Hes).
  destruct (cancellations_replay _ _ _ _ height p f Hok X Hcl Hz Hset) as (l & Hl & El). rewrite Hl. cbn [bind]. rewrite El.
  cbn [invalidation_marker fc_reward_event_digest]. rewrite (invalidation_rows _ _ _ _ pairs Hok Hfresh Hbal Hk Hsort).
  replace (existsb _ _) with false; cycle 1.
  { symmetry. apply not_true_is_false. intros (b & Hb & Hx)%existsb_exists. apply list_elem_of_In, list_elem_of_fmap in Hb as (q & -> & Hq).
    destruct (Hin q Hq) as (Hs & _ & Hhit). unfold hit in Hhit. bool_prop. rewrite Forall_forall in Hk. revert Hx. unfold crosses_family, find_claim. rewrite Hcl.
    change (br_claim_digest (revision_row t event q)) with (db_claim_digest (ds_balance q.2)). rewrite (Hk q Hq). destruct (state_history _ _ _ _ _ Hok Hs) as (crow & _ & Hcrow & [_ Hd _ _] & _ & Hkey).
    rewrite (find_unique _ cr_claim_digest _ crow (pair_key q) (so_claims _ (lo_schema _ _ _ _ Hok)) Hcrow).
    - unfold claim_row_differs in Hd. bool_prop. rewrite !bool_decide_true by congruence. done.
    - by apply bool_decide_eq_true_2.
    - intros y Hy. by bool_prop. }
  cbn [raise_if bind]. rewrite (bool_decide_true (length _ = length _)); [|unfold pairs, cuts; by rewrite !length_fmap].
  cbn [negb raise_if bind].
  rewrite invalidation_transitions. cbn [bind]. rewrite py_eq_refl; [done|]. apply invalidation_canonical.
  apply forallb_forall. intros x (q & -> & _)%list_elem_of_In%list_elem_of_fmap. done.
Qed.

Context (Hclk : dt_clocks t' = dt_clocks t ++ [invalidation_marker p f height hash inv event]).

Lemma invalidation_clocks : ∃ r', clocks_audited scope_digest env t' (es ++ [appended]) r'.
Proof.
  pose proof invalidation_extends as X. pose proof appended_facts as (Hh & Hz & Hfresh). pose proof Hr as [Hes Hrep Ha Hc Hw Hk].
  eexists. constructor.
  - unfold reward_events. rewrite Hev. exact (append_event_reads _ _ _ _ _ _ _ _ _ Hes Happ).
  - rewrite replay_events_app. eapply bind_step; [by eapply (replay_events_mono _ _ _ t t' X es es)|]. cbn [replay_events].
    unfold replay_event. cbn [re_event_type appended]. do 3 rewrite bool_decide_false by done. rewrite bool_decide_true by done.
    unfold replay_invalidation. cbn [re_payload appended].
    destruct (invalidation_fields adigest (state_transition <$> pairs) f inv p prior) as (_ & _ & F3 & _ & F5). fold payload in F3, F5.
    rewrite F3, F5. cbn [is_dict payload invalidation_payload py_dict negb raise_if bind].
    rewrite (proj2 (digest_column_Ok p p)), (proj2 (digest_column_Ok f f)) by done. cbn [bind].
    change (ry_latest r !! (p, f)) with prior. rewrite invalidation_validates. cbn [bind]. unfold append_clock.
    cbn [invalidation_marker fc_policy_digest fc_family_id]. change (ry_latest r !! (p, f)) with prior.
    assert (match prior with Some c => order_leb (fc_finalized_order (invalidation_marker p f height hash inv event)) (fc_finalized_order c) | None => false end = false) as Ho.
    { destruct prior as [c|] eqn:Ec; [|done]. apply bool_decide_eq_false_2. pose proof (Hprior c eq_refl). unfold order_le, fc_finalized_order. cbn. lia. }
    unfold invalidation_marker in Ho |- *. rewrite Ho. reflexivity.
  - cbn. by rewrite Hact.
  - cbn. by rewrite Hcl.
  - rewrite Hclk. apply is_ok_true in Hw as [k Hw]. apply is_ok_true. exists (k ++ [invalidation_marker p f height hash inv event]).
    apply mapM_Ok, Forall2_app; [by apply mapM_Ok|]. constructor; [by apply marker_check | constructor].
  - rewrite Hclk. cbn [ry_expected]. by apply (stable_sort_snoc_ext clock_le).
Qed.

Lemma invalidation_revises q : q ∈ pairs → revises t' event q.
Proof.
  intros Hq. pose proof appended_facts as (_ & Hz & _). destruct (cuts_facts _ _ p f height Hok) as (Hn & _ & Hk & Hin). fold pairs in Hn, Hk, Hin.
  destruct (Hin q Hq) as (Hs & Eq & Hhit). destruct (ledger_state_wf _ _ _ _ _ Hok Hs) as [Hwf _]. pose proof Hwf as (_ & Hb & _).
  pose proof (Hset _ Hs Hhit) as Hset'. unfold hit in Hhit. bool_prop. assert (db_status (ds_balance q.1) = "open") as Ho by (by apply bool_decide_eq_true in Hhit).
  rewrite (surjective_pairing q), Eq. constructor; cbn [fst snd].
  - apply closed_balance_wf; [done | done | by right | done | done | done].
  - by apply advances_closed.
  - by apply forfeit_init.
  - intros n. unfold check_revision. cbn [balance_row br_reward_event_digest].
    destruct (append_find _ _ _ _ _ _ _ _ Happ) as (row & Hf' & Ht & _ & _ & Hp' & _). unfold find_event. rewrite Hev. fold (find_event t1 event). rewrite Hf'.
    rewrite Ht, Hp'. match goal with |- context [raise_if (negb ?g) _] => change g with true end.
    cbn [negb raise_if bind is_dict loads payload invalidation_payload py_dict].
    change (bool_decide ("family_invalidated" ∈ ["claim_expired"; "claim_cancelled"])) with false.
    change (transition_field "family_invalidated") with "claim_balance_transitions". cbv iota.
    destruct (invalidation_fields adigest (state_transition <$> pairs) f inv p prior) as (_ & F2 & _). fold payload in F2.
    change (PDict _) with payload. rewrite F2.
    replace (transition_dict _ _ _) with (state_transition q) by (unfold state_transition; rewrite Eq; done).
    rewrite (authorised_once_elem state_transition (λ q, claim_key q.2) (λ q, DebtClaimBalance_digest (ds_balance q.2)) (λ q, DebtClaimBalance_digest (ds_balance q.1)));
      [done | done | | done]. replace ((λ q, claim_key q.2) <$> pairs) with (pair_key <$> pairs); [done|]. unfold pairs, cuts. by rewrite <- !list_fmap_compose.
Qed.

Lemma invalidation_ledger_ok : ledger_ok scope_digest env t' (moved pairs <$> states).
Proof.
  destruct invalidation_clocks as (r' & Hr'). destruct (cuts_facts _ _ p f height Hok) as (Hn & _ & _ & Hin).
  eapply (batch_ledger_ok _ _ (block_bound t) t); [exact Hok | apply invalidation_extends | done | exact Hbal | exact Hn | by intros q Hq; apply Hin |
    apply invalidation_revises | done | exact Hr'].
Qed.
End replay.

(** What an invalidation makes of a state. *)
Definition invalidated (p f : string) (height : Z) (s : DebtClaimState) : DebtClaimState := if hit p f s then cut height s else s.

Lemma moved_cuts t states p f height :
  ledger_ok scope_digest env t states → moved (cuts p f height states) <$> states = invalidated p f height <$> states.
Proof.
  intros Hok. destruct (cuts_facts _ _ p f height Hok) as (Hn & _ & _ & Hin). apply list_fmap_ext. intros i s Hs. apply list_elem_of_lookup_2 in Hs.
  unfold moved, invalidated. destruct (List.find _ _) as [q|] eqn:Hf.
  - apply List.find_some in Hf as [Hq Hk]. bool_prop. apply list_elem_of_In in Hq. destruct (Hin q Hq) as (Hqs & Eq & Hh).
    assert (q.1 = s) as <- by (eapply NoDup_fmap_inj_elem; [exact (state_keys_NoDup _ _ _ _ Hok) | done | done | done]). by rewrite Hh.
  - destruct (hit p f s) eqn:Hh; [|done]. exfalso. assert ((s, cut height s) ∈ cuts p f height states) as Hc.
    { apply list_elem_of_fmap. exists s. split; [done|]. by apply filterb_elem. }
    apply list_elem_of_In, (List.find_none _ _ Hf) in Hc. by rewrite bool_decide_true in Hc.
Qed.

Lemma cancel_states_Ok height l changed :
  Forall (λ s, state_wf s ∧ is_open s = true) l → mapM (cancel_state height) l = Ok changed →
  changed = (λ s, (s, cut height s)) <$> l ∧ Forall (λ s, ic_settlement_block (ds_claim s) ≤ height) l.
Proof.
  intros Hl Hm%mapM_Ok. induction Hm as [|s q l changed Hs _ IH]; [done|]. apply Forall_cons in Hl as [[(_ & Hwf & _) _] Hl].
  destruct (IH Hl) as [-> Hall]. unfold cancel_state in Hs. apply bind_Ok in Hs as (b & Hb & Hs).
  apply reraise_Ok, cancel_claim_balance_Ok in Hb as (_ & _ & z & reason & [= <-] & [= <-] & _ & Hset & _ & _ & ->); [|done].
  apply bind_Ok in Hs as (s' & Hs' & [= <-]). apply DebtClaimState_init_Ok in Hs' as (-> & _). split; [done | by constructor].
Qed.

(** Bytes whose digest is all zeros: no digest field accepts it. *)
Definition zero_preimage : Prop := ∃ data, sha256_hex data = ZERO_DIGEST.

(** The last event is such a case. *)
Definition zero_event (t : DebtTables) : Prop := er_event_digest <$> last (dt_events t) = Some ZERO_DIGEST.

Lemma appended_digest ty block hash payload t t1 event :
  _append_event scope_digest ty block hash payload t = Ok (t1, event) → digest_ok event ∨ (zero_event t1 ∧ zero_preimage).
Proof.
  intros (es & e & _ & -> & (_ & _ & _ & _ & _ & Hd) & _ & _ & row & Hrow & ->)%append_event_Ok. cbn in Hd. unfold _event_digest in Hd.
  pose proof (canonical_digest_is_hex64 _ _ _ _ Hd). apply canonical_digest_bytes in Hd as (data & _ & ->).
  destruct (decide (sha256_hex data = ZERO_DIGEST)) as [Hz|Hz]; [right | left; by split].
  split; [|by eexists]. unfold zero_event. cbn [add_event dt_events]. rewrite last_snoc, Hrow. cbn. by rewrite Hz.
Qed.

Lemma insert_clock_Ok c t t' : insert_clock c t = Ok t' → t' = add_clock c t.
Proof. unfold insert_clock. intros H. by inv_checks H. Qed.

Lemma insert_all_ext {A} (f g : A → DebtTables → result DebtTables) l t : (∀ x, x ∈ l → f x = g x) → insert_all f l t = insert_all g l t.
Proof.
  revert t. induction l as [|x l IH]; intros t Hfg; cbn; [done|]. rewrite (Hfg x) by (by left). destruct (g x t); cbn; [|done]. apply IH.
  intros. apply Hfg. by right.
Qed.

(** An invalidation that is not a retry. *)
Lemma invalidate_family_fresh p f inv height hash t t' states changed :
  ledger_ok scope_digest env t states → invalidate_family scope_digest env p f inv height hash t = Ok (t', changed) →
  List.find (λ c, is_invalidation p f c && bool_decide (fc_reservation_digest c = inv)) (dt_clocks t) = None →
  (ledger_ok scope_digest env t' (invalidated p f height <$> states) ∨ (changed = [] ∧ zero_event t' ∧ zero_preimage)) ∧
  changed = cut height <$> List.filter (hit p f) states.
Proof.
  intros Hok H Hnew. destruct (lo_clocks _ _ _ _ Hok) as (es & r & Hr). unfold invalidate_family in H. inv_checks H. columns.
  unfold FS._integer in *. match goal with E : require_int _ _ _ _ = Ok _ |- _ => apply require_int_Ok in E as ([= <-] & Hz & _) end.
  specialize (Hz 0 eq_refl). rewrite Hnew in H. cbv zeta in H. inv_checks H.
  match goal with E : active_policy_activation _ _ _ = Ok ?a |- _ => destruct a as [activation|]; [|done]; rename E into Hactive end.
  apply bind_Ok in H as (pd & Hpd & H). apply bind_Ok in H as (u1 & Hp1 & H). apply raise_if_Ok in Hp1. bool_prop. subst pd.
  apply bind_Ok in H as (campaign & Hcamp & H). apply reraise_Ok in Hcamp. apply bind_Ok in H as (u2 & _ & H).
  apply bind_Ok in H as (prior & Hprior & H). rewrite (latest_clock_Ok _ _ _ _ _ _ _ Hr) in Hprior by done. injection Hprior as <-.
  apply bind_Ok in H as (u3 & Hord & H). apply raise_if_Ok in Hord. apply bind_Ok in H as (ps & Hps & H).
  rewrite (ledger_ok_policy _ _ _ _ _ Hok) in Hps by done. injection Hps as <-. apply bind_Ok in H as (ch & Hch & H).
  apply bind_Ok in H as (adigest & Had & H). apply bind_Ok in H as ([t1 event] & Happ & H). cbv beta iota in H.
  apply bind_Ok in H as (t2 & ->%insert_clock_Ok & H). apply bind_Ok in H as (t3 & Hins & [= <- <-]).
  assert (List.filter (λ s, in_family f s && is_open s) (List.filter (λ s, bool_decide (ic_policy_digest (ds_claim s) = p)) states)
    = List.filter (hit p f) states) as Efil.
  { rewrite filter_andb. apply List.filter_ext. intros s. unfold hit, in_family. by rewrite andb_assoc. }
  rewrite Efil in Hch. apply cancel_states_Ok in Hch as [-> Hset]; cycle 1.
  { apply Forall_forall. intros s [Hh Hs]%filterb_elem. split; [by apply (ledger_state_wf _ _ _ _ _ Hok Hs)|]. unfold hit in Hh. by bool_prop. }
  fold (cuts p f height states) in *. destruct (cuts_facts _ _ p f height Hok) as (Hn & Hsort & Hk & Hin).
  assert (∀ q, q ∈ cuts p f height states → claim_key q.2 = pair_key q) as Hkey by (intros q Hq; destruct (Hin q Hq) as (_ & -> & _); done).
  replace (sorted_by _ (cuts p f height states)) with (cuts p f height states) in Happ; cycle 1.
  { symmetry. apply sorted_by_stable. revert Hsort Hkey. generalize (cuts p f height states). clear. induction 1 as [|q l Hs IH Hq]; intros Hkey; [constructor|].
    constructor; [apply IH; intros; apply Hkey; by right|]. rewrite Forall_forall in *. intros x Hx. unfold key_le. rewrite !Hkey by (by left || by right). by apply Hq. }
  rewrite (insert_all_ext _ (λ q, revise_balance event (pair_key q) (ds_balance q.2))) in Hins by (intros q Hq; by rewrite Hkey).
  pose proof (revise_all_digest _ _ _ _ Hins) as Hevent. apply revise_all_Ok in Hins as ->; [|done|done].
  split; [|unfold cuts; by rewrite <- list_fmap_compose].
  destruct (appended_digest _ _ _ _ _ _ _ Happ) as [Hed|[Hze Hzp]]; [left|].
  2: { right. destruct Hevent as [Hnone|[_ Hne]]; [split; [by rewrite Hnone | done]|]. exfalso. apply Hne.
       pose proof Happ as (? & ? & _ & -> & _ & _ & _ & row & Hrow & ->)%append_event_Ok. revert Hze. unfold zero_event.
       cbn [add_event dt_events]. rewrite last_snoc, Hrow. by intros [= <-]. }
  pose proof Happ as (es0 & e & _ & _ & _ & _ & _ & row & _ & ->)%append_event_Ok. rewrite <- (moved_cuts t) by done.
  rewrite Forall_forall in Hset.
  eapply (invalidation_ledger_ok t (add_event row t));
    [exact Hok | exact Hr | exact Happ | done | done | done | reflexivity | done | done | done | done | exact Hactive | done | done |
     apply is_ok_true; by eexists | | | reflexivity].
  - intros c Ec. rewrite Ec in Hord. by bool_prop.
  - intros s Hs Hh. apply Hset. by apply filterb_elem.
Qed.
End invalidation.

Section close.
Context {sha : Sha256} (scope_digest : string) (env : LedgerEnv).

(** [a] is [b] with a payment. *)
Definition pays (block : Z) (b a : DebtClaimState) : Prop :=
  ∃ amount, 1 ≤ amount ≤ db_remaining_units (ds_balance b) ∧ is_open b = true ∧
    ds_claim a = ds_claim b ∧ ds_balance a = paid_balance (ds_balance b) amount block ∧
    balance_wf (ds_balance a) ∧ DebtClaimState_init (ds_claim b) (ds_balance a) = Ok a.

Lemma apply_row_Ok amounts block b a :
  state_wf b → apply_row amounts block b = Ok a → a = b ∨ pays block b a.
Proof.
  intros Hwf. pose proof Hwf as (_ & Hb & _). unfold apply_row. intros (c & Hc & Ha)%bind_Ok. pose proof Ha as Ha'.
  apply DebtClaimState_init_Ok in Ha' as (-> & _ & _). destruct (_ =? 0).
  - injection Hc as <-. left. by destruct b.
  - right. apply pay_claim_balance_Ok in Hc as (Hl & Ho & amount & z & [= <-] & [= <-] & Hle & [Hz _] & Hlast & ->); [|done].
    eexists. split; [exact Hle|]. split; [by apply bool_decide_eq_true_2|]. split; [done|]. split; [done|]. split; [|done].
    apply paid_balance_wf; [done | done | done | done | done].
Qed.

Lemma apply_projection_Ok states projection updated :
  Forall state_wf states → sorted_by claim_key states = states → apply_debt_epoch_projection states projection = Ok updated →
  Forall2 (λ b a, a = b ∨ pays (dp_effective_block projection) b a) states updated.
Proof.
  intros Hwf Hs. unfold apply_debt_epoch_projection. cbv zeta. rewrite Hs. intros H. apply bind_Ok in H as (? & _ & H).
  apply bind_Ok in H as (? & _ & H). apply bind_Ok in H as (k & Hk & H). apply bind_Ok in H as (? & _ & [= ->]).
  apply mapM_Ok in Hk. clear Hs. induction Hk as [|b a bs as_ Hb _ IH]; [constructor|]. apply Forall_cons in Hwf as [Hw Hwf].
  constructor; [by eapply apply_row_Ok | by apply IH].
Qed.

Lemma changed_pairs_zip before after all :
  Forall2 (λ b a, claim_key a = claim_key b) before after → NoDup (claim_key <$> all) → (∀ a, a ∈ after → a ∈ all) →
  changed_pairs before all = List.filter (λ p, negb (bool_decide (ds_balance p.1 = ds_balance p.2))) (zip before after).
Proof.
  intros Hf Hn. induction Hf as [|b a bs as_ Hk _ IH]; intros Hall; [done|]. cbn [changed_pairs zip zip_with List.filter fst snd].
  rewrite (find_unique _ claim_key _ a (claim_key b) Hn); [|by apply Hall; left | by apply bool_decide_eq_true_2 | intros y Hy; by bool_prop].
  specialize (IH (λ x Hx, Hall x (list_elem_of_further _ _ _ Hx))). case_bool_decide; cbn [negb]; by rewrite IH.
Qed.

Lemma pays_key block b a : a = b ∨ pays block b a → claim_key a = claim_key b.
Proof. intros [->|(amount & _ & _ & Hc & _)]; [done|]. unfold claim_key. by rewrite Hc. Qed.

(** The pairs an epoch writes are its payments, and applying them gives the states
    after it. *)
Lemma changed_pairs_Ok block states updated :
  Forall2 (λ b a, a = b ∨ pays block b a) states updated → NoDup (claim_key <$> states) →
  NoDup (pair_key <$> changed_pairs states updated) ∧
  (∀ p, p ∈ changed_pairs states updated → p.1 ∈ states ∧ pays block p.1 p.2) ∧ moved (changed_pairs states updated) <$> states = updated.
Proof.
  intros Hf Hn. assert (Forall2 (λ b a, claim_key a = claim_key b) states updated) as Hk by (eapply Forall2_impl; [exact Hf|]; intros b a; apply pays_key).
  assert (claim_key <$> updated = claim_key <$> states) as Ek by (clear -Hk; induction Hk as [|??????]; [done|]; rewrite !fmap_cons; congruence).
  rewrite (changed_pairs_zip states updated updated Hk) by (rewrite ?Ek; done). set (pairs := List.filter _ (zip states updated)).
  assert (∀ p, p ∈ pairs → p.1 ∈ states ∧ pays block p.1 p.2 ∧ p.2 ∈ updated) as Hin.
  { intros [b a] [Hne Hp]%filterb_elem. cbn in *. bool_prop. apply list_elem_of_lookup in Hp as (i & Hi). apply lookup_zip_Some in Hi as [Hb Ha].
    destruct (Forall2_lookup_lr _ _ _ _ _ _ Hf Hb Ha) as [->|Hp]; [done|]. split; [by eapply list_elem_of_lookup_2|]. split; [done | by eapply list_elem_of_lookup_2]. }
  assert (NoDup (pair_key <$> pairs)) as Hnp.
  { apply NoDup_filterb. replace (pair_key <$> zip states updated) with (claim_key <$> states); [done|]. clear -Hf.
    induction Hf as [|b a bs as_ _ _ IH]; [done|]. cbn [zip zip_with]. rewrite !fmap_cons, IH. done. }
  split; [done|]. split; [intros p Hp; by destruct (Hin p Hp) as (? & ? & _)|].
  apply list_eq_same_length with (length states); [by apply Forall2_length in Hf | by rewrite length_fmap |].
  intros i x y _ Hx Hy. apply list_lookup_fmap_Some in Hx as (b & -> & Hb). pose proof (Forall2_lookup_lr _ _ _ _ _ _ Hf Hb Hy) as Hby.
  pose proof (Forall2_lookup_lr _ _ _ _ _ _ Hk Hb Hy) as Hkey. cbn in Hkey.
  unfold moved. destruct (List.find _ pairs) as [p|] eqn:Hfp.
  - apply List.find_some in Hfp as [Hp Hpk]. bool_prop. apply list_elem_of_In in Hp. destruct (Hin p Hp) as (_ & (amount & _ & _ & Hc & _) & Hu).
    eapply NoDup_fmap_inj_elem; [rewrite Ek; exact Hn | done | by eapply list_elem_of_lookup_2|]. rewrite Hkey, <- Hpk. unfold pair_key, claim_key. by rewrite Hc.
  - destruct Hby as [->|Hpay]; [done|]. exfalso. assert ((b, y) ∈ pairs) as Hp.
    { apply filterb_elem. split; [|by eapply list_elem_of_lookup_2, lookup_zip_Some]. cbn. apply negb_true_iff, bool_decide_eq_false_2.
      destruct Hpay as (amount & Ha & _ & _ & E & _). rewrite E. intros E'. apply (f_equal db_remaining_units) in E'. cbn in E'. lia. }
    apply list_elem_of_In, (List.find_none _ _ Hfp) in Hp. by rewrite bool_decide_true in Hp.
Qed.

(** The tables the audit reads are unchanged. *)
Definition same_core (t t' : DebtTables) : Prop :=
  dt_events t' = dt_events t ∧ dt_activations t' = dt_activations t ∧ dt_clocks t' = dt_clocks t ∧ dt_claims t' = dt_claims t ∧ dt_balances t' = dt_balances t.

Lemma insert_epoch_core row t t' : insert_epoch row t = Ok t' → same_core t t'.
Proof. unfold insert_epoch. intros H. inv_checks H. by subst. Qed.

Lemma insert_allocations_core rows t t' : insert_all insert_allocation rows t = Ok t' → same_core t t'.
Proof.
  revert t. induction rows as [|row rows IH]; intros t; cbn [insert_all]; [by intros [= <-]|]. intros (t1 & H1 & H)%bind_Ok.
  unfold insert_allocation in H1. inv_checks H1. subst t1. by apply IH in H.
Qed.

Lemma pays_revises t' event row block p transitions :
  pays block p.1 p.2 → ds_claim p.2 = ds_claim p.1 → find_event t' event = Some row → er_event_type row = "epoch_paid" →
  (∃ payload, er_payload_json row = Dumped payload ∧ is_dict payload = true ∧ payload_get payload "balance_transitions" = PList transitions) →
  authorised_once (state_transition p) (PList transitions) = true → revises t' event p.
Proof.
  intros (amount & Ha & Ho & Hc & Hb & Hwf & Hi) _ Hf Ht (payload & Hp & Hd & Hg) Hauth. apply bool_decide_eq_true in Ho.
  constructor; [done | | done|].
  - rewrite Hb. unfold advances, paid_balance. cbn. split; [done|]. lia.
  - intros n. unfold check_revision. cbn [balance_row br_reward_event_digest]. rewrite Hf, Ht, Hp. cbn [loads bind].
    assert (expected_events (bool_decide (Some (ds_balance p.1) = None)) (ds_balance p.2) = ["epoch_paid"; "composed_epoch_paid"]) as ->.
    { unfold expected_events. rewrite bool_decide_false by done. rewrite Hb. cbn [paid_balance db_status]. destruct (amount =? _); by rewrite !bool_decide_false. }
    change (bool_decide ("epoch_paid" ∈ ["epoch_paid"; "composed_epoch_paid"])) with true. cbn [negb raise_if bind]. rewrite Hd. cbn [negb raise_if bind].
    change (bool_decide ("epoch_paid" ∈ ["claim_expired"; "claim_cancelled"])) with false. change (transition_field "epoch_paid") with "balance_transitions". cbv iota.
    rewrite Hg. replace (transition_dict _ _ _) with (state_transition p) by (unfold state_transition, claim_key; by rewrite Hc). by rewrite Hauth.
Qed.

Lemma record_epoch_ok activation coordinates height hash publication projection block pairs t t' epoch states :
  ledger_ok scope_digest env t states →
  record_epoch scope_digest activation coordinates height hash publication projection pairs t = Ok (t', epoch) →
  NoDup (pair_key <$> pairs) → (∀ p, p ∈ pairs → p.1 ∈ states ∧ pays block p.1 p.2) →
  ledger_ok scope_digest env t' (moved pairs <$> states).
Proof.
  intros Hok H Hn Hin. destruct (lo_clocks _ _ _ _ Hok) as (es & r & Hr). unfold record_epoch in H.
  apply bind_Ok in H as (adigest & _ & H). apply bind_Ok in H as (pdigest & _ & H). apply bind_Ok in H as (jdigest & _ & H).
  apply bind_Ok in H as ([t1 event] & Happ & H). cbv beta iota in H. apply bind_Ok in H as (e & _ & H). apply bind_Ok in H as (edigest & _ & H).
  apply bind_Ok in H as (t2 & H2%insert_epoch_core & H). apply bind_Ok in H as (t3 & H3%insert_allocations_core & H).
  apply bind_Ok in H as (t4 & H4 & [= -> <-]).
  pose proof Happ as (es0 & ev & _ & _ & _ & _ & _ & row & _ & Et1)%append_event_Ok. 
  assert (same_core (add_event row t) t3) as (E1 & E2 & E3 & E4 & E5) by (subst t1; unfold same_core in *; destruct_and!; split_and!; by etrans).
  assert (∀ p, p ∈ pairs → ds_claim p.2 = ds_claim p.1) as Hclaims by (intros p Hp; by destruct (Hin p Hp) as (_ & amount & _ & _ & ? & _)).
  apply revise_all_Ok in H4; [|done|]; cycle 1.
  { apply Forall_forall. intros p Hp. destruct (Hin p Hp) as (_ & amount & _ & _ & _ & _ & _ & Hi). apply DebtClaimState_init_Ok in Hi as (_ & [Hl _] & _). done. }
  assert (revision_row t3 event <$> pairs = revision_row t event <$> pairs) as Erow.
  { apply list_fmap_ext. intros i p _. unfold revision_row, revision_of, next_revision. by rewrite E5. }
  rewrite Erow in H4. subst t'. set (t' := add_balances (revision_row t event <$> pairs) t3).
  assert (extends scope_digest env (block_bound t) t t') as X.
  { eapply extends_append; [exact Hok | exact Happ | by rewrite Et1 | done | done|]. exists (revision_row t event <$> pairs). split; [by unfold t', add_balances; cbn; rewrite E5|].
    by apply Forall_fmap, Forall_forall. }
  destruct (clocks_quiet _ _ _ _ _ _ _ _ _ _ _ _ _ Hr X Happ) as (es' & Hr'); [done | by rewrite Et1 | done | done | done |].
  eapply (batch_ledger_ok _ _ (block_bound t) t); [exact Hok | exact X | done | by unfold t', add_balances; cbn; rewrite E5 | done | by intros p Hp; apply Hin | | done | exact Hr'].
  intros p Hp. destruct (append_find _ _ _ _ _ _ _ _ Happ) as (row' & Hf & Ht & _ & _ & Hpl & _). destruct (Hin p Hp) as [_ Hpay].
  eapply (pays_revises _ _ row' block p (state_transition <$> pairs)); [done | by apply Hclaims | | done | |].
  - unfold find_event. change (dt_events t') with (dt_events t3). rewrite E1, <- Et1. exact Hf.
  - eexists. split; [exact Hpl|]. split; [done|]. unfold epoch_payload. by payload_field.
  - apply (authorised_once_elem state_transition (λ q, claim_key q.2) (λ q, DebtClaimBalance_digest (ds_balance q.2)) (λ q, DebtClaimBalance_digest (ds_balance q.1)));
      [done | | done]. replace ((λ q, claim_key q.2) <$> pairs) with (pair_key <$> pairs); [done|]. apply list_fmap_ext. intros i q Hq.
    unfold pair_key, claim_key. by rewrite (Hclaims q (list_elem_of_lookup_2 _ _ _ Hq)).
Qed.

Definition of_policy (p : string) (s : DebtClaimState) : bool := bool_decide (ic_policy_digest (ds_claim s) = p).

(** A close that is not a retry pays what the projection of the states allots. *)
Lemma close_epoch_fresh projection confirmation eligible t pt t' pt' epoch states :
  ledger_ok scope_digest env t states →
  close_confirmed_epoch scope_digest env projection confirmation eligible t pt = Ok (t', pt', epoch) →
  find_epoch t (dp_policy_digest projection) (dp_effective_block projection) = None →
  let ps := List.filter (of_policy (dp_policy_digest projection)) states in
  ∃ activation paid updated,
    active_policy_activation scope_digest t (PInt (dp_effective_block projection)) = Ok (Some activation) ∧
    project_debt_epoch (pa_policy activation) (PInt (dp_effective_block projection)) ps = Ok paid ∧
    py_eq (DebtEpochProjection_to_dict paid) (DebtEpochProjection_to_dict projection) = true ∧
    apply_debt_epoch_projection ps paid = Ok updated ∧ moved (changed_pairs ps updated) <$> ps = updated ∧
    ledger_ok scope_digest env t' (moved (changed_pairs ps updated) <$> states).
Proof.
  intros Hok H Hnew ps. assert (ps = List.filter (of_policy (dp_policy_digest projection)) states) as Eps by done. clearbody ps.
  unfold close_confirmed_epoch in H. apply bind_Ok in H as (expected & _ & H). apply bind_Ok in H as (publication & _ & H).
  cbv zeta in H. apply bind_Ok in H as (el & _ & H). apply bind_Ok in H as (composed & _ & H). apply bind_Ok in H as (u1 & _ & H).
  apply bind_Ok in H as (binding & _ & H). rewrite Hnew in H. apply bind_Ok in H as (active & Hactive & H). destruct active as [activation|]; [|done].
  apply bind_Ok in H as (pd & Hpd & H). apply bind_Ok in H as (u2 & Hp & H). apply raise_if_Ok in Hp. bool_prop. subst pd.
  apply bind_Ok in H as (ad & _ & H). apply bind_Ok in H as (u3 & _ & H). apply bind_Ok in H as (u4 & _ & H). apply bind_Ok in H as (coords & _ & H).
  apply bind_Ok in H as (paid & Hpaid & H). apply bind_Ok in H as (u5 & Heq & H). apply raise_if_Ok in Heq. bool_prop.
  apply bind_Ok in H as (retained & _ & H). apply bind_Ok in H as (ps' & Hps & H). apply bind_Ok in H as (updated & Hup & H). apply reraise_Ok in Hup.
  apply bind_Ok in H as ([t1 e1] & Hrec & H). cbn [fst snd] in H. injection H as -> <- <-.
  assert (digest_ok (dp_policy_digest projection)) as Hdig.
  { unfold _claim_states in Hps. apply bind_Ok in Hps as (c & Hc & _). unfold family_clocks, optional_digest in Hc.
    apply bind_Ok in Hc as (o & Ho & _). apply bind_Ok in Ho as (d & Hd & _). by columns. }
  assert (_claim_states scope_digest env (Some (dp_policy_digest projection)) t = Ok ps) as Hpol by (rewrite Eps; by apply ledger_ok_policy).
  assert (ps' = ps) as -> by congruence.
  assert (project_debt_epoch (pa_policy activation) (PInt (dp_effective_block projection)) ps = Ok paid) as Hproj.
  { unfold _project_epoch in Hpaid. rewrite Hactive in Hpaid. cbn [bind] in Hpaid. apply bind_Ok in Hpaid as (c2 & _ & Hpaid). rewrite Hpd in Hpaid. cbn [bind] in Hpaid.
    rewrite Hnew in Hpaid. apply bind_Ok in Hpaid as (cc & _ & Hpaid). apply bind_Ok in Hpaid as (? & _ & Hpaid). cbv zeta in Hpaid.
    apply bind_Ok in Hpaid as (? & _ & Hpaid). rewrite Hpol in Hpaid. cbn [bind] in Hpaid.
    apply bind_Ok in Hpaid as (pr & Hpr & Hpaid). apply bind_Ok in Hpaid as (? & _ & [= <-]). by apply reraise_Ok in Hpr. }
  assert (sorted_by claim_key ps = ps) as Hsort.
  { rewrite Eps. apply sorted_by_stable, StronglySorted_filterb. rewrite <- (state_keys_sorted _ _ _ _ Hok). apply sorted_by_sorted. }
  assert (Forall state_wf ps) as Hwf by (rewrite Eps; apply Forall_forall; intros s [_ Hs]%filterb_elem; by apply (ledger_state_wf _ _ _ _ _ Hok Hs)).
  assert (NoDup (claim_key <$> ps)) as Hn by (rewrite Eps; apply NoDup_filterb; by eapply state_keys_NoDup).
  rewrite Hsort in Hrec. destruct (changed_pairs_Ok _ _ _ (apply_projection_Ok _ _ _ Hwf Hsort Hup) Hn) as (Hnp & Hin & Hmoved).
  exists activation, paid, updated. do 5 (split; [done|]). eapply record_epoch_ok; [exact Hok | exact Hrec | done|].
  intros p Hp. destruct (Hin p Hp) as [Hpp Hpay]. rewrite Eps in Hpp. apply filterb_elem in Hpp as [_ Hpp]. done.
Qed.
End close.
