(* ===== verification/DebtIssue.v ===== *)
(** * Issuing a crown's debt

    [issue_crown_in_transaction] turns a settled CROWN into a claim, or into an event
    that says why there is none.  When the arguments are those of the retained
    settlement, the rows it writes pass the audit: the claim state is the open one,
    and the reason of a crown without debt replays. *)

From Stdlib Require Import ZArith Lia Ascii.
From stdpp Require Import base tactics numbers list strings gmap sorting.
From S2P Require Import Prelude PyValue Sha256 Identity Strict IdentityCorrect Provider FiniteDebt FiniteDebtBalance FiniteDebtPolicy.
From S2P Require Import FiniteDebtEpoch FiniteDebtClaims Composition Stack Release StackPlan StackPlanCorrect Settlement.
From S2P Require Import SettlementPlan SettlementFacts Publication Journal IntakeData Intake DebtPublication DebtStoreData DebtStore.
From S2P Require Import DebtLedger DebtFrame DebtAudit DebtSteps DebtClose.

Section issue.
Context {sha : Sha256} (scope_digest : string) (env : LedgerEnv).

(** The arguments are those of the settlement that is retained under the digests
    they name. *)
Record crown_of (k : Crown) (crown : CrownAuthority) : Prop := {
  co_authority : _retained_crown_authority env (PStr (kn_candidate_digest k)) (PStr (kn_reservation_digest k))
    (PStr (kn_settlement_event_digest k)) (PStr (kn_retained_evidence_digest k)) = Ok crown;
  co_arena : kn_arena_digest k = sq_arena_digest (sc_primary (cw_candidate crown));
  co_target : kn_target_id k = sq_target_id (sc_primary (cw_candidate crown));
  co_spec : kn_target_spec_digest k = ref_target_spec_digest (cw_contribution crown);
  co_hotkey : kn_hotkey k = sq_hotkey (sc_primary (cw_candidate crown));
  co_speedup : kn_settled_speedup k = sc_speedup (cw_candidate crown);
  co_block : kn_accepted_crown_block k = sq_finalized_block (sc_primary (cw_candidate crown));
  co_hash : kn_accepted_crown_block_hash k = fa_block_hash (cw_arrival crown);
  co_index : kn_event_index k = sq_event_index (sc_primary (cw_candidate crown));
  co_subindex : kn_event_subindex k = sq_event_subindex (sc_primary (cw_candidate crown));
  co_settled : kn_accepted_crown_block k ≤ kn_settlement_block k
}.

(** What the retained authority has compared. *)
Lemma authority_facts cd rd sd ed crown :
  _retained_crown_authority env (PStr cd) (PStr rd) (PStr sd) (PStr ed) = Ok crown →
  let c := sc_primary (cw_candidate crown) in let a := cw_arrival crown in
  SettlementCandidate_digest (cw_candidate crown) = cd ∧ sq_reservation_digest c = rd ∧ SettlementEvent_digest (cw_event crown) = sd ∧
  SettlementEvidence_digest (cw_evidence crown) = ed ∧ fa_block a = sq_finalized_block c ∧ fa_event_index a = sq_event_index c ∧
  fa_event_subindex a = sq_event_subindex c ∧ fa_hotkey a = sq_hotkey c.
Proof.
  unfold _retained_crown_authority. intros H. do 4 (apply bind_Ok in H as (? & ? & H)). columns. cbv zeta in H.
  destruct (List.find _ (db_candidates _)) as [row|]; [|done]. destruct (find_row _ _) as [arrival|]; [|done].
  destruct (List.find _ (le_settlement_events env)) as [event_row|]; [|done].
  destruct (qualifications_of _ _) as [|q0 [|q1 [|]]]; try done. do 6 (apply bind_Ok in H as (? & _ & H)).
  destruct (crown_contribution _); [|done]. apply bind_Ok in H as (? & _ & H). apply bind_Ok in H as (? & Hd & [= <-]).
  apply raise_if_Ok in Hd. unfold crown_differs in Hd. cbv zeta in Hd. bool_prop. cbn. done.
Qed.

(** ** One event and the clocks it appends *)

Lemma extends_issue ty block hash payload t t1 t' digest states :
  ledger_ok scope_digest env t states → _append_event scope_digest ty block hash payload t = Ok (t1, digest) →
  dt_events t' = dt_events t1 → dt_activations t' = dt_activations t →
  (∃ new, dt_claims t' = dt_claims t ++ new ∧
    Forall (λ c, cr_issuance_reward_event_digest c = digest ∧ ∃ claim, _claim_from_row scope_digest env t' c = Ok claim) new) →
  (∃ new, dt_balances t' = dt_balances t ++ new ∧ Forall (λ b, br_reward_event_digest b = digest) new) →
  extends scope_digest env (block_bound t) t t'.
Proof.
  intros Hok Happ Hev Hact (newc & Hcl & Hnewc) (new & Hb & Hnew).
  set (s := {| dt_events := dt_events t1; dt_activations := dt_activations t; dt_clocks := dt_clocks t; dt_claims := dt_claims t;
               dt_balances := dt_balances t; dt_epochs := dt_epochs t; dt_allocations := dt_allocations t |}).
  assert (extends scope_digest env (block_bound t) t s) as [X1 X2 X3 X4 X5 X6 _ _ X9].
  { eapply extends_append; [exact Hok | exact Happ | done | done | done|]. exists []. by rewrite app_nil_r. }
  assert (digest ∉ (er_event_digest <$> dt_events t)) as Hfresh by (by apply append_event_Ok in Happ as (? & ? & _ & _ & _ & _ & ? & _)).
  assert (reward_events scope_digest t' = reward_events scope_digest s) as Er by (unfold reward_events; by rewrite Hev).
  constructor; [by rewrite Hev | done | done | by rewrite Er | by exists []; rewrite app_nil_r | | | | done].
  - intros b a _. apply active_kept; [|done|by rewrite Er]. intros d e He. destruct X1 as (n & E & _). unfold find_event in *. rewrite Hev.
    change (dt_events t1) with (dt_events s). rewrite E, find_app. by rewrite He.
  - exists newc. split; [done|]. eapply Forall_impl; [exact Hnewc|]. intros c [-> Hc]. done.
  - exists new. split; [done|]. eapply Forall_impl; [exact Hnew|]. by intros b ->.
Qed.

(** An event and the clocks it appends pass the audit. *)
Lemma clocks_event h ty block hash payload t t1 t' digest es r r' new :
  clocks_audited scope_digest env t es r → extends scope_digest env h t t' →
  _append_event scope_digest ty block hash payload t = Ok (t1, digest) → dt_events t' = dt_events t1 →
  replay_event scope_digest env t' {| re_block := block; re_block_hash := hash; re_event_digest := digest; re_event_type := ty;
    re_payload := payload; re_previous_event_digest := chain_head es; re_sequence := Z.of_nat (length es) |} r = Ok r' →
  size (ry_activations r') = length (dt_activations t') → size (ry_claims r') = length (dt_claims t') →
  ry_expected r' = ry_expected r ++ new → dt_clocks t' = dt_clocks t ++ new →
  Forall (λ c, FiniteDebtFamilyClock_check c = Ok c) new →
  ∃ es', clocks_audited scope_digest env t' es' r'.
Proof.
  intros [Hes Hr Ha Hc Hw Hk] X Happ Hev Hstep Eact Ecl Eexp Eclk Hnew.
  eexists. constructor; [unfold reward_events; rewrite Hev; exact (append_event_reads _ _ _ _ _ _ _ _ _ Hes Happ) | | done | done | |].
  - rewrite replay_events_app. eapply bind_step; [by eapply (replay_events_mono _ _ h t t' X es es)|]. cbn [replay_events]. by rewrite Hstep.
  - rewrite Eclk. apply is_ok_true in Hw as [k Hw]. apply is_ok_true. exists (k ++ new). apply mapM_Ok, Forall2_app; [by apply mapM_Ok|].
    clear -Hnew. induction Hnew as [|c l Hc _ IH]; by constructor.
  - rewrite Eclk, Eexp. by apply (stable_sort_app_ext clock_le).
Qed.

(** ** Crowns without debt *)

(** What the issuance of a crown has looked up. *)
Record issuing (k : Crown) (crown : CrownAuthority) (t : DebtTables) (activation : FiniteDebtPolicyActivation)
    (adigest pd family : string) : Prop := {
  is_crown : crown_of k crown;
  is_active : active_policy_activation scope_digest t (PInt (kn_settlement_block k)) = Ok (Some activation);
  is_adigest : FiniteDebtPolicyActivation_digest activation = Ok adigest;
  is_policy : FiniteDebtPolicyManifest_digest (pa_policy activation) = Ok pd;
  is_family : reward_family_id (kn_arena_digest k) (kn_target_id k) (kn_target_spec_digest k) = Ok family;
  is_checked : check_crown k = Ok tt
}.

Definition no_issue_of (k : Crown) (adigest family reason : string) : pyval :=
  no_issue_payload (kn_accepted_crown_block k) (kn_accepted_crown_block_hash k) adigest (kn_candidate_digest k)
    (kn_event_index k) (kn_event_subindex k) family (kn_hotkey k) (PStr reason) (kn_reservation_digest k)
    (kn_retained_evidence_digest k) (kn_settlement_event_digest k).

Lemma no_issue_fields k adigest family reason :
  let p := no_issue_of k adigest family reason in
  payload_get p "activation_digest" = PStr adigest ∧ payload_get p "candidate_digest" = PStr (kn_candidate_digest k) ∧
  payload_get p "reservation_digest" = PStr (kn_reservation_digest k) ∧
  payload_get p "settlement_event_digest" = PStr (kn_settlement_event_digest k) ∧
  payload_get p "retained_evidence_digest" = PStr (kn_retained_evidence_digest k) ∧ payload_get p "reason" = PStr reason ∧
  payload_get p "family_id" = PStr family.
Proof. cbv zeta. unfold no_issue_of, no_issue_payload. split_and!; by payload_field. Qed.

Lemma no_issue_replays h t t' k crown activation adigest pd family hash reason event n previous :
  extends scope_digest env h t t' → schema_ok t → dt_activations t' = dt_activations t →
  issuing k crown t activation adigest pd family → reason ∈ NO_ISSUE_REASONS →
  _no_issue_authority scope_digest env t' {| re_block := kn_settlement_block k; re_block_hash := hash; re_event_digest := event;
    re_event_type := "claim_not_issued"; re_payload := no_issue_of k adigest family reason; re_previous_event_digest := previous; re_sequence := n |}
  = Ok (activation, cw_candidate crown, reason, cw_arrival crown).
Proof.
  intros X Hs Hact [Hk Hactive Had Hpd Hfam _] Hreason. destruct (no_issue_fields k adigest family reason) as (F1 & F2 & F3 & F4 & F5 & F6 & _).
  destruct (authority_facts _ _ _ _ _ (co_authority _ _ Hk)) as (A1 & A2 & A3 & A4 & _).
  destruct (active_row _ _ _ _ Hactive) as (row & z & _ & Hrow & Hra & _). destruct (activation_row_Ok _ _ _ _ Hra) as (D1 & _).
  assert (ar_activation_digest row = adigest) as Ea by congruence.
  unfold _no_issue_authority. cbn [re_payload re_block]. unfold no_issue_of at 1, no_issue_payload at 1. rewrite (has_fields_dict NO_ISSUE_FIELDS) by done.
  cbn [negb raise_if bind]. rewrite F1, F2, F3, F4, F5, F6. unfold find_activation. rewrite Hact.
  rewrite (find_unique _ ar_activation_digest _ row adigest (so_activations _ Hs) Hrow);
    [|by cbn [py_eq_str]; rewrite Ea, bool_decide_true | intros y; cbn [py_eq_str]; intros ?; by bool_prop].
  rewrite (activation_mono _ _ _ _ _ X _ _ Hra). cbn [bind].
  rewrite (active_kept _ _ _ (find_event_mono _ _ _ _ _ X) _ _ Hact (xt_reads' _ _ _ _ _ X) Hactive). cbn [bind].
  rewrite (co_authority _ _ Hk). cbn [bind]. rewrite <- (co_arena _ _ Hk), <- (co_target _ _ Hk), <- (co_spec _ _ Hk), Hfam. cbn [bind]. rewrite Had. cbn [bind].
  rewrite bool_decide_true by done. rewrite <- (co_block _ _ Hk), <- (co_hash _ _ Hk), <- (co_index _ _ Hk), <- (co_subindex _ _ Hk), <- (co_hotkey _ _ Hk), A1, A2, A3, A4.
  fold (no_issue_of k adigest family reason). rewrite py_eq_refl by done.
  replace (kn_settlement_block k <? _) with false by (symmetry; apply Z.ltb_ge, Hk). cbn [negb orb raise_if bind].
  unfold py_in_strs. cbn [hashable bind]. by rewrite bool_decide_true.
Qed.

Lemma crown_checked k : check_crown k = Ok tt →
  0 ≤ kn_accepted_crown_block k ∧ is_block_hash (kn_accepted_crown_block_hash k) = true ∧ 0 ≤ kn_event_index k ∧ 0 ≤ kn_event_subindex k ∧
  digest_ok (kn_reservation_digest k) ∧ digest_ok (kn_settlement_event_digest k) ∧ digest_ok (kn_candidate_digest k) ∧
  digest_ok (kn_retained_evidence_digest k) ∧ hotkey_matches (kn_hotkey k) = true.
Proof.
  unfold check_crown. intros H. inv_checks H. columns. unfold FS._integer in *.
  repeat match goal with E : require_int _ _ _ _ = Ok _ |- _ => apply require_int_Ok in E as ([= <-] & E & _); specialize (E 0 eq_refl) end.
  match goal with E : FS._hotkey _ = Ok _ |- _ => unfold FS._hotkey in E; destruct (hotkey_matches _) eqn:Hh; [|done] end.
  done.
Qed.

(** The clocks a crown may append are well-formed. *)
Lemma kn_clock_check k pd family source claim event :
  check_crown k = Ok tt → digest_ok pd → digest_ok family → digest_ok event →
  (source = "crown_no_debt" ∧ claim = "") ∨ (source = "crown" ∧ digest_ok claim) →
  FiniteDebtFamilyClock_check (kn_clock k pd family source claim event) = Ok (kn_clock k pd family source claim event).
Proof.
  intros (Hb & Hh & Hi & Hs & Hr & _)%crown_checked Hp Hf He Hsrc. unfold FiniteDebtFamilyClock_check.
  cbn [kn_clock family_clock fc_policy_digest fc_family_id fc_reservation_digest fc_accepted_crown_block fc_accepted_crown_block_hash fc_event_index
    fc_event_subindex fc_source fc_claim_digest fc_reward_event_digest].
  rewrite (proj2 (digest_column_Ok pd pd)), (proj2 (digest_column_Ok family family)), (proj2 (digest_column_Ok _ (kn_reservation_digest k))),
    (proj2 (block_hash_Ok _ (kn_accepted_crown_block_hash k))), (proj2 (digest_column_Ok event event)) by done. unfold FS._integer.
  assert (∀ z, 0 ≤ z → require_int FiniteDebtStoreError (Some 0) None (PInt z) = Ok z) as Hint.
  { intros z Hz. apply require_int_Ok. split; [done|]. split; [by intros ? [= <-] | done]. }
  rewrite !Hint by done. destruct Hsrc as [[-> ->]|[-> Hc]]; [done|]. cbn [bind]. change (bool_decide ("crown" ∈ _CLOCK_SOURCES)) with true.
  change (bool_decide ("crown" ∈ ["seed"; "crown_no_debt"; "invalidation"])) with false.
  rewrite (proj2 (digest_column_Ok claim claim)) by done. cbn [negb raise_if bind].
  rewrite (bool_decide_false (claim = "")) by (intros ->; by destruct Hc). done.
Qed.

(** A crown without debt: its event replays, with the clock it may restart. *)
Lemma no_issue_keeps t t1 t' k crown activation adigest pd family hash reason event states es r units new :
  ledger_ok scope_digest env t states → clocks_audited scope_digest env t es r → issuing k crown t activation adigest pd family →
  reason ∈ NO_ISSUE_REASONS → kn_settlement_event_digest k ∉ ry_outcomes r →
  append_no_issue scope_digest k hash adigest family reason t = Ok (t1, event) →
  no_issue_reason activation (cw_candidate crown) reason family (kn_retained_evidence_digest k) (ry_latest r !! (pd, family)) (kn_settlement_block k)
    = Ok (true, units) →
  dt_events t' = dt_events t1 → dt_activations t' = dt_activations t → dt_claims t' = dt_claims t → dt_balances t' = dt_balances t →
  dt_clocks t' = dt_clocks t ++ new →
  (new = [] ∧ (reason ≠ "principal_rounds_to_zero" ∨ ∃ u, units = Some u ∧ resets_family_clock (pa_policy activation) (PInt u) = Ok false)) ∨
  (new = [kn_clock k pd family "crown_no_debt" "" event] ∧ reason = "principal_rounds_to_zero" ∧
   (∃ u, units = Some u ∧ resets_family_clock (pa_policy activation) (PInt u) = Ok true) ∧ digest_ok pd ∧ digest_ok family ∧ digest_ok event ∧
   match ry_latest r !! (pd, family) with Some p => order_leb (kn_order k) (fc_finalized_order p) = false | None => True end) →
  ledger_ok scope_digest env t' states.
Proof.
  intros Hok Hr Hiss Hreason Hout Happ Hverdict Hev Hact Hcl Hbal Hclk Hnew.
  assert (extends scope_digest env (block_bound t) t t') as X.
  { eapply extends_append; [exact Hok | exact Happ | done | done | done|]. exists []. by rewrite app_nil_r. }
  assert (∃ r', replay_event scope_digest env t' {| re_block := kn_settlement_block k; re_block_hash := hash; re_event_digest := event;
      re_event_type := "claim_not_issued"; re_payload := no_issue_of k adigest family reason; re_previous_event_digest := chain_head es;
      re_sequence := Z.of_nat (length es) |} r = Ok r' ∧ ry_activations r' = ry_activations r ∧ ry_claims r' = ry_claims r ∧
      ry_expected r' = ry_expected r ++ new ∧ Forall (λ c, FiniteDebtFamilyClock_check c = Ok c) new) as (r' & Hstep & E1 & E2 & E3 & Hw).
  { unfold replay_event. cbn [re_event_type]. do 2 rewrite bool_decide_false by done. rewrite bool_decide_true by done. unfold replay_no_issue.
    rewrite (no_issue_replays _ _ _ _ _ _ _ _ _ _ _ _ _ _ X (lo_schema _ _ _ _ Hok) Hact Hiss Hreason). cbn [bind re_payload re_block re_event_digest].
    destruct (no_issue_fields k adigest family reason) as (_ & _ & _ & F4 & F5 & _ & F7). unfold payload_str. rewrite F4, F5, F7.
    unfold crown_outcome. rewrite bool_decide_false by done. cbn [raise_if bind]. rewrite (is_policy _ _ _ _ _ _ _ Hiss). cbn [bind ry_latest]. rewrite Hverdict.
    cbn [bind fst snd negb raise_if]. destruct Hnew as [[-> Hnone]|(-> & -> & (u & -> & Hreset) & Hpd & Hfam & Hed & Hord)].
    - setoid_rewrite app_nil_r. destruct units as [u|]; [|by eexists]. case_bool_decide; [|by eexists].
      destruct Hnone as [?|(u' & [= ->] & ->)]; [done|]. cbn [bind]. by eexists.
    - rewrite bool_decide_true by done. rewrite Hreset. cbn [bind]. pose proof (is_crown _ _ _ _ _ _ _ Hiss) as Hk.
      destruct (authority_facts _ _ _ _ _ (co_authority _ _ Hk)) as (_ & A2 & _).
      rewrite <- (co_block _ _ Hk), <- (co_hash _ _ Hk), <- (co_index _ _ Hk), <- (co_subindex _ _ Hk), A2.
      fold (kn_clock k pd family "crown_no_debt" "" event). unfold append_checked.
      pose proof (kn_clock_check k pd family "crown_no_debt" "" event (is_checked _ _ _ _ _ _ _ Hiss) Hpd Hfam Hed (or_introl (conj eq_refl eq_refl))) as Hck.
      rewrite Hck. cbn [bind]. unfold append_clock. cbn [kn_clock family_clock fc_policy_digest fc_family_id ry_latest].
      fold (kn_clock k pd family "crown_no_debt" "" event). change (fc_finalized_order (kn_clock _ _ _ _ _ _)) with (kn_order k).
      destruct (ry_latest r !! (pd, family)) as [p|]; [rewrite Hord|]; cbn [raise_if bind]; eexists; (split; [reflexivity|]); cbn; split_and!; try done; by constructor. }
  destruct (clocks_event _ _ _ _ _ _ _ _ _ _ _ _ new Hr X Happ Hev Hstep) as (es' & Hr');
    [rewrite E1, Hact; by destruct Hr | rewrite E2, Hcl; by destruct Hr | done | done | done |].
  assert (moved [] <$> states = states) as <- by (apply list_fmap_id).
  eapply (batch_ledger_ok _ _ _ t t' states event []); [exact Hok | exact X | exact Hcl | | constructor | | | exact Hact | exact Hr'].
  - rewrite app_nil_r. exact Hbal.
  - intros p Hp. destruct (not_elem_of_nil p Hp).
  - intros p Hp. destruct (not_elem_of_nil p Hp).
Qed.

(** ** Why a crown has no debt *)

Lemma activation_policy_wf t row a : _activation_from_row scope_digest t row = Ok a → policy_wf (pa_policy a).
Proof.
  unfold _activation_from_row, reopen_text. cbv zeta. intros (a' & Ha & H)%bind_Ok. destruct (loads _) as [v|]; [|done]. apply reraise_Ok in Ha.
  assert (a' = a) as -> by (inv_checks H; done). clear H. unfold FiniteDebtPolicyActivation_from_dict in Ha. inv_checks Ha.
  unfold FiniteDebtPolicyActivation_init in Ha. inv_checks Ha. subst a. cbn [pa_policy].
  match goal with E : FiniteDebtPolicyManifest_from_dict _ = Ok _ |- _ => unfold FiniteDebtPolicyManifest_from_dict in E; rename E into Hp end.
  inv_checks Hp. eapply (FiniteDebtPolicyManifest_init_wf _ _ _ _ _ _ _ _ _ _ _ _ _ _ _ Hp). apply Forall_forall. intros m Hm.
  match goal with E : mapM RewardFamilyCampaign_from_dict _ = Ok _ |- _ => destruct (mapM_elem _ _ _ _ E Hm) as (x & _ & Hx) end.
  unfold RewardFamilyCampaign_from_dict in Hx. inv_checks Hx. by apply RewardFamilyCampaign_init_Ok in Hx as (_ & _ & ?).
Qed.

Lemma issue_units p family candidate evidence hotkey speed accepted prior settled e :
  policy_wf p → digest_ok family → 0 ≤ accepted ≤ settled →
  log_improvement_units_ppm (PStr speed) (fp_improvement_basis p) (PStr "1") = Raise e →
  issue_innovation_claim p (PStr family) candidate evidence hotkey (PStr speed) (PStr "1") (PInt accepted) prior (PInt settled) = Raise e.
Proof.
  intros Hp Hf Hz Hu. unfold issue_innovation_claim. fd_run. rewrite (proj2 (Z.ltb_ge settled accepted)) by lia. cbn [raise_if bind]. by rewrite Hu.
Qed.

(** A message about the improvement comes from the improvement. *)
Lemma improvement_rounds p pd family candidate evidence hotkey speed accepted prior settled :
  policy_wf p → FiniteDebtPolicyManifest_digest p = Ok pd → Forall digest_ok [pd; family; candidate; evidence] → hotkey_matches hotkey = true →
  0 ≤ accepted ≤ settled → prior_ok accepted prior →
  issue_innovation_claim p (PStr family) (PStr candidate) (PStr evidence) (PStr hotkey) (PStr speed) (PStr "1") (PInt accepted)
    (py_opt_int prior) (PInt settled) = Raise (Exn FiniteDebtError "improvement rounds to zero 1%-log-unit ppm") →
  log_improvement_units_ppm (PStr speed) (fp_improvement_basis p) (PStr "1") = Raise (Exn FiniteDebtError "improvement rounds to zero 1%-log-unit ppm").
Proof.
  intros Hp Hpd Hd Hh Hz Hpr Hi. assert (digest_ok family) as Df by (rewrite !Forall_cons in Hd; apply Hd).
  destruct (log_improvement_units_ppm _ _ _) as [units|e] eqn:Hu; [|rewrite (issue_units p _ _ _ _ _ _ _ _ _ Hp Df Hz Hu) in Hi; congruence].
  exfalso.
  destruct (find_family (fp_reward_family_campaigns p) family) as [campaign|e] eqn:Hc.
  - destruct (decide (0 < claim_principal p units (multiplier_of p accepted prior))) as [Hpos|Hpos].
    + assert (∃ c, issue_innovation_claim p (PStr family) (PStr candidate) (PStr evidence) (PStr hotkey) (PStr speed) (PStr "1") (PInt accepted)
        (py_opt_int prior) (PInt settled) = Ok c) as [c E]; [|congruence].
      eexists. apply issue_innovation_claim_Ok; [done|]. exists pd, family, campaign, candidate, evidence, hotkey, speed, "1", accepted, settled, prior, units.
      split_and!; (done || lia).
    + revert Hi. unfold issue_innovation_claim. fd_run. rewrite (proj2 (Z.ltb_ge settled accepted)) by lia. cbn [raise_if bind]. rewrite Hu. cbn [bind].
      rewrite multiplier_of_spec by (done || lia). cbn [bind]. unfold _claim_principal_units, campaign_for_family. fd_run. rewrite Hc. cbn [bind].
      rewrite (campaign_share_for_family p family campaign) by done. cbn [bind]. fold (campaign_share p) (campaign_pool p).
      fold (claim_principal p units (multiplier_of p accepted prior)). rewrite (proj2 (Z.leb_le (claim_principal _ _ _) 0)) by lia. by rewrite orb_true_r.
  - assert (e = FD.error "claim family is absent from the policy campaign map") as ->.
    { clear -Hc. induction (fp_reward_family_campaigns p) as [|row rows IH]; cbn in Hc; [by injection Hc as <-|]. case_bool_decide; [done | auto]. }
    revert Hi. unfold issue_innovation_claim. fd_run. rewrite (proj2 (Z.ltb_ge settled accepted)) by lia. cbn [raise_if bind]. rewrite Hu. cbn [bind].
    rewrite multiplier_of_spec by (done || lia). cbn [bind]. unfold _claim_principal_units, campaign_for_family. fd_run. by rewrite Hc.
Qed.

(** ** Claims *)

(** The claims a replay has seen are rows. *)
Definition claim_digests (t : DebtTables) : gset string := list_to_set (cr_claim_digest <$> dt_claims t).

Lemma append_checked_claims c r r' : append_checked c r = Ok r' → ry_claims r' = ry_claims r.
Proof. unfold append_checked, append_clock. intros H. inv_checks H. by subst r'. Qed.

Lemma append_seeds_claims p d seeds r r' : append_seeds p d seeds r = Ok r' → ry_claims r' = ry_claims r.
Proof.
  revert r. induction seeds as [|x seeds IH]; intros r; cbn [append_seeds]; [by intros [= ->]|].
  intros (r1 & Hr%append_checked_claims & H)%bind_Ok. by rewrite (IH _ H).
Qed.

Lemma replay_event_claims t e r r' : replay_event scope_digest env t e r = Ok r' → ry_claims r' ⊆ ry_claims r ∪ claim_digests t.
Proof.
  unfold replay_event. intros H. repeat case_bool_decide.
  - unfold replay_activation in H. destruct (activation_of_event _ _); [|done]. inv_checks H. apply append_seeds_claims in H as ->. cbn. set_solver.
  - unfold replay_claim in H. destruct (claim_of_event _ _) as [row|] eqn:Hf; [|done]. apply bind_Ok in H as (claim & Hc & H). inv_checks H.
    assert (InnovationDebtClaim_digest claim ∈ claim_digests t) as Hin.
    { apply elem_of_list_to_set. apply claim_from_row_Ok, claim_backed_digest in Hc as ->. apply list_elem_of_fmap_2. by apply List.find_some in Hf as [Hf%list_elem_of_In _]. }
    match goal with E : crown_outcome _ _ = Ok ?x |- _ => assert (ry_claims x = ry_claims r) as Ex by (unfold crown_outcome in E; inv_checks E; by subst x) end.
    destruct (ic_resets_clock _); [apply append_checked_claims in H as -> | injection H as <-]; cbn; rewrite Ex; set_solver.
  - unfold replay_no_issue in H. apply bind_Ok in H as ([[[a c] reason] arrival] & _ & H). inv_checks H.
    match goal with E : crown_outcome _ _ = Ok ?x |- _ => assert (ry_claims x = ry_claims r) as Ex by (unfold crown_outcome in E; inv_checks E; by subst x) end.
    match goal with E : no_issue_reason _ _ _ _ _ _ _ = Ok ?x |- _ => destruct x as [valid [units|]] end; cbn [snd] in H; [|injection H as <-; rewrite Ex; set_solver]. case_bool_decide; [|injection H as <-; rewrite Ex; set_solver].
    inv_checks H. match type of H with (if ?b then _ else _) = _ => destruct b end; [apply append_checked_claims in H as -> | injection H as <-]; rewrite Ex; set_solver.
  - unfold replay_invalidation in H. inv_checks H. unfold append_clock in H. inv_checks H. subst r'. cbn. set_solver.
  - injection H as <-. set_solver.
Qed.

Lemma replay_events_claims t es r r' : replay_events scope_digest env t es r = Ok r' → ry_claims r' ⊆ ry_claims r ∪ claim_digests t.
Proof.
  revert r. induction es as [|e es IH]; intros r; cbn [replay_events]; [intros [= ->]; set_solver|].
  intros (r1 & Hr%replay_event_claims & H%IH)%bind_Ok. set_solver.
Qed.

(** The fields of the claim that a crown is issued. *)
Record issued (k : Crown) (activation : FiniteDebtPolicyActivation) (pd family : string) (prior : option FiniteDebtFamilyClock)
    (claim : InnovationDebtClaim) : Prop := {
  iw_wf : claim_wf claim;
  iw_validates : InnovationDebtClaim_validate_policy claim (pa_policy activation) = Ok tt;
  iw_policy : ic_policy_digest claim = pd;
  iw_family : ic_family_id claim = family;
  iw_candidate : ic_candidate_digest claim = kn_candidate_digest k;
  iw_evidence : ic_retained_evidence_digest claim = kn_retained_evidence_digest k;
  iw_hotkey : ic_hotkey claim = kn_hotkey k;
  iw_speedup : ic_settled_speedup claim = kn_settled_speedup k;
  iw_accepted : ic_accepted_crown_block claim = kn_accepted_crown_block k;
  iw_settled : ic_settlement_block claim = kn_settlement_block k;
  iw_prior : ic_prior_accepted_crown_block claim = prior_block prior
}.

Lemma issued_Ok k activation pd family prior claim :
  policy_wf (pa_policy activation) → FiniteDebtPolicyManifest_digest (pa_policy activation) = Ok pd →
  issue_innovation_claim (pa_policy activation) (PStr family) (PStr (kn_candidate_digest k)) (PStr (kn_retained_evidence_digest k))
    (PStr (kn_hotkey k)) (PStr (kn_settled_speedup k)) (PStr "1") (PInt (kn_accepted_crown_block k)) (py_opt_int (prior_block prior))
    (PInt (kn_settlement_block k)) = Ok claim →
  issued k activation pd family prior claim.
Proof.
  intros Hp Hpd Hi. pose proof (issued_wf _ _ _ _ _ _ _ _ _ _ _ Hi) as [Hwf Hv].
  apply issue_innovation_claim_Ok in Hi as (pd' & f & campaign & cd & ed & hk & sp & th & ac & se & pr & units & Hargs & [= Ea] & Ep & [= Es] & Hpd' & _ & _ & _ & _ & _ & _ & _ & Hc);
    [|done]. apply py_opt_int_inj in Ep. cbn in Hargs. injection Hargs as E1 E2 E3 E4 E5 _. subst claim. assert (pd' = pd) as -> by congruence.
  constructor; [done | done | ..]; cbn; done.
Qed.

Lemma claim_dict_canonical c : is_canonical (InnovationDebtClaim_to_dict c) = true.
Proof. unfold InnovationDebtClaim_to_dict, InnovationDebtClaim_to_row, py_dict. cbn. by destruct (ic_prior_accepted_crown_block c). Qed.

Lemma claim_payload_agrees k hash adigest claim prior event :
  claim_payload_differs (claim_row k hash claim event) claim adigest (claim_event_payload k adigest claim prior) = false.
Proof.
  unfold claim_payload_differs. cbn [claim_row cr_accepted_crown_block_hash cr_event_index cr_event_subindex cr_reservation_digest cr_settlement_event_digest].
  unfold claim_event_payload. rewrite (has_fields_dict CLAIM_EVENT_FIELDS) by done. 
  do 8 (rewrite payload_get_dict; repeat (rewrite field_next by done); rewrite field_here).
  rewrite !py_eq_str_refl, !py_eq_PInt_refl, py_eq_refl by apply claim_dict_canonical. done.
Qed.

Lemma claim_prior_field k adigest claim prior :
  payload_get (claim_event_payload k adigest claim prior) "prior_family_clock" = _claim_prior_clock_identity prior.
Proof. unfold claim_event_payload. by payload_field. Qed.

(** The tables after a claim. *)
Lemma record_claim_Ok k hash adigest claim prior t t' :
  record_claim scope_digest k hash adigest claim prior t = Ok t' →
  ∃ t1 event opened new,
    _append_event scope_digest "claim_issued" (kn_settlement_block k) hash (claim_event_payload k adigest claim prior) t = Ok (t1, event) ∧
    DebtClaimBalance_open claim = Ok opened ∧ digest_ok event ∧
    InnovationDebtClaim_digest claim ∉ (cr_claim_digest <$> dt_claims t) ∧ event ∉ (cr_issuance_reward_event_digest <$> dt_claims t) ∧
    new = (if ic_resets_clock claim then [kn_clock k (ic_policy_digest claim) (ic_family_id claim) "crown" (InnovationDebtClaim_digest claim) event] else []) ∧
    dt_events t' = dt_events t1 ∧ dt_activations t' = dt_activations t ∧ dt_claims t' = dt_claims t ++ [claim_row k hash claim event] ∧
    dt_balances t' = dt_balances t ++ [balance_row opened 0 event] ∧ dt_clocks t' = dt_clocks t ++ new.
Proof.
  unfold record_claim. intros ([t1 event] & Happ & H)%bind_Ok. cbv beta iota in H. apply bind_Ok in H as (t2 & H2 & H).
  apply bind_Ok in H as (opened & Ho & H). apply bind_Ok in H as (t3 & H3 & H). pose proof Happ as (es & e & _ & _ & _ & _ & _ & row & _ & ->)%append_event_Ok.
  unfold insert_claim in H2. inv_checks H2. bool_prop. subst t2. cbn [claim_row cr_claim_digest cr_issuance_reward_event_digest] in *.
  assert (digest_ok event) as He by (unfold _insert_balance in H3; apply bind_Ok in H3 as (d & Hd & _); by columns).
  apply insert_balance_Ok in H3 as ->. exists (add_event row t), event, opened. eexists. split; [done|]. split; [done|]. split; [done|]. split; [done|]. split; [done|].
  split; [reflexivity|]. destruct (ic_resets_clock claim); [apply insert_clock_Ok in H as -> | injection H as <-]; cbn; rewrite ?app_nil_r; done.
Qed.

Section claim.
Context (t t1 t' : DebtTables) (states : list DebtClaimState) (es : list RewardEvent) (r : ClockReplay) (k : Crown) (crown : CrownAuthority).
Context (activation : FiniteDebtPolicyActivation) (adigest pd family hash event : string) (claim : InnovationDebtClaim) (opened : DebtClaimBalance).
Let prior := ry_latest r !! (pd, family).
Let payload := claim_event_payload k adigest claim prior.
Let row := claim_row k hash claim event.
Let key := InnovationDebtClaim_digest claim.
Let s := {| ds_claim := claim; ds_balance := opened |}.
Context (Hok : ledger_ok scope_digest env t states) (Hr : clocks_audited scope_digest env t es r).
Context (Hiss : issuing k crown t activation adigest pd family) (Hclaim : issued k activation pd family prior claim).
Context (Happ : _append_event scope_digest "claim_issued" (kn_settlement_block k) hash payload t = Ok (t1, event)).
Context (Hopen : DebtClaimBalance_open claim = Ok opened) (Hed : digest_ok event).
Context (Hnew : key ∉ (cr_claim_digest <$> dt_claims t)) (Hfresh : event ∉ (cr_issuance_reward_event_digest <$> dt_claims t)).
Context (Hev : dt_events t' = dt_events t1) (Hact : dt_activations t' = dt_activations t) (Hcl : dt_claims t' = dt_claims t ++ [row]).
Context (Hbal : dt_balances t' = dt_balances t ++ [balance_row opened 0 event]).

Lemma claim_found d e : find_event t d = Some e → find_event t' d = Some e.
Proof.
  pose proof Happ as (es0 & e0 & _ & _ & _ & _ & _ & erow & _ & E)%append_event_Ok. unfold find_event. rewrite Hev, E. cbn [add_event dt_events].
  rewrite find_app. by intros ->.
Qed.

Lemma claim_reads : ∃ es', reward_events scope_digest t' = Ok es'.
Proof. eexists. unfold reward_events. rewrite Hev. exact (append_event_reads _ _ _ _ _ _ _ _ _ (ca_events _ _ _ _ _ Hr) Happ). Qed.

Lemma issuing_policy : _activation_by_policy scope_digest t' pd = Ok activation.
Proof.
  destruct (active_row _ _ _ _ (is_active _ _ _ _ _ _ _ Hiss)) as (arow & z & _ & Hrow & Hra & _).
  destruct (activation_row_Ok _ _ _ _ Hra) as (_ & D2 & _). pose proof (is_policy _ _ _ _ _ _ _ Hiss) as Hpd. assert (ar_policy_digest arow = pd) as Ep by congruence.
  assert (digest_ok pd) as Dp by (rewrite <- (iw_policy _ _ _ _ _ _ Hclaim); apply (iw_wf _ _ _ _ _ _ Hclaim)).
  unfold _activation_by_policy. rewrite (proj2 (digest_column_Ok pd pd)) by done. cbn [bind]. destruct claim_reads as [es' ->]. cbn [bind].
  unfold find_policy. rewrite Hact. rewrite (find_unique _ ar_policy_digest _ arow pd (so_policies _ (lo_schema _ _ _ _ Hok)) Hrow);
    [|by rewrite bool_decide_true | intros y ?; by bool_prop].
  rewrite (activation_kept _ _ _ claim_found _ _ Hra). cbn [bind]. rewrite Hpd. cbn [bind]. by rewrite bool_decide_true.
Qed.

Lemma new_claim_backed : claim_backed scope_digest env t' row claim.
Proof.
  pose proof (is_crown _ _ _ _ _ _ _ Hiss) as Hk. pose proof (crown_checked _ (is_checked _ _ _ _ _ _ _ Hiss)) as (_ & Hh & _ & _ & Hrd & Hsd & _).
  destruct (append_find _ _ _ _ _ _ _ _ Happ) as (e & Hf & Ht & Hb & Hbh & Hpl & _).
  destruct (authority_facts _ _ _ _ _ (co_authority _ _ Hk)) as (A1 & A2 & A3 & A4 & A5 & A6 & A7 & A8).
  pose proof Hclaim as [Hwf Hv Ip If Ic Ie Ih Isp Ia Is _].
  assert (is_block_hash hash = true) as Hhash.
  { destruct (append_event_Ok _ _ _ _ _ _ _ _ Happ) as (? & ? & _ & -> & (_ & _ & _ & _ & ? & _) & _). done. }
  constructor.
  - eexists. split; [reflexivity|]. by apply claim_roundtrip.
  - unfold claim_row_differs, row. cbn [claim_row cr_claim_digest cr_policy_digest cr_family_id cr_candidate_digest cr_retained_evidence_digest cr_hotkey
      cr_accepted_crown_block cr_settlement_block cr_principal_units cr_claim_json text_is].
    rewrite Ia, Is, !Z.eqb_refl, !bool_decide_true, same_json_refl by (done || apply claim_dict_canonical). done.
  - done.
  - exists activation, crown, activation, e, payload, family, adigest. cbn [row claim_row cr_policy_digest cr_reservation_digest cr_settlement_event_digest cr_issuance_reward_event_digest].
    rewrite Ip, Ic, Ie, Is. split; [apply issuing_policy|]. split; [done|]. split; [apply Hk|].
    split; [apply (active_kept _ _ _ claim_found _ _ Hact claim_reads), Hiss|].
    split; [rewrite <- (co_arena _ _ Hk), <- (co_target _ _ Hk), <- (co_spec _ _ Hk); apply Hiss|].
    split; [unfold find_event in *; by rewrite Hev|]. split; [apply Hiss|]. split; [apply Hiss|].
    split; [|split; [by rewrite Hpl | apply claim_payload_agrees]].
    unfold claim_authority_differs. cbn [row claim_row cr_event_index cr_event_subindex cr_reservation_digest cr_accepted_crown_block cr_accepted_crown_block_hash
      cr_settlement_event_digest cr_settlement_block_hash].
    rewrite A1, A2, A3, A4, A5, A6, A7, A8, <- (co_hotkey _ _ Hk), <- (co_speedup _ _ Hk), <- (co_block _ _ Hk), <- (co_index _ _ Hk), <- (co_subindex _ _ Hk), <- (co_hash _ _ Hk).
    rewrite Ht, Hb, Hbh, Ic, Ie, Ih, Isp, Ia, If, Is, !Z.eqb_refl, !bool_decide_true by done. done.
Qed.

Lemma claim_extends : extends scope_digest env (block_bound t) t t'.
Proof.
  eapply extends_issue; [exact Hok | exact Happ | exact Hev | exact Hact | |].
  - exists [row]. split; [exact Hcl|]. constructor; [|constructor]. split; [done|]. exists claim. apply claim_from_row_Ok, new_claim_backed.
  - eexists. split; [exact Hbal|]. by constructor.
Qed.

Context (Hout : kn_settlement_event_digest k ∉ ry_outcomes r).
Context (Hord : match prior with Some p => order_leb (kn_order k) (fc_finalized_order p) = false | None => True end).
Let new := if ic_resets_clock claim then [kn_clock k (ic_policy_digest claim) (ic_family_id claim) "crown" key event] else [].
Context (Hclk : dt_clocks t' = dt_clocks t ++ new).

Lemma claim_clocks : ∃ es' r', clocks_audited scope_digest env t' es' r'.
Proof.
  pose proof claim_extends as X. pose proof (replay_events_claims _ _ _ _ (ca_replay _ _ _ _ _ Hr)) as Hsub. cbn in Hsub.
  assert (key ∉ ry_claims r) as Hkey by (intros Hk; apply Hsub in Hk; unfold claim_digests in Hk; set_solver).
  pose proof Hclaim as [Hwf _ Ip If _ _ _ _ Ia Is Ipr].
  assert (∃ r', replay_event scope_digest env t' {| re_block := kn_settlement_block k; re_block_hash := hash; re_event_digest := event;
      re_event_type := "claim_issued"; re_payload := payload; re_previous_event_digest := chain_head es; re_sequence := Z.of_nat (length es) |} r = Ok r' ∧
      ry_activations r' = ry_activations r ∧ ry_claims r' = {[key]} ∪ ry_claims r ∧ ry_expected r' = ry_expected r ++ new ∧
      Forall (λ c, FiniteDebtFamilyClock_check c = Ok c) new) as (r' & Hstep & E1 & E2 & E3 & Hw).
  { unfold replay_event. cbn [re_event_type]. rewrite bool_decide_false by done. rewrite bool_decide_true by done. unfold replay_claim.
    cbn [re_event_digest re_payload re_block].
    assert (claim_of_event t' event = Some row) as ->.
    { unfold claim_of_event. rewrite Hcl, find_app. destruct (List.find _ (dt_claims t)) as [c|] eqn:Hf; [|cbn; by rewrite bool_decide_true].
      apply List.find_some in Hf as [Hin He]. bool_prop. exfalso. apply Hfresh. rewrite <- He. apply list_elem_of_fmap_2. by apply list_elem_of_In. }
    rewrite (proj2 (claim_from_row_Ok _ _ _ _ _) new_claim_backed). cbn [bind]. rewrite Is, Z.eqb_refl. cbn [negb raise_if bind].
    unfold crown_outcome. change (cr_settlement_event_digest row) with (kn_settlement_event_digest k). rewrite (bool_decide_false (_ ∈ ry_outcomes r)) by done.
    cbn [raise_if bind ry_latest]. rewrite Ip, If. fold prior. rewrite Ipr, bool_decide_true by done. unfold payload at 1 2. rewrite claim_prior_field.
    rewrite py_eq_refl by (by destruct prior). cbn [claim_event_payload is_dict py_dict negb orb raise_if bind]. fold key.
    unfold new. destruct (ic_resets_clock claim); cbn [bind]; [|eexists; split; [reflexivity|]; cbn; rewrite app_nil_r; done].
    unfold crown_clock. rewrite Ip, If, Ia. cbn [row claim_row cr_accepted_crown_block_hash cr_event_index cr_event_subindex cr_reservation_digest].
    fold key. fold (kn_clock k pd family "crown" key event). destruct Hwf as (Dp & Df & _). rewrite Ip in Dp. rewrite If in Df.
    assert (digest_ok key) as Dk.
    { pose proof (balance_inv_open _ _ Hopen) as [Hbw [[Hl _]%DebtClaimState_init_Ok%proj2%proj1 _]]. unfold key. rewrite <- Hl. apply Hbw. }
    pose proof (kn_clock_check k pd family "crown" key event (is_checked _ _ _ _ _ _ _ Hiss) Dp Df Hed (or_intror (conj eq_refl Dk))) as Hck.
    unfold append_checked. rewrite Hck. cbn [bind]. unfold append_clock. cbn [kn_clock family_clock fc_policy_digest fc_family_id ry_latest saw_claim]. fold prior.
    fold (kn_clock k pd family "crown" key event). change (fc_finalized_order (kn_clock _ _ _ _ _ _)) with (kn_order k).
    destruct prior as [p|]; [rewrite Hord|]; cbn [raise_if bind]; eexists; (split; [reflexivity|]); cbn; split_and!; try done; by constructor. }
  destruct (clocks_event _ _ _ _ _ _ _ _ _ _ _ _ new Hr X Happ Hev Hstep) as (es' & Hr'); [rewrite E1, Hact; by destruct Hr | | exact E3 | exact Hclk | exact Hw | by eauto].
  rewrite E2, Hcl, length_app, size_union, size_singleton by set_solver. destruct Hr as [_ _ _ -> _ _]. cbn. lia.
Qed.

Lemma opened_facts : balance_wf opened ∧ db_claim_digest opened = key ∧ DebtClaimState_init claim opened = Ok s.
Proof. pose proof (balance_inv_open _ _ Hopen) as (Hw & Hi & _). pose proof Hi as (_ & [Hl _] & _)%DebtClaimState_init_Ok. done. Qed.

Lemma unclaimed : List.filter (λ b, bool_decide (br_claim_digest b = key)) (dt_balances t) = [].
Proof.
  apply filterb_none, Forall_forall. intros b Hb. apply bool_decide_eq_false_2. intros Eb. apply Hnew.
  pose proof (so_owned _ (lo_schema _ _ _ _ Hok)) as Ho. rewrite Forall_forall in Ho. destruct (Ho b Hb) as [c [Hc Ec]%claim_find_elem].
  rewrite <- Eb, <- Ec. by apply list_elem_of_fmap_2.
Qed.

Lemma claim_balances k' : balances_of t' k' = balances_of t k' ++ (if bool_decide (key = k') then [balance_row opened 0 event] else []).
Proof.
  destruct opened_facts as (_ & Hk & _). unfold balances_of. rewrite Hbal, List.filter_app. cbn [List.filter].
  change (br_claim_digest (balance_row opened 0 event)) with (db_claim_digest opened). rewrite Hk. case_bool_decide as E; [|by rewrite !app_nil_r].
  rewrite <- E, unclaimed. done.
Qed.

Lemma claim_state_new : claim_state scope_digest env t' row = Ok s.
Proof.
  destruct opened_facts as (Hw & Hk & Hi). destruct (append_find _ _ _ _ _ _ _ _ Happ) as (e & Hf & Ht & _).
  assert (balances_of t key = []) as Hnil by (unfold balances_of; by rewrite unclaimed).
  apply claim_state_Ok. exists claim, [opened]. split; [apply new_claim_backed|].
  assert (balances_of t' (InnovationDebtClaim_digest claim) = [balance_row opened 0 event]) as Hb by (fold key; by rewrite claim_balances, Hnil, bool_decide_true).
  constructor; [rewrite Hb..|].
  - apply mapM_Ok. constructor; [by apply balance_row_reads | constructor].
  - done.
  - cbn [zip zip_with check_revisions]. unfold check_revision. change (br_reward_event_digest (balance_row opened 0 event)) with event.
    unfold find_event in *. rewrite Hev, Hf, Ht. change (expected_events (bool_decide (@None DebtClaimBalance = None)) opened) with ["claim_issued"].
    by rewrite (bool_decide_true (_ ∈ _)) by (by left).
  - exists opened, []. done.
Qed.

Lemma claim_states_new : mapM (claim_state scope_digest env t') (claim_rows None t') = Ok (sorted_by claim_key (states ++ [s])).
Proof.
  pose proof (lo_states _ _ _ _ Hok) as Hs. rewrite claim_rows_all in *. rewrite Hcl.
  destruct (stable_sort_snoc_insert (key_le cr_claim_digest) (dt_claims t) row) as (k1 & k2 & E1 & E2). unfold sorted_by in Hs |- *.
  assert (Forall (λ x, x ∈ dt_claims t) (k1 ++ k2)) as Hin by (apply Forall_forall; intros x Hx; rewrite <- E2, stable_sort_perm in Hx; done).
  rewrite E1. rewrite E2 in Hs. apply mapM_Ok, Forall2_app_inv_l in Hs as (s1 & s2 & H1 & H2 & Est).
  assert (∀ rows ss, Forall (λ x, x ∈ dt_claims t) rows → Forall2 (λ x y, claim_state scope_digest env t x = Ok y) rows ss →
    Forall2 (λ x y, claim_state scope_digest env t' x = Ok y) rows ss) as Hmono.
  { intros rows ss Hrows. induction 1 as [|x y rows ss Hxy _ IH]; [constructor|]. apply Forall_cons in Hrows as [Hx Hrows]. constructor; [|by apply IH].
    eapply claim_state_mono; [apply claim_extends | | exact Hxy]. rewrite claim_balances, bool_decide_false; [by rewrite app_nil_r|].
    intros E. apply Hnew. rewrite E. by apply list_elem_of_fmap_2. }
  apply Forall_app in Hin as [Hin1 Hin2].
  assert (Forall2 (λ x y, claim_state scope_digest env t' x = Ok y) (k1 ++ row :: k2) (s1 ++ s :: s2)) as Hall.
  { apply Forall2_app; [by apply Hmono|]. constructor; [apply claim_state_new | by apply Hmono]. }
  transitivity (Ok (s1 ++ s :: s2)); [by apply mapM_Ok|]. f_equal. symmetry. rewrite Est.
  assert (claim_key <$> s1 ++ s :: s2 = cr_claim_digest <$> k1 ++ row :: k2) as Ekey.
  { clear -Hall. induction Hall as [|x y rows ss Hxy _ IH]; [done|]. rewrite !fmap_cons, IH. f_equal.
    apply claim_state_Ok in Hxy as (c & balances & Hb & Hh). pose proof (history_state _ _ _ _ Hh) as (_ & <- & _). by eapply claim_backed_digest. }
  assert ((s1 ++ s2) ++ [s] ≡ₚ s1 ++ s :: s2) as Hp by (rewrite <- app_assoc; apply Permutation_app_head; by rewrite Permutation_app_comm).
  apply (sorted_by_unique claim_key); [|apply (StronglySorted_key_fmap claim_key); rewrite Ekey; apply (StronglySorted_key_fmap cr_claim_digest); rewrite <- E1; apply (sorted_by_sorted cr_claim_digest) | by rewrite Hp].
  rewrite Hp, Ekey, <- E1, stable_sort_perm, fmap_app. apply NoDup_app. split; [apply (lo_schema _ _ _ _ Hok)|].
  split; [|cbn; apply NoDup_singleton]. intros x Hx ->%list_elem_of_singleton. by apply Hnew.
Qed.

Lemma claim_ledger_ok : ledger_ok scope_digest env t' (sorted_by claim_key (states ++ [s])).
Proof.
  constructor; [apply claim_clocks | apply claim_states_new|]. pose proof (lo_schema _ _ _ _ Hok) as [Sc So Sa Sp]. constructor; [| |by rewrite Hact..].
  - rewrite Hcl, fmap_app. apply NoDup_app. split; [done|]. split; [|cbn; apply NoDup_singleton]. intros x Hx ->%list_elem_of_singleton. by apply Hnew.
  - rewrite Hbal. apply Forall_app. split.
    + eapply Forall_impl; [exact So|]. intros b [c Hc]. exists c. eapply claim_find_mono; [apply claim_extends | exact Hc].
    + constructor; [|constructor]. change (br_claim_digest (balance_row opened 0 event)) with (db_claim_digest opened). destruct opened_facts as (_ & -> & _).
      unfold find_claim. rewrite Hcl, find_app. destruct (List.find _ (dt_claims t)); [by eexists|]. cbn [List.find]. change (cr_claim_digest row) with key.
      rewrite bool_decide_true by done. by eexists.
Qed.
End claim.

(** ** The operation *)

(** The settlement events whose crown already has an outcome. *)
Definition crown_outcomes (t : DebtTables) : result (gset string) :=
  let! events := reward_events scope_digest t in
  let! r := replay_events scope_digest env t events empty_replay in
  Ok (ry_outcomes r).

Lemma latest_clock_digests p f t c : _latest_clock scope_digest env p f t = Ok c → digest_ok p ∧ digest_ok f.
Proof.
  unfold _latest_clock, family_clocks, optional_digest. intros (rows & H & _)%bind_Ok. apply bind_Ok in H as (a & Ha & H). apply bind_Ok in H as (b & Hb & _).
  apply bind_Ok in Ha as (x & Hx & _), Hb as (y & Hy & _). by columns.
Qed.

Lemma latest_clock_block t es r key c : clocks_audited scope_digest env t es r → ry_latest r !! key = Some c → 0 ≤ fc_accepted_crown_block c.
Proof.
  intros [_ Hr _ _ Hw Hk] Hc. rewrite (ro_latest _ (replay_events_ok _ _ _ _ _ _ Hr replay_ok_empty)) in Hc. apply last_Some_elem_of, filterb_elem in Hc as [_ Hc].
  assert (c ∈ dt_clocks t) as Hin.
  { rewrite <- (stable_sort_perm clock_le). change (c ∈ clocks_in_order (dt_clocks t)). rewrite Hk. unfold clocks_in_order. by rewrite stable_sort_perm. }
  apply is_ok_true in Hw as [l Hl]. apply mapM_Ok in Hl. apply list_elem_of_lookup in Hin as (i & Hi).
  destruct (Forall2_lookup_l _ _ _ _ _ Hl Hi) as (y & _ & Hy). unfold FiniteDebtFamilyClock_check in Hy. inv_checks Hy. unfold FS._integer in *.
  repeat match goal with E : require_int _ _ _ _ = Ok _ |- _ => apply require_int_Ok in E as ([= <-] & E & _); specialize (E 0 eq_refl) end. done.
Qed.

Lemma prior_block_ok t es r k key :
  clocks_audited scope_digest env t es r →
  match ry_latest r !! key with Some p => order_leb (kn_order k) (fc_finalized_order p) = false | None => True end →
  prior_ok (kn_accepted_crown_block k) (prior_block (ry_latest r !! key)).
Proof.
  intros Hr Hord b Hb. destruct (ry_latest r !! key) as [c|] eqn:Hc; [|done]. cbn in Hb. case_bool_decide; [done|]. injection Hb as <-.
  split; [by eapply latest_clock_block|]. unfold order_leb in Hord. apply bool_decide_eq_false in Hord.
  destruct (total order_le (kn_order k) (fc_finalized_order c)) as [?|Hle]; [done|]. unfold order_le, kn_order, fc_finalized_order in Hle. cbn in Hle. lia.
Qed.

Lemma valid_rounding activation crown k r pd family hk :
  crown_of k crown → (kn_accepted_crown_block k <? pa_activation_block activation) = false → kn_hotkey k ≠ hk →
  match ry_latest r !! (pd, family) with Some p => order_leb (kn_order k) (fc_finalized_order p) = false | None => True end →
  let c := sc_primary (cw_candidate crown) in
  (pa_activation_block activation <=? sq_finalized_block c) && negb (bool_decide (sq_hotkey c = hk))
  && match ry_latest r !! (pd, family) with None => true | Some p => negb (order_leb (finalized_order c) (fc_finalized_order p)) end = true.
Proof.
  intros Hk Hb Hh Hord c. destruct (authority_facts _ _ _ _ _ (co_authority _ _ Hk)) as (_ & A2 & _). unfold c.
  assert (finalized_order (sc_primary (cw_candidate crown)) = kn_order k) as ->.
  { unfold finalized_order, kn_order. by rewrite (co_block _ _ Hk), (co_index _ _ Hk), (co_subindex _ _ Hk), A2. }
  rewrite <- (co_block _ _ Hk), <- (co_hotkey _ _ Hk), bool_decide_false by done. rewrite (proj2 (Z.leb_le _ _)) by (apply Z.ltb_ge in Hb; lia).
  destruct (ry_latest r !! (pd, family)); [by rewrite Hord | done].
Qed.

Section operation.
Context (t : DebtTables) (states : list DebtClaimState) (es : list RewardEvent) (r : ClockReplay) (k : Crown) (crown : CrownAuthority).
Context (activation : FiniteDebtPolicyActivation) (adigest pd family hash : string).
Context (Hok : ledger_ok scope_digest env t states) (Hr : clocks_audited scope_digest env t es r).
Context (Hiss : issuing k crown t activation adigest pd family) (Hout : kn_settlement_event_digest k ∉ ry_outcomes r).

Lemma early_crown_ok t' event :
  append_no_issue scope_digest k hash adigest family "accepted_before_policy_activation" t = Ok (t', event) →
  kn_accepted_crown_block k < pa_activation_block activation → ledger_ok scope_digest env t' states.
Proof.
  intros Happ Hlt. pose proof Happ as (? & ? & _ & _ & _ & _ & _ & row & _ & E)%append_event_Ok. subst t'.
  eapply (no_issue_keeps t _ _ _ _ _ _ _ _ _ _ _ states es r None []); [done | done | done | by left | done | exact Happ | | done | done | done | done | by cbn; rewrite app_nil_r | left; split; [done | by left]].
  unfold no_issue_reason. rewrite bool_decide_true by done. rewrite <- (co_block _ _ (is_crown _ _ _ _ _ _ _ Hiss)). by rewrite (proj2 (Z.ltb_lt _ _)).
Qed.

Lemma overtaken_crown_ok t' event c :
  append_no_issue scope_digest k hash adigest family "accepted_before_family_invalidation" t = Ok (t', event) →
  ry_latest r !! (pd, family) = Some c → fc_source c = "invalidation" → order_leb (kn_order k) (fc_finalized_order c) = true →
  kn_hotkey k ≠ fp_reserve_hotkey (pa_policy activation) → ledger_ok scope_digest env t' states.
Proof.
  intros Happ Hc Hsrc Hord Hh. pose proof Happ as (? & ? & _ & _ & _ & _ & _ & row & _ & E)%append_event_Ok. subst t'. pose proof (is_crown _ _ _ _ _ _ _ Hiss) as Hk.
  eapply (no_issue_keeps t _ _ _ _ _ _ _ _ _ _ _ states es r None []); [done | done | done | by right; left | done | exact Happ | | done | done | done | done | by cbn; rewrite app_nil_r | left; split; [done | by left]].
  unfold no_issue_reason. rewrite bool_decide_false, bool_decide_true by done. rewrite Hc, <- (co_hotkey _ _ Hk), bool_decide_false, bool_decide_true by done.
  destruct (authority_facts _ _ _ _ _ (co_authority _ _ Hk)) as (_ & A2 & _).
  assert (finalized_order (sc_primary (cw_candidate crown)) = kn_order k) as ->; [|by rewrite Hord].
  unfold finalized_order, kn_order. by rewrite (co_block _ _ Hk), (co_index _ _ Hk), (co_subindex _ _ Hk), A2.
Qed.

Context (Hpol : policy_wf (pa_policy activation)) (Hpd : digest_ok pd) (Hfam : digest_ok family).
Context (Hafter : (kn_accepted_crown_block k <? pa_activation_block activation) = false).
Context (Hreserve : kn_hotkey k ≠ fp_reserve_hotkey (pa_policy activation)).
Context (Hord : match ry_latest r !! (pd, family) with Some p => order_leb (kn_order k) (fc_finalized_order p) = false | None => True end).
Let attempt := issue_innovation_claim (pa_policy activation) (PStr family) (PStr (kn_candidate_digest k)) (PStr (kn_retained_evidence_digest k))
  (PStr (kn_hotkey k)) (PStr (kn_settled_speedup k)) (PStr "1") (PInt (kn_accepted_crown_block k))
  (py_opt_int (prior_block (ry_latest r !! (pd, family)))) (PInt (kn_settlement_block k)).

Lemma small_improvement_ok t' :
  attempt = Raise (Exn FiniteDebtError "improvement rounds to zero 1%-log-unit ppm") →
  record_rounded scope_digest k hash adigest family (pa_policy activation) false t = Ok t' → ledger_ok scope_digest env t' states.
Proof.
  intros Hi H. unfold record_rounded in H. apply bind_Ok in H as ([t1 event] & Happ & H). cbv beta iota in H. injection H as <-.
  pose proof (is_crown _ _ _ _ _ _ _ Hiss) as Hk. pose proof (crown_checked _ (is_checked _ _ _ _ _ _ _ Hiss)) as (Hb & _ & _ & _ & _ & _ & Hcd & Hrd & Hhk).
  pose proof Happ as (? & ? & _ & _ & _ & _ & _ & row & _ & E)%append_event_Ok. subst t1.
  eapply (no_issue_keeps t _ _ _ _ _ _ _ _ _ _ _ states es r None []); [done | done | done | by do 2 right; left | done | exact Happ | | done | done | done | done | by cbn; rewrite app_nil_r | left; split; [done | by left]].
  unfold no_issue_reason. do 2 rewrite (bool_decide_false ("improvement_rounds_to_zero" = _)) by done. rewrite <- (co_speedup _ _ Hk).
  erewrite improvement_rounds; [| exact Hpol | apply Hiss | exact (Forall_cons_2 _ _ _ Hpd (Forall_cons_2 _ _ _ Hfam (Forall_cons_2 _ _ _ Hcd (Forall_cons_2 _ _ _ Hrd (Forall_nil_2 _))))) | exact Hhk | split; [exact Hb | apply Hk] | eapply prior_block_ok; [exact Hr | exact Hord] | exact Hi].
  rewrite valid_rounding with (k := k) by done. done.
Qed.

Lemma small_principal_ok t' :
  attempt = Raise (Exn FiniteDebtError "claim principal rounds to zero") →
  record_rounded scope_digest k hash adigest family (pa_policy activation) true t = Ok t' → ledger_ok scope_digest env t' states ∨ (zero_event t' ∧ zero_preimage).
Proof.
  intros Hi H. unfold record_rounded in H. apply bind_Ok in H as ([t1 event] & Happ & H). cbv beta iota in H. apply bind_Ok in H as (units & Hu & H).
  apply bind_Ok in H as (resets & Hres & H). pose proof (is_crown _ _ _ _ _ _ _ Hiss) as Hk.
  pose proof Happ as (? & ? & _ & _ & _ & _ & _ & row & _ & E)%append_event_Ok. subst t1.
  destruct (authority_facts _ _ _ _ _ (co_authority _ _ Hk)) as (A1 & _).
  assert (no_issue_reason activation (cw_candidate crown) "principal_rounds_to_zero" family (kn_retained_evidence_digest k) (ry_latest r !! (pd, family)) (kn_settlement_block k)
    = Ok (true, Some units)) as Hverdict.
  { unfold no_issue_reason. do 2 rewrite (bool_decide_false ("principal_rounds_to_zero" = _)) by done. rewrite <- (co_speedup _ _ Hk), Hu.
    rewrite bool_decide_true by done. cbn [negb]. rewrite A1, <- (co_hotkey _ _ Hk), <- (co_block _ _ Hk). fold attempt. rewrite Hi.
    rewrite (co_hotkey _ _ Hk), (co_block _ _ Hk), valid_rounding with (k := k) by done. done. }
  destruct resets.
  - rewrite (is_policy _ _ _ _ _ _ _ Hiss) in H. cbn [bind] in H. apply insert_clock_Ok in H as ->.
    destruct (appended_digest _ _ _ _ _ _ _ _ Happ) as [Hed|?]; [left | by right].
    eapply (no_issue_keeps t _ _ _ _ _ _ _ _ _ _ _ states es r (Some units)); [done | done | done | by do 3 right; left | done | exact Happ | exact Hverdict | done..|].
    right. split; [reflexivity|]. split; [done|]. split; [by eexists|]. done.
  - injection H as <-. left.
    eapply (no_issue_keeps t _ _ _ _ _ _ _ _ _ _ _ states es r (Some units) []); [done | done | done | by do 3 right; left | done | exact Happ | exact Hverdict | done | done | done | done | by cbn; rewrite app_nil_r|].
    left. split; [done|]. right. by eexists.
Qed.

Lemma issued_claim_ok claim t' :
  attempt = Ok claim → record_claim scope_digest k hash adigest claim (ry_latest r !! (pd, family)) t = Ok t' →
  ∃ opened, DebtClaimBalance_open claim = Ok opened ∧
    ledger_ok scope_digest env t' (sorted_by claim_key (states ++ [{| ds_claim := claim; ds_balance := opened |}])).
Proof.
  intros Hi (t1 & event & opened & new & Happ & Hopen & Hed & Hnew & Hfresh & -> & Hev & Hact & Hcl & Hbal & Hclk)%record_claim_Ok.
  exists opened. split; [done|]. eapply (claim_ledger_ok t t1 t' states es r k crown activation adigest pd family hash event claim opened); try done.
  apply issued_Ok; [done | apply Hiss | exact Hi].
Qed.
End operation.

(** What the audit makes of the store after the issuance. *)
Definition issue_result (t' : DebtTables) (states : list DebtClaimState) (o : option InnovationDebtClaim) : Prop :=
  match o with
  | None => ledger_ok scope_digest env t' states
  | Some claim => ∃ opened, DebtClaimBalance_open claim = Ok opened ∧
      ledger_ok scope_digest env t' (sorted_by claim_key (states ++ [{| ds_claim := claim; ds_balance := opened |}]))
  end.

Lemma issue_crown_ok t t' k crown o states seen :
  ledger_ok scope_digest env t states → crown_of k crown → crown_outcomes t = Ok seen → kn_settlement_event_digest k ∉ seen →
  issue_crown_in_transaction scope_digest env k t = Ok (t', o) → issue_result t' states o ∨ (o = None ∧ zero_event t' ∧ zero_preimage).
Proof.
  intros Hok Hk Hseen Hout H. destruct (lo_clocks _ _ _ _ Hok) as (es & r & Hr). unfold crown_outcomes in Hseen.
  rewrite (ca_events _ _ _ _ _ Hr) in Hseen. cbn [bind] in Hseen. rewrite (ca_replay _ _ _ _ _ Hr) in Hseen. injection Hseen as <-.
  unfold issue_crown_in_transaction in H. apply bind_Ok in H as ([activation|] & Hactive & H); [|injection H as <- <-; by left].
  apply bind_Ok in H as (hash & _ & H). apply bind_Ok in H as (u1 & _ & H). apply bind_Ok in H as ([] & Hck & H). apply bind_Ok in H as (family & Hf & H).
  apply bind_Ok in H as (adigest & Had & H). destruct (active_row _ _ _ _ Hactive) as (arow & z & _ & _ & Hra & _).
  pose proof (activation_policy_wf _ _ _ Hra) as Hpol. destruct (activation_row_Ok _ _ _ _ Hra) as (_ & Hpd & _).
  assert (issuing k crown t activation adigest (ar_policy_digest arow) family) as Hiss by (by constructor). revert Hpd Hiss. generalize (ar_policy_digest arow). intros pd Hpd Hiss.
  destruct (kn_accepted_crown_block k <? pa_activation_block activation) eqn:Hafter.
  { apply bind_Ok in H as ([t1 event] & Happ & [= <- <-]). left. eapply early_crown_ok; [done | done | done | done | exact Happ | by apply Z.ltb_lt]. }
  cbv zeta in H. apply bind_Ok in H as (u2 & Hh & H). apply raise_if_Ok in Hh. bool_prop. rewrite Hpd in H. cbn [bind] in H.
  apply bind_Ok in H as (prior & Hprior & H). destruct (latest_clock_digests _ _ _ _ Hprior) as [Dp Df].
  rewrite (latest_clock_Ok _ _ _ _ _ _ _ Hr Dp Df) in Hprior. injection Hprior as <-.
  destruct (match ry_latest r !! (pd, family) with Some p => order_leb (kn_order k) (fc_finalized_order p) | None => false end) eqn:Hord.
  { destruct (ry_latest r !! (pd, family)) as [c|] eqn:Hc; [|done]. case_bool_decide as Hsrc; [|done]. apply bind_Ok in H as ([t1 event] & Happ & [= <- <-]).
    left. eapply overtaken_crown_ok; [done | done | done | done | exact Happ | exact Hc | done | done | done]. }
  assert (match ry_latest r !! (pd, family) with Some p => order_leb (kn_order k) (fc_finalized_order p) = false | None => True end) as Hord'
    by (by destruct (ry_latest r !! (pd, family))).
  destruct (issue_innovation_claim _ _ _ _ _ _ _ _ _ _) as [claim|[cls m]] eqn:Hi.
  { apply bind_Ok in H as (t1 & Hrec & [= <- <-]). left. eapply (issued_claim_ok t states es r k crown activation adigest pd family hash); done. }
  destruct cls; try done. case_bool_decide as Hm; [|done]. apply bind_Ok in H as (t1 & Hrec & [= <- <-]).
  apply elem_of_cons in Hm as [->|Hm%list_elem_of_singleton].
  - left. rewrite bool_decide_false in Hrec by done. eapply (small_improvement_ok t states es r); try done. by apply Z.ltb_ge.
  - subst m. rewrite bool_decide_true in Hrec by done. assert (ledger_ok scope_digest env t1 states ∨ (zero_event t1 ∧ zero_preimage)) as [?|?]; [|by left | by right].
    eapply (small_principal_ok t states es r); try done. by apply Z.ltb_ge.
Qed.
End issue.
