(* ===== verification/DebtSystem.v ===== *)
(** * The ledger over its lifetime

    The steps of the finite-debt store, each with what its caller promises, and the
    invariant that every sequence of them keeps: the audit passes.  Between the steps
    the rest of the database may change as long as the settlements behind the claims
    stay retained. *)

From Stdlib Require Import ZArith Lia Ascii.
From stdpp Require Import base tactics numbers list strings gmap sorting relations.
From S2P Require Import Prelude PyValue Sha256 Identity Strict IdentityCorrect Provider FiniteDebt FiniteDebtBalance FiniteDebtPolicy.
From S2P Require Import FiniteDebtEpoch FiniteDebtClaims Composition Stack Release StackPlan StackPlanCorrect Settlement.
From S2P Require Import SettlementPlan SettlementFacts Publication Journal IntakeData Intake DebtPublication DebtStoreData DebtStore.
From S2P Require Import DebtLedger DebtFrame DebtAudit DebtSteps DebtClose DebtIssue.

(** ** Activating a policy

    [activate_policy] appends an activation, the event that carries it and the clocks
    it seeds.  Above every block the ledger has an event for, the rows pass the audit
    and leave the claim states alone. *)

(** What the constructor of a seed checks. *)
Definition seed_wf (s : SeededFamilyClock) : Prop :=
  digest_ok (sf_family_id s) ∧ 0 ≤ sf_accepted_crown_block s ∧ is_block_hash (sf_accepted_crown_block_hash s) = true ∧
  0 ≤ sf_event_index s ∧ 0 ≤ sf_event_subindex s ∧ digest_ok (sf_reservation_digest s).

Lemma store_integer z : 0 ≤ z → FS._integer 0 (PInt z) = Ok z.
Proof. intros Hz. apply require_int_Ok. split; [done|]. split; [by intros ? [= <-] | done]. Qed.

Lemma FS_strict_py_dict fields row : sorted_str row.*1 = sorted_str fields → FS._strict fields (py_dict row) = Ok row.
Proof. apply require_exact_fields_sorted. Qed.

Lemma seed_roundtrip s : seed_wf s → SeededFamilyClock_from_dict (SeededFamilyClock_to_dict s) = Ok s.
Proof.
  intros (Hf & Hb & Hh & Hi & Hs & Hr). unfold SeededFamilyClock_from_dict, SeededFamilyClock_to_dict.
  eapply bind_step; [apply FS_strict_py_dict; same_fields|]. read_fields. unfold SeededFamilyClock_init.
  rewrite (proj2 (digest_column_Ok _ (sf_family_id s))), (proj2 (digest_column_Ok _ (sf_reservation_digest s))),
    (proj2 (block_hash_Ok _ (sf_accepted_crown_block_hash s))) by done. cbn [bind]. rewrite !store_integer by done. cbn [bind]. by destruct s.
Qed.

Lemma seeds_canonical seeds : is_canonical (seeds_dict seeds) = true.
Proof. unfold seeds_dict. cbn. apply forallb_forall. intros v (s & -> & _)%list_elem_of_In%list_elem_of_fmap. done. Qed.

Lemma optional_digest_str s u : FS._digest true (PStr s) = Ok u → u = s.
Proof.
  unfold FS._digest, require_digest. cbn [andb py_eq_str]. case_bool_decide as Hs; [by intros [= <-]|]. intros (d & Hd & (x & _ & [= ->])%bind_Ok)%bind_Ok.
  by apply reraise_Ok, require_sha256_hex_Ok in Hd as [[= ->] _].
Qed.

#[global] Instance num_text_le_trans {A} (num : A → Z) (text : A → string) : Transitive (num_text_le num text).
Proof. intros x y z. unfold num_text_le. intros [H1|[E1 H1]] [H2|[E2 H2]]; [left; lia..|]. right. split; [lia | by etrans]. Qed.

#[global] Instance num_text_le_total {A} (num : A → Z) (text : A → string) : Total (num_text_le num text).
Proof.
  intros x y. unfold num_text_le. destruct (Z.lt_trichotomy (num x) (num y)) as [?|[E|?]]; [by left; left | | by right; left].
  destruct (total String.le (text x) (text y)); [left | right]; right; by split.
Qed.

Section activation.
Context {sha : Sha256} (scope_digest : string) (env : LedgerEnv).

(** What a successful construction has checked. *)
Lemma activation_init_Ok scope policy block hash previous seeds a :
  FiniteDebtPolicyActivation_init (PStr scope) policy (PInt block) (PStr hash) (PStr previous) seeds = Ok a →
  a = {| pa_chain_scope_digest := scope; pa_policy := policy; pa_activation_block := block; pa_activation_block_hash := hash;
         pa_previous_policy_digest := previous; pa_seeded_family_clocks := seeds |} ∧ NoDup (sf_family_id <$> seeds).
Proof.
  unfold FiniteDebtPolicyActivation_init. intros H. inv_checks H. columns. unfold FS._integer in *.
  repeat match goal with E : require_int _ _ _ _ = Ok _ |- _ => apply require_int_Ok in E as ([= <-] & _) end.
  match goal with E : FS._digest true _ = Ok _ |- _ => apply optional_digest_str in E as -> end.
  bool_prop. match goal with E : sorted_unique _ = true |- _ => apply sorted_unique_true in E as [? _] end. done.
Qed.

Lemma activation_roundtrip scope policy block hash previous seeds a :
  policy_wf policy → Forall seed_wf seeds →
  FiniteDebtPolicyActivation_init (PStr scope) policy (PInt block) (PStr hash) (PStr previous) seeds = Ok a →
  FiniteDebtPolicyActivation_from_dict (FiniteDebtPolicyActivation_to_dict a) = Ok a.
Proof.
  intros Hp Hs Ha. pose proof Ha as [-> _]%activation_init_Ok. unfold FiniteDebtPolicyActivation_from_dict, FiniteDebtPolicyActivation_to_dict.
  eapply bind_step; [apply FS_strict_py_dict; same_fields|]. read_fields. eapply bind_step; [reflexivity|]. cbv beta. read_fields.
  eapply bind_step; [by apply policy_roundtrip|]. cbv beta. eapply bind_step; [|cbv beta; read_fields; exact Ha].
  apply mapM_Ok. cbn [pa_seeded_family_clocks]. clear Ha. induction Hs as [|s seeds Hs _ IH]; [constructor|]. rewrite fmap_cons. constructor; [by apply seed_roundtrip | done].
Qed.

(** ** What a replay has seen *)

Definition replay_rows (t : DebtTables) (r : ClockReplay) : Prop :=
  ry_activations r ⊆ list_to_set (ar_activation_digest <$> dt_activations t) ∧
  Forall (λ c, fc_policy_digest c ∈ (ar_policy_digest <$> dt_activations t)) (ry_expected r).

Lemma append_clock_rows t c r r' :
  append_clock c r = Ok r' → fc_policy_digest c ∈ (ar_policy_digest <$> dt_activations t) → replay_rows t r → replay_rows t r'.
Proof.
  unfold append_clock. intros H Hc [Ha Hp]. inv_checks H. subst r'. split; [done|]. cbn. apply Forall_app. split; [done|]. by constructor.
Qed.

Lemma append_checked_rows t c r r' :
  append_checked c r = Ok r' → fc_policy_digest c ∈ (ar_policy_digest <$> dt_activations t) → replay_rows t r → replay_rows t r'.
Proof. unfold append_checked. intros (c' & ->%clock_check_Ok & H)%bind_Ok. by eapply append_clock_rows. Qed.

Lemma append_seeds_rows t p d seeds r r' :
  append_seeds p d seeds r = Ok r' → p ∈ (ar_policy_digest <$> dt_activations t) → replay_rows t r → replay_rows t r'.
Proof.
  revert r. induction seeds as [|s seeds IH]; intros r; cbn [append_seeds]; [by intros [= ->]|].
  intros (r1 & Hr & H)%bind_Ok Hp Hok. eapply IH; [exact H | done|]. by eapply append_checked_rows.
Qed.

Lemma activation_policy_elem t row a p :
  row ∈ dt_activations t → _activation_from_row scope_digest t row = Ok a → FiniteDebtPolicyManifest_digest (pa_policy a) = Ok p →
  p ∈ (ar_policy_digest <$> dt_activations t).
Proof. intros Hin (_ & Hp & _)%activation_row_Ok Hp'. assert (p = ar_policy_digest row) as -> by congruence. by apply list_elem_of_fmap_2. Qed.

Lemma find_elem {A} (f : A → bool) l x : List.find f l = Some x → x ∈ l.
Proof. intros [Hx _]%List.find_some. by apply list_elem_of_In. Qed.

Lemma no_issue_activation t e a c reason arrival :
  _no_issue_authority scope_digest env t e = Ok (a, c, reason, arrival) → ∃ row, row ∈ dt_activations t ∧ _activation_from_row scope_digest t row = Ok a.
Proof.
  unfold _no_issue_authority. intros (? & _ & H)%bind_Ok. destruct (find_activation _ _) as [row|] eqn:Hf; [|done]. apply find_elem in Hf. exists row. split; [done|].
  apply bind_Ok in H as (a' & Ha & H). apply bind_Ok in H as (active & _ & H). do 3 (apply bind_Ok in H as (? & _ & H)). cbv zeta in H.
  destruct active; [|done]. do 3 (apply bind_Ok in H as (? & _ & H)). destruct (payload_get _ "reason"); try done.
  match type of H with (if ?b then _ else _) = _ => destruct b end; [|done]. by injection H as <-.
Qed.

Lemma invalidation_activation t e prior m :
  _validate_family_invalidation scope_digest env t e prior = Ok m →
  ∃ row a, row ∈ dt_activations t ∧ _activation_from_row scope_digest t row = Ok a ∧ FiniteDebtPolicyManifest_digest (pa_policy a) = Ok (fc_policy_digest m).
Proof.
  unfold _validate_family_invalidation. intros (? & _ & H)%bind_Ok. destruct (List.find _ _) as [row|] eqn:Hf; [|done]. apply find_elem in Hf.
  apply bind_Ok in H as (a & Ha & H). do 4 (apply bind_Ok in H as (? & _ & H)). apply bind_Ok in H as (pd & Hpd & H).
  do 3 (apply bind_Ok in H as (? & _ & H)). apply bind_Ok in H as (marker & ->%clock_check_Ok & H). inv_checks H. subst m. by exists row, a.
Qed.

Lemma replay_event_rows t e r r' : replay_event scope_digest env t e r = Ok r' → replay_rows t r → replay_rows t r'.
Proof.
  unfold replay_event. intros H Hok. repeat case_bool_decide.
  - unfold replay_activation in H. destruct (activation_of_event _ _) as [row|] eqn:Hf; [|done]. apply find_elem in Hf. inv_checks H.
    eapply append_seeds_rows; [exact H | by eapply activation_policy_elem|]. destruct Hok as [Ha Hp]. split; [|done]. cbn.
    match goal with E : _activation_from_row _ _ _ = Ok _ |- _ => apply activation_row_Ok in E as (Hd & _) end.
    assert (v0 = ar_activation_digest row) as -> by congruence. apply union_subseteq. split; [|done]. apply singleton_subseteq_l, elem_of_list_to_set. by apply list_elem_of_fmap_2.
  - unfold replay_claim in H. destruct (claim_of_event _ _) as [row|]; [|done]. apply bind_Ok in H as (claim & Hc & H). inv_checks H.
    match goal with E : crown_outcome _ _ = Ok ?x |- _ => assert (replay_rows t (saw_claim (InnovationDebtClaim_digest claim) x)) as Hx by (unfold crown_outcome in E; inv_checks E; by subst x) end.
    destruct (ic_resets_clock _); [|by injection H as <-]. eapply append_checked_rows; [exact H | | exact Hx].
    apply claim_from_row_Ok in Hc as [_ Hrow _ (a & crown & active & e' & payload & fam & digest & Ha & _)]. unfold claim_row_differs in Hrow. bool_prop.
    unfold _activation_by_policy in Ha. apply bind_Ok in Ha as (d & Hd & Ha). columns. apply bind_Ok in Ha as (? & _ & Ha).
    destruct (find_policy _ _) as [arow|] eqn:Hf; [|done]. apply List.find_some in Hf as [Hin Hp]. bool_prop. cbn. 
    match goal with E : ic_policy_digest claim = _ |- _ => rewrite E, <- Hp end. by apply list_elem_of_fmap_2, list_elem_of_In.
  - unfold replay_no_issue in H. apply bind_Ok in H as ([[[a c] reason] arrival] & Ha & H). inv_checks H.
    match goal with E : crown_outcome _ _ = Ok ?x |- _ => assert (replay_rows t x) as Hx by (unfold crown_outcome in E; inv_checks E; by subst x) end.
    match goal with E : no_issue_reason _ _ _ _ _ _ _ = Ok ?x |- _ => destruct x as [valid [units|]] end; cbn [snd] in H; [|by injection H as <-].
    case_bool_decide; [|by injection H as <-]. inv_checks H. match type of H with (if ?b then _ else _) = _ => destruct b end; [|by injection H as <-].
    eapply append_checked_rows; [exact H | | exact Hx]. destruct (no_issue_activation _ _ _ _ _ _ Ha) as (row & Hin & Hrow).
    cbn. by eapply activation_policy_elem.
  - unfold replay_invalidation in H. apply bind_Ok in H as (? & _ & H). do 2 (apply bind_Ok in H as (? & _ & H)). apply bind_Ok in H as (m & Hm & H).
    destruct (invalidation_activation _ _ _ _ Hm) as (row & a & Hin & Hrow & Hp). eapply append_clock_rows; [exact H | by eapply activation_policy_elem | done].
  - by injection H as <-.
Qed.

Lemma replay_events_rows t es r r' : replay_events scope_digest env t es r = Ok r' → replay_rows t r → replay_rows t r'.
Proof.
  revert r. induction es as [|e es IH]; intros r; cbn [replay_events]; [by intros [= ->]|].
  intros (r1 & Hr & H)%bind_Ok Hok. eapply IH; [exact H|]. by eapply replay_event_rows.
Qed.

(** ** The seeds *)

Lemma seed_clock_check pd event s :
  digest_ok pd → digest_ok event → seed_wf s → FiniteDebtFamilyClock_check (seed_clock pd event s) = Ok (seed_clock pd event s).
Proof.
  intros Hp He (Hf & Hb & Hh & Hi & Hs & Hr). unfold FiniteDebtFamilyClock_check.
  cbn [seed_clock family_clock fc_policy_digest fc_family_id fc_reservation_digest fc_accepted_crown_block fc_accepted_crown_block_hash fc_event_index
    fc_event_subindex fc_source fc_claim_digest fc_reward_event_digest].
  rewrite (proj2 (digest_column_Ok pd pd)), (proj2 (digest_column_Ok _ (sf_family_id s))), (proj2 (digest_column_Ok _ (sf_reservation_digest s))),
    (proj2 (block_hash_Ok _ (sf_accepted_crown_block_hash s))), (proj2 (digest_column_Ok event event)) by done.
  rewrite !store_integer by done. done.
Qed.

Lemma append_seeds_fresh pd event seeds r :
  digest_ok pd → digest_ok event → Forall seed_wf seeds → NoDup (sf_family_id <$> seeds) →
  (∀ s, s ∈ seeds → ry_latest r !! (pd, sf_family_id s) = None) →
  ∃ r', append_seeds pd event seeds r = Ok r' ∧ ry_expected r' = ry_expected r ++ (seed_clock pd event <$> seeds) ∧
    ry_activations r' = ry_activations r ∧ ry_claims r' = ry_claims r ∧ ry_outcomes r' = ry_outcomes r.
Proof.
  intros Hp He. revert r. induction seeds as [|s seeds IH]; intros r Hwf Hn Hl; [exists r; by rewrite app_nil_r|]. cbn [append_seeds].
  apply Forall_cons in Hwf as [Hs Hwf]. rewrite fmap_cons in Hn. apply NoDup_cons in Hn as [Hfam Hn]. unfold append_checked.
  rewrite seed_clock_check by done. cbn [bind]. unfold append_clock at 1. change (fc_policy_digest (seed_clock pd event s)) with pd.
  change (fc_family_id (seed_clock pd event s)) with (sf_family_id s). rewrite (Hl s) by (by left). cbn [raise_if bind].
  destruct (IH {| ry_expected := ry_expected r ++ [seed_clock pd event s]; ry_latest := <[(pd, sf_family_id s) := seed_clock pd event s]> (ry_latest r);
    ry_activations := ry_activations r; ry_claims := ry_claims r; ry_outcomes := ry_outcomes r |}) as (r' & Hr' & E1 & E2 & E3 & E4); [done | done | |].
  { intros x Hx. cbn. rewrite lookup_insert_ne; [apply Hl; by right|]. intros [= E]. apply Hfam. rewrite E. by apply list_elem_of_fmap_2. }
  exists r'. split; [exact Hr'|]. split; [|done]. rewrite E1. cbn. by rewrite <- app_assoc.
Qed.

Lemma insert_clocks_Ok clocks t t' :
  insert_all insert_clock clocks t = Ok t' →
  t' = {| dt_events := dt_events t; dt_activations := dt_activations t; dt_clocks := dt_clocks t ++ clocks; dt_claims := dt_claims t;
          dt_balances := dt_balances t; dt_epochs := dt_epochs t; dt_allocations := dt_allocations t |}.
Proof.
  revert t. induction clocks as [|c clocks IH]; intros t; cbn [insert_all]; [intros [= <-]; destruct t; cbn; by rewrite app_nil_r|].
  intros (t1 & ->%insert_clock_Ok & H%IH)%bind_Ok. rewrite H. cbn. by rewrite <- app_assoc.
Qed.

(** ** The new activation *)

Lemma chain_snoc previous acts a :
  check_activation_chain previous acts = Ok tt →
  (match last acts with None => Ok previous | Some p => FiniteDebtPolicyManifest_digest (pa_policy p) end) = Ok (pa_previous_policy_digest a) →
  is_ok (FiniteDebtPolicyManifest_digest (pa_policy a)) = true → check_activation_chain previous (acts ++ [a]) = Ok tt.
Proof.
  intros Hc Hl [d Hd]%is_ok_true. revert previous Hc Hl. induction acts as [|x acts IH]; intros previous; cbn [app check_activation_chain].
  - intros _ [= <-]. rewrite bool_decide_true by done. cbn [negb raise_if bind]. by rewrite Hd.
  - intros (? & Hx & H)%bind_Ok Hl. rewrite Hx. cbn [bind]. apply bind_Ok in H as (dx & Hdx & H). rewrite Hdx. cbn [bind]. apply IH; [done|].
    rewrite last_cons in Hl. destruct (last acts); [done|]. congruence.
Qed.

Lemma digest_canonical domain v d : canonical_digest domain v (PInt 1) = Ok d → is_canonical v = true.
Proof. intros Hd. by apply (canonical_digest_ok domain v (PInt 1)), is_ok_true; eexists. Qed.

Section activate.
Context (t t1 t' : DebtTables) (states : list DebtClaimState) (acts : list FiniteDebtPolicyActivation) (a : FiniteDebtPolicyActivation).
Context (policy : FiniteDebtPolicyManifest) (height : Z) (hash previous digest pd event : string) (seeds : list SeededFamilyClock).
Let row := activation_row scope_digest a digest pd event.
Context (Hok : ledger_ok scope_digest env t states) (Hpol : policy_wf policy) (Hseeds : Forall seed_wf seeds).
Context (Hinit : FiniteDebtPolicyActivation_init (PStr scope_digest) policy (PInt height) (PStr hash) (PStr previous) seeds = Ok a).
Context (Hd : FiniteDebtPolicyActivation_digest a = Ok digest) (Hpd : FiniteDebtPolicyManifest_digest policy = Ok pd).
Context (Happ : _append_event scope_digest "policy_activated" height hash (activation_payload a digest) t = Ok (t1, event)).
Context (Hacts : policy_activations scope_digest t = Ok acts).
Context (Hprev : (match last acts with None => Ok "" | Some p => FiniteDebtPolicyManifest_digest (pa_policy p) end) = Ok previous).
Context (Hlater : ∀ p, last acts = Some p → pa_activation_block p < height) (Hblocks : Forall (λ e, er_block e < height) (dt_events t)).
Context (Hev : dt_events t' = dt_events t1) (Hact : dt_activations t' = dt_activations t ++ [row]) (Hcl : dt_claims t' = dt_claims t).
Context (Hbal : dt_balances t' = dt_balances t) (Hclk : dt_clocks t' = dt_clocks t ++ (seed_clock pd event <$> seeds)).
Context (Hdn : digest ∉ (ar_activation_digest <$> dt_activations t)) (Hpn : pd ∉ (ar_policy_digest <$> dt_activations t)).
Context (Hen : event ∉ (ar_reward_event_digest <$> dt_activations t)).

Lemma activation_found d e : find_event t d = Some e → find_event t' d = Some e.
Proof.
  pose proof Happ as (es0 & e0 & _ & _ & _ & _ & _ & erow & _ & E)%append_event_Ok. unfold find_event. rewrite Hev, E. cbn [add_event dt_events].
  rewrite find_app. by intros ->.
Qed.

Lemma activation_reads : ∃ es', reward_events scope_digest t' = Ok es'.
Proof.
  destruct (lo_clocks _ _ _ _ Hok) as (es & r & Hr). eexists. unfold reward_events. rewrite Hev. exact (append_event_reads _ _ _ _ _ _ _ _ _ (ca_events _ _ _ _ _ Hr) Happ).
Qed.

Lemma activation_fields : a = {| pa_chain_scope_digest := scope_digest; pa_policy := policy; pa_activation_block := height;
  pa_activation_block_hash := hash; pa_previous_policy_digest := previous; pa_seeded_family_clocks := seeds |} ∧ NoDup (sf_family_id <$> seeds).
Proof. by apply activation_init_Ok. Qed.

Lemma activation_row_reads : _activation_from_row scope_digest t' row = Ok a.
Proof.
  destruct activation_fields as [Ea _]. destruct (append_find _ _ _ _ _ _ _ _ Happ) as (e & Hf & Ht & Hb & Hh & Hp & _).
  assert (is_canonical (FiniteDebtPolicyActivation_to_dict a) = true) as Hca by (by eapply digest_canonical).
  assert (is_canonical (FiniteDebtPolicyManifest_to_dict (pa_policy a)) = true) as Hcp by (rewrite Ea; by eapply digest_canonical).
  unfold _activation_from_row, reopen_text, catching. cbn [row activation_row ar_activation_json loads ar_activation_digest ar_policy_digest ar_policy_json ar_activation_block
    ar_activation_block_hash ar_previous_policy_digest ar_seeded_clocks_json ar_reward_event_digest].
  rewrite (activation_roundtrip _ _ _ _ _ _ _ Hpol Hseeds Hinit). cbn [reraise bind]. rewrite Hd. cbn [bind].
  assert (pa_chain_scope_digest a = scope_digest) as -> by (by rewrite Ea). rewrite !bool_decide_true by done. cbn [negb orb raise_if bind].
  assert (FiniteDebtPolicyManifest_digest (pa_policy a) = Ok pd) as -> by (by rewrite Ea). cbn [bind text_is].
  rewrite !bool_decide_true, Z.eqb_refl, !same_json_refl by (done || apply seeds_canonical). cbn [negb orb raise_if bind].
  unfold find_event in *. rewrite Hev, Hf, Ht, Hb, Hh, Hp. assert (pa_activation_block a = height) as -> by (by rewrite Ea).
  assert (pa_activation_block_hash a = hash) as -> by (by rewrite Ea). rewrite !bool_decide_true, Z.eqb_refl by done. cbn [text_is].
  rewrite same_json_refl; [done|]. unfold activation_payload, py_dict. cbn. cbn in Hca. by rewrite Hca.
Qed.

Lemma rows_before : Forall (λ y, ar_activation_block y < height) (dt_activations t).
Proof.
  pose proof Hacts as Ha. unfold policy_activations in Ha. apply bind_Ok in Ha as (es & _ & Ha). apply bind_Ok in Ha as (k & Hk & Ha). apply bind_Ok in Ha as (u & _ & [= ->]).
  apply mapM_Ok in Hk. assert (StronglySorted (num_text_le ar_activation_block ar_activation_digest) (activations_in_order t)) as Hs by (apply (stable_sort_sorted _)).
  apply Forall_forall. intros y Hy. assert (y ∈ activations_in_order t) as Hyo by (unfold activations_in_order; by rewrite stable_sort_perm).
  destruct (activations_in_order t) as [|x rows _] using rev_ind; [by apply not_elem_of_nil in Hyo|].
  apply Forall2_app_inv_l in Hk as (k1 & k2 & _ & Hk & ->). inversion Hk as [|? p ? ? Hp Hnil]; subst. inversion Hnil; subst.
  assert (ar_activation_block x < height) as Hx.
  { apply activation_row_Ok in Hp as (_ & _ & _ & <- & _). apply Hlater. by rewrite last_snoc. }
  apply elem_of_app in Hyo as [Hyo|Hyo]; [|by apply list_elem_of_singleton in Hyo as ->].
  assert (num_text_le ar_activation_block ar_activation_digest y x) as [?|[? _]] by (eapply (StronglySorted_app_1_elem_of _ _ _ _ _ Hs); [exact Hyo | by left]); lia.
Qed.

Lemma activations_after : policy_activations scope_digest t' = Ok (acts ++ [a]).
Proof.
  destruct activation_fields as [Ea _]. unfold policy_activations. destruct activation_reads as [es' ->]. cbn [bind].
  assert (activations_in_order t' = activations_in_order t ++ [row]) as ->.
  { unfold activations_in_order. rewrite Hact. apply stable_sort_snoc. eapply Forall_impl; [exact rows_before|]. intros y Hy. left. cbn. by rewrite Ea. }
  pose proof Hacts as Ha. unfold policy_activations in Ha. apply bind_Ok in Ha as (es & _ & Ha). apply bind_Ok in Ha as (k & Hk & Ha). apply bind_Ok in Ha as ([] & Hc & [= ->]).
  assert (mapM (_activation_from_row scope_digest t') (activations_in_order t ++ [row]) = Ok (acts ++ [a])) as ->.
  { apply mapM_Ok, Forall2_app; [|constructor; [apply activation_row_reads | constructor]]. apply mapM_Ok in Hk. eapply Forall2_impl; [exact Hk|].
    intros x y. apply activation_kept, activation_found. }
  cbn [bind]. rewrite chain_snoc; [done | exact Hc | rewrite Ea; exact Hprev|]. apply is_ok_true. exists pd. by rewrite Ea.
Qed.

Lemma active_after b x : b < height → active_policy_activation scope_digest t (PInt b) = Ok x → active_policy_activation scope_digest t' (PInt b) = Ok x.
Proof.
  destruct activation_fields as [Ea _]. intros Hb. unfold active_policy_activation. intros (z & Hz & H)%bind_Ok. rewrite Hz. cbn [bind].
  rewrite Hacts in H. rewrite activations_after. cbn [bind] in *. rewrite <- H. do 2 f_equal. rewrite List.filter_app. cbn [List.filter].
  unfold FS._integer in Hz. apply require_int_Ok in Hz as ([= <-] & _). replace (pa_activation_block a <=? b) with false; [by rewrite app_nil_r|].
  symmetry. apply Z.leb_gt. by rewrite Ea.
Qed.

Lemma activation_extends : extends scope_digest env (height - 1) t t'.
Proof.
  destruct (lo_clocks _ _ _ _ Hok) as (es & r & Hr). pose proof Happ as (es0 & e0 & Hes0 & -> & _ & _ & Hfresh & erow & Hrow & E)%append_event_Ok.
  constructor; [| |eexists; exact Hes0|apply activation_reads|by eexists| | | |apply (lo_schema _ _ _ _ Hok)].
  - exists [erow]. split; [by rewrite Hev, E|]. constructor; [|done]. rewrite Hrow. cbn. split; [done|]. by rewrite (events_length _ _ _ Hes0).
  - eapply Forall_impl; [exact Hblocks|]. cbn. intros; lia.
  - intros b x Hb. apply active_after. lia.
  - exists []. rewrite app_nil_r. split; [exact Hcl | constructor].
  - exists []. rewrite app_nil_r. split; [exact Hbal | constructor].
Qed.

Lemma activation_clocks : digest_ok pd → digest_ok event → ∃ es' r', clocks_audited scope_digest env t' es' r'.
Proof.
  intros Dp De. destruct (lo_clocks _ _ _ _ Hok) as (es & r & Hr). pose proof activation_extends as X. destruct activation_fields as [Ea Hn].
  destruct (replay_events_rows _ _ _ _ (ca_replay _ _ _ _ _ Hr)) as [Hra Hrp]; [split; [apply empty_subseteq | constructor]|].
  destruct (append_seeds_fresh pd event seeds (saw_activation digest r) Dp De Hseeds Hn) as (r' & Hr' & E1 & E2 & E3 & _).
  { intros s _. cbn. rewrite (ro_latest _ (replay_events_ok _ _ _ _ _ _ (ca_replay _ _ _ _ _ Hr) replay_ok_empty)). rewrite filterb_none; [done|].
    eapply Forall_impl; [exact Hrp|]. intros c Hc. apply bool_decide_eq_false_2. intros [= E _]. apply Hpn. by rewrite <- E. }
  destruct (clocks_event _ _ _ _ _ _ _ _ _ _ _ _ _ r' (seed_clock pd event <$> seeds) Hr X Happ Hev) as (es' & Hr''); [| | | exact E1 | exact Hclk | | by eauto].
  - unfold replay_event. cbn [re_event_type]. rewrite bool_decide_true by done. unfold replay_activation. cbn [re_event_digest].
    assert (activation_of_event t' event = Some row) as ->.
    { unfold activation_of_event. rewrite Hact, find_app. destruct (List.find _ (dt_activations t)) as [x|] eqn:Hf; [|cbn; by rewrite bool_decide_true].
      apply List.find_some in Hf as [Hin He]. bool_prop. exfalso. apply Hen. rewrite <- He. by apply list_elem_of_fmap_2, list_elem_of_In. }
    rewrite activation_row_reads. cbn [bind]. rewrite Hd. cbn [bind]. assert (FiniteDebtPolicyManifest_digest (pa_policy a) = Ok pd) as -> by (by rewrite Ea).
    cbn [bind]. assert (pa_seeded_family_clocks a = seeds) as -> by (by rewrite Ea). exact Hr'.
  - rewrite E2, Hact, length_app. cbn. rewrite size_union, size_singleton by set_solver. destruct Hr as [_ _ -> _ _ _]. lia.
  - rewrite E3, Hcl. by destruct Hr.
  - apply Forall_fmap. eapply Forall_impl; [exact Hseeds|]. intros s Hs. by apply seed_clock_check.
Qed.

Lemma activation_ledger_ok : digest_ok pd → digest_ok event → ledger_ok scope_digest env t' states.
Proof.
  intros Dp De. constructor; [by apply activation_clocks| |].
  - assert (moved [] <$> states = states) as <- by (apply list_fmap_id).
    eapply (batch_states _ _ _ t t' states event []); [exact Hok | apply activation_extends | exact Hcl | | constructor | |].
    + rewrite app_nil_r. exact Hbal.
    + intros p Hp. destruct (not_elem_of_nil p Hp).
    + intros p Hp. destruct (not_elem_of_nil p Hp).
  - pose proof (lo_schema _ _ _ _ Hok) as [Sc So Sa Sp]. constructor; [by rewrite Hcl | | |].
    + rewrite Hbal. eapply Forall_impl; [exact So|]. intros b Hb. unfold find_claim in *. by rewrite Hcl.
    + rewrite Hact, fmap_app. apply NoDup_app. split; [done|]. split; [|cbn; apply NoDup_singleton]. intros x Hx ->%list_elem_of_singleton. by apply Hdn.
    + rewrite Hact, fmap_app. apply NoDup_app. split; [done|]. split; [|cbn; apply NoDup_singleton]. intros x Hx ->%list_elem_of_singleton. by apply Hpn.
Qed.
End activate.

Lemma digest_or_zero domain v d : canonical_digest domain v (PInt 1) = Ok d → digest_ok d ∨ zero_preimage.
Proof.
  intros Hd. pose proof (canonical_digest_is_hex64 _ _ _ _ Hd). apply canonical_digest_bytes in Hd as (data & _ & ->).
  destruct (decide (sha256_hex data = ZERO_DIGEST)); [right; by eexists | left; by split].
Qed.

Lemma activate_policy_ok capability policy height hash seeds t t' a states :
  ledger_ok scope_digest env t states → policy_wf policy → Forall seed_wf seeds → Forall (λ e, er_block e < height) (dt_events t) →
  activate_policy scope_digest env capability policy height hash seeds t = Ok (t', a) →
  (ledger_ok scope_digest env t' states ∨ zero_preimage) ∧
  (t' = t ∨ active_policy_activation scope_digest t' (PInt height) = Ok (Some a)).
Proof.
  intros Hok Hpol Hwf Hblocks H. unfold activate_policy in H. do 2 (apply bind_Ok in H as (? & _ & H)). apply bind_Ok in H as (z & Hz & H).
  apply bind_Ok in H as (hh & Hh & H). unfold FS._integer in Hz. apply require_int_Ok in Hz as ([= <-] & Hz & _). specialize (Hz 0 eq_refl). columns. cbv zeta in H.
  apply bind_Ok in H as (? & _ & H). set (sorted := sorted_by sf_family_id seeds) in H.
  assert (Forall seed_wf sorted) as Hs by (apply Forall_forall; intros s Hs; unfold sorted in Hs; rewrite sorted_by_perm in Hs; rewrite Forall_forall in Hwf; auto). clearbody sorted.
  destruct (List.find _ (dt_activations t)) as [exact_row|].
  { apply bind_Ok in H as (existing & _ & H). destruct (_ && _); [|done]. injection H as <- <-. split; [by left | by left]. }
  apply bind_Ok in H as (composed & _ & H). apply bind_Ok in H as (? & _ & H). apply bind_Ok in H as (acts & Hacts & H). apply bind_Ok in H as (? & Hprior & H).
  apply bind_Ok in H as (pd & Hpd & H). apply bind_Ok in H as (? & _ & H). apply bind_Ok in H as (previous & Hprev & H). apply bind_Ok in H as (a' & Hinit & H).
  apply bind_Ok in H as (digest & Hd & H). apply bind_Ok in H as ([t1 event] & Happ & H). cbv beta iota in H. apply bind_Ok in H as (t2 & Hins & H).
  apply bind_Ok in H as (t3 & Hclk%insert_clocks_Ok & [= -> <-]). unfold insert_activation in Hins. inv_checks Hins. bool_prop. subst t2.
  pose proof Happ as (? & ? & _ & _ & _ & _ & _ & erow & _ & E1)%append_event_Ok.
  assert (∀ p, last acts = Some p → pa_activation_block p < height) as Hlater.
  { intros p Hp. rewrite Hp in Hprior. apply bind_Ok in Hprior as (? & Hle%raise_if_Ok & _). by apply Z.leb_gt in Hle. }
  cbn [activation_row ar_activation_digest ar_policy_digest ar_reward_event_digest] in *. rewrite Hclk, E1 in *. cbn [add_event add_activation dt_activations dt_claims dt_balances dt_clocks dt_events dt_epochs dt_allocations] in *.
  split; [|right].
  - destruct (digest_or_zero _ _ _ Hpd) as [Dp|?]; [|by right]. destruct (appended_digest _ _ _ _ _ _ _ _ Happ) as [De|[_ ?]]; [left | by right].
    eapply (activation_ledger_ok t _ _ states acts a' policy height hash previous digest pd event sorted); try exact Hok; try eassumption; reflexivity.
  - unfold active_policy_activation. rewrite store_integer by done. cbn [bind].
    erewrite (activations_after t _ _ states acts a' policy height hash previous digest pd event sorted); try eassumption; try reflexivity. cbn [bind].
    rewrite List.filter_app. cbn [List.filter]. destruct (activation_init_Ok _ _ _ _ _ _ _ Hinit) as [-> _]. cbn [pa_activation_block]. rewrite Z.leb_refl. by rewrite last_snoc.
Qed.
End activation.

Section system.
Context {sha : Sha256} (scope_digest : string).

(** ** A growing database *)

(** Every settlement that was retained still is. *)
Definition env_extends (env env' : LedgerEnv) : Prop :=
  ∀ a b c d crown, _retained_crown_authority env a b c d = Ok crown → _retained_crown_authority env' a b c d = Ok crown.

Section env.
Context (env env' : LedgerEnv) (Henv : env_extends env env') (t : DebtTables).

Lemma claim_env row claim : _claim_from_row scope_digest env t row = Ok claim → _claim_from_row scope_digest env' t row = Ok claim.
Proof.
  rewrite !claim_from_row_Ok. intros [H1 H2 H3 (activation & crown & active & e & payload & family & digest & Ha & Hv & Hc & Hrest)].
  constructor; [done..|]. exists activation, crown, active, e, payload, family, digest. split; [done|]. split; [done|]. split; [by apply Henv | done].
Qed.

Lemma no_issue_env e x : _no_issue_authority scope_digest env t e = Ok x → _no_issue_authority scope_digest env' t e = Ok x.
Proof.
  unfold _no_issue_authority. apply bind_mono; [done|]. intros _ _. destruct (find_activation _ _); [|done].
  do 2 (apply bind_mono; [done|]; intros ? _). apply bind_mono; [intros ?; apply Henv | done].
Qed.

Lemma cancellation_env s block row o :
  expected_cancellation scope_digest env t s block row = Ok o → expected_cancellation scope_digest env' t s block row = Ok o.
Proof. unfold expected_cancellation. apply bind_mono; [apply claim_env | done]. Qed.

Lemma invalidation_env e prior m :
  _validate_family_invalidation scope_digest env t e prior = Ok m → _validate_family_invalidation scope_digest env' t e prior = Ok m.
Proof.
  unfold _validate_family_invalidation. apply bind_mono; [done|]. intros _ _. destruct (List.find _ _); [|done].
  do 13 (apply bind_mono; [done|]; intros ? _). apply bind_mono; [|done]. intros k. apply mapM_mono. intros ? ? _. apply cancellation_env.
Qed.

Lemma replay_event_env e r r' : replay_event scope_digest env t e r = Ok r' → replay_event scope_digest env' t e r = Ok r'.
Proof.
  unfold replay_event. case_bool_decide; [done|]. case_bool_decide.
  { unfold replay_claim. destruct (claim_of_event _ _); [|done]. apply bind_mono; [apply claim_env | done]. }
  case_bool_decide; [unfold replay_no_issue; apply bind_mono; [apply no_issue_env | done]|].
  case_bool_decide; [|done]. unfold replay_invalidation. do 3 (apply bind_mono; [done|]; intros ? _). apply bind_mono; [apply invalidation_env | done].
Qed.

Lemma replay_events_env es r r' : replay_events scope_digest env t es r = Ok r' → replay_events scope_digest env' t es r = Ok r'.
Proof.
  revert r. induction es as [|e es IH]; intros r; cbn [replay_events]; [done|]. apply bind_mono; [apply replay_event_env | intros r1 _; apply IH].
Qed.

Lemma ledger_ok_env states : ledger_ok scope_digest env t states → ledger_ok scope_digest env' t states.
Proof.
  intros [(es & r & [Hes Hr Ha Hc Hw Hk]) Hs Hschema]. constructor; [|revert Hs; apply mapM_mono | done].
  - exists es, r. constructor; [done | by apply replay_events_env | done..].
  - intros row s _. unfold claim_state. apply bind_mono; [apply claim_env | done].
Qed.
End env.

(** ** Steps *)

Definition ledger_state : Type := LedgerEnv * DebtTables.

Inductive ledger_step : ledger_state → ledger_state → Prop :=
  | step_database env env' t : env_extends env env' → ledger_step (env, t) (env', t)
  | step_activate env t t' capability policy height hash seeds a :
      policy_wf policy → Forall seed_wf seeds → Forall (λ e, er_block e < height) (dt_events t) →
      activate_policy scope_digest env capability policy height hash seeds t = Ok (t', a) → ledger_step (env, t) (env, t')
  | step_issue env t t' k crown o seen :
      crown_of env k crown → crown_outcomes scope_digest env t = Ok seen → kn_settlement_event_digest k ∉ seen →
      issue_crown_in_transaction scope_digest env k t = Ok (t', o) → ledger_step (env, t) (env, t')
  | step_lifecycle env t t' height hash eligible changed :
      reconcile_lifecycle scope_digest env height hash eligible t = Ok (t', changed) → ledger_step (env, t) (env, t')
  | step_invalidate env t t' p f inv height hash changed :
      invalidate_family scope_digest env p f inv height hash t = Ok (t', changed) → ledger_step (env, t) (env, t')
  | step_close env t t' pt pt' projection confirmation eligible epoch :
      close_confirmed_epoch scope_digest env projection confirmation eligible t pt = Ok (t', pt', epoch) → ledger_step (env, t) (env, t').

(** The store passes its audit. *)
Definition audited (x : ledger_state) : Prop := ∃ states, ledger_ok scope_digest x.1 x.2 states.

Lemma empty_audited env : ledger_ok scope_digest env empty_debt [].
Proof. constructor; [|done | constructor; constructor]. exists [], empty_replay. by constructor. Qed.

Lemma reconcile_lifecycle_ok env height hash hotkeys t t' states changed :
  ledger_ok scope_digest env t states → reconcile_lifecycle scope_digest env height hash hotkeys t = Ok (t', changed) →
  ∃ eligible, _eligible_hotkeys hotkeys = Ok eligible ∧ ledger_ok scope_digest env t' (reconciled height eligible <$> states) ∧
    changed = reconciled height eligible <$> List.filter (due height eligible) states.
Proof.
  intros Hok H. unfold reconcile_lifecycle in H. apply bind_Ok in H as (z & Hz & H). unfold FS._integer in Hz.
  apply require_int_Ok in Hz as ([= <-] & Hz & _). specialize (Hz 0 eq_refl). apply bind_Ok in H as (hh & Hh & H). columns.
  apply bind_Ok in H as (eligible & He & H). apply bind_Ok in H as (? & _ & H). apply bind_Ok in H as (ss & Hss & H).
  rewrite (ledger_ok_states _ _ _ _ Hok) in Hss. injection Hss as <-. exists eligible. split; [done|].
  destruct (reconcile_states_ok _ _ _ _ _ _ _ _ _ _ Hok Hz (state_keys_NoDup _ _ _ _ Hok) (λ s Hs, Hs) H) as [Hok' ->]. split; [|done].
  eapply eq_rect_r; [exact Hok'|]. apply list_fmap_ext. intros i s Hs. rewrite decide_True; [done|]. apply list_elem_of_fmap_2. by eapply list_elem_of_lookup_2.
Qed.

(** A retry of a retained invalidation. *)
Lemma invalidate_retry env p f inv height hash t t' changed c :
  invalidate_family scope_digest env p f inv height hash t = Ok (t', changed) →
  List.find (λ c, is_invalidation p f c && bool_decide (fc_reservation_digest c = inv)) (dt_clocks t) = Some c → t' = t.
Proof.
  intros H Hf. unfold invalidate_family in H. do 3 (apply bind_Ok in H as (? & ? & H)). columns. do 2 (apply bind_Ok in H as (? & ? & H)). columns.
  rewrite Hf in H. do 3 (apply bind_Ok in H as (? & _ & H)). by apply bind_Ok in H as (? & _ & [= <- <-]).
Qed.

Lemma step_audited x y : ledger_step x y → audited x → audited y ∨ zero_preimage.
Proof.
  intros Hstep [states Hok]. destruct Hstep as [env env' t He | env t t' cap policy height hash seeds a Hp Hs Hb H | env t t' k crown o seen Hk Hseen Hout H
    | env t t' height hash hotkeys changed H | env t t' p f inv height hash changed H | env t t' pt pt' projection confirmation hotkeys epoch H]; cbn in Hok.
  - left. exists states. by eapply ledger_ok_env.
  - destruct (activate_policy_ok _ _ _ _ _ _ _ _ _ _ _ Hok Hp Hs Hb H) as [[?|?] _]; [left; by eexists | by right].
  - destruct (issue_crown_ok _ _ _ _ _ _ _ _ _ Hok Hk Hseen Hout H) as [Ho|(_ & _ & ?)]; [left | by right].
    destruct o; [destruct Ho as (opened & _ & Ho)|]; by eexists.
  - left. destruct (reconcile_lifecycle_ok _ _ _ _ _ _ _ _ Hok H) as (eligible & _ & Hok' & _). by eexists.
  - destruct (List.find (λ c, is_invalidation p f c && bool_decide (fc_reservation_digest c = inv)) (dt_clocks t)) eqn:Hf.
    + left. exists states. by rewrite (invalidate_retry _ _ _ _ _ _ _ _ _ _ H Hf).
    + destruct (invalidate_family_fresh _ _ _ _ _ _ _ _ _ _ _ Hok H Hf) as [[?|(_ & _ & ?)] _]; [left; by eexists | by right].
  - left. destruct (find_epoch t (dp_policy_digest projection) (dp_effective_block projection)) as [row|] eqn:Hf.
    + exists states. unfold close_confirmed_epoch in H. do 2 (apply bind_Ok in H as (? & _ & H)). cbv zeta in H. do 4 (apply bind_Ok in H as (? & _ & H)).
      rewrite Hf in H. do 4 (apply bind_Ok in H as (? & _ & H)). injection H as <- _ _. done.
    + destruct (close_epoch_fresh _ _ _ _ _ _ _ _ _ _ _ Hok H Hf) as (? & ? & ? & _ & _ & _ & _ & _ & Hok'). by eexists.
Qed.

Lemma reachable_audited x y : rtc ledger_step x y → audited x → audited y ∨ zero_preimage.
Proof. induction 1 as [x|x y z Hxy _ IH]; [by left|]. intros Hx. destruct (step_audited _ _ Hxy Hx) as [Hy|?]; [by apply IH | by right]. Qed.

Lemma audited_states x : audited x → ∃ states, claim_states scope_digest x.1 None x.2 = Ok states ∧ Forall state_wf states.
Proof.
  intros [states Hok]. exists states. split.
  - unfold claim_states. destruct (lo_clocks _ _ _ _ Hok) as (es & r & Hr). rewrite (ca_events _ _ _ _ _ Hr). cbn [bind]. by apply ledger_ok_states.
  - apply Forall_forall. intros s Hs. by apply (ledger_state_wf _ _ _ _ _ Hok Hs).
Qed.
End system.
