(* ===== verification/DebtStoreCorrect.v ===== *)
(** * The finite-debt ledger is correct

    What the audit of the store guarantees, what each operation does to the claim
    states, and that the audit passes after any sequence of operations. *)

From Stdlib Require Import ZArith Lia Ascii.
From stdpp Require Import base tactics numbers list strings gmap sorting relations.
From S2P Require Import Prelude PyValue Sha256 Identity Strict IdentityCorrect Provider FiniteDebt FiniteDebtBalance FiniteDebtPolicy.
From S2P Require Import FiniteDebtEpoch FiniteDebtClaims Composition Stack Release StackPlan StackPlanCorrect Settlement.
From S2P Require Import SettlementPlan SettlementFacts Publication Journal IntakeData Intake DebtPublication DebtStoreData DebtStore.
From S2P Require Import DebtLedger DebtFrame DebtAudit DebtSteps DebtClose DebtIssue DebtSystem.

(** The parts of a claim add up to its principal, and none is negative. *)
Definition conserves (s : DebtClaimState) : Prop :=
  0 ≤ db_paid_units (ds_balance s) ∧ 0 ≤ db_forfeited_units (ds_balance s) ∧ 0 ≤ db_remaining_units (ds_balance s) ∧
  db_paid_units (ds_balance s) + db_forfeited_units (ds_balance s) + db_remaining_units (ds_balance s) = ic_principal_units (ds_claim s).

Lemma state_wf_conserves `{Sha256} s : state_wf s → conserves s.
Proof.
  intros (_ & (_ & _ & Hp & Hf & Hr & Hs & _) & Hi). apply DebtClaimState_init_Ok in Hi as (_ & [_ Hl] & _). unfold conserves. rewrite <- Hl. done.
Qed.

(** What a revision names: an event of the chain of a type that may write it. *)
Definition authorised (es : list RewardEvent) (first : bool) (row : BalanceRow) (b : DebtClaimBalance) : Prop :=
  ∃ e, e ∈ es ∧ re_event_digest e = br_reward_event_digest row ∧ re_event_type e ∈ expected_events first b.

Section correct.
Context {sha : Sha256} (scope_digest : string) (env : LedgerEnv).

Lemma check_revision_authorised t es claim prior row b :
  reward_events scope_digest t = Ok es → check_revision t claim prior row b = Ok tt → authorised es (bool_decide (prior = None)) row b.
Proof.
  intros Hes H. unfold check_revision in H. destruct (find_event t _) as [erow|] eqn:Hf; [|done]. apply find_event_elem in Hf as [Hin Hd].
  destruct (event_of_row _ _ _ _ Hes Hin) as (e & He & Hh). apply bind_Ok in H as (? & Ht%raise_if_Ok & _). bool_prop. rewrite Hh in Ht, Hd. by exists e.
Qed.

Lemma check_revisions_authorised t es claim prior rows bs :
  reward_events scope_digest t = Ok es → length rows = length bs → check_revisions t claim (Some prior) (zip rows bs) = Ok tt → Forall2 (authorised es false) rows bs.
Proof.
  intros Hes. revert prior bs. induction rows as [|row rows IH]; intros prior [|b bs]; try done. intros [= Hl]. cbn [zip zip_with check_revisions].
  intros ([] & Hr & H)%bind_Ok. constructor; [exact (check_revision_authorised _ _ _ _ _ _ Hes Hr) | by eapply IH].
Qed.

Lemma ledger_claim_states t states : ledger_ok scope_digest env t states → claim_states scope_digest env None t = Ok states.
Proof.
  intros Hok. unfold claim_states. destruct (lo_clocks _ _ _ _ Hok) as (es & r & Hr). rewrite (ca_events _ _ _ _ _ Hr). cbn [bind]. by apply ledger_ok_states.
Qed.

Lemma claim_states_ledger t states : claim_states scope_digest env None t = Ok states → schema_ok t → ledger_ok scope_digest env t states.
Proof. unfold claim_states. intros (? & _ & Hs)%bind_Ok Hschema. by apply states_ledger_ok. Qed.

(** C8: a store that passes its audit has, for every claim, a history of
    balances that starts with the open principal and ends with the claim's state; in
    each step what was paid or forfeited only grows and what is left shrinks; every
    balance conserves its principal; and every revision names an event of the hash
    chain whose type may write it. *)
Theorem audit_sound t states s :
  claim_states scope_digest env None t = Ok states → s ∈ states →
  ∃ es rows opened later,
    reward_events scope_digest t = Ok es ∧ rows = balances_of t (InnovationDebtClaim_digest (ds_claim s)) ∧
    mapM _balance_from_row rows = Ok (opened :: later) ∧ br_revision <$> rows = counting 0 (length rows) ∧
    DebtClaimBalance_open (ds_claim s) = Ok opened ∧ List.last later opened = ds_balance s ∧ advancing opened later ∧
    Forall (λ b, db_paid_units b + db_forfeited_units b + db_remaining_units b = db_principal_units b) (opened :: later) ∧
    (∃ row rest, rows = row :: rest ∧ authorised es true row opened ∧ Forall2 (authorised es false) rest later) ∧ conserves s.
Proof.
  unfold claim_states. intros (es & Hes & Hs)%bind_Ok Hin. unfold _claim_states in Hs. apply bind_Ok in Hs as (? & _ & Hs). cbn [optional_digest bind] in Hs.
  destruct (mapM_elem _ _ _ _ Hs Hin) as (row & _ & (claim & balances & _ & Hh)%claim_state_Ok).
  pose proof (history_state _ _ _ _ Hh) as (Hl & <- & Hwf & [_ Hlk]). destruct Hh as [Hr Hn He (opened & later & -> & Ho & Ha & Hi)].
  pose proof Hr as Hlen%mapM_Ok%Forall2_length. exists es, (balances_of t (InnovationDebtClaim_digest (ds_claim s))), opened, later.
  split; [done|]. split; [done|]. split; [done|]. split; [by rewrite Hn, Hlen|]. split; [done|].
  split; [by apply DebtClaimState_init_Ok in Hi as (-> & _)|]. split; [done|].
  split; [eapply Forall_impl; [exact Hwf|]; intros b (_ & _ & _ & _ & _ & ? & _); done|]. split.
  - destruct (balances_of t _) as [|r rest]; [done|]. exists r, rest. split; [done|]. cbn [zip zip_with check_revisions] in He. apply bind_Ok in He as ([] & H1 & H2).
    split; [exact (check_revision_authorised _ _ _ _ _ _ Hes H1)|]. eapply check_revisions_authorised; [done | by injection Hlen | exact H2].
  - assert (balance_wf (ds_balance s)) as (_ & _ & ? & ? & ? & ? & _) by (rewrite Forall_forall in Hwf; apply Hwf; by apply last_Some_elem_of in Hl).
    unfold conserves. rewrite <- Hlk. done.
Qed.

(** C11: the reconciliation of an audited store expires the open claims whose
    lifetime is over and cancels those of hotkeys that left, reports exactly these,
    leaves every other claim alone, and the store passes its audit again. *)
Theorem lifecycle_exact height hash hotkeys t t' states changed :
  schema_ok t → claim_states scope_digest env None t = Ok states →
  reconcile_lifecycle scope_digest env height hash hotkeys t = Ok (t', changed) →
  ∃ eligible, _eligible_hotkeys hotkeys = Ok eligible ∧
    claim_states scope_digest env None t' = Ok (reconciled height eligible <$> states) ∧
    changed = reconciled height eligible <$> List.filter (due height eligible) states.
Proof.
  intros Hschema Hs H. destruct (reconcile_lifecycle_ok _ _ _ _ _ _ _ _ _ (claim_states_ledger _ _ Hs Hschema) H) as (eligible & He & Hok & Hc).
  exists eligible. split; [done|]. split; [by apply ledger_claim_states | done].
Qed.

(** C12: the invalidation of a family in an audited store cancels exactly its
    open claims under the policy, reports them, and the store passes its audit again,
    unless no claim was open and the digest of the event it appended is all zeros,
    which the code reserves; a retry of a retained invalidation changes nothing. *)
Theorem invalidation_exact p f inv height hash t t' states changed :
  schema_ok t → claim_states scope_digest env None t = Ok states →
  invalidate_family scope_digest env p f inv height hash t = Ok (t', changed) →
  match List.find (λ c, is_invalidation p f c && bool_decide (fc_reservation_digest c = inv)) (dt_clocks t) with
  | Some _ => t' = t
  | None => (claim_states scope_digest env None t' = Ok (invalidated p f height <$> states) ∨ (changed = [] ∧ zero_event t')) ∧
      changed = cut height <$> List.filter (hit p f) states
  end.
Proof.
  intros Hschema Hs H. destruct (List.find _ (dt_clocks t)) eqn:Hf.
  - by eapply invalidate_retry.
  - destruct (invalidate_family_fresh _ _ _ _ _ _ _ _ _ _ _ (claim_states_ledger _ _ Hs Hschema) H Hf) as [[Hok|(? & ? & _)] Hc]; (split; [|done]); [left | by right].
    by apply ledger_claim_states.
Qed.

(** C7: closing an epoch of an audited store that is not a retry pays the
    states of the active policy what their projection allots, the projection is the
    one that was confirmed, every other claim is left alone, and the store passes its
    audit again. *)
Theorem close_pays_projection projection confirmation hotkeys t pt t' pt' epoch states :
  schema_ok t → claim_states scope_digest env None t = Ok states →
  close_confirmed_epoch scope_digest env projection confirmation hotkeys t pt = Ok (t', pt', epoch) →
  find_epoch t (dp_policy_digest projection) (dp_effective_block projection) = None →
  let ps := List.filter (of_policy (dp_policy_digest projection)) states in
  ∃ activation paid updated,
    active_policy_activation scope_digest t (PInt (dp_effective_block projection)) = Ok (Some activation) ∧
    project_debt_epoch (pa_policy activation) (PInt (dp_effective_block projection)) ps = Ok paid ∧
    py_eq (DebtEpochProjection_to_dict paid) (DebtEpochProjection_to_dict projection) = true ∧
    apply_debt_epoch_projection ps paid = Ok updated ∧ moved (changed_pairs ps updated) <$> ps = updated ∧
    claim_states scope_digest env None t' = Ok (moved (changed_pairs ps updated) <$> states).
Proof.
  intros Hschema Hs H Hf ps. destruct (close_epoch_fresh _ _ _ _ _ _ _ _ _ _ _ (claim_states_ledger _ _ Hs Hschema) H Hf) as (a & paid & updated & H1 & H2 & H3 & H4 & H5 & Hok).
  exists a, paid, updated. do 5 (split; [done|]). by apply ledger_claim_states.
Qed.

(** C10: a crown whose arguments are those of its retained settlement, and that
    has no outcome yet, adds the open state of its claim to an audited store, and the
    store passes its audit again.  When no claim is issued the claim states stay as
    they are, unless the digest of the event it appended is all zeros, which the code
    reserves. *)
Theorem issue_exact t t' k crown o states seen :
  schema_ok t → claim_states scope_digest env None t = Ok states → crown_of env k crown →
  crown_outcomes scope_digest env t = Ok seen → kn_settlement_event_digest k ∉ seen →
  issue_crown_in_transaction scope_digest env k t = Ok (t', o) →
  match o with
  | None => claim_states scope_digest env None t' = Ok states ∨ zero_event t'
  | Some claim => ∃ opened, DebtClaimBalance_open claim = Ok opened ∧
      claim_states scope_digest env None t' = Ok (sorted_by claim_key (states ++ [{| ds_claim := claim; ds_balance := opened |}]))
  end.
Proof.
  intros Hschema Hs Hk Hseen Hout H. destruct (issue_crown_ok _ _ _ _ _ _ _ _ _ (claim_states_ledger _ _ Hs Hschema) Hk Hseen Hout H) as [Ho|(-> & ? & _)]; [|by right].
  destruct o; [destruct Ho as (opened & Hopen & Ho); exists opened; split; [done|] | left]; by apply ledger_claim_states.
Qed.
End correct.

Section lifetime.
Context {sha : Sha256} (scope_digest : string).

(** C6: after any sequence of activations (each at a later block than every event
    before it), issuances of settled crowns without an outcome yet, reconciliations,
    invalidations and closes from an empty ledger, with the database growing in
    between, the audit of the store passes and every claim conserves its principal,
    unless some bytes hash to the zero digest. *)
Theorem ledger_always_audits env0 env t :
  rtc (ledger_step scope_digest) (env0, empty_debt) (env, t) →
  (∃ states, claim_states scope_digest env None t = Ok states ∧ Forall conserves states) ∨ zero_preimage.
Proof.
  intros Hr. destruct (reachable_audited _ _ _ Hr) as [(states & Hs & Hwf)%audited_states|?]; [exists []; apply empty_audited | left | by right].
  exists states. split; [exact Hs|]. eapply Forall_impl; [exact Hwf|]. apply state_wf_conserves.
Qed.

(** C9: two ledgers whose event chains are accepted and end in the same digest
    hold the same events in the same order, payloads up to the order of their members;
    otherwise an event of the one and an event of the other have different bytes and
    one SHA-256. *)
Theorem chain_tamper_evident t1 t2 es1 es2 :
  reward_events scope_digest t1 = Ok es1 → reward_events scope_digest t2 = Ok es2 → chain_head es1 = chain_head es2 →
  Forall2 same_event es1 es2 ∨ event_collision scope_digest es1 es2.
Proof. intros [_ H1]%reward_events_Ok [_ H2]%reward_events_Ok Hh. by eapply chained_identifies. Qed.
End lifetime.

(** ** Boundaries *)

(** The next boundary after [n] closed ones: the cadence fixes its block, and it is
    not published before a cadence has passed since the previous confirmation. *)
Definition next_boundary (policy : string) (activation cadence : Z) (n : nat) (finalized : Z) (prior : option Z) : DebtBoundarySchedule :=
  let effective := activation + (Z.of_nat n + 1) * cadence in
  let not_before := match prior with None => effective | Some p => Z.max effective (p + cadence) end in
  {| bs_policy_digest := policy; bs_activation_block := activation; bs_epoch_blocks := cadence; bs_finalized_block := finalized;
     bs_next_epoch_index := Z.of_nat n + 1; bs_next_effective_block := effective; bs_not_before_block := not_before;
     bs_status := schedule_status finalized effective not_before |}.

Lemma DP_integer_Ok m z v : DP._integer m (PInt z) = Ok v ↔ v = z ∧ m ≤ z.
Proof.
  unfold DP._integer. rewrite require_int_Ok. split; [intros ([= ->] & H & _); split; [done | by apply H] | intros [-> Hz]; split; [done|]; split; [by intros ? [= <-] | done]].
Qed.

Lemma DP_digest_Ok s v : DP._digest (PStr s) = Ok v ↔ v = s ∧ digest_ok s.
Proof. unfold DP._digest. rewrite require_digest_Ok. naive_solver. Qed.

Lemma schedule_init_Ok pd a c f i e nb s :
  DebtBoundarySchedule_init (PStr pd) (PInt a) (PInt c) (PInt f) (PInt i) (PInt e) (PInt nb) (PStr (schedule_status f e nb)) = Ok s ↔
  digest_ok pd ∧ 0 ≤ a ∧ 1 ≤ c ∧ 0 ≤ f ∧ 1 ≤ i ∧ 0 ≤ e ∧ 0 ≤ nb ∧ e = a + i * c ∧ e ≤ nb ∧
  s = {| bs_policy_digest := pd; bs_activation_block := a; bs_epoch_blocks := c; bs_finalized_block := f; bs_next_epoch_index := i;
         bs_next_effective_block := e; bs_not_before_block := nb; bs_status := schedule_status f e nb |}.
Proof.
  unfold DebtBoundarySchedule_init. split.
  - intros H. inv_checks H. bool_prop.
    repeat match goal with E : DP._integer _ (PInt _) = Ok _ |- _ => apply DP_integer_Ok in E as [-> ?] | E : DP._digest (PStr _) = Ok _ |- _ => apply DP_digest_Ok in E as [-> ?] end. done.
  - intros (Hd & Ha & Hc & Hf & Hi & He & Hn & Ec & Hle & ->). rewrite (proj2 (DP_digest_Ok pd pd)) by done. cbn [bind].
    rewrite !(proj2 (DP_integer_Ok _ _ _) (conj eq_refl Ha)), !(proj2 (DP_integer_Ok _ _ _) (conj eq_refl Hc)), !(proj2 (DP_integer_Ok _ _ _) (conj eq_refl Hf)),
      !(proj2 (DP_integer_Ok _ _ _) (conj eq_refl Hi)), !(proj2 (DP_integer_Ok _ _ _) (conj eq_refl He)), !(proj2 (DP_integer_Ok _ _ _) (conj eq_refl Hn)). cbn [bind].
    rewrite (proj2 (Z.eqb_eq _ _) Ec), (proj2 (Z.ltb_ge nb e)) by lia. cbn [negb raise_if bind py_eq_str]. by rewrite bool_decide_true.
Qed.

Lemma closed_ints e closed k : mapM (nonneg_int e) (PInt <$> closed) = Ok k ↔ k = closed ∧ Forall (λ z, 0 ≤ z) closed.
Proof.
  revert k. induction closed as [|z closed IH]; intros k; [by cbn; split; [intros [= <-] | intros [-> _]]|]. rewrite fmap_cons. cbn [mapM]. rewrite bind_Ok.
  rewrite Forall_cons. split.
  - intros (x & Hx & (l & Hl & [= <-])%bind_Ok). apply IH in Hl as [-> ?]. cbn in Hx. destruct (Z.ltb_spec z 0); [done|]. by injection Hx as <-.
  - intros (-> & Hz & Hc). exists z. cbn. destruct (Z.ltb_spec z 0); [lia|]. split; [done|]. apply bind_Ok. exists closed. split; [by apply IH | done].
Qed.

(** C13: a schedule is given exactly when the closed boundaries are the gapless
    prefix of the cadence and a previous confirmation is named if and only if there is
    one; it is then the next boundary, held back until a cadence has passed since the
    previous confirmation. *)
Theorem schedule_exact policy activation cadence closed finalized prior s :
  next_debt_boundary_schedule (PStr policy) (PInt activation) (PInt cadence) (PInt <$> closed) (PInt finalized) (py_opt_int prior) = Ok s ↔
  digest_ok policy ∧ 0 ≤ activation ∧ 1 ≤ cadence ∧ 0 ≤ finalized ∧
  closed = (λ i, activation + Z.of_nat i * cadence) <$> seq 1 (length closed) ∧ (prior = None ↔ closed = []) ∧ (∀ p, prior = Some p → 0 ≤ p) ∧
  s = next_boundary policy activation cadence (length closed) finalized prior.
Proof.
  unfold next_debt_boundary_schedule, next_boundary. cbv zeta. split.
  - intros H. apply bind_Ok in H as (a & [-> Ha]%DP_integer_Ok & H). apply bind_Ok in H as (c & [-> Hc]%DP_integer_Ok & H).
    apply bind_Ok in H as (k & [-> Hk]%closed_ints & H). apply bind_Ok in H as (? & Hp%raise_if_Ok & H). bool_prop. apply bind_Ok in H as (f & [-> Hf]%DP_integer_Ok & H).
    apply bind_Ok in H as (pr & Hpr & H). apply bind_Ok in H as (d & [-> Hd]%DP_digest_Ok & H).
    assert (pr = prior ∧ (prior = None ↔ closed = []) ∧ ∀ p, prior = Some p → 0 ≤ p) as (-> & Hiff & Hpos).
    { destruct prior as [p|]; cbn in Hpr.
      - apply bind_Ok in Hpr as (p' & [-> Hp']%DP_integer_Ok & Hpr). apply bind_Ok in Hpr as (? & Hn%raise_if_Ok & [= <-]). split; [done|]. split; [by destruct closed|]. by intros ? [= <-].
      - apply bind_Ok in Hpr as (? & Hn%raise_if_Ok & [= <-]). split; [done|]. split; [by destruct closed | done]. }
    apply schedule_init_Ok in H as (_ & _ & _ & _ & _ & He & _ & _ & _ & ->). do 7 (split; [done|]). destruct prior; [done|]. by rewrite Z.max_id.
  - intros (Hd & Ha & Hc & Hf & Hp & Hiff & Hpos & ->). rewrite (proj2 (DP_integer_Ok 0 activation activation)), (proj2 (DP_integer_Ok 1 cadence cadence)) by done. cbn [bind].
    assert (Forall (λ z, 0 ≤ z) closed) as Hk by (rewrite Hp; apply Forall_fmap, Forall_forall; intros i _; cbn; nia).
    rewrite (proj2 (closed_ints _ closed closed) (conj eq_refl Hk)). cbn [bind]. rewrite bool_decide_true by done. cbn [negb raise_if bind].
    rewrite (proj2 (DP_integer_Ok 0 finalized finalized)) by done. cbn [bind].
    assert ((if is_none (py_opt_int prior) then do! raise_if (negb (is_nil closed)) (DP.error "closed debt boundaries require prior confirmation authority") ;; Ok None
      else let! p := DP._integer 0 (py_opt_int prior) in do! raise_if (is_nil closed) (DP.error "prior confirmation authority has no closed debt boundary") ;; Ok (Some p)) = Ok prior) as ->.
    { destruct prior as [p|]; cbn [py_opt_int is_none].
      - rewrite (proj2 (DP_integer_Ok 0 p p)) by auto. cbn [bind]. destruct closed; [|done]. by destruct Hiff as [_ Hiff]; specialize (Hiff eq_refl).
      - rewrite (proj1 Hiff) by done. done. }
    cbn [bind]. rewrite (proj2 (DP_digest_Ok policy policy)) by done. cbn [bind].
    assert (match prior with None => activation + (Z.of_nat (length closed) + 1) * cadence | Some p => Z.max (activation + (Z.of_nat (length closed) + 1) * cadence) (p + cadence) end
      = Z.max (activation + (Z.of_nat (length closed) + 1) * cadence) (match prior with None => activation + (Z.of_nat (length closed) + 1) * cadence | Some p => p + cadence end)) as ->
      by (destruct prior; [done | by rewrite Z.max_id]).
    apply schedule_init_Ok. split_and!; (done || nia).
Qed.
