(* ===== verification/Economics.v ===== *)
(** * Emissions projection (src/optima/economics.py)

    The standing and discovery reward claims, and the one integer weight vector
    they are projected to. *)

From Stdlib Require Import ZArith Lia Ascii.
From stdpp Require Import base tactics numbers list strings gmap sorting.
From S2P Require Import Prelude PyValue Sha256 Identity Strict Apportion FiniteDebt Catalog Stack.

Module EC.
Definition POLICY_SCHEMA_VERSION : Z := 1.
Definition POLICY_VERSION : string := "optima.emissions.v1".

Definition error (msg : string) : pyexn := Exn EconomicsError msg.

Definition _digest (v : pyval) : result string := require_digest EconomicsError false false v.

Definition _integer (minimum : Z) (v : pyval) : result Z := require_int EconomicsError (Some minimum) None v.

Definition _hotkey (v : pyval) : result string :=
  match v with
  | PStr s => if hotkey_matches s then Ok s else Raise (error "is malformed")
  | _ => Raise (error "is malformed")
  end.

Definition _strict (fields : list string) (v : pyval) : result (list (string * pyval)) :=
  require_exact_fields EconomicsError fields true v.
End EC.

#[global] Arguments EC._integer : simpl never.
#[global] Arguments EC._digest : simpl never.
#[global] Arguments EC._hotkey : simpl never.
#[global] Arguments EC._strict : simpl never.

Definition WEIGHT_PPM : Z := 1000000.

(** ** The policy *)

Record EmissionsPolicyManifest := {
  em_half_life_blocks : Z;
  em_discovery_lifetime_blocks : Z;
  em_discovery_pool_ppm : Z;
  em_schema_version : pyval;
  em_policy_version : string
}.

Definition EmissionsPolicyManifest_init
    (half_life_blocks discovery_lifetime_blocks discovery_pool_ppm schema_version policy_version : pyval)
    : result EmissionsPolicyManifest :=
  let! half_life := EC._integer 1 half_life_blocks in
  let! lifetime := EC._integer 1 discovery_lifetime_blocks in
  let! pool := EC._integer 0 discovery_pool_ppm in
  do! raise_if (WEIGHT_PPM <=? pool) (EC.error "discovery_pool_ppm must leave standing reward capacity") ;;
  do! raise_if (negb (py_eq_int schema_version EC.POLICY_SCHEMA_VERSION))
        (EC.error "emissions policy schema_version is unsupported") ;;
  do! raise_if (negb (py_eq_str policy_version EC.POLICY_VERSION))
        (EC.error "emissions policy_version is unsupported") ;;
  let! version := require_str (EC.error "emissions policy_version is unsupported") policy_version in
  Ok {| em_half_life_blocks := half_life;
        em_discovery_lifetime_blocks := lifetime;
        em_discovery_pool_ppm := pool;
        em_schema_version := schema_version;
        em_policy_version := version |}.

Definition EmissionsPolicyManifest_to_dict (p : EmissionsPolicyManifest) : pyval :=
  py_dict [
    ("discovery_lifetime_blocks", PInt (em_discovery_lifetime_blocks p));
    ("discovery_pool_ppm", PInt (em_discovery_pool_ppm p));
    ("half_life_blocks", PInt (em_half_life_blocks p));
    ("policy_version", PStr (em_policy_version p));
    ("schema_version", em_schema_version p)].

Definition EmissionsPolicyManifest_from_dict (v : pyval) : result EmissionsPolicyManifest :=
  let! row := EC._strict ["discovery_lifetime_blocks"; "discovery_pool_ppm"; "half_life_blocks"; "policy_version";
                "schema_version"] v in
  let! half_life_blocks := row_get row "half_life_blocks" in
  let! discovery_lifetime_blocks := row_get row "discovery_lifetime_blocks" in
  let! discovery_pool_ppm := row_get row "discovery_pool_ppm" in
  let! schema_version := row_get row "schema_version" in
  let! policy_version := row_get row "policy_version" in
  EmissionsPolicyManifest_init half_life_blocks discovery_lifetime_blocks discovery_pool_ppm schema_version policy_version.

(** ** The metagraph *)

Record MetagraphMember := {
  mm_uid : Z;
  mm_hotkey : string
}.

Definition MetagraphMember_init (uid hotkey : pyval) : result MetagraphMember :=
  let! uid := EC._integer 0 uid in
  let! hotkey := EC._hotkey hotkey in
  Ok {| mm_uid := uid; mm_hotkey := hotkey |}.

Definition MetagraphMember_to_dict (m : MetagraphMember) : pyval :=
  py_dict [("hotkey", PStr (mm_hotkey m)); ("uid", PInt (mm_uid m))].

(** The order of [sorted(members, key=lambda row: (row.uid, row.hotkey))]. *)
Definition member_le (x y : MetagraphMember) : Prop :=
  mm_uid x < mm_uid y ∨ (mm_uid x = mm_uid y ∧ String.le (mm_hotkey x) (mm_hotkey y)).

#[global] Instance member_le_dec x y : Decision (member_le x y).
Proof. unfold member_le. apply _. Defined.

(** [_BLOCK_HASH = 0x[0-9a-f]{64}\Z] with [fullmatch]. *)
Definition block_hash_matches (s : string) : bool :=
  match s with
  | String "0" (String "x" t) => is_hex64 t
  | _ => false
  end.

Record RewardProjectionContext := {
  rc_chain_scope_digest : string;
  rc_validator_hotkey : string;
  rc_stack_generation : Z;
  rc_current_block : Z;
  rc_current_block_hash : string;
  rc_metagraph_members : list MetagraphMember
}.

Definition RewardProjectionContext_init
    (chain_scope_digest validator_hotkey stack_generation current_block current_block_hash : pyval)
    (metagraph_members : list MetagraphMember) : result RewardProjectionContext :=
  let! chain_scope_digest := EC._digest chain_scope_digest in
  let! validator_hotkey := EC._hotkey validator_hotkey in
  let! stack_generation := EC._integer 0 stack_generation in
  let! current_block := EC._integer 0 current_block in
  let! block_hash := require_str (EC.error "current_block_hash is malformed") current_block_hash in
  do! raise_if (negb (block_hash_matches block_hash)) (EC.error "current_block_hash is malformed") ;;
  let members := merge_sort member_le metagraph_members in
  do! raise_if (is_nil members || negb (bool_decide (NoDup (mm_uid <$> members)))
                || negb (bool_decide (NoDup (mm_hotkey <$> members))))
        (EC.error "metagraph membership is empty or duplicated") ;;
  do! raise_if (negb (bool_decide (validator_hotkey ∈ mm_hotkey <$> members)))
        (EC.error "validator is absent from the current metagraph") ;;
  Ok {| rc_chain_scope_digest := chain_scope_digest;
        rc_validator_hotkey := validator_hotkey;
        rc_stack_generation := stack_generation;
        rc_current_block := current_block;
        rc_current_block_hash := block_hash;
        rc_metagraph_members := members |}.

(** The payload of [metagraph_digest], shared by the two contexts. *)
Definition membership_payload (block : Z) (block_hash chain_scope_digest : string) (members : list MetagraphMember) : pyval :=
  py_dict [("block", PInt block); ("block_hash", PStr block_hash); ("chain_scope_digest", PStr chain_scope_digest);
           ("members", PList (MetagraphMember_to_dict <$> members))].

Record GlobalRewardProjectionContext := {
  gc_chain_scope_digest : string;
  gc_validator_hotkey : string;
  gc_current_block : Z;
  gc_current_block_hash : string;
  gc_metagraph_members : list MetagraphMember
}.

Definition GlobalRewardProjectionContext_init
    (chain_scope_digest validator_hotkey current_block current_block_hash : pyval)
    (metagraph_members : list MetagraphMember) : result GlobalRewardProjectionContext :=
  let! single := RewardProjectionContext_init chain_scope_digest validator_hotkey (PInt 0) current_block
                   current_block_hash metagraph_members in
  Ok {| gc_chain_scope_digest := rc_chain_scope_digest single;
        gc_validator_hotkey := rc_validator_hotkey single;
        gc_current_block := rc_current_block single;
        gc_current_block_hash := rc_current_block_hash single;
        gc_metagraph_members := rc_metagraph_members single |}.

Definition eligible_hotkeys (c : GlobalRewardProjectionContext) : gset string :=
  list_to_set (mm_hotkey <$> gc_metagraph_members c).

(** ** Claims *)

Record StandingRewardClaim := {
  sc_arena_digest : string;
  sc_target_id : string;
  sc_target_spec_digest : string;
  sc_contribution_digest : string;
  sc_hotkey : string;
  sc_speedup_ppm : Z;
  sc_crowned_block : Z;
  sc_retained_evidence_digest : string
}.

Definition StandingRewardClaim_init
    (arena_digest target_id target_spec_digest contribution_digest hotkey speedup_ppm crowned_block
     retained_evidence_digest : pyval) : result StandingRewardClaim :=
  let! target_id := require_str (EC.error "standing target_id is malformed") target_id in
  do! raise_if (bool_decide (target_id = "")) (EC.error "standing target_id is malformed") ;;
  let! arena_digest := EC._digest arena_digest in
  let! target_spec_digest := EC._digest target_spec_digest in
  let! contribution_digest := EC._digest contribution_digest in
  let! retained_evidence_digest := EC._digest retained_evidence_digest in
  let! hotkey := EC._hotkey hotkey in
  let! speedup_ppm := EC._integer (WEIGHT_PPM + 1) speedup_ppm in
  let! crowned_block := EC._integer 0 crowned_block in
  Ok {| sc_arena_digest := arena_digest;
        sc_target_id := target_id;
        sc_target_spec_digest := target_spec_digest;
        sc_contribution_digest := contribution_digest;
        sc_hotkey := hotkey;
        sc_speedup_ppm := speedup_ppm;
        sc_crowned_block := crowned_block;
        sc_retained_evidence_digest := retained_evidence_digest |}.

Definition credit_at (c : StandingRewardClaim) (block : pyval) (p : EmissionsPolicyManifest) : result Z :=
  let! block := EC._integer 0 block in
  do! raise_if (block <? sc_crowned_block c) (EC.error "crown is newer than projection authority") ;;
  let age := block - sc_crowned_block c in
  let improvement := sc_speedup_ppm c - WEIGHT_PPM in
  Ok (improvement * em_half_life_blocks p / (em_half_life_blocks p + age)).

Definition StandingRewardClaim_to_row (c : StandingRewardClaim) : list (string * pyval) :=
  [("arena_digest", PStr (sc_arena_digest c));
   ("contribution_digest", PStr (sc_contribution_digest c));
   ("crowned_block", PInt (sc_crowned_block c));
   ("hotkey", PStr (sc_hotkey c));
   ("retained_evidence_digest", PStr (sc_retained_evidence_digest c));
   ("speedup_ppm", PInt (sc_speedup_ppm c));
   ("target_id", PStr (sc_target_id c));
   ("target_spec_digest", PStr (sc_target_spec_digest c))].

Definition StandingRewardClaim_to_dict (c : StandingRewardClaim) : pyval := py_dict (StandingRewardClaim_to_row c).

Definition StandingRewardClaim_fields : list string :=
  ["arena_digest"; "target_id"; "target_spec_digest"; "contribution_digest"; "hotkey"; "speedup_ppm";
   "crowned_block"; "retained_evidence_digest"].

Definition StandingRewardClaim_from_dict (v : pyval) : result StandingRewardClaim :=
  let! row := EC._strict StandingRewardClaim_fields v in
  let! arena_digest := row_get row "arena_digest" in
  let! target_id := row_get row "target_id" in
  let! target_spec_digest := row_get row "target_spec_digest" in
  let! contribution_digest := row_get row "contribution_digest" in
  let! hotkey := row_get row "hotkey" in
  let! speedup_ppm := row_get row "speedup_ppm" in
  let! crowned_block := row_get row "crowned_block" in
  let! retained_evidence_digest := row_get row "retained_evidence_digest" in
  StandingRewardClaim_init arena_digest target_id target_spec_digest contribution_digest hotkey speedup_ppm
    crowned_block retained_evidence_digest.

Record DiscoveryBountyClaim := {
  bc_proposal_digest : string;
  bc_retained_evidence_digest : string;
  bc_hotkey : string;
  bc_bounty_units : Z;
  bc_awarded_block : Z
}.

Definition DiscoveryBountyClaim_init
    (proposal_digest retained_evidence_digest hotkey bounty_units awarded_block : pyval) : result DiscoveryBountyClaim :=
  let! proposal_digest := EC._digest proposal_digest in
  let! retained_evidence_digest := EC._digest retained_evidence_digest in
  let! hotkey := EC._hotkey hotkey in
  let! bounty_units := EC._integer 1 bounty_units in
  let! awarded_block := EC._integer 0 awarded_block in
  Ok {| bc_proposal_digest := proposal_digest;
        bc_retained_evidence_digest := retained_evidence_digest;
        bc_hotkey := hotkey;
        bc_bounty_units := bounty_units;
        bc_awarded_block := awarded_block |}.

(** [DiscoveryBountyClaim.live_at] *)
Definition bounty_live_at (c : DiscoveryBountyClaim) (block : pyval) (p : EmissionsPolicyManifest) : result bool :=
  let! block := EC._integer 0 block in
  do! raise_if (block <? bc_awarded_block c) (EC.error "discovery claim is newer than projection authority") ;;
  Ok (block - bc_awarded_block c <? em_discovery_lifetime_blocks p).

Definition DiscoveryBountyClaim_to_row (c : DiscoveryBountyClaim) : list (string * pyval) :=
  [("awarded_block", PInt (bc_awarded_block c));
   ("bounty_units", PInt (bc_bounty_units c));
   ("hotkey", PStr (bc_hotkey c));
   ("proposal_digest", PStr (bc_proposal_digest c));
   ("retained_evidence_digest", PStr (bc_retained_evidence_digest c))].

Definition DiscoveryBountyClaim_to_dict (c : DiscoveryBountyClaim) : pyval := py_dict (DiscoveryBountyClaim_to_row c).

Definition DiscoveryBountyClaim_fields : list string :=
  ["proposal_digest"; "retained_evidence_digest"; "hotkey"; "bounty_units"; "awarded_block"].

Definition DiscoveryBountyClaim_from_dict (v : pyval) : result DiscoveryBountyClaim :=
  let! row := EC._strict DiscoveryBountyClaim_fields v in
  let! proposal_digest := row_get row "proposal_digest" in
  let! retained_evidence_digest := row_get row "retained_evidence_digest" in
  let! hotkey := row_get row "hotkey" in
  let! bounty_units := row_get row "bounty_units" in
  let! awarded_block := row_get row "awarded_block" in
  DiscoveryBountyClaim_init proposal_digest retained_evidence_digest hotkey bounty_units awarded_block.

(** ** Arena authorities and credits *)

Record ArenaRewardAuthority := {
  aa_catalog : TargetCatalog;
  aa_stack : EvaluationStackManifest;
  aa_stack_generation : Z;
  aa_standing_claims : list StandingRewardClaim
}.

Definition ArenaRewardAuthority_init (catalog : TargetCatalog) (stack : EvaluationStackManifest)
    (stack_generation : pyval) (standing_claims : list StandingRewardClaim) : result ArenaRewardAuthority :=
  let! generation := EC._integer 0 stack_generation in
  Ok {| aa_catalog := catalog;
        aa_stack := stack;
        aa_stack_generation := generation;
        aa_standing_claims := standing_claims |}.

(** [ArenaRewardAuthority.arena_digest] *)
Definition aa_arena_digest (a : ArenaRewardAuthority) : string := es_arena_digest (aa_stack a).

Record StandingFamilyCredit := {
  sf_arena_digest : string;
  sf_family_id : string;
  sf_target_id : string;
  sf_claim_digest : string;
  sf_hotkey : string;
  sf_credit : Z
}.

Definition StandingFamilyCredit_to_dict (c : StandingFamilyCredit) : pyval :=
  py_dict [("arena_digest", PStr (sf_arena_digest c)); ("claim_digest", PStr (sf_claim_digest c));
           ("credit", PInt (sf_credit c)); ("family_id", PStr (sf_family_id c)); ("hotkey", PStr (sf_hotkey c));
           ("target_id", PStr (sf_target_id c))].

Record DiscoveryBountyCredit := {
  bcr_claim_digest : string;
  bcr_hotkey : string;
  bcr_credit : Z
}.

Definition DiscoveryBountyCredit_to_dict (c : DiscoveryBountyCredit) : pyval :=
  py_dict [("claim_digest", PStr (bcr_claim_digest c)); ("credit", PInt (bcr_credit c)); ("hotkey", PStr (bcr_hotkey c))].

Record HotkeyWeight := {
  kw_hotkey : string;
  kw_weight_ppm : Z
}.

Definition HotkeyWeight_to_dict (w : HotkeyWeight) : pyval :=
  py_dict [("hotkey", PStr (kw_hotkey w)); ("weight_ppm", PInt (kw_weight_ppm w))].

(** The lexicographic order of [(arena_digest, target_id)]. *)
Definition pair_le (x y : string * string) : Prop :=
  (x.1 ≠ y.1 ∧ String.le x.1 y.1) ∨ (x.1 = y.1 ∧ String.le x.2 y.2).

#[global] Instance pair_le_dec x y : Decision (pair_le x y).
Proof. unfold pair_le. apply _. Defined.

Definition standing_keys (rows : list StandingFamilyCredit) : list (string * string) :=
  (λ r, (sf_arena_digest r, sf_target_id r)) <$> rows.

Record RewardProjection := {
  rp_policy_digest : string;
  rp_catalog_digest : string;
  rp_evaluation_stack_digest : string;
  rp_context : RewardProjectionContext;
  rp_standing : list StandingFamilyCredit;
  rp_discovery : list DiscoveryBountyCredit;
  rp_expired_discovery_claims : list string;
  rp_weights : list HotkeyWeight
}.

Definition RewardProjection_init (policy_digest catalog_digest evaluation_stack_digest : pyval)
    (context : RewardProjectionContext) (standing : list StandingFamilyCredit) (discovery : list DiscoveryBountyCredit)
    (expired_discovery_claims : list string) (weights : list HotkeyWeight) : result RewardProjection :=
  let! policy_digest := EC._digest policy_digest in
  let! catalog_digest := EC._digest catalog_digest in
  let! evaluation_stack_digest := EC._digest evaluation_stack_digest in
  do! raise_if (negb (bool_decide (standing_keys standing = merge_sort pair_le (standing_keys standing)))
                || negb (bool_decide (kw_hotkey <$> weights = sorted_str (kw_hotkey <$> weights)))
                || negb (bool_decide (NoDup (kw_hotkey <$> weights)))
                || negb (Zsum (kw_weight_ppm <$> weights) =? WEIGHT_PPM))
        (EC.error "reward projection is not canonical or normalized") ;;
  do! forM_ expired_discovery_claims (λ d, do! EC._digest (PStr d) ;; Ok tt) ;;
  Ok {| rp_policy_digest := policy_digest;
        rp_catalog_digest := catalog_digest;
        rp_evaluation_stack_digest := evaluation_stack_digest;
        rp_context := context;
        rp_standing := standing;
        rp_discovery := discovery;
        rp_expired_discovery_claims := expired_discovery_claims;
        rp_weights := weights |}.

(** [weights_by_hotkey] of both projections. *)
Definition weights_by_hotkey (weights : list HotkeyWeight) : gmap string Z :=
  fold_left (λ m w, <[kw_hotkey w := kw_weight_ppm w]> m) weights ∅.

Record GlobalRewardProjection := {
  gp_policy_digest : string;
  gp_context : GlobalRewardProjectionContext;
  gp_arena_authority_digests : list string;
  gp_standing : list StandingFamilyCredit;
  gp_discovery : list DiscoveryBountyCredit;
  gp_expired_discovery_claims : list string;
  gp_weights : list HotkeyWeight
}.

Definition GlobalRewardProjection_init (policy_digest : pyval) (context : GlobalRewardProjectionContext)
    (arena_authority_digests : list string) (standing : list StandingFamilyCredit)
    (discovery : list DiscoveryBountyCredit) (expired_discovery_claims : list string) (weights : list HotkeyWeight)
    : result GlobalRewardProjection :=
  let! policy_digest := EC._digest policy_digest in
  do! forM_ arena_authority_digests (λ d, do! EC._digest (PStr d) ;; Ok tt) ;;
  do! raise_if (negb (bool_decide (arena_authority_digests = sorted_str arena_authority_digests)))
        (EC.error "arena authorities are not canonical") ;;
  do! raise_if (negb (bool_decide (standing_keys standing = merge_sort pair_le (standing_keys standing))))
        (EC.error "global standing families are not canonical") ;;
  do! raise_if (negb (bool_decide (kw_hotkey <$> weights = sorted_str (kw_hotkey <$> weights))))
        (EC.error "global weights are not canonical") ;;
  do! raise_if (negb (bool_decide (NoDup (kw_hotkey <$> weights)))
                || negb (Zsum (kw_weight_ppm <$> weights) =? WEIGHT_PPM))
        (EC.error "global weights are not exactly normalized") ;;
  Ok {| gp_policy_digest := policy_digest;
        gp_context := context;
        gp_arena_authority_digests := arena_authority_digests;
        gp_standing := standing;
        gp_discovery := discovery;
        gp_expired_discovery_claims := expired_discovery_claims;
        gp_weights := weights |}.

(** ** Apportioning a pool *)

(** [_allocate_pool] *)
Definition _allocate_pool (credits : gmap string Z) (pool : Z) : result (gmap string Z) :=
  let positive := positive_part credits in
  let total := dict_sum positive in
  do! raise_if (total <=? 0) (EC.error "a non-empty reward pool has no positive credit") ;;
  let rows := (λ hotkey, (hotkey, dict_get positive hotkey)) <$> sorted_str (map_to_list positive).*1 in
  Ok (largest_remainder rows pool total).

(** [for hotkey, value in d.items(): combined[hotkey] = combined.get(hotkey, 0) + value] *)
Definition add_all (combined d : gmap string Z) : gmap string Z :=
  fold_left (λ m kv, dict_add m kv.1 kv.2) (map_to_list d) combined.

Section economics.
Context `{Sha256}.

Definition EmissionsPolicyManifest_digest (p : EmissionsPolicyManifest) : result string :=
  canonical_digest "optima.economics.policy" (EmissionsPolicyManifest_to_dict p) (PInt 1).

Definition rc_metagraph_digest (c : RewardProjectionContext) : string :=
  digest_of "optima.economics.metagraph-membership"
    (membership_payload (rc_current_block c) (rc_current_block_hash c) (rc_chain_scope_digest c) (rc_metagraph_members c)).

Definition RewardProjectionContext_to_dict (c : RewardProjectionContext) : pyval :=
  py_dict [
    ("chain_scope_digest", PStr (rc_chain_scope_digest c));
    ("current_block", PInt (rc_current_block c));
    ("current_block_hash", PStr (rc_current_block_hash c));
    ("metagraph_digest", PStr (rc_metagraph_digest c));
    ("metagraph_members", PList (MetagraphMember_to_dict <$> rc_metagraph_members c));
    ("stack_generation", PInt (rc_stack_generation c));
    ("validator_hotkey", PStr (rc_validator_hotkey c))].

Definition RewardProjectionContext_digest (c : RewardProjectionContext) : string :=
  digest_of "optima.economics.projection-context" (RewardProjectionContext_to_dict c).

Definition gc_metagraph_digest (c : GlobalRewardProjectionContext) : string :=
  digest_of "optima.economics.metagraph-membership"
    (membership_payload (gc_current_block c) (gc_current_block_hash c) (gc_chain_scope_digest c) (gc_metagraph_members c)).

Definition GlobalRewardProjectionContext_to_dict (c : GlobalRewardProjectionContext) : pyval :=
  py_dict [
    ("chain_scope_digest", PStr (gc_chain_scope_digest c));
    ("current_block", PInt (gc_current_block c));
    ("current_block_hash", PStr (gc_current_block_hash c));
    ("metagraph_digest", PStr (gc_metagraph_digest c));
    ("metagraph_members", PList (MetagraphMember_to_dict <$> gc_metagraph_members c));
    ("validator_hotkey", PStr (gc_validator_hotkey c))].

Definition GlobalRewardProjectionContext_digest (c : GlobalRewardProjectionContext) : string :=
  digest_of "optima.economics.global-context" (GlobalRewardProjectionContext_to_dict c).

Definition family_id (c : StandingRewardClaim) : string :=
  digest_of "optima.economics.standing-family"
    (py_dict [("arena_digest", PStr (sc_arena_digest c)); ("target_id", PStr (sc_target_id c));
              ("target_spec_digest", PStr (sc_target_spec_digest c))]).

Definition StandingRewardClaim_digest (c : StandingRewardClaim) : string :=
  digest_of "optima.economics.standing-claim" (StandingRewardClaim_to_dict c).

Definition DiscoveryBountyClaim_digest (c : DiscoveryBountyClaim) : string :=
  digest_of "optima.economics.discovery-claim" (DiscoveryBountyClaim_to_dict c).

Definition ArenaRewardAuthority_to_dict (a : ArenaRewardAuthority) : pyval :=
  py_dict [
    ("arena_digest", PStr (aa_arena_digest a));
    ("catalog_digest", PStr (tc_digest (aa_catalog a)));
    ("stack_digest", PStr (EvaluationStackManifest_digest (aa_stack a)));
    ("stack_generation", PInt (aa_stack_generation a));
    ("standing_claims", py_strs (StandingRewardClaim_digest <$> sorted_by sc_target_id (aa_standing_claims a)))].

Definition ArenaRewardAuthority_digest (a : ArenaRewardAuthority) : string :=
  digest_of "optima.economics.arena-authority" (ArenaRewardAuthority_to_dict a).

Definition RewardProjection_to_dict (r : RewardProjection) : pyval :=
  py_dict [
    ("catalog_digest", PStr (rp_catalog_digest r));
    ("context", RewardProjectionContext_to_dict (rp_context r));
    ("discovery", PList (DiscoveryBountyCredit_to_dict <$> rp_discovery r));
    ("evaluation_stack_digest", PStr (rp_evaluation_stack_digest r));
    ("expired_discovery_claims", py_strs (rp_expired_discovery_claims r));
    ("policy_digest", PStr (rp_policy_digest r));
    ("standing", PList (StandingFamilyCredit_to_dict <$> rp_standing r));
    ("weights", PList (HotkeyWeight_to_dict <$> rp_weights r))].

Definition RewardProjection_digest (r : RewardProjection) : string :=
  digest_of "optima.economics.reward-projection" (RewardProjection_to_dict r).

Definition GlobalRewardProjection_to_dict (r : GlobalRewardProjection) : pyval :=
  py_dict [
    ("arena_authority_digests", py_strs (gp_arena_authority_digests r));
    ("context", GlobalRewardProjectionContext_to_dict (gp_context r));
    ("discovery", PList (DiscoveryBountyCredit_to_dict <$> gp_discovery r));
    ("expired_discovery_claims", py_strs (gp_expired_discovery_claims r));
    ("policy_digest", PStr (gp_policy_digest r));
    ("standing", PList (StandingFamilyCredit_to_dict <$> gp_standing r));
    ("weights", PList (HotkeyWeight_to_dict <$> gp_weights r))].

Definition GlobalRewardProjection_digest (r : GlobalRewardProjection) : string :=
  digest_of "optima.economics.global-reward-projection" (GlobalRewardProjection_to_dict r).

(** ** The global projection *)

(** [family_credits] and [standing_by_hotkey] *)
Definition standing_acc : Type := list StandingFamilyCredit * gmap string Z.

(** [{row.target_id: row for row in authority.standing_claims}] *)
Definition claims_by_target (claims : list StandingRewardClaim) : gmap string StandingRewardClaim :=
  fold_left (λ m row, <[sc_target_id row := row]> m) claims ∅.

(** The inner loop body: one active target of one arena. *)
Definition standing_step (p : EmissionsPolicyManifest) (ctx : GlobalRewardProjectionContext) (a : ArenaRewardAuthority)
    (acc : standing_acc) (target_id : string) : result standing_acc :=
  let catalog := aa_catalog a in
  let stack := aa_stack a in
  let! claim := match claims_by_target (aa_standing_claims a) !! target_id with
                | Some c => Ok c
                | None => Raise (Exn KeyError target_id)
                end in
  let! contribution := match assoc (es_entries stack) target_id with
                       | Some r => Ok r
                       | None => Raise (Exn KeyError target_id)
                       end in
  do! raise_if (negb (bool_decide (sc_arena_digest claim = es_arena_digest stack)))
        (EC.error "standing claim names another arena") ;;
  let! spec := target_spec_digest catalog target_id in
  do! raise_if (negb (bool_decide (sc_target_spec_digest claim = spec))
                || negb (bool_decide (sc_target_spec_digest claim = ref_target_spec_digest contribution))
                || negb (bool_decide (sc_contribution_digest claim = ref_digest contribution)))
        (EC.error "standing claim is stale or incompatible") ;;
  do! raise_if (negb (bool_decide (sc_hotkey claim ∈ eligible_hotkeys ctx)))
        (EC.error "standing hotkey left the metagraph") ;;
  let! credit := credit_at claim (PInt (gc_current_block ctx)) p in
  Ok (acc.1 ++ [{| sf_arena_digest := es_arena_digest stack;
                   sf_family_id := family_id claim;
                   sf_target_id := target_id;
                   sf_claim_digest := StandingRewardClaim_digest claim;
                   sf_hotkey := sc_hotkey claim;
                   sf_credit := credit |}],
      dict_add acc.2 (sc_hotkey claim) credit).

Definition is_resolution_error (c : exn_class) : bool := bool_decide (c = TargetResolutionError).

(** The outer loop body: one arena. *)
Definition arena_step (p : EmissionsPolicyManifest) (ctx : GlobalRewardProjectionContext)
    (acc : standing_acc) (a : ArenaRewardAuthority) : result standing_acc :=
  let catalog := aa_catalog a in
  let stack := aa_stack a in
  do! raise_if (negb (bool_decide (es_catalog_digest stack = tc_digest catalog))
                || negb (py_eq (es_catalog_snapshot stack) (tc_snapshot catalog)))
        (EC.error "evaluation stack and reward catalog differ") ;;
  let! active_targets := reraise is_resolution_error
    (λ _, EC.error "active reward families overlap or are incomplete")
    (validate_active_targets catalog (es_entries stack).*1) in
  do! raise_if (is_nil active_targets) (EC.error "every registered arena requires an active crown") ;;
  let by_target := claims_by_target (aa_standing_claims a) in
  do! raise_if (negb (size by_target =? length (aa_standing_claims a))%nat
                || negb (bool_decide (dom by_target = (list_to_set active_targets : gset string))))
        (EC.error "every active target requires exactly one standing claim") ;;
  foldM (standing_step p ctx a) active_targets acc.

(** [live], [expired] and [discovery_by_hotkey] *)
Definition discovery_acc : Type := list DiscoveryBountyCredit * list string * gmap string Z.

Definition discovery_loop_step (p : EmissionsPolicyManifest) (ctx : GlobalRewardProjectionContext)
    (acc : discovery_acc) (claim : DiscoveryBountyClaim) : result discovery_acc :=
  let '(live, expired, by_hotkey) := acc in
  let! alive := bounty_live_at claim (PInt (gc_current_block ctx)) p in
  if alive then
    do! raise_if (negb (bool_decide (bc_hotkey claim ∈ eligible_hotkeys ctx)))
          (EC.error "a live discovery hotkey left the metagraph") ;;
    Ok (live ++ [{| bcr_claim_digest := DiscoveryBountyClaim_digest claim;
                    bcr_hotkey := bc_hotkey claim;
                    bcr_credit := bc_bounty_units claim |}],
        expired, dict_add by_hotkey (bc_hotkey claim) (bc_bounty_units claim))
  else Ok (live, expired ++ [DiscoveryBountyClaim_digest claim], by_hotkey).

Definition project_global_rewards (p : EmissionsPolicyManifest) (ctx : GlobalRewardProjectionContext)
    (arenas : list ArenaRewardAuthority) (discoveries : list DiscoveryBountyClaim) : result GlobalRewardProjection :=
  do! raise_if (is_nil arenas) (EC.error "global projection requires typed arena authorities") ;;
  do! raise_if (negb (bool_decide (NoDup (aa_arena_digest <$> arenas))))
        (EC.error "global projection contains duplicate arenas") ;;
  let authorities := sorted_by aa_arena_digest arenas in
  let! standing := foldM (arena_step p ctx) authorities ([], ∅) in
  let '(family_credits, standing_by_hotkey) := standing in
  do! raise_if (bool_decide (map_Forall (λ _ v, v = 0) standing_by_hotkey))
        (EC.error "all standing crown credit has decayed to zero") ;;
  do! raise_if (negb (bool_decide (NoDup (bc_proposal_digest <$> discoveries)))
                || negb (bool_decide (NoDup (bc_retained_evidence_digest <$> discoveries)))
                || negb (bool_decide (NoDup (DiscoveryBountyClaim_digest <$> discoveries))))
        (EC.error "discovery claims are renewed or duplicated") ;;
  let! discovery := foldM (discovery_loop_step p ctx) (sorted_by DiscoveryBountyClaim_digest discoveries) ([], [], ∅) in
  let '(live, expired, discovery_by_hotkey) := discovery in
  let discovery_pool := if is_nil live then 0 else em_discovery_pool_ppm p in
  do! raise_if (negb (is_nil live) && (discovery_pool =? 0))
        (EC.error "live discovery claims exist while bounties are disabled") ;;
  let standing_pool := WEIGHT_PPM - discovery_pool in
  let! combined := _allocate_pool standing_by_hotkey standing_pool in
  let! combined := (if is_nil live then Ok combined
                    else let! shares := _allocate_pool discovery_by_hotkey discovery_pool in
                         Ok (add_all combined shares)) in
  let weights := (λ hotkey, {| kw_hotkey := hotkey; kw_weight_ppm := dict_get combined hotkey |})
                   <$> sorted_str (map_to_list combined).*1 in
  let! policy_digest := EmissionsPolicyManifest_digest p in
  GlobalRewardProjection_init (PStr policy_digest) ctx (sorted_str (ArenaRewardAuthority_digest <$> authorities))
    family_credits live expired weights.

Definition project_rewards (p : EmissionsPolicyManifest) (catalog : TargetCatalog) (stack : EvaluationStackManifest)
    (ctx : RewardProjectionContext) (standing_claims : list StandingRewardClaim)
    (discoveries : list DiscoveryBountyClaim) : result RewardProjection :=
  let! authority := ArenaRewardAuthority_init catalog stack (PInt (rc_stack_generation ctx)) standing_claims in
  let! global_context := GlobalRewardProjectionContext_init (PStr (rc_chain_scope_digest ctx))
    (PStr (rc_validator_hotkey ctx)) (PInt (rc_current_block ctx)) (PStr (rc_current_block_hash ctx))
    (rc_metagraph_members ctx) in
  let! result := project_global_rewards p global_context [authority] discoveries in
  RewardProjection_init (PStr (gp_policy_digest result)) (PStr (tc_digest catalog))
    (PStr (EvaluationStackManifest_digest stack)) ctx (gp_standing result) (gp_discovery result)
    (gp_expired_discovery_claims result) (gp_weights result).
End economics.

#[global] Arguments StandingRewardClaim_digest : simpl never.
#[global] Arguments DiscoveryBountyClaim_digest : simpl never.
#[global] Arguments ArenaRewardAuthority_digest : simpl never.
#[global] Arguments EmissionsPolicyManifest_digest : simpl never.
#[global] Arguments family_id : simpl never.
