(* ===== verification/FiniteDebtCorrect.v ===== *)
(** * What finite debt guarantees

    The properties of [finite_debt.py], stated on the operations themselves. *)

From Stdlib Require Import ZArith Lia Ascii.
From stdpp Require Import base tactics numbers list strings gmap sorting relations.
From S2P Require Import Prelude PyValue Sha256 Identity Strict Apportion Decimal FiniteDebt FiniteDebtBalance FiniteDebtPolicy.
From S2P Require Import FiniteDebtEpoch FiniteDebtClaims.

Section correct.
Context `{Sha256}.

(** ** Epochs *)

(** C1: a projected epoch conserves its units.  The allocations add up to the
    payout, the payout is the smaller of the claim pool and of what the open
    claims still owe, the reserve takes the rest of the million units, and the
    published hotkey weights add up to exactly one million. *)
Theorem epoch_conserves p block states d :
  policy_wf p → ledger_inv states → project_debt_epoch p block states = Ok d →
  dp_payout_units d = Z.min (reference_claim_pool_units p) (owed states) ∧
  Zsum (da_units <$> dp_allocations d) = dp_payout_units d ∧
  dp_reserve_units d = 1000000 - dp_payout_units d ∧
  Zsum (hw_units <$> dp_weights d) = 1000000.
Proof.
  intros Hp Hi%ledger_inv_wf Hd.
  apply project_debt_epoch_Ok in Hd as (b & pd & -> & Hb & Hk & Hc & _ & _ & _ & _ & ->); [|done..].
  rewrite <- owed_sorted. split; [done|]. split; [by apply epoch_allocations_sum|]. split; [done|].
  by apply epoch_weights_sum with (block := b).
Qed.

(** C38: no hotkey is paid more than its claims.  Every allocation belongs to an
    open claim of the input and to its owner, is at least one unit, never
    exceeds the claim's remaining principal, and differs from the exact
    proportional share by less than one unit. *)
Theorem epoch_allocations_fair p block states d a :
  policy_wf p → ledger_inv states → project_debt_epoch p block states = Ok d → a ∈ dp_allocations d →
  ∃ s, s ∈ states ∧ is_open s = true ∧ da_claim_digest a = claim_key s ∧ da_hotkey a = ic_hotkey (ds_claim s) ∧
    1 ≤ da_units a ≤ remaining s ∧
    Z.abs (da_units a * owed states - remaining s * dp_payout_units d) < owed states.
Proof.
  intros Hp Hi%ledger_inv_wf Hd Ha.
  apply project_debt_epoch_Ok in Hd as (b & pd & -> & Hb & Hk & Hc & _ & _ & _ & _ & ->); [|done..].
  apply list_elem_of_fmap in Ha as (s & -> & [Hpos Hs]%paid_rows_elem).
  pose proof (epoch_share_bounds p states Hp Hi Hk s Hs) as [Hle Hq].
  exists s. pose proof Hs as [Hin Ho]%open_rows_elem. rewrite <- owed_sorted.
  cbn [da_claim_digest da_hotkey da_units epoch_allocation dp_payout_units epoch_projection].
  split_and!; try done; try lia. unfold is_open. by apply bool_decide_eq_true_2.
Qed.

(** The projection of an epoch can always be applied to the states it was
    computed from: the application succeeds, keeps every invariant of the
    ledger, and moves exactly the payout from owed to paid. *)
Theorem epoch_applies p block states d :
  policy_wf p → ledger_inv states → project_debt_epoch p (PInt block) states = Ok d →
  ∃ states', apply_debt_epoch_projection states d = Ok states' ∧ ledger_inv states' ∧
    claim_key <$> states' = claim_key <$> sorted_by claim_key states ∧
    owed states' = owed states - dp_payout_units d ∧
    paid_total states' = paid_total states + dp_payout_units d.
Proof.
  intros Hp Hi Hd. pose proof Hd as Hd'. pose proof (ledger_inv_wf _ Hi) as Hwf.
  apply project_debt_epoch_Ok in Hd' as (b & pd & [= <-] & Hb & Hk & Hc & _ & _ & _ & _ & E); [|done..].
  pose proof (apply_epoch p block states Hp Hwf Hk Hc (ledger_inv_balance _ Hi) Hb pd) as Ha. rewrite <- E in Ha.
  exists (settled p block states <$> sorted_by claim_key states). split; [done|].
  destruct (epoch_step_spec p block states _ Hp Hi (ex_intro _ d (conj Hd Ha))) as (Hinv & Hkeys & Ho & Hpaid).
  rewrite E. change (dp_payout_units _) with (epoch_payout p states). unfold epoch_payout. rewrite owed_sorted. done.
Qed.

(** C31: debt is paid off.  Every run of [n] epochs leaves
    [max 0 (owed - n * pool)] owed, so any number of epochs whose pools cover
    the debt leaves nothing owed. *)
Theorem epochs_pay_off p blocks states states' :
  policy_wf p → ledger_inv states → epoch_run p blocks states states' →
  ledger_inv states' ∧
  owed states' = Z.max 0 (owed states - Z.of_nat (length blocks) * reference_claim_pool_units p).
Proof. apply epoch_run_drains. Qed.

(** The projection is a function of the set of claim states: the order in
    which they are supplied never matters, for results and for errors. *)
Theorem epoch_order_independent p block states1 states2 :
  states1 ≡ₚ states2 → project_debt_epoch p block states1 = project_debt_epoch p block states2.
Proof.
  intros Hperm. unfold project_debt_epoch. destruct (FD._integer (Some 0) None block) as [b|e]; [|done]. cbn [bind].
  destruct (decide (NoDup (claim_key <$> states1))) as [Hnd|Hnd].
  - assert (NoDup (claim_key <$> states2)) as Hnd2 by by rewrite <- Hperm.
    rewrite (bool_decide_eq_true_2 _ Hnd), (bool_decide_eq_true_2 _ Hnd2).
    by rewrite (sorted_by_perm_eq claim_key states1 states2 Hnd Hperm).
  - assert (¬ NoDup (claim_key <$> states2)) as Hnd2 by by rewrite <- Hperm.
    by rewrite (bool_decide_eq_false_2 _ Hnd), (bool_decide_eq_false_2 _ Hnd2).
Qed.

(** Exactly when a projection succeeds, and what it returns.  The block is
    a non-negative integer, claims are distinct, every claim re-derives from
    the policy, every open claim is inside its window and not owned by the
    reserve, and the digests involved are admissible; nothing else is refused. *)
Theorem epoch_succeeds_iff p eb states d :
  policy_wf p → ledger_inv states →
  project_debt_epoch p eb states = Ok d ↔
  ∃ block pd, eb = PInt block ∧ 0 ≤ block ∧ NoDup (claim_key <$> states) ∧
    Forall (λ s, check_epoch_state p block s = Ok tt) states ∧
    FiniteDebtPolicyManifest_digest p = Ok pd ∧ digest_ok pd ∧
    NoDup (state_digests states) ∧ Forall digest_ok (state_digests states) ∧
    d = epoch_projection p block states pd.
Proof. intros Hp Hi. apply project_debt_epoch_Ok; [done | by apply ledger_inv_wf]. Qed.

(** ** Balances *)

(** In every state a balance can reach from the opening of its claim by
    payments, expirations and cancellations, principal is conserved, no part is
    negative, the balance belongs to its claim, and the status says what the
    amounts are: open has something left and nothing forfeited, paid is paid in
    full, expired and cancelled forfeited what was left. *)
Theorem balance_lifecycle c b0 b :
  claim_wf c → DebtClaimBalance_open c = Ok b0 → rtc (balance_step c) b0 b →
  db_paid_units b + db_forfeited_units b + db_remaining_units b = ic_principal_units c ∧
  0 ≤ db_paid_units b ∧ 0 ≤ db_forfeited_units b ∧ 0 ≤ db_remaining_units b ∧
  db_claim_digest b = InnovationDebtClaim_digest c ∧
  (db_status b = "open" → 0 < db_remaining_units b ∧ db_forfeited_units b = 0) ∧
  (db_status b = "paid" → db_paid_units b = ic_principal_units c) ∧
  (db_status b = "expired" ∨ db_status b = "cancelled" → db_remaining_units b = 0 ∧ 0 < db_forfeited_units b).
Proof.
  intros Hc Ho Hr. assert (ic_settlement_block c < ic_expires_block c) by apply Hc.
  pose proof (balance_reachable_inv c b0 b ltac:(done) (balance_inv_open c b0 Ho) Hr) as (Hwf & Hs & Hf).
  apply DebtClaimState_init_Ok in Hs as (_ & [Hd Hpr] & _). pose proof Hwf as (_ & _ & ? & ? & ? & Hsum & _ & _ & Hph).
  rewrite <- Hpr. split_and!; try done.
  - intros Hop. split; [by apply balance_wf_open | by apply Hf].
  - intros Hst. unfold balance_phase in Hph. rewrite Hst in Hph. simpl in Hph. apply Hph.
  - intros Hst. unfold balance_phase in Hph. destruct Hst as [Hst|Hst]; rewrite Hst in Hph; simpl in Hph; split; apply Hph.
Qed.

(** What was paid or forfeited is never taken back, and a closed balance is
    final: no later operation changes it. *)
Theorem balance_monotone c b b' :
  claim_wf c → balance_inv c b → rtc (balance_step c) b b' →
  db_paid_units b ≤ db_paid_units b' ∧ db_forfeited_units b ≤ db_forfeited_units b' ∧
  db_remaining_units b' ≤ db_remaining_units b ∧ (db_status b ≠ "open" → b' = b).
Proof.
  intros Hc Hi Hr. assert (ic_settlement_block c < ic_expires_block c) as Hlt by apply Hc.
  induction Hr as [b|b b1 b' Hs Hr IH]; [split_and!; try lia; done|].
  pose proof (balance_step_inv c b b1 Hlt Hi Hs) as Hi1.
  destruct (balance_step_mono c b b1 (proj1 Hi) Hs) as (H1 & H2 & H3 & H4).
  destruct (IH Hi1) as (H5 & H6 & H7 & H8). split_and!; try lia.
  intros Ho. specialize (H4 Ho) as ->. by apply H8.
Qed.

(** A payment succeeds exactly when the balance belongs to the claim and is
    open, the amount is a positive integer within the remaining principal, the
    block lies in the claim's window, and a last payment finds nothing
    forfeited; it then adds the amount to the paid units and closes the balance
    when nothing remains. *)
Theorem payment_spec c b amount at_block b' :
  balance_wf b →
  pay_claim_balance c b amount at_block = Ok b' ↔
  linked c b ∧ db_status b = "open" ∧
  ∃ a t, amount = PInt a ∧ at_block = PInt t ∧ 1 ≤ a ≤ db_remaining_units b ∧ live_at c t ∧
    (a = db_remaining_units b → db_forfeited_units b = 0) ∧ b' = paid_balance b a t.
Proof. apply pay_claim_balance_Ok. Qed.

(** An open balance that already forfeited units is accepted by the
    constructor, but its last payment always raises: such a claim can never be
    paid off. *)
Theorem forfeited_open_balance_stuck c b at_block :
  balance_wf b → db_status b = "open" → 0 < db_forfeited_units b →
  balance_of b = Ok b ∧ ∀ b', pay_claim_balance c b (PInt (db_remaining_units b)) at_block ≠ Ok b'.
Proof.
  intros Hwf Ho Hf. split; [by apply balance_of_Ok|]. intros b' Hp.
  apply pay_claim_balance_Ok in Hp as (_ & _ & a & t & [= <-] & _ & _ & _ & Hz & _); [|done]. specialize (Hz eq_refl). lia.
Qed.

(** ** Issuance *)

(** Issuance succeeds exactly on these inputs and returns exactly this
    claim: family and candidate are valid digests, the family is mapped, the
    speedup's log units are positive, the crown is not newer than the
    settlement nor older than the prior crown, and the principal does not round
    to zero.  The claim's budget is its campaign's equal share, and the code's
    own re-validation of the claim never rejects it. *)
Theorem issuance_spec p a1 a2 a3 a4 a5 a6 a7 a8 a9 c :
  policy_wf p →
  issue_innovation_claim p a1 a2 a3 a4 a5 a6 a7 a8 a9 = Ok c ↔
  ∃ pd family campaign candidate evidence hotkey speed threshold accepted settled prior units,
    [a1; a2; a3; a4; a5; a6] = PStr <$> [family; candidate; evidence; hotkey; speed; threshold] ∧
    a7 = PInt accepted ∧ a8 = py_opt_int prior ∧ a9 = PInt settled ∧
    FiniteDebtPolicyManifest_digest p = Ok pd ∧ Forall digest_ok [pd; family; candidate; evidence] ∧
    find_family (fp_reward_family_campaigns p) family = Ok campaign ∧ hotkey_matches hotkey = true ∧
    log_improvement_units_ppm (PStr speed) (fp_improvement_basis p) (PStr threshold) = Ok units ∧
    0 ≤ accepted ≤ settled ∧ prior_ok accepted prior ∧
    0 < claim_principal p units (multiplier_of p accepted prior) ∧
    c = issued_claim p pd family campaign candidate evidence hotkey speed threshold accepted settled prior units.
Proof. apply issue_innovation_claim_Ok. Qed.

(** An issued claim opens, and from its settlement to its expiry the epoch
    projection accepts the claim with its open balance (unless the reserve
    hotkey owns it). *)
Theorem issued_claim_is_payable p a1 a2 a3 a4 a5 a6 a7 a8 a9 c block :
  policy_wf p → issue_innovation_claim p a1 a2 a3 a4 a5 a6 a7 a8 a9 = Ok c →
  digest_ok (InnovationDebtClaim_digest c) → ic_hotkey c ≠ fp_reserve_hotkey p →
  ic_settlement_block c ≤ block < ic_settlement_block c + fp_lifetime_blocks p →
  ∃ b, DebtClaimBalance_open c = Ok b ∧ ledger_inv [{| ds_claim := c; ds_balance := b |}] ∧
    check_epoch_state p block {| ds_claim := c; ds_balance := b |} = Ok tt.
Proof.
  intros Hp Hi Hd Hh Hb. pose proof Hi as Hi'.
  apply issue_innovation_claim_Ok in Hi' as (pd & family & campaign & candidate & evidence & hotkey & speed & threshold
    & accepted & settled & prior & units & _ & _ & _ & _ & _ & _ & _ & _ & _ & _ & _ & _ & E); [|done].
  destruct (issued_wf _ _ _ _ _ _ _ _ _ _ _ Hi) as [Hc Hv].
  destruct (DebtClaimBalance_open c) as [b|e] eqn:Ho.
  - pose proof (balance_inv_open c b Ho) as Hinv. exists b. split; [done|]. split; [by apply Forall_singleton|].
    apply check_epoch_state_Ok. split; [done|]. intros _. split; [done|]. rewrite E in *. simpl in *. lia.
  - exfalso. assert (1 ≤ ic_principal_units c) by apply Hc.
    unfold DebtClaimBalance_open, DebtClaimBalance_init in Ho. revert Ho. fd_run. pass_guard. by pass_guard.
Qed.

(** The time multiplier is defined for every crown that is not older than
    the previous one, lies between one and [1 + beta], and never falls when the
    family waited longer. *)
Theorem time_multiplier_sound p prior current later :
  policy_wf p → 0 ≤ prior ≤ current → current ≤ later →
  ∃ m1 m2, rational_time_multiplier_ppm p (PInt current) (PInt prior) = Ok m1 ∧
    rational_time_multiplier_ppm p (PInt later) (PInt prior) = Ok m2 ∧
    PPM ≤ m1 ≤ m2 ∧ m2 ≤ PPM + fp_beta_ppm p.
Proof.
  intros Hp Hc Hl. exists (time_multiplier p (current - prior)), (time_multiplier p (later - prior)).
  change (PInt prior) with (py_opt_int (Some prior)).
  rewrite !rational_time_multiplier_spec by (done || lia || (intros ? [= <-]; lia)).
  rewrite !(proj2 (Z.ltb_ge _ _)) by lia.
  pose proof (time_multiplier_bounds p (current - prior) Hp ltac:(lia)).
  pose proof (time_multiplier_bounds p (later - prior) Hp ltac:(lia)).
  pose proof (time_multiplier_mono p (current - prior) (later - prior) Hp ltac:(lia)). split_and!; try done; lia.
Qed.

(** ** Policies *)

(** A policy does not depend on the order in which its campaign and family
    rows are listed; neither do the errors. *)
Theorem policy_order_independent shares1 shares2 maps1 maps2 a1 a2 a3 a4 a5 a6 a7 a8 a9 a10 a11 a12 :
  shares1 ≡ₚ shares2 → maps1 ≡ₚ maps2 →
  FiniteDebtPolicyManifest_init shares1 maps1 a1 a2 a3 a4 a5 a6 a7 a8 a9 a10 a11 a12 =
  FiniteDebtPolicyManifest_init shares2 maps2 a1 a2 a3 a4 a5 a6 a7 a8 a9 a10 a11 a12.
Proof.
  intros Hs Hm. unfold FiniteDebtPolicyManifest_init.
  assert (∀ A (key : A → string) l1 l2, l1 ≡ₚ l2 →
    is_nil (sorted_by key l1) = is_nil (sorted_by key l2) ∧
    bool_decide (NoDup (key <$> sorted_by key l1)) = bool_decide (NoDup (key <$> sorted_by key l2)) ∧
    (bool_decide (NoDup (key <$> sorted_by key l1)) = true → sorted_by key l1 = sorted_by key l2)) as Hsort.
  { intros A key l1 l2 Hp. assert (sorted_by key l1 ≡ₚ sorted_by key l2) as Hp' by by rewrite !sorted_by_perm.
    split_and!.
    - apply Permutation_length in Hp'. by destruct (sorted_by key l1), (sorted_by key l2).
    - apply bool_decide_ext. by rewrite Hp'.
    - intros Hnd. bool_prop. rewrite sorted_by_perm in Hnd. by apply sorted_by_perm_eq. }
  destruct (Hsort _ cbs_campaign_id shares1 shares2 Hs) as (N1 & D1 & S1).
  destruct (Hsort _ rfc_family_id maps1 maps2 Hm) as (N2 & D2 & S2).
  apply bind_cong; [by rewrite N1, D1|]. intros u Hu. apply raise_if_Ok, orb_false_iff in Hu as [_ Hu].
  apply negb_false_iff in Hu. rewrite (S1 Hu).
  apply bind_cong; [done|]. intros equal _. apply bind_cong; [done|]. intros u' _.
  assert (list_to_set (rfc_campaign_id <$> sorted_by rfc_family_id maps1)
    = (list_to_set (rfc_campaign_id <$> sorted_by rfc_family_id maps2) : gset string)) as ->.
  { apply set_eq. intros c. rewrite !elem_of_list_to_set. by rewrite !sorted_by_perm, Hm. }
  apply bind_cong; [by rewrite N2, D2|]. intros v Hv. apply raise_if_Ok in Hv.
  apply orb_false_iff in Hv as [Hv _]. apply orb_false_iff in Hv as [_ Hv]. apply negb_false_iff in Hv.
  by rewrite (S2 Hv).
Qed.

(** An accepted policy splits the whole budget equally over its one or two
    campaigns, serves every campaign with a family and every family with one of
    its campaigns, and leaves every campaign a positive claim pool. *)
Theorem policy_budget_complete shares mappings a1 a2 a3 a4 a5 a6 a7 a8 a9 a10 a11 a12 p :
  FiniteDebtPolicyManifest_init shares mappings a1 a2 a3 a4 a5 a6 a7 a8 a9 a10 a11 a12 = Ok p →
  Forall mapping_wf mappings →
  policy_wf p ∧ Zsum (cbs_share_ppm <$> fp_campaign_budget_shares p) = PPM ∧ 0 < campaign_pool p ∧
  ∀ family, family ∈ family_ids p → ∃ campaign, campaign_for_family p (PStr family) = Ok campaign ∧
    campaign ∈ cbs_campaign_id <$> fp_campaign_budget_shares p ∧
    campaign_share_ppm_for_family p (PStr family) = Ok (campaign_share p).
Proof.
  intros Hi Hm. destruct (FiniteDebtPolicyManifest_init_wf _ _ _ _ _ _ _ _ _ _ _ _ _ _ _ Hi Hm) as (Hp & _ & _).
  split; [done|]. split.
  { destruct (pw_shares p Hp) as (ids & _ & _ & Hlen & _ & ->). unfold equal_shares. rewrite <- list_fmap_compose.
    destruct ids as [|c1 [|c2 [|]]]; simpl in Hlen; try lia; done. }
  split; [by apply campaign_pool_pos|]. intros family Hf.
  destruct (find_family_total _ _ Hf) as [campaign Hc]. exists campaign.
  assert (digest_ok family) as Df.
  { apply find_family_Ok in Hc as (row & Hrow & <- & _). destruct (pw_mappings p Hp) as (_ & _ & _ & Hw).
    rewrite Forall_forall in Hw. by apply Hw. }
  split; [unfold campaign_for_family; by rewrite FD_digest_ok|]. split; [|by eapply campaign_share_for_family].
  apply find_family_Ok in Hc as (row & Hrow & _ & <-). apply (pw_campaigns p Hp). by apply list_elem_of_fmap_2.
Qed.

(** ** Records on disk *)

(** A stored policy and the stored claim states of a ledger are read back
    exactly from the dictionaries they are written as. *)
Theorem debt_records_read_back shares mappings a1 a2 a3 a4 a5 a6 a7 a8 a9 a10 a11 a12 p states :
  FiniteDebtPolicyManifest_init shares mappings a1 a2 a3 a4 a5 a6 a7 a8 a9 a10 a11 a12 = Ok p →
  Forall mapping_wf mappings → ledger_inv states →
  FiniteDebtPolicyManifest_from_dict (FiniteDebtPolicyManifest_to_dict p) = Ok p ∧
  mapM DebtClaimState_from_dict (DebtClaimState_to_dict <$> states) = Ok states.
Proof.
  intros Hi Hm Hs%ledger_inv_wf. split; [|exact (mapM_roundtrip _ _ _ _ state_roundtrip Hs)]. apply policy_roundtrip.
  by destruct (FiniteDebtPolicyManifest_init_wf _ _ _ _ _ _ _ _ _ _ _ _ _ _ _ Hi Hm).
Qed.

(** A retained projection is read back exactly. *)
Theorem projection_read_back p block states d :
  policy_wf p → ledger_inv states → project_debt_epoch p block states = Ok d →
  DebtEpochProjection_from_dict (DebtEpochProjection_to_dict d) = Ok d.
Proof.
  intros Hp Hi%ledger_inv_wf Hd.
  apply project_debt_epoch_Ok in Hd as (b & pd & -> & Hb & Hk & Hc & _ & Dpd & Hnd & Hds & ->); [|done..].
  eapply projection_roundtrip.
  - by apply (DebtEpochProjection_init_epoch p b states Hp Hi Hk Hc pd).
  - apply Forall_fmap, Forall_forall. intros s Hs. destruct (paid_rows_check p b states Hi Hc s Hs) as [Hh _].
    apply paid_rows_elem in Hs as [Hpos [Hs _]%open_rows_elem]. split; [|split; [done | simpl; lia]].
    apply state_wf_key. rewrite Forall_forall in Hi. by apply Hi.
  - apply Forall_forall. intros w Hw. apply weight_rows_elem in Hw as [v [Hv Hu]].
    destruct (epoch_by_hotkey_ok p b states Hp Hi Hk Hc _ _ Hv). unfold weight_wf. by rewrite Hu.
Qed.
End correct.

(** ** Log units *)

(** The 80-digit decimal arithmetic of the log units on reference vectors:
    one and two exact steps of 1.01 give exactly one and two million units, an
    excess over a threshold is the log of the ratio, and a speedup at its
    threshold, a non-canonical decimal, or an improvement below one part per
    million of a step is refused. *)
Theorem log_units_vectors :
  log_improvement_units_ppm (PStr "1.01") IMPROVEMENT_GROSS (PStr "1") = Ok 1000000 ∧
  log_improvement_units_ppm (PStr "1.0201") IMPROVEMENT_GROSS (PStr "1") = Ok 2000000 ∧
  log_improvement_units_ppm (PStr "1.0201") IMPROVEMENT_EXCESS (PStr "1.01") = Ok 1000000 ∧
  is_ok (log_improvement_units_ppm (PStr "1.01") IMPROVEMENT_EXCESS (PStr "1.01")) = false ∧
  is_ok (log_improvement_units_ppm (PStr "1.010") IMPROVEMENT_GROSS (PStr "1")) = false ∧
  is_ok (log_improvement_units_ppm (PStr "1.000000001") IMPROVEMENT_GROSS (PStr "1")) = false.
Proof. split_and!; vm_compute; reflexivity. Qed.
