(* ===== verification/CompositionCorrect.v ===== *)
(** * What the composition guarantees

    The properties of [incentive_composition.py], stated on the operations
    themselves. *)

From Stdlib Require Import ZArith Lia Ascii.
From stdpp Require Import base tactics numbers list strings gmap sorting relations.
From S2P Require Import Prelude PyValue Sha256 Identity Strict Apportion Decimal FiniteDebt FiniteDebtBalance FiniteDebtPolicy.
From S2P Require Import FiniteDebtEpoch FiniteDebtClaims Composition Ledger CompositionFacts CompositionEpoch.

Section correct.
Context `{Sha256}.

(** What the open claims of a class still owe. *)
Definition class_owed {S} `{ClaimLedger S} (states : list S) : Z := Zsum (cl_remaining <$> filter cl_open states).

Lemma class_total_owed {S} `{ClaimLedger S} (states : list S) : class_total states = class_owed states.
Proof. unfold class_total, class_owed, class_open. by rewrite (sorted_by_perm cl_key states). Qed.

(** C2: a composed epoch pays discovery debt first, up to its cap, then
    innovation debt from what is left above the reserve floor, and hands
    everything else to the reserve.  Class allocations add up to the class
    payouts, the reserve never falls below its floor, and the published weights
    add up to exactly one million. *)
Theorem composed_conserves fp cp eb inns discs d :
  policy_wf fp → cpolicy_wf cp → Forall cl_wf inns → Forall cl_wf discs →
  project_composed_epoch fp cp eb inns discs = Ok d →
  ep_discovery_payout_units d = Z.min (cp_discovery_cap_units cp) (class_owed discs) ∧
  ep_innovation_payout_units d =
    Z.min (1000000 - cp_reserve_ppm cp - ep_discovery_payout_units d) (class_owed inns) ∧
  Zsum (ca_units <$> ep_discovery_allocations d) = ep_discovery_payout_units d ∧
  Zsum (ca_units <$> ep_innovation_allocations d) = ep_innovation_payout_units d ∧
  ep_reserve_units d = 1000000 - ep_discovery_payout_units d - ep_innovation_payout_units d ∧
  cp_reserve_ppm cp ≤ ep_reserve_units d ∧
  Zsum (hw_units <$> ep_weights d) = 1000000.
Proof.
  intros Hfp Hcp Hi Hd Hp.
  apply project_composed_epoch_Ok in Hp as (b & cd & idg & -> & Hb & _ & Ki & Kd & Ci & Cd & _ & _ & _ & _ & _ & _ & _ & ->); [|done..].
  rewrite <- !class_total_owed. split; [done|]. split; [done|].
  split; [by apply (class_allocations_sum discs _ Hd Kd), discovery_cap_bounds|].
  split; [by apply (class_allocations_sum inns _ Hi Ki), innovation_capacity_ppm|]. split; [done|].
  split; [by apply composed_reserve_bounds|]. by apply (composed_weights_sum fp cp b inns discs).
Qed.

(** A composed projection can always be applied to the states it was
    computed from.  Both classes keep their invariants and their claims, and
    every claim's payment is what leaves its remaining principal; each class
    pays exactly its payout. *)
Theorem composed_applies fp cp eb inns discs d :
  policy_wf fp → cpolicy_wf cp → Forall cl_wf inns → Forall cl_wf discs →
  project_composed_epoch fp cp eb inns discs = Ok d →
  ∃ inns' discs', apply_composed_epoch inns discs d = Ok (inns', discs') ∧
    Forall cl_wf inns' ∧ Forall cl_wf discs' ∧
    cl_key <$> inns' = cl_key <$> sorted_by cl_key inns ∧ cl_key <$> discs' = cl_key <$> sorted_by cl_key discs ∧
    Zsum (cl_paid <$> inns') = Zsum (cl_paid <$> inns) + ep_innovation_payout_units d ∧
    Zsum (cl_paid <$> discs') = Zsum (cl_paid <$> discs) + ep_discovery_payout_units d.
Proof.
  intros Hfp Hcp Hi Hd Hp.
  apply project_composed_epoch_Ok in Hp as (b & cd & idg & -> & Hb & _ & Ki & Kd & Ci & Cd & _ & _ & _ & _ & _ & _ & _ & ->); [|done..].
  destruct (apply_composed fp cp b inns discs Hcp Hb Hi Hd Ki Kd Ci Cd cd idg) as (inns' & discs' & Ha & Fi & Fd).
  exists inns', discs'. split; [done|].
  assert (∀ (S : Type) (L : ClaimLedger S) (states l l' : list S) cap, Forall2 (class_paid_state states cap) l l' →
    Forall cl_wf l' ∧ cl_key <$> l' = cl_key <$> l ∧
    Zsum (cl_paid <$> l') = Zsum (cl_paid <$> l) + Zsum (class_share states cap <$> l)) as Hall.
  { intros S L states l l' cap Hf. induction Hf as [|s s' l l' (Hw & Hk & Hpd & _) Hl (IH1 & IH2 & IH3)]; [done|].
    csimpl. rewrite !Zsum_cons, IH2, IH3, Hk, Hpd. split_and!; [by constructor | done | lia]. }
  destruct (Hall _ _ _ _ _ _ Fi) as (Wi & Ei & Si). destruct (Hall _ _ _ _ _ _ Fd) as (Wd & Ed & Sd).
  pose proof (class_shares_total inns _ Hi Ki (innovation_capacity_ppm cp discs Hcp Hd)) as Ti.
  pose proof (class_shares_total discs _ Hd Kd (discovery_cap_bounds cp Hcp)) as Td.
  change (sorted_by claim_key inns) with (sorted_by cl_key inns) in *.
  change (sorted_by discovery_key discs) with (sorted_by cl_key discs) in *.
  rewrite Ti in Si. rewrite Td in Sd. split_and!; try done.
  - by rewrite Si, (sorted_by_perm cl_key inns).
  - by rewrite Sd, (sorted_by_perm cl_key discs).
Qed.

(** C40: with valid policies and states, an epoch whose payouts use up all
    million units (possible exactly when the policy's reserve is zero) is not
    projected: the reserve's zero weight raises a [FiniteDebtError]. *)
Theorem composed_zero_reserve_raises fp cp block inns discs :
  policy_wf fp → cpolicy_wf cp → Forall cl_wf inns → Forall cl_wf discs → 0 ≤ block →
  NoDup (cl_key <$> inns) → NoDup (cl_key <$> discs) →
  Forall (λ s, check_innovation_state fp block s = Ok tt) inns →
  Forall (λ s, check_discovery_state cp block (fp_reserve_hotkey fp) s = Ok tt) discs →
  validate_innovation_policy cp fp = Ok tt →
  composed_reserve cp inns discs = 0 →
  project_composed_epoch fp cp (PInt block) inns discs = Raise zero_weight_error.
Proof.
  intros Hfp Hcp Hi Hd Hb Ki Kd Ci Cd Hv Hr. rewrite composed_prefix, Hr by done.
  by rewrite (reserve_weight_raises fp cp block inns discs).
Qed.

(** The composed projection is a function of the two sets of claim states;
    the order in which they are supplied never matters. *)
Theorem composed_order_independent fp cp eb inns1 inns2 discs1 discs2 :
  inns1 ≡ₚ inns2 → discs1 ≡ₚ discs2 →
  project_composed_epoch fp cp eb inns1 discs1 = project_composed_epoch fp cp eb inns2 discs2.
Proof.
  intros Hi Hd. unfold project_composed_epoch. apply bind_cong; [done|]. intros _ _.
  apply bind_cong; [done|]. intros b _.
  assert (∀ states1 states2, states1 ≡ₚ states2 →
    _canonical_innovation_states fp states1 b = _canonical_innovation_states fp states2 b) as Ei.
  { intros s1 s2 Hs. unfold _canonical_innovation_states.
    apply bind_cong; [f_equal; f_equal; apply bool_decide_ext; by rewrite !sorted_by_perm, Hs|].
    intros u Hu. apply raise_if_Ok in Hu. bool_prop. rewrite sorted_by_perm in Hu. by rewrite (sorted_by_perm_eq claim_key s1 s2). }
  assert (∀ states1 states2, states1 ≡ₚ states2 →
    _canonical_discovery_states cp states1 b (fp_reserve_hotkey fp)
      = _canonical_discovery_states cp states2 b (fp_reserve_hotkey fp)) as Ed.
  { intros s1 s2 Hs. unfold _canonical_discovery_states.
    apply bind_cong; [f_equal; f_equal; apply bool_decide_ext; by rewrite !sorted_by_perm, Hs|].
    intros u Hu. apply raise_if_Ok in Hu. bool_prop. rewrite sorted_by_perm in Hu. by rewrite (sorted_by_perm_eq discovery_key s1 s2). }
  by rewrite (Ei inns1 inns2 Hi), (Ed discs1 discs2 Hd).
Qed.

(** ** Agreement with the single-class epoch *)

(** A class allocation as a finite-debt allocation. *)
Definition as_debt_allocation (a : CompositionClassAllocation) : DebtEpochAllocation :=
  {| da_claim_digest := ca_claim_digest a; da_hotkey := ca_hotkey a; da_units := ca_units a |}.

(** With no discovery debt the composed epoch is the finite-debt epoch:
    the same allocations, payout, reserve and hotkey weights. *)
Theorem composed_without_discovery fp cp eb inns d :
  policy_wf fp → cpolicy_wf cp → ledger_inv inns → project_composed_epoch fp cp eb inns [] = Ok d →
  ∃ d', project_debt_epoch fp eb inns = Ok d' ∧
    dp_allocations d' = as_debt_allocation <$> ep_innovation_allocations d ∧
    dp_payout_units d' = ep_innovation_payout_units d ∧ dp_reserve_units d' = ep_reserve_units d ∧
    dp_weights d' = ep_weights d.
Proof.
  intros Hfp Hcp Hi Hp.
  apply project_composed_epoch_Ok in Hp as (b & cd & idg & -> & Hb & Hv & Ki & _ & Ci & _ & Hr & _ & _ & Hid & Di & _ & (Ns & Ds) & ->);
    [|done..|by constructor].
  assert (fp_reserve_ppm fp = cp_reserve_ppm cp) as Er.
  { unfold validate_innovation_policy in Hv. rewrite Hid in Hv. cbn [bind] in Hv. inv_ok Hv. bool_prop. done. }
  assert (innovation_capacity cp [] = epoch_capacity fp) as Ecap.
  { unfold innovation_capacity, discovery_payout, class_payout, class_total, epoch_capacity, reference_claim_pool_units,
      reserve_floor_units, REFERENCE_EPOCH_UNITS, class_open. cbn [sorted_by merge_sort filter list_filter fmap list_fmap].
    rewrite Er, Z.div_mul by done. pose proof (cw_cap cp Hcp). change (Zsum _) with 0. lia. }
  assert (discovery_payout cp [] = 0) as Edp.
  { unfold discovery_payout, class_payout. change (class_total []) with 0. pose proof (cw_cap cp Hcp). lia. }
  exists (epoch_projection fp b inns idg). split.
  - apply project_debt_epoch_Ok; [done | by apply ledger_inv_wf|]. exists b, idg. split_and!; try done.
    eapply Forall_impl; [exact Ci|]. intros s. apply check_innovation_state_Ok.
  - assert (epoch_allocations fp inns = as_debt_allocation <$> innovation_allocs cp inns []) as Eal.
    { unfold innovation_allocs. rewrite Ecap. unfold class_allocations. by rewrite <- list_fmap_compose. }
    assert (composed_reserve cp inns [] = epoch_reserve fp inns) as Ere.
    { unfold composed_reserve, epoch_reserve, innovation_payout. rewrite Edp, Ecap, Z.sub_0_r. done. }
    cbn [dp_allocations dp_payout_units dp_reserve_units dp_weights epoch_projection ep_innovation_allocations
      ep_innovation_payout_units ep_reserve_units ep_weights composed_projection].
    split; [done|]. split; [by unfold innovation_payout; rewrite Ecap|]. split; [done|].
    unfold composed_weights. f_equal. unfold epoch_by_hotkey. rewrite Ere in *.
    rewrite (proj2 (Z.eqb_neq _ _)) by lia. f_equal. rewrite Eal. unfold composed_units, units_by_hotkey.
    change (discovery_allocs cp []) with (@nil CompositionClassAllocation). by rewrite fold_left_fmap.
Qed.

(** ** Fairness within a class *)

(** What an allocation of a class owes to the claim it pays. *)
Definition fair_share {S} `{ClaimLedger S} (states : list S) (payout : Z) (a : CompositionClassAllocation) : Prop :=
  ∃ s, s ∈ states ∧ cl_open s = true ∧ ca_claim_digest a = cl_key s ∧ ca_hotkey a = cl_hotkey s ∧
    1 ≤ ca_units a ≤ cl_remaining s ∧
    Z.abs (ca_units a * class_owed states - cl_remaining s * payout) < class_owed states.

Lemma class_allocations_fair {S} `{ClaimLedger S} (states : list S) capacity :
  Forall cl_wf states → NoDup (cl_key <$> states) → 0 ≤ capacity ≤ PPM →
  Forall (fair_share states (class_payout states capacity)) (class_allocations states capacity).
Proof.
  intros Hw Hk Hc. apply Forall_fmap, Forall_forall. intros s [Hpos Hs]%class_paid_elem.
  pose proof (class_share_bounds states capacity Hw Hk Hc s Hs) as [Hle Hq].
  apply (class_open_elem states capacity Hc) in Hs as [Hs Ho]. exists s. rewrite <- class_total_owed. simpl. split_and!; try done; lia.
Qed.

(** Within each class every paid claim gets at least one unit and at most
    its remaining principal, goes to its recorded owner, and differs from its
    exact proportional share of the class payout by less than one unit. *)
Theorem composed_allocations_fair fp cp eb inns discs d :
  policy_wf fp → cpolicy_wf cp → Forall cl_wf inns → Forall cl_wf discs →
  project_composed_epoch fp cp eb inns discs = Ok d →
  Forall (fair_share inns (ep_innovation_payout_units d)) (ep_innovation_allocations d) ∧
  Forall (fair_share discs (ep_discovery_payout_units d)) (ep_discovery_allocations d).
Proof.
  intros Hfp Hcp Hi Hd Hp.
  apply project_composed_epoch_Ok in Hp as (b & cd & idg & -> & Hb & _ & Ki & Kd & Ci & Cd & _ & _ & _ & _ & _ & _ & _ & ->); [|done..].
  split; apply class_allocations_fair; try done; [by apply innovation_capacity_ppm | by apply discovery_cap_bounds].
Qed.

(** ** Discovery claims *)

(** Issuing a reviewed discovery.  The disposition must name this policy.
    A registered promotion issues nothing; a bounty reviewed inside its
    lifetime issues exactly the claim of its win, with the requested epochs cut
    to the per-award cap; a bounty reviewed too late is refused. *)
Theorem discovery_issuance_spec p d r :
  cpolicy_wf p → disposition_wf d →
  issue_discovery_claim p d = Ok r ↔
  IncentiveCompositionPolicyManifest_digest p = Ok (rd_policy_digest d) ∧
  ((rd_decision d = DISCOVERY_REGISTERED_PROMOTION ∧ r = None) ∨
   (rd_decision d = DISCOVERY_BOUNTY_ONLY ∧ rd_authority_block d < rd_win_block d + cp_discovery_lifetime_blocks p ∧
    ∃ n dd, rd_requested_principal_epochs d = PInt n ∧ ReviewedDiscoveryDisposition_digest d = Ok dd ∧ digest_ok dd ∧
      r = Some (discovery_claim_of p d (rd_policy_digest d) dd n))).
Proof. apply issue_discovery_claim_Ok. Qed.

(** An issued discovery claim never exceeds the policy's cap for one award,
    opens with its full principal, and until its expiry the composed epoch
    accepts it (unless the reserve hotkey owns it). *)
Theorem discovery_award_payable p d c block reserve :
  cpolicy_wf p → disposition_wf d → issue_discovery_claim p d = Ok (Some c) →
  digest_ok (DiscoveryDebtClaim_digest c) → dc_hotkey c ≠ reserve → dc_awarded_block c ≤ block < dc_expires_block c →
  1 ≤ dc_principal_units c ≤ discovery_principal_cap_units p ∧
  ∃ b, DiscoveryClaimBalance_open c = Ok b ∧ cb_remaining_units b = dc_principal_units c ∧
    cl_wf {| cs_claim := c; cs_balance := b |} ∧
    check_discovery_state p block reserve {| cs_claim := c; cs_balance := b |} = Ok tt.
Proof.
  intros Hp Hd Hi Dc Hh Hb. pose proof Hi as Hi'.
  apply issue_discovery_claim_Ok in Hi' as (Hpd & [[_ [=]]|(_ & Hlate & n & dd & Hn & _ & Ddd & [= E])]); [|done..].
  pose proof Hd as (Hds & Hk & Hblk & [(_ & _ & m & Hm & Hm1)|(Hdec & _)]).
  2: { exfalso. unfold issue_discovery_claim in Hi. apply bind_Ok in Hi as (? & _ & Hi).
       by rewrite Hdec, bool_decide_eq_true_2 in Hi by done. }
  assert (m = n) as -> by congruence.
  pose proof (cw_award p Hp). pose proof (cw_cap p Hp). pose proof (cw_lifetime p Hp).
  assert (dclaim_wf c) as Hc.
  { rewrite !Forall_cons in Hds. destruct Hds as (? & ? & ? & ? & ? & _). rewrite E. unfold dclaim_wf; simpl.
    split_and!; try done; lia. }
  assert (dc_principal_units c ≤ discovery_principal_cap_units p) as Hcap.
  { rewrite E. unfold discovery_principal_cap_units; simpl. nia. }
  split; [split; [apply Hc | done]|].
  set (b := {| cb_claim_digest := DiscoveryDebtClaim_digest c; cb_principal_units := dc_principal_units c; cb_paid_units := 0;
    cb_forfeited_units := 0; cb_remaining_units := dc_principal_units c; cb_status := "open"; cb_terminal_block := None;
    cb_terminal_reason := "" |}).
  assert (1 ≤ dc_principal_units c) by apply Hc.
  assert (DiscoveryClaimBalance_open c = Ok b) as Ho.
  { apply (DiscoveryClaimBalance_of b). split; [done|].
    unfold balance_wf, balance_phase, reason_ok; simpl. split_and!; try done; try lia. unfold BALANCE_STATUSES. left. }
  exists b. split; [done|]. split; [done|]. split; [split; [done | by apply discovery_inv_open]|].
  apply check_discovery_state_Ok. split; [|intros _; done]. cbn [cs_claim].
  rewrite E. unfold claim_validate_policy. rewrite Hpd. cbn [bind].
  replace (raise_if _ _) with (Ok tt); [done|]. symmetry. apply raise_if_Ok. simpl. bool_goal.
Qed.

Lemma discovery_reachable_inv c b b' :
  dclaim_wf c → discovery_inv c b → rtc (discovery_step c) b b' → discovery_inv c b'.
Proof.
  intros Hc Hi Hr. assert (dc_awarded_block c < dc_expires_block c) by apply Hc.
  induction Hr as [|b b1 b' Hs Hr IH]; [done|]. by eapply IH, discovery_step_inv.
Qed.

(** In every state a discovery balance can reach from its opening, principal
    is conserved, no part is negative, the balance belongs to its claim, and an
    open balance has something left and nothing forfeited while a closed one
    has nothing left. *)
Theorem discovery_lifecycle c b0 b :
  dclaim_wf c → DiscoveryClaimBalance_open c = Ok b0 → rtc (discovery_step c) b0 b →
  cb_paid_units b + cb_forfeited_units b + cb_remaining_units b = dc_principal_units c ∧
  0 ≤ cb_paid_units b ∧ 0 ≤ cb_forfeited_units b ∧ 0 ≤ cb_remaining_units b ∧
  cb_claim_digest b = DiscoveryDebtClaim_digest c ∧
  (cb_status b = "open" → 0 < cb_remaining_units b ∧ cb_forfeited_units b = 0) ∧
  (cb_status b ≠ "open" → cb_remaining_units b = 0).
Proof.
  intros Hc Ho Hr. destruct (discovery_reachable_inv c b0 b Hc (discovery_inv_open c b0 Ho) Hr) as (Hwf & Hs & Hf).
  apply DiscoveryClaimState_init_Ok in Hs as (_ & [Hd Hpr] & _). pose proof Hwf as (_ & _ & ? & ? & ? & Hsum & _ & _ & Hph).
  simpl in *. rewrite <- Hpr. split_and!; try done; try lia.
  - intros Hop. split; [by apply (balance_wf_open (as_debt b)) | by apply Hf].
  - intros Hop. by apply (balance_wf_closed (as_debt b)).
Qed.

(** ** Records on disk *)

Lemma IC_strict_py_dict fields row : sorted_str row.*1 = sorted_str fields → IC._strict fields (py_dict row) = Ok row.
Proof. apply require_exact_fields_sorted. Qed.

Lemma dclaim_roundtrip c : dclaim_wf c → DiscoveryDebtClaim_from_dict (DiscoveryDebtClaim_to_dict c) = Ok c.
Proof.
  intros Hc. unfold DiscoveryDebtClaim_from_dict, DiscoveryDebtClaim_to_dict.
  eapply bind_step; [apply IC_strict_py_dict; same_fields|]. read_fields. by apply DiscoveryDebtClaim_init_Ok.
Qed.

Lemma dbalance_roundtrip b :
  balance_wf (as_debt b) → DiscoveryClaimBalance_from_dict (DiscoveryClaimBalance_to_dict b) = Ok b.
Proof.
  intros Hb. unfold DiscoveryClaimBalance_from_dict, DiscoveryClaimBalance_to_dict.
  eapply bind_step; [apply IC_strict_py_dict; same_fields|]. read_fields. by apply DiscoveryClaimBalance_of.
Qed.

Lemma dstate_roundtrip s : cl_wf s → DiscoveryClaimState_from_dict (DiscoveryClaimState_to_dict s) = Ok s.
Proof.
  intros Hs. pose proof Hs as (Hc & Hb & _). unfold DiscoveryClaimState_from_dict, DiscoveryClaimState_to_dict.
  eapply bind_step; [apply IC_strict_py_dict; same_fields|]. read_fields.
  eapply bind_step; [by apply dclaim_roundtrip|]. read_fields. eapply bind_step; [by apply dbalance_roundtrip|].
  by apply discovery_rebuild.
Qed.

(** Composition records are read back exactly from the dictionaries they
    are stored as: the policy, a reviewed disposition, and the discovery claim
    states of the ledger. *)
Theorem composition_read_back p d states :
  cpolicy_wf p → disposition_wf d → Forall cl_wf states →
  IncentiveCompositionPolicyManifest_from_dict (IncentiveCompositionPolicyManifest_to_dict p) = Ok p ∧
  ReviewedDiscoveryDisposition_from_dict (ReviewedDiscoveryDisposition_to_dict d) = Ok d ∧
  mapM DiscoveryClaimState_from_dict (DiscoveryClaimState_to_dict <$> states) = Ok states.
Proof.
  intros Hp Hd Hs. split; [|split].
  - unfold IncentiveCompositionPolicyManifest_from_dict, IncentiveCompositionPolicyManifest_to_dict.
    eapply bind_step; [apply IC_strict_py_dict; same_fields|]. read_fields.
    by apply IncentiveCompositionPolicyManifest_init_Ok.
  - unfold ReviewedDiscoveryDisposition_from_dict, ReviewedDiscoveryDisposition_to_dict.
    eapply bind_step; [apply IC_strict_py_dict; same_fields|]. read_fields.
    by apply ReviewedDiscoveryDisposition_init_Ok.
  - exact (mapM_roundtrip _ _ _ _ dstate_roundtrip Hs).
Qed.
End correct.
