(* ===== verification/EconomicsCorrect.v ===== *)
(** * What the emissions projection guarantees

    The properties of [economics.py], stated on the operations themselves. *)

From Stdlib Require Import ZArith Lia Ascii.
From stdpp Require Import base tactics numbers list strings gmap sorting.
From S2P Require Import Prelude PyValue Sha256 Identity Strict Apportion Catalog FiniteDebt FiniteDebtBalance FiniteDebtPolicy.
From S2P Require Import FiniteDebtEpoch Stack Economics.

(** ** The emissions projection is complete and normalized

    Decay of standing credit, the two loops of [project_global_rewards] in
    closed form, and the properties of the weight vector. *)

(** ** The validators *)

Lemma EC_digest_Ok v s : EC._digest v = Ok s ↔ v = PStr s ∧ digest_ok s.
Proof. apply require_digest_Ok. Qed.

Lemma EC_integer_Ok mn v z : EC._integer mn v = Ok z ↔ v = PInt z ∧ mn ≤ z.
Proof. unfold EC._integer. rewrite require_int_Ok. naive_solver. Qed.

Lemma EC_hotkey_Ok v s : EC._hotkey v = Ok s ↔ v = PStr s ∧ hotkey_matches s = true.
Proof.
  unfold EC._hotkey. destruct v as [| | | |t| | | |]; try by (split; [|intros [? ?]]).
  destruct (hotkey_matches t) eqn:E; split; try done; try (by intros [= <-]); intros [[= ->] ?]; congruence.
Qed.

(** Rewrites every passed validator in the context into what it established. *)
Ltac ec_facts :=
  repeat match goal with
  | H : EC._digest _ = Ok _ |- _ => apply EC_digest_Ok in H as [-> H]
  | H : EC._integer _ _ = Ok _ |- _ => apply EC_integer_Ok in H as [-> H]
  | H : EC._hotkey _ = Ok _ |- _ => apply EC_hotkey_Ok in H as [-> H]
  | H : require_str _ _ = Ok _ |- _ => apply require_str_Ok in H as ->
  end.

Record emissions_wf (p : EmissionsPolicyManifest) : Prop := {
  ew_half_life : 1 ≤ em_half_life_blocks p;
  ew_lifetime : 1 ≤ em_discovery_lifetime_blocks p;
  ew_pool : 0 ≤ em_discovery_pool_ppm p < WEIGHT_PPM
}.

Lemma EmissionsPolicyManifest_init_wf a1 a2 a3 a4 a5 p :
  EmissionsPolicyManifest_init a1 a2 a3 a4 a5 = Ok p → emissions_wf p.
Proof.
  unfold EmissionsPolicyManifest_init. intros Hi. inv_ok Hi. subst p. ec_facts. bool_prop. constructor; simpl; lia.
Qed.

Definition standing_wf (c : StandingRewardClaim) : Prop :=
  WEIGHT_PPM < sc_speedup_ppm c ∧ 0 ≤ sc_crowned_block c.

Lemma StandingRewardClaim_init_wf a1 a2 a3 a4 a5 a6 a7 a8 c :
  StandingRewardClaim_init a1 a2 a3 a4 a5 a6 a7 a8 = Ok c → standing_wf c.
Proof.
  unfold StandingRewardClaim_init, standing_wf. intros Hi. inv_ok Hi. subst c. ec_facts. simpl. lia.
Qed.

Definition bounty_wf (c : DiscoveryBountyClaim) : Prop := 1 ≤ bc_bounty_units c ∧ 0 ≤ bc_awarded_block c.

Lemma DiscoveryBountyClaim_init_wf a1 a2 a3 a4 a5 c : DiscoveryBountyClaim_init a1 a2 a3 a4 a5 = Ok c → bounty_wf c.
Proof. unfold DiscoveryBountyClaim_init, bounty_wf. intros Hi. inv_ok Hi. subst c. ec_facts. done. Qed.

(** ** Decay of standing credit *)

(** Credit of a crown [age] blocks old. *)
Definition decayed (c : StandingRewardClaim) (p : EmissionsPolicyManifest) (age : Z) : Z :=
  (sc_speedup_ppm c - WEIGHT_PPM) * em_half_life_blocks p / (em_half_life_blocks p + age).

Lemma credit_at_Ok c block p z :
  credit_at c (PInt block) p = Ok z ↔ 0 ≤ block ∧ sc_crowned_block c ≤ block ∧ z = decayed c p (block - sc_crowned_block c).
Proof.
  unfold credit_at. split.
  - intros Hc. apply bind_Ok in Hc as (b & [[= <-] Hb]%EC_integer_Ok & Hc). inv_ok Hc. bool_prop. done.
  - intros (Hb & Hc & ->). rewrite (proj2 (EC_integer_Ok 0 (PInt block) block)) by done. cbn [bind]. pass_guard. done.
Qed.

Lemma decayed_bounds c p age :
  emissions_wf p → standing_wf c → 0 ≤ age → 0 ≤ decayed c p age ≤ sc_speedup_ppm c - WEIGHT_PPM.
Proof.
  intros [? ? ?] [? ?] Ha. unfold decayed. split; [apply Z.div_pos; nia|]. apply Z.div_le_upper_bound; nia.
Qed.

Lemma decayed_fresh c p : emissions_wf p → decayed c p 0 = sc_speedup_ppm c - WEIGHT_PPM.
Proof. intros [? ? ?]. unfold decayed. rewrite Z.add_0_r. apply Z.div_mul. lia. Qed.

Lemma decayed_antitone c p a1 a2 :
  emissions_wf p → standing_wf c → 0 ≤ a1 ≤ a2 → decayed c p a2 ≤ decayed c p a1.
Proof. intros [? ? ?] [? ?] Ha. unfold decayed. apply Z.div_le_compat_l; nia. Qed.

(** After one half-life half of the credit is left, rounded down. *)
Lemma decayed_half c p :
  emissions_wf p → decayed c p (em_half_life_blocks p) = (sc_speedup_ppm c - WEIGHT_PPM) / 2.
Proof.
  intros [? ? ?]. unfold decayed. replace (em_half_life_blocks p + em_half_life_blocks p) with (2 * em_half_life_blocks p) by lia.
  apply Z.div_mul_cancel_r; lia.
Qed.

(** ** Apportioning a pool *)

Lemma positive_part_lookup m k v : positive_part m !! k = Some v ↔ m !! k = Some v ∧ 0 < v.
Proof. unfold positive_part. rewrite map_lookup_filter_Some. done. Qed.

(** The rows [_allocate_pool] iterates over. *)
Definition pool_rows (credits : gmap string Z) : list (string * Z) :=
  (λ hotkey, (hotkey, dict_get (positive_part credits) hotkey)) <$> sorted_str (map_to_list (positive_part credits)).*1.

Lemma pool_rows_keys credits : (pool_rows credits).*1 = sorted_str (map_to_list (positive_part credits)).*1.
Proof. unfold pool_rows. rewrite <- list_fmap_compose. apply list_fmap_id. Qed.

Lemma pool_rows_elem credits k v : (k, v) ∈ pool_rows credits ↔ credits !! k = Some v ∧ 0 < v.
Proof.
  rewrite <- positive_part_lookup. unfold pool_rows. rewrite list_elem_of_fmap. unfold sorted_str.
  setoid_rewrite sorted_by_perm. setoid_rewrite list_elem_of_fmap. split.
  - intros (h & [= -> ->] & [k' w] & -> & Hk%elem_of_map_to_list). simpl. unfold dict_get. by rewrite Hk.
  - intros Hk. exists k. unfold dict_get. rewrite Hk. split; [done|]. exists (k, v). split; [done|].
    by apply elem_of_map_to_list.
Qed.

Lemma pool_rows_NoDup credits : NoDup (pool_rows credits).*1.
Proof. rewrite pool_rows_keys. apply sorted_str_NoDup, NoDup_fst_map_to_list. Qed.

Lemma pool_rows_total credits : Zsum (pool_rows credits).*2 = dict_sum (positive_part credits).
Proof.
  unfold pool_rows. rewrite <- list_fmap_compose. unfold compose; simpl. apply dict_sum_keys.
  - apply sorted_str_NoDup, NoDup_fst_map_to_list.
  - intros k [v Hv]. unfold sorted_str. rewrite sorted_by_perm. apply list_elem_of_fmap.
    exists (k, v). split; [done|]. by apply elem_of_map_to_list.
Qed.

Lemma pool_rows_nonneg credits : Forall (λ row, 0 ≤ row.2) (pool_rows credits).
Proof. apply Forall_forall. intros [k v] [_ Hv]%pool_rows_elem. simpl. lia. Qed.

Section pool.
Context (credits : gmap string Z) (pool : Z) (shares : gmap string Z).
Context (Hpool : 0 ≤ pool) (Hok : _allocate_pool credits pool = Ok shares).

Lemma allocate_pool_eq :
  0 < dict_sum (positive_part credits) ∧ shares = largest_remainder (pool_rows credits) pool (dict_sum (positive_part credits)).
Proof. unfold _allocate_pool in Hok. inv_ok Hok. bool_prop. done. Qed.

(** The shares use up the pool exactly. *)
Lemma allocate_pool_sum : dict_sum shares = pool.
Proof.
  destruct allocate_pool_eq as [Hpos ->].
  pose proof (pool_rows_NoDup credits). pose proof (pool_rows_nonneg credits). pose proof (pool_rows_total credits).
  by apply largest_remainder_sum.
Qed.

Lemma allocate_pool_dom k : is_Some (shares !! k) ↔ ∃ v, credits !! k = Some v ∧ 0 < v.
Proof.
  destruct allocate_pool_eq as [Hpos ->]. rewrite largest_remainder_dom by
    (done || apply pool_rows_NoDup || apply pool_rows_nonneg || by rewrite pool_rows_total).
  rewrite list_elem_of_fmap. split.
  - intros ([k' v] & -> & Hv%pool_rows_elem). eauto.
  - intros (v & Hv). exists (k, v). split; [done|]. by apply pool_rows_elem.
Qed.

Lemma allocate_pool_quota k v :
  credits !! k = Some v → 0 < v →
  let total := dict_sum (positive_part credits) in
  ∃ a, shares !! k = Some a ∧ v * pool - total < a * total < v * pool + total ∧ 0 ≤ a.
Proof.
  intros Hk Hv total. destruct allocate_pool_eq as [Hpos ->].
  pose proof (pool_rows_NoDup credits). pose proof (pool_rows_nonneg credits). pose proof (pool_rows_total credits).
  apply largest_remainder_quota; try done. by apply pool_rows_elem.
Qed.
End pool.

Lemma dict_sum_positive m k v :
  (∀ j w, m !! j = Some w → 0 ≤ w) → m !! k = Some v → 0 < v → 0 < dict_sum (positive_part m).
Proof.
  intros Hm Hk Hv. rewrite <- pool_rows_total.
  assert (v ≤ Zsum (pool_rows m).*2); [|lia]. apply Zsum_elem.
  - apply Forall_fmap. eapply Forall_impl; [apply pool_rows_nonneg|]. done.
  - apply list_elem_of_fmap. exists (k, v). split; [done|]. by apply pool_rows_elem.
Qed.

Lemma dict_sum_add_all m d : dict_sum (add_all m d) = dict_sum m + dict_sum d.
Proof.
  unfold add_all.
  assert (∀ l m, dict_sum (fold_left (λ m kv, dict_add m kv.1 kv.2) l m) = dict_sum m + Zsum l.*2) as Hl.
  { induction l as [|[k v] l IH]; intros m'; [unfold Zsum; simpl; lia|]. cbn [fold_left]. rewrite IH, dict_sum_add. csimpl.
    rewrite Zsum_cons. lia. }
  rewrite Hl. f_equal. rewrite <- (dict_sum_keys d (map_to_list d).*1).
  - rewrite <- list_fmap_compose. symmetry. f_equal. apply list_fmap_ext. intros i [k v] Hi. simpl.
    assert ((k, v) ∈ map_to_list d) as Hk by (by eapply list_elem_of_lookup_2).
    apply elem_of_map_to_list in Hk. unfold dict_get. by rewrite Hk.
  - apply NoDup_fst_map_to_list.
  - intros k [v Hv]. apply list_elem_of_fmap. exists (k, v). split; [done|]. by apply elem_of_map_to_list.
Qed.

Lemma add_all_get m d k : dict_get (add_all m d) k = dict_get m k + dict_get d k.
Proof.
  unfold add_all.
  assert (∀ l m, NoDup l.*1 → dict_get (fold_left (λ m kv, dict_add m kv.1 kv.2) l m) k
    = dict_get m k + default 0 ((list_to_map l : gmap string Z) !! k)) as Hl.
  { induction l as [|[j v] l IH]; intros m'; [simpl; rewrite lookup_empty; simpl; lia|]. csimpl. rewrite NoDup_cons.
    intros [Hj Hnd]. rewrite IH by done. rewrite dict_get_add, lookup_insert. case_decide; subst; [|lia].
    rewrite not_elem_of_list_to_map_1 by done. simpl. lia. }
  rewrite Hl by apply NoDup_fst_map_to_list. by rewrite list_to_map_to_list.
Qed.

Lemma add_all_dom m d k : is_Some (add_all m d !! k) ↔ is_Some (m !! k) ∨ is_Some (d !! k).
Proof.
  unfold add_all.
  assert (∀ l m, is_Some (fold_left (λ m kv, dict_add m kv.1 kv.2) l m !! k) ↔ is_Some (m !! k) ∨ k ∈ l.*1) as Hl.
  { induction l as [|[j v] l IH]; intros m'; csimpl.
    - split; [auto|]. intros [?|?%not_elem_of_nil]; done.
    - rewrite IH, elem_of_cons. unfold dict_add. rewrite lookup_insert. case_decide; subst; [|naive_solver].
      split; [auto|]. intros _. left. eauto. }
  rewrite Hl. f_equiv. rewrite list_elem_of_fmap. split.
  - intros ([j v] & -> & Hj%elem_of_map_to_list). simpl. eauto.
  - intros [v Hv]. exists (k, v). split; [done|]. by apply elem_of_map_to_list.
Qed.

(** ** Ordering of the standing families *)

#[global] Instance pair_le_trans : Transitive pair_le.
Proof.
  intros [a b] [c d] [e f] [[H1 H2]|[H1 H2]] [[H3 H4]|[H3 H4]]; unfold pair_le in *; simpl in *; subst.
  - left. split; [|by etrans]. intros ->. apply H1. by apply (anti_symm String.le).
  - by left.
  - by left.
  - right. split; [done|]. by etrans.
Qed.

#[global] Instance pair_le_total : Total pair_le.
Proof.
  intros [a b] [c d]. unfold pair_le; simpl. destruct (decide (a = c)) as [->|Hne].
  - destruct (total String.le b d); auto.
  - destruct (total String.le a c); auto.
Qed.

#[global] Instance pair_le_antisymm : AntiSymm (=) pair_le.
Proof.
  intros [a b] [c d] [[H1 H2]|[H1 H2]] [[H3 H4]|[H3 H4]]; simpl in *; subst; try done.
  - exfalso. apply H1. by apply (anti_symm String.le).
  - f_equal. by apply (anti_symm String.le).
Qed.

Lemma merge_sort_pair_id l : StronglySorted pair_le l → merge_sort pair_le l = l.
Proof.
  intros Hl. apply (StronglySorted_unique pair_le); [|done|apply merge_sort_Permutation].
  apply Sorted_StronglySorted; [apply _|]. apply (Sorted_merge_sort _).
Qed.

(** Families listed arena by arena, each arena's targets in order, are in
    lexicographic order. *)
Lemma families_sorted {A} (arena : A → string) (targets : A → list string) l :
  NoDup (arena <$> l) → StronglySorted (key_le arena) l → (∀ a, StronglySorted (key_le id) (targets a)) →
  StronglySorted pair_le (l ≫= λ a, pair (arena a) <$> targets a).
Proof.
  intros Hnd Hs Ht. induction Hs as [|a l Hs IH Ha]; [constructor|]. csimpl. csimpl in Hnd.
  apply NoDup_cons in Hnd as [Hn Hnd]. apply StronglySorted_app. split_and!; [| |apply IH, Hnd].
  - intros x y Hx Hy. apply list_elem_of_fmap in Hx as (t & -> & Ht'). apply list_elem_of_bind in Hy as (b & Hy & Hb).
    apply list_elem_of_fmap in Hy as (u & -> & Hu). left. simpl. split.
    + intros E. apply Hn. rewrite E. by apply list_elem_of_fmap_2.
    + rewrite Forall_forall in Ha. by apply Ha.
  - specialize (Ht a). induction Ht as [|t ts Hts IHt Hall]; csimpl; constructor; [done|].
    apply Forall_fmap. eapply Forall_impl; [exact Hall|]. intros u Hu. right. done.
Qed.

(** ** The standing loop *)

Lemma fold_insert_elem {A} (key : A → string) l (m : gmap string A) k x :
  fold_left (λ m x, <[key x := x]> m) l m !! k = Some x → (x ∈ l ∧ key x = k) ∨ m !! k = Some x.
Proof.
  revert m. induction l as [|y l IH]; intros m; cbn [fold_left]; [auto|]. intros Hx.
  apply IH in Hx as [[Hx Hk]|Hx]; [left; split; [by right | done]|].
  rewrite lookup_insert in Hx. case_decide; [|by right]. injection Hx as ->. left. split; [left | done].
Qed.

Lemma units_by_hotkey_snoc {A} (hotkey : A → string) (units : A → Z) l x :
  units_by_hotkey hotkey units (l ++ [x]) = dict_add (units_by_hotkey hotkey units l) (hotkey x) (units x).
Proof. unfold units_by_hotkey. by rewrite fold_left_app. Qed.

Section standing.
Context `{Sha256} (p : EmissionsPolicyManifest) (ctx : GlobalRewardProjectionContext) (Hp : emissions_wf p).

(** What the loop has accumulated: the dictionary sums the listed credits, and
    every credit is non-negative and held by a metagraph member. *)
Definition standing_inv (acc : standing_acc) : Prop :=
  acc.2 = units_by_hotkey sf_hotkey sf_credit acc.1 ∧
  Forall (λ c, sf_hotkey c ∈ eligible_hotkeys ctx ∧ 0 ≤ sf_credit c) acc.1.

Lemma standing_step_Ok a acc t acc' :
  Forall standing_wf (aa_standing_claims a) → standing_inv acc → standing_step p ctx a acc t = Ok acc' →
  standing_inv acc' ∧ standing_keys acc'.1 = standing_keys acc.1 ++ [(aa_arena_digest a, t)].
Proof.
  intros Hw [Hsum Hall] Hs. unfold standing_step in Hs.
  destruct (claims_by_target (aa_standing_claims a) !! t) as [c|] eqn:Hc; [|done]. cbn [bind] in Hs.
  destruct (assoc (es_entries (aa_stack a)) t) as [r|]; [|done]. cbn [bind] in Hs.
  apply bind_Ok in Hs as (? & _ & Hs). apply bind_Ok in Hs as (spec & _ & Hs).
  apply bind_Ok in Hs as (? & _ & Hs). apply bind_Ok in Hs as (? & He & Hs). apply raise_if_Ok in He.
  apply bind_Ok in Hs as (z & Hz & [= <-]). bool_prop.
  apply credit_at_Ok in Hz as (Hb & Hcr & ->).
  assert (standing_wf c) as Hwc.
  { apply fold_insert_elem in Hc as [[Hc _]|Hc]; [|by rewrite lookup_empty in Hc].
    rewrite Forall_forall in Hw. by apply Hw. }
  split; [split|].
  - cbn [fst snd]. by rewrite units_by_hotkey_snoc, <- Hsum.
  - cbn [fst]. apply Forall_app. split; [done|]. apply Forall_singleton. simpl. split; [done|].
    apply decayed_bounds; [done..|lia].
  - cbn [fst]. unfold standing_keys. by rewrite fmap_app.
Qed.

Lemma standing_loop_Ok a ts acc acc' :
  Forall standing_wf (aa_standing_claims a) → standing_inv acc → foldM (standing_step p ctx a) ts acc = Ok acc' →
  standing_inv acc' ∧ standing_keys acc'.1 = standing_keys acc.1 ++ (pair (aa_arena_digest a) <$> ts).
Proof.
  intros Hw. revert acc. induction ts as [|t ts IH]; intros acc Hi Hf; cbn [foldM] in Hf.
  - injection Hf as <-. split; [done|]. by rewrite app_nil_r.
  - apply bind_Ok in Hf as (acc1 & Hs & Hf). apply standing_step_Ok in Hs as [Hi1 Hk1]; [|done..].
    apply IH in Hf as [Hi2 Hk2]; [|done]. split; [done|]. rewrite Hk2, Hk1. by rewrite <- app_assoc.
Qed.

Lemma validate_active_sorted c ts ts' : validate_active_targets c ts = Ok ts' → ts' = sorted_str ts.
Proof. unfold validate_active_targets. intros Hv. inv_ok Hv. done. Qed.

(** The active targets of an arena, in the order of the loop. *)
Definition arena_targets (a : ArenaRewardAuthority) : list string := sorted_str (es_entries (aa_stack a)).*1.

Lemma arena_step_Ok a acc acc' :
  Forall standing_wf (aa_standing_claims a) → standing_inv acc → arena_step p ctx acc a = Ok acc' →
  standing_inv acc' ∧ standing_keys acc'.1 = standing_keys acc.1 ++ (pair (aa_arena_digest a) <$> arena_targets a).
Proof.
  intros Hw Hi Hs. unfold arena_step in Hs. apply bind_Ok in Hs as (? & _ & Hs).
  apply bind_Ok in Hs as (ts & Hts & Hs). apply reraise_Ok, validate_active_sorted in Hts as ->.
  apply bind_Ok in Hs as (? & _ & Hs). apply bind_Ok in Hs as (? & _ & Hs).
  by apply (standing_loop_Ok a _ acc).
Qed.

Lemma arena_loop_Ok l acc acc' :
  Forall (λ a, Forall standing_wf (aa_standing_claims a)) l → standing_inv acc → foldM (arena_step p ctx) l acc = Ok acc' →
  standing_inv acc' ∧ standing_keys acc'.1 = standing_keys acc.1 ++ (l ≫= λ a, pair (aa_arena_digest a) <$> arena_targets a).
Proof.
  intros Hw. revert acc. induction Hw as [|a l Ha Hl IH]; intros acc Hi Hf; cbn [foldM] in Hf.
  - injection Hf as <-. split; [done|]. by rewrite app_nil_r.
  - apply bind_Ok in Hf as (acc1 & Hs & Hf). apply arena_step_Ok in Hs as [Hi1 Hk1]; [|done..].
    apply IH in Hf as [Hi2 Hk2]; [|done]. split; [done|]. rewrite Hk2, Hk1. csimpl. by rewrite <- app_assoc.
Qed.

(** Where a listed credit comes from: the decayed credit of an arena's claim. *)
Definition credited (arenas : list ArenaRewardAuthority) (row : StandingFamilyCredit) : Prop :=
  ∃ a c, a ∈ arenas ∧ c ∈ aa_standing_claims a ∧ sf_arena_digest row = aa_arena_digest a ∧
    sf_target_id row = sc_target_id c ∧ sf_claim_digest row = StandingRewardClaim_digest c ∧ sf_hotkey row = sc_hotkey c ∧
    sc_crowned_block c ≤ gc_current_block ctx ∧ sf_credit row = decayed c p (gc_current_block ctx - sc_crowned_block c).

Lemma standing_step_credited arenas a acc t acc' :
  a ∈ arenas → Forall (credited arenas) acc.1 → standing_step p ctx a acc t = Ok acc' → Forall (credited arenas) acc'.1.
Proof.
  intros Ha Hall Hs. unfold standing_step in Hs.
  destruct (claims_by_target (aa_standing_claims a) !! t) as [c|] eqn:Hc; [|done]. cbn [bind] in Hs.
  destruct (assoc (es_entries (aa_stack a)) t) as [r|]; [|done]. cbn [bind] in Hs.
  apply bind_Ok in Hs as (? & _ & Hs). apply bind_Ok in Hs as (spec & _ & Hs). apply bind_Ok in Hs as (? & _ & Hs).
  apply bind_Ok in Hs as (? & _ & Hs). apply bind_Ok in Hs as (z & (? & ? & ->)%credit_at_Ok & [= <-]).
  apply fold_insert_elem in Hc as [[Hc <-]|Hc]; [|by rewrite lookup_empty in Hc].
  apply Forall_app. split; [done|]. apply Forall_singleton. by exists a, c.
Qed.

Lemma arenas_credited arenas acc :
  foldM (arena_step p ctx) (sorted_by aa_arena_digest arenas) ([], ∅) = Ok acc → Forall (credited arenas) acc.1.
Proof.
  intros Hf. refine (foldM_inv _ (λ acc, Forall (credited arenas) acc.1) _ _ _ _ _ Hf); [|by apply Forall_nil].
  intros a acc1 acc2 Ha Hall Hs. rewrite sorted_by_perm in Ha. unfold arena_step in Hs.
  do 4 (apply bind_Ok in Hs as (? & _ & Hs)).
  refine (foldM_inv _ (λ acc, Forall (credited arenas) acc.1) _ _ _ _ Hall Hs).
  intros t acc3 acc4 _. by apply standing_step_credited.
Qed.

Lemma standing_inv_init : standing_inv ([], ∅).
Proof. by split; [|constructor]. Qed.

Lemma standing_inv_nonneg acc k v : standing_inv acc → acc.2 !! k = Some v → 0 ≤ v ∧ k ∈ eligible_hotkeys ctx.
Proof.
  intros [-> Hall] Hk. split.
  - assert (v = Zsum (sf_credit <$> filter (λ c, sf_hotkey c = k) acc.1)) as ->.
    { rewrite <- units_by_hotkey_get. unfold dict_get. by rewrite Hk. }
    apply Zsum_nonneg, Forall_fmap, Forall_forall. intros c [_ Hc]%list_elem_of_filter.
    rewrite Forall_forall in Hall. by apply Hall.
  - assert (k ∈ sf_hotkey <$> acc.1) as Hin by (apply units_by_hotkey_dom with (units := sf_credit); eauto).
    apply list_elem_of_fmap in Hin as (c & -> & Hc). rewrite Forall_forall in Hall. by apply Hall.
Qed.

(** ** The discovery loop *)

Definition alive (c : DiscoveryBountyClaim) : Prop :=
  gc_current_block ctx - bc_awarded_block c < em_discovery_lifetime_blocks p.

#[global] Instance alive_dec c : Decision (alive c).
Proof. unfold alive. apply _. Defined.

Definition bounty_credit (c : DiscoveryBountyClaim) : DiscoveryBountyCredit :=
  {| bcr_claim_digest := DiscoveryBountyClaim_digest c; bcr_hotkey := bc_hotkey c; bcr_credit := bc_bounty_units c |}.

(** What the loop rejects: a claim from the future, a live owner who left. *)
Definition bounty_ok (c : DiscoveryBountyClaim) : Prop :=
  bc_awarded_block c ≤ gc_current_block ctx ∧ (alive c → bc_hotkey c ∈ eligible_hotkeys ctx).

Lemma bounty_live_at_Ok c b :
  0 ≤ gc_current_block ctx →
  bounty_live_at c (PInt (gc_current_block ctx)) p = Ok b ↔ bc_awarded_block c ≤ gc_current_block ctx ∧ b = bool_decide (alive c).
Proof.
  intros Hb. unfold bounty_live_at. rewrite (proj2 (EC_integer_Ok 0 (PInt (gc_current_block ctx)) (gc_current_block ctx))) by done.
  cbn [bind]. assert ((gc_current_block ctx - bc_awarded_block c <? em_discovery_lifetime_blocks p) = bool_decide (alive c)) as ->.
  { apply eq_true_iff_eq. by rewrite Z.ltb_lt, bool_decide_eq_true. }
  split; [intros Hl; inv_ok Hl; bool_prop; done|]. intros [? ->]. pass_guard. done.
Qed.

Definition discovery_result (l : list DiscoveryBountyClaim) (acc : discovery_acc) : discovery_acc :=
  (acc.1.1 ++ (bounty_credit <$> filter alive l),
   acc.1.2 ++ (DiscoveryBountyClaim_digest <$> filter (λ c, ¬ alive c) l),
   fold_left (λ m c, dict_add m (bc_hotkey c) (bc_bounty_units c)) (filter alive l) acc.2).

Lemma discovery_loop_Ok l acc acc' :
  0 ≤ gc_current_block ctx →
  foldM (discovery_loop_step p ctx) l acc = Ok acc' ↔ Forall bounty_ok l ∧ acc' = discovery_result l acc.
Proof.
  intros Hb. revert acc. induction l as [|c l IH]; intros [[live expired] m]; cbn [foldM].
  - unfold discovery_result; simpl. rewrite !app_nil_r. split; [intros [= <-]; by split; [constructor|] | by intros [_ ->]].
  - rewrite bind_Ok, Forall_cons. setoid_rewrite IH. unfold discovery_loop_step.
    setoid_rewrite bind_Ok. setoid_rewrite bounty_live_at_Ok; [|done].
    unfold discovery_result. rewrite !filter_cons. split.
    + intros (acc1 & (b & [Haw ->] & Hs) & Hl & ->). case_bool_decide as Hal.
      * apply bind_Ok in Hs as (? & He & [= <-]). apply raise_if_Ok in He. bool_prop.
        rewrite decide_True by done. rewrite (decide_False (P := ¬ alive c)) by tauto. csimpl. rewrite <- !app_assoc. done.
      * injection Hs as <-. rewrite decide_False by done. rewrite (decide_True (P := ¬ alive c)) by done. csimpl.
        rewrite <- !app_assoc. split_and!; try done.
    + intros ([[Haw He] Hl] & ->). destruct (decide (alive c)) as [Hal|Hal].
      * rewrite (decide_False (P := ¬ alive c)) by tauto. eexists. split.
        { exists (bool_decide (alive c)). split; [done|]. rewrite bool_decide_eq_true_2 by done.
          specialize (He Hal). pass_guard. done. }
        split; [done|]. csimpl. by rewrite <- !app_assoc.
      * rewrite (decide_True (P := ¬ alive c)) by done. eexists. split.
        { exists (bool_decide (alive c)). split; [done|]. rewrite bool_decide_eq_false_2 by done. done. }
        split; [done|]. csimpl. by rewrite <- !app_assoc.
Qed.
End standing.

(** ** The whole projection *)

Definition pool_shares (credits : gmap string Z) (pool : Z) : gmap string Z :=
  largest_remainder (pool_rows credits) pool (dict_sum (positive_part credits)).

Lemma allocate_pool_total credits pool :
  0 < dict_sum (positive_part credits) → _allocate_pool credits pool = Ok (pool_shares credits pool).
Proof. intros Ht. unfold _allocate_pool. pass_guard. done. Qed.

Lemma pool_shares_nonneg credits pool k :
  0 ≤ pool → 0 < dict_sum (positive_part credits) → 0 ≤ dict_get (pool_shares credits pool) k.
Proof.
  intros Hpool Ht. unfold dict_get. destruct (pool_shares credits pool !! k) as [a|] eqn:E; [|done].
  pose proof (allocate_pool_total credits pool Ht) as Hok.
  assert (∃ v, credits !! k = Some v ∧ 0 < v) as (v & Hv & Hpos) by (eapply allocate_pool_dom; eauto).
  edestruct allocate_pool_quota as (a' & Ha' & _ & ?); [done | exact Hok | exact Hv | done|].
  simpl. assert (a' = a) as -> by congruence. done.
Qed.

Lemma sorted_str_idemp l : sorted_str (sorted_str l) = sorted_str l.
Proof.
  unfold sorted_str. eapply StronglySorted_unique_strong; [|apply sorted_by_sorted..|by rewrite sorted_by_perm].
  intros x y _ _ H1 H2. by apply (anti_symm String.le).
Qed.

(** The weights listed for a dictionary, in hotkey order. *)
Definition listed (m : gmap string Z) : list HotkeyWeight :=
  (λ hotkey, {| kw_hotkey := hotkey; kw_weight_ppm := dict_get m hotkey |}) <$> sorted_str (map_to_list m).*1.

Lemma listed_hotkeys m : kw_hotkey <$> listed m = sorted_str (map_to_list m).*1.
Proof. unfold listed. rewrite <- list_fmap_compose. apply list_fmap_id. Qed.

Lemma listed_sum m : Zsum (kw_weight_ppm <$> listed m) = dict_sum m.
Proof.
  unfold listed. rewrite <- list_fmap_compose. unfold compose; simpl. apply dict_sum_keys.
  - apply sorted_str_NoDup, NoDup_fst_map_to_list.
  - intros k [v Hv]. unfold sorted_str. rewrite sorted_by_perm.
    apply list_elem_of_fmap. exists (k, v). split; [done|]. by apply elem_of_map_to_list.
Qed.

Lemma listed_elem m w : w ∈ listed m → is_Some (m !! kw_hotkey w) ∧ kw_weight_ppm w = dict_get m (kw_hotkey w).
Proof.
  intros Hw. apply list_elem_of_fmap in Hw as (k & -> & Hk). split; [|done]. simpl. unfold sorted_str in Hk.
  rewrite sorted_by_perm in Hk. apply list_elem_of_fmap in Hk as ([k' v] & -> & Hk%elem_of_map_to_list). eauto.
Qed.

Lemma digests_checked ds : forM_ ds (λ d, do! EC._digest (PStr d) ;; Ok tt) = Ok tt ↔ Forall digest_ok ds.
Proof.
  rewrite forM_Ok. apply Forall_iff. intros d. rewrite bind_Ok. setoid_rewrite EC_digest_Ok. split.
  - by intros (? & [[= ->] ?] & _).
  - intros Hd. by exists d.
Qed.

(** ** Metagraph members *)

#[global] Instance member_le_trans : Transitive member_le.
Proof.
  intros x y z [H1|[H1 H2]] [H3|[H3 H4]]; unfold member_le; [left; lia..|right]. split; [lia | by etrans].
Qed.

#[global] Instance member_le_total : Total member_le.
Proof.
  intros x y. unfold member_le. destruct (Z.lt_total (mm_uid x) (mm_uid y)) as [?|[E|?]]; [auto| |auto].
  destruct (total String.le (mm_hotkey x) (mm_hotkey y)); auto.
Qed.

#[global] Instance member_le_antisymm : AntiSymm (=) member_le.
Proof.
  intros [u h] [v k] [H1|[H1 H2]] [H3|[H3 H4]]; simpl in *; try lia. f_equal; [done|]. by apply (anti_symm String.le).
Qed.

Lemma merge_sort_member_sorted l : StronglySorted member_le (merge_sort member_le l).
Proof. apply Sorted_StronglySorted; [apply _|]. apply (Sorted_merge_sort _). Qed.

Lemma merge_sort_member_id l : StronglySorted member_le l → merge_sort member_le l = l.
Proof.
  intros Hl. apply (StronglySorted_unique member_le); [|done|apply merge_sort_Permutation]. apply merge_sort_member_sorted.
Qed.

(** What the constructor of the projection has checked. *)
Lemma global_canonical `{Sha256} p ctx arenas discoveries g :
  project_global_rewards p ctx arenas discoveries = Ok g →
  digest_ok (gp_policy_digest g) ∧ standing_keys (gp_standing g) = merge_sort pair_le (standing_keys (gp_standing g)) ∧
  kw_hotkey <$> gp_weights g = sorted_str (kw_hotkey <$> gp_weights g) ∧ NoDup (kw_hotkey <$> gp_weights g) ∧
  Zsum (kw_weight_ppm <$> gp_weights g) = WEIGHT_PPM.
Proof.
  unfold project_global_rewards. intros Hg. do 2 (apply bind_Ok in Hg as (? & _ & Hg)).
  apply bind_Ok in Hg as ([fc st] & _ & Hg). do 2 (apply bind_Ok in Hg as (? & _ & Hg)).
  apply bind_Ok in Hg as ([[live expired] m] & _ & Hg). do 3 (apply bind_Ok in Hg as (? & _ & Hg)).
  apply bind_Ok in Hg as (pd & _ & Hg). unfold GlobalRewardProjection_init in Hg. inv_ok Hg. subst g.
  apply EC_digest_Ok in Hv as [[= <-] Hv]. bool_prop. done.
Qed.

Section projection.
Context `{Sha256} (p : EmissionsPolicyManifest) (ctx : GlobalRewardProjectionContext).
Context (arenas : list ArenaRewardAuthority) (discoveries : list DiscoveryBountyClaim).

Definition live_claims : list DiscoveryBountyClaim := filter (alive p ctx) (sorted_by DiscoveryBountyClaim_digest discoveries).
Definition discovery_units : gmap string Z := units_by_hotkey bc_hotkey bc_bounty_units live_claims.
Definition discovery_pool : Z := if is_nil live_claims then 0 else em_discovery_pool_ppm p.

(** Standing and discovery pools are split separately and added per hotkey. *)
Definition combined_weights (standing : gmap string Z) : gmap string Z :=
  let base := pool_shares standing (WEIGHT_PPM - discovery_pool) in
  if is_nil live_claims then base else add_all base (pool_shares discovery_units discovery_pool).

Definition reward_projection (pd : string) (acc : standing_acc) : GlobalRewardProjection :=
  {| gp_policy_digest := pd;
     gp_context := ctx;
     gp_arena_authority_digests := sorted_str (ArenaRewardAuthority_digest <$> sorted_by aa_arena_digest arenas);
     gp_standing := acc.1;
     gp_discovery := bounty_credit <$> live_claims;
     gp_expired_discovery_claims :=
       DiscoveryBountyClaim_digest <$> filter (λ c, ¬ alive p ctx c) (sorted_by DiscoveryBountyClaim_digest discoveries);
     gp_weights := listed (combined_weights acc.2) |}.

Context (Hp : emissions_wf p) (Hblock : 0 ≤ gc_current_block ctx).
Context (Hstanding : Forall (λ a, Forall standing_wf (aa_standing_claims a)) arenas).
Context (Hbounty : Forall bounty_wf discoveries).

Lemma is_nil_fmap {A B} (f : A → B) l : is_nil (f <$> l) = is_nil l.
Proof. by destruct l. Qed.

Lemma live_claims_elem c : c ∈ live_claims ↔ alive p ctx c ∧ c ∈ discoveries.
Proof. unfold live_claims. by rewrite list_elem_of_filter, sorted_by_perm. Qed.

Lemma discovery_units_pos k v : discovery_units !! k = Some v → 0 < v.
Proof.
  intros Hk. assert (1 ≤ v); [|lia]. eapply units_by_hotkey_pos, Hk. apply Forall_forall.
  intros c [_ Hc]%live_claims_elem. rewrite Forall_forall in Hbounty. by apply Hbounty.
Qed.

Lemma discovery_units_total : live_claims ≠ [] → 0 < dict_sum (positive_part discovery_units).
Proof.
  intros Hl. destruct live_claims as [|c l] eqn:E; [done|].
  assert (is_Some (discovery_units !! bc_hotkey c)) as [v Hv].
  { apply units_by_hotkey_dom. rewrite E. csimpl. left. }
  eapply dict_sum_positive; [|exact Hv|by eapply discovery_units_pos]. intros k w Hk. apply discovery_units_pos in Hk. lia.
Qed.

Lemma discovery_pool_bounds : 0 ≤ discovery_pool < WEIGHT_PPM.
Proof. unfold discovery_pool. pose proof (ew_pool p Hp). destruct (is_nil live_claims); [done | lia]. Qed.

Section with_standing.
Context (acc : standing_acc) (Hinv : standing_inv ctx acc) (Hsome : ¬ map_Forall (λ _ v, v = 0) acc.2).
Context (Hlive : Forall (bounty_ok p ctx) discoveries).

Lemma standing_total : 0 < dict_sum (positive_part acc.2).
Proof.
  apply map_not_Forall in Hsome as (k & v & Hk & Hv); [|apply _].
  destruct (standing_inv_nonneg ctx acc k v Hinv Hk) as [Hv0 _].
  eapply dict_sum_positive; [|exact Hk|lia]. intros j w Hj. by apply (standing_inv_nonneg ctx acc j w Hinv).
Qed.

Lemma combined_sum : dict_sum (combined_weights acc.2) = WEIGHT_PPM.
Proof.
  pose proof discovery_pool_bounds as Hdp. pose proof standing_total as Hst. unfold combined_weights.
  assert (dict_sum (pool_shares acc.2 (WEIGHT_PPM - discovery_pool)) = WEIGHT_PPM - discovery_pool) as Hs.
  { eapply allocate_pool_sum. by apply allocate_pool_total. }
  destruct (is_nil live_claims) eqn:E.
  - rewrite Hs. unfold discovery_pool. rewrite E. lia.
  - rewrite dict_sum_add_all, Hs. erewrite (allocate_pool_sum discovery_units discovery_pool); [lia|].
    apply allocate_pool_total, discovery_units_total. intros E'. by rewrite E' in E.
Qed.

Lemma combined_eligible k : is_Some (combined_weights acc.2 !! k) → k ∈ eligible_hotkeys ctx.
Proof.
  pose proof discovery_pool_bounds as Hdp. pose proof standing_total as Hst.
  assert (is_Some (pool_shares acc.2 (WEIGHT_PPM - discovery_pool) !! k) → k ∈ eligible_hotkeys ctx) as Hs.
  { intros Hk. eapply allocate_pool_dom in Hk as (v & Hv & _); [|by apply allocate_pool_total].
    by apply (standing_inv_nonneg ctx acc k v Hinv). }
  unfold combined_weights. destruct (is_nil live_claims) eqn:E; [done|].
  rewrite add_all_dom. intros [Hk|Hk]; [by apply Hs|].
  assert (live_claims ≠ []) as Hne by (intros E'; by rewrite E' in E).
  eapply allocate_pool_dom in Hk as (v & Hv & _); [|by apply allocate_pool_total, discovery_units_total].
  assert (k ∈ bc_hotkey <$> live_claims) as Hin by (apply units_by_hotkey_dom with (units := bc_bounty_units); eauto).
  apply list_elem_of_fmap in Hin as (c & -> & [Hal Hc]%live_claims_elem).
  rewrite Forall_forall in Hlive. by apply Hlive.
Qed.

(** A hotkey's weight is its share of each pool. *)
Lemma combined_get k :
  dict_get (combined_weights acc.2) k =
  dict_get (pool_shares acc.2 (WEIGHT_PPM - discovery_pool)) k +
  (if is_nil live_claims then 0 else dict_get (pool_shares discovery_units discovery_pool) k).
Proof.
  unfold combined_weights. destruct (is_nil live_claims); [lia|]. by rewrite add_all_get.
Qed.

Lemma combined_nonneg k : 0 ≤ dict_get (combined_weights acc.2) k.
Proof.
  pose proof discovery_pool_bounds. pose proof standing_total. rewrite combined_get.
  pose proof (pool_shares_nonneg acc.2 (WEIGHT_PPM - discovery_pool) k ltac:(lia) ltac:(done)).
  destruct (is_nil live_claims) eqn:E; [lia|].
  pose proof (pool_shares_nonneg discovery_units discovery_pool k ltac:(lia)) as Hd.
  specialize (Hd ltac:(apply discovery_units_total; intros E'; by rewrite E' in E)). lia.
Qed.
End with_standing.

(** The families the standing loop lists are in canonical order. *)
Lemma standing_sorted acc :
  NoDup (aa_arena_digest <$> arenas) → foldM (arena_step p ctx) (sorted_by aa_arena_digest arenas) ([], ∅) = Ok acc →
  standing_inv ctx acc ∧ standing_keys acc.1 = merge_sort pair_le (standing_keys acc.1).
Proof.
  intros Hnd Hf. apply arena_loop_Ok in Hf as [Hi Hk]; [|done|by rewrite sorted_by_perm|apply standing_inv_init].
  split; [done|]. symmetry. apply merge_sort_pair_id. rewrite Hk. cbn [fst standing_keys fmap list_fmap app].
  apply families_sorted; [by rewrite sorted_by_perm | apply sorted_by_sorted|].
  intros a. apply sorted_by_sorted.
Qed.

(** The constructor accepts the projection: only the digests can be refused. *)
Lemma reward_init pd acc r :
  NoDup (aa_arena_digest <$> arenas) → foldM (arena_step p ctx) (sorted_by aa_arena_digest arenas) ([], ∅) = Ok acc →
  ¬ map_Forall (λ _ v, v = 0) acc.2 → Forall (bounty_ok p ctx) discoveries →
  GlobalRewardProjection_init (PStr pd) ctx (sorted_str (ArenaRewardAuthority_digest <$> sorted_by aa_arena_digest arenas))
    acc.1 (bounty_credit <$> live_claims)
    (DiscoveryBountyClaim_digest <$> filter (λ c, ¬ alive p ctx c) (sorted_by DiscoveryBountyClaim_digest discoveries))
    (listed (combined_weights acc.2)) = Ok r ↔
  digest_ok pd ∧ Forall digest_ok (ArenaRewardAuthority_digest <$> arenas) ∧ r = reward_projection pd acc.
Proof.
  intros Hnd Hf Hsome Hlive. destruct (standing_sorted acc Hnd Hf) as [Hinv Hkeys].
  pose proof (combined_sum acc Hinv Hsome) as Hsum.
  assert (Forall digest_ok (ArenaRewardAuthority_digest <$> arenas) ↔
    forM_ (sorted_str (ArenaRewardAuthority_digest <$> sorted_by aa_arena_digest arenas)) (λ d, do! EC._digest (PStr d) ;; Ok tt) = Ok tt) as ->.
  { rewrite digests_checked. unfold sorted_str. by rewrite (sorted_by_perm id), (sorted_by_perm aa_arena_digest). }
  unfold GlobalRewardProjection_init. rewrite listed_hotkeys, listed_sum, !sorted_str_idemp.
  rewrite <- Hkeys. pose proof (sorted_str_NoDup _ (NoDup_fst_map_to_list (combined_weights acc.2))). split.
  - intros Hr. apply bind_Ok in Hr as (? & [[= <-] ?]%EC_digest_Ok & Hr). apply bind_Ok in Hr as ([] & Ha & Hr).
    inv_ok Hr. split_and!; try done.
  - intros (Hd & Ha & ->). rewrite (proj2 (EC_digest_Ok (PStr pd) pd)) by done. cbn [bind]. rewrite Ha. cbn [bind].
    pass_guard. pass_guard. pass_guard. pass_guard. done.
Qed.

Lemma project_global_rewards_Ok r :
  project_global_rewards p ctx arenas discoveries = Ok r ↔
  arenas ≠ [] ∧ NoDup (aa_arena_digest <$> arenas) ∧
  NoDup (bc_proposal_digest <$> discoveries) ∧ NoDup (bc_retained_evidence_digest <$> discoveries) ∧
  NoDup (DiscoveryBountyClaim_digest <$> discoveries) ∧ Forall (bounty_ok p ctx) discoveries ∧
  (live_claims ≠ [] → 0 < em_discovery_pool_ppm p) ∧
  ∃ acc pd, foldM (arena_step p ctx) (sorted_by aa_arena_digest arenas) ([], ∅) = Ok acc ∧
    ¬ map_Forall (λ _ v, v = 0) acc.2 ∧
    EmissionsPolicyManifest_digest p = Ok pd ∧ digest_ok pd ∧
    Forall digest_ok (ArenaRewardAuthority_digest <$> arenas) ∧ r = reward_projection pd acc.
Proof.
  unfold project_global_rewards. split.
  - intros Hr. apply bind_Ok in Hr as (? & Hnil & Hr). apply bind_Ok in Hr as (? & Hnd & Hr).
    apply raise_if_Ok in Hnil, Hnd. bool_prop. apply bind_Ok in Hr as ([fc st] & Hf & Hr).
    apply bind_Ok in Hr as (? & Hsome & Hr). apply bind_Ok in Hr as (? & Hdup & Hr).
    apply raise_if_Ok in Hsome, Hdup. bool_prop.
    apply bind_Ok in Hr as ([[live expired] dm] & Hd & Hr).
    apply discovery_loop_Ok in Hd as [Hlive Hres]; [|done]. rewrite sorted_by_perm in Hlive.
    unfold discovery_result in Hres. simpl in Hres. injection Hres as -> -> ->.
    fold live_claims in Hr. rewrite !is_nil_fmap in Hr. fold discovery_pool in Hr.
    change (fold_left _ live_claims ∅) with discovery_units in Hr.
    apply bind_Ok in Hr as (? & Hpool & Hr). apply raise_if_Ok in Hpool.
    destruct (standing_sorted (fc, st) Hnd Hf) as [Hinv Hkeys].
    pose proof (standing_total (fc, st) Hinv Hsome) as Hst. cbn [snd] in Hst.
    rewrite allocate_pool_total in Hr by done. cbn [bind] in Hr.
    assert ((if is_nil live_claims then Ok (pool_shares st (WEIGHT_PPM - discovery_pool))
      else let! shares := _allocate_pool discovery_units discovery_pool in
           Ok (add_all (pool_shares st (WEIGHT_PPM - discovery_pool)) shares)) = Ok (combined_weights st)) as Hc.
    { unfold combined_weights. destruct (is_nil live_claims) eqn:E; [done|]. rewrite allocate_pool_total; [done|].
      apply discovery_units_total. intros E'. by rewrite E' in E. }
    rewrite Hc in Hr. cbn [bind] in Hr. apply bind_Ok in Hr as (pd & Hpd & Hr).
    apply (reward_init pd (fc, st)) in Hr as (Dpd & Dar & ->); [|done..].
    assert (arenas ≠ []) by (intros ->; done).
    split_and!; try done; [|by exists (fc, st), pd]. intros Hne. apply andb_false_iff in Hpool as [Hn|Hz].
    + apply negb_false_iff in Hn. by destruct live_claims.
    + bool_prop. unfold discovery_pool in Hz. pose proof (ew_pool p Hp). destruct (is_nil live_claims); [done | lia].
  - intros (Hne & Hnd & H1 & H2 & H3 & Hlive & Hpool & [fc st] & pd & Hf & Hsome & Hpd & Dpd & Dar & ->).
    destruct (standing_sorted (fc, st) Hnd Hf) as [Hinv Hkeys].
    pose proof (standing_total (fc, st) Hinv Hsome) as Hst. cbn [snd] in *.
    replace (is_nil arenas) with false by (by destruct arenas). cbn [raise_if bind]. pass_guard. rewrite Hf. cbn [bind].
    pass_guard. pass_guard.
    rewrite (proj2 (discovery_loop_Ok p ctx _ _ (discovery_result p ctx (sorted_by DiscoveryBountyClaim_digest discoveries) ([], [], ∅)) Hblock))
      by (split; [by rewrite sorted_by_perm | done]).
    cbn [bind discovery_result fst snd app]. fold live_claims. rewrite !is_nil_fmap. fold discovery_pool.
    change (fold_left _ live_claims ∅) with discovery_units.
    replace (raise_if (negb (is_nil live_claims) && _) _) with (Ok tt).
    2: { symmetry. apply raise_if_Ok. unfold discovery_pool. destruct live_claims as [|c l] eqn:E; [done|].
         simpl. apply Z.eqb_neq. specialize (Hpool ltac:(done)). lia. }
    cbn [bind]. rewrite allocate_pool_total by done. cbn [bind].
    eapply bind_step; [|cbv beta; rewrite Hpd; cbn [bind]; by apply (reward_init pd (fc, st))].
    unfold combined_weights. destruct (is_nil live_claims) eqn:E; [done|]. rewrite allocate_pool_total; [done|].
    apply discovery_units_total. intros E'. by rewrite E' in E.
Qed.
End projection.

(** Standing credit decays.  A crown's credit at a block is defined exactly
    from its crowning on; it starts at the full improvement, never grows with
    age, is never negative, and one half-life after the crown half of it is
    left, rounded down. *)
Theorem credit_decay c p b1 b2 :
  emissions_wf p → standing_wf c → sc_crowned_block c ≤ b1 ≤ b2 →
  ∃ z1 z2, credit_at c (PInt b1) p = Ok z1 ∧ credit_at c (PInt b2) p = Ok z2 ∧
    0 ≤ z2 ≤ z1 ∧ z1 ≤ sc_speedup_ppm c - WEIGHT_PPM ∧
    credit_at c (PInt (sc_crowned_block c)) p = Ok (sc_speedup_ppm c - WEIGHT_PPM) ∧
    credit_at c (PInt (sc_crowned_block c + em_half_life_blocks p)) p = Ok ((sc_speedup_ppm c - WEIGHT_PPM) / 2).
Proof.
  intros Hp Hc Hb. assert (0 ≤ sc_crowned_block c) by apply Hc. pose proof (ew_half_life p Hp).
  exists (decayed c p (b1 - sc_crowned_block c)), (decayed c p (b2 - sc_crowned_block c)).
  pose proof (decayed_bounds c p (b1 - sc_crowned_block c) Hp Hc ltac:(lia)).
  pose proof (decayed_bounds c p (b2 - sc_crowned_block c) Hp Hc ltac:(lia)).
  pose proof (decayed_antitone c p (b1 - sc_crowned_block c) (b2 - sc_crowned_block c) Hp Hc ltac:(lia)).
  split_and!; try lia; apply credit_at_Ok; split_and!; try lia.
  - rewrite Z.sub_diag. by rewrite decayed_fresh.
  - replace (_ + _ - _) with (em_half_life_blocks p) by lia. by rewrite decayed_half.
Qed.

(** Apportioning a pool.  It fails exactly when no credit is positive;
    otherwise exactly the hotkeys with positive credit get a share, the shares
    use up the pool, and each differs from the exact proportional share by less
    than one unit. *)
Theorem pool_apportioned credits pool :
  0 ≤ pool →
  match _allocate_pool credits pool with
  | Raise _ => dict_sum (positive_part credits) ≤ 0
  | Ok shares =>
      dict_sum shares = pool ∧
      (∀ k, is_Some (shares !! k) ↔ ∃ v, credits !! k = Some v ∧ 0 < v) ∧
      ∀ k v a, credits !! k = Some v → shares !! k = Some a →
        0 ≤ a ∧ Z.abs (a * dict_sum (positive_part credits) - v * pool) < dict_sum (positive_part credits)
  end.
Proof.
  intros Hpool. destruct (_allocate_pool credits pool) as [shares|e] eqn:E.
  - split; [by eapply allocate_pool_sum|]. split; [intros k; by eapply allocate_pool_dom|]. intros k v a Hk Ha.
    assert (∃ v, credits !! k = Some v ∧ 0 < v) as (v' & Hv' & Hpos) by (eapply allocate_pool_dom; eauto).
    assert (v' = v) as -> by congruence.
    edestruct allocate_pool_quota as (a' & Ha' & ? & ?); [done | exact E | exact Hk | done|].
    assert (a' = a) as -> by congruence. split; lia.
  - unfold _allocate_pool in E. destruct (Z.leb_spec (dict_sum (positive_part credits)) 0); done.
Qed.

Section rewards.
Context `{Sha256}.

(** C3: the published weight vector is canonical and normalized: hotkeys are in
    order and distinct, each is a member of the metagraph, no weight is
    negative, and the weights add up to exactly one million. *)
Theorem rewards_normalized p ctx arenas discoveries r :
  emissions_wf p → 0 ≤ gc_current_block ctx → Forall (λ a, Forall standing_wf (aa_standing_claims a)) arenas →
  Forall bounty_wf discoveries → project_global_rewards p ctx arenas discoveries = Ok r →
  kw_hotkey <$> gp_weights r = sorted_str (kw_hotkey <$> gp_weights r) ∧ NoDup (kw_hotkey <$> gp_weights r) ∧
  Forall (λ w, kw_hotkey w ∈ eligible_hotkeys ctx ∧ 0 ≤ kw_weight_ppm w) (gp_weights r) ∧
  Zsum (kw_weight_ppm <$> gp_weights r) = 1000000.
Proof.
  intros Hp Hb Hs Hd Hr.
  apply project_global_rewards_Ok in Hr as (_ & Hnd & _ & _ & _ & Hlive & _ & acc & pd & Hf & Hsome & _ & _ & _ & ->); [|done..].
  destruct (standing_sorted p ctx arenas Hp Hs acc Hnd Hf) as [Hinv _].
  cbn [gp_weights reward_projection]. rewrite listed_hotkeys, listed_sum, sorted_str_idemp.
  split; [done|]. split; [apply sorted_str_NoDup, NoDup_fst_map_to_list|]. split; [|by apply combined_sum].
  apply Forall_forall. intros w [Hw ->]%listed_elem. split; [by eapply combined_eligible|].
  by apply combined_nonneg.
Qed.

(** Standing rewards.  Every active target of every arena is credited
    exactly once, in canonical order, and each credit is the decayed credit of
    the standing claim its arena holds for that target, at the current block. *)
Theorem standing_credited p ctx arenas discoveries r :
  emissions_wf p → 0 ≤ gc_current_block ctx → Forall (λ a, Forall standing_wf (aa_standing_claims a)) arenas →
  Forall bounty_wf discoveries → project_global_rewards p ctx arenas discoveries = Ok r →
  standing_keys (gp_standing r) =
    (sorted_by aa_arena_digest arenas ≫= λ a, pair (aa_arena_digest a) <$> arena_targets a) ∧
  Forall (credited p ctx arenas) (gp_standing r).
Proof.
  intros Hp Hb Hs Hd Hr.
  apply project_global_rewards_Ok in Hr as (_ & Hnd & _ & _ & _ & Hlive & _ & acc & pd & Hf & Hsome & _ & _ & _ & ->); [|done..].
  cbn [gp_standing reward_projection]. split; [|by apply arenas_credited].
  apply arena_loop_Ok in Hf as [_ Hk]; [exact Hk | done | by rewrite sorted_by_perm | apply standing_inv_init].
Qed.

(** Discovery bounties.  Every supplied claim is either live and credited
    with its units, or expired and listed as such; a hotkey's weight is its
    share of the standing pool plus, when claims are live, its share of the
    discovery pool, so an expired claim earns nothing. *)
Theorem bounties_partitioned p ctx arenas discoveries r :
  emissions_wf p → 0 ≤ gc_current_block ctx → Forall (λ a, Forall standing_wf (aa_standing_claims a)) arenas →
  Forall bounty_wf discoveries → project_global_rewards p ctx arenas discoveries = Ok r →
  let pool := if is_nil (gp_discovery r) then 0 else em_discovery_pool_ppm p in
  gp_discovery r ≡ₚ bounty_credit <$> filter (alive p ctx) discoveries ∧
  gp_expired_discovery_claims r ≡ₚ DiscoveryBountyClaim_digest <$> filter (λ c, ¬ alive p ctx c) discoveries ∧
  Forall (λ w, kw_weight_ppm w =
    dict_get (pool_shares (units_by_hotkey sf_hotkey sf_credit (gp_standing r)) (WEIGHT_PPM - pool)) (kw_hotkey w) +
    (if is_nil (gp_discovery r) then 0
     else dict_get (pool_shares (units_by_hotkey bcr_hotkey bcr_credit (gp_discovery r)) pool) (kw_hotkey w)))
    (gp_weights r).
Proof.
  intros Hp Hb Hs Hd Hr.
  apply project_global_rewards_Ok in Hr as (_ & Hnd & _ & _ & _ & Hlive & _ & acc & pd & Hf & Hsome & _ & _ & _ & ->); [|done..].
  destruct (standing_sorted p ctx arenas Hp Hs acc Hnd Hf) as [Hinv _].
  cbn [gp_discovery gp_expired_discovery_claims gp_weights gp_standing reward_projection].
  rewrite is_nil_fmap. fold (discovery_pool p ctx discoveries). cbv zeta.
  split; [unfold live_claims; by rewrite sorted_by_perm|]. split; [by rewrite sorted_by_perm|].
  apply Forall_forall. intros w [_ ->]%listed_elem. rewrite combined_get.
  rewrite (proj1 Hinv). unfold discovery_units, units_by_hotkey. by rewrite fold_left_fmap.
Qed.

(** The projection does not depend on the order in which arenas and bounty
    claims are supplied, for results and for errors. *)
Theorem rewards_order_independent p ctx arenas1 arenas2 discoveries1 discoveries2 :
  arenas1 ≡ₚ arenas2 → discoveries1 ≡ₚ discoveries2 →
  project_global_rewards p ctx arenas1 discoveries1 = project_global_rewards p ctx arenas2 discoveries2.
Proof.
  intros Ha Hd. unfold project_global_rewards.
  apply bind_cong; [apply Permutation_length in Ha; by destruct arenas1, arenas2|]. intros _ _.
  apply bind_cong; [f_equal; f_equal; apply bool_decide_ext; by rewrite Ha|]. intros ? Hnd.
  apply raise_if_Ok in Hnd. bool_prop. rewrite <- (sorted_by_perm_eq aa_arena_digest arenas1 arenas2 Hnd Ha).
  apply bind_cong; [done|]. intros [fc st] _. apply bind_cong; [done|]. intros _ _.
  assert (∀ B (key : _ → B) `{EqDecision B}, bool_decide (NoDup (key <$> discoveries1)) = bool_decide (NoDup (key <$> discoveries2))) as E.
  { intros B key ?. apply bool_decide_ext. by rewrite Hd. }
  apply bind_cong; [by rewrite !E|]. intros ? Hdup. apply raise_if_Ok in Hdup. bool_prop.
  by rewrite <- (sorted_by_perm_eq DiscoveryBountyClaim_digest discoveries1 discoveries2).
Qed.

(** The context of the single-arena projection as a global one. *)
Definition global_context (c : RewardProjectionContext) : GlobalRewardProjectionContext :=
  {| gc_chain_scope_digest := rc_chain_scope_digest c;
     gc_validator_hotkey := rc_validator_hotkey c;
     gc_current_block := rc_current_block c;
     gc_current_block_hash := rc_current_block_hash c;
     gc_metagraph_members := rc_metagraph_members c |}.

Lemma context_rebuilds a1 a2 a3 a4 a5 members ctx :
  RewardProjectionContext_init a1 a2 a3 a4 a5 members = Ok ctx →
  0 ≤ rc_current_block ctx ∧ 0 ≤ rc_stack_generation ctx ∧
  GlobalRewardProjectionContext_init (PStr (rc_chain_scope_digest ctx)) (PStr (rc_validator_hotkey ctx))
    (PInt (rc_current_block ctx)) (PStr (rc_current_block_hash ctx)) (rc_metagraph_members ctx) = Ok (global_context ctx).
Proof.
  intros Hi. unfold RewardProjectionContext_init in Hi. inv_ok Hi. subst ctx. ec_facts. cbn [rc_current_block rc_stack_generation
    rc_chain_scope_digest rc_validator_hotkey rc_current_block_hash rc_metagraph_members].
  split; [done|]. split; [done|]. unfold GlobalRewardProjectionContext_init, RewardProjectionContext_init.
  rewrite (proj2 (EC_digest_Ok (PStr _) _)) by eauto. cbn [bind]. rewrite (proj2 (EC_hotkey_Ok (PStr _) _)) by eauto. cbn [bind].
  rewrite !(proj2 (EC_integer_Ok _ (PInt _) _)) by (split; [done | lia]). cbn [bind require_str].
  rewrite (merge_sort_member_id (merge_sort member_le members)) by apply merge_sort_member_sorted.
  repeat match goal with Hx : ?b = false |- _ => progress rewrite Hx end. done.
Qed.

(** The single-arena projection is the global projection of its one arena:
    it succeeds exactly when that does (and the catalog, stack and expired-claim
    digests are admissible), with the same credits and the same weights. *)
Theorem single_arena_agrees p catalog stack ctx claims discoveries r a1 a2 a3 a4 a5 members :
  RewardProjectionContext_init a1 a2 a3 a4 a5 members = Ok ctx →
  emissions_wf p → Forall standing_wf claims → Forall bounty_wf discoveries →
  let authority := {| aa_catalog := catalog; aa_stack := stack; aa_stack_generation := rc_stack_generation ctx;
                      aa_standing_claims := claims |} in
  project_rewards p catalog stack ctx claims discoveries = Ok r ↔
  ∃ g, project_global_rewards p (global_context ctx) [authority] discoveries = Ok g ∧
    digest_ok (tc_digest catalog) ∧ digest_ok (EvaluationStackManifest_digest stack) ∧
    Forall digest_ok (gp_expired_discovery_claims g) ∧
    r = {| rp_policy_digest := gp_policy_digest g; rp_catalog_digest := tc_digest catalog;
           rp_evaluation_stack_digest := EvaluationStackManifest_digest stack; rp_context := ctx;
           rp_standing := gp_standing g; rp_discovery := gp_discovery g;
           rp_expired_discovery_claims := gp_expired_discovery_claims g; rp_weights := gp_weights g |}.
Proof.
  intros (Hb & Hgen & Hglobal)%context_rebuilds Hp Hs Hd authority.
  unfold project_rewards, ArenaRewardAuthority_init.
  rewrite (proj2 (EC_integer_Ok 0 (PInt _) _)) by done. cbn [bind]. rewrite Hglobal. cbn [bind]. fold authority.
  rewrite bind_Ok. split; intros (g & Hg & Hr); exists g; (split; [done|]);
    pose proof (global_canonical p (global_context ctx) [authority] discoveries g Hg) as (Dpd & Hk & Hw & Hnd & Hsum).
  - unfold RewardProjection_init in Hr. apply bind_Ok in Hr as (? & [[= <-] _]%EC_digest_Ok & Hr).
    apply bind_Ok in Hr as (? & [[= <-] ?]%EC_digest_Ok & Hr). apply bind_Ok in Hr as (? & [[= <-] ?]%EC_digest_Ok & Hr).
    apply bind_Ok in Hr as (? & _ & Hr). apply bind_Ok in Hr as ([] & Hx & [= <-]). apply digests_checked in Hx. done.
  - destruct Hr as (Dc & Ds & De & ->). unfold RewardProjection_init.
    rewrite !(proj2 (EC_digest_Ok (PStr _) _)) by eauto. cbn [bind]. pass_guard.
    rewrite (proj2 (digests_checked _)) by done. done.
Qed.

(** The policy's schema version is compared with [!=] only.  [True] and
    [1.0] pass the constructor; the policy built with [1.0] has no digest, so
    every projection under it raises a [StackIdentityError]. *)
Theorem schema_version_loose h l pool :
  1 ≤ h → 1 ≤ l → 0 ≤ pool < WEIGHT_PPM →
  (∃ p, EmissionsPolicyManifest_init (PInt h) (PInt l) (PInt pool) (PBool true) (PStr EC.POLICY_VERSION) = Ok p) ∧
  ∃ p, EmissionsPolicyManifest_init (PInt h) (PInt l) (PInt pool) (PFloat (FFinite 1 0)) (PStr EC.POLICY_VERSION) = Ok p ∧
    EmissionsPolicyManifest_digest p = Raise (Exn StackIdentityError "contains a float").
Proof.
  intros Hh Hl Hp. unfold EmissionsPolicyManifest_init.
  rewrite !(proj2 (EC_integer_Ok _ (PInt _) _)) by (split; [done | lia]). cbn [bind].
  rewrite (proj2 (Z.leb_gt _ _)) by lia. split; eexists; [done|]. split; done.
Qed.
End rewards.
