(* ===== verification/Scenario.v ===== *)
(** * A worked scenario

    Two finite-debt policies (with and without a reserve), two innovation
    claims, a composition policy and a discovery claim, all built by the
    modelled operations with SHA-256 itself.  The scenario shows that the
    hypotheses of the properties hold together on concrete records. *)

From Stdlib Require Import ZArith Lia Ascii.
From stdpp Require Import base tactics numbers list strings gmap sorting relations.
From S2P Require Import Prelude PyValue Sha256 Identity Strict Apportion Decimal FiniteDebt FiniteDebtBalance FiniteDebtPolicy.
From S2P Require Import FiniteDebtEpoch FiniteDebtClaims.

#[local] Existing Instance fips_sha256.

(** A digest made of one repeated character. *)
Definition rep (c : ascii) : string := String.string_of_list_ascii (replicate 64 c).

Definition text_of (r : result string) : string := match r with Ok s => s | Raise _ => "" end.

(** ** The policies *)

Definition ex_family : string := rep "b".
Definition ex_campaign : string := rep "a".
Definition ex_mappings : list RewardFamilyCampaign := [{| rfc_family_id := ex_family; rfc_campaign_id := ex_campaign |}].

Definition ex_init (reserve : Z) : result FiniteDebtPolicyManifest :=
  FiniteDebtPolicyManifest_init [{| cbs_campaign_id := ex_campaign; cbs_share_ppm := PPM |}] ex_mappings
    (PStr (rep "c")) (PStr "reserve") (PInt reserve) (PInt 360) (PInt 500000) (PInt 7200) (PInt 100000) (PInt 1000000)
    (PStr "gross") (PInt 1000000) (PInt 2) (PStr "optima.finite-debt.v2").

Definition ex_policy (reserve : Z) : FiniteDebtPolicyManifest :=
  {| fp_campaign_budget_shares := [{| cbs_campaign_id := ex_campaign; cbs_share_ppm := PPM |}];
     fp_reward_family_campaigns := ex_mappings;
     fp_selection_report_digest := rep "c";
     fp_reserve_hotkey := "reserve";
     fp_reserve_ppm := reserve;
     fp_epoch_blocks := 360;
     fp_beta_ppm := 500000;
     fp_tau_blocks := 7200;
     fp_lifetime_blocks := 100000;
     fp_k_ppm := 1000000;
     fp_improvement_basis := "gross";
     fp_clock_reset_threshold_log_units_ppm := 1000000;
     fp_schema_version := PInt 2;
     fp_policy_version := "optima.finite-debt.v2" |}.

Lemma ex_mappings_wf : Forall mapping_wf ex_mappings.
Proof. apply Forall_singleton. split; split; done. Qed.

(** The policy that keeps a tenth for the reserve, and the one that keeps none. *)
Lemma ex_init_policy : ex_init 100000 = Ok (ex_policy 100000).
Proof. vm_compute. reflexivity. Qed.
Lemma ex_init_policy0 : ex_init 0 = Ok (ex_policy 0).
Proof. vm_compute. reflexivity. Qed.

Lemma ex_policy_wf : policy_wf (ex_policy 100000).
Proof. exact (proj1 (FiniteDebtPolicyManifest_init_wf _ _ _ _ _ _ _ _ _ _ _ _ _ _ _ ex_init_policy ex_mappings_wf)). Qed.
Lemma ex_policy0_wf : policy_wf (ex_policy 0).
Proof. exact (proj1 (FiniteDebtPolicyManifest_init_wf _ _ _ _ _ _ _ _ _ _ _ _ _ _ _ ex_init_policy0 ex_mappings_wf)). Qed.

Definition ex_pd : string := Eval vm_compute in text_of (FiniteDebtPolicyManifest_digest (ex_policy 100000)).
Definition ex_pd0 : string := Eval vm_compute in text_of (FiniteDebtPolicyManifest_digest (ex_policy 0)).

Lemma ex_pd_digest : FiniteDebtPolicyManifest_digest (ex_policy 100000) = Ok ex_pd.
Proof. vm_compute. reflexivity. Qed.
Lemma ex_pd0_digest : FiniteDebtPolicyManifest_digest (ex_policy 0) = Ok ex_pd0.
Proof. vm_compute. reflexivity. Qed.

(** ** The claims *)

Lemma ex_units : log_improvement_units_ppm (PStr "1.044") "gross" (PStr "1") = Ok 4327442.
Proof. vm_compute. reflexivity. Qed.

(** An improvement of 1.044 crowned at block 1000 and settled at block 1010. *)
Definition ex_claim_of (reserve : Z) (pd candidate hotkey : string) : InnovationDebtClaim :=
  issued_claim (ex_policy reserve) pd ex_family ex_campaign candidate (rep "e") hotkey "1.044" "1" 1000 1010 None 4327442.

Notation ex_issue reserve candidate hotkey :=
  (issue_innovation_claim (ex_policy reserve) (PStr ex_family) (PStr candidate) (PStr (rep "e")) (PStr hotkey)
    (PStr "1.044") (PStr "1") (PInt 1000) PNone (PInt 1010)).

Lemma ex_issued reserve pd candidate hotkey :
  policy_wf (ex_policy reserve) → FiniteDebtPolicyManifest_digest (ex_policy reserve) = Ok pd → digest_ok pd →
  digest_ok candidate → hotkey_matches hotkey = true → 0 < claim_principal (ex_policy reserve) 4327442 PPM →
  ex_issue reserve candidate hotkey = Ok (ex_claim_of reserve pd candidate hotkey).
Proof.
  intros Hp Hpd Dpd Dc Hh Hpr. eapply issue_innovation_claim_Ok; [exact Hp|].
  exists pd, ex_family, ex_campaign, candidate, (rep "e"), hotkey, "1.044", "1", 1000, 1010, None, 4327442.
  split; [done|]. split; [done|]. split; [done|]. split; [done|]. split; [exact Hpd|].
  split; [by rewrite !Forall_cons; split_and!|]. split; [done|]. split; [done|]. split; [exact ex_units|].
  split; [lia|]. split; [done|]. split; [exact Hpr | reflexivity].
Qed.

Definition ex_claim1 : InnovationDebtClaim := ex_claim_of 100000 ex_pd (rep "d") "alice".
Definition ex_claim2 : InnovationDebtClaim := ex_claim_of 100000 ex_pd (rep "f") "bob".
Definition ex_claim0 : InnovationDebtClaim := ex_claim_of 0 ex_pd0 (rep "d") "alice".

Lemma ex_issued1 : ex_issue 100000 (rep "d") "alice" = Ok ex_claim1.
Proof. apply ex_issued; [apply ex_policy_wf | apply ex_pd_digest | done..]. Qed.
Lemma ex_issued2 : ex_issue 100000 (rep "f") "bob" = Ok ex_claim2.
Proof. apply ex_issued; [apply ex_policy_wf | apply ex_pd_digest | done..]. Qed.
Lemma ex_issued0 : ex_issue 0 (rep "d") "alice" = Ok ex_claim0.
Proof. apply ex_issued; [apply ex_policy0_wf | apply ex_pd0_digest | done..]. Qed.

Definition ex_cd1 : string := Eval vm_compute in InnovationDebtClaim_digest ex_claim1.
Definition ex_cd2 : string := Eval vm_compute in InnovationDebtClaim_digest ex_claim2.
Definition ex_cd0 : string := Eval vm_compute in InnovationDebtClaim_digest ex_claim0.

Lemma ex_cd1_digest : InnovationDebtClaim_digest ex_claim1 = ex_cd1.
Proof. vm_compute. reflexivity. Qed.
Lemma ex_cd2_digest : InnovationDebtClaim_digest ex_claim2 = ex_cd2.
Proof. vm_compute. reflexivity. Qed.
Lemma ex_cd0_digest : InnovationDebtClaim_digest ex_claim0 = ex_cd0.
Proof. vm_compute. reflexivity. Qed.

(** ** The ledger *)

Definition ex_open (c : InnovationDebtClaim) (digest : string) : DebtClaimBalance :=
  {| db_claim_digest := digest; db_principal_units := ic_principal_units c; db_paid_units := 0; db_forfeited_units := 0;
     db_remaining_units := ic_principal_units c; db_status := "open"; db_terminal_block := None; db_terminal_reason := "" |}.

Definition ex_state1 : DebtClaimState := {| ds_claim := ex_claim1; ds_balance := ex_open ex_claim1 ex_cd1 |}.
Definition ex_state2 : DebtClaimState := {| ds_claim := ex_claim2; ds_balance := ex_open ex_claim2 ex_cd2 |}.
Definition ex_state0 : DebtClaimState := {| ds_claim := ex_claim0; ds_balance := ex_open ex_claim0 ex_cd0 |}.
Definition ex_ledger : list DebtClaimState := [ex_state1; ex_state2].
Definition ex_ledger0 : list DebtClaimState := [ex_state0].

Lemma ex_open_Ok c digest :
  InnovationDebtClaim_digest c = digest → digest_ok digest → 1 ≤ ic_principal_units c →
  DebtClaimBalance_open c = Ok (ex_open c digest).
Proof.
  intros E Hd Hp. unfold DebtClaimBalance_open. rewrite E. apply (proj2 (balance_of_Ok (ex_open c digest) _)).
  split; [done|]. unfold balance_wf, balance_phase, reason_ok; simpl. split_and!; try done; try lia.
  unfold BALANCE_STATUSES. left.
Qed.

Lemma ex_opened1 : DebtClaimBalance_open ex_claim1 = Ok (ex_open ex_claim1 ex_cd1).
Proof. apply ex_open_Ok; [exact ex_cd1_digest | done..]. Qed.
Lemma ex_opened2 : DebtClaimBalance_open ex_claim2 = Ok (ex_open ex_claim2 ex_cd2).
Proof. apply ex_open_Ok; [exact ex_cd2_digest | done..]. Qed.
Lemma ex_opened0 : DebtClaimBalance_open ex_claim0 = Ok (ex_open ex_claim0 ex_cd0).
Proof. apply ex_open_Ok; [exact ex_cd0_digest | done..]. Qed.

Lemma ex_state_inv reserve candidate hotkey c b states :
  ex_issue reserve candidate hotkey = Ok c → DebtClaimBalance_open c = Ok b → ledger_inv states →
  ledger_inv ({| ds_claim := c; ds_balance := b |} :: states).
Proof.
  intros Hi Ho Hs. apply Forall_cons. split; [|exact Hs]. split; [exact (proj1 (issued_wf _ _ _ _ _ _ _ _ _ _ _ Hi))|].
  by apply balance_inv_open.
Qed.

Lemma ex_ledger_inv : ledger_inv ex_ledger.
Proof.
  exact (ex_state_inv _ _ _ _ _ _ ex_issued1 ex_opened1 (ex_state_inv _ _ _ _ _ _ ex_issued2 ex_opened2 (Forall_nil_2 _))).
Qed.
Lemma ex_ledger0_inv : ledger_inv ex_ledger0.
Proof. exact (ex_state_inv _ _ _ _ _ _ ex_issued0 ex_opened0 (Forall_nil_2 _)). Qed.

Lemma ex_keys : claim_key <$> ex_ledger = [ex_cd1; ex_cd2].
Proof. unfold claim_key. cbn [fmap list_fmap ex_ledger ds_claim ex_state1 ex_state2]. by rewrite ex_cd1_digest, ex_cd2_digest. Qed.
Lemma ex_keys0 : claim_key <$> ex_ledger0 = [ex_cd0].
Proof. unfold claim_key. cbn [fmap list_fmap ex_ledger0 ds_claim ex_state0]. by rewrite ex_cd0_digest. Qed.

Lemma ex_check reserve candidate hotkey c b block :
  ex_issue reserve candidate hotkey = Ok c → ic_hotkey c ≠ "reserve" → ic_settlement_block c ≤ block < ic_expires_block c →
  check_epoch_state (ex_policy reserve) block {| ds_claim := c; ds_balance := b |} = Ok tt.
Proof.
  intros Hi Hh Hb. apply check_epoch_state_Ok.
  split; [exact (proj2 (issued_wf _ _ _ _ _ _ _ _ _ _ _ Hi)) | intros _; split; [exact Hh | exact Hb]].
Qed.

Lemma ex_checked : Forall (λ s, check_epoch_state (ex_policy 100000) 1500 s = Ok tt) ex_ledger.
Proof.
  apply Forall_cons. split; [apply (ex_check _ _ _ _ _ _ ex_issued1); by vm_compute|]. apply Forall_singleton.
  apply (ex_check _ _ _ _ _ _ ex_issued2); by vm_compute.
Qed.

(** ** The epoch at block 1500 *)

Definition ex_sd1 : string := Eval vm_compute in DebtClaimState_digest ex_state1.
Definition ex_sd2 : string := Eval vm_compute in DebtClaimState_digest ex_state2.
Definition ex_sd0 : string := Eval vm_compute in DebtClaimState_digest ex_state0.

Lemma ex_sd1_digest : DebtClaimState_digest ex_state1 = ex_sd1.
Proof. vm_compute. reflexivity. Qed.
Lemma ex_sd2_digest : DebtClaimState_digest ex_state2 = ex_sd2.
Proof. vm_compute. reflexivity. Qed.
Lemma ex_sd0_digest : DebtClaimState_digest ex_state0 = ex_sd0.
Proof. vm_compute. reflexivity. Qed.

Lemma ex_state_digests : state_digests ex_ledger ≡ₚ [ex_sd1; ex_sd2].
Proof.
  unfold state_digests. rewrite sorted_by_perm. cbn [fmap list_fmap ex_ledger]. by rewrite ex_sd1_digest, ex_sd2_digest.
Qed.

Definition ex_projection : DebtEpochProjection := epoch_projection (ex_policy 100000) 1500 ex_ledger ex_pd.

Lemma ex_digests_ok : Forall digest_ok [ex_sd1; ex_sd2].
Proof. rewrite !Forall_cons. split_and!; done. Qed.

Lemma ex_projected : project_debt_epoch (ex_policy 100000) (PInt 1500) ex_ledger = Ok ex_projection.
Proof.
  apply (proj2 (project_debt_epoch_Ok (ex_policy 100000) (PInt 1500) ex_ledger ex_projection ex_policy_wf
    (ledger_inv_wf _ ex_ledger_inv))).
  exists 1500, ex_pd. split; [done|]. split; [done|]. rewrite ex_keys. split; [by apply (bool_decide_unpack _)|].
  split; [exact ex_checked|]. split; [exact ex_pd_digest|]. split; [done|]. rewrite ex_state_digests.
  split; [by apply (bool_decide_unpack _)|]. split; [exact ex_digests_ok | reflexivity].
Qed.
