(* ===== verification/StackWitnesses.v ===== *)
(** * The stack, plan, settlement and release properties on the scenario

    The records of the scenario, then lemmas that each apply one property of
    [ReleaseCorrect], [StackPlanCorrect] or [SettlementCorrect] to them. *)

From Stdlib Require Import ZArith Lia Ascii.
From stdpp Require Import base tactics numbers list strings gmap sorting relations.
From S2P Require Import Prelude PyValue Sha256 Identity Strict Graph Provider Catalog CatalogResolve CatalogFacts CatalogCorrect Stack.
From S2P Require Import Release StackFacts ReleaseCorrect StackPlan StackPlanCorrect Settlement SettlementPlan SettlementFacts.
From S2P Require Import SettlementCorrect Scenario.

(** ** The catalog properties on the shipped catalog

    Each lemma applies one property of [CatalogCorrect] to the shipped
    specifications and rule, with SHA-256 itself as the hash. *)

#[local] Existing Instance fips_sha256.

Lemma closures_transitive_witness :
  ∃ c, constructed default_specs [moe_rule] c ∧ acyclic (displaces default_specs) ∧
    ∃ D, displacement_closure c MOE_EPILOGUE_ATOMIC_TARGET = Ok D ∧
      ∀ x, x ∈ D ↔ tc (displaces default_specs) MOE_EPILOGUE_ATOMIC_TARGET x.
Proof.
  destruct default_constructed as (c & _ & Hc). exists c. split; [exact Hc|].
  destruct (closures_transitive default_specs [moe_rule] c Hc) as (Hall & Hacyclic & _). split; [exact Hacyclic|].
  apply Hall. apply (bool_decide_unpack _). vm_compute. reflexivity.
Defined.

(** ** Active targets *)

Definition ex_active : list string := ["norm.rmsnorm"; "moe.fused_experts"; "moe.fused_experts_reduce"].

Lemma ex_active_validated c :
  default_target_catalog = Ok c → constructed default_specs [moe_rule] c →
  validate_active_targets c ex_active = Ok ["moe.fused_experts"; "moe.fused_experts_reduce"; "norm.rmsnorm"].
Proof.
  unfold ex_active. intros Hc Hd. destruct (default_answers (cr_binding_contract_digest moe_rule)) as (_ & Ho & _).
  change (moe_rule_with (cr_binding_contract_digest moe_rule)) with moe_rule in Ho. rewrite (proj2 Hd) in Ho. cbn [bind] in Ho.
  unfold ordered_active_targets in Ho. apply bind_Ok in Ho as (l & Hl & _). rewrite Hl.
  apply (validate_active_Ok _ _ _ (constructed_wf _ _ _ Hd)) in Hl as [-> _]. vm_compute. reflexivity.
Qed.

Lemma active_targets_admissible_witness : admissible default_specs ex_active.
Proof.
  destruct default_constructed as (c & Hdef & Hc).
  exact (proj2 (proj1 (active_targets_admissible default_specs [moe_rule] c ex_active _ Hc) (ex_active_validated c Hdef Hc))).
Defined.

Definition rmsnorm_spec : TargetSpec := match singleton_spec "norm.rmsnorm" with Ok s => s | Raise _ => moe_epilogue_spec end.

Lemma active_members_disjoint_witness :
  ∃ s1 s2, s1 ∈ default_specs ∧ s2 ∈ default_specs ∧ "norm.rmsnorm" ∈ ts_members s1 ∧ "norm.rmsnorm" ∈ ts_members s2 ∧ s1 = s2.
Proof.
  destruct default_constructed as (c & Hdef & Hc). exists rmsnorm_spec, rmsnorm_spec.
  assert (rmsnorm_spec ∈ default_specs) as Hs by (by do 10 right; left).
  assert (ts_target_id rmsnorm_spec ∈ ex_active) as Ha by left.
  assert ("norm.rmsnorm" ∈ ts_members rmsnorm_spec) as Hm by left.
  split_and!; [exact Hs | exact Hs | exact Hm | exact Hm|].
  exact (active_members_disjoint default_specs [moe_rule] c ex_active _ _ _ _ Hc (ex_active_validated c Hdef Hc) Hs Hs Ha Ha Hm Hm).
Defined.

Lemma active_order_greedy_witness :
  ∃ c, constructed default_specs [moe_rule] c ∧
    ordered_active_targets c ex_active =
      Ok (greedy_order (precedence_edges (active_precedences c (sorted_str ex_active))) 3 (sorted_str ex_active)).
Proof.
  destruct default_constructed as (c & Hdef & Hc). exists c. split; [exact Hc|].
  etrans; [exact (proj1 (active_order_greedy default_specs [moe_rule] c ex_active Hc))|].
  rewrite (ex_active_validated c Hdef Hc). reflexivity.
Defined.

(** ** The search over declared relations *)

Lemma relation_search_exact_witness :
  validate_relation_dag (related (spec_row <$> default_specs) ts_displaces) (spec_row <$> default_specs).*1 = Ok tt ∧
  acyclic (declared default_specs ts_displaces).
Proof.
  assert (NoDup (ts_target_id <$> default_specs)) as Hnd by (apply (bool_decide_unpack _); vm_compute; reflexivity).
  assert (Forall (λ s, ts_displaces s ⊆ list_to_set (ts_target_id <$> default_specs)) default_specs) as Hin.
  { apply (bool_decide_unpack _). vm_compute. reflexivity. }
  assert (∀ s x, s ∈ default_specs → x ∈ ts_displaces s → x ∈ ts_target_id <$> default_specs) as Hreg.
  { intros s x Hs Hx. apply (elem_of_list_to_set (C:=gset string)). rewrite Forall_forall in Hin. by apply (Hin s Hs). }
  destruct (relation_search_exact default_specs ts_displaces Hnd Hreg) as (_ & Hiff & _).
  assert (validate_relation_dag (related (spec_row <$> default_specs) ts_displaces) (spec_row <$> default_specs).*1 = Ok tt) as Hok
    by (vm_compute; reflexivity).
  split; [exact Hok | exact (proj1 Hiff Hok)].
Defined.

(** ** Bundles *)

Definition ex_op (slot : string) (sources : list string) : OpEntry :=
  {| op_slot := slot; op_variant := DEFAULT_VARIANT; op_prepare := None; op_setup := None; op_base_kernel := None;
     op_override_point := None; op_cuda_sources := sources; op_extra := []; op_aot_exports := [] |}.

(** A bundle for the atomic epilogue, which has to request it. *)
Definition ex_bundle (ops : list OpEntry) : Manifest :=
  {| mf_bundle_id := "epilogue"; mf_ops := ops; mf_dep_patches := [];
     mf_competition := Some {| ce_target := MOE_EPILOGUE_ATOMIC_TARGET; ce_mode := "atomic" |} |}.

Definition ex_op1 : OpEntry := ex_op "collective.ar_residual_rmsnorm" [].
Definition ex_op2 : OpEntry := ex_op "collective.moe_finalize_ar_rmsnorm" [].

Lemma resolution_row_order_witness :
  ∃ c, constructed default_specs [moe_rule] c ∧
    resolve_manifest c (ex_bundle [ex_op1; ex_op2]) None = resolve_manifest c (ex_bundle [ex_op2; ex_op1]) None.
Proof.
  destruct default_constructed as (c & _ & Hc). exists c. split; [exact Hc|].
  apply (resolution_row_order c (ex_bundle [ex_op1; ex_op2]) (ex_bundle [ex_op2; ex_op1]) None).
  constructor; [apply perm_swap | reflexivity | reflexivity].
Defined.

Lemma intake_resolution_exact_witness :
  ∃ c, constructed default_specs [moe_rule] c ∧
    resolve_intake c (ex_bundle [ex_op2; ex_op1]) [] = Ok (resolved (ex_bundle [ex_op2; ex_op1]) [] moe_epilogue_spec).
Proof.
  destruct default_constructed as (c & _ & Hc). exists c. split; [exact Hc|].
  apply (proj1 (intake_resolution_exact default_specs [moe_rule] c (ex_bundle [ex_op2; ex_op1]) [] _ Hc)).
  exists moe_epilogue_spec. split; [by do 11 right; left|]. split; [done|].
  split; [apply (bool_decide_unpack _); vm_compute; reflexivity|]. split; [apply not_elem_of_nil|].
  split; [apply (bool_decide_unpack _); vm_compute; reflexivity|]. split; [vm_compute; reflexivity | reflexivity].
Defined.

(** ** A worked scenario of stacks, plans, settlement and releases

    A catalog of two singleton targets and the shipped atomic one, a stack with
    one contribution, two arms that challenge it, a cohort of both, a settlement
    of two reproduced candidates and a reviewed release, all built by the
    modelled constructors.  The properties hold for every [Sha256]; evaluating
    them here uses [checksum_sha256], a running checksum written as 64
    hexadecimal digits, because it is cheap to compute. *)

#[local] Existing Instance checksum_sha256.

(** ** The catalog and the stack *)

Definition sx_specs : list TargetSpec :=
  match mapM singleton_spec MOE_EPILOGUE_MEMBERS with Ok l => l ++ [moe_epilogue_spec] | Raise _ => [] end.

Definition sx_catalog : result TargetCatalog := TargetCatalog_init sx_specs [].

Definition sx_ref (c : TargetCatalog) (target : string) (payload : ascii) : result ProposalContributionRef :=
  let! d := target_spec_digest c target in
  ProposalContributionRef_init (PStr target) (PStr d) (PStr (rep "4")) (PStr (rep payload)) (PStr (rep "5")) (PInt 1).

Definition sx_context (c : TargetCatalog) : result EvaluationStackContext :=
  let! rows := mapM (λ row, let! d := target_spec_digest c row.1 in Ok (PStr row.1, PStr d)) (tc_by_id c) in
  EvaluationStackContext_init (PStr (rep "1")) (PStr (rep "2")) (PStr (rep "3")) (tc_snapshot c) (PStr (tc_digest c)) (PDict rows).

Definition sx_stack (c : TargetCatalog) (r : ProposalContributionRef) : result EvaluationStackManifest :=
  EvaluationStackManifest_init (PStr (rep "1")) (PStr (rep "2")) (PStr (rep "3")) (tc_snapshot c) (PStr (tc_digest c))
    [(PStr (pr_target_id r), Proposal r)] (PInt 1) (PStr EVALUATION_STACK_POLICY_VERSION).

Lemma sx_constructed c : sx_catalog = Ok c → constructed sx_specs [] c.
Proof. intros Hc. split; [constructor | exact Hc]. Qed.

Lemma sx_ref_wf c target payload r : sx_ref c target payload = Ok r → ref_wf (Proposal r).
Proof. unfold sx_ref. intros Hr. apply bind_Ok in Hr as (d & _ & Hr). exact (proposal_init_wf _ _ _ _ _ _ _ Hr). Qed.

Lemma sx_stack_wf c r s : ref_wf (Proposal r) → sx_stack c r = Ok s → stack_wf s.
Proof. intros Hr. apply stack_init_wf. apply Forall_cons. split; [exact Hr | constructor]. Qed.

(** ** Two arms and their cohort

    The first arm replaces the active contribution; the second installs the
    atomic target, which displaces it. *)

Definition sx_plans : result unit :=
  let! c := sx_catalog in
  let! ctx := sx_context c in
  let! r1 := sx_ref c "collective.ar_residual_rmsnorm" "a" in
  let! s := sx_stack c r1 in
  let! r2 := sx_ref c "collective.ar_residual_rmsnorm" "b" in
  let! r3 := sx_ref c MOE_EPILOGUE_ATOMIC_TARGET "c" in
  let! a1 := plan_marginal_arm s (Proposal r2) c (PStr (rep "6")) (PStr (rep "7")) ctx in
  let! a2 := plan_marginal_arm s (Proposal r3) c (PStr (rep "6")) (PStr (rep "8")) ctx in
  do! raise_if (bool_decide (MarginalArmPlan_digest a2 = ZERO_DIGEST)) (SP.error "zero") ;;
  let! p := seal [a1; a2] (PStr (rep "9")) [Proposal r3; Proposal r2] c ctx in
  Ok tt.

Lemma sx_plans_run : is_ok sx_plans = true.
Proof. vm_compute. reflexivity. Qed.

(** The records of the run. *)
Record sx_planned (c : TargetCatalog) (ctx : EvaluationStackContext) (s : EvaluationStackManifest)
    (r2 r3 : ProposalContributionRef) (a1 a2 : MarginalArmPlan) (p : CohortPlan) : Prop := {
  sxp_catalog : constructed sx_specs [] c;
  sxp_stack : stack_wf s;
  sxp_ref : ref_wf (Proposal r3);
  sxp_arm : plan_marginal_arm s (Proposal r3) c (PStr (rep "6")) (PStr (rep "8")) ctx = Ok a2;
  sxp_digest : MarginalArmPlan_digest a2 ≠ ZERO_DIGEST;
  sxp_cohort : seal [a1; a2] (PStr (rep "9")) [Proposal r3; Proposal r2] c ctx = Ok p
}.

Lemma sx_planned_ex : ∃ c ctx s r2 r3 a1 a2 p, sx_planned c ctx s r2 r3 a1 a2 p.
Proof.
  pose proof sx_plans_run as Hok. apply is_ok_true in Hok as [u Hok]. unfold sx_plans in Hok.
  apply bind_Ok in Hok as (c & Hc & Hok). apply bind_Ok in Hok as (ctx & _ & Hok). apply bind_Ok in Hok as (r1 & H1 & Hok).
  apply bind_Ok in Hok as (s & Hs & Hok). apply bind_Ok in Hok as (r2 & _ & Hok). apply bind_Ok in Hok as (r3 & H3 & Hok).
  apply bind_Ok in Hok as (a1 & _ & Hok). apply bind_Ok in Hok as (a2 & Ha2 & Hok). apply bind_Ok in Hok as (? & Hz%raise_if_Ok & Hok).
  apply bind_Ok in Hok as (p & Hp & _). exists c, ctx, s, r2, r3, a1, a2, p.
  constructor; [by apply sx_constructed | eapply sx_stack_wf, Hs; by eapply sx_ref_wf | by eapply sx_ref_wf | exact Ha2 | by bool_prop | exact Hp].
Qed.

(** ** Two reproduced candidates

    [run] tells the two runs of a contribution apart: every evidence digest of a
    run repeats that character. *)

Definition sx_qualify (run reservation : ascii) (block : Z) (hotkey : string) (members : list string) (speedup : string)
    (incumbent : EvaluationStackManifest) (r : ProposalContributionRef) (manifest : EvaluationStackManifest) (tree : ascii)
    : result SettlementQualification :=
  let evidence := PStr (rep run) in
  SettlementQualification_init (PStr "registered") (PStr (rep "3")) (PStr (rep reservation)) (PInt block) (PInt 0) (PInt 0)
    (PStr hotkey) (PStr (pr_target_id r)) members (PStr (ref_selected_delta_digest (Proposal r))) evidence evidence evidence
    evidence evidence evidence evidence (PStr (rep "1")) (PStr (EvaluationStackManifest_digest incumbent)) (PStr (rep "6"))
    (PStr (EvaluationStackManifest_digest manifest)) (PStr (rep tree)) (PStr speedup) incumbent (PStr "") (Some manifest)
    (PStr _LEGACY_SPEED_POLICY_DIGEST) (PStr _LEGACY_AUDIT_CONTROL_DIGEST) None (PStr _LEGACY_AUDIT_EVIDENCE_DIGEST) None.

Definition sx_settlement : result unit :=
  let! c := sx_catalog in
  let! r1 := sx_ref c "collective.ar_residual_rmsnorm" "a" in
  let! s := sx_stack c r1 in
  let! r2 := sx_ref c "collective.ar_residual_rmsnorm" "b" in
  let! s2 := sx_stack c r2 in
  let! r3 := sx_ref c MOE_EPILOGUE_ATOMIC_TARGET "c" in
  let! s3 := sx_stack c r3 in
  let! p2 := sx_qualify "a" "7" 10 "alice" ["collective.ar_residual_rmsnorm"] "1.05" s r2 s2 "7" in
  let! q2 := sx_qualify "b" "7" 10 "alice" ["collective.ar_residual_rmsnorm"] "1.04" s r2 s2 "7" in
  let! p3 := sx_qualify "c" "8" 11 "bob" MOE_EPILOGUE_MEMBERS "1.06" s r3 s3 "8" in
  let! q3 := sx_qualify "d" "8" 11 "bob" MOE_EPILOGUE_MEMBERS "1.07" s r3 s3 "8" in
  let! c2 := SettlementCandidate_init p2 q2 in
  let! c3 := SettlementCandidate_init p3 q3 in
  let! p := plan_settlement [c2; c3] s (PStr (rep "6")) (PInt 0) (PStr "") in
  Ok tt.

Lemma sx_settlement_run : is_ok sx_settlement = true.
Proof. vm_compute. reflexivity. Qed.

Record sx_settled (s : EvaluationStackManifest) (p3 q3 : SettlementQualification) (c2 c3 : SettlementCandidate)
    (p : SettlementPlan) : Prop := {
  sxs_primary : qualification_built p3;
  sxs_reproduction : qualification_built q3;
  sxs_manifests : manifests_wf p3 ∧ manifests_wf q3;
  sxs_candidate : SettlementCandidate_init p3 q3 = Ok c3;
  sxs_candidates : Forall candidate_built [c2; c3];
  sxs_plan : plan_settlement [c2; c3] s (PStr (rep "6")) (PInt 0) (PStr "") = Ok p
}.

Lemma sx_qualify_built run reservation block hotkey members speedup s r m tree q :
  sx_qualify run reservation block hotkey members speedup s r m tree = Ok q → stack_wf s → stack_wf m →
  qualification_built q ∧ manifests_wf q.
Proof.
  unfold sx_qualify. intros Hq Hs Hm. split; [by eapply qualification_init_built|].
  apply qualification_init_manifests in Hq as [E1 E2]. split; [by rewrite E1|]. intros m'. rewrite E2. by intros [= <-].
Qed.

Lemma candidate_init_fields p q c : SettlementCandidate_init p q = Ok c → sc_primary c = p ∧ sc_reproduction c = q.
Proof. unfold SettlementCandidate_init. intros Hc. do 7 (apply bind_Ok in Hc as (? & _ & Hc)). by injection Hc as <-. Qed.

Lemma sx_candidate_built p q c :
  qualification_built p → qualification_built q → SettlementCandidate_init p q = Ok c → candidate_built c.
Proof. intros Hp Hq Hc. pose proof Hc as [E1 E2]%candidate_init_fields. unfold candidate_built. by rewrite E1, E2. Qed.

Lemma sx_settled_ex : ∃ s p3 q3 c2 c3 p, sx_settled s p3 q3 c2 c3 p.
Proof.
  pose proof sx_settlement_run as Hok. apply is_ok_true in Hok as [u Hok]. unfold sx_settlement in Hok.
  apply bind_Ok in Hok as (c & _ & Hok). apply bind_Ok in Hok as (r1 & H1%sx_ref_wf & Hok). apply bind_Ok in Hok as (s & Hs & Hok).
  apply sx_stack_wf in Hs; [|exact H1]. apply bind_Ok in Hok as (r2 & H2%sx_ref_wf & Hok). apply bind_Ok in Hok as (s2 & Hs2 & Hok).
  apply sx_stack_wf in Hs2; [|exact H2]. apply bind_Ok in Hok as (r3 & H3%sx_ref_wf & Hok). apply bind_Ok in Hok as (s3 & Hs3 & Hok).
  apply sx_stack_wf in Hs3; [|exact H3].
  apply bind_Ok in Hok as (p2 & Hp2 & Hok). apply bind_Ok in Hok as (q2 & Hq2 & Hok). apply bind_Ok in Hok as (p3 & Hp3 & Hok).
  apply bind_Ok in Hok as (q3 & Hq3 & Hok). apply bind_Ok in Hok as (c2 & Hc2 & Hok). apply bind_Ok in Hok as (c3 & Hc3 & Hok).
  apply bind_Ok in Hok as (p & Hp & _). exists s, p3, q3, c2, c3, p.
  destruct (sx_qualify_built _ _ _ _ _ _ _ _ _ _ _ Hp2 Hs Hs2) as [B2 _]. destruct (sx_qualify_built _ _ _ _ _ _ _ _ _ _ _ Hq2 Hs Hs2) as [B2' _].
  destruct (sx_qualify_built _ _ _ _ _ _ _ _ _ _ _ Hp3 Hs Hs3) as [B3 M3]. destruct (sx_qualify_built _ _ _ _ _ _ _ _ _ _ _ Hq3 Hs Hs3) as [B3' M3'].
  constructor; [exact B3 | exact B3' | split; [exact M3 | exact M3'] | exact Hc3 | | exact Hp].
  repeat apply Forall_cons_2; [exact (sx_candidate_built _ _ _ B2 B2' Hc2) | exact (sx_candidate_built _ _ _ B3 B3' Hc3) | constructor].
Qed.

(** ** A reviewed release *)

Definition sx_evidence (domain schema : string) (digest : ascii) : result EvidenceArtifactRef :=
  EvidenceArtifactRef_init (PStr domain) (PStr (rep digest)) (PInt 100) (PStr "application/json") (PStr schema).

Definition sx_artifacts : result IntegrationReviewArtifacts :=
  let! e1 := sx_evidence "qualification.cohort-attempt" "optima.qualification.cohort-attempt.v1" "1" in
  let! e2 := sx_evidence "qualification.cohort-attempt" "optima.qualification.cohort-attempt.v1" "2" in
  let! e3 := sx_evidence "integration.license" "optima.integration.license.v1" "3" in
  let! e4 := sx_evidence "integration.provenance" "optima.integration.provenance.v1" "4" in
  let! e5 := sx_evidence "integration.security-review" "optima.integration.security-review.v1" "5" in
  let! e6 := sx_evidence "integration.compatibility" "optima.integration.compatibility.v1" "6" in
  let! e7 := sx_evidence "integration.tests" "optima.integration.tests.v1" "7" in
  IntegrationReviewArtifacts_init
    {| ra_primary_attempt_ref := e1; ra_reproduction_attempt_ref := e2; ra_license_evidence_ref := e3;
       ra_provenance_evidence_ref := e4; ra_security_review_ref := e5; ra_compatibility_evidence_ref := e6;
       ra_test_evidence_ref := e7 |}.

Definition sx_record (c : TargetCatalog) (a : IntegrationReviewArtifacts) : result IntegrationReviewRecord :=
  let! d := target_spec_digest c MOE_EPILOGUE_ATOMIC_TARGET in
  IntegrationReviewRecord_init (PStr MOE_EPILOGUE_ATOMIC_TARGET) (PStr d) (PStr (rep "a")) (PStr (rep "b")) (PStr (rep "c"))
    (PStr (rep "d")) (PStr (rep "1")) (PStr (rep "2")) (PStr (rep "e")) (PStr (rep "8")) (PStr (rep "9")) (PStr (rep "3"))
    (PStr (rep "4")) (PStr (rep "5")) (PStr (rep "6")) (PStr (rep "7")) a (PStr "reviewer@example.org")
    (PStr (String.substring 0 40 (rep "f"))) (PBool true) (PInt 1).

Definition sx_release (c : TargetCatalog) (r : IntegratedContributionRef) : result EngineReleaseManifest :=
  EngineReleaseManifest_init (PStr (rep "1")) (PStr (rep "2")) (tc_snapshot c) (PStr (tc_digest c))
    [(PStr (ir_target_id r), Integrated r)] (PInt 1) (PStr ENGINE_RELEASE_POLICY_VERSION).

Definition sx_review : result unit :=
  let! c := sx_catalog in
  let! a := sx_artifacts in
  let! record := sx_record c a in
  let! ref := integrated_ref record in
  let! s := sx_release c ref in
  validate_integrations s [(PStr (rr_target_id record), record)].

Lemma sx_review_run : is_ok sx_review = true.
Proof. vm_compute. reflexivity. Qed.

Record sx_reviewed (s : EngineReleaseManifest) (record : IntegrationReviewRecord) : Prop := {
  sxr_release : manifest_built (EngineRelease s);
  sxr_record : record_built record;
  sxr_validated : validate_integrations s [(PStr (rr_target_id record), record)] = Ok tt
}.

Lemma sx_artifacts_built a : sx_artifacts = Ok a → artifacts_built a.
Proof.
  unfold sx_artifacts. intros Ha. do 7 (apply bind_Ok in Ha as (? & ? & Ha)). pose proof Ha as Hi. unfold IntegrationReviewArtifacts_init in Ha.
  do 3 (apply bind_Ok in Ha as (? & _ & Ha)). injection Ha as <-. split; [|exact Hi].
  unfold artifact_refs; cbn. repeat (apply Forall_cons_2; [by eexists _, _, _, _, _|]). constructor.
Qed.

Lemma sx_reviewed_ex : ∃ s record, sx_reviewed s record.
Proof.
  pose proof sx_review_run as Hok. apply is_ok_true in Hok as [[] Hok]. unfold sx_review in Hok.
  apply bind_Ok in Hok as (c & _ & Hok). apply bind_Ok in Hok as (a & Ha%sx_artifacts_built & Hok).
  apply bind_Ok in Hok as (record & Hr & Hok). apply bind_Ok in Hok as (ref & Href & Hok). apply bind_Ok in Hok as (s & Hs & Hok).
  exists s, record. unfold sx_record in Hr. apply bind_Ok in Hr as (d & _ & Hr). constructor; [| |exact Hok].
  - eexists _, _, _, _, _, _, _. split; [|exact Hs]. apply Forall_cons_2; [exact (integrated_init_wf _ _ _ _ _ _ _ _ Href) | constructor].
  - by eapply record_init_built.
Qed.

#[local] Existing Instance checksum_sha256.

(** ** Releases *)

Lemma manifest_roundtrip_witness :
  ∃ s r, stack_manifest_from_dict (stack_manifest_to_dict (EngineRelease s)) = Ok (EngineRelease s) ∧
    IntegrationReviewRecord_from_dict (IntegrationReviewRecord_to_dict r) = Ok r.
Proof.
  destruct sx_reviewed_ex as (s & r & [Hs Hr _]). exists s, r. exact (manifest_roundtrip (EngineRelease s) r Hs Hr).
Defined.

Lemma release_reviewed_witness :
  ∃ s recs refs, NoDup (rr_target_id <$> recs) ∧ mapM integrated_ref recs = Ok refs ∧
    er_entries s = sorted_by fst (ref_row <$> refs).
Proof.
  destruct sx_reviewed_ex as (s & r & [Hs _ Hv]).
  destruct (proj1 (release_reviewed s [(PStr (rr_target_id r), r)] Hs) Hv) as (recs & refs & _ & Hn & Hm & He).
  exists s, recs, refs. exact (conj Hn (conj Hm He)).
Defined.

(** ** Plans *)

Lemma transition_exact_witness :
  ∃ c ctx s r cand tr removed, _candidate_transition s r c ctx = Ok (cand, tr) ∧
    transition_allowed sx_specs c s r ctx removed ∧ tr = planned_transition s r removed.
Proof.
  destruct sx_planned_ex as (c & ctx & s & r2 & r3 & a1 & a2 & p & [Hc Hs Hr Ha _ _]). exists c, ctx, s, (Proposal r3).
  unfold plan_marginal_arm in Ha. apply bind_Ok in Ha as ([cand tr] & Ht & _).
  destruct (proj1 (proj1 (transition_exact sx_specs [] c s (Proposal r3) ctx cand tr Hc Hs Hr)) Ht) as (removed & Hall & _ & Htr).
  exists cand, tr, removed. exact (conj Ht (conj Hall Htr)).
Defined.

Lemma arm_rolls_back_witness :
  ∃ c ctx s arm p, RollbackPlan_from_arm arm c ctx = Ok p ∧ rollback_reopen p arm c ctx = Ok p ∧
    ∀ current tree out, reconstruct p current tree arm c ctx = Ok out → out = (s, rep "6").
Proof.
  destruct sx_planned_ex as (c & ctx & s & r2 & r3 & a1 & a2 & pc & [Hc Hs Hr Ha Hz _]). exists c, ctx, s, a2.
  destruct (arm_rolls_back sx_specs [] c s (Proposal r3) ctx _ _ a2 Hc Hs Hr Ha Hz) as (_ & p & Hp & Ho & Hall).
  exists p. split; [exact Hp|]. split; [exact Ho|]. intros current tree out Hout. exact (proj2 (proj2 (proj2 (proj1 (Hall _ _ _) Hout)))).
Defined.

Lemma cohort_complete_witness :
  ∃ c ctx arms p l, cp_arms p ≡ₚ arms ∧ execution_arms p = Ok l ∧ l ≡ₚ arms ∧ cohort_reopen p c ctx = Ok p.
Proof.
  destruct sx_planned_ex as (c & ctx & s & r2 & r3 & a1 & a2 & p & [_ _ _ _ _ Hp]).
  destruct (cohort_complete [a1; a2] _ _ c ctx p Hp) as (Hperm & _ & _ & _ & _ & (l & Hl & Hlp) & _ & Hre).
  exists c, ctx, [a1; a2], p, l. exact (conj Hperm (conj Hl (conj Hlp Hre))).
Defined.

Lemma cohort_order_independent_witness :
  ∃ c ctx a1 a2 entropy authority p, seal [a1; a2] entropy authority c ctx = Ok p ∧ seal [a2; a1] entropy authority c ctx = Ok p.
Proof.
  destruct sx_planned_ex as (c & ctx & s & r2 & r3 & a1 & a2 & p & [_ _ _ _ _ Hp]).
  exists c, ctx, a1, a2, (PStr (rep "9")), [Proposal r3; Proposal r2], p. split; [exact Hp|].
  exact (cohort_order_independent [a1; a2] [a2; a1] _ _ c ctx p (perm_swap a2 a1 []) Hp).
Defined.

(** ** Settlement *)

Lemma settlement_winner_witness :
  ∃ rows p, match pl_transition p with
    | None => ∀ row, ¬ contenders (pl_before p) rows row
    | Some t => ∃ w, contenders (pl_before p) rows w ∧ ∀ row, contenders (pl_before p) rows row → row ≠ w → beats w row
    end.
Proof.
  destruct sx_settled_ex as (s & p3 & q3 & c2 & c3 & p & [_ _ _ _ Hrows Hp]). exists [c2; c3], p.
  pose proof (settlement_winner [c2; c3] s _ _ _ p Hrows Hp) as Hw. destruct (pl_transition p) as [t|]; [|exact (proj1 Hw)].
  destruct Hw as (w & Hc & Hb & _). exists w. exact (conj Hc Hb).
Defined.

Lemma settlement_exact_witness :
  ∃ rows m t z v p, inputs_ok rows m t z v ∧ outcome rows m (start m t) z v p.
Proof.
  destruct sx_settled_ex as (s & p3 & q3 & c2 & c3 & p & [_ _ _ _ Hrows Hp]).
  destruct (proj1 (settlement_exact [c2; c3] s _ _ _ p Hrows) Hp) as (t & z & v & _ & _ & _ & Hin & Hout).
  exists [c2; c3], s, t, z, v, p. exact (conj Hin Hout).
Defined.

Lemma settlement_order_independent_witness :
  ∃ c2 c3 m tree p, plan_settlement [c2; c3] m tree (PInt 0) (PStr "") = Ok p ∧ plan_settlement [c3; c2] m tree (PInt 0) (PStr "") = Ok p.
Proof.
  destruct sx_settled_ex as (s & p3 & q3 & c2 & c3 & p & [_ _ _ _ Hrows Hp]). exists c2, c3, s, (PStr (rep "6")), p. split; [exact Hp|].
  exact (settlement_order_independent [c2; c3] [c3; c2] s _ _ _ p Hrows (perm_swap c3 c2 []) Hp).
Defined.

Lemma settlement_decides_once_witness :
  ∃ c2 c3 p, sv_candidate_digest <$> filter (λ e, decides (sv_event_type e) = true) (pl_events p) ≡ₚ
    [SettlementCandidate_digest c2; SettlementCandidate_digest c3].
Proof.
  destruct sx_settled_ex as (s & p3 & q3 & c2 & c3 & p & [_ _ _ _ Hrows Hp]). exists c2, c3, p.
  exact (settlement_decides_once [c2; c3] s _ _ _ p Hrows Hp).
Defined.

Lemma reproduction_independent_witness :
  ∃ p r c, SettlementCandidate_init p r = Ok c ∧ independent p r ∧ sc_speedup c ∈ [sq_speedup p; sq_speedup r].
Proof.
  destruct sx_settled_ex as (s & p3 & q3 & c2 & c3 & p & [Hp Hq [Mp Mq] Hc _ _]). exists p3, q3, c3.
  destruct (reproduction_independent p3 q3 c3 Hp Hq Mp Mq) as [Hiff Hspeed].
  exact (conj Hc (conj (proj2 (proj1 Hiff Hc)) (proj1 (Hspeed Hc)))).
Defined.
