(* ===== verification/DebtWitnesses.v ===== *)
(** * The finite-debt properties on the scenario

    Each lemma applies one property of [FiniteDebtCorrect] to the records of
    [Scenario]. *)

From Stdlib Require Import ZArith Lia Ascii.
From stdpp Require Import base tactics numbers list strings gmap sorting relations.
From S2P Require Import Prelude PyValue Sha256 Identity Strict Apportion Decimal FiniteDebt FiniteDebtBalance FiniteDebtPolicy.
From S2P Require Import FiniteDebtEpoch FiniteDebtClaims FiniteDebtCorrect Scenario.

#[local] Existing Instance fips_sha256.

(** ** Epochs *)

Lemma epoch_conserves_witness :
  dp_payout_units ex_projection = Z.min (reference_claim_pool_units (ex_policy 100000)) (owed ex_ledger) ∧
  Zsum (da_units <$> dp_allocations ex_projection) = dp_payout_units ex_projection ∧
  dp_reserve_units ex_projection = 1000000 - dp_payout_units ex_projection ∧
  Zsum (hw_units <$> dp_weights ex_projection) = 1000000.
Proof.
  exact (epoch_conserves (ex_policy 100000) (PInt 1500) ex_ledger ex_projection ex_policy_wf ex_ledger_inv ex_projected).
Defined.

Definition ex_allocation1 : DebtEpochAllocation :=
  {| da_claim_digest := ex_cd1; da_hotkey := "alice"; da_units := 450000 |}.

#[local] Instance allocation_eq_dec : EqDecision DebtEpochAllocation.
Proof. solve_decision. Defined.

Lemma ex_allocated : ex_allocation1 ∈ dp_allocations ex_projection.
Proof. apply (bool_decide_unpack _). vm_compute. reflexivity. Qed.

Lemma epoch_allocations_fair_witness :
  ∃ s, s ∈ ex_ledger ∧ is_open s = true ∧ da_claim_digest ex_allocation1 = claim_key s ∧
    da_hotkey ex_allocation1 = ic_hotkey (ds_claim s) ∧ 1 ≤ da_units ex_allocation1 ≤ remaining s ∧
    Z.abs (da_units ex_allocation1 * owed ex_ledger - remaining s * dp_payout_units ex_projection) < owed ex_ledger.
Proof.
  exact (epoch_allocations_fair (ex_policy 100000) (PInt 1500) ex_ledger ex_projection ex_allocation1
    ex_policy_wf ex_ledger_inv ex_projected ex_allocated).
Defined.

Lemma epoch_applies_witness :
  ∃ states', apply_debt_epoch_projection ex_ledger ex_projection = Ok states' ∧ ledger_inv states' ∧
    claim_key <$> states' = claim_key <$> sorted_by claim_key ex_ledger ∧
    owed states' = owed ex_ledger - dp_payout_units ex_projection ∧
    paid_total states' = paid_total ex_ledger + dp_payout_units ex_projection.
Proof. exact (epoch_applies (ex_policy 100000) 1500 ex_ledger ex_projection ex_policy_wf ex_ledger_inv ex_projected). Defined.

Definition ex_after : list DebtClaimState := settled (ex_policy 100000) 1500 ex_ledger <$> sorted_by claim_key ex_ledger.

Lemma ex_applied : apply_debt_epoch_projection ex_ledger ex_projection = Ok ex_after.
Proof.
  apply (apply_epoch (ex_policy 100000) 1500 ex_ledger ex_policy_wf (ledger_inv_wf _ ex_ledger_inv)); [|exact ex_checked| |lia].
  - rewrite ex_keys. by apply (bool_decide_unpack _).
  - exact (ledger_inv_balance _ ex_ledger_inv).
Qed.

Lemma ex_run : epoch_run (ex_policy 100000) [1500] ex_ledger ex_after.
Proof. eapply run_cons; [exists ex_projection; split; [exact ex_projected | exact ex_applied] | constructor]. Qed.

Lemma epochs_pay_off_witness :
  ledger_inv ex_after ∧
  owed ex_after = Z.max 0 (owed ex_ledger - Z.of_nat (length [1500]) * reference_claim_pool_units (ex_policy 100000)).
Proof. exact (epochs_pay_off (ex_policy 100000) [1500] ex_ledger ex_after ex_policy_wf ex_ledger_inv ex_run). Defined.

Lemma epoch_order_independent_witness :
  project_debt_epoch (ex_policy 100000) (PInt 1500) ex_ledger =
  project_debt_epoch (ex_policy 100000) (PInt 1500) [ex_state2; ex_state1].
Proof.
  exact (epoch_order_independent (ex_policy 100000) (PInt 1500) ex_ledger [ex_state2; ex_state1]
    (perm_swap ex_state2 ex_state1 [])).
Defined.

Lemma epoch_succeeds_iff_witness :
  ∃ block pd, PInt 1500 = PInt block ∧ 0 ≤ block ∧ NoDup (claim_key <$> ex_ledger) ∧
    Forall (λ s, check_epoch_state (ex_policy 100000) block s = Ok tt) ex_ledger ∧
    FiniteDebtPolicyManifest_digest (ex_policy 100000) = Ok pd ∧ digest_ok pd ∧
    NoDup (state_digests ex_ledger) ∧ Forall digest_ok (state_digests ex_ledger) ∧
    ex_projection = epoch_projection (ex_policy 100000) block ex_ledger pd.
Proof.
  exact (proj1 (epoch_succeeds_iff (ex_policy 100000) (PInt 1500) ex_ledger ex_projection ex_policy_wf ex_ledger_inv)
    ex_projected).
Defined.

Lemma projection_read_back_witness :
  DebtEpochProjection_from_dict (DebtEpochProjection_to_dict ex_projection) = Ok ex_projection.
Proof.
  exact (projection_read_back (ex_policy 100000) (PInt 1500) ex_ledger ex_projection ex_policy_wf ex_ledger_inv ex_projected).
Defined.

(** ** Balances *)

Definition ex_paid : DebtClaimBalance := paid_balance (ex_open ex_claim1 ex_cd1) 1000 1500.

Lemma ex_claim1_wf : claim_wf ex_claim1.
Proof. exact (proj1 (issued_wf _ _ _ _ _ _ _ _ _ _ _ ex_issued1)). Qed.

Lemma ex_balance_wf : balance_wf (ex_open ex_claim1 ex_cd1).
Proof. exact (proj1 (balance_inv_open _ _ ex_opened1)). Qed.

Lemma ex_payment : pay_claim_balance ex_claim1 (ex_open ex_claim1 ex_cd1) (PInt 1000) (PInt 1500) = Ok ex_paid.
Proof.
  apply (proj2 (pay_claim_balance_Ok ex_claim1 (ex_open ex_claim1 ex_cd1) (PInt 1000) (PInt 1500) ex_paid ex_balance_wf)).
  split; [split; [symmetry; exact ex_cd1_digest | reflexivity]|]. split; [reflexivity|]. exists 1000, 1500.
  split; [reflexivity|]. split; [reflexivity|]. split; [by vm_compute|]. split; [by vm_compute|].
  split; [intros E; by vm_compute in E | reflexivity].
Qed.

Lemma ex_steps : rtc (balance_step ex_claim1) (ex_open ex_claim1 ex_cd1) ex_paid.
Proof. eapply rtc_once, step_pay, ex_payment. Qed.

Lemma balance_lifecycle_witness :
  db_paid_units ex_paid + db_forfeited_units ex_paid + db_remaining_units ex_paid = ic_principal_units ex_claim1 ∧
  0 ≤ db_paid_units ex_paid ∧ 0 ≤ db_forfeited_units ex_paid ∧ 0 ≤ db_remaining_units ex_paid ∧
  db_claim_digest ex_paid = InnovationDebtClaim_digest ex_claim1 ∧
  (db_status ex_paid = "open" → 0 < db_remaining_units ex_paid ∧ db_forfeited_units ex_paid = 0) ∧
  (db_status ex_paid = "paid" → db_paid_units ex_paid = ic_principal_units ex_claim1) ∧
  (db_status ex_paid = "expired" ∨ db_status ex_paid = "cancelled" →
    db_remaining_units ex_paid = 0 ∧ 0 < db_forfeited_units ex_paid).
Proof. exact (balance_lifecycle ex_claim1 (ex_open ex_claim1 ex_cd1) ex_paid ex_claim1_wf ex_opened1 ex_steps). Defined.

Lemma balance_monotone_witness :
  db_paid_units (ex_open ex_claim1 ex_cd1) ≤ db_paid_units ex_paid ∧
  db_forfeited_units (ex_open ex_claim1 ex_cd1) ≤ db_forfeited_units ex_paid ∧
  db_remaining_units ex_paid ≤ db_remaining_units (ex_open ex_claim1 ex_cd1) ∧
  (db_status (ex_open ex_claim1 ex_cd1) ≠ "open" → ex_paid = ex_open ex_claim1 ex_cd1).
Proof.
  exact (balance_monotone ex_claim1 (ex_open ex_claim1 ex_cd1) ex_paid ex_claim1_wf (balance_inv_open _ _ ex_opened1) ex_steps).
Defined.

Lemma payment_spec_witness :
  linked ex_claim1 (ex_open ex_claim1 ex_cd1) ∧ db_status (ex_open ex_claim1 ex_cd1) = "open" ∧
  ∃ a t, PInt 1000 = PInt a ∧ PInt 1500 = PInt t ∧ 1 ≤ a ≤ db_remaining_units (ex_open ex_claim1 ex_cd1) ∧ live_at ex_claim1 t ∧
    (a = db_remaining_units (ex_open ex_claim1 ex_cd1) → db_forfeited_units (ex_open ex_claim1 ex_cd1) = 0) ∧
    ex_paid = paid_balance (ex_open ex_claim1 ex_cd1) a t.
Proof.
  exact (proj1 (payment_spec ex_claim1 (ex_open ex_claim1 ex_cd1) (PInt 1000) (PInt 1500) ex_paid ex_balance_wf) ex_payment).
Defined.

(** An open balance of 10 units of which 4 are marked forfeited. *)
Definition ex_forfeited : DebtClaimBalance :=
  {| db_claim_digest := ex_cd1; db_principal_units := 10; db_paid_units := 0; db_forfeited_units := 4;
     db_remaining_units := 6; db_status := "open"; db_terminal_block := None; db_terminal_reason := "" |}.

Lemma ex_forfeited_wf : balance_wf ex_forfeited.
Proof.
  apply (proj2 (A := ex_forfeited = ex_forfeited)). apply balance_of_Ok. vm_compute. reflexivity.
Qed.

Lemma forfeited_open_balance_stuck_witness :
  balance_of ex_forfeited = Ok ex_forfeited ∧
  ∀ b', pay_claim_balance ex_claim1 ex_forfeited (PInt (db_remaining_units ex_forfeited)) (PInt 1500) ≠ Ok b'.
Proof. exact (forfeited_open_balance_stuck ex_claim1 ex_forfeited (PInt 1500) ex_forfeited_wf eq_refl eq_refl). Defined.

(** ** Issuance *)

Lemma issuance_spec_witness :
  ∃ pd family campaign candidate evidence hotkey speed threshold accepted settled prior units,
    [PStr ex_family; PStr (rep "d"); PStr (rep "e"); PStr "alice"; PStr "1.044"; PStr "1"]
      = PStr <$> [family; candidate; evidence; hotkey; speed; threshold] ∧
    PInt 1000 = PInt accepted ∧ PNone = py_opt_int prior ∧ PInt 1010 = PInt settled ∧
    FiniteDebtPolicyManifest_digest (ex_policy 100000) = Ok pd ∧ Forall digest_ok [pd; family; candidate; evidence] ∧
    find_family (fp_reward_family_campaigns (ex_policy 100000)) family = Ok campaign ∧ hotkey_matches hotkey = true ∧
    log_improvement_units_ppm (PStr speed) (fp_improvement_basis (ex_policy 100000)) (PStr threshold) = Ok units ∧
    0 ≤ accepted ≤ settled ∧ prior_ok accepted prior ∧
    0 < claim_principal (ex_policy 100000) units (multiplier_of (ex_policy 100000) accepted prior) ∧
    ex_claim1 = issued_claim (ex_policy 100000) pd family campaign candidate evidence hotkey speed threshold accepted settled
      prior units.
Proof. exact (proj1 (issuance_spec (ex_policy 100000) _ _ _ _ _ _ _ _ _ ex_claim1 ex_policy_wf) ex_issued1). Defined.

Lemma ex_cd1_ok : digest_ok (InnovationDebtClaim_digest ex_claim1).
Proof. rewrite ex_cd1_digest. by apply (bool_decide_unpack _). Qed.

Lemma issued_claim_is_payable_witness :
  ∃ b, DebtClaimBalance_open ex_claim1 = Ok b ∧ ledger_inv [{| ds_claim := ex_claim1; ds_balance := b |}] ∧
    check_epoch_state (ex_policy 100000) 1500 {| ds_claim := ex_claim1; ds_balance := b |} = Ok tt.
Proof.
  apply (issued_claim_is_payable (ex_policy 100000) _ _ _ _ _ _ _ _ _ ex_claim1 1500 ex_policy_wf ex_issued1 ex_cd1_ok);
    vm_compute; [discriminate | split; [discriminate | reflexivity]].
Defined.

Lemma time_multiplier_sound_witness :
  ∃ m1 m2, rational_time_multiplier_ppm (ex_policy 100000) (PInt 2000) (PInt 1000) = Ok m1 ∧
    rational_time_multiplier_ppm (ex_policy 100000) (PInt 3000) (PInt 1000) = Ok m2 ∧
    PPM ≤ m1 ≤ m2 ∧ m2 ≤ PPM + fp_beta_ppm (ex_policy 100000).
Proof. apply (time_multiplier_sound (ex_policy 100000) 1000 2000 3000 ex_policy_wf); lia. Defined.

(** ** Policies *)

(** Two campaigns with half of the budget each. *)
Definition ex_half1 : CampaignBudgetShare := {| cbs_campaign_id := rep "a"; cbs_share_ppm := 500000 |}.
Definition ex_half2 : CampaignBudgetShare := {| cbs_campaign_id := rep "b"; cbs_share_ppm := 500000 |}.
Definition ex_map1 : RewardFamilyCampaign := {| rfc_family_id := rep "c"; rfc_campaign_id := rep "b" |}.
Definition ex_map2 : RewardFamilyCampaign := {| rfc_family_id := rep "d"; rfc_campaign_id := rep "a" |}.

Notation ex_two shares mappings :=
  (FiniteDebtPolicyManifest_init shares mappings (PStr (rep "c")) (PStr "reserve") (PInt 100000) (PInt 360) (PInt 500000)
    (PInt 7200) (PInt 100000) (PInt 1000000) (PStr "gross") (PInt 1000000) (PInt 2) (PStr "optima.finite-debt.v2")).

Lemma policy_order_independent_witness :
  is_ok (ex_two [ex_half1; ex_half2] [ex_map1; ex_map2]) = true ∧
  ex_two [ex_half1; ex_half2] [ex_map1; ex_map2] = ex_two [ex_half2; ex_half1] [ex_map2; ex_map1].
Proof.
  split; [vm_compute; reflexivity|].
  exact (policy_order_independent _ _ _ _ _ _ _ _ _ _ _ _ _ _ _ _
    (perm_swap ex_half2 ex_half1 []) (perm_swap ex_map2 ex_map1 [])).
Defined.

Lemma policy_budget_complete_witness :
  policy_wf (ex_policy 100000) ∧ Zsum (cbs_share_ppm <$> fp_campaign_budget_shares (ex_policy 100000)) = PPM ∧
  0 < campaign_pool (ex_policy 100000) ∧
  ∀ family, family ∈ family_ids (ex_policy 100000) →
    ∃ campaign, campaign_for_family (ex_policy 100000) (PStr family) = Ok campaign ∧
    campaign ∈ cbs_campaign_id <$> fp_campaign_budget_shares (ex_policy 100000) ∧
    campaign_share_ppm_for_family (ex_policy 100000) (PStr family) = Ok (campaign_share (ex_policy 100000)).
Proof. exact (policy_budget_complete _ _ _ _ _ _ _ _ _ _ _ _ _ _ (ex_policy 100000) ex_init_policy ex_mappings_wf). Defined.

Lemma debt_records_read_back_witness :
  FiniteDebtPolicyManifest_from_dict (FiniteDebtPolicyManifest_to_dict (ex_policy 100000)) = Ok (ex_policy 100000) ∧
  mapM DebtClaimState_from_dict (DebtClaimState_to_dict <$> ex_ledger) = Ok ex_ledger.
Proof.
  exact (debt_records_read_back _ _ _ _ _ _ _ _ _ _ _ _ _ _ (ex_policy 100000) ex_ledger ex_init_policy ex_mappings_wf
    ex_ledger_inv).
Defined.
