(* ===== verification/CompositionWitnesses.v ===== *)
(** * The composition properties on the scenario

    A composition policy over the scenario's finite-debt policy, a reviewed
    bounty and its discovery claim, and the composed epoch at block 1500. *)

From Stdlib Require Import ZArith Lia Ascii.
From stdpp Require Import base tactics numbers list strings gmap sorting relations.
From S2P Require Import Prelude PyValue Sha256 Identity Strict Apportion Decimal FiniteDebt FiniteDebtBalance FiniteDebtPolicy.
From S2P Require Import FiniteDebtEpoch FiniteDebtClaims Composition Ledger CompositionFacts CompositionEpoch CompositionCorrect.
From S2P Require Import Scenario.

#[local] Existing Instance fips_sha256.

(** ** The records *)

Definition ex_cpolicy (innovation_digest : string) (reserve : Z) : IncentiveCompositionPolicyManifest :=
  {| cp_innovation_policy_digest := innovation_digest;
     cp_selection_report_digest := rep "c";
     cp_reserve_ppm := reserve;
     cp_epoch_blocks := 360;
     cp_discovery_cap_units := 250000;
     cp_per_award_principal_cap_epochs := 2;
     cp_discovery_lifetime_blocks := 50000;
     cp_schema_version := PInt 1;
     cp_policy_version := "optima.incentive-composition.v1" |}.

Lemma ex_cpolicy_wf : cpolicy_wf (ex_cpolicy ex_pd 100000).
Proof. constructor; try (by vm_compute); (split; by vm_compute). Qed.
Lemma ex_cpolicy0_wf : cpolicy_wf (ex_cpolicy ex_pd0 0).
Proof. constructor; try (by vm_compute); (split; by vm_compute). Qed.

Definition ex_cpd : string := Eval vm_compute in text_of (IncentiveCompositionPolicyManifest_digest (ex_cpolicy ex_pd 100000)).

Lemma ex_cpd_digest : IncentiveCompositionPolicyManifest_digest (ex_cpolicy ex_pd 100000) = Ok ex_cpd.
Proof. vm_compute. reflexivity. Qed.

(** A bounty asking for five epochs, won at block 1200 and reviewed at 1300. *)
Definition ex_disposition : ReviewedDiscoveryDisposition :=
  {| rd_policy_digest := ex_cpd;
     rd_win_digest := rep "1";
     rd_proposal_digest := rep "2";
     rd_retained_evidence_digest := rep "3";
     rd_review_digest := rep "4";
     rd_hotkey := "carol";
     rd_win_block := 1200;
     rd_authority_block := 1300;
     rd_decision := DISCOVERY_BOUNTY_ONLY;
     rd_requested_principal_epochs := PInt 5;
     rd_promoted_target_digest := "" |}.

Lemma ex_disposition_wf : disposition_wf ex_disposition.
Proof.
  split; [rewrite !Forall_cons; split_and!; try done; by split|]. split; [done|]. split; [simpl; lia|].
  left. split; [done|]. split; [done|]. by exists 5.
Qed.

Definition ex_dd : string := Eval vm_compute in text_of (ReviewedDiscoveryDisposition_digest ex_disposition).

Lemma ex_dd_digest : ReviewedDiscoveryDisposition_digest ex_disposition = Ok ex_dd.
Proof. vm_compute. reflexivity. Qed.

Definition ex_dclaim : DiscoveryDebtClaim := discovery_claim_of (ex_cpolicy ex_pd 100000) ex_disposition ex_cpd ex_dd 5.

Lemma ex_dissued : issue_discovery_claim (ex_cpolicy ex_pd 100000) ex_disposition = Ok (Some ex_dclaim).
Proof.
  apply (proj2 (issue_discovery_claim_Ok (ex_cpolicy ex_pd 100000) ex_disposition (Some ex_dclaim) ex_cpolicy_wf ex_disposition_wf)).
  split; [exact ex_cpd_digest|]. right. split; [reflexivity|]. split; [by vm_compute|]. exists 5, ex_dd.
  split; [reflexivity|]. split; [exact ex_dd_digest|]. split; [by split | reflexivity].
Qed.

Definition ex_dcd : string := Eval vm_compute in DiscoveryDebtClaim_digest ex_dclaim.

Lemma ex_dcd_digest : DiscoveryDebtClaim_digest ex_dclaim = ex_dcd.
Proof. vm_compute. reflexivity. Qed.
Lemma ex_dcd_ok : digest_ok (DiscoveryDebtClaim_digest ex_dclaim).
Proof. rewrite ex_dcd_digest. by split. Qed.

Definition ex_dopen : DiscoveryClaimBalance :=
  {| cb_claim_digest := ex_dcd; cb_principal_units := 500000; cb_paid_units := 0; cb_forfeited_units := 0;
     cb_remaining_units := 500000; cb_status := "open"; cb_terminal_block := None; cb_terminal_reason := "" |}.

Lemma ex_dopened : DiscoveryClaimBalance_open ex_dclaim = Ok ex_dopen.
Proof.
  unfold DiscoveryClaimBalance_open. rewrite ex_dcd_digest. apply (proj2 (DiscoveryClaimBalance_of ex_dopen ex_dopen)).
  split; [done|]. apply (proj2 (A := as_debt ex_dopen = as_debt ex_dopen)). apply balance_of_Ok. vm_compute. reflexivity.
Qed.

Definition ex_dstate : DiscoveryClaimState := {| cs_claim := ex_dclaim; cs_balance := ex_dopen |}.
Definition ex_discoveries : list DiscoveryClaimState := [ex_dstate].

Lemma ex_dclaim_wf : dclaim_wf ex_dclaim.
Proof. unfold dclaim_wf. split_and!; try done; by split. Qed.

Lemma ex_discoveries_wf : Forall cl_wf ex_discoveries.
Proof. apply Forall_singleton. split; [exact ex_dclaim_wf | exact (discovery_inv_open _ _ ex_dopened)]. Qed.

Lemma ex_innovations_wf : Forall cl_wf ex_ledger.
Proof. exact ex_ledger_inv. Qed.
Lemma ex_innovations0_wf : Forall cl_wf ex_ledger0.
Proof. exact ex_ledger0_inv. Qed.

Lemma ex_dchecked : Forall (λ s, check_discovery_state (ex_cpolicy ex_pd 100000) 1500 "reserve" s = Ok tt) ex_discoveries.
Proof.
  apply Forall_singleton, check_discovery_state_Ok. split; [|intros _; split; [done | split; by vm_compute]].
  unfold claim_validate_policy. rewrite ex_cpd_digest. vm_compute. reflexivity.
Qed.

Definition ex_dsd : string := Eval vm_compute in DiscoveryClaimState_digest ex_dstate.

Lemma ex_dsd_digest : DiscoveryClaimState_digest ex_dstate = ex_dsd.
Proof. vm_compute. reflexivity. Qed.

(** ** The composed epoch *)

Lemma ex_reserve : composed_reserve (ex_cpolicy ex_pd 100000) ex_ledger ex_discoveries = 100000.
Proof.
  unfold composed_reserve, innovation_payout, innovation_capacity, discovery_payout, class_payout. rewrite !class_total_owed.
  vm_compute. reflexivity.
Qed.

Lemma ex_validated : validate_innovation_policy (ex_cpolicy ex_pd 100000) (ex_policy 100000) = Ok tt.
Proof. unfold validate_innovation_policy. rewrite ex_pd_digest. vm_compute. reflexivity. Qed.

Definition ex_composed : ComposedEpochProjection :=
  composed_projection (ex_policy 100000) (ex_cpolicy ex_pd 100000) 1500 ex_ledger ex_discoveries ex_cpd ex_pd.

Lemma ex_composed_Ok :
  project_composed_epoch (ex_policy 100000) (ex_cpolicy ex_pd 100000) (PInt 1500) ex_ledger ex_discoveries = Ok ex_composed.
Proof.
  apply (proj2 (project_composed_epoch_Ok (ex_policy 100000) (ex_cpolicy ex_pd 100000) (PInt 1500) ex_ledger ex_discoveries
    ex_composed ex_policy_wf ex_cpolicy_wf ex_innovations_wf ex_discoveries_wf)).
  exists 1500, ex_cpd, ex_pd. split; [reflexivity|]. split; [lia|]. split; [exact ex_validated|].
  split; [change (cl_key <$> ex_ledger) with (claim_key <$> ex_ledger); rewrite ex_keys; by apply (bool_decide_unpack _)|].
  split; [apply NoDup_singleton|].
  split; [eapply Forall_impl; [exact ex_checked|]; intros s; apply check_innovation_state_Ok|].
  split; [exact ex_dchecked|]. rewrite ex_reserve. split; [lia|]. split; [exact ex_cpd_digest|]. split; [by split|].
  split; [exact ex_pd_digest|]. split; [by split|]. unfold dstate_digests, istate_digests. rewrite !sorted_by_perm.
  cbn [fmap list_fmap ex_ledger ex_discoveries]. rewrite ex_sd1_digest, ex_sd2_digest, ex_dsd_digest.
  split; [split; [apply NoDup_singleton | by apply (bool_decide_unpack _)]|].
  split; [split; by apply (bool_decide_unpack _) | reflexivity].
Qed.

Lemma composed_conserves_witness :
  ep_discovery_payout_units ex_composed = Z.min (cp_discovery_cap_units (ex_cpolicy ex_pd 100000)) (class_owed ex_discoveries) ∧
  ep_innovation_payout_units ex_composed =
    Z.min (1000000 - cp_reserve_ppm (ex_cpolicy ex_pd 100000) - ep_discovery_payout_units ex_composed) (class_owed ex_ledger) ∧
  Zsum (ca_units <$> ep_discovery_allocations ex_composed) = ep_discovery_payout_units ex_composed ∧
  Zsum (ca_units <$> ep_innovation_allocations ex_composed) = ep_innovation_payout_units ex_composed ∧
  ep_reserve_units ex_composed = 1000000 - ep_discovery_payout_units ex_composed - ep_innovation_payout_units ex_composed ∧
  cp_reserve_ppm (ex_cpolicy ex_pd 100000) ≤ ep_reserve_units ex_composed ∧
  Zsum (hw_units <$> ep_weights ex_composed) = 1000000.
Proof.
  exact (composed_conserves (ex_policy 100000) (ex_cpolicy ex_pd 100000) (PInt 1500) ex_ledger ex_discoveries ex_composed
    ex_policy_wf ex_cpolicy_wf ex_innovations_wf ex_discoveries_wf ex_composed_Ok).
Defined.

Lemma composed_applies_witness :
  ∃ inns' discs', apply_composed_epoch ex_ledger ex_discoveries ex_composed = Ok (inns', discs') ∧
    Forall cl_wf inns' ∧ Forall cl_wf discs' ∧
    cl_key <$> inns' = cl_key <$> sorted_by cl_key ex_ledger ∧
    cl_key <$> discs' = cl_key <$> sorted_by cl_key ex_discoveries ∧
    Zsum (cl_paid <$> inns') = Zsum (cl_paid <$> ex_ledger) + ep_innovation_payout_units ex_composed ∧
    Zsum (cl_paid <$> discs') = Zsum (cl_paid <$> ex_discoveries) + ep_discovery_payout_units ex_composed.
Proof.
  exact (composed_applies (ex_policy 100000) (ex_cpolicy ex_pd 100000) (PInt 1500) ex_ledger ex_discoveries ex_composed
    ex_policy_wf ex_cpolicy_wf ex_innovations_wf ex_discoveries_wf ex_composed_Ok).
Defined.

Lemma composed_allocations_fair_witness :
  Forall (fair_share ex_ledger (ep_innovation_payout_units ex_composed)) (ep_innovation_allocations ex_composed) ∧
  Forall (fair_share ex_discoveries (ep_discovery_payout_units ex_composed)) (ep_discovery_allocations ex_composed).
Proof.
  exact (composed_allocations_fair (ex_policy 100000) (ex_cpolicy ex_pd 100000) (PInt 1500) ex_ledger ex_discoveries ex_composed
    ex_policy_wf ex_cpolicy_wf ex_innovations_wf ex_discoveries_wf ex_composed_Ok).
Defined.

Lemma composed_order_independent_witness :
  project_composed_epoch (ex_policy 100000) (ex_cpolicy ex_pd 100000) (PInt 1500) ex_ledger ex_discoveries =
  project_composed_epoch (ex_policy 100000) (ex_cpolicy ex_pd 100000) (PInt 1500) [ex_state2; ex_state1] ex_discoveries.
Proof.
  exact (composed_order_independent (ex_policy 100000) (ex_cpolicy ex_pd 100000) (PInt 1500) ex_ledger [ex_state2; ex_state1]
    ex_discoveries ex_discoveries (perm_swap ex_state2 ex_state1 []) (Permutation_refl ex_discoveries)).
Defined.

(** *** Without a reserve *)

Lemma ex_reserve0 : composed_reserve (ex_cpolicy ex_pd0 0) ex_ledger0 [] = 0.
Proof.
  unfold composed_reserve, innovation_payout, innovation_capacity, discovery_payout, class_payout. rewrite !class_total_owed.
  vm_compute. reflexivity.
Qed.

Lemma ex_validated0 : validate_innovation_policy (ex_cpolicy ex_pd0 0) (ex_policy 0) = Ok tt.
Proof. unfold validate_innovation_policy. rewrite ex_pd0_digest. vm_compute. reflexivity. Qed.

Lemma ex_checked0 : Forall (λ s, check_innovation_state (ex_policy 0) 1500 s = Ok tt) ex_ledger0.
Proof.
  apply Forall_singleton, check_innovation_state_Ok. apply (ex_check _ _ _ _ _ _ ex_issued0); by vm_compute.
Qed.

Lemma composed_zero_reserve_raises_witness :
  project_composed_epoch (ex_policy 0) (ex_cpolicy ex_pd0 0) (PInt 1500) ex_ledger0 [] = Raise zero_weight_error.
Proof.
  apply (composed_zero_reserve_raises (ex_policy 0) (ex_cpolicy ex_pd0 0) 1500 ex_ledger0 []
    ex_policy0_wf ex_cpolicy0_wf ex_innovations0_wf (Forall_nil_2 _)); [lia | apply NoDup_singleton | apply NoDup_nil_2 |
    exact ex_checked0 | apply Forall_nil_2 | exact ex_validated0 | exact ex_reserve0].
Defined.

(** *** Without discovery debt *)

Definition ex_plain : ComposedEpochProjection :=
  composed_projection (ex_policy 100000) (ex_cpolicy ex_pd 100000) 1500 ex_ledger [] ex_cpd ex_pd.

Lemma ex_plain_reserve : composed_reserve (ex_cpolicy ex_pd 100000) ex_ledger [] = 100000.
Proof.
  unfold composed_reserve, innovation_payout, innovation_capacity, discovery_payout, class_payout. rewrite !class_total_owed.
  vm_compute. reflexivity.
Qed.

Lemma ex_plain_Ok : project_composed_epoch (ex_policy 100000) (ex_cpolicy ex_pd 100000) (PInt 1500) ex_ledger [] = Ok ex_plain.
Proof.
  apply (proj2 (project_composed_epoch_Ok (ex_policy 100000) (ex_cpolicy ex_pd 100000) (PInt 1500) ex_ledger []
    ex_plain ex_policy_wf ex_cpolicy_wf ex_innovations_wf (Forall_nil_2 _))).
  exists 1500, ex_cpd, ex_pd. split; [reflexivity|]. split; [lia|]. split; [exact ex_validated|].
  split; [change (cl_key <$> ex_ledger) with (claim_key <$> ex_ledger); rewrite ex_keys; by apply (bool_decide_unpack _)|].
  split; [apply NoDup_nil_2|].
  split; [eapply Forall_impl; [exact ex_checked|]; intros s; apply check_innovation_state_Ok|].
  split; [apply Forall_nil_2|]. rewrite ex_plain_reserve. split; [lia|]. split; [exact ex_cpd_digest|]. split; [by split|].
  split; [exact ex_pd_digest|]. split; [by split|]. unfold istate_digests. rewrite sorted_by_perm.
  split; [split; [apply NoDup_nil_2 | apply Forall_nil_2]|].
  cbn [fmap list_fmap ex_ledger]. rewrite ex_sd1_digest, ex_sd2_digest.
  split; [split; by apply (bool_decide_unpack _) | reflexivity].
Qed.

Lemma composed_without_discovery_witness :
  ∃ d', project_debt_epoch (ex_policy 100000) (PInt 1500) ex_ledger = Ok d' ∧
    dp_allocations d' = as_debt_allocation <$> ep_innovation_allocations ex_plain ∧
    dp_payout_units d' = ep_innovation_payout_units ex_plain ∧ dp_reserve_units d' = ep_reserve_units ex_plain ∧
    dp_weights d' = ep_weights ex_plain.
Proof.
  exact (composed_without_discovery (ex_policy 100000) (ex_cpolicy ex_pd 100000) (PInt 1500) ex_ledger ex_plain
    ex_policy_wf ex_cpolicy_wf ex_ledger_inv ex_plain_Ok).
Defined.

(** ** Discovery claims *)

Lemma discovery_issuance_spec_witness :
  IncentiveCompositionPolicyManifest_digest (ex_cpolicy ex_pd 100000) = Ok (rd_policy_digest ex_disposition) ∧
  ((rd_decision ex_disposition = DISCOVERY_REGISTERED_PROMOTION ∧ Some ex_dclaim = None) ∨
   (rd_decision ex_disposition = DISCOVERY_BOUNTY_ONLY ∧
    rd_authority_block ex_disposition < rd_win_block ex_disposition + cp_discovery_lifetime_blocks (ex_cpolicy ex_pd 100000) ∧
    ∃ n dd, rd_requested_principal_epochs ex_disposition = PInt n ∧
      ReviewedDiscoveryDisposition_digest ex_disposition = Ok dd ∧ digest_ok dd ∧
      Some ex_dclaim = Some (discovery_claim_of (ex_cpolicy ex_pd 100000) ex_disposition (rd_policy_digest ex_disposition) dd n))).
Proof.
  exact (proj1 (discovery_issuance_spec (ex_cpolicy ex_pd 100000) ex_disposition (Some ex_dclaim) ex_cpolicy_wf ex_disposition_wf)
    ex_dissued).
Defined.

Lemma discovery_award_payable_witness :
  1 ≤ dc_principal_units ex_dclaim ≤ discovery_principal_cap_units (ex_cpolicy ex_pd 100000) ∧
  ∃ b, DiscoveryClaimBalance_open ex_dclaim = Ok b ∧ cb_remaining_units b = dc_principal_units ex_dclaim ∧
    cl_wf {| cs_claim := ex_dclaim; cs_balance := b |} ∧
    check_discovery_state (ex_cpolicy ex_pd 100000) 1500 "reserve" {| cs_claim := ex_dclaim; cs_balance := b |} = Ok tt.
Proof.
  apply (discovery_award_payable (ex_cpolicy ex_pd 100000) ex_disposition ex_dclaim 1500 "reserve"
    ex_cpolicy_wf ex_disposition_wf ex_dissued ex_dcd_ok); vm_compute; [discriminate | split; [discriminate | reflexivity]].
Defined.

(** The discovery balance after a cancellation at block 1400. *)
Definition ex_dcancelled : DiscoveryClaimBalance :=
  {| cb_claim_digest := ex_dcd; cb_principal_units := 500000; cb_paid_units := 0; cb_forfeited_units := 500000;
     cb_remaining_units := 0; cb_status := "cancelled"; cb_terminal_block := Some 1400; cb_terminal_reason := "withdrawn" |}.

Lemma ex_dcancel : cancel_discovery_balance ex_dclaim ex_dopen (PInt 1400) (PStr "withdrawn") = Ok ex_dcancelled.
Proof.
  destruct (discovery_inv_open _ _ ex_dopened) as (Hwf & _ & _).
  apply (proj2 (cancel_discovery_balance_Ok ex_dclaim ex_dopen (PInt 1400) (PStr "withdrawn") ex_dcancelled Hwf)).
  split; [split; [symmetry; exact ex_dcd_digest | reflexivity]|]. split; [reflexivity|]. exists 1400, "withdrawn".
  split; [reflexivity|]. split; [reflexivity|]. split; [lia|]. split; [by vm_compute|]. split; [discriminate|].
  split; [split; by vm_compute | reflexivity].
Qed.

Lemma ex_dsteps : rtc (discovery_step ex_dclaim) ex_dopen ex_dcancelled.
Proof. eapply rtc_once, dstep_cancel, ex_dcancel. Qed.

Lemma discovery_lifecycle_witness :
  cb_paid_units ex_dcancelled + cb_forfeited_units ex_dcancelled + cb_remaining_units ex_dcancelled = dc_principal_units ex_dclaim ∧
  0 ≤ cb_paid_units ex_dcancelled ∧ 0 ≤ cb_forfeited_units ex_dcancelled ∧ 0 ≤ cb_remaining_units ex_dcancelled ∧
  cb_claim_digest ex_dcancelled = DiscoveryDebtClaim_digest ex_dclaim ∧
  (cb_status ex_dcancelled = "open" → 0 < cb_remaining_units ex_dcancelled ∧ cb_forfeited_units ex_dcancelled = 0) ∧
  (cb_status ex_dcancelled ≠ "open" → cb_remaining_units ex_dcancelled = 0).
Proof. exact (discovery_lifecycle ex_dclaim ex_dopen ex_dcancelled ex_dclaim_wf ex_dopened ex_dsteps). Defined.

Lemma composition_read_back_witness :
  IncentiveCompositionPolicyManifest_from_dict (IncentiveCompositionPolicyManifest_to_dict (ex_cpolicy ex_pd 100000))
    = Ok (ex_cpolicy ex_pd 100000) ∧
  ReviewedDiscoveryDisposition_from_dict (ReviewedDiscoveryDisposition_to_dict ex_disposition) = Ok ex_disposition ∧
  mapM DiscoveryClaimState_from_dict (DiscoveryClaimState_to_dict <$> ex_discoveries) = Ok ex_discoveries.
Proof.
  exact (composition_read_back (ex_cpolicy ex_pd 100000) ex_disposition ex_discoveries ex_cpolicy_wf ex_disposition_wf
    ex_discoveries_wf).
Defined.
