(* ===== verification/EconomicsWitnesses.v ===== *)
(** * The emissions and identity properties on a scenario

    Two arenas with one crown each, a live and an expired discovery bounty, and
    the reward projection at block 1500. *)

From Stdlib Require Import ZArith Lia Ascii.
From stdpp Require Import base tactics numbers list strings gmap sorting.
From S2P Require Import Prelude PyValue Sha256 Identity Strict IdentityCorrect Apportion Catalog FiniteDebt FiniteDebtBalance.
From S2P Require Import FiniteDebtPolicy FiniteDebtEpoch Stack Economics EconomicsCorrect Scenario.

#[local] Existing Instance fips_sha256.

(** ** The records *)

Definition ex_emissions : EmissionsPolicyManifest :=
  {| em_half_life_blocks := 1000; em_discovery_lifetime_blocks := 500; em_discovery_pool_ppm := 100000;
     em_schema_version := PInt 1; em_policy_version := "optima.emissions.v1" |}.

Lemma ex_emissions_wf : emissions_wf ex_emissions.
Proof. constructor; unfold WEIGHT_PPM; simpl; lia. Qed.

Definition ex_members : list MetagraphMember :=
  [{| mm_uid := 0; mm_hotkey := "validator" |}; {| mm_uid := 1; mm_hotkey := "alice" |};
   {| mm_uid := 2; mm_hotkey := "bob" |}; {| mm_uid := 3; mm_hotkey := "carol" |}].

Definition ex_context : RewardProjectionContext :=
  {| rc_chain_scope_digest := rep "1"; rc_validator_hotkey := "validator"; rc_stack_generation := 4; rc_current_block := 1500;
     rc_current_block_hash := "0x" +:+ rep "2"; rc_metagraph_members := ex_members |}.

Lemma ex_context_init :
  RewardProjectionContext_init (PStr (rep "1")) (PStr "validator") (PInt 4) (PInt 1500) (PStr ("0x" +:+ rep "2")) ex_members
    = Ok ex_context.
Proof. vm_compute. reflexivity. Qed.

Definition ex_global : GlobalRewardProjectionContext := global_context ex_context.

(** A catalog with the one target [t]. *)
Definition ex_snapshot : json := JObject [("target", JStr "t")].
Definition ex_target : TargetSpec :=
  {| ts_target_id := "t"; ts_kind := SLOT; ts_members := ["t"]; ts_displaces := ∅; ts_compatible_with := ∅; ts_requires := ∅;
     ts_allowed_features := {[FEATURE_ENTRY]}; ts_contract_ref := None; ts_atomic_semantics_id := None |}.
Definition ex_catalog : TargetCatalog :=
  {| tc_by_id := [("t", ex_target)]; tc_by_members := []; tc_composition_by_id := []; tc_composition_by_pair := ∅;
     tc_target_snapshots := [("t", json_value ex_snapshot)]; tc_displacement_closures := {["t" := ∅]};
     tc_requirement_closures := {["t" := ∅]}; tc_snapshot := json_value ex_snapshot; tc_digest := rep "3" |}.

Definition ex_spec : string := Eval vm_compute in text_of (target_spec_digest ex_catalog "t").

Definition ex_contribution : ContributionRef :=
  Proposal {| pr_target_id := "t"; pr_target_spec_digest := ex_spec; pr_artifact_digest := rep "4";
              pr_selected_payload_digest := rep "5"; pr_attribution_digest := rep "6"; pr_schema_version := 1 |}.

Definition ex_ref : string := Eval vm_compute in ref_digest ex_contribution.

Definition ex_stack (arena : string) : EvaluationStackManifest :=
  {| es_runtime_digest := rep "7"; es_base_engine_digest := rep "8"; es_arena_digest := arena; es_catalog_digest := rep "3";
     es_schema_version := 1; es_stack_policy_version := "evaluation-stack.v1"; es_catalog_json := ex_snapshot;
     es_entries := [("t", ex_contribution)] |}.

(** A crown for [t], 4.4% faster. *)
Definition ex_crown (arena hotkey : string) (block : Z) : StandingRewardClaim :=
  {| sc_arena_digest := arena; sc_target_id := "t"; sc_target_spec_digest := ex_spec; sc_contribution_digest := ex_ref;
     sc_hotkey := hotkey; sc_speedup_ppm := 1044000; sc_crowned_block := block; sc_retained_evidence_digest := rep "9" |}.

Definition ex_arena (arena hotkey : string) (block : Z) : ArenaRewardAuthority :=
  {| aa_catalog := ex_catalog; aa_stack := ex_stack arena; aa_stack_generation := 4;
     aa_standing_claims := [ex_crown arena hotkey block] |}.

Definition ex_arena1 : ArenaRewardAuthority := ex_arena (rep "a") "alice" 1000.
Definition ex_arena2 : ArenaRewardAuthority := ex_arena (rep "b") "bob" 1400.
Definition ex_arenas : list ArenaRewardAuthority := [ex_arena1; ex_arena2].

Definition ex_live : DiscoveryBountyClaim :=
  {| bc_proposal_digest := rep "a"; bc_retained_evidence_digest := rep "b"; bc_hotkey := "carol"; bc_bounty_units := 10;
     bc_awarded_block := 1400 |}.
Definition ex_expired : DiscoveryBountyClaim :=
  {| bc_proposal_digest := rep "c"; bc_retained_evidence_digest := rep "d"; bc_hotkey := "dave"; bc_bounty_units := 10;
     bc_awarded_block := 1 |}.
Definition ex_bounties : list DiscoveryBountyClaim := [ex_live; ex_expired].

Lemma ex_crowns_wf : Forall (λ a, Forall standing_wf (aa_standing_claims a)) ex_arenas.
Proof. repeat (apply Forall_cons; split); try apply Forall_nil_2; unfold standing_wf, WEIGHT_PPM; simpl; lia. Qed.

Lemma ex_bounties_wf : Forall bounty_wf ex_bounties.
Proof. repeat (apply Forall_cons; split); try apply Forall_nil_2; unfold bounty_wf; simpl; lia. Qed.

Definition acc_of (r : result standing_acc) : standing_acc := match r with Ok acc => acc | Raise _ => ([], ∅) end.

(** The standing credits of both arenas, and of the first one alone. *)
Definition ex_acc : standing_acc :=
  acc_of (foldM (arena_step ex_emissions ex_global) (sorted_by aa_arena_digest ex_arenas) ([], ∅)).
Definition ex_acc1 : standing_acc :=
  acc_of (foldM (arena_step ex_emissions ex_global) (sorted_by aa_arena_digest [ex_arena1]) ([], ∅)).

Lemma ex_acc_Ok : foldM (arena_step ex_emissions ex_global) (sorted_by aa_arena_digest ex_arenas) ([], ∅) = Ok ex_acc.
Proof. vm_compute. reflexivity. Qed.
Lemma ex_acc1_Ok : foldM (arena_step ex_emissions ex_global) (sorted_by aa_arena_digest [ex_arena1]) ([], ∅) = Ok ex_acc1.
Proof. vm_compute. reflexivity. Qed.

Lemma ex_acc_some : ¬ map_Forall (λ _ v, v = 0) ex_acc.2.
Proof. apply (bool_decide_unpack _). vm_compute. reflexivity. Qed.
Lemma ex_acc1_some : ¬ map_Forall (λ _ v, v = 0) ex_acc1.2.
Proof. apply (bool_decide_unpack _). vm_compute. reflexivity. Qed.

Definition ex_epd : string := Eval vm_compute in text_of (EmissionsPolicyManifest_digest ex_emissions).
Lemma ex_epd_digest : EmissionsPolicyManifest_digest ex_emissions = Ok ex_epd.
Proof. vm_compute. reflexivity. Qed.

Lemma ex_bounty_digests : NoDup (DiscoveryBountyClaim_digest <$> ex_bounties).
Proof. apply (bool_decide_unpack _). vm_compute. reflexivity. Qed.

Lemma ex_authority_digests : Forall digest_ok (ArenaRewardAuthority_digest <$> ex_arenas).
Proof. apply (bool_decide_unpack _). vm_compute. reflexivity. Qed.

Lemma ex_bounties_ok : Forall (bounty_ok ex_emissions ex_global) ex_bounties.
Proof.
  apply Forall_cons. split; [split; [simpl; lia | intros _; apply (bool_decide_unpack _); vm_compute; reflexivity]|].
  apply Forall_singleton. split; [simpl; lia|]. unfold alive. simpl. lia.
Qed.

Lemma ex_block_nonneg : 0 ≤ gc_current_block ex_global.
Proof. simpl. lia. Qed.

Lemma ex_project arenas acc :
  Forall (λ a, Forall standing_wf (aa_standing_claims a)) arenas → arenas ≠ [] → NoDup (aa_arena_digest <$> arenas) →
  foldM (arena_step ex_emissions ex_global) (sorted_by aa_arena_digest arenas) ([], ∅) = Ok acc →
  ¬ map_Forall (λ _ v, v = 0) acc.2 → Forall digest_ok (ArenaRewardAuthority_digest <$> arenas) →
  project_global_rewards ex_emissions ex_global arenas ex_bounties
    = Ok (reward_projection ex_emissions ex_global arenas ex_bounties ex_epd acc).
Proof.
  intros Hw Hne Hnd Hacc Hsome Hds.
  apply (project_global_rewards_Ok ex_emissions ex_global arenas ex_bounties ex_emissions_wf ex_block_nonneg Hw ex_bounties_wf).
  split; [exact Hne|]. split; [exact Hnd|]. split; [by apply (bool_decide_unpack _)|].
  split; [by apply (bool_decide_unpack _)|]. split; [exact ex_bounty_digests|]. split; [exact ex_bounties_ok|].
  split; [simpl; lia|]. exists acc, ex_epd. split; [exact Hacc|]. split; [exact Hsome|].
  split; [exact ex_epd_digest|]. split; [by split|]. split; [exact Hds | reflexivity].
Qed.

Definition ex_rewards : GlobalRewardProjection := reward_projection ex_emissions ex_global ex_arenas ex_bounties ex_epd ex_acc.
Definition ex_rewards1 : GlobalRewardProjection :=
  reward_projection ex_emissions ex_global [ex_arena1] ex_bounties ex_epd ex_acc1.

Lemma ex_rewards_Ok : project_global_rewards ex_emissions ex_global ex_arenas ex_bounties = Ok ex_rewards.
Proof.
  apply (ex_project ex_arenas ex_acc ex_crowns_wf); [discriminate | by apply (bool_decide_unpack _) | exact ex_acc_Ok |
    exact ex_acc_some | exact ex_authority_digests].
Qed.

Lemma ex_rewards1_Ok : project_global_rewards ex_emissions ex_global [ex_arena1] ex_bounties = Ok ex_rewards1.
Proof.
  apply (ex_project [ex_arena1] ex_acc1); [|discriminate | apply NoDup_singleton | exact ex_acc1_Ok | exact ex_acc1_some |].
  - apply Forall_singleton. exact (proj1 (proj1 (Forall_cons _ _ _) ex_crowns_wf)).
  - apply Forall_singleton. exact (proj1 (proj1 (Forall_cons _ _ _) ex_authority_digests)).
Qed.

(** ** Decay and pools *)

Lemma credit_decay_witness :
  ∃ z1 z2, credit_at (ex_crown (rep "a") "alice" 1000) (PInt 1200) ex_emissions = Ok z1 ∧
    credit_at (ex_crown (rep "a") "alice" 1000) (PInt 1500) ex_emissions = Ok z2 ∧
    0 ≤ z2 ≤ z1 ∧ z1 ≤ sc_speedup_ppm (ex_crown (rep "a") "alice" 1000) - WEIGHT_PPM ∧
    credit_at (ex_crown (rep "a") "alice" 1000) (PInt (sc_crowned_block (ex_crown (rep "a") "alice" 1000))) ex_emissions
      = Ok (sc_speedup_ppm (ex_crown (rep "a") "alice" 1000) - WEIGHT_PPM) ∧
    credit_at (ex_crown (rep "a") "alice" 1000)
      (PInt (sc_crowned_block (ex_crown (rep "a") "alice" 1000) + em_half_life_blocks ex_emissions)) ex_emissions
      = Ok ((sc_speedup_ppm (ex_crown (rep "a") "alice" 1000) - WEIGHT_PPM) / 2).
Proof.
  apply (credit_decay (ex_crown (rep "a") "alice" 1000) ex_emissions 1200 1500 ex_emissions_wf);
    [unfold standing_wf, WEIGHT_PPM; simpl; lia | simpl; lia].
Defined.

Definition ex_credits : gmap string Z := {["alice" := 2; "bob" := 1; "carol" := 0]}.

Lemma pool_apportioned_witness :
  is_ok (_allocate_pool ex_credits 1000000) = true ∧
  match _allocate_pool ex_credits 1000000 with
  | Raise _ => dict_sum (positive_part ex_credits) ≤ 0
  | Ok shares =>
      dict_sum shares = 1000000 ∧
      (∀ k, is_Some (shares !! k) ↔ ∃ v, ex_credits !! k = Some v ∧ 0 < v) ∧
      ∀ k v a, ex_credits !! k = Some v → shares !! k = Some a →
        0 ≤ a ∧ Z.abs (a * dict_sum (positive_part ex_credits) - v * 1000000) < dict_sum (positive_part ex_credits)
  end.
Proof. split; [vm_compute; reflexivity|]. apply (pool_apportioned ex_credits 1000000). lia. Defined.

(** ** Rewards *)

Lemma rewards_normalized_witness :
  kw_hotkey <$> gp_weights ex_rewards = sorted_str (kw_hotkey <$> gp_weights ex_rewards) ∧
  NoDup (kw_hotkey <$> gp_weights ex_rewards) ∧
  Forall (λ w, kw_hotkey w ∈ eligible_hotkeys ex_global ∧ 0 ≤ kw_weight_ppm w) (gp_weights ex_rewards) ∧
  Zsum (kw_weight_ppm <$> gp_weights ex_rewards) = 1000000.
Proof.
  exact (rewards_normalized ex_emissions ex_global ex_arenas ex_bounties ex_rewards ex_emissions_wf ex_block_nonneg
    ex_crowns_wf ex_bounties_wf ex_rewards_Ok).
Defined.

Lemma standing_credited_witness :
  standing_keys (gp_standing ex_rewards) =
    (sorted_by aa_arena_digest ex_arenas ≫= λ a, pair (aa_arena_digest a) <$> arena_targets a) ∧
  Forall (credited ex_emissions ex_global ex_arenas) (gp_standing ex_rewards).
Proof.
  exact (standing_credited ex_emissions ex_global ex_arenas ex_bounties ex_rewards ex_emissions_wf ex_block_nonneg
    ex_crowns_wf ex_bounties_wf ex_rewards_Ok).
Defined.

Lemma bounties_partitioned_witness :
  let pool := if is_nil (gp_discovery ex_rewards) then 0 else em_discovery_pool_ppm ex_emissions in
  gp_discovery ex_rewards ≡ₚ bounty_credit <$> filter (alive ex_emissions ex_global) ex_bounties ∧
  gp_expired_discovery_claims ex_rewards
    ≡ₚ DiscoveryBountyClaim_digest <$> filter (λ c, ¬ alive ex_emissions ex_global c) ex_bounties ∧
  Forall (λ w, kw_weight_ppm w =
    dict_get (pool_shares (units_by_hotkey sf_hotkey sf_credit (gp_standing ex_rewards)) (WEIGHT_PPM - pool)) (kw_hotkey w) +
    (if is_nil (gp_discovery ex_rewards) then 0
     else dict_get (pool_shares (units_by_hotkey bcr_hotkey bcr_credit (gp_discovery ex_rewards)) pool) (kw_hotkey w)))
    (gp_weights ex_rewards).
Proof.
  exact (bounties_partitioned ex_emissions ex_global ex_arenas ex_bounties ex_rewards ex_emissions_wf ex_block_nonneg
    ex_crowns_wf ex_bounties_wf ex_rewards_Ok).
Defined.

Lemma rewards_order_independent_witness :
  project_global_rewards ex_emissions ex_global ex_arenas ex_bounties =
  project_global_rewards ex_emissions ex_global [ex_arena2; ex_arena1] [ex_expired; ex_live].
Proof.
  exact (rewards_order_independent ex_emissions ex_global ex_arenas [ex_arena2; ex_arena1] ex_bounties [ex_expired; ex_live]
    (perm_swap ex_arena2 ex_arena1 []) (perm_swap ex_expired ex_live [])).
Defined.

(** The single-arena projection of the first arena. *)
Definition ex_single : RewardProjection :=
  {| rp_policy_digest := gp_policy_digest ex_rewards1; rp_catalog_digest := tc_digest ex_catalog;
     rp_evaluation_stack_digest := EvaluationStackManifest_digest (ex_stack (rep "a")); rp_context := ex_context;
     rp_standing := gp_standing ex_rewards1; rp_discovery := gp_discovery ex_rewards1;
     rp_expired_discovery_claims := gp_expired_discovery_claims ex_rewards1; rp_weights := gp_weights ex_rewards1 |}.

Lemma ex_expired_digests : Forall digest_ok (gp_expired_discovery_claims ex_rewards1).
Proof. apply (bool_decide_unpack _). vm_compute. reflexivity. Qed.

Lemma ex_stack_digest : digest_ok (EvaluationStackManifest_digest (ex_stack (rep "a"))).
Proof. apply (bool_decide_unpack _). vm_compute. reflexivity. Qed.

Lemma ex_crown1_wf : Forall standing_wf [ex_crown (rep "a") "alice" 1000].
Proof. apply Forall_singleton. unfold standing_wf, WEIGHT_PPM. simpl. lia. Qed.

Lemma single_arena_agrees_witness :
  project_rewards ex_emissions ex_catalog (ex_stack (rep "a")) ex_context [ex_crown (rep "a") "alice" 1000] ex_bounties
    = Ok ex_single.
Proof.
  refine (proj2 (single_arena_agrees ex_emissions ex_catalog (ex_stack (rep "a")) ex_context
    [ex_crown (rep "a") "alice" 1000] ex_bounties ex_single _ _ _ _ _ _ ex_context_init ex_emissions_wf ex_crown1_wf
    ex_bounties_wf) _).
  exists ex_rewards1. split; [exact ex_rewards1_Ok|]. split; [by split|]. split; [exact ex_stack_digest|].
  split; [exact ex_expired_digests | reflexivity].
Defined.

Lemma schema_version_loose_witness :
  (∃ p, EmissionsPolicyManifest_init (PInt 1000) (PInt 500) (PInt 100000) (PBool true) (PStr EC.POLICY_VERSION) = Ok p) ∧
  ∃ p, EmissionsPolicyManifest_init (PInt 1000) (PInt 500) (PInt 100000) (PFloat (FFinite 1 0)) (PStr EC.POLICY_VERSION) = Ok p ∧
    EmissionsPolicyManifest_digest p = Raise (Exn StackIdentityError "contains a float").
Proof. apply (schema_version_loose 1000 500 100000); unfold WEIGHT_PPM; lia. Defined.

(** ** Identities *)

Definition ex_rows : list (string * pyval) := [("a", PInt 1); ("b", PList [PStr "x"; PNone])].
Definition ex_rows' : list (string * pyval) := [("b", PList [PStr "x"; PNone]); ("a", PInt 1)].
Definition ex_digest : string := Eval vm_compute in text_of (canonical_digest "demo" (py_dict ex_rows) (PInt 1)).

Lemma digest_identifies_witness :
  ∃ b1 b2, envelope_bytes "demo" (py_dict ex_rows) (PInt 1) = Ok b1 ∧ envelope_bytes "demo" (py_dict ex_rows') (PInt 1) = Ok b2 ∧
    ex_digest = sha256_hex b1 ∧ ex_digest = sha256_hex b2 ∧
    (b1 = b2 ↔ "demo" = "demo" ∧ PInt 1 = PInt 1 ∧ json_equal (py_dict ex_rows) (py_dict ex_rows')).
Proof.
  apply (digest_identifies "demo" (py_dict ex_rows) (PInt 1) ex_digest "demo" (py_dict ex_rows') (PInt 1) ex_digest);
    vm_compute; reflexivity.
Defined.

Lemma digest_member_order_witness :
  canonical_digest "demo" (py_dict ex_rows) (PInt 1) = canonical_digest "demo" (py_dict ex_rows') (PInt 1).
Proof.
  apply (digest_member_order "demo" ex_rows ex_rows' (PInt 1)).
  - apply (bool_decide_unpack _). vm_compute. reflexivity.
  - apply perm_swap.
  - reflexivity.
Defined.
