(* ===== verification/IntakeWitnesses.v ===== *)
(** * The theorems on intake, applied

    A worked history of the store, and each theorem of [IntakeCorrect] that has
    hypotheses at it. *)

From Stdlib Require Import ZArith Lia Ascii.
From stdpp Require Import base tactics numbers list strings gmap sorting relations.
From S2P Require Import Prelude PyValue Sha256 Identity Strict Graph Provider Catalog CatalogResolve CatalogFacts CatalogCorrect Stack.
From S2P Require Import Release StackFacts ReleaseCorrect StackPlan Settlement SettlementPlan SettlementFacts Publication Journal.
From S2P Require Import PublicationSystem Fingerprint QualificationBatch Arena IntakeData Intake IntakeAdmission IntakeInvariant.
From S2P Require Import IntakeLogic IntakeBatches IntakeQueue IntakeReserving IntakeSystem IntakeCorrect Scenario StackWitnesses.

(** ** A worked history of the intake store

    Two miners submit the same delta one block apart; both are published, and the
    first is screened, qualified and reproduced.  Every record is built by its
    modelled constructor, with [checksum_sha256] as in the other scenarios. *)

#[local] Existing Instance checksum_sha256.

(** ** Constructors keep what they are given *)

Lemma qi_digest_same s d : QI._digest (PStr s) = Ok d → d = s.
Proof. unfold QI._digest. intros Hd. apply require_digest_Ok in Hd as [[= <-] _]. done. Qed.

Lemma qi_identifier_same s d : QI._identifier (PStr s) = Ok d → d = s.
Proof.
  unfold QI._identifier, require_identifier. intros Hd. repeat case_match; simplify_eq; try done.
  all: repeat (apply bind_Ok in Hd as (? & ? & Hd)); by simplify_eq.
Qed.

Lemma outcome_init_ok a b c d e f g h i q o : QualificationIntakeOutcome_init a b c d e f g h i q = Ok o → outcome_ok o.
Proof.
  intros Ho. unfold outcome_ok. pose proof Ho as Hinit. unfold QualificationIntakeOutcome_init in Ho.
  apply bind_Ok in Ho as (? & ->%qi_digest_same & Ho). apply bind_Ok in Ho as (? & ->%qi_digest_same & Ho).
  apply bind_Ok in Ho as (? & ->%qi_digest_same & Ho). apply bind_Ok in Ho as (? & ->%qi_identifier_same & Ho).
  apply bind_Ok in Ho as (? & _ & Ho). apply bind_Ok in Ho as (? & [-> _]%optional_digest_Ok & Ho).
  apply bind_Ok in Ho as (? & [-> _]%optional_digest_Ok & Ho). apply bind_Ok in Ho as (? & [-> _]%optional_digest_Ok & Ho).
  do 4 (apply bind_Ok in Ho as (? & _ & Ho)). injection Ho as <-. exact Hinit.
Qed.

Lemma batch_init_ok a o ref p b :
  QualificationIntakeBatch_init a o ref p = Ok b → Forall outcome_ok o → ref_ok ref → batch_ok b.
Proof.
  intros Hb Ho Href. pose proof Hb as Hinit. unfold QualificationIntakeBatch_init in Hb.
  apply bind_Ok in Hb as (? & ->%qi_digest_same & Hb). apply bind_Ok in Hb as (? & _ & Hb). injection Hb as <-. by split.
Qed.

(** A value that satisfies a decidable predicate. *)
Definition checked {A} (P : A → Prop) `{∀ a, Decision (P a)} (r : result A) : result A :=
  let! a := r in if decide (P a) then Ok a else Raise (intake_error "unexpected").

Lemma checked_Ok {A} (P : A → Prop) `{∀ a, Decision (P a)} r a : checked P r = Ok a → P a.
Proof. unfold checked. intros Ha. apply bind_Ok in Ha as (x & _ & Ha). case_decide; [by injection Ha as <-|done]. Qed.

(** ** Two submissions *)

Definition ix_scope : IntakeScope := {| is_genesis_hash := "0x" +:+ rep "9"; is_netuid := 7 |}.
Definition ix_hash : string := "0x" +:+ rep "a".
Definition ix_target : string := "collective.ar_residual_rmsnorm".

Definition ix_arrival (hotkey : string) (content : ascii) (block : Z) : result FinalizedArrival :=
  checked arrival_ok (FinalizedArrival_init (PStr hotkey) (PStr (rep content)) (PStr "https://example.org/bundle") (PInt block)
    (PStr ix_hash) (PInt 0) (PInt 0) (PStr "") (PStr "")).

Definition ix_fingerprint (payload : ascii) (selected : string) : result SubmittedDeltaFingerprint :=
  checked fingerprint_ok (SubmittedDeltaFingerprint_init (PStr "component") (PStr ix_target) (PStr (rep "2")) [ix_target]
    (PStr (rep payload)) (PStr selected) (PStr (rep "5")) [] []).

(** Both are reserved, fetched and published. *)
Definition ix_queue (a1 a2 : FinalizedArrival) (f1 f2 : SubmittedDeltaFingerprint) : list IntakeOp := [
  OpReserve [a1; a2] (PInt 12) (PStr ix_hash);
  OpFetch (reservation_id a1); OpPublish (reservation_id a1) f1 (rep "b") "/published/1";
  OpFetch (reservation_id a2); OpPublish (reservation_id a2) f2 (rep "c") "/published/2"].

(** ** Two passes of the first *)

Definition ix_qualify (run : ascii) (a : FinalizedArrival) (incumbent : EvaluationStackManifest) (r : ProposalContributionRef)
    (manifest : EvaluationStackManifest) : result SettlementQualification :=
  let evidence := PStr (rep run) in
  let! audit := SlotAuditPolicy_init (PStr (String.substring 0 32 (rep run))) (PInt 1000) (PInt 10) ["slot.a"] (PInt 1) in
  SettlementQualification_init (PStr "registered") (PStr (rep "3")) (PStr (reservation_id a)) (PInt (fa_block a)) (PInt 0) (PInt 0)
    (PStr (fa_hotkey a)) (PStr ix_target) [ix_target] (PStr (ref_selected_delta_digest (Proposal r))) evidence evidence evidence
    evidence evidence evidence evidence (PStr (rep "1")) (PStr (EvaluationStackManifest_digest incumbent)) (PStr (rep "6"))
    (PStr (EvaluationStackManifest_digest manifest)) (PStr (rep "7")) (PStr "1.05") incumbent (PStr "") (Some manifest)
    (PStr _LEGACY_SPEED_POLICY_DIGEST) (PStr (SlotAuditControl_digest (ap_control audit))) (Some audit) evidence None.

Definition ix_ref (run : ascii) : result EvidenceArtifactRef :=
  checked (λ ref, is_hex64 (ea_sha256 ref) = true)
    (sx_evidence "qualification.cohort-attempt" "optima.qualification.cohort-attempt.v1" run).

Definition ix_batch (run : ascii) (q : SettlementQualification) (ref : EvidenceArtifactRef) : result QualificationIntakeBatch :=
  let! outcome := QualificationIntakeOutcome_init (sq_reservation_digest q) (sq_selected_delta_digest q) (rep run) DPass "qualified"
                    false (Some (ea_sha256 ref)) (Some (rep run)) None (Some q) in
  QualificationIntakeBatch_init (rep run) [outcome] (Some ref) None.

Definition ix_stage (stage : string) : result ScreenStageResult :=
  ScreenStageResult_init (PStr stage) GPass (PStr (rep "d")) (PInt 5).

Definition ix_receipt (attempt : Z) : result ArenaScreenReceipt :=
  let! results := mapM ix_stage SCREEN_STAGES in
  ArenaScreenReceipt_init (PStr (rep "e")) (PStr (rep "f")) (PInt attempt) results PrPromote.

Definition ix_round (id : string) (run : ascii) (receipt : ArenaScreenReceipt) (b : QualificationIntakeBatch) : list IntakeOp := [
  OpBeginScreen id (rep "e"); OpScreenReceipt id (rep "f") receipt;
  OpQualify id (rep run) [("authority", JStr (rep run))]; OpBatch b (PInt 20) (Some "/evidence")].

(** The whole history, and what it must come to. *)
Record ix_history := { ix_first : FinalizedArrival; ix_start : list IntakeOp; ix_rest : list IntakeOp }.

Definition ix_arrivals : result (FinalizedArrival * FinalizedArrival) :=
  let! a1 := ix_arrival "alice" "1" 10 in
  let! a2 := ix_arrival "bob" "2" 11 in
  Ok (a1, a2).

Definition ix_build : result ix_history :=
  let! a := ix_arrivals in
  let! c := sx_catalog in
  let! r1 := sx_ref c ix_target "a" in
  let! s := sx_stack c r1 in
  let! r2 := sx_ref c ix_target "b" in
  let! s2 := sx_stack c r2 in
  let! f1 := ix_fingerprint "6" (ref_selected_delta_digest (Proposal r2)) in
  let! f2 := ix_fingerprint "7" (rep "8") in
  let! p := ix_qualify "a" a.1 s r2 s2 in
  let! q := ix_qualify "b" a.1 s r2 s2 in
  let! ref1 := ix_ref "a" in
  let! ref2 := ix_ref "b" in
  let! b1 := ix_batch "a" p ref1 in
  let! b2 := ix_batch "b" q ref2 in
  let! t1 := ix_receipt 1 in
  let! t2 := ix_receipt 2 in
  Ok {| ix_first := a.1; ix_start := ix_queue a.1 a.2 f1 f2;
        ix_rest := OpInitializeStack s (rep "6") :: ix_round (reservation_id a.1) "a" t1 b1 ++ ix_round (reservation_id a.1) "b" t2 b2 |}.

(** ** Its operations are well formed *)

Lemma ix_batch_ok run q ref b : ix_batch run q ref = Ok b → is_hex64 (ea_sha256 ref) = true → batch_ok b.
Proof.
  unfold ix_batch. intros Hb Href. apply bind_Ok in Hb as (o & Ho & Hb). eapply batch_init_ok; [exact Hb| |exact Href].
  apply Forall_singleton. by eapply outcome_init_ok.
Qed.

Lemma ix_build_ok h : ix_build = Ok h → Forall op_ok (ix_start h) ∧ Forall op_ok (ix_rest h).
Proof.
  unfold ix_build. intros Hh. apply bind_Ok in Hh as ([a1 a2] & Ha & Hh). unfold ix_arrivals in Ha.
  apply bind_Ok in Ha as (x1 & H1%checked_Ok & Ha). apply bind_Ok in Ha as (x2 & H2%checked_Ok & Ha). injection Ha as -> ->.
  apply bind_Ok in Hh as (c & _ & Hh). apply bind_Ok in Hh as (r1 & Hr1%sx_ref_wf & Hh). apply bind_Ok in Hh as (s & Hs%sx_stack_wf & Hh); [|exact Hr1].
  do 2 (apply bind_Ok in Hh as (? & _ & Hh)). apply bind_Ok in Hh as (f1 & Hf1%checked_Ok & Hh). apply bind_Ok in Hh as (f2 & Hf2%checked_Ok & Hh).
  do 2 (apply bind_Ok in Hh as (? & _ & Hh)). apply bind_Ok in Hh as (ref1 & Hg1%checked_Ok & Hh). apply bind_Ok in Hh as (ref2 & Hg2%checked_Ok & Hh).
  apply bind_Ok in Hh as (b1 & Hb1 & Hh). apply bind_Ok in Hh as (b2 & Hb2 & Hh). do 2 (apply bind_Ok in Hh as (? & _ & Hh)).
  apply ix_batch_ok in Hb1; [|exact Hg1]. apply ix_batch_ok in Hb2; [|exact Hg2]. injection Hh as <-. cbn [ix_start ix_rest fst snd].
  split; repeat apply Forall_cons_2; try exact I; try assumption; try apply Forall_nil_2.
Qed.

(** ** What it comes to *)

Definition ix_fresh : Database := fresh_store ix_scope.
Definition ix_queued (h : ix_history) : Database := run_ops default_policy (ix_start h) ix_fresh.
Definition ix_settled (h : ix_history) : Database := run_ops default_policy (ix_rest h) (ix_queued h).

Definition statuses (db : Database) : list string := rv_status <$> db_reservations db.

Definition ix_expected : result unit :=
  let! h := ix_build in
  do! raise_if (negb (bool_decide (statuses (ix_queued h) = ["published"; "published"]))) (intake_error "queued") ;;
  do! raise_if (negb (bool_decide (statuses (ix_settled h) = ["qualified"; "published"]))) (intake_error "settled") ;;
  do! raise_if (negb (bool_decide (statuses (reconcile_copies (ix_queued h)).1 = ["published"; "failed"]))) (intake_error "reconciled") ;;
  raise_if (negb (bool_decide (statuses (expire_stale default_policy (PInt 4000) (ix_queued h)).1 = ["expired"; "expired"]))) (intake_error "expired").

Lemma ix_expected_run : ix_expected = Ok tt.
Proof. vm_compute. reflexivity. Qed.

#[local] Existing Instance checksum_sha256.

(** ** The stores of the history *)

Lemma default_policy_ok : policy_ok default_policy.
Proof. vm_compute. reflexivity. Qed.

Record ix_facts (h : ix_history) : Prop := {
  ixf_queued : reachable default_policy (ix_queued h);
  ixf_settled : reachable default_policy (ix_settled h);
  ixf_steps : rtc (intake_step default_policy) (ix_queued h) (ix_settled h);
  ixf_first : statuses (ix_queued h) = ["published"; "published"];
  ixf_last : statuses (ix_settled h) = ["qualified"; "published"];
  ixf_reconciled : statuses (reconcile_copies (ix_queued h)).1 = ["published"; "failed"];
  ixf_expired : statuses (expire_stale default_policy (PInt 4000) (ix_queued h)).1 = ["expired"; "expired"]
}.

Lemma ix_facts_ex : ∃ h, ix_facts h.
Proof.
  pose proof ix_expected_run as He. unfold ix_expected in He. apply bind_Ok in He as (h & Hh & He). exists h.
  apply ix_build_ok in Hh as [Hs Hr]. apply bind_Ok in He as (? & H1%raise_if_Ok & He). apply bind_Ok in He as (? & H2%raise_if_Ok & He).
  apply bind_Ok in He as (? & H3%raise_if_Ok & H4%raise_if_Ok). apply negb_false_iff, bool_decide_eq_true in H1, H2, H3, H4.
  pose proof (run_ops_reachable default_policy ix_scope (ix_start h) Hs) as Hq.
  pose proof (run_ops_steps default_policy (ix_rest h) (ix_queued h) Hr) as Hsteps.
  split; [exact Hq|by eapply reachable_steps|exact Hsteps|exact H1|exact H2|exact H3|exact H4].
Qed.

Lemma statuses_first db s l : statuses db = s :: l → ∃ r, r ∈ db_reservations db ∧ rv_status r = s.
Proof. unfold statuses. intros Hs. apply fmap_cons_inv in Hs as (r & rows & -> & _ & ->). exists r. split; [by left|done]. Qed.

Lemma fresh_reachable : reachable default_policy ix_fresh.
Proof. by exists ix_scope. Qed.

(** A first range of two arrivals. *)
Lemma ix_reserved_ex : ∃ a1 a2 db' rows, Forall arrival_ok [a1; a2]
  ∧ reserve_finalized default_policy [a1; a2] (PInt 12) (PStr ix_hash) ix_fresh = (db', Ok rows).
Proof.
  assert (match ix_arrivals with
          | Ok (a1, a2) => match reserve_finalized default_policy [a1; a2] (PInt 12) (PStr ix_hash) ix_fresh with
                           | (_, Ok _) => true | _ => false end
          | _ => false end = true) as Hrun by (vm_compute; reflexivity).
  unfold ix_arrivals in Hrun. destruct (ix_arrival "alice" "1" 10) as [a1|] eqn:H1; [|done]. cbn [bind] in Hrun.
  destruct (ix_arrival "bob" "2" 11) as [a2|] eqn:H2; [|done]. cbn [bind] in Hrun. apply checked_Ok in H1, H2.
  destruct (reserve_finalized _ _ _ _ _) as [db' [rows|]] eqn:Hres; [|done]. exists a1, a2, db', rows. split; [|exact Hres].
  repeat apply Forall_cons_2; [exact H1|exact H2|apply Forall_nil_2].
Qed.

(** ** Witnesses *)

Lemma store_reads_back_witness :
  ∃ db, reachable default_policy db ∧ statuses db = ["qualified"; "published"]
    ∧ all_reservations db = (db, Ok (view <$> in_order (db_reservations db))).
Proof.
  destruct ix_facts_ex as [h Hf]. exists (ix_settled h). split; [apply Hf|]. split; [apply Hf|].
  exact (proj1 (store_reads_back default_policy (ix_settled h) default_policy_ok (ixf_settled h Hf))).
Defined.

Lemma operations_atomic_witness :
  (perform default_policy (OpFetch "unknown") ix_fresh).1 = ix_fresh.
Proof.
  exact (operations_atomic default_policy ix_fresh (OpFetch "unknown") _ (intake_error "unknown intake reservation")
    default_policy_ok fresh_reachable I eq_refl).
Defined.

Lemma reservations_move_legally_witness :
  ∃ h r r', statuses (ix_settled h) = ["qualified"; "published"] ∧ r ∈ db_reservations (ix_queued h) ∧ rv_status r = "published"
    ∧ find_row (ix_settled h) (rv_id r) = Some r' ∧ rtc (λ s t, (s, t) ∈ edges) "published" (rv_status r').
Proof.
  destruct ix_facts_ex as [h Hf]. destruct (statuses_first _ _ _ (ixf_first h Hf)) as (r & Hr & Hs). exists h, r.
  destruct (reservations_move_legally default_policy (ix_queued h) (ix_settled h) r default_policy_ok (ixf_queued h Hf) (ixf_steps h Hf) Hr)
    as [(r' & Hfind & _ & _ & He & _) _]. exists r'. rewrite Hs in He.
  exact (conj (ixf_last h Hf) (conj Hr (conj Hs (conj Hfind He)))).
Defined.

Lemma admission_bounds_witness :
  ∃ h, statuses (ix_queued h) = ["published"; "published"]
    ∧ count_where (status_in PENDING) (db_reservations (ix_queued h)) ≤ ip_max_pending default_policy.
Proof.
  destruct ix_facts_ex as [h Hf]. exists h. split; [apply Hf|].
  exact (proj1 (admission_bounds default_policy (ix_queued h) default_policy_ok (ixf_queued h Hf))).
Defined.

Lemma qualified_pairs_passes_witness :
  ∃ h r q0 q1, r ∈ db_reservations (ix_settled h) ∧ rv_status r = "qualified" ∧ qualifications_of (ix_settled h) (rv_id r) = [q0; q1].
Proof.
  destruct ix_facts_ex as [h Hf]. destruct (statuses_first _ _ _ (ixf_last h Hf)) as (r & Hr & Hs). exists h, r.
  destruct (qualified_pairs_passes default_policy (ix_settled h) r default_policy_ok (ixf_settled h Hf) Hr Hs) as (q0 & q1 & v & p & rep & c & x & Hq & _).
  exists q0, q1. exact (conj Hr (conj Hs Hq)).
Defined.

Lemma reserve_admits_witness :
  ∃ a1 a2 db' rows, reserve_finalized default_policy [a1; a2] (PInt 12) (PStr ix_hash) ix_fresh = (db', Ok rows)
    ∧ Forall (recorded (db_reservations db')) [a1; a2].
Proof.
  destruct ix_reserved_ex as (a1 & a2 & db' & rows & Hall & Hrun). exists a1, a2, db', rows. split; [exact Hrun|].
  destruct (reserve_admits default_policy ix_fresh [a1; a2] _ _ db' rows default_policy_ok fresh_reachable Hall Hrun) as (b & hash & _ & _ & _ & Hrec & _).
  exact Hrec.
Defined.

Lemma reserve_replay_witness :
  ∃ a1 a2 db' rows, reserve_finalized default_policy [a1; a2] (PInt 12) (PStr ix_hash) ix_fresh = (db', Ok rows)
    ∧ reserve_finalized default_policy [a1; a2] (PInt 12) (PStr ix_hash) db' = (db', Ok []).
Proof.
  destruct ix_reserved_ex as (a1 & a2 & db' & rows & Hall & Hrun). exists a1, a2, db', rows. split; [exact Hrun|].
  exact (reserve_replay default_policy ix_fresh [a1; a2] _ _ db' rows default_policy_ok fresh_reachable Hall Hrun).
Defined.

Lemma expire_stale_exact_witness :
  ∃ h rows, statuses (ix_queued h) = ["published"; "published"]
    ∧ expire_stale default_policy (PInt 4000) (ix_queued h) = (expire_result default_policy (ix_queued h) 4000, Ok rows)
    ∧ statuses (expire_result default_policy (ix_queued h) 4000) = ["expired"; "expired"].
Proof.
  destruct ix_facts_ex as [h Hf]. pose proof (ixf_expired h Hf) as He. exists h.
  destruct (expire_stale_exact default_policy (ix_queued h) 4000 default_policy_ok (ixf_queued h Hf) (proj1 (Z.leb_le 0 4000) eq_refl))
    as [[_ [e Hrun]]|[_ (rows & Hrun & _)]]; rewrite Hrun in He; cbn [fst] in He.
  - rewrite (ixf_first h Hf) in He. discriminate He.
  - exists rows. exact (conj (ixf_first h Hf) (conj Hrun He)).
Defined.

Lemma copies_resolved_witness :
  ∃ h copied db', statuses (ix_queued h) = ["published"; "published"] ∧ statuses db' = ["published"; "failed"]
    ∧ reconcile_copies (ix_queued h) = (db', Ok copied) ∧ reconcile_copies db' = (db', Ok []).
Proof.
  destruct ix_facts_ex as [h Hf]. pose proof (ixf_reconciled h Hf) as Hr. exists h.
  destruct (copies_resolved default_policy (ix_queued h) default_policy_ok (ixf_queued h Hf)) as (copied & db' & Hrun & _ & _ & _ & Hagain).
  rewrite Hrun in Hr. exists copied, db'. exact (conj (ixf_first h Hf) (conj Hr (conj Hrun Hagain))).
Defined.

(** ** An arena service *)

Definition ix_service : ArenaServiceManifest :=
  {| am_runtime := {| ri_arena_id := "arena"; ri_runtime_digest := rep "1"; ri_base_engine_digest := rep "2";
       ri_validator_overlay_digest := rep "3"; ri_worker_distribution_digest := rep "4"; ri_model_revision_digest := rep "5";
       ri_model_manifest_digest := rep "6"; ri_model_content_digest := rep "7"; ri_target_architecture := "sm90";
       ri_topology_class := "nvlink"; ri_topology_digest := rep "8"; ri_gpu_count := 8; ri_tensor_parallel_size := 4 |};
     am_workload := {| wm_prompt_corpus_digest := rep "9"; wm_prompt_seed_scheme := "seed";
       wm_regimes := [{| wg_name := "decode"; wg_phase := "decode"; wg_weight_ppm := 600000;
                         wg_shapes := [{| sh_input_tokens := 128; sh_output_tokens := 128; sh_batch_size := 8; sh_samples := 4 |}] |};
                      {| wg_name := "prefill"; wg_phase := "long_prefill"; wg_weight_ppm := 400000;
                         wg_shapes := [{| sh_input_tokens := 8192; sh_output_tokens := 16; sh_batch_size := 1; sh_samples := 4 |}] |}] |};
     am_capacity := {| cp_max_queue_depth := 8; cp_max_queue_age_blocks := 100; cp_max_active_screens := 1;
       cp_max_active_qualifications := 2; cp_max_cohort_size := 2; cp_screen_retry_limit := 3; cp_qualification_retry_limit := 3;
       cp_infrastructure_retry_limit := 3 |};
     am_screens := (λ stage, {| ss_stage := stage; ss_timeout_ms := 1000 |}) <$> SCREEN_STAGES;
     am_qualification_policy_digest := rep "a"; am_provider_digest := rep "b"; am_schema_version := SERVICE_SCHEMA_VERSION |}.

Definition ix_candidate : ArenaCandidateBinding :=
  {| cb_reservation := {| qr_reservation_digest := rep "c"; qr_submission_digest := rep "d"; qr_target_id := ix_target;
       qr_selected_delta_digest := rep "e"; qr_arrival_order := 0; qr_hotkey := "alice"; qr_finalized_block := 10;
       qr_finalized_event_index := 0; qr_finalized_event_subindex := 0; qr_target_members := [ix_target] |};
     cb_publication_digest := rep "d"; cb_screen_attempt := 1 |}.

(** A provider whose graph stage answers late. *)
#[local] Instance ix_provider : ArenaProvider :=
  {| provider_digest := rep "b";
     run_screen := λ _ stage _, ScreenStageResult_init (PStr (ss_stage stage)) GPass (PStr (rep "f"))
                                  (PInt (if bool_decide (ss_stage stage = "graph") then 2000 else 10));
     build_qualification := λ _, Raise (AS.error "not built") |}.

Lemma ix_provider_answers : provider_answers ix_service ix_candidate (am_screens ix_service).
Proof.
  intros stage Hs. cbn in Hs. elem_cases Hs; subst stage; eexists; (split; [vm_compute; reflexivity|]); vm_compute; split; reflexivity.
Qed.

Lemma screen_decides_witness :
  ∃ receipt, screen ix_service ix_candidate = Ok receipt ∧ sr_stage <$> rc_results receipt = ["static"; "build"; "abi"; "graph"]
    ∧ rc_decision receipt = PrRetry.
Proof.
  assert (digest_ok (ArenaServiceManifest_digest ix_service)) as H1 by (apply (bool_decide_unpack _); vm_compute; exact I).
  assert (digest_ok (ArenaCandidateBinding_digest ix_candidate)) as H2 by (apply (bool_decide_unpack _); vm_compute; exact I).
  destruct (screen_decides ix_service ix_candidate eq_refl ix_provider_answers (proj1 (Z.ltb_lt 0 1) eq_refl) H1 H2)
    as (receipt & Hrun & Hdec & Hst & _). exists receipt.
  assert (screen_decision ix_service ix_candidate (am_screens ix_service) = PrRetry) as Ed by (vm_compute; reflexivity).
  assert (ss_stage <$> stages_run ix_service ix_candidate (am_screens ix_service) = ["static"; "build"; "abi"; "graph"]) as Es
    by (vm_compute; reflexivity).
  rewrite Ed in Hdec. rewrite Es in Hst. exact (conj Hrun (conj Hst Hdec)).
Defined.
