(* ===== verification/DebtStoreWitnesses.v ===== *)
(** * The theorems on the finite-debt ledger, applied

    A worked history of the ledger: a policy is activated, the crown of the intake
    scenario is issued a claim, an epoch pays part of it, and the rest is forfeited
    when the hotkey leaves or the family is invalidated. *)

From Stdlib Require Import ZArith Lia Ascii.
From stdpp Require Import base tactics numbers list strings gmap sorting relations.
From S2P Require Import Prelude PyValue Sha256 Identity Strict Graph Provider Catalog CatalogResolve FiniteDebt FiniteDebtBalance.
From S2P Require Import FiniteDebtPolicy Composition Stack Release StackPlan Settlement SettlementPlan Publication Chain Journal.
From S2P Require Import Fingerprint QualificationBatch Arena IntakeData Intake IntakeAdmission IntakeSystem DebtPublication.
From S2P Require Import DebtStoreData DebtStore DebtLedger DebtFrame DebtAudit DebtSteps DebtClose DebtIssue DebtSystem.
From S2P Require Import DebtStoreCorrect Scenario StackWitnesses IntakeWitnesses.

#[local] Existing Instance checksum_sha256.

(** ** The crown *)

Definition dx_error {A} : result A := Raise (FS.error "unexpected").

Definition dx_the {A} (o : option A) : result A := match o with Some a => Ok a | None => dx_error end.

(** The candidate that the intake scenario has qualified, with its retained row. *)
Definition dx_candidate (db : Database) : result (CandidateRow * SettlementCandidate) :=
  let! row := dx_the (head (db_candidates db)) in
  let! c := intake_column (FS.error "candidate") SettlementCandidate_from_dict (default None (ca_candidate_json row)) in
  Ok (row, c).

Definition dx_evidence (db : Database) (c : SettlementCandidate) : result SettlementEvidence :=
  match qualifications_of db (sq_reservation_digest (sc_primary c)) with
  | [q0; q1] =>
      let! r0 := intake_column (FS.error "reference") EvidenceArtifactRef_from_dict (ql_attempt_ref_json q0) in
      let! r1 := intake_column (FS.error "reference") EvidenceArtifactRef_from_dict (ql_attempt_ref_json q1) in
      bind_evidence c r0 r1
  | _ => dx_error
  end.

Definition crowned (evidence : string) (row : CandidateRow) : CandidateRow :=
  {| ca_reservation_id := ca_reservation_id row; ca_authority_digest := ca_authority_digest row; ca_candidate_digest := ca_candidate_digest row;
     ca_candidate_json := ca_candidate_json row; ca_evidence_root := ca_evidence_root row;
     ca_reproduction_evidence_root := ca_reproduction_evidence_root row; ca_settlement_evidence_digest := evidence; ca_status := "crowned";
     ca_lease_id := ""; ca_lease_generation := ca_lease_generation row; ca_lease_expires_block := 0; ca_reason := "qualified_win" |}.

Definition with_candidates (rows : list CandidateRow) (db : Database) : Database :=
  {| db_schema := db_schema db; db_scope := db_scope db; db_cursor := db_cursor db; db_reservations := db_reservations db;
     db_dispositions := db_dispositions db; db_screens := db_screens db; db_qualifications := db_qualifications db; db_candidates := rows;
     db_stacks := db_stacks db; db_event_reservations := db_event_reservations db; db_awarded_proposals := db_awarded_proposals db |}.

Definition with_cursor (block : Z) (hash : string) (db : Database) : Database :=
  {| db_schema := db_schema db; db_scope := db_scope db; db_cursor := Some (Some (PList [PInt block; PStr hash])); db_reservations := db_reservations db;
     db_dispositions := db_dispositions db; db_screens := db_screens db; db_qualifications := db_qualifications db; db_candidates := db_candidates db;
     db_stacks := db_stacks db; db_event_reservations := db_event_reservations db; db_awarded_proposals := db_awarded_proposals db |}.

(** The event of its settlement. *)
Definition dx_event (c : SettlementCandidate) : result SettlementEvent :=
  let! p := plan_settlement [c] (sq_incumbent_manifest (sc_primary c)) (PStr (sq_incumbent_tree_digest (sc_primary c))) (PInt 0) (PStr "") in
  dx_the (List.find (λ e, bool_decide (sv_event_type e = CROWN)) (pl_events p)).

Definition dx_event_row (c : SettlementCandidate) (e : SettlementEvent) : SettlementEventRow :=
  {| sw_sequence := sv_sequence e; sw_event_id := SettlementEvent_digest e; sw_event_type := "CROWN";
     sw_reservation_id := sq_reservation_digest (sc_primary c); sw_arena_id := sq_arena_digest (sc_primary c); sw_target_id := sq_target_id (sc_primary c);
     sw_event_digest := SettlementEvent_digest e; sw_event_json := Dumped (SettlementEvent_to_dict e) |}.

Definition dx_build : result (Database * list SettlementEventRow * CrownAuthority) :=
  let! h := ix_build in
  let db := ix_settled h in
  let! rc := dx_candidate db in
  let! evidence := dx_evidence db rc.2 in
  let! e := dx_event rc.2 in
  let db := with_candidates [crowned (SettlementEvidence_digest evidence) rc.1] db in
  let env := {| le_intake := db; le_settlement_events := [dx_event_row rc.2 e]; le_compositions := [] |} in
  let! crown := _retained_crown_authority env (PStr (SettlementCandidate_digest rc.2)) (PStr (sq_reservation_digest (sc_primary rc.2)))
                  (PStr (SettlementEvent_digest e)) (PStr (SettlementEvidence_digest evidence)) in
  Ok (db, [dx_event_row rc.2 e], crown).

(** ** The ledger *)

Definition dx_scope : string := rep "9".
Definition dx_hash : string := "0x" +:+ rep "a".

Definition dx_crown (crown : CrownAuthority) : Crown :=
  let c := sc_primary (cw_candidate crown) in
  {| kn_arena_digest := sq_arena_digest c; kn_target_id := sq_target_id c; kn_target_spec_digest := ref_target_spec_digest (cw_contribution crown);
     kn_candidate_digest := SettlementCandidate_digest (cw_candidate crown);
     kn_retained_evidence_digest := SettlementEvidence_digest (cw_evidence crown); kn_hotkey := sq_hotkey c;
     kn_settled_speedup := sc_speedup (cw_candidate crown); kn_accepted_crown_block := sq_finalized_block c;
     kn_accepted_crown_block_hash := fa_block_hash (cw_arrival crown); kn_event_index := sq_event_index c; kn_event_subindex := sq_event_subindex c;
     kn_reservation_digest := sq_reservation_digest c; kn_settlement_block := 30; kn_settlement_block_hash := Some dx_hash;
     kn_settlement_event_digest := SettlementEvent_digest (cw_event crown) |}.

(** The campaign of the crown's family. *)
Definition dx_policy (family : string) : result FiniteDebtPolicyManifest :=
  FiniteDebtPolicyManifest_init [{| cbs_campaign_id := rep "a"; cbs_share_ppm := PPM |}] [{| rfc_family_id := family; rfc_campaign_id := rep "a" |}]
    (PStr (rep "c")) (PStr "reserve") (PInt 100000) (PInt 360) (PInt 500000) (PInt 7200) (PInt 100000) (PInt 1000000)
    (PStr "gross") (PInt 1000000) (PInt 2) (PStr "optima.finite-debt.v2").

Definition dx_env (db : Database) (events : list SettlementEventRow) (block : Z) : LedgerEnv :=
  {| le_intake := with_cursor block dx_hash db; le_settlement_events := events; le_compositions := [] |}.

Definition dx_metagraph (block : Z) : MetagraphView :=
  {| mg_netuid := 7; mg_block := block; mg_block_hash := dx_hash; mg_uids := [0; 1; 2]; mg_hotkeys := ["validator"; "reserve"; "alice"];
     mg_validator_permit := [true; false; false]; mg_last_update := [1; 1; 1] |}.

Definition dx_hotkeys : list pyval := [PStr "reserve"; PStr "alice"].

(** The projection of the first epoch is published and confirmed. *)
Definition dx_published (policy : FiniteDebtPolicyManifest) (activation_digest : string) (s : DebtClaimState)
    : result (DebtEpochProjection * ConfirmedDebtWeightPublication * PublicationTables) :=
  let! projection := project_debt_epoch policy (PInt 365) [s] in
  let! binding := build_debt_weight_publication_binding (CoreProjection projection) PUBLICATION_KIND_CORE activation_digest dx_scope (PInt 7)
                    (PStr "validator") (dx_metagraph 365) (PInt 1) in
  let w := bd_weight_projection binding in
  let! record := WeightPublicationRecord_init (PStr (WeightProjection_digest w)) (PStr "confirmed") PNone (PInt 366) (PInt 0) (PInt 0)
                   (PInt 370) (PInt 368) (PStr "") in
  let! pt := debt_compare_and_swap {| pt_confirmations := []; pt_journal := [] |} binding (Some (λ _, Ok tt)) None record in
  let! confirmation := build_confirmed_debt_weight_publication binding record (dx_metagraph 370)
                         {| vs_weights := wj_weights w; vs_last_update_block := 368 |} in
  Ok (projection, confirmation, pt).

(** ** Its values

    The policy is activated at block 5 and the crown issued at block 30; from there
    the first epoch closes, or alice leaves, or the family is invalidated.  The audits
    that these operations begin with are not evaluated: the lemmas on the earlier
    operations give their results. *)

Definition dx_value : result (Database * list SettlementEventRow * CrownAuthority) := Eval vm_compute in dx_build.

Lemma dx_built : dx_build = dx_value.
Proof. vm_compute. reflexivity. Qed.

Definition dx_db : Database := match dx_value with Ok (db, _, _) => db | Raise _ => empty_database end.
Definition dx_events : list SettlementEventRow := match dx_value with Ok (_, events, _) => events | Raise _ => [] end.

Definition no_crown : Crown :=
  {| kn_arena_digest := ""; kn_target_id := ""; kn_target_spec_digest := ""; kn_candidate_digest := ""; kn_retained_evidence_digest := ""; kn_hotkey := "";
     kn_settled_speedup := ""; kn_accepted_crown_block := 0; kn_accepted_crown_block_hash := ""; kn_event_index := 0; kn_event_subindex := 0;
     kn_reservation_digest := ""; kn_settlement_block := 0; kn_settlement_block_hash := None; kn_settlement_event_digest := "" |}.

Definition dx_k : Crown := Eval vm_compute in match dx_value with Ok (_, _, crown) => dx_crown crown | Raise _ => no_crown end.

Definition env_at (block : Z) : LedgerEnv := dx_env dx_db dx_events block.

Definition dx_family : string :=
  Eval vm_compute in text_of (reward_family_id (kn_arena_digest dx_k) (kn_target_id dx_k) (kn_target_spec_digest dx_k)).

(** The result of a run that is known to return. *)
Definition returned {A} (r : result A) (a : A) : A := match r with Ok a => a | Raise _ => a end.

Definition dx_manifest : FiniteDebtPolicyManifest := Eval vm_compute in returned (dx_policy dx_family) (ex_policy 0).
Definition dx_pd : string := Eval vm_compute in text_of (FiniteDebtPolicyManifest_digest dx_manifest).

Definition dx_activating : result (DebtTables * FiniteDebtPolicyActivation) :=
  activate_policy dx_scope (env_at 5) true dx_manifest 5 dx_hash [] empty_debt.

Definition no_activation : FiniteDebtPolicyActivation :=
  {| pa_chain_scope_digest := ""; pa_policy := dx_manifest; pa_activation_block := 0; pa_activation_block_hash := ""; pa_previous_policy_digest := "";
     pa_seeded_family_clocks := [] |}.

Definition dx_t1 : DebtTables := Eval vm_compute in (returned dx_activating (empty_debt, no_activation)).1.
Definition dx_activation : FiniteDebtPolicyActivation := Eval vm_compute in (returned dx_activating (empty_debt, no_activation)).2.

Lemma dx_activated : activate_policy dx_scope (env_at 5) true dx_manifest 5 dx_hash [] empty_debt = Ok (dx_t1, dx_activation).
Proof. vm_compute. reflexivity. Qed.

Lemma dx_unseen : crown_outcomes dx_scope (env_at 30) dx_t1 = Ok ∅.
Proof. vm_compute. reflexivity. Qed.

Definition dx_issuing : DebtTables * option InnovationDebtClaim :=
  Eval vm_compute in returned (issue_crown_in_transaction dx_scope (env_at 30) dx_k dx_t1) (empty_debt, None).

Definition dx_t2 : DebtTables := Eval vm_compute in dx_issuing.1.
Definition dx_claim : InnovationDebtClaim := Eval vm_compute in match dx_issuing.2 with Some c => c | None => ex_claim0 end.
Definition dx_opened : DebtClaimBalance := Eval vm_compute in returned (DebtClaimBalance_open dx_claim) (ex_open dx_claim "").
Definition dx_state : DebtClaimState := {| ds_claim := dx_claim; ds_balance := dx_opened |}.

Lemma dx_issued : issue_crown_in_transaction dx_scope (env_at 30) dx_k dx_t1 = Ok (dx_t2, Some dx_claim).
Proof. vm_compute. reflexivity. Qed.

Lemma dx_open : DebtClaimBalance_open dx_claim = Ok dx_opened.
Proof. vm_compute. reflexivity. Qed.

(** ** What holds of them *)

Lemma dx_build_crown db events crown : dx_build = Ok (db, events, crown) → sq_finalized_block (sc_primary (cw_candidate crown)) ≤ 30 →
  crown_of (dx_env db events 30) (dx_crown crown) crown.
Proof.
  unfold dx_build. intros Hb Hle. apply bind_Ok in Hb as (h & _ & Hb). apply bind_Ok in Hb as (rc & _ & Hb). apply bind_Ok in Hb as (evidence & _ & Hb).
  apply bind_Ok in Hb as (e & _ & Hb). apply bind_Ok in Hb as (c & Hc & Hb). injection Hb as <- <- ->.
  pose proof (authority_facts _ _ _ _ _ _ Hc) as (A1 & A2 & A3 & A4 & _).
  constructor; try reflexivity; [|exact Hle]. unfold dx_crown. cbn [kn_candidate_digest kn_reservation_digest kn_settlement_event_digest kn_retained_evidence_digest].
  rewrite A1, A2, A3, A4. exact Hc.
Qed.

Lemma dx_crowned : ∃ crown, crown_of (env_at 30) dx_k crown.
Proof.
  assert (∃ crown, dx_value = Ok (dx_db, dx_events, crown) ∧ dx_k = dx_crown crown ∧ sq_finalized_block (sc_primary (cw_candidate crown)) ≤ 30)
    as (crown & E & -> & Hle) by (eexists; split; [reflexivity|]; split; [reflexivity | done]).
  exists crown. apply dx_build_crown; [rewrite dx_built; exact E | exact Hle].
Qed.

Lemma dx_manifest_wf : policy_wf dx_manifest.
Proof.
  assert (dx_policy dx_family = Ok dx_manifest) as Hp by (vm_compute; reflexivity).
  refine (proj1 (FiniteDebtPolicyManifest_init_wf _ _ _ _ _ _ _ _ _ _ _ _ _ _ _ Hp _)). apply Forall_singleton. split; (split; [reflexivity | discriminate]).
Qed.

Lemma no_zero_preimage : zero_preimage → False.
Proof.
  intros [data Hz]. apply (f_equal (String.get 7)) in Hz. revert Hz. change (sha256_hex data) with (checksum_hex data). unfold checksum_hex. cbn [fmap list_fmap join].
  destruct (checksum data 1 1). discriminate.
Qed.

Lemma dx_env_extends db events b c : env_extends (dx_env db events b) (dx_env db events c).
Proof. intros a1 a2 a3 a4 x Hx. exact Hx. Qed.

Lemma dx_cursor b c : env_extends (env_at b) (env_at c).
Proof. exact (dx_env_extends dx_db dx_events b c). Qed.

Lemma dx_first : ledger_ok dx_scope (env_at 30) dx_t1 [].
Proof.
  destruct (activate_policy_ok _ _ _ _ _ _ _ _ _ _ _ (empty_audited dx_scope (env_at 5)) dx_manifest_wf (Forall_nil_2 _) (Forall_nil_2 _) dx_activated) as [[Hok|Hz] _];
    [|destruct (no_zero_preimage Hz)]. exact (ledger_ok_env _ _ _ (dx_cursor 5 30) _ _ Hok).
Qed.

Lemma dx_second b : ledger_ok dx_scope (env_at b) dx_t2 [dx_state].
Proof.
  destruct dx_crowned as [crown Hk].
  destruct (issue_crown_ok _ _ _ _ _ _ _ _ _ dx_first Hk dx_unseen (not_elem_of_empty _) dx_issued) as [(o & Ho & Hok)|[[=] _]].
  rewrite dx_open in Ho. injection Ho as <-. exact (ledger_ok_env _ _ _ (dx_cursor 30 b) _ _ Hok).
Qed.

Lemma dx_steps : rtc (ledger_step dx_scope) (env_at 5, empty_debt) (env_at 30, dx_t2).
Proof.
  destruct dx_crowned as [crown Hk].
  eapply rtc_l; [exact (step_activate _ _ _ _ _ _ _ _ _ _ dx_manifest_wf (Forall_nil_2 _) (Forall_nil_2 _ : Forall _ (dt_events empty_debt)) dx_activated)|].
  eapply rtc_l; [exact (step_database _ _ _ _ (dx_cursor 5 30))|]. apply rtc_once.
  exact (step_issue _ _ _ _ _ _ _ _ Hk dx_unseen (not_elem_of_empty _) dx_issued).
Qed.

(** ** The operations on the issued claim

    The audits are replaced by their known results; what is left is evaluated. *)

Ltac run := match goal with |- ?f = Ok _ => let v := eval vm_compute in f in match v with Ok ?a => exact (eq_refl (Ok a) <: f = Ok a) end end.
Ltac run_step := eapply bind_step; [run | cbv beta].

Lemma dx_left : ∃ t' s', reconcile_lifecycle dx_scope (env_at 400) 400 dx_hash [PStr "reserve"] dx_t2 = Ok (t', [s']).
Proof.
  eexists _, _. unfold reconcile_lifecycle. do 4 run_step. eapply bind_step; [exact (ledger_ok_states _ _ _ _ (dx_second 400)) | cbv beta]. run.
Qed.

Lemma dx_clocks b : audited_clocks dx_scope (env_at b) dx_t2 = Ok (clocks_in_order (dt_clocks dx_t2)).
Proof. apply audited_clocks_Ok. split; [reflexivity | exact (lo_clocks _ _ _ _ (dx_second b))]. Qed.

Lemma dx_pd_ok : digest_ok dx_pd.
Proof. split; [reflexivity | discriminate]. Qed.

Ltac run_match :=
  match goal with |- match ?x with _ => _ end = Ok _ => let v := eval vm_compute in x in rewrite ((eq_refl v <: x = v) : x = v); cbv beta iota end.

Lemma dx_policy_states b : _claim_states dx_scope (env_at b) (Some dx_pd) dx_t2 = Ok [dx_state].
Proof. exact (ledger_ok_policy _ _ _ _ _ (dx_second b) dx_pd_ok). Qed.

Lemma dx_latest b : _latest_clock dx_scope (env_at b) dx_pd dx_family dx_t2 = Ok (last (dt_clocks dx_t2)).
Proof.
  unfold _latest_clock, family_clocks. eapply bind_step; [|cbv beta; reflexivity]. do 2 run_step.
  eapply bind_step; [exact (dx_clocks b) | cbv beta]. run.
Qed.

Lemma dx_cancelled : ∃ t' s', invalidate_family dx_scope (env_at 400) dx_pd dx_family (rep "d") 400 dx_hash dx_t2 = Ok (t', [s']) ∧
  List.find (λ c, is_invalidation dx_pd dx_family c && bool_decide (fc_reservation_digest c = rep "d")) (dt_clocks dx_t2) = None.
Proof.
  eexists _, _. split; [|vm_compute; reflexivity]. unfold invalidate_family. do 5 run_step. run_match. do 2 run_step. do 4 run_step.
  eapply bind_step; [exact (dx_latest 400) | cbv beta]. run_step. eapply bind_step; [exact (dx_policy_states 400) | cbv beta]. run.
Qed.

(** The first epoch: its projection, the confirmation and the publication store. *)
Definition dx_publication : result (DebtEpochProjection * ConfirmedDebtWeightPublication * PublicationTables) :=
  Eval vm_compute in (let! activation := FiniteDebtPolicyActivation_digest dx_activation in dx_published dx_manifest activation dx_state).

Lemma dx_project projection confirmation pt : dx_publication = Ok (projection, confirmation, pt) →
  ∃ eligible, _eligible_hotkeys dx_hotkeys = Ok eligible ∧ _project_epoch dx_scope (env_at 370) 365 eligible false dx_t2 = Ok projection.
Proof.
  intros [= <- <- <-]. eexists. split; [run|]. unfold _project_epoch. run_step. do 2 run_step. run_match. do 3 run_step.
  eapply bind_step; [exact (dx_policy_states 370) | cbv beta]. run.
Qed.

Lemma dx_closed : ∃ projection confirmation pt t' pt' epoch,
  close_confirmed_epoch dx_scope (env_at 370) projection confirmation dx_hotkeys dx_t2 pt = Ok (t', pt', epoch) ∧
  find_epoch dx_t2 (dp_policy_digest projection) (dp_effective_block projection) = None.
Proof.
  destruct dx_publication as [[[projection confirmation] pt]|] eqn:E; [|discriminate]. destruct (dx_project _ _ _ E) as (eligible & He & Hp).
  exists projection, confirmation, pt. injection E as <- <- <-. eexists _, _, _. split; [|vm_compute; reflexivity]. unfold close_confirmed_epoch. do 2 run_step. cbv zeta.
  eapply bind_step; [exact He | cbv beta]. do 3 run_step. run_match. run_step. do 6 run_step. eapply bind_step; [exact Hp | cbv beta]. do 2 run_step.
  eapply bind_step; [exact (dx_policy_states 370) | cbv beta]. run.
Qed.

(** ** Witnesses *)

Lemma ledger_always_audits_witness :
  ∃ states, rtc (ledger_step dx_scope) (env_at 5, empty_debt) (env_at 30, dx_t2) ∧ claim_states dx_scope (env_at 30) None dx_t2 = Ok states ∧ Forall conserves states.
Proof.
  destruct (ledger_always_audits dx_scope _ _ _ dx_steps) as [(states & Hs & Hc)|Hz]; [|destruct (no_zero_preimage Hz)].
  exists states. split; [exact dx_steps|]. split; [exact Hs | exact Hc].
Defined.

Lemma audit_sound_witness :
  ∃ later, mapM _balance_from_row (balances_of dx_t2 (InnovationDebtClaim_digest dx_claim)) = Ok (dx_opened :: later) ∧
    advancing dx_opened later ∧ conserves dx_state ∧ claim_states dx_scope (env_at 30) None dx_t2 = Ok [dx_state].
Proof.
  pose proof (ledger_claim_states _ _ _ _ (dx_second 30)) as Hs.
  destruct (audit_sound dx_scope _ dx_t2 _ dx_state Hs (list_elem_of_here _ _)) as (es & rows & o & later & _ & -> & Hr & _ & Ho & _ & Ha & _ & _ & Hc).
  assert (o = dx_opened) as -> by (injection (eq_trans (eq_sym Ho) dx_open); exact id).
  exists later. exact (conj Hr (conj Ha (conj Hc Hs))).
Defined.

Lemma issue_exact_witness :
  ∃ opened, issue_crown_in_transaction dx_scope (env_at 30) dx_k dx_t1 = Ok (dx_t2, Some dx_claim) ∧
    claim_states dx_scope (env_at 30) None dx_t2 = Ok (sorted_by claim_key ([] ++ [{| ds_claim := dx_claim; ds_balance := opened |}])).
Proof.
  destruct dx_crowned as [crown Hk].
  destruct (issue_exact dx_scope _ dx_t1 dx_t2 dx_k crown (Some dx_claim) [] ∅ (lo_schema _ _ _ _ dx_first) (ledger_claim_states _ _ _ _ dx_first)
    Hk dx_unseen (not_elem_of_empty _) dx_issued) as (o & _ & Hs).
  exists o. split; [exact dx_issued | exact Hs].
Defined.

Lemma lifecycle_exact_witness :
  ∃ t' s' eligible, reconcile_lifecycle dx_scope (env_at 400) 400 dx_hash [PStr "reserve"] dx_t2 = Ok (t', [s']) ∧
    claim_states dx_scope (env_at 400) None t' = Ok (reconciled 400 eligible <$> [dx_state]) ∧
    [s'] = reconciled 400 eligible <$> List.filter (due 400 eligible) [dx_state].
Proof.
  destruct dx_left as (t' & s' & H). pose proof (dx_second 400) as H2.
  destruct (lifecycle_exact dx_scope _ 400 dx_hash _ dx_t2 t' _ _ (lo_schema _ _ _ _ H2) (ledger_claim_states _ _ _ _ H2) H) as (eligible & _ & Hs & Hc).
  exists t', s', eligible. exact (conj H (conj Hs Hc)).
Defined.

Lemma invalidation_exact_witness :
  ∃ t' s', invalidate_family dx_scope (env_at 400) dx_pd dx_family (rep "d") 400 dx_hash dx_t2 = Ok (t', [s']) ∧
    claim_states dx_scope (env_at 400) None t' = Ok (invalidated dx_pd dx_family 400 <$> [dx_state]) ∧ [s'] = cut 400 <$> List.filter (hit dx_pd dx_family) [dx_state].
Proof.
  destruct dx_cancelled as (t' & s' & H & Hf). pose proof (dx_second 400) as H2.
  pose proof (invalidation_exact dx_scope _ dx_pd dx_family (rep "d") 400 dx_hash dx_t2 t' _ _ (lo_schema _ _ _ _ H2) (ledger_claim_states _ _ _ _ H2) H) as Hx.
  rewrite Hf in Hx. destruct Hx as [[Hs|[[=] _]] Hc]. exists t', s'. exact (conj H (conj Hs Hc)).
Defined.

Lemma close_pays_projection_witness :
  ∃ projection paid updated t', find_epoch dx_t2 (dp_policy_digest projection) (dp_effective_block projection) = None ∧
    apply_debt_epoch_projection (List.filter (of_policy (dp_policy_digest projection)) [dx_state]) paid = Ok updated ∧
    claim_states dx_scope (env_at 370) None t' = Ok (moved (changed_pairs (List.filter (of_policy (dp_policy_digest projection)) [dx_state]) updated) <$> [dx_state]).
Proof.
  destruct dx_closed as (projection & confirmation & pt & t' & pt' & epoch & H & Hf). pose proof (dx_second 370) as H2.
  destruct (close_pays_projection dx_scope _ projection confirmation _ dx_t2 pt t' pt' epoch _ (lo_schema _ _ _ _ H2) (ledger_claim_states _ _ _ _ H2) H Hf)
    as (activation & paid & updated & _ & _ & _ & Hu & _ & Hs).
  exists projection, paid, updated, t'. exact (conj Hf (conj Hu Hs)).
Defined.

(** The rows of a chain in another order. *)
Definition shuffled (t : DebtTables) : DebtTables :=
  {| dt_events := reverse (dt_events t); dt_activations := dt_activations t; dt_clocks := dt_clocks t; dt_claims := dt_claims t;
     dt_balances := dt_balances t; dt_epochs := dt_epochs t; dt_allocations := dt_allocations t |}.

Definition dx_chain : result DebtTables :=
  let! r := _append_event dx_scope "claim_expired" 7 dx_hash (py_dict [("claim_digest", PStr (rep "1"))]) empty_debt in
  let! r := _append_event dx_scope "claim_cancelled" 8 dx_hash (py_dict [("claim_digest", PStr (rep "2"))]) r.1 in
  Ok r.1.

Lemma chain_tamper_evident_witness :
  ∃ t es1 es2, reward_events dx_scope t = Ok es1 ∧ reward_events dx_scope (shuffled t) = Ok es2 ∧ length es1 = 2%nat ∧
    (Forall2 same_event es1 es2 ∨ event_collision dx_scope es1 es2).
Proof.
  assert (match dx_chain with
          | Ok t => match reward_events dx_scope t, reward_events dx_scope (shuffled t) with
                    | Ok es1, Ok es2 => bool_decide (chain_head es1 = chain_head es2 ∧ length es1 = 2%nat)
                    | _, _ => false end
          | _ => false end = true) as Hrun by (vm_compute; reflexivity).
  destruct dx_chain as [t|]; [|discriminate]. exists t. destruct (reward_events dx_scope t) as [es1|] eqn:E1; [|discriminate].
  destruct (reward_events dx_scope (shuffled t)) as [es2|] eqn:E2; [|discriminate]. apply bool_decide_eq_true in Hrun as [Hh Hl].
  exists es1, es2. split; [reflexivity|]. split; [reflexivity|]. split; [exact Hl|]. exact (chain_tamper_evident dx_scope t (shuffled t) es1 es2 E1 E2 Hh).
Defined.
